(* ===== verification/_CoqProject ===== *)
-Q . S2P
Prelude.v
ByteMem.v
Def.v
IpAddr.v
Mem.v
MemFacts.v
MemClient.v
Memp.v
MempFacts.v
MempPool.v
Pbuf.v
PbufFacts.v
PbufData.v
PbufLife.v
PbufChain.v
PbufCopy.v
PbufAlloc.v
Chksum.v
ChksumFacts.v
ChksumPseudo.v
Ip4Addr.v
Ip4AddrFacts.v
Timeouts.v
TimeoutsFacts.v
TimeoutsPool.v
Ip6Addr.v
Ip6AddrFacts.v
Ip6AddrText.v
Ip6AddrRound.v
Etharp.v
EtharpFacts.v
EtharpRuns.v
EtharpLink.v
PbufOwn.v
Ip4Frag.v
Ip4FragFacts.v
Ip4FragQueue.v
Ip4FragState.v
Ip4FragReass.v
Ip4FragRuns.v
Ip4FragOrder.v
Ip4FragLink.v
Iface.v
Igmp.v
Netif.v
Autoip.v
IfaceFacts.v
IgmpFacts.v
NetifFacts.v
IfaceInv.v
IgmpMembers.v
NetifList.v
AutoipFacts.v
AutoipRuns.v
IfaceRuns.v
IgmpRuns.v
IfaceSteps.v
IfaceSpec.v
IgmpSpec.v
NetifNames.v
IfaceLink.v
Ip4.v
Icmp.v
Ip4Input.v
Ip4Facts.v
Ip4FragOut.v
Ip4FragSend.v
Ip4FragTrip.v
Ip4Send.v
Ip4OutFacts.v
Ip4Output.v
IcmpFacts.v
IcmpEcho.v
Ip4InputFacts.v
Ip4Link.v
Udp.v
UdpFacts.v
UdpIp.v
UdpIpFacts.v
UdpLink.v
