(* ===== verification/Prelude.v ===== *)
(** * Verification of the network stack of EmbeddedInfraLib

    EmbeddedInfraLib is a C++ library for microcontrollers; the C program in it is
    the TCP/IP stack lwIP 2.1.1 (src/lwip/lwip-2.1.1/src, [core/] and [netif/] below),
    configured by src/lwip/lwip_config/lwipopts.h and src/lwip/lwip_config/arch/cc.h.
    This development models the core of that stack as Rocq functions and proves what
    its parts promise each other and their users.

    ** The program and its model

    The stack is layered.  mem.c is a heap with variable-size blocks, memp.c a set of
    pools with fixed-size elements.  pbuf.c builds packets on both: a packet is a chain
    of structs that reference payload memory and carry reference counts.
    inet_chksum.c sums packets.  timeouts.c keeps the list of pending timers in a pool;
    its cyclic timers call the timer functions of the protocols, such as etharp_tmr.
    etharp.c maps IPv4 addresses to Ethernet addresses and holds packets until an
    address is known.  ip4_frag.c collects the fragments of incoming IPv4 datagrams,
    linked through their own headers, until a datagram is complete or too old.  netif.c
    keeps the list of interfaces with their addresses and flags and tells the protocols
    about changes; igmp.c keeps the multicast groups of each interface, in a pool, and
    answers the queries of routers; autoip.c finds a link-local address for an interface
    with ARP probes.  ip4.c puts IP headers in front of packets, chooses the interface they
    leave through, cuts the ones that are too large with the other half of ip4_frag.c, and
    checks and delivers the packets that arrive; icmp.c answers echo requests and reports
    errors.  udp.c keeps the blocks that applications bind to ports, gives the datagrams that
    arrive to them and sends theirs.  def.c, ip4_addr.c, ip6_addr.c and ip.c are helpers for byte order,
    strings and addresses.

      file of this development                     models
      Prelude.v                                    results of C functions, machine integers, tactics
      ByteMem.v                                    memory as bytes, memcpy and memset
      Def.v                                        core/def.c
      IpAddr.v                                     include/lwip/ip4_addr.h, ip6_addr.h, ip_addr.h
      Mem.v, MemFacts.v, MemClient.v               core/mem.c
      Memp.v, MempFacts.v, MempPool.v              core/memp.c
      Pbuf.v and the other Pbuf*.v                 core/pbuf.c
      Chksum.v, ChksumFacts.v, ChksumPseudo.v      core/inet_chksum.c
      Ip4Addr.v, Ip4AddrFacts.v                    core/ipv4/ip4_addr.c
      Timeouts.v, TimeoutsFacts.v, TimeoutsPool.v  core/timeouts.c
      Ip6Addr.v, Ip6Addr{Facts,Text,Round}.v       core/ipv6/ip6_addr.c, core/ip.c
      Etharp.v, Etharp{Facts,Runs,Link}.v          core/ipv4/etharp.c
      Ip4Frag.v, Ip4Frag{Facts,Queue,State,Reass,
        Order,Runs,Link}.v                         core/ipv4/ip4_frag.c (reassembly)
      Iface.v                                      the structs and the state of the next three
      Netif.v, NetifFacts.v, NetifList.v,
        NetifNames.v                               core/netif.c
      Igmp.v, Igmp{Facts,Members,Runs,Spec}.v      core/ipv4/igmp.c
      Autoip.v, AutoipFacts.v, AutoipRuns.v        core/ipv4/autoip.c
      Iface{Facts,Inv,Runs,Steps,Spec,Link}.v      the three together
      Ip4.v, Ip4Facts.v                            core/ipv4/ip4.c (routing and output) and
                                                   core/ipv4/ip4_frag.c (fragmentation)
      Ip4Frag{Out,Send,Trip}.v                     fragmentation, and reassembly after it
      Ip4Send.v, Ip4OutFacts.v, Ip4Output.v        routing and output
      Icmp.v, IcmpFacts.v, IcmpEcho.v              core/ipv4/icmp.c
      Ip4Input.v, Ip4InputFacts.v                  core/ipv4/ip4.c (input)
      Ip4Link.v                                    the IPv4 layer on a concrete host
      Udp.v, UdpFacts.v                            core/udp.c (the blocks)
      UdpIp.v, UdpIpFacts.v                        core/udp.c (the datagrams)
      UdpLink.v                                    UDP on a concrete host

    The first file of a group holds the definitions, one per C function (a loop of a
    function is a definition of its own), the others the theorems.

    ** How the code is modelled

    A C function is a function on explicit state with the result type [res] below:
    [Ok], [Assert] (a failed LWIP_ASSERT or LWIP_ERROR; cc.h makes both abort), [Ub]
    (a NULL dereference, an access outside every object, a misaligned load) and [Stuck].
    A theorem that a call returns [Ok] therefore includes that no assertion fails and
    that memory is used correctly.  Integers are [Z] and every C conversion is written
    as a reduction ([u8], [u16], [u32]).  Structs are records in finite maps
    indexed by address; payload bytes are a finite map from addresses to bytes.

    Loops that are not structural take fuel.  The fuel is computed from the state (the
    number of structs, of bytes of the string, of table entries), and theorems state
    that the call returns [Ok], so that [Stuck] never occurs: with that fuel the loops
    terminate.  There are two exceptions.  frag_loop is given one round for each byte of
    the packet: that is enough for every MTU from 28 bytes on, as the theorems on ip4_frag
    show, while below the loop of the code need not end at all.  sys_check_timeouts takes
    the fuel as an argument, since its handlers may start timeouts that are due at once;
    one round for every millisecond that a due timeout is late is enough.

    A component reaches the ones below it through a class, and its theorems are proved
    against the laws of that class:
      - [Allocator] and [AllocatorLaws] (Pbuf.v, PbufLife.v): what pbuf.c needs of the heap
        and the pools; PbufAlloc.v proves the laws from the theorems on mem.c and memp.c;
      - [Pool] and [PoolLaws] (MempPool.v): one pool of memp.c as its user sees it, with the
        proof that the pools of memp.c satisfy the laws;
      - [TimerEnv] and [TimerCallbacks] (Timeouts.v, TimeoutsFacts.v): the clock and the
        callbacks of the timers, which may start and stop timeouts; [std_callbacks] proves
        the laws of the handlers of timeouts.c when the callbacks of the other modules leave
        the timers alone;
      - [Packets] and [PacketsLaws] (Etharp.v, EtharpFacts.v): packets and Ethernet output
        as the ARP cache sees them; EtharpLink.v gives an instance.  The law of
        autoip_arp_reply allows it to abort on an interface that is down, and
        IfaceSpec.autoip_arp_reply_total shows that autoip.c obeys it;
      - [ReassEnv] and [ReassEnvLaws] (Ip4Frag.v, Ip4FragState.v): the ICMP answer to a
        datagram that is given up; reassembly itself runs on the packets of Pbuf.v, the
        laws of the allocator and a [Pool].  [icmp_leaves_nothing] says that the answer
        leaves no packet behind;
      - [NetEnv] and [NetEnvLaws] (Iface.v): the calls of the interface layer into TCP, UDP,
        ARP, neighbour discovery, DHCP and the drivers, and the packets it sends, for which
        memory may be denied at any time; IfaceLink.v gives an instance;
      - [Link] and [LinkLaws] (Ip4.v, Ip4Facts.v): the function netif->output, which records
        what it is given, may put up to 14 bytes in front of it and may keep a reference, and
        the pool of structs pbuf_custom_ref; Ip4Link.v gives an instance.  [LinkKeeps] names
        the structs that the link layer keeps, so that one can say that no others are left;
      - [Transport] (Ip4Input.v): UDP, TCP and IGMP as ip4_input calls them; [udp_transport] of
        UdpIp.v is an instance with the UDP of this stack;
      - [UdpEnv] (UdpIp.v): the callbacks of the applications and IPv6 as udp.c calls them.
    The instance icmp_reass_laws of Ip4InputFacts.v discharges [ReassEnvLaws] with the ICMP
    of this stack: reassembly, ICMP, routing, output and fragmentation fit together.

    ** What is proved

    Heap: [mem_malloc], [mem_free] and [mem_trim] refine operations on a list of blocks
    (first fit with splitting, merging of free neighbours); along every run the blocks
    held by users are aligned, inside the heap and disjoint, and writes of the users into
    them damage nothing; mem_trim of the last block aborts.
    Pools: the free list and the held elements always partition the pool.
    Packets: the functions that copy, compare, search and write packet data equal
    operations on the byte string of the packet for every segmentation; allocation
    returns well-formed fresh chains or gives everything back; reference counts, chaining,
    headers and shortening do what their documentation says; a chain of 256 structs makes
    pbuf_dechain return a dangling pointer.
    Checksums: the three versions of the summing loop are the sum of RFC 1071, checksums
    of packets do not depend on the segmentation, pseudo headers are those of RFC 793 and
    RFC 2460, a packet with its checksum stored verifies.
    Timers: the list refines an ordered abstract list in spite of the wrap-around of the
    clock; what is due fires in order, handlers that start timeouts again included, provided
    that they start later ones, and nothing due is left; cyclic timers keep their period.
    Addresses: printing and parsing are inverse for both families, parsing is memory safe
    on every string, ip6addr_ntoa_r reads outside the address for some addresses.
    ARP cache: along every run the cache is well formed and owns exactly the references it
    must own, no operation fails except when an 8-bit count of references is full or AutoIP
    aborts on an interface that is down, entries expire, the replacement policy is the documented one, packets that
    wait for an address are sent to it when it is learnt.
    Reassembly: along every run the queues are sorted, free of overlaps and exclusively
    owned, the counter of structs is exact and bounded, no call fails; fragments in any
    order give the datagram; incomplete datagrams expire and their packets are released;
    making room terminates and gives
    up the oldest datagrams.  Fragments have at most 6553 bytes in these theorems, so
    that the ten structs that may wait never exceed a 16-bit length.
    Interfaces: along every sequence of calls of netif.c, igmp.c and autoip.c, whatever the
    rest of the stack does in between, the fields of the interfaces fit their types (drivers
    being expected to fill in values that fit), the
    structs of the groups have exactly one owner, numbers are unique, and no call fails; a
    change of address is reported completely and in the right order; names and indices are
    inverse; with 255 interfaces netif_add runs forever.  Joined groups refine a multiset of
    addresses and are reported in time after a query, unless pbuf_alloc returns NULL
    meanwhile; the counter of users of a group wraps.
    AutoIP reaches a link-local address in a time that is given exactly, and, on an interface
    that is up, moves on to another one, or defends it, when there is a conflict; on an
    interface that is down it aborts.
    IPv4: ip4_route implements the rules of routing, stated as a relation; ip4_output hands
    to the link layer exactly the packet with its header, or its fragments in order, and the
    caller keeps its packet; the fragments of ip4_frag, in any order, make ip4_reass return
    the original datagram, when the MTU is such that the last fragment is marked correctly;
    for the other MTUs two fragments look like the last one.  A packet has at most 254
    fragments in these theorems ([can_cut]), so that a link layer that keeps them all cannot
    make an 8-bit count of references overflow.  ip4_input releases malformed packets and
    packets for other hosts without any effect and answers an intact echo request with its
    reply; error messages quote the packet they are about.  That a packet is released means
    that the structs in use are those of before without the ones of the packet ([without]);
    where something is sent, that every struct in use was in use before or is held by the
    link layer ([accounted]), for messages that need not be cut.  The theorems on ip4_input are on
    packets without bytes behind the datagram, and on packets that are no fragments as far as
    the delivery goes.
    UDP: along every sequence of calls the list of blocks is consistent and no call fails, and
    two blocks never have the same port with overlapping addresses, as long as interfaces
    change only to addresses that no block is bound to (the code does not check this, and
    UdpLink.addr_changed_clash shows two blocks that overlap), so that the block found for a datagram is the only one that matches; the search for a
    free port ends and fails only when all ports are taken (its fuel is the size of the range);
    ip4_input gives the data of a datagram to the callback of its block, or answers "port
    unreachable"; udp_sendto hands the data with both headers to the link layer.  The theorem on
    udp_sendto is on packets with room for the headers in front and on IPv4 destinations.

    ** Not modelled

    The C++ libraries of the repository and the third-party code under external/ (see the
    manifest for each part).  Of lwIP: the files that the configuration compiles to
    nothing (raw.c, altcp*.c, dhcp6.c, netif/ppp, api/), the applications, TCP,
    DHCP, DNS, Ethernet framing, and of IPv6 everything above its addresses: input and
    output, fragments, neighbour discovery, multicast listeners and ICMPv6.  Statistics and debug output expand to nothing in this
    configuration.  Interrupts do not occur in the model: NO_SYS is 1 and
    SYS_LIGHTWEIGHT_PROT is 0, so the stack runs in one context. *)

From stdpp Require Export base numbers list list_numbers gmap strings.
From Stdlib Require Export Lia.

#[global] Open Scope Z_scope.

(** ** Outcomes

    [LWIP_ASSERT] and [LWIP_ERROR] both end in [LWIP_PLATFORM_ASSERT] when
    [LWIP_NOASSERT] is not defined (include/lwip/debug.h), and
    lwip_config/arch/cc.h defines that as [abort()].  A C function therefore
    either returns ([Ok]), aborts ([Assert]) or runs into undefined behaviour
    ([Ub]: a NULL dereference or an access outside every object).  [Stuck] is
    not a behaviour of the code: it marks a loop whose fuel was used up. *)

Inductive res (A : Type) : Type :=
| Ok (a : A)
| Assert
| Ub
| Stuck.

Arguments Ok {A} a.
Arguments Assert {A}.
Arguments Ub {A}.
Arguments Stuck {A}.

#[global] Instance res_ret : MRet res := @Ok.

#[global] Instance res_bind : MBind res := λ A B f m,
  match m with
  | Ok a => f a
  | Assert => Assert
  | Ub => Ub
  | Stuck => Stuck
  end.

#[global] Instance res_eq_dec {A} `{EqDecision A} : EqDecision (res A).
Proof. solve_decision. Defined.

(** LWIP_ASSERT(message, assertion) and LWIP_ERROR(message, expression, handler) *)
Definition LWIP_ASSERT (assertion : bool) : res unit :=
  if assertion then Ok tt else Assert.

(** A pointer that is dereferenced without a check. *)
Definition deref {A} (o : option A) : res A :=
  match o with Some a => Ok a | None => Ub end.

Definition is_Ok {A} (m : res A) : bool :=
  match m with Ok _ => true | _ => false end.

(** ** Machine integers: a value of a [w]-bit unsigned type is a [Z] in
    [0, 2^w), every cast to the type is a reduction modulo [2^w]. *)

Definition u8 (x : Z) : Z := x mod 256.
Definition u16 (x : Z) : Z := x mod 65536.
Definition u32 (x : Z) : Z := x mod 4294967296.

Definition is_u8 (x : Z) : Prop := 0 ≤ x < 256.
Definition is_u16 (x : Z) : Prop := 0 ≤ x < 65536.
Definition is_u32 (x : Z) : Prop := 0 ≤ x < 4294967296.

#[global] Instance is_u8_dec x : Decision (is_u8 x).
Proof. unfold is_u8. apply _. Defined.
#[global] Instance is_u16_dec x : Decision (is_u16 x).
Proof. unfold is_u16. apply _. Defined.
#[global] Instance is_u32_dec x : Decision (is_u32 x).
Proof. unfold is_u32. apply _. Defined.

(** LWIP_MEM_ALIGN_SIZE and LWIP_MEM_ALIGN with MEM_ALIGNMENT = 4, on a
    32-bit [size_t] and [mem_ptr_t]. *)
Definition MEM_ALIGNMENT : Z := 4.
Definition LWIP_MEM_ALIGN_SIZE (size : Z) : Z :=
  Z.land (u32 (size + MEM_ALIGNMENT - 1)) (u32 (Z.lnot (MEM_ALIGNMENT - 1))).
Definition LWIP_MEM_ALIGN (addr : Z) : Z :=
  Z.land (u32 (addr + MEM_ALIGNMENT - 1)) (u32 (Z.lnot (MEM_ALIGNMENT - 1))).

(** err_t: include/lwip/err.h *)
Definition ERR_OK : Z := 0.
Definition ERR_MEM : Z := -1.
Definition ERR_BUF : Z := -2.
Definition ERR_RTE : Z := -4.
Definition ERR_VAL : Z := -6.
Definition ERR_ARG : Z := -16.

(** C truth values. *)
Definition c_bool (b : bool) : Z := if b then 1 else 0.

(** Bytes [off, off+n) of a list, with integer offsets as in the code. *)
Definition slice {A} (off n : Z) (l : list A) : list A :=
  take (Z.to_nat n) (drop (Z.to_nat off) l).

Definition zlen {A} (l : list A) : Z := Z.of_nat (length l).

(** ** Automation *)

Create Rewrite HintDb lwip.
Create HintDb lwip_range discriminated.

(** Linear goals with division and remainder by constants. *)
Ltac zlia := Z.div_mod_to_equations; lia.

(** Unfold the casts everywhere and hand the goal to [lia]. *)
Ltac ulia := unfold u8, u16, u32, is_u8, is_u16, is_u32, zlen in *; zlia.

Lemma res_bind_Ok {A B} (f : A → res B) (m : res A) (b : B) :
  m ≫= f = Ok b ↔ ∃ a, m = Ok a ∧ f a = Ok b.
Proof.
  split; [destruct m; simpl; intros; eauto; discriminate|].
  by intros (a & -> & ?).
Qed.

Lemma LWIP_ASSERT_Ok b u : LWIP_ASSERT b = Ok u ↔ b = true.
Proof. destruct b, u; simpl; naive_solver. Qed.

Lemma deref_Ok {A} (o : option A) a : deref o = Ok a ↔ o = Some a.
Proof. destruct o; simpl; naive_solver. Qed.

(** Invert a successful run: peel the binds of a hypothesis [_ = Ok _]. *)
Ltac inv_ok_step :=
  match goal with
  | H : (?m ≫= ?f) = Ok _ |- _ =>
      let a := fresh "r" in let H1 := fresh "H" in let H2 := fresh "H" in
      apply res_bind_Ok in H as (a & H1 & H2)
  | H : LWIP_ASSERT _ = Ok _ |- _ => apply LWIP_ASSERT_Ok in H
  | H : deref _ = Ok _ |- _ => apply deref_Ok in H
  | H : Ok _ = Ok _ |- _ => injection H as H
  | H : Assert = Ok _ |- _ => discriminate H
  | H : Ub = Ok _ |- _ => discriminate H
  | H : Stuck = Ok _ |- _ => discriminate H
  | u : unit |- _ => destruct u
  | H : (_, _) = (_, _) |- _ => injection H as H
  end.
Ltac inv_ok := repeat (inv_ok_step; simplify_eq/=).

(** A run that returns, with a property of what it returns; the rules of a Hoare
    logic for total correctness. *)
Definition yields {A} (m : res A) (Q : A → Prop) : Prop := ∃ a, m = Ok a ∧ Q a.

Lemma yields_ret {A} (a : A) (Q : A → Prop) : Q a → yields (Ok a) Q.
Proof. by exists a. Qed.

Lemma yields_bind {A B} (m : res A) (f : A → res B) (Q : A → Prop) (R : B → Prop) :
  yields m Q → (∀ a, Q a → yields (f a) R) → yields (m ≫= f) R.
Proof. intros (a & -> & Ha) Hf. by apply Hf. Qed.

Lemma yields_mono {A} (m : res A) (Q R : A → Prop) : yields m Q → (∀ a, Q a → R a) → yields m R.
Proof. intros (a & -> & Ha) HR. exists a. auto. Qed.

Lemma yields_assert {B} (b : bool) (f : unit → res B) (R : B → Prop) :
  b = true → yields (f tt) R → yields (LWIP_ASSERT b ≫= f) R.
Proof. by intros ->. Qed.

(** Turn boolean tests of the code into propositions. *)
Ltac breflect :=
  repeat match goal with
  | H : _ && _ = true |- _ => apply andb_true_iff in H as [? ?]
  | H : _ || _ = false |- _ => apply orb_false_iff in H as [? ?]
  | H : negb _ = true |- _ => apply negb_true_iff in H
  | H : negb _ = false |- _ => apply negb_false_iff in H
  | H : (_ =? _) = true |- _ => apply Z.eqb_eq in H
  | H : (_ =? _) = false |- _ => apply Z.eqb_neq in H
  | H : (_ <? _) = true |- _ => apply Z.ltb_lt in H
  | H : (_ <? _) = false |- _ => apply Z.ltb_ge in H
  | H : (_ <=? _) = true |- _ => apply Z.leb_le in H
  | H : (_ <=? _) = false |- _ => apply Z.leb_gt in H
  | H : bool_decide _ = true |- _ => apply bool_decide_eq_true in H
  | H : bool_decide _ = false |- _ => apply bool_decide_eq_false in H
  end.

(** ** Integer lemmas *)

Lemma u8_range x : is_u8 (u8 x).
Proof. ulia. Qed.
Lemma u16_range x : is_u16 (u16 x).
Proof. ulia. Qed.
Lemma u32_range x : is_u32 (u32 x).
Proof. ulia. Qed.

Lemma u8_id x : is_u8 x → u8 x = x.
Proof. ulia. Qed.
Lemma u16_id x : is_u16 x → u16 x = x.
Proof. ulia. Qed.
Lemma u32_id x : is_u32 x → u32 x = x.
Proof. ulia. Qed.

#[export] Hint Resolve u8_range u16_range u32_range : lwip_range.
#[export] Hint Rewrite u8_id u16_id u32_id using lia : lwip.

(** Splitting a word at bit [n]: the identities behind every shift-and-mask. *)
Lemma land_ones_mod x n m : 0 ≤ n → m = Z.ones n → Z.land x m = x mod 2 ^ n.
Proof. intros ? ->. by apply Z.land_ones. Qed.

Lemma lor_add_disjoint x y n :
  0 ≤ n → 0 ≤ y < 2 ^ n → Z.lor (x * 2 ^ n) y = x * 2 ^ n + y.
Proof.
  intros Hn Hy. rewrite <-Z.shiftl_mul_pow2 by lia.
  rewrite Z.add_nocarry_lxor; [symmetry; apply Z.lxor_lor|];
    (apply Z.bits_inj'; intros i Hi; rewrite Z.land_spec, Z.bits_0, Z.shiftl_spec by lia;
     destruct (decide (i < n));
     [rewrite (Z.testbit_neg_r x) by lia; done
     |rewrite <-(Z.mod_small y (2 ^ n)), Z.mod_pow2_bits_high by lia;
      apply andb_false_r]).
Qed.

Lemma LWIP_MEM_ALIGN_SIZE_eq size :
  0 ≤ size < 4294967293 → LWIP_MEM_ALIGN_SIZE size = (size + 3) / 4 * 4.
Proof.
  intros Hs. unfold LWIP_MEM_ALIGN_SIZE, MEM_ALIGNMENT.
  rewrite (u32_id (size + 4 - 1)) by ulia.
  replace (u32 (Z.lnot (4 - 1))) with (Z.shiftl (Z.ones 30) 2) by reflexivity.
  set (x := size + 4 - 1).
  assert (Hx : Z.land x (Z.shiftl (Z.ones 30) 2) = Z.shiftl (Z.land (Z.shiftr x 2) (Z.ones 30)) 2).
  { apply Z.bits_inj'; intros i Hi. rewrite Z.land_spec, !Z.shiftl_spec by lia.
    destruct (decide (i < 2)).
    - rewrite !(Z.testbit_neg_r _ (i - 2)) by lia. apply andb_false_r.
    - rewrite Z.land_spec, Z.shiftr_spec by lia. by replace (i - 2 + 2) with i by lia. }
  rewrite Hx, Z.land_ones, Z.shiftl_mul_pow2, Z.shiftr_div_pow2 by lia.
  rewrite Z.mod_small by (subst x; zlia). subst x. change (2 ^ 2) with 4.
  f_equal. f_equal. lia.
Qed.

(** ** List lemmas *)

Lemma zlen_nonneg {A} (l : list A) : 0 ≤ zlen l.
Proof. unfold zlen. lia. Qed.

Lemma zlen_app {A} (l k : list A) : zlen (l ++ k) = zlen l + zlen k.
Proof. unfold zlen. rewrite length_app. lia. Qed.

Lemma zlen_cons {A} (x : A) (l : list A) : zlen (x :: l) = zlen l + 1.
Proof. unfold zlen. cbn [length]. lia. Qed.

Lemma slice_0_all {A} n (l : list A) : zlen l ≤ n → slice 0 n l = l.
Proof. intros. unfold slice. simpl. rewrite drop_0. apply take_ge. unfold zlen in *. lia. Qed.

Lemma zlen_slice {A} off n (l : list A) :
  0 ≤ off → 0 ≤ n → off + n ≤ zlen l → zlen (slice off n l) = n.
Proof. unfold slice, zlen. intros. rewrite length_take, length_drop. lia. Qed.

#[export] Hint Resolve zlen_nonneg : lwip_range.

(** The bitwise or of two [k]-bit numbers has [k] bits. *)
Lemma lor_range k x y : 0 ≤ k → 0 ≤ x < 2 ^ k → 0 ≤ y < 2 ^ k → 0 ≤ Z.lor x y < 2 ^ k.
Proof.
  intros Hk Hx Hy. replace (Z.lor x y) with (Z.lor x y mod 2 ^ k); [apply Z.mod_pos_bound; lia|].
  rewrite <-Z.land_ones, Z.land_lor_distr_l, !Z.land_ones, !Z.mod_small by lia. done.
Qed.
