(* ===== verification/ByteMem.v ===== *)
(** * Byte memory

    The payload bytes of packet buffers and of heap blocks: a finite map from
    addresses to bytes.  An address that is not in the map belongs to no
    object, so reading or writing it is undefined behaviour.  [memcpy] and
    [memset] are the C library functions the sources use through MEMCPY. *)

From S2P Require Import Prelude.

Abbreviation bytes := (gmap Z Z).

(** [n] bytes from address [a] on. *)
Fixpoint mread (b : bytes) (a : Z) (n : nat) : option (list Z) :=
  match n with
  | O => Some []
  | S n => x ← b !! a; l ← mread b (a + 1) n; Some (x :: l)
  end.

(** Store the list [l] from address [a] on. *)
Fixpoint mwrite (b : bytes) (a : Z) (l : list Z) : bytes :=
  match l with
  | [] => b
  | x :: l => mwrite (<[a := x]> b) (a + 1) l
  end.

(** All of [a, a+n) belongs to objects. *)
Definition mapped (b : bytes) (a n : Z) : Prop :=
  ∀ i, 0 ≤ i < n → is_Some (b !! (a + i)).

Definition mapped_b (b : bytes) (a n : Z) : bool :=
  match mread b a (Z.to_nat n) with Some _ => true | None => false end.

(** MEMCPY(dst, src, n) *)
Definition memcpy (dst src n : Z) (b : bytes) : res bytes :=
  match mread b src (Z.to_nat n) with
  | None => Ub
  | Some l => if mapped_b b dst n then Ok (mwrite b dst l) else Ub
  end.

(** memset(dst, c, n) *)
Definition memset (dst c n : Z) (b : bytes) : res bytes :=
  if mapped_b b dst n then Ok (mwrite b dst (replicate (Z.to_nat n) c)) else Ub.

(** Copy an application buffer, given by its contents, to [dst]. *)
Definition mstore (dst : Z) (l : list Z) (b : bytes) : res bytes :=
  if mapped_b b dst (zlen l) then Ok (mwrite b dst l) else Ub.

(** ** Lemmas *)

Lemma mread_length b a n l : mread b a n = Some l → length l = n.
Proof.
  revert a l; induction n as [|n IH]; intros a l H; simplify_option_eq; [done|].
  f_equal. eauto.
Qed.

Lemma mread_Some b a n :
  is_Some (mread b a n) ↔ mapped b a (Z.of_nat n).
Proof.
  revert a; induction n as [|n IH]; intros a; simpl.
  - split; [intros _ i ?; lia|eauto].
  - split.
    + intros [l Hl] i Hi. simplify_option_eq.
      destruct (decide (i = 0)) as [->|]; [rewrite Z.add_0_r; eauto|].
      replace (a + i) with ((a + 1) + (i - 1)) by lia.
      apply IH; [eauto|lia].
    + intros Hm. destruct (Hm 0) as [x Hx]; [lia|]. rewrite Z.add_0_r in Hx. rewrite Hx. simpl.
      destruct (proj2 (IH (a + 1))) as [l Hl]; [|rewrite Hl; simpl; eauto].
      intros i Hi. replace (a + 1 + i) with (a + (i + 1)) by lia. apply Hm. lia.
Qed.

Lemma mapped_b_spec b a n : 0 ≤ n → mapped_b b a n = true ↔ mapped b a n.
Proof.
  intros Hn. unfold mapped_b. pose proof (mread_Some b a (Z.to_nat n)) as H.
  rewrite Z2Nat.id in H by lia. rewrite <-H.
  destruct (mread _ _ _); split; intros Hs; eauto; try done; by destruct Hs.
Qed.

Lemma lookup_mwrite b a l i :
  mwrite b a l !! i =
    if bool_decide (a ≤ i < a + zlen l) then l !! Z.to_nat (i - a) else b !! i.
Proof.
  unfold zlen. revert b a; induction l as [|x l IH]; intros b a; simpl.
  { rewrite bool_decide_eq_false_2 by lia. done. }
  rewrite IH. destruct (decide (i = a)) as [->|Hne].
  - rewrite bool_decide_eq_false_2 by lia. rewrite bool_decide_eq_true_2 by lia.
    rewrite lookup_insert_eq. by rewrite Z.sub_diag.
  - destruct (decide (a + 1 ≤ i < a + 1 + Z.of_nat (length l))).
    + rewrite !bool_decide_eq_true_2 by lia.
      replace (Z.to_nat (i - a)) with (S (Z.to_nat (i - (a + 1)))) by lia. done.
    + rewrite !bool_decide_eq_false_2 by lia. by rewrite lookup_insert_ne.
Qed.

Lemma lookup_mwrite_some b a l i : is_Some (b !! i) → is_Some (mwrite b a l !! i).
Proof.
  intros Hi. rewrite lookup_mwrite. case_bool_decide; [|done]. apply lookup_lt_is_Some. unfold zlen in *. lia.
Qed.

Lemma mapped_mwrite b a l c n : mapped b c n → mapped (mwrite b a l) c n.
Proof.
  intros Hm i Hi. rewrite lookup_mwrite. case_bool_decide; [|by apply Hm].
  apply lookup_lt_is_Some. unfold zlen in *. lia.
Qed.

Lemma mread_lookup b a n l (i : nat) :
  mread b a n = Some l → (i < n)%nat → b !! (a + Z.of_nat i) = l !! i.
Proof.
  revert a l i; induction n as [|n IH]; intros a l i H Hi; [lia|]. simplify_option_eq.
  destruct i as [|i]; [by rewrite Z.add_0_r|]. simpl.
  erewrite <-IH by (eauto; lia). f_equal. lia.
Qed.

Lemma mread_ext b b' a n :
  (∀ i, a ≤ i < a + Z.of_nat n → b !! i = b' !! i) → mread b a n = mread b' a n.
Proof.
  revert a; induction n as [|n IH]; intros a H; simpl; [done|].
  rewrite (H a) by lia. rewrite (IH (a + 1)); [done|]. intros. apply H. lia.
Qed.

Lemma mread_mwrite_same b a l : mread (mwrite b a l) a (length l) = Some l.
Proof.
  assert (Hm : is_Some (mread (mwrite b a l) a (length l))).
  { apply mread_Some. intros i Hi. rewrite lookup_mwrite.
    rewrite bool_decide_eq_true_2 by (unfold zlen; lia). apply lookup_lt_is_Some. lia. }
  destruct Hm as [k Hk]. rewrite Hk. f_equal. apply list_eq. intros i.
  destruct (decide (i < length l)%nat).
  - rewrite <-(mread_lookup _ _ _ _ i Hk) by done. rewrite lookup_mwrite.
    rewrite bool_decide_eq_true_2 by (unfold zlen; lia). f_equal. lia.
  - rewrite !lookup_ge_None_2; [done|lia|]. rewrite (mread_length _ _ _ _ Hk). lia.
Qed.

Lemma mread_mwrite_disjoint b a l c n :
  c + Z.of_nat n ≤ a ∨ a + zlen l ≤ c → mread (mwrite b a l) c n = mread b c n.
Proof.
  intros Hd. apply mread_ext. intros i Hi. rewrite lookup_mwrite.
  by rewrite bool_decide_eq_false_2 by lia.
Qed.

Lemma mread_app b a n m :
  mread b a (n + m) = (l ← mread b a n; k ← mread b (a + Z.of_nat n) m; Some (l ++ k)).
Proof.
  revert a; induction n as [|n IH]; intros a; simpl.
  - rewrite Z.add_0_r. by destruct (mread b a m).
  - destruct (b !! a); simpl; [|done]. rewrite IH.
    replace (a + 1 + Z.of_nat n) with (a + Z.of_nat (S n)) by lia.
    destruct (mread b (a + 1) n); simpl; [|done]. by destruct (mread _ _ m).
Qed.

Lemma mread_sub b a n l off m :
  mread b a n = Some l → (off + m ≤ n)%nat →
  mread b (a + Z.of_nat off) m = Some (take m (drop off l)).
Proof.
  intros Hl Hle. replace n with (off + (m + (n - off - m)))%nat in Hl by lia.
  rewrite mread_app in Hl.
  destruct (mread b a off) as [l1|] eqn:E1; simplify_eq/=.
  rewrite mread_app in Hl.
  destruct (mread b (a + Z.of_nat off) m) as [l2|] eqn:E2; simplify_eq/=.
  destruct (mread b (a + Z.of_nat off + _) _) as [l3|]; simplify_eq/=. f_equal.
  rewrite drop_app_length' by (by apply mread_length in E1).
  by rewrite take_app_length' by (by apply mread_length in E2).
Qed.

Lemma mwrite_app b a l k : mwrite b a (l ++ k) = mwrite (mwrite b a l) (a + zlen l) k.
Proof.
  unfold zlen. revert b a; induction l as [|x l IH]; intros b a; simpl; [by rewrite Z.add_0_r|].
  rewrite IH. f_equal. lia.
Qed.

Lemma memset_ok dst c n b :
  0 ≤ n → mapped b dst n →
  ∃ b', memset dst c n b = Ok b' ∧ mread b' dst (Z.to_nat n) = Some (replicate (Z.to_nat n) c) ∧
        (∀ i, i < dst ∨ dst + n ≤ i → b' !! i = b !! i).
Proof.
  intros Hn Hm. unfold memset. rewrite (proj2 (mapped_b_spec b dst n Hn) Hm).
  eexists. split_and!; [done| |].
  - rewrite <-(length_replicate (Z.to_nat n) c) at 2. apply mread_mwrite_same.
  - intros i Hi. rewrite lookup_mwrite, bool_decide_eq_false_2; [done|].
    unfold zlen. rewrite length_replicate. lia.
Qed.

Lemma mread_mapped b a n l : mread b a (Z.to_nat n) = Some l → mapped b a n.
Proof.
  intros Hl. destruct (decide (0 ≤ n)); [|intros i; lia].
  replace n with (Z.of_nat (Z.to_nat n)) by lia. apply mread_Some. eauto.
Qed.

Lemma mapped_mono b a n a' n' : a ≤ a' → a' + n' ≤ a + n → mapped b a n → mapped b a' n'.
Proof.
  intros ?? Hm i Hi. replace (a' + i) with (a + (a' - a + i)) by lia. apply Hm. lia.
Qed.

Lemma memcpy_ok dst src n b l :
  0 ≤ n → mread b src (Z.to_nat n) = Some l → mapped b dst n → memcpy dst src n b = Ok (mwrite b dst l).
Proof.
  intros Hn Hl Hm. unfold memcpy. rewrite Hl. by rewrite (proj2 (mapped_b_spec b dst n Hn) Hm).
Qed.

(** Reading [n] bytes at offset [off] of a region whose contents are [l]. *)
Lemma mread_slice b a n l off m :
  mread b a (Z.to_nat n) = Some l → 0 ≤ off → 0 ≤ m → off + m ≤ n →
  mread b (a + off) (Z.to_nat m) = Some (slice off m l).
Proof.
  intros Hl Ho Hm Hle. unfold slice. rewrite <-(Z2Nat.id off) at 1 by lia.
  eapply mread_sub; [done|lia].
Qed.

(** Reading over a write inside the region. *)
Lemma mread_mwrite_inside b a n l off w :
  mread b a (Z.to_nat n) = Some l → 0 ≤ off → off + zlen w ≤ n →
  mread (mwrite b (a + off) w) a (Z.to_nat n) =
    Some (slice 0 off l ++ w ++ slice (off + zlen w) (n - off - zlen w) l).
Proof.
  intros Hl Ho Hle. pose proof (zlen_nonneg w).
  pose proof (mread_length _ _ _ _ Hl) as Hlen.
  replace (Z.to_nat n) with (Z.to_nat off + (length w + Z.to_nat (n - off - zlen w)))%nat by (unfold zlen in *; lia).
  rewrite mread_app, (mread_mwrite_disjoint b (a + off) w a) by lia.
  rewrite <-(Z.add_0_r a) at 1. rewrite (mread_slice b a n l 0 off) by (done || lia). cbn [mbind option_bind].
  rewrite Z2Nat.id, mread_app, mread_mwrite_same by lia. cbn [mbind option_bind].
  rewrite mread_mwrite_disjoint by (unfold zlen; lia). change (Z.of_nat (length w)) with (zlen w).
  replace (a + off + zlen w) with (a + (off + zlen w)) by lia.
  by rewrite (mread_slice b a n l) by (done || lia).
Qed.

(** Two adjacent regions. *)
Lemma mread_app_inv b a l k :
  mread b a (length (l ++ k)) = Some (l ++ k) ↔
  mread b a (length l) = Some l ∧ mread b (a + zlen l) (length k) = Some k.
Proof.
  rewrite length_app, mread_app. unfold zlen. split.
  - destruct (mread b a (length l)) as [l'|] eqn:El; cbn [mbind option_bind]; [|done].
    destruct (mread b (a + Z.of_nat (length l)) (length k)) as [k'|] eqn:Ek; cbn [mbind option_bind]; [|done].
    intros H. injection H as H. apply app_inj_1 in H as [-> ->]; [done|]. by apply mread_length in El.
  - intros [-> H]. cbn [mbind option_bind]. by rewrite H.
Qed.

Lemma mread_cons b a x l : mread b a (length (x :: l)) = Some (x :: l) →
  b !! a = Some x ∧ mread b (a + 1) (length l) = Some l.
Proof. simpl. intros H. destruct (b !! a); simplify_eq/=. by destruct (mread _ _ _); simplify_eq/=. Qed.

(** ** Words of packed structs on a little-endian host

    The members of a packed struct are loaded and stored byte by byte, at any
    address. *)

Definition word16 (w : Z) : list Z := [w mod 256; w / 256 mod 256].
Definition word32 (w : Z) : list Z :=
  [w mod 256; w / 256 mod 256; w / 65536 mod 256; w / 16777216 mod 256].
Definition rd16 (l : list Z) (i : nat) : Z := nth i l 0 + 256 * nth (S i) l 0.
Definition rd32 (l : list Z) (i : nat) : Z := rd16 l i + 65536 * rd16 l (S (S i)).

Lemma rd16_word16 w : is_u16 w → rd16 (word16 w) 0 = w.
Proof. unfold rd16, word16, is_u16. cbn [nth]. intros. zlia. Qed.

Lemma rd32_word32 w : is_u32 w → rd32 (word32 w) 0 = w.
Proof. unfold rd32, rd16, word32, is_u32. cbn [nth]. intros. zlia. Qed.
