(* ===== verification/Def.v ===== *)
(** * Byte order and string helpers: core/def.c

    The byte-swapping macros of a little-endian host and lwIP's own versions of
    four non-standard C library functions.  Strings live in byte memory; a
    [char] is the byte 0..255 stored there (the comparisons of the code give
    the same answer for signed and unsigned [char], because bytes above 127 are
    outside 'a'..'z' either way).  [size_t] is 32 bits wide, [int] too. *)

From S2P Require Import Prelude ByteMem.

(** ** Byte order *)

Definition PP_HTONS (x : Z) : Z :=
  u16 (Z.lor (Z.shiftl (Z.land x 255) 8) (Z.shiftr (Z.land x 65280) 8)).
Definition PP_HTONL (x : Z) : Z :=
  Z.lor (Z.lor (Z.lor (u32 (Z.shiftl (Z.land x 255) 24)) (Z.shiftl (Z.land x 65280) 8))
               (Z.shiftr (Z.land x 16711680) 8))
        (Z.shiftr (Z.land x 4278190080) 24).
Definition lwip_htons (n : Z) : Z := PP_HTONS n.
Definition lwip_htonl (n : Z) : Z := PP_HTONL n.

(** ** The C library functions def.c calls *)

(** A walk along consecutive addresses leaves the mapped memory after at most
    [size b] steps, so this fuel is never used up. *)
Definition walk_fuel (b : bytes) : nat := S (size b).

Fixpoint strlen_loop (fuel : nat) (b : bytes) (s n : Z) : res Z :=
  match fuel with
  | O => Stuck
  | S fuel =>
      c ← deref (b !! s);
      if c =? 0 then Ok n else strlen_loop fuel b (s + 1) (n + 1)
  end.
Definition strlen (b : bytes) (s : Z) : res Z := strlen_loop (walk_fuel b) b s 0.

Fixpoint strncmp (n : nat) (b : bytes) (s1 s2 : Z) : res Z :=
  match n with
  | O => Ok 0
  | S n =>
      c1 ← deref (b !! s1);
      c2 ← deref (b !! s2);
      if negb (c1 =? c2) then Ok (c1 - c2) else
      if c1 =? 0 then Ok 0 else strncmp n b (s1 + 1) (s2 + 1)
  end.

(** memmove(dst, src, n): all bytes are read before any is written. *)
Definition memmove (dst src n : Z) (b : bytes) : res bytes :=
  match mread b src (Z.to_nat n) with
  | None => Ub
  | Some l => if mapped_b b dst n then Ok (mwrite b dst l) else Ub
  end.

(** One byte store. *)
Definition store (b : bytes) (a v : Z) : res bytes := mstore a [v] b.

(** ** lwip_strnstr *)

Fixpoint strnstr_loop (fuel : nat) (b : bytes) (p buffer token tokenlen n : Z) : res Z :=
  match fuel with
  | O => Stuck
  | S fuel =>
      c ← deref (b !! p);
      if negb (c =? 0) && (p + tokenlen <=? buffer + n) then
        t ← deref (b !! token);
        found ← (if c =? t then r ← strncmp (Z.to_nat tokenlen) b p token; Ok (r =? 0) else Ok false);
        if (found : bool) then Ok p else strnstr_loop fuel b (p + 1) buffer token tokenlen n
      else Ok 0
  end.

Definition lwip_strnstr (b : bytes) (buffer token n : Z) : res Z :=
  tokenlen ← strlen b token;
  if tokenlen =? 0 then Ok buffer
  else strnstr_loop (walk_fuel b) b buffer buffer token tokenlen n.

(** ** lwip_stricmp and lwip_strnicmp *)

(** The test both loops apply to a pair of characters: [true] when they return 1. *)
Definition chars_differ (c1 c2 : Z) : bool :=
  if negb (c1 =? c2) then
    let c1_upc := Z.lor c1 32 in
    if (97 <=? c1_upc) && (c1_upc <=? 122) then
      let c2_upc := Z.lor c2 32 in negb (c1_upc =? c2_upc)
    else true
  else false.

Fixpoint stricmp_loop (fuel : nat) (b : bytes) (str1 str2 : Z) : res Z :=
  match fuel with
  | O => Stuck
  | S fuel =>
      c1 ← deref (b !! str1);
      c2 ← deref (b !! str2);
      if chars_differ c1 c2 then Ok 1
      else if negb (c1 =? 0) then stricmp_loop fuel b (str1 + 1) (str2 + 1) else Ok 0
  end.
Definition lwip_stricmp (b : bytes) (str1 str2 : Z) : res Z := stricmp_loop (walk_fuel b) b str1 str2.

Fixpoint strnicmp_loop (fuel : nat) (b : bytes) (str1 str2 len : Z) : res Z :=
  match fuel with
  | O => Stuck
  | S fuel =>
      c1 ← deref (b !! str1);
      c2 ← deref (b !! str2);
      if chars_differ c1 c2 then Ok 1
      else
        let len := u32 (len - 1) in
        if negb (len =? 0) && negb (c1 =? 0) then strnicmp_loop fuel b (str1 + 1) (str2 + 1) len else Ok 0
  end.
Definition lwip_strnicmp (b : bytes) (str1 str2 len : Z) : res Z :=
  strnicmp_loop (walk_fuel b) b str1 str2 len.

(** ** lwip_itoa *)

(** [while ((n != 0) && (tmp > res))]; every round lowers [tmp], so
    [tmp - res] rounds are enough. *)
Fixpoint itoa_loop (fuel : nat) (n tmp res : Z) (b : bytes) : Prelude.res (Z * Z * bytes) :=
  if negb (n =? 0) && (res <? tmp) then
    match fuel with
    | O => Stuck
    | S fuel =>
        let val := 48 + n mod 10 in
        b ← store b (tmp - 1) val;
        itoa_loop fuel (n / 10) (tmp - 1) res b
    end
  else Ok (n, tmp, b).

Definition INT_MIN : Z := - 2147483648.
Definition INT_MAX : Z := 2147483647.

Definition lwip_itoa (result bufsize number : Z) (b : bytes) : res bytes :=
  (* [-number] overflows for INT_MIN *)
  if number =? INT_MIN then Ub else
  let n := if 0 <=? number then number else - number in
  if bufsize <? 2 then
    if bufsize =? 1 then store b result 0 else Ok b
  else
    let tmp := result + bufsize - 1 in
    '(res, b) ← (if number <? 0 then b ← store b result 45; Ok (result + 1, b) else Ok (result, b));
    b ← store b tmp 0;
    '(n, tmp, b) ← itoa_loop (Z.to_nat (tmp - res)) n tmp res b;
    if negb (n =? 0) then store b result 0 else
    c ← deref (b !! tmp);
    if c =? 0 then b ← store b res 48; store b (res + 1) 0
    else memmove res tmp (result + bufsize - tmp) b.

(** ** Strings *)

(** The NUL-terminated string [l] is stored at [a]. *)
Definition cstr (b : bytes) (a : Z) (l : list Z) : Prop :=
  Forall (λ c, 0 < c < 256) l ∧ mread b a (length l + 1) = Some (l ++ [0]).

(** ASCII lower case. *)
Definition tolower (c : Z) : Z := if (65 <=? c) && (c <=? 90) then c + 32 else c.

(** [l] occurs in [h] at index [i]. *)
Definition occurs (l h : list Z) (i : nat) : Prop := take (length l) (drop i h) = l.

(** The decimal numerals without leading zeros. *)
Inductive numeral : Z → list Z → Prop :=
| numeral_digit d : 1 ≤ d ≤ 9 → numeral d [48 + d]
| numeral_snoc n d ds : numeral n ds → 0 ≤ d ≤ 9 → numeral (10 * n + d) (ds ++ [48 + d]).

Definition decimal (n : Z) (ds : list Z) : Prop := if n =? 0 then ds = [48] else numeral n ds.

(** ** Byte order: theorems *)

Lemma u16_bytes x : is_u16 x → x = x / 256 * 256 + x mod 256.
Proof. ulia. Qed.

Lemma PP_HTONS_eq x : is_u16 x → PP_HTONS x = x mod 256 * 256 + x / 256.
Proof.
  intros Hx. unfold PP_HTONS.
  replace 65280 with (Z.shiftl (Z.ones 8) 8) by reflexivity.
  rewrite (land_ones_mod x 8 255) by (done || reflexivity).
  assert (Hs : Z.shiftr (Z.land x (Z.shiftl (Z.ones 8) 8)) 8 = Z.shiftr x 8 mod 2 ^ 8).
  { rewrite Z.shiftr_land, Z.shiftr_shiftl_l, Z.shiftl_0_r, Z.land_ones by lia. done. }
  rewrite Hs, Z.shiftr_div_pow2, Z.shiftl_mul_pow2 by lia.
  rewrite lor_add_disjoint by (try apply Z.mod_pos_bound; lia).
  change (2 ^ 8) with 256. ulia.
Qed.

Lemma shiftr_byte x k j :
  0 ≤ k → 0 ≤ j → j ≤ k → Z.shiftr (Z.land x (Z.shiftl 255 k)) j = x / 2 ^ k mod 256 * 2 ^ (k - j).
Proof.
  intros Hk Hj Hjk. change 255 with (Z.ones 8). change 256 with (2 ^ 8).
  rewrite <-(Z.land_ones (x / 2 ^ k) 8), <-Z.shiftr_div_pow2, <-Z.shiftl_mul_pow2 by lia.
  apply Z.bits_inj'; intros i Hi.
  rewrite Z.shiftr_spec, Z.land_spec, !Z.shiftl_spec by lia.
  destruct (decide (i < k - j)).
  - rewrite !(Z.testbit_neg_r _ (i - (k - j))), (Z.testbit_neg_r _ (i + j - k)) by lia. apply andb_false_r.
  - rewrite Z.land_spec, Z.shiftr_spec by lia. f_equal; f_equal; lia.
Qed.

Lemma PP_HTONL_eq x : is_u32 x →
  PP_HTONL x = x mod 256 * 16777216 + x / 256 mod 256 * 65536 + x / 65536 mod 256 * 256 + x / 16777216.
Proof.
  intros Hx. unfold PP_HTONL.
  assert (H0 : Z.land x 255 = x mod 256) by (by apply (land_ones_mod x 8)).
  assert (H1 : Z.land x 65280 = x / 256 mod 256 * 256) by (apply (shiftr_byte x 8 0); lia).
  assert (H2 : Z.shiftr (Z.land x 16711680) 8 = x / 65536 mod 256 * 256) by (apply (shiftr_byte x 16 8); lia).
  assert (H3 : Z.shiftr (Z.land x 4278190080) 24 = x / 16777216 mod 256 * 1) by (apply (shiftr_byte x 24 24); lia).
  rewrite H0, H1, H2, H3, !Z.shiftl_mul_pow2 by lia.
  rewrite u32_id by (change (2 ^ 24) with 16777216; ulia).
  set (a := x mod 256). set (c := x / 256 mod 256). set (d := x / 65536 mod 256). set (e := x / 16777216 mod 256).
  assert (0 ≤ a < 256 ∧ 0 ≤ c < 256 ∧ 0 ≤ d < 256 ∧ 0 ≤ e < 256) by (subst a c d e; zlia).
  rewrite (lor_add_disjoint a (c * 256 * 2 ^ 8) 24) by lia.
  replace (a * 2 ^ 24 + c * 256 * 2 ^ 8) with ((a * 256 + c) * 2 ^ 16) by lia.
  rewrite (lor_add_disjoint _ (d * 256) 16) by lia.
  replace ((a * 256 + c) * 2 ^ 16 + d * 256) with ((a * 65536 + c * 256 + d) * 2 ^ 8) by lia.
  rewrite Z.mul_1_r, lor_add_disjoint by lia. subst a c d e. ulia.
Qed.

Lemma PP_HTONL_bytes a c d e : is_u8 a → is_u8 c → is_u8 d → is_u8 e →
  PP_HTONL (a + 256 * c + 65536 * d + 16777216 * e) = e + 256 * d + 65536 * c + 16777216 * a.
Proof. intros Ha Hc Hd He. rewrite PP_HTONL_eq by ulia. ulia. Qed.

Lemma u32_bytes y : is_u32 y → ∃ a c d e, is_u8 a ∧ is_u8 c ∧ is_u8 d ∧ is_u8 e ∧
  y = a + 256 * c + 65536 * d + 16777216 * e.
Proof.
  intros Hy. exists (y mod 256), (y / 256 mod 256), (y / 65536 mod 256), (y / 16777216).
  split_and!; ulia.
Qed.

Lemma byte_of_word a c d e k : is_u8 a → is_u8 c → is_u8 d → is_u8 e → 0 ≤ k < 4 →
  (a + 256 * c + 65536 * d + 16777216 * e) / 2 ^ (8 * k) mod 256 = nth (Z.to_nat k) [a; c; d; e] 0.
Proof.
  intros. assert (k = 0 ∨ k = 1 ∨ k = 2 ∨ k = 3) as [-> | [-> | [-> | ->]]] by lia;
    [change (2 ^ (8 * 0)) with 1|change (2 ^ (8 * 1)) with 256|change (2 ^ (8 * 2)) with 65536
    |change (2 ^ (8 * 3)) with 16777216]; simpl nth; ulia.
Qed.

Lemma htons_htons x : is_u16 x → lwip_htons (lwip_htons x) = x.
Proof. intros Hx. unfold lwip_htons. rewrite (PP_HTONS_eq x), PP_HTONS_eq by ulia. ulia. Qed.

(** lwip_htons and lwip_htonl give network byte order: byte [k] of the result,
    counted from the low end, is byte [k] of the argument, counted from the high
    end; both are their own inverses and stay in range. *)
Theorem byte_order x y : is_u16 x → is_u32 y →
  lwip_htons x mod 256 = x / 256 ∧ lwip_htons x / 256 = x mod 256 ∧
  lwip_htons (lwip_htons x) = x ∧ is_u16 (lwip_htons x) ∧
  (∀ k, 0 ≤ k < 4 → lwip_htonl y / 2 ^ (8 * k) mod 256 = y / 2 ^ (8 * (3 - k)) mod 256) ∧
  lwip_htonl (lwip_htonl y) = y ∧ is_u32 (lwip_htonl y).
Proof.
  intros Hx Hy. rewrite htons_htons by done. unfold lwip_htons, lwip_htonl. rewrite (PP_HTONS_eq x) by done.
  destruct (u32_bytes y Hy) as (a & c & d & e & Ha & Hc & Hd & He & ->).
  rewrite !PP_HTONL_bytes by done. split_and!; try ulia.
  intros k Hk. rewrite !byte_of_word by (done || lia).
  assert (k = 0 ∨ k = 1 ∨ k = 2 ∨ k = 3) as [-> | [-> | [-> | ->]]] by lia; reflexivity.
Qed.

(** ** Strings: theorems *)

Lemma mread_size b a n l : mread b a n = Some l → (n ≤ size b)%nat.
Proof.
  intros Hl. rewrite <-(size_dom b).
  assert (Hs : size (list_to_set (C:=gset Z) (seqZ a (Z.of_nat n))) = n).
  { rewrite size_list_to_set by apply NoDup_seqZ. rewrite length_seqZ. lia. }
  rewrite <-Hs. apply subseteq_size. intros i Hi. apply elem_of_list_to_set, elem_of_seqZ in Hi.
  apply elem_of_dom. destruct (mread_mapped b a (Z.of_nat n) l) with (i := i - a) as [x Hx]; [|lia|].
  - by rewrite Nat2Z.id.
  - exists x. by replace i with (a + (i - a)) by lia.
Qed.

Lemma cstr_nil b a : cstr b a [] ↔ b !! a = Some 0.
Proof.
  unfold cstr. simpl. split.
  - intros [_ H]. destruct (b !! a) eqn:E; by simplify_eq/=.
  - intros ->. done.
Qed.

Lemma cstr_cons b a c l :
  cstr b a (c :: l) ↔ b !! a = Some c ∧ 0 < c < 256 ∧ cstr b (a + 1) l.
Proof.
  unfold cstr. simpl. rewrite Forall_cons. split.
  - intros [[Hc Hl] H]. destruct (b !! a) eqn:E; simplify_eq/=.
    destruct (mread b (a + 1) (length l + 1)) eqn:E'; by simplify_eq/=.
  - intros (-> & Hc & Hl & H). simpl. by rewrite H.
Qed.

Lemma cstr_fuel b a l : cstr b a l → (length l < walk_fuel b)%nat.
Proof. intros [_ H%mread_size]. unfold walk_fuel. lia. Qed.

(** The character a string holds at its start, terminator included. *)
Lemma cstr_head b a l : cstr b a l → b !! a = Some (default 0 (head l)).
Proof. destruct l; [apply cstr_nil|by intros [? _]%cstr_cons]. Qed.

Lemma strlen_ok b a l : cstr b a l → strlen b a = Ok (zlen l).
Proof.
  intros H. unfold strlen. pose proof (cstr_fuel _ _ _ H) as Hf. revert H Hf.
  rewrite <-(Z.add_0_l (zlen l)). generalize (walk_fuel b) as fuel. generalize 0 as k. revert a.
  induction l as [|c l IH]; intros a k fuel H Hf; destruct fuel as [|fuel]; simpl in Hf; try lia; simpl.
  - apply cstr_nil in H. rewrite H. simpl. f_equal. unfold zlen. simpl. lia.
  - apply cstr_cons in H as (-> & Hc & H). simpl. replace (c =? 0) with false by lia.
    rewrite (IH (a + 1) (k + 1)) by (done || lia). f_equal. unfold zlen. simpl. lia.
Qed.

Lemma strncmp_ok b t : ∀ h s1 s2, cstr b s1 h → cstr b s2 t →
  ∃ r, strncmp (length t) b s1 s2 = Ok r ∧ (r = 0 ↔ take (length t) h = t).
Proof.
  induction t as [|c t IH]; intros h s1 s2 H1 H2; simpl; [by exists 0; split|].
  apply cstr_cons in H2 as (-> & Hc & H2). rewrite (cstr_head _ _ _ H1). cbn [deref mbind res_bind].
  destruct h as [|d h].
  { change (default 0 (head [])) with 0. replace (0 =? c) with false by lia.
    eexists; split; [done|]. split; [lia|done]. }
  change (default 0 (head (d :: h))) with d. apply cstr_cons in H1 as (_ & Hd & H1).
  destruct (Z.eqb_spec d c) as [->|Hne]; cbn [negb].
  - replace (c =? 0) with false by lia. destruct (IH _ _ _ H1 H2) as (r & -> & Hr).
    exists r. split; [done|]. rewrite Hr. simpl. split; [by intros ->|by intros [=]].
  - eexists; split; [done|]. split; [lia|]. simpl. intros [=]; lia.
Qed.

Lemma occurs_0 t h : occurs t h 0 ↔ take (length t) h = t.
Proof. unfold occurs. by rewrite drop_0. Qed.

Lemma occurs_S t c h i : occurs t (c :: h) (S i) ↔ occurs t h i.
Proof. done. Qed.

Lemma occurs_length t h i : t ≠ [] → occurs t h i → (i + length t ≤ length h)%nat.
Proof.
  intros Ht Ho. apply (f_equal length) in Ho. rewrite length_take, length_drop in Ho.
  assert (length t ≠ O) by (by destruct t). lia.
Qed.

Lemma strnstr_loop_ok b buffer token n t : t ≠ [] → cstr b token t → ∀ h fuel p,
  cstr b p h → (length h < fuel)%nat →
  (∃ i : nat, strnstr_loop fuel b p buffer token (zlen t) n = Ok (p + Z.of_nat i) ∧ p + Z.of_nat i + zlen t ≤ buffer + n ∧
     occurs t h i ∧ ∀ j : nat, (j < i)%nat → ¬ occurs t h j) ∨
  strnstr_loop fuel b p buffer token (zlen t) n = Ok 0 ∧
    ∀ i : nat, p + Z.of_nat i + zlen t ≤ buffer + n → ¬ occurs t h i.
Proof.
  intros Ht Htok. induction h as [|c h IH]; intros fuel p Hp Hf; destruct fuel as [|fuel]; simpl in Hf; try lia;
    cbn [strnstr_loop].
  { apply cstr_nil in Hp as ->. right. split; [done|]. intros i _ Ho.
    apply occurs_length in Ho; [|done]. destruct t; simpl in *; [done|lia]. }
  pose proof Hp as (Hl & Hc & Hp')%cstr_cons. rewrite Hl, (cstr_head _ _ _ Htok). cbn [deref mbind res_bind].
  replace (c =? 0) with false by lia. cbn [negb andb].
  destruct (_ <=? _) eqn:E; breflect.
  2:{ right. split; [done|]. intros i Hi. lia. }
  destruct (strncmp_ok b t (c :: h) p token Hp Htok) as (r & Hr & Hr0).
  assert (Hfound : (if c =? default 0 (head t) then r ← strncmp (Z.to_nat (zlen t)) b p token; Ok (r =? 0)
                    else Ok false) = Ok (r =? 0)).
  { unfold zlen. rewrite Nat2Z.id, Hr. cbn [mbind res_bind]. destruct (c =? _) eqn:E2; [done|]. breflect.
    f_equal. symmetry. apply Z.eqb_neq. rewrite Hr0. destruct t; [done|]. simpl. by intros [=]. }
  rewrite Hfound. cbn [mbind res_bind]. destruct (r =? 0) eqn:E0; breflect.
  { left. exists O. split_and!; [f_equal; lia|lia|by apply occurs_0, Hr0|lia]. }
  assert (Hno : ¬ occurs t (c :: h) 0) by (rewrite occurs_0, <-Hr0; done).
  destruct (IH fuel (p + 1) Hp') as [(i & -> & Hi & Ho & Hj)|[-> Hn]]; [lia| |].
  - left. exists (S i). split_and!; [f_equal; lia|lia|done|].
    intros [|j] Hlt; [done|]. rewrite occurs_S. apply Hj. lia.
  - right. split; [done|]. intros [|i] Hi; [done|]. rewrite occurs_S. apply Hn. lia.
Qed.

(** lwip_strnstr finds the first occurrence: for NUL-terminated [buffer] and
    [token] the loop ends with the address of the first occurrence of the token,
    which lies within the first [n] characters, or with NULL when no occurrence
    lies within them. *)
Theorem lwip_strnstr_first b buffer token n h t :
  cstr b buffer h → cstr b token t → 0 ≤ n →
  (∃ i : nat, lwip_strnstr b buffer token n = Ok (buffer + Z.of_nat i) ∧ Z.of_nat i + zlen t ≤ n ∧
     occurs t h i ∧ ∀ j : nat, (j < i)%nat → ¬ occurs t h j) ∨
  lwip_strnstr b buffer token n = Ok 0 ∧ ∀ i : nat, Z.of_nat i + zlen t ≤ n → ¬ occurs t h i.
Proof.
  intros Hb Ht Hn. unfold lwip_strnstr. rewrite (strlen_ok _ _ _ Ht). cbn [mbind res_bind].
  destruct (zlen t =? 0) eqn:E; breflect.
  - left. exists O. destruct t; [|unfold zlen in E; simpl in E; lia]. split_and!; [f_equal; lia|lia|done|lia].
  - destruct (strnstr_loop_ok b buffer token n t) with (h := h) (fuel := walk_fuel b) (p := buffer)
      as [(i & -> & Hi & Ho & Hj)|[-> Hno]]; try done; [by intros ->|by apply (cstr_fuel _ _ _ Hb)| |].
    + left. exists i. split_and!; [done|lia|done|done].
    + right. split; [done|]. intros i Hi. apply Hno. lia.
Qed.

(** A property of all pairs of bytes can be computed. *)
Lemma byte_pairs (f : Z → Z → bool) :
  forallb (λ x, forallb (f x) (seqZ 0 256)) (seqZ 0 256) = true →
  ∀ x y, is_u8 x → is_u8 y → f x y = true.
Proof.
  intros H x y Hx Hy. rewrite forallb_forall in H.
  specialize (H x). rewrite forallb_forall in H. apply H; apply list_elem_of_In, elem_of_seqZ; ulia.
Qed.

Lemma chars_differ_eq c1 c2 : is_u8 c1 → is_u8 c2 →
  chars_differ c1 c2 = negb (tolower c1 =? tolower c2).
Proof.
  intros H1 H2. apply eqb_prop.
  apply (byte_pairs (λ x y, Bool.eqb (chars_differ x y) (negb (tolower x =? tolower y)))); [|done|done].
  vm_compute. reflexivity.
Qed.

Lemma tolower_0 c : is_u8 c → tolower c = 0 → c = 0.
Proof. intros Hc. unfold tolower. destruct (_ && _) eqn:E; breflect; ulia. Qed.

Lemma tolower_pos_0 c : 0 < c < 256 → (tolower c =? tolower 0) = false.
Proof. intros Hc. apply Z.eqb_neq. change (tolower 0) with 0. intros E%tolower_0; ulia. Qed.

(** The loops compare the strings character by character, terminators included;
    [n] is the number of characters a call may look at. *)
Definition same_prefix (n : Z) (l1 l2 : list Z) : bool :=
  bool_decide (take (Z.to_nat n) (map tolower l1) = take (Z.to_nat n) (map tolower l2)).

Lemma cstr_byte b a l : cstr b a l →
  ∃ c, b !! a = Some c ∧ is_u8 c ∧ (c = 0 ∧ l = [] ∨ ∃ l', 0 < c ∧ l = c :: l' ∧ cstr b (a + 1) l').
Proof.
  intros H. pose proof (cstr_head _ _ _ H) as Hh. destruct l as [|c l]; simpl in Hh.
  - exists 0. split; [done|]; split; [ulia|by left].
  - apply cstr_cons in H as (_ & Hc & H). exists c. split; [done|]. split; [ulia|].
    right. exists l. by split; [lia|].
Qed.

Lemma strnicmp_loop_ok b : ∀ l1 l2 s1 s2 n k fuel,
  cstr b s1 l1 → cstr b s2 l2 → (length l1 < fuel)%nat →
  0 < k ≤ 4294967296 → n = u32 k →
  strnicmp_loop fuel b s1 s2 n = Ok (c_bool (negb (same_prefix k l1 l2))).
Proof.
  unfold same_prefix.
  induction l1 as [|x l1 IH]; intros l2 s1 s2 n k fuel H1 H2 Hf Hk ->;
    (destruct fuel as [|fuel]; simpl in Hf; [lia|]); cbn [strnicmp_loop];
    destruct (cstr_byte _ _ _ H1) as (c1 & -> & Hc1 & Hd1), (cstr_byte _ _ _ H2) as (c2 & -> & Hc2 & Hd2);
    cbn [deref mbind res_bind]; rewrite chars_differ_eq by done;
    replace (Z.to_nat k) with (S (Z.to_nat (k - 1))) by lia;
    replace (u32 (u32 k - 1)) with (u32 (k - 1)) by ulia.
  - destruct Hd1 as [[-> _]|(? & _ & ? & _)]; [|done].
    destruct Hd2 as [[-> ->]|(l2' & Hp & -> & H2')].
    + by rewrite Z.eqb_refl, andb_false_r, bool_decide_eq_true_2.
    + rewrite Z.eqb_sym, tolower_pos_0 by ulia. by rewrite bool_decide_eq_false_2.
  - destruct Hd1 as [[_ ?]|(l1' & Hp1 & [= -> ->] & H1')]; [done|].
    destruct Hd2 as [[-> ->]|(l2' & Hp & -> & H2')]; cbn [map take].
    + rewrite tolower_pos_0 by ulia. by rewrite bool_decide_eq_false_2.
    + destruct (_ =? _) eqn:E; breflect; cbn [negb].
      2:{ rewrite bool_decide_eq_false_2; [done|]. by intros [=]. }
      replace (c1 =? 0) with false by lia. rewrite andb_true_r.
      destruct (decide (k = 1)) as [->|Hk1].
      * change (u32 (1 - 1) =? 0) with true. cbn [negb]. rewrite bool_decide_eq_true_2; [done|].
        simpl. by rewrite E.
      * replace (u32 (k - 1) =? 0) with false by ulia. cbn [negb].
        rewrite (IH l2' (s1 + 1) (s2 + 1) (u32 (k - 1)) (k - 1) fuel) by (done || lia).
        do 3 f_equal. apply bool_decide_ext. rewrite E. split; [by intros ->|by intros [=]].
Qed.

Lemma stricmp_strnicmp b : ∀ l1 l2 s1 s2 n fuel,
  cstr b s1 l1 → cstr b s2 l2 → (length l1 < fuel)%nat →
  zlen l1 < n < 4294967296 → stricmp_loop fuel b s1 s2 = strnicmp_loop fuel b s1 s2 n.
Proof.
  induction l1 as [|x l1 IH]; intros l2 s1 s2 n fuel H1 H2 Hf Hn;
    (destruct fuel as [|fuel]; simpl in Hf; [lia|]); cbn [stricmp_loop strnicmp_loop];
    unfold zlen in Hn; simpl in Hn;
    destruct (cstr_byte _ _ _ H1) as (c1 & -> & Hc1 & Hd1), (cstr_byte _ _ _ H2) as (c2 & -> & Hc2 & Hd2);
    cbn [deref mbind res_bind]; rewrite chars_differ_eq by done.
  - destruct Hd1 as [[-> _]|(? & _ & ? & _)]; [|done]. by rewrite andb_false_r.
  - destruct Hd1 as [[_ ?]|(l1' & Hp1 & [= -> ->] & H1')]; [done|].
    replace (u32 (n - 1) =? 0) with false by ulia. cbn [negb andb].
    destruct (_ =? _) eqn:E; breflect; cbn [negb]; [|done].
    replace (c1 =? 0) with false by lia. cbn [negb].
    destruct Hd2 as [[-> ->]|(l2' & Hp & -> & H2')].
    + pose proof (tolower_pos_0 c1) as Ht. rewrite (proj2 (Z.eqb_eq _ _) E) in Ht. ulia.
    + apply (IH l2'); [done|done|lia|unfold zlen; ulia].
Qed.

Lemma same_prefix_all n l1 l2 : zlen l1 < n →
  same_prefix n l1 l2 = bool_decide (map tolower l1 = map tolower l2).
Proof.
  intros Hl. apply bool_decide_ext. split; [|by intros ->]. intros Ht. unfold zlen in Hl.
  rewrite (take_ge (map tolower l1)) in Ht by (rewrite length_map; lia).
  pose proof (f_equal length Ht) as Hlen. rewrite length_take, !length_map in Hlen.
  by rewrite take_ge in Ht by (rewrite length_map; lia).
Qed.

Lemma lwip_stricmp_ok b s1 s2 l1 l2 :
  cstr b s1 l1 → cstr b s2 l2 → zlen l1 < 4294967295 →
  lwip_stricmp b s1 s2 = Ok (c_bool (negb (bool_decide (map tolower l1 = map tolower l2)))).
Proof.
  intros H1 H2 Hl. pose proof (cstr_fuel _ _ _ H1) as Hf. unfold lwip_stricmp.
  rewrite (stricmp_strnicmp b l1 l2 s1 s2 4294967295) by (done || lia).
  rewrite (strnicmp_loop_ok b l1 l2 s1 s2 4294967295 4294967295) by (done || lia).
  by rewrite same_prefix_all.
Qed.

(** lwip_stricmp and lwip_strnicmp compare without case: they return 0 exactly
    when the strings, or their first [n] characters for [n > 0], are equal after
    mapping ASCII letters to lower case, and 1 otherwise; no other byte counts as
    a letter. *)
Theorem stricmp_ignores_case b s1 s2 l1 l2 n :
  cstr b s1 l1 → cstr b s2 l2 → zlen l1 < 4294967295 → 0 < n < 4294967296 →
  lwip_stricmp b s1 s2 = Ok (c_bool (negb (bool_decide (map tolower l1 = map tolower l2)))) ∧
  lwip_strnicmp b s1 s2 n =
    Ok (c_bool (negb (bool_decide (take (Z.to_nat n) (map tolower l1) = take (Z.to_nat n) (map tolower l2))))).
Proof.
  intros H1 H2 Hl Hn. split; [by apply lwip_stricmp_ok|]. pose proof (cstr_fuel _ _ _ H1) as Hf.
  apply (strnicmp_loop_ok b l1 l2 s1 s2 n n); [done|done|done|lia|]. symmetry. apply u32_id. ulia.
Qed.

(** With [len = 0], where nothing is to be compared, lwip_strnicmp looks at the
    first characters, then [len--] wraps around and it compares the whole strings. *)
Theorem lwip_strnicmp_zero b s1 s2 l1 l2 :
  cstr b s1 l1 → cstr b s2 l2 → zlen l1 < 4294967295 →
  lwip_strnicmp b s1 s2 0 = lwip_stricmp b s1 s2.
Proof.
  intros H1 H2 Hl. rewrite (lwip_stricmp_ok b s1 s2 l1 l2) by done.
  unfold lwip_strnicmp. pose proof (cstr_fuel _ _ _ H1) as Hf.
  rewrite (strnicmp_loop_ok b l1 l2 s1 s2 0 4294967296) by (done || lia).
  by rewrite same_prefix_all by lia.
Qed.

(** ** lwip_itoa: theorems *)

Lemma store_ok b a v : is_Some (b !! a) → store b a v = Ok (<[a := v]> b).
Proof. intros [x Hx]. unfold store, mstore, mapped_b. simpl. by rewrite Hx. Qed.

Lemma mapped_insert b a v c n : mapped b c n → mapped (<[a := v]> b) c n.
Proof. apply (mapped_mwrite b a [v]). Qed.

Lemma mwrite_snoc b a l v : mwrite (<[a + zlen l := v]> b) a l = mwrite b a (l ++ [v]).
Proof.
  rewrite mwrite_app. apply map_eq; intros i. simpl. rewrite lookup_mwrite.
  destruct (decide (i = a + zlen l)) as [->|Hne].
  - by rewrite bool_decide_eq_false_2, !lookup_insert_eq by lia.
  - by rewrite !lookup_insert_ne, lookup_mwrite by done.
Qed.

Lemma numeral_pos n ds : numeral n ds → 0 < n.
Proof. induction 1; lia. Qed.

Lemma numeral_digits n ds : numeral n ds → Forall (λ c, 48 ≤ c ≤ 57) ds ∧ 0 < zlen ds.
Proof.
  induction 1 as [d Hd|n d ds _ [IH Hz] Hd].
  - split; [|done]. repeat constructor; lia.
  - rewrite Forall_app, zlen_app. split; [|unfold zlen in *; simpl; lia]. split; [done|]. repeat constructor; lia.
Qed.

Lemma numeral_exists n : 0 < n → ∃ ds, numeral n ds.
Proof.
  intros Hn. revert Hn. induction (Z.lt_wf 0 n) as [n _ IH]. intros Hn.
  destruct (decide (n < 10)); [eexists; apply numeral_digit; lia|].
  destruct (IH (n / 10)) as [ds Hds]; [zlia|zlia|].
  exists (ds ++ [48 + n mod 10]). rewrite (Z.div_mod n 10) at 1 by lia. apply numeral_snoc; [done|zlia].
Qed.

Lemma itoa_loop_stop fuel tmp rs b : itoa_loop fuel 0 tmp rs b = Ok (0, tmp, b).
Proof. by destruct fuel. Qed.

Lemma itoa_loop_full fuel n rs b : itoa_loop fuel n rs rs b = Ok (n, rs, b).
Proof. destruct fuel; cbn [itoa_loop]; by rewrite Z.ltb_irrefl, andb_false_r. Qed.

Lemma itoa_loop_step fuel n tmp rs b : 0 < n → rs < tmp → is_Some (b !! (tmp - 1)) →
  itoa_loop (S fuel) n tmp rs b = itoa_loop fuel (n / 10) (tmp - 1) rs (<[tmp - 1 := 48 + n mod 10]> b).
Proof.
  intros Hn Hlt Hm. cbn [itoa_loop]. replace (n =? 0) with false by lia.
  replace (rs <? tmp) with true by lia. cbn [negb andb]. by rewrite store_ok.
Qed.

(** The digits are stored from the end; the loop stops with a remainder when the
    buffer is full. *)
Lemma itoa_loop_ok n ds : numeral n ds → ∀ fuel tmp rs b,
  rs ≤ tmp → (Z.to_nat (tmp - rs) ≤ fuel)%nat → mapped b rs (tmp - rs) →
  if zlen ds <=? tmp - rs then itoa_loop fuel n tmp rs b = Ok (0, tmp - zlen ds, mwrite b (tmp - zlen ds) ds)
  else ∃ n' w, itoa_loop fuel n tmp rs b = Ok (n', rs, mwrite b rs w) ∧ n' ≠ 0 ∧ zlen w = tmp - rs.
Proof.
  assert (Hm1 : ∀ b rs tmp, rs < tmp → mapped b rs (tmp - rs) → is_Some (b !! (tmp - 1))).
  { intros b rs tmp Hlt Hm. replace (tmp - 1) with (rs + (tmp - 1 - rs)) by lia. apply Hm. lia. }
  induction 1 as [d Hd|n d ds Hn IH Hd]; intros fuel tmp rs b Hle Hf Hm.
  - change (zlen [48 + d]) with 1. destruct (1 <=? tmp - rs) eqn:E; breflect.
    + destruct fuel as [|fuel]; [lia|]. rewrite itoa_loop_step by (lia || (eapply Hm1; [|done]; lia)).
      rewrite Z.div_small, Z.mod_small by lia. apply itoa_loop_stop.
    + assert (tmp = rs) as -> by lia. exists d, []. rewrite itoa_loop_full. split; [done|].
      split; [lia|]. by rewrite Z.sub_diag.
  - pose proof (numeral_pos _ _ Hn) as Hpos. rewrite zlen_app. change (zlen [48 + d]) with 1.
    destruct (decide (tmp = rs)) as [->|Hne].
    { replace (zlen ds + 1 <=? rs - rs) with false by (pose proof (zlen_nonneg ds); lia).
      exists (10 * n + d), []. rewrite itoa_loop_full. split; [done|]. split; [lia|]. by rewrite Z.sub_diag. }
    destruct fuel as [|fuel]; [lia|]. rewrite itoa_loop_step by (lia || (eapply Hm1; [|done]; lia)).
    replace ((10 * n + d) / 10) with n by zlia. replace ((10 * n + d) mod 10) with d by zlia.
    assert (Hm' : mapped (<[tmp - 1 := 48 + d]> b) rs (tmp - 1 - rs)).
    { apply mapped_insert. eapply mapped_mono; [| |exact Hm]; lia. }
    specialize (IH fuel (tmp - 1) rs _ ltac:(lia) ltac:(lia) Hm').
    replace (zlen ds <=? tmp - 1 - rs) with (zlen ds + 1 <=? tmp - rs) in IH by lia.
    destruct (_ <=? _) eqn:E; breflect.
    + rewrite IH. f_equal. f_equal; [f_equal; lia|]. rewrite <-mwrite_snoc. f_equal; [|lia]. f_equal. lia.
    + destruct IH as (n' & w & -> & Hn' & Hw). exists n', (w ++ [48 + d]). split; [|split; [done|]].
      * rewrite <-mwrite_snoc. do 4 f_equal. lia.
      * rewrite zlen_app. change (zlen [48 + d]) with 1. lia.
Qed.

(** The part of lwip_itoa after the sign and the terminator are stored, for a
    number other than 0. *)
Lemma itoa_tail n ds result bufsize rs b :
  numeral n ds → result ≤ rs → rs ≤ result + bufsize - 1 → mapped b result bufsize →
  b !! (result + bufsize - 1) = Some 0 →
  ∃ b', ('(n, tmp, b) ← itoa_loop (Z.to_nat (result + bufsize - 1 - rs)) n (result + bufsize - 1) rs b;
         if negb (n =? 0) then store b result 0 else
         c ← deref (b !! tmp);
         if c =? 0 then b ← store b rs 48; store b (rs + 1) 0
         else memmove rs tmp (result + bufsize - tmp) b) = Ok b' ∧
    (if zlen ds <=? result + bufsize - 1 - rs
     then mread b' rs (length ds + 1) = Some (ds ++ [0]) ∧ ∀ i, i < rs → b' !! i = b !! i
     else b' !! result = Some 0) ∧
    ∀ i, i < result ∨ result + bufsize ≤ i → b' !! i = b !! i.
Proof.
  set (e := result + bufsize - 1). intros Hn Hr He Hm H0.
  pose proof (numeral_digits _ _ Hn) as [Hds Hz].
  pose proof (itoa_loop_ok n ds Hn (Z.to_nat (e - rs)) e rs b He ltac:(lia)) as Hloop.
  specialize (Hloop ltac:(eapply mapped_mono; [| |exact Hm]; subst e; lia)).
  destruct (zlen ds <=? e - rs) eqn:E; breflect.
  - rewrite Hloop. cbn [mbind res_bind]. set (b3 := mwrite b (e - zlen ds) ds).
    assert (Hr3 : mread b3 (e - zlen ds) (length ds + 1) = Some (ds ++ [0])).
    { rewrite mread_app. subst b3. rewrite mread_mwrite_same. cbn [mbind option_bind].
      rewrite mread_mwrite_disjoint by (unfold zlen; lia). simpl.
      replace (e - zlen ds + Z.of_nat (length ds)) with e by (unfold zlen; lia). by rewrite H0. }
    assert (Hc : b3 !! (e - zlen ds) = ds !! O).
    { pose proof (mread_lookup _ _ _ _ O Hr3 ltac:(lia)) as Hl. rewrite Z.add_0_r in Hl. rewrite Hl.
      apply lookup_app_l. unfold zlen in Hz. lia. }
    destruct ds as [|d ds]; [done|]. apply Forall_cons in Hds as [Hd Hds]. rewrite Hc.
    cbn [negb deref mbind res_bind]. change (0 =? 0) with true. cbn [negb lookup list_lookup deref mbind res_bind].
    replace (d =? 0) with false by lia. set (l := d :: ds) in *.
    assert (Hlen : result + bufsize - (e - zlen l) = zlen l + 1) by (subst e; lia).
    unfold memmove. rewrite Hlen. replace (Z.to_nat (zlen l + 1)) with (length l + 1)%nat by (unfold zlen; lia).
    rewrite Hr3. rewrite (proj2 (mapped_b_spec b3 rs (zlen l + 1) ltac:(lia))).
    2:{ apply mapped_mwrite. eapply mapped_mono; [| |exact Hm]; subst e; lia. }
    eexists. split; [done|]. assert (Hzl : zlen (l ++ [0]) = zlen l + 1) by (by rewrite zlen_app).
    split; [split|].
    + replace (length l + 1)%nat with (length (l ++ [0])) by (rewrite length_app; done). apply mread_mwrite_same.
    + intros i Hi. subst b3. rewrite !lookup_mwrite, !bool_decide_eq_false_2; [done|lia|lia].
    + intros i Hi. subst b3. rewrite !lookup_mwrite, !bool_decide_eq_false_2; [done|lia|subst e; lia].
  - destruct Hloop as (n' & w & -> & Hn' & Hw). cbn [mbind res_bind].
    replace (n' =? 0) with false by lia. cbn [negb]. rewrite store_ok.
    2:{ pose proof (mapped_mwrite b rs w result bufsize Hm 0 ltac:(lia)) as Hs. by rewrite Z.add_0_r in Hs. }
    eexists. split; [done|]. split; [by rewrite lookup_insert_eq|]. intros i Hi.
    rewrite lookup_insert_ne, lookup_mwrite, bool_decide_eq_false_2; [done|lia|lia].
Qed.

Lemma numeral_cstr n ds : numeral n ds → Forall (λ c, 0 < c < 256) ds.
Proof. intros [H _]%numeral_digits. eapply Forall_impl; [done|]. simpl. lia. Qed.

Lemma store_in b a n i v : mapped b a n → a ≤ i < a + n → store b i v = Ok (<[i := v]> b).
Proof. intros Hm Hi. apply store_ok. replace i with (a + (i - a)) by lia. apply Hm. lia. Qed.

Lemma itoa_zero b result bufsize : mapped b result bufsize → 2 ≤ bufsize →
  ∃ b', lwip_itoa result bufsize 0 b = Ok b' ∧ cstr b' result [48] ∧
        ∀ i, i < result ∨ result + bufsize ≤ i → b' !! i = b !! i.
Proof.
  intros Hm Hb. unfold lwip_itoa. change (0 =? INT_MIN) with false. change (0 <? 0) with false. cbv iota.
  replace (bufsize <? 2) with false by lia. cbn [mbind res_bind].
  rewrite (store_in b result bufsize) by (done || lia). cbn [mbind res_bind].
  change (if 0 <=? 0 then 0 else - 0) with 0. rewrite itoa_loop_stop. cbn [mbind res_bind].
  change (0 =? 0) with true. cbn [negb]. rewrite lookup_insert_eq. cbn [deref mbind res_bind].
  change (0 =? 0) with true. cbv iota. do 2 (rewrite (store_in _ result bufsize)
    by (repeat apply mapped_insert; done || lia); cbn [mbind res_bind]).
  eexists. split; [done|]. split; [|intros i ?; rewrite !lookup_insert_ne; [done|lia..]].
  apply cstr_cons. split; [|split; [lia|by apply cstr_nil, lookup_insert_eq]].
  rewrite lookup_insert_ne by lia. by rewrite lookup_insert_eq.
Qed.

Lemma itoa_nonzero b result bufsize number ds :
  mapped b result bufsize → 2 ≤ bufsize → INT_MIN < number → number ≠ 0 → numeral (Z.abs number) ds →
  ∃ b', lwip_itoa result bufsize number b = Ok b' ∧
    (let s := if number <? 0 then 45 :: ds else ds in
     cstr b' result (if zlen s + 1 <=? bufsize then s else [])) ∧
    ∀ i, i < result ∨ result + bufsize ≤ i → b' !! i = b !! i.
Proof.
  intros Hm Hb Hmin H0 Hnum. unfold lwip_itoa. pose proof (numeral_cstr _ _ Hnum) as Hch.
  replace (number =? INT_MIN) with false by lia. replace (bufsize <? 2) with false by lia.
  replace (if 0 <=? number then number else - number) with (Z.abs number) by (destruct (Z.leb_spec 0 number); lia).
  destruct (number <? 0) eqn:En; breflect; cbn [mbind res_bind];
    rewrite (store_in b result bufsize) by (done || lia); cbn [mbind res_bind].
  - rewrite (store_in _ result bufsize) by (repeat apply mapped_insert; done || lia). cbn [mbind res_bind].
    destruct (itoa_tail (Z.abs number) ds result bufsize (result + 1)
                (<[result + bufsize - 1:=0]> (<[result:=45]> b))) as (b' & -> & Hres & Hout);
      [done|lia|lia|by repeat apply mapped_insert|apply lookup_insert_eq|].
    exists b'. split; [done|]. split.
    + cbn zeta. rewrite zlen_cons.
      replace (zlen ds + 1 + 1 <=? bufsize) with (zlen ds <=? result + bufsize - 1 - (result + 1)) by lia.
      destruct (_ <=? _); [|by apply cstr_nil]. destruct Hres as [Hr Hlo]. apply cstr_cons.
      split; [|by split; [lia|]]. rewrite Hlo, lookup_insert_ne by lia. apply lookup_insert_eq.
    + intros i Hi'. rewrite Hout, !lookup_insert_ne by lia. done.
  - destruct (itoa_tail (Z.abs number) ds result bufsize result (<[result + bufsize - 1:=0]> b))
      as (b' & -> & Hres & Hout); [done|lia|lia|by apply mapped_insert|apply lookup_insert_eq|].
    exists b'. split; [done|]. split.
    + cbn zeta. replace (zlen ds + 1 <=? bufsize) with (zlen ds <=? result + bufsize - 1 - result) by lia.
      destruct (_ <=? _); [|by apply cstr_nil]. by destruct Hres.
    + intros i Hi'. rewrite Hout, lookup_insert_ne by lia. done.
Qed.

(** lwip_itoa prints the number: for every [int] but INT_MIN and every buffer of
    [bufsize > 0] bytes, the buffer ends up holding the NUL-terminated decimal
    numeral, without leading zeros and with a '-' for a negative number, when it
    fits, and the empty string otherwise; nothing outside the buffer changes. *)
Theorem lwip_itoa_correct b result bufsize number :
  mapped b result bufsize → 0 < bufsize → INT_MIN < number ≤ INT_MAX →
  ∃ ds b', decimal (Z.abs number) ds ∧ lwip_itoa result bufsize number b = Ok b' ∧
    (let s := if number <? 0 then 45 :: ds else ds in
     cstr b' result (if zlen s + 1 <=? bufsize then s else [])) ∧
    ∀ i, i < result ∨ result + bufsize ≤ i → b' !! i = b !! i.
Proof.
  intros Hm Hb Hi.
  assert (∃ ds, decimal (Z.abs number) ds ∧ 0 < zlen ds) as (ds & Hdec & Hz).
  { unfold decimal. destruct (_ =? _) eqn:E; breflect; [by eexists|].
    destruct (numeral_exists (Z.abs number)) as [ds Hds]; [lia|]. exists ds. split; [done|].
    by apply numeral_digits in Hds as [_ ?]. }
  exists ds. destruct (decide (bufsize = 1)) as [->|Hb1].
  { unfold lwip_itoa. replace (number =? INT_MIN) with false by lia. change (1 <? 2) with true.
    change (1 =? 1) with true. cbv iota.
    rewrite (store_in b result 1) by (done || lia). eexists. split; [done|]. split; [done|].
    split; [|intros i ?; apply lookup_insert_ne; lia]. cbn zeta.
    replace (_ <=? 1) with false by (destruct (number <? 0); rewrite ?zlen_cons; lia).
    by apply cstr_nil, lookup_insert_eq. }
  destruct (decide (number = 0)) as [->|H0].
  - unfold decimal in Hdec. simpl in Hdec. subst ds.
    destruct (itoa_zero b result bufsize Hm ltac:(lia)) as (b' & He & Hs & Ho).
    exists b'. split_and!; [done|done| |done]. cbn zeta. change (0 <? 0) with false. cbv iota.
    change (zlen [48]) with 1. by replace (1 + 1 <=? bufsize) with true by lia.
  - unfold decimal in Hdec. replace (Z.abs number =? 0) with false in Hdec by lia.
    destruct (itoa_nonzero b result bufsize number ds Hm ltac:(lia) ltac:(lia) H0 Hdec) as (b' & He & Hs & Ho).
    by exists b'; split_and!; [unfold decimal; replace (Z.abs number =? 0) with false by lia|..].
Qed.

(** lwip_itoa negates INT_MIN, which overflows. *)
Theorem lwip_itoa_INT_MIN b result bufsize : lwip_itoa result bufsize INT_MIN b = Ub.
Proof. reflexivity. Qed.

(** ** Witnesses *)

(** "abcAB" at 100, "ab" at 200, 20 free bytes at 300. *)
Definition sample_strings : bytes :=
  mwrite (mwrite (mwrite ∅ 100 [97; 98; 99; 65; 66; 0]) 200 [65; 66; 0]) 300 (replicate 20 1).

Lemma byte_order_witness : is_u16 258 ∧ is_u32 16909060 ∧
  lwip_htons 258 = 513 ∧ lwip_htonl 16909060 = 67305985 ∧ lwip_htonl (lwip_htonl 16909060) = 16909060.
Proof.
  split; [ulia|]. split; [ulia|]. split; [reflexivity|]. split; [reflexivity|].
  apply (byte_order 258 16909060); ulia.
Defined.

Lemma sample_cstr : cstr sample_strings 100 [97; 98; 99; 65; 66] ∧ cstr sample_strings 200 [65; 66].
Proof. split; (split; [repeat constructor|vm_compute; reflexivity]). Qed.

Lemma lwip_strnstr_first_witness :
  lwip_strnstr sample_strings 100 200 5 = Ok 103 ∧ lwip_strnstr sample_strings 100 200 4 = Ok 0 ∧
  ((∃ i : nat, lwip_strnstr sample_strings 100 200 5 = Ok (100 + Z.of_nat i) ∧ Z.of_nat i + zlen [65; 66] ≤ 5 ∧
     occurs [65; 66] [97; 98; 99; 65; 66] i ∧ ∀ j : nat, (j < i)%nat → ¬ occurs [65; 66] [97; 98; 99; 65; 66] j) ∨
   lwip_strnstr sample_strings 100 200 5 = Ok 0 ∧
     ∀ i : nat, Z.of_nat i + zlen [65; 66] ≤ 5 → ¬ occurs [65; 66] [97; 98; 99; 65; 66] i).
Proof.
  split; [vm_compute; reflexivity|]. split; [vm_compute; reflexivity|].
  apply lwip_strnstr_first; [apply sample_cstr|apply sample_cstr|lia].
Defined.

Lemma stricmp_ignores_case_witness :
  lwip_stricmp sample_strings 100 200 = Ok 1 ∧ lwip_strnicmp sample_strings 100 200 2 = Ok 0.
Proof.
  destruct (stricmp_ignores_case sample_strings 100 200 [97; 98; 99; 65; 66] [65; 66] 2) as [H1 H2];
    [apply sample_cstr|apply sample_cstr|reflexivity|lia|].
  split; [rewrite H1; reflexivity|rewrite H2; reflexivity].
Defined.

Lemma lwip_strnicmp_zero_witness :
  lwip_strnicmp sample_strings 100 200 0 = Ok 1.
Proof.
  rewrite (lwip_strnicmp_zero sample_strings 100 200 [97; 98; 99; 65; 66] [65; 66]);
    [vm_compute; reflexivity|apply sample_cstr|apply sample_cstr|reflexivity].
Defined.

Lemma sample_buffer : mapped sample_strings 300 20.
Proof. eapply (mread_mapped _ _ _ (replicate 20 1)). vm_compute. reflexivity. Qed.

Lemma lwip_itoa_correct_witness :
  mapped sample_strings 300 20 ∧
  ∃ ds b', decimal (Z.abs (-2019)) ds ∧ lwip_itoa 300 20 (-2019) sample_strings = Ok b' ∧
    (let s := if -2019 <? 0 then 45 :: ds else ds in
     cstr b' 300 (if zlen s + 1 <=? 20 then s else [])) ∧
    ∀ i, i < 300 ∨ 300 + 20 ≤ i → b' !! i = sample_strings !! i.
Proof. split; [apply sample_buffer|]. apply lwip_itoa_correct; [apply sample_buffer|lia|unfold INT_MIN, INT_MAX; lia]. Defined.

(** A one-character token is looked for one byte past the [n] bytes of a buffer
    that is not NUL-terminated. *)
Example lwip_strnstr_overread :
  lwip_strnstr (mwrite (mwrite ∅ 100 [97; 98; 99]) 200 [120; 0]) 100 200 3 = Ub.
Proof. vm_compute. reflexivity. Qed.
