(* ===== verification/IpAddr.v ===== *)
(** * IP address types: include/lwip/ip4_addr.h, ip6_addr.h and ip_addr.h

    Addresses are kept in network byte order, as the 32-bit words a little-endian
    host loads.  [ip_addr_t] is a union: both members start at the same address,
    so the IPv4 member is the first word of the IPv6 member. *)

From S2P Require Import Prelude.

(** struct ip4_addr has one member. *)
Abbreviation ip4_addr_t := Z (only parsing).

(** struct ip6_addr with LWIP_IPV6_SCOPES 1; [addr] has four words. *)
Record ip6_addr := Ip6Addr { addr : list Z; zone : Z }.
Definition ip6_addr_t : Type := ip6_addr.

#[global] Instance ip6_addr_eq_dec : EqDecision ip6_addr.
Proof. solve_decision. Defined.

(** enum lwip_ip_addr_type *)
Definition IPADDR_TYPE_V4 : Z := 0.
Definition IPADDR_TYPE_V6 : Z := 6.
Definition IPADDR_TYPE_ANY : Z := 46.

Record ip_addr := IpAddr { u_addr : ip6_addr; type : Z }.

(** A word of the address; an index outside the array is undefined behaviour. *)
Definition addr_word (a : ip6_addr) (i : Z) : res Z :=
  if 0 <=? i then deref (addr a !! Z.to_nat i) else Ub.

Definition ip_2_ip6 (ipaddr : ip_addr) : ip6_addr := u_addr ipaddr.
Definition ip_2_ip4 (ipaddr : ip_addr) : res ip4_addr_t := addr_word (u_addr ipaddr) 0.
Definition IP_IS_V6 (ipaddr : ip_addr) : bool := type ipaddr =? IPADDR_TYPE_V6.

(** Four 32-bit words. *)
Definition ip6_ok (a : ip6_addr) : Prop := length (addr a) = 4%nat ∧ Forall is_u32 (addr a).

#[global] Instance ip6_ok_dec a : Decision (ip6_ok a).
Proof. unfold ip6_ok. apply _. Defined.

Lemma ip6_ok_words a : ip6_ok a →
  ∃ w0 w1 w2 w3, addr a = [w0; w1; w2; w3] ∧ is_u32 w0 ∧ is_u32 w1 ∧ is_u32 w2 ∧ is_u32 w3.
Proof.
  intros [Hl Hf]. destruct (addr a) as [|w0 [|w1 [|w2 [|w3 [|? ?]]]]]; try discriminate Hl.
  rewrite !Forall_cons in Hf. exists w0, w1, w2, w3. naive_solver.
Qed.

Lemma addr_word_4 a w0 w1 w2 w3 : addr a = [w0; w1; w2; w3] →
  addr_word a 0 = Ok w0 ∧ addr_word a (0 + 1) = Ok w1 ∧ addr_word a (0 + 1 + 1) = Ok w2 ∧
  addr_word a (0 + 1 + 1 + 1) = Ok w3.
Proof. intros Ha. unfold addr_word. by rewrite Ha. Qed.
