(* ===== verification/Mem.v ===== *)
(** * The heap: core/mem.c

    The heap is a region [ram] in which [struct mem] headers form a doubly
    linked list of blocks.  The configuration of lwip_config/lwipopts.h
    compiles the part of the file under [#else] of MEM_USE_POOLS: MEM_SIZE is
    3200, hence [mem_size_t] is a [u16_t]; MEM_OVERFLOW_CHECK, MEM_SANITY_CHECK,
    LWIP_ALLOW_MEM_FREE_FROM_OTHER_CONTEXT and LWIP_STATS are 0 and NO_SYS is 1,
    so the locks and the statistics expand to nothing.

    A pointer into the heap is its offset from [ram] (which mem_init aligns to
    MEM_ALIGNMENT), [None] is NULL.  [ram !! off] is the [struct mem] stored at
    [ram + off]; a header stays in the map after its block was merged into a
    neighbour, as it stays in memory.  [ram_end] is the offset
    MEM_SIZE_ALIGNED. *)

From S2P Require Import Prelude ByteMem.

(** ** Data *)

Record struct_mem := Mem { mem_next : Z; mem_prev : Z; mem_used : Z }.

Record heap := Heap { ram : gmap Z struct_mem; lfree : Z }.

#[global] Instance mem_eq_dec : EqDecision struct_mem.
Proof. solve_decision. Defined.
#[global] Instance heap_eq_dec : EqDecision heap.
Proof. solve_decision. Defined.

Definition MEM_SIZE : Z := 3200.
Definition MIN_SIZE : Z := 12.
Definition MIN_SIZE_ALIGNED : Z := LWIP_MEM_ALIGN_SIZE MIN_SIZE.
(** sizeof(struct mem) is 6: two [u16_t] and one [u8_t], padded to 2. *)
Definition SIZEOF_STRUCT_MEM : Z := LWIP_MEM_ALIGN_SIZE 6.
Definition MEM_SIZE_ALIGNED : Z := LWIP_MEM_ALIGN_SIZE MEM_SIZE.
Definition ram_end : Z := MEM_SIZE_ALIGNED.

Definition ptr_to_mem (ptr : Z) : Z := ptr.
Definition mem_to_ptr (mem : Z) : Z := u16 mem.

(** Field accesses through a [struct mem *]. *)
Definition mget (h : heap) (p : Z) : res struct_mem := deref (ram h !! p).
Definition set_next (p v : Z) (h : heap) : res heap :=
  m ← mget h p; Ok (Heap (<[p := Mem v (mem_prev m) (mem_used m)]> (ram h)) (lfree h)).
Definition set_prev (p v : Z) (h : heap) : res heap :=
  m ← mget h p; Ok (Heap (<[p := Mem (mem_next m) v (mem_used m)]> (ram h)) (lfree h)).
Definition set_used (p v : Z) (h : heap) : res heap :=
  m ← mget h p; Ok (Heap (<[p := Mem (mem_next m) (mem_prev m) v]> (ram h)) (lfree h)).
Definition set_lfree (v : Z) (h : heap) : heap := Heap (ram h) v.
(** A header written field by field at a place that held none. *)
Definition new_mem (p : Z) (m : struct_mem) (h : heap) : heap := Heap (<[p := m]> (ram h)) (lfree h).

(** ** Operations *)

(** "plug hole forward": combine [mem] with an unused [mem->next] *)
Definition plug_forward (mem : Z) (m : struct_mem) (h : heap) : res heap :=
  let nmem := ptr_to_mem (mem_next m) in
  if mem =? nmem then Ok h else
  nm ← mget h nmem;
  if (mem_used nm =? 0) && negb (nmem =? ram_end) then
    let h := if lfree h =? nmem then set_lfree mem h else h in
    h ← set_next mem (mem_next nm) h;
    if negb (mem_next nm =? MEM_SIZE_ALIGNED)
    then set_prev (ptr_to_mem (mem_next nm)) (mem_to_ptr mem) h else Ok h
  else Ok h.

(** "plug hole backward": combine [mem] with an unused [mem->prev] *)
Definition plug_backward (mem : Z) (h : heap) : res heap :=
  m ← mget h mem;
  let pmem := ptr_to_mem (mem_prev m) in
  if pmem =? mem then Ok h else
  pm ← mget h pmem;
  if mem_used pm =? 0 then
    let h := if lfree h =? mem then set_lfree pmem h else h in
    h ← set_next pmem (mem_next m) h;
    if negb (mem_next m =? MEM_SIZE_ALIGNED)
    then set_prev (ptr_to_mem (mem_next m)) (mem_to_ptr pmem) h else Ok h
  else Ok h.

Definition plug_holes (mem : Z) (h : heap) : res heap :=
  LWIP_ASSERT (0 <=? mem);;
  LWIP_ASSERT (mem <? ram_end);;
  m ← mget h mem;
  LWIP_ASSERT (mem_used m =? 0);;
  LWIP_ASSERT (mem_next m <=? MEM_SIZE_ALIGNED);;
  h ← plug_forward mem m h;
  plug_backward mem h.

(** The state of the memory before [mem_init]: no header was ever written. *)
Definition heap_uninit : heap := Heap ∅ 0.

Definition mem_init (h : heap) : res heap :=
  LWIP_ASSERT (Z.land SIZEOF_STRUCT_MEM (MEM_ALIGNMENT - 1) =? 0);;
  let h := new_mem 0 (Mem MEM_SIZE_ALIGNED 0 0) h in
  let h := new_mem ram_end (Mem MEM_SIZE_ALIGNED MEM_SIZE_ALIGNED 1) h in
  Ok (set_lfree 0 h).

Definition mem_link_valid (h : heap) (mem : Z) : res bool :=
  let rmem_idx := mem_to_ptr mem in
  m ← mget h mem;
  let nmem := ptr_to_mem (mem_next m) in
  let pmem := ptr_to_mem (mem_prev m) in
  if (MEM_SIZE_ALIGNED <? mem_next m) || (MEM_SIZE_ALIGNED <? mem_prev m) then Ok false else
  bad_prev ← (if negb (mem_prev m =? rmem_idx)
              then pm ← mget h pmem; Ok (negb (mem_next pm =? rmem_idx)) else Ok false);
  if (bad_prev : bool) then Ok false else
  bad_next ← (if negb (nmem =? ram_end)
              then nm ← mget h nmem; Ok (negb (mem_prev nm =? rmem_idx)) else Ok false);
  Ok (negb bad_next).

(** LWIP_MEM_ILLEGAL_FREE(msg) is LWIP_ASSERT(msg, 0): the statements after it
    are not reached. *)
Definition mem_free (rmem : option Z) (h : heap) : res heap :=
  match rmem with
  | None => Ok h
  | Some rmem =>
      if negb (Z.land rmem (MEM_ALIGNMENT - 1) =? 0) then Assert else
      let mem := rmem - SIZEOF_STRUCT_MEM in
      if (mem <? 0) || (ram_end <? rmem + MIN_SIZE_ALIGNED) then Assert else
      m ← mget h mem;
      if mem_used m =? 0 then Assert else
      valid ← mem_link_valid h mem;
      if negb valid then Assert else
      h ← set_used mem 0 h;
      let h := if mem <? lfree h then set_lfree mem h else h in
      plug_holes mem h
  end.

(** The part of [mem_trim] under the lock: the tail of the block is released. *)
Definition mem_trim_tail (rmem mem ptr newsize size : Z) (m : struct_mem) (h : heap) :
    res (option Z * heap) :=
  let mem2 := ptr_to_mem (mem_next m) in
  m2 ← mget h mem2;
  if mem_used m2 =? 0 then
    (* The next struct is unused, we can simply move it at little *)
    LWIP_ASSERT (negb (mem_next m =? MEM_SIZE_ALIGNED));;
    let next := mem_next m2 in
    let ptr2 := u16 (ptr + SIZEOF_STRUCT_MEM + newsize) in
    let h := if lfree h =? mem2 then set_lfree (ptr_to_mem ptr2) h else h in
    let h := new_mem ptr2 (Mem next ptr 0) h in
    h ← set_next mem ptr2 h;
    h ← (if negb (next =? MEM_SIZE_ALIGNED) then set_prev (ptr_to_mem next) ptr2 h else Ok h);
    Ok (Some rmem, h)
  else if newsize + SIZEOF_STRUCT_MEM + MIN_SIZE_ALIGNED <=? size then
    let ptr2 := u16 (ptr + SIZEOF_STRUCT_MEM + newsize) in
    LWIP_ASSERT (negb (mem_next m =? MEM_SIZE_ALIGNED));;
    let h := if ptr_to_mem ptr2 <? lfree h then set_lfree (ptr_to_mem ptr2) h else h in
    let next := mem_next m in
    let h := new_mem ptr2 (Mem next ptr 0) h in
    h ← set_next mem ptr2 h;
    h ← (if negb (next =? MEM_SIZE_ALIGNED) then set_prev (ptr_to_mem next) ptr2 h else Ok h);
    Ok (Some rmem, h)
  else Ok (Some rmem, h).

Definition mem_trim (rmem : option Z) (new_size : Z) (h : heap) : res (option Z * heap) :=
  let newsize := u16 (LWIP_MEM_ALIGN_SIZE new_size) in
  let newsize := if newsize <? MIN_SIZE_ALIGNED then MIN_SIZE_ALIGNED else newsize in
  if (MEM_SIZE_ALIGNED <? newsize) || (newsize <? new_size) then Ok (None, h) else
  match rmem with
  | None => Assert
  | Some rmem =>
      LWIP_ASSERT ((0 <=? rmem) && (rmem <? ram_end));;
      let mem := rmem - SIZEOF_STRUCT_MEM in
      let ptr := mem_to_ptr mem in
      m ← mget h mem;
      let size := u16 (u16 (mem_next m - ptr) - SIZEOF_STRUCT_MEM) in
      LWIP_ASSERT (newsize <=? size);;
      if newsize =? size then Ok (Some rmem, h) else
      mem_trim_tail rmem mem ptr newsize size m h
  end.

(** [while (cur->used && cur != ram_end) cur = ptr_to_mem(cur->next);] *)
Fixpoint next_free (fuel : nat) (cur : Z) (h : heap) : res Z :=
  match fuel with
  | O => Stuck
  | S fuel =>
      m ← mget h cur;
      if negb (mem_used m =? 0) && negb (cur =? ram_end)
      then next_free fuel (ptr_to_mem (mem_next m)) h else Ok cur
  end.

(** Blocks are at least [SIZEOF_STRUCT_MEM + MIN_SIZE_ALIGNED] apart, so this
    many iterations walk over the whole heap. *)
Definition heap_fuel : nat := Z.to_nat MEM_SIZE_ALIGNED.

Lemma heap_fuel_eq : Z.of_nat heap_fuel = 3200.
Proof. reflexivity. Qed.

#[global] Opaque heap_fuel.

(** A fitting block was found: split off the remainder or take it whole. *)
Definition mem_malloc_split (size ptr : Z) (m : struct_mem) (h : heap) : res heap :=
  let mem := ptr_to_mem ptr in
  if size + SIZEOF_STRUCT_MEM + MIN_SIZE_ALIGNED <=? u32 (mem_next m - (ptr + SIZEOF_STRUCT_MEM)) then
    let ptr2 := u16 (ptr + SIZEOF_STRUCT_MEM + size) in
    LWIP_ASSERT (negb (ptr2 =? MEM_SIZE_ALIGNED));;
    let mem2 := ptr_to_mem ptr2 in
    let h := new_mem mem2 (Mem (mem_next m) ptr 0) h in
    h ← set_next mem ptr2 h;
    h ← set_used mem 1 h;
    if negb (mem_next m =? MEM_SIZE_ALIGNED)
    then set_prev (ptr_to_mem (mem_next m)) ptr2 h else Ok h
  else set_used mem 1 h.

(** [if (mem == lfree)]: find the next free block after [mem]. *)
Definition mem_malloc_adjust_lfree (mem : Z) (h : heap) : res heap :=
  if mem =? lfree h then
    cur ← next_free heap_fuel (lfree h) h;
    let h := set_lfree cur h in
    c ← mget h (lfree h);
    LWIP_ASSERT ((lfree h =? ram_end) || (mem_used c =? 0));;
    Ok h
  else Ok h.

(** The body of [mem_malloc]'s loop once a block was found. *)
Definition mem_malloc_take (size ptr : Z) (m : struct_mem) (h : heap) : res (option Z * heap) :=
  let mem := ptr_to_mem ptr in
  h ← mem_malloc_split size ptr m h;
  h ← mem_malloc_adjust_lfree mem h;
  LWIP_ASSERT (mem + SIZEOF_STRUCT_MEM + size <=? ram_end);;
  LWIP_ASSERT ((mem + SIZEOF_STRUCT_MEM) mod MEM_ALIGNMENT =? 0);;
  LWIP_ASSERT (Z.land mem (MEM_ALIGNMENT - 1) =? 0);;
  Ok (Some (mem + SIZEOF_STRUCT_MEM), h).

(** The [for] loop over the blocks from [lfree] on. *)
Fixpoint mem_malloc_scan (fuel : nat) (size ptr : Z) (h : heap) : res (option Z * heap) :=
  match fuel with
  | O => Stuck
  | S fuel =>
      if ptr <? u32 (MEM_SIZE_ALIGNED - size) then
        m ← mget h (ptr_to_mem ptr);
        if (mem_used m =? 0) && (size <=? u32 (mem_next m - (ptr + SIZEOF_STRUCT_MEM)))
        then mem_malloc_take size ptr m h
        else mem_malloc_scan fuel size (mem_next m) h
      else Ok (None, h)
  end.

Definition mem_malloc (size_in : Z) (h : heap) : res (option Z * heap) :=
  if size_in =? 0 then Ok (None, h) else
  let size := u16 (LWIP_MEM_ALIGN_SIZE size_in) in
  let size := if size <? MIN_SIZE_ALIGNED then MIN_SIZE_ALIGNED else size in
  if (MEM_SIZE_ALIGNED <? size) || (size <? size_in) then Ok (None, h) else
  mem_malloc_scan heap_fuel size (mem_to_ptr (lfree h)) h.

Definition mem_calloc (count size : Z) (h : heap) (b : bytes) : res (option Z * heap * bytes) :=
  let alloc_size := u32 (count * size) in
  if negb (u16 alloc_size =? alloc_size) then Ok (None, h, b) else
  '(p, h) ← mem_malloc (u16 alloc_size) h;
  match p with
  | None => Ok (None, h, b)
  | Some p => b ← memset p 0 alloc_size b; Ok (Some p, h, b)
  end.

(** The self check of the heap (compiled with MEM_SANITY_CHECK).  In the
    alignment tests of [next] and [prev] the comparison is inside the argument of
    LWIP_MEM_ALIGN: they test that the aligned value of the truth value is not 0. *)
Definition align_test (p : Z) : bool := negb (LWIP_MEM_ALIGN (c_bool (ptr_to_mem p =? ptr_to_mem p)) =? 0).

Fixpoint mem_sanity_walk (fuel : nat) (mem last_used : Z) (h : heap) : res Z :=
  match fuel with
  | O => Stuck
  | S fuel =>
      if (0 <? mem) && (mem <? ram_end) then
        m ← mget h mem;
        LWIP_ASSERT (LWIP_MEM_ALIGN mem =? mem);;
        LWIP_ASSERT (mem_prev m <=? MEM_SIZE_ALIGNED);;
        LWIP_ASSERT (mem_next m <=? MEM_SIZE_ALIGNED);;
        LWIP_ASSERT (align_test (mem_prev m));;
        LWIP_ASSERT (align_test (mem_next m));;
        (if last_used =? 0 then LWIP_ASSERT (mem_used m =? 1)
         else LWIP_ASSERT ((mem_used m =? 0) || (mem_used m =? 1)));;
        valid ← mem_link_valid h mem;
        LWIP_ASSERT valid;;
        mem_sanity_walk fuel (ptr_to_mem (mem_next m)) (mem_used m) h
      else Ok mem
  end.

Definition mem_sanity (h : heap) : res unit :=
  m ← mget h 0;
  LWIP_ASSERT ((mem_used m =? 0) || (mem_used m =? 1));;
  LWIP_ASSERT (mem_prev m =? 0);;
  LWIP_ASSERT (mem_next m <=? MEM_SIZE_ALIGNED);;
  LWIP_ASSERT (align_test (mem_next m));;
  mem ← mem_sanity_walk heap_fuel (ptr_to_mem (mem_next m)) (mem_used m) h;
  LWIP_ASSERT (mem =? ptr_to_mem MEM_SIZE_ALIGNED);;
  e ← mget h mem;
  LWIP_ASSERT (mem_used e =? 1);;
  LWIP_ASSERT (mem_prev e =? MEM_SIZE_ALIGNED);;
  LWIP_ASSERT (mem_next e =? MEM_SIZE_ALIGNED).
