(* ===== verification/MemFacts.v ===== *)
(** * Correctness of the heap

    The abstract heap is the list of blocks in address order, a block being its
    size (header included) and whether it is allocated.  [heap_ok h bs] relates
    the linked headers of [Mem.heap] to such a list.  Allocation is first fit
    with splitting, release is marking the block free and merging every run of
    free neighbours; [mem_malloc], [mem_free] and [mem_trim] refine these. *)

From S2P Require Import Prelude ByteMem Mem.

(** ** The abstract heap *)

Abbreviation block := (Z * bool)%type.

Definition hdr : Z := 8.
Definition min_block : Z := 20.

(** The remainder of a block is split off when it can hold a minimal block. *)
Definition split_block (need sz : Z) : list block :=
  if need + min_block <=? sz then [(need, true); (sz - need, false)] else [(sz, true)].

(** First fit: the offset of the user data and the new list. *)
Fixpoint first_fit (size off : Z) (bs : list block) : option (Z * list block) :=
  match bs with
  | [] => None
  | (sz, u) :: bs =>
      if negb u && (hdr + size <=? sz) then Some (off + hdr, split_block (hdr + size) sz ++ bs)
      else '(p, bs') ← first_fit size (off + sz) bs; Some (p, (sz, u) :: bs')
  end.

(** The size mem_malloc and mem_trim reserve for a request. *)
Definition round_size (n : Z) : Z := Z.max 12 ((n + 3) / 4 * 4).

Definition abs_malloc (n : Z) (bs : list block) : option Z * list block :=
  if (n =? 0) || (MEM_SIZE <? n) then (None, bs) else
  match first_fit (round_size n) 0 bs with
  | Some (p, bs') => (Some p, bs')
  | None => (None, bs)
  end.

(** Merging runs of free blocks. *)
Definition merge_cons (b : block) (bs : list block) : list block :=
  match b, bs with
  | (sz, false), (sz', false) :: bs' => (sz + sz', false) :: bs'
  | _, _ => b :: bs
  end.

Definition coalesce (bs : list block) : list block := foldr merge_cons [] bs.

(** Release of the block whose user data starts at [p]. *)
Fixpoint mark_free (p off : Z) (bs : list block) : list block :=
  match bs with
  | [] => []
  | (sz, u) :: bs =>
      if off + hdr =? p then (sz, false) :: bs else (sz, u) :: mark_free p (off + sz) bs
  end.

Definition abs_free (p : Z) (bs : list block) : list block := coalesce (mark_free p 0 bs).

(** Shrinking the block at [p] to [need] bytes (header included): the tail goes
    to the free block that follows, or becomes one if it is large enough. *)
Fixpoint abs_trim (p need off : Z) (bs : list block) : list block :=
  match bs with
  | [] => []
  | (sz, u) :: bs =>
      if off + hdr =? p then
        if need =? sz then (sz, u) :: bs else
        match bs with
        | (sz', false) :: bs' => (need, true) :: (sz + sz' - need, false) :: bs'
        | _ => split_block need sz ++ bs
        end
      else (sz, u) :: abs_trim p need (off + sz) bs
  end.

(** ** Well-formed heaps *)

(** The headers at [p] up to [q] describe the blocks [bs]; [pv] is the address
    the first one points back to, [qv] the last header before [q]. *)
Fixpoint seg (r : gmap Z struct_mem) (p pv : Z) (bs : list block) (q qv : Z) : Prop :=
  match bs with
  | [] => p = q ∧ pv = qv
  | (sz, u) :: bs =>
      r !! p = Some (Mem (p + sz) pv (c_bool u)) ∧ min_block ≤ sz ∧ (4 | sz) ∧
      seg r (p + sz) p bs q qv
  end.

(** The lowest free block. *)
Fixpoint first_free (off : Z) (bs : list block) : Z :=
  match bs with
  | [] => off
  | (sz, u) :: bs => if (u : bool) then first_free (off + sz) bs else off
  end.

(** No two free blocks are neighbours. *)
Fixpoint no_adj (bs : list block) : Prop :=
  match bs with
  | [] => True
  | (_, u) :: bs => (match bs with (_, u') :: _ => u || u' = true | [] => True end) ∧ no_adj bs
  end.

Definition heap_ok (h : heap) (bs : list block) : Prop :=
  (∃ qv, seg (ram h) 0 0 bs MEM_SIZE qv) ∧
  ram h !! MEM_SIZE = Some (Mem MEM_SIZE MEM_SIZE 1) ∧
  lfree h = first_free 0 bs ∧
  no_adj bs.

(** The user data of the allocated blocks: (address, capacity). *)
Fixpoint allocated (off : Z) (bs : list block) : list (Z * Z) :=
  match bs with
  | [] => []
  | (sz, u) :: bs => (if (u : bool) then [(off + hdr, sz - hdr)] else []) ++ allocated (off + sz) bs
  end.

(** ** Segments *)

Lemma seg_le r p pv bs q qv : seg r p pv bs q qv → p ≤ q.
Proof.
  revert p pv; induction bs as [|[sz u] bs IH]; simpl; intros p pv H; [lia|].
  destruct H as (_ & Hsz & _ & H). apply IH in H. unfold min_block in *. lia.
Qed.

Lemma seg_aligned r p pv bs q qv : seg r p pv bs q qv → (4 | p) ↔ (4 | q).
Proof.
  revert p pv; induction bs as [|[sz u] bs IH]; simpl; intros p pv H; [by destruct H as [-> _]|].
  destruct H as (_ & _ & Hd & H). rewrite <-(IH _ _ H). split; intros Hp.
  - by apply Z.divide_add_r.
  - replace p with ((p + sz) - sz) by lia. by apply Z.divide_sub_r.
Qed.

Lemma seg_app r p pv bs1 bs2 q qv :
  seg r p pv (bs1 ++ bs2) q qv ↔
  ∃ m mv, seg r p pv bs1 m mv ∧ seg r m mv bs2 q qv.
Proof.
  revert p pv; induction bs1 as [|[sz u] bs1 IH]; simpl; intros p pv.
  - naive_solver.
  - rewrite IH. naive_solver.
Qed.

Lemma seg_insert r p pv bs q qv i x :
  i < p ∨ q ≤ i → seg r p pv bs q qv → seg (<[i := x]> r) p pv bs q qv.
Proof.
  revert p pv; induction bs as [|[sz u] bs IH]; simpl; intros p pv Hi H; [done|].
  destruct H as (Hl & Hsz & Hd & H). pose proof (seg_le _ _ _ _ _ _ H).
  unfold min_block in *. rewrite lookup_insert_ne by lia. repeat split; try done.
  apply IH; [lia|done].
Qed.

(** [if (next != MEM_SIZE_ALIGNED) ptr_to_mem(next)->prev = v;] *)
Definition relink (n v : Z) (r : gmap Z struct_mem) : gmap Z struct_mem :=
  if n =? MEM_SIZE then r else alter (λ m, Mem (mem_next m) v (mem_used m)) n r.

Lemma relink_ok n v r lf :
  is_Some (r !! n) →
  (if negb (n =? MEM_SIZE_ALIGNED) then set_prev n v (Heap r lf) else Ok (Heap r lf)) =
  Ok (Heap (relink n v r) lf).
Proof.
  intros [m Hm]. unfold relink. change MEM_SIZE_ALIGNED with MEM_SIZE.
  destruct (n =? MEM_SIZE); simpl; [done|].
  unfold set_prev, mget; simpl. rewrite Hm; simpl. do 2 f_equal.
  apply map_eq. intros i. destruct (decide (i = n)) as [->|].
  - by rewrite lookup_insert_eq, lookup_alter_eq, Hm.
  - by rewrite lookup_insert_ne, lookup_alter_ne by done.
Qed.

Lemma relink_ne n v r i : i ≠ n → relink n v r !! i = r !! i.
Proof. intros. unfold relink. case_match; [done|]. by rewrite lookup_alter_ne. Qed.

Lemma relink_end n v r : relink n v r !! MEM_SIZE = r !! MEM_SIZE.
Proof.
  unfold relink. destruct (n =? MEM_SIZE) eqn:E; [done|]. breflect. by rewrite lookup_alter_ne.
Qed.

Lemma seg_relink_below n v r p pv bs q qv :
  q ≤ n → seg r p pv bs q qv → seg (relink n v r) p pv bs q qv.
Proof.
  intros Hq. revert p pv; induction bs as [|[sz u] bs IH]; simpl; intros p pv H; [done|].
  destruct H as (Hl & Hsz & Hd & H). pose proof (seg_le _ _ _ _ _ _ H).
  unfold min_block in *. rewrite relink_ne by lia. eauto.
Qed.

Lemma seg_relink n v r pv bs qv :
  seg r n pv bs MEM_SIZE qv → ∃ qv', seg (relink n v r) n v bs MEM_SIZE qv'.
Proof.
  destruct bs as [|[sz u] bs]; simpl; [naive_solver|].
  intros (Hl & Hsz & Hd & H). pose proof (seg_le _ _ _ _ _ _ H). unfold min_block in *.
  unfold relink. destruct (n =? MEM_SIZE) eqn:E; breflect; [lia|].
  exists qv. rewrite lookup_alter_eq, Hl. repeat split; try done.
  rewrite <-(insert_id r n _ Hl) at 1.
  assert (∀ f : struct_mem → struct_mem, alter f n (<[n:=Mem (n + sz) pv (c_bool u)]> r) =
     <[n := f (Mem (n + sz) pv (c_bool u))]> r) as ->.
  { intros f. apply map_eq. intros i. destruct (decide (i = n)) as [->|].
    - by rewrite lookup_alter_eq, !lookup_insert_eq.
    - by rewrite lookup_alter_ne, !lookup_insert_ne. }
  apply seg_insert; [lia|done].
Qed.

(** The header a segment continues with exists: the next block or [ram_end]. *)
Lemma seg_head r p pv bs qv :
  r !! MEM_SIZE = Some (Mem MEM_SIZE MEM_SIZE 1) → seg r p pv bs MEM_SIZE qv → is_Some (r !! p).
Proof. destruct bs as [|[sz u] bs]; simpl; [intros ? [-> _]; eauto|naive_solver]. Qed.

Lemma seg_length r p pv bs q qv :
  seg r p pv bs q qv → p + min_block * Z.of_nat (length bs) ≤ q.
Proof.
  revert p pv; induction bs as [|[sz u] bs IH]; intros p pv H; cbn [seg length] in *; [lia|].
  destruct H as (_ & Hsz & _ & H). apply IH in H. unfold min_block in *. lia.
Qed.

Lemma first_free_cases r p pv pre m mv :
  seg r p pv pre m mv →
  (∀ post, first_free p (pre ++ post) = first_free m post) ∨
  (first_free p pre < m ∧ ∀ post, first_free p (pre ++ post) = first_free p pre).
Proof.
  revert p pv; induction pre as [|[sz [|]] pre IH]; simpl; intros p pv H.
  - destruct H as [-> _]. by left.
  - destruct H as (_ & _ & _ & H). destruct (IH _ _ H) as [?|?]; [by left|by right].
  - destruct H as (_ & Hsz & _ & H). apply seg_le in H. unfold min_block in *.
    right. split; [lia|done].
Qed.

Lemma first_free_ge r p pv bs q qv : seg r p pv bs q qv → p ≤ first_free p bs ≤ q.
Proof.
  revert p pv; induction bs as [|[sz [|]] bs IH]; simpl; intros p pv H.
  - destruct H as [-> _]. lia.
  - destruct H as (_ & Hsz & _ & H). apply IH in H. unfold min_block in *. lia.
  - destruct H as (_ & Hsz & _ & H). apply seg_le in H. unfold min_block in *. lia.
Qed.

Lemma no_adj_app bs1 b bs2 :
  no_adj (bs1 ++ b :: bs2) ↔ no_adj (bs1 ++ [b]) ∧ no_adj (b :: bs2).
Proof.
  induction bs1 as [|[sz u] bs1 IH]; [destruct b; simpl; naive_solver|].
  cbn [app no_adj]. rewrite IH. destruct bs1 as [|[? ?] ?], b; simpl; naive_solver.
Qed.

Lemma no_adj_snoc_used bs sz u sz' : no_adj (bs ++ [(sz, u)]) → no_adj (bs ++ [(sz', true)]).
Proof.
  induction bs as [|[s v] bs IH]; [done|]. cbn [app no_adj]. intros [H1 H2]. split; [|by apply IH].
  destruct bs as [|[? ?] ?]; [apply orb_true_r|done].
Qed.

Lemma no_adj_snoc_size bs sz u sz' : no_adj (bs ++ [(sz, u)]) → no_adj (bs ++ [(sz', u)]).
Proof.
  induction bs as [|[s v] bs IH]; [done|]. cbn [app no_adj]. intros [H1 H2]. split; [|by apply IH].
  by destruct bs as [|[? ?] ?].
Qed.

Lemma no_adj_split pre sz post need :
  no_adj (pre ++ (sz, false) :: post) → no_adj (pre ++ split_block need sz ++ post).
Proof.
  intros H. apply no_adj_app in H as [Hpre Hpost]. unfold split_block. case_match; cbn [app].
  - apply no_adj_app. split; [by eapply no_adj_snoc_used|].
    destruct post as [|[? ?] ?]; simpl in *; naive_solver.
  - apply no_adj_app. split; [by eapply no_adj_snoc_used|].
    destruct post as [|[? ?] ?]; simpl in *; naive_solver.
Qed.

(** ** mem_malloc *)

Lemma next_free_ok r lf fuel p pv bs qv :
  r !! MEM_SIZE = Some (Mem MEM_SIZE MEM_SIZE 1) → seg r p pv bs MEM_SIZE qv →
  (length bs < fuel)%nat →
  next_free fuel p (Heap r lf) = Ok (first_free p bs).
Proof.
  intros Hend. revert fuel p pv; induction bs as [|[sz u] bs IH]; intros [|fuel] p pv H Hf;
    cbn [seg length next_free first_free] in *; try lia; unfold mget; simpl.
  - destruct H as [-> _]. rewrite Hend. done.
  - destruct H as (Hl & Hsz & _ & H). pose proof (seg_le _ _ _ _ _ _ H).
    rewrite Hl. simpl. destruct u; simpl; [|done].
    change ram_end with MEM_SIZE. destruct (p =? MEM_SIZE) eqn:E; breflect; simpl.
    + unfold min_block in *. lia.
    + unfold ptr_to_mem. eapply IH; [done|lia].
Qed.

(** A block of [need] bytes, allocated, at [m] and a free remainder after it. *)
Definition split_ram (need m tot mv : Z) (r : gmap Z struct_mem) : gmap Z struct_mem :=
  relink (m + tot) (m + need)
    (<[m := Mem (m + need) mv 1]> (<[m + need := Mem (m + tot) m 0]> r)).

Lemma split_seg need m tot mv r pre post pv qv :
  seg r 0 0 pre m mv → seg r (m + tot) pv post MEM_SIZE qv →
  min_block ≤ need → need + min_block ≤ tot → (4 | need) → (4 | tot) →
  ∃ qv', seg (split_ram need m tot mv r) 0 0
           (pre ++ (need, true) :: (tot - need, false) :: post) MEM_SIZE qv'.
Proof.
  intros Hpre Hpost Hn Ht Hd Hd'. pose proof (seg_le _ _ _ _ _ _ Hpre). unfold min_block in *.
  unfold split_ram. set (r' := <[m := _]> _).
  assert (Hp : seg r' (m + tot) pv post MEM_SIZE qv)
    by (subst r'; do 2 (apply seg_insert; [lia|]); done).
  destruct (seg_relink _ (m + need) _ _ _ _ Hp) as [qv' Hq]. exists qv'.
  apply seg_app. exists m, mv. split.
  - apply seg_relink_below; [lia|]. subst r'. do 2 (apply seg_insert; [lia|]). done.
  - cbn [seg]. rewrite !relink_ne by lia. subst r'.
    rewrite lookup_insert_eq, lookup_insert_ne, lookup_insert_eq by lia.
    unfold min_block. replace (m + need + (tot - need)) with (m + tot) by lia.
    repeat split; try done; [lia|by apply Z.divide_sub_r].
Qed.

Lemma split_ram_end need m tot mv r :
  0 < need → 0 < tot - need → m + tot ≤ MEM_SIZE →
  split_ram need m tot mv r !! MEM_SIZE = r !! MEM_SIZE.
Proof. intros. unfold split_ram. by rewrite relink_end, !lookup_insert_ne by lia. Qed.

(** Taking a free block: the headers afterwards. *)
Definition take_ram (need m sz mv : Z) (r : gmap Z struct_mem) : gmap Z struct_mem :=
  if need + min_block <=? sz then split_ram need m sz mv r else <[m := Mem (m + sz) mv 1]> r.

Lemma take_seg need m sz mv r pre post qv :
  seg r 0 0 pre m mv → seg r m mv ((sz, false) :: post) MEM_SIZE qv →
  min_block ≤ need ≤ sz → (4 | need) →
  ∃ qv', seg (take_ram need m sz mv r) 0 0 (pre ++ split_block need sz ++ post) MEM_SIZE qv'.
Proof.
  intros Hpre Hpost Hn Hd. simpl in Hpost. destruct Hpost as (Hl & Hsz & Hd' & Hpost).
  pose proof (seg_le _ _ _ _ _ _ Hpost). unfold take_ram, split_block.
  destruct (need + min_block <=? sz) eqn:E; breflect.
  - eapply split_seg; eauto; lia.
  - unfold min_block in *. exists qv. apply seg_app. exists m, mv.
    split; [apply seg_insert; [lia|done]|].
    cbn [app seg]. rewrite lookup_insert_eq. unfold min_block.
    repeat split; try done. apply seg_insert; [lia|done].
Qed.

Lemma take_ram_end need m sz mv r :
  0 < min_block ≤ need → m + sz ≤ MEM_SIZE → min_block ≤ sz →
  take_ram need m sz mv r !! MEM_SIZE = r !! MEM_SIZE.
Proof.
  intros. unfold take_ram, min_block in *. destruct (need + 20 <=? sz) eqn:E; breflect.
  - apply split_ram_end; lia.
  - by rewrite lookup_insert_ne by lia.
Qed.

(** The constants of the configuration, evaluated. *)
Ltac heap_consts :=
  change MEM_SIZE_ALIGNED with 3200 in *; change ram_end with 3200 in *;
  change SIZEOF_STRUCT_MEM with 8 in *; change MIN_SIZE_ALIGNED with 12 in *;
  change MEM_SIZE with 3200 in *; change hdr with 8 in *; change min_block with 20 in *;
  change MEM_ALIGNMENT with 4 in *.

Lemma land_3_mod x : Z.land x 3 = x mod 4.
Proof. change 3 with (Z.ones 2). by rewrite Z.land_ones. Qed.

(** Two segments over the same blocks from the same start end alike. *)
Lemma seg_end_unique r r' p pv bs q qv q' qv' :
  seg r p pv bs q qv → seg r' p pv bs q' qv' → q = q' ∧ qv = qv'.
Proof.
  revert p pv; induction bs as [|[sz u] bs IH]; simpl; intros p pv H H'.
  - by destruct H as [-> ->], H' as [-> ->].
  - destruct H as (_ & _ & _ & H), H' as (_ & _ & _ & H'). eauto.
Qed.

Lemma split_ok r lf m mv sz post size qv :
  r !! MEM_SIZE = Some (Mem MEM_SIZE MEM_SIZE 1) →
  0 ≤ m → seg r m mv ((sz, false) :: post) MEM_SIZE qv → 12 ≤ size → hdr + size ≤ sz →
  mem_malloc_split size m (Mem (m + sz) mv 0) (Heap r lf) =
  Ok (Heap (take_ram (hdr + size) m sz mv r) lf).
Proof.
  intros Hend Hm (Hl & Hsz & _ & Hpost) Hs Hfit. pose proof (seg_le _ _ _ _ _ _ Hpost) as HmE.
  unfold mem_malloc_split, take_ram. cbn [mem_next]. unfold ptr_to_mem. heap_consts.
  rewrite (u32_id (m + sz - (m + 8))) by ulia. rewrite (u16_id (m + 8 + size)) by ulia.
  replace (size + 8 + 12 <=? m + sz - (m + 8)) with (8 + size + 20 <=? sz) by lia.
  replace (m + 8 + size) with (m + (8 + size)) by lia.
  destruct (8 + size + 20 <=? sz) eqn:E; breflect.
  - destruct (m + (8 + size) =? 3200) eqn:E'; breflect; [lia|]. simpl.
    unfold set_next, set_used, mget, new_mem; simpl.
    rewrite lookup_insert_ne, Hl by lia. simpl. rewrite lookup_insert_eq. simpl.
    rewrite insert_insert_eq. apply relink_ok.
    rewrite !lookup_insert_ne by lia. by eapply seg_head.
  - unfold set_used, mget; simpl. by rewrite Hl.
Qed.

Lemma first_free_unused r p pv bs qv :
  r !! MEM_SIZE = Some (Mem MEM_SIZE MEM_SIZE 1) → seg r p pv bs MEM_SIZE qv →
  ∃ m, r !! first_free p bs = Some m ∧ (first_free p bs = MEM_SIZE ∨ mem_used m = 0).
Proof.
  intros Hend. revert p pv; induction bs as [|[sz [|]] bs IH]; simpl; intros p pv H.
  - destruct H as [-> _]. eauto.
  - destruct H as (_ & _ & _ & H). eauto.
  - destruct H as (-> & _). eauto.
Qed.

(** [lfree] is the lowest free block again when it was so before [b] was taken. *)
Lemma adjust_ok r r' pre m mv b bs qv :
  seg r' 0 0 pre m mv → seg r m mv bs MEM_SIZE qv →
  r !! MEM_SIZE = Some (Mem MEM_SIZE MEM_SIZE 1) → first_free m b = m →
  mem_malloc_adjust_lfree m (Heap r (first_free 0 (pre ++ b))) =
  Ok (Heap r (first_free 0 (pre ++ bs))).
Proof.
  intros Hpre Hbs Hend Hb. unfold mem_malloc_adjust_lfree. cbn [lfree].
  destruct (first_free_cases _ _ _ _ _ _ Hpre) as [Hc|[Hc1 Hc2]].
  - rewrite !Hc, Hb, Z.eqb_refl. rewrite (next_free_ok _ _ _ _ _ _ _ Hend Hbs).
    2:{ pose proof (seg_le _ _ _ _ _ _ Hpre). apply seg_length in Hbs.
        pose proof heap_fuel_eq. heap_consts. lia. }
    simpl. unfold mget; simpl.
    destruct (first_free_unused _ _ _ _ _ Hend Hbs) as (c & -> & [->|Hu]); simpl; [done|].
    rewrite Hu. by rewrite orb_true_r.
  - rewrite !Hc2. by replace (m =? first_free 0 pre) with false by lia.
Qed.

Lemma malloc_take_ok r lf pre sz post size m mv qv :
  heap_ok (Heap r lf) (pre ++ (sz, false) :: post) →
  seg r 0 0 pre m mv → seg r m mv ((sz, false) :: post) MEM_SIZE qv →
  12 ≤ size → (4 | size) → hdr + size ≤ sz →
  ∃ h', mem_malloc_take size m (Mem (m + sz) mv 0) (Heap r lf) = Ok (Some (m + hdr), h') ∧
        heap_ok h' (pre ++ split_block (hdr + size) sz ++ post).
Proof.
  intros (_ & Hend & Hlf & Hadj) Hpre Hpost Hs Hd Hfit. simpl in *.
  pose proof (seg_le _ _ _ _ _ _ Hpre) as Hm0.
  assert (Hm4 : m mod 4 = 0).
  { apply Z.mod_divide; [done|]. apply (seg_aligned _ _ _ _ _ _ Hpre). by exists 0. }
  destruct (take_seg (hdr + size) m sz mv r pre post qv) as [qv' Hseg]; try done.
  { heap_consts. lia. }
  { apply Z.divide_add_r; [by exists 2|done]. }
  pose proof Hpost as (Hl & Hsz & Hsz4 & Hpost').
  pose proof (seg_le _ _ _ _ _ _ Hpost') as HmE.
  assert (Hend' : take_ram (hdr + size) m sz mv r !! MEM_SIZE = Some (Mem MEM_SIZE MEM_SIZE 1)).
  { rewrite take_ram_end; heap_consts; try lia; done. }
  exists (Heap (take_ram (hdr + size) m sz mv r)
           (first_free 0 (pre ++ split_block (hdr + size) sz ++ post))).
  split; [|split_and!; simpl; [by eexists|done|done|by apply no_adj_split]].
  unfold mem_malloc_take. rewrite (split_ok _ _ _ _ _ _ _ _ Hend Hm0 Hpost Hs Hfit). simpl. unfold ptr_to_mem.
  subst lf. pose proof Hseg as Hseg'. apply seg_app in Hseg' as (m' & mv' & Hpre' & Hsp).
  destruct (seg_end_unique _ _ _ _ _ _ _ _ _ Hpre Hpre') as [<- <-].
  rewrite (adjust_ok _ _ _ _ _ ((sz, false) :: post) _ _ Hpre Hsp Hend') by done. simpl.
  heap_consts. change (4 - 1) with 3. rewrite land_3_mod, Hm4.
  replace (m + 8 + size <=? 3200) with true by lia.
  by replace ((m + 8) mod 4 =? 0) with true by zlia.
Qed.

(** Nothing fits beyond [MEM_SIZE_ALIGNED - size]: leaving the loop there is right. *)
Lemma first_fit_bound r size p pv bs qv x :
  seg r p pv bs MEM_SIZE qv → first_fit size p bs = Some x → p + hdr + size ≤ MEM_SIZE.
Proof.
  revert p pv x; induction bs as [|[sz u] bs IH]; simpl; intros p pv x H Hf; [done|].
  destruct H as (_ & Hsz & _ & H). pose proof (seg_le _ _ _ _ _ _ H).
  destruct (negb u && (hdr + size <=? sz)) eqn:E; simplify_eq; breflect; [lia|].
  destruct (first_fit size (p + sz) bs) as [y|] eqn:E'; simplify_eq/=.
  eapply IH in H; [|done]. heap_consts. lia.
Qed.

Lemma scan_ok r lf fuel size pre post m mv qv :
  heap_ok (Heap r lf) (pre ++ post) →
  seg r 0 0 pre m mv → seg r m mv post MEM_SIZE qv →
  12 ≤ size ≤ MEM_SIZE → (4 | size) → (length post < fuel)%nat →
  match first_fit size m post with
  | None => mem_malloc_scan fuel size m (Heap r lf) = Ok (None, Heap r lf)
  | Some (p, post') =>
      ∃ h', mem_malloc_scan fuel size m (Heap r lf) = Ok (Some p, h') ∧ heap_ok h' (pre ++ post')
  end.
Proof.
  intros Hok. revert fuel pre m mv Hok. induction post as [|[sz u] post IH];
    intros fuel pre m mv Hok Hpre Hpost Hs Hd Hf;
    (destruct fuel as [|fuel]; [simpl in Hf; lia|]); cbn [mem_malloc_scan first_fit].
  - destruct Hpost as [-> _]. heap_consts. by rewrite u32_id, (proj2 (Z.ltb_ge _ _)) by ulia.
  - pose proof Hpost as (Hl & Hsz & _ & Hpost').
    unfold mget, ptr_to_mem. cbn [ram]. rewrite Hl. cbn [deref mbind res_bind mem_used mem_next].
    pose proof (seg_le _ _ _ _ _ _ Hpre). pose proof (seg_le _ _ _ _ _ _ Hpost').
    rewrite (u32_id (m + sz - _)) by (heap_consts; ulia).
    replace ((c_bool u =? 0) && (size <=? m + sz - (m + SIZEOF_STRUCT_MEM)))
      with (negb u && (hdr + size <=? sz)) by (heap_consts; destruct u; simpl; lia).
    destruct (negb u && (hdr + size <=? sz)) eqn:E.
    + apply andb_true_iff in E as [Hu E]. apply negb_true_iff in Hu as ->. apply Z.leb_le in E.
      replace (m <? u32 (MEM_SIZE_ALIGNED - size)) with true by (heap_consts; rewrite u32_id by ulia; lia).
      eapply malloc_take_ok; eauto; lia.
    + assert (Hpre' : seg r 0 0 (pre ++ [(sz, u)]) (m + sz) m).
      { apply seg_app. exists m, mv. split; [done|]. simpl. naive_solver. }
      specialize (IH fuel (pre ++ [(sz, u)]) (m + sz) m). rewrite <-app_assoc in IH.
      specialize (IH Hok Hpre' Hpost' Hs Hd ltac:(simpl in Hf; lia)).
      destruct (m <? u32 (MEM_SIZE_ALIGNED - size)) eqn:Em.
      * destruct (first_fit size (m + sz) post) as [[p post']|]; simpl; [|done].
        destruct IH as (h' & -> & IH). exists h'. split; [done|].
        by rewrite <-app_assoc in IH.
      * rewrite u32_id in Em by (heap_consts; ulia). breflect.
        destruct (first_fit size (m + sz) post) as [[p post']|] eqn:E2; simpl; [|done].
        exfalso. eapply first_fit_bound in E2; [|done]. heap_consts. lia.
Qed.

(** Starting the search at [lfree] skips allocated blocks only. *)
Lemma first_free_split r p pv bs q qv :
  seg r p pv bs q qv →
  ∃ pre post mv, bs = pre ++ post ∧ seg r p pv pre (first_free p bs) mv ∧
    seg r (first_free p bs) mv post q qv ∧
    ∀ size, first_fit size p bs =
            ('(x, post') ← first_fit size (first_free p bs) post; Some (x, pre ++ post')).
Proof.
  revert p pv; induction bs as [|[sz u] bs IH]; intros p pv H.
  - exists [], [], pv. by destruct H as [-> ->].
  - destruct u; cycle 1.
    { exists [], ((sz, false) :: bs), pv. split_and!; try done. intros size.
      change (first_free p ((sz, false) :: bs)) with p. by destruct (first_fit _ _ _) as [[??]|]. }
    destruct H as (Hl & Hsz & Hd & H). destruct (IH _ _ H) as (pre & post & mv & -> & H1 & H2 & H3).
    exists ((sz, true) :: pre), post, mv. simpl. split_and!; try done.
    intros size. rewrite H3. by destruct (first_fit _ _ _) as [[??]|].
Qed.

Lemma round_size_eq n :
  0 < n ≤ MEM_SIZE →
  (if u16 (LWIP_MEM_ALIGN_SIZE n) <? MIN_SIZE_ALIGNED then MIN_SIZE_ALIGNED
   else u16 (LWIP_MEM_ALIGN_SIZE n)) = round_size n ∧
  12 ≤ round_size n ≤ MEM_SIZE ∧ n ≤ round_size n ∧ (4 | round_size n).
Proof.
  intros Hn. heap_consts. rewrite LWIP_MEM_ALIGN_SIZE_eq by lia. rewrite u16_id by ulia.
  unfold round_size. split_and!; try zlia.
  - destruct (_ <? _) eqn:E; breflect; zlia.
  - destruct (decide (12 ≤ (n + 3) / 4 * 4)).
    + rewrite Z.max_r by lia. by apply Z.divide_factor_r.
    + rewrite Z.max_l by lia. by exists 3.
Qed.

Lemma round_size_too_big n :
  MEM_SIZE < n < 65536 →
  let size := if u16 (LWIP_MEM_ALIGN_SIZE n) <? MIN_SIZE_ALIGNED then MIN_SIZE_ALIGNED
              else u16 (LWIP_MEM_ALIGN_SIZE n) in
  (MEM_SIZE_ALIGNED <? size) || (size <? n) = true.
Proof.
  intros Hn. heap_consts. rewrite LWIP_MEM_ALIGN_SIZE_eq by lia. unfold u16.
  destruct (_ <? 12) eqn:E; breflect; apply orb_true_iff; rewrite !Z.ltb_lt; zlia.
Qed.

(** [mem_malloc] simulates first-fit allocation on the block list. *)
Lemma malloc_sim h bs n :
  heap_ok h bs → is_u16 n →
  ∃ h', mem_malloc n h = Ok ((abs_malloc n bs).1, h') ∧ heap_ok h' (abs_malloc n bs).2.
Proof.
  intros Hok Hn. unfold mem_malloc, abs_malloc.
  destruct (n =? 0) eqn:E0; simpl; [eauto|]. breflect. unfold is_u16 in Hn.
  destruct (MEM_SIZE <? n) eqn:E1; breflect; simpl.
  { rewrite round_size_too_big by lia. eauto. }
  destruct (round_size_eq n) as (-> & Hr & Hge & Hd); [lia|].
  replace (_ || _) with false by (heap_consts; lia).
  destruct h as [r lf]. pose proof Hok as ((qv & Hseg) & Hend & Hlf & _). simpl in *.
  destruct (first_free_split _ _ _ _ _ _ Hseg) as (pre & post & mv & -> & H1 & H2 & H3).
  pose proof (first_free_ge _ _ _ _ _ _ Hseg) as Hge'. rewrite <-Hlf in *.
  unfold mem_to_ptr. rewrite u16_id by (heap_consts; ulia).
  pose proof (scan_ok _ _ heap_fuel _ _ _ _ _ _ Hok H1 H2 Hr Hd) as Hscan.
  rewrite H3. destruct (first_fit (round_size n) lf post) as [[p post']|]; simpl.
  - apply Hscan. apply seg_length in H2. pose proof heap_fuel_eq. heap_consts. lia.
  - eexists. split; [apply Hscan|done]. apply seg_length in H2. pose proof heap_fuel_eq. heap_consts. lia.
Qed.

(** ** mem_free *)

Lemma seg_snoc r p pv pre s u m mv :
  seg r p pv (pre ++ [(s, u)]) m mv ↔
  ∃ pv', seg r p pv pre mv pv' ∧ r !! mv = Some (Mem m pv' (c_bool u)) ∧
         mv + s = m ∧ min_block ≤ s ∧ (4 | s).
Proof.
  rewrite seg_app. simpl. split.
  - intros (? & pv' & ? & ? & ? & ? & ? & ?). simplify_eq. eauto 10.
  - intros (pv' & ? & ? & <- & ?). naive_solver.
Qed.

(** Replacing the header at [p] by one of another size merges what follows. *)
Lemma seg_merge r p pv s s' post n qv :
  0 ≤ p → min_block ≤ s → (4 | s) → n = p + s →
  seg r n pv post MEM_SIZE qv →
  ∃ qv', seg (relink n p (<[p := Mem n s' 0]> r)) p s' ((s, false) :: post) MEM_SIZE qv'.
Proof.
  intros Hp Hs Hd -> H. pose proof (seg_le _ _ _ _ _ _ H). heap_consts.
  destruct (seg_relink (p + s) p (<[p := Mem (p + s) s' 0]> r) pv post qv) as [qv' Hq].
  { apply seg_insert; [lia|done]. }
  exists qv'. cbn [seg]. rewrite relink_ne, lookup_insert_eq by lia. heap_consts. done.
Qed.

Lemma plug_forward_ok r lf pre sz post m mv qv :
  r !! MEM_SIZE = Some (Mem MEM_SIZE MEM_SIZE 1) →
  seg r 0 0 pre m mv → seg r m mv ((sz, false) :: post) MEM_SIZE qv → lf ≤ m →
  ∃ r' qv', plug_forward m (Mem (m + sz) mv 0) (Heap r lf) = Ok (Heap r' lf) ∧
    r' !! MEM_SIZE = Some (Mem MEM_SIZE MEM_SIZE 1) ∧ seg r' 0 0 pre m mv ∧
    seg r' m mv (merge_cons (sz, false) post) MEM_SIZE qv'.
Proof.
  intros Hend Hpre Hpost Hlf. pose proof Hpost as (Hl & Hsz & Hd & Hp).
  pose proof (seg_le _ _ _ _ _ _ Hpre). pose proof (seg_le _ _ _ _ _ _ Hp).
  unfold plug_forward, ptr_to_mem, mget. cbn [mem_next ram]. heap_consts.
  replace (m =? m + sz) with false by lia.
  destruct post as [|[s2 u2] post]; simpl in Hp.
  { destruct Hp as [Hm ->]. rewrite Hm, Hend. simpl. exists r, qv. by split_and!. }
  destruct Hp as (Hl2 & Hs2 & Hd2 & Hp). pose proof (seg_le _ _ _ _ _ _ Hp). heap_consts.
  rewrite Hl2. simpl. replace (m + sz =? 3200) with false by lia.
  destruct u2; simpl; [exists r, qv; cbn [seg]; by split_and!|].
  replace (lf =? m + sz) with false by lia.
  unfold set_next, mget; simpl. rewrite Hl. simpl.
  rewrite relink_ok by (rewrite lookup_insert_ne by lia; by eapply seg_head).
  destruct (seg_merge r m (m + sz) (sz + s2) mv post (m + sz + s2) qv) as [qv' Hq];
    heap_consts; try done; try lia. { by apply Z.divide_add_r. }
  unfold mem_to_ptr. rewrite u16_id by ulia.
  eexists _, qv'. split; [done|]. split; [|split; [|done]].
  - rewrite (relink_end _ _ (<[m := _]> r)). by rewrite lookup_insert_ne by (heap_consts; lia).
  - apply seg_relink_below; [lia|]. by apply seg_insert; [lia|].
Qed.

Lemma plug_backward_ok r lf pre sz post m mv qv :
  r !! MEM_SIZE = Some (Mem MEM_SIZE MEM_SIZE 1) →
  seg r 0 0 pre m mv → seg r m mv ((sz, false) :: post) MEM_SIZE qv →
  lf = first_free 0 (pre ++ (sz, false) :: post) →
  ∃ r' qv' bs', plug_backward m (Heap r lf) = Ok (Heap r' lf) ∧
    r' !! MEM_SIZE = Some (Mem MEM_SIZE MEM_SIZE 1) ∧
    seg r' 0 0 bs' MEM_SIZE qv' ∧ first_free 0 bs' = lf ∧
    bs' = match last pre with
          | Some (s0, false) => take (pred (length pre)) pre ++ (s0 + sz, false) :: post
          | _ => pre ++ (sz, false) :: post
          end.
Proof.
  intros Hend Hpre Hpost ->. pose proof Hpost as (Hl & Hsz & Hd & Hp).
  pose proof (seg_le _ _ _ _ _ _ Hpre). pose proof (seg_le _ _ _ _ _ _ Hp).
  assert (Hall : seg r 0 0 (pre ++ (sz, false) :: post) MEM_SIZE qv) by (apply seg_app; eauto).
  unfold plug_backward, ptr_to_mem, mget. cbn [mem_next ram]. rewrite Hl. simpl.
  destruct pre as [|[s0 u0] pre' _] using rev_ind.
  { destruct Hpre as [<- <-]. exists r, qv. eexists. split_and!; [done|done|done|done|done]. }
  rewrite last_snoc. pose proof Hpre as Hpre0.
  apply seg_snoc in Hpre as (pv' & Hpre & Hlv & <- & Hs0 & Hd0). heap_consts.
  replace (mv =? mv + s0) with false by lia. rewrite Hlv. simpl.
  destruct u0; simpl; [exists r, qv; eexists; split_and!; [done|done|done|done|done]|].
  rewrite length_app, Nat.add_1_r; simpl. rewrite take_app_length.
  assert (Hff : first_free 0 ((pre' ++ [(s0, false)]) ++ (sz, false) :: post) ≤ mv).
  { rewrite <-app_assoc. destruct (first_free_cases _ _ _ _ _ _ Hpre) as [->|[? ->]]; simpl; lia. }
  destruct (seg_merge r mv (mv + s0) (s0 + sz) pv' post (mv + s0 + sz) qv) as [qv' Hq];
    heap_consts; try done; try lia.
  { by eapply seg_le. } { by apply Z.divide_add_r. }
  set (lf := first_free 0 _) in *. replace (lf =? mv + s0) with false by lia.
  unfold set_next, mget; simpl. rewrite Hlv. simpl.
  rewrite relink_ok by (rewrite lookup_insert_ne by lia; by eapply seg_head).
  pose proof (seg_le _ _ _ _ _ _ Hpre). unfold mem_to_ptr. rewrite u16_id by ulia.
  eexists _, qv', _. split; [done|]. split; [|split; [|split; [|done]]].
  - rewrite (relink_end _ _ (<[mv := _]> r)). by rewrite lookup_insert_ne by (heap_consts; lia).
  - apply seg_app. exists mv, pv'. split; [|done].
    apply seg_relink_below; [lia|]. by apply seg_insert; [lia|].
  - subst lf. rewrite <-app_assoc. simpl.
    destruct (first_free_cases _ _ _ _ _ _ Hpre) as [Hc|[_ Hc]]; rewrite !Hc; done.
Qed.

Lemma merge_cons_no_adj b bs : no_adj bs → no_adj (merge_cons b bs).
Proof. destruct b as [sz [|]], bs as [|[sz' [|]] bs]; simpl; naive_solver. Qed.

Lemma no_adj_coalesce bs : no_adj (coalesce bs).
Proof. induction bs as [|b bs IH]; simpl; [done|]. by apply merge_cons_no_adj. Qed.

Lemma foldr_merge pre s u s' l :
  no_adj (pre ++ [(s, u)]) → foldr merge_cons ((s', u) :: l) pre = pre ++ (s', u) :: l.
Proof.
  induction pre as [|[a v] pre IH]; cbn [app no_adj foldr]; [done|]. intros [H1 H2]. rewrite IH by done.
  destruct pre as [|[a' v'] pre]; simpl in *; destruct v; try done; first [by destruct u|by destruct v'].
Qed.

Lemma coalesce_no_adj bs : no_adj bs → coalesce bs = bs.
Proof.
  induction bs as [|[sz u] bs IH]; cbn [no_adj]; [done|]. intros [H1 H2].
  unfold coalesce in *. cbn [foldr]. rewrite IH by done.
  destruct bs as [|[? [|]] ?], u; done.
Qed.

Lemma coalesce_freed pre sz post :
  no_adj (pre ++ (sz, true) :: post) →
  coalesce (pre ++ (sz, false) :: post) =
  match merge_cons (sz, false) post with
  | (sz', _) :: post' =>
      match last pre with
      | Some (s0, false) => take (pred (length pre)) pre ++ (s0 + sz', false) :: post'
      | _ => pre ++ (sz', false) :: post'
      end
  | [] => []
  end.
Proof.
  intros H. apply no_adj_app in H as [Hpre Hpost].
  assert (coalesce post = post) as Hp by (apply coalesce_no_adj; simpl in Hpost; naive_solver).
  unfold coalesce in *. rewrite foldr_app. cbn [foldr]. rewrite Hp.
  assert (∃ sz' post', merge_cons (sz, false) post = (sz', false) :: post') as (sz' & post' & ->).
  { destruct post as [|[? [|]] ?]; simpl; eauto. }
  destruct pre as [|[s0 u0] pre _] using rev_ind; [done|].
  rewrite last_snoc, foldr_app. cbn [foldr]. rewrite <-app_assoc in Hpre. simpl in Hpre.
  apply no_adj_app in Hpre as [Hpre _]. destruct u0; cbn [merge_cons].
  - rewrite <-app_assoc. by eapply foldr_merge.
  - rewrite length_app, Nat.add_1_r. cbn [pred]. rewrite take_app_length. by eapply foldr_merge.
Qed.

Lemma mark_free_split r off pv pre m mv sz u post :
  seg r off pv pre m mv → mark_free (m + hdr) off (pre ++ (sz, u) :: post) = pre ++ (sz, false) :: post.
Proof.
  revert off pv; induction pre as [|[s v] pre IH]; simpl; intros off pv H.
  - destruct H as [-> _]. by rewrite Z.eqb_refl.
  - destruct H as (_ & Hs & _ & H). pose proof (seg_le _ _ _ _ _ _ H). heap_consts.
    replace (off + 8 =? m + 8) with false by lia. f_equal. eauto.
Qed.

Lemma allocated_split r p pv bs q qv a c :
  seg r p pv bs q qv → (a, c) ∈ allocated p bs →
  ∃ pre post m mv, bs = pre ++ (c + hdr, true) :: post ∧ a = m + hdr ∧
    seg r p pv pre m mv ∧ seg r m mv ((c + hdr, true) :: post) q qv.
Proof.
  revert p pv; induction bs as [|[sz u] bs IH]; intros p pv H Ha; cbn [allocated] in Ha.
  { by apply not_elem_of_nil in Ha. }
  apply elem_of_app in Ha as [Ha|Ha].
  - destruct u; [|by apply not_elem_of_nil in Ha]. apply list_elem_of_singleton in Ha as [= -> ->].
    exists [], bs, p, pv. replace (sz - hdr + hdr) with sz by lia. done.
  - pose proof H as (H1 & H2 & H3 & H4).
    destruct (IH _ _ H4 Ha) as (pre & post & m & mv & -> & -> & Hp1 & Hp2).
    exists ((sz, u) :: pre), post, m, mv. done.
Qed.

Lemma link_valid_ok r lf pre sz u post m mv qv :
  r !! MEM_SIZE = Some (Mem MEM_SIZE MEM_SIZE 1) →
  seg r 0 0 pre m mv → seg r m mv ((sz, u) :: post) MEM_SIZE qv →
  mem_link_valid (Heap r lf) m = Ok true.
Proof.
  intros Hend Hpre (Hl & Hsz & _ & Hp).
  pose proof (seg_le _ _ _ _ _ _ Hpre). pose proof (seg_le _ _ _ _ _ _ Hp).
  unfold mem_link_valid, mget, mem_to_ptr, ptr_to_mem. cbn [ram]. rewrite Hl. simpl.
  heap_consts. rewrite u16_id by ulia.
  assert (Hmv : mv ≤ 3200 ∧ (mv = m ∨ ∃ pv' u', r !! mv = Some (Mem m pv' u'))).
  { destruct pre as [|[s0 u0] pre _] using rev_ind; [destruct Hpre; split; [lia|left; lia]|].
    apply seg_snoc in Hpre as (? & ? & ? & <- & ? & ?). heap_consts. split; [lia|eauto]. }
  destruct Hmv as [Hle Hmv].
  replace ((3200 <? m + sz) || (3200 <? mv)) with false by lia.
  assert (Hbp : (if negb (mv =? m) then pm ← deref (r !! mv); Ok (negb (mem_next pm =? m)) else Ok false)
                = Ok false).
  { destruct Hmv as [->|(? & ? & Hm)]; [by rewrite Z.eqb_refl|].
    rewrite Hm. simpl. rewrite Z.eqb_refl. by destruct (negb _). }
  rewrite Hbp. simpl. destruct (m + sz =? 3200) eqn:E; simpl; [done|]. breflect.
  destruct post as [|[s2 u2] post]; [destruct Hp; lia|]. destruct Hp as (-> & _). simpl.
  by rewrite Z.eqb_refl.
Qed.

(** Marking the block free keeps the chain. *)
Lemma seg_set_used r pre m mv sz u post qv v :
  seg r 0 0 pre m mv → seg r m mv ((sz, u) :: post) MEM_SIZE qv →
  let r' := <[m := Mem (m + sz) mv (c_bool v)]> r in
  seg r' 0 0 pre m mv ∧ seg r' m mv ((sz, v) :: post) MEM_SIZE qv.
Proof.
  intros Hpre (Hl & Hsz & Hd & Hp) r'. pose proof (seg_le _ _ _ _ _ _ Hp). heap_consts.
  split; [by apply seg_insert; [lia|]|]. cbn [seg]. subst r'. rewrite lookup_insert_eq. heap_consts.
  split_and!; try done. by apply seg_insert; [lia|].
Qed.

Lemma plug_holes_ok r pre sz post m mv qv :
  r !! MEM_SIZE = Some (Mem MEM_SIZE MEM_SIZE 1) →
  seg r 0 0 pre m mv → seg r m mv ((sz, false) :: post) MEM_SIZE qv →
  no_adj (pre ++ (sz, true) :: post) →
  ∃ h', plug_holes m (Heap r (first_free 0 (pre ++ (sz, false) :: post))) = Ok h' ∧
        heap_ok h' (coalesce (pre ++ (sz, false) :: post)).
Proof.
  intros Hend Hpre Hpost Hadj. pose proof Hpost as (Hl & Hsz & _ & Hp).
  pose proof (seg_le _ _ _ _ _ _ Hpre). pose proof (seg_le _ _ _ _ _ _ Hp).
  pose proof (no_adj_coalesce (pre ++ (sz, false) :: post)) as Hna.
  rewrite (coalesce_freed _ _ _ Hadj) in *.
  destruct (merge_cons (sz, false) post) as [|[sz' u'] post'] eqn:Em; [by destruct post as [|[? [|]] ?]|].
  assert (u' = false) as -> by (revert Em; destruct post as [|[? [|]] ?]; simpl; congruence).
  assert (Hff : ∀ s b, first_free 0 (pre ++ (s, false) :: b) = first_free 0 (pre ++ (sz, false) :: post) ∧
                       first_free 0 (pre ++ (sz, false) :: post) ≤ m).
  { intros s b. destruct (first_free_cases _ _ _ _ _ _ Hpre) as [Hc|[Hlt Hc]]; rewrite !Hc; simpl; lia. }
  unfold plug_holes, mget. cbn [ram]. rewrite Hl. heap_consts.
  replace (0 <=? m) with true by lia. replace (m <? 3200) with true by lia. simpl.
  replace (m + sz <=? 3200) with true by lia. simpl.
  destruct (plug_forward_ok r (first_free 0 (pre ++ (sz, false) :: post)) _ _ _ _ _ _ Hend Hpre Hpost)
    as (r1 & q1 & -> & Hend1 & Hpre1 & Hpost1); [apply (Hff sz post)|]. simpl. rewrite Em in Hpost1.
  rewrite <-(proj1 (Hff sz' post')).
  destruct (plug_backward_ok _ _ _ _ _ _ _ _ Hend1 Hpre1 Hpost1 eq_refl)
    as (r2 & q2 & bs' & -> & Hend2 & Hseg2 & Hlf2 & Hbs).
  eexists. split; [done|]. rewrite <-Hbs in *. split_and!; simpl; eauto.
Qed.

(** [if (mem < lfree) lfree = mem;] *)
Lemma free_lfree_ok r r' pre m mv sz post qv :
  seg r 0 0 pre m mv → seg r (m + sz) m post MEM_SIZE qv → 0 < sz →
  (if m <? first_free 0 (pre ++ (sz, true) :: post)
   then set_lfree m (Heap r' (first_free 0 (pre ++ (sz, true) :: post)))
   else Heap r' (first_free 0 (pre ++ (sz, true) :: post))) =
  Heap r' (first_free 0 (pre ++ (sz, false) :: post)).
Proof.
  intros Hpre Hp Hsz. destruct (first_free_cases _ _ _ _ _ _ Hpre) as [Hc|[Hlt Hc]]; rewrite !Hc.
  - simpl. pose proof (first_free_ge _ _ _ _ _ _ Hp). by replace (m <? _) with true by lia.
  - by replace (m <? _) with false by lia.
Qed.

(** [mem_free] of an allocated block simulates release. *)
Lemma free_sim h bs p c :
  heap_ok h bs → (p, c) ∈ allocated 0 bs →
  ∃ h', mem_free (Some p) h = Ok h' ∧ heap_ok h' (abs_free p bs).
Proof.
  destruct h as [r lf]. intros ((qv & Hseg) & Hend & Hlf & Hadj) Ha. simpl in *.
  destruct (allocated_split _ _ _ _ _ _ _ _ Hseg Ha) as (pre & post & m & mv & -> & -> & Hpre & Hpost).
  set (sz := c + hdr) in *. pose proof Hpost as (Hl & Hsz & Hd & Hp).
  pose proof (seg_le _ _ _ _ _ _ Hpre). pose proof (seg_le _ _ _ _ _ _ Hp).
  assert (Hm4 : m mod 4 = 0).
  { apply Z.mod_divide; [done|]. apply (seg_aligned _ _ _ _ _ _ Hpre). by exists 0. }
  unfold abs_free. rewrite (mark_free_split _ _ _ _ _ _ _ _ _ Hpre).
  unfold mem_free. heap_consts. change (4 - 1) with 3. rewrite land_3_mod.
  replace ((m + 8) mod 4 =? 0) with true by zlia. simpl. replace (m + 8 - 8) with m by lia.
  replace ((m <? 0) || (3200 <? m + 8 + 12)) with false by lia.
  unfold mget; simpl. rewrite Hl. simpl. rewrite (link_valid_ok _ _ _ _ _ _ _ _ _ Hend Hpre Hpost). simpl.
  unfold set_used, mget; simpl. rewrite Hl. simpl. subst lf.
  destruct (seg_set_used _ _ _ _ _ _ _ _ false Hpre Hpost) as [Hpre' Hpost'].
  rewrite (free_lfree_ok _ _ _ _ _ _ _ _ Hpre Hp) by lia.
  eapply plug_holes_ok; [|done..]. by rewrite lookup_insert_ne by (heap_consts; lia).
Qed.

(** ** mem_trim *)

(** The stores mem_trim does when it creates a header behind the shrunk block. *)
Lemma trim_stores_ok r lf m mv sz need n :
  r !! m = Some (Mem (m + sz) mv 1) → 0 ≤ m → 0 < need → m + need < n → is_Some (r !! n) →
  (h ← set_next m (m + need) (new_mem (m + need) (Mem n m 0) (Heap r lf));
   h ← (if negb (n =? MEM_SIZE_ALIGNED) then set_prev n (m + need) h else Ok h);
   Ok (Some (m + hdr), h)) =
  Ok (Some (m + hdr), Heap (split_ram need m (n - m) mv r) lf).
Proof.
  intros Hl Hm Hn Hlt Hs. unfold set_next, new_mem, mget. simpl.
  rewrite lookup_insert_ne, Hl by lia. simpl.
  rewrite relink_ok by (by rewrite !lookup_insert_ne by lia). simpl.
  unfold split_ram. by replace (m + (n - m)) with n by lia.
Qed.

(** The two cases in which mem_trim releases the tail of a block. *)
Lemma trim_heap_ok r lf pre sz post m mv need tot post' pv qv :
  r !! MEM_SIZE = Some (Mem MEM_SIZE MEM_SIZE 1) → seg r 0 0 pre m mv →
  seg r (m + tot) pv post' MEM_SIZE qv →
  no_adj (pre ++ (sz, true) :: post) → (∀ s, no_adj ((s, false) :: post')) →
  min_block ≤ need → need + min_block ≤ tot → (4 | need) → (4 | tot) →
  lf = first_free 0 (pre ++ (need, true) :: (tot - need, false) :: post') →
  heap_ok (Heap (split_ram need m tot mv r) lf) (pre ++ (need, true) :: (tot - need, false) :: post').
Proof.
  intros Hend Hpre Hp Hadj Hpost' Hn Ht Hd Hd' ->. pose proof (seg_le _ _ _ _ _ _ Hp). heap_consts.
  split_and!; simpl; [eapply split_seg; eauto| |done|].
  - rewrite split_ram_end; heap_consts; [done|lia..].
  - apply no_adj_app in Hadj as [Hadj _]. apply no_adj_app.
    split; [by eapply no_adj_snoc_used|]. split; [done|]. apply Hpost'.
Qed.

Lemma abs_trim_split r off pv pre m mv need sz u post :
  seg r off pv pre m mv →
  abs_trim (m + hdr) need off (pre ++ (sz, u) :: post) =
  pre ++ abs_trim (m + hdr) need m ((sz, u) :: post).
Proof.
  revert off pv; induction pre as [|[s v] pre IH]; cbn [app seg]; intros off pv H.
  - by destruct H as [-> _].
  - destruct H as (_ & Hs & _ & H). pose proof (seg_le _ _ _ _ _ _ H). heap_consts.
    cbn [abs_trim]. replace (off + hdr =? m + 8) with false by (heap_consts; lia). f_equal. eauto.
Qed.

Lemma round_size_small n :
  0 ≤ n ≤ MEM_SIZE →
  (if u16 (LWIP_MEM_ALIGN_SIZE n) <? MIN_SIZE_ALIGNED then MIN_SIZE_ALIGNED
   else u16 (LWIP_MEM_ALIGN_SIZE n)) = round_size n ∧
  12 ≤ round_size n ≤ MEM_SIZE ∧ n ≤ round_size n ∧ (4 | round_size n).
Proof.
  intros Hn. destruct (decide (n = 0)) as [->|]; [|apply round_size_eq; lia].
  split_and!; first [by vm_compute|by exists 3].
Qed.

(** The block is found, its size computed and compared. *)
Lemma trim_prefix r lf pre c post m mv qv n :
  seg r 0 0 pre m mv → seg r m mv ((c + hdr, true) :: post) MEM_SIZE qv → 0 ≤ n ≤ MEM_SIZE →
  mem_trim (Some (m + hdr)) n (Heap r lf) =
  if c <? round_size n then Assert else
  if round_size n =? c then Ok (Some (m + hdr), Heap r lf) else
  mem_trim_tail (m + hdr) m m (round_size n) c (Mem (m + (c + hdr)) mv 1) (Heap r lf).
Proof.
  intros Hpre (Hl & Hsz & Hd & Hp) Hn.
  pose proof (seg_le _ _ _ _ _ _ Hpre). pose proof (seg_le _ _ _ _ _ _ Hp).
  destruct (round_size_small n Hn) as (Hrs & Hr & Hrn & _). heap_consts.
  unfold mem_trim. heap_consts. rewrite Hrs. cbv zeta.
  replace ((3200 <? round_size n) || (round_size n <? n)) with false by lia.
  replace ((0 <=? m + 8) && (m + 8 <? 3200)) with true by lia. cbn [LWIP_ASSERT mbind res_bind].
  replace (m + 8 - 8) with m by lia. unfold mget, mem_to_ptr, ptr_to_mem. cbn [ram]. rewrite Hl.
  cbn [deref mbind res_bind mem_next]. rewrite (u16_id m) by ulia.
  rewrite (u16_id (m + (c + 8) - m)) by ulia. rewrite (u16_id (m + (c + 8) - m - 8)) by ulia.
  replace (m + (c + 8) - m - 8) with c by lia.
  replace (round_size n <=? c) with (negb (c <? round_size n)) by lia. by destruct (c <? round_size n).
Qed.

Lemma trim_next_free_ok r lf pre c s2 post m mv qv size :
  heap_ok (Heap r lf) (pre ++ (c + hdr, true) :: (s2, false) :: post) →
  seg r 0 0 pre m mv → seg r m mv ((c + hdr, true) :: (s2, false) :: post) MEM_SIZE qv →
  12 ≤ size < c → (4 | size) →
  ∃ h', mem_trim_tail (m + hdr) m m size c (Mem (m + (c + hdr)) mv 1) (Heap r lf) =
          Ok (Some (m + hdr), h') ∧
        heap_ok h' (pre ++ (hdr + size, true) :: (c + hdr + s2 - (hdr + size), false) :: post).
Proof.
  intros (_ & Hend & Hlf & Hadj) Hpre (Hl & Hsz & Hd' & Hl2 & Hs2 & Hd2 & Hp) Hs Hd. simpl in Hend, Hlf.
  pose proof (seg_le _ _ _ _ _ _ Hpre). pose proof (seg_le _ _ _ _ _ _ Hp).
  assert (Hd8 : (4 | hdr + size)) by (apply Z.divide_add_r; [by exists 2|done]).
  unfold mem_trim_tail, ptr_to_mem, mget. cbn [mem_next ram lfree]. heap_consts.
  rewrite (u16_id (m + 8 + size)) by ulia. replace (m + 8 + size) with (m + (8 + size)) by lia.
  rewrite Hl2. cbn [deref mbind res_bind mem_used c_bool Z.eqb mem_next].
  replace (m + (c + 8) =? 3200) with false by lia. cbn [negb LWIP_ASSERT mbind res_bind].
  set (bs' := pre ++ (8 + size, true) :: _).
  replace (if lf =? m + (c + 8) then set_lfree (m + (8 + size)) (Heap r lf) else Heap r lf)
    with (Heap r (first_free 0 bs')).
  2:{ subst bs' lf. destruct (first_free_cases _ _ _ _ _ _ Hpre) as [Hc|[? Hc]]; rewrite !Hc; simpl.
      - by rewrite Z.eqb_refl.
      - by replace (first_free 0 pre =? _) with false by lia. }
  pose proof (trim_stores_ok r (first_free 0 bs') m mv (c + 8) (8 + size) (m + (c + 8) + s2) Hl) as Hst.
  heap_consts. rewrite Hst by (lia || by eapply seg_head). clear Hst. eexists. split; [done|].
  replace (m + (c + 8) + s2 - m) with (c + 8 + s2) by lia. subst bs'.
  eapply trim_heap_ok; try done; heap_consts; try lia.
  - by replace (m + (c + 8 + s2)) with (m + (c + 8) + s2) by lia.
  - intros s. apply no_adj_app in Hadj as [_ Hadj]. simpl in Hadj. simpl. naive_solver.
  - by apply Z.divide_add_r.
Qed.

Lemma trim_next_used_ok r lf pre c post m mv qv size :
  heap_ok (Heap r lf) (pre ++ (c + hdr, true) :: post) →
  seg r 0 0 pre m mv → seg r m mv ((c + hdr, true) :: post) MEM_SIZE qv →
  (∃ s2 post', post = (s2, true) :: post') → 12 ≤ size < c → (4 | size) →
  ∃ h', mem_trim_tail (m + hdr) m m size c (Mem (m + (c + hdr)) mv 1) (Heap r lf) =
          Ok (Some (m + hdr), h') ∧
        heap_ok h' (pre ++ split_block (hdr + size) (c + hdr) ++ post).
Proof.
  intros Hok Hpre (Hl & Hsz & Hd' & Hp) (s2 & post' & Epost) Hs Hd.
  pose proof Hok as (_ & Hend & Hlf & Hadj). simpl in Hend, Hlf.
  pose proof (seg_le _ _ _ _ _ _ Hpre). pose proof (seg_le _ _ _ _ _ _ Hp).
  pose proof Hp as Hp'. rewrite Epost in Hp'. destruct Hp' as (Hl2 & Hs2 & Hd2 & Hp').
  pose proof (seg_le _ _ _ _ _ _ Hp').
  assert (Hd8 : (4 | hdr + size)) by (apply Z.divide_add_r; [by exists 2|done]).
  unfold mem_trim_tail, ptr_to_mem, mget. cbn [mem_next ram lfree]. heap_consts.
  rewrite (u16_id (m + 8 + size)) by ulia. replace (m + 8 + size) with (m + (8 + size)) by lia.
  rewrite Hl2. cbn [deref mbind res_bind mem_used c_bool Z.eqb mem_next].
  unfold split_block. heap_consts. replace (size + 8 + 12 <=? c) with (8 + size + 20 <=? c + 8) by lia.
  destruct (8 + size + 20 <=? c + 8) eqn:E; breflect; [|by exists (Heap r lf)].
  replace (m + (c + 8) =? 3200) with false by lia. cbn [negb LWIP_ASSERT mbind res_bind app].
  set (bs' := pre ++ (8 + size, true) :: _).
  replace (if m + (8 + size) <? lf then set_lfree (m + (8 + size)) (Heap r lf) else Heap r lf)
    with (Heap r (first_free 0 bs')).
  2:{ subst bs' lf. destruct (first_free_cases _ _ _ _ _ _ Hpre) as [Hc|[? Hc]]; rewrite !Hc; simpl.
      - pose proof (first_free_ge _ _ _ _ _ _ Hp). by replace (_ <? _) with true by lia.
      - by replace (_ <? first_free 0 pre) with false by lia. }
  pose proof (trim_stores_ok r (first_free 0 bs') m mv (c + 8) (8 + size) (m + (c + 8)) Hl) as Hst.
  heap_consts. replace (m + (c + 8) =? 3200) with false in Hst by lia. cbn [negb] in Hst.
  rewrite Hst by (lia || by eapply seg_head). clear Hst. eexists. split; [done|].
  replace (m + (c + 8) - m) with (c + 8) by lia. subst bs'.
  eapply trim_heap_ok; try done; heap_consts; try lia.
  intros s. apply no_adj_app in Hadj as [_ Hadj]. subst post. simpl in Hadj. simpl. naive_solver.
Qed.

(** [mem_trim] of a block that is not the last one simulates shrinking. *)
Lemma trim_sim h bs p c n :
  heap_ok h bs → (p, c) ∈ allocated 0 bs → p + c < MEM_SIZE →
  0 ≤ n → round_size n ≤ c →
  ∃ h', mem_trim (Some p) n h = Ok (Some p, h') ∧
        heap_ok h' (abs_trim p (hdr + round_size n) 0 bs).
Proof.
  destruct h as [r lf]. intros Hok Ha Hlast Hn Hr. pose proof Hok as ((qv & Hseg) & Hend & _).
  destruct (allocated_split _ _ _ _ _ _ _ _ Hseg Ha) as (pre & post & m & mv & -> & -> & Hpre & Hpost).
  pose proof Hpost as (_ & _ & _ & Hp). pose proof (seg_le _ _ _ _ _ _ Hpre).
  assert (Hn' : 0 ≤ n ≤ MEM_SIZE).
  { split; [done|]. heap_consts. unfold round_size in Hr. zlia. }
  destruct (round_size_small n Hn') as (_ & Hr' & _ & Hd).
  rewrite (trim_prefix _ _ _ _ _ _ _ _ _ Hpre Hpost Hn').
  rewrite (abs_trim_split _ _ _ _ _ _ _ _ _ _ Hpre). cbn [abs_trim]. rewrite Z.eqb_refl.
  replace (c <? round_size n) with false by lia.
  replace (hdr + round_size n =? c + hdr) with (round_size n =? c) by lia.
  destruct (round_size n =? c) eqn:E; breflect; [by exists (Heap r lf)|].
  destruct post as [|[s2 [|]] post]; [destruct Hp; heap_consts; lia| |].
  - eapply trim_next_used_ok; eauto; lia.
  - eapply trim_next_free_ok; eauto; lia.
Qed.

(** Shrinking the last block by enough to split it fails an assertion. *)
Lemma trim_last h bs p c n :
  heap_ok h bs → (p, c) ∈ allocated 0 bs → p + c = MEM_SIZE →
  0 ≤ n → round_size n + min_block ≤ c →
  mem_trim (Some p) n h = Assert.
Proof.
  destruct h as [r lf]. intros Hok Ha Hlast Hn Hr. pose proof Hok as ((qv & Hseg) & Hend & _). cbn [ram] in Hseg, Hend.
  destruct (allocated_split _ _ _ _ _ _ _ _ Hseg Ha) as (pre & post & m & mv & -> & -> & Hpre & Hpost).
  pose proof Hpost as (_ & Hsz & _ & Hp). pose proof (seg_le _ _ _ _ _ _ Hpre).
  heap_consts. assert (Hn' : 0 ≤ n ≤ MEM_SIZE).
  { split; [done|]. heap_consts. unfold round_size in Hr. zlia. }
  pose proof (trim_prefix _ lf _ _ _ _ _ _ _ Hpre Hpost Hn') as Ht. heap_consts. rewrite Ht.
  replace (c <? round_size n) with false by lia. replace (round_size n =? c) with false by lia.
  unfold mem_trim_tail, ptr_to_mem, mget. cbn [mem_next ram]. heap_consts.
  replace (m + (c + 8)) with 3200 by lia. rewrite Hend. simpl.
  by replace (round_size n + 8 + 12 <=? c) with true by lia.
Qed.
