(* ===== verification/MemClient.v ===== *)
(** * What the heap promises its users

    A run of the heap is a sequence of calls of [mem_malloc], [mem_free] and
    [mem_trim] interleaved with writes of the users into the blocks they hold.
    [reach h L] collects the heaps such runs reach, [L] being the blocks the
    users hold with the sizes they asked for.  The promise: the blocks held are
    aligned, lie inside the heap and never overlap, whatever the users write into
    them no header is damaged, and every block held can be released. *)

From Stdlib Require Import Sorted.
From S2P Require Import Prelude ByteMem Mem MemFacts.

(** ** The allocated blocks under the abstract operations *)

Lemma allocated_app r p pv pre m mv post :
  seg r p pv pre m mv → allocated p (pre ++ post) = allocated p pre ++ allocated m post.
Proof.
  revert p pv; induction pre as [|[sz u] pre IH]; cbn [app seg allocated]; intros p pv H.
  - by destruct H as [-> _].
  - destruct H as (_ & _ & _ & H). by rewrite (IH _ _ H), (assoc_L (++)).
Qed.

Lemma allocated_first_fit size off bs p bs' :
  0 ≤ size → first_fit size off bs = Some (p, bs') →
  ∃ c, size ≤ c ∧ allocated off bs' ≡ₚ (p, c) :: allocated off bs.
Proof.
  intros Hs. revert off bs'; induction bs as [|[sz u] bs IH]; simpl; intros off bs' H; [done|].
  destruct (negb u && (hdr + size <=? sz)) eqn:E; simplify_eq.
  - breflect. subst u. unfold split_block.
    destruct (hdr + size + min_block <=? sz) eqn:E'; cbn [app allocated].
    + exists size. split; [done|]. replace (off + (hdr + size) + (sz - (hdr + size))) with (off + sz) by lia.
      by replace (hdr + size - hdr) with size by lia.
    + exists (sz - hdr). split; [lia|done].
  - destruct (first_fit size (off + sz) bs) as [[x bs1]|] eqn:E'; simplify_eq/=.
    destruct (IH _ _ E') as (c & Hc & Hp). exists c. split; [done|]. rewrite Hp.
    symmetry. apply Permutation_middle.
Qed.

Lemma allocated_coalesce off bs : allocated off (coalesce bs) = allocated off bs.
Proof.
  revert off; induction bs as [|[sz u] bs IH]; intros off; [done|].
  change (coalesce ((sz, u) :: bs)) with (merge_cons (sz, u) (coalesce bs)).
  cbn [allocated]. rewrite <-IH. destruct u; [done|]. simpl.
  destruct (coalesce bs) as [|[sz' [|]] bs']; simpl; [done..|].
  by rewrite Z.add_assoc.
Qed.

Lemma allocated_free h bs p c :
  heap_ok h bs → (p, c) ∈ allocated 0 bs →
  allocated 0 bs ≡ₚ (p, c) :: allocated 0 (abs_free p bs).
Proof.
  intros ((qv & Hseg) & _) Ha.
  destruct (allocated_split _ _ _ _ _ _ _ _ Hseg Ha) as (pre & post & m & mv & -> & -> & Hpre & _).
  unfold abs_free. rewrite (mark_free_split _ _ _ _ _ _ _ _ _ Hpre), allocated_coalesce.
  rewrite !(allocated_app _ _ _ _ _ _ _ Hpre). cbn [allocated app].
  replace (c + hdr - hdr) with c by lia. symmetry. apply Permutation_middle.
Qed.

Lemma allocated_trim h bs p c size :
  heap_ok h bs → (p, c) ∈ allocated 0 bs → size ≤ c →
  ∃ A c', size ≤ c' ≤ c ∧ allocated 0 bs ≡ₚ (p, c) :: A ∧
          allocated 0 (abs_trim p (hdr + size) 0 bs) ≡ₚ (p, c') :: A.
Proof.
  intros ((qv & Hseg) & _) Ha Hs.
  destruct (allocated_split _ _ _ _ _ _ _ _ Hseg Ha) as (pre & post & m & mv & -> & -> & Hpre & _).
  rewrite (abs_trim_split _ _ _ _ _ _ _ _ _ _ Hpre), !(allocated_app _ _ _ _ _ _ _ Hpre).
  cbn [abs_trim allocated app]. rewrite Z.eqb_refl. replace (c + hdr - hdr) with c by lia.
  exists (allocated 0 pre ++ allocated (m + (c + hdr)) post).
  assert (∃ c', size ≤ c' ≤ c ∧
    allocated m (if hdr + size =? c + hdr then (c + hdr, true) :: post
      else match post with
           | (sz', false) :: bs' => (hdr + size, true) :: (c + hdr + sz' - (hdr + size), false) :: bs'
           | _ => split_block (hdr + size) (c + hdr) ++ post
           end) = (m + hdr, c') :: allocated (m + (c + hdr)) post) as (c' & Hc' & ->).
  { destruct (hdr + size =? c + hdr); cbn [allocated app].
    { exists c. replace (c + hdr - hdr) with c by lia. split; [lia|done]. }
    assert (Hsp : ∃ c', size ≤ c' ≤ c ∧
      allocated m (split_block (hdr + size) (c + hdr) ++ post) = (m + hdr, c') :: allocated (m + (c + hdr)) post).
    { unfold split_block. destruct (_ <=? _); cbn [allocated app].
      - exists size. replace (m + (hdr + size) + (c + hdr - (hdr + size))) with (m + (c + hdr)) by lia.
        replace (hdr + size - hdr) with size by lia. split; [lia|done].
      - exists c. replace (c + hdr - hdr) with c by lia. split; [lia|done]. }
    destruct post as [|[s2 [|]] post]; [exact Hsp|exact Hsp|]. cbn [allocated app].
    exists size. replace (m + (hdr + size) + _) with (m + (c + hdr) + s2) by lia.
    replace (hdr + size - hdr) with size by lia. split; [lia|done]. }
  exists c'. split_and!; [lia|lia| |]; symmetry; apply Permutation_middle.
Qed.

(** Allocated blocks in address order, a header between any two. *)
Definition before (a b : Z * Z) : Prop := a.1 + a.2 + hdr ≤ b.1.

Lemma allocated_bounds r p pv bs q qv a c :
  seg r p pv bs q qv → (a, c) ∈ allocated p bs →
  p + hdr ≤ a ∧ a + c ≤ q ∧ 12 ≤ c ∧ ((4 | p) → (4 | a)).
Proof.
  intros H Ha. destruct (allocated_split _ _ _ _ _ _ _ _ H Ha) as (pre & post & m & mv & -> & -> & H1 & H2).
  pose proof (seg_le _ _ _ _ _ _ H1). pose proof (seg_aligned _ _ _ _ _ _ H1) as Hal.
  destruct H2 as (_ & Hsz & _ & H2). apply seg_le in H2. heap_consts. split_and!; try lia.
  intros Hp. apply Z.divide_add_r; [by apply Hal|by exists 2].
Qed.

Lemma allocated_sorted r p pv bs q qv :
  seg r p pv bs q qv → StronglySorted before (allocated p bs).
Proof.
  revert p pv; induction bs as [|[sz u] bs IH]; intros p pv H; cbn [allocated]; [constructor|].
  destruct H as (_ & Hsz & _ & H). destruct u; cbn [app]; [|by eapply IH]. constructor; [by eapply IH|].
  apply Forall_forall. intros [a c] Ha. unfold before. simpl.
  destruct (allocated_bounds _ _ _ _ _ _ _ _ H Ha) as (? & _). lia.
Qed.

(** ** Headers are out of the users' reach *)

Fixpoint headers (off : Z) (bs : list block) : list Z :=
  match bs with [] => [] | (sz, _) :: bs => off :: headers (off + sz) bs end.

Lemma seg_agree r r' p pv bs q qv :
  (∀ i, i ∈ headers p bs → r' !! i = r !! i) → seg r p pv bs q qv → seg r' p pv bs q qv.
Proof.
  revert p pv; induction bs as [|[sz u] bs IH]; simpl; intros p pv Hag H; [done|].
  destruct H as (? & ? & ? & ?). split_and!; try done.
  - rewrite Hag; [done|]. by left.
  - apply IH; [|done]. intros i Hi. apply Hag. by right.
Qed.

Lemma headers_disjoint r p pv bs q qv a c i :
  seg r p pv bs q qv → (a, c) ∈ allocated p bs → i ∈ headers p bs → i + hdr ≤ a ∨ a + c ≤ i.
Proof.
  revert p pv; induction bs as [|[sz u] bs IH]; intros p pv H Ha Hi; cbn [allocated headers] in *.
  { by apply not_elem_of_nil in Ha. }
  pose proof (seg_le _ _ _ _ _ _ H). destruct H as (_ & Hsz & _ & H).
  apply elem_of_app in Ha as [Ha|Ha]; apply elem_of_cons in Hi as [->|Hi].
  - destruct u; [|by apply not_elem_of_nil in Ha]. apply list_elem_of_singleton in Ha as [= -> ->]. lia.
  - destruct u; [|by apply not_elem_of_nil in Ha]. apply list_elem_of_singleton in Ha as [= -> ->].
    right. assert (Hge : ∀ p pv, seg r p pv bs q qv → i ∈ headers p bs → p ≤ i).
    { clear. induction bs as [|[s v] bs IH]; intros p pv H Hi; cbn [headers] in *.
      - by apply not_elem_of_nil in Hi.
      - destruct H as (_ & Hs & _ & H). apply elem_of_cons in Hi as [->|Hi]; [lia|].
        pose proof (IH _ _ H Hi). heap_consts. lia. }
    pose proof (Hge _ _ H Hi). lia.
  - destruct (allocated_bounds _ _ _ _ _ _ _ _ H Ha) as (? & _). heap_consts. lia.
  - eauto.
Qed.

(** ** Runs *)

(** A user writes into the block [(p, n)] it holds: every [struct mem] image that
    overlaps the block may change, nothing else does. *)
Definition user_write (p n : Z) (r r' : gmap Z struct_mem) : Prop :=
  ∀ i, i + hdr ≤ p ∨ p + n ≤ i → r' !! i = r !! i.

Inductive reach : heap → list (Z * Z) → Prop :=
| reach_init h :
    mem_init heap_uninit = Ok h → reach h []
| reach_malloc h L n p h' :
    reach h L → is_u16 n → mem_malloc n h = Ok (Some p, h') → reach h' ((p, n) :: L)
| reach_malloc_null h L n h' :
    reach h L → is_u16 n → mem_malloc n h = Ok (None, h') → reach h' L
| reach_free h L1 L2 p n h' :
    reach h (L1 ++ (p, n) :: L2) → mem_free (Some p) h = Ok h' → reach h' (L1 ++ L2)
| reach_trim h L1 L2 p n n' h' :
    reach h (L1 ++ (p, n) :: L2) → 0 ≤ n' ≤ n → mem_trim (Some p) n' h = Ok (Some p, h') →
    reach h' (L1 ++ (p, n') :: L2)
| reach_write h L p n r' :
    reach h L → (p, n) ∈ L → user_write p n (ram h) r' → reach (Heap r' (lfree h)) L.

(** What a user holds: a prefix of an allocated block. *)
Definition held (a b : Z * Z) : Prop := a.1 = b.1 ∧ 0 ≤ a.2 ≤ b.2.

Definition reach_inv (h : heap) (L : list (Z * Z)) : Prop :=
  ∃ bs A, heap_ok h bs ∧ A ≡ₚ allocated 0 bs ∧ Forall2 held L A.

Lemma mem_init_ok : ∃ h, mem_init heap_uninit = Ok h ∧ heap_ok h [(MEM_SIZE, false)].
Proof.
  eexists. split; [reflexivity|]. split_and!; simpl; try done.
  exists 0. split_and!; try done. by exists 800.
Qed.

Lemma malloc_returns h bs n r :
  heap_ok h bs → is_u16 n → mem_malloc n h = Ok r →
  heap_ok r.2 (abs_malloc n bs).2 ∧ r.1 = (abs_malloc n bs).1.
Proof.
  intros Hok Hn Hm. destruct (malloc_sim h bs n Hok Hn) as (h' & Hm' & Hok').
  rewrite Hm' in Hm. by simplify_eq/=.
Qed.

Lemma reach_inv_malloc h L n p h' :
  reach_inv h L → is_u16 n → mem_malloc n h = Ok (Some p, h') → reach_inv h' ((p, n) :: L).
Proof.
  intros (bs & A & Hok & HA & HL) Hn Hm.
  destruct (malloc_returns _ _ _ _ Hok Hn Hm) as [Hok' Hp]. simpl in *.
  unfold abs_malloc in *. destruct ((n =? 0) || (MEM_SIZE <? n)) eqn:E; [done|].
  destruct (first_fit (round_size n) 0 bs) as [[x bs']|] eqn:Ef; simplify_eq/=.
  destruct (allocated_first_fit (round_size n) 0 bs x bs') as (c & Hc & Hp'); [|done|].
  { unfold round_size. lia. }
  exists bs', ((x, c) :: A). split_and!; [done|by rewrite HA, Hp'|].
  constructor; [|done]. split; [done|]. simpl. unfold is_u16, round_size in *. zlia.
Qed.

Lemma held_middle L1 L2 p n A :
  Forall2 held (L1 ++ (p, n) :: L2) A →
  ∃ A1 c A2, A = A1 ++ (p, c) :: A2 ∧ 0 ≤ n ≤ c ∧ Forall2 held L1 A1 ∧ Forall2 held L2 A2.
Proof.
  intros H. apply Forall2_app_inv_l in H as (A1 & A' & H1 & H2 & ->).
  apply Forall2_cons_inv_l in H2 as ([q c] & A2 & [Hq Hc] & H2 & ->). simpl in *. subst q. eauto 10.
Qed.

Lemma reach_inv_free h L1 L2 p n h' :
  reach_inv h (L1 ++ (p, n) :: L2) → mem_free (Some p) h = Ok h' → reach_inv h' (L1 ++ L2).
Proof.
  intros (bs & A & Hok & HA & HL) Hf. apply held_middle in HL as (A1 & c & A2 & -> & Hn & H1 & H2).
  assert (Ha : (p, c) ∈ allocated 0 bs) by (rewrite <-HA; set_solver).
  destruct (free_sim _ _ _ _ Hok Ha) as (h2 & Hf' & Hok'). rewrite Hf' in Hf. simplify_eq.
  exists (abs_free p bs), (A1 ++ A2). split_and!; [done| |by apply Forall2_app].
  apply (Permutation_cons_inv (a := (p, c))). rewrite <-(allocated_free _ _ _ _ Hok Ha), <-HA.
  apply Permutation_middle.
Qed.

Lemma trim_returns h bs p c n h' :
  heap_ok h bs → (p, c) ∈ allocated 0 bs → 0 ≤ n ≤ c → mem_trim (Some p) n h = Ok (Some p, h') →
  ∃ bs' A c', heap_ok h' bs' ∧ n ≤ c' ≤ c ∧ allocated 0 bs ≡ₚ (p, c) :: A ∧ allocated 0 bs' ≡ₚ (p, c') :: A.
Proof.
  intros Hok Ha Hn Ht.
  assert (Hsame : h' = h → ∃ bs' A c', heap_ok h' bs' ∧ n ≤ c' ≤ c ∧
            allocated 0 bs ≡ₚ (p, c) :: A ∧ allocated 0 bs' ≡ₚ (p, c') :: A).
  { intros ->. apply elem_of_Permutation in Ha as [A HA]. exists bs, A, c. split_and!; try done; lia. }
  pose proof Hok as ((qv & Hseg) & _).
  destruct (allocated_bounds _ _ _ _ _ _ _ _ Hseg Ha) as (? & Hpc & _ & _).
  assert (Hn' : 0 ≤ n ≤ MEM_SIZE) by (heap_consts; lia).
  destruct (round_size_small n Hn') as (_ & _ & Hge & _).
  destruct (allocated_split _ _ _ _ _ _ _ _ Hseg Ha) as (pre & post & m & mv & Hbs & Hp & Hpre & Hpost).
  assert (Hr : round_size n ≤ c).
  { destruct h as [r lf]. rewrite Hp in Ht. rewrite (trim_prefix _ _ _ _ _ _ _ _ _ Hpre Hpost Hn') in Ht.
    destruct (c <? round_size n) eqn:E; breflect; [done|lia]. }
  destruct (decide (p + c < MEM_SIZE)) as [Hlt|Hge'].
  - destruct (trim_sim _ _ _ _ n Hok Ha Hlt) as (h2 & Ht' & Hok'); [lia|done|].
    rewrite Ht' in Ht. injection Ht as <-.
    destruct (allocated_trim _ _ _ _ _ Hok Ha Hr) as (A & c' & ? & ? & ?).
    exists (abs_trim p (hdr + round_size n) 0 bs), A, c'. split_and!; try done; lia.
  - destruct (decide (round_size n + min_block ≤ c)).
    { rewrite (trim_last _ _ _ _ n Hok Ha) in Ht; [done|lia..]. }
    apply Hsame. destruct h as [r lf]. rewrite Hp in Ht.
    rewrite (trim_prefix _ _ _ _ _ _ _ _ _ Hpre Hpost Hn') in Ht.
    pose proof Hok as (_ & Hend & _). simpl in Hend. pose proof Hpost as (_ & _ & _ & Hp').
    replace (c <? round_size n) with false in Ht by lia.
    destruct (round_size n =? c); [by simplify_eq|]. unfold mem_trim_tail, mget, ptr_to_mem in Ht.
    cbn [mem_next ram] in Ht. replace (m + (c + hdr)) with MEM_SIZE in Ht by (heap_consts; lia).
    rewrite Hend in Ht. cbn [deref mbind res_bind mem_used Z.eqb] in Ht. heap_consts.
    replace (round_size n + 8 + 12 <=? c) with false in Ht by lia. by simplify_eq.
Qed.

Lemma reach_inv_write h L p n r' :
  reach_inv h L → (p, n) ∈ L → user_write p n (ram h) r' → reach_inv (Heap r' (lfree h)) L.
Proof.
  intros (bs & A & ((qv & Hseg) & Hend & Hlf & Hadj) & HA & HL) Hp Hw.
  apply list_elem_of_split in Hp as (L1 & L2 & HL'). pose proof HL as HL2. rewrite HL' in HL2.
  apply held_middle in HL2 as (A1 & c & A2 & -> & Hn & _).
  assert (Ha : (p, c) ∈ allocated 0 bs) by (rewrite <-HA; set_solver).
  destruct (allocated_bounds _ _ _ _ _ _ _ _ Hseg Ha) as (? & Hpc & ? & _).
  exists bs, (A1 ++ (p, c) :: A2). split_and!; try done. split_and!; simpl; try done.
  - exists qv. eapply seg_agree; [|done]. intros i Hi. apply Hw.
    destruct (headers_disjoint _ _ _ _ _ _ _ _ _ Hseg Ha Hi); lia.
  - rewrite Hw by lia. done.
Qed.

(** mem_trim of a block held aborts or returns the same pointer. *)
Lemma trim_total h bs p c n :
  heap_ok h bs → (p, c) ∈ allocated 0 bs → 0 ≤ n ≤ c →
  mem_trim (Some p) n h = Assert ∨ ∃ h', mem_trim (Some p) n h = Ok (Some p, h').
Proof.
  intros Hok Ha Hn. pose proof Hok as ((qv & Hseg) & Hend & _).
  destruct (allocated_bounds _ _ _ _ _ _ _ _ Hseg Ha) as (? & Hpc & _ & _).
  assert (Hn' : 0 ≤ n ≤ MEM_SIZE) by (heap_consts; lia).
  destruct (allocated_split _ _ _ _ _ _ _ _ Hseg Ha) as (pre & post & m & mv & Hbs & Hp & Hpre & Hpost).
  destruct h as [r lf]. cbn [ram] in *.
  destruct (decide (round_size n ≤ c)) as [Hr|Hr].
  2: { left. rewrite Hp, (trim_prefix _ _ _ _ _ _ _ _ _ Hpre Hpost Hn').
       by replace (c <? round_size n) with true by lia. }
  destruct (decide (p + c < MEM_SIZE)) as [Hlt|Hge].
  { right. destruct (trim_sim _ _ _ _ n Hok Ha Hlt) as (h2 & Ht & _); [lia|done|eauto]. }
  destruct (decide (round_size n + min_block ≤ c)).
  { left. apply (trim_last _ _ _ _ n Hok Ha); lia. }
  right. exists (Heap r lf). rewrite Hp, (trim_prefix _ _ _ _ _ _ _ _ _ Hpre Hpost Hn').
  replace (c <? round_size n) with false by lia. destruct (round_size n =? c); [done|].
  pose proof Hpost as (_ & _ & _ & Hp'). unfold mem_trim_tail, mget, ptr_to_mem.
  cbn [mem_next ram]. replace (m + (c + hdr)) with MEM_SIZE by (heap_consts; lia).
  rewrite Hend. cbn [deref mbind res_bind mem_used Z.eqb]. heap_consts.
  by replace (round_size n + 8 + 12 <=? c) with false by lia.
Qed.

Lemma reach_inv_trim_total h L1 L2 p n n' :
  reach_inv h (L1 ++ (p, n) :: L2) → 0 ≤ n' ≤ n →
  mem_trim (Some p) n' h = Assert ∨ ∃ h', mem_trim (Some p) n' h = Ok (Some p, h').
Proof.
  intros (bs & A & Hok & HA & HL) Hn. apply held_middle in HL as (A1 & c & A2 & -> & Hc & _).
  apply (trim_total h bs p c n' Hok); [rewrite <-HA; set_solver|lia].
Qed.

Lemma reach_inv_trim h L1 L2 p n n' h' :
  reach_inv h (L1 ++ (p, n) :: L2) → 0 ≤ n' ≤ n → mem_trim (Some p) n' h = Ok (Some p, h') →
  reach_inv h' (L1 ++ (p, n') :: L2).
Proof.
  intros (bs & A & Hok & HA & HL) Hn Ht. apply held_middle in HL as (A1 & c & A2 & -> & Hc & H1 & H2).
  assert (Ha : (p, c) ∈ allocated 0 bs) by (rewrite <-HA; set_solver).
  destruct (trim_returns _ _ _ c n' h' Hok Ha) as (bs' & A' & c' & Hok' & Hc' & Hp & Hp'); [lia|done|].
  exists bs', (A1 ++ (p, c') :: A2). split_and!; [done| |].
  - rewrite Hp', <-Permutation_middle. constructor.
    apply (Permutation_cons_inv (a := (p, c))). by rewrite <-Hp, <-HA, Permutation_middle.
  - apply Forall2_app; [done|]. constructor; [|done]. split; simpl; [done|lia].
Qed.

Lemma reach_inv_holds h L : reach h L → reach_inv h L.
Proof.
  induction 1 as [h Hi|h L n p h' _ IH Hn Hm|h L n h' _ IH Hn Hm|h L1 L2 p n h' _ IH Hf
    |h L1 L2 p n n' h' _ IH Hn Ht|h L p n r' _ IH Hp Hw].
  - destruct mem_init_ok as (h0 & Hi' & Hok). rewrite Hi' in Hi. simplify_eq.
    exists [(MEM_SIZE, false)], []. split_and!; [done|done|constructor].
  - by eapply reach_inv_malloc.
  - destruct IH as (bs & A & Hok & HA & HL). destruct (malloc_returns _ _ _ _ Hok Hn Hm) as [Hok' Hp].
    simpl in *. unfold abs_malloc in *. destruct (_ || _); [by exists bs, A|].
    destruct (first_fit _ _ _) as [[??]|]; [done|by exists bs, A].
  - by eapply reach_inv_free.
  - by eapply reach_inv_trim.
  - by eapply reach_inv_write.
Qed.

Lemma sorted_lookup_apart l i j a b :
  StronglySorted before l → l !! i = Some a → l !! j = Some b → i ≠ j → before a b ∨ before b a.
Proof.
  intros Hs. revert i j. induction Hs as [|x l Hs IH Hx]; intros i j Hi Hj Hne; [done|].
  rewrite Forall_forall in Hx. destruct i as [|i], j as [|j]; simplify_eq/=.
  - left. apply Hx. by eapply list_elem_of_lookup_2.
  - right. apply Hx. by eapply list_elem_of_lookup_2.
  - by eapply (IH i j); [..|naive_solver].
Qed.

(** What the invariant gives to the users. *)
Lemma reach_inv_safe h L :
  reach_inv h L →
  (∀ p n, (p, n) ∈ L → (4 | p) ∧ hdr ≤ p ∧ p + n ≤ MEM_SIZE) ∧
  (∀ i j a b, L !! i = Some a → L !! j = Some b → i ≠ j → a.1 + a.2 ≤ b.1 ∨ b.1 + b.2 ≤ a.1) ∧
  (∀ p n, (p, n) ∈ L → ∃ h', mem_free (Some p) h = Ok h') ∧
  (∀ n, is_u16 n → ∃ r, mem_malloc n h = Ok r).
Proof.
  intros (bs & A & Hok & HA & HL). pose proof Hok as ((qv & Hseg) & _).
  assert (Hblk : ∀ p n, (p, n) ∈ L → ∃ c, n ≤ c ∧ (p, c) ∈ allocated 0 bs).
  { intros p n Hp. apply list_elem_of_lookup in Hp as [i Hi].
    destruct (Forall2_lookup_l _ _ _ _ _ HL Hi) as ([q c] & Hq & [Hpq Hc]). simpl in *. subst q.
    exists c. split; [lia|]. rewrite <-HA. by eapply list_elem_of_lookup_2. }
  split_and!.
  - intros p n Hp. destruct (Hblk _ _ Hp) as (c & Hc & Ha).
    destruct (allocated_bounds _ _ _ _ _ _ _ _ Hseg Ha) as (? & ? & ? & Hal).
    split_and!; [apply Hal; by exists 0|lia|lia].
  - intros i j a b Hi Hj Hne. apply Permutation_inj in HA as (_ & f & Hinj & Hf).
    destruct (Forall2_lookup_l _ _ _ _ _ HL Hi) as (a' & Ha' & [Ha1 Ha2]).
    destruct (Forall2_lookup_l _ _ _ _ _ HL Hj) as (b' & Hb' & [Hb1 Hb2]).
    rewrite Hf in Ha', Hb'.
    destruct (sorted_lookup_apart _ _ _ _ _ (allocated_sorted _ _ _ _ _ _ Hseg) Ha' Hb') as [Hb|Hb];
      [by intros ?%(inj f)|unfold before in Hb; heap_consts; lia..].
  - intros p n Hp. destruct (Hblk _ _ Hp) as (c & Hc & Ha).
    destruct (free_sim _ _ _ _ Hok Ha) as (h' & ? & _). eauto.
  - intros n Hn. destruct (malloc_sim _ _ _ Hok Hn) as (h' & ? & _). eauto.
Qed.

(** C1: every run of the heap is safe.  In every state reached by any
    interleaving of mem_malloc, mem_free of a block held, mem_trim of a block held
    and arbitrary writes of the users into their blocks, the blocks held are
    4-aligned, lie inside the heap and are pairwise disjoint over the sizes the
    users asked for; every block held can be released and every request is
    answered, without a failing assertion or an access outside the heap. *)
Theorem heap_runs_safe h L :
  reach h L →
  (∀ p n, (p, n) ∈ L → (4 | p) ∧ hdr ≤ p ∧ p + n ≤ MEM_SIZE) ∧
  (∀ i j a b, L !! i = Some a → L !! j = Some b → i ≠ j → a.1 + a.2 ≤ b.1 ∨ b.1 + b.2 ≤ a.1) ∧
  (∀ p n, (p, n) ∈ L → ∃ h', mem_free (Some p) h = Ok h') ∧
  (∀ n, is_u16 n → ∃ r, mem_malloc n h = Ok r).
Proof. intros Hr. apply reach_inv_safe. by apply reach_inv_holds. Qed.

(** A run: three blocks are allocated, the middle one released, the first one
    trimmed. *)
Lemma heap_runs_safe_witness :
  ∃ h, reach h [(136, 10); (8, 40)] ∧ (∃ h', mem_free (Some 136) h = Ok h') ∧
       (∃ r, mem_malloc 70 h = Ok r).
Proof.
  eassert (H0 : reach _ []) by (apply reach_init; vm_compute; reflexivity).
  eassert (H1 : reach _ [(8, 100)]) by (eapply (reach_malloc _ _ 100); [exact H0|done|vm_compute; reflexivity]).
  eassert (H2 : reach _ [(116, 10); (8, 100)])
    by (eapply (reach_malloc _ _ 10); [exact H1|done|vm_compute; reflexivity]).
  eassert (H3 : reach _ [(136, 10); (116, 10); (8, 100)])
    by (eapply (reach_malloc _ _ 10); [exact H2|done|vm_compute; reflexivity]).
  eassert (H4 : reach _ ([(136, 10)] ++ [(8, 100)]))
    by (eapply (reach_free _ [(136, 10)] [(8, 100)] 116 10); [exact H3|vm_compute; reflexivity]).
  eassert (H5 : reach _ ([(136, 10)] ++ [(8, 40)]))
    by (eapply (reach_trim _ [(136, 10)] [] 8 100 40); [exact H4|lia|vm_compute; reflexivity]).
  eexists. split; [exact H5|].
  destruct (heap_runs_safe _ _ H5) as (_ & _ & Hfree & Hmalloc). split.
  - apply (Hfree 136 10). left.
  - apply (Hmalloc 70). done.
Defined.

(** ** The operations one by one *)

Lemma first_fit_none size off bs :
  first_fit size off bs = None → ∀ sz, (sz, false) ∈ bs → sz < hdr + size.
Proof.
  revert off; induction bs as [|[s u] bs IH]; simpl; intros off H sz Hin.
  { by apply not_elem_of_nil in Hin. }
  destruct (negb u && (hdr + size <=? s)) eqn:E; [done|].
  destruct (first_fit size (off + s) bs) as [[??]|] eqn:E'; [done|].
  apply elem_of_cons in Hin as [Heq|Hin]; [|by eapply IH]. simplify_eq/=. lia.
Qed.

(** A request that is refused leaves the heap alone. *)
Lemma malloc_null n h h' : mem_malloc n h = Ok (None, h') → h' = h.
Proof.
  assert (Hscan : ∀ fuel size ptr, mem_malloc_scan fuel size ptr h = Ok (None, h') → h' = h).
  { induction fuel as [|fuel IH]; cbn [mem_malloc_scan]; intros size ptr H; [done|].
    destruct (_ <? _); [|by simplify_eq]. inv_ok. destruct (_ && _); [|by eapply IH].
    unfold mem_malloc_take in *. by inv_ok. }
  unfold mem_malloc. repeat case_match; intros; simplify_eq; eauto.
Qed.

Lemma block_size h bs sz u : heap_ok h bs → (sz, u) ∈ bs → sz ≤ MEM_SIZE.
Proof.
  intros ((qv & Hseg) & _) Hin. apply list_elem_of_split in Hin as (l1 & l2 & ->).
  apply seg_app in Hseg as (m & mv & H1 & H2). pose proof (seg_le _ _ _ _ _ _ H1).
  destruct H2 as (_ & _ & _ & H2). apply seg_le in H2. lia.
Qed.

(** The block a successful request returns. *)
Lemma malloc_block h bs n p :
  heap_ok h bs → is_u16 n → (abs_malloc n bs).1 = Some p →
  ∃ c, allocated 0 (abs_malloc n bs).2 ≡ₚ (p, c) :: allocated 0 bs ∧
       (4 | p) ∧ hdr ≤ p ∧ n ≤ c ∧ p + c ≤ MEM_SIZE.
Proof.
  intros Hok Hn Hp. destruct (malloc_sim h bs n Hok Hn) as (h' & _ & Hok').
  unfold abs_malloc in *. destruct (_ || _); [done|].
  destruct (first_fit (round_size n) 0 bs) as [[x bs']|] eqn:Ef; simplify_eq/=.
  destruct (allocated_first_fit (round_size n) 0 bs p bs') as (c & Hc & Hp);
    [unfold round_size; lia|done|].
  pose proof Hok' as ((qv & Hseg) & _).
  destruct (allocated_bounds _ _ _ _ _ _ p c Hseg) as (? & ? & ? & Hal); [rewrite Hp; by left|].
  exists c. split_and!; [done|apply Hal; by exists 0|lia| |lia].
  unfold round_size in Hc. unfold is_u16 in Hn. zlia.
Qed.

(** C2: mem_malloc refines first-fit allocation.  On every well-formed heap and
    for every request it returns: either the address of an aligned block of at
    least the size asked for that joins the allocated blocks, all others staying as
    they are, or NULL with the heap unchanged, and then the request was 0 or no
    free block can hold the rounded size behind its header. *)
Theorem mem_malloc_correct h bs n :
  heap_ok h bs → is_u16 n →
  ∃ r h', mem_malloc n h = Ok (r, h') ∧
  match r with
  | Some p => ∃ bs' c, heap_ok h' bs' ∧ (4 | p) ∧ hdr ≤ p ∧ n ≤ c ∧ p + c ≤ MEM_SIZE ∧
                       allocated 0 bs' ≡ₚ (p, c) :: allocated 0 bs
  | None => h' = h ∧ (n = 0 ∨ ∀ sz, (sz, false) ∈ bs → sz < hdr + round_size n)
  end.
Proof.
  intros Hok Hn. destruct (malloc_sim h bs n Hok Hn) as (h' & Hm & Hok').
  pose proof (malloc_null n h h') as Hnull.
  exists (abs_malloc n bs).1, h'. split; [done|]. unfold abs_malloc in *.
  destruct ((n =? 0) || (MEM_SIZE <? n)) eqn:E; simpl in *.
  - split; [naive_solver|]. destruct (n =? 0) eqn:E0; breflect; [by left|]. right.
    intros sz Hsz. pose proof (block_size _ _ _ _ Hok Hsz). unfold round_size. simpl in E. breflect.
    heap_consts. zlia.
  - destruct (first_fit (round_size n) 0 bs) as [[p bs']|] eqn:Ef; simpl in *.
    + destruct (malloc_block h bs n p Hok Hn) as (c & Hc).
      { unfold abs_malloc. by rewrite E, Ef. }
      exists bs', c. unfold abs_malloc in Hc. rewrite E, Ef in Hc. naive_solver.
    + split; [naive_solver|]. right. by eapply first_fit_none.
Qed.

Lemma mem_malloc_correct_witness :
  ∃ h, mem_init heap_uninit = Ok h ∧ heap_ok h [(MEM_SIZE, false)] ∧
  ∃ r h', mem_malloc 1460 h = Ok (r, h') ∧
  match r with
  | Some p => ∃ bs' c, heap_ok h' bs' ∧ (4 | p) ∧ hdr ≤ p ∧ 1460 ≤ c ∧ p + c ≤ MEM_SIZE ∧
                       allocated 0 bs' ≡ₚ (p, c) :: allocated 0 [(MEM_SIZE, false)]
  | None => h' = h ∧ (1460 = 0 ∨ ∀ sz, (sz, false) ∈ [(MEM_SIZE, false)] → sz < hdr + round_size 1460)
  end.
Proof.
  destruct mem_init_ok as (h & Hi & Hok). exists h. split_and!; [done|done|].
  apply (mem_malloc_correct h [(MEM_SIZE, false)] 1460); [exact Hok|done].
Defined.

Lemma first_fit_after r size off pv bs q qv x bs' :
  seg r off pv bs q qv → first_fit size off bs = Some (x, bs') → off + hdr ≤ x.
Proof.
  revert off pv bs'; induction bs as [|[sz u] bs IH]; intros off pv bs' H Hf; [done|].
  cbn [first_fit] in Hf. destruct (_ && _); [simplify_eq; lia|].
  destruct (first_fit size (off + sz) bs) as [[y l]|] eqn:Ef; simplify_eq/=.
  destruct H as (_ & Hsz & _ & H). pose proof (IH _ _ _ H Ef). heap_consts. lia.
Qed.

(** Marking a block free that first fit just took merges to the old list. *)
Lemma coalesce_first_fit r size off pv bs q qv x bs' :
  seg r off pv bs q qv → 0 ≤ size → first_fit size off bs = Some (x, bs') →
  coalesce (mark_free x off bs') = coalesce bs.
Proof.
  intros H Hs. revert off pv bs' H; induction bs as [|[sz u] bs IH]; intros off pv bs' H Hf; [done|].
  cbn [first_fit] in Hf. destruct (negb u && (hdr + size <=? sz)) eqn:E.
  - breflect. subst u. simplify_eq/=. unfold split_block.
    destruct (_ <=? sz); cbn [app mark_free]; rewrite Z.eqb_refl; [|done].
    cbn [coalesce foldr]. fold (coalesce bs). unfold merge_cons at 2.
    destruct (coalesce bs) as [|[s [|]] l]; cbn [merge_cons]; do 2 f_equal; lia.
  - destruct (first_fit size (off + sz) bs) as [[y l]|] eqn:Ef; simplify_eq/=.
    destruct H as (_ & Hsz & _ & H). pose proof (first_fit_after _ _ _ _ _ _ _ _ _ H Ef).
    replace (off + hdr =? x) with false by (heap_consts; lia).
    cbn [coalesce foldr]. fold (coalesce bs). by rewrite <-(IH _ _ _ H Ef).
Qed.

(** C3: mem_free undoes mem_malloc.  Releasing a block that was just allocated
    gives back the abstract heap: the remainder that was split off is merged again
    and the lowest free block is found again, so no sequence of allocations
    followed by their releases in reverse order fragments the heap. *)
Theorem mem_free_malloc h bs n p h1 :
  heap_ok h bs → is_u16 n → mem_malloc n h = Ok (Some p, h1) →
  ∃ h2, mem_free (Some p) h1 = Ok h2 ∧ heap_ok h2 bs.
Proof.
  intros Hok Hn Hm. destruct (malloc_returns _ _ _ _ Hok Hn Hm) as [Hok' Hp]. simpl in *.
  pose proof Hok as ((qv & Hseg) & _ & _ & Hadj). pose proof Hok' as ((qv' & Hseg') & _).
  unfold abs_malloc in *. destruct (_ || _); [done|].
  destruct (first_fit (round_size n) 0 bs) as [[x bs']|] eqn:Ef; simplify_eq/=.
  destruct (allocated_first_fit (round_size n) 0 bs x bs') as (c & Hc & Hp'); [unfold round_size; lia|done|].
  destruct (free_sim _ _ x c Hok') as (h2 & Hf & Hok2); [rewrite Hp'; by left|].
  exists h2. split; [done|]. replace bs with (abs_free x bs'); [done|].
  unfold abs_free. rewrite <-(coalesce_no_adj bs) by done.
  apply (coalesce_first_fit _ (round_size n) _ _ _ _ _ _ _ Hseg); [unfold round_size; lia|exact Ef].
Qed.

Lemma mem_free_malloc_witness :
  ∃ h h1, heap_ok h [(MEM_SIZE, false)] ∧ mem_malloc 536 h = Ok (Some 8, h1) ∧
  ∃ h2, mem_free (Some 8) h1 = Ok h2 ∧ heap_ok h2 [(MEM_SIZE, false)].
Proof.
  eexists _, _. split; [|split].
  3: eapply (mem_free_malloc _ [(MEM_SIZE, false)] 536 8).
  1, 3: destruct mem_init_ok as (h & Hi & Hok); vm_compute in Hi; injection Hi as Hi;
        rewrite <-Hi in Hok; exact Hok.
  2: done.
  all: vm_compute; reflexivity.
Defined.

(** mem_trim shrinks in place.  For a block that is not the last one of the
    heap, and a new size that fits, mem_trim returns the same pointer, the heap
    stays well formed, the block keeps at least the new size and no other block
    changes; the capacity given up becomes free or stays with the block. *)
Theorem mem_trim_correct h bs p c n :
  heap_ok h bs → (p, c) ∈ allocated 0 bs → p + c < MEM_SIZE → 0 ≤ n → round_size n ≤ c →
  ∃ h' bs' c' A,
    mem_trim (Some p) n h = Ok (Some p, h') ∧ heap_ok h' bs' ∧ n ≤ c' ≤ c ∧
    allocated 0 bs ≡ₚ (p, c) :: A ∧ allocated 0 bs' ≡ₚ (p, c') :: A.
Proof.
  intros Hok Ha Hlast Hn Hr. destruct (trim_sim h bs p c n) as (h' & Ht & Hok'); try done.
  destruct (allocated_trim h bs p c (round_size n) Hok Ha Hr) as (A & c' & Hc & HA & HA').
  exists h', (abs_trim p (hdr + round_size n) 0 bs), c', A. split_and!; try done; [|lia].
  unfold round_size in Hc. zlia.
Qed.

(** The heap after one block of [n] bytes was allocated, for the witnesses. *)
Lemma one_block_heap n h0 h1 :
  mem_init heap_uninit = Ok h0 → is_u16 n → mem_malloc n h0 = Ok (Some 8, h1) →
  heap_ok h1 (abs_malloc n [(MEM_SIZE, false)]).2.
Proof.
  intros Hi Hn Hm. destruct mem_init_ok as (h & Hi' & Hok). rewrite Hi' in Hi. simplify_eq.
  by destruct (malloc_returns _ _ _ _ Hok Hn Hm).
Qed.

Lemma mem_trim_correct_witness :
  ∃ h1, heap_ok h1 [(1468, true); (1732, false)] ∧
  ∃ h' bs' c' A,
    mem_trim (Some 8) 300 h1 = Ok (Some 8, h') ∧ heap_ok h' bs' ∧ 300 ≤ c' ≤ 1460 ∧
    allocated 0 [(1468, true); (1732, false)] ≡ₚ (8, 1460) :: A ∧ allocated 0 bs' ≡ₚ (8, c') :: A.
Proof.
  eexists. eassert (Hok : heap_ok _ [(1468, true); (1732, false)]).
  { eapply (one_block_heap 1460); [vm_compute; reflexivity|done|vm_compute; reflexivity]. }
  split; [exact Hok|].
  apply (mem_trim_correct _ [(1468, true); (1732, false)] 8 1460 300 Hok);
    [left|reflexivity|lia|vm_compute; discriminate].
Defined.

(** shrinking the last block of the heap aborts.  When the block ends at
    the end of the heap and the new size is small enough for the rest to become a
    block, mem_trim runs into its assertion "invalid next ptr" although the request
    is legal: the assertion tests mem->next, which is the end marker for the last
    block, and not the next of a block that exists. *)
Theorem mem_trim_last_block_aborts h bs p c n :
  heap_ok h bs → (p, c) ∈ allocated 0 bs → p + c = MEM_SIZE → 0 ≤ n → round_size n + min_block ≤ c →
  mem_trim (Some p) n h = Assert.
Proof. apply trim_last. Qed.

Lemma mem_trim_last_block_aborts_witness :
  ∃ h1, heap_ok h1 [(3200, true)] ∧ mem_trim (Some 8) 300 h1 = Assert.
Proof.
  eexists. eassert (Hok : heap_ok _ [(3200, true)]).
  { eapply (one_block_heap 3192); [vm_compute; reflexivity|done|vm_compute; reflexivity]. }
  split; [exact Hok|].
  apply (mem_trim_last_block_aborts _ [(3200, true)] 8 3192 300 Hok);
    [left|reflexivity|lia|vm_compute; discriminate].
Defined.

(** mem_calloc zeroes exactly the block it returns.  The product is computed
    on [size_t]; when it fits the heap's size type the block is allocated, all its
    bytes read as 0 and no byte outside it changes; when it does not, NULL is
    returned and nothing is touched. *)
Theorem mem_calloc_zeroes h bs b count size :
  heap_ok h bs → 0 ≤ count → 0 ≤ size → count * size < 4294967296 →
  (∀ i, 0 ≤ i < MEM_SIZE → is_Some (b !! i)) →
  ∃ r h' b', mem_calloc count size h b = Ok (r, h', b') ∧
  match r with
  | Some p => mread b' p (Z.to_nat (count * size)) = Some (replicate (Z.to_nat (count * size)) 0) ∧
              p + count * size ≤ MEM_SIZE ∧
              (∀ i, i < p ∨ p + count * size ≤ i → b' !! i = b !! i) ∧
              mem_malloc (count * size) h = Ok (Some p, h')
  | None => h' = h ∧ b' = b
  end.
Proof.
  intros Hok Hc Hs Hlt Hb. unfold mem_calloc. assert (0 ≤ count * size) by nia.
  rewrite (u32_id (count * size)) by ulia.
  destruct (u16 (count * size) =? count * size) eqn:E; simpl; [|by eexists None, h, b].
  breflect. rewrite E. assert (Hn : is_u16 (count * size)) by (rewrite <-E; apply u16_range).
  destruct (malloc_sim h bs _ Hok Hn) as (h' & Hm & Hok'). rewrite Hm. simpl.
  destruct (abs_malloc (count * size) bs).1 as [p|] eqn:Ep.
  2: { apply malloc_null in Hm as ->. by eexists None, h, b. }
  destruct (malloc_block h bs _ p Hok Hn Ep) as (c & _ & _ & Hge & Hle & Hend).
  destruct (memset_ok p 0 (count * size) b) as (b' & Hset & Hread & Hother); [lia| |].
  { intros i Hi. apply Hb. heap_consts. lia. }
  exists (Some p), h', b'. rewrite Hset. split_and!; try done. lia.
Qed.

Lemma mem_calloc_zeroes_witness :
  ∃ h, heap_ok h [(MEM_SIZE, false)] ∧
  ∃ r h' b', mem_calloc 10 4 h (mwrite ∅ 0 (replicate 3200 255)) = Ok (r, h', b') ∧
  match r with
  | Some p => mread b' p (Z.to_nat (10 * 4)) = Some (replicate (Z.to_nat (10 * 4)) 0) ∧
              p + 10 * 4 ≤ MEM_SIZE ∧
              (∀ i, i < p ∨ p + 10 * 4 ≤ i → b' !! i = mwrite ∅ 0 (replicate 3200 255) !! i) ∧
              mem_malloc (10 * 4) h = Ok (Some p, h')
  | None => h' = h ∧ b' = mwrite ∅ 0 (replicate 3200 255)
  end.
Proof.
  destruct mem_init_ok as (h & Hi & Hok). exists h. split; [done|].
  apply (mem_calloc_zeroes h [(MEM_SIZE, false)]); [exact Hok|lia..|].
  intros i Hr. rewrite lookup_mwrite. unfold zlen. rewrite length_replicate.
  rewrite bool_decide_eq_true_2 by (heap_consts; lia).
  apply lookup_lt_is_Some. rewrite length_replicate. heap_consts. lia.
Defined.

(** ** The heap's own self check *)

Lemma LWIP_MEM_ALIGN_aligned p : (4 | p) → 0 ≤ p < 4294967293 → LWIP_MEM_ALIGN p = p.
Proof.
  intros [k ->] Hp. change (LWIP_MEM_ALIGN ?x) with (LWIP_MEM_ALIGN_SIZE x).
  rewrite LWIP_MEM_ALIGN_SIZE_eq by done. zlia.
Qed.

Lemma align_test_true p : align_test p = true.
Proof. unfold align_test. by rewrite Z.eqb_refl. Qed.

Lemma sanity_walk_ok r lf fuel pre s last post m mv qv :
  r !! MEM_SIZE = Some (Mem MEM_SIZE MEM_SIZE 1) →
  seg r 0 0 (pre ++ [(s, last)]) m mv → seg r m mv post MEM_SIZE qv →
  no_adj (pre ++ (s, last) :: post) → (length post < fuel)%nat →
  mem_sanity_walk fuel m (c_bool last) (Heap r lf) = Ok MEM_SIZE.
Proof.
  intros Hend. revert fuel pre s last m mv. induction post as [|[sz u] post IH];
    intros fuel pre s lst m mv Hpre Hpost Hadj Hf;
    (destruct fuel as [|fuel]; [simpl in Hf; lia|]); cbn [mem_sanity_walk].
  { destruct Hpost as [-> _]. heap_consts. by rewrite Z.ltb_irrefl, andb_false_r. }
  pose proof Hpost as (Hl & Hsz & Hd & Hpost'). pose proof (seg_le _ _ _ _ _ _ Hpost').
  assert (Hmv : 0 ≤ mv < m).
  { apply seg_app in Hpre as (m0 & mv0 & H1 & (_ & Hs & _ & <- & <-)). apply seg_le in H1. heap_consts. lia. }
  replace ((0 <? m) && (m <? ram_end)) with true by (heap_consts; lia).
  unfold mget. cbn [ram]. rewrite Hl. cbn [deref mbind res_bind mem_prev mem_next mem_used].
  rewrite LWIP_MEM_ALIGN_aligned, Z.eqb_refl by
    (first [apply (seg_aligned _ _ _ _ _ _ Hpre); by exists 0|heap_consts; lia]).
  replace (mv <=? MEM_SIZE_ALIGNED) with true by (heap_consts; lia).
  replace (m + sz <=? MEM_SIZE_ALIGNED) with true by (heap_consts; lia).
  rewrite !align_test_true. cbn [LWIP_ASSERT mbind res_bind].
  rewrite (link_valid_ok _ _ _ _ _ _ _ _ _ Hend Hpre Hpost).
  assert (Hu : (if c_bool lst =? 0 then LWIP_ASSERT (c_bool u =? 1)
               else LWIP_ASSERT ((c_bool u =? 0) || (c_bool u =? 1))) = Ok tt).
  { apply no_adj_app in Hadj as [_ [Hor _]]. by destruct lst, u. }
  rewrite Hu. cbn [mbind res_bind LWIP_ASSERT].
  apply (IH fuel (pre ++ [(s, lst)]) sz u (m + sz) m).
  - apply seg_app. exists m, mv. split; [done|]. simpl. naive_solver.
  - done.
  - by rewrite <-app_assoc.
  - simpl in Hf. lia.
Qed.

(** the heap's own self check never fires.  In every state a run of the
    heap reaches, mem_sanity walks the whole list of blocks, ends at ram_end and
    finds each of its assertions true: links valid in both directions, blocks
    aligned, no two unused blocks in a row. *)
Theorem mem_sanity_passes h L : reach h L → mem_sanity h = Ok tt.
Proof.
  intros Hr. apply reach_inv_holds in Hr as (bs & _ & Hok & _). destruct h as [r lf].
  destruct Hok as ((qv & Hseg) & Hend & _ & Hadj). cbn [ram] in *. unfold mem_sanity, mget. cbn [ram].
  destruct bs as [|[sz u] bs]; [by destruct Hseg|]. pose proof Hseg as (Hl & Hsz & _ & Hseg').
  pose proof (seg_le _ _ _ _ _ _ Hseg') as Hle. pose proof (seg_length _ _ _ _ _ _ Hseg').
  rewrite Hl. cbn [deref mbind res_bind mem_used mem_prev mem_next].
  replace ((c_bool u =? 0) || (c_bool u =? 1)) with true by (by destruct u).
  replace (0 + sz <=? MEM_SIZE_ALIGNED) with true by (heap_consts; lia).
  rewrite align_test_true, Z.eqb_refl. cbn [LWIP_ASSERT mbind res_bind].
  unfold ptr_to_mem. rewrite (sanity_walk_ok r lf heap_fuel [] sz u bs (0 + sz) 0 qv); try done.
  - cbn [mbind res_bind]. change MEM_SIZE_ALIGNED with MEM_SIZE. by rewrite Z.eqb_refl, Hend.
  - simpl. naive_solver.
  - pose proof heap_fuel_eq. heap_consts. lia.
Qed.

Lemma mem_sanity_passes_witness : ∃ h, reach h [(116, 10); (8, 100)] ∧ mem_sanity h = Ok tt.
Proof.
  eassert (H0 : reach _ []) by (apply reach_init; vm_compute; reflexivity).
  eassert (H1 : reach _ [(8, 100)]) by (eapply (reach_malloc _ _ 100); [exact H0|done|vm_compute; reflexivity]).
  eassert (H2 : reach _ [(116, 10); (8, 100)])
    by (eapply (reach_malloc _ _ 10); [exact H1|done|vm_compute; reflexivity]).
  eexists. split; [exact H2|]. exact (mem_sanity_passes _ _ H2).
Defined.
