(* ===== verification/Memp.v ===== *)
(** * Memory pools: core/memp.c

    A pool is an array of equally sized elements; the unused ones form a singly
    linked list through their first word, headed by the variable [*desc->tab].
    MEMP_MEM_MALLOC, MEMP_OVERFLOW_CHECK and MEMP_STATS are 0, so MEMP_SIZE is 0
    and an element is user data while it is allocated: the link of an allocated
    element is at the mercy of its user.  The table [memp_pools], generated from
    priv/memp_std.h, is a parameter [descs]: the theorems hold for every table of
    disjoint pools. *)

From S2P Require Import Prelude.

(** ** Data *)

(** [d_tab] is the address of the variable that heads the pool's free list. *)
Record memp_desc := Desc { d_size : Z; d_num : Z; d_base : Z; d_tab : Z }.

(** [tabs !! a] is the value of the list head at [a], [mnext !! a] the [next]
    field of the [struct memp] at [a]; a NULL pointer is [None]. *)
Record pools := Pools { tabs : gmap Z (option Z); mnext : gmap Z (option Z) }.

Definition MEMP_SIZE : Z := 0.

(** The descriptor LWIP_MEMPOOL_DECLARE(name, num, size, desc) defines. *)
Definition LWIP_MEMPOOL_DECLARE (num size base tab : Z) : memp_desc :=
  Desc (u16 (LWIP_MEM_ALIGN_SIZE size)) num base tab.

Definition set_tab (d : memp_desc) (v : option Z) (s : pools) : pools :=
  Pools (<[d_tab d := v]> (tabs s)) (mnext s).
Definition set_mnext (a : Z) (v : option Z) (s : pools) : pools :=
  Pools (tabs s) (<[a := v]> (mnext s)).

(** ** Operations *)

Fixpoint memp_init_loop (n : nat) (d : memp_desc) (memp : Z) (s : pools) : res pools :=
  match n with
  | O => Ok s
  | S n =>
      head ← deref (tabs s !! d_tab d);
      memp_init_loop n d (memp + MEMP_SIZE + d_size d) (set_tab d (Some memp) (set_mnext memp head s))
  end.

Definition memp_init_pool (d : memp_desc) (s : pools) : res pools :=
  memp_init_loop (Z.to_nat (d_num d)) d (LWIP_MEM_ALIGN (d_base d)) (set_tab d None s).

Fixpoint memp_init (memp_pools : list memp_desc) (s : pools) : res pools :=
  match memp_pools with
  | [] => Ok s
  | d :: memp_pools => s ← memp_init_pool d s; memp_init memp_pools s
  end.

Definition do_memp_malloc_pool (d : memp_desc) (s : pools) : res (option Z * pools) :=
  head ← deref (tabs s !! d_tab d);
  match head with
  | Some memp =>
      nx ← deref (mnext s !! memp);
      let s := set_tab d nx s in
      LWIP_ASSERT (memp mod MEM_ALIGNMENT =? 0);;
      Ok (Some (memp + MEMP_SIZE), s)
  | None => Ok (None, s)
  end.

Definition memp_malloc_pool (desc : option memp_desc) (s : pools) : res (option Z * pools) :=
  match desc with
  | None => Assert
  | Some d => do_memp_malloc_pool d s
  end.

(** [memp_pools !! type] is [None] exactly when [type >= MEMP_MAX]. *)
Definition memp_malloc (memp_pools : list memp_desc) (type : nat) (s : pools) : res (option Z * pools) :=
  match memp_pools !! type with
  | None => Assert
  | Some d => do_memp_malloc_pool d s
  end.

(** Floyd's cycle detection over a free list (compiled with
    MEMP_SANITY_CHECK): the slow pointer [t] and the fast pointer [h]. *)
Fixpoint memp_sanity_loop (fuel : nat) (t h : option Z) (s : pools) : res bool :=
  match fuel with
  | O => Stuck
  | S fuel =>
      match t, h with
      | Some t, Some h =>
          if t =? h then Ok false else
          t' ← deref (mnext s !! t);
          h1 ← deref (mnext s !! h);
          h2 ← (match h1 with Some h1 => deref (mnext s !! h1) | None => Ok None end);
          memp_sanity_loop fuel t' h2 s
      | _, _ => Ok true
      end
  end.

Definition memp_sanity (fuel : nat) (d : memp_desc) (s : pools) : res bool :=
  t ← deref (tabs s !! d_tab d);
  match t with
  | None => Ok true
  | Some a => h ← deref (mnext s !! a); memp_sanity_loop fuel t h s
  end.

Definition do_memp_free_pool (d : memp_desc) (mem : Z) (s : pools) : res pools :=
  LWIP_ASSERT (mem mod MEM_ALIGNMENT =? 0);;
  let memp := mem - MEMP_SIZE in
  head ← deref (tabs s !! d_tab d);
  Ok (set_tab d (Some memp) (set_mnext memp head s)).

Definition memp_free_pool (desc : option memp_desc) (mem : option Z) (s : pools) : res pools :=
  match desc, mem with
  | None, _ => Assert
  | _, None => Ok s
  | Some d, Some mem => do_memp_free_pool d mem s
  end.

Definition memp_free (memp_pools : list memp_desc) (type : nat) (mem : option Z) (s : pools) : res pools :=
  match memp_pools !! type with
  | None => Assert
  | Some d =>
      match mem with
      | None => Ok s
      | Some mem => do_memp_free_pool d mem s
      end
  end.
