(* ===== verification/MempFacts.v ===== *)
(** * Correctness of the memory pools

    The free list of a pool together with the elements its users hold is always
    exactly the set of elements the pool was carved into. *)

From S2P Require Import Prelude Memp.

(** ** Elements *)

Definition elements (d : memp_desc) : list Z :=
  (λ i : nat, LWIP_MEM_ALIGN (d_base d) + Z.of_nat i * d_size d) <$> seq 0 (Z.to_nat (d_num d)).

(** The pool's memory: LWIP_DECLARE_MEMORY_ALIGNED reserves MEM_ALIGNMENT - 1
    bytes more than the elements need. *)
Definition region_end (d : memp_desc) : Z := d_base d + d_num d * d_size d + MEM_ALIGNMENT - 1.

Definition desc_ok (d : memp_desc) : Prop :=
  4 ≤ d_size d ∧ (4 | d_size d) ∧ 0 ≤ d_num d ∧ 0 < d_base d ∧ region_end d < 4294967296.

Definition apart (d d' : memp_desc) : Prop :=
  d_tab d ≠ d_tab d' ∧ (region_end d ≤ d_base d' ∨ region_end d' ≤ d_base d).

Record descs_ok (ds : list memp_desc) : Prop := {
  ds_ok : ∀ i d, ds !! i = Some d → desc_ok d;
  ds_apart : ∀ i j d d', ds !! i = Some d → ds !! j = Some d' → i ≠ j → apart d d'
}.

Lemma LWIP_MEM_ALIGN_range a : 0 ≤ a < 4294967293 → a ≤ LWIP_MEM_ALIGN a ≤ a + 3 ∧ (4 | LWIP_MEM_ALIGN a).
Proof.
  intros Ha. change (LWIP_MEM_ALIGN a) with (LWIP_MEM_ALIGN_SIZE a).
  rewrite LWIP_MEM_ALIGN_SIZE_eq by done. split; [zlia|]. by exists ((a + 3) / 4).
Qed.

Lemma elem_of_elements d a :
  a ∈ elements d ↔ ∃ i : nat, a = LWIP_MEM_ALIGN (d_base d) + Z.of_nat i * d_size d ∧ Z.of_nat i < d_num d.
Proof.
  unfold elements. rewrite list_elem_of_fmap. split; intros (i & -> & Hi); exists i; split; try done.
  - apply elem_of_seq in Hi. lia.
  - apply elem_of_seq. lia.
Qed.

Lemma element_bounds d a :
  desc_ok d → a ∈ elements d →
  d_base d ≤ a ∧ a + d_size d ≤ region_end d ∧ a mod 4 = 0.
Proof.
  intros (Hs & Hd & Hn & Hb & He) (i & -> & Hi)%elem_of_elements.
  unfold region_end, MEM_ALIGNMENT in *.
  destruct (LWIP_MEM_ALIGN_range (d_base d)) as [Hr Hal]; [nia|]. split_and!; [nia|nia|].
  apply Z.mod_divide; [done|]. apply Z.divide_add_r; [done|]. by apply Z.divide_mul_r.
Qed.

Lemma element_apart d a b :
  desc_ok d → a ∈ elements d → b ∈ elements d → a ≠ b → a + d_size d ≤ b ∨ b + d_size d ≤ a.
Proof.
  intros (Hs & _) (i & -> & Hi)%elem_of_elements (j & -> & Hj)%elem_of_elements Hne.
  destruct (decide (i < j)%nat); [left; nia|].
  destruct (decide (j < i)%nat); [right; nia|]. replace j with i in Hne by lia. done.
Qed.

Lemma NoDup_elements d : desc_ok d → NoDup (elements d).
Proof.
  intros (Hs & _). apply NoDup_fmap_2_strong; [|apply NoDup_seq].
  intros i j _ _ H. nia.
Qed.

(** ** Free lists *)

Fixpoint flist (nx : gmap Z (option Z)) (hd : option Z) (l : list Z) : Prop :=
  match l with
  | [] => hd = None
  | a :: l => hd = Some a ∧ ∃ hd', nx !! a = Some hd' ∧ flist nx hd' l
  end.

Lemma flist_ext nx nx' hd l :
  (∀ a, a ∈ l → nx' !! a = nx !! a) → flist nx hd l → flist nx' hd l.
Proof.
  revert hd; induction l as [|a l IH]; simpl; intros hd He H; [done|].
  destruct H as (-> & hd' & Ha & H). split; [done|]. exists hd'. split.
  - rewrite He; [done|by left].
  - apply IH; [|done]. intros b Hb. apply He. by right.
Qed.

Lemma init_loop_ok n d memp s l hd :
  tabs s !! d_tab d = Some hd → flist (mnext s) hd l → 0 < d_size d →
  (∀ a, a ∈ l → a < memp) →
  ∃ s', memp_init_loop n d memp s = Ok s' ∧
    (∃ hd', tabs s' !! d_tab d = Some hd' ∧
            flist (mnext s') hd' (reverse ((λ i : nat, memp + Z.of_nat i * d_size d) <$> seq 0 n) ++ l)) ∧
    (∀ t, t ≠ d_tab d → tabs s' !! t = tabs s !! t) ∧
    (∀ a, a < memp ∨ memp + Z.of_nat n * d_size d ≤ a → mnext s' !! a = mnext s !! a).
Proof.
  revert memp s l hd; induction n as [|n IH]; intros memp s l hd Ht Hl Hs Hlt; cbn [memp_init_loop].
  { exists s. split_and!; try done. by exists hd. }
  rewrite Ht. cbn [deref mbind res_bind].
  edestruct (IH (memp + MEMP_SIZE + d_size d) (set_tab d (Some memp) (set_mnext memp hd s)) (memp :: l))
    as (s' & -> & (hd' & Htab & Hfl) & Hto & Hno); [simpl; by rewrite lookup_insert_eq| |done| |].
  - simpl. split; [done|]. exists hd. rewrite lookup_insert_eq. split; [done|].
    eapply flist_ext; [|done]. intros a Ha. simpl. rewrite lookup_insert_ne; [done|].
    specialize (Hlt _ Ha). lia.
  - unfold MEMP_SIZE. intros a [->|Ha]%elem_of_cons; [lia|]. specialize (Hlt _ Ha). lia.
  - exists s'. split; [done|]. unfold MEMP_SIZE in *. split_and!.
    + exists hd'. split; [done|]. cbn [seq fmap list_fmap]. rewrite reverse_cons, <-app_assoc.
      replace (memp + Z.of_nat 0 * d_size d) with memp by lia.
      replace ((λ i : nat, memp + Z.of_nat i * d_size d) <$> seq 1 n)
        with ((λ i : nat, memp + 0 + d_size d + Z.of_nat i * d_size d) <$> seq 0 n); [done|].
      rewrite <-fmap_S_seq, <-list_fmap_compose. apply list_fmap_ext. intros ? x _. simpl. lia.
    + intros t Hne. rewrite Hto by done. simpl. by rewrite lookup_insert_ne.
    + intros a Ha. rewrite Hno by lia. simpl. rewrite lookup_insert_ne; [done|lia].
Qed.

(** ** Runs of the pools *)

Section pools.
Context (ds : list memp_desc).

(** The elements of pool [i] among all that are held. *)
Definition held_of (i : nat) (L : list (nat * Z)) : list Z := (filter (λ x, x.1 = i) L).*2.

Definition pool_inv (s : pools) (L : list (nat * Z)) (i : nat) (d : memp_desc) : Prop :=
  ∃ hd fl, tabs s !! d_tab d = Some hd ∧ flist (mnext s) hd fl ∧ fl ++ held_of i L ≡ₚ elements d.

Definition pools_inv (s : pools) (L : list (nat * Z)) : Prop :=
  (∀ i d, ds !! i = Some d → pool_inv s L i d) ∧ (∀ i a, (i, a) ∈ L → is_Some (ds !! i)).

(** A user writes into the element it holds: every [struct memp] image that
    overlaps the element may change. *)
Definition elem_write (d : memp_desc) (a : Z) (s s' : pools) : Prop :=
  tabs s' = tabs s ∧ ∀ b, b + 4 ≤ a ∨ a + d_size d ≤ b → mnext s' !! b = mnext s !! b.

Inductive reach_pools : pools → list (nat * Z) → Prop :=
| rp_init s :
    memp_init ds (Pools ∅ ∅) = Ok s → reach_pools s []
| rp_malloc s L i a s' :
    reach_pools s L → memp_malloc ds i s = Ok (Some a, s') → reach_pools s' ((i, a) :: L)
| rp_malloc_null s L i s' :
    reach_pools s L → memp_malloc ds i s = Ok (None, s') → reach_pools s' L
| rp_free s L1 L2 i a s' :
    reach_pools s (L1 ++ (i, a) :: L2) → memp_free ds i (Some a) s = Ok s' → reach_pools s' (L1 ++ L2)
| rp_write s L i d a s' :
    reach_pools s L → (i, a) ∈ L → ds !! i = Some d → elem_write d a s s' → reach_pools s' L.

Hypothesis Hds : descs_ok ds.

Lemma held_in s L i a d :
  pools_inv s L → (i, a) ∈ L → ds !! i = Some d → a ∈ elements d.
Proof.
  intros [Hp _] Ha Hd. destruct (Hp _ _ Hd) as (hd & fl & _ & _ & Hperm). rewrite <-Hperm.
  apply elem_of_app. right. unfold held_of. apply list_elem_of_fmap. exists (i, a). split; [done|].
  apply list_elem_of_filter. done.
Qed.

(** Elements of two different pools do not overlap. *)
Lemma elements_apart i j d d' a b :
  ds !! i = Some d → ds !! j = Some d' → a ∈ elements d → b ∈ elements d' → (i, a) ≠ (j, b) →
  a + d_size d ≤ b ∨ b + d_size d' ≤ a.
Proof.
  intros Hi Hj Ha Hb Hne. pose proof (ds_ok _ Hds _ _ Hi) as Hok. pose proof (ds_ok _ Hds _ _ Hj) as Hok'.
  destruct (decide (i = j)) as [->|Hij].
  - simplify_eq. apply element_apart; try done. naive_solver.
  - destruct (element_bounds _ _ Hok Ha) as (? & ? & _). destruct (element_bounds _ _ Hok' Hb) as (? & ? & _).
    destruct (ds_apart _ Hds _ _ _ _ Hi Hj Hij) as [_ [?|?]]; lia.
Qed.

Lemma held_of_cons_eq i a L : held_of i ((i, a) :: L) = a :: held_of i L.
Proof. unfold held_of. by rewrite filter_cons_True. Qed.

Lemma held_of_cons_ne i j a L : i ≠ j → held_of i ((j, a) :: L) = held_of i L.
Proof. intros Hne. unfold held_of. rewrite filter_cons_False; [done|]. simpl. congruence. Qed.

Lemma held_of_Permutation i L L' : L ≡ₚ L' → held_of i L ≡ₚ held_of i L'.
Proof. intros H. unfold held_of. by rewrite H. Qed.

Lemma memp_malloc_ok s L i d :
  pools_inv s L → ds !! i = Some d →
  ∃ r s', memp_malloc ds i s = Ok (r, s') ∧
    match r with
    | Some a => pools_inv s' ((i, a) :: L)
    | None => s' = s ∧ Z.of_nat (length (held_of i L)) = d_num d
    end.
Proof.
  intros Hinv Hd. pose proof Hinv as [Hp HL]. pose proof (ds_ok _ Hds _ _ Hd) as Hok.
  destruct (Hp _ _ Hd) as (hd & fl & Ht & Hfl & Hperm).
  unfold memp_malloc. rewrite Hd. unfold do_memp_malloc_pool. rewrite Ht. cbn [deref mbind res_bind].
  destruct fl as [|a fl].
  - simpl in Hfl. subst hd. exists None, s. split_and!; [done|done|]. simpl in Hperm.
    rewrite Hperm. unfold elements. rewrite length_fmap, length_seq. destruct Hok as (_ & _ & ? & _). lia.
  - destruct Hfl as (-> & hd' & Hn & Hfl). rewrite Hn. cbn [deref mbind res_bind].
    assert (Ha : a ∈ elements d) by (rewrite <-Hperm; by left).
    destruct (element_bounds _ _ Hok Ha) as (_ & _ & Hal).
    unfold MEM_ALIGNMENT. rewrite Hal. cbn [Z.eqb LWIP_ASSERT mbind res_bind].
    eexists (Some _), _. split; [done|]. unfold MEMP_SIZE. rewrite Z.add_0_r. split.
    + intros j d' Hj. destruct (decide (j = i)) as [->|Hne].
      * simplify_eq. exists hd', fl. simpl. rewrite lookup_insert_eq. split_and!; [done|done|].
        rewrite held_of_cons_eq, <-Hperm. by rewrite <-Permutation_middle.
      * destruct (Hp _ _ Hj) as (hd2 & fl2 & Ht2 & Hfl2 & Hperm2). exists hd2, fl2. simpl.
        destruct (ds_apart _ Hds _ _ _ _ Hd Hj) as [Htne _]; [done|].
        rewrite lookup_insert_ne by done. split_and!; [done|done|]. by rewrite held_of_cons_ne.
    + intros j b [Heq|Hin]%elem_of_cons; [|by eapply HL]. simplify_eq. eauto.
Qed.

Lemma memp_free_ok s L1 L2 i a :
  pools_inv s (L1 ++ (i, a) :: L2) →
  ∃ s', memp_free ds i (Some a) s = Ok s' ∧ pools_inv s' (L1 ++ L2).
Proof.
  intros Hinv. pose proof Hinv as [Hp HL].
  assert (Hin : (i, a) ∈ L1 ++ (i, a) :: L2) by set_solver.
  destruct (HL _ _ Hin) as [d Hd]. pose proof (ds_ok _ Hds _ _ Hd) as Hok.
  pose proof (held_in _ _ _ _ _ Hinv Hin Hd) as Ha.
  destruct (Hp _ _ Hd) as (hd & fl & Ht & Hfl & Hperm).
  destruct (element_bounds _ _ Hok Ha) as (_ & _ & Hal).
  unfold memp_free. rewrite Hd. unfold do_memp_free_pool, MEM_ALIGNMENT, MEMP_SIZE. rewrite Hal, Ht, Z.sub_0_r.
  cbn [Z.eqb LWIP_ASSERT deref mbind res_bind]. eexists. split; [done|].
  assert (Hmid : ∀ j, held_of j (L1 ++ (i, a) :: L2) ≡ₚ held_of j ((i, a) :: L1 ++ L2)).
  { intros j. apply held_of_Permutation. by rewrite Permutation_middle. }
  split.
  - intros j d' Hj. destruct (decide (j = i)) as [->|Hne].
    + simplify_eq. rewrite Hmid, held_of_cons_eq in Hperm.
      exists (Some a), (a :: fl). simpl. rewrite lookup_insert_eq. split; [done|split].
      * split; [done|]. exists hd. rewrite lookup_insert_eq. split; [done|].
        eapply flist_ext; [|done]. intros b Hb. rewrite lookup_insert_ne; [done|]. intros <-.
        pose proof (NoDup_elements _ Hok) as Hnd. rewrite <-Hperm, <-Permutation_middle in Hnd.
        apply NoDup_cons in Hnd as [Hnin _]. apply Hnin. apply elem_of_app. by left.
      * rewrite <-Hperm. by rewrite <-Permutation_middle.
    + destruct (Hp _ _ Hj) as (hd2 & fl2 & Ht2 & Hfl2 & Hperm2). exists hd2, fl2. simpl.
      destruct (ds_apart _ Hds _ _ _ _ Hd Hj) as [Htne _]; [done|].
      rewrite lookup_insert_ne by done. rewrite Hmid, held_of_cons_ne in Hperm2 by done. split_and!; [done| |done].
      eapply flist_ext; [|done]. intros b Hb. rewrite lookup_insert_ne; [done|]. intros <-.
      assert (Hb' : a ∈ elements d') by (rewrite <-Hperm2; apply elem_of_app; by left).
      pose proof (ds_ok _ Hds _ _ Hj) as [? _]. pose proof Hok as [? _].
      destruct (elements_apart _ _ _ _ _ _ Hd Hj Ha Hb'); [naive_solver|lia..].
  - intros j b Hjb. apply (HL j b). set_solver.
Qed.

Lemma elem_write_ok s L i d a s' :
  pools_inv s L → (i, a) ∈ L → ds !! i = Some d → elem_write d a s s' → pools_inv s' L.
Proof.
  intros Hinv Hin Hd [Ht Hw]. pose proof Hinv as [Hp HL]. split; [|done].
  pose proof (held_in _ _ _ _ _ Hinv Hin Hd) as Ha.
  intros j d' Hj. destruct (Hp _ _ Hj) as (hd & fl & Htab & Hfl & Hperm).
  exists hd, fl. rewrite Ht. split_and!; [done| |done]. eapply flist_ext; [|done].
  intros b Hb. apply Hw. assert (Hb' : b ∈ elements d') by (rewrite <-Hperm; apply elem_of_app; by left).
  pose proof (ds_ok _ Hds _ _ Hj) as Hok'. pose proof Hok' as [? _].
  destruct (elements_apart _ _ _ _ _ _ Hd Hj Ha Hb'); [|lia..].
  intros ?. simplify_eq. pose proof (NoDup_elements _ Hok') as Hnd. rewrite <-Hperm in Hnd.
  apply NoDup_app in Hnd as (_ & Hnd & _). apply (Hnd _ Hb). unfold held_of.
  apply list_elem_of_fmap. exists (j, b). split; [done|]. by apply list_elem_of_filter.
Qed.

Lemma init_pool_ok d s :
  desc_ok d →
  ∃ s', memp_init_pool d s = Ok s' ∧
    (∃ hd fl, tabs s' !! d_tab d = Some hd ∧ flist (mnext s') hd fl ∧ fl ≡ₚ elements d) ∧
    (∀ t, t ≠ d_tab d → tabs s' !! t = tabs s !! t) ∧
    (∀ a, a < d_base d ∨ region_end d ≤ a → mnext s' !! a = mnext s !! a).
Proof.
  intros (Hs & _ & Hn & Hb & He). unfold memp_init_pool, region_end, MEM_ALIGNMENT in *.
  destruct (LWIP_MEM_ALIGN_range (d_base d)) as [Hr _]; [nia|].
  edestruct (init_loop_ok (Z.to_nat (d_num d)) d (LWIP_MEM_ALIGN (d_base d)) (set_tab d None s) [] None)
    as (s' & -> & (hd & Ht & Hfl) & Hto & Hno); [simpl; by rewrite lookup_insert_eq|done|lia|set_solver|].
  exists s'. split; [done|]. split_and!.
  - exists hd, (reverse (elements d) ++ []). split_and!; [done|done|].
    rewrite app_nil_r. apply reverse_Permutation.
  - intros t Hne. rewrite Hto by done. simpl. by rewrite lookup_insert_ne.
  - intros a Ha. apply Hno. nia.
Qed.

Lemma memp_init_ok : ∃ s, memp_init ds (Pools ∅ ∅) = Ok s ∧ pools_inv s [].
Proof.
  assert (Hgen : ∀ post pre s, ds = pre ++ post → (∀ i d, pre !! i = Some d → pool_inv s [] i d) →
            ∃ s', memp_init post s = Ok s' ∧ ∀ i d, ds !! i = Some d → pool_inv s' [] i d).
  { induction post as [|d post IH]; intros pre s Heq Hpre; cbn [memp_init].
    { exists s. split; [done|]. by rewrite Heq, app_nil_r. }
    assert (Hd : ds !! length pre = Some d) by (by rewrite Heq, list_lookup_middle).
    pose proof (ds_ok _ Hds _ _ Hd) as Hok.
    destruct (init_pool_ok d s Hok) as (s1 & -> & (hd & fl & Ht & Hfl & Hperm) & Hto & Hno).
    cbn [mbind res_bind]. apply (IH (pre ++ [d])); [by rewrite Heq, <-app_assoc|].
    intros i d' Hi. apply lookup_snoc_Some in Hi as [[Hlt Hi]|[-> <-]].
    - destruct (Hpre _ _ Hi) as (hd2 & fl2 & Ht2 & Hfl2 & Hperm2). exists hd2, fl2.
      assert (Hi' : ds !! i = Some d') by (rewrite Heq, lookup_app_l by done; done).
      destruct (ds_apart _ Hds _ _ _ _ Hi' Hd) as [Htne Hreg]; [lia|].
      rewrite Hto by done. split_and!; [done| |done]. eapply flist_ext; [|done].
      intros a Ha. apply Hno. unfold held_of in Hperm2. simpl in Hperm2. rewrite app_nil_r in Hperm2.
      assert (Ha' : a ∈ elements d') by (by rewrite <-Hperm2). pose proof (ds_ok _ Hds _ _ Hi') as Hok'.
      destruct (element_bounds _ _ Hok' Ha') as (? & ? & _). destruct Hok' as [? _]. lia.
    - exists hd, fl. unfold held_of. simpl. by rewrite app_nil_r. }
  destruct (Hgen ds [] (Pools ∅ ∅)) as (s & Hs & Hinv); [done|by intros|].
  exists s. split; [done|]. split; [done|]. intros i a Hin. by apply not_elem_of_nil in Hin.
Qed.

Lemma reach_pools_inv s L : reach_pools s L → pools_inv s L.
Proof.
  induction 1 as [s Hi|s L i a s' _ IH Hm|s L i s' _ IH Hm|s L1 L2 i a s' _ IH Hf|s L i d a s' _ IH Hin Hd Hw].
  - destruct memp_init_ok as (s0 & Hi' & Hinv). rewrite Hi' in Hi. by simplify_eq.
  - destruct (ds !! i) as [d|] eqn:Hd; [|unfold memp_malloc in Hm; by rewrite Hd in Hm].
    destruct (memp_malloc_ok _ _ _ _ IH Hd) as (r & s2 & Hm' & Hr). rewrite Hm' in Hm. by simplify_eq.
  - destruct (ds !! i) as [d|] eqn:Hd; [|unfold memp_malloc in Hm; by rewrite Hd in Hm].
    destruct (memp_malloc_ok _ _ _ _ IH Hd) as (r & s2 & Hm' & Hr). rewrite Hm' in Hm. simplify_eq.
    by destruct Hr as [-> _].
  - destruct (memp_free_ok _ _ _ _ _ IH) as (s2 & Hf' & Hinv). rewrite Hf' in Hf. by simplify_eq.
  - by eapply elem_write_ok.
Qed.

Lemma held_NoDup s L : pools_inv s L → NoDup L.
Proof.
  intros [Hp HL].
  assert (Hof : ∀ i, NoDup (held_of i L)).
  { intros i. destruct (decide (held_of i L = [])) as [->|Hne]; [constructor|].
    destruct (ds !! i) as [d|] eqn:Hd.
    - destruct (Hp _ _ Hd) as (_ & fl & _ & _ & Hperm). pose proof (NoDup_elements _ (ds_ok _ Hds _ _ Hd)) as Hnd.
      rewrite <-Hperm in Hnd. by apply NoDup_app in Hnd as (_ & _ & Hnd).
    - destruct (held_of i L) as [|a l] eqn:E; [done|].
      assert (Ha : a ∈ held_of i L) by (rewrite E; by left). unfold held_of in Ha.
      apply list_elem_of_fmap in Ha as ([j b] & -> & [Hj Hin]%list_elem_of_filter). simpl in *. subst j.
      destruct (HL _ _ Hin) as [? ?]. congruence. }
  clear Hp HL. induction L as [|[i a] L IH]; [constructor|].
  constructor.
  - intros Hin. specialize (Hof i). rewrite held_of_cons_eq in Hof. apply NoDup_cons in Hof as [Hn _].
    apply Hn. unfold held_of. apply list_elem_of_fmap. exists (i, a). split; [done|]. by apply list_elem_of_filter.
  - apply IH. intros j. specialize (Hof j). destruct (decide (j = i)) as [->|Hne].
    + rewrite held_of_cons_eq in Hof. by apply NoDup_cons in Hof as [_ ?].
    + by rewrite held_of_cons_ne in Hof.
Qed.

(** C4: the pools are safe and fair.  After memp_init, in every state reached by
    any interleaving of memp_malloc, memp_free of elements held and arbitrary
    writes into elements held: the elements held are aligned, lie inside the memory
    of their pool and do not overlap, across all pools; every element held can be
    put back, and a request is refused exactly when all elements of that pool are
    held, so no element is ever lost. *)
Theorem pools_runs_safe s L :
  reach_pools s L →
  (∀ i a, (i, a) ∈ L → ∃ d, ds !! i = Some d ∧ a mod 4 = 0 ∧ d_base d ≤ a ∧ a + d_size d ≤ region_end d ∧
                            ∃ s', memp_free ds i (Some a) s = Ok s') ∧
  (∀ k l i j a b d d', L !! k = Some (i, a) → L !! l = Some (j, b) → k ≠ l →
     ds !! i = Some d → ds !! j = Some d' → a + d_size d ≤ b ∨ b + d_size d' ≤ a) ∧
  (∀ i d, ds !! i = Some d → ∃ r s', memp_malloc ds i s = Ok (r, s') ∧
     (r = None ↔ Z.of_nat (length (held_of i L)) = d_num d)).
Proof.
  intros Hr. apply reach_pools_inv in Hr as Hinv. split_and!.
  - intros i a Hin. pose proof Hinv as [_ HL]. destruct (HL _ _ Hin) as [d Hd]. exists d.
    destruct (element_bounds d a) as (? & ? & ?); [by eapply ds_ok|by eapply held_in|].
    split_and!; try done. apply list_elem_of_split in Hin as (L1 & L2 & ->).
    destruct (memp_free_ok _ _ _ _ _ Hinv) as (s' & ? & _). eauto.
  - intros k l i j a b d d' Hk Hl Hne Hi Hj.
    eapply elements_apart; [done|done|eapply held_in; [done|by eapply list_elem_of_lookup_2|done]..|].
    intros Heq. apply Hne. eapply NoDup_lookup; [by eapply held_NoDup|done|congruence].
  - intros i d Hd. destruct (memp_malloc_ok _ _ _ _ Hinv Hd) as (r & s' & Hm & Hres).
    exists r, s'. split; [done|]. destruct r as [a|]; [|by destruct Hres].
    split; [done|]. intros Hlen. destruct Hres as [Hp _]. destruct (Hp _ _ Hd) as (_ & fl & _ & _ & Hperm).
    apply Permutation_length in Hperm. rewrite held_of_cons_eq, length_app in Hperm. unfold elements in Hperm.
    rewrite length_fmap, length_seq in Hperm. simpl in Hperm. lia.
Qed.
End pools.

(** Two pools as LWIP_MEMPOOL_DECLARE lays them out. *)
Definition sample_pools : list memp_desc :=
  [LWIP_MEMPOOL_DECLARE 2 30 1001 4; LWIP_MEMPOOL_DECLARE 3 100 2002 8].

Lemma sample_pools_ok : descs_ok sample_pools.
Proof.
  split.
  - intros [|[|i]] d Hd; vm_compute in Hd; simplify_eq; (split_and!; [done| |done..]);
      [by exists 8|by exists 25].
  - intros [|[|i]] [|[|j]] d d' Hd Hd' Hne; try done; vm_compute in Hd, Hd'; simplify_eq;
      (split; [done|]); vm_compute; [left|right]; discriminate.
Qed.

Lemma pools_runs_safe_witness :
  ∃ s, reach_pools sample_pools s [(0%nat, 1036); (1%nat, 2204)] ∧
  ∃ r s', memp_malloc sample_pools 0 s = Ok (r, s') ∧
     (r = None ↔ Z.of_nat (length (held_of 0 [(0%nat, 1036); (1%nat, 2204)])) = 2).
Proof.
  eassert (H0 : reach_pools sample_pools _ []) by (apply rp_init; vm_compute; reflexivity).
  eassert (H1 : reach_pools sample_pools _ [(1%nat, 2204)])
    by (eapply (rp_malloc _ _ _ 1 2204); [exact H0|vm_compute; reflexivity]).
  eassert (H2 : reach_pools sample_pools _ [(0%nat, 1036); (1%nat, 2204)])
    by (eapply (rp_malloc _ _ _ 0 1036); [exact H1|vm_compute; reflexivity]).
  eexists. split; [exact H2|].
  destruct (pools_runs_safe sample_pools sample_pools_ok _ _ H2) as (_ & _ & Hm).
  exact (Hm 0%nat _ eq_refl).
Defined.

(** ** The cycle check *)

Lemma flist_lookup nx hd l (i : nat) a :
  flist nx hd l → l !! i = Some a → nx !! a = Some (l !! S i).
Proof.
  revert hd i; induction l as [|b l IH]; intros hd i H Hi; [done|].
  destruct H as (-> & hd' & Hb & H). destruct i as [|i]; simplify_eq/=; [|by eapply IH].
  rewrite Hb. destruct l; simpl in *; [by subst|by destruct H as [-> _]].
Qed.

(** On a list without repetitions the fast pointer stays ahead. *)
Lemma sanity_loop_acyclic s hd l fuel (i : nat) :
  flist (mnext s) hd l → NoDup l → (length l < fuel + i)%nat → (i ≤ length l)%nat →
  memp_sanity_loop fuel (l !! i) (l !! (2 * i + 1)%nat) s = Ok true.
Proof.
  intros Hl Hnd. revert i; induction fuel as [|fuel IH]; intros i Hf Hi; [lia|].
  cbn [memp_sanity_loop]. destruct (l !! i) as [t|] eqn:Et; [|done].
  destruct (l !! (2 * i + 1)%nat) as [h|] eqn:Eh; [|done].
  destruct (t =? h) eqn:E; breflect.
  { subst h. assert (i = 2 * i + 1)%nat by (by eapply NoDup_lookup). lia. }
  rewrite (flist_lookup _ _ _ _ _ Hl Et), (flist_lookup _ _ _ _ _ Hl Eh). cbn [deref mbind res_bind].
  pose proof (lookup_lt_Some _ _ _ Et).
  specialize (IH (S i) ltac:(lia) ltac:(lia)). replace (2 * S i + 1)%nat with (S (S (2 * i + 1))) in IH by lia.
  destruct (l !! S (2 * i + 1)) as [h1|] eqn:E1; cbn [deref mbind res_bind].
  - by rewrite (flist_lookup _ _ _ _ _ Hl E1).
  - by rewrite (lookup_ge_None_2 l (S (S (2 * i + 1)))) in IH by (apply lookup_ge_None_1 in E1; lia).
Qed.

(** On a walk that enters a circle the two pointers meet. *)
Lemma sanity_loop_cyclic s (x : nat → Z) (k fuel i : nat) :
  (∀ j, mnext s !! x j = Some (Some (x (S j)))) → x k = x (2 * k + 1)%nat →
  (i ≤ k)%nat → (k < fuel + i)%nat →
  memp_sanity_loop fuel (Some (x i)) (Some (x (2 * i + 1)%nat)) s = Ok false.
Proof.
  intros Hx Hk. revert i; induction fuel as [|fuel IH]; intros i Hi Hf; [lia|].
  cbn [memp_sanity_loop]. destruct (_ =? _) eqn:E; [done|]. breflect.
  rewrite !Hx. cbn [deref mbind res_bind]. rewrite Hx. cbn [deref].
  replace (S (S (2 * i + 1))) with (2 * S i + 1)%nat by lia. apply IH; [|lia].
  destruct (decide (i = k)) as [->|]; [congruence|lia].
Qed.

Lemma periodic (x : nat → Z) (mu la : nat) s :
  (∀ j, mnext s !! x j = Some (Some (x (S j)))) → x (mu + la)%nat = x mu →
  ∀ n j, (mu ≤ j)%nat → x (j + n * la)%nat = x j.
Proof.
  intros Hx Hp. assert (H1 : ∀ j, (mu ≤ j)%nat → x (j + la)%nat = x j).
  { intros j Hj. replace j with (mu + (j - mu))%nat by lia. induction (j - mu)%nat as [|m IH].
    - by rewrite Nat.add_0_r.
    - pose proof (Hx (mu + m)%nat) as Ha. pose proof (Hx (mu + m + la)%nat) as Hb. rewrite IH in Hb.
      replace (mu + S m + la)%nat with (S (mu + m + la)) by lia.
      replace (mu + S m)%nat with (S (mu + m)) by lia. congruence. }
  induction n as [|n IH]; intros j Hj; [f_equal; lia|].
  replace (j + S n * la)%nat with (j + n * la + la)%nat by lia. rewrite H1 by lia. by apply IH.
Qed.

(** the cycle check is exact.  memp_sanity terminates: on the free list of
    a pool in every reachable state it returns 1, within one step per element; on a
    list that runs into a circle (entered after [mu] links, [la] links long) it
    returns 0 after at most [mu + la] steps. *)
Theorem memp_sanity_exact ds s L :
  descs_ok ds → reach_pools ds s L →
  (∀ i d fuel, ds !! i = Some d → (Z.to_nat (d_num d) < fuel)%nat → memp_sanity fuel d s = Ok true) ∧
  (∀ d s' (x : nat → Z) mu la fuel,
     tabs s' !! d_tab d = Some (Some (x 0%nat)) → (∀ j, mnext s' !! x j = Some (Some (x (S j)))) →
     (0 < la)%nat → x (mu + la)%nat = x mu → (mu + la < fuel)%nat →
     memp_sanity fuel d s' = Ok false).
Proof.
  intros Hds Hr. apply (reach_pools_inv _ Hds) in Hr as Hinv. split.
  - intros i d fuel Hd Hf. destruct Hinv as [Hp _]. destruct (Hp _ _ Hd) as (hd & fl & Ht & Hfl & Hperm).
    pose proof (NoDup_elements _ (ds_ok _ Hds _ _ Hd)) as Hnd. rewrite <-Hperm in Hnd.
    apply NoDup_app in Hnd as (Hnd & _ & _).
    assert (Hlen : (length fl ≤ Z.to_nat (d_num d))%nat).
    { apply Permutation_length in Hperm. unfold elements in Hperm.
      rewrite length_app, length_fmap, length_seq in Hperm. lia. }
    unfold memp_sanity. rewrite Ht. cbn [deref mbind res_bind]. destruct fl as [|a fl]; [by simpl in Hfl; subst|].
    pose proof (flist_lookup _ _ _ 0 a Hfl eq_refl) as Ha. pose proof Hfl as (-> & _). rewrite Ha.
    cbn [deref mbind res_bind]. apply (sanity_loop_acyclic s (Some a) (a :: fl) fuel 0); try done; simpl in *; lia.
  - intros d s' x mu la fuel Ht Hx Hla Hp Hf. unfold memp_sanity. rewrite Ht. cbn [deref mbind res_bind].
    rewrite Hx. cbn [deref mbind res_bind].
    set (k := (la * S (mu / la) - 1)%nat).
    assert (Hk : (mu ≤ k ∧ k < mu + la)%nat).
    { subst k. pose proof (Nat.div_mod mu la ltac:(lia)). pose proof (Nat.mod_upper_bound mu la ltac:(lia)). nia. }
    apply (sanity_loop_cyclic s' x k fuel 0); [done| |lia|lia].
    pose proof (periodic x mu la s' Hx Hp (S (mu / la)) k ltac:(lia)) as Hper. rewrite <-Hper. f_equal. subst k. lia.
Qed.

Lemma memp_sanity_exact_witness :
  ∃ s, reach_pools sample_pools s [] ∧ memp_sanity 4 (LWIP_MEMPOOL_DECLARE 3 100 2002 8) s = Ok true ∧
  memp_sanity 4 (LWIP_MEMPOOL_DECLARE 3 100 2002 8)
    (Pools {[8 := Some 2004]} (<[2004 := Some 2104]> {[2104 := Some 2004]})) = Ok false.
Proof.
  eassert (H0 : reach_pools sample_pools _ []) by (apply rp_init; vm_compute; reflexivity).
  eexists. split; [exact H0|].
  destruct (memp_sanity_exact sample_pools _ _ sample_pools_ok H0) as [Hok Hcyc]. split.
  - exact (Hok 1%nat _ 4%nat eq_refl ltac:(vm_compute; lia)).
  - apply (Hcyc _ _ (λ n, if Nat.even n then 2004 else 2104) 0%nat 2%nat); [done| |lia|done|lia].
    intros j. rewrite Nat.even_succ, <-Nat.negb_even. by destruct (Nat.even j).
Defined.
