(* ===== verification/MempPool.v ===== *)
(** * One pool as its user sees it

    A component that keeps its structs in a pool of memp.c (the timers, the
    reassembly of fragments) uses the class [Pool] and relies on [PoolLaws]: an
    element handed out is held by nobody else, every element held can be given
    back, and after that there is one to be handed out.  Pool number [i] of a table of pools satisfies them. *)

From S2P Require Import Prelude Memp MempFacts.

Class Pool (P : Type) := {
  pool_malloc : P → res (option Z * P);
  pool_free : Z → P → res P
}.

(** ** What the pool promises *)

Class PoolLaws (P : Type) `{Pool P} := {
  (** the elements held by the user of the pool *)
  pool_ok : P → list Z → Prop;
  pool_nodup p L : pool_ok p L → NoDup L;
  pool_perm p L L' : L ≡ₚ L' → pool_ok p L → pool_ok p L';
  pool_malloc_ok p L : pool_ok p L → ∃ r p', pool_malloc p = Ok (r, p') ∧
    match r with Some a => pool_ok p' (a :: L) | None => p' = p end;
  pool_free_ok p a L L' : pool_ok p L → L ≡ₚ a :: L' → ∃ p', pool_free a p = Ok p' ∧ pool_ok p' L' ∧
    ∃ b q, pool_malloc p' = Ok (Some b, q)
}.

(** ** The pools of memp.c *)

(** The state of the pools, indexed by the table and the number of the pool. *)
Definition pools_at (ds : list memp_desc) (i : nat) : Type := pools.

#[global] Instance pool_memp ds i : Pool (pools_at ds i) := {|
  pool_malloc := memp_malloc ds i;
  pool_free a := memp_free ds i (Some a) |}.

Section memp_laws.
Context (ds : list memp_desc) (i : nat) (d : memp_desc) (Hds : descs_ok ds) (Hd : ds !! i = Some d).

Definition holds (s : pools) (L : list Z) : Prop := ∃ L0, pools_inv ds s L0 ∧ held_of i L0 ≡ₚ L.

Lemma holds_nodup s L : holds s L → NoDup L.
Proof.
  intros (L0 & [Hp _] & HL). destruct (Hp _ _ Hd) as (hd & fl & _ & _ & Hperm).
  pose proof (NoDup_elements _ (ds_ok _ Hds _ _ Hd)) as Hnd. rewrite <-Hperm in Hnd.
  apply NoDup_app in Hnd as (_ & _ & Hnd). by rewrite HL in Hnd.
Qed.

Lemma holds_malloc s L : holds s L → ∃ r s', memp_malloc ds i s = Ok (r, s') ∧
  match r with Some a => holds s' (a :: L) | None => s' = s end.
Proof.
  intros (L0 & Hinv & HL). destruct (memp_malloc_ok ds Hds s L0 i d Hinv Hd) as (r & s' & -> & Hr).
  exists r, s'. split; [done|]. destruct r as [a|]; [|by destruct Hr].
  exists ((i, a) :: L0). split; [done|]. by rewrite held_of_cons_eq, HL.
Qed.

Lemma held_of_middle L1 L2 a : held_of i (L1 ++ (i, a) :: L2) ≡ₚ a :: held_of i (L1 ++ L2).
Proof. rewrite <-held_of_cons_eq. apply held_of_Permutation. by rewrite Permutation_middle. Qed.

Lemma held_bound s L0 : pools_inv ds s L0 → Z.of_nat (length (held_of i L0)) ≤ d_num d.
Proof.
  intros [Hp _]. destruct (Hp _ _ Hd) as (hd & fl & _ & _ & Hperm). apply Permutation_length in Hperm.
  rewrite length_app in Hperm. unfold elements in Hperm. rewrite length_fmap, length_seq in Hperm.
  destruct (ds_ok _ Hds _ _ Hd) as (_ & _ & ? & _). lia.
Qed.

Lemma holds_free s a L L' : holds s L → L ≡ₚ a :: L' →
  ∃ s', memp_free ds i (Some a) s = Ok s' ∧ holds s' L' ∧ ∃ b q, memp_malloc ds i s' = Ok (Some b, q).
Proof.
  intros (L0 & Hinv & HL) Hperm.
  assert (Hin : a ∈ held_of i L0) by (rewrite HL, Hperm; by left).
  unfold held_of in Hin. apply list_elem_of_fmap in Hin as ([j b] & -> & Hin).
  apply list_elem_of_filter in Hin as [Hj Hin]. simpl in *. subst j.
  apply list_elem_of_split in Hin as (L1 & L2 & ->).
  destruct (memp_free_ok ds Hds s L1 L2 i b Hinv) as (s' & -> & Hinv').
  exists s'. split; [done|]. split.
  { exists (L1 ++ L2). split; [done|]. apply (Permutation_cons_inv (a := b)). by rewrite <-held_of_middle, HL, Hperm. }
  destruct (memp_malloc_ok ds Hds s' _ i d Hinv' Hd) as ([c|] & q & Hm & Hr); [by exists c, q|]. exfalso. destruct Hr as [_ Hr].
  pose proof (held_bound _ _ Hinv) as Hb. rewrite (Permutation_length (held_of_middle L1 L2 b)) in Hb. cbn [length] in Hb. lia.
Qed.

Definition memp_pool_laws : PoolLaws (pools_at ds i).
Proof.
  refine {| pool_ok := (holds : pools_at ds i → list Z → Prop) |}.
  - exact holds_nodup.
  - intros p L L' HLL (L0 & Hinv & HL). exists L0. split; [done|]. by rewrite HL, HLL.
  - exact holds_malloc.
  - exact holds_free.
Defined.

End memp_laws.
