(* ===== verification/Pbuf.v ===== *)
(** * Packet buffers: core/pbuf.c

    A packet is a chain of [struct pbuf]s.  The state holds the structs in use
    ([pb], by address), the bytes of memory ([dat]), the state of the allocators
    ([al]) and the flag [pbuf_free_ooseq_pending].  The allocators (mem.c, memp.c
    and the free functions of custom pbufs) are reached through the class
    [Allocator]; PbufAlloc.v instantiates it.  A struct leaves [pb] when it is
    freed, so that using it afterwards is undefined behaviour.

    Pointers to pbufs are [option Z]; payload and buffer pointers are plain
    addresses with 0 for NULL.  Configuration: LWIP_SUPPORT_CUSTOM_PBUF 1,
    LWIP_PBUF_REF_T u8_t, TCP_MSS 536, IPv6 on, NO_SYS 1. *)

From S2P Require Import Prelude ByteMem.

(** ** Data *)

Record pbuf := Pbuf {
  next : option Z; payload : Z; tot_len : Z; len : Z;
  type_internal : Z; flags : Z; ref : Z; if_idx : Z }.

#[global] Instance pbuf_eq_dec : EqDecision pbuf.
Proof. solve_decision. Defined.

Definition SIZEOF_STRUCT_PBUF : Z := LWIP_MEM_ALIGN_SIZE 16.
Definition TCP_MSS : Z := 536.
Definition PBUF_LINK_ENCAPSULATION_HLEN : Z := 0.
Definition PBUF_LINK_HLEN : Z := 14.
Definition PBUF_IP_HLEN : Z := 40.
Definition PBUF_TRANSPORT_HLEN : Z := 20.
Definition PBUF_POOL_BUFSIZE : Z :=
  LWIP_MEM_ALIGN_SIZE (TCP_MSS + 40 + PBUF_LINK_ENCAPSULATION_HLEN + PBUF_LINK_HLEN).
Definition PBUF_POOL_BUFSIZE_ALIGNED : Z := LWIP_MEM_ALIGN_SIZE PBUF_POOL_BUFSIZE.
Definition NETIF_NO_INDEX : Z := 0.

(** pbuf_layer *)
Definition PBUF_TRANSPORT : Z :=
  PBUF_LINK_ENCAPSULATION_HLEN + PBUF_LINK_HLEN + PBUF_IP_HLEN + PBUF_TRANSPORT_HLEN.
Definition PBUF_IP : Z := PBUF_LINK_ENCAPSULATION_HLEN + PBUF_LINK_HLEN + PBUF_IP_HLEN.
Definition PBUF_LINK : Z := PBUF_LINK_ENCAPSULATION_HLEN + PBUF_LINK_HLEN.
Definition PBUF_RAW_TX : Z := PBUF_LINK_ENCAPSULATION_HLEN.
Definition PBUF_RAW : Z := 0.

Definition PBUF_TYPE_FLAG_STRUCT_DATA_CONTIGUOUS : Z := 128.
Definition PBUF_TYPE_FLAG_DATA_VOLATILE : Z := 64.
Definition PBUF_TYPE_ALLOC_SRC_MASK : Z := 15.
Definition PBUF_ALLOC_FLAG_RX : Z := 256.
Definition PBUF_ALLOC_FLAG_DATA_CONTIGUOUS : Z := 512.
Definition PBUF_TYPE_ALLOC_SRC_MASK_STD_HEAP : Z := 0.
Definition PBUF_TYPE_ALLOC_SRC_MASK_STD_MEMP_PBUF : Z := 1.
Definition PBUF_TYPE_ALLOC_SRC_MASK_STD_MEMP_PBUF_POOL : Z := 2.

(** pbuf_type *)
Definition PBUF_RAM : Z :=
  Z.lor (Z.lor PBUF_ALLOC_FLAG_DATA_CONTIGUOUS PBUF_TYPE_FLAG_STRUCT_DATA_CONTIGUOUS)
        PBUF_TYPE_ALLOC_SRC_MASK_STD_HEAP.
Definition PBUF_ROM : Z := PBUF_TYPE_ALLOC_SRC_MASK_STD_MEMP_PBUF.
Definition PBUF_REF : Z := Z.lor PBUF_TYPE_FLAG_DATA_VOLATILE PBUF_TYPE_ALLOC_SRC_MASK_STD_MEMP_PBUF.
Definition PBUF_POOL : Z :=
  Z.lor (Z.lor PBUF_ALLOC_FLAG_RX PBUF_TYPE_FLAG_STRUCT_DATA_CONTIGUOUS)
        PBUF_TYPE_ALLOC_SRC_MASK_STD_MEMP_PBUF_POOL.

Definition PBUF_FLAG_IS_CUSTOM : Z := 2.
Definition PBUF_FLAG_TCP_FIN : Z := 32.

(** ** The allocators as pbuf.c uses them *)

Inductive memp_t := MEMP_PBUF | MEMP_PBUF_POOL.

#[global] Instance memp_t_eq_dec : EqDecision memp_t.
Proof. solve_decision. Defined.

Class Allocator (A : Type) := {
  mem_malloc : Z → A → res (option Z * A);
  mem_free : Z → A → res A;
  mem_trim : Z → Z → A → res (option Z * A);
  memp_malloc : memp_t → A → res (option Z * A);
  memp_free : memp_t → Z → A → res A;
  (** [pc->custom_free_function(p)]; [Assert] when the pointer is NULL *)
  custom_free_function : Z → A → res A
}.

Record pstate (A : Type) := PState {
  pb : gmap Z pbuf; dat : bytes; al : A; pbuf_free_ooseq_pending : Z }.
Arguments PState {A} _ _ _ _.
Arguments pb {A} _.
Arguments dat {A} _.
Arguments al {A} _.
Arguments pbuf_free_ooseq_pending {A} _.

(** Field updates of a [struct pbuf]. *)
Definition with_next v (q : pbuf) : pbuf :=
  Pbuf v (payload q) (tot_len q) (len q) (type_internal q) (flags q) (ref q) (if_idx q).
Definition with_payload v (q : pbuf) : pbuf :=
  Pbuf (next q) v (tot_len q) (len q) (type_internal q) (flags q) (ref q) (if_idx q).
Definition with_tot_len v (q : pbuf) : pbuf :=
  Pbuf (next q) (payload q) v (len q) (type_internal q) (flags q) (ref q) (if_idx q).
Definition with_len v (q : pbuf) : pbuf :=
  Pbuf (next q) (payload q) (tot_len q) v (type_internal q) (flags q) (ref q) (if_idx q).
Definition with_flags v (q : pbuf) : pbuf :=
  Pbuf (next q) (payload q) (tot_len q) (len q) (type_internal q) v (ref q) (if_idx q).
Definition with_ref v (q : pbuf) : pbuf :=
  Pbuf (next q) (payload q) (tot_len q) (len q) (type_internal q) (flags q) v (if_idx q).

Section operations.
Context {A : Type} `{Allocator A}.
Implicit Types s : pstate A.

Definition getp (p : Z) s : res pbuf := deref (pb s !! p).
Definition putp (p : Z) (q : pbuf) s : pstate A :=
  PState (<[p := q]> (pb s)) (dat s) (al s) (pbuf_free_ooseq_pending s).
Definition modp (p : Z) (f : pbuf → pbuf) s : res (pstate A) := q ← getp p s; Ok (putp p (f q) s).
Definition dropp (p : Z) s : pstate A := PState (delete p (pb s)) (dat s) (al s) (pbuf_free_ooseq_pending s).
Definition set_dat (d : bytes) s : pstate A := PState (pb s) d (al s) (pbuf_free_ooseq_pending s).
Definition set_al (a : A) s : pstate A := PState (pb s) (dat s) a (pbuf_free_ooseq_pending s).

(** A walk along [next] visits every struct at most once unless the chain is a
    circle, so this many iterations are enough for every chain that ends. *)
Definition chain_fuel s : nat := S (size (pb s)).

Definition pbuf_get_allocsrc (q : pbuf) : Z := Z.land (type_internal q) PBUF_TYPE_ALLOC_SRC_MASK.
Definition pbuf_match_allocsrc (q : pbuf) (type : Z) : bool :=
  pbuf_get_allocsrc q =? Z.land type PBUF_TYPE_ALLOC_SRC_MASK.
Definition is_custom (q : pbuf) : bool := negb (Z.land (flags q) PBUF_FLAG_IS_CUSTOM =? 0).

Definition pbuf_pool_is_empty s : pstate A := PState (pb s) (dat s) (al s) 1.

(** ** Release *)

(** One struct that lost its last reference goes back to where it came from. *)
Definition pbuf_release (p : Z) (q : pbuf) s : res (pstate A) :=
  let alloc_src := pbuf_get_allocsrc q in
  a ← (if is_custom q then custom_free_function p (al s)
       else if alloc_src =? PBUF_TYPE_ALLOC_SRC_MASK_STD_MEMP_PBUF_POOL then memp_free MEMP_PBUF_POOL p (al s)
       else if alloc_src =? PBUF_TYPE_ALLOC_SRC_MASK_STD_MEMP_PBUF then memp_free MEMP_PBUF p (al s)
       else if alloc_src =? PBUF_TYPE_ALLOC_SRC_MASK_STD_HEAP then mem_free p (al s)
       else Assert);
  Ok (dropp p (set_al a s)).

Fixpoint pbuf_free_loop (fuel : nat) (p : option Z) (count : Z) s : res (Z * pstate A) :=
  match p with
  | None => Ok (count, s)
  | Some a =>
      match fuel with
      | O => Stuck
      | S fuel =>
          q ← getp a s;
          LWIP_ASSERT (0 <? ref q);;
          let ref' := u8 (ref q - 1) in
          let s := putp a (with_ref ref' q) s in
          if ref' =? 0 then
            s ← pbuf_release a q s;
            pbuf_free_loop fuel (next q) (u8 (count + 1)) s
          else Ok (count, s)
      end
  end.

Definition pbuf_free (p : option Z) s : res (Z * pstate A) :=
  match p with
  | None => Assert
  | Some _ => pbuf_free_loop (chain_fuel s) p 0 s
  end.

(** ** Allocation *)

Definition pbuf_init_alloced_pbuf (p pl tl l type fl : Z) s : pstate A :=
  putp p (Pbuf None pl tl l (u8 type) fl 1 NETIF_NO_INDEX) s.

Definition pbuf_alloc_reference (pl length type : Z) s : res (option Z * pstate A) :=
  LWIP_ASSERT ((type =? PBUF_REF) || (type =? PBUF_ROM));;
  '(r, a) ← memp_malloc MEMP_PBUF (al s);
  let s := set_al a s in
  match r with
  | None => Ok (None, s)
  | Some p => Ok (Some p, pbuf_init_alloced_pbuf p pl length length type 0 s)
  end.

(** The [do ... while (rem_len > 0)] loop of the PBUF_POOL case; [p] is the
    head of the chain, [last] its last struct. *)
Fixpoint pbuf_alloc_pool (fuel : nat) (p last : option Z) (rem_len offset type : Z) s :
    res (option Z * pstate A) :=
  match fuel with
  | O => Stuck
  | S fuel =>
      '(r, a) ← memp_malloc MEMP_PBUF_POOL (al s);
      let s := set_al a s in
      match r with
      | None =>
          let s := pbuf_pool_is_empty s in
          s ← (match p with
               | Some _ => '(_, s) ← pbuf_free p s; Ok s
               | None => Ok s
               end);
          Ok (None, s)
      | Some q =>
          let room := u32 (PBUF_POOL_BUFSIZE_ALIGNED - LWIP_MEM_ALIGN_SIZE offset) in
          let qlen := Z.min rem_len (u16 room) in
          let pl := LWIP_MEM_ALIGN (q + SIZEOF_STRUCT_PBUF + offset) in
          let s := pbuf_init_alloced_pbuf q pl rem_len qlen type 0 s in
          LWIP_ASSERT (pl mod MEM_ALIGNMENT =? 0);;
          LWIP_ASSERT (0 <? room);;
          s ← (match p, last with
               | None, _ => Ok s
               | Some _, None => Ub
               | Some _, Some last => modp last (with_next (Some q)) s
               end);
          let p := match p with None => Some q | _ => p end in
          let rem_len := u16 (rem_len - qlen) in
          if 0 <? rem_len then pbuf_alloc_pool fuel p (Some q) rem_len 0 type s
          else Ok (p, s)
      end
  end.

Definition pbuf_alloc (layer length type : Z) s : res (option Z * pstate A) :=
  let offset := u16 layer in
  if (type =? PBUF_REF) || (type =? PBUF_ROM) then pbuf_alloc_reference 0 length type s
  else if type =? PBUF_POOL then
    pbuf_alloc_pool (S (Z.to_nat length)) None None length offset type s
  else if type =? PBUF_RAM then
    let payload_len := u16 (LWIP_MEM_ALIGN_SIZE offset + LWIP_MEM_ALIGN_SIZE length) in
    let alloc_len := u16 (LWIP_MEM_ALIGN_SIZE SIZEOF_STRUCT_PBUF + payload_len) in
    if (payload_len <? LWIP_MEM_ALIGN_SIZE length) || (alloc_len <? LWIP_MEM_ALIGN_SIZE length)
    then Ok (None, s) else
    '(r, a) ← mem_malloc alloc_len (al s);
    let s := set_al a s in
    match r with
    | None => Ok (None, s)
    | Some p =>
        let pl := LWIP_MEM_ALIGN (p + SIZEOF_STRUCT_PBUF + offset) in
        let s := pbuf_init_alloced_pbuf p pl length length type 0 s in
        LWIP_ASSERT (pl mod MEM_ALIGNMENT =? 0);;
        Ok (Some p, s)
    end
  else Assert.

Definition pbuf_alloced_custom (l length type p payload_mem payload_mem_len : Z) s : option Z * pstate A :=
  let offset := u16 l in
  if payload_mem_len <? LWIP_MEM_ALIGN_SIZE offset + length then (None, s) else
  let pl := if negb (payload_mem =? 0) then payload_mem + LWIP_MEM_ALIGN_SIZE offset else 0 in
  (Some p, pbuf_init_alloced_pbuf p pl length length type PBUF_FLAG_IS_CUSTOM s).

(** ** Resizing *)

(** Step over the pbufs that stay, adjusting their [tot_len]. *)
Fixpoint pbuf_realloc_walk (fuel : nat) (q rem_len shrink : Z) s : res (Z * Z * pstate A) :=
  match fuel with
  | O => Stuck
  | S fuel =>
      b ← getp q s;
      if len b <? rem_len then
        let rem_len := u16 (rem_len - len b) in
        let s := putp q (with_tot_len (u16 (tot_len b - shrink)) b) s in
        match next b with
        | None => Assert
        | Some q => pbuf_realloc_walk fuel q rem_len shrink s
        end
      else Ok (q, rem_len, s)
  end.

Definition pbuf_realloc (p : option Z) (new_len : Z) s : res (pstate A) :=
  match p with
  | None => Assert
  | Some p =>
      b ← getp p s;
      if tot_len b <=? new_len then Ok s else
      let shrink := u16 (tot_len b - new_len) in
      '(q, rem_len, s) ← pbuf_realloc_walk (chain_fuel s) p new_len shrink s;
      b ← getp q s;
      '(q, s) ← (if pbuf_match_allocsrc b PBUF_TYPE_ALLOC_SRC_MASK_STD_HEAP &&
                    negb (rem_len =? len b) && negb (is_custom b)
                 then '(r, a) ← mem_trim q (u16 (payload b - q + rem_len)) (al s);
                      match r with
                      | None => Assert
                      | Some q => Ok (q, set_al a s)
                      end
                 else Ok (q, s));
      s ← modp q (with_len rem_len) s;
      s ← modp q (with_tot_len rem_len) s;
      b ← getp q s;
      s ← (match next b with
           | Some _ => '(_, s) ← pbuf_free (next b) s; Ok s
           | None => Ok s
           end);
      modp q (with_next None) s
  end.

(** ** Headers: the result is 0 on success, 1 on failure *)

Definition pbuf_add_header_impl (p : option Z) (header_size_increment : Z) (force : bool) s :
    res (Z * pstate A) :=
  match p with
  | None => Assert
  | Some p =>
      if 65535 <? header_size_increment then Ok (1, s) else
      if header_size_increment =? 0 then Ok (0, s) else
      let increment_magnitude := u16 header_size_increment in
      b ← getp p s;
      if u16 (increment_magnitude + tot_len b) <? increment_magnitude then Ok (1, s) else
      let pl := payload b - header_size_increment in
      let b' := with_tot_len (u16 (tot_len b + increment_magnitude))
                  (with_len (u16 (len b + increment_magnitude)) (with_payload pl b)) in
      if negb (Z.land (type_internal b) PBUF_TYPE_FLAG_STRUCT_DATA_CONTIGUOUS =? 0) then
        if pl <? p + SIZEOF_STRUCT_PBUF then Ok (1, s) else Ok (0, putp p b' s)
      else if force then Ok (0, putp p b' s) else Ok (1, s)
  end.

Definition pbuf_add_header (p : option Z) (header_size_increment : Z) s : res (Z * pstate A) :=
  pbuf_add_header_impl p header_size_increment false s.

Definition pbuf_add_header_force (p : option Z) (header_size_increment : Z) s : res (Z * pstate A) :=
  pbuf_add_header_impl p header_size_increment true s.

Definition pbuf_remove_header (p : option Z) (header_size_decrement : Z) s : res (Z * pstate A) :=
  match p with
  | None => Assert
  | Some p =>
      if 65535 <? header_size_decrement then Ok (1, s) else
      if header_size_decrement =? 0 then Ok (0, s) else
      let increment_magnitude := u16 header_size_decrement in
      b ← getp p s;
      LWIP_ASSERT (increment_magnitude <=? len b);;
      Ok (0, putp p (with_tot_len (u16 (tot_len b - increment_magnitude))
                      (with_len (u16 (len b - increment_magnitude))
                         (with_payload (payload b + header_size_decrement) b))) s)
  end.

(** [header_size_increment] is an [s16_t]. *)
Definition pbuf_header_impl (p : option Z) (header_size_increment : Z) (force : bool) s :
    res (Z * pstate A) :=
  if header_size_increment <? 0 then pbuf_remove_header p (u32 (- header_size_increment)) s
  else pbuf_add_header_impl p (u32 header_size_increment) force s.

Definition pbuf_header (p : option Z) (header_size_increment : Z) s : res (Z * pstate A) :=
  pbuf_header_impl p header_size_increment false s.

Definition pbuf_header_force (p : option Z) (header_size_increment : Z) s : res (Z * pstate A) :=
  pbuf_header_impl p header_size_increment true s.

Fixpoint pbuf_free_header_loop (fuel : nat) (p : option Z) (free_left : Z) s : res (option Z * pstate A) :=
  match p with
  | None => Ok (None, s)
  | Some a =>
      if free_left =? 0 then Ok (p, s) else
      match fuel with
      | O => Stuck
      | S fuel =>
          b ← getp a s;
          if len b <=? free_left then
            let free_left := u16 (free_left - len b) in
            let s := putp a (with_next None b) s in
            '(_, s) ← pbuf_free (Some a) s;
            pbuf_free_header_loop fuel (next b) free_left s
          else
            '(_, s) ← pbuf_remove_header p free_left s;
            pbuf_free_header_loop fuel p 0 s
      end
  end.

Definition pbuf_free_header (q : option Z) (size : Z) s : res (option Z * pstate A) :=
  pbuf_free_header_loop (S (chain_fuel s)) q size s.

(** ** Chains *)

Fixpoint pbuf_clen_loop (fuel : nat) (p : option Z) (l : Z) s : res Z :=
  match p with
  | None => Ok l
  | Some a =>
      match fuel with
      | O => Stuck
      | S fuel => q ← getp a s; pbuf_clen_loop fuel (next q) (u16 (l + 1)) s
      end
  end.

Definition pbuf_clen (p : option Z) s : res Z := pbuf_clen_loop (chain_fuel s) p 0 s.

Definition pbuf_ref (p : option Z) s : res (pstate A) :=
  match p with
  | None => Ok s
  | Some p =>
      q ← getp p s;
      let r := u8 (ref q + 1) in
      LWIP_ASSERT (0 <? r);;
      Ok (putp p (with_ref r q) s)
  end.

(** The loop to the last pbuf of the head chain; [t_tot] is [t->tot_len]. *)
Fixpoint pbuf_cat_loop (fuel : nat) (p t : Z) s : res (Z * pstate A) :=
  match fuel with
  | O => Stuck
  | S fuel =>
      b ← getp p s;
      match next b with
      | None => Ok (p, s)
      | Some n =>
          tb ← getp t s;
          pbuf_cat_loop fuel n t (putp p (with_tot_len (u16 (tot_len b + tot_len tb)) b) s)
      end
  end.

Definition pbuf_cat (h t : option Z) s : res (pstate A) :=
  match h, t with
  | Some h, Some t =>
      '(p, s) ← pbuf_cat_loop (chain_fuel s) h t s;
      b ← getp p s;
      LWIP_ASSERT (tot_len b =? len b);;
      tb ← getp t s;
      s ← modp p (with_tot_len (u16 (tot_len b + tot_len tb))) s;
      modp p (with_next (Some t)) s
  | _, _ => Assert
  end.

Definition pbuf_chain (h t : option Z) s : res (pstate A) :=
  s ← pbuf_cat h t s; pbuf_ref t s.

Definition pbuf_dechain (p : Z) s : res (option Z * pstate A) :=
  b ← getp p s;
  let q := next b in
  '(tail_gone, s) ←
    (match q with
     | None => Ok (1, s)
     | Some a =>
         qb ← getp a s;
         LWIP_ASSERT (tot_len qb =? tot_len b - len b);;
         let s := putp a (with_tot_len (u16 (tot_len b - len b)) qb) s in
         s ← modp p (with_next None) s;
         s ← modp p (λ b, with_tot_len (len b) b) s;
         pbuf_free q s
     end);
  b ← getp p s;
  LWIP_ASSERT (tot_len b =? len b);;
  Ok (if 0 <? tail_gone then None else q, s).

(** ** Copying *)

(** [p == NULL || p->len != p->tot_len || p->next == NULL], the guard against
    packet queues. *)
Definition no_queue (p : option Z) s : res unit :=
  match p with
  | None => Ok tt
  | Some a => b ← getp a s;
      if len b =? tot_len b then LWIP_ASSERT (bool_decide (next b = None)) else Ok tt
  end.

Fixpoint pbuf_copy_loop (fuel : nat) (p_to p_from : Z) (offset_to offset_from : Z) s :
    res (Z * pstate A) :=
  match fuel with
  | O => Stuck
  | S fuel =>
      t ← getp p_to s;
      f ← getp p_from s;
      let l := if u32 (len f - offset_from) <=? u32 (len t - offset_to)
               then u32 (len f - offset_from) else u32 (len t - offset_to) in
      d ← memcpy (payload t + offset_to) (payload f + offset_from) l (dat s);
      let s := set_dat d s in
      let offset_to := u32 (offset_to + l) in
      let offset_from := u32 (offset_from + l) in
      LWIP_ASSERT (offset_to <=? len t);;
      LWIP_ASSERT (offset_from <=? len f);;
      let '(from', offset_from) := if len f <=? offset_from then (next f, 0) else (Some p_from, offset_from) in
      '(to', offset_to) ←
        (if offset_to =? len t then
           LWIP_ASSERT (negb (bool_decide (next t = None)) || bool_decide (from' = None));;
           Ok (next t, 0)
         else Ok (Some p_to, offset_to));
      no_queue from' s;;
      no_queue to' s;;
      match from', to' with
      | None, _ => Ok (ERR_OK, s)
      | Some f, Some t => pbuf_copy_loop fuel t f offset_to offset_from s
      | Some _, None => Ub
      end
  end.

Definition pbuf_copy (p_to p_from : option Z) s : res (Z * pstate A) :=
  match p_to, p_from with
  | Some p_to, Some p_from =>
      t ← getp p_to s;
      f ← getp p_from s;
      LWIP_ASSERT (tot_len f <=? tot_len t);;
      pbuf_copy_loop (chain_fuel s + chain_fuel s) p_to p_from 0 0 s
  | _, _ => Assert
  end.

Fixpoint pbuf_copy_partial_loop (fuel : nat) (p : option Z) (dataptr l offset left copied_total : Z) s :
    res (Z * pstate A) :=
  match p with
  | None => Ok (copied_total, s)
  | Some a =>
      if l =? 0 then Ok (copied_total, s) else
      match fuel with
      | O => Stuck
      | S fuel =>
          b ← getp a s;
          if negb (offset =? 0) && (len b <=? offset) then
            pbuf_copy_partial_loop fuel (next b) dataptr l (u16 (offset - len b)) left copied_total s
          else
            let buf_copy_len := u16 (len b - offset) in
            let buf_copy_len := if l <? buf_copy_len then l else buf_copy_len in
            d ← memcpy (dataptr + left) (payload b + offset) buf_copy_len (dat s);
            pbuf_copy_partial_loop fuel (next b) dataptr (u16 (l - buf_copy_len)) 0
              (u16 (left + buf_copy_len)) (u16 (copied_total + buf_copy_len)) (set_dat d s)
      end
  end.

Definition pbuf_copy_partial (buf : option Z) (dataptr l offset : Z) s : res (Z * pstate A) :=
  LWIP_ASSERT (negb (bool_decide (buf = None)));;
  LWIP_ASSERT (negb (dataptr =? 0));;
  pbuf_copy_partial_loop (chain_fuel s) buf dataptr l offset 0 0 s.

Fixpoint pbuf_skip_loop (fuel : nat) (q : option Z) (offset_left : Z) s : res (option Z * Z) :=
  match q with
  | None => Ok (None, offset_left)
  | Some a =>
      match fuel with
      | O => Stuck
      | S fuel =>
          b ← getp a s;
          if len b <=? offset_left then pbuf_skip_loop fuel (next b) (u16 (offset_left - len b)) s
          else Ok (q, offset_left)
      end
  end.

Definition pbuf_skip_const (inp : option Z) (in_offset : Z) s : res (option Z * Z) :=
  pbuf_skip_loop (chain_fuel s) inp in_offset s.

Definition pbuf_skip (inp : option Z) (in_offset : Z) s : res (option Z * Z) :=
  pbuf_skip_const inp in_offset s.

(** The pointer returned is 0 for NULL. *)
Definition pbuf_get_contiguous (p : option Z) (buffer bufsize l offset : Z) s : res (Z * pstate A) :=
  LWIP_ASSERT (negb (bool_decide (p = None)));;
  LWIP_ASSERT (negb (buffer =? 0));;
  LWIP_ASSERT (l <=? bufsize);;
  '(q, out_offset) ← pbuf_skip_const p offset s;
  match q with
  | None => Ok (0, s)
  | Some a =>
      b ← getp a s;
      if out_offset + l <=? len b then Ok (payload b + out_offset, s) else
      '(n, s) ← pbuf_copy_partial q buffer l out_offset s;
      if negb (n =? l) then Ok (0, s) else Ok (buffer, s)
  end.

(** [i] is the last pbuf kept, [r] the first one of the rest. *)
Fixpoint pbuf_split_find (fuel : nat) (i : Z) (r : option Z) (tot_len_front : Z) s :
    res (Z * option Z) :=
  match r with
  | None => Ok (i, None)
  | Some a =>
      match fuel with
      | O => Stuck
      | S fuel =>
          b ← getp a s;
          if tot_len_front <=? u16 (tot_len_front + len b)
          then pbuf_split_find fuel a (next b) (u16 (tot_len_front + len b)) s
          else Ok (i, r)
      end
  end.

Fixpoint pbuf_split_fix (fuel : nat) (i : option Z) (r_tot : Z) s : res (pstate A) :=
  match i with
  | None => Ok s
  | Some a =>
      match fuel with
      | O => Stuck
      | S fuel =>
          b ← getp a s;
          let b := with_tot_len (u16 (tot_len b - r_tot)) b in
          LWIP_ASSERT (negb (bool_decide (next b = None)) || (tot_len b =? len b));;
          pbuf_split_fix fuel (next b) r_tot (putp a b s)
      end
  end.

Definition pbuf_split_64k (p : option Z) s : res (option Z * pstate A) :=
  match p with
  | None => Ok (None, s)
  | Some a =>
      b ← getp a s;
      match next b with
      | None => Ok (None, s)
      | Some _ =>
          '(i, r) ← pbuf_split_find (chain_fuel s) a (next b) (len b) s;
          s ← modp i (with_next None) s;
          match r with
          | None => Ok (None, s)
          | Some ra =>
              rb ← getp ra s;
              s ← pbuf_split_fix (chain_fuel s) p (tot_len rb) s;
              b ← getp a s;
              s ← (if negb (Z.land (flags b) PBUF_FLAG_TCP_FIN =? 0)
                   then modp ra (λ rb, with_flags (Z.lor (flags rb) PBUF_FLAG_TCP_FIN) rb) s else Ok s);
              Ok (r, s)
          end
      end
  end.

Fixpoint pbuf_take_loop (fuel : nat) (p : option Z) (dataptr total_copy_len copied_total : Z) s :
    res (Z * Z * pstate A) :=
  if total_copy_len =? 0 then Ok (total_copy_len, copied_total, s) else
  match fuel with
  | O => Stuck
  | S fuel =>
      match p with
      | None => Assert
      | Some a =>
          b ← getp a s;
          let buf_copy_len := if len b <? total_copy_len then len b else total_copy_len in
          d ← memcpy (payload b) (dataptr + copied_total) buf_copy_len (dat s);
          pbuf_take_loop fuel (next b) dataptr (u32 (total_copy_len - buf_copy_len))
            (u32 (copied_total + buf_copy_len)) (set_dat d s)
      end
  end.

Definition pbuf_take (buf : option Z) (dataptr l : Z) s : res (Z * pstate A) :=
  match buf with
  | None => Assert
  | Some a =>
      LWIP_ASSERT (negb (dataptr =? 0));;
      b ← getp a s;
      LWIP_ASSERT (l <=? tot_len b);;
      '(total_copy_len, copied_total, s) ← pbuf_take_loop (chain_fuel s) buf dataptr l 0 s;
      LWIP_ASSERT ((total_copy_len =? 0) && (copied_total =? l));;
      Ok (ERR_OK, s)
  end.

Definition pbuf_take_at (buf : option Z) (dataptr l offset : Z) s : res (Z * pstate A) :=
  '(q, target_offset) ← pbuf_skip buf offset s;
  match q with
  | None => Ok (ERR_MEM, s)
  | Some a =>
      b ← getp a s;
      if target_offset + l <=? tot_len b then
        LWIP_ASSERT (target_offset <? len b);;
        let first_copy_len := u16 (Z.min (len b - target_offset) l) in
        d ← memcpy (payload b + target_offset) dataptr first_copy_len (dat s);
        let s := set_dat d s in
        let remaining_len := u16 (l - first_copy_len) in
        if 0 <? remaining_len then pbuf_take (next b) (dataptr + first_copy_len) remaining_len s
        else Ok (ERR_OK, s)
      else Ok (ERR_MEM, s)
  end.

Definition pbuf_clone (layer type : Z) (p : Z) s : res (option Z * pstate A) :=
  b ← getp p s;
  '(q, s) ← pbuf_alloc layer (tot_len b) type s;
  match q with
  | None => Ok (None, s)
  | Some _ =>
      '(err, s) ← pbuf_copy q (Some p) s;
      LWIP_ASSERT (err =? ERR_OK);;
      Ok (q, s)
  end.

Definition pbuf_coalesce (p layer : Z) s : res (option Z * pstate A) :=
  b ← getp p s;
  match next b with
  | None => Ok (Some p, s)
  | Some _ =>
      '(q, s) ← pbuf_clone layer PBUF_RAM p s;
      match q with
      | None => Ok (Some p, s)
      | Some _ => '(_, s) ← pbuf_free (Some p) s; Ok (q, s)
      end
  end.

(** ** Byte access *)

Definition pbuf_try_get_at (p : option Z) (offset : Z) s : res Z :=
  '(q, q_idx) ← pbuf_skip_const p offset s;
  match q with
  | None => Ok (-1)
  | Some a =>
      b ← getp a s;
      if q_idx <? len b then deref (dat s !! (payload b + q_idx)) else Ok (-1)
  end.

Definition pbuf_get_at (p : option Z) (offset : Z) s : res Z :=
  ret ← pbuf_try_get_at p offset s;
  Ok (if 0 <=? ret then u8 ret else 0).

Definition pbuf_put_at (p : option Z) (offset data : Z) s : res (pstate A) :=
  '(q, q_idx) ← pbuf_skip p offset s;
  match q with
  | None => Ok s
  | Some a =>
      b ← getp a s;
      if q_idx <? len b then d ← mstore (payload b + q_idx) [data] (dat s); Ok (set_dat d s) else Ok s
  end.

(** [fuel] counts the remaining iterations of [for (i = 0; i < n; i++)]. *)
Fixpoint pbuf_memcmp_loop (fuel : nat) (q : option Z) (start s2 i : Z) s : res Z :=
  match fuel with
  | O => Ok 0
  | S fuel =>
      a ← pbuf_get_at q (u16 (start + i)) s;
      b ← deref (dat s !! (s2 + i));
      if negb (a =? b) then Ok (u16 (Z.min (i + 1) 65535))
      else pbuf_memcmp_loop fuel q start s2 (u16 (i + 1)) s
  end.

Definition pbuf_memcmp (p : Z) (offset s2 n : Z) s : res Z :=
  b ← getp p s;
  if tot_len b <? offset + n then Ok 65535 else
  '(q, start) ← pbuf_skip_loop (chain_fuel s) (Some p) offset s;
  pbuf_memcmp_loop (Z.to_nat n) q start s2 0 s.

(** [for (i = start_offset; i <= max_cmp_start; i++)] on a [u16_t]: the counter
    wraps when [max_cmp_start] is 0xFFFF. *)
Fixpoint pbuf_memfind_loop (fuel : nat) (p mem mem_len max_cmp_start i : Z) s : res Z :=
  if max_cmp_start <? i then Ok 65535 else
  match fuel with
  | O => Stuck
  | S fuel =>
      plus ← pbuf_memcmp p i mem mem_len s;
      if plus =? 0 then Ok i else pbuf_memfind_loop fuel p mem mem_len max_cmp_start (u16 (i + 1)) s
  end.

Definition pbuf_memfind (p mem mem_len start_offset : Z) s : res Z :=
  b ← getp p s;
  let max_cmp_start := u16 (tot_len b - mem_len) in
  if mem_len + start_offset <=? tot_len b
  then pbuf_memfind_loop (Z.to_nat 65536) p mem mem_len max_cmp_start start_offset s
  else Ok 65535.

(** strlen *)
Fixpoint strlen (fuel : nat) (a : Z) (d : bytes) : res Z :=
  match fuel with
  | O => Stuck
  | S fuel => c ← deref (d !! a); if c =? 0 then Ok 0 else n ← strlen fuel (a + 1) d; Ok (n + 1)
  end.

Definition pbuf_strstr (p substr : Z) s : res Z :=
  if substr =? 0 then Ok 65535 else
  c ← deref (dat s !! substr);
  if c =? 0 then Ok 65535 else
  b ← getp p s;
  if tot_len b =? 65535 then Ok 65535 else
  substr_len ← strlen (S (size (dat s))) substr (dat s);
  if 65535 <=? substr_len then Ok 65535 else
  pbuf_memfind p substr (u16 substr_len) 0 s.

End operations.
