(* ===== verification/PbufFacts.v ===== *)
(** * Packet buffers: chains, contents and the operations that move data

    [chain m p l] says that following [next] from [p] visits the structs [l] and
    ends at NULL; [lens_ok l] is the invariant of [tot_len] documented in pbuf.h;
    [content d l] are the bytes of the packet.  The operations that read, compare
    or write the data of a packet are characterised by this byte string, whatever
    the segmentation of the chain is. *)

From S2P Require Import Prelude ByteMem Pbuf.

(** ** Chains *)

Fixpoint chain (m : gmap Z pbuf) (p : option Z) (l : list (Z * pbuf)) : Prop :=
  match l with
  | [] => p = None
  | (a, q) :: l => p = Some a ∧ m !! a = Some q ∧ chain m (next q) l
  end.

(** A walk along [next] that ends at [e]. *)
Fixpoint path (m : gmap Z pbuf) (p : option Z) (l : list (Z * pbuf)) (e : option Z) : Prop :=
  match l with
  | [] => p = e
  | (a, q) :: l => p = Some a ∧ m !! a = Some q ∧ path m (next q) l e
  end.

(** The number of bytes of a chain. *)
Fixpoint bytes_in (l : list (Z * pbuf)) : Z :=
  match l with [] => 0 | (_, q) :: l => len q + bytes_in l end.

(** [p->tot_len == p->len + (p->next ? p->next->tot_len : 0)] *)
Fixpoint lens_ok (l : list (Z * pbuf)) : Prop :=
  match l with
  | [] => True
  | (_, q) :: l => 0 ≤ len q ∧ tot_len q = len q + bytes_in l ∧ tot_len q ≤ 65535 ∧ lens_ok l
  end.

Fixpoint content (d : bytes) (l : list (Z * pbuf)) : option (list Z) :=
  match l with
  | [] => Some []
  | (_, q) :: l => c ← mread d (payload q) (Z.to_nat (len q)); c' ← content d l; Some (c ++ c')
  end.

(** The region [a, a+n) meets no payload of the chain. *)
Definition away (a n : Z) (l : list (Z * pbuf)) : Prop :=
  Forall (λ x, a + n ≤ payload x.2 ∨ payload x.2 + len x.2 ≤ a) l.

(** The payloads do not overlap. *)
Fixpoint sep (l : list (Z * pbuf)) : Prop :=
  match l with [] => True | (_, q) :: l => away (payload q) (len q) l ∧ sep l end.

Lemma path_chain m p l e l' : path m p l e → chain m e l' → chain m p (l ++ l').
Proof. revert p; induction l as [|[a q] l IH]; simpl; [by intros p ->|]. naive_solver. Qed.

Lemma chain_split m p l1 l2 : chain m p (l1 ++ l2) → ∃ e, path m p l1 e ∧ chain m e l2.
Proof.
  revert p; induction l1 as [|[a q] l1 IH]; simpl; intros p Hc; [eauto|].
  destruct Hc as (-> & Ha & Hc). destruct (IH _ Hc) as (e & ? & ?). eauto.
Qed.

Lemma path_frame m m' p l e :
  (∀ a, a ∈ l.*1 → m' !! a = m !! a) → path m p l e → path m' p l e.
Proof.
  revert p; induction l as [|[a q] l IH]; simpl; intros p Hf H; [done|].
  destruct H as (-> & Ha & H). split_and!; [done| |].
  - rewrite Hf; [done|by left].
  - apply IH; [|done]. intros b Hb. apply Hf. by right.
Qed.

Lemma chain_det m p l l' : chain m p l → chain m p l' → l = l'.
Proof.
  revert p l'; induction l as [|[a q] l IH]; intros p [|[a' q'] l'] H H'; simpl in *; [done|naive_solver|naive_solver|].
  destruct H as (-> & Ha & H), H' as (Heq & Ha' & H'). simplify_eq. f_equal. eauto.
Qed.

Lemma chain_app m p l1 l2 : chain m p (l1 ++ l2) → ∃ p', chain m p' l2.
Proof.
  revert p; induction l1 as [|[a q] l1 IH]; simpl; intros p H; [eauto|].
  destruct H as (_ & _ & H). eauto.
Qed.

Lemma chain_NoDup m p l : chain m p l → NoDup l.*1.
Proof.
  revert p; induction l as [|[a q] l IH]; intros p H; [constructor|]. pose proof H as (-> & Ha & Hl).
  constructor; [|by eapply IH]. intros ([a' q'] & Heq & Hin)%list_elem_of_fmap. simpl in Heq. subst a'.
  apply list_elem_of_split in Hin as (l1 & l2 & ->).
  destruct (chain_app _ _ _ _ Hl) as (p' & H'). pose proof H' as (-> & _).
  pose proof (chain_det _ _ _ _ H H') as Hl'. apply (f_equal length) in Hl'.
  simpl in Hl'. rewrite length_app in Hl'. simpl in Hl'. lia.
Qed.

Lemma chain_lookup m p l a q : chain m p l → (a, q) ∈ l → m !! a = Some q.
Proof.
  revert p; induction l as [|[b r] l IH]; intros p H Hin; [by apply not_elem_of_nil in Hin|].
  destruct H as (_ & Hb & H). apply elem_of_cons in Hin as [?|?]; [by simplify_eq|eauto].
Qed.

Lemma path_lookup m p l e a q : path m p l e → (a, q) ∈ l → m !! a = Some q.
Proof.
  revert p; induction l as [|[b r] l IH]; intros p H Hin; [by apply not_elem_of_nil in Hin|].
  destruct H as (_ & Hb & H). apply elem_of_cons in Hin as [?|?]; [by simplify_eq|eauto].
Qed.

Lemma chain_length m p l : chain m p l → (length l ≤ size m)%nat.
Proof.
  intros H. pose proof (chain_NoDup _ _ _ H) as Hnd. rewrite <-size_dom.
  rewrite <-(length_fmap fst l), <-(size_list_to_set (C := gset Z) _ Hnd).
  apply subseteq_size. intros a Ha. apply elem_of_list_to_set, list_elem_of_fmap in Ha as ([b q] & -> & Hin).
  apply elem_of_dom. exists q. by eapply chain_lookup.
Qed.

(** Changing structs outside the chain. *)
Lemma chain_frame m m' p l :
  (∀ a, a ∈ l.*1 → m' !! a = m !! a) → chain m p l → chain m' p l.
Proof.
  revert p; induction l as [|[a q] l IH]; simpl; intros p Hf H; [done|].
  destruct H as (-> & Ha & H). split_and!; [done| |].
  - rewrite Hf; [done|by left].
  - apply IH; [|done]. intros b Hb. apply Hf. by right.
Qed.

Lemma bytes_in_app l1 l2 : bytes_in (l1 ++ l2) = bytes_in l1 + bytes_in l2.
Proof. induction l1 as [|[a q] l1 IH]; simpl; [done|]. rewrite IH. lia. Qed.

Lemma lens_ok_range l : lens_ok l → 0 ≤ bytes_in l ≤ 65535.
Proof.
  induction l as [|[a q] l IH]; simpl; [lia|]. intros (? & ? & ? & H). apply IH in H. lia.
Qed.

Lemma lens_ok_app l1 l2 : lens_ok (l1 ++ l2) → lens_ok l2.
Proof. induction l1 as [|[a q] l1 IH]; simpl; [done|]. naive_solver. Qed.

Lemma content_length d l c : lens_ok l → content d l = Some c → zlen c = bytes_in l.
Proof.
  revert c; induction l as [|[a q] l IH]; simpl; intros c Hl Hc; [by simplify_eq|].
  destruct Hl as (Hq & _ & _ & Hl). destruct (mread _ _ _) as [c1|] eqn:E; simplify_eq/=.
  destruct (content d l) as [c2|]; simplify_eq/=. unfold zlen in *. rewrite length_app.
  rewrite (mread_length _ _ _ _ E). rewrite <-(IH _ Hl eq_refl). lia.
Qed.

Lemma content_app d l1 l2 :
  content d (l1 ++ l2) = (c1 ← content d l1; c2 ← content d l2; Some (c1 ++ c2)).
Proof.
  induction l1 as [|[a q] l1 IH]; simpl; [by destruct (content d l2)|].
  destruct (mread _ _ _); simpl; [|done]. rewrite IH. destruct (content d l1); simpl; [|done].
  destruct (content d l2); simpl; [|done]. by rewrite (assoc_L (++)).
Qed.

Lemma away_cons a n b q l :
  away a n ((b, q) :: l) ↔ (a + n ≤ payload q ∨ payload q + len q ≤ a) ∧ away a n l.
Proof. unfold away. by rewrite Forall_cons. Qed.

Lemma away_mono a n a' n' l : a ≤ a' → a' + n' ≤ a + n → away a n l → away a' n' l.
Proof. intros ?? Ha. eapply Forall_impl; [exact Ha|]. intros x. simpl. lia. Qed.

(** Writing somewhere else leaves the packet alone. *)
Lemma content_away d a w l :
  lens_ok l → away a (zlen w) l → content (mwrite d a w) l = content d l.
Proof.
  induction l as [|[b q] l IH]; simpl; [done|]. intros (Hq & _ & _ & Hl) [Hb Ha]%away_cons.
  rewrite IH by done. rewrite mread_mwrite_disjoint; [done|]. lia.
Qed.

(** ** Slices *)

Lemma slice_nil {A} off n : slice off n (@nil A) = [].
Proof. unfold slice. by rewrite drop_nil, take_nil. Qed.

Lemma slice_app_skip {A} off n (c1 c2 : list A) :
  zlen c1 ≤ off → slice off n (c1 ++ c2) = slice (off - zlen c1) n c2.
Proof.
  unfold slice, zlen. intros Ho. rewrite drop_app_ge by lia.
  by replace (Z.to_nat off - length c1)%nat with (Z.to_nat (off - Z.of_nat (length c1))) by lia.
Qed.

Lemma slice_app_split {A} off n (c1 c2 : list A) :
  0 ≤ off ≤ zlen c1 → 0 ≤ n →
  slice off n (c1 ++ c2) = slice off (Z.min n (zlen c1 - off)) c1 ++ slice 0 (n - Z.min n (zlen c1 - off)) c2.
Proof.
  unfold slice, zlen. intros Ho Hn. rewrite drop_app_le, take_app, length_drop by lia. f_equal.
  - destruct (decide (n ≤ Z.of_nat (length c1) - off)).
    + by replace (Z.min n _) with n by lia.
    + replace (Z.min n _) with (Z.of_nat (length c1) - off) by lia.
      by rewrite !take_ge by (rewrite length_drop; lia).
  - rewrite drop_0. f_equal. lia.
Qed.

Lemma slice_zlen {A} off n (c : list A) :
  0 ≤ off → 0 ≤ n → zlen (slice off n c) = Z.min n (Z.max 0 (zlen c - off)).
Proof. unfold slice, zlen. intros. rewrite length_take, length_drop. lia. Qed.

(** Replace the bytes from [off] on by [w]. *)
Definition splice {A} (off : Z) (w l : list A) : list A :=
  slice 0 off l ++ w ++ slice (off + zlen w) (zlen l) l.

Lemma splice_app_l {A} off (w c1 c2 : list A) :
  0 ≤ off → off + zlen w ≤ zlen c1 → splice off w (c1 ++ c2) = splice off w c1 ++ c2.
Proof.
  unfold splice, slice, zlen. intros Ho Hw. simpl. rewrite !drop_0, take_app_le, drop_app_le by lia.
  rewrite <-!app_assoc. do 2 f_equal. rewrite length_app.
  rewrite !take_ge by (rewrite ?length_app, length_drop; lia). done.
Qed.

Lemma splice_app_r {A} off (w c1 c2 : list A) :
  zlen c1 ≤ off → splice off w (c1 ++ c2) = c1 ++ splice (off - zlen c1) w c2.
Proof.
  unfold splice, slice, zlen. intros Ho. simpl. rewrite !drop_0, take_app_ge, drop_app_ge by lia.
  rewrite <-!app_assoc. do 2 f_equal; [f_equal; lia|]. f_equal. rewrite length_app.
  rewrite !take_ge by (rewrite length_drop; lia). f_equal. lia.
Qed.

Lemma splice_nil {A} off (l : list A) : 0 ≤ off → splice off [] l = l.
Proof.
  unfold splice, slice, zlen. intros Ho. simpl. rewrite drop_0, (take_ge (drop _ _)) by (rewrite length_drop; lia).
  rewrite Z.add_0_r. apply take_drop.
Qed.

Lemma splice_whole {A} (w l : list A) : splice 0 w l = w ++ drop (length w) l.
Proof.
  unfold splice, slice, zlen. simpl. f_equal.
  rewrite take_ge by (rewrite length_drop; lia). f_equal. lia.
Qed.

Lemma zlen_splice {A} off (w l : list A) : 0 ≤ off → off + zlen w ≤ zlen l → zlen (splice off w l) = zlen l.
Proof.
  intros. pose proof (zlen_nonneg w). unfold splice. rewrite !zlen_app, !slice_zlen; lia.
Qed.

(** A write inside one payload of the chain. *)
Lemma content_write d l1 a b l2 c i w :
  lens_ok (l1 ++ (a, b) :: l2) → sep (l1 ++ (a, b) :: l2) → content d (l1 ++ (a, b) :: l2) = Some c →
  0 ≤ i → i + zlen w ≤ len b →
  content (mwrite d (payload b + i) w) (l1 ++ (a, b) :: l2) = Some (splice (bytes_in l1 + i) w c).
Proof.
  revert c; induction l1 as [|[a1 b1] l1 IH]; cbn [app lens_ok sep content bytes_in];
    intros c Hlen Hsep Hc Hi Hw; destruct Hlen as (Hq & _ & _ & Hlen), Hsep as [Haw Hsep].
  - destruct (mread d (payload b) (Z.to_nat (len b))) as [c1|] eqn:E; simplify_eq/=.
    destruct (content d l2) as [c2|] eqn:E2; simplify_eq/=.
    rewrite (mread_mwrite_inside _ _ _ _ _ _ E), content_away, E2 by (done || lia || (eapply away_mono; [..|exact Haw]; lia)).
    pose proof (mread_length _ _ _ _ E). simpl. f_equal.
    rewrite splice_app_l by (unfold zlen in *; lia). f_equal. unfold splice. do 2 f_equal.
    unfold slice. rewrite !take_ge; [done|rewrite length_drop; unfold zlen in *; lia..].
  - destruct (mread d (payload b1) (Z.to_nat (len b1))) as [c1|] eqn:E; simplify_eq/=.
    destruct (content d (l1 ++ (a, b) :: l2)) as [c2|] eqn:E2; simplify_eq/=.
    assert (Hb : payload b1 + len b1 ≤ payload b ∨ payload b + len b ≤ payload b1).
    { unfold away in Haw. rewrite Forall_forall in Haw. apply (Haw (a, b)). set_solver. }
    rewrite mread_mwrite_disjoint, E, (IH c2) by (done || lia). simpl. f_equal.
    pose proof (mread_length _ _ _ _ E). assert (0 ≤ bytes_in l1).
    { clear -Hlen. induction l1 as [|[? ?] l1 IH]; simpl in *; [lia|].
      destruct Hlen as (? & _ & _ & Hlen). apply IH in Hlen. lia. }
    rewrite splice_app_r by (unfold zlen; lia). do 2 f_equal. unfold zlen. lia.
Qed.

(** The byte at an offset of the packet. *)
Lemma content_lookup d l1 a b l2 c i :
  lens_ok (l1 ++ (a, b) :: l2) → content d (l1 ++ (a, b) :: l2) = Some c → 0 ≤ i < len b →
  d !! (payload b + i) = c !! Z.to_nat (bytes_in l1 + i).
Proof.
  intros Hl Hc Hi. rewrite content_app in Hc. destruct (content d l1) as [c1|] eqn:E1; simplify_eq/=.
  destruct (mread d (payload b) (Z.to_nat (len b))) as [cb|] eqn:E; simplify_eq/=.
  destruct (content d l2) as [c2|]; simplify_eq/=.
  assert (Hc1 : zlen c1 = bytes_in l1).
  { clear -Hl E1. revert c1 E1. induction l1 as [|[x q] l1 IH]; simpl; intros c1 E1; [by simplify_eq|].
    destruct Hl as (? & _ & _ & Hl). destruct (mread _ _ _) as [cq|] eqn:E; simplify_eq/=.
    destruct (content d l1) as [c2|]; simplify_eq/=. apply mread_length in E.
    rewrite zlen_app, (IH Hl _ eq_refl). unfold zlen. lia. }
  pose proof (mread_length _ _ _ _ E). unfold zlen in Hc1.
  rewrite lookup_app_r, lookup_app_l by lia.
  replace (Z.to_nat (bytes_in l1 + i) - length c1)%nat with (Z.to_nat i) by lia.
  rewrite <-(mread_lookup _ _ _ _ (Z.to_nat i) E) by lia. f_equal. lia.
Qed.

(** Two adjacent writes are one. *)
Lemma splice_splice {A} off (w1 w2 c : list A) :
  0 ≤ off → off + zlen w1 + zlen w2 ≤ zlen c →
  splice (off + zlen w1) w2 (splice off w1 c) = splice off (w1 ++ w2) c.
Proof.
  intros Ho Hle. pose proof (zlen_nonneg w1). pose proof (zlen_nonneg w2).
  assert (Hpre : zlen (slice 0 off c ++ w1) = off + zlen w1) by (rewrite zlen_app, zlen_slice; lia).
  unfold splice at 2. rewrite (assoc_L (++)), splice_app_r by lia. rewrite Hpre, Z.sub_diag.
  unfold splice. rewrite <-!app_assoc. do 2 f_equal. rewrite zlen_app. unfold slice at 1. simpl.
  f_equal. unfold slice, zlen in *. rewrite !length_take, !length_drop.
  rewrite (take_ge (drop (Z.to_nat (off + _)) c)) by (rewrite length_drop; lia).
  rewrite drop_drop, !take_ge by (rewrite ?length_drop; lia). f_equal. lia.
Qed.

Lemma lens_nonneg l : lens_ok l → Forall (λ x, 0 ≤ len x.2) l.
Proof. induction l as [|[a q] l IH]; simpl; intros Hl; constructor; naive_solver. Qed.

Lemma bytes_in_prefix l1 l2 : lens_ok (l1 ++ l2) → 0 ≤ bytes_in l1.
Proof. induction l1 as [|[a q] l1 IH]; simpl; [lia|]. intros (? & _ & _ & ?%IH). lia. Qed.
