(* ===== verification/PbufData.v ===== *)
(** * Packet buffers: reading, comparing and writing packet data

    Every operation here is proved equal to an operation on the byte string of
    the packet: the segmentation into pbufs is invisible to the users. *)

From S2P Require Import Prelude ByteMem Pbuf PbufFacts.

Section data.
Context {A : Type} `{Allocator A}.
Implicit Types s : pstate A.

Lemma set_dat_twice d d' s : set_dat d (set_dat d' s) = set_dat d s.
Proof. done. Qed.

Lemma chain_fuel_enough s p l : chain (pb s) p l → (length l < chain_fuel s)%nat.
Proof. intros Hc%chain_length. unfold chain_fuel. lia. Qed.

(** ** pbuf_copy_partial *)

Lemma copy_partial_loop_ok l : ∀ fuel p dst n off left cp c s,
  chain (pb s) p l → lens_ok l → content (dat s) l = Some c → (length l ≤ fuel)%nat →
  is_u16 n → is_u16 off → 0 ≤ left → 0 ≤ cp →
  left + zlen (slice off n c) ≤ 65535 → cp + zlen (slice off n c) ≤ 65535 →
  mapped (dat s) (dst + left) (zlen (slice off n c)) → away (dst + left) (zlen (slice off n c)) l →
  pbuf_copy_partial_loop fuel p dst n off left cp s =
    Ok (cp + zlen (slice off n c), set_dat (mwrite (dat s) (dst + left) (slice off n c)) s).
Proof.
  induction l as [|[a b] l IH]; intros fuel p dst n off left cp c s Hch Hl Hc Hf Hn Ho Hle Hcp Hb1 Hb2 Hm Haw.
  { simpl in Hch, Hc. simplify_eq. rewrite slice_nil. destruct fuel; simpl; rewrite Z.add_0_r; by destruct s. }
  destruct Hch as (-> & Ha & Hch). cbn [lens_ok content] in *. destruct Hl as (Hq & Ht & Htl & Hl).
  destruct (mread (dat s) (payload b) (Z.to_nat (len b))) as [c1|] eqn:E; simplify_eq/=.
  destruct (content (dat s) l) as [c2|] eqn:E2; simplify_eq/=.
  pose proof (lens_ok_range _ Hl). assert (Hc1 : zlen c1 = len b) by (apply mread_length in E; unfold zlen; lia).
  destruct fuel as [|fuel]; [simpl in Hf; lia|]. cbn [pbuf_copy_partial_loop].
  destruct (n =? 0) eqn:En; breflect.
  { subst n. unfold slice. simpl. rewrite Z.add_0_r. by destruct s. }
  unfold getp. rewrite Ha. cbn [deref mbind res_bind]. apply away_cons in Haw as [Haw1 Haw].
  destruct (negb (off =? 0) && (len b <=? off)) eqn:Eo; breflect.
  - rewrite slice_app_skip in * by lia. rewrite Hc1 in *. rewrite u16_id by ulia.
    rewrite (IH _ _ dst n (off - len b) left cp c2); try done; ulia.
  - assert (Hoff : 0 ≤ off ≤ zlen c1) by (unfold is_u16 in Ho; lia).
    rewrite slice_app_split in * by (unfold is_u16 in Hn; lia). set (k := Z.min n (zlen c1 - off)) in *.
    rewrite zlen_app, (zlen_slice off k c1) in * by (unfold is_u16 in *; lia).
    pose proof (zlen_nonneg (slice 0 (n - k) c2)). assert (0 ≤ k) by (unfold is_u16 in *; lia).
    assert (Hk : (if n <? u16 (len b - off) then n else u16 (len b - off)) = k).
    { rewrite u16_id by ulia. destruct (n <? len b - off) eqn:Ek; breflect; lia. }
    rewrite Hk. rewrite (memcpy_ok _ _ _ _ (slice off k c1)); [|unfold is_u16 in *; lia| |].
    2: { eapply mread_slice; [done|lia|unfold is_u16 in *; lia|lia]. }
    2: { eapply mapped_mono; [| |exact Hm]; lia. }
    cbn [mbind res_bind]. rewrite (u16_id (left + k)), (u16_id (cp + k)), (u16_id (n - k)) by ulia.
    rewrite (IH _ _ dst (n - k) 0 (left + k) (cp + k) c2); simpl; try done; try ulia.
    + rewrite set_dat_twice, mwrite_app, (zlen_slice off k) by (unfold is_u16 in *; lia).
      by rewrite !Z.add_assoc.
    + rewrite content_away; [done..|]. eapply away_mono; [| |exact Haw]; rewrite ?zlen_slice by (unfold is_u16 in *; lia); lia.
    + apply mapped_mwrite. eapply mapped_mono; [| |exact Hm]; lia.
    + eapply away_mono; [| |exact Haw]; lia.
Qed.

Lemma copy_partial_ok s p l c dst n off :
  chain (pb s) p l → lens_ok l → content (dat s) l = Some c → p ≠ None → dst ≠ 0 →
  is_u16 n → is_u16 off →
  mapped (dat s) dst (zlen (slice off n c)) → away dst (zlen (slice off n c)) l →
  pbuf_copy_partial p dst n off s =
    Ok (zlen (slice off n c), set_dat (mwrite (dat s) dst (slice off n c)) s).
Proof.
  intros Hch Hl Hc Hp Hd Hn Ho Hm Haw. unfold pbuf_copy_partial.
  rewrite bool_decide_eq_false_2 by done. replace (dst =? 0) with false by lia.
  cbn [negb LWIP_ASSERT mbind res_bind].
  assert (zlen (slice off n c) ≤ 65535).
  { rewrite slice_zlen by (unfold is_u16 in *; lia). unfold is_u16 in *. lia. }
  rewrite (copy_partial_loop_ok l _ _ _ _ _ _ _ c); rewrite ?Z.add_0_r; try done; try lia.
  apply chain_fuel_enough in Hch. lia.
Qed.

(** C5: pbuf_copy_partial copies a slice.  For every segmentation of a packet
    into pbufs and every [offset] and [len], exactly the bytes [offset, offset+len)
    of the packet that exist are stored at [dataptr], in order, nothing else in
    memory changes and their number is returned. *)
Theorem pbuf_copy_partial_slice s p l c dst n off :
  chain (pb s) p l → lens_ok l → content (dat s) l = Some c → p ≠ None → dst ≠ 0 →
  is_u16 n → is_u16 off → mapped (dat s) dst n → away dst n l →
  ∃ d, pbuf_copy_partial p dst n off s = Ok (Z.min n (Z.max 0 (zlen c - off)), set_dat d s) ∧
       mread d dst (length (slice off n c)) = Some (slice off n c) ∧
       (∀ i, i < dst ∨ dst + n ≤ i → d !! i = dat s !! i) ∧ content d l = Some c.
Proof.
  intros Hch Hl Hc Hp Hd Hn Ho Hm Haw.
  assert (Hz : 0 ≤ zlen (slice off n c) ≤ n) by (rewrite slice_zlen; unfold is_u16 in *; lia).
  exists (mwrite (dat s) dst (slice off n c)). split_and!.
  - rewrite <-slice_zlen by (unfold is_u16 in *; lia). apply (copy_partial_ok s p l c); try done.
    + eapply mapped_mono; [| |exact Hm]; lia.
    + eapply away_mono; [| |exact Haw]; lia.
  - apply mread_mwrite_same.
  - intros i Hi. rewrite lookup_mwrite, bool_decide_eq_false_2 by lia. done.
  - rewrite content_away; [done..|]. eapply away_mono; [| |exact Haw]; lia.
Qed.

(** ** pbuf_skip *)

Lemma skip_loop_ok l : ∀ fuel p off s,
  chain (pb s) p l → lens_ok l → is_u16 off → (length l ≤ fuel)%nat →
  (∃ l1 a b l2, l = l1 ++ (a, b) :: l2 ∧ chain (pb s) (Some a) ((a, b) :: l2) ∧ 0 ≤ bytes_in l1 ∧
     0 ≤ off - bytes_in l1 < len b ∧ pbuf_skip_loop fuel p off s = Ok (Some a, off - bytes_in l1)) ∨
  (bytes_in l ≤ off ∧ pbuf_skip_loop fuel p off s = Ok (None, off - bytes_in l)).
Proof.
  induction l as [|[a b] l IH]; intros fuel p off s Hch Hl Ho Hf.
  { simpl in Hch. subst p. right. unfold is_u16 in Ho. simpl. rewrite Z.sub_0_r. destruct fuel; (split; [lia|done]). }
  pose proof Hch as (-> & Ha & Hch'). pose proof (lens_ok_range _ Hl). destruct Hl as (Hq & Ht & Htl & Hl).
  destruct fuel as [|fuel]; [simpl in Hf; lia|]. cbn [pbuf_skip_loop]. unfold getp. rewrite Ha.
  cbn [deref mbind res_bind bytes_in]. destruct (len b <=? off) eqn:E; breflect.
  - rewrite u16_id by ulia.
    destruct (IH fuel (next b) (off - len b) s) as [(l1 & a1 & b1 & l2 & -> & Hc & Hge & Hr & ->)|(Hge & ->)];
      try done; [ulia|simpl in Hf; lia| |].
    + left. exists ((a, b) :: l1), a1, b1, l2. cbn [app bytes_in].
      replace (off - (len b + bytes_in l1)) with (off - len b - bytes_in l1) by lia.
      split; [done|]. split; [done|]. split; [lia|]. split; [lia|done].
    + right. replace (off - (len b + bytes_in l)) with (off - len b - bytes_in l) by lia. split; [lia|done].
  - left. exists [], a, b, l. cbn [app bytes_in]. rewrite Z.sub_0_r. unfold is_u16 in Ho.
    split; [done|]. split; [done|]. split; [lia|]. split; [lia|done].
Qed.

Lemma skip_ok s p l off :
  chain (pb s) p l → lens_ok l → is_u16 off →
  (∃ l1 a b l2, l = l1 ++ (a, b) :: l2 ∧ chain (pb s) (Some a) ((a, b) :: l2) ∧ 0 ≤ bytes_in l1 ∧
     0 ≤ off - bytes_in l1 < len b ∧ pbuf_skip_const p off s = Ok (Some a, off - bytes_in l1)) ∨
  (bytes_in l ≤ off ∧ pbuf_skip_const p off s = Ok (None, off - bytes_in l)).
Proof.
  intros Hch Hl Ho. apply skip_loop_ok; try done. apply chain_fuel_enough in Hch. lia.
Qed.

(** ** Single bytes *)

Lemma try_get_at_ok s p l c off :
  chain (pb s) p l → lens_ok l → content (dat s) l = Some c → is_u16 off →
  pbuf_try_get_at p off s = Ok (default (-1) (c !! Z.to_nat off)).
Proof.
  intros Hch Hl Hc Ho. pose proof (content_length _ _ _ Hl Hc) as Hlen. unfold pbuf_try_get_at.
  destruct (skip_ok s p l off Hch Hl Ho) as [(l1 & a & b & l2 & -> & Hc' & _ & Hr & ->)|(Hge & ->)].
  - destruct Hc' as (_ & Ha & _). cbn [mbind res_bind]. unfold getp. rewrite Ha. cbn [deref mbind res_bind].
    replace (off - bytes_in l1 <? len b) with true by lia.
    rewrite (content_lookup _ _ _ _ _ _ _ Hl Hc Hr).
    replace (bytes_in l1 + (off - bytes_in l1)) with off by lia.
    destruct (c !! Z.to_nat off) eqn:E; [done|]. exfalso.
    apply lookup_ge_None_1 in E. rewrite bytes_in_app in Hlen. simpl in Hlen.
    apply lens_ok_app in Hl. cbn [lens_ok] in Hl. destruct Hl as (_ & _ & _ & Hl). apply lens_ok_range in Hl.
    unfold zlen, is_u16 in *. lia.
  - cbn [mbind res_bind]. rewrite lookup_ge_None_2; [done|]. unfold zlen in Hlen. lia.
Qed.

Lemma get_at_ok s p l c off :
  chain (pb s) p l → lens_ok l → content (dat s) l = Some c → Forall is_u8 c → is_u16 off →
  pbuf_get_at p off s = Ok (default 0 (c !! Z.to_nat off)).
Proof.
  intros Hch Hl Hc Hb Ho. unfold pbuf_get_at. rewrite (try_get_at_ok s p l c off) by done. cbn [mbind res_bind].
  destruct (c !! Z.to_nat off) as [x|] eqn:E; simpl; [|done].
  assert (Hx : is_u8 x) by (eapply Forall_lookup_1; done).
  replace (0 <=? x) with true by (unfold is_u8 in Hx; lia). by rewrite u8_id.
Qed.

(** ** pbuf_memcmp *)

(** The result of comparing [n] bytes of [c] from [off] on with [w]: 0, or one more
    than the index of the first difference. *)
Fixpoint cmp_from (i : Z) (c w : list Z) : Z :=
  match c, w with
  | x :: c, y :: w => if x =? y then cmp_from (i + 1) c w else i + 1
  | _, _ => 0
  end.

Lemma memcmp_loop_ok s q l c start str w : ∀ fuel i,
  chain (pb s) q l → lens_ok l → content (dat s) l = Some c → Forall is_u8 c →
  0 ≤ start → 0 ≤ i → start + i + Z.of_nat fuel ≤ zlen c → start + i + Z.of_nat fuel ≤ 65535 →
  mread (dat s) (str + i) fuel = Some w →
  pbuf_memcmp_loop fuel q start str i s = Ok (cmp_from i (drop (Z.to_nat (start + i)) c) w).
Proof.
  intros fuel; revert w; induction fuel as [|fuel IH]; intros w i Hch Hl Hc Hb Hs Hi Hle Hle' Hw.
  { simpl in Hw. simplify_eq. simpl. by destruct (drop _ c). }
  cbn [pbuf_memcmp_loop]. rewrite (get_at_ok s q l c) by (done || ulia). cbn [mbind res_bind].
  rewrite u16_id by ulia.
  destruct (c !! Z.to_nat (start + i)) as [x|] eqn:Ex.
  2: { apply lookup_ge_None_1 in Ex. unfold zlen in Hle. lia. }
  cbn [mread] in Hw. destruct (dat s !! (str + i)) as [y|] eqn:Ey; simplify_eq/=.
  destruct (mread (dat s) (str + i + 1) fuel) as [w'|] eqn:Ew; simplify_eq/=.
  rewrite (drop_S _ _ _ Ex). cbn [cmp_from]. destruct (x =? y) eqn:Exy; cbn [negb].
  - rewrite u16_id by ulia. rewrite (IH w') by (done || lia || (by rewrite Z.add_assoc)). do 3 f_equal. lia.
  - rewrite Z.min_l, u16_id by ulia. done.
Qed.

Lemma memcmp_ok s p l c off str n w :
  chain (pb s) (Some p) l → lens_ok l → content (dat s) l = Some c → Forall is_u8 c →
  is_u16 off → is_u16 n → mread (dat s) str (Z.to_nat n) = Some w →
  pbuf_memcmp p off str n s =
    Ok (if zlen c <? off + n then 65535 else cmp_from 0 (drop (Z.to_nat off) c) w).
Proof.
  intros Hch Hl Hc Hb Ho Hn Hw. pose proof (content_length _ _ _ Hl Hc) as Hlen.
  pose proof (lens_ok_range _ Hl) as Hr.
  destruct l as [|[a b] l']; [done|]. pose proof Hch as (Hp & Ha & _). simplify_eq.
  unfold pbuf_memcmp, getp. rewrite Ha. cbn [deref mbind res_bind].
  assert (Ht : tot_len b = zlen c) by (simpl in *; lia). rewrite Ht.
  assert (Htot : zlen c ≤ 65535) by lia.
  destruct (zlen c <? off + n) eqn:E; [done|]. breflect.
  destruct (decide (n = 0)) as [->|Hn0].
  { simpl in Hw. simplify_eq. replace (cmp_from 0 _ []) with 0 by (by destruct (drop _ c)).
    fold (pbuf_skip_const (Some a) off s).
    destruct (skip_ok s _ _ off Hch Hl Ho) as [(? & ? & ? & ? & _ & _ & _ & _ & ->)|(_ & ->)]; done. }
  fold (pbuf_skip_const (Some a) off s).
  destruct (skip_ok s _ _ off Hch Hl Ho) as [(l1 & a1 & b1 & l2 & Heq & Hch1 & Hge1 & Hr1 & ->)|(Hge & _)].
  2: { unfold is_u16 in Hn. lia. }
  cbn [mbind res_bind]. rewrite Heq in Hl, Hc, Hlen.
  pose proof Hc as Hc2. rewrite content_app in Hc2. destruct (content (dat s) l1) as [c1|] eqn:E1; simplify_eq/=.
  destruct (mread (dat s) (payload b1) _) as [cb|] eqn:Eb; simplify_eq/=.
  destruct (content (dat s) l2) as [c2|] eqn:E2; simplify_eq/=.
  pose proof (lens_ok_app _ _ Hl) as Hl2.
  assert (Hc12 : content (dat s) ((a1, b1) :: l2) = Some (cb ++ c2)) by (simpl; by rewrite Eb, E2).
  pose proof (content_length _ _ _ Hl2 Hc12) as Hlen2. rewrite bytes_in_app in Hlen. rewrite !zlen_app in *.
  rewrite (memcmp_loop_ok s (Some a1) ((a1, b1) :: l2) (cb ++ c2) (off - bytes_in l1) str w); try done.
  - do 2 f_equal. rewrite Z.add_0_r.
    assert (zlen c1 = bytes_in l1) by (simpl in *; lia).
    rewrite (drop_app_ge c1) by (unfold zlen in *; lia). f_equal. unfold zlen in *. lia.
  - by apply Forall_app in Hb as [_ ?].
  - lia.
  - rewrite zlen_app. simpl in *. unfold is_u16 in *. lia.
  - unfold is_u16 in *. lia.
  - by rewrite Z.add_0_r.
Qed.

Lemma cmp_from_spec i c w :
  0 ≤ i → (length w ≤ length c)%nat →
  (cmp_from i c w = 0 ↔ take (length w) c = w) ∧
  (cmp_from i c w ≠ 0 → ∃ k : nat, cmp_from i c w = i + Z.of_nat k + 1 ∧ (k < length w)%nat ∧
      take k c = take k w ∧ c !! k ≠ w !! k).
Proof.
  revert i c; induction w as [|y w IH]; intros i [|x c] Hi Hle; simpl in *; try (done || lia).
  destruct (x =? y) eqn:E; breflect.
  - subst y. destruct (IH (i + 1) c) as [H1 H2]; [lia..|]. split.
    + rewrite H1. split; [by intros ->|intros Heq; by injection Heq].
    + intros Hne. destruct (H2 Hne) as (k & -> & Hk & Ht & Hd). exists (S k). simpl. rewrite Ht.
      split_and!; [lia|lia|done|done].
  - split; [split; [lia|congruence]|]. intros _. exists 0%nat. simpl. split_and!; [lia|lia|done|congruence].
Qed.

Lemma slice_take_drop {B} off (w c : list B) : slice off (zlen w) c = take (length w) (drop (Z.to_nat off) c).
Proof. unfold slice, zlen. by rewrite Nat2Z.id. Qed.

(** pbuf_memcmp compares across pbuf boundaries.  When the packet holds
    [n] bytes from [offset] on, the result is 0 exactly when they equal the [n]
    bytes at [str], and otherwise one more than the index of the first byte that
    differs; when the packet is too short the result is 0xffff. *)
Theorem pbuf_memcmp_exact s p l c off str n w :
  chain (pb s) (Some p) l → lens_ok l → content (dat s) l = Some c → Forall is_u8 c →
  is_u16 off → is_u16 n → mread (dat s) str (Z.to_nat n) = Some w →
  (zlen c < off + n → pbuf_memcmp p off str n s = Ok 65535) ∧
  (off + n ≤ zlen c → ∃ r, pbuf_memcmp p off str n s = Ok r ∧ (r = 0 ↔ slice off n c = w) ∧
     (r ≠ 0 → ∃ k : nat, r = Z.of_nat k + 1 ∧ (k < length w)%nat ∧
        take k (slice off n c) = take k w ∧ slice off n c !! k ≠ w !! k)).
Proof.
  intros Hch Hl Hc Hb Ho Hn Hw. rewrite (memcmp_ok s p l c off str n w) by done. split.
  { intros Hlt. by replace (zlen c <? off + n) with true by lia. }
  intros Hle. replace (zlen c <? off + n) with false by lia. eexists. split; [done|].
  assert (Hlw : zlen w = n) by (apply mread_length in Hw; unfold zlen, is_u16 in *; lia).
  destruct (cmp_from_spec 0 (drop (Z.to_nat off) c) w) as [H1 H2]; [lia| |].
  { rewrite length_drop. unfold zlen, is_u16 in *. lia. }
  rewrite <-Hlw, slice_take_drop. split; [done|]. intros Hne. destruct (H2 Hne) as (k & Hk & Hlt & Ht & Hd).
  exists k. rewrite Hk, take_take, Nat.min_l, lookup_take_lt by lia. split_and!; try done.
Qed.

(** ** pbuf_memfind *)

Lemma memcmp_zero s p l c i str n w :
  chain (pb s) (Some p) l → lens_ok l → content (dat s) l = Some c → Forall is_u8 c →
  is_u16 i → is_u16 n → mread (dat s) str (Z.to_nat n) = Some w → i + n ≤ zlen c →
  ∃ r, pbuf_memcmp p i str n s = Ok r ∧ (r = 0 ↔ slice i n c = w).
Proof.
  intros Hch Hl Hc Hb Ho Hn Hw Hle. rewrite (memcmp_ok s p l c i str n w) by done.
  replace (zlen c <? i + n) with false by lia. eexists. split; [done|].
  assert (Hlw : zlen w = n) by (apply mread_length in Hw; unfold zlen, is_u16 in *; lia).
  destruct (cmp_from_spec 0 (drop (Z.to_nat i) c) w) as [H1 _]; [lia| |].
  { rewrite length_drop. unfold zlen, is_u16 in *. lia. }
  by rewrite <-Hlw, slice_take_drop.
Qed.

Lemma memfind_loop_ok s p l c str n w : ∀ fuel i,
  chain (pb s) (Some p) l → lens_ok l → content (dat s) l = Some c → Forall is_u8 c →
  1 ≤ n ≤ 65535 → mread (dat s) str (Z.to_nat n) = Some w → n ≤ zlen c →
  0 ≤ i ≤ zlen c - n + 1 → zlen c - n + 1 - i ≤ Z.of_nat fuel →
  ∃ r, pbuf_memfind_loop fuel p str n (zlen c - n) i s = Ok r ∧
    ((i ≤ r ≤ zlen c - n ∧ slice r n c = w ∧ ∀ j, i ≤ j < r → slice j n c ≠ w) ∨
     (r = 65535 ∧ ∀ j, i ≤ j ≤ zlen c - n → slice j n c ≠ w)).
Proof.
  intros fuel; induction fuel as [|fuel IH]; intros i Hch Hl Hc Hb Hn Hw Hnc Hi Hf; cbn [pbuf_memfind_loop];
    pose proof (content_length _ _ _ Hl Hc) as Hlen; pose proof (lens_ok_range _ Hl).
  { replace (zlen c - n <? i) with true by lia. exists 65535. split; [done|]. right. split; [done|]. lia. }
  destruct (zlen c - n <? i) eqn:E; breflect.
  { exists 65535. split; [done|]. right. split; [done|]. lia. }
  destruct (memcmp_zero s p l c i str n w) as (r & -> & Hr); try done; try ulia. cbn [mbind res_bind].
  destruct (r =? 0) eqn:E0; breflect.
  { exists i. split; [done|]. left. split_and!; [lia|lia|by apply Hr|lia]. }
  assert (Hne : slice i n c ≠ w) by tauto. rewrite u16_id by ulia.
  destruct (IH (i + 1)) as (r' & -> & Hr'); try done; [lia..|]. exists r'. split; [done|].
  destruct Hr' as [(Hr1 & Hr2 & Hr3)|(Hr1 & Hr2)]; [left|right].
  - split_and!; [lia|lia|done|]. intros j Hj. destruct (decide (j = i)) as [->|]; [done|]. apply Hr3. lia.
  - split; [done|]. intros j Hj. destruct (decide (j = i)) as [->|]; [done|]. apply Hr2. lia.
Qed.

(** pbuf_memfind finds the first occurrence.  For a non-empty pattern the
    result is the smallest offset from [start] on at which the packet holds the
    pattern, across pbuf boundaries, and 0xFFFF exactly when there is none. *)
Theorem pbuf_memfind_first s p l c str n w start :
  chain (pb s) (Some p) l → lens_ok l → content (dat s) l = Some c → Forall is_u8 c →
  1 ≤ n ≤ 65535 → is_u16 start → mread (dat s) str (Z.to_nat n) = Some w →
  ∃ r, pbuf_memfind p str n start s = Ok r ∧
    ((start ≤ r ∧ r + n ≤ zlen c ∧ slice r n c = w ∧ ∀ j, start ≤ j < r → slice j n c ≠ w) ∨
     (r = 65535 ∧ ∀ j, start ≤ j → slice j n c ≠ w)).
Proof.
  intros Hch Hl Hc Hb Hn Hst Hw. pose proof (content_length _ _ _ Hl Hc) as Hlen.
  assert (Hlw : zlen w = n) by (apply mread_length in Hw; unfold zlen; lia).
  assert (Hbig : ∀ j, 0 ≤ j → zlen c - n < j → slice j n c ≠ w).
  { intros j Hj Hgt Heq. apply (f_equal zlen) in Heq. rewrite slice_zlen in Heq by lia. lia. }
  pose proof (lens_ok_range _ Hl). destruct l as [|[a b] l']; [done|]. pose proof Hch as (Hp & Ha & _). simplify_eq.
  unfold pbuf_memfind, getp. rewrite Ha. cbn [deref mbind res_bind].
  assert (Ht : tot_len b = zlen c) by (simpl in *; lia). rewrite Ht.
  destruct (zlen w + start <=? zlen c) eqn:E; breflect.
  - rewrite u16_id by ulia. unfold is_u16 in Hst.
    destruct (memfind_loop_ok s a ((a, b) :: l') c str (zlen w) w (Z.to_nat 65536) start)
      as (r & -> & Hr); try done; try lia.
    exists r. split; [done|]. destruct Hr as [(H1 & H2 & H3)|(H1 & H2)]; [left|right].
    + split_and!; try done; lia.
    + split; [done|]. intros j Hj. destruct (decide (j ≤ zlen c - zlen w)); [apply H2; lia|apply Hbig; lia].
  - exists 65535. split; [done|]. right. split; [done|]. unfold is_u16 in Hst. intros j Hj. apply Hbig; lia.
Qed.

(** ** Writing *)

Lemma put_at_ok s p l c off x :
  chain (pb s) p l → lens_ok l → sep l → content (dat s) l = Some c → is_u16 off →
  ∃ d, pbuf_put_at p off x s = Ok (set_dat d s) ∧
       content d l = Some (if off <? zlen c then splice off [x] c else c) ∧
       (∀ i, away i 1 l → d !! i = dat s !! i).
Proof.
  intros Hch Hl Hsep Hc Ho. pose proof (content_length _ _ _ Hl Hc) as Hlen. unfold pbuf_put_at, pbuf_skip.
  destruct (skip_ok s p l off Hch Hl Ho) as [(l1 & a & b & l2 & -> & Hc' & Hge1 & Hr & ->)|(Hge & ->)].
  2: { exists (dat s). replace (off <? zlen c) with false by lia. simpl. destruct s. done. }
  destruct Hc' as (_ & Ha & _). cbn [mbind res_bind]. unfold getp. rewrite Ha. cbn [deref mbind res_bind].
  replace (off - bytes_in l1 <? len b) with true by lia. unfold mstore.
  assert (Hm : mapped (dat s) (payload b + (off - bytes_in l1)) (zlen [x])).
  { intros i Hi. unfold zlen in Hi. simpl in Hi. replace i with 0 by lia. rewrite Z.add_0_r.
    rewrite (content_lookup _ _ _ _ _ _ _ Hl Hc Hr). apply lookup_lt_is_Some.
    pose proof (lens_ok_app _ _ Hl) as (_ & _ & _ & Hl2). apply lens_ok_range in Hl2.
    rewrite bytes_in_app in Hlen. simpl in Hlen. unfold zlen, is_u16 in *. lia. }
  rewrite (proj2 (mapped_b_spec _ _ _ (zlen_nonneg _)) Hm). cbn [mbind res_bind]. eexists. split; [done|]. split.
  - rewrite (content_write (dat s) l1 a b l2 c) by (done || lia || (unfold zlen; simpl; lia)).
    replace (bytes_in l1 + (off - bytes_in l1)) with off by lia. replace (off <? zlen c) with true; [done|].
    pose proof (lens_ok_app _ _ Hl) as (_ & _ & _ & Hl2). apply lens_ok_range in Hl2.
    rewrite bytes_in_app in Hlen. simpl in Hlen. lia.
  - intros i Hi. rewrite lookup_mwrite, bool_decide_eq_false_2; [done|]. unfold away in Hi.
    rewrite Forall_forall in Hi. specialize (Hi (a, b) ltac:(set_solver)). simpl in Hi. unfold zlen. simpl. lia.
Qed.

Lemma away_app a n l1 l2 : away a n (l1 ++ l2) ↔ away a n l1 ∧ away a n l2.
Proof. apply Forall_app. Qed.

Lemma sep_app l1 l2 : sep (l1 ++ l2) ↔ sep l1 ∧ sep l2 ∧ Forall (λ x, away (payload x.2) (len x.2) l2) l1.
Proof.
  induction l1 as [|[a q] l1 IH]; simpl; [naive_solver|]. rewrite IH, away_app, Forall_cons. simpl. naive_solver.
Qed.

Lemma content_frame d d' l :
  Forall (λ x, 0 ≤ len x.2) l → (∀ x i, x ∈ l → payload x.2 ≤ i < payload x.2 + len x.2 → d' !! i = d !! i) →
  content d' l = content d l.
Proof.
  induction l as [|[a q] l IH]; intros Hl Hf; [done|]. apply Forall_cons in Hl as [? Hl]. simpl in *.
  rewrite IH; [|done|]. 2: { intros x i Hx. apply Hf. by right. }
  rewrite (mread_ext d' d); [done|]. intros i Hi. apply (Hf (a, q)); [by left|]. simpl. lia.
Qed.

(** A change of the rest of a packet. *)
Lemma content_rest d1 d l1 l2 c x2 w :
  lens_ok (l1 ++ l2) → sep (l1 ++ l2) → content d1 (l1 ++ l2) = Some c → content d1 l2 = Some x2 →
  content d l2 = Some (splice 0 w x2) → (∀ i, away i 1 l2 → d !! i = d1 !! i) →
  content d (l1 ++ l2) = Some (splice (bytes_in l1) w c).
Proof.
  intros Hl Hsep Hc Hx2 Hd Hfr. pose proof (content_length _ _ _ Hl Hc) as Hlen.
  pose proof (content_length _ _ _ (lens_ok_app _ _ Hl) Hx2) as Hlen2. rewrite bytes_in_app in Hlen.
  apply sep_app in Hsep as (_ & _ & Hout). rewrite Forall_forall in Hout.
  rewrite content_app in Hc |- *. pose proof (lens_nonneg _ Hl) as Hnn. apply Forall_app in Hnn as [Hnn _].
  rewrite (content_frame d1 d l1), Hd; [|done|].
  2: { intros x i Hx Hi. apply Hfr. eapply away_mono; [| |exact (Hout _ Hx)]; lia. }
  destruct (content d1 l1) as [c1|]; [|done]. rewrite Hx2 in Hc. cbn [mbind option_bind] in *. injection Hc as <-.
  rewrite zlen_app in Hlen. f_equal. rewrite splice_app_r by lia. by replace (bytes_in l1 - zlen c1) with 0 by lia.
Qed.

(** Two adjacent parts of the bytes written. *)
Lemma splice_parts {B} off k (w c : list B) : 0 ≤ off → 0 ≤ k ≤ zlen w → off + zlen w ≤ zlen c →
  splice (off + k) (slice k (zlen w - k) w) (splice off (slice 0 k w) c) = splice off w c.
Proof.
  intros Ho Hk Hle. rewrite <-(zlen_slice 0 k w) at 1 by lia. rewrite splice_splice by (rewrite ?zlen_slice; lia).
  f_equal. unfold slice, zlen in *. simpl. rewrite drop_0, (take_ge (drop _ _)) by (rewrite length_drop; lia). apply take_drop.
Qed.

(** [w] is written from byte [i] of one struct on: a first part into this struct, the other
    part into the structs behind it. *)
Lemma content_across d0 d l1 a b l2 c x2 w i : let k := Z.min (len b - i) (zlen w) in
  let d1 := mwrite d0 (payload b + i) (slice 0 k w) in
  lens_ok (l1 ++ (a, b) :: l2) → sep (l1 ++ (a, b) :: l2) → content d0 (l1 ++ (a, b) :: l2) = Some c →
  0 ≤ i ≤ len b → bytes_in l1 + i + zlen w ≤ zlen c → content d1 l2 = Some x2 →
  content d l2 = Some (splice 0 (slice k (zlen w - k) w) x2) → (∀ j, away j 1 l2 → d !! j = d1 !! j) →
  content d (l1 ++ (a, b) :: l2) = Some (splice (bytes_in l1 + i) w c).
Proof.
  intros k d1 Hl Hsep Hc Hi Hw Hx2 Hd Hfr. pose proof (zlen_nonneg w). pose proof (bytes_in_prefix _ _ Hl).
  assert (Hk : 0 ≤ k ≤ zlen w) by lia.
  assert (Hc1 : content d1 (l1 ++ (a, b) :: l2) = Some (splice (bytes_in l1 + i) (slice 0 k w) c))
    by (apply content_write; rewrite ?zlen_slice; done || lia).
  replace (l1 ++ (a, b) :: l2) with ((l1 ++ [(a, b)]) ++ l2) in * by by rewrite <-app_assoc.
  rewrite (content_rest d1 d _ l2 _ x2 _ Hl Hsep Hc1 Hx2 Hd Hfr). f_equal.
  rewrite bytes_in_app in *. simpl in *. destruct (decide (len b - i ≤ zlen w)) as [Hle|Hgt].
  - replace (bytes_in l1 + (len b + 0)) with (bytes_in l1 + i + k) by lia. apply splice_parts; lia.
  - replace (zlen w - k) with 0 by lia. change (slice k 0 w) with (@nil Z). rewrite splice_nil by lia.
    f_equal. apply slice_0_all. lia.
Qed.

Lemma take_loop_ok l : ∀ fuel p src n cp c w s,
  chain (pb s) p l → lens_ok l → sep l → content (dat s) l = Some c → (length l ≤ fuel)%nat →
  mread (dat s) (src + cp) (Z.to_nat n) = Some w → away (src + cp) n l →
  0 ≤ n ≤ zlen c → 0 ≤ cp → cp + n < 4294967296 →
  ∃ d, pbuf_take_loop fuel p src n cp s = Ok (0, cp + n, set_dat d s) ∧
       content d l = Some (splice 0 w c) ∧ (∀ i, away i 1 l → d !! i = dat s !! i).
Proof.
  induction l as [|[a b] l IH]; intros fuel p src n cp c w s Hch Hl Hsep Hc Hf Hw Haw Hn Hcp Hlt.
  { simpl in Hc. simplify_eq. unfold zlen in Hn. simpl in Hn. replace n with 0 in * by lia. simpl in Hw.
    simplify_eq. exists (dat s). destruct s, fuel; simpl; by rewrite Z.add_0_r. }
  assert (Hlw : zlen w = n) by (apply mread_length in Hw; unfold zlen; lia).
  destruct (decide (n = 0)) as [->|Hn0].
  { assert (w = []) as -> by (destruct w; [done|unfold zlen in Hlw; simpl in Hlw; lia]).
    exists (dat s). rewrite splice_nil by lia. destruct s, fuel; simpl; by rewrite Z.add_0_r. }
  destruct fuel as [|fuel]; [simpl in Hf; lia|]. cbn [pbuf_take_loop]. replace (n =? 0) with false by lia.
  pose proof (lens_ok_range _ Hl) as Hr. destruct Hch as (-> & Ha & Hch), Hl as (Hq & Ht & Htl & Hl), Hsep as [Hsb Hsep].
  apply away_cons in Haw as [Hab Haw]. cbn [content] in Hc.
  destruct (mread (dat s) (payload b) (Z.to_nat (len b))) as [c1|] eqn:E; simplify_eq/=.
  destruct (content (dat s) l) as [c2|] eqn:E2; simplify_eq/=.
  assert (Hc1 : zlen c1 = len b) by (apply mread_length in E; unfold zlen; lia).
  unfold getp. rewrite Ha. cbn [deref mbind res_bind].
  set (k := if len b <? zlen w then len b else zlen w).
  assert (Hk : k = Z.min (len b - 0) (zlen w)) by (unfold k; destruct (len b <? zlen w) eqn:Ek; breflect; lia).
  assert (Hzk : zlen (slice 0 k w) = k) by (rewrite zlen_slice; lia).
  rewrite (memcpy_ok _ _ _ _ (slice 0 k w)); [|lia| |].
  2: { rewrite <-(Z.add_0_r (src + cp)). eapply mread_slice; [done|lia..]. }
  2: { eapply mapped_mono; [| |eapply mread_mapped; exact E]; lia. }
  cbn [mbind res_bind]. rewrite !u32_id by ulia. set (d1 := mwrite (dat s) (payload b) (slice 0 k w)).
  assert (E2' : content d1 l = Some c2).
  { unfold d1. rewrite content_away; [done..|]. eapply away_mono; [| |exact Hsb]; lia. }
  rewrite zlen_app in Hn. pose proof (zlen_nonneg c2).
  destruct (IH fuel (next b) src (zlen w - k) (cp + k) c2 (slice k (zlen w - k) w) (set_dat d1 s))
    as (d & -> & Hd & Hfr); simpl; try done; try lia.
  { unfold d1. rewrite mread_mwrite_disjoint by lia. rewrite Z.add_assoc. eapply mread_slice; [done|lia..]. }
  { eapply away_mono; [| |exact Haw]; lia. }
  exists d. split; [by replace (cp + k + (zlen w - k)) with (cp + zlen w) by lia|]. split.
  - apply (content_across (dat s) d [] a b l (c1 ++ c2) c2 w 0); cbn [app bytes_in]; try done; try lia.
    + simpl. by rewrite E, E2.
    + rewrite zlen_app. lia.
    + by rewrite <-Hk, Z.add_0_r.
    + by rewrite <-Hk.
    + by rewrite <-Hk, Z.add_0_r.
  - intros i [Hib Hi]%away_cons. rewrite Hfr by done. simpl. unfold d1.
    rewrite lookup_mwrite, bool_decide_eq_false_2 by lia. done.
Qed.

Lemma take_ok s p l c src n w :
  chain (pb s) (Some p) l → lens_ok l → sep l → content (dat s) l = Some c →
  src ≠ 0 → mread (dat s) src (Z.to_nat n) = Some w → away src n l → 0 ≤ n ≤ zlen c →
  ∃ d, pbuf_take (Some p) src n s = Ok (ERR_OK, set_dat d s) ∧
       content d l = Some (splice 0 w c) ∧ (∀ i, away i 1 l → d !! i = dat s !! i).
Proof.
  intros Hch Hl Hsep Hc Hsrc Hw Haw Hn. pose proof (content_length _ _ _ Hl Hc) as Hlen.
  pose proof (lens_ok_range _ Hl). pose proof (chain_fuel_enough _ _ _ Hch) as Hfuel.
  destruct (take_loop_ok l (chain_fuel s) (Some p) src n 0 c w s) as (d & Ht & Hd & Hfr);
    rewrite ?Z.add_0_r; try done; try lia.
  exists d. split; [|done]. unfold pbuf_take. replace (src =? 0) with false by lia.
  cbn [negb LWIP_ASSERT mbind res_bind]. destruct l as [|[a b] l']; [done|].
  pose proof Hch as (Hp & Ha & _). simplify_eq. unfold getp. rewrite Ha. cbn [deref mbind res_bind].
  replace (n <=? tot_len b) with true by (simpl in *; lia). cbn [LWIP_ASSERT mbind res_bind]. rewrite Ht.
  cbn [mbind res_bind]. by rewrite Z.add_0_l, !Z.eqb_refl.
Qed.

Lemma content_mapped d l1 a b l2 c :
  content d (l1 ++ (a, b) :: l2) = Some c → mapped d (payload b) (len b).
Proof.
  intros Hc. rewrite content_app in Hc. destruct (content d l1); simplify_eq/=.
  destruct (mread d (payload b) (Z.to_nat (len b))) eqn:E; simplify_eq/=. by eapply mread_mapped.
Qed.

(** pbuf_take_at overwrites a slice.  When the packet holds [len] bytes from
    [offset] on (and [offset] lies inside it), the bytes at [dataptr] replace exactly
    the packet bytes [offset, offset+len), across pbuf boundaries, ERR_OK is returned
    and no byte outside the payloads of the packet changes; otherwise ERR_MEM is
    returned and nothing changes. *)
Theorem pbuf_take_at_splices s p l c src n off w :
  chain (pb s) p l → lens_ok l → sep l → content (dat s) l = Some c →
  0 < src → mread (dat s) src (Z.to_nat n) = Some w → away src n l → is_u16 n → is_u16 off →
  (off < zlen c ∧ off + n ≤ zlen c →
     ∃ d, pbuf_take_at p src n off s = Ok (ERR_OK, set_dat d s) ∧
          content d l = Some (splice off w c) ∧ (∀ i, away i 1 l → d !! i = dat s !! i)) ∧
  (zlen c ≤ off ∨ zlen c < off + n → pbuf_take_at p src n off s = Ok (ERR_MEM, s)).
Proof.
  intros Hch Hl Hsep Hc Hsrc Hw Haw Hn Ho. pose proof (content_length _ _ _ Hl Hc) as Hlen.
  assert (Hlw : zlen w = n) by (apply mread_length in Hw; unfold zlen, is_u16 in *; lia).
  unfold pbuf_take_at, pbuf_skip.
  destruct (skip_ok s p l off Hch Hl Ho) as [(l1 & a & b & l2 & -> & Hc' & Hge1 & Hr & ->)|(Hge & ->)].
  2: { split; [lia|done]. }
  destruct Hc' as (_ & Ha & Hch2). cbn [mbind res_bind]. unfold getp. rewrite Ha. cbn [deref mbind res_bind].
  pose proof (lens_ok_app _ _ Hl) as Hl2. cbn [lens_ok] in Hl2. destruct Hl2 as (Hq & Ht & Htl & Hl2).
  rewrite bytes_in_app in Hlen. cbn [bytes_in] in Hlen. pose proof (lens_ok_range _ Hl2) as Hr2.
  replace (off - bytes_in l1 + n <=? tot_len b) with (off + n <=? zlen c) by lia.
  split; intros Hcase.
  2: { by replace (off + n <=? zlen c) with false by lia. }
  replace (off + n <=? zlen c) with true by lia. set (i := off - bytes_in l1) in *.
  replace (i <? len b) with true by lia. cbn [LWIP_ASSERT mbind res_bind]. unfold is_u16 in Hn, Ho.
  set (k := Z.min (len b - i) n). rewrite (u16_id k) by ulia.
  assert (Hzk : zlen (slice 0 k w) = k) by (rewrite zlen_slice; lia).
  assert (Hab : src + n ≤ payload b ∨ payload b + len b ≤ src).
  { unfold away in Haw. rewrite Forall_forall in Haw. apply (Haw (a, b)). set_solver. }
  rewrite (memcpy_ok _ _ _ _ (slice 0 k w)); [|lia| |].
  2: { rewrite <-(Z.add_0_r src). eapply mread_slice; [done|lia..]. }
  2: { eapply mapped_mono; [| |eapply content_mapped; exact Hc]; lia. }
  cbn [mbind res_bind]. rewrite (u16_id (n - k)) by ulia.
  set (d1 := mwrite (dat s) (payload b + i) (slice 0 k w)).
  assert (Hc1 : content d1 (l1 ++ (a, b) :: l2) = Some (splice off (slice 0 k w) c)).
  { unfold d1. rewrite (content_write (dat s) l1 a b l2 c) by (done || lia).
    by replace (bytes_in l1 + i) with off by lia. }
  assert (Hfr1 : ∀ j, away j 1 (l1 ++ (a, b) :: l2) → d1 !! j = dat s !! j).
  { intros j Hj. unfold d1. rewrite lookup_mwrite, bool_decide_eq_false_2; [done|]. unfold away in Hj.
    rewrite Forall_forall in Hj. specialize (Hj (a, b) ltac:(set_solver)). simpl in Hj. lia. }
  destruct (0 <? n - k) eqn:Ek; breflect.
  2: { exists d1. split; [done|]. split; [|done]. rewrite Hc1. by rewrite slice_0_all by lia. }
  assert (Hk : k = len b - i) by lia.
  destruct (next b) as [p2|] eqn:En.
  2: { destruct l2 as [|[??] ?]; simpl in Hch2; [|naive_solver]. simpl in Hlen. lia. }
  pose proof Hc1 as Hc1'. rewrite content_app in Hc1'. cbn [content] in Hc1'.
  destruct (content d1 l2) as [x2|] eqn:Ex2; [|by destruct (content d1 l1), (mread d1 _ _)].
  assert (Hx2 : zlen x2 = bytes_in l2) by (by eapply content_length).
  assert (Haw2 : away src n l2) by (apply away_app in Haw as [_ [_ Haw]%away_cons]; done).
  destruct (take_ok (set_dat d1 s) p2 l2 x2 (src + k) (n - k) (slice k (n - k) w)) as (d & -> & Hd & Hfr);
    try done; try lia.
  { by apply sep_app in Hsep as (_ & [_ ?] & _). }
  { simpl. unfold d1. rewrite mread_mwrite_disjoint by lia. eapply mread_slice; [done|lia..]. }
  { eapply away_mono; [| |exact Haw2]; lia. }
  exists d. split; [done|]. simpl in Hfr. split.
  - replace off with (bytes_in l1 + i) by lia.
    apply (content_across (dat s) d l1 a b l2 c x2 w i); rewrite ?Hlw; try done; lia.
  - intros j Hj. rewrite Hfr, Hfr1; try done. unfold away in *. apply Forall_app in Hj as [_ Hj].
    by apply Forall_cons in Hj as [_ Hj].
Qed.
End data.

(** ** A packet of five bytes in two pbufs, for the witnesses *)

#[local] Instance no_memory : Allocator unit := {|
  mem_malloc _ a := Ok (None, a);
  mem_free _ a := Ok a;
  mem_trim p _ a := Ok (Some p, a);
  memp_malloc _ a := Ok (None, a);
  memp_free _ _ a := Ok a;
  custom_free_function _ a := Ok a |}.

Definition sample_chain : list (Z * pbuf) :=
  [(1000, Pbuf (Some 2000) 100 5 3 128 0 1 0); (2000, Pbuf None 200 2 2 128 0 1 0)].

Definition sample_bytes : bytes :=
  mwrite (mwrite (mwrite ∅ 100 [1; 2; 3]) 200 [4; 5]) 300 [3; 4; 0; 0; 0; 0].

Definition sample_state : pstate unit := PState (list_to_map sample_chain) sample_bytes tt 0.

Lemma sample_chain_ok :
  chain (pb sample_state) (Some 1000) sample_chain ∧ lens_ok sample_chain ∧ sep sample_chain ∧
  content (dat sample_state) sample_chain = Some [1; 2; 3; 4; 5].
Proof. split_and!; try (vm_compute; done). repeat constructor; simpl; lia. Qed.

Lemma sample_away : away 300 6 sample_chain.
Proof. repeat constructor; simpl; lia. Qed.

Lemma pbuf_copy_partial_slice_witness :
  ∃ d, pbuf_copy_partial (Some 1000) 300 3 1 sample_state = Ok (3, set_dat d sample_state) ∧
       mread d 300 3 = Some [2; 3; 4] ∧
       (∀ i, i < 300 ∨ 300 + 3 ≤ i → d !! i = sample_bytes !! i) ∧
       content d sample_chain = Some [1; 2; 3; 4; 5].
Proof.
  destruct sample_chain_ok as (Hch & Hl & _ & Hc).
  apply (pbuf_copy_partial_slice sample_state (Some 1000) sample_chain [1; 2; 3; 4; 5] 300 3 1 Hch Hl Hc);
    [done|done|done|done| |].
  - apply mapped_b_spec; [lia|vm_compute; reflexivity].
  - eapply away_mono; [| |exact sample_away]; lia.
Defined.

Lemma pbuf_memcmp_exact_witness :
  ∃ r, pbuf_memcmp 1000 2 300 2 sample_state = Ok r ∧ (r = 0 ↔ slice 2 2 [1; 2; 3; 4; 5] = [3; 4]).
Proof.
  destruct sample_chain_ok as (Hch & Hl & _ & Hc).
  destruct (pbuf_memcmp_exact sample_state 1000 sample_chain [1; 2; 3; 4; 5] 2 300 2 [3; 4] Hch Hl Hc) as [_ Hr];
    [by repeat constructor|done|done|reflexivity|].
  assert (Hle : 2 + 2 ≤ zlen [1; 2; 3; 4; 5]) by (vm_compute; done).
  destruct (Hr Hle) as (r & Heq & Hz & _). exists r. split; [exact Heq|exact Hz].
Defined.

Lemma pbuf_memfind_first_witness :
  ∃ r, pbuf_memfind 1000 300 2 0 sample_state = Ok r ∧
    ((0 ≤ r ∧ r + 2 ≤ 5 ∧ slice r 2 [1; 2; 3; 4; 5] = [3; 4] ∧
      ∀ j, 0 ≤ j < r → slice j 2 [1; 2; 3; 4; 5] ≠ [3; 4]) ∨
     (r = 65535 ∧ ∀ j, 0 ≤ j → slice j 2 [1; 2; 3; 4; 5] ≠ [3; 4])).
Proof.
  destruct sample_chain_ok as (Hch & Hl & _ & Hc).
  apply (pbuf_memfind_first sample_state 1000 sample_chain [1; 2; 3; 4; 5] 300 2 [3; 4] 0 Hch Hl Hc);
    [by repeat constructor|lia|done|reflexivity].
Defined.

Lemma pbuf_take_at_splices_witness :
  ∃ d, pbuf_take_at (Some 1000) 300 2 2 sample_state = Ok (ERR_OK, set_dat d sample_state) ∧
       content d sample_chain = Some [1; 2; 3; 4; 5] ∧
       (∀ i, away i 1 sample_chain → d !! i = sample_bytes !! i).
Proof.
  destruct sample_chain_ok as (Hch & Hl & Hs & Hc).
  destruct (pbuf_take_at_splices sample_state (Some 1000) sample_chain [1; 2; 3; 4; 5] 300 2 2 [3; 4] Hch Hl Hs Hc)
    as [Hok _]; [lia|reflexivity|eapply away_mono; [| |exact sample_away]; lia|done|done|].
  apply Hok. split; vm_compute; done.
Defined.
