(* ===== verification/PbufLife.v ===== *)
(** * Packet buffers: allocation, reference counts and release

    [AllocatorLaws] states what pbuf.c relies on: the blocks handed out are fresh,
    aligned and disjoint, and every block can be given back to where it came from.
    The theorems are proved against these laws; PbufAlloc.v discharges them for the
    heap of mem.c and the pools of memp.c. *)

From S2P Require Import Prelude ByteMem Pbuf PbufFacts PbufData.

(** ** The contract of the allocators *)

(** Where a block came from. *)
Inductive src := SrcHeap (n : Z) | SrcPool (t : memp_t) | SrcCustom.

Definition src_size (x : src) : Z :=
  match x with
  | SrcHeap n => n
  | SrcPool MEMP_PBUF => SIZEOF_STRUCT_PBUF
  | SrcPool MEMP_PBUF_POOL => SIZEOF_STRUCT_PBUF + PBUF_POOL_BUFSIZE_ALIGNED
  | SrcCustom => SIZEOF_STRUCT_PBUF
  end.

(** [al_ok a L]: the allocators are in a good state and the blocks in use are [L]. *)
Class AllocatorLaws (A : Type) `{Allocator A} := {
  al_ok : A → gmap Z src → Prop;
  mem_malloc_law a L n : al_ok a L → is_u16 n →
    ∃ r a', mem_malloc n a = Ok (r, a') ∧
    match r with Some p => L !! p = None ∧ al_ok a' (<[p := SrcHeap n]> L) | None => al_ok a' L end;
  mem_free_law a L p n : al_ok a L → L !! p = Some (SrcHeap n) →
    ∃ a', mem_free p a = Ok a' ∧ al_ok a' (delete p L);
  mem_trim_law a L p n n' : al_ok a L → L !! p = Some (SrcHeap n) → 0 ≤ n' ≤ n →
    mem_trim p n' a = Assert ∨
    ∃ a', mem_trim p n' a = Ok (Some p, a') ∧ al_ok a' (<[p := SrcHeap n']> L);
  memp_malloc_law a L t : al_ok a L →
    ∃ r a', memp_malloc t a = Ok (r, a') ∧
    match r with Some p => L !! p = None ∧ al_ok a' (<[p := SrcPool t]> L) | None => al_ok a' L end;
  memp_free_law a L t p : al_ok a L → L !! p = Some (SrcPool t) →
    ∃ a', memp_free t p a = Ok a' ∧ al_ok a' (delete p L);
  custom_free_law a L p : al_ok a L → L !! p = Some SrcCustom →
    ∃ a', custom_free_function p a = Ok a' ∧ al_ok a' (delete p L);
  al_aligned a L p x : al_ok a L → L !! p = Some x → (4 | p) ∧ 0 < p ∧ p + Z.max 0 (src_size x) < 4294967293;
  al_disjoint a L p q x y : al_ok a L → L !! p = Some x → L !! q = Some y → p ≠ q →
    p + src_size x ≤ q ∨ q + src_size y ≤ p;
  (** the memory that the heap and the pools hand out *)
  al_arena : Z → Prop;
  al_inside a L p x i : al_ok a L → L !! p = Some x → x ≠ SrcCustom → p ≤ i < p + src_size x → al_arena i
}.

(** The struct says where it came from. *)
Definition src_ok (q : pbuf) (x : src) : Prop :=
  match x with
  | SrcCustom => is_custom q = true
  | SrcPool MEMP_PBUF_POOL => is_custom q = false ∧ pbuf_get_allocsrc q = 2
  | SrcPool MEMP_PBUF => is_custom q = false ∧ pbuf_get_allocsrc q = 1
  | SrcHeap _ => is_custom q = false ∧ pbuf_get_allocsrc q = 0
  end.

Section life.
Context {A : Type} `{AllocatorLaws A}.
Implicit Types s : pstate A.

Definition pstate_ok s (L : gmap Z src) : Prop :=
  al_ok (al s) L ∧ ∀ p q, pb s !! p = Some q → ∃ x, L !! p = Some x ∧ src_ok q x.

Lemma pstate_fresh s L p : pstate_ok s L → L !! p = None → pb s !! p = None.
Proof.
  intros [_ Hp] Hn. destruct (pb s !! p) as [q|] eqn:E; [|done].
  destruct (Hp _ _ E) as (x & Hx & _). congruence.
Qed.

(** ** pbuf_free *)

Lemma release_ok s L p q x :
  al_ok (al s) L → L !! p = Some x → src_ok q x →
  ∃ a, pbuf_release p q s = Ok (dropp p (set_al a s)) ∧ al_ok a (delete p L).
Proof.
  intros Ha Hx Hs. unfold pbuf_release. destruct x as [n|[]|]; simpl in Hs.
  - destruct Hs as [-> ->]. cbn [Z.eqb]. destruct (mem_free_law _ _ _ _ Ha Hx) as (a & -> & Ha'). by exists a.
  - destruct Hs as [-> ->]. cbn [Z.eqb]. destruct (memp_free_law _ _ _ _ Ha Hx) as (a & -> & Ha'). by exists a.
  - destruct Hs as [-> ->]. cbn [Z.eqb]. destruct (memp_free_law _ _ _ _ Ha Hx) as (a & -> & Ha'). by exists a.
  - rewrite Hs. destruct (custom_free_law _ _ _ Ha Hx) as (a & -> & Ha'). by exists a.
Qed.

Lemma foldr_delete_comm {B} (m : gmap Z B) a js : foldr delete (delete a m) js = delete a (foldr delete m js).
Proof. induction js as [|b js IH]; simpl; [done|]. rewrite IH. apply delete_delete. Qed.

Lemma lookup_foldr_delete_ne {B} (m : gmap Z B) a js : a ∉ js → foldr delete m js !! a = m !! a.
Proof.
  induction js as [|b js IH]; simpl; intros Hn; [done|]. apply not_elem_of_cons in Hn as [? ?].
  rewrite lookup_delete_ne by done. auto.
Qed.

Lemma lookup_foldr_delete_eq {B} (m : gmap Z B) a js : a ∈ js → foldr delete m js !! a = None.
Proof.
  induction js as [|b js IH]; simpl; intros Hin; [by apply not_elem_of_nil in Hin|].
  destruct (decide (a = b)) as [->|]; [apply lookup_delete_eq|].
  rewrite lookup_delete_ne by done. apply elem_of_cons in Hin as [?|?]; [done|auto].
Qed.

(** The structs after [pbuf_free]: the run [l1] of structs with one reference is
    gone, the struct after it (the head of [l2]) lost one reference. *)
Definition freed (m : gmap Z pbuf) (l1 l2 : list (Z * pbuf)) : gmap Z pbuf :=
  let m' := foldr delete m l1.*1 in
  match l2 with
  | [] => m'
  | (a, q) :: _ => <[a := with_ref (ref q - 1) q]> m'
  end.

Definition last_ref (l1 l2 : list (Z * pbuf)) : Prop :=
  Forall (λ x, ref x.2 = 1) l1 ∧ match l2 with [] => True | (_, q) :: _ => 2 ≤ ref q ≤ 255 end.

Lemma pstate_ok_delete s L p a :
  pstate_ok s L → al_ok a (delete p L) → pstate_ok (dropp p (set_al a s)) (delete p L).
Proof.
  intros [_ Hp] Ha. split; [done|]. simpl. intros p' q' Hq.
  destruct (decide (p' = p)) as [->|Hne]; [by rewrite lookup_delete_eq in Hq|].
  rewrite lookup_delete_ne in Hq by done. destruct (Hp _ _ Hq) as (x & Hx & Hs).
  exists x. by rewrite lookup_delete_ne.
Qed.

Lemma pstate_ok_put s L p q q' :
  pstate_ok s L → pb s !! p = Some q → flags q' = flags q → type_internal q' = type_internal q →
  pstate_ok (putp p q' s) L.
Proof.
  intros [Ha Hp] Hq Hf Ht. split; [done|]. simpl. intros p' r Hr.
  destruct (decide (p' = p)) as [->|Hne]; [|rewrite lookup_insert_ne in Hr by done; by apply Hp].
  rewrite lookup_insert_eq in Hr. simplify_eq. destruct (Hp _ _ Hq) as (x & Hx & Hs). exists x. split; [done|].
  unfold src_ok, is_custom, pbuf_get_allocsrc in *. rewrite Hf, Ht. done.
Qed.

Lemma free_loop_ok l1 l2 : ∀ fuel p count s L,
  pstate_ok s L → chain (pb s) p (l1 ++ l2) → last_ref l1 l2 → (length (l1 ++ l2) ≤ fuel)%nat →
  ∃ a, pbuf_free_loop fuel p count s =
         Ok (match l1 with [] => count | _ => u8 (count + zlen l1) end,
             PState (freed (pb s) l1 l2) (dat s) a (pbuf_free_ooseq_pending s)) ∧
       pstate_ok (PState (freed (pb s) l1 l2) (dat s) a (pbuf_free_ooseq_pending s)) (foldr delete L l1.*1).
Proof.
  induction l1 as [|[b q] l1 IH]; intros fuel p count s L Hok Hch [Hr1 Hr2] Hf.
  - unfold freed. simpl in *. destruct l2 as [|[b q] l2]; simpl in Hch.
    + subst p. exists (al s). destruct s, fuel; done.
    + destruct Hch as (-> & Hb & _). destruct fuel as [|fuel]; [simpl in Hf; lia|]. cbn [pbuf_free_loop].
      unfold getp. rewrite Hb. cbn [deref mbind res_bind]. replace (0 <? ref q) with true by lia.
      cbn [LWIP_ASSERT mbind res_bind]. rewrite u8_id by ulia. replace (ref q - 1 =? 0) with false by lia.
      exists (al s). split; [done|]. by apply (pstate_ok_put s L b q).
  - destruct Hch as (-> & Hb & Hch). destruct fuel as [|fuel]; [simpl in Hf; lia|]. cbn [pbuf_free_loop].
    apply Forall_cons in Hr1 as [Hq1 Hr1]. simpl in Hq1.
    unfold getp. rewrite Hb. cbn [deref mbind res_bind]. rewrite Hq1. cbn [Z.ltb LWIP_ASSERT mbind res_bind Z.sub].
    change (u8 (1 - 1) =? 0) with true. cbn iota.
    pose proof Hok as [Ha Hp]. destruct (Hp _ _ Hb) as (x & Hx & Hs).
    destruct (release_ok (putp b (with_ref (u8 (1 - 1)) q) s) L b q x) as (a & -> & Ha'); [done..|].
    cbn [mbind res_bind].
    assert (Heq : dropp b (set_al a (putp b (with_ref (u8 (1 - 1)) q) s)) = dropp b (set_al a s)).
    { unfold dropp, set_al, putp. simpl. by rewrite delete_insert_eq. }
    rewrite Heq.
    assert (Hnin : b ∉ (l1 ++ l2).*1).
    { assert (Hch' : chain (pb s) (Some b) ((b, q) :: l1 ++ l2)) by done.
      apply chain_NoDup in Hch'. by apply NoDup_cons in Hch' as [? _]. }
    destruct (IH fuel (next q) (u8 (count + 1)) (dropp b (set_al a s)) (delete b L)) as (a' & -> & Hok').
    + by apply pstate_ok_delete.
    + simpl. eapply chain_frame; [|done]. intros c Hc. apply lookup_delete_ne. intros ->. done.
    + done.
    + simpl in Hf. lia.
    + assert (Hfr : freed (delete b (pb s)) l1 l2 = freed (pb s) ((b, q) :: l1) l2).
      { unfold freed. simpl. rewrite foldr_delete_comm. by destruct l2 as [|[??]?]. }
      simpl in Hok' |- *. rewrite Hfr, foldr_delete_comm in *. exists a'. split; [|done]. do 3 f_equal.
      destruct l1; unfold zlen; [done|]. cbn [length]. rewrite <-Hq1 at 1. ulia.
Qed.

Lemma free_ok s L p l1 l2 :
  pstate_ok s L → chain (pb s) (Some p) (l1 ++ l2) → last_ref l1 l2 →
  ∃ a, pbuf_free (Some p) s =
         Ok (u8 (zlen l1), PState (freed (pb s) l1 l2) (dat s) a (pbuf_free_ooseq_pending s)) ∧
       pstate_ok (PState (freed (pb s) l1 l2) (dat s) a (pbuf_free_ooseq_pending s)) (foldr delete L l1.*1).
Proof.
  intros Hok Hch Hr. pose proof (chain_fuel_enough _ _ _ Hch).
  destruct (free_loop_ok l1 l2 (chain_fuel s) (Some p) 0 s L) as (a & Hf & Hok'); try done; [lia|].
  exists a. split; [|done]. unfold pbuf_free. rewrite Hf. by destruct l1.
Qed.

(** C6: pbuf_free drops one reference.  On a chain whose first [zlen l1]
    structs have a single reference and whose next struct, if any, has more: exactly
    the structs of [l1] leave the packet and go back to the allocator they came from,
    the next one loses one reference and the rest is untouched; no byte of memory
    changes, no allocation is leaked, and the number of structs released is returned
    (modulo 256, the width of the counter). *)
Theorem pbuf_free_drops_reference s L p l1 l2 :
  pstate_ok s L → chain (pb s) (Some p) (l1 ++ l2) → last_ref l1 l2 →
  ∃ s', pbuf_free (Some p) s = Ok (u8 (zlen l1), s') ∧
    dat s' = dat s ∧ pstate_ok s' (foldr delete L l1.*1) ∧
    (∀ a, a ∈ l1.*1 → pb s' !! a = None) ∧
    (∀ a q l, l2 = (a, q) :: l → pb s' !! a = Some (with_ref (ref q - 1) q)) ∧
    (∀ a, a ∉ l1.*1 → (∀ q l, l2 ≠ (a, q) :: l) → pb s' !! a = pb s !! a).
Proof.
  intros Hok Hch Hr. destruct (free_ok s L p l1 l2 Hok Hch Hr) as (a & Hf & Hok').
  eexists. split; [exact Hf|]. simpl. pose proof (chain_NoDup _ _ _ Hch) as Hnd. rewrite fmap_app in Hnd.
  apply NoDup_app in Hnd as (_ & Hnd & _). unfold freed in *. split_and!; try done.
  - intros b Hb. destruct l2 as [|[c q] l2]; [by apply lookup_foldr_delete_eq|].
    rewrite lookup_insert_ne; [by apply lookup_foldr_delete_eq|]. intros <-. apply (Hnd _ Hb). by left.
  - intros b q l ->. by rewrite lookup_insert_eq.
  - intros b Hb Hne. destruct l2 as [|[c q] l2]; [by apply lookup_foldr_delete_ne|].
    rewrite lookup_insert_ne; [by apply lookup_foldr_delete_ne|]. intros <-. by apply (Hne q l2).
Qed.

(** ** pbuf_alloc *)

(** [lens_ok] while [r] bytes are still to be allocated. *)
Fixpoint lens_rem (r : Z) (l : list (Z * pbuf)) : Prop :=
  match l with
  | [] => True
  | (_, q) :: l => 0 ≤ len q ∧ tot_len q = len q + bytes_in l + r ∧ tot_len q ≤ 65535 ∧ lens_rem r l
  end.

(** The payload lies inside the pool element, behind the struct. *)
Definition in_element (x : Z * pbuf) : Prop :=
  x.1 + SIZEOF_STRUCT_PBUF ≤ payload x.2 ∧ payload x.2 mod 4 = 0 ∧
  payload x.2 + len x.2 ≤ x.1 + SIZEOF_STRUCT_PBUF + PBUF_POOL_BUFSIZE_ALIGNED ∧ ref x.2 = 1.

Lemma lens_rem_0 l : lens_rem 0 l ↔ lens_ok l.
Proof. induction l as [|[a q] l IH]; simpl; [done|]. rewrite IH, Z.add_0_r. done. Qed.

Lemma lens_rem_snoc r r' l a q :
  lens_rem r l → 0 ≤ len q → tot_len q = len q + r' → tot_len q ≤ 65535 → r = len q + r' →
  lens_rem r' (l ++ [(a, q)]).
Proof.
  induction l as [|[b x] l IH]; simpl; intros Hl H1 H2 H3 H4.
  - split_and!; try done; lia.
  - destruct Hl as (? & ? & ? & Hl). rewrite bytes_in_app. simpl. split_and!; [done|lia|done|by apply IH].
Qed.

Lemma chain_snoc m p l b x q y :
  chain m p (l ++ [(b, x)]) → m !! q = None → next y = None →
  chain (<[b := with_next (Some q) x]> (<[q := y]> m)) p (l ++ [(b, with_next (Some q) x); (q, y)]).
Proof.
  intros Hch Hq Hy. pose proof (chain_NoDup _ _ _ Hch) as Hnd. revert p Hch.
  induction l as [|[c z] l IH]; intros p Hch.
  - simpl in *. destruct Hch as (-> & Hb & Hx). split_and!; [done|by rewrite lookup_insert_eq|done| |done].
    rewrite lookup_insert_ne, lookup_insert_eq; [done|]. congruence.
  - destruct Hch as (-> & Hc & Hch). simpl in Hnd. apply NoDup_cons in Hnd as [Hn Hnd]. cbn [app chain].
    split_and!; [done| |by apply IH]. rewrite !lookup_insert_ne; [done|congruence|].
    intros <-. apply Hn. rewrite fmap_app. apply elem_of_app. right. by left.
Qed.

Lemma pool_payload q off :
  (4 | q) → 0 < q → 0 ≤ off → q + SIZEOF_STRUCT_PBUF + off < 4294967293 →
  LWIP_MEM_ALIGN (q + SIZEOF_STRUCT_PBUF + off) = q + SIZEOF_STRUCT_PBUF + LWIP_MEM_ALIGN_SIZE off.
Proof.
  intros [k ->] Hq Ho Hlt. change (LWIP_MEM_ALIGN ?x) with (LWIP_MEM_ALIGN_SIZE x).
  change SIZEOF_STRUCT_PBUF with 16 in *. rewrite !LWIP_MEM_ALIGN_SIZE_eq by lia. zlia.
Qed.

(** A struct that was just taken from an allocator. *)
Lemma init_ok s L a p pl tl l type fl x :
  pstate_ok s L → L !! p = None → al_ok a (<[p := x]> L) →
  src_ok (Pbuf None pl tl l (u8 type) fl 1 NETIF_NO_INDEX) x →
  pstate_ok (pbuf_init_alloced_pbuf p pl tl l type fl (set_al a s)) (<[p := x]> L).
Proof.
  intros [_ Hp] Hn Ha Hs. split; [done|]. unfold pbuf_init_alloced_pbuf. simpl. intros p' q' Hq.
  destruct (decide (p' = p)) as [->|Hne].
  - rewrite lookup_insert_eq in Hq. rewrite lookup_insert_eq. simplify_eq. eauto.
  - rewrite lookup_insert_ne in Hq by done. rewrite lookup_insert_ne by done. by apply Hp.
Qed.

Lemma pstate_ok_pending s L : pstate_ok s L → pstate_ok (pbuf_pool_is_empty s) L.
Proof. done. Qed.

(** The number of bytes an element holds behind [off] bytes of headroom. *)
Definition pool_room (off : Z) : Z := PBUF_POOL_BUFSIZE_ALIGNED - LWIP_MEM_ALIGN_SIZE off.

(** One round of the loop: the fresh struct [y] at [q] is linked behind [l]. *)
Lemma link_step s1 L l q y rem qlen (m : gmap Z pbuf) :
  pstate_ok s1 L → pb s1 = <[q := y]> m → m !! q = None → next y = None →
  chain m (fst <$> head l) l → lens_rem rem l → Forall in_element l → in_element (q, y) →
  len y = qlen → tot_len y = rem → 0 ≤ qlen ≤ rem → rem ≤ 65535 →
  ∃ s2 l2, (match fst <$> head l, fst <$> last l with
            | None, _ => Ok s1
            | Some _, None => Ub
            | Some _, Some b => modp b (with_next (Some q)) s1
            end) = Ok s2 ∧
    pstate_ok s2 L ∧ dat s2 = dat s1 ∧ chain (pb s2) (fst <$> head l2) l2 ∧ lens_rem (rem - qlen) l2 ∧
    Forall in_element l2 ∧ l2.*1 = l.*1 ++ [q] ∧ bytes_in l2 = bytes_in l + qlen ∧
    fst <$> last l2 = Some q ∧
    (match fst <$> head l with None => Some q | Some p => Some p end) = fst <$> head l2 ∧
    (∀ c, c ∉ l.*1 → c ≠ q → pb s2 !! c = m !! c).
Proof.
  intros Hok Hpb Hq Hy Hch Hlr Hel Hey Hlen Htot Hqlen Hrem.
  destruct l as [|[b x] l0 _] using rev_ind.
  - exists s1, [(q, y)]. split; [done|]. rewrite Hpb. simpl. rewrite Hy, Hlen, lookup_insert_eq.
    split_and!; try done; try lia. { by constructor. }
    intros c _ Hc. by rewrite lookup_insert_ne.
  - set (l2 := l0 ++ [(b, with_next (Some q) x); (q, y)]).
    assert (Hhead : fst <$> head (l0 ++ [(b, x)]) = fst <$> head l2) by (by destruct l0).
    assert (Hlast : last (l0 ++ [(b, x)]) = Some (b, x)) by apply last_snoc.
    assert (Hb : m !! b = Some x) by (eapply chain_lookup; [exact Hch|]; set_solver).
    assert (Hbq : b ≠ q) by congruence.
    assert (Hpb1 : pb s1 !! b = Some x) by (by rewrite Hpb, lookup_insert_ne).
    exists (putp b (with_next (Some q) x) s1), l2. rewrite Hlast.
    assert (Hh : ∃ h, fst <$> head (l0 ++ [(b, x)]) = Some h) by (destruct l0 as [|[??]?]; eauto).
    destruct Hh as [h Hh]. rewrite Hh. cbn [fmap option_fmap option_map fst].
    split. { unfold modp, getp. by rewrite Hpb1. }
    apply Forall_app in Hel as [Hel0 Helx]. apply Forall_cons in Helx as [Helx _].
    split_and!.
    + eapply pstate_ok_put; try done.
    + done.
    + rewrite <-Hhead. simpl. rewrite Hpb. by apply chain_snoc.
    + unfold l2. change [(b, with_next (Some q) x); (q, y)] with ([(b, with_next (Some q) x)] ++ [(q, y)]).
      rewrite (assoc_L (++)). apply (lens_rem_snoc rem); try lia.
      clear -Hlr. induction l0 as [|[c z] l0 IH]; simpl in *; [done|].
      rewrite !bytes_in_app in *. simpl in *. naive_solver.
    + apply Forall_app. split; [done|]. constructor; [exact Helx|by constructor].
    + unfold l2. rewrite !fmap_app. simpl. by rewrite <-app_assoc.
    + unfold l2. rewrite !bytes_in_app. simpl. lia.
    + unfold l2. change [(b, with_next (Some q) x); (q, y)] with ([(b, with_next (Some q) x)] ++ [(q, y)]).
      rewrite (assoc_L (++)), last_snoc. done.
    + by rewrite <-Hhead, Hh.
    + intros c Hc Hcq. simpl. rewrite lookup_insert_ne, Hpb, lookup_insert_ne; [done|done|].
      intros <-. apply Hc. rewrite fmap_app. apply elem_of_app. right. by left.
Qed.

(** What pbuf_alloc leaves behind when the structs [l] were allocated before: all of them are
    released, or [rem] more bytes are there in new elements. *)
Definition pool_result l rem (L : gmap Z src) s (r : option Z) s' : Prop :=
  dat s' = dat s ∧
  match r with
  | None => pstate_ok s' (foldr delete L l.*1) ∧ pb s' = foldr delete (pb s) l.*1
  | Some p => ∃ l' L', pstate_ok s' L' ∧ chain (pb s') (Some p) l' ∧ lens_ok l' ∧ Forall in_element l' ∧
      bytes_in l' = bytes_in l + rem ∧ l.*1 ⊆ l'.*1 ∧
      (∀ a, a ∈ l'.*1 → L' !! a = Some (SrcPool MEMP_PBUF_POOL) ∧ (a ∈ l.*1 ∨ L !! a = None)) ∧
      (∀ a, a ∉ l'.*1 → L' !! a = L !! a ∧ pb s' !! a = pb s !! a)
  end.

(** The pool is empty: what was allocated is given back. *)
Lemma pool_empty_ok s L l rem : pstate_ok s L → chain (pb s) (fst <$> head l) l → Forall in_element l →
  ∃ s', (match fst <$> head l with
         | Some _ => '(_, s) ← pbuf_free (fst <$> head l) (pbuf_pool_is_empty s); Ok s
         | None => Ok (pbuf_pool_is_empty s)
         end) = Ok s' ∧ pool_result l rem L s None s'.
Proof.
  intros Hok Hch Hel. destruct l as [|[b x] l]; [by eexists|]. cbn [head fmap option_fmap option_map fst].
  destruct (free_ok (pbuf_pool_is_empty s) L b ((b, x) :: l) []) as (a2 & Hfree & Hok2); [done|by rewrite app_nil_r| |].
  { split; [|done]. eapply Forall_impl; [exact Hel|]. unfold in_element. naive_solver. }
  rewrite Hfree. cbn [mbind res_bind]. by eexists.
Qed.

(** One more element, and what was allocated after it. *)
Lemma pool_result_more l l2 q rem qlen L s s2 r s' :
  dat s2 = dat s → l2.*1 = l.*1 ++ [q] → bytes_in l2 = bytes_in l + qlen → L !! q = None → pb s !! q = None →
  (∀ c, c ∉ l.*1 → c ≠ q → pb s2 !! c = pb s !! c) →
  pool_result l2 (rem - qlen) (<[q := SrcPool MEMP_PBUF_POOL]> L) s2 r s' → pool_result l rem L s r s'.
Proof.
  intros Hd2 Hfst Hby Hfresh Hpbq Hfr (Hd & Hres). split; [by rewrite Hd|]. destruct r as [p|].
  - destruct Hres as (l' & L' & Hok' & Hch' & Hl' & Hel' & Hby' & Hsub & HL' & HL''). rewrite Hfst in *.
    exists l', L'. split_and!; try done; [lia| | |].
    + intros c Hc. apply Hsub, elem_of_app. by left.
    + intros c Hc. destruct (HL' _ Hc) as [Hc1 Hc2]. split; [done|]. destruct Hc2 as [Hc2|Hc2].
      * apply elem_of_app in Hc2 as [?| ->%list_elem_of_singleton]; [by left|by right].
      * right. destruct (decide (c = q)) as [->|]; [done|]. by rewrite lookup_insert_ne in Hc2.
    + intros c Hc. destruct (HL'' _ Hc) as [Hc1 Hc2].
      assert (Hcn : c ∉ l.*1 ++ [q]) by (intros Hin; by apply Hc, Hsub).
      apply not_elem_of_app in Hcn as [Hcl Hcq]. rewrite list_elem_of_singleton in Hcq.
      rewrite Hc1, Hc2, lookup_insert_ne by congruence. split; [done|]. by apply Hfr.
  - destruct Hres as [Hok' Hpb']. rewrite Hfst, foldr_app in Hok', Hpb'. simpl in Hok', Hpb'.
    rewrite delete_insert_id in Hok' by done. split; [done|]. rewrite Hpb'. apply map_eq. intros c.
    destruct (decide (c ∈ l.*1)) as [Hc|Hc]; [by rewrite !lookup_foldr_delete_eq|].
    rewrite !lookup_foldr_delete_ne by done. destruct (decide (c = q)) as [->|Hcq]; [by rewrite lookup_delete_eq|].
    rewrite lookup_delete_ne by done. by apply Hfr.
Qed.

(** The payload of a new element. *)
Lemma pool_element_ok a L q off rem : al_ok a (<[q := SrcPool MEMP_PBUF_POOL]> L) → is_u16 off → 0 < pool_room off →
  let pl := LWIP_MEM_ALIGN (q + SIZEOF_STRUCT_PBUF + off) in
  pl mod 4 = 0 ∧ u32 (PBUF_POOL_BUFSIZE_ALIGNED - LWIP_MEM_ALIGN_SIZE off) = pool_room off ∧ u16 (pool_room off) = pool_room off ∧
  in_element (q, Pbuf None pl rem (Z.min rem (pool_room off)) (u8 PBUF_POOL) 0 1 NETIF_NO_INDEX).
Proof.
  intros Ha' Ho Hroom pl. destruct (al_aligned _ _ q (SrcPool MEMP_PBUF_POOL) Ha') as (Hal & Hq0 & Hqb);
    [by rewrite lookup_insert_eq|]. simpl in Hqb. unfold pool_room, is_u16 in *.
  assert (Hoff : off ≤ LWIP_MEM_ALIGN_SIZE off ∧ LWIP_MEM_ALIGN_SIZE off mod 4 = 0)
    by (rewrite LWIP_MEM_ALIGN_SIZE_eq by lia; zlia).
  change SIZEOF_STRUCT_PBUF with 16 in Hqb. change PBUF_POOL_BUFSIZE_ALIGNED with 592 in *.
  assert (Hpl : pl = q + 16 + LWIP_MEM_ALIGN_SIZE off)
    by (unfold pl; apply pool_payload; try done; change SIZEOF_STRUCT_PBUF with 16; lia).
  rewrite (u32_id (592 - _)), (u16_id (592 - _)) by ulia. rewrite Hpl. destruct Hal as [k ->].
  split_and!; [zlia|done|done|]. unfold in_element. simpl. change SIZEOF_STRUCT_PBUF with 16.
  change PBUF_POOL_BUFSIZE_ALIGNED with 592. split_and!; try done; [lia|zlia|lia].
Qed.

Lemma alloc_pool_ok : ∀ fuel l rem off s L,
  pstate_ok s L → chain (pb s) (fst <$> head l) l → lens_rem rem l → Forall in_element l →
  (∀ a, a ∈ l.*1 → L !! a = Some (SrcPool MEMP_PBUF_POOL)) →
  0 ≤ rem ≤ 65535 → rem < Z.of_nat fuel → is_u16 off → 0 < pool_room off →
  ∃ r s', pbuf_alloc_pool fuel (fst <$> head l) (fst <$> last l) rem off PBUF_POOL s = Ok (r, s') ∧
    pool_result l rem L s r s'.
Proof.
  induction fuel as [|fuel IH]; intros l rem off s L Hok Hch Hlr Hel HL Hrem Hf Ho Hroom; [lia|].
  cbn [pbuf_alloc_pool]. pose proof Hok as [Ha Hp].
  destruct (memp_malloc_law _ _ MEMP_PBUF_POOL Ha) as (r & a & -> & Hr). cbn [mbind res_bind].
  destruct r as [q|].
  2: { destruct (pool_empty_ok (set_al a s) L l rem) as (s' & Hs' & Hres); try done. exists None, s'. split; [|done].
       cbn zeta. by rewrite Hs'. }
  destruct Hr as [Hfresh Ha']. destruct (pool_element_ok a L q off rem Ha' Ho Hroom) as (Hpl & -> & -> & Hy).
  cbn zeta. set (pl := LWIP_MEM_ALIGN (q + SIZEOF_STRUCT_PBUF + off)) in *. set (qlen := Z.min rem (pool_room off)) in *.
  unfold MEM_ALIGNMENT. rewrite Hpl. replace (0 <? pool_room off) with true by lia. cbn [Z.eqb LWIP_ASSERT mbind res_bind].
  assert (Hpbq : pb s !! q = None) by (by eapply pstate_fresh). unfold is_u16 in *.
  destruct (link_step (pbuf_init_alloced_pbuf q pl rem qlen PBUF_POOL 0 (set_al a s))
              (<[q := SrcPool MEMP_PBUF_POOL]> L) l q (Pbuf None pl rem qlen (u8 PBUF_POOL) 0 1 NETIF_NO_INDEX) rem qlen (pb s))
    as (s2 & l2 & -> & Hok2 & Hd2 & Hch2 & Hlr2 & Hel2 & Hfst & Hby & Hlast & Hhead & Hfr); try done; [by apply init_ok|lia..|].
  cbn [mbind res_bind]. rewrite u16_id by ulia.
  replace (match fst <$> head l with Some _ => fst <$> head l | None => Some q end) with (fst <$> head l2)
    by (rewrite <-Hhead; by destruct (fst <$> head l)).
  assert (HL2 : ∀ c, c ∈ l2.*1 → <[q := SrcPool MEMP_PBUF_POOL]> L !! c = Some (SrcPool MEMP_PBUF_POOL)).
  { intros c Hc. rewrite Hfst in Hc. apply elem_of_app in Hc as [Hc| ->%list_elem_of_singleton];
      [|by rewrite lookup_insert_eq].
    rewrite lookup_insert_ne; [by apply HL|]. intros <-. rewrite (HL _ Hc) in Hfresh. done. }
  assert (Hmore : ∀ r s', pool_result l2 (rem - qlen) (<[q := SrcPool MEMP_PBUF_POOL]> L) s2 r s' → pool_result l rem L s r s')
    by (intros r s'; by apply pool_result_more).
  destruct (0 <? rem - qlen) eqn:Er; breflect.
  - rewrite <-Hlast. destruct (IH l2 (rem - qlen) 0 s2 (<[q := SrcPool MEMP_PBUF_POOL]> L)) as (r & s' & -> & Hres); try done; try lia.
    exists r, s'. split; [done|by apply Hmore].
  - destruct (fst <$> head l2) as [p|] eqn:Ep; [|by destruct l2; [destruct l|]].
    exists (Some p), s2. split; [done|]. apply Hmore. split; [done|]. exists l2, (<[q := SrcPool MEMP_PBUF_POOL]> L).
    replace (rem - qlen) with 0 in * by lia. apply lens_rem_0 in Hlr2. split_and!; try done; [lia|].
    intros c Hc. split; [by apply HL2|by left].
Qed.

Lemma alloc_pool_top s L layer length :
  pstate_ok s L → 0 ≤ layer ≤ PBUF_TRANSPORT → is_u16 length →
  ∃ r s', pbuf_alloc layer length PBUF_POOL s = Ok (r, s') ∧ dat s' = dat s ∧
    match r with
    | None => pstate_ok s' L ∧ pb s' = pb s
    | Some p => ∃ l L', pstate_ok s' L' ∧ chain (pb s') (Some p) l ∧ lens_ok l ∧ bytes_in l = length ∧
        Forall in_element l ∧
        (∀ a, a ∈ l.*1 → L' !! a = Some (SrcPool MEMP_PBUF_POOL) ∧ L !! a = None) ∧
        (∀ a, a ∉ l.*1 → L' !! a = L !! a ∧ pb s' !! a = pb s !! a)
    end.
Proof.
  intros Hok Hlay Hlen. change PBUF_TRANSPORT with 74 in Hlay. unfold pbuf_alloc. rewrite (u16_id layer) by ulia.
  change (PBUF_POOL =? PBUF_REF) with false. change (PBUF_POOL =? PBUF_ROM) with false.
  change (PBUF_POOL =? PBUF_POOL) with true. cbn [orb].
  destruct (alloc_pool_ok (S (Z.to_nat length)) [] length layer s L) as (r & s' & Heq & Hd & Hres);
    try done; try ulia.
  { by intros a Ha%not_elem_of_nil. }
  { unfold pool_room. rewrite LWIP_MEM_ALIGN_SIZE_eq by lia. change PBUF_POOL_BUFSIZE_ALIGNED with 592. zlia. }
  exists r, s'. split; [done|]. split; [done|]. destruct r as [p|]; [|done].
  destruct Hres as (l & L' & H1 & H2 & H3 & H4 & H5 & _ & H7 & H8). exists l, L'. split_and!; try done.
  intros a Ha. destruct (H7 _ Ha) as [? [Hin|?]]; [by apply not_elem_of_nil in Hin|done].
Qed.

(** C7: pbuf_alloc from the pool.  For every length and every layer of the
    stack it either returns a chain of fresh, aligned pool elements with one reference
    each, whose payloads lie inside their elements behind the reserved headroom, whose
    total is the length asked for and whose tot_len fields satisfy the invariant of
    pbuf.h; or, when the pool runs out half way, it returns NULL, everything it took is
    given back and no other pbuf changes.  No byte of memory is touched. *)
Theorem pbuf_alloc_pool_correct s L layer length :
  pstate_ok s L → 0 ≤ layer ≤ PBUF_TRANSPORT → is_u16 length →
  ∃ r s', pbuf_alloc layer length PBUF_POOL s = Ok (r, s') ∧ dat s' = dat s ∧
    match r with
    | None => pstate_ok s' L ∧ pb s' = pb s
    | Some p => ∃ l L', pstate_ok s' L' ∧ chain (pb s') (Some p) l ∧ lens_ok l ∧ bytes_in l = length ∧
        Forall in_element l ∧
        (∀ a, a ∈ l.*1 → L' !! a = Some (SrcPool MEMP_PBUF_POOL) ∧ L !! a = None) ∧
        (∀ a, a ∉ l.*1 → L' !! a = L !! a ∧ pb s' !! a = pb s !! a)
    end.
Proof. apply alloc_pool_top. Qed.

Lemma alloc_ram_ok s L layer length :
  pstate_ok s L → 0 ≤ layer ≤ PBUF_TRANSPORT → is_u16 length →
  ∃ r s', pbuf_alloc layer length PBUF_RAM s = Ok (r, s') ∧ dat s' = dat s ∧
    match r with
    | None => pstate_ok s' L ∧ pb s' = pb s
    | Some p => ∃ n q, pstate_ok s' (<[p := SrcHeap n]> L) ∧ L !! p = None ∧ pb s' = <[p := q]> (pb s) ∧
        p + SIZEOF_STRUCT_PBUF + layer ≤ payload q ∧ payload q + length ≤ p + n ∧ payload q mod 4 = 0 ∧
        next q = None ∧ len q = length ∧ tot_len q = length ∧ ref q = 1 ∧
        pb s !! p = None
    end.
Proof.
  intros Hok Hlay Hlen. change PBUF_TRANSPORT with 74 in Hlay. unfold pbuf_alloc. rewrite (u16_id layer) by ulia.
  change (PBUF_RAM =? PBUF_REF) with false. change (PBUF_RAM =? PBUF_ROM) with false.
  change (PBUF_RAM =? PBUF_POOL) with false. change (PBUF_RAM =? PBUF_RAM) with true. cbn [orb].
  change (LWIP_MEM_ALIGN_SIZE SIZEOF_STRUCT_PBUF) with 16.
  assert (Hal : ∀ x, 0 ≤ x ≤ 65535 → x ≤ LWIP_MEM_ALIGN_SIZE x ≤ x + 3 ∧ LWIP_MEM_ALIGN_SIZE x mod 4 = 0).
  { intros x Hx. rewrite LWIP_MEM_ALIGN_SIZE_eq by lia. zlia. }
  pose proof (Hal layer ltac:(lia)) as Ho. pose proof (Hal length ltac:(ulia)) as Hl.
  destruct (_ || _) eqn:E; breflect; [exists None, s; split; [done|]; split; [done|]; by split|]. pose proof Hok as [Ha _].
  set (pll := u16 (LWIP_MEM_ALIGN_SIZE layer + LWIP_MEM_ALIGN_SIZE length)) in *.
  assert (Hpll : pll = LWIP_MEM_ALIGN_SIZE layer + LWIP_MEM_ALIGN_SIZE length).
  { subst pll. ulia. }
  assert (Hn : u16 (16 + pll) = 16 + pll) by (rewrite Hpll in *; ulia).
  rewrite Hn. destruct (mem_malloc_law (al s) L (16 + pll) Ha) as (r & a & -> & Hr); [rewrite <-Hn; apply u16_range|].
  cbn [mbind res_bind]. destruct r as [p|]; [|eexists None, _; split; [done|]; split; [done|]; split; [by split; [|apply Hok]|done]].
  destruct Hr as [Hfresh Ha']. destruct (al_aligned _ _ p (SrcHeap (16 + pll)) Ha') as (Hal4 & Hp0 & Hpb);
    [by rewrite lookup_insert_eq|]. simpl in Hpb. unfold is_u16 in Hlen.
  rewrite pool_payload by (try done; change SIZEOF_STRUCT_PBUF with 16; lia).
  assert (Hpl : (p + SIZEOF_STRUCT_PBUF + LWIP_MEM_ALIGN_SIZE layer) mod MEM_ALIGNMENT = 0).
  { destruct Hal4 as [k ->]. unfold MEM_ALIGNMENT. change SIZEOF_STRUCT_PBUF with 16. zlia. }
  rewrite Hpl. cbn [Z.eqb LWIP_ASSERT mbind res_bind]. eexists (Some p), _. split; [done|]. split; [done|].
  eexists (16 + pll), _. split; [by apply init_ok|]. unfold MEM_ALIGNMENT in Hpl. change SIZEOF_STRUCT_PBUF with 16 in *.
  split_and!; try done; simpl; try lia. by eapply pstate_fresh.
Qed.

(** C8: pbuf_alloc from the heap.  For every length and every layer of the
    stack the size computation does not overflow unnoticed: the block reserved holds
    the struct, the headroom and the payload, the payload is aligned and lies inside
    the block, the pbuf is unchained and has one reference; a request that does not fit
    the 16-bit sizes, or that the heap refuses, returns NULL and changes no pbuf. *)
Theorem pbuf_alloc_ram_correct s L layer length :
  pstate_ok s L → 0 ≤ layer ≤ PBUF_TRANSPORT → is_u16 length →
  ∃ r s', pbuf_alloc layer length PBUF_RAM s = Ok (r, s') ∧ dat s' = dat s ∧
    match r with
    | None => pstate_ok s' L ∧ pb s' = pb s
    | Some p => ∃ n q, pstate_ok s' (<[p := SrcHeap n]> L) ∧ L !! p = None ∧ pb s' = <[p := q]> (pb s) ∧
        p + SIZEOF_STRUCT_PBUF + layer ≤ payload q ∧ payload q + length ≤ p + n ∧ payload q mod 4 = 0 ∧
        next q = None ∧ len q = length ∧ tot_len q = length ∧ ref q = 1
    end.
Proof.
  intros Hok Hlay Hlen. destruct (alloc_ram_ok s L layer length Hok Hlay Hlen) as (r & s' & Heq & Hd & Hr).
  exists r, s'. split; [done|]. split; [done|]. destruct r as [p|]; [|done].
  destruct Hr as (n & q & Hr). exists n, q. naive_solver.
Qed.

(** nothing is leaked.  A packet that was just allocated, from the pool or
    from the heap, and is released again by its only owner gives back every struct and
    every block: the allocators hold exactly the blocks they held before. *)
Theorem pbuf_alloc_free_restores s L layer length type p s1 :
  pstate_ok s L → 0 ≤ layer ≤ PBUF_TRANSPORT → is_u16 length → type = PBUF_POOL ∨ type = PBUF_RAM →
  pbuf_alloc layer length type s = Ok (Some p, s1) →
  ∃ n s2, pbuf_free (Some p) s1 = Ok (n, s2) ∧ pstate_ok s2 L ∧ pb s2 = pb s ∧ dat s2 = dat s.
Proof.
  intros Hok Hlay Hlen Htype Halloc.
  assert (∃ l L', pstate_ok s1 L' ∧ chain (pb s1) (Some p) l ∧ Forall (λ x, ref x.2 = 1) l ∧ dat s1 = dat s ∧
    (∀ a, a ∈ l.*1 → L !! a = None ∧ pb s !! a = None) ∧
    (∀ a, a ∉ l.*1 → L' !! a = L !! a ∧ pb s1 !! a = pb s !! a)) as (l & L' & Hok1 & Hch & Hrefs & Hd & Hnew & Hold).
  { destruct Htype as [->| ->].
    - destruct (alloc_pool_top s L layer length Hok Hlay Hlen) as (r & s' & Heq & Hd & Hr).
      rewrite Heq in Halloc. injection Halloc as -> ->.
      destruct Hr as (l & L' & H1 & H2 & _ & _ & H4 & H7 & H8). exists l, L'. split_and!; try done.
      + eapply Forall_impl; [exact H4|]. unfold in_element. naive_solver.
      + intros a Ha. destruct (H7 _ Ha) as [_ Hn]. split; [done|]. by eapply pstate_fresh.
    - destruct (alloc_ram_ok s L layer length Hok Hlay Hlen) as (r & s' & Heq & Hd & Hr).
      rewrite Heq in Halloc. injection Halloc as -> ->.
      destruct Hr as (n & q & H1 & H2 & H3 & _ & _ & _ & Hnx & _ & _ & Href & Hfr).
      exists [(p, q)], (<[p := SrcHeap n]> L). split; [done|]. split.
      { simpl. rewrite H3, lookup_insert_eq. done. }
      split; [by repeat constructor|]. split; [done|]. split.
      + intros a Ha. simpl in Ha. apply list_elem_of_singleton in Ha as ->. done.
      + intros a Ha. simpl in Ha. rewrite list_elem_of_singleton in Ha. rewrite H3, !lookup_insert_ne by done. done. }
  destruct (free_ok s1 L' p l []) as (a & Hfree & Hok2); [done|by rewrite app_nil_r|by split|].
  eexists _, _. split; [exact Hfree|]. assert (HL : foldr delete L' l.*1 = L).
  { apply map_eq. intros b. destruct (decide (b ∈ l.*1)) as [Hb|Hb].
    - rewrite lookup_foldr_delete_eq by done. symmetry. by apply Hnew.
    - rewrite lookup_foldr_delete_ne by done. by apply Hold. }
  assert (Hpb : freed (pb s1) l [] = pb s).
  { unfold freed. apply map_eq. intros b. destruct (decide (b ∈ l.*1)) as [Hb|Hb].
    - rewrite lookup_foldr_delete_eq by done. symmetry. by apply Hnew.
    - rewrite lookup_foldr_delete_ne by done. by apply Hold. }
  rewrite HL in Hok2. split; [done|]. by split.
Qed.
End life.
