(* ===== verification/PbufChain.v ===== *)
(** * Packet buffers: headers, concatenation, shortening

    The operations that change the shape of a chain, characterised by what they do
    to the bytes of the packet. *)

From S2P Require Import Prelude ByteMem Pbuf PbufFacts PbufData PbufLife.

Section chains.
Context {A : Type} `{AllocatorLaws A}.
Implicit Types s : pstate A.

Lemma putp_putp p q q' s : putp p q (putp p q' s) = putp p q s.
Proof. unfold putp. simpl. by rewrite insert_insert_eq. Qed.

Lemma putp_id p q s : pb s !! p = Some q → putp p q s = s.
Proof. intros Hq. unfold putp. rewrite insert_id by done. by destruct s. Qed.

Lemma getp_put_eq p q s : getp p (putp p q s) = Ok q.
Proof. unfold getp. simpl. by rewrite lookup_insert_eq. Qed.

Lemma getp_some p q s : pb s !! p = Some q → getp p s = Ok q.
Proof. unfold getp. by intros ->. Qed.

(** ** Headers *)

(** The struct with [n] more bytes in front. *)
Definition grown (n : Z) (q : pbuf) : pbuf :=
  with_tot_len (tot_len q + n) (with_len (len q + n) (with_payload (payload q - n) q)).

(** When pbuf_add_header can move the payload pointer. *)
Definition header_fits (p n : Z) (q : pbuf) (force : bool) : bool :=
  (n =? 0) ||
  ((tot_len q + n <=? 65535) &&
   (if negb (Z.land (type_internal q) PBUF_TYPE_FLAG_STRUCT_DATA_CONTIGUOUS =? 0)
    then p + SIZEOF_STRUCT_PBUF <=? payload q - n else force)).

Lemma with_grown_0 q : grown 0 q = q.
Proof. destruct q. unfold grown, with_tot_len, with_len, with_payload. simpl. f_equal; lia. Qed.

Lemma add_header_ok s p q n force :
  pb s !! p = Some q → 0 ≤ len q → len q ≤ tot_len q → tot_len q ≤ 65535 → 0 ≤ n →
  pbuf_add_header_impl (Some p) n force s =
    Ok (if header_fits p n q force then (0, putp p (grown n q) s) else (1, s)).
Proof.
  intros Hq H1 H2 H3 Hn. unfold pbuf_add_header_impl, header_fits.
  destruct (65535 <? n) eqn:E; breflect.
  { replace (n =? 0) with false by lia. by replace (tot_len q + n <=? 65535) with false by lia. }
  destruct (n =? 0) eqn:E0; breflect.
  { subst n. simpl. by rewrite with_grown_0, putp_id. }
  rewrite (u16_id n) by ulia. unfold getp. rewrite Hq. cbn [deref mbind res_bind orb].
  destruct (tot_len q + n <=? 65535) eqn:Et; breflect; cbn [andb].
  - rewrite !u16_id by ulia. replace (n + tot_len q <? n) with false by lia.
    fold (grown n q). destruct (negb _); [|by destruct force].
    replace (p + SIZEOF_STRUCT_PBUF <=? payload q - n) with (negb (payload q - n <? p + SIZEOF_STRUCT_PBUF)) by lia.
    by destruct (_ <? _).
  - by replace (u16 (n + tot_len q) <? n) with true by ulia.
Qed.

(** Removing what was added gives back the state. *)
Lemma remove_grown s p q n : pb s !! p = Some q → 0 ≤ len q → len q ≤ tot_len q → 0 ≤ n → tot_len q + n ≤ 65535 →
  pbuf_remove_header (Some p) n (putp p (grown n q) s) = Ok (0, s).
Proof.
  intros Hq H1 H2 Hn Hb. unfold pbuf_remove_header. destruct (decide (n = 0)) as [->|Hn0].
  { simpl. by rewrite with_grown_0, putp_id. }
  replace (65535 <? n) with false by lia. replace (n =? 0) with false by lia. rewrite getp_put_eq.
  cbn [mbind res_bind]. rewrite (u16_id n) by ulia. unfold grown. simpl.
  replace (n <=? len q + n) with true by lia. cbn [LWIP_ASSERT mbind res_bind]. rewrite putp_putp, !u16_id by ulia.
  do 2 f_equal. rewrite putp_id; [done|]. rewrite Hq. f_equal. destruct q. simpl.
  unfold with_tot_len, with_len, with_payload. simpl. f_equal; lia.
Qed.

(** headers are added and removed symmetrically.  On a pbuf whose length
    fields are consistent, pbuf_add_header never lets a length wrap and never moves the
    payload in front of the struct: it succeeds exactly when the total stays below 64
    KiB and the space in front suffices (or the move is forced), and then
    pbuf_remove_header by the same amount gives back the original state; when it fails
    nothing changes. *)
Theorem pbuf_header_roundtrip s p q n force :
  pb s !! p = Some q → 0 ≤ len q → len q ≤ tot_len q → tot_len q ≤ 65535 → 0 ≤ n →
  (header_fits p n q force = true →
     ∃ s1, pbuf_add_header_impl (Some p) n force s = Ok (0, s1) ∧
           pb s1 !! p = Some (grown n q) ∧ len q + n ≤ 65535 + len q - tot_len q ∧
           pbuf_remove_header (Some p) n s1 = Ok (0, s)) ∧
  (header_fits p n q force = false → pbuf_add_header_impl (Some p) n force s = Ok (1, s)).
Proof.
  intros Hq H1 H2 H3 Hn. rewrite (add_header_ok s p q n force) by done. split; intros Hf; rewrite Hf; [|done].
  eexists. split; [done|]. assert (Hb : n = 0 ∨ tot_len q + n ≤ 65535).
  { unfold header_fits in Hf. destruct (n =? 0) eqn:E; breflect; [by left|]. simpl in Hf. breflect. by right. }
  split; [simpl; by rewrite lookup_insert_eq|]. split; [lia|]. destruct (decide (n = 0)) as [->|Hn0].
  - simpl. by rewrite with_grown_0, putp_id.
  - apply remove_grown; try done; lia.
Qed.

(** ** pbuf_cat *)

(** The head chain after [t], a packet of [T] bytes, was appended. *)
Fixpoint cat_list (t T : Z) (l : list (Z * pbuf)) : list (Z * pbuf) :=
  match l with
  | [] => []
  | [(a, q)] => [(a, with_next (Some t) (with_tot_len (tot_len q + T) q))]
  | (a, q) :: l => (a, with_tot_len (tot_len q + T) q) :: cat_list t T l
  end.

Lemma cat_list_fst t T l : (cat_list t T l).*1 = l.*1.
Proof.
  induction l as [|[a q] l IH]; [done|]. destruct l as [|[b r] l]; [done|].
  change (cat_list t T ((a, q) :: (b, r) :: l)) with ((a, with_tot_len (tot_len q + T) q) :: cat_list t T ((b, r) :: l)).
  rewrite !fmap_cons. by rewrite IH.
Qed.

Lemma cat_list_content t T d l : content d (cat_list t T l) = content d l.
Proof.
  induction l as [|[a q] l IH]; [done|]. destruct l as [|[b r] l]; [done|].
  change (cat_list t T ((a, q) :: (b, r) :: l)) with ((a, with_tot_len (tot_len q + T) q) :: cat_list t T ((b, r) :: l)).
  cbn [content] in *. by rewrite IH.
Qed.

Lemma cat_list_bytes t T l : bytes_in (cat_list t T l) = bytes_in l.
Proof.
  induction l as [|[a q] l IH]; [done|]. destruct l as [|[b r] l]; [done|].
  change (cat_list t T ((a, q) :: (b, r) :: l)) with ((a, with_tot_len (tot_len q + T) q) :: cat_list t T ((b, r) :: l)).
  cbn [bytes_in] in *. by rewrite IH.
Qed.

Lemma cat_list_lens t l1 l2 :
  lens_ok l1 → lens_ok l2 → bytes_in l1 + bytes_in l2 ≤ 65535 → lens_ok (cat_list t (bytes_in l2) l1 ++ l2).
Proof.
  intros H1 H2. induction l1 as [|[a q] l1 IH]; [done|]. intros Hle.
  destruct H1 as (Hq & Ht & _ & H1). cbn [bytes_in] in Hle.
  destruct l1 as [|[b r] l1].
  - simpl in *. split_and!; try done; lia.
  - change (cat_list t (bytes_in l2) ((a, q) :: (b, r) :: l1)) with
      ((a, with_tot_len (tot_len q + bytes_in l2) q) :: cat_list t (bytes_in l2) ((b, r) :: l1)).
    cbn [app lens_ok]. rewrite bytes_in_app, cat_list_bytes. cbn [tot_len with_tot_len len].
    split_and!; [done|lia|lia|]. apply IH; [done|lia].
Qed.

(** The walk to the last struct of the head chain; the two stores that follow it
    turn the head chain into [cat_list]. *)
Lemma cat_loop_ok l : ∀ fuel p t tb s,
  chain (pb s) (Some p) l → lens_ok l → bytes_in l + tot_len tb ≤ 65535 → 0 ≤ tot_len tb →
  pb s !! t = Some tb → t ∉ l.*1 → (length l ≤ fuel)%nat →
  ∃ m b x, pbuf_cat_loop fuel p t s = Ok (b, PState m (dat s) (al s) (pbuf_free_ooseq_pending s)) ∧
    m !! b = Some x ∧ tot_len x = len x ∧ b ∈ l.*1 ∧ 0 ≤ len x ≤ bytes_in l ∧
    path (<[b := with_next (Some t) (with_tot_len (tot_len x + tot_len tb) x)]> m) (Some p)
      (cat_list t (tot_len tb) l) (Some t) ∧
    (∀ c, c ∉ l.*1 → m !! c = pb s !! c).
Proof.
  induction l as [|[a q] l IH]; intros fuel p t tb s Hch Hl Hle HT Ht Hnt Hf; [done|].
  pose proof Hch as (Hp & Ha & Hch'). injection Hp as ->. pose proof Hl as (Hq & Hqt & Hqb & Hl').
  pose proof (lens_ok_range _ Hl') as Hr. destruct fuel as [|fuel]; [simpl in Hf; lia|].
  cbn [pbuf_cat_loop]. rewrite (getp_some _ _ _ Ha). cbn [mbind res_bind].
  destruct l as [|[b r] l].
  - simpl in Hch'. rewrite Hch'. exists (pb s), a, q. destruct s. simpl in *.
    rewrite lookup_insert_eq. split_and!; try done; try lia. by left.
  - assert (Hn : next q = Some b) by (by destruct Hch'). rewrite Hn in *. rewrite (getp_some _ _ _ Ht).
    cbn [mbind res_bind]. rewrite u16_id by (simpl in *; ulia).
    assert (Hnd : a ∉ ((b, r) :: l).*1).
    { apply chain_NoDup in Hch. by apply NoDup_cons in Hch as [? _]. }
    assert (Hta : a ≠ t) by (intros ->; apply Hnt; by left).
    destruct (IH fuel b t tb (putp a (with_tot_len (tot_len q + tot_len tb) q) s))
      as (m & c & x & -> & Hx & Hxt & Hin & Hxb & Hpath & Hfr).
    + eapply chain_frame; [|exact Hch']. intros c Hc. simpl. rewrite lookup_insert_ne; [done|]. by intros ->.
    + done.
    + cbn [bytes_in] in *. lia.
    + done.
    + simpl. by rewrite lookup_insert_ne.
    + intros Hin. apply Hnt. by right.
    + simpl in *. lia.
    + exists m, c, x. split; [done|]. split; [done|]. split; [done|]. split; [by right|].
      split; [cbn [bytes_in] in *; lia|]. split.
      * change (cat_list t (tot_len tb) ((a, q) :: (b, r) :: l)) with
          ((a, with_tot_len (tot_len q + tot_len tb) q) :: cat_list t (tot_len tb) ((b, r) :: l)).
        cbn [path]. split; [done|]. split; [|by cbn [next with_tot_len]; rewrite Hn].
        rewrite lookup_insert_ne by (by intros ->). rewrite Hfr by done. simpl. by rewrite lookup_insert_eq.
      * intros e He. rewrite Hfr by (intros Hin'; apply He; by right). simpl.
        rewrite lookup_insert_ne; [done|]. intros ->. apply He. by left.
Qed.

Lemma cat_ok s h t l1 l2 :
  chain (pb s) (Some h) l1 → chain (pb s) (Some t) l2 → lens_ok l1 → lens_ok l2 →
  l1.*1 ## l2.*1 → bytes_in l1 + bytes_in l2 ≤ 65535 →
  ∃ m, pbuf_cat (Some h) (Some t) s = Ok (PState m (dat s) (al s) (pbuf_free_ooseq_pending s)) ∧
    path m (Some h) (cat_list t (bytes_in l2) l1) (Some t) ∧ chain m (Some t) l2 ∧
    (∀ c, c ∉ l1.*1 → m !! c = pb s !! c).
Proof.
  intros H1 H2 Hl1 Hl2 Hdis Hle. pose proof (lens_ok_range _ Hl2). pose proof (chain_fuel_enough _ _ _ H1).
  destruct l2 as [|[t' tb] l2]; [done|]. pose proof H2 as (Heq & Ht & _). injection Heq as <-.
  assert (Htot : tot_len tb = bytes_in ((t, tb) :: l2)) by (simpl in *; lia).
  assert (Hnt : t ∉ l1.*1) by (intros Hin; apply (Hdis t); [done|by left]).
  destruct (cat_loop_ok l1 (chain_fuel s) h t tb s) as (m & b & x & Hloop & Hx & Hxt & Hin & Hxb & Hpath & Hfr);
    try done; try lia.
  unfold pbuf_cat. rewrite Hloop. cbn [mbind res_bind]. unfold modp, getp. cbn [pb]. rewrite Hx, Hfr, Ht by done.
  cbn [deref mbind res_bind]. rewrite Hxt, Z.eqb_refl. cbn [LWIP_ASSERT mbind res_bind].
  rewrite u16_id by ulia. unfold putp. cbn [pb dat al pbuf_free_ooseq_pending].
  rewrite lookup_insert_eq. cbn [deref mbind res_bind pb dat al pbuf_free_ooseq_pending].
  rewrite insert_insert_eq, <-Hxt, <-Htot.
  eexists. split; [done|]. split; [done|]. assert (Hfr2 : ∀ c, c ∉ l1.*1 →
    <[b := with_next (Some t) (with_tot_len (tot_len x + tot_len tb) x)]> m !! c = pb s !! c).
  { intros c Hc. rewrite lookup_insert_ne by (intros ->; done). by apply Hfr. }
  split; [|done]. eapply chain_frame; [|exact H2]. intros c Hc. apply Hfr2. intros Hc1. by apply (Hdis c).
Qed.

(** pbuf_cat concatenates.  Appending a packet to another one (together at
    most 64 KiB) gives one chain whose bytes are the bytes of the first followed by the
    bytes of the second, whose tot_len fields satisfy the invariant in every struct;
    no payload byte, no reference count and no struct outside the head chain changes. *)
Theorem pbuf_cat_concatenates s h t l1 l2 c1 c2 :
  chain (pb s) (Some h) l1 → chain (pb s) (Some t) l2 → lens_ok l1 → lens_ok l2 →
  l1.*1 ## l2.*1 → bytes_in l1 + bytes_in l2 ≤ 65535 →
  content (dat s) l1 = Some c1 → content (dat s) l2 = Some c2 →
  ∃ s' l, pbuf_cat (Some h) (Some t) s = Ok s' ∧ chain (pb s') (Some h) l ∧ lens_ok l ∧
    l.*1 = l1.*1 ++ l2.*1 ∧ content (dat s') l = Some (c1 ++ c2) ∧ dat s' = dat s ∧
    (ref ∘ snd) <$> l = ((ref ∘ snd) <$> l1) ++ ((ref ∘ snd) <$> l2) ∧
    (∀ a, a ∉ l1.*1 → pb s' !! a = pb s !! a).
Proof.
  intros H1 H2 Hl1 Hl2 Hdis Hle Hc1 Hc2. destruct (cat_ok s h t l1 l2) as (m & Hcat & Hp & Hch & Hfr); try done.
  exists (PState m (dat s) (al s) (pbuf_free_ooseq_pending s)), (cat_list t (bytes_in l2) l1 ++ l2).
  split; [done|]. split; [by eapply path_chain|]. split; [by apply cat_list_lens|].
  split; [by rewrite fmap_app, cat_list_fst|]. split.
  { simpl. by rewrite content_app, cat_list_content, Hc1, Hc2. }
  split; [done|]. split; [|done]. rewrite fmap_app. f_equal. clear.
  induction l1 as [|[a q] l1 IH]; [done|]. destruct l1 as [|[b r] l1]; [done|].
  change (cat_list t (bytes_in l2) ((a, q) :: (b, r) :: l1)) with
    ((a, with_tot_len (tot_len q + bytes_in l2) q) :: cat_list t (bytes_in l2) ((b, r) :: l1)).
  rewrite !fmap_cons. by rewrite IH.
Qed.

(** ** pbuf_chain and pbuf_dechain *)

Lemma free_shared s t q :
  pb s !! t = Some q → 2 ≤ ref q ≤ 255 →
  pbuf_free (Some t) s = Ok (0, putp t (with_ref (ref q - 1) q) s).
Proof.
  intros Hq Hr. unfold pbuf_free, chain_fuel. cbn [pbuf_free_loop]. rewrite (getp_some _ _ _ Hq).
  cbn [mbind res_bind]. replace (0 <? ref q) with true by lia. cbn [LWIP_ASSERT mbind res_bind].
  rewrite u8_id by ulia. by replace (ref q - 1 =? 0) with false by lia.
Qed.

(** The map of [pbuf_cat] when the head is a single struct. *)
Lemma cat_single s h q t l2 :
  pb s !! h = Some q → next q = None → tot_len q = len q → 0 ≤ len q → chain (pb s) (Some t) l2 → lens_ok l2 →
  h ∉ l2.*1 → len q + bytes_in l2 ≤ 65535 →
  pbuf_cat (Some h) (Some t) s =
    Ok (putp h (with_next (Some t) (with_tot_len (tot_len q + bytes_in l2) q)) s).
Proof.
  intros Hq Hn Ht Hlen H2 Hl2 Hnin Hle. pose proof (lens_ok_range _ Hl2).
  destruct (cat_ok s h t [(h, q)] l2) as (m & -> & Hp & _ & Hfr); simpl; try done; try lia.
  - intros a ->%list_elem_of_singleton. done.
  - unfold putp. do 2 f_equal. destruct Hp as (_ & Hm & _). apply map_eq. intros a.
    destruct (decide (a = h)) as [->|Hne]; [by rewrite lookup_insert_eq|].
    rewrite lookup_insert_ne by done. apply Hfr. simpl. by rewrite list_elem_of_singleton.
Qed.

(** pbuf_dechain undoes pbuf_chain.  Chaining a packet that its caller keeps
    a reference to behind a single pbuf and dechaining it again returns the tail and
    restores the state exactly: lengths, links and reference counts. *)
Theorem pbuf_dechain_chain s h q t tb l2 :
  pb s !! h = Some q → next q = None → tot_len q = len q → 0 ≤ len q →
  chain (pb s) (Some t) ((t, tb) :: l2) → lens_ok ((t, tb) :: l2) →
  h ∉ ((t, tb) :: l2).*1 → len q + bytes_in ((t, tb) :: l2) ≤ 65535 → 1 ≤ ref tb ≤ 254 →
  ∃ s', pbuf_chain (Some h) (Some t) s = Ok s' ∧ pbuf_dechain h s' = Ok (Some t, s).
Proof.
  intros Hq Hn Htl Hlen H2 Hl2 Hnin Hle Href. pose proof H2 as (_ & Ht & _).
  assert (Hht : h ≠ t) by (intros ->; apply Hnin; by left).
  assert (Htot : tot_len tb = bytes_in ((t, tb) :: l2)) by (simpl in *; lia). rewrite <-Htot in Hle.
  unfold pbuf_chain. rewrite (cat_single s h q t _ Hq Hn Htl Hlen H2 Hl2 Hnin) by lia. cbn [mbind res_bind].
  rewrite <-Htot. set (q1 := with_next _ _). unfold pbuf_ref.
  assert (Ht1 : pb (putp h q1 s) !! t = Some tb) by (simpl; by rewrite lookup_insert_ne).
  rewrite (getp_some _ _ _ Ht1). cbn [mbind res_bind]. rewrite u8_id by ulia.
  replace (0 <? ref tb + 1) with true by lia. cbn [LWIP_ASSERT mbind res_bind]. eexists. split; [done|].
  set (tb1 := with_ref (ref tb + 1) tb). set (s1 := putp t tb1 (putp h q1 s)).
  assert (Hh1 : pb s1 !! h = Some q1) by (simpl; by rewrite lookup_insert_ne, lookup_insert_eq).
  assert (Ht2 : pb s1 !! t = Some tb1) by (simpl; by rewrite lookup_insert_eq).
  unfold pbuf_dechain. rewrite (getp_some _ _ _ Hh1). cbn [mbind res_bind]. change (next q1) with (Some t).
  cbn iota. rewrite (getp_some _ _ _ Ht2). cbn [mbind res_bind].
  change (tot_len q1) with (tot_len q + tot_len tb). change (len q1) with (len q). change (tot_len tb1) with (tot_len tb).
  replace (tot_len tb =? tot_len q + tot_len tb - len q) with true by lia. cbn [LWIP_ASSERT mbind res_bind].
  assert (0 ≤ tot_len tb ≤ 65535) by (rewrite Htot; by apply lens_ok_range).
  rewrite u16_id by ulia. replace (tot_len q + tot_len tb - len q) with (tot_len tb) by lia.
  assert (Heq1 : putp t (with_tot_len (tot_len tb) tb1) s1 = s1).
  { rewrite putp_id; [done|]. rewrite Ht2. by destruct tb. }
  rewrite Heq1. unfold modp. rewrite (getp_some _ _ _ Hh1). cbn [mbind res_bind]. rewrite getp_put_eq.
  cbn [mbind res_bind]. rewrite putp_putp. set (q2 := with_tot_len _ _).
  assert (Hq2 : q2 = q) by (unfold q2, q1; destruct q; simpl in *; by subst).
  rewrite Hq2. assert (Ht3 : pb (putp h q s1) !! t = Some tb1) by (simpl; by rewrite lookup_insert_ne, lookup_insert_eq).
  rewrite (free_shared _ _ _ Ht3) by (simpl; lia). cbn [mbind res_bind].
  replace (with_ref (ref tb1 - 1) tb1) with tb by (destruct tb; unfold tb1, with_ref; simpl; f_equal; lia).
  assert (Hs : putp t tb (putp h q s1) = s).
  { unfold s1, putp. simpl. destruct s as [m d a o]. simpl in *. f_equal.
    rewrite (insert_insert_ne _ h t), insert_insert_eq, insert_insert_eq, (insert_id m) by done. by apply insert_id. }
  rewrite Hs, (getp_some _ _ _ Hq). cbn [mbind res_bind]. by rewrite Htl, Z.eqb_refl.
Qed.

(** a tail of 256 pbufs escapes.  pbuf_free counts released structs in a
    u8_t; when pbuf_dechain drops the last reference to a tail of 256 pbufs the
    count wraps to 0, so pbuf_dechain returns the address of the released tail as if it
    were still referenced. *)
Theorem pbuf_dechain_256_dangling s L h q l :
  pstate_ok s L → chain (pb s) (Some h) ((h, q) :: l) → lens_ok ((h, q) :: l) →
  zlen l = 256 → Forall (λ x, ref x.2 = 1) l →
  ∃ t s', pbuf_dechain h s = Ok (Some t, s') ∧ pb s' !! t = None.
Proof.
  intros Hok Hch Hl Hlen Hrefs. pose proof Hch as (_ & Hq & Hch'). pose proof Hl as (Hq0 & Hqt & Hqb & Hl').
  destruct l as [|[t tb] l]; [done|]. pose proof Hch' as (Hn & Ht & Htail).
  pose proof (chain_NoDup _ _ _ Hch) as Hnd. apply NoDup_cons in Hnd as [Hnin _].
  assert (Hht : h ≠ t) by (intros ->; apply Hnin; by left).
  unfold pbuf_dechain. rewrite (getp_some _ _ _ Hq). cbn [mbind res_bind]. rewrite Hn. cbn iota.
  rewrite (getp_some _ _ _ Ht). cbn [mbind res_bind].
  assert (Htt : tot_len tb = tot_len q - len q) by (simpl in *; lia).
  replace (tot_len tb =? tot_len q - len q) with true by lia. cbn [LWIP_ASSERT mbind res_bind].
  pose proof (lens_ok_range _ Hl'). assert (0 ≤ tot_len tb ≤ 65535) by (simpl in *; lia).
  rewrite <-Htt, u16_id by ulia.
  replace (with_tot_len (tot_len tb) tb) with tb by (by destruct tb). rewrite (putp_id t tb s Ht).
  unfold modp. rewrite (getp_some _ _ _ Hq). cbn [mbind res_bind]. rewrite getp_put_eq. cbn [mbind res_bind].
  rewrite putp_putp. set (q2 := with_tot_len _ _).
  destruct (free_ok (putp h q2 s) L t ((t, tb) :: l) []) as (a & -> & _).
  - by apply (pstate_ok_put s L h q).
  - rewrite app_nil_r. rewrite Hn in Hch'. eapply chain_frame; [|exact Hch']. intros c Hc. simpl.
    rewrite lookup_insert_ne; [done|]. by intros ->.
  - by split.
  - cbn [mbind res_bind]. rewrite Hlen. change (u8 256) with 0.
    assert (Hh : freed (pb (putp h q2 s)) ((t, tb) :: l) [] !! h = Some q2).
    { unfold freed. rewrite lookup_foldr_delete_ne by done. simpl. by rewrite lookup_insert_eq. }
    rewrite (getp_some h q2) by done. cbn [mbind res_bind].
    replace (tot_len q2 =? len q2) with true by (symmetry; apply Z.eqb_refl). cbn [LWIP_ASSERT mbind res_bind].
    eexists t, _. split; [done|]. simpl. apply lookup_delete_eq.
Qed.

(** ** pbuf_realloc *)

Definition shrink_list (k : Z) (l : list (Z * pbuf)) : list (Z * pbuf) :=
  (λ x, (x.1, with_tot_len (tot_len x.2 - k) x.2)) <$> l.

Lemma shrink_list_fst k l : (shrink_list k l).*1 = l.*1.
Proof. unfold shrink_list. rewrite <-list_fmap_compose. by apply list_fmap_ext. Qed.

Lemma shrink_list_content k d l : content d (shrink_list k l) = content d l.
Proof. induction l as [|[a q] l IH]; [done|]. cbn [shrink_list fmap list_fmap content]. fold (shrink_list k l). by rewrite IH. Qed.

Lemma shrink_list_bytes k l : bytes_in (shrink_list k l) = bytes_in l.
Proof. induction l as [|[a q] l IH]; [done|]. cbn [shrink_list fmap list_fmap bytes_in]. fold (shrink_list k l). by rewrite IH. Qed.

Lemma realloc_walk_ok l : ∀ fuel p rem s,
  chain (pb s) (Some p) l → lens_ok l → 0 ≤ rem < bytes_in l → (length l ≤ fuel)%nat →
  ∃ l1 q b l2 r m, l = l1 ++ (q, b) :: l2 ∧ rem = bytes_in l1 + r ∧ 0 ≤ r ≤ len b ∧
    pbuf_realloc_walk fuel p rem (bytes_in l - rem) s =
      Ok (q, r, PState m (dat s) (al s) (pbuf_free_ooseq_pending s)) ∧
    path m (Some p) (shrink_list (bytes_in l - rem) l1) (Some q) ∧
    (∀ c, c ∉ l1.*1 → m !! c = pb s !! c).
Proof.
  induction l as [|[a q] l IH]; intros fuel p rem s Hch Hl Hrem Hf; [done|].
  pose proof Hch as (Hp & Ha & Hch'). injection Hp as ->. pose proof Hl as (Hq & Hqt & Hqb & Hl').
  pose proof (lens_ok_range _ Hl') as Hr. destruct fuel as [|fuel]; [simpl in Hf; lia|].
  cbn [pbuf_realloc_walk]. rewrite (getp_some _ _ _ Ha). cbn [mbind res_bind bytes_in] in *.
  destruct (len q <? rem) eqn:E; breflect.
  - rewrite (u16_id (rem - len q)), (u16_id (tot_len q - _)) by ulia.
    destruct l as [|[b x] l]; [simpl in Hrem; lia|]. assert (Hn : next q = Some b) by (by destruct Hch').
    rewrite Hn in *. assert (Hnd : a ∉ ((b, x) :: l).*1).
    { apply chain_NoDup in Hch. by apply NoDup_cons in Hch as [? _]. }
    set (k := len q + bytes_in ((b, x) :: l) - rem).
    destruct (IH fuel b (rem - len q) (putp a (with_tot_len (tot_len q - k) q) s))
      as (l1 & c & y & l2 & r & m & Heq & Hrem' & Hr' & Hw & Hpath & Hfr); try done; [|lia|simpl in *; lia|].
    { eapply chain_frame; [|exact Hch']. intros c Hc. simpl. rewrite lookup_insert_ne; [done|]. by intros ->. }
    replace (bytes_in ((b, x) :: l) - (rem - len q)) with k in * by (unfold k; lia).
    exists ((a, q) :: l1), c, y, l2, r, m. split; [by rewrite Heq|]. cbn [bytes_in]. split; [lia|]. split; [done|].
    fold k. split; [by rewrite Hw|]. split.
    + cbn [shrink_list fmap list_fmap path]. fold (shrink_list k l1). split; [done|].
      cbn [next with_tot_len fst snd]. rewrite Hn. split; [|done]. rewrite Hfr.
      * simpl. by rewrite lookup_insert_eq.
      * intros Hin. apply Hnd. rewrite Heq, fmap_app. apply elem_of_app. by left.
    + intros e He. rewrite Hfr by (intros Hin; apply He; by right). simpl. rewrite lookup_insert_ne; [done|].
      intros ->. apply He. by left.
  - exists [], a, q, l, rem, (pb s). simpl. split_and!; try done; try lia. by destruct s.
Qed.

Lemma shrink_list_lens l1 q b l2 r x :
  lens_ok (l1 ++ (q, b) :: l2) → 0 ≤ r ≤ len b → len x = r → tot_len x = r →
  lens_ok (shrink_list (len b + bytes_in l2 - r) l1 ++ [(q, x)]).
Proof.
  intros Hl Hr Hx Hx'. induction l1 as [|[a y] l1 IH].
  - simpl in *. destruct Hl as (? & ? & ? & Hl). apply lens_ok_range in Hl. split_and!; try done; lia.
  - cbn [app lens_ok] in Hl. destruct Hl as (Hy & Hyt & Hyb & Hl). pose proof (lens_ok_range _ Hl).
    cbn [shrink_list fmap list_fmap app lens_ok]. fold (shrink_list (len b + bytes_in l2 - r) l1).
    rewrite bytes_in_app, shrink_list_bytes. rewrite bytes_in_app in Hyt. cbn [bytes_in fst snd tot_len len with_tot_len] in *.
    pose proof (lens_ok_app _ _ Hl) as (_ & _ & _ & Hl2). apply lens_ok_range in Hl2.
    split_and!; [done|lia|lia|by apply IH].
Qed.

(** The heap block of a struct contains its payload. *)
Definition in_heap_block (L : gmap Z src) (x : Z * pbuf) : Prop :=
  ∀ n, L !! x.1 = Some (SrcHeap n) → is_u16 n ∧ x.1 ≤ payload x.2 ∧ payload x.2 + len x.2 ≤ x.1 + n.

(** The middle of [pbuf_realloc]: the heap block of the new last pbuf is trimmed. *)
Lemma realloc_trim_ok s L q b r :
  pstate_ok s L → pb s !! q = Some b → in_heap_block L (q, b) → 0 ≤ r ≤ len b →
  (∃ n, mem_trim q n (al s) = Assert ∧ L !! q ≠ None) ∧
    (if pbuf_match_allocsrc b PBUF_TYPE_ALLOC_SRC_MASK_STD_HEAP && negb (r =? len b) && negb (is_custom b)
     then '(x, a) ← mem_trim q (u16 (payload b - q + r)) (al s);
          match x with None => Assert | Some q => Ok (q, set_al a s) end
     else Ok (q, s)) = Assert ∨
  ∃ a L', (if pbuf_match_allocsrc b PBUF_TYPE_ALLOC_SRC_MASK_STD_HEAP && negb (r =? len b) && negb (is_custom b)
     then '(x, a) ← mem_trim q (u16 (payload b - q + r)) (al s);
          match x with None => Assert | Some q => Ok (q, set_al a s) end
     else Ok (q, s)) = Ok (q, set_al a s) ∧ pstate_ok (set_al a s) L' ∧
     (∀ c, c ≠ q → L' !! c = L !! c) ∧ is_Some (L' !! q).
Proof.
  intros Hok Hb Hblk Hr. pose proof Hok as [Ha Hp]. destruct (Hp _ _ Hb) as (x & Hx & Hs).
  destruct (_ && _) eqn:E.
  2: { right. exists (al s), L. split; [by destruct s|]. split; [by destruct s|]. split; [done|]. eauto. }
  breflect. unfold pbuf_match_allocsrc in *. change (Z.land PBUF_TYPE_ALLOC_SRC_MASK_STD_HEAP _) with 0 in *.
  breflect. assert (∃ n, x = SrcHeap n) as [n ->].
  { destruct x as [n|[]|]; simpl in Hs; [eauto|destruct Hs; lia|destruct Hs; lia|congruence]. }
  destruct (Hblk n Hx) as (Hn & Hb1 & Hb2). simpl in *. rewrite u16_id by ulia.
  destruct (mem_trim_law (al s) L q n (payload b - q + r) Ha Hx) as [Htr|(a & Htr & Ha')]; [lia| |]; rewrite Htr.
  - left. split; [|done]. exists (payload b - q + r). split; [done|]. congruence.
  - right. exists a, (<[q := SrcHeap (payload b - q + r)]> L). split; [done|]. split; [|split].
    + split; [done|]. simpl. intros p' q' Hq'. destruct (decide (p' = q)) as [->|Hne].
      * rewrite lookup_insert_eq. eexists. split; [done|]. rewrite Hb in Hq'. by simplify_eq.
      * rewrite lookup_insert_ne by done. by apply Hp.
    + intros c Hc. by rewrite lookup_insert_ne.
    + rewrite lookup_insert_eq. eauto.
Qed.

(** The end of [pbuf_realloc]: the lengths of the new last pbuf are set and the
    rest of the chain is released. *)
Lemma realloc_finish_ok s L q b r l2 :
  pstate_ok s L → pb s !! q = Some b → chain (pb s) (next b) l2 → q ∉ l2.*1 →
  Forall (λ x, ref x.2 = 1) l2 →
  ∃ s', (s1 ← modp q (with_len r) s;
         s1 ← modp q (with_tot_len r) s1;
         b1 ← getp q s1;
         s1 ← (match next b1 with
               | Some _ => '(_, s1) ← pbuf_free (next b1) s1; Ok s1
               | None => Ok s1
               end);
         modp q (with_next None) s1) = Ok s' ∧
    dat s' = dat s ∧ pstate_ok s' (foldr delete L l2.*1) ∧
    pb s' !! q = Some (with_next None (with_tot_len r (with_len r b))) ∧
    (∀ a, a ∈ l2.*1 → pb s' !! a = None) ∧
    (∀ a, a ∉ l2.*1 → a ≠ q → pb s' !! a = pb s !! a).
Proof.
  intros Hok Hb Hch Hnin Hrefs. unfold modp. rewrite (getp_some _ _ _ Hb). cbn [mbind res_bind].
  rewrite getp_put_eq. cbn [mbind res_bind]. rewrite putp_putp, getp_put_eq. cbn [mbind res_bind].
  set (b1 := with_tot_len r (with_len r b)). change (next b1) with (next b).
  assert (Hok1 : pstate_ok (putp q b1 s) L) by (by apply (pstate_ok_put s L q b)).
  destruct l2 as [|[t tb] l2].
  - simpl in Hch. rewrite Hch. cbn [mbind res_bind]. rewrite getp_put_eq. cbn [mbind res_bind].
    rewrite putp_putp. eexists. split; [done|]. split; [done|]. split; [by apply (pstate_ok_put s L q b)|].
    split; [simpl; by rewrite lookup_insert_eq|]. split; [by intros a Ha%not_elem_of_nil|].
    intros a _ Ha. simpl. by rewrite lookup_insert_ne.
  - assert (Hn : next b = Some t) by (by destruct Hch). rewrite Hn in *.
    assert (Hch1 : chain (pb (putp q b1 s)) (Some t) ((t, tb) :: l2)).
    { eapply chain_frame; [|exact Hch]. intros c Hc. simpl. rewrite lookup_insert_ne; [done|]. by intros ->. }
    destruct (free_ok (putp q b1 s) L t ((t, tb) :: l2) []) as (a & -> & Hok2);
      [done|by rewrite app_nil_r|by split|]. cbn [mbind res_bind].
    set (s2 := PState _ _ _ _) in *.
    assert (Hq2 : pb s2 !! q = Some b1).
    { unfold s2, freed. cbn [pb]. rewrite lookup_foldr_delete_ne by done. simpl. by rewrite lookup_insert_eq. }
    rewrite (getp_some _ _ _ Hq2). cbn [mbind res_bind]. eexists. split; [done|]. split; [done|].
    split; [by apply (pstate_ok_put s2 _ q b1)|]. split; [simpl; by rewrite lookup_insert_eq|]. split.
    + intros c Hc. cbn [pb putp]. rewrite lookup_insert_ne by (by intros ->). by apply lookup_foldr_delete_eq.
    + intros c Hc Hcq. cbn [pb putp]. rewrite lookup_insert_ne by done. unfold s2, freed. cbn [pb].
      rewrite lookup_foldr_delete_ne by done. simpl. by rewrite lookup_insert_ne.
Qed.

(** The structs in front of the new last one only change their tot_len. *)
Lemma shrunk_state_ok s L l1 q b l2 p k m :
  pstate_ok s L → chain (pb s) p (l1 ++ (q, b) :: l2) → path m p (shrink_list k l1) (Some q) →
  (∀ a, a ∉ l1.*1 → m !! a = pb s !! a) → pstate_ok (PState m (dat s) (al s) (pbuf_free_ooseq_pending s)) L.
Proof.
  intros [Ha Hp] Hch Hpath Hfr. split; [done|]. simpl. intros a x Hx. destruct (decide (a ∈ l1.*1)) as [Hin|Hin].
  - rewrite <-(shrink_list_fst k) in Hin.
    apply list_elem_of_fmap in Hin as ([a' x'] & -> & Hin). pose proof (path_lookup _ _ _ _ _ _ Hpath Hin) as Hx'.
    simpl in Hx. rewrite Hx in Hx'. injection Hx' as <-.
    apply list_elem_of_fmap in Hin as ([a2 x2] & Hpair & Hin). injection Hpair as -> ->.
    simpl. destruct (Hp a2 x2) as (z & Hz & Hsz); [|exists z; split; [exact Hz|exact Hsz]].
    eapply chain_lookup; [exact Hch|]. apply elem_of_app. by left.
  - rewrite Hfr in Hx by done. by apply Hp.
Qed.

(** The content of the shortened chain. *)
Lemma shrunk_content d l1 q b l2 c k r : lens_ok (l1 ++ (q, b) :: l2) → content d (l1 ++ (q, b) :: l2) = Some c →
  0 ≤ r ≤ len b →
  content d (shrink_list k l1 ++ [(q, with_next None (with_tot_len r (with_len r b)))]) = Some (take (Z.to_nat (bytes_in l1 + r)) c).
Proof.
  intros Hl Hc Hr. pose proof (content_length _ _ _ Hl Hc) as Hlen. rewrite content_app, shrink_list_content.
  rewrite content_app in Hc. simpl. destruct (content d l1) as [c1|] eqn:Ec1; [|done]. cbn [mbind option_bind content] in Hc.
  destruct (mread d (payload b) (Z.to_nat (len b))) as [cb|] eqn:Eb; [|done].
  destruct (content d l2) as [c2|] eqn:Ec2; [|done]. injection Hc as <-.
  assert (Hr2 : mread d (payload b) (Z.to_nat r) = Some (take (Z.to_nat r) cb)).
  { rewrite <-(Z.add_0_r (payload b)) at 1. rewrite (mread_slice _ _ (len b) cb) by (done || lia). done. }
  rewrite Hr2. cbn [mbind option_bind]. rewrite app_nil_r. f_equal.
  assert (Hz1 : zlen c1 = bytes_in l1).
  { rewrite bytes_in_app in Hlen. rewrite !zlen_app in Hlen. cbn [bytes_in] in Hlen.
    pose proof (lens_ok_app _ _ Hl) as (_ & _ & _ & Hl2). rewrite (content_length _ _ _ Hl2 Ec2) in Hlen.
    apply mread_length in Eb. unfold zlen in *. lia. }
  apply mread_length in Eb. unfold zlen in *. rewrite take_app_ge by lia. f_equal. rewrite take_app_le by lia. f_equal. lia.
Qed.

(** C9: pbuf_realloc truncates.  Asking for at least the current length changes
    nothing.  Otherwise (the pbufs behind the head having no other owner) the packet
    becomes exactly its first [new_len] bytes, tot_len invariant included, every pbuf cut
    off is released to its allocator, no payload byte is moved; the only way not to
    return is that mem_trim refuses to shrink the heap block of the new last pbuf. *)
Theorem pbuf_realloc_truncates s L p l c new_len :
  pstate_ok s L → chain (pb s) (Some p) l → lens_ok l → content (dat s) l = Some c →
  Forall (in_heap_block L) l → Forall (λ x, ref x.2 = 1) (tail l) → is_u16 new_len →
  (zlen c ≤ new_len → pbuf_realloc (Some p) new_len s = Ok s) ∧
  (new_len < zlen c →
     (∃ q b n, (q, b) ∈ l ∧ mem_trim q n (al s) = Assert ∧ pbuf_realloc (Some p) new_len s = Assert) ∨
     ∃ s' l' L', pbuf_realloc (Some p) new_len s = Ok s' ∧ dat s' = dat s ∧ pstate_ok s' L' ∧
       chain (pb s') (Some p) l' ∧ lens_ok l' ∧ content (dat s') l' = Some (take (Z.to_nat new_len) c) ∧
       (∀ a, a ∈ l.*1 → a ∉ l'.*1 → pb s' !! a = None ∧ L' !! a = None) ∧
       (∀ a, a ∉ l.*1 → pb s' !! a = pb s !! a ∧ L' !! a = L !! a)).
Proof.
  intros Hok Hch Hl Hc Hblk Hrefs Hnew. pose proof (content_length _ _ _ Hl Hc) as Hlen.
  pose proof (lens_ok_range _ Hl) as Hrange. pose proof (chain_fuel_enough _ _ _ Hch) as Hfuel.
  destruct l as [|[h hb] l0] eqn:El; [done|]. rewrite <-El in *.
  assert (Hh : pb s !! p = Some hb ∧ tot_len hb = zlen c ∧ p = h).
  { subst l. destruct Hch as (Hp & Hh & _). injection Hp as ->. simpl in Hlen, Hl. split_and!; [done|lia|done]. }
  destruct Hh as (Hh & Htot & Hph). unfold pbuf_realloc. rewrite (getp_some _ _ _ Hh). cbn [mbind res_bind]. rewrite Htot.
  split; intros Hcase; [by replace (zlen c <=? new_len) with true by lia|].
  replace (zlen c <=? new_len) with false by lia. rewrite (u16_id (zlen c - new_len)) by ulia.
  unfold is_u16 in Hnew. rewrite Hlen.
  destruct (realloc_walk_ok l (chain_fuel s) p new_len s) as (l1 & q & b & l2 & r & m & Heq & Hnl & Hr & Hw & Hpath & Hfr);
    [done|done|lia|lia|]. rewrite Hw. cbn [mbind res_bind]. clear Hw.
  set (s1 := PState m (dat s) (al s) (pbuf_free_ooseq_pending s)).
  pose proof (chain_NoDup _ _ _ Hch) as Hnd. rewrite Heq, fmap_app, fmap_cons in Hnd. simpl in Hnd.
  apply NoDup_app in Hnd as (_ & Hdis & Hnd). apply NoDup_cons in Hnd as [Hq2 _].
  assert (Hq1 : q ∉ l1.*1) by (intros Hin; apply (Hdis _ Hin); by left).
  pose proof Hch as Hch0. rewrite Heq in Hch0. apply chain_split in Hch0 as (e & _ & He). destruct He as (-> & Hqb & Hch2).
  assert (Hm : pb s1 !! q = Some b) by (simpl; by rewrite Hfr).
  assert (Hok1 : pstate_ok s1 L) by (subst l; rewrite Heq in Hch; by eapply shrunk_state_ok).
  rewrite (getp_some _ _ _ Hm). cbn [mbind res_bind].
  assert (Hblkq : in_heap_block L (q, b)).
  { rewrite Heq in Hblk. apply Forall_app in Hblk as [_ Hblk]. by apply Forall_cons in Hblk as [? _]. }
  destruct (realloc_trim_ok s1 L q b r Hok1 Hm Hblkq Hr) as [((n & Htr & _) & ->)|(a & L1 & -> & Hok2 & HL1 & HLq)].
  { left. exists q, b, n. split; [rewrite Heq; set_solver|]. by split. }
  right. cbn [mbind res_bind].
  destruct (realloc_finish_ok (set_al a s1) L1 q b r l2) as (s' & -> & Hd & Hok3 & Hq' & Hgone & Hkeep); try done.
  { simpl. eapply chain_frame; [|exact Hch2]. intros x Hx. apply Hfr. intros Hin. apply (Hdis _ Hin). by right. }
  { rewrite Heq in Hrefs. destruct l1 as [|? l1]; simpl in Hrefs; [done|].
    apply Forall_app in Hrefs as [_ Hrefs]. by apply Forall_cons in Hrefs as [_ ?]. }
  set (k := bytes_in l - new_len) in *.
  assert (Hk : k = len b + bytes_in l2 - r).
  { unfold k. rewrite Heq, bytes_in_app. simpl. lia. }
  exists s', (shrink_list k l1 ++ [(q, with_next None (with_tot_len r (with_len r b)))]), (foldr delete L1 l2.*1).
  split; [done|]. split; [by rewrite Hd|]. split; [done|]. split_and!.
  - eapply path_chain; [|by split_and!]. eapply path_frame; [|exact Hpath]. rewrite shrink_list_fst.
    intros x Hx. rewrite Hkeep; [done| |by intros ->]. intros Hin. apply (Hdis _ Hx). by right.
  - rewrite Hk. apply (shrink_list_lens l1 q b l2); try done. by rewrite <-Heq.
  - rewrite Hd, Hnl. rewrite Heq in Hl, Hc. by apply (shrunk_content _ l1 q b l2).
  - intros x Hx Hnx. rewrite fmap_app, shrink_list_fst in Hnx. simpl in Hnx. rewrite Heq, fmap_app in Hx. simpl in Hx.
    assert (Hx2 : x ∈ l2.*1) by set_solver. split; [by apply Hgone|by apply lookup_foldr_delete_eq].
  - intros x Hx. rewrite Heq, fmap_app in Hx. simpl in Hx. apply not_elem_of_app in Hx as [Hx1 Hx].
    apply not_elem_of_cons in Hx as [Hxq Hx2]. rewrite Hkeep by done. simpl. rewrite Hfr by done.
    split; [done|]. rewrite lookup_foldr_delete_ne by done. by apply HL1.
Qed.
End chains.
