(* ===== verification/PbufCopy.v ===== *)
(** * Packet buffers: copying one packet into another

    pbuf_copy walks two chains with different segmentations at the same time. *)

From S2P Require Import Prelude ByteMem Pbuf PbufFacts PbufData PbufLife PbufChain.

(** Part of the content of a chain, read from the payload it lies in. *)
Lemma content_slice d l1 a b l2 c i k :
  lens_ok (l1 ++ (a, b) :: l2) → content d (l1 ++ (a, b) :: l2) = Some c → 0 ≤ i → 0 ≤ k → i + k ≤ len b →
  mread d (payload b + i) (Z.to_nat k) = Some (slice (bytes_in l1 + i) k c).
Proof.
  intros Hl Hc Hi Hk Hle. rewrite content_app in Hc. destruct (content d l1) as [c1|] eqn:E1; [|done].
  cbn [content mbind option_bind] in Hc.
  destruct (mread d (payload b) (Z.to_nat (len b))) as [cb|] eqn:Eb; [|done].
  destruct (content d l2) as [c2|] eqn:E2; [|done]. injection Hc as <-.
  assert (Hz1 : zlen c1 = bytes_in l1).
  { clear -Hl E1. revert c1 E1. induction l1 as [|[x q] l1 IH]; simpl; intros c1 E1; [by simplify_eq|].
    destruct Hl as (? & _ & _ & Hl). destruct (mread _ _ _) as [cq|] eqn:E; simplify_eq/=.
    destruct (content d l1) as [c2|]; simplify_eq/=. apply mread_length in E.
    rewrite zlen_app, (IH Hl _ eq_refl). unfold zlen. lia. }
  rewrite (mread_slice _ _ (len b) cb) by (done || lia). f_equal.
  apply mread_length in Eb. rewrite slice_app_skip by lia.
  replace (bytes_in l1 + i - zlen c1) with i by lia. rewrite slice_app_split by (unfold zlen in *; lia).
  rewrite Z.min_l by (unfold zlen; lia). rewrite Z.sub_diag. unfold slice at 3. simpl. by rewrite app_nil_r.
Qed.

Section copy.
Context {A : Type} `{Allocator A}.
Implicit Types s : pstate A.

(** Behind the head no pbuf is empty. *)
Definition tail_nonempty (l : list (Z * pbuf)) : Prop := Forall (λ x, 0 < len x.2) (tail l).

Lemma no_queue_ok s p l :
  chain (pb s) p l → lens_ok l → tail_nonempty l → no_queue p s = Ok tt.
Proof.
  destruct l as [|[a b] l]; intros Hch Hl Hne; [by simpl in Hch; subst|]. destruct Hch as (-> & Ha & Hch).
  unfold no_queue, getp. rewrite Ha. cbn [deref mbind res_bind]. destruct (len b =? tot_len b) eqn:E; [|done].
  breflect. destruct l as [|[c x] l]; [by simpl in Hch; rewrite bool_decide_eq_true_2|].
  unfold tail_nonempty in Hne. simpl in Hne. apply Forall_cons in Hne as [Hx _]. simpl in *.
  destruct Hl as (_ & Ht & _ & _ & _ & _ & Hl). apply lens_ok_range in Hl. lia.
Qed.

Lemma tail_nonempty_tail x l : tail_nonempty (x :: l) → tail_nonempty l.
Proof. unfold tail_nonempty. simpl. destruct l; [done|]. simpl. by intros [_ ?]%Forall_cons. Qed.

Lemma slice_drop_app (c : list Z) i k : 0 ≤ i → 0 ≤ k → i + k ≤ zlen c →
  slice i k c ++ drop (Z.to_nat (i + k)) c = drop (Z.to_nat i) c.
Proof.
  intros Hi Hk Hle. unfold slice. rewrite Z2Nat.inj_add by lia. rewrite <-drop_drop. apply take_drop.
Qed.

(** What is left to copy: [k] bytes were copied, the rest follows. *)
Lemma splice_rest (cf ct : list Z) p f k : 0 ≤ p → 0 ≤ f → 0 ≤ k → f + k ≤ zlen cf → p + (zlen cf - f) ≤ zlen ct →
  splice (p + k) (drop (Z.to_nat (f + k)) cf) (splice p (slice f k cf) ct) = splice p (drop (Z.to_nat f) cf) ct.
Proof.
  intros Hp Hf Hk Hle Hroom. assert (Hz : zlen (slice f k cf) = k) by (rewrite zlen_slice; lia).
  rewrite <-(slice_drop_app cf f k) by lia.
  rewrite <-splice_splice, Hz by (rewrite ?Hz; unfold zlen in *; rewrite ?length_drop; lia). done.
Qed.

(** ** Positions

    Byte [o] of the struct [b] at [a] is byte [pos] of the packet [L]. *)
Record at_pos s (L pre : list (Z * pbuf)) a b l o pos : Prop := {
  ap_list : L = pre ++ (a, b) :: l;
  ap_chain : chain (pb s) (Some a) ((a, b) :: l);
  ap_tail : tail_nonempty ((a, b) :: l);
  ap_off : 0 ≤ o ≤ len b;
  ap_pos : pos = bytes_in pre + o
}.

Lemma at_pos_range s L pre a b l o pos : lens_ok L → at_pos s L pre a b l o pos →
  0 ≤ pos ∧ pos + (len b - o) ≤ bytes_in L ≤ 65535 ∧ len b ≤ 65535.
Proof.
  intros Hl [HL _ _ Ho ->]. subst L. pose proof (bytes_in_prefix _ _ Hl). pose proof (lens_ok_range _ Hl) as Hr.
  pose proof (lens_ok_app _ _ Hl) as (_ & _ & _ & Hl'). apply lens_ok_range in Hl'.
  rewrite bytes_in_app in *. simpl in *. lia.
Qed.

Lemma at_pos_queue s L pre a b l o pos : lens_ok L → at_pos s L pre a b l o pos →
  no_queue (Some a) s = Ok tt ∧ no_queue (next b) s = Ok tt.
Proof.
  intros Hl [HL Hc Ht _ _]. subst L. pose proof (lens_ok_app _ _ Hl) as Hl2. split; [by eapply no_queue_ok|].
  eapply (no_queue_ok s _ l); [apply Hc|apply Hl2|by eapply tail_nonempty_tail].
Qed.

(** The next position behind a struct, if there is one. *)
Lemma at_pos_next s L pre a b l o pos : lens_ok L → at_pos s L pre a b l o pos → o = len b →
  (next b = None ∧ pos = bytes_in L) ∨
  ∃ a2 b2 l2, l = (a2, b2) :: l2 ∧ next b = Some a2 ∧ at_pos s L (pre ++ [(a, b)]) a2 b2 l2 0 pos ∧ 0 < len b2.
Proof.
  intros Hl [HL (_ & Ha & Hc) Ht Ho ->] ->. destruct l as [|[a2 b2] l2].
  - left. simpl in Hc. split; [done|]. subst L. rewrite bytes_in_app. simpl. lia.
  - right. exists a2, b2, l2. pose proof (tail_nonempty_tail _ _ Ht) as Ht2. unfold tail_nonempty in Ht. simpl in Ht. pose proof Ht as [Hb2 _]%Forall_cons. simpl in Hb2.
    split; [done|]. split; [by destruct Hc|]. split; [|done]. split; [by rewrite <-app_assoc| |done|lia|].
    + destruct Hc as (_ & ? & ?). done.
    + rewrite bytes_in_app. simpl. lia.
Qed.

Lemma at_pos_advance s L pre a b l o pos k : at_pos s L pre a b l o pos → 0 ≤ k → o + k ≤ len b →
  at_pos s L pre a b l (o + k) (pos + k).
Proof. intros [? ? ? ? ->] ? ?. split; try done; lia. Qed.

(** One [memcpy] of the loop. *)
Lemma copy_step s LT LF ct cf pre t tb lt pt prf f fb lf pf ot fo k :
  at_pos s LT pre t tb lt ot pt → at_pos s LF prf f fb lf fo pf →
  lens_ok LT → lens_ok LF → sep LT → content (dat s) LT = Some ct → content (dat s) LF = Some cf →
  (∀ x, x ∈ LF → away (payload x.2) (len x.2) LT) → 0 ≤ k → ot + k ≤ len tb → fo + k ≤ len fb →
  ∃ d1, memcpy (payload tb + ot) (payload fb + fo) k (dat s) = Ok d1 ∧
    content d1 LT = Some (splice pt (slice pf k cf) ct) ∧ content d1 LF = Some cf ∧ (∀ i, away i 1 LT → d1 !! i = dat s !! i).
Proof.
  intros [HT _ _ Hot ->] [HF _ _ Hof ->] HlT HlF Hsep HcT HcF Haw Hk Hk1 Hk2.
  assert (Hr : mread (dat s) (payload fb + fo) (Z.to_nat k) = Some (slice (bytes_in prf + fo) k cf))
    by (subst LF; apply (content_slice _ prf f fb lf); done || lia).
  assert (Hw : zlen (slice (bytes_in prf + fo) k cf) = k) by (apply mread_length in Hr; unfold zlen; lia).
  assert (Hin : (t, tb) ∈ LT) by (subst LT; set_solver).
  exists (mwrite (dat s) (payload tb + ot) (slice (bytes_in prf + fo) k cf)). split_and!.
  - apply memcpy_ok; [lia|done|]. subst LT. eapply mapped_mono; [| |eapply content_mapped; exact HcT]; lia.
  - subst LT. apply (content_write _ pre t tb lt ct); try done; lia.
  - rewrite <-HcF. apply content_away; [done|]. unfold away. apply Forall_forall. intros x Hx.
    specialize (Haw x Hx). unfold away in Haw. rewrite Forall_forall in Haw. specialize (Haw _ Hin). simpl in Haw. lia.
  - intros i Hi. rewrite lookup_mwrite, bool_decide_eq_false_2; [done|]. unfold away in Hi.
    rewrite Forall_forall in Hi. specialize (Hi _ Hin). simpl in Hi. lia.
Qed.

(** The end of one round, [ot] and [fo] being advanced. *)
Definition copy_next (fuel : nat) t tb f fb ot fo s : res (Z * pstate A) :=
  let '(from', offset_from) := if len fb <=? fo then (next fb, 0) else (Some f, fo) in
  '(to', offset_to) ←
    (if ot =? len tb then
       LWIP_ASSERT (negb (bool_decide (next tb = None)) || bool_decide (from' = None));; Ok (next tb, 0)
     else Ok (Some t, ot));
  no_queue from' s;;
  no_queue to' s;;
  match from', to' with
  | None, _ => Ok (ERR_OK, s)
  | Some f, Some t => pbuf_copy_loop fuel t f offset_to offset_from s
  | Some _, None => Ub
  end.

(** The source is exhausted, or one more round starts at the same positions. *)
Lemma copy_next_ok LT LF fuel s pre t tb lt pt prf f fb lf pf ot fo :
  lens_ok LT → lens_ok LF → at_pos s LT pre t tb lt ot pt → at_pos s LF prf f fb lf fo pf →
  bytes_in LF - pf ≤ bytes_in LT - pt → ot = len tb ∨ fo = len fb →
  (copy_next fuel t tb f fb ot fo s = Ok (ERR_OK, s) ∧ pf = bytes_in LF) ∨
  ∃ pre' t' tb' lt' prf' f' fb' lf' ot' fo', copy_next fuel t tb f fb ot fo s = pbuf_copy_loop fuel t' f' ot' fo' s ∧
    at_pos s LT pre' t' tb' lt' ot' pt ∧ at_pos s LF prf' f' fb' lf' fo' pf ∧
    (length lt' + length lf' < length lt + length lf)%nat.
Proof.
  intros HlT HlF HT HF Hroom Hend. destruct (at_pos_queue _ _ _ _ _ _ _ _ HlT HT) as [HqT HqT'].
  destruct (at_pos_queue _ _ _ _ _ _ _ _ HlF HF) as [HqF HqF']. pose proof (ap_off _ _ _ _ _ _ _ _ HT). pose proof (ap_off _ _ _ _ _ _ _ _ HF).
  unfold copy_next. destruct (len fb <=? fo) eqn:Ef; breflect.
  - destruct (at_pos_next _ _ _ _ _ _ _ _ HlF HF) as [(Hn & Hp)|(f2 & fb2 & lf2 & -> & Hn & HF2 & Hf2)]; [lia| |];
      rewrite Hn in *.
    + left. rewrite (bool_decide_eq_true_2 (@None Z = None)), orb_true_r by done. cbn [LWIP_ASSERT mbind res_bind].
      split; [|done]. destruct (ot =? len tb); cbn [mbind res_bind]; by rewrite ?HqT, ?HqT', HqF'.
    + right. pose proof (at_pos_range _ _ _ _ _ _ _ _ HlF HF2). destruct (ot =? len tb) eqn:Et; breflect.
      * destruct (at_pos_next _ _ _ _ _ _ _ _ HlT HT) as [(_ & Hp)|(t2 & tb2 & lt2 & -> & Hn2 & HT2 & Ht2)]; [lia|lia|].
        rewrite Hn2 in *. rewrite (bool_decide_eq_false_2 (Some t2 = None)) by done. cbn [negb orb LWIP_ASSERT mbind res_bind].
        rewrite HqF', HqT'. do 10 eexists. split; [done|]. split; [done|]. split; [done|]. simpl. lia.
      * cbn [mbind res_bind]. rewrite HqF', HqT. do 10 eexists. split; [done|]. split; [done|]. split; [done|]. simpl. lia.
  - right. replace (ot =? len tb) with true by lia. pose proof (at_pos_range _ _ _ _ _ _ _ _ HlF HF).
    destruct (at_pos_next _ _ _ _ _ _ _ _ HlT HT) as [(_ & Hp)|(t2 & tb2 & lt2 & -> & Hn2 & HT2 & Ht2)]; [lia|lia|].
    rewrite Hn2 in *. rewrite (bool_decide_eq_false_2 (Some t2 = None)) by done. cbn [negb orb LWIP_ASSERT mbind res_bind].
    rewrite HqF, HqT'. do 10 eexists. split; [done|]. split; [done|]. split; [done|]. simpl. lia.
Qed.

Lemma at_pos_set_dat s d L pre a b l o pos : at_pos s L pre a b l o pos → at_pos (set_dat d s) L pre a b l o pos.
Proof. by intros []. Qed.

Lemma copy_loop_ok LT LF cf : lens_ok LT → lens_ok LF → sep LT → (∀ x, x ∈ LF → away (payload x.2) (len x.2) LT) →
  ∀ fuel ct pre t tb lt pt prf f fb lf pf ot fo s,
  at_pos s LT pre t tb lt ot pt → at_pos s LF prf f fb lf fo pf →
  content (dat s) LT = Some ct → content (dat s) LF = Some cf → bytes_in LF - pf ≤ bytes_in LT - pt →
  (length lt + length lf + 1 ≤ fuel)%nat →
  ∃ d, pbuf_copy_loop fuel t f ot fo s = Ok (ERR_OK, set_dat d s) ∧
    content d LT = Some (splice pt (drop (Z.to_nat pf) cf) ct) ∧ (∀ i, away i 1 LT → d !! i = dat s !! i).
Proof.
  intros HlT HlF Hsep Haw. induction fuel as [|fuel IH]; intros ct pre t tb lt pt prf f fb lf pf ot fo s HT HF HcT HcF Hroom Hfuel; [lia|].
  pose proof (at_pos_range _ _ _ _ _ _ _ _ HlT HT) as HrT. pose proof (at_pos_range _ _ _ _ _ _ _ _ HlF HF) as HrF.
  pose proof (ap_off _ _ _ _ _ _ _ _ HT). pose proof (ap_off _ _ _ _ _ _ _ _ HF).
  pose proof (content_length _ _ _ HlT HcT) as HzT. pose proof (content_length _ _ _ HlF HcF) as HzF.
  pose proof (ap_chain _ _ _ _ _ _ _ _ HT) as (_ & Ht & _). pose proof (ap_chain _ _ _ _ _ _ _ _ HF) as (_ & Hf & _).
  cbn [pbuf_copy_loop]. rewrite (getp_some _ _ _ Ht). cbn [mbind res_bind]. rewrite (getp_some _ _ _ Hf). cbn [mbind res_bind].
  rewrite (u32_id (len fb - fo)), (u32_id (len tb - ot)) by ulia.
  set (k := if len fb - fo <=? len tb - ot then len fb - fo else len tb - ot).
  assert (Hk : k = Z.min (len fb - fo) (len tb - ot)) by (unfold k; destruct (len fb - fo <=? len tb - ot) eqn:E; breflect; lia).
  clearbody k. destruct (copy_step s LT LF ct cf pre t tb lt pt prf f fb lf pf ot fo k) as (d1 & -> & HcT1 & HcF1 & Hfr1); try done; try lia.
  cbn [mbind res_bind]. rewrite (u32_id (ot + k)), (u32_id (fo + k)) by ulia.
  replace (ot + k <=? len tb) with true by lia. replace (fo + k <=? len fb) with true by lia. cbn [LWIP_ASSERT mbind res_bind].
  change (∃ d, copy_next fuel t tb f fb (ot + k) (fo + k) (set_dat d1 s) = Ok (ERR_OK, set_dat d s) ∧
    content d LT = Some (splice pt (drop (Z.to_nat pf) cf) ct) ∧ (∀ i, away i 1 LT → d !! i = dat s !! i)).
  rewrite <-(splice_rest cf ct pt pf k) by lia.
  destruct (copy_next_ok LT LF fuel (set_dat d1 s) pre t tb lt (pt + k) prf f fb lf (pf + k) (ot + k) (fo + k))
    as [[-> Hp]|(pre' & t' & tb' & lt' & prf' & f' & fb' & lf' & ot' & fo' & -> & HT' & HF' & Hlt)];
    try done; try lia; try (apply at_pos_set_dat, at_pos_advance; done || lia).
  - exists d1. split; [done|]. split; [|done]. rewrite HcT1, (drop_ge cf), splice_nil by (unfold zlen in *; lia). done.
  - destruct (IH (splice pt (slice pf k cf) ct) pre' t' tb' lt' (pt + k) prf' f' fb' lf' (pf + k) ot' fo' (set_dat d1 s))
      as (d & -> & Hd & Hfr); try done; try lia. exists d. split; [done|]. split; [done|]. intros i Hi. by rewrite Hfr, Hfr1.
Qed.

Lemma copy_ok s pt pf lt lf ct cf :
  chain (pb s) (Some pt) lt → chain (pb s) (Some pf) lf → lens_ok lt → lens_ok lf → sep lt →
  content (dat s) lt = Some ct → content (dat s) lf = Some cf →
  (∀ x, x ∈ lf → away (payload x.2) (len x.2) lt) → tail_nonempty lt → tail_nonempty lf → zlen cf ≤ zlen ct →
  ∃ d, pbuf_copy (Some pt) (Some pf) s = Ok (ERR_OK, set_dat d s) ∧
    content d lt = Some (cf ++ drop (length cf) ct) ∧ (∀ i, away i 1 lt → d !! i = dat s !! i).
Proof.
  intros Ht Hf Hlt Hlf Hsep Hct Hcf Haw Hnt Hnf Hle. pose proof (chain_fuel_enough _ _ _ Ht). pose proof (chain_fuel_enough _ _ _ Hf).
  pose proof (content_length _ _ _ Hlt Hct). pose proof (content_length _ _ _ Hlf Hcf).
  pose proof (lens_nonneg _ Hlt) as Hzt. pose proof (lens_nonneg _ Hlf) as Hzf.
  destruct lt as [|[t tb] lt]; [done|]. destruct lf as [|[f fb] lf]; [done|].
  pose proof Ht as (Het & Htb & _). pose proof Hf as (Hef & Hfb & _). injection Het as ->. injection Hef as ->.
  apply Forall_cons in Hzt as [Hzt _], Hzf as [Hzf _]. cbn [snd] in Hzt, Hzf.
  destruct (copy_loop_ok ((t, tb) :: lt) ((f, fb) :: lf) cf Hlt Hlf Hsep Haw (chain_fuel s + chain_fuel s) ct [] t tb lt 0 [] f fb lf 0 0 0 s)
    as (d & Hd & Hc & Hfr); try done; try (cbn [length bytes_in] in *; lia).
  exists d. unfold pbuf_copy. rewrite (getp_some _ _ _ Htb). cbn [mbind res_bind]. rewrite (getp_some _ _ _ Hfb). cbn [mbind res_bind].
  replace (tot_len fb <=? tot_len tb) with true by (simpl in *; lia). cbn [LWIP_ASSERT mbind res_bind].
  split; [done|]. split; [|done]. rewrite Hc. simpl. by rewrite drop_0, splice_whole.
Qed.

(** pbuf_copy copies the packet.  When the target is at least as long as
    the source, the two do not overlap in memory and neither contains an empty pbuf
    behind its head, pbuf_copy returns ERR_OK, the first bytes of the target become
    the bytes of the source, whatever the two segmentations are, the rest of the target
    and all memory outside its payloads stay as they were. *)
Theorem pbuf_copy_copies s pt pf lt lf ct cf :
  chain (pb s) (Some pt) lt → chain (pb s) (Some pf) lf → lens_ok lt → lens_ok lf → sep lt →
  content (dat s) lt = Some ct → content (dat s) lf = Some cf →
  (∀ x, x ∈ lf → away (payload x.2) (len x.2) lt) → tail_nonempty lt → tail_nonempty lf → zlen cf ≤ zlen ct →
  ∃ d, pbuf_copy (Some pt) (Some pf) s = Ok (ERR_OK, set_dat d s) ∧
    content d lt = Some (cf ++ drop (length cf) ct) ∧ (∀ i, away i 1 lt → d !! i = dat s !! i).
Proof. apply copy_ok. Qed.
End copy.

#[local] Instance no_memory : Allocator unit := {|
  mem_malloc _ a := Ok (None, a);
  mem_free _ a := Ok a;
  mem_trim p _ a := Ok (Some p, a);
  memp_malloc _ a := Ok (None, a);
  memp_free _ _ a := Ok a;
  custom_free_function _ a := Ok a |}.

(** Five bytes in pbufs of 3 and 2 are copied into pbufs of 1 and 5. *)
Definition sample_target : list (Z * pbuf) :=
  [(3000, Pbuf (Some 4000) 400 6 1 128 0 1 0); (4000, Pbuf None 500 5 5 128 0 1 0)].

Definition sample_copy : pstate unit :=
  PState (list_to_map (sample_chain ++ sample_target))
    (mwrite (mwrite sample_bytes 400 [9]) 500 [9; 9; 9; 9; 9]) tt 0.

Lemma pbuf_copy_copies_witness :
  ∃ d, pbuf_copy (Some 3000) (Some 1000) sample_copy = Ok (ERR_OK, set_dat d sample_copy) ∧
    content d sample_target = Some [1; 2; 3; 4; 5; 9] ∧
    (∀ i, away i 1 sample_target → d !! i = dat sample_copy !! i).
Proof.
  apply (pbuf_copy_copies sample_copy 3000 1000 sample_target sample_chain [9; 9; 9; 9; 9; 9] [1; 2; 3; 4; 5]).
  all: try (vm_compute; done).
  - repeat constructor; simpl; lia.
  - intros x Hx. unfold sample_chain in Hx. apply elem_of_cons in Hx as [->|Hx];
      [|apply list_elem_of_singleton in Hx as ->]; repeat constructor; simpl; lia.
  - repeat constructor; simpl; lia.
  - repeat constructor; simpl; lia.
Defined.
