(* ===== verification/PbufAlloc.v ===== *)
(** * The heap and the pools under the packet buffers

    The contract [AllocatorLaws] that the theorems on packet buffers assume is
    discharged by the models of mem.c (MemClient.v) and memp.c (MempFacts.v): a heap
    that starts at [ram_base] and a table of pools in which [i_pbuf] and [i_pool] are
    MEMP_PBUF and MEMP_PBUF_POOL.  The free functions of custom pbufs belong to the
    application; they are represented by the set of custom structs in use, from which
    a release removes one. *)

From S2P Require Import Prelude ByteMem Mem MemFacts MemClient Memp MempFacts Pbuf PbufFacts PbufData PbufLife PbufChain.

Record stack_mem := StackMem { sm_heap : heap; sm_pools : pools; sm_custom : gset Z }.

Lemma reach_inv_NoDup h LH : reach_inv h LH → NoDup LH.*1.
Proof.
  intros (bs & B & Hok & HB & HL). pose proof Hok as ((qv & Hseg) & _). apply NoDup_alt. intros i j p Hi Hj.
  apply list_lookup_fmap_Some in Hi as ([p1 n1] & -> & Hi), Hj as ([p2 n2] & Heq & Hj). simpl in Heq. subst p2.
  destruct (decide (i = j)) as [->|Hne]; [done|]. exfalso. apply Permutation_inj in HB as (_ & f & Hinj & Hf).
  destruct (Forall2_lookup_l _ _ _ _ _ HL Hi) as (a' & Ha' & [Ha1 Ha2]).
  destruct (Forall2_lookup_l _ _ _ _ _ HL Hj) as (b' & Hb' & [Hb1 Hb2]). rewrite Hf in Ha', Hb'. simpl in *.
  destruct (sorted_lookup_apart _ _ _ _ _ (allocated_sorted _ _ _ _ _ _ Hseg) Ha' Hb') as [Hb|Hb];
    [by intros ?%(inj f)|unfold before in Hb; heap_consts; lia..].
Qed.

Lemma reach_inv_place h LH p n :
  reach_inv h LH → (p, n) ∈ LH → (4 | p) ∧ hdr ≤ p ∧ p + Z.max n 12 ≤ MEM_SIZE.
Proof.
  intros (bs & B & Hok & HB & HL) Hp. pose proof Hok as ((qv & Hseg) & _).
  apply list_elem_of_lookup in Hp as [i Hi]. destruct (Forall2_lookup_l _ _ _ _ _ HL Hi) as ([q c] & Hq & [Hpq Hc]).
  simpl in *. subst q. assert (Ha : (p, c) ∈ allocated 0 bs) by (rewrite <-HB; by eapply list_elem_of_lookup_2).
  destruct (allocated_bounds _ _ _ _ _ _ _ _ Hseg Ha) as (? & ? & ? & Hal). split_and!; [apply Hal; by exists 0|lia|lia].
Qed.

Section instance.
Context (ram_base : Z) (ds : list memp_desc) (i_pbuf i_pool : nat).

Definition pool_index (t : memp_t) : nat := match t with MEMP_PBUF => i_pbuf | MEMP_PBUF_POOL => i_pool end.

Definition stack_malloc (n : Z) (a : stack_mem) : res (option Z * stack_mem) :=
  '(r, h) ← Mem.mem_malloc n (sm_heap a);
  Ok (option_map (Z.add ram_base) r, StackMem h (sm_pools a) (sm_custom a)).

Definition stack_free (p : Z) (a : stack_mem) : res stack_mem :=
  h ← Mem.mem_free (Some (p - ram_base)) (sm_heap a); Ok (StackMem h (sm_pools a) (sm_custom a)).

Definition stack_trim (p n : Z) (a : stack_mem) : res (option Z * stack_mem) :=
  '(r, h) ← Mem.mem_trim (Some (p - ram_base)) n (sm_heap a);
  Ok (option_map (Z.add ram_base) r, StackMem h (sm_pools a) (sm_custom a)).

Definition stack_pool_malloc (t : memp_t) (a : stack_mem) : res (option Z * stack_mem) :=
  '(r, s) ← Memp.memp_malloc ds (pool_index t) (sm_pools a); Ok (r, StackMem (sm_heap a) s (sm_custom a)).

Definition stack_pool_free (t : memp_t) (p : Z) (a : stack_mem) : res stack_mem :=
  s ← Memp.memp_free ds (pool_index t) (Some p) (sm_pools a); Ok (StackMem (sm_heap a) s (sm_custom a)).

Definition stack_custom_free (p : Z) (a : stack_mem) : res stack_mem :=
  if decide (p ∈ sm_custom a) then Ok (StackMem (sm_heap a) (sm_pools a) (sm_custom a ∖ {[p]})) else Assert.

#[local] Instance stack_allocator : Allocator stack_mem := {|
  Pbuf.mem_malloc := stack_malloc; Pbuf.mem_free := stack_free; Pbuf.mem_trim := stack_trim;
  Pbuf.memp_malloc := stack_pool_malloc; Pbuf.memp_free := stack_pool_free;
  Pbuf.custom_free_function := stack_custom_free |}.

(** The layout of the memory. *)
Record layout_ok : Prop := {
  lo_ram : 0 < ram_base ∧ (4 | ram_base) ∧ ram_base + MEM_SIZE < 4294967293;
  lo_ds : descs_ok ds;
  lo_idx : i_pbuf ≠ i_pool;
  lo_sizes : ∀ t d, ds !! pool_index t = Some d → src_size (SrcPool t) ≤ d_size d;
  lo_pools : ∀ t, is_Some (ds !! pool_index t);
  lo_apart : ∀ i d, ds !! i = Some d → region_end d ≤ ram_base ∨ ram_base + MEM_SIZE ≤ d_base d;
  lo_end : ∀ i d, ds !! i = Some d → region_end d < 4294967293
}.
Hypothesis Hlo : layout_ok.

(** Who owns a block. *)
Definition owned (LH : list (Z * Z)) (LP : list (nat * Z)) (cs : gset Z) (p : Z) (x : src) : Prop :=
  match x with
  | SrcHeap n => (p - ram_base, n) ∈ LH
  | SrcPool t => (pool_index t, p) ∈ LP
  | SrcCustom => p ∈ cs
  end.

(** A custom struct lies outside the heap and the pools. *)
Definition custom_place (cs : gset Z) : Prop :=
  (∀ p, p ∈ cs → (4 | p) ∧ 0 < p ∧ p + SIZEOF_STRUCT_PBUF < 4294967293 ∧
     (p + SIZEOF_STRUCT_PBUF ≤ ram_base ∨ ram_base + MEM_SIZE ≤ p) ∧
     (∀ i d, ds !! i = Some d → p + SIZEOF_STRUCT_PBUF ≤ d_base d ∨ region_end d ≤ p)) ∧
  (∀ p q, p ∈ cs → q ∈ cs → p ≠ q → p + SIZEOF_STRUCT_PBUF ≤ q ∨ q + SIZEOF_STRUCT_PBUF ≤ p).

Definition stack_ok (a : stack_mem) (L : gmap Z src) : Prop :=
  ∃ LH LP, reach_inv (sm_heap a) LH ∧ pools_inv ds (sm_pools a) LP ∧ custom_place (sm_custom a) ∧
    ∀ p x, L !! p = Some x ↔ owned LH LP (sm_custom a) p x.

(** Every kind of block has its place. *)
Definition place (p n : Z) (x : src) : Prop :=
  match x with
  | SrcHeap _ => ram_base + hdr ≤ p ∧ p + Z.max n 12 ≤ ram_base + MEM_SIZE
  | SrcPool t => ∃ d, ds !! pool_index t = Some d ∧ d_base d ≤ p ∧ p + n ≤ region_end d ∧ p ∈ elements d
  | SrcCustom => (p + n ≤ ram_base ∨ ram_base + MEM_SIZE ≤ p) ∧
                 ∀ i d, ds !! i = Some d → p + n ≤ d_base d ∨ region_end d ≤ p
  end.

Lemma owned_place a LH LP p x :
  reach_inv (sm_heap a) LH → pools_inv ds (sm_pools a) LP → custom_place (sm_custom a) →
  owned LH LP (sm_custom a) p x →
  place p (src_size x) x ∧ (4 | p) ∧ 0 < p ∧ p + Z.max 0 (src_size x) < 4294967293.
Proof.
  intros HH HP HC Hx. destruct (lo_ram Hlo) as (Hr0 & Hr4 & Hrb). destruct x as [n|t|]; cbn [owned place src_size] in *.
  - destruct (reach_inv_place _ _ _ _ HH Hx) as (Hal & Hlo' & Hhi). heap_consts.
    split_and!; [lia|lia| |lia|lia]. replace p with (ram_base + (p - ram_base)) by lia. by apply Z.divide_add_r.
  - destruct (lo_pools Hlo t) as [d Hd]. pose proof (held_in ds _ _ _ _ _ HP Hx Hd) as He.
    pose proof (ds_ok _ (lo_ds Hlo) _ _ Hd) as Hok. destruct (element_bounds _ _ Hok He) as (Hb1 & Hb2 & Hb3).
    pose proof (lo_sizes Hlo _ _ Hd). pose proof (lo_end Hlo _ _ Hd). destruct Hok as (_ & _ & _ & ? & _).
    assert (Hs : 0 < src_size (SrcPool t)) by (by destruct t). cbn [src_size] in *.
    split; [|split_and!; [by apply Z.mod_divide|lia|lia]]. exists d. split_and!; try done. lia.
  - destruct HC as [HC _]. destruct (HC _ Hx) as (? & ? & ? & ? & ?). done.
Qed.

(** Two different blocks do not overlap. *)
Lemma owned_apart a LH LP p q x y :
  reach_inv (sm_heap a) LH → pools_inv ds (sm_pools a) LP → custom_place (sm_custom a) →
  owned LH LP (sm_custom a) p x → owned LH LP (sm_custom a) q y → (p, x) ≠ (q, y) →
  p + src_size x ≤ q ∨ q + src_size y ≤ p.
Proof.
  intros HH HP HC Hx Hy Hne.
  destruct (owned_place _ _ _ _ _ HH HP HC Hx) as (Px & _). destruct (owned_place _ _ _ _ _ HH HP HC Hy) as (Py & _).
  destruct x as [n|t|], y as [n'|t'|]; cbn [owned place] in *; unfold hdr in *.
  - destruct (reach_inv_safe _ _ HH) as (_ & Hd & _). apply list_elem_of_lookup in Hx as [i Hi], Hy as [j Hj].
    cbn [src_size]. destruct (decide (i = j)) as [->|Hij].
    + rewrite Hi in Hj. injection Hj as Hj1 Hj2. exfalso. apply Hne. f_equal; [lia|congruence].
    + destruct (Hd i j _ _ Hi Hj Hij); simpl in *; lia.
  - destruct Py as (d & Hd & ? & ? & _). destruct (lo_apart Hlo _ _ Hd); lia.
  - destruct Py as [[?|?] _]; lia.
  - destruct Px as (d & Hd & ? & ? & _). destruct (lo_apart Hlo _ _ Hd); lia.
  - destruct Px as (d & Hd & _ & _ & He). destruct Py as (d' & Hd' & _ & _ & He').
    pose proof (lo_sizes Hlo _ _ Hd). pose proof (lo_sizes Hlo _ _ Hd').
    destruct (elements_apart ds (lo_ds Hlo) _ _ _ _ _ _ Hd Hd' He He'); [|lia..].
    intros [= Hi ->]. apply Hne. destruct t, t'; simpl in Hi; try done;
      exfalso; apply (lo_idx Hlo); congruence.
  - destruct Px as (d & Hd & ? & ? & _). destruct Py as [_ Py]. destruct (Py _ _ Hd); lia.
  - destruct Px as [[?|?] _]; lia.
  - destruct Py as (d & Hd & ? & ? & _). destruct Px as [_ Px]. destruct (Px _ _ Hd); lia.
  - destruct HC as [_ HC]. apply HC; [done|done|congruence].
Qed.

(** A block of another kind cannot be where a block of the heap or of a pool is. *)
Lemma owned_unique a LH LP p x y :
  reach_inv (sm_heap a) LH → pools_inv ds (sm_pools a) LP → custom_place (sm_custom a) →
  owned LH LP (sm_custom a) p x → owned LH LP (sm_custom a) p y → x = y.
Proof.
  intros HH HP HC Hx Hy.
  destruct (owned_place _ _ _ _ _ HH HP HC Hx) as (Px & _). destruct (owned_place _ _ _ _ _ HH HP HC Hy) as (Py & _).
  assert (Hsz : ∀ t, 0 < src_size (SrcPool t)) by (by intros []).
  destruct x as [n|t|], y as [n'|t'|]; cbn [owned place] in *; try done.
  - f_equal. pose proof (reach_inv_NoDup _ _ HH) as Hnd.
    apply list_elem_of_lookup in Hx as [i Hi], Hy as [j Hj]. assert (i = j) as ->; [|congruence].
    apply (NoDup_lookup LH.*1 i j (p - ram_base) Hnd); apply list_lookup_fmap_Some;
      [by exists (p - ram_base, n)|by exists (p - ram_base, n')].
  - destruct Py as (d & Hd & ? & ? & _). specialize (Hsz t'). unfold hdr in *. destruct (lo_apart Hlo _ _ Hd); lia.
  - destruct Py as [[?|?] _]; unfold hdr in *; change (src_size SrcCustom) with 16 in *; lia.
  - destruct Px as (d & Hd & ? & ? & _). specialize (Hsz t). unfold hdr in *. destruct (lo_apart Hlo _ _ Hd); lia.
  - destruct (decide (t = t')) as [->|Hne]; [done|]. exfalso.
    destruct (owned_apart a LH LP p p (SrcPool t) (SrcPool t')) as [Hd|Hd]; try done; [congruence| |];
      [specialize (Hsz t)|specialize (Hsz t')]; lia.
  - destruct Px as (d & Hd & ? & ? & _). destruct Py as [_ Py]. specialize (Hsz t).
    destruct (Py _ _ Hd); change (src_size SrcCustom) with 16 in *; lia.
  - destruct Px as [[?|?] _]; unfold hdr in *; change (src_size SrcCustom) with 16 in *; lia.
  - destruct Py as (d & Hd & ? & ? & _). destruct Px as [_ Px]. specialize (Hsz t').
    destruct (Px _ _ Hd); change (src_size SrcCustom) with 16 in *; lia.
Qed.

(** The map of blocks when one block [(p, x)] joins. *)
Lemma own_add a a' LH LP LH' LP' L p x :
  reach_inv (sm_heap a') LH' → pools_inv ds (sm_pools a') LP' → custom_place (sm_custom a') →
  sm_custom a' = sm_custom a →
  (∀ q y, L !! q = Some y ↔ owned LH LP (sm_custom a) q y) →
  (∀ q y, owned LH' LP' (sm_custom a) q y ↔ (q = p ∧ y = x) ∨ owned LH LP (sm_custom a) q y) →
  ¬ owned LH LP (sm_custom a) p x →
  L !! p = None ∧ stack_ok a' (<[p := x]> L).
Proof.
  intros HH HP HC Hcu HL Hadd Hnot.
  assert (Hp : L !! p = None).
  { destruct (L !! p) as [y|] eqn:E; [|done]. apply HL in E as Hy. exfalso. apply Hnot.
    assert (x = y) as ->; [|done]. eapply (owned_unique a' LH' LP' p); try done; rewrite Hcu; apply Hadd; auto. }
  split; [done|]. exists LH', LP'. split_and!; try done. intros q y. rewrite Hcu, Hadd.
  destruct (decide (q = p)) as [->|Hne].
  - rewrite lookup_insert_eq. split; [intros [= ->]; by left|]. intros [[_ ->]|Hq]; [done|].
    apply HL in Hq. congruence.
  - rewrite lookup_insert_ne by done. rewrite HL. naive_solver.
Qed.

(** ... and when one leaves. *)
Lemma own_del a a' LH LP LH' LP' L p x :
  reach_inv (sm_heap a') LH' → pools_inv ds (sm_pools a') LP' → custom_place (sm_custom a') →
  (∀ q y, L !! q = Some y ↔ owned LH LP (sm_custom a) q y) → L !! p = Some x →
  (∀ q y, owned LH LP (sm_custom a) q y ↔ (q = p ∧ y = x) ∨ owned LH' LP' (sm_custom a') q y) →
  ¬ owned LH' LP' (sm_custom a') p x →
  stack_ok a' (delete p L).
Proof.
  intros HH HP HC HL Hpx Hdel Hnot. exists LH', LP'. split_and!; try done. intros q y.
  destruct (decide (q = p)) as [->|Hne].
  - rewrite lookup_delete_eq. split; [done|]. intros Hq. exfalso.
    assert (Hy : L !! p = Some y) by (apply HL, Hdel; by right). simplify_eq. done.
  - rewrite lookup_delete_ne by done. rewrite HL, Hdel. naive_solver.
Qed.

Lemma stack_malloc_ok a L n : stack_ok a L → is_u16 n →
  ∃ r a', stack_malloc n a = Ok (r, a') ∧
  match r with Some p => L !! p = None ∧ stack_ok a' (<[p := SrcHeap n]> L) | None => stack_ok a' L end.
Proof.
  intros (LH & LP & HH & HP & HC & HL) Hn. destruct (reach_inv_safe _ _ HH) as (_ & _ & _ & Hm).
  destruct (Hm n Hn) as ([[p|] h'] & Hr); unfold stack_malloc; rewrite Hr; cbn [mbind res_bind option_map].
  - eexists (Some _), _. split; [done|].
    pose proof (reach_inv_malloc _ _ _ _ _ HH Hn Hr) as HH'. pose proof (reach_inv_NoDup _ _ HH') as Hnd.
    simpl in Hnd. apply NoDup_cons in Hnd as [Hnin _].
    apply (own_add a _ LH LP ((p, n) :: LH) LP); try done.
    + intros q y. destruct y as [m|t|]; cbn [owned].
      * rewrite elem_of_cons. split; (intros [?|?]; [left|by right]).
        -- simplify_eq. split; [lia|done].
        -- destruct H as [-> [= ->]]. f_equal. lia.
      * naive_solver.
      * naive_solver.
    + cbn [owned]. replace (ram_base + p - ram_base) with p by lia. intros Hin. apply Hnin.
      apply list_elem_of_fmap. by exists (p, n).
  - apply malloc_null in Hr as ->. exists None, a. split; [by destruct a|]. by exists LH, LP.
Qed.

Lemma split_owned LH LP cs L1 L2 p n :
  LH = L1 ++ (p - ram_base, n) :: L2 →
  ∀ q y, owned LH LP cs q y ↔ (q = p ∧ y = SrcHeap n) ∨ owned (L1 ++ L2) LP cs q y.
Proof.
  intros -> q y. destruct y as [m|t|]; cbn [owned]; [|naive_solver..].
  rewrite !elem_of_app, elem_of_cons. split.
  - intros [?|[?|?]]; [right; by left| |right; by right]. simplify_eq. left. split; [lia|done].
  - intros [[-> [= ->]]|[?|?]]; [right; by left|by left|right; by right].
Qed.

Lemma stack_free_ok a L p n : stack_ok a L → L !! p = Some (SrcHeap n) →
  ∃ a', stack_free p a = Ok a' ∧ stack_ok a' (delete p L).
Proof.
  intros (LH & LP & HH & HP & HC & HL) Hp. apply HL in Hp as Hin. cbn [owned] in Hin.
  destruct (reach_inv_safe _ _ HH) as (_ & _ & Hf & _). destruct (Hf _ _ Hin) as (h' & Hfree).
  unfold stack_free. rewrite Hfree. eexists. split; [done|].
  apply list_elem_of_split in Hin as (L1 & L2 & ->). pose proof (reach_inv_NoDup _ _ HH) as Hnd.
  pose proof (reach_inv_free _ _ _ _ _ _ HH Hfree) as HH'.
  apply (own_del a _ (L1 ++ (p - ram_base, n) :: L2) LP (L1 ++ L2) LP L p (SrcHeap n)); try done.
  - by apply split_owned.
  - cbn [owned]. intros Hin. rewrite fmap_app, fmap_cons in Hnd. simpl in Hnd.
    apply (NoDup_Permutation_proper _ _ (symmetry (Permutation_middle _ _ _))) in Hnd.
    apply NoDup_cons in Hnd as [Hnin _]. apply Hnin. rewrite <-fmap_app. apply list_elem_of_fmap.
    by exists (p - ram_base, n).
Qed.

Lemma stack_trim_ok a L p n n' : stack_ok a L → L !! p = Some (SrcHeap n) → 0 ≤ n' ≤ n →
  stack_trim p n' a = Assert ∨
  ∃ a', stack_trim p n' a = Ok (Some p, a') ∧ stack_ok a' (<[p := SrcHeap n']> L).
Proof.
  intros (LH & LP & HH & HP & HC & HL) Hp Hn. apply HL in Hp as Hin. cbn [owned] in Hin.
  apply list_elem_of_split in Hin as (L1 & L2 & ->). unfold stack_trim.
  destruct (reach_inv_trim_total _ _ _ _ _ _ HH Hn) as [->|(h' & Ht)]; [by left|]. right. rewrite Ht.
  cbn [mbind res_bind option_map]. eexists. split; [do 3 f_equal; lia|].
  pose proof (reach_inv_trim _ _ _ _ _ _ _ HH Hn Ht) as HH'.
  exists (L1 ++ (p - ram_base, n') :: L2), LP. split_and!; try done. simpl. intros q y.
  rewrite (split_owned _ LP (sm_custom a) L1 L2 p n') by done.
  destruct (decide (q = p)) as [->|Hne].
  - rewrite lookup_insert_eq. split; [intros [= <-]; by left|]. intros [[_ ->]|Hq]; [done|]. exfalso.
    assert (Hy : L !! p = Some y) by (apply HL; rewrite (split_owned _ LP _ L1 L2 p n) by done; by right).
    simplify_eq. cbn [owned] in Hq. pose proof (reach_inv_NoDup _ _ HH) as Hnd.
    rewrite fmap_app, fmap_cons in Hnd. simpl in Hnd.
    apply (NoDup_Permutation_proper _ _ (symmetry (Permutation_middle _ _ _))) in Hnd.
    apply NoDup_cons in Hnd as [Hnin _]. apply Hnin. rewrite <-fmap_app. apply list_elem_of_fmap.
    by exists (p - ram_base, n).
  - rewrite lookup_insert_ne by done. rewrite HL, (split_owned _ LP _ L1 L2 p n) by done. naive_solver.
Qed.

Lemma pool_index_inj t t' : pool_index t = pool_index t' → t = t'.
Proof. pose proof (lo_idx Hlo). destruct t, t'; simpl; congruence. Qed.

Lemma stack_pool_malloc_ok a L t : stack_ok a L →
  ∃ r a', stack_pool_malloc t a = Ok (r, a') ∧
  match r with Some p => L !! p = None ∧ stack_ok a' (<[p := SrcPool t]> L) | None => stack_ok a' L end.
Proof.
  intros (LH & LP & HH & HP & HC & HL). destruct (lo_pools Hlo t) as [d Hd].
  destruct (memp_malloc_ok ds (lo_ds Hlo) _ _ _ _ HP Hd) as (r & s' & Hm & Hr).
  unfold stack_pool_malloc. rewrite Hm. cbn [mbind res_bind]. eexists r, _. split; [done|]. destruct r as [p|].
  - pose proof (held_NoDup ds (lo_ds Hlo) _ _ Hr) as Hnd. apply NoDup_cons in Hnd as [Hnin _].
    apply (own_add a _ LH LP LH ((pool_index t, p) :: LP)); try done.
    intros q y. destruct y as [m|t'|]; cbn [owned]; [naive_solver| |naive_solver].
    rewrite elem_of_cons. split.
    + intros [Heq|?]; [left|by right]. injection Heq as Hi ->. apply pool_index_inj in Hi. by subst.
    + intros [[-> Heq]|?]; [left|by right]. by simplify_eq.
  - destruct Hr as [-> _]. by exists LH, LP.
Qed.

Lemma stack_pool_free_ok a L t p : stack_ok a L → L !! p = Some (SrcPool t) →
  ∃ a', stack_pool_free t p a = Ok a' ∧ stack_ok a' (delete p L).
Proof.
  intros (LH & LP & HH & HP & HC & HL) Hp. apply HL in Hp as Hin. cbn [owned] in Hin.
  apply list_elem_of_split in Hin as (L1 & L2 & ->).
  destruct (memp_free_ok ds (lo_ds Hlo) _ _ _ _ _ HP) as (s' & Hf & HP').
  unfold stack_pool_free. rewrite Hf. eexists. split; [done|].
  apply (own_del a _ LH (L1 ++ (pool_index t, p) :: L2) LH (L1 ++ L2) L p (SrcPool t)); try done.
  - intros q y. destruct y as [m|t'|]; cbn [owned]; [naive_solver| |naive_solver].
    rewrite !elem_of_app, elem_of_cons. split.
    + intros [?|[Heq|?]]; [right; by left| |right; by right]. left. injection Heq as Hi ->.
      apply pool_index_inj in Hi. by subst.
    + intros [[-> Heq]|[?|?]]; [right; left; by simplify_eq|by left|right; by right].
  - cbn [owned]. intros Hin. pose proof (held_NoDup ds (lo_ds Hlo) _ _ HP) as Hnd.
    apply (NoDup_Permutation_proper _ _ (symmetry (Permutation_middle _ _ _))) in Hnd.
    by apply NoDup_cons in Hnd as [Hnin _].
Qed.

Lemma stack_custom_free_ok a L p : stack_ok a L → L !! p = Some SrcCustom →
  ∃ a', stack_custom_free p a = Ok a' ∧ stack_ok a' (delete p L).
Proof.
  intros (LH & LP & HH & HP & [HC1 HC2] & HL) Hp. apply HL in Hp as Hin. cbn [owned] in Hin.
  unfold stack_custom_free. rewrite decide_True by done. eexists. split; [done|].
  apply (own_del a _ LH LP LH LP L p SrcCustom); try done.
  - simpl. split; [intros q Hq; apply HC1; set_solver|intros q r Hq Hr; apply HC2; set_solver].
  - intros q y. destruct y as [m|t|]; cbn [owned]; [naive_solver|naive_solver|]. simpl.
    rewrite elem_of_difference, elem_of_singleton. destruct (decide (q = p)) as [->|]; naive_solver.
  - cbn [owned]. simpl. set_solver.
Qed.

(** The heap and the pools. *)
Definition stack_arena (i : Z) : Prop :=
  ram_base ≤ i < ram_base + MEM_SIZE ∨ ∃ k d, ds !! k = Some d ∧ d_base d ≤ i < region_end d.

Lemma stack_inside a L p x i : stack_ok a L → L !! p = Some x → x ≠ SrcCustom → p ≤ i < p + src_size x → stack_arena i.
Proof.
  intros (LH & LP & HH & HP & HC & HL) Hp Hx Hi. apply HL in Hp.
  destruct (owned_place _ _ _ _ _ HH HP HC Hp) as (Hpl & _). destruct x as [n|t|]; [| |done]; cbn [place src_size] in *.
  - left. unfold hdr in *. lia.
  - destruct Hpl as (d & Hd & ? & ? & _). right. exists (pool_index t), d. split; [done|lia].
Qed.

Lemma stack_aligned a L p x : stack_ok a L → L !! p = Some x →
  (4 | p) ∧ 0 < p ∧ p + Z.max 0 (src_size x) < 4294967293.
Proof.
  intros (LH & LP & HH & HP & HC & HL) Hp. apply HL in Hp.
  by destruct (owned_place _ _ _ _ _ HH HP HC Hp) as (_ & ? & ? & ?).
Qed.

Lemma stack_disjoint a L p q x y : stack_ok a L → L !! p = Some x → L !! q = Some y → p ≠ q →
  p + src_size x ≤ q ∨ q + src_size y ≤ p.
Proof.
  intros (LH & LP & HH & HP & HC & HL) Hp Hq Hne. apply HL in Hp, Hq.
  eapply owned_apart; try done. congruence.
Qed.

(** The models of mem.c and memp.c honour the contract of pbuf.c. *)
#[local] Instance stack_laws : AllocatorLaws stack_mem := {|
  al_ok := stack_ok;
  mem_malloc_law := stack_malloc_ok; mem_free_law := stack_free_ok; mem_trim_law := stack_trim_ok;
  memp_malloc_law := stack_pool_malloc_ok; memp_free_law := stack_pool_free_ok;
  custom_free_law := stack_custom_free_ok; al_aligned := stack_aligned; al_disjoint := stack_disjoint;
  al_inside := stack_inside |}.
End instance.

(** ** A concrete stack, for the witnesses: the heap at 100000, 16 elements for
    MEMP_PBUF and 4 for MEMP_PBUF_POOL *)

Definition sample_ds : list memp_desc :=
  [LWIP_MEMPOOL_DECLARE 16 16 200000 4; LWIP_MEMPOOL_DECLARE 4 608 300000 8].

Lemma sample_layout : layout_ok 100000 sample_ds 0 1.
Proof.
  split.
  - split_and!; [done|by exists 25000|done].
  - split.
    + intros [|[|i]] d Hd; vm_compute in Hd; simplify_eq; (split_and!; [done| |done..]); [by exists 4|by exists 152].
    + intros [|[|i]] [|[|j]] d d' Hd Hd' Hne; try done; vm_compute in Hd, Hd'; simplify_eq;
        (split; [done|]); vm_compute; [left|right]; discriminate.
  - done.
  - intros [] d Hd; vm_compute in Hd; simplify_eq; done.
  - intros []; eexists; reflexivity.
  - intros [|[|i]] d Hd; vm_compute in Hd; simplify_eq; right; done.
  - intros [|[|i]] d Hd; vm_compute in Hd; simplify_eq; done.
Qed.

#[local] Instance sample_allocator : Allocator stack_mem := stack_allocator 100000 sample_ds 0 1.
#[local] Instance sample_laws : AllocatorLaws stack_mem := stack_laws 100000 sample_ds 0 1 sample_layout.

Definition from_ok {B} (m : res B) (b : B) : B := match m with Ok x => x | _ => b end.

(** The state after mem_init and memp_init. *)
Definition sample_mem : stack_mem :=
  StackMem (from_ok (mem_init heap_uninit) heap_uninit) (from_ok (memp_init sample_ds (Pools ∅ ∅)) (Pools ∅ ∅)) ∅.

Definition sample0 : pstate stack_mem := PState ∅ ∅ sample_mem 0.

Lemma stack_init_ok cs :
  custom_place 100000 sample_ds cs →
  stack_ok 100000 sample_ds 0 1 (StackMem (sm_heap sample_mem) (sm_pools sample_mem) cs) (gset_to_gmap SrcCustom cs).
Proof.
  intros HC. exists [], []. cbn [sm_heap sm_pools sm_custom].
  split; [|split; [|split; [done|]]].
  - destruct mem_init_ok as (h & Hi & Hok). change (sm_heap sample_mem) with (from_ok (mem_init heap_uninit) heap_uninit). rewrite Hi.
    exists [(MEM_SIZE, false)], []. split_and!; [done|done|constructor].
  - destruct (memp_init_ok sample_ds (lo_ds _ _ _ _ sample_layout)) as (s & Hi & Hinv).
    change (sm_pools sample_mem) with (from_ok (memp_init sample_ds (Pools ∅ ∅)) (Pools ∅ ∅)). by rewrite Hi.
  - intros p x. rewrite lookup_gset_to_gmap_Some. destruct x; simpl; [|set_solver|naive_solver].
    split; [naive_solver|intros Hn; by apply not_elem_of_nil in Hn].
Qed.

(** The memory of the heap and of the two pools, as zero bytes. *)
Definition sample_arena : bytes :=
  mwrite (mwrite (mwrite ∅ 100000 (replicate (Z.to_nat 3200) 0)) 200000 (replicate (Z.to_nat 259) 0)) 300000 (replicate (Z.to_nat 2435) 0).

Lemma lookup_zeros d a n i : is_Some (d !! i) ∨ a ≤ i < a + Z.of_nat n → is_Some (mwrite d a (replicate n 0) !! i).
Proof.
  intros Hi. rewrite lookup_mwrite. case_bool_decide as Hin; unfold zlen in Hin; rewrite length_replicate in Hin.
  - rewrite lookup_replicate_2 by lia. done.
  - destruct Hi as [?|?]; [done|lia].
Qed.

Lemma sample_arena_mapped i : stack_arena 100000 sample_ds i → is_Some (sample_arena !! i).
Proof.
  intros [Hi|(k & d & Hd & Hi)]; [|destruct k as [|[|k]]; [| |discriminate Hd]]; unfold sample_arena.
  - do 2 (apply lookup_zeros; left). apply lookup_zeros. right. change MEM_SIZE with 3200 in Hi. lia.
  - injection Hd as <-. apply lookup_zeros. left. apply lookup_zeros. right. change (200000 ≤ i < 200000 + 16 * 16 + 4 - 1) in Hi. lia.
  - injection Hd as <-. apply lookup_zeros. right. change (300000 ≤ i < 300000 + 4 * 608 + 4 - 1) in Hi. lia.
Qed.

Lemma sample0_ok : pstate_ok sample0 ∅.
Proof.
  split; [|done]. change (stack_ok 100000 sample_ds 0 1 sample_mem ∅).
  rewrite <-(gset_to_gmap_empty SrcCustom). apply (stack_init_ok ∅). split; intros p; set_solver.
Qed.

Lemma pbuf_alloc_pool_correct_witness :
  ∃ r s', pbuf_alloc PBUF_TRANSPORT 1400 PBUF_POOL sample0 = Ok (r, s') ∧ dat s' = ∅ ∧
    match r with
    | None => pstate_ok s' ∅ ∧ pb s' = ∅
    | Some p => ∃ l L', pstate_ok s' L' ∧ chain (pb s') (Some p) l ∧ lens_ok l ∧ bytes_in l = 1400 ∧
        Forall in_element l ∧
        (∀ a, a ∈ l.*1 → L' !! a = Some (SrcPool MEMP_PBUF_POOL) ∧ (∅ : gmap Z src) !! a = None) ∧
        (∀ a, a ∉ l.*1 → L' !! a = (∅ : gmap Z src) !! a ∧ pb s' !! a = (∅ : gmap Z pbuf) !! a)
    end.
Proof. apply (pbuf_alloc_pool_correct sample0 ∅ PBUF_TRANSPORT 1400 sample0_ok); done. Defined.

Lemma pbuf_alloc_ram_correct_witness :
  ∃ r s', pbuf_alloc PBUF_TRANSPORT 1400 PBUF_RAM sample0 = Ok (r, s') ∧ dat s' = ∅ ∧
    match r with
    | None => pstate_ok s' ∅ ∧ pb s' = ∅
    | Some p => ∃ n q, pstate_ok s' (<[p := SrcHeap n]> ∅) ∧ (∅ : gmap Z src) !! p = None ∧ pb s' = <[p := q]> ∅ ∧
        p + SIZEOF_STRUCT_PBUF + PBUF_TRANSPORT ≤ payload q ∧ payload q + 1400 ≤ p + n ∧ payload q mod 4 = 0 ∧
        next q = None ∧ len q = 1400 ∧ tot_len q = 1400 ∧ ref q = 1
    end.
Proof. apply (pbuf_alloc_ram_correct sample0 ∅ PBUF_TRANSPORT 1400 sample0_ok); done. Defined.

Lemma pbuf_alloc_free_restores_witness :
  ∃ p s1, pbuf_alloc PBUF_RAW 1400 PBUF_POOL sample0 = Ok (Some p, s1) ∧
  ∃ n s2, pbuf_free (Some p) s1 = Ok (n, s2) ∧ pstate_ok s2 ∅ ∧ pb s2 = pb sample0 ∧ dat s2 = dat sample0.
Proof.
  assert (Hr : 0 ≤ PBUF_RAW ≤ PBUF_TRANSPORT) by done. assert (Hu : is_u16 1400) by done.
  assert (Ha : ∃ p s1, pbuf_alloc PBUF_RAW 1400 PBUF_POOL sample0 = Ok (Some p, s1))
    by (eexists _, _; vm_compute; reflexivity).
  destruct Ha as (p & s1 & Ha). exists p, s1. split; [exact Ha|].
  exact (pbuf_alloc_free_restores sample0 ∅ PBUF_RAW 1400 PBUF_POOL p s1 sample0_ok Hr Hu (or_introl eq_refl) Ha).
Defined.

(** ** Witnesses of PbufLife and PbufChain on chains of custom pbufs *)

(** Following [next] as a decision procedure. *)
Fixpoint chain_b (m : gmap Z pbuf) (p : option Z) (l : list (Z * pbuf)) : bool :=
  match l with
  | [] => bool_decide (p = None)
  | (a, q) :: l => bool_decide (p = Some a) && bool_decide (m !! a = Some q) && chain_b m (next q) l
  end.

Lemma chain_b_chain m p l : chain_b m p l = true → chain m p l.
Proof.
  revert p; induction l as [|[a q] l IH]; simpl; intros p Hb; breflect; [done|]. naive_solver.
Qed.

(** [n] custom structs in a row from address [a] on, with one byte of payload
    each, the last [n] of the [k] bytes from 500000 on. *)
Fixpoint custom_chain (n : nat) (a : Z) (k : Z) : list (Z * pbuf) :=
  match n with
  | O => []
  | S n => (a, Pbuf (match n with O => None | _ => Some (a + 16) end) (500000 + k - Z.of_nat (S n)) (Z.of_nat (S n)) 1 1
                 PBUF_FLAG_IS_CUSTOM 1 0) :: custom_chain n (a + 16) k
  end.

Definition custom_set (n : nat) (a : Z) : gset Z := list_to_set ((λ i : nat, a + 16 * Z.of_nat i) <$> seq 0 n).

Lemma custom_set_place n : (n ≤ 1000)%nat → custom_place 100000 sample_ds (custom_set n 400000).
Proof.
  intros Hn. assert (Hin : ∀ p, p ∈ custom_set n 400000 → ∃ i, p = 400000 + 16 * i ∧ 0 ≤ i < 1000).
  { intros p Hp. unfold custom_set in Hp. apply elem_of_list_to_set, list_elem_of_fmap in Hp as (i & -> & Hi).
    apply elem_of_seq in Hi. exists (Z.of_nat i). lia. }
  split.
  - intros p (i & -> & Hi)%Hin. change SIZEOF_STRUCT_PBUF with 16. split_and!; [|lia|lia|right; heap_consts; lia|].
    + apply Z.divide_add_r; [by exists 100000|]. exists (4 * i). lia.
    + intros [|[|j]] d Hd; vm_compute in Hd; simplify_eq; right; vm_compute region_end; lia.
  - intros p q (i & -> & Hi)%Hin (j & -> & Hj)%Hin Hne. change SIZEOF_STRUCT_PBUF with 16. lia.
Qed.

(** A state with the chain [custom_chain n 400000 n]. *)
Definition custom_state (n : nat) : pstate stack_mem :=
  PState (list_to_map (custom_chain n 400000 (Z.of_nat n)))
    (mwrite ∅ 500000 (Z.of_nat <$> seq 1 n))
    (StackMem (sm_heap sample_mem) (sm_pools sample_mem) (custom_set n 400000)) 0.

Lemma custom_chain_in n : ∀ a k p q, (p, q) ∈ custom_chain n a k →
  is_custom q = true ∧ ∃ i : nat, p = a + 16 * Z.of_nat i ∧ (i < n)%nat.
Proof.
  induction n as [|n IH]; intros a k p q Hin; [by apply not_elem_of_nil in Hin|].
  cbn [custom_chain] in Hin. apply elem_of_cons in Hin as [Heq|Hin].
  - injection Heq as -> ->. split; [done|]. exists 0%nat. lia.
  - destruct (IH _ _ _ _ Hin) as (? & i & -> & ?). split; [done|]. exists (S i). lia.
Qed.

Lemma custom_chain_refs n : ∀ a k, Forall (λ x, ref x.2 = 1) (custom_chain n a k).
Proof. induction n as [|n IH]; intros a k; constructor; [done|apply IH]. Qed.

Lemma custom_chain_lens n : ∀ a k, Z.of_nat n ≤ 65535 →
  lens_ok (custom_chain n a k) ∧ bytes_in (custom_chain n a k) = Z.of_nat n.
Proof.
  induction n as [|n IH]; intros a k Hn; [done|]. cbn [custom_chain lens_ok bytes_in tot_len len].
  destruct (IH (a + 16) k) as [H1 H2]; [lia|]. rewrite H2. split_and!; try done; lia.
Qed.

Lemma custom_chain_length n : ∀ a k, zlen (custom_chain n a k) = Z.of_nat n.
Proof.
  induction n as [|n IH]; intros a k; [done|]. specialize (IH (a + 16) k). unfold zlen in *. cbn [custom_chain length]. lia.
Qed.

Lemma custom_state_ok n :
  (n ≤ 1000)%nat → pstate_ok (custom_state n) (gset_to_gmap SrcCustom (custom_set n 400000)).
Proof.
  intros Hn. split; [by apply stack_init_ok, custom_set_place|].
  intros p q Hq. simpl in Hq. apply elem_of_list_to_map_2 in Hq.
  destruct (custom_chain_in _ _ _ _ _ Hq) as (Hc & i & -> & Hi). exists SrcCustom. split; [|done].
  apply lookup_gset_to_gmap_Some. split; [|done]. unfold custom_set.
  apply elem_of_list_to_set, list_elem_of_fmap. exists i. split; [done|]. apply elem_of_seq. lia.
Qed.

Lemma pbuf_free_drops_reference_witness :
  ∃ L s', pbuf_free (Some 400000) (custom_state 3) = Ok (3, s') ∧ dat s' = dat (custom_state 3) ∧
    pstate_ok s' L ∧ (∀ a, a ∈ (custom_chain 3 400000 3).*1 → pb s' !! a = None).
Proof.
  assert (Hch : chain (pb (custom_state 3)) (Some 400000) (custom_chain 3 400000 3 ++ []))
    by (apply chain_b_chain; vm_compute; reflexivity).
  assert (Hok : pstate_ok (custom_state 3) (gset_to_gmap SrcCustom (custom_set 3 400000))) by (apply custom_state_ok; lia).
  assert (Hr : last_ref (custom_chain 3 400000 3) []) by (split; [by repeat constructor|done]).
  destruct (pbuf_free_drops_reference (custom_state 3) _ 400000 (custom_chain 3 400000 3) [] Hok Hch Hr)
    as (s' & Hf & Hd & Hok' & Hg & _). eexists _, s'. split; [exact Hf|]. split; [exact Hd|]. split; [exact Hok'|exact Hg].
Defined.

Lemma pbuf_dechain_256_dangling_witness :
  ∃ t s', pbuf_dechain 400000 (custom_state 257) = Ok (Some t, s') ∧ pb s' !! t = None.
Proof.
  assert (Hch : chain (pb (custom_state 257)) (Some 400000) (custom_chain 257 400000 257))
    by (apply chain_b_chain; vm_compute; reflexivity).
  assert (Hok : pstate_ok (custom_state 257) (gset_to_gmap SrcCustom (custom_set 257 400000))) by (apply custom_state_ok; lia).
  exact (pbuf_dechain_256_dangling (custom_state 257) _ 400000 _ (custom_chain 256 400016 257) Hok Hch
           (proj1 (custom_chain_lens 257 400000 257 ltac:(lia))) (custom_chain_length 256 400016 257)
           (custom_chain_refs 256 400016 257)).
Defined.

Lemma pbuf_header_roundtrip_witness :
  ∃ s1, pbuf_add_header_impl (Some 400000) 4 true (custom_state 2) = Ok (0, s1) ∧
        pbuf_remove_header (Some 400000) 4 s1 = Ok (0, custom_state 2).
Proof.
  destruct (pbuf_header_roundtrip (custom_state 2) 400000 (Pbuf (Some 400016) 500000 2 1 1 PBUF_FLAG_IS_CUSTOM 1 0) 4 true)
    as [Hok _]; [reflexivity|vm_compute; discriminate..|].
  destruct (Hok eq_refl) as (s1 & Ha & _ & _ & Hr). exists s1. split; [exact Ha|exact Hr].
Defined.

(** Two packets of one custom pbuf each. *)
Definition two_packets : pstate stack_mem :=
  PState (<[400000 := Pbuf None 500000 2 2 1 PBUF_FLAG_IS_CUSTOM 1 0]>
            {[400016 := Pbuf None 500002 3 3 1 PBUF_FLAG_IS_CUSTOM 1 0]})
    (mwrite ∅ 500000 [1; 2; 3; 4; 5]) sample_mem 0.

Lemma pbuf_cat_concatenates_witness :
  ∃ s' l, pbuf_cat (Some 400000) (Some 400016) two_packets = Ok s' ∧ chain (pb s') (Some 400000) l ∧ lens_ok l ∧
    content (dat s') l = Some ([1; 2] ++ [3; 4; 5]).
Proof.
  destruct (pbuf_cat_concatenates two_packets 400000 400016 [(400000, Pbuf None 500000 2 2 1 PBUF_FLAG_IS_CUSTOM 1 0)]
              [(400016, Pbuf None 500002 3 3 1 PBUF_FLAG_IS_CUSTOM 1 0)] [1; 2] [3; 4; 5])
    as (s' & l & Hc & Hch & Hl & _ & Hct & _); try (vm_compute; repeat split; done || discriminate).
  - intros a Ha Hb. apply list_elem_of_singleton in Ha, Hb. simpl in *. lia.
  - exists s', l. split; [exact Hc|]. split; [exact Hch|]. split; [exact Hl|exact Hct].
Defined.

Lemma pbuf_dechain_chain_witness :
  ∃ s', pbuf_chain (Some 400000) (Some 400016) two_packets = Ok s' ∧
        pbuf_dechain 400000 s' = Ok (Some 400016, two_packets).
Proof.
  apply (pbuf_dechain_chain two_packets 400000 (Pbuf None 500000 2 2 1 PBUF_FLAG_IS_CUSTOM 1 0)
           400016 (Pbuf None 500002 3 3 1 PBUF_FLAG_IS_CUSTOM 1 0) []);
    try (vm_compute; repeat split; done || discriminate).
  intros Ha. apply list_elem_of_singleton in Ha. simpl in Ha. lia.
Defined.

Lemma pbuf_realloc_truncates_witness :
  (∃ q b n, (q, b) ∈ custom_chain 3 400000 3 ∧ mem_trim q n (al (custom_state 3)) = Assert ∧
     pbuf_realloc (Some 400000) 2 (custom_state 3) = Assert) ∨
  ∃ s' l', pbuf_realloc (Some 400000) 2 (custom_state 3) = Ok s' ∧ chain (pb s') (Some 400000) l' ∧
    content (dat s') l' = Some [1; 2].
Proof.
  assert (Hch : chain (pb (custom_state 3)) (Some 400000) (custom_chain 3 400000 3))
    by (apply chain_b_chain; vm_compute; reflexivity).
  assert (Hok : pstate_ok (custom_state 3) (gset_to_gmap SrcCustom (custom_set 3 400000))) by (apply custom_state_ok; lia).
  assert (Hblk : Forall (in_heap_block (gset_to_gmap SrcCustom (custom_set 3 400000))) (custom_chain 3 400000 3)).
  { apply Forall_forall. intros x _ n Hn. by apply lookup_gset_to_gmap_Some in Hn as [_ ?]. }
  assert (Hc : content (dat (custom_state 3)) (custom_chain 3 400000 3) = Some [1; 2; 3]) by (vm_compute; reflexivity).
  assert (H2 : is_u16 2) by done. assert (H3 : 2 < zlen [1; 2; 3]) by done.
  destruct (pbuf_realloc_truncates (custom_state 3) _ 400000 (custom_chain 3 400000 3) [1; 2; 3] 2 Hok Hch
              (proj1 (custom_chain_lens 3 400000 3 ltac:(lia))) Hc Hblk (custom_chain_refs 2 400016 3) H2) as [_ Ht].
  destruct (Ht H3) as [Ha|(s' & l' & L' & Hr & _ & _ & Hch' & _ & Hct & _)]; [left; exact Ha|right].
  exists s', l'. split; [exact Hr|]. split; [exact Hch'|exact Hct].
Defined.

(** shortening the packet at the end of the heap aborts.  On the stack right
    after initialisation, a PBUF_RAM packet that fills the heap can be allocated, but
    pbuf_realloc cannot shorten it: the assertion in mem_trim on the last block of the
    heap fails. *)
Theorem pbuf_realloc_last_block_aborts :
  ∃ p s1, pbuf_alloc PBUF_RAW 3160 PBUF_RAM sample0 = Ok (Some p, s1) ∧
          pbuf_realloc (Some p) 100 s1 = Assert.
Proof.
  assert (Hb : match pbuf_alloc PBUF_RAW 3160 PBUF_RAM sample0 with
               | Ok (Some p, s1) => match pbuf_realloc (Some p) 100 s1 with Assert => true | _ => false end
               | _ => false
               end = true) by (vm_compute; reflexivity).
  destruct (pbuf_alloc PBUF_RAW 3160 PBUF_RAM sample0) as [[[p|] s1]| | |]; [|discriminate Hb..].
  exists p, s1. split; [reflexivity|].
  destruct (pbuf_realloc (Some p) 100 s1); [discriminate Hb|reflexivity|discriminate Hb..].
Qed.
