(* ===== verification/Chksum.v ===== *)
(** * Internet checksums: core/inet_chksum.c

    The three implementations of [lwip_standard_chksum] selected by
    LWIP_CHKSUM_ALGORITHM (2 is the default and the configured one), the
    checksums over pbuf chains with and without pseudo header, and the partial
    ones of UDP-Lite.  The host is little-endian; a 16- or 32-bit load from an
    address that is not aligned is undefined behaviour. *)

From S2P Require Import Prelude ByteMem Def IpAddr Pbuf PbufFacts.

(** ** Loads *)

Definition ld8 (b : bytes) (a : Z) : res Z := deref (b !! a).
Definition ld16 (b : bytes) (a : Z) : res Z :=
  if a mod 2 =? 0 then x ← ld8 b a; y ← ld8 b (a + 1); Ok (x + 256 * y) else Ub.
Definition ld32 (b : bytes) (a : Z) : res Z :=
  if a mod 4 =? 0 then x ← ld16 b a; y ← ld16 b (a + 2); Ok (x + 65536 * y) else Ub.

(** ** Macros of include/lwip/inet_chksum.h *)

Definition SWAP_BYTES_IN_WORD (w : Z) : Z :=
  Z.lor (Z.shiftl (Z.land w 255) 8) (Z.shiftr (Z.land w 65280) 8).
Definition FOLD_U32T (u : Z) : Z := u32 (Z.shiftr u 16 + Z.land u 65535).

(** Stores to byte 0 (low) and byte 1 (high) of a 16-bit variable [t]. *)
Definition set_byte0 (t x : Z) : Z := t / 256 * 256 + x.
Definition set_byte1 (t x : Z) : Z := x * 256 + t mod 256.

(** ** Version 1: octets, big-endian words.  [len] is at most [2 * fuel + 1]. *)

Fixpoint chksum1_loop (fuel : nat) (b : bytes) (octetptr len acc : Z) : res (Z * Z * Z) :=
  if 1 <? len then
    match fuel with
    | O => Stuck
    | S fuel =>
        x ← ld8 b octetptr;
        let src := u16 (Z.shiftl x 8) in
        y ← ld8 b (octetptr + 1);
        let src := Z.lor src y in
        chksum1_loop fuel b (octetptr + 2) (len - 2) (u32 (acc + src))
    end
  else Ok (octetptr, len, acc).

Definition lwip_standard_chksum_1 (b : bytes) (dataptr len : Z) : res Z :=
  '(octetptr, len, acc) ← chksum1_loop (Z.to_nat len) b dataptr len 0;
  acc ← (if 0 <? len then x ← ld8 b octetptr; Ok (u32 (acc + u16 (Z.shiftl x 8))) else Ok acc);
  let acc := u32 (Z.shiftr acc 16 + Z.land acc 65535) in
  let acc := if negb (Z.land acc 4294901760 =? 0) then u32 (Z.shiftr acc 16 + Z.land acc 65535) else acc in
  Ok (lwip_htons (u16 acc)).

(** ** Version 2: 16-bit words, unaligned start handled by a final swap. *)

(** [while (len > 1) { sum += *ps++; len -= 2; }] *)
Fixpoint chksum16_loop (fuel : nat) (b : bytes) (ps len sum : Z) : res (Z * Z * Z) :=
  if 1 <? len then
    match fuel with
    | O => Stuck
    | S fuel => x ← ld16 b ps; chksum16_loop fuel b (ps + 2) (len - 2) (u32 (sum + x))
    end
  else Ok (ps, len, sum).

Definition lwip_standard_chksum (b : bytes) (dataptr len : Z) : res Z :=
  let pb := dataptr in
  let t := 0 in
  let odd := negb (Z.land pb 1 =? 0) in
  '(pb, t, len) ← (if odd && (0 <? len) then x ← ld8 b pb; Ok (pb + 1, set_byte1 t x, len - 1)
                   else Ok (pb, t, len));
  '(ps, len, sum) ← chksum16_loop (Z.to_nat len) b pb len 0;
  t ← (if 0 <? len then x ← ld8 b ps; Ok (set_byte0 t x) else Ok t);
  let sum := u32 (sum + t) in
  let sum := FOLD_U32T sum in
  let sum := FOLD_U32T sum in
  let sum := if odd then SWAP_BYTES_IN_WORD sum else sum in
  Ok (u16 sum).

Definition LWIP_CHKSUM := lwip_standard_chksum.

(** ** Version 3: eight bytes per round with end-around carry. *)

Fixpoint chksum32_loop (fuel : nat) (b : bytes) (pl len sum : Z) : res (Z * Z * Z) :=
  if 7 <? len then
    match fuel with
    | O => Stuck
    | S fuel =>
        x ← ld32 b pl;
        let tmp := u32 (sum + x) in                   (* ping *)
        let tmp := if tmp <? sum then u32 (tmp + 1) else tmp in
        y ← ld32 b (pl + 4);
        let sum := u32 (tmp + y) in                   (* pong *)
        let sum := if sum <? tmp then u32 (sum + 1) else sum in
        chksum32_loop fuel b (pl + 8) (len - 8) sum
    end
  else Ok (pl, len, sum).

Definition lwip_standard_chksum_3 (b : bytes) (dataptr len : Z) : res Z :=
  let pb := dataptr in
  let t := 0 in
  let sum := 0 in
  let odd := negb (Z.land pb 1 =? 0) in
  '(pb, t, len) ← (if odd && (0 <? len) then x ← ld8 b pb; Ok (pb + 1, set_byte1 t x, len - 1)
                   else Ok (pb, t, len));
  '(ps, len, sum) ← (if negb (Z.land pb 3 =? 0) && (1 <? len)
                     then x ← ld16 b pb; Ok (pb + 2, len - 2, u32 (sum + x)) else Ok (pb, len, sum));
  '(pl, len, sum) ← chksum32_loop (Z.to_nat len) b ps len sum;
  let sum := FOLD_U32T sum in
  '(ps, len, sum) ← chksum16_loop (Z.to_nat len) b pl len sum;
  t ← (if 0 <? len then x ← ld8 b ps; Ok (set_byte0 t x) else Ok t);
  let sum := u32 (sum + t) in
  let sum := FOLD_U32T sum in
  let sum := FOLD_U32T sum in
  let sum := if odd then SWAP_BYTES_IN_WORD sum else sum in
  Ok (u16 sum).

(** ** Checksums of packets *)

Definition inet_chksum (b : bytes) (dataptr len : Z) : res Z :=
  s ← LWIP_CHKSUM b dataptr len; Ok (u16 (Z.lnot s)).

Definition lwip_chksum_copy (b : bytes) (dst src len : Z) : res (Z * bytes) :=
  b ← memcpy dst src len b; s ← LWIP_CHKSUM b dst len; Ok (s, b).

Section chains.
Context {A : Type}.
Implicit Types s : pstate A.

(** The loop over the pbufs that inet_chksum_pbuf and inet_cksum_pseudo_base have
    in common; [swapped] is a C truth value. *)
Fixpoint chksum_chain_loop (fuel : nat) (q : option Z) (acc : Z) (swapped : bool) s : res (Z * bool) :=
  match q with
  | None => Ok (acc, swapped)
  | Some a =>
      match fuel with
      | O => Stuck
      | S fuel =>
          q ← getp a s;
          x ← LWIP_CHKSUM (dat s) (payload q) (len q);
          let acc := u32 (acc + x) in
          let acc := FOLD_U32T acc in
          if negb (len q mod 2 =? 0) then chksum_chain_loop fuel (next q) (SWAP_BYTES_IN_WORD acc) (negb swapped) s
          else chksum_chain_loop fuel (next q) acc swapped s
      end
  end.

Definition inet_chksum_pbuf (p : option Z) s : res Z :=
  '(acc, swapped) ← chksum_chain_loop (chain_fuel s) p 0 false s;
  let acc := if (swapped : bool) then SWAP_BYTES_IN_WORD acc else acc in
  Ok (u16 (Z.lnot (Z.land acc 65535))).

Definition inet_cksum_pseudo_base (p : option Z) (proto proto_len acc : Z) s : res Z :=
  '(acc, swapped) ← chksum_chain_loop (chain_fuel s) p acc false s;
  let acc := if (swapped : bool) then SWAP_BYTES_IN_WORD acc else acc in
  let acc := u32 (acc + lwip_htons proto) in
  let acc := u32 (acc + lwip_htons proto_len) in
  let acc := FOLD_U32T acc in
  let acc := FOLD_U32T acc in
  Ok (u16 (Z.lnot (Z.land acc 65535))).

(** [acc + (addr & 0xffff) + ((addr >> 16) & 0xffff)] *)
Definition add_addr (acc addr : Z) : Z :=
  u32 (u32 (acc + Z.land addr 65535) + Z.land (Z.shiftr addr 16) 65535).

Definition inet_chksum_pseudo (p : option Z) (proto proto_len : Z) (src dest : ip4_addr_t) s : res Z :=
  let acc := add_addr 0 src in
  let acc := add_addr acc dest in
  let acc := FOLD_U32T acc in
  let acc := FOLD_U32T acc in
  inet_cksum_pseudo_base p proto proto_len acc s.

(** [for (addr_part = 0; addr_part < 4; addr_part++)] *)
Fixpoint ip6_addr_loop (k : nat) (src dest : ip6_addr) (addr_part acc : Z) : res Z :=
  match k with
  | O => Ok acc
  | S k =>
      w ← addr_word src addr_part;
      let acc := add_addr acc w in
      w ← addr_word dest addr_part;
      let acc := add_addr acc w in
      ip6_addr_loop k src dest (addr_part + 1) acc
  end.

Definition ip6_chksum_pseudo (p : option Z) (proto proto_len : Z) (src dest : ip6_addr) s : res Z :=
  acc ← ip6_addr_loop 4 src dest 0 0;
  let acc := FOLD_U32T acc in
  let acc := FOLD_U32T acc in
  inet_cksum_pseudo_base p proto proto_len acc s.

Definition ip_chksum_pseudo (p : option Z) (proto proto_len : Z) (src dest : ip_addr) s : res Z :=
  if IP_IS_V6 dest then ip6_chksum_pseudo p proto proto_len (ip_2_ip6 src) (ip_2_ip6 dest) s
  else src ← ip_2_ip4 src; dest ← ip_2_ip4 dest; inet_chksum_pseudo p proto proto_len src dest s.

(** ** Partial checksums: the first [chksum_len] bytes only *)

Fixpoint chksum_partial_loop (fuel : nat) (q : option Z) (chksum_len acc : Z) (swapped : bool) s : res (Z * bool) :=
  match q with
  | None => Ok (acc, swapped)
  | Some a =>
      if 0 <? chksum_len then
        match fuel with
        | O => Stuck
        | S fuel =>
            q ← getp a s;
            let chklen := len q in
            let chklen := if chksum_len <? chklen then chksum_len else chklen in
            x ← LWIP_CHKSUM (dat s) (payload q) chklen;
            let acc := u32 (acc + x) in
            let chksum_len := u16 (chksum_len - chklen) in
            _ ← LWIP_ASSERT (chksum_len <? 32767);
            let acc := FOLD_U32T acc in
            if negb (len q mod 2 =? 0)
            then chksum_partial_loop fuel (next q) chksum_len (SWAP_BYTES_IN_WORD acc) (negb swapped) s
            else chksum_partial_loop fuel (next q) chksum_len acc swapped s
        end
      else Ok (acc, swapped)
  end.

Definition inet_cksum_pseudo_partial_base (p : option Z) (proto proto_len chksum_len acc : Z) s : res Z :=
  '(acc, swapped) ← chksum_partial_loop (chain_fuel s) p chksum_len acc false s;
  let acc := if (swapped : bool) then SWAP_BYTES_IN_WORD acc else acc in
  let acc := u32 (acc + lwip_htons proto) in
  let acc := u32 (acc + lwip_htons proto_len) in
  let acc := FOLD_U32T acc in
  let acc := FOLD_U32T acc in
  Ok (u16 (Z.lnot (Z.land acc 65535))).

Definition inet_chksum_pseudo_partial (p : option Z) (proto proto_len chksum_len : Z)
    (src dest : ip4_addr_t) s : res Z :=
  let acc := add_addr 0 src in
  let acc := add_addr acc dest in
  let acc := FOLD_U32T acc in
  let acc := FOLD_U32T acc in
  inet_cksum_pseudo_partial_base p proto proto_len chksum_len acc s.

Definition ip6_chksum_pseudo_partial (p : option Z) (proto proto_len chksum_len : Z)
    (src dest : ip6_addr) s : res Z :=
  acc ← ip6_addr_loop 4 src dest 0 0;
  let acc := FOLD_U32T acc in
  let acc := FOLD_U32T acc in
  inet_cksum_pseudo_partial_base p proto proto_len chksum_len acc s.

Definition ip_chksum_pseudo_partial (p : option Z) (proto proto_len chksum_len : Z)
    (src dest : ip_addr) s : res Z :=
  if IP_IS_V6 dest then ip6_chksum_pseudo_partial p proto proto_len chksum_len (ip_2_ip6 src) (ip_2_ip6 dest) s
  else src ← ip_2_ip4 src; dest ← ip_2_ip4 dest;
       inet_chksum_pseudo_partial p proto proto_len chksum_len src dest s.

End chains.
