(* ===== verification/ChksumFacts.v ===== *)
(** * Internet checksums: theorems

    The specification is RFC 1071: the one's complement sum of the 16-bit words
    of the data, an odd last byte padded with zero.  [wsum] adds the words as a
    little-endian host loads them, [oc] reduces a sum to 16 bits with end-around
    carry.  Every implementation and every way to cut the data into pbufs yields
    [oc (wsum data)]. *)

From S2P Require Import Prelude ByteMem Def IpAddr Pbuf PbufFacts PbufData Chksum.

(** ** One's complement sums *)

Fixpoint wsum (l : list Z) : Z :=
  match l with
  | [] => 0
  | [x] => x
  | x :: y :: l => x + 256 * y + wsum l
  end.

(** The 16-bit one's complement value of a non-negative sum: the representative of
    its class modulo 65535 that is 0 only for the sum 0. *)
Definition oc (s : Z) : Z := if s =? 0 then 0 else (s - 1) mod 65535 + 1.

Lemma oc_range s : 0 ≤ oc s ≤ 65535.
Proof. unfold oc. destruct (_ =? _); [lia|zlia]. Qed.

Lemma oc_id s : 0 ≤ s ≤ 65535 → oc s = s.
Proof. intros Hs. unfold oc. destruct (_ =? _) eqn:E; breflect; [done|]. rewrite Z.mod_small; lia. Qed.

Lemma oc_eq a b : 0 ≤ a → 0 ≤ b → (a = 0 ↔ b = 0) → (∃ k, a = b + 65535 * k) → oc a = oc b.
Proof.
  intros Ha Hb Hz [k Hk]. unfold oc. destruct (a =? 0) eqn:Ea, (b =? 0) eqn:Eb; breflect; try lia.
  replace (a - 1) with (b - 1 + k * 65535) by lia. by rewrite Z.mod_add.
Qed.

Lemma oc_spec s : 0 ≤ s → (oc s = 0 ↔ s = 0) ∧ ∃ k, s = oc s + 65535 * k.
Proof.
  intros Hs. unfold oc. destruct (s =? 0) eqn:E; breflect.
  - subst. split; [done|]. by exists 0.
  - split; [zlia|]. exists ((s - 1) / 65535). zlia.
Qed.

(** Reductions in the middle of a sum do not matter. *)
Lemma oc_add_l a b : 0 ≤ a → 0 ≤ b → oc (oc a + b) = oc (a + b).
Proof.
  intros Ha Hb. destruct (oc_spec a Ha) as [Hz [k Hk]]. pose proof (oc_range a).
  apply oc_eq; [lia|lia|lia|]. exists (- k). lia.
Qed.

Lemma oc_congr f a b : 0 ≤ a → 0 ≤ b → 0 < f → oc a = oc b → oc (f * a) = oc (f * b).
Proof.
  intros Ha Hb Hf He. destruct (oc_spec a Ha) as [Hz [k Hk]], (oc_spec b Hb) as [Hz' [k' Hk']].
  apply oc_eq; [nia|nia|nia|]. exists (f * (k - k')). rewrite Hk, Hk', He. lia.
Qed.

Lemma oc_add_congr a b c : 0 ≤ a → 0 ≤ b → 0 ≤ c → oc a = oc b → oc (c + a) = oc (c + b).
Proof. intros. rewrite !(Z.add_comm c), <-(oc_add_l a), <-(oc_add_l b) by lia. congruence. Qed.

Lemma oc_256_256 a : 0 ≤ a → oc (256 * (256 * a)) = oc a.
Proof. intros. apply oc_eq; [lia|lia|lia|]. exists a. lia. Qed.

(** ** The macros *)

Lemma FOLD_U32T_eq s : 0 ≤ s < 4294967296 → FOLD_U32T s = s / 65536 + s mod 65536.
Proof.
  intros Hs. unfold FOLD_U32T. rewrite (land_ones_mod s 16) by (done || reflexivity).
  rewrite Z.shiftr_div_pow2 by lia. change (2 ^ 16) with 65536. apply u32_id. ulia.
Qed.

Lemma FOLD_oc s : 0 ≤ s < 4294967296 → oc (FOLD_U32T s) = oc s ∧ 0 ≤ FOLD_U32T s ≤ 131070.
Proof.
  intros Hs. rewrite FOLD_U32T_eq by lia. split; [|zlia].
  apply oc_eq; [zlia|lia|zlia|]. exists (- (s / 65536)). zlia.
Qed.

Lemma FOLD_once s : 0 ≤ s ≤ 131070 → FOLD_U32T s = oc s.
Proof.
  intros Hs. destruct (FOLD_oc s) as [<- _]; [lia|]. symmetry. apply oc_id.
  rewrite FOLD_U32T_eq by lia. zlia.
Qed.

Lemma FOLD_twice s : 0 ≤ s < 4294967296 → FOLD_U32T (FOLD_U32T s) = oc s.
Proof. intros Hs. destruct (FOLD_oc s Hs) as [<- Hr]. by apply FOLD_once. Qed.

Lemma SWAP_htons s : is_u16 s → SWAP_BYTES_IN_WORD s = lwip_htons s.
Proof.
  intros Hs. unfold lwip_htons. pose proof (PP_HTONS_eq s Hs) as He.
  unfold PP_HTONS in He. unfold SWAP_BYTES_IN_WORD. rewrite u16_id in He; [by rewrite He, PP_HTONS_eq|].
  replace 65280 with (Z.shiftl (Z.ones 8) 8) by reflexivity.
  rewrite Z.shiftr_land, Z.shiftr_shiftl_l, Z.shiftl_0_r, Z.land_ones by lia.
  rewrite (land_ones_mod s 8 255), Z.shiftl_mul_pow2 by (done || lia || reflexivity).
  rewrite lor_add_disjoint by (try apply Z.mod_pos_bound; lia). change (2 ^ 8) with 256. ulia.
Qed.

Lemma htons_oc s : 0 ≤ s ≤ 65535 → lwip_htons s = oc (256 * s).
Proof.
  intros Hs. unfold lwip_htons. rewrite PP_HTONS_eq by ulia. symmetry.
  rewrite <-(oc_id (s mod 256 * 256 + s / 256)) by zlia. apply oc_eq; [lia|zlia|zlia|].
  exists (s / 256). zlia.
Qed.

Lemma SWAP_oc s : 0 ≤ s → SWAP_BYTES_IN_WORD (oc s) = oc (256 * s).
Proof.
  intros Hs. pose proof (oc_range s). rewrite SWAP_htons, htons_oc by ulia.
  apply oc_congr; [lia|lia|lia|by apply oc_id].
Qed.

(** ** Word sums *)

Lemma pair_ind (P : list Z → Prop) :
  P [] → (∀ x, P [x]) → (∀ x y l, P l → P (x :: y :: l)) → ∀ l, P l.
Proof.
  intros H0 H1 H2 l. enough (P l ∧ ∀ x, P (x :: l)) by naive_solver.
  induction l as [|y l [IH1 IH2]]; split; eauto.
Qed.

Lemma wsum_nonneg l : Forall is_u8 l → 0 ≤ wsum l.
Proof.
  induction l as [|x|x y l IH] using pair_ind; rewrite ?Forall_cons; simpl; [lia|ulia|].
  intros (Hx & Hy & Hl). specialize (IH Hl). ulia.
Qed.

Lemma wsum_bound l : Forall is_u8 l → wsum l ≤ 65535 * ((zlen l + 1) / 2).
Proof.
  unfold zlen. induction l as [|x|x y l IH] using pair_ind; rewrite ?Forall_cons; cbn [wsum length].
  - intros _. done.
  - intros [Hx _]. change (Z.of_nat 1) with 1. ulia.
  - intros (Hx & Hy & Hl). specialize (IH Hl).
    replace (Z.of_nat (S (S (length l))) + 1) with (Z.of_nat (length l) + 1 + 1 * 2) by lia.
    rewrite Z.div_add by lia. ulia.
Qed.

(** Dropping the first byte shifts the word boundaries, which multiplies by 256. *)
Lemma wsum_cons x l : is_u8 x → Forall is_u8 l → oc (wsum (x :: l)) = oc (x + 256 * wsum l).
Proof.
  revert x. induction l as [|y|y z l IH] using pair_ind; intros x Hx; rewrite ?Forall_cons; simpl.
  - intros _. f_equal. lia.
  - intros _. f_equal. lia.
  - intros (Hy & Hz & Hl). specialize (IH z Hz Hl). pose proof (wsum_nonneg l Hl).
    assert (0 ≤ wsum (z :: l)) by (by apply wsum_nonneg; constructor).
    replace (x + 256 * y + match l with [] => z | y0 :: l0 => z + 256 * y0 + wsum l0 end)
      with (x + 256 * y + wsum (z :: l)) by done.
    rewrite (oc_add_congr (wsum (z :: l)) (z + 256 * wsum l) (x + 256 * y)) by (done || ulia).
    apply oc_eq; [ulia|ulia|ulia|]. exists (- z). lia.
Qed.

(** Multiplication by 256 when [k] holds: what a byte swap does to a sum. *)
Definition sh (k : bool) (s : Z) : Z := if k then 256 * s else s.
Definition odd_len (l : list Z) : bool := negb (zlen l mod 2 =? 0).

Lemma sh_nonneg k s : 0 ≤ s → 0 ≤ sh k s.
Proof. unfold sh. destruct k; lia. Qed.

Lemma sh_negb k s : 0 ≤ s → oc (256 * sh k s) = oc (sh (negb k) s).
Proof. intros. unfold sh. destruct k; simpl; [by apply oc_256_256|done]. Qed.

Lemma sh_congr k a b : 0 ≤ a → 0 ≤ b → oc a = oc b → oc (sh k a) = oc (sh k b).
Proof. intros. unfold sh. destruct k; [|done]. by apply oc_congr. Qed.

Lemma sh_sh k a : 0 ≤ a → oc (sh k (sh k a)) = oc a.
Proof. intros. unfold sh. destruct k; [by apply oc_256_256|done]. Qed.

Lemma odd_len_cons x l : odd_len (x :: l) = negb (odd_len l).
Proof.
  unfold odd_len. rewrite zlen_cons.
  destruct (zlen l mod 2 =? 0) eqn:E, ((zlen l + 1) mod 2 =? 0) eqn:E'; breflect; done || zlia.
Qed.

Lemma odd_len_app l1 l2 : odd_len (l1 ++ l2) = xorb (odd_len l1) (odd_len l2).
Proof.
  induction l1 as [|x l1 IH]; [done|]. cbn [app]. rewrite !odd_len_cons, IH.
  by destruct (odd_len l1), (odd_len l2).
Qed.

Lemma wsum_app l1 l2 : Forall is_u8 l1 → Forall is_u8 l2 →
  oc (wsum (l1 ++ l2)) = oc (wsum l1 + sh (odd_len l1) (wsum l2)).
Proof.
  intros H1 H2. pose proof (wsum_nonneg l2 H2) as Hw2. induction l1 as [|x l1 IH]; [done|].
  apply Forall_cons in H1 as [Hx H1]. specialize (IH H1). pose proof (wsum_nonneg l1 H1) as Hw1.
  assert (H12 : Forall is_u8 (l1 ++ l2)) by (by apply Forall_app).
  pose proof (wsum_nonneg _ H12). pose proof (sh_nonneg (odd_len l1) _ Hw2) as Hs1.
  pose proof (sh_nonneg (odd_len (x :: l1)) _ Hw2) as Hs2. unfold is_u8 in Hx.
  assert (Hw1' : 0 ≤ wsum (x :: l1)) by (apply wsum_nonneg; by constructor).
  cbn [app]. rewrite wsum_cons by done.
  rewrite (oc_add_congr (256 * wsum (l1 ++ l2)) (256 * (wsum l1 + sh (odd_len l1) (wsum l2))) x)
    by (try apply oc_congr; done || lia).
  replace (x + 256 * (wsum l1 + sh (odd_len l1) (wsum l2)))
    with (x + 256 * wsum l1 + 256 * sh (odd_len l1) (wsum l2)) by lia.
  rewrite (oc_add_congr (256 * sh (odd_len l1) (wsum l2)) (sh (odd_len (x :: l1)) (wsum l2)))
    by (try (rewrite odd_len_cons; apply sh_negb); lia).
  rewrite <-oc_add_l, <-(oc_add_l (wsum (x :: l1))) by lia. by rewrite wsum_cons.
Qed.

(** ** Loads *)

Lemma ld8_ok b a x : b !! a = Some x → ld8 b a = Ok x.
Proof. unfold ld8. by intros ->. Qed.

Lemma ld16_ok b a x y l : mread b a (length (x :: y :: l)) = Some (x :: y :: l) → a mod 2 = 0 →
  ld16 b a = Ok (x + 256 * y) ∧ mread b (a + 2) (length l) = Some l.
Proof.
  intros [Hx [Hy Hl]%mread_cons]%mread_cons Ha. unfold ld16, ld8. rewrite Ha, Hx, Hy.
  replace (a + 2) with (a + 1 + 1) by lia. done.
Qed.

Lemma ld32_ok b a x y z w l : mread b a (length (x :: y :: z :: w :: l)) = Some (x :: y :: z :: w :: l) →
  a mod 4 = 0 →
  ld32 b a = Ok (x + 256 * y + 65536 * (z + 256 * w)) ∧ mread b (a + 4) (length l) = Some l.
Proof.
  intros H Ha. destruct (ld16_ok _ _ _ _ _ H) as [H1 H']; [zlia|].
  destruct (ld16_ok _ _ _ _ _ H') as [H2 H'']; [zlia|]. unfold ld32. rewrite Ha, H1. cbn [Z.eqb mbind res_bind].
  rewrite H2. cbn [mbind res_bind]. split; [done|]. by replace (a + 4) with (a + 2 + 2) by lia.
Qed.

(** ** The loops *)

(** What is left of [l] when no word remains: nothing or its last byte. *)
Definition rest16 (l l1 tl : list Z) : Prop :=
  l = l1 ++ tl ∧ (tl = [] ∨ ∃ x, tl = [x]) ∧ wsum l = wsum l1 + wsum tl.

Lemma chksum16_loop_ok b l : ∀ fuel a sum,
  mread b a (length l) = Some l → Forall is_u8 l → a mod 2 = 0 → (length l ≤ fuel)%nat →
  0 ≤ sum → sum + wsum l < 4294967296 →
  ∃ l1 tl, rest16 l l1 tl ∧ chksum16_loop fuel b a (zlen l) sum = Ok (a + zlen l1, zlen tl, sum + wsum l1).
Proof.
  induction l as [|x|x y l IH] using pair_ind; intros fuel a sum Hl Hu Ha Hf H0 Hs.
  - exists [], []. split; [by split_and!; [|left|]|].
    destruct fuel; cbn; by rewrite !Z.add_0_r.
  - exists [], [x]. split; [split_and!; [done|right; by exists x|done]|].
    destruct fuel; cbn; by rewrite !Z.add_0_r.
  - destruct fuel as [|fuel]; [simpl in Hf; lia|]. rewrite !zlen_cons. cbn [chksum16_loop].
    pose proof (zlen_nonneg l). replace (1 <? zlen l + 1 + 1) with true by lia.
    destruct (ld16_ok _ _ _ _ _ Hl Ha) as [-> Hl']. cbn [mbind res_bind].
    rewrite !Forall_cons in Hu. destruct Hu as (Hx & Hy & Hu). cbn [wsum] in Hs.
    pose proof (wsum_nonneg l Hu). rewrite u32_id by ulia.
    replace (zlen l + 1 + 1 - 2) with (zlen l) by lia.
    destruct (IH fuel (a + 2) (sum + (x + 256 * y))) as (l1 & tl & (-> & Htl & Hw) & ->);
      [done|done|zlia|simpl in Hf; lia|ulia|lia|].
    exists (x :: y :: l1), tl. split.
    + split_and!; [done|done|]. cbn [app wsum]. lia.
    + rewrite !zlen_cons. cbn [wsum]. do 2 f_equal; [f_equal|]; lia.
Qed.

Lemma chksum1_loop_ok b l : ∀ fuel a acc,
  mread b a (length l) = Some l → Forall is_u8 l → (length l ≤ fuel)%nat → 0 ≤ acc →
  acc + 65535 * ((zlen l + 1) / 2) < 4294967296 →
  ∃ l1 tl s, rest16 l l1 tl ∧ chksum1_loop fuel b a (zlen l) acc = Ok (a + zlen l1, zlen tl, acc + s) ∧
    0 ≤ s ≤ 65535 * (zlen l / 2) ∧ oc (256 * s) = oc (wsum l1).
Proof.
  induction l as [|x|x y l IH] using pair_ind; intros fuel a acc Hl Hu Hf H0 Hb.
  - exists [], [], 0. split; [by split_and!; [|left|]|]. split; [|by split; [|]].
    destruct fuel; cbn; by rewrite !Z.add_0_r.
  - exists [], [x], 0. split; [split_and!; [done|right; by exists x|done]|]. split; [|by split; [|]].
    destruct fuel; cbn; by rewrite !Z.add_0_r.
  - destruct fuel as [|fuel]; [simpl in Hf; lia|]. rewrite !zlen_cons in *. cbn [chksum1_loop].
    pose proof (zlen_nonneg l). replace (1 <? zlen l + 1 + 1) with true by lia.
    replace ((zlen l + 1 + 1 + 1) / 2) with ((zlen l + 1) / 2 + 1) in Hb by zlia.
    replace ((zlen l + 1 + 1) / 2) with (zlen l / 2 + 1) by zlia.
    assert (0 ≤ (zlen l + 1) / 2) by zlia.
    pose proof Hl as [Hlx [Hly Hl']%mread_cons]%mread_cons. unfold ld8. rewrite Hlx, Hly. cbn [deref mbind res_bind].
    rewrite !Forall_cons in Hu. destruct Hu as (Hx & Hy & Hu).
    rewrite (Z.shiftl_mul_pow2 x 8), (u16_id (x * 2 ^ 8)) by ulia.
    rewrite lor_add_disjoint by ulia. unfold is_u8 in Hx, Hy. rewrite u32_id by (unfold is_u32; lia).
    replace (zlen l + 1 + 1 - 2) with (zlen l) by lia. replace (a + 2) with (a + 1 + 1) by lia.
    destruct (IH fuel (a + 1 + 1) (acc + (x * 2 ^ 8 + y))) as (l1 & tl & s & (-> & Htl & Hw) & -> & Hs & Hoc);
      [done|done|simpl in Hf; lia|lia|lia|].
    exists (x :: y :: l1), tl, (x * 2 ^ 8 + y + s). apply Forall_app in Hu as [Hu _]. pose proof (wsum_nonneg l1 Hu).
    rewrite !zlen_cons. split; [split_and!; [done|done|cbn [app wsum]; lia]|]. split; [do 2 f_equal; [f_equal|]; lia|].
    split; [lia|]. cbn [wsum]. change (2 ^ 8) with 256.
    replace (256 * (x * 256 + y + s)) with (256 * (256 * x + y) + 256 * s) by lia.
    rewrite (oc_add_congr (256 * s) (wsum l1)) by (done || ulia).
    rewrite <-oc_add_l, <-(oc_add_l (x + 256 * y)) by ulia. do 2 f_equal. apply oc_eq; [ulia..|]. exists x. lia.
Qed.

(** ** The implementations *)

Lemma cond_fold s : 0 ≤ s < 4294967296 →
  (let acc := FOLD_U32T s in
   if negb (Z.land acc 4294901760 =? 0) then FOLD_U32T acc else acc) = oc s.
Proof.
  intros Hs. cbn zeta. destruct (FOLD_oc s Hs) as [Hoc Hr]. rewrite <-Hoc.
  destruct (_ =? 0) eqn:E; breflect; cbn [negb]; [|by apply FOLD_once].
  symmetry. apply oc_id. split; [lia|]. destruct (decide (FOLD_U32T s ≤ 65535)); [done|exfalso].
  set (x := FOLD_U32T s) in *. assert (Hb : Z.testbit (Z.land x 4294901760) 16 = true).
  { rewrite Z.land_spec. change (Z.testbit 4294901760 16) with true. rewrite andb_true_r.
    apply Z.testbit_true; [lia|]. change (2 ^ 16) with 65536. zlia. }
  rewrite E in Hb. discriminate Hb.
Qed.

(** The last byte, when one is left. *)
Lemma ld8_rest b a l l1 tl : mread b a (length l) = Some l → rest16 l l1 tl →
  zlen tl = 0 ∧ wsum l = wsum l1 ∧ tl = [] ∨
  ∃ x, tl = [x] ∧ ld8 b (a + zlen l1) = Ok x ∧ wsum l = wsum l1 + x.
Proof.
  intros Hl (-> & [->|[x ->]] & Hw).
  - left. split_and!; [done| |done]. rewrite Hw. simpl. lia.
  - right. exists x. split_and!; [done| |done]. unfold ld8.
    rewrite length_app in Hl. unfold zlen. rewrite (mread_lookup b a _ _ (length l1) Hl) by (simpl; lia).
    rewrite lookup_app_r, Nat.sub_diag by lia. done.
Qed.

Lemma lwip_standard_chksum_1_ok b a l :
  mread b a (length l) = Some l → Forall is_u8 l → zlen l ≤ 131072 →
  lwip_standard_chksum_1 b a (zlen l) = Ok (oc (wsum l)).
Proof.
  intros Hl Hu Hlen. unfold lwip_standard_chksum_1. pose proof (zlen_nonneg l).
  destruct (chksum1_loop_ok b l (Z.to_nat (zlen l)) a 0) as (l1 & tl & s & Hr & -> & Hs & Hoc);
    [done|done|unfold zlen; lia|lia|zlia|].
  cbn [mbind res_bind]. rewrite Z.add_0_l. pose proof (wsum_nonneg l Hu).
  assert (Hu1 : Forall is_u8 l1 ∧ Forall is_u8 tl) by (destruct Hr as (-> & _); by apply Forall_app in Hu).
  destruct Hu1 as [Hu1 Hut]. pose proof (wsum_nonneg l1 Hu1).
  assert (∃ total, 0 ≤ total < 4294967296 ∧ oc (256 * total) = oc (wsum l) ∧
    (if 0 <? zlen tl then x ← ld8 b (a + zlen l1); Ok (u32 (s + u16 (Z.shiftl x 8))) else Ok s) = Ok total)
    as (total & Ht & Hoct & ->).
  { destruct (ld8_rest b a l l1 tl Hl Hr) as [(-> & Hw & ->)|(x & -> & -> & Hw)].
    - exists s. rewrite Hw. split; [zlia|]. by split.
    - change (zlen [x]) with 1. cbn [Z.ltb Z.compare mbind res_bind]. apply Forall_cons in Hut as [Hx _].
      assert (Hlo : zlen l = zlen l1 + 1) by (destruct Hr as (-> & _); rewrite zlen_app; done).
      assert (Hev : zlen l / 2 ≤ 65536) by zlia. unfold is_u8 in Hx.
      rewrite Z.shiftl_mul_pow2, u16_id, u32_id by (unfold is_u16, is_u32; lia).
      exists (s + x * 2 ^ 8). split; [lia|]. split; [|done]. rewrite Hw.
      replace (256 * (s + x * 2 ^ 8)) with (256 * (256 * x) + 256 * s) by lia.
      rewrite (oc_add_congr (256 * s) (wsum l1)) by (done || lia).
      rewrite <-oc_add_l, oc_256_256, oc_add_l by lia. f_equal. lia. }
  cbn [mbind res_bind]. fold (FOLD_U32T total). pose proof (cond_fold total Ht) as Hc. cbn zeta in Hc.
  fold (FOLD_U32T (FOLD_U32T total)). rewrite Hc. pose proof (oc_range total). rewrite u16_id by ulia.
  rewrite htons_oc by lia. f_equal. rewrite <-Hoct. apply oc_congr; [lia|lia|lia|]. by rewrite oc_id.
Qed.

Lemma odd_addr a : negb (Z.land a 1 =? 0) = negb (a mod 2 =? 0).
Proof. by rewrite (land_ones_mod a 1 1) by (done || lia). Qed.

(** The word loop, the last byte, the folding and the swap, which versions 2 and 3
    share; [t] holds the byte before the first word in its high half. *)
Lemma words_and_end b a l sum t odd :
  mread b a (length l) = Some l → Forall is_u8 l → (l ≠ [] → a mod 2 = 0) → 0 ≤ sum → 0 ≤ t → t mod 256 = 0 →
  sum + wsum l + t < 4294967296 →
  ('(ps, len, sum) ← chksum16_loop (Z.to_nat (zlen l)) b a (zlen l) sum;
   t ← (if 0 <? len then x ← ld8 b ps; Ok (set_byte0 t x) else Ok t);
   Ok (u16 (if odd : bool then SWAP_BYTES_IN_WORD (FOLD_U32T (FOLD_U32T (u32 (sum + t))))
            else FOLD_U32T (FOLD_U32T (u32 (sum + t)))))) = Ok (oc (sh odd (sum + wsum l + t))).
Proof.
  intros Hl Hu Ha Hs Ht Htm Hb. pose proof (wsum_nonneg l Hu) as Hw0.
  assert (∃ l1 tl, rest16 l l1 tl ∧
    chksum16_loop (Z.to_nat (zlen l)) b a (zlen l) sum = Ok (a + zlen l1, zlen tl, sum + wsum l1))
    as (l1 & tl & Hr & ->).
  { destruct l as [|x l].
    - exists [], []. split; [by split_and!; [|left|]|]. cbn. by rewrite !Z.add_0_r.
    - apply chksum16_loop_ok; [done|done|by apply Ha|unfold zlen; lia|done|lia]. }
  cbn [mbind res_bind].
  assert (Hu1 : Forall is_u8 l1 ∧ Forall is_u8 tl) by (destruct Hr as (-> & _); by apply Forall_app in Hu).
  destruct Hu1 as [Hu1 Hut]. pose proof (wsum_nonneg l1 Hu1) as Hw1.
  assert (∃ t', sum + wsum l1 + t' = sum + wsum l + t ∧
    (if 0 <? zlen tl then x ← ld8 b (a + zlen l1); Ok (set_byte0 t x) else Ok t) = Ok t') as (t' & He & ->).
  { destruct (ld8_rest b a l l1 tl Hl Hr) as [(-> & Hw & ->)|(x & -> & -> & Hw)].
    - exists t. split; [lia|done].
    - change (zlen [x]) with 1. cbn [Z.ltb Z.compare mbind res_bind]. eexists. split; [|done].
      unfold set_byte0. rewrite Hw. zlia. }
  cbn [mbind res_bind]. rewrite He, u32_id by (unfold is_u32; lia). rewrite FOLD_twice by lia.
  set (S := sum + wsum l + t) in *. pose proof (oc_range S). unfold sh.
  destruct odd; [rewrite SWAP_oc by lia; pose proof (oc_range (256 * S))|]; by rewrite u16_id by ulia.
Qed.

Lemma lwip_standard_chksum_ok b a l :
  mread b a (length l) = Some l → Forall is_u8 l → zlen l ≤ 131072 →
  lwip_standard_chksum b a (zlen l) = Ok (oc (wsum l)).
Proof.
  intros Hl Hu Hlen. unfold lwip_standard_chksum. cbn zeta. rewrite odd_addr.
  destruct (a mod 2 =? 0) eqn:Eo; breflect; cbn [negb andb].
  - cbn [mbind res_bind]. pose proof (wsum_bound l Hu). pose proof (wsum_nonneg l Hu).
    rewrite (words_and_end b a l 0 0 false) by (done || zlia). do 2 f_equal. unfold sh. lia.
  - destruct l as [|x l].
    { reflexivity. }
    apply mread_cons in Hl as [Hx Hl]. apply Forall_cons in Hu as [Hux Hu]. rewrite zlen_cons in *.
    pose proof (zlen_nonneg l). pose proof (wsum_bound l Hu). pose proof (wsum_nonneg l Hu).
    replace (0 <? zlen l + 1) with true by lia. rewrite (ld8_ok b a x Hx). cbn [mbind res_bind].
    replace (zlen l + 1 - 1) with (zlen l) by lia. unfold set_byte1. change (0 mod 256) with 0. rewrite Z.add_0_r.
    unfold is_u8 in Hux. rewrite (words_and_end b (a + 1) l 0 (x * 256) true) by (done || zlia).
    f_equal. rewrite wsum_cons by done. unfold sh.
    replace (256 * (0 + wsum l + x * 256)) with (256 * (256 * x) + 256 * wsum l) by lia.
    by rewrite <-oc_add_l, oc_256_256, oc_add_l by lia.
Qed.

(** 32-bit addition with end-around carry. *)
Lemma add_carry s x : is_u32 s → is_u32 x →
  let t := (if u32 (s + x) <? s then u32 (u32 (s + x) + 1) else u32 (s + x)) in
  is_u32 t ∧ oc t = oc (s + x).
Proof.
  intros Hs Hx. unfold is_u32, u32 in *. cbn zeta. destruct (decide (s + x < 4294967296)).
  - rewrite Z.mod_small by lia. replace (s + x <? s) with false by lia. split; [lia|done].
  - replace ((s + x) mod 4294967296) with (s + x - 4294967296) by zlia.
    replace (s + x - 4294967296 <? s) with true by lia. rewrite Z.mod_small by lia. split; [lia|].
    apply oc_eq; [lia|lia|lia|]. exists (- 65537). lia.
Qed.

Lemma list_8 (l : list Z) : 7 < zlen l →
  ∃ x0 x1 x2 x3 x4 x5 x6 x7 l', l = x0 :: x1 :: x2 :: x3 :: x4 :: x5 :: x6 :: x7 :: l'.
Proof.
  unfold zlen. intros H. do 8 (destruct l as [|? l]; [simpl in H; lia|]). repeat eexists.
Qed.

Lemma chksum32_loop_ok b : ∀ fuel l a sum,
  mread b a (length l) = Some l → Forall is_u8 l → (7 < zlen l → a mod 4 = 0) → (length l ≤ fuel)%nat → is_u32 sum →
  ∃ l1 l2 s, l = l1 ++ l2 ∧ zlen l2 ≤ 7 ∧ odd_len l1 = false ∧ is_u32 s ∧ oc s = oc (sum + wsum l1) ∧
    chksum32_loop fuel b a (zlen l) sum = Ok (a + zlen l1, zlen l2, s).
Proof.
  induction fuel as [|fuel IH]; intros l a sum Hl Hu Ha Hf Hs.
  { destruct l; [|simpl in Hf; lia]. exists [], [], sum. cbn. rewrite !Z.add_0_r. done. }
  destruct (7 <? zlen l) eqn:E; breflect.
  2:{ exists [], l, sum. cbn [chksum32_loop]. replace (7 <? zlen l) with false by lia. cbn [wsum app].
      rewrite Z.add_0_r. split_and!; [done|lia|done|done..|]. by rewrite Z.add_0_r. }
  specialize (Ha E). destruct (list_8 l E) as (x0 & x1 & x2 & x3 & x4 & x5 & x6 & x7 & l' & ->).
  rewrite !Forall_cons in Hu. destruct Hu as (H0 & H1 & H2 & H3 & H4 & H5 & H6 & H7 & Hu).
  destruct (ld32_ok _ _ _ _ _ _ _ Hl) as [Hx Hl1]; [done|]. destruct (ld32_ok _ _ _ _ _ _ _ Hl1) as [Hy Hl2]; [zlia|].
  cbn [chksum32_loop]. replace (7 <? _) with true by lia. rewrite Hx, Hy. cbn [mbind res_bind].
  unfold is_u8 in *. set (X := x0 + 256 * x1 + 65536 * (x2 + 256 * x3)). set (Y := x4 + 256 * x5 + 65536 * (x6 + 256 * x7)).
  destruct (add_carry sum X Hs) as [Ht Hoct]; [subst X; unfold is_u32; lia|].
  set (t := if u32 (sum + X) <? sum then _ else _) in *.
  destruct (add_carry t Y Ht) as [Hs' Hocs]; [subst Y; unfold is_u32; lia|].
  set (s' := if u32 (t + Y) <? t then _ else _) in *. rewrite !zlen_cons.
  replace (zlen l' + 1 + 1 + 1 + 1 + 1 + 1 + 1 + 1 - 8) with (zlen l') by lia.
  replace (a + 8) with (a + 4 + 4) by lia.
  destruct (IH l' (a + 4 + 4) s') as (l1 & l2 & s & -> & Hl2' & Hodd & Hsu & Hocs' & ->);
    [done|done|zlia|simpl in Hf; lia|done|].
  exists (x0 :: x1 :: x2 :: x3 :: x4 :: x5 :: x6 :: x7 :: l1), l2, s.
  apply Forall_app in Hu as [Hu1 _]. pose proof (wsum_nonneg l1 Hu1).
  split_and!; [done|lia|by rewrite !odd_len_cons, Hodd|done| |rewrite !zlen_cons; do 3 f_equal; lia].
  rewrite Hocs'. unfold is_u32 in *. rewrite <-oc_add_l, Hocs, oc_add_l by (subst X Y; lia).
  replace (t + Y + wsum l1) with (t + (Y + wsum l1)) by lia.
  rewrite <-oc_add_l, Hoct, oc_add_l by (subst X Y; lia). cbn [wsum].
  apply oc_eq; [subst X Y; lia|lia|subst X Y; lia|]. exists (x2 + 256 * x3 + (x6 + 256 * x7)). subst X Y. lia.
Qed.

Lemma addr_mod4 a : Z.land a 3 = a mod 4.
Proof. by apply (land_ones_mod a 2). Qed.

Lemma longs_and_end b a l sum t odd :
  mread b a (length l) = Some l → Forall is_u8 l → (l ≠ [] → a mod 2 = 0) → (7 < zlen l → a mod 4 = 0) →
  0 ≤ sum ≤ 65535 → 0 ≤ t ≤ 65280 → t mod 256 = 0 →
  ('(pl, len, sum) ← chksum32_loop (Z.to_nat (zlen l)) b a (zlen l) sum;
   '(ps, len, sum) ← chksum16_loop (Z.to_nat len) b pl len (FOLD_U32T sum);
   t ← (if 0 <? len then x ← ld8 b ps; Ok (set_byte0 t x) else Ok t);
   Ok (u16 (if odd : bool then SWAP_BYTES_IN_WORD (FOLD_U32T (FOLD_U32T (u32 (sum + t))))
            else FOLD_U32T (FOLD_U32T (u32 (sum + t)))))) = Ok (oc (sh odd (sum + wsum l + t))).
Proof.
  intros Hl Hu Ha2 Ha4 Hs Ht Htm.
  destruct (chksum32_loop_ok b (Z.to_nat (zlen l)) l a sum) as (l1 & l2 & s & -> & Hl2 & Hodd & Hsu & Hoc & ->);
    [done|done|done|unfold zlen; lia|unfold is_u32; lia|].
  cbn [mbind res_bind]. apply Forall_app in Hu as [Hu1 Hu2].
  pose proof (wsum_nonneg l1 Hu1). pose proof (wsum_nonneg l2 Hu2). pose proof (wsum_bound l2 Hu2).
  assert (Hu12 : Forall is_u8 (l1 ++ l2)) by (by apply Forall_app). pose proof (wsum_nonneg _ Hu12).
  unfold is_u32 in Hsu. destruct (FOLD_oc s Hsu) as [Hf Hfr].
  rewrite (words_and_end b (a + zlen l1) l2 (FOLD_U32T s) t odd); [|..|zlia]; try done; try lia.
  - f_equal. apply sh_congr; [lia|lia|].
    replace (FOLD_U32T s + wsum l2 + t) with (FOLD_U32T s + (wsum l2 + t)) by lia.
    rewrite <-oc_add_l, Hf, Hoc, oc_add_l by lia.
    replace (sum + wsum l1 + (wsum l2 + t)) with (sum + t + (wsum l1 + wsum l2)) by lia.
    replace (sum + wsum (l1 ++ l2) + t) with (sum + t + wsum (l1 ++ l2)) by lia.
    symmetry. apply oc_add_congr; [lia|lia|lia|]. rewrite wsum_app by done. by rewrite Hodd.
  - rewrite length_app, mread_app in Hl. destruct (mread b a (length l1)) as [k|] eqn:Ek; simplify_eq/=.
    destruct (mread b (a + Z.of_nat (length l1)) (length l2)) as [k'|] eqn:Ek'; simplify_eq/=.
    apply app_inj_1 in Hl as [-> ->]; [done|]. by rewrite (mread_length _ _ _ _ Ek).
  - intros Hne. assert (Hl0 : l1 ++ l2 ≠ []) by (destruct l1; [done|discriminate]). specialize (Ha2 Hl0).
    unfold odd_len in Hodd. breflect. zlia.
Qed.

(** The 16-bit word that aligns the pointer to 32 bits. *)
Lemma align_and_end b a l t odd :
  mread b a (length l) = Some l → Forall is_u8 l → (l ≠ [] → a mod 2 = 0) → 0 ≤ t ≤ 65280 → t mod 256 = 0 →
  ('(ps, len, sum) ← (if negb (Z.land a 3 =? 0) && (1 <? zlen l)
                      then x ← ld16 b a; Ok (a + 2, zlen l - 2, u32 (0 + x)) else Ok (a, zlen l, 0));
   '(pl, len, sum) ← chksum32_loop (Z.to_nat len) b ps len sum;
   '(ps, len, sum) ← chksum16_loop (Z.to_nat len) b pl len (FOLD_U32T sum);
   t ← (if 0 <? len then x ← ld8 b ps; Ok (set_byte0 t x) else Ok t);
   Ok (u16 (if odd : bool then SWAP_BYTES_IN_WORD (FOLD_U32T (FOLD_U32T (u32 (sum + t))))
            else FOLD_U32T (FOLD_U32T (u32 (sum + t)))))) = Ok (oc (sh odd (wsum l + t))).
Proof.
  intros Hl Hu Ha2 Ht Htm. rewrite addr_mod4.
  destruct (negb (a mod 4 =? 0) && (1 <? zlen l)) eqn:E.
  - breflect. destruct l as [|x [|y l]]; [done|done|]. specialize (Ha2 ltac:(done)).
    destruct (ld16_ok _ _ _ _ _ Hl) as [-> Hl']; [done|]. cbn [mbind res_bind].
    rewrite !Forall_cons in Hu. destruct Hu as (Hx & Hy & Hu). unfold is_u8 in Hx, Hy.
    rewrite !zlen_cons. replace (zlen l + 1 + 1 - 2) with (zlen l) by lia.
    rewrite u32_id by (unfold is_u32; lia). rewrite Z.add_0_l.
    by rewrite (longs_and_end b (a + 2) l) by (done || zlia).
  - cbn [mbind res_bind]. rewrite (longs_and_end b a l) by (try done; try lia;
      intros Hlen; replace (1 <? zlen l) with true in E by lia; rewrite andb_true_r in E; breflect; done).
    done.
Qed.

Lemma lwip_standard_chksum_3_ok b a l :
  mread b a (length l) = Some l → Forall is_u8 l → lwip_standard_chksum_3 b a (zlen l) = Ok (oc (wsum l)).
Proof.
  intros Hl Hu. unfold lwip_standard_chksum_3. cbn zeta. rewrite odd_addr.
  destruct (a mod 2 =? 0) eqn:Eo; breflect; cbn [negb andb].
  - cbn [mbind res_bind]. rewrite (align_and_end b a l 0 false) by (done || lia). by rewrite Z.add_0_r.
  - destruct l as [|x l].
    { change (0 <? zlen (@nil Z)) with false. cbn [mbind res_bind].
      by rewrite (align_and_end b a [] 0 true) by (done || lia). }
    apply mread_cons in Hl as [Hx Hl]. apply Forall_cons in Hu as [Hux Hu]. rewrite zlen_cons.
    pose proof (zlen_nonneg l). pose proof (wsum_nonneg l Hu).
    replace (0 <? zlen l + 1) with true by lia. rewrite (ld8_ok b a x Hx). cbn [mbind res_bind].
    replace (zlen l + 1 - 1) with (zlen l) by lia. unfold set_byte1. change (0 mod 256) with 0. rewrite Z.add_0_r.
    unfold is_u8 in Hux. rewrite (align_and_end b (a + 1) l (x * 256) true) by (done || zlia).
    f_equal. rewrite wsum_cons by done. unfold sh.
    replace (256 * (wsum l + x * 256)) with (256 * (256 * x) + 256 * wsum l) by lia.
    by rewrite <-oc_add_l, oc_256_256, oc_add_l by lia.
Qed.

(** C10: The three implementations agree.  For every buffer at every alignment, of up
    to 0x20000 bytes for versions 1 and 2 and of any length for version 3, no load
    is misaligned or outside the buffer, no intermediate sum overflows and the
    result is the 16-bit one's complement sum of the little-endian words. *)
Theorem chksum_versions_agree b a l :
  mread b a (length l) = Some l → Forall is_u8 l →
  lwip_standard_chksum_3 b a (zlen l) = Ok (oc (wsum l)) ∧
  (zlen l ≤ 131072 → lwip_standard_chksum b a (zlen l) = Ok (oc (wsum l)) ∧
                     lwip_standard_chksum_1 b a (zlen l) = Ok (oc (wsum l))).
Proof.
  intros Hl Hu. split; [by apply lwip_standard_chksum_3_ok|]. intros Hlen.
  split; [by apply lwip_standard_chksum_ok|by apply lwip_standard_chksum_1_ok].
Qed.

Lemma chksum_versions_agree_witness :
  mread (mwrite ∅ 1001 (seqZ 1 21)) 1001 21 = Some (seqZ 1 21) ∧
  lwip_standard_chksum (mwrite ∅ 1001 (seqZ 1 21)) 1001 21 = Ok 28281 ∧
  lwip_standard_chksum_3 (mwrite ∅ 1001 (seqZ 1 21)) 1001 21 = Ok 28281.
Proof.
  split; [vm_compute; reflexivity|].
  destruct (chksum_versions_agree (mwrite ∅ 1001 (seqZ 1 21)) 1001 (seqZ 1 21)) as [H3 H12];
    [vm_compute; reflexivity|apply Forall_forall; intros x Hx%elem_of_seqZ; unfold is_u8; lia|].
  change (zlen (seqZ 1 21)) with 21 in H3, H12. destruct H12 as [H2 _]; [lia|].
  rewrite H2, H3. split; reflexivity.
Defined.

(** ** Checksums of buffers and of pbuf chains *)

Lemma complement_16 x : 0 ≤ x ≤ 65535 → u16 (Z.lnot x) = 65535 - x.
Proof. intros. unfold Z.lnot. ulia. Qed.

Lemma land_16 x : 0 ≤ x ≤ 65535 → Z.land x 65535 = x.
Proof. intros. rewrite (land_ones_mod x 16) by (done || lia). apply Z.mod_small. lia. Qed.

Lemma inet_chksum_ok b a l :
  mread b a (length l) = Some l → Forall is_u8 l → zlen l ≤ 131072 →
  inet_chksum b a (zlen l) = Ok (65535 - oc (wsum l)).
Proof.
  intros Hl Hu Hlen. unfold inet_chksum, LWIP_CHKSUM. rewrite lwip_standard_chksum_ok by done.
  cbn [mbind res_bind]. by rewrite complement_16 by apply oc_range.
Qed.

Lemma sh_add k a b : sh k (a + b) = sh k a + sh k b.
Proof. unfold sh. destruct k; lia. Qed.

Lemma sh_xorb k j a : 0 ≤ a → oc (sh k (sh j a)) = oc (sh (xorb k j) a).
Proof. intros. unfold sh. destruct k, j; simpl; [by apply oc_256_256|done..]. Qed.

Lemma chain_step W k x : 0 ≤ W → 0 ≤ x →
  FOLD_U32T (u32 (oc (sh k W) + oc x)) = oc (sh k (W + sh k x)).
Proof.
  intros HW Hx. pose proof (sh_nonneg k W HW). pose proof (sh_nonneg k x Hx). pose proof (sh_nonneg k (sh k x)).
  pose proof (oc_range (sh k W)). pose proof (oc_range x). rewrite u32_id by (unfold is_u32; lia).
  rewrite FOLD_once by lia. rewrite sh_add, oc_add_l by lia. apply oc_add_congr; [lia..|].
  rewrite sh_sh by done. by apply oc_id, oc_range.
Qed.

Lemma len_odd (q : pbuf) (c : list Z) : zlen c = len q → negb (len q mod 2 =? 0) = odd_len c.
Proof. unfold odd_len. by intros ->. Qed.

(** The sum of the bytes of two consecutive segments. *)
Lemma segments_sum W k c1 c2 : 0 ≤ W → Forall is_u8 c1 → Forall is_u8 c2 →
  oc (W + sh k (wsum c1) + sh (xorb k (odd_len c1)) (wsum c2)) = oc (W + sh k (wsum (c1 ++ c2))).
Proof.
  intros HW Hu1 Hu2. pose proof (wsum_nonneg c1 Hu1). pose proof (wsum_nonneg c2 Hu2).
  assert (Hu : Forall is_u8 (c1 ++ c2)) by (by apply Forall_app). pose proof (wsum_nonneg _ Hu).
  repeat match goal with |- context [sh ?j ?x] => lazymatch goal with
    | _ : 0 ≤ sh j x |- _ => fail | _ => pose proof (sh_nonneg j x ltac:(lia)) end end.
  rewrite <-Z.add_assoc. apply oc_add_congr; [lia|lia|lia|].
  rewrite (sh_congr k (wsum (c1 ++ c2)) (wsum c1 + sh (odd_len c1) (wsum c2)))
    by (try apply wsum_app; try done; pose proof (sh_nonneg (odd_len c1) (wsum c2)); lia).
  rewrite sh_add. apply oc_add_congr; [lia| |lia|].
  - apply sh_nonneg, sh_nonneg. lia.
  - rewrite sh_xorb; [done|lia].
Qed.

Section chain_facts.
Context {A : Type}.
Implicit Types s : pstate A.

Lemma chksum_segment s q c1 : mread (dat s) (payload q) (Z.to_nat (len q)) = Some c1 → Forall is_u8 c1 →
  0 ≤ len q ≤ 65535 → LWIP_CHKSUM (dat s) (payload q) (len q) = Ok (oc (wsum c1)) ∧ zlen c1 = len q.
Proof.
  intros Hc Hu Hl. pose proof (mread_length _ _ _ _ Hc) as Hlen.
  assert (Hz : zlen c1 = len q) by (unfold zlen; lia). split; [|done]. unfold LWIP_CHKSUM.
  rewrite <-Hz. apply lwip_standard_chksum_ok; [by rewrite Hlen|done|lia].
Qed.

Lemma chksum_chain_loop_ok l : ∀ fuel p c W k s,
  chain (pb s) p l → lens_ok l → content (dat s) l = Some c → Forall is_u8 c → (length l ≤ fuel)%nat → 0 ≤ W →
  chksum_chain_loop fuel p (oc (sh k W)) k s =
    Ok (oc (sh (xorb k (odd_len c)) (W + sh k (wsum c))), xorb k (odd_len c)).
Proof.
  induction l as [|[a q] l IH]; intros fuel p c W k s Hch Hl Hc Hu Hf HW.
  { simpl in Hch, Hc. simplify_eq. simpl. destruct fuel; simpl; rewrite xorb_false_r;
      (replace (sh k 0) with 0 by (by destruct k)); by rewrite Z.add_0_r. }
  destruct Hch as (-> & Ha & Hch). destruct Hl as (Hl0 & Ht & Htl & Hl). simpl in Hc.
  destruct (mread (dat s) (payload q) (Z.to_nat (len q))) as [c1|] eqn:Ec1; simplify_eq/=.
  destruct (content (dat s) l) as [c2|] eqn:Ec2; simplify_eq/=. apply Forall_app in Hu as [Hu1 Hu2].
  destruct fuel as [|fuel]; [simpl in Hf; lia|]. cbn [chksum_chain_loop]. unfold getp. rewrite Ha. cbn [deref mbind res_bind].
  assert (0 ≤ bytes_in l) by (by apply lens_ok_range).
  destruct (chksum_segment s q c1 Ec1 Hu1) as [-> Hz]; [lia|]. cbn [mbind res_bind].
  pose proof (wsum_nonneg c1 Hu1) as Hw1. pose proof (wsum_nonneg c2 Hu2) as Hw2.
  rewrite chain_step by done. rewrite (len_odd q c1 Hz). pose proof (sh_nonneg k _ Hw1) as Hs1.
  assert (Hgoal : ∀ k1, k1 = xorb k (odd_len c1) →
    chksum_chain_loop fuel (next q) (oc (sh k1 (W + sh k (wsum c1)))) k1 s =
    Ok (oc (sh (xorb k (odd_len (c1 ++ c2))) (W + sh k (wsum (c1 ++ c2)))), xorb k (odd_len (c1 ++ c2)))).
  { intros k1 ->. rewrite (IH fuel (next q) c2) by (done || (simpl in Hf; lia)).
    rewrite odd_len_app, <-xorb_assoc. do 2 f_equal. apply sh_congr; [| |by apply segments_sum].
    - pose proof (sh_nonneg (xorb k (odd_len c1)) _ Hw2). lia.
    - assert (Hw12 : 0 ≤ wsum (c1 ++ c2)) by (apply wsum_nonneg; by apply Forall_app).
      pose proof (sh_nonneg k _ Hw12). lia. }
  destruct (odd_len c1).
  - rewrite SWAP_oc, sh_negb by (try apply sh_nonneg; lia). apply Hgoal. by destruct k.
  - apply Hgoal. by destruct k.
Qed.

(** Whatever the loop did, undoing the last swap leaves the plain sum. *)
Lemma unswap (k : bool) W : 0 ≤ W → (if k then SWAP_BYTES_IN_WORD (oc (sh k W)) else oc (sh k W)) = oc W.
Proof. intros HW. destruct k; [|done]. rewrite SWAP_oc by (by apply sh_nonneg). by apply oc_256_256. Qed.

Lemma inet_chksum_pbuf_ok s p l c :
  chain (pb s) p l → lens_ok l → content (dat s) l = Some c → Forall is_u8 c →
  inet_chksum_pbuf p s = Ok (65535 - oc (wsum c)).
Proof.
  intros Hch Hl Hc Hu. unfold inet_chksum_pbuf. change 0 with (oc (sh false 0)) at 1.
  rewrite (chksum_chain_loop_ok l _ p c 0 false) by (try done; apply chain_fuel_enough in Hch; lia).
  cbn [mbind res_bind]. pose proof (wsum_nonneg c Hu) as Hw. change (sh false (wsum c)) with (wsum c).
  rewrite Z.add_0_l, unswap by done. pose proof (oc_range (wsum c)). by rewrite land_16, complement_16 by lia.
Qed.

(** ** Pseudo headers *)

Lemma base_end W c proto proto_len (k : bool) :
  0 ≤ W → is_u8 proto → is_u16 proto_len → Forall is_u8 c →
  (let acc := if k then SWAP_BYTES_IN_WORD (oc (sh k (W + wsum c))) else oc (sh k (W + wsum c)) in
   u16 (Z.lnot (Z.land (FOLD_U32T (FOLD_U32T (u32 (u32 (acc + lwip_htons proto) + lwip_htons proto_len)))) 65535))) =
  65535 - oc (W + (256 * proto + (proto_len / 256 + 256 * (proto_len mod 256))) + wsum c).
Proof.
  intros HW Hp Hpl Hu. pose proof (wsum_nonneg c Hu). cbn zeta. rewrite unswap by lia.
  pose proof (oc_range (W + wsum c)) as Hr. unfold lwip_htons. rewrite !PP_HTONS_eq by ulia.
  unfold is_u8, is_u16 in *. replace (proto mod 256 * 256 + proto / 256) with (256 * proto) by zlia.
  assert (0 ≤ proto_len mod 256 * 256 + proto_len / 256 ≤ 65535) by zlia.
  rewrite (u32_id (oc _ + 256 * proto)) by (unfold is_u32; lia). rewrite u32_id by (unfold is_u32; lia).
  rewrite FOLD_twice by lia. rewrite land_16, complement_16 by apply oc_range. f_equal.
  rewrite <-Z.add_assoc, oc_add_l by lia. f_equal. lia.
Qed.

Lemma inet_cksum_pseudo_base_ok s p l c W proto proto_len :
  chain (pb s) p l → lens_ok l → content (dat s) l = Some c → Forall is_u8 c →
  0 ≤ W → is_u8 proto → is_u16 proto_len →
  inet_cksum_pseudo_base p proto proto_len (oc W) s =
    Ok (65535 - oc (W + (256 * proto + (proto_len / 256 + 256 * (proto_len mod 256))) + wsum c)).
Proof.
  intros Hch Hl Hc Hu HW Hp Hpl. unfold inet_cksum_pseudo_base. change (oc W) with (oc (sh false W)).
  rewrite (chksum_chain_loop_ok l _ p c W false) by (try done; apply chain_fuel_enough in Hch; lia).
  cbn [mbind res_bind]. change (sh false (wsum c)) with (wsum c). f_equal. by apply base_end.
Qed.

Lemma chksum_partial_loop_ok l : ∀ fuel p c n W k s,
  chain (pb s) p l → lens_ok l → content (dat s) l = Some c → Forall is_u8 c → (length l ≤ fuel)%nat → 0 ≤ W →
  is_u16 n → (match l with [] => True | (_, q) :: _ => n - len q < 32767 end) →
  ∃ k', chksum_partial_loop fuel p n (oc (sh k W)) k s =
    Ok (oc (sh k' (W + sh k (wsum (take (Z.to_nat n) c)))), k').
Proof.
  induction l as [|[a q] l IH]; intros fuel p c n W k s Hch Hl Hc Hu Hf HW Hn Hd.
  { simpl in Hch, Hc. simplify_eq. rewrite take_nil. exists k. simpl. replace (sh k 0) with 0 by (by destruct k).
    rewrite Z.add_0_r. by destruct fuel. }
  destruct Hch as (-> & Ha & Hch). destruct Hl as (Hl0 & Ht & Htl & Hl). simpl in Hc.
  destruct (decide (n = 0)) as [->|Hn0].
  { exists k. simpl. replace (sh k 0) with 0 by (by destruct k). rewrite Z.add_0_r. by destruct fuel. }
  destruct (mread (dat s) (payload q) (Z.to_nat (len q))) as [c1|] eqn:Ec1; simplify_eq/=.
  destruct (content (dat s) l) as [c2|] eqn:Ec2; simplify_eq/=. apply Forall_app in Hu as [Hu1 Hu2].
  destruct fuel as [|fuel]; [simpl in Hf; lia|]. cbn [chksum_partial_loop].
  unfold is_u16 in Hn. replace (0 <? n) with true by lia. unfold getp. rewrite Ha. cbn [deref mbind res_bind].
  assert (Hbl : 0 ≤ bytes_in l) by (by apply lens_ok_range).
  set (m := if n <? len q then n else len q).
  assert (Hm : m = Z.min n (len q)) by (subst m; destruct (Z.ltb_spec n (len q)); lia). clearbody m. subst m.
  pose proof (mread_length _ _ _ _ Ec1) as Hlen1.
  assert (Hz1 : zlen c1 = len q) by (unfold zlen; lia).
  set (d1 := take (Z.to_nat (Z.min n (len q))) c1). assert (Hud : Forall is_u8 d1) by (by apply Forall_take).
  assert (Hzd : zlen d1 = Z.min n (len q)) by (unfold zlen, d1; rewrite length_take; lia).
  assert (Hck : LWIP_CHKSUM (dat s) (payload q) (Z.min n (len q)) = Ok (oc (wsum d1))).
  { rewrite <-Hzd. apply lwip_standard_chksum_ok; [|done|lia].
    pose proof (mread_slice _ _ _ _ 0 (Z.min n (len q)) Ec1) as Hr. rewrite Z.add_0_r in Hr. unfold slice in Hr.
    rewrite drop_0 in Hr. replace (length d1) with (Z.to_nat (Z.min n (len q))) by (unfold zlen in Hzd; lia).
    apply Hr; lia. }
  rewrite Hck. cbn [mbind res_bind]. rewrite u16_id by (unfold is_u16; lia).
  replace (n - Z.min n (len q) <? 32767) with true by lia. cbn [LWIP_ASSERT mbind res_bind].
  pose proof (wsum_nonneg d1 Hud) as Hw1. rewrite chain_step by done. rewrite (len_odd q c1 Hz1).
  pose proof (sh_nonneg k _ Hw1) as Hs1.
  set (k1 := xorb k (odd_len c1)).
  assert (Hgoal : ∃ k', chksum_partial_loop fuel (next q) (n - Z.min n (len q)) (oc (sh k1 (W + sh k (wsum d1)))) k1 s =
    Ok (oc (sh k' (W + sh k (wsum (take (Z.to_nat n) (c1 ++ c2))))), k')).
  { destruct (decide (n < len q)) as [Hlt|Hge].
    - replace (Z.min n (len q)) with n by lia. rewrite Z.sub_diag. exists k1.
      rewrite take_app_le by lia. subst d1. replace (Z.min n (len q)) with n by lia. by destruct (next q), fuel.
    - assert (Hd1 : d1 = c1) by (subst d1; apply take_ge; unfold zlen in Hz1; lia).
      replace (Z.min n (len q)) with (len q) by lia.
      destruct (IH fuel (next q) c2 (n - len q) (W + sh k (wsum d1)) k1 s) as [k' ->];
        [done|done|done|done|simpl in Hf; lia|lia|unfold is_u16; lia|destruct l as [|[? q2] l]; [done|]; destruct Hl; lia|].
      exists k'. do 2 f_equal. rewrite take_app_ge by lia. rewrite Hd1.
      replace (Z.to_nat n - length c1)%nat with (Z.to_nat (n - len q)) by (unfold zlen in Hz1; lia).
      assert (Hut : Forall is_u8 (take (Z.to_nat (n - len q)) c2)) by (by apply Forall_take).
      pose proof (wsum_nonneg _ Hut) as Hwt. pose proof (wsum_nonneg c1 Hu1).
      apply sh_congr; [| |by apply segments_sum].
      + pose proof (sh_nonneg k1 _ Hwt). pose proof (sh_nonneg k (wsum c1)). lia.
      + assert (Hw12 : 0 ≤ wsum (c1 ++ take (Z.to_nat (n - len q)) c2)) by (apply wsum_nonneg; by apply Forall_app).
        pose proof (sh_nonneg k _ Hw12). lia. }
  subst k1. destruct (odd_len c1).
  - rewrite SWAP_oc, sh_negb by (try apply sh_nonneg; lia).
    replace (xorb k true) with (negb k) in Hgoal by (by destruct k). exact Hgoal.
  - by rewrite xorb_false_r in Hgoal.
Qed.

End chain_facts.
