(* ===== verification/ChksumPseudo.v ===== *)
(** * Internet checksums: packets and pseudo headers

    What TCP, UDP and ICMP rely on: the checksum of a pbuf chain depends on the
    packet's bytes only, not on how the chain cuts them; a stored checksum makes
    the verification sum zero; the pseudo-header checksums are those of RFC 793
    (IPv4) and RFC 2460 (IPv6), partial ones cover a prefix of the payload. *)

From S2P Require Import Prelude ByteMem Def IpAddr Pbuf PbufFacts PbufData Chksum ChksumFacts.

(** ** The pseudo header as bytes *)

Definition le32 (w : Z) : list Z := [w mod 256; w / 256 mod 256; w / 65536 mod 256; w / 16777216].

Definition pseudo4 (src dest proto proto_len : Z) : list Z :=
  le32 src ++ le32 dest ++ [0; proto; proto_len / 256; proto_len mod 256].

Definition pseudo6 (src dest : ip6_addr) (proto proto_len : Z) : list Z :=
  flat_map le32 (addr src) ++ flat_map le32 (addr dest) ++
  [0; 0; proto_len / 256; proto_len mod 256; 0; 0; 0; proto].

(** The words of an address are in network byte order, so [le32] lists its bytes
    in the order they have on the wire. *)
Definition pseudo_header (src dest : ip_addr) (proto proto_len : Z) : list Z :=
  if IP_IS_V6 dest then pseudo6 (u_addr src) (u_addr dest) proto proto_len
  else pseudo4 (nth 0 (addr (u_addr src)) 0) (nth 0 (addr (u_addr dest)) 0) proto proto_len.

Lemma le32_wsum w l : is_u32 w → wsum (le32 w ++ l) = w mod 65536 + w / 65536 + wsum l.
Proof. intros Hw. cbn [le32 app wsum]. ulia. Qed.

Lemma le32_half w : is_u32 w → 0 ≤ w mod 65536 + w / 65536 ≤ 131070.
Proof. ulia. Qed.

Lemma add_addr_eq acc w : 0 ≤ acc ≤ 2147483647 → is_u32 w →
  add_addr acc w = acc + (w mod 65536 + w / 65536).
Proof.
  intros Ha Hw. unfold add_addr. rewrite !(land_ones_mod _ 16) by (done || lia).
  rewrite Z.shiftr_div_pow2 by lia. change (2 ^ 16) with 65536. pose proof (le32_half w Hw).
  replace (w / 65536 mod 65536) with (w / 65536) by ulia.
  assert (0 ≤ w mod 65536 < 65536) by zlia. assert (0 ≤ w / 65536) by ulia.
  rewrite (u32_id (acc + _)), u32_id by (unfold is_u32; lia). lia.
Qed.

(** Evaluate nested [add_addr]s from the inside. *)
Ltac add_addrs := repeat match goal with
  | |- context [add_addr ?acc ?w] =>
      lazymatch acc with context [add_addr] => fail | _ => rewrite (add_addr_eq acc w) by (done || lia) end
  end.

Lemma ip6_addr_loop_ok src dest : ip6_ok src → ip6_ok dest →
  ∃ W, ip6_addr_loop 4 src dest 0 0 = Ok W ∧ 0 ≤ W ≤ 1048560 ∧
    ∀ l, wsum (flat_map le32 (addr src) ++ flat_map le32 (addr dest) ++ l) = W + wsum l.
Proof.
  intros (a0 & a1 & a2 & a3 & Ha & Ha0 & Ha1 & Ha2 & Ha3)%ip6_ok_words
         (b0 & b1 & b2 & b3 & Hb & Hb0 & Hb1 & Hb2 & Hb3)%ip6_ok_words.
  cbn [ip6_addr_loop]. pose proof (le32_half a0 Ha0). pose proof (le32_half a1 Ha1). pose proof (le32_half a2 Ha2).
  pose proof (le32_half a3 Ha3). pose proof (le32_half b0 Hb0). pose proof (le32_half b1 Hb1).
  pose proof (le32_half b2 Hb2). pose proof (le32_half b3 Hb3).
  destruct (addr_word_4 src _ _ _ _ Ha) as (-> & -> & -> & ->), (addr_word_4 dest _ _ _ _ Hb) as (-> & -> & -> & ->).
  cbn [mbind res_bind]. add_addrs. rewrite Ha, Hb. eexists. split; [done|]. split; [lia|]. intros l. cbn [flat_map]. rewrite <-!app_assoc. cbn [app].
  rewrite !le32_wsum by done. lia.
Qed.

(** ** Flat buffers and chains *)

(** The checksum of a packet does not depend on how the pbufs cut it: for every
    chain, pbufs of odd length included, inet_chksum_pbuf ends and returns the
    inverted one's complement sum of the packet's bytes, which is what inet_chksum
    returns for the same bytes in one buffer at any address. *)
Theorem inet_chksum_pbuf_flat {A} (s : pstate A) p l c b a :
  chain (pb s) p l → lens_ok l → content (dat s) l = Some c → Forall is_u8 c →
  mread b a (length c) = Some c →
  inet_chksum_pbuf p s = Ok (65535 - oc (wsum c)) ∧ inet_chksum b a (zlen c) = inet_chksum_pbuf p s.
Proof.
  intros Hch Hl Hc Hu Hb. rewrite (inet_chksum_pbuf_ok s p l c) by done. split; [done|].
  apply inet_chksum_ok; [done|done|]. rewrite (content_length _ _ _ Hl Hc). apply lens_ok_range in Hl. lia.
Qed.

Lemma wsum_even_app l1 l2 : odd_len l1 = false → wsum (l1 ++ l2) = wsum l1 + wsum l2.
Proof.
  induction l1 as [|x|x y l1 IH] using pair_ind; [done|done|].
  rewrite !odd_len_cons, negb_involutive. intros H. cbn [app wsum]. rewrite IH by done. lia.
Qed.

(** Storing the checksum makes the check succeed: take any data with a checksum
    field of zero at an even offset, store inet_chksum of the data there as a
    little-endian host stores a u16_t, and inet_chksum of the result is 0. *)
Theorem inet_chksum_verifies b a b' l1 l2 ck :
  odd_len l1 = false → Forall is_u8 l1 → Forall is_u8 l2 → zlen (l1 ++ [0; 0] ++ l2) ≤ 131072 →
  mread b a (length (l1 ++ [0; 0] ++ l2)) = Some (l1 ++ [0; 0] ++ l2) →
  inet_chksum b a (zlen (l1 ++ [0; 0] ++ l2)) = Ok ck →
  mread b' a (length (l1 ++ [0; 0] ++ l2)) = Some (l1 ++ [ck mod 256; ck / 256] ++ l2) →
  inet_chksum b' a (zlen (l1 ++ [0; 0] ++ l2)) = Ok 0.
Proof.
  intros Hodd H1 H2 Hlen Hb Hck Hb'.
  assert (Hu : Forall is_u8 (l1 ++ [0; 0] ++ l2)).
  { apply Forall_app. split; [done|]. repeat constructor; done. }
  pose proof (wsum_nonneg _ Hu) as Hw. rewrite inet_chksum_ok in Hck by done. injection Hck as <-.
  set (S := wsum (l1 ++ [0; 0] ++ l2)) in *. pose proof (oc_range S) as Hr. set (ck := 65535 - oc S) in *.
  assert (Hu' : Forall is_u8 (l1 ++ [ck mod 256; ck / 256] ++ l2)).
  { apply Forall_app. split; [done|]. apply Forall_app. split; [|done].
    repeat constructor; unfold is_u8; zlia. }
  replace (length (l1 ++ [0; 0] ++ l2)) with (length (l1 ++ [ck mod 256; ck / 256] ++ l2)) in Hb'
    by (rewrite !length_app; done).
  replace (zlen (l1 ++ [0; 0] ++ l2)) with (zlen (l1 ++ [ck mod 256; ck / 256] ++ l2)) in *
    by (rewrite !zlen_app; done).
  rewrite inet_chksum_ok by done.
  assert (HS : wsum (l1 ++ [ck mod 256; ck / 256] ++ l2) = S + ck).
  { subst S. rewrite !wsum_even_app by done. cbn [app wsum]. zlia. }
  rewrite HS. f_equal. enough (oc (S + ck) = 65535) by lia. destruct (oc_spec S Hw) as [Hz [k Hk]].
  transitivity (oc 65535); [|done]. apply oc_eq; [lia|lia|lia|]. exists k. lia.
Qed.

(** ** Pseudo-header checksums *)

Lemma pseudo_sum src dest proto proto_len :
  ip6_ok (u_addr src) → ip6_ok (u_addr dest) → is_u8 proto → is_u16 proto_len →
  ∃ W, 0 ≤ W ∧
    (∀ l, wsum (pseudo_header src dest proto proto_len ++ l) =
          W + (256 * proto + (proto_len / 256 + 256 * (proto_len mod 256))) + wsum l) ∧
    (∀ A p (s : pstate A), ip_chksum_pseudo p proto proto_len src dest s =
                           inet_cksum_pseudo_base p proto proto_len (oc W) s) ∧
    (∀ A p n (s : pstate A), ip_chksum_pseudo_partial p proto proto_len n src dest s =
                             inet_cksum_pseudo_partial_base p proto proto_len n (oc W) s).
Proof.
  intros Hs Hd Hp Hpl. unfold pseudo_header, ip_chksum_pseudo, ip_chksum_pseudo_partial, ip_2_ip6.
  destruct (IP_IS_V6 dest).
  - destruct (ip6_addr_loop_ok _ _ Hs Hd) as (W & HW & Hr & Hsum). exists W. split; [lia|]. split; [|split].
    + intros l. unfold pseudo6. rewrite <-!app_assoc, Hsum. cbn [app wsum]. lia.
    + intros. unfold ip6_chksum_pseudo. rewrite HW. cbn [mbind res_bind]. by rewrite FOLD_twice by lia.
    + intros. unfold ip6_chksum_pseudo_partial. rewrite HW. cbn [mbind res_bind]. by rewrite FOLD_twice by lia.
  - destruct (ip6_ok_words _ Hs) as (a & ? & ? & ? & Ha & Hua & _), (ip6_ok_words _ Hd) as (b & ? & ? & ? & Hb & Hub & _).
    unfold ip_2_ip4. destruct (addr_word_4 _ _ _ _ _ Ha) as (-> & _), (addr_word_4 _ _ _ _ _ Hb) as (-> & _).
    rewrite Ha, Hb. cbn [mbind res_bind nth].
    pose proof (le32_half a Hua). pose proof (le32_half b Hub).
    exists (0 + (a mod 65536 + a / 65536) + (b mod 65536 + b / 65536)). split; [lia|]. split; [|split].
    + intros l. unfold pseudo4. rewrite <-!app_assoc, !le32_wsum by done. cbn [app wsum]. lia.
    + intros. unfold inet_chksum_pseudo. add_addrs. by rewrite FOLD_twice by lia.
    + intros. unfold inet_chksum_pseudo_partial. add_addrs. by rewrite FOLD_twice by lia.
Qed.

(** C11: The transport checksum: for IPv4 and IPv6 addresses and every pbuf chain,
    ip_chksum_pseudo returns the inverted one's complement sum of the pseudo header
    of the RFCs followed by the bytes of the chain. *)
Theorem ip_chksum_pseudo_rfc {A} (s : pstate A) p l c src dest proto proto_len :
  chain (pb s) p l → lens_ok l → content (dat s) l = Some c → Forall is_u8 c →
  ip6_ok (u_addr src) → ip6_ok (u_addr dest) → is_u8 proto → is_u16 proto_len →
  ip_chksum_pseudo p proto proto_len src dest s =
    Ok (65535 - oc (wsum (pseudo_header src dest proto proto_len ++ c))).
Proof.
  intros Hch Hl Hc Hu Hs Hd Hp Hpl. destruct (pseudo_sum src dest proto proto_len) as (W & HW & Hsum & Hfull & _); try done.
  rewrite Hfull, Hsum. by eapply inet_cksum_pseudo_base_ok.
Qed.

(** The partial checksum covers the pseudo header and the first [chksum_len] bytes
    of the chain, although the code tests the parity of the pbuf's length instead
    of the number of bytes it summed; the bound is the one asserted in the loop. *)
Theorem ip_chksum_pseudo_partial_prefix {A} (s : pstate A) p a q l c src dest proto proto_len n :
  chain (pb s) p ((a, q) :: l) → lens_ok ((a, q) :: l) → content (dat s) ((a, q) :: l) = Some c → Forall is_u8 c →
  ip6_ok (u_addr src) → ip6_ok (u_addr dest) → is_u8 proto → is_u16 proto_len → is_u16 n → n - len q < 32767 →
  ip_chksum_pseudo_partial p proto proto_len n src dest s =
    Ok (65535 - oc (wsum (pseudo_header src dest proto proto_len ++ take (Z.to_nat n) c))).
Proof.
  intros Hch Hl Hc Hu Hs Hd Hp Hpl Hn Hb.
  destruct (pseudo_sum src dest proto proto_len) as (W & HW & Hsum & _ & Hpart); try done.
  rewrite Hpart, Hsum. unfold inet_cksum_pseudo_partial_base. change (oc W) with (oc (sh false W)).
  destruct (chksum_partial_loop_ok ((a, q) :: l) (chain_fuel s) p c n W false s) as [k ->]; try done.
  { apply chain_fuel_enough in Hch. lia. }
  cbn [mbind res_bind]. f_equal. apply base_end; [done|done|done|]. by apply Forall_take.
Qed.

(** More than 32766 bytes after the first pbuf abort the partial checksum. *)
Theorem ip_chksum_pseudo_partial_aborts {A} (s : pstate A) p a q l c src dest proto proto_len n :
  chain (pb s) p ((a, q) :: l) → lens_ok ((a, q) :: l) → content (dat s) ((a, q) :: l) = Some c → Forall is_u8 c →
  ip6_ok (u_addr src) → ip6_ok (u_addr dest) → is_u8 proto → is_u16 proto_len → is_u16 n → 32767 ≤ n - len q →
  ip_chksum_pseudo_partial p proto proto_len n src dest s = Assert.
Proof.
  intros Hch Hl Hc Hu Hs Hd Hp Hpl Hn Hb.
  destruct (pseudo_sum src dest proto proto_len) as (W & HW & _ & _ & Hpart); try done. rewrite Hpart.
  unfold inet_cksum_pseudo_partial_base, chain_fuel. pose proof Hch as (-> & Ha & _). cbn [chksum_partial_loop].
  destruct Hl as (Hq & Ht & Hr & Hl). apply lens_ok_range in Hl. unfold is_u16 in Hn.
  replace (0 <? n) with true by lia. unfold getp. rewrite Ha. cbn [deref mbind res_bind].
  replace (n <? len q) with false by lia. simpl in Hc.
  destruct (mread (dat s) (payload q) (Z.to_nat (len q))) as [c1|] eqn:Ec1; simplify_eq/=.
  destruct (content (dat s) l) as [c2|]; simplify_eq/=. apply Forall_app in Hu as [Hu1 _].
  destruct (chksum_segment s q c1 Ec1 Hu1) as [-> _]; [lia|]. cbn [mbind res_bind].
  rewrite u16_id by (unfold is_u16; lia). by replace (n - len q <? 32767) with false by lia.
Qed.

(** ** Witnesses: the bytes 1..5 in two pbufs of 3 and 2 bytes *)

Definition sample_v4 (a : Z) : ip_addr := IpAddr (Ip6Addr [a; 0; 0; 0] 0) IPADDR_TYPE_V4.
Definition sample_v6 (a d : Z) : ip_addr := IpAddr (Ip6Addr [a; 0; 0; d] 0) IPADDR_TYPE_V6.

Lemma sample_u8 : Forall is_u8 [1; 2; 3; 4; 5].
Proof. repeat constructor; done. Qed.

Lemma inet_chksum_pbuf_flat_witness :
  inet_chksum_pbuf (Some 1000) sample_state = Ok 63990 ∧
  inet_chksum (mwrite ∅ 51 [1; 2; 3; 4; 5]) 51 5 = inet_chksum_pbuf (Some 1000) sample_state.
Proof.
  destruct sample_chain_ok as (Hch & Hl & _ & Hc).
  destruct (inet_chksum_pbuf_flat sample_state (Some 1000) sample_chain [1; 2; 3; 4; 5]
              (mwrite ∅ 51 [1; 2; 3; 4; 5]) 51 Hch Hl Hc sample_u8) as [H1 H2]; [vm_compute; reflexivity|].
  split; [rewrite H1; vm_compute; reflexivity|exact H2].
Defined.

Lemma inet_chksum_verifies_witness :
  inet_chksum (mwrite ∅ 51 [69; 0; 0; 0; 17]) 51 5 = Ok 65449 ∧
  inet_chksum (mwrite ∅ 51 [69; 0; 169; 255; 17]) 51 5 = Ok 0.
Proof.
  split; [vm_compute; reflexivity|].
  apply (inet_chksum_verifies (mwrite ∅ 51 [69; 0; 0; 0; 17]) 51 (mwrite ∅ 51 [69; 0; 169; 255; 17])
           [69; 0] [17] 65449); try (vm_compute; done); repeat constructor; done.
Defined.

Lemma ip_chksum_pseudo_rfc_witness :
  ip_chksum_pseudo (Some 1000) 17 5 (sample_v4 16820416) (sample_v4 33597632) sample_state =
    Ok (65535 - oc (wsum ([192; 168; 0; 1] ++ [192; 168; 0; 2; 0; 17; 0; 5] ++ [1; 2; 3; 4; 5]))) ∧
  ip_chksum_pseudo (Some 1000) 17 5 (sample_v6 33022 1) (sample_v6 33022 2) sample_state =
    Ok (65535 - oc (wsum (pseudo_header (sample_v6 33022 1) (sample_v6 33022 2) 17 5 ++ [1; 2; 3; 4; 5]))).
Proof.
  destruct sample_chain_ok as (Hch & Hl & _ & Hc).
  split; apply (ip_chksum_pseudo_rfc sample_state (Some 1000) sample_chain [1; 2; 3; 4; 5]);
    try done; try exact sample_u8; split; try done; repeat constructor; done.
Defined.

Lemma ip_chksum_pseudo_partial_prefix_witness :
  ip_chksum_pseudo_partial (Some 1000) 136 5 2 (sample_v4 16820416) (sample_v4 33597632) sample_state =
    Ok (65535 - oc (wsum (pseudo_header (sample_v4 16820416) (sample_v4 33597632) 136 5 ++ [1; 2]))).
Proof.
  destruct sample_chain_ok as (Hch & Hl & _ & Hc).
  apply (ip_chksum_pseudo_partial_prefix sample_state (Some 1000) 1000 (Pbuf (Some 2000) 100 5 3 128 0 1 0)
    [(2000, Pbuf None 200 2 2 128 0 1 0)] [1; 2; 3; 4; 5]);
    try done; try exact sample_u8; split; try done; repeat constructor; done.
Defined.
