(* ===== verification/Ip4Addr.v ===== *)
(** * IPv4 addresses: core/ipv4/ip4_addr.c

    Parsing and printing of dotted addresses, net masks and broadcast addresses.
    Addresses are 32-bit words in network byte order on a little-endian host.
    Strings are read from and written to byte memory. *)

From S2P Require Import Prelude ByteMem Def IpAddr.

(** ** Character classes: include/lwip/arch.h *)

Definition lwip_in_range (c lo up : Z) : bool := (lo <=? c) && (c <=? up).
Definition lwip_isdigit (c : Z) : bool := lwip_in_range c 48 57.
Definition lwip_isxdigit (c : Z) : bool :=
  lwip_isdigit c || lwip_in_range c 97 102 || lwip_in_range c 65 70.
Definition lwip_islower (c : Z) : bool := lwip_in_range c 97 122.
Definition lwip_isspace (c : Z) : bool :=
  (c =? 32) || (c =? 12) || (c =? 10) || (c =? 13) || (c =? 9) || (c =? 11).

Definition IPADDR_NONE : Z := 4294967295.
Definition IPADDR_ANY : Z := 0.
Definition IPADDR_BROADCAST : Z := 4294967295.
Definition NETIF_FLAG_BROADCAST : Z := 2.

(** ** Broadcast addresses and net masks *)

(** The members of [struct netif] this file reads. *)
Record netif4 := Netif4 { netif_flags : Z; netif_ip4_addr : Z; netif_ip4_netmask : Z }.

Definition ip4_addr_netcmp (addr1 addr2 mask : Z) : bool := Z.land addr1 mask =? Z.land addr2 mask.

(** [~x] on 32 bits *)
Definition not32 (x : Z) : Z := u32 (Z.lnot x).

Definition ip4_addr_isbroadcast_u32 (addr : Z) (netif : netif4) : Z :=
  if (not32 addr =? IPADDR_ANY) || (addr =? IPADDR_ANY) then 1
  else if Z.land (netif_flags netif) NETIF_FLAG_BROADCAST =? 0 then 0
  else if addr =? netif_ip4_addr netif then 0
  else if ip4_addr_netcmp addr (netif_ip4_addr netif) (netif_ip4_netmask netif) &&
          (Z.land addr (not32 (netif_ip4_netmask netif)) =?
           Z.land IPADDR_BROADCAST (not32 (netif_ip4_netmask netif))) then 1
  else 0.

(** [for (mask = 1UL << 31; mask != 0; mask >>= 1) if ((nm & mask) == 0) break;]
    A 32-bit mask is zero after 32 shifts. *)
Fixpoint first_zero_loop (fuel : nat) (nm_hostorder mask : Z) : Z :=
  match fuel with
  | O => mask
  | S fuel =>
      if negb (mask =? 0) then
        if Z.land nm_hostorder mask =? 0 then mask
        else first_zero_loop fuel nm_hostorder (Z.shiftr mask 1)
      else mask
  end.

Fixpoint no_one_loop (fuel : nat) (nm_hostorder mask : Z) : Z :=
  match fuel with
  | O => 1
  | S fuel =>
      if negb (mask =? 0) then
        if negb (Z.land nm_hostorder mask =? 0) then 0
        else no_one_loop fuel nm_hostorder (Z.shiftr mask 1)
      else 1
  end.

Definition ip4_addr_netmask_valid (netmask : Z) : Z :=
  let nm_hostorder := lwip_htonl netmask in
  let mask := first_zero_loop 33 nm_hostorder (Z.shiftl 1 31) in
  no_one_loop 33 nm_hostorder mask.

(** ** Parsing *)

(** The inner [for (;;)]: digits of the number at [cp], whose first character is [c]. *)
Fixpoint aton_digits (fuel : nat) (b : bytes) (cp c val base : Z) : res (Z * Z * Z) :=
  match fuel with
  | O => Stuck
  | S fuel =>
      if lwip_isdigit c then
        let val := u32 (u32 (val * base) + (c - 48)) in
        c ← deref (b !! (cp + 1));
        aton_digits fuel b (cp + 1) c val base
      else if (base =? 16) && lwip_isxdigit c then
        let val := Z.lor (u32 (Z.shiftl val 4)) (c + 10 - (if lwip_islower c then 97 else 65)) in
        c ← deref (b !! (cp + 1));
        aton_digits fuel b (cp + 1) c val base
      else Ok (cp, c, val)
  end.

(** [0x] for hexadecimal, [0] for octal. *)
Definition aton_base (b : bytes) (cp c : Z) : res (Z * Z * Z) :=
  if c =? 48 then
    c ← deref (b !! (cp + 1));
    if (c =? 120) || (c =? 88) then
      c ← deref (b !! (cp + 2));
      Ok (cp + 2, c, 16)
    else Ok (cp + 1, c, 8)
  else Ok (cp, c, 10).

(** The outer [for (;;)]; [parts] holds the [pp - parts] numbers stored so far.
    [None] is an early [return 0].  A fifth round is impossible because
    [pp >= parts + 3] returns. *)
Fixpoint aton_parts (fuel : nat) (b : bytes) (cp c : Z) (parts : list Z) : res (option (list Z * Z * Z)) :=
  match fuel with
  | O => Stuck
  | S fuel =>
      if negb (lwip_isdigit c) then Ok None else
      '(cp, c, base) ← aton_base b cp c;
      '(cp, c, val) ← aton_digits (walk_fuel b) b cp c 0 base;
      if c =? 46 then
        if 3 <=? zlen parts then Ok None else
        c ← deref (b !! (cp + 1));
        aton_parts fuel b (cp + 1) c (parts ++ [val])
      else Ok (Some (parts, val, c))
  end.

(** The [switch] on the number of parts, in host byte order. *)
Definition aton_combine (parts : list Z) (val : Z) : res (option Z) :=
  match parts with
  | [] => Ok (Some val)
  | [p0] =>
      if 16777215 <? val then Ok None else
      if 255 <? p0 then Ok None else
      Ok (Some (Z.lor val (u32 (Z.shiftl p0 24))))
  | [p0; p1] =>
      if 65535 <? val then Ok None else
      if (255 <? p0) || (255 <? p1) then Ok None else
      Ok (Some (Z.lor val (Z.lor (u32 (Z.shiftl p0 24)) (u32 (Z.shiftl p1 16)))))
  | [p0; p1; p2] =>
      if 255 <? val then Ok None else
      if (255 <? p0) || (255 <? p1) || (255 <? p2) then Ok None else
      Ok (Some (Z.lor val (Z.lor (Z.lor (u32 (Z.shiftl p0 24)) (u32 (Z.shiftl p1 16))) (u32 (Z.shiftl p2 8)))))
  | _ => Assert
  end.

(** [None] stands for the result 0; [Some a] for the result 1 with [a] stored to
    [addr] when that is not NULL. *)
Definition ip4addr_aton (b : bytes) (cp : Z) : res (option Z) :=
  c ← deref (b !! cp);
  r ← aton_parts 4 b cp c [];
  match r with
  | None => Ok None
  | Some (parts, val, c) =>
      if negb (c =? 0) && negb (lwip_isspace c) then Ok None else
      v ← aton_combine parts val;
      match v with
      | None => Ok None
      | Some val => Ok (Some (lwip_htonl val))
      end
  end.

Definition ipaddr_addr (b : bytes) (cp : Z) : res Z :=
  r ← ip4addr_aton b cp;
  match r with Some val => Ok val | None => Ok IPADDR_NONE end.

(** ** Printing *)

Definition IP4ADDR_STRLEN_MAX : Z := 16.

(** [do { rem = *ap % 10; *ap /= 10; inv[i++] = '0' + rem; } while ( *ap);]
    [inv] has room for three characters, which a byte does not exceed. *)
Fixpoint ntoa_inv (fuel : nat) (ap : Z) (inv : list Z) : res (list Z) :=
  match fuel with
  | O => Ub
  | S fuel =>
      let rem := ap mod 10 in
      let ap := ap / 10 in
      let inv := inv ++ [48 + rem] in
      if negb (ap =? 0) then ntoa_inv fuel ap inv else Ok inv
  end.

(** A character is stored unless the buffer is full, which returns NULL ([None]).
    The state is [len], [rp] and memory. *)
Definition ntoa_put (buflen ch : Z) (st : Z * Z * bytes) : res (option (Z * Z) * bytes) :=
  let '(len, rp, b) := st in
  if buflen <=? len then Ok (None, b)
  else b ← store b rp ch; Ok (Some (len + 1, rp + 1), b).

(** [while (i--)] over [inv], last character first, then the dot. *)
Fixpoint ntoa_puts (l : list Z) (buflen : Z) (len rp : Z) (b : bytes) : res (option (Z * Z) * bytes) :=
  match l with
  | [] => Ok (Some (len, rp), b)
  | ch :: l =>
      '(o, b) ← ntoa_put buflen ch (len, rp, b);
      match o with
      | None => Ok (None, b)
      | Some (len, rp) => ntoa_puts l buflen len rp b
      end
  end.

(** [for (n = 0; n < 4; n++)] over the bytes of [s_addr]. *)
Fixpoint ntoa_loop (aps : list Z) (buflen : Z) (len rp : Z) (b : bytes) : res (option (Z * Z) * bytes) :=
  match aps with
  | [] => Ok (Some (len, rp), b)
  | ap :: aps =>
      inv ← ntoa_inv 3 ap [];
      '(o, b) ← ntoa_puts (rev inv ++ [46]) buflen len rp b;
      match o with
      | None => Ok (None, b)
      | Some (len, rp) => ntoa_loop aps buflen len rp b
      end
  end.

(** The bytes of a 32-bit variable in memory order. *)
Definition bytes_of_u32 (w : Z) : list Z := [w mod 256; w / 256 mod 256; w / 65536 mod 256; w / 16777216].

(** Returns [buf], or 0 when the buffer is too small, and the new memory. *)
Definition ip4addr_ntoa_r (addr buf buflen : Z) (b : bytes) : res (Z * bytes) :=
  let s_addr := addr in
  '(o, b) ← ntoa_loop (bytes_of_u32 s_addr) buflen 0 buf b;
  match o with
  | None => Ok (0, b)
  | Some (_, rp) => b ← store b (rp - 1) 0; Ok (buf, b)
  end.

(** [str] is the address of the function's static buffer. *)
Definition ip4addr_ntoa (addr str : Z) (b : bytes) : res (Z * bytes) :=
  ip4addr_ntoa_r addr str IP4ADDR_STRLEN_MAX b.
