(* ===== verification/Ip4AddrFacts.v ===== *)
(** * IPv4 addresses: theorems

    Printing stores the dotted quad or reports that the buffer is too small,
    parsing what was printed gives the address back, parsing is safe on every
    string, and the net mask and broadcast tests mean what they say. *)

From S2P Require Import Prelude ByteMem Def IpAddr Ip4Addr.

(** ** Dotted quads *)

(** The decimal digits of a byte. *)
Definition dec_byte (n : Z) : list Z :=
  if n <? 10 then [48 + n]
  else if n <? 100 then [48 + n / 10; 48 + n mod 10]
  else [48 + n / 100; 48 + n / 10 mod 10; 48 + n mod 10].

Definition dotted (a : Z) : list Z :=
  dec_byte (a mod 256) ++ 46 :: dec_byte (a / 256 mod 256) ++ 46 ::
  dec_byte (a / 65536 mod 256) ++ 46 :: dec_byte (a / 16777216).

(** A property of all bytes can be computed. *)
Lemma all_bytes (f : Z → bool) : forallb f (seqZ 0 256) = true → ∀ x, is_u8 x → f x = true.
Proof. intros H x Hx. rewrite forallb_forall in H. apply H, list_elem_of_In, elem_of_seqZ. ulia. Qed.

Lemma ntoa_inv_ok n : is_u8 n → ∃ inv, ntoa_inv 3 n [] = Ok inv ∧ rev inv = dec_byte n.
Proof.
  intros Hn. exists (rev (dec_byte n)). split; [|apply rev_involutive].
  pose proof (all_bytes (λ n, bool_decide (ntoa_inv 3 n [] = Ok (rev (dec_byte n))))) as H.
  specialize (H ltac:(vm_compute; reflexivity) n Hn). by apply bool_decide_eq_true in H.
Qed.

Lemma dec_byte_digits n : is_u8 n → Forall (λ c, 48 ≤ c ≤ 57) (dec_byte n) ∧ 1 ≤ zlen (dec_byte n) ≤ 3.
Proof.
  intros Hn. unfold dec_byte, is_u8 in *.
  destruct (n <? 10) eqn:E1; [|destruct (n <? 100) eqn:E2]; breflect;
    (split; [repeat constructor; zlia|unfold zlen; simpl; lia]).
Qed.

(** ** Printing *)

Lemma ntoa_puts_ok l : ∀ buf buflen len b,
  mapped b buf buflen → 0 ≤ len → (l = [] → len ≤ buflen) →
  if len + zlen l <=? buflen
  then ntoa_puts l buflen len (buf + len) b = Ok (Some (len + zlen l, buf + len + zlen l), mwrite b (buf + len) l)
  else ∃ b', ntoa_puts l buflen len (buf + len) b = Ok (None, b') ∧
             (∀ i, i < buf ∨ buf + buflen ≤ i → b' !! i = b !! i).
Proof.
  induction l as [|ch l IH]; intros buf buflen len b Hm Hl He.
  { change (zlen (@nil Z)) with 0. rewrite !Z.add_0_r. specialize (He eq_refl).
    by replace (len <=? buflen) with true by lia. }
  rewrite zlen_cons. pose proof (zlen_nonneg l). cbn [ntoa_puts ntoa_put].
  destruct (buflen <=? len) eqn:E; breflect.
  { replace (len + (zlen l + 1) <=? buflen) with false by lia. by exists b. }
  rewrite (store_in b buf buflen) by (done || lia). cbn [mbind res_bind].
  specialize (IH buf buflen (len + 1) (<[buf + len := ch]> b) (mapped_insert _ _ _ _ _ Hm) ltac:(lia) ltac:(lia)).
  replace (buf + (len + 1)) with (buf + len + 1) in IH by lia.
  replace (len + 1 + zlen l) with (len + (zlen l + 1)) in IH by lia.
  destruct (_ <=? _) eqn:E'; breflect.
  - rewrite IH. cbn [mwrite]. do 4 f_equal. lia.
  - destruct IH as (b' & -> & Hb'). exists b'. split; [done|]. intros i Hi.
    rewrite Hb', lookup_insert_ne by lia. done.
Qed.

Lemma ntoa_puts_app l1 l2 : ∀ buflen len rp b,
  ntoa_puts (l1 ++ l2) buflen len rp b =
  ('(o, b) ← ntoa_puts l1 buflen len rp b;
   match o with None => Ok (None, b) | Some (len, rp) => ntoa_puts l2 buflen len rp b end).
Proof.
  induction l1 as [|ch l1 IH]; intros buflen len rp b; [done|]. cbn [app ntoa_puts].
  destruct (ntoa_put buflen ch (len, rp, b)) as [[[[len' rp']|] b']| | |]; cbn [mbind res_bind]; [apply IH|done..].
Qed.

(** The loop stores every byte in decimal with a dot after it. *)
Lemma ntoa_loop_eq aps : ∀ buflen len rp b, Forall is_u8 aps →
  ntoa_loop aps buflen len rp b = ntoa_puts (flat_map (λ n, dec_byte n ++ [46]) aps) buflen len rp b.
Proof.
  induction aps as [|n aps IH]; intros buflen len rp b Hu; [done|].
  apply Forall_cons in Hu as [Hn Hu]. cbn [ntoa_loop flat_map].
  destruct (ntoa_inv_ok n Hn) as (inv & -> & Hrev). cbn [mbind res_bind]. rewrite Hrev, (ntoa_puts_app (dec_byte n ++ [46])).
  destruct (ntoa_puts _ _ _ _ _) as [[[[len' rp']|] b']| | |]; cbn [mbind res_bind]; [by apply IH|done..].
Qed.

Lemma bytes_of_u32_ok a : is_u32 a → Forall is_u8 (bytes_of_u32 a).
Proof. intros Ha. unfold bytes_of_u32. repeat constructor; ulia. Qed.

Lemma dotted_snoc a : flat_map (λ n, dec_byte n ++ [46]) (bytes_of_u32 a) = dotted a ++ [46].
Proof. unfold dotted, bytes_of_u32. cbn [flat_map]. by repeat (rewrite <-!app_assoc; cbn [app]). Qed.

Lemma dotted_chars a : is_u32 a → Forall (λ c, 0 < c < 256) (dotted a) ∧ 7 ≤ zlen (dotted a) ≤ 15.
Proof.
  intros Ha. unfold dotted.
  destruct (dec_byte_digits (a mod 256)) as [H0 L0]; [ulia|].
  destruct (dec_byte_digits (a / 256 mod 256)) as [H1 L1]; [ulia|].
  destruct (dec_byte_digits (a / 65536 mod 256)) as [H2 L2]; [ulia|].
  destruct (dec_byte_digits (a / 16777216)) as [H3 L3]; [ulia|]. split.
  - rewrite !Forall_app, !Forall_cons, !Forall_app, !Forall_cons, !Forall_app, !Forall_cons.
    split_and!; try lia; (eapply Forall_impl; [eassumption|]; simpl; lia).
  - rewrite !zlen_app, !zlen_cons, !zlen_app, !zlen_cons, !zlen_app, !zlen_cons. lia.
Qed.

(** Printing into a buffer: the string is stored and [buf] returned when the text
    and its terminator fit into [buflen] bytes, otherwise NULL is returned. *)
Lemma ip4addr_ntoa_r_ok a buf buflen b : is_u32 a → mapped b buf buflen →
  ∃ b', ip4addr_ntoa_r a buf buflen b = Ok (if zlen (dotted a) + 1 <=? buflen then buf else 0, b') ∧
    (zlen (dotted a) + 1 ≤ buflen → cstr b' buf (dotted a)) ∧
    (∀ i, i < buf ∨ buf + buflen ≤ i → b' !! i = b !! i).
Proof.
  intros Ha Hm. unfold ip4addr_ntoa_r. rewrite ntoa_loop_eq, dotted_snoc by (by apply bytes_of_u32_ok).
  destruct (dotted_chars a Ha) as [Hch Hlen].
  pose proof (ntoa_puts_ok (dotted a ++ [46]) buf buflen 0 b Hm ltac:(lia)) as Hp.
  rewrite zlen_app in Hp. change (zlen [46]) with 1 in Hp. rewrite Z.add_0_r, Z.add_0_l in Hp.
  specialize (Hp ltac:(by destruct (dotted a))). destruct (_ <=? _) eqn:E; breflect.
  - rewrite Hp. cbn [mbind res_bind]. replace (buf + (zlen (dotted a) + 1) - 1) with (buf + zlen (dotted a)) by lia.
    rewrite (store_in _ buf buflen) by (try apply mapped_mwrite; done || lia). cbn [mbind res_bind].
    eexists. split; [done|]. split.
    + intros _. split; [done|]. rewrite mwrite_app. cbn [mwrite]. rewrite insert_insert_eq.
      change (<[buf + zlen (dotted a):=0]> (mwrite b buf (dotted a)))
        with (mwrite (mwrite b buf (dotted a)) (buf + zlen (dotted a)) [0]).
      rewrite <-mwrite_app. replace (length (dotted a) + 1)%nat with (length (dotted a ++ [0])) by (by rewrite length_app).
      apply mread_mwrite_same.
    + intros i Hi. rewrite lookup_insert_ne, lookup_mwrite, bool_decide_eq_false_2; [done| |lia].
      rewrite zlen_app. change (zlen [46]) with 1. lia.
  - destruct Hp as (b' & -> & Hb'). exists b'. split; [done|]. split; [lia|done].
Qed.

(** ** Parsing is safe *)

Lemma lor_u32 x y : is_u32 x → is_u32 y → is_u32 (Z.lor x y).
Proof. apply (lor_range 32). lia. Qed.

(** The number loop stops inside the string, at its terminator at the latest. *)
Lemma aton_digits_safe b l : ∀ fuel cp val base,
  cstr b cp l → (length l < fuel)%nat → is_u32 val →
  ∃ l' cp' val', aton_digits fuel b cp (default 0 (head l)) val base = Ok (cp', default 0 (head l'), val') ∧
    cstr b cp' l' ∧ is_u32 val'.
Proof.
  induction l as [|c l IH]; intros fuel cp val base Hs Hf Hv; (destruct fuel as [|fuel]; [simpl in Hf; lia|]).
  { exists [], cp, val. simpl default. cbn [aton_digits]. change (lwip_isdigit 0) with false.
    change (lwip_isxdigit 0) with false. by rewrite andb_false_r. }
  change (default 0 (head (c :: l))) with c. pose proof Hs as (Hc & Hr & Hs')%cstr_cons. cbn [aton_digits].
  rewrite (cstr_head _ _ _ Hs'). cbn [deref mbind res_bind]. simpl in Hf.
  destruct (lwip_isdigit c) eqn:Ed.
  - apply (IH fuel (cp + 1) _ base); [done|lia|apply u32_range].
  - destruct ((base =? 16) && lwip_isxdigit c) eqn:Ex.
    + apply (IH fuel (cp + 1) _ base); [done|lia|]. apply lor_u32; [apply u32_range|].
      breflect. unfold lwip_isxdigit in H0. rewrite Ed in H0. cbn [orb] in H0. apply orb_true_iff in H0.
      unfold lwip_islower, lwip_in_range in *. destruct H0; breflect.
      * replace ((97 <=? c) && (c <=? 122)) with true by lia. unfold is_u32. lia.
      * replace ((97 <=? c) && (c <=? 122)) with false by lia. unfold is_u32. lia.
    + by exists (c :: l), cp, val.
Qed.

Lemma aton_base_safe b cp c l : cstr b cp (c :: l) →
  ∃ l' cp' base, aton_base b cp c = Ok (cp', default 0 (head l'), base) ∧ cstr b cp' l'.
Proof.
  intros Hs. pose proof Hs as (Hc & Hr & Hs')%cstr_cons. unfold aton_base.
  destruct (c =? 48); [|by exists (c :: l), cp, 10]. rewrite (cstr_head _ _ _ Hs'). cbn [deref mbind res_bind].
  destruct ((_ =? 120) || _) eqn:E; [|by exists l, (cp + 1), 8].
  destruct l as [|d l]; [done|]. apply cstr_cons in Hs' as (_ & _ & Hs'). replace (cp + 1 + 1) with (cp + 2) in Hs' by lia.
  rewrite (cstr_head _ _ _ Hs'). cbn [deref mbind res_bind]. by exists l, (cp + 2), 16.
Qed.

Lemma aton_parts_safe b : ∀ fuel l cp parts,
  cstr b cp l → (length parts + fuel = 4)%nat → fuel ≠ O → Forall is_u32 parts →
  ∃ r, aton_parts fuel b cp (default 0 (head l)) parts = Ok r ∧
    ∀ ps val c, r = Some (ps, val, c) → (length ps ≤ 3)%nat ∧ Forall is_u32 ps ∧ is_u32 val.
Proof.
  induction fuel as [|fuel IH]; intros l cp parts Hs Hp Hf Hu; [done|]. cbn [aton_parts].
  destruct (lwip_isdigit (default 0 (head l))) eqn:Ed; cbn [negb]; [|by exists None].
  destruct l as [|c l]; [done|]. change (default 0 (head (c :: l))) with c.
  destruct (aton_base_safe b cp c l Hs) as (l1 & cp1 & base & -> & Hs1). cbn [mbind res_bind].
  destruct (aton_digits_safe b l1 (walk_fuel b) cp1 0 base Hs1) as (l2 & cp2 & val & -> & Hs2 & Hv);
    [by eapply cstr_fuel|done|]. cbn [mbind res_bind].
  destruct (default 0 (head l2) =? 46) eqn:E46; breflect.
  - destruct (3 <=? zlen parts) eqn:E3; breflect; [by exists None|].
    destruct l2 as [|d l2]; [done|]. apply cstr_cons in Hs2 as (_ & _ & Hs2).
    rewrite (cstr_head _ _ _ Hs2). cbn [deref mbind res_bind]. unfold zlen in E3.
    apply IH; [done|rewrite length_app; simpl; lia|lia|]. apply Forall_app. split; [done|by constructor].
  - eexists. split; [done|]. intros ps v c' [= <- <- <-]. split_and!; [lia|done|apply Hv..].
Qed.

Lemma aton_combine_safe ps val : (length ps ≤ 3)%nat → is_u32 val →
  ∃ r, aton_combine ps val = Ok r ∧ ∀ v, r = Some v → is_u32 v.
Proof.
  intros Hl Hv. destruct ps as [|p0 [|p1 [|p2 [|p3 ps]]]]; simpl in Hl; try lia; cbn [aton_combine];
    repeat (case_match; [by exists None|]); eexists; (split; [done|]); intros v [= <-];
    repeat apply lor_u32; try apply u32_range; done.
Qed.

Lemma htonl_u32 x : is_u32 x → is_u32 (lwip_htonl x).
Proof.
  intros (a & c & d & e & Ha & Hc & Hd & He & ->)%u32_bytes. unfold lwip_htonl.
  rewrite PP_HTONL_bytes by done. ulia.
Qed.

Lemma ip4addr_aton_total b cp l : cstr b cp l →
  ∃ r, ip4addr_aton b cp = Ok r ∧ (∀ a, r = Some a → is_u32 a).
Proof.
  intros Hs. unfold ip4addr_aton. rewrite (cstr_head _ _ _ Hs). cbn [deref mbind res_bind].
  destruct (aton_parts_safe b 4 l cp [] Hs) as (r & -> & Hr); [done|done|done|]. cbn [mbind res_bind].
  destruct r as [[[ps val] c]|]; [|by exists None]. destruct (Hr ps val c eq_refl) as (Hl & _ & Hv).
  destruct (_ && _); [by exists None|].
  destruct (aton_combine_safe ps val Hl Hv) as (v & -> & Hu). cbn [mbind res_bind].
  destruct v as [v|]; [|by exists None]. exists (Some (lwip_htonl v)). split; [done|].
  intros a [= <-]. apply htonl_u32. by apply Hu.
Qed.

(** Parsing is safe on every string: ip4addr_aton and ipaddr_addr end, read no
    byte behind the terminator, never reach the assertion of the [switch], and an
    accepted string yields a 32-bit address. *)
Theorem ip4addr_aton_safe b cp l : cstr b cp l →
  ∃ r, ip4addr_aton b cp = Ok r ∧ (∀ a, r = Some a → is_u32 a) ∧ ipaddr_addr b cp = Ok (default IPADDR_NONE r).
Proof.
  intros Hs. destruct (ip4addr_aton_total b cp l Hs) as (r & Hr & Hu). exists r. split; [done|]. split; [done|].
  unfold ipaddr_addr. rewrite Hr. by destruct r.
Qed.

(** ** Parsing what was printed *)

Lemma aton_digits_end fuel b cp e val base : lwip_isdigit e = false → base ≠ 16 →
  aton_digits (S fuel) b cp e val base = Ok (cp, e, val).
Proof. intros He Hb. cbn [aton_digits]. rewrite He. by replace (base =? 16) with false by lia. Qed.

Lemma aton_digits_step fuel b cp d c val base : 0 ≤ d ≤ 9 → b !! (cp + 1) = Some c →
  aton_digits (S fuel) b cp (48 + d) val base =
    aton_digits fuel b (cp + 1) c (u32 (u32 (val * base) + d)) base.
Proof.
  intros Hd Hc. cbn [aton_digits]. unfold lwip_isdigit, lwip_in_range.
  replace ((48 <=? 48 + d) && (48 + d <=? 57)) with true by lia. rewrite Hc. cbn [deref mbind res_bind].
  by replace (48 + d - 48) with d by lia.
Qed.

(** One decimal number, followed by a character that is not a digit. *)
Lemma aton_byte b cp n e fuel : is_u8 n → lwip_isdigit e = false → e ≠ 120 → e ≠ 88 → (4 ≤ fuel)%nat →
  mread b cp (length (dec_byte n ++ [e])) = Some (dec_byte n ++ [e]) →
  ∃ c0, b !! cp = Some c0 ∧ lwip_isdigit c0 = true ∧
    ('(cp, c, base) ← aton_base b cp c0; aton_digits fuel b cp c 0 base) = Ok (cp + zlen (dec_byte n), e, n).
Proof.
  intros Hn He Hx HX Hf Hm. destruct fuel as [|[|[|[|fuel]]]]; try lia. clear Hf.
  unfold dec_byte, is_u8 in *. unfold aton_base.
  destruct (n <? 10) eqn:E1; [|destruct (n <? 100) eqn:E2]; breflect; cbn [app] in Hm;
    repeat (let Hx := fresh "Hx" in apply mread_cons in Hm as [Hx Hm]); eexists; (split; [done|]);
    (split; [unfold lwip_isdigit, lwip_in_range; zlia|]).
  - destruct (48 + n =? 48) eqn:E0; breflect.
    + rewrite Hx1. cbn [deref mbind res_bind].
      replace ((e =? 120) || (e =? 88)) with false by lia. cbn [mbind res_bind].
      rewrite aton_digits_end by (done || lia). change (zlen [48 + n]) with 1. do 2 f_equal. lia.
    + cbn [mbind res_bind]. rewrite (aton_digits_step _ b cp n e) by (done || lia).
      rewrite aton_digits_end by (done || lia). change (zlen [48 + n]) with 1. do 2 f_equal. ulia.
  - replace (48 + n / 10 =? 48) with false by zlia. cbn [mbind res_bind].
    erewrite aton_digits_step by (done || zlia). erewrite aton_digits_step by (done || zlia).
    rewrite aton_digits_end by (done || lia). unfold zlen. cbn [length]. do 2 f_equal; [f_equal; lia|ulia].
  - replace (48 + n / 100 =? 48) with false by zlia. cbn [mbind res_bind].
    do 3 erewrite aton_digits_step by (done || zlia).
    rewrite aton_digits_end by (done || lia). unfold zlen. cbn [length]. do 2 f_equal; [f_equal; lia|].
    assert (Hh : 0 ≤ n / 100 ≤ 2 ∧ 0 ≤ n / 10 mod 10 ≤ 9 ∧ 0 ≤ n mod 10 ≤ 9 ∧
                 n = 100 * (n / 100) + 10 * (n / 10 mod 10) + n mod 10) by zlia.
    destruct Hh as (Hh & Ht & Ho & Hsum). rewrite Hsum at 4. clear Hsum.
    generalize dependent (n / 100). generalize dependent (n / 10 mod 10). generalize dependent (n mod 10).
    intros o _ Ho t _ Ht h _ Hh. rewrite (u32_id (0 * 10)) by done.
    rewrite (u32_id (0 * 10 + h)) by (unfold is_u32; lia). rewrite (u32_id ((0 * 10 + h) * 10)) by (unfold is_u32; lia).
    rewrite (u32_id (_ + t)) by (unfold is_u32; lia). rewrite (u32_id (_ * 10)) by (unfold is_u32; lia).
    rewrite u32_id by (unfold is_u32; lia). lia.
Qed.

Lemma walk_fuel_4 b cp n : mread b cp (length n) = Some n → (3 ≤ length n)%nat → (4 ≤ walk_fuel b)%nat.
Proof. intros H%mread_size Hl. unfold walk_fuel. lia. Qed.

(** A number and a dot: one round of the outer loop. *)
Lemma aton_parts_step b cp n l fuel parts : is_u8 n → (4 ≤ walk_fuel b)%nat → zlen parts < 3 → l ≠ [] →
  mread b cp (length (dec_byte n ++ 46 :: l)) = Some (dec_byte n ++ 46 :: l) →
  ∃ c0, b !! cp = Some c0 ∧ ∃ c1, b !! (cp + zlen (dec_byte n) + 1) = Some c1 ∧
    aton_parts (S fuel) b cp c0 parts = aton_parts fuel b (cp + zlen (dec_byte n) + 1) c1 (parts ++ [n]).
Proof.
  intros Hn Hf Hp Hl Hm. replace (dec_byte n ++ 46 :: l) with ((dec_byte n ++ [46]) ++ l) in Hm by (by rewrite <-app_assoc).
  apply mread_app_inv in Hm as [Hm1 Hm2]. destruct (aton_byte b cp n 46 (walk_fuel b)) as (c0 & Hc0 & Hd & Hrun); try done.
  exists c0. split; [done|]. destruct l as [|x l]; [done|].
  rewrite zlen_app in Hm2. change (zlen [46]) with 1 in Hm2. rewrite Z.add_assoc in Hm2.
  cbn [length mread] in Hm2. destruct (b !! (cp + zlen (dec_byte n) + 1)) as [c1|] eqn:Ec1; [|done].
  exists c1. split; [done|]. cbn [aton_parts]. rewrite Hd. cbn [negb].
  destruct (aton_base b cp c0) as [[[cp' c'] base]| | |]; cbn [mbind res_bind] in *; try done.
  rewrite Hrun. cbn [mbind res_bind]. change (46 =? 46) with true. cbv iota.
  replace (3 <=? zlen parts) with false by lia. by rewrite Ec1.
Qed.

Lemma aton_parts_last b cp n fuel parts : is_u8 n → (4 ≤ walk_fuel b)%nat →
  mread b cp (length (dec_byte n ++ [0])) = Some (dec_byte n ++ [0]) →
  ∃ c0, b !! cp = Some c0 ∧ aton_parts (S fuel) b cp c0 parts = Ok (Some (parts, n, 0)).
Proof.
  intros Hn Hf Hm. destruct (aton_byte b cp n 0 (walk_fuel b)) as (c0 & Hc0 & Hd & Hrun); try done.
  exists c0. split; [done|]. cbn [aton_parts]. rewrite Hd. cbn [negb].
  destruct (aton_base b cp c0) as [[[cp' c'] base]| | |]; cbn [mbind res_bind] in *; try done.
  rewrite Hrun. done.
Qed.

Lemma aton_combine_4 p0 p1 p2 p3 : is_u8 p0 → is_u8 p1 → is_u8 p2 → is_u8 p3 →
  aton_combine [p0; p1; p2] p3 = Ok (Some (p3 + 256 * p2 + 65536 * p1 + 16777216 * p0)).
Proof.
  unfold is_u8. intros H0 H1 H2 H3. cbn [aton_combine].
  replace (255 <? p3) with false by lia. replace (255 <? p0) with false by lia.
  replace (255 <? p1) with false by lia. replace (255 <? p2) with false by lia. cbn [orb].
  rewrite !Z.shiftl_mul_pow2, !u32_id by (unfold is_u32; lia).
  rewrite (lor_add_disjoint p0 (p1 * 2 ^ 16) 24) by lia.
  replace (p0 * 2 ^ 24 + p1 * 2 ^ 16) with ((p0 * 256 + p1) * 2 ^ 16) by lia.
  rewrite (lor_add_disjoint _ (p2 * 2 ^ 8) 16) by lia. rewrite Z.lor_comm.
  replace ((p0 * 256 + p1) * 2 ^ 16 + p2 * 2 ^ 8) with ((p0 * 65536 + p1 * 256 + p2) * 2 ^ 8) by lia.
  rewrite lor_add_disjoint by lia. do 2 f_equal. lia.
Qed.

Lemma app_cons_ne (l k : list Z) x : l ++ x :: k ≠ [].
Proof. by destruct l. Qed.

Lemma ip4addr_aton_dotted b cp a : is_u32 a → cstr b cp (dotted a) → ip4addr_aton b cp = Ok (Some a).
Proof.
  intros Ha [_ Hm]. destruct (u32_bytes a Ha) as (p0 & p1 & p2 & p3 & H0 & H1 & H2 & H3 & ->).
  assert (Hd : dotted (p0 + 256 * p1 + 65536 * p2 + 16777216 * p3) =
    dec_byte p0 ++ 46 :: dec_byte p1 ++ 46 :: dec_byte p2 ++ 46 :: dec_byte p3).
  { unfold dotted. unfold is_u8 in *. set (a := p0 + _ + _ + _) in *.
    replace (a mod 256) with p0 by (subst a; zlia). replace (a / 256 mod 256) with p1 by (subst a; zlia).
    replace (a / 65536 mod 256) with p2 by (subst a; zlia). by replace (a / 16777216) with p3 by (subst a; zlia). }
  rewrite Hd in Hm. replace (length _ + 1)%nat with
    (length ((dec_byte p0 ++ 46 :: dec_byte p1 ++ 46 :: dec_byte p2 ++ 46 :: dec_byte p3) ++ [0])) in Hm
    by (rewrite length_app; simpl; lia).
  repeat (rewrite <-app_assoc in Hm; cbn [app] in Hm).
  assert (Hf : (4 ≤ walk_fuel b)%nat).
  { eapply walk_fuel_4; [exact Hm|]. rewrite length_app. simpl. rewrite length_app. simpl. rewrite length_app. simpl. lia. }
  unfold ip4addr_aton.
  destruct (aton_parts_step b cp p0 _ 3 [] H0 Hf ltac:(done) (app_cons_ne _ _ _) Hm) as (c0 & -> & c1 & Hc1 & Hs).
  cbn [deref mbind res_bind]. rewrite Hs. clear Hs.
  apply mread_app_inv in Hm as [_ Hm]. apply (mread_app_inv _ _ [46]) in Hm as [_ Hm]. change (zlen [46]) with 1 in Hm.
  destruct (aton_parts_step b _ p1 _ 2 ([] ++ [p0]) H1 Hf ltac:(done) (app_cons_ne _ _ _) Hm) as (c & Hc & c2 & Hc2 & Hs).
  rewrite Hc in Hc1. injection Hc1 as ->. rewrite Hs. clear Hs.
  apply mread_app_inv in Hm as [_ Hm]. apply (mread_app_inv _ _ [46]) in Hm as [_ Hm]. change (zlen [46]) with 1 in Hm.
  destruct (aton_parts_step b _ p2 _ 1 (([] ++ [p0]) ++ [p1]) H2 Hf ltac:(done) (app_cons_ne _ _ _) Hm) as (c3 & Hc3 & c4 & Hc4 & Hs).
  rewrite Hc3 in Hc2. injection Hc2 as ->. rewrite Hs. clear Hs.
  apply mread_app_inv in Hm as [_ Hm]. apply (mread_app_inv _ _ [46]) in Hm as [_ Hm]. change (zlen [46]) with 1 in Hm.
  destruct (aton_parts_last b _ p3 0 ((([] ++ [p0]) ++ [p1]) ++ [p2]) H3 Hf Hm) as (c5 & Hc5 & Hs).
  rewrite Hc5 in Hc4. injection Hc4 as ->. rewrite Hs. cbn [mbind res_bind app]. change (0 =? 0) with true. cbn [negb andb].
  rewrite aton_combine_4 by done. cbn [mbind res_bind]. unfold lwip_htonl. by rewrite PP_HTONL_bytes.
Qed.

(** Print and parse: ip4addr_ntoa_r returns [buf] exactly when the dotted text and
    its terminator fit, 16 bytes always suffice, nothing outside the buffer is
    written, and ip4addr_aton of the printed text is the address printed. *)
Theorem ip4addr_roundtrip a buf buflen b : is_u32 a → buf ≠ 0 → mapped b buf buflen →
  ∃ r b', ip4addr_ntoa_r a buf buflen b = Ok (r, b') ∧ (r = buf ∨ r = 0) ∧
    (r = buf ↔ zlen (dotted a) < buflen) ∧ zlen (dotted a) < IP4ADDR_STRLEN_MAX ∧
    (∀ i, i < buf ∨ buf + buflen ≤ i → b' !! i = b !! i) ∧
    (r = buf → cstr b' buf (dotted a) ∧ ip4addr_aton b' buf = Ok (Some a)).
Proof.
  intros Ha Hb Hm. destruct (ip4addr_ntoa_r_ok a buf buflen b Ha Hm) as (b' & Hr & Hs & Ho).
  destruct (dotted_chars a Ha) as [_ Hlen]. eexists _, b'. split; [exact Hr|].
  destruct (_ <=? _) eqn:E; breflect.
  - split_and!; [by left|lia|unfold IP4ADDR_STRLEN_MAX; lia|done|].
    intros _. specialize (Hs E). split; [done|]. by apply ip4addr_aton_dotted.
  - split_and!; [by right|lia|unfold IP4ADDR_STRLEN_MAX; lia|done|lia].
Qed.

(** ** Net masks *)

Lemma land_pow2 nm j : 0 ≤ j → (Z.land nm (2 ^ j) =? 0) = negb (Z.testbit nm j).
Proof.
  intros Hj. destruct (Z.testbit nm j) eqn:E; simpl.
  - apply Z.eqb_neq. intros H. apply (f_equal (λ x, Z.testbit x j)) in H.
    by rewrite Z.land_spec, E, Z.pow2_bits_true, Z.bits_0 in H by lia.
  - apply Z.eqb_eq, Z.bits_inj'. intros i Hi. rewrite Z.land_spec, Z.bits_0, Z.pow2_bits_eqb by lia.
    destruct (j =? i) eqn:Ej; breflect; [subst; by rewrite E|apply andb_false_r].
Qed.

Lemma pow2_neq0 j : 0 ≤ j → (2 ^ j =? 0) = false.
Proof. intros. apply Z.eqb_neq. pose proof (Z.pow_pos_nonneg 2 j). lia. Qed.

(** One shift to the right of the mask that selects bit [j]. *)
Lemma shiftr_pow2 (j : nat) : Z.shiftr (2 ^ Z.of_nat j) 1 = match j with O => 0 | S j => 2 ^ Z.of_nat j end.
Proof.
  destruct j as [|j]; [done|]. rewrite Z.shiftr_div_pow2 by lia. replace (Z.of_nat (S j)) with (Z.of_nat j + 1) by lia.
  rewrite Z.pow_add_r by lia. change (2 ^ 1) with 2. by apply Z.div_mul.
Qed.

Lemma first_zero_ok nm j : ∀ fuel, (j + 2 ≤ fuel)%nat →
  first_zero_loop fuel nm (2 ^ Z.of_nat j) = 0 ∧ (∀ i, 0 ≤ i ≤ Z.of_nat j → Z.testbit nm i = true) ∨
  ∃ k : nat, (k ≤ j)%nat ∧ first_zero_loop fuel nm (2 ^ Z.of_nat j) = 2 ^ Z.of_nat k ∧ Z.testbit nm (Z.of_nat k) = false ∧
    ∀ i, Z.of_nat k < i ≤ Z.of_nat j → Z.testbit nm i = true.
Proof.
  induction j as [|j IH]; intros fuel Hf; (destruct fuel as [|fuel]; [lia|]); cbn [first_zero_loop];
    rewrite pow2_neq0, land_pow2, shiftr_pow2 by lia; cbn [negb].
  - destruct (Z.testbit nm (Z.of_nat 0)) eqn:E; cbn [negb].
    + left. split; [by destruct fuel|]. intros i Hi. by replace i with (Z.of_nat 0) by lia.
    + right. exists 0%nat. split_and!; [lia|done|done|lia].
  - destruct (Z.testbit nm (Z.of_nat (S j))) eqn:E; cbn [negb].
    + destruct (IH fuel) as [[-> Hall]|(k & Hk & -> & Hk0 & Hall)]; [lia| |].
      * left. split; [done|]. intros i Hi. destruct (decide (i = Z.of_nat (S j))) as [->|]; [done|]. apply Hall. lia.
      * right. exists k. split_and!; [lia|done|done|]. intros i Hi.
        destruct (decide (i = Z.of_nat (S j))) as [->|]; [done|]. apply Hall. lia.
    + right. exists (S j). split_and!; [lia|done|done|lia].
Qed.

Lemma no_one_ok nm j : ∀ fuel, (j + 2 ≤ fuel)%nat →
  no_one_loop fuel nm (2 ^ Z.of_nat j) = 1 ∧ (∀ i, 0 ≤ i ≤ Z.of_nat j → Z.testbit nm i = false) ∨
  no_one_loop fuel nm (2 ^ Z.of_nat j) = 0 ∧ ∃ i, 0 ≤ i ≤ Z.of_nat j ∧ Z.testbit nm i = true.
Proof.
  induction j as [|j IH]; intros fuel Hf; (destruct fuel as [|fuel]; [lia|]); cbn [no_one_loop];
    rewrite pow2_neq0, land_pow2, shiftr_pow2 by lia; rewrite negb_involutive; cbn [negb].
  - destruct (Z.testbit nm (Z.of_nat 0)) eqn:E.
    + right. split; [done|]. exists 0. done.
    + left. split; [by destruct fuel|]. intros i Hi. by replace i with (Z.of_nat 0) by lia.
  - destruct (Z.testbit nm (Z.of_nat (S j))) eqn:E.
    + right. split; [done|]. exists (Z.of_nat (S j)). split; [lia|done].
    + destruct (IH fuel) as [[-> Hall]|(-> & i & Hi & Hb)]; [lia| |].
      * left. split; [done|]. intros i Hi. destruct (decide (i = Z.of_nat (S j))) as [->|]; [done|]. apply Hall. lia.
      * right. split; [done|]. exists i. split; [lia|done].
Qed.

(** [k] ones followed by [32 - k] zeros. *)
Definition prefix_mask (k : Z) : Z := Z.shiftl (Z.ones k) (32 - k).

Lemma prefix_mask_bits k i : 0 ≤ k ≤ 32 → 0 ≤ i → Z.testbit (prefix_mask k) i = (32 - k <=? i) && (i <? 32).
Proof.
  intros Hk Hi. unfold prefix_mask. rewrite Z.shiftl_spec by lia.
  destruct (32 - k <=? i) eqn:E1; breflect; cbn [andb].
  - rewrite Z.testbit_ones_nonneg by lia. lia.
  - apply Z.testbit_neg_r. lia.
Qed.

Lemma prefix_mask_intro nm k : is_u32 nm → 0 ≤ k ≤ 32 →
  (∀ i, 0 ≤ i < 32 - k → Z.testbit nm i = false) → (∀ i, 32 - k ≤ i < 32 → Z.testbit nm i = true) → nm = prefix_mask k.
Proof.
  intros Hn Hk Hlo Hhi. apply Z.bits_inj'. intros i Hi. rewrite prefix_mask_bits by lia.
  destruct (decide (i < 32 - k)); [rewrite Hlo by lia; lia|].
  destruct (decide (i < 32)); [rewrite Hhi by lia; lia|].
  replace ((32 - k <=? i) && (i <? 32)) with false by lia.
  rewrite <-(Z.mod_small nm (2 ^ 32)) by (unfold is_u32 in Hn; lia). apply Z.mod_pow2_bits_high. lia.
Qed.

(** Net masks: ip4_addr_netmask_valid returns 1 exactly for the 33 masks that are,
    in host byte order, [k] ones followed by [32 - k] zeros, and 0 for all others. *)
Theorem ip4_addr_netmask_valid_exact netmask : is_u32 netmask →
  (ip4_addr_netmask_valid netmask = 1 ∨ ip4_addr_netmask_valid netmask = 0) ∧
  (ip4_addr_netmask_valid netmask = 1 ↔ ∃ k, 0 ≤ k ≤ 32 ∧ lwip_htonl netmask = prefix_mask k).
Proof.
  intros Hn. pose proof (htonl_u32 _ Hn) as Hh. unfold ip4_addr_netmask_valid. set (nm := lwip_htonl netmask) in *.
  change (Z.shiftl 1 31) with (2 ^ Z.of_nat 31).
  destruct (first_zero_ok nm 31 33) as [[-> Hall]|(j & Hj & -> & Hj0 & Hall)]; [lia| |].
  - change (no_one_loop 33 nm 0) with 1. split; [by left|]. split; [intros _|done]. exists 32. split; [lia|].
    apply prefix_mask_intro; [done|lia|lia|]. intros i Hi. apply Hall. lia.
  - destruct (no_one_ok nm j 33) as [[-> Hno]|(-> & i & Hi & Hb)]; [lia| |]; (split; [by (left + right)|]).
    + split; [intros _|done]. exists (31 - Z.of_nat j). split; [lia|].
      apply prefix_mask_intro; [done|lia| |]; intros i Hi; [apply Hno|apply Hall]; lia.
    + split; [done|]. intros (k & Hk & Heq). exfalso. rewrite Heq in Hb, Hj0.
      rewrite prefix_mask_bits in Hb, Hj0 by lia. lia.
Qed.

(** ** Witnesses *)

Lemma ip4addr_roundtrip_witness :
  is_u32 16820416 ∧ mapped sample_strings 300 20 ∧ dotted 16820416 = [49; 57; 50; 46; 49; 54; 56; 46; 48; 46; 49] ∧
  ∃ r b', ip4addr_ntoa_r 16820416 300 20 sample_strings = Ok (r, b') ∧ (r = 300 ∨ r = 0) ∧
    (r = 300 ↔ zlen (dotted 16820416) < 20) ∧ zlen (dotted 16820416) < IP4ADDR_STRLEN_MAX ∧
    (∀ i, i < 300 ∨ 300 + 20 ≤ i → b' !! i = sample_strings !! i) ∧
    (r = 300 → cstr b' 300 (dotted 16820416) ∧ ip4addr_aton b' 300 = Ok (Some 16820416)).
Proof.
  split; [done|]. split; [apply sample_buffer|]. split; [reflexivity|].
  apply ip4addr_roundtrip; [done|done|apply sample_buffer].
Defined.

Lemma ip4addr_aton_safe_witness :
  ∃ r, ip4addr_aton sample_strings 100 = Ok r ∧ (∀ a, r = Some a → is_u32 a) ∧
       ipaddr_addr sample_strings 100 = Ok (default IPADDR_NONE r).
Proof. apply (ip4addr_aton_safe sample_strings 100 [97; 98; 99; 65; 66]). apply sample_cstr. Defined.

Lemma ip4_addr_netmask_valid_exact_witness :
  is_u32 16777215 ∧ ip4_addr_netmask_valid 16777215 = 1 ∧ lwip_htonl 16777215 = prefix_mask 24 ∧
  ((ip4_addr_netmask_valid 16777215 = 1 ∨ ip4_addr_netmask_valid 16777215 = 0) ∧
   (ip4_addr_netmask_valid 16777215 = 1 ↔ ∃ k, 0 ≤ k ≤ 32 ∧ lwip_htonl 16777215 = prefix_mask k)).
Proof.
  split; [done|]. split; [reflexivity|]. split; [reflexivity|]. by apply ip4_addr_netmask_valid_exact.
Defined.

(** Numbers wrap around: "4294967297.2.3.4" is accepted as 1.2.3.4. *)
Example ip4addr_aton_wraps :
  ip4addr_aton (mwrite ∅ 100 [52; 50; 57; 52; 57; 54; 55; 50; 57; 55; 46; 50; 46; 51; 46; 52; 0]) 100 =
  Ok (Some 67305985).
Proof. vm_compute. reflexivity. Qed.

(** The digits 8 and 9 are accepted in octal numbers and "0x" without digits is 0:
    "0x.09" is accepted as 0.0.0.9. *)
Example ip4addr_aton_octal_9 :
  ip4addr_aton (mwrite ∅ 100 [48; 120; 46; 48; 57; 0]) 100 = Ok (Some (lwip_htonl 9)).
Proof. vm_compute. reflexivity. Qed.
