(* ===== verification/Timeouts.v ===== *)
(** * Timers: core/timeouts.c

    Pending timeouts form a list sorted by due time.  Times are 32-bit
    milliseconds that wrap around, compared by [TIME_LESS_THAN].  The list
    elements come from the pool MEMP_SYS_TIMEOUT, reached through the class
    [Pool]; the clock, the TCP module and the callbacks of the timers are
    the operations of the class [TimerEnv], which may themselves start and stop
    timeouts.  Configuration: NO_SYS 1, LWIP_TIMERS 1, LWIP_DEBUG_TIMERNAMES 0. *)

From S2P Require Import Prelude MempPool.

(** ** Data *)

(** [sys_timeout_handler]: the two handlers of this file and those of other
    modules and of the application. *)
Inductive handler := H_NULL | H_tcpip_tcp_timer | H_lwip_cyclic_timer | H_user (n : Z).

#[global] Instance handler_eq_dec : EqDecision handler.
Proof. solve_decision. Defined.

Record sys_timeo := SysTimeo { tnext : option Z; time : Z; h : handler; arg : Z }.

(** [tmo] holds the list elements in use, by address. *)
Record tstate (P W : Type) := TState {
  tmo : gmap Z sys_timeo; next_timeout : option Z; current_timeout_due_time : Z;
  tcpip_tcp_timer_active : Z; pool : P; world : W }.
Arguments TState {P W} _ _ _ _ _ _.
Arguments tmo {P W} _.
Arguments next_timeout {P W} _.
Arguments current_timeout_due_time {P W} _.
Arguments tcpip_tcp_timer_active {P W} _.
Arguments pool {P W} _.
Arguments world {P W} _.

(** What timeouts.c calls in other modules. *)
Class TimerEnv (P W : Type) := {
  sys_now : W → Z * W;
  PBUF_CHECK_FREE_OOSEQ : tstate P W → res (tstate P W);
  tcp_tmr : tstate P W → res (tstate P W);
  (** [tcp_active_pcbs || tcp_tw_pcbs] *)
  tcp_has_pcbs : tstate P W → bool;
  (** the handler of a cyclic timer, by its index in [lwip_cyclic_timers] *)
  cyclic_handler : nat → tstate P W → res (tstate P W);
  user_handler : Z → Z → tstate P W → res (tstate P W)
}.

Definition LWIP_MAX_TIMEOUT : Z := 2147483647.
Definition LWIP_UINT32_MAX : Z := 4294967295.
Definition SYS_TIMEOUTS_SLEEPTIME_INFINITE : Z := 4294967295.
Definition TCP_TMR_INTERVAL : Z := 250.

Definition TIME_LESS_THAN (t compare_to : Z) : bool := LWIP_MAX_TIMEOUT <? u32 (t - compare_to).

(** The intervals of [lwip_cyclic_timers] for the configuration of lwipopts.h:
    tcp_tmr, ip_reass_tmr, etharp_tmr, dhcp_coarse_tmr, dhcp_fine_tmr, autoip_tmr,
    igmp_tmr, dns_tmr, nd6_tmr, ip6_reass_tmr, mld6_tmr. *)
Definition lwip_cyclic_timers : list Z :=
  [TCP_TMR_INTERVAL; 1000; 1000; 60000; 500; 100; 100; 1000; 1000; 1000; 100].

Section operations.
Context {P W : Type} `{Pool P} `{TimerEnv P W}.
Implicit Types s : tstate P W.

Definition gett (a : Z) s : res sys_timeo := deref (tmo s !! a).
Definition putt (a : Z) (t : sys_timeo) s : tstate P W :=
  TState (<[a := t]> (tmo s)) (next_timeout s) (current_timeout_due_time s) (tcpip_tcp_timer_active s) (pool s) (world s).
Definition set_next_timeout (v : option Z) s : tstate P W :=
  TState (tmo s) v (current_timeout_due_time s) (tcpip_tcp_timer_active s) (pool s) (world s).
Definition set_due_time (v : Z) s : tstate P W :=
  TState (tmo s) (next_timeout s) v (tcpip_tcp_timer_active s) (pool s) (world s).
Definition set_tcp_active (v : Z) s : tstate P W :=
  TState (tmo s) (next_timeout s) (current_timeout_due_time s) v (pool s) (world s).
Definition set_world (w : W) s : tstate P W :=
  TState (tmo s) (next_timeout s) (current_timeout_due_time s) (tcpip_tcp_timer_active s) (pool s) w.
Definition with_tnext (v : option Z) (t : sys_timeo) : sys_timeo := SysTimeo v (time t) (h t) (arg t).
Definition with_time (v : Z) (t : sys_timeo) : sys_timeo := SysTimeo (tnext t) v (h t) (arg t).

(** [memp_malloc(MEMP_SYS_TIMEOUT)] and the initialisation of the new element;
    [memp_free(MEMP_SYS_TIMEOUT, a)], after which the element must not be used. *)
Definition new_timeo (t : sys_timeo) s : res (option Z * tstate P W) :=
  '(r, p) ← pool_malloc (pool s);
  match r with
  | None => Ok (None, s)
  | Some a => Ok (Some a, TState (<[a := t]> (tmo s)) (next_timeout s) (current_timeout_due_time s)
                                 (tcpip_tcp_timer_active s) p (world s))
  end.
Definition free_timeo (a : Z) s : res (tstate P W) :=
  p ← pool_free a (pool s);
  Ok (TState (delete a (tmo s)) (next_timeout s) (current_timeout_due_time s) (tcpip_tcp_timer_active s) p (world s)).

(** [sys_now()] *)
Definition get_now s : Z * tstate P W := let '(n, w) := sys_now (world s) in (n, set_world w s).

(** A walk along the list visits every element at most once. *)
Definition list_fuel s : nat := S (size (tmo s)).

(** ** Starting a timeout *)

(** The [for] loop of sys_timeout_abs; [a] is the new element. *)
Fixpoint timeout_abs_loop (fuel : nat) (a : Z) (t : Z) s : res (tstate P W) :=
  match fuel with
  | O => Stuck
  | S fuel =>
      timeout ← gett a s;
      tt ← gett t s;
      match tnext tt with
      | None => Ok (putt t (with_tnext (Some a) tt) (putt a (with_tnext None timeout) s))
      | Some n =>
          nt ← gett n s;
          if TIME_LESS_THAN (time timeout) (time nt)
          then Ok (putt t (with_tnext (Some a) tt) (putt a (with_tnext (Some n) timeout) s))
          else timeout_abs_loop fuel a n s
      end
  end.

Definition sys_timeout_abs (abs_time : Z) (hd : handler) (ar : Z) s : res (tstate P W) :=
  '(r, s) ← new_timeo (SysTimeo None abs_time hd ar) s;
  match r with
  | None => Assert
  | Some a =>
      match next_timeout s with
      | None => Ok (set_next_timeout (Some a) s)
      | Some n =>
          timeout ← gett a s;
          nt ← gett n s;
          if TIME_LESS_THAN (time timeout) (time nt)
          then Ok (set_next_timeout (Some a) (putt a (with_tnext (Some n) timeout) s))
          else timeout_abs_loop (list_fuel s) a n s
      end
  end.

Definition sys_timeout (msecs : Z) (hd : handler) (ar : Z) s : res (tstate P W) :=
  LWIP_ASSERT (msecs <=? LWIP_UINT32_MAX / 4);;
  let '(now, s) := get_now s in
  sys_timeout_abs (u32 (now + msecs)) hd ar s.

(** ** Stopping a timeout *)

Fixpoint untimeout_loop (fuel : nat) (prev_t t : option Z) (hd : handler) (ar : Z) s : res (tstate P W) :=
  match t with
  | None => Ok s
  | Some t =>
      match fuel with
      | O => Stuck
      | S fuel =>
          tt ← gett t s;
          if bool_decide (h tt = hd) && (arg tt =? ar) then
            s ← (match prev_t with
                 | None => Ok (set_next_timeout (tnext tt) s)
                 | Some p => pt ← gett p s; Ok (putt p (with_tnext (tnext tt) pt) s)
                 end);
            free_timeo t s
          else untimeout_loop fuel (Some t) (tnext tt) hd ar s
      end
  end.

Definition sys_untimeout (hd : handler) (ar : Z) s : res (tstate P W) :=
  match next_timeout s with
  | None => Ok s
  | Some _ => untimeout_loop (list_fuel s) None (next_timeout s) hd ar s
  end.

(** ** The handlers of this file *)

Definition tcpip_tcp_timer s : res (tstate P W) :=
  s ← tcp_tmr s;
  if tcp_has_pcbs s then sys_timeout TCP_TMR_INTERVAL H_tcpip_tcp_timer 0 s
  else Ok (set_tcp_active 0 s).

Definition tcp_timer_needed s : res (tstate P W) :=
  if (tcpip_tcp_timer_active s =? 0) && tcp_has_pcbs s then
    sys_timeout TCP_TMR_INTERVAL H_tcpip_tcp_timer 0 (set_tcp_active 1 s)
  else Ok s.

(** [ar] is the index of the timer, which the code passes as a pointer into the
    table. *)
Definition lwip_cyclic_timer (ar : Z) s : res (tstate P W) :=
  interval_ms ← deref (lwip_cyclic_timers !! Z.to_nat ar);
  s ← cyclic_handler (Z.to_nat ar) s;
  let '(now, s) := get_now s in
  let next_timeout_time := u32 (current_timeout_due_time s + interval_ms) in
  if TIME_LESS_THAN next_timeout_time now
  then sys_timeout_abs (u32 (now + interval_ms)) H_lwip_cyclic_timer ar s
  else sys_timeout_abs next_timeout_time H_lwip_cyclic_timer ar s.

(** [for (i = 1; i < LWIP_ARRAYSIZE(lwip_cyclic_timers); i++)]; [l] are the
    remaining intervals, the TCP timer at index 0 is started on demand. *)
Fixpoint timeouts_init_loop (l : list Z) (i : Z) s : res (tstate P W) :=
  match l with
  | [] => Ok s
  | interval_ms :: l =>
      s ← sys_timeout interval_ms H_lwip_cyclic_timer i s;
      timeouts_init_loop l (i + 1) s
  end.
Definition sys_timeouts_init s : res (tstate P W) := timeouts_init_loop (drop 1 lwip_cyclic_timers) 1 s.

(** [handler(arg)] *)
Definition call_handler (hd : handler) (ar : Z) s : res (tstate P W) :=
  match hd with
  | H_NULL => Ok s
  | H_tcpip_tcp_timer => tcpip_tcp_timer s
  | H_lwip_cyclic_timer => lwip_cyclic_timer ar s
  | H_user n => user_handler n ar s
  end.

(** ** Processing *)

(** The [do ... while (1)] of sys_check_timeouts.  Handlers may start new timeouts
    that are due at once, so the number of rounds has no bound of its own and
    [fuel] is a parameter. *)
Fixpoint check_timeouts_loop (fuel : nat) (now : Z) s : res (tstate P W) :=
  match fuel with
  | O => Stuck
  | S fuel =>
      s ← PBUF_CHECK_FREE_OOSEQ s;
      match next_timeout s with
      | None => Ok s
      | Some a =>
          tmptimeout ← gett a s;
          if TIME_LESS_THAN now (time tmptimeout) then Ok s else
          let s := set_due_time (time tmptimeout) (set_next_timeout (tnext tmptimeout) s) in
          s ← free_timeo a s;
          s ← call_handler (h tmptimeout) (arg tmptimeout) s;
          check_timeouts_loop fuel now s
      end
  end.

Definition sys_check_timeouts (fuel : nat) s : res (tstate P W) :=
  let '(now, s) := get_now s in
  check_timeouts_loop fuel now s.

Fixpoint restart_loop (fuel : nat) (t : option Z) (base now : Z) s : res (tstate P W) :=
  match t with
  | None => Ok s
  | Some t =>
      match fuel with
      | O => Stuck
      | S fuel =>
          tt ← gett t s;
          let tt := with_time (u32 (u32 (time tt - base) + now)) tt in
          restart_loop fuel (tnext tt) base now (putt t tt s)
      end
  end.

Definition sys_restart_timeouts s : res (tstate P W) :=
  match next_timeout s with
  | None => Ok s
  | Some a =>
      let '(now, s) := get_now s in
      nt ← gett a s;
      restart_loop (list_fuel s) (Some a) (time nt) now s
  end.

Definition sys_timeouts_sleeptime s : res (Z * tstate P W) :=
  match next_timeout s with
  | None => Ok (SYS_TIMEOUTS_SLEEPTIME_INFINITE, s)
  | Some a =>
      let '(now, s) := get_now s in
      nt ← gett a s;
      if TIME_LESS_THAN (time nt) now then Ok (0, s)
      else
        let ret := u32 (time nt - now) in
        LWIP_ASSERT (ret <=? LWIP_MAX_TIMEOUT);;
        Ok (ret, s)
  end.

End operations.
