(* ===== verification/TimeoutsFacts.v ===== *)
(** * Timers: theorems

    [pending s al] relates the linked list of a state to the abstract list [al] of
    pending timeouts (due time, handler, argument).  The operations refine
    operations on the abstract list: ordered insertion, removal of the first match,
    popping what is due.  Due times are ordered within a window of 2^31 - 1
    milliseconds from a base time, whatever the clock's wrap-around. *)

From Stdlib Require Import Sorted.
From S2P Require Import Prelude MempPool Timeouts.

(** ** The abstract list *)

Record timeout := Timeout { due : Z; cb : handler; cb_arg : Z }.

Definition ent (t : sys_timeo) : timeout := Timeout (time t) (h t) (arg t).

Fixpoint insert_timeout (e : timeout) (al : list timeout) : list timeout :=
  match al with
  | [] => [e]
  | e' :: al => if TIME_LESS_THAN (due e) (due e') then e :: e' :: al else e' :: insert_timeout e al
  end.

Definition matches (hd : handler) (ar : Z) (e : timeout) : bool :=
  bool_decide (cb e = hd) && (cb_arg e =? ar).

Fixpoint remove_first (hd : handler) (ar : Z) (al : list timeout) : list timeout :=
  match al with
  | [] => []
  | e :: al => if matches hd ar e then al else e :: remove_first hd ar al
  end.

(** Due times relative to [base]. *)
Definition off (base t : Z) : Z := u32 (t - base).

Definition in_window (base : Z) (e : timeout) : Prop := is_u32 (due e) ∧ off base (due e) ≤ LWIP_MAX_TIMEOUT.

Definition sorted_from (base : Z) (al : list timeout) : Prop :=
  Forall (in_window base) al ∧ StronglySorted (λ e e', off base (due e) ≤ off base (due e')) al.

(** Inside the window [TIME_LESS_THAN] is the order of the offsets. *)
Lemma TIME_LESS_THAN_window base a b :
  off base a ≤ LWIP_MAX_TIMEOUT → off base b ≤ LWIP_MAX_TIMEOUT →
  TIME_LESS_THAN a b = (off base a <? off base b).
Proof.
  unfold TIME_LESS_THAN, off, LWIP_MAX_TIMEOUT. intros Ha Hb.
  assert (He : u32 (a - b) = u32 (u32 (a - base) - u32 (b - base))) by ulia. rewrite He. clear He.
  pose proof (u32_range (a - base)) as Ra. pose proof (u32_range (b - base)) as Rb.
  set (x := u32 (a - base)) in *. set (y := u32 (b - base)) in *. clearbody x y.
  unfold is_u32, u32 in *.
  destruct (x <? y) eqn:E; breflect.
  - replace ((x - y) mod 4294967296) with (x - y + 4294967296) by zlia. lia.
  - rewrite Z.mod_small by lia. lia.
Qed.

Lemma insert_timeout_split e al : ∃ al1 al2,
  al = al1 ++ al2 ∧ insert_timeout e al = al1 ++ e :: al2 ∧
  Forall (λ e', TIME_LESS_THAN (due e) (due e') = false) al1 ∧
  match al2 with [] => True | e' :: _ => TIME_LESS_THAN (due e) (due e') = true end.
Proof.
  induction al as [|e' al (al1 & al2 & -> & Hi & H1 & H2)]; [by exists [], []|]. cbn [insert_timeout].
  destruct (TIME_LESS_THAN (due e) (due e')) eqn:E.
  - by exists [], (e' :: al1 ++ al2).
  - exists (e' :: al1), al2. rewrite Hi. split_and!; [done|done|by constructor|done].
Qed.

Lemma StronglySorted_middle {A} (R : A → A → Prop) l1 x l2 :
  StronglySorted R (l1 ++ l2) → Forall (λ y, R y x) l1 → Forall (R x) l2 → StronglySorted R (l1 ++ x :: l2).
Proof.
  induction l1 as [|y l1 IH]; simpl; intros Hs H1 H2; [by constructor|].
  apply StronglySorted_inv in Hs as [Hs Hy]. apply Forall_cons in H1 as [Hyx H1].
  constructor; [by apply IH|]. apply Forall_app in Hy as [? ?]. apply Forall_app. split; [done|by constructor].
Qed.

Lemma StronglySorted_app_r {A} (R : A → A → Prop) l1 l2 : StronglySorted R (l1 ++ l2) → StronglySorted R l2.
Proof. induction l1; simpl; [done|]. intros [? _]%StronglySorted_inv. auto. Qed.

(** Insertion into a sorted list: after everything due no later, before the rest. *)
Lemma insert_timeout_sorted base e al : in_window base e → sorted_from base al →
  ∃ al1 al2, al = al1 ++ al2 ∧ insert_timeout e al = al1 ++ e :: al2 ∧ sorted_from base (al1 ++ e :: al2) ∧
    Forall (λ e', off base (due e') ≤ off base (due e)) al1 ∧ Forall (λ e', off base (due e) < off base (due e')) al2.
Proof.
  intros He [Hw Hs]. destruct (insert_timeout_split e al) as (al1 & al2 & -> & Hi & H1 & H2).
  exists al1, al2. pose proof Hw as [Hw1 Hw2]%Forall_app.
  assert (Hle : Forall (λ e', off base (due e') ≤ off base (due e)) al1).
  { apply Forall_forall. intros e' Hin. rewrite Forall_forall in H1, Hw1. specialize (H1 e' Hin).
    destruct (Hw1 e' Hin), He. rewrite (TIME_LESS_THAN_window base) in H1 by done. breflect. done. }
  assert (Hgt : Forall (λ e', off base (due e) < off base (due e')) al2).
  { apply StronglySorted_app_r in Hs. destruct al2 as [|e' al2]; [done|].
    apply Forall_cons in Hw2 as [[_ Hw2'] _]. destruct He as [_ He].
    rewrite (TIME_LESS_THAN_window base) in H2 by done. breflect.
    apply StronglySorted_inv in Hs as [_ Hs]. constructor; [done|]. eapply Forall_impl; [exact Hs|]. simpl. lia. }
  split_and!; [done|done| |done|done]. split; [apply Forall_app; split; [done|by constructor]|].
  apply StronglySorted_middle; [done|done|]. eapply Forall_impl; [exact Hgt|]. simpl. lia.
Qed.

(** ** The linked list *)

Fixpoint tpath (m : gmap Z sys_timeo) (p : option Z) (l : list (Z * sys_timeo)) (e : option Z) : Prop :=
  match l with
  | [] => p = e
  | (a, t) :: l => p = Some a ∧ m !! a = Some t ∧ tpath m (tnext t) l e
  end.

Lemma tpath_app m p l1 l2 e : tpath m p (l1 ++ l2) e ↔ ∃ x, tpath m p l1 x ∧ tpath m x l2 e.
Proof.
  revert p; induction l1 as [|[a t] l1 IH]; simpl; intros p; [naive_solver|]. rewrite IH. naive_solver.
Qed.

Lemma tpath_frame m m' p l e : (∀ a, a ∈ l.*1 → m' !! a = m !! a) → tpath m p l e → tpath m' p l e.
Proof.
  revert p; induction l as [|[a t] l IH]; simpl; intros p Hf H; [done|].
  destruct H as (-> & Ha & H). split_and!; [done|by rewrite Hf by (by left)|].
  apply IH; [|done]. intros b Hb. apply Hf. by right.
Qed.

Lemma tpath_lookup m p l e a t : tpath m p l e → (a, t) ∈ l → m !! a = Some t.
Proof.
  revert p; induction l as [|[b u] l IH]; intros p H Hin; [by apply not_elem_of_nil in Hin|].
  destruct H as (_ & Hb & H). apply elem_of_cons in Hin as [?|?]; [by simplify_eq|eauto].
Qed.

Lemma tpath_length m p l : tpath m p l None → NoDup l.*1 → (length l ≤ size m)%nat.
Proof.
  intros H Hnd. rewrite <-size_dom, <-(length_fmap fst l), <-(size_list_to_set (C := gset Z) _ Hnd).
  apply subseteq_size. intros a Ha. apply elem_of_list_to_set, list_elem_of_fmap in Ha as ([b t] & -> & Hin).
  apply elem_of_dom. exists t. by eapply tpath_lookup.
Qed.

Section facts.
Context {P W : Type} `{PoolLaws P} `{TimerEnv P W}.
Implicit Types s : tstate P W.

Definition ents (l : list (Z * sys_timeo)) : list timeout := map (λ x, ent x.2) l.

Definition pending s (al : list timeout) : Prop :=
  ∃ l, tpath (tmo s) (next_timeout s) l None ∧ pool_ok (pool s) l.*1 ∧ al = ents l.

(** Everything but the list and the pool. *)
Definition same_rest s s' : Prop :=
  current_timeout_due_time s' = current_timeout_due_time s ∧ tcpip_tcp_timer_active s' = tcpip_tcp_timer_active s ∧
  world s' = world s.

Definition set_tmo (m : gmap Z sys_timeo) s : tstate P W :=
  TState m (next_timeout s) (current_timeout_due_time s) (tcpip_tcp_timer_active s) (pool s) (world s).

Lemma gett_ok a t s : tmo s !! a = Some t → gett a s = Ok t.
Proof. unfold gett. by intros ->. Qed.

(** ** Starting a timeout *)

(** The loop inserts the new element behind [t]. *)
Lemma abs_loop_ok a new : ∀ fuel l2 t tt s,
  tmo s !! a = Some new → tpath (tmo s) (Some t) ((t, tt) :: l2) None → NoDup (a :: t :: l2.*1) →
  (length l2 < fuel)%nat →
  ∃ m' l', timeout_abs_loop fuel a t s = Ok (set_tmo m' s) ∧ tpath m' (Some t) l' None ∧
    ents l' = ent tt :: insert_timeout (ent new) (ents l2) ∧ l'.*1 ≡ₚ a :: t :: l2.*1 ∧
    (∀ x, x ∉ a :: t :: l2.*1 → m' !! x = tmo s !! x).
Proof.
  induction fuel as [|fuel IH]; intros l2 t tt s Ha Hp Hnd Hf; [lia|]. cbn [timeout_abs_loop].
  rewrite (gett_ok a new s Ha). destruct Hp as (_ & Ht & Hp). rewrite (gett_ok t tt s Ht). cbn [mbind res_bind].
  pose proof Hnd as [Hat [Htl Hnd']%NoDup_cons]%NoDup_cons. assert (Hne : a ≠ t) by set_solver.
  assert (Hstop : ∀ nx, tpath (tmo s) nx l2 None → ents l2 = [] ∨ TIME_LESS_THAN (time new) (default 0 (due <$> head (ents l2))) = true →
    ∃ m' l', Ok (putt t (with_tnext (Some a) tt) (putt a (with_tnext nx new) s)) = Ok (set_tmo m' s) ∧
      tpath m' (Some t) l' None ∧ ents l' = ent tt :: insert_timeout (ent new) (ents l2) ∧ l'.*1 ≡ₚ a :: t :: l2.*1 ∧
      (∀ x, x ∉ a :: t :: l2.*1 → m' !! x = tmo s !! x)).
  { intros nx Hnx Hlt.
    eexists _, ((t, with_tnext (Some a) tt) :: (a, with_tnext nx new) :: l2). split; [done|].
    cbn [putt tmo tpath tnext with_tnext fst snd fmap list_fmap ents map]. split_and!; [done| |done| | | | |].
    - by rewrite lookup_insert_eq.
    - by rewrite lookup_insert_ne, lookup_insert_eq.
    - eapply tpath_frame; [|exact Hnx]. intros x Hx. rewrite !lookup_insert_ne; [done|set_solver..].
    - change (ent (with_tnext (Some a) tt)) with (ent tt). change (ent (with_tnext nx new)) with (ent new). f_equal.
      fold (ents l2) in *. destruct (ents l2) as [|e al]; [done|]. cbn [insert_timeout]. destruct Hlt as [|Hlt]; [done|].
      change (due (ent new)) with (time new). simpl in Hlt. by rewrite Hlt.
    - by apply perm_swap.
    - intros x Hx. rewrite !lookup_insert_ne; [done|set_solver..]. }
  destruct l2 as [|[n nt] l2].
  { simpl in Hp. rewrite Hp. apply Hstop; [done|by left]. }
  destruct Hp as (Hnx & Hn & Hp). rewrite Hnx, (gett_ok n nt s Hn). cbn [mbind res_bind].
  destruct (TIME_LESS_THAN (time new) (time nt)) eqn:E.
  { apply Hstop; [done|by right]. }
  clear Hstop. simpl in Hat, Htl, Hnd', Hf.
  destruct (IH l2 n nt s Ha) as (m' & l' & -> & Hp' & He & Hperm & Hfr); [done| |lia|].
  { apply NoDup_cons. split; [set_solver|done]. }
  exists m', ((t, tt) :: l'). split; [done|]. split_and!.
  - split_and!; [done|rewrite Hfr; [done|set_solver]|by rewrite Hnx].
  - cbn [ents map snd]. fold (ents l') (ents l2). rewrite He. cbn [insert_timeout].
    change (due (ent new)) with (time new). change (due (ent nt)) with (time nt). by rewrite E.
  - cbn [fmap list_fmap fst]. rewrite Hperm. apply perm_swap.
  - intros x Hx. apply Hfr. set_solver.
Qed.

Lemma new_timeo_ok s (l : list (Z * sys_timeo)) t : pool_ok (pool s) l.*1 →
  (pool_malloc (pool s) = Ok (None, pool s) ∧ new_timeo t s = Ok (None, s)) ∨
  ∃ a p, new_timeo t s = Ok (Some a, TState (<[a := t]> (tmo s)) (next_timeout s) (current_timeout_due_time s)
                                            (tcpip_tcp_timer_active s) p (world s)) ∧ pool_ok p (a :: l.*1).
Proof.
  intros Hok. destruct (pool_malloc_ok _ _ Hok) as (r & p & Hm & Hr). unfold new_timeo. rewrite Hm. cbn [mbind res_bind].
  destruct r as [a|]; [right; by exists a, p|]. subst p. by left.
Qed.

(** sys_timeout_abs inserts into the abstract list, or aborts when the pool is empty. *)
Lemma sys_timeout_abs_ok s al t hd ar : pending s al →
  (pool_malloc (pool s) = Ok (None, pool s) ∧ sys_timeout_abs t hd ar s = Assert) ∨
  ∃ s', sys_timeout_abs t hd ar s = Ok s' ∧ pending s' (insert_timeout (Timeout t hd ar) al) ∧ same_rest s s'.
Proof.
  intros (l & Hp & Hok & ->). unfold sys_timeout_abs.
  destruct (new_timeo_ok s l (SysTimeo None t hd ar) Hok) as [[Hm ->]|(a & p & -> & Hok')]; [by left|]. right.
  cbn [mbind res_bind]. set (new := SysTimeo None t hd ar). set (s1 := TState _ _ _ _ _ _).
  pose proof (pool_nodup _ _ Hok') as Hnd. pose proof Hnd as [Ha _]%NoDup_cons.
  assert (Hp1 : tpath (tmo s1) (next_timeout s) l None).
  { eapply tpath_frame; [|exact Hp]. intros x Hx. simpl. rewrite lookup_insert_ne; [done|]. by intros <-. }
  assert (Ha1 : tmo s1 !! a = Some new) by (simpl; by rewrite lookup_insert_eq).
  change (next_timeout s1) with (next_timeout s). destruct l as [|[n nt] l].
  - simpl in Hp. rewrite Hp. eexists. split; [done|]. split; [|done]. exists [(a, new)].
    split; [|done]. split_and!; [done|exact Ha1|done].
  - destruct Hp1 as (Hnx & Hn & Hp1). rewrite Hnx, (gett_ok a new s1 Ha1). cbn [mbind res_bind].
    rewrite (gett_ok n nt s1 Hn). cbn [mbind res_bind]. destruct (TIME_LESS_THAN (time new) (time nt)) eqn:E.
    + eexists. split; [done|]. split; [|done]. exists ((a, with_tnext (Some n) new) :: (n, nt) :: l).
      split_and!; [|done|].
      * cbn [tpath set_next_timeout putt next_timeout tmo tnext with_tnext]. simpl in Ha.
        split_and!; [done|by rewrite lookup_insert_eq|done| |].
        -- rewrite lookup_insert_ne by set_solver. exact Hn.
        -- eapply tpath_frame; [|exact Hp1]. intros x Hx. rewrite lookup_insert_ne; [done|]. set_solver.
      * cbn [ents map snd]. change (ent (with_tnext (Some n) new)) with (Timeout t hd ar). cbn [insert_timeout].
        change (due (ent nt)) with (time nt). simpl in E. simpl. by rewrite E.
    + destruct (abs_loop_ok a new (list_fuel s1) l n nt s1) as (m' & l' & -> & Hp' & He & Hperm & _);
        [done|exact (conj eq_refl (conj Hn Hp1))|done| |].
      { apply NoDup_cons in Hnd as [_ Hnd]. pose proof (tpath_length (tmo s1) (Some n) ((n, nt) :: l)) as Hlen.
        specialize (Hlen (conj eq_refl (conj Hn Hp1)) Hnd). unfold list_fuel. simpl in Hlen. simpl. lia. }
      eexists. split; [done|]. split; [|done]. exists l'. split_and!; [simpl; by rewrite Hnx| |].
      * eapply pool_perm; [symmetry; exact Hperm|done].
      * rewrite He. cbn [ents map snd insert_timeout]. change (due (ent nt)) with (time nt).
        simpl in E. simpl. by rewrite E.
Qed.

(** sys_timeout: [now] is what the clock shows. *)
Lemma sys_timeout_ok s al msecs hd ar now w :
  pending s al → sys_now (world s) = (now, w) → 0 ≤ msecs ≤ LWIP_UINT32_MAX / 4 →
  (pool_malloc (pool s) = Ok (None, pool s) ∧ sys_timeout msecs hd ar s = Assert) ∨
  ∃ s', sys_timeout msecs hd ar s = Ok s' ∧
    pending s' (insert_timeout (Timeout (u32 (now + msecs)) hd ar) al) ∧ same_rest (set_world w s) s'.
Proof.
  intros Hp Hn Hm. unfold sys_timeout. replace (msecs <=? LWIP_UINT32_MAX / 4) with true by lia.
  cbn [LWIP_ASSERT mbind res_bind]. unfold get_now. rewrite Hn.
  assert (Hp' : pending (set_world w s) al) by (destruct Hp as (l & ? & ? & ?); by exists l).
  destruct (sys_timeout_abs_ok (set_world w s) al (u32 (now + msecs)) hd ar Hp') as [[? ?]|Hr]; [by left|by right].
Qed.

(** ** Stopping a timeout *)

Lemma free_timeo_ok s l a L : pool_ok (pool s) L → L ≡ₚ a :: l →
  ∃ p, free_timeo a s = Ok (TState (delete a (tmo s)) (next_timeout s) (current_timeout_due_time s)
                                   (tcpip_tcp_timer_active s) p (world s)) ∧ pool_ok p l ∧
    ∃ b q, pool_malloc p = Ok (Some b, q).
Proof.
  intros Hok Hperm. destruct (pool_free_ok _ _ _ _ Hok Hperm) as (p & Hf & Hok' & Hav). exists p.
  unfold free_timeo. by rewrite Hf.
Qed.

(** Taking the first matching element out of the list, [l1] being already passed. *)
Lemma untimeout_loop_ok hd ar : ∀ fuel l2 l1 s,
  tpath (tmo s) (next_timeout s) (l1 ++ l2) None → pool_ok (pool s) (l1 ++ l2).*1 → (length l2 ≤ fuel)%nat →
  ∃ s' l', untimeout_loop fuel (fst <$> last l1) (fst <$> head l2) hd ar s = Ok s' ∧
    tpath (tmo s') (next_timeout s') l' None ∧ pool_ok (pool s') l'.*1 ∧
    ents l' = ents l1 ++ remove_first hd ar (ents l2) ∧ same_rest s s'.
Proof.
  induction fuel as [|fuel IH]; intros l2 l1 s Hp Hok Hf.
  { destruct l2 as [|? l2]; [|simpl in Hf; lia]. simpl. exists s, (l1 ++ []).
    split_and!; [done|done|done| |done..]. by rewrite !app_nil_r. }
  destruct l2 as [|[t u] l2].
  { simpl. exists s, (l1 ++ []). split_and!; [done|done|done| |done..]. by rewrite !app_nil_r. }
  pose proof (pool_nodup _ _ Hok) as Hnd.
  pose proof Hp as (x & Hp1 & -> & Ht & Hp2)%tpath_app. cbn [head fmap option_fmap option_map fst untimeout_loop].
  rewrite (gett_ok t u s Ht). cbn [mbind res_bind].
  assert (Hperm : (l1 ++ (t, u) :: l2).*1 ≡ₚ t :: (l1 ++ l2).*1).
  { rewrite !fmap_app, fmap_cons. simpl. by rewrite Permutation_middle. }
  change (bool_decide (h u = hd) && (arg u =? ar)) with (matches hd ar (ent u)).
  destruct (matches hd ar (ent u)) eqn:E.
  - pose proof Hnd as Hnd'. rewrite Hperm in Hnd'. apply NoDup_cons in Hnd' as [Hnt Hnd'].
    rewrite fmap_app in Hnt. apply not_elem_of_app in Hnt as [Hnt1 Hnt2].
    destruct l1 as [|[p pu] l1 _] using rev_ind.
    + cbn [last fmap option_fmap option_map]. cbn [mbind res_bind].
      destruct (free_timeo_ok (set_next_timeout (tnext u) s) l2.*1 t _ Hok Hperm) as (q & -> & Hq & _).
      eexists _, l2. split; [done|]. split_and!; [|done| |done..].
      * eapply tpath_frame; [|exact Hp2]. intros y Hy. simpl. rewrite lookup_delete_ne; [done|]. by intros <-.
      * cbn [ents map app snd remove_first]. by rewrite E.
    + rewrite last_snoc. cbn [fmap option_fmap option_map fst].
      apply tpath_app in Hp1 as (y & Hp1 & -> & Hpp & Hnx). simpl in Hnx.
      rewrite (gett_ok p pu s Hpp). cbn [mbind res_bind].
      destruct (free_timeo_ok (putt p (with_tnext (tnext u) pu) s) ((l1 ++ [(p, pu)]) ++ l2).*1 t _ Hok Hperm) as (q & -> & Hq & _).
      eexists _, (l1 ++ [(p, with_tnext (tnext u) pu)] ++ l2). split; [done|].
      rewrite fmap_app, (fmap_app _ l1 [(p, pu)]) in Hnd', Hq. rewrite (fmap_app _ l1 [(p, pu)]) in Hnt1.
      cbn [fmap list_fmap fst] in Hnd', Hnt1, Hq.
      assert (Hpl1 : (p ∉ l1.*1) ∧ (p ∉ l2.*1)).
      { rewrite <-app_assoc in Hnd'. apply NoDup_app in Hnd' as (_ & Hd1 & Hd2). simpl in Hd2.
        apply NoDup_cons in Hd2 as [? _]. split; [|done]. intros Hin. apply (Hd1 p Hin). by left. }
      assert (Hpt : p ≠ t) by set_solver.
      split_and!.
      * apply tpath_app. exists (Some p). split.
        -- eapply tpath_frame; [|exact Hp1]. intros z Hz. simpl.
           rewrite lookup_delete_ne, lookup_insert_ne; [done|set_solver..].
        -- cbn [app tpath]. split_and!; [done| |].
           ++ simpl. by rewrite lookup_delete_ne, lookup_insert_eq.
           ++ eapply tpath_frame; [|exact Hp2]. intros z Hz. simpl.
              rewrite lookup_delete_ne, lookup_insert_ne; [done|set_solver..].
      * rewrite !fmap_app. cbn [fmap list_fmap fst]. by rewrite app_assoc.
      * unfold ents. rewrite !map_app. cbn [map snd]. change (ent (with_tnext (tnext u) pu)) with (ent pu).
        cbn [remove_first]. rewrite E. by rewrite <-app_assoc.
      * done.
  - destruct (IH l2 (l1 ++ [(t, u)]) s) as (s' & l' & He & Hp' & Hok' & Hents & Hr);
      [by rewrite <-app_assoc|by rewrite <-app_assoc|simpl in Hf; lia|].
    rewrite last_snoc in He. cbn [fmap option_fmap option_map fst] in He.
    assert (Hh : (fst <$> head l2) = tnext u) by (destruct l2 as [|[n nt] l2]; simpl in Hp2; [done|by destruct Hp2 as (-> & _)]).
    rewrite Hh in He. exists s', l'. split_and!; [done|done|done| |apply Hr..].
    rewrite Hents. unfold ents. rewrite map_app, <-app_assoc. cbn [map snd app remove_first]. by rewrite E.
Qed.

Lemma sys_untimeout_ok s al hd ar : pending s al →
  ∃ s', sys_untimeout hd ar s = Ok s' ∧ pending s' (remove_first hd ar al) ∧ same_rest s s'.
Proof.
  intros (l & Hp & Hok & ->). unfold sys_untimeout. pose proof (pool_nodup _ _ Hok) as Hnd.
  destruct (untimeout_loop_ok hd ar (list_fuel s) l [] s Hp Hok) as (s' & l' & He & Hp' & Hok' & Hents & Hr).
  { pose proof (tpath_length _ _ _ (proj2 (tpath_app _ _ [] _ _) (ex_intro _ _ (conj eq_refl Hp))) Hnd) as Hlen.
    unfold list_fuel. simpl in Hlen. lia. }
  assert (Hh : (fst <$> head l) = next_timeout s) by (destruct l as [|[n nt] l]; simpl in Hp; [done|by destruct Hp as (-> & _)]).
  simpl in He. rewrite Hh in He. destruct (next_timeout s) as [n|] eqn:En.
  - exists s'. split; [done|]. split; [|done]. exists l'. split_and!; [done|done|]. by rewrite Hents.
  - destruct l as [|[n nt] l]; [|by destruct Hp]. exists s. split; [done|]. split; [|done]. exists []. by rewrite En.
Qed.

Lemma remove_first_spec hd ar al :
  (∃ al1 e al2, al = al1 ++ e :: al2 ∧ remove_first hd ar al = al1 ++ al2 ∧ matches hd ar e = true ∧
     Forall (λ e, matches hd ar e = false) al1) ∨
  remove_first hd ar al = al ∧ Forall (λ e, matches hd ar e = false) al.
Proof.
  induction al as [|e al IH]; [by right|]. cbn [remove_first]. destruct (matches hd ar e) eqn:E.
  - left. by exists [], e, al.
  - destruct IH as [(al1 & e' & al2 & -> & -> & Hm & Hf)|[-> Hf]].
    + left. exists (e :: al1), e', al2. split_and!; [done|done|done|by constructor].
    + right. split; [done|by constructor].
Qed.

Lemma remove_insert e al : Forall (λ e', matches (cb e) (cb_arg e) e' = false) al →
  remove_first (cb e) (cb_arg e) (insert_timeout e al) = al.
Proof.
  assert (He : matches (cb e) (cb_arg e) e = true).
  { unfold matches. by rewrite bool_decide_eq_true_2, Z.eqb_refl. }
  induction al as [|e' al IH]; cbn [insert_timeout remove_first]; [by rewrite He|].
  intros [Hm Hf]%Forall_cons. destruct (TIME_LESS_THAN _ _); cbn [remove_first]; [by rewrite He|].
  rewrite Hm, IH; done.
Qed.

Lemma sorted_from_remove base al1 e al2 : sorted_from base (al1 ++ e :: al2) → sorted_from base (al1 ++ al2).
Proof.
  intros [Hw Hs]. apply Forall_app in Hw as [Hw1 [_ Hw2]%Forall_cons]. split; [by apply Forall_app|].
  clear Hw1 Hw2. induction al1 as [|x al1 IH]; simpl in *.
  - by apply StronglySorted_inv in Hs as [? _].
  - apply StronglySorted_inv in Hs as [Hs Hx]. constructor; [by apply IH|].
    apply Forall_app in Hx as [? [_ ?]%Forall_cons]. by apply Forall_app.
Qed.

(** ** Processing what is due *)

(** Popping the head, as sys_check_timeouts does before it calls the handler. *)
Lemma pop_ok s e al : pending s (e :: al) →
  ∃ a t s1, next_timeout s = Some a ∧ gett a s = Ok t ∧ ent t = e ∧
    free_timeo a (set_due_time (time t) (set_next_timeout (tnext t) s)) = Ok s1 ∧
    pending s1 al ∧ current_timeout_due_time s1 = due e ∧
    tcpip_tcp_timer_active s1 = tcpip_tcp_timer_active s ∧ world s1 = world s ∧
    ∃ b q, pool_malloc (pool s1) = Ok (Some b, q).
Proof.
  intros ([|[a t] l] & Hp & Hok & He); [done|]. injection He as -> ->. destruct Hp as (Hn & Ha & Hp).
  destruct (free_timeo_ok (set_due_time (time t) (set_next_timeout (tnext t) s)) l.*1 a _ Hok) as (p & Hf & Hok' & Hav); [done|].
  eexists a, t, _. split; [done|]. split; [by apply gett_ok|]. split; [done|]. split; [exact Hf|].
  split; [|done]. exists l. split_and!; [|done|done].
  pose proof (pool_nodup _ _ Hok) as [Hna _]%NoDup_cons.
  eapply tpath_frame; [|exact Hp]. intros x Hx. simpl. rewrite lookup_delete_ne; [done|]. by intros <-.
Qed.

Lemma next_timeout_pending s al : pending s al → (next_timeout s = None ↔ al = []).
Proof.
  intros ([|[a t] l] & Hp & _ & ->); simpl in *; [done|]. destruct Hp as (-> & _). done.
Qed.

Context (act : Z → Z → W → W).

(** Callbacks that do their work without starting or stopping timeouts. *)
Definition callbacks_ok : Prop :=
  (∀ s, PBUF_CHECK_FREE_OOSEQ s = Ok s) ∧
  (∀ n ar s, user_handler n ar s = Ok (set_world (act n ar (world s)) s)).

Definition run_cb (w : W) (e : timeout) : W :=
  match cb e with H_user n => act n (cb_arg e) w | _ => w end.

Definition user_cb (e : timeout) : Prop := ∃ n, cb e = H_user n.

Lemma check_timeouts_loop_ok now : callbacks_ok → ∀ fired rest fuel s,
  pending s (fired ++ rest) → Forall user_cb fired → (length fired < fuel)%nat →
  Forall (λ e, TIME_LESS_THAN now (due e) = false) fired →
  match rest with [] => True | e :: _ => TIME_LESS_THAN now (due e) = true end →
  ∃ s', check_timeouts_loop fuel now s = Ok s' ∧ pending s' rest ∧ world s' = foldl run_cb (world s) fired.
Proof.
  intros [Hooseq Huser]. induction fired as [|e fired IH]; intros rest fuel s Hp Hu Hf Hdue Hrest;
    (destruct fuel as [|fuel]; [simpl in Hf; lia|]); cbn [check_timeouts_loop]; rewrite Hooseq; cbn [mbind res_bind].
  - simpl in Hp. exists s. split; [|done]. destruct rest as [|e rest].
    + by rewrite (proj2 (next_timeout_pending _ _ Hp) eq_refl).
    + destruct (pop_ok s e rest Hp) as (a & t & s1 & -> & Ht & He & _). rewrite Ht. cbn [mbind res_bind].
      subst e. change (due (ent t)) with (time t) in Hrest. by rewrite Hrest.
  - apply Forall_cons in Hdue as [Hd Hdue]. apply Forall_cons in Hu as [[n Hcb] Hu].
    destruct (pop_ok s e (fired ++ rest) Hp) as (a & t & s1 & -> & Ht & He & Hfree & Hp1 & _ & _ & Hw & _).
    rewrite Ht. cbn [mbind res_bind]. subst e. change (due (ent t)) with (time t) in Hd. rewrite Hd, Hfree. cbn [mbind res_bind].
    simpl in Hcb. rewrite Hcb. cbn [call_handler]. rewrite Huser. cbn [mbind res_bind].
    destruct (IH rest fuel (set_world (act n (arg t) (world s1)) s1)) as (s' & He' & Hp' & Hw'); try done.
    + simpl in Hf. lia.
    + exists s'. split; [done|]. split; [done|]. rewrite Hw'. simpl. unfold run_cb at 3. simpl. by rewrite Hcb, Hw.
Qed.

(** Splitting a sorted list at the current time. *)
Lemma split_due base now al : sorted_from base al → off base now ≤ LWIP_MAX_TIMEOUT →
  ∃ fired rest, al = fired ++ rest ∧ Forall (λ e, off base (due e) ≤ off base now) fired ∧
    Forall (λ e, off base now < off base (due e)) rest ∧
    Forall (λ e, TIME_LESS_THAN now (due e) = false) fired ∧
    match rest with [] => True | e :: _ => TIME_LESS_THAN now (due e) = true end.
Proof.
  intros [Hw Hs] Hn. induction al as [|e al IH]; [by exists [], []|].
  apply Forall_cons in Hw as [[Hu He] Hw]. apply StronglySorted_inv in Hs as [Hs Hle].
  destruct (TIME_LESS_THAN now (due e)) eqn:E.
  - exists [], (e :: al). split_and!; [done|done| |done|done].
    rewrite (TIME_LESS_THAN_window base) in E by done. breflect. constructor; [done|].
    eapply Forall_impl; [exact Hle|]. simpl. lia.
  - destruct (IH Hw Hs) as (fired & rest & -> & Hd1 & Hd2 & Hd3 & Hd4). exists (e :: fired), rest.
    pose proof E as E'. rewrite (TIME_LESS_THAN_window base) in E' by done. breflect.
    split_and!; [done|by constructor|done|by constructor|done].
Qed.

End facts.

Section claims.
Context {P W : Type} `{PoolLaws P} `{TimerEnv P W}.
Implicit Types s : tstate P W.

(** C12: Starting a timeout keeps the list sorted across clock wrap-around: when the
    pending timeouts lie in the window of 2^31 - 1 ms from [base] and the new one
    does too, sys_timeout puts it behind every timeout due no later and before
    every timeout due later; it aborts only when the pool is empty. *)
Theorem sys_timeout_inserts s al base now w msecs hd ar :
  pending s al → sorted_from base al → sys_now (world s) = (now, w) → 0 ≤ msecs ≤ LWIP_UINT32_MAX / 4 →
  off base now + msecs ≤ LWIP_MAX_TIMEOUT →
  (pool_malloc (pool s) = Ok (None, pool s) ∧ sys_timeout msecs hd ar s = Assert) ∨
  ∃ s' al1 al2, sys_timeout msecs hd ar s = Ok s' ∧ al = al1 ++ al2 ∧
    pending s' (al1 ++ Timeout (u32 (now + msecs)) hd ar :: al2) ∧
    sorted_from base (al1 ++ Timeout (u32 (now + msecs)) hd ar :: al2) ∧
    Forall (λ e, off base (due e) ≤ off base now + msecs) al1 ∧
    Forall (λ e, off base now + msecs < off base (due e)) al2 ∧ same_rest (set_world w s) s'.
Proof.
  intros Hp Hs Hn Hm Hoff. destruct (sys_timeout_ok s al msecs hd ar now w Hp Hn Hm) as [?|(s' & He & Hp' & Hr)]; [by left|].
  right. assert (Ho : off base (u32 (now + msecs)) = off base now + msecs).
  { unfold off, LWIP_MAX_TIMEOUT in *. assert (Hx : u32 (u32 (now + msecs) - base) = u32 (u32 (now - base) + msecs)) by ulia.
    rewrite Hx. apply u32_id. pose proof (u32_range (now - base)). unfold is_u32 in *. lia. }
  destruct (insert_timeout_sorted base (Timeout (u32 (now + msecs)) hd ar) al) as (al1 & al2 & -> & Hi & Hs' & H1' & H2');
    [split; [apply u32_range|simpl; lia]|done|].
  exists s', al1, al2. rewrite Hi in Hp'. simpl in H1', H2'. rewrite Ho in H1', H2'. done.
Qed.

(** Stopping a timeout: sys_untimeout removes the first pending timeout with this
    handler and argument and nothing else, the rest stays sorted; after a
    sys_timeout it restores the list as it was when no such timeout was pending. *)
Theorem sys_untimeout_removes s al base hd ar :
  pending s al → sorted_from base al →
  (∃ s', sys_untimeout hd ar s = Ok s' ∧ same_rest s s' ∧
    ((∃ al1 e al2, al = al1 ++ e :: al2 ∧ cb e = hd ∧ cb_arg e = ar ∧ pending s' (al1 ++ al2) ∧
        sorted_from base (al1 ++ al2) ∧ Forall (λ e, matches hd ar e = false) al1) ∨
     (pending s' al ∧ Forall (λ e, matches hd ar e = false) al))) ∧
  (∀ msecs s1, 0 ≤ msecs ≤ LWIP_UINT32_MAX / 4 → Forall (λ e, matches hd ar e = false) al →
     sys_timeout msecs hd ar s = Ok s1 → ∃ s2, sys_untimeout hd ar s1 = Ok s2 ∧ pending s2 al).
Proof.
  intros Hp Hs. split.
  - destruct (sys_untimeout_ok s al hd ar Hp) as (s' & He & Hp' & Hr). exists s'. split; [done|]. split; [done|].
    destruct (remove_first_spec hd ar al) as [(al1 & e & al2 & -> & Hrm & Hm & Hf)|[Hrm Hf]]; rewrite Hrm in Hp'; [left|by right].
    unfold matches in Hm. breflect. exists al1, e, al2. do 4 (split; [done|]).
    split; [by eapply sorted_from_remove|done].
  - intros msecs s1 Hm Hf He. destruct (sys_now (world s)) as [now w] eqn:En.
    destruct (sys_timeout_ok s al msecs hd ar now w Hp En Hm) as [[_ Ha]|(s1' & He' & Hp1 & _)]; [congruence|].
    rewrite He in He'. injection He' as <-.
    destruct (sys_untimeout_ok _ _ hd ar Hp1) as (s2 & He2 & Hp2 & _). exists s2. split; [done|].
    by rewrite (remove_insert (Timeout (u32 (now + msecs)) hd ar)) in Hp2.
Qed.

(** Processing when no handler starts or stops a timeout: the handlers of exactly the
    timeouts that are due are called, in the order of the list, and the rest stays. *)
Theorem sys_check_timeouts_quiet act s al base now w fuel :
  callbacks_ok (P := P) (W := W) act → pending s al → sorted_from base al → Forall user_cb al →
  sys_now (world s) = (now, w) → off base now ≤ LWIP_MAX_TIMEOUT → (length al < fuel)%nat →
  ∃ s' fired rest, sys_check_timeouts fuel s = Ok s' ∧ al = fired ++ rest ∧ pending s' rest ∧
    Forall (λ e, off base (due e) ≤ off base now) fired ∧ Forall (λ e, off base now < off base (due e)) rest ∧
    world s' = foldl (run_cb act) w fired.
Proof.
  intros Hcb Hp Hs Hu Hn Hoff Hf. destruct (split_due base now al Hs Hoff) as (fired & rest & -> & H1' & H2' & H3' & H4').
  unfold sys_check_timeouts, get_now. rewrite Hn.
  destruct (check_timeouts_loop_ok act now Hcb fired rest fuel (set_world w s)) as (s' & He & Hp' & Hw); try done.
  - by apply Forall_app in Hu as [? _].
  - rewrite length_app in Hf. lia.
  - exists s', fired, rest. done.
Qed.

(** The time until the next timeout: sys_timeouts_sleeptime returns 0xffffffff when
    nothing is pending, 0 when the first timeout is overdue and otherwise the
    milliseconds left, never more than 2^31 - 1; its assertion holds. *)
Theorem sys_timeouts_sleeptime_correct s al base now w :
  pending s al → sorted_from base al → sys_now (world s) = (now, w) → off base now ≤ LWIP_MAX_TIMEOUT →
  match al with
  | [] => sys_timeouts_sleeptime s = Ok (SYS_TIMEOUTS_SLEEPTIME_INFINITE, s)
  | e :: _ => sys_timeouts_sleeptime s = Ok (Z.max 0 (off base (due e) - off base now), set_world w s)
  end.
Proof.
  intros Hp [Hw Hs] Hn Hoff. unfold sys_timeouts_sleeptime. destruct al as [|e al].
  - by rewrite (proj2 (next_timeout_pending _ _ Hp) eq_refl).
  - destruct (pop_ok s e al Hp) as (a & t & s1 & -> & Ht & He & _). unfold get_now. rewrite Hn.
    change (gett a (set_world w s)) with (gett a s). rewrite Ht. cbn [mbind res_bind]. subst e.
    apply Forall_cons in Hw as [[Hu He] _]. change (due (ent t)) with (time t) in *.
    rewrite (TIME_LESS_THAN_window base) by done.
    assert (Hx : u32 (time t - now) = u32 (off base (time t) - off base now)) by (unfold off; ulia).
    pose proof (u32_range (time t - base)) as Rt. pose proof (u32_range (now - base)) as Rn.
    fold (off base (time t)) in Rt. fold (off base now) in Rn. rewrite Hx. unfold is_u32, LWIP_MAX_TIMEOUT in *.
    destruct (_ <? _) eqn:E; breflect.
    + do 2 f_equal. lia.
    + rewrite u32_id by (unfold is_u32; lia).
      replace (off base (time t) - off base now <=? 2147483647) with true by lia. cbn [LWIP_ASSERT mbind res_bind].
      do 2 f_equal. lia.
Qed.

(** A cyclic timer keeps its period: when its handler leaves the timers alone, the
    next run is due one interval after the last due time, so that late processing
    does not add up; if that is already past, one interval from now.  The new due
    time never lies in the past. *)
Theorem lwip_cyclic_timer_period s al (i : nat) interval s1 now w :
  lwip_cyclic_timers !! i = Some interval → cyclic_handler i s = Ok s1 → pending s1 al →
  current_timeout_due_time s1 = current_timeout_due_time s → sys_now (world s1) = (now, w) →
  let next := u32 (current_timeout_due_time s + interval) in
  let t := if TIME_LESS_THAN next now then u32 (now + interval) else next in
  TIME_LESS_THAN t now = false ∧
  ((pool_malloc (pool s1) = Ok (None, pool s1) ∧ lwip_cyclic_timer (Z.of_nat i) s = Assert) ∨
   ∃ s', lwip_cyclic_timer (Z.of_nat i) s = Ok s' ∧
     pending s' (insert_timeout (Timeout t H_lwip_cyclic_timer (Z.of_nat i)) al)).
Proof.
  intros Hi Hc Hp Hd Hn next t.
  assert (Hint : 0 ≤ interval ≤ 60000).
  { assert (Hall : Forall (λ x, 0 ≤ x ≤ 60000) lwip_cyclic_timers) by (repeat constructor; done).
    by apply (Forall_lookup_1 _ _ _ _ Hall Hi). }
  assert (Hpast : TIME_LESS_THAN t now = false).
  { subst t. destruct (TIME_LESS_THAN next now) eqn:E; [|done].
    unfold TIME_LESS_THAN, LWIP_MAX_TIMEOUT. replace (u32 (u32 (now + interval) - now)) with interval by ulia. lia. }
  split; [done|]. unfold lwip_cyclic_timer. rewrite Nat2Z.id, Hi. cbn [deref mbind res_bind]. rewrite Hc. cbn [mbind res_bind].
  unfold get_now. rewrite Hn. change (current_timeout_due_time (set_world w s1)) with (current_timeout_due_time s1).
  rewrite Hd. fold next.
  assert (Hp' : pending (set_world w s1) al) by (destruct Hp as (l & ? & ? & ?); by exists l).
  destruct (sys_timeout_abs_ok (set_world w s1) al t H_lwip_cyclic_timer (Z.of_nat i) Hp') as [[? Ha]|(s' & He & Hp2 & _)].
  - left. split; [done|]. subst t. by destruct (TIME_LESS_THAN next now).
  - right. exists s'. split; [|done]. subst t. by destruct (TIME_LESS_THAN next now).
Qed.

End claims.

(** ** Handlers that start and stop timeouts *)

(** [x] is due when the clock shows [now]. *)
Definition is_due (base now : Z) (x : timeout) : bool := off base (due x) <=? off base now.

(** What a handler may start: timeouts later than the one that it was called for, at most
    one of which is due already (a cyclic timer that is late starts itself again). *)
Definition starts_later (base now : Z) (e : timeout) (st : list timeout) : Prop :=
  Forall (λ x, off base (due e) < off base (due x)) st ∧ (length (List.filter (is_due base now) st) ≤ 1)%nat.

(** How late the timeouts are, in milliseconds: a bound on the rounds. *)
Definition lateness (base now : Z) (x : timeout) : nat := Z.to_nat (off base now + 1 - off base (due x)).
Definition work (base now : Z) (al : list timeout) : nat := sum_list (lateness base now <$> al).

Lemma work_perm base now al al' : al ≡ₚ al' → work base now al = work base now al'.
Proof. unfold work. by intros ->. Qed.

Lemma work_app base now al al' : work base now (al ++ al') = (work base now al + work base now al')%nat.
Proof. unfold work. by rewrite fmap_app, sum_list_with_app. Qed.

Lemma work_started base now e st : is_due base now e = true → starts_later base now e st →
  (work base now st < lateness base now e)%nat.
Proof.
  unfold is_due. intros He [Hl Hd]. breflect. revert Hd. induction Hl as [|x st Hx Hst IH]; intros Hd.
  { cbn. unfold lateness. lia. }
  cbn [List.filter] in Hd. change (work base now (x :: st)) with (lateness base now x + work base now st)%nat.
  destruct (is_due base now x) eqn:Ex; unfold is_due in Ex; breflect.
  - cbn [length] in Hd. assert (List.filter (is_due base now) st = []) as Hnil by (destruct (List.filter _ st); [done|cbn in Hd; lia]).
    assert (work base now st = 0%nat) as ->; [|unfold lateness; lia]. clear -Hnil. induction st as [|y st IH]; [done|].
    cbn [List.filter] in Hnil. destruct (is_due base now y) eqn:Ey; [done|]. unfold is_due in Ey. breflect.
    change (work base now (y :: st)) with (lateness base now y + work base now st)%nat. rewrite IH by done. unfold lateness. lia.
  - specialize (IH Hd). unfold lateness in *. lia.
Qed.

(** What the timers rely on while those due at [now] are processed, in a window from
    [base].  [world_ok] and [entry_ok] are invariants of the handlers; [effect e w w' st sp]:
    the handler of [e] turns [w] into [w'], starts [st] and stops [sp].  A handler is
    called with an element of the pool at its disposal, the one that was its own. *)
Class TimerCallbacks (base now : Z) (P W : Type) `{PoolLaws P} `{TimerEnv P W} := {
  world_ok : W → Prop;
  entry_ok : timeout → Prop;
  effect : timeout → W → W → list timeout → list timeout → Prop;
  free_ooseq : W → W;
  ooseq_law (s : tstate P W) : world_ok (world s) →
    PBUF_CHECK_FREE_OOSEQ s = Ok (set_world (free_ooseq (world s)) s) ∧ world_ok (free_ooseq (world s));
  handler_law (s : tstate P W) e al : pending s al → sorted_from base (e :: al) → Forall entry_ok (e :: al) → world_ok (world s) →
    is_due base now e = true → current_timeout_due_time s = due e → (∃ b q, pool_malloc (pool s) = Ok (Some b, q)) →
    ∃ s' al' st sp, call_handler (cb e) (cb_arg e) s = Ok s' ∧ pending s' al' ∧ sorted_from base al' ∧ Forall entry_ok al' ∧
      world_ok (world s') ∧ al' ++ sp ≡ₚ al ++ st ∧ starts_later base now e st ∧ effect e (world s) (world s') st sp
}.

Section processing.
Context {P W : Type} `{PoolLaws P} `{!TimerEnv P W} (base now : Z) `{!TimerCallbacks base now P W}.
Implicit Types s : tstate P W.

(** The handlers of [fired] were called one after the other; together they started [st] and
    stopped [sp]. *)
Inductive fires : W → list timeout → list timeout → list timeout → W → Prop :=
| fires_nil w : fires w [] [] [] (free_ooseq w)
| fires_cons w e w1 st sp fired sts sps w2 : effect e (free_ooseq w) w1 st sp → fires w1 fired sts sps w2 →
    fires w (e :: fired) (st ++ sts) (sp ++ sps) w2.

(** What is left after a round is worth less work. *)
Lemma round_work e al al' st sp : is_due base now e = true → starts_later base now e st → al' ++ sp ≡ₚ al ++ st →
  (work base now al' < work base now (e :: al))%nat.
Proof.
  intros He Hst Hp%(work_perm base now). rewrite !work_app in Hp. pose proof (work_started _ _ _ _ He Hst).
  change (work base now (e :: al)) with (lateness base now e + work base now al)%nat. lia.
Qed.

Lemma pending_world s al w : pending s al → pending (set_world w s) al.
Proof. intros (l & ? & ? & ?). by exists l. Qed.

Lemma check_loop_fires (Hnow : off base now ≤ LWIP_MAX_TIMEOUT) : ∀ fuel s al,
  pending s al → sorted_from base al → Forall entry_ok al → world_ok (world s) → (work base now al < fuel)%nat →
  ∃ s' fired rest st sp, check_timeouts_loop fuel now s = Ok s' ∧ fires (world s) fired st sp (world s') ∧
    pending s' rest ∧ sorted_from base rest ∧ fired ++ rest ++ sp ≡ₚ al ++ st ∧
    Forall (λ x, is_due base now x = true) fired ∧ Forall (λ x, is_due base now x = false) rest ∧
    StronglySorted (λ x y, off base (due x) ≤ off base (due y)) fired ∧
    ∀ m, Forall (λ x, m ≤ off base (due x)) al → Forall (λ x, m ≤ off base (due x)) fired.
Proof.
  induction fuel as [|fuel IH]; intros s al Hp Hs Hen Hw Hf; [lia|]. cbn [check_timeouts_loop].
  destruct (ooseq_law s Hw) as [-> Hw1]. cbn [mbind res_bind]. apply (pending_world _ _ (free_ooseq (world s))) in Hp.
  set (s1 := set_world (free_ooseq (world s)) s) in *. destruct al as [|e al].
  { rewrite (proj2 (next_timeout_pending _ _ Hp) eq_refl). exists s1, [], [], [], []. split; [done|]. split; [apply fires_nil|].
    do 6 (split; [done || constructor|]). done. }
  destruct (pop_ok s1 e al Hp) as (a & t & s2 & -> & Ht & He & Hfree & Hp2 & Hdue & _ & Hw2 & Hav). rewrite Ht. cbn [mbind res_bind].
  assert (Hcmp : TIME_LESS_THAN now (time t) = negb (is_due base now e)).
  { destruct Hs as [[[_ Hwe] _]%Forall_cons _]. subst e. change (due (ent t)) with (time t) in *.
    rewrite (TIME_LESS_THAN_window base) by done. unfold is_due. change (due (ent t)) with (time t). by rewrite Z.leb_antisym, negb_involutive. }
  rewrite Hcmp. destruct (is_due base now e) eqn:Ed; cbn [negb].
  2:{ exists s1, [], (e :: al), [], []. split; [done|]. split; [apply fires_nil|]. split; [done|]. split; [done|].
      split; [done|]. split; [constructor|]. split; [|split; [constructor|constructor]].
      destruct Hs as [_ [Hs Hle]%StronglySorted_inv]. unfold is_due in *. breflect. constructor; [by apply Z.leb_gt|].
      eapply Forall_impl; [exact Hle|]. cbn. intros x Hx. apply Z.leb_gt. lia. }
  rewrite Hfree. cbn [mbind res_bind]. assert (Hcb : cb e = h t ∧ cb_arg e = arg t) by (by subst e). destruct Hcb as [<- <-].
  destruct (handler_law s2 e al Hp2 Hs Hen) as (s3 & al' & st & sp & -> & Hp3 & Hs3 & Hen3 & Hw3 & Hperm & Hst & Heff);
    [by rewrite Hw2|done|done|done|]. cbn [mbind res_bind].
  destruct (IH s3 al' Hp3 Hs3 Hen3 Hw3) as (s' & fired & rest & sts & sps & Hr & Hfi & Hp' & Hs' & Hperm' & Hfd & Hrd & Hsort & Hlow).
  { pose proof (round_work e al al' st sp Ed Hst Hperm). lia. }
  exists s', (e :: fired), rest, (st ++ sts), (sp ++ sps). split; [done|].
  split; [eapply fires_cons; [|exact Hfi]; by rewrite Hw2 in Heff|]. split; [done|]. split; [done|].
  pose proof Hs as [_ [_ Hle]%StronglySorted_inv].
  assert (Hlo : ∀ m, m ≤ off base (due e) → Forall (λ x, m ≤ off base (due x)) fired).
  { intros m Hm. apply Hlow. apply Forall_forall. intros x Hx.
    assert (Hx' : x ∈ al ++ st) by (rewrite <-Hperm; apply elem_of_app; by left). destruct Hst as [Hlater _].
    apply elem_of_app in Hx' as [Hx'|Hx']; [eapply Forall_forall in Hle; [|exact Hx']|eapply Forall_forall in Hlater; [|exact Hx']]; cbn in *; lia. }
  split; [|split; [by constructor|split; [done|split; [constructor; [done|by apply Hlo]|]]]].
  - cbn [app]. constructor. rewrite (Permutation_app_comm sp sps). replace (fired ++ rest ++ sps ++ sp) with ((fired ++ rest ++ sps) ++ sp) by (by rewrite <-!app_assoc).
    rewrite Hperm', <-app_assoc, (Permutation_app_comm sts sp), app_assoc, Hperm. by rewrite <-app_assoc.
  - intros m [Hm _]%Forall_cons. constructor; [done|by apply Hlo].
Qed.

(** C13: Processing.  Handlers may start and stop timeouts, as cyclic timers and the TCP timer
    do, provided that what they start is later than the timeout they were called for, and
    at most one of it is due already ([TimerCallbacks] states this and that handlers
    return; [std_callbacks] proves it of the handlers of this file).  Then, with the pending
    timeouts in the window of 2^31 - 1 ms from [base], sys_check_timeouts ends, after at most
    as many rounds as the due timeouts are late in milliseconds, in total; the handlers of
    [fired] were called one after the other in the order of their due times, all of them
    due; what is left is sorted and none of it is due; and fired, left and stopped
    timeouts together are exactly those pending at the beginning and those started. *)
Theorem sys_check_timeouts_fires s al w fuel :
  pending s al → sorted_from base al → Forall entry_ok al → sys_now (world s) = (now, w) → world_ok w →
  off base now ≤ LWIP_MAX_TIMEOUT → (work base now al < fuel)%nat →
  ∃ s' fired rest started stopped, sys_check_timeouts fuel s = Ok s' ∧ fires w fired started stopped (world s') ∧
    pending s' rest ∧ sorted_from base rest ∧ fired ++ rest ++ stopped ≡ₚ al ++ started ∧
    Forall (λ x, is_due base now x = true) fired ∧ Forall (λ x, is_due base now x = false) rest ∧
    StronglySorted (λ x y, off base (due x) ≤ off base (due y)) fired.
Proof.
  intros Hp Hs Hen Hn Hw Hoff Hf. unfold sys_check_timeouts, get_now. rewrite Hn.
  destruct (check_loop_fires Hoff fuel (set_world w s) al) as (s' & fired & rest & st & sp & Hr); try done.
  exists s', fired, rest, st, sp. naive_solver.
Qed.

End processing.

(** ** The handlers of timeouts.c

    The callbacks of the other modules do their work on the world and leave the timers
    alone; the cyclic timers and the TCP timer start themselves again.  In the worlds of
    [okw] the clock is not behind [now] and a minute away from the end of the window. *)

Section std.
Context {P W : Type} `{PoolLaws P} `{!TimerEnv P W} (base now : Z).
Context (ooseq tcp : W → W) (cyc : nat → W → W) (act : Z → Z → W → W) (okw : W → Prop).
Implicit Types s : tstate P W.

Record std_env : Prop := {
  se_now : off base now ≤ LWIP_MAX_TIMEOUT - 60000;
  se_ooseq s : PBUF_CHECK_FREE_OOSEQ s = Ok (set_world (ooseq (world s)) s);
  se_tcp s : tcp_tmr s = Ok (set_world (tcp (world s)) s);
  se_cyclic i s : cyclic_handler i s = Ok (set_world (cyc i (world s)) s);
  se_user n ar s : user_handler n ar s = Ok (set_world (act n ar (world s)) s);
  se_clock w : okw w → off base now ≤ off base (sys_now w).1 ≤ LWIP_MAX_TIMEOUT - 60000;
  se_world w : okw w → okw (sys_now w).2 ∧ okw (ooseq w) ∧ okw (tcp w) ∧ (∀ i, okw (cyc i w)) ∧ ∀ n ar, okw (act n ar w)
}.

(** An entry of a cyclic timer has an index of the table. *)
Definition std_entry (e : timeout) : Prop := cb e = H_lwip_cyclic_timer → is_Some (lwip_cyclic_timers !! Z.to_nat (cb_arg e)).

(** When a cyclic timer runs again: one interval after it was due, or from the time [t]. *)
Definition next_run (e : timeout) (interval t : Z) : Z :=
  let next := u32 (due e + interval) in if TIME_LESS_THAN next t then u32 (t + interval) else next.

Definition std_effect (e : timeout) (w w' : W) (st sp : list timeout) : Prop :=
  sp = [] ∧
  match cb e with
  | H_NULL => st = [] ∧ w' = w
  | H_user n => st = [] ∧ w' = act n (cb_arg e) w
  | H_tcpip_tcp_timer =>
      (st = [] ∧ w' = tcp w) ∨
      (st = [Timeout (u32 ((sys_now (tcp w)).1 + TCP_TMR_INTERVAL)) H_tcpip_tcp_timer 0] ∧ w' = (sys_now (tcp w)).2)
  | H_lwip_cyclic_timer =>
      let i := Z.to_nat (cb_arg e) in
      ∃ interval, lwip_cyclic_timers !! i = Some interval ∧ w' = (sys_now (cyc i w)).2 ∧
        st = [Timeout (next_run e interval (sys_now (cyc i w)).1) H_lwip_cyclic_timer (cb_arg e)]
  end.

Lemma off_plus t d : 0 ≤ d → off base t + d ≤ LWIP_MAX_TIMEOUT → off base (u32 (t + d)) = off base t + d.
Proof.
  intros Hd Ht. unfold off, LWIP_MAX_TIMEOUT in *. assert (Hx : u32 (u32 (t + d) - base) = u32 (u32 (t - base) + d)) by ulia.
  rewrite Hx. apply u32_id. pose proof (u32_range (t - base)). unfold is_u32 in *. lia.
Qed.

Lemma cyclic_interval i interval : lwip_cyclic_timers !! i = Some interval → 0 < interval ≤ 60000.
Proof.
  intros Hi. assert (Hall : Forall (λ x, 0 < x ≤ 60000) lwip_cyclic_timers) by (repeat constructor; done).
  by apply (Forall_lookup_1 _ _ _ _ Hall Hi).
Qed.

(** A handler that ends by starting one timeout. *)
Lemma start_one s al e t hd ar : pending s al → sorted_from base al → (∃ b q, pool_malloc (pool s) = Ok (Some b, q)) →
  is_u32 t → off base (due e) < off base t → off base t ≤ LWIP_MAX_TIMEOUT →
  ∃ s' al', sys_timeout_abs t hd ar s = Ok s' ∧ pending s' al' ∧ sorted_from base al' ∧ al' ++ [] ≡ₚ al ++ [Timeout t hd ar] ∧
    starts_later base now e [Timeout t hd ar] ∧ world s' = world s.
Proof.
  intros Hp Hs (b & q & Hav) Hu Hlt Ht. destruct (sys_timeout_abs_ok s al t hd ar Hp) as [[Hno _]|(s' & Hr & Hp' & _ & _ & Hw)]; [congruence|].
  destruct (insert_timeout_sorted base (Timeout t hd ar) al) as (al1 & al2 & -> & Hi & Hs' & _); [done|done|].
  exists s', (al1 ++ Timeout t hd ar :: al2). rewrite Hi in Hp'. split; [done|]. split; [done|]. split; [done|].
  split; [rewrite app_nil_r, <-Permutation_middle; apply Permutation_cons_append|]. split; [|done].
  split; [by constructor|]. cbn [List.filter]. destruct (is_due _ _ _); cbn; lia.
Qed.

Lemma next_run_later e interval t : is_due base now e = true → off base now ≤ off base t ≤ LWIP_MAX_TIMEOUT - 60000 → 0 < interval ≤ 60000 →
  is_u32 (next_run e interval t) ∧ off base (due e) < off base (next_run e interval t) ≤ LWIP_MAX_TIMEOUT.
Proof.
  unfold is_due, next_run. intros He Ht Hi. breflect. destruct (TIME_LESS_THAN _ _); (split; [apply u32_range|]); rewrite off_plus by lia; lia.
Qed.

Lemma std_handler (Henv : std_env) s e al : okw (world s) → pending s al → sorted_from base (e :: al) → Forall std_entry (e :: al) →
  is_due base now e = true → current_timeout_due_time s = due e → (∃ b q, pool_malloc (pool s) = Ok (Some b, q)) →
  ∃ s' al' st sp, call_handler (cb e) (cb_arg e) s = Ok s' ∧ pending s' al' ∧ sorted_from base al' ∧ Forall std_entry al' ∧
    al' ++ sp ≡ₚ al ++ st ∧ starts_later base now e st ∧ std_effect e (world s) (world s') st sp ∧ okw (world s').
Proof.
  intros Hok Hp Hs [Hen Hens]%Forall_cons Hd Hdue Hav.
  assert (Hs' : sorted_from base al) by (destruct Hs as [[_ ?]%Forall_cons [? _]%StronglySorted_inv]; done).
  assert (Hnone : starts_later base now e []) by (split; [constructor|cbn; lia]). unfold std_effect.
  destruct (se_world Henv _ Hok) as (_ & _ & Htcp & Hcyc & Hact). destruct (cb e) as [| | |n] eqn:Ecb; cbn [call_handler].
  - exists s, al, [], []. by split_and!.
  - unfold tcpip_tcp_timer. rewrite se_tcp by done. cbn [mbind res_bind]. set (s1 := set_world (tcp (world s)) s).
    destruct (tcp_has_pcbs s1); [|by exists (set_tcp_active 0 s1), al, [], []; split_and!; auto].
    unfold sys_timeout, get_now. change (world s1) with (tcp (world s)). destruct (sys_now (tcp (world s))) as [t w] eqn:Et.
    pose proof (se_clock Henv _ Htcp) as Hclk. pose proof (proj1 (se_world Henv _ Htcp)) as Hnw. rewrite Et in Hclk, Hnw. cbn [fst snd] in Hclk, Hnw. cbn [Z.leb TCP_TMR_INTERVAL LWIP_UINT32_MAX]. cbn [LWIP_ASSERT mbind res_bind].
    unfold is_due in Hd. breflect. assert (Hoff : off base (u32 (t + 250)) = off base t + 250) by (apply off_plus; lia).
    destruct (start_one (set_world w s1) al e (u32 (t + 250)) H_tcpip_tcp_timer 0) as (s' & al' & Hr & Hp' & Hs2 & Hperm & Hst & Hw);
      [done|done|done|apply u32_range|lia|lia|].
    exists s', al', [Timeout (u32 (t + 250)) H_tcpip_tcp_timer 0], []. split; [done|]. split; [done|]. split; [done|].
    split; [rewrite app_nil_r in Hperm; rewrite Hperm; apply Forall_app; split; [done|]; constructor; [by intros [=]|constructor]|].
    split; [done|]. split; [done|]. split; [|by rewrite Hw]. split; [done|]. right. split; [done|]. by rewrite Hw.
  - destruct (Hen Ecb) as [interval Hi]. pose proof (cyclic_interval _ _ Hi) as Hint. unfold lwip_cyclic_timer. rewrite Hi. cbn [deref mbind res_bind].
    rewrite se_cyclic by done. cbn [mbind res_bind]. set (s1 := set_world (cyc (Z.to_nat (cb_arg e)) (world s)) s).
    unfold get_now. change (world s1) with (cyc (Z.to_nat (cb_arg e)) (world s)). pose proof (se_clock Henv _ (Hcyc (Z.to_nat (cb_arg e)))) as Hclk.
    pose proof (proj1 (se_world Henv _ (Hcyc (Z.to_nat (cb_arg e))))) as Hnw.
    destruct (sys_now (cyc (Z.to_nat (cb_arg e)) (world s))) as [t w] eqn:Et. cbn [fst snd] in *.
    change (current_timeout_due_time (set_world w s1)) with (current_timeout_due_time s). rewrite Hdue.
    destruct (next_run_later e interval t Hd Hclk Hint) as (Hu & Hlt & Hle).
    destruct (start_one (set_world w s1) al e (next_run e interval t) H_lwip_cyclic_timer (cb_arg e)) as (s' & al' & Hr & Hp' & Hs2 & Hperm & Hst & Hw); try done.
    exists s', al', [Timeout (next_run e interval t) H_lwip_cyclic_timer (cb_arg e)], [].
    split; [rewrite <-Hr; unfold next_run; cbn zeta; by destruct (TIME_LESS_THAN _ _)|]. split; [done|]. split; [done|].
    split; [rewrite app_nil_r in Hperm; rewrite Hperm; apply Forall_app; split; [done|]; constructor; [by intros _; exists interval|constructor]|].
    split; [done|]. split; [done|]. split; [|by rewrite Hw]. split; [done|]. exists interval. split; [done|]. by rewrite Hw.
  - rewrite se_user by done. exists (set_world (act n (cb_arg e) (world s)) s), al, [], []. split_and!; try done; apply Hact.
Qed.

Definition std_callbacks (Henv : std_env) : TimerCallbacks base now P W.
Proof.
  refine {| world_ok := okw; entry_ok := std_entry; effect := std_effect; free_ooseq := ooseq |}.
  - intros s Hok. split; [by apply se_ooseq|]. by apply (se_world Henv).
  - intros s e al Hp Hs Hen Hok Hd Hdue Hav. destruct (std_handler Henv s e al Hok Hp Hs Hen Hd Hdue Hav) as (s' & al' & st & sp & ? & ? & ? & ? & ? & ? & ? & ?).
    exists s', al', st, sp. by split_and!.
Defined.

End std.
