(* ===== verification/TimeoutsPool.v ===== *)
(** * Timers: the pool MEMP_SYS_TIMEOUT

    memp.c keeps what the timer list expects of its pool: pool [i] of a table of
    pools satisfies [PoolLaws].  The witnesses run the timers on such a pool
    with a clock that is about to wrap around. *)

From Stdlib Require Import Sorted.
From S2P Require Import Prelude Memp MempFacts MempPool Timeouts TimeoutsFacts.

(** ** A sample: four timer elements, a clock and a log of the callbacks run *)

Definition timer_pools : list memp_desc := [LWIP_MEMPOOL_DECLARE 4 16 1000 4].

Lemma timer_pools_ok : descs_ok timer_pools.
Proof.
  split.
  - intros [|i] e Hd; vm_compute in Hd; simplify_eq. split_and!; [done|by exists 4|done..].
  - intros [|i] [|j] e e' Hd Hd' Hne; done.
Qed.

Definition world_t : Type := Z * list (Z * Z).
Definition timers := tstate (pools_at timer_pools 0) world_t.

#[global] Instance sample_env : TimerEnv (pools_at timer_pools 0) world_t := {|
  sys_now w := (w.1, w);
  PBUF_CHECK_FREE_OOSEQ s := Ok s;
  tcp_tmr s := Ok s;
  tcp_has_pcbs _ := false;
  cyclic_handler _ s := Ok s;
  user_handler n ar s := Ok (set_world ((world s).1, (world s).2 ++ [(n, ar)]) s) |}.

#[global] Instance timer_pool_laws : PoolLaws (pools_at timer_pools 0) :=
  memp_pool_laws timer_pools 0 _ timer_pools_ok eq_refl.

(** The pool after two allocations. *)
Definition timer_pool2 : pools :=
  match (s ← memp_init timer_pools (Pools ∅ ∅); '(_, s) ← memp_malloc timer_pools 0 s;
         '(_, s) ← memp_malloc timer_pools 0 s; Ok s) with Ok s => s | _ => Pools ∅ ∅ end.

Lemma timer_pool2_reach : reach_pools timer_pools timer_pool2 [(0%nat, 1032); (0%nat, 1048)].
Proof.
  eassert (H0 : reach_pools timer_pools _ []) by (apply rp_init; vm_compute; reflexivity).
  eassert (H1 : reach_pools timer_pools _ [(0%nat, 1048)])
    by (eapply (rp_malloc _ _ _ 0 1048); [exact H0|vm_compute; reflexivity]).
  eassert (H2 : reach_pools timer_pools _ [(0%nat, 1032); (0%nat, 1048)])
    by (eapply (rp_malloc _ _ _ 0 1032); [exact H1|vm_compute; reflexivity]).
  exact H2.
Qed.

(** Two timeouts around the wrap-around of the clock, which shows [now]. *)
Definition sample_timers (now : Z) : timers :=
  TState (list_to_map [(1032, SysTimeo (Some 1048) 4294967290 (H_user 1) 7); (1048, SysTimeo None 5 (H_user 2) 8)])
    (Some 1032) 0 0 timer_pool2 (now, []).

Definition sample_due : list timeout := [Timeout 4294967290 (H_user 1) 7; Timeout 5 (H_user 2) 8].

Lemma sample_timers_pending now : pending (sample_timers now) sample_due.
Proof.
  exists [(1032, SysTimeo (Some 1048) 4294967290 (H_user 1) 7); (1048, SysTimeo None 5 (H_user 2) 8)].
  split; [vm_compute; done|]. split; [|done].
  exists [(0%nat, 1032); (0%nat, 1048)]. split; [|vm_compute; reflexivity].
  apply reach_pools_inv; [exact timer_pools_ok|exact timer_pool2_reach].
Qed.

Lemma sample_due_sorted : sorted_from 4294967280 sample_due.
Proof. split; [|]; repeat constructor; vm_compute; discriminate || done. Qed.

Lemma sys_timeout_inserts_witness :
  (pool_malloc (pool (sample_timers 4294967295)) = Ok (None, pool (sample_timers 4294967295)) ∧
     sys_timeout 3 (H_user 3) 9 (sample_timers 4294967295) = Assert) ∨
  ∃ s' al1 al2, sys_timeout 3 (H_user 3) 9 (sample_timers 4294967295) = Ok s' ∧ sample_due = al1 ++ al2 ∧
    pending s' (al1 ++ Timeout 2 (H_user 3) 9 :: al2) ∧ sorted_from 4294967280 (al1 ++ Timeout 2 (H_user 3) 9 :: al2) ∧
    Forall (λ e, off 4294967280 (due e) ≤ off 4294967280 4294967295 + 3) al1 ∧
    Forall (λ e, off 4294967280 4294967295 + 3 < off 4294967280 (due e)) al2 ∧
    same_rest (set_world (4294967295, []) (sample_timers 4294967295)) s'.
Proof.
  apply (sys_timeout_inserts (sample_timers 4294967295) sample_due 4294967280 4294967295);
    [apply sample_timers_pending|apply sample_due_sorted|done|vm_compute; done|vm_compute; done].
Defined.

Lemma sys_untimeout_removes_witness :
  ∃ s', sys_untimeout (H_user 2) 8 (sample_timers 0) = Ok s' ∧ same_rest (sample_timers 0) s' ∧
    ((∃ al1 e al2, sample_due = al1 ++ e :: al2 ∧ cb e = H_user 2 ∧ cb_arg e = 8 ∧ pending s' (al1 ++ al2) ∧
        sorted_from 4294967280 (al1 ++ al2) ∧ Forall (λ e, matches (H_user 2) 8 e = false) al1) ∨
     (pending s' sample_due ∧ Forall (λ e, matches (H_user 2) 8 e = false) sample_due)).
Proof.
  apply (sys_untimeout_removes (sample_timers 0) sample_due 4294967280);
    [apply sample_timers_pending|apply sample_due_sorted].
Defined.

(** The timer of ip_reass_tmr, which is cyclic, before the wrap-around and a callback after
    it; the clock shows 30, so that both are due. *)
Definition cyclic_timers : timers :=
  TState (list_to_map [(1032, SysTimeo (Some 1048) 4294967290 H_lwip_cyclic_timer 1); (1048, SysTimeo None 5 (H_user 2) 8)])
    (Some 1032) 0 0 timer_pool2 (30, []).

Definition cyclic_due : list timeout := [Timeout 4294967290 H_lwip_cyclic_timer 1; Timeout 5 (H_user 2) 8].

Lemma cyclic_timers_pending : pending cyclic_timers cyclic_due.
Proof.
  exists [(1032, SysTimeo (Some 1048) 4294967290 H_lwip_cyclic_timer 1); (1048, SysTimeo None 5 (H_user 2) 8)].
  split; [vm_compute; done|]. split; [|done].
  exists [(0%nat, 1032); (0%nat, 1048)]. split; [|vm_compute; reflexivity].
  apply reach_pools_inv; [exact timer_pools_ok|exact timer_pool2_reach].
Qed.

Lemma sample_std : std_env (P := pools_at timer_pools 0) (W := world_t) 4294967280 30 (λ w, w) (λ w, w) (λ _ w, w)
  (λ n ar w, (w.1, w.2 ++ [(n, ar)])) (λ w, w.1 = 30).
Proof.
  split; try (by intros; destruct s).
  - vm_compute. discriminate.
  - intros [t l] Ht. cbn in Ht. subst t. vm_compute. split; discriminate.
  - intros w Hw. by split_and!.
Qed.

#[local] Instance sample_callbacks : TimerCallbacks 4294967280 30 (pools_at timer_pools 0) world_t :=
  std_callbacks _ _ _ _ _ _ _ sample_std.

Lemma sys_check_timeouts_fires_witness :
  ∃ s' fired rest started stopped, sys_check_timeouts 64 cyclic_timers = Ok s' ∧
    fires 4294967280 30 (P := pools_at timer_pools 0) (W := world_t) (30, []) fired started stopped (world s') ∧
    pending s' rest ∧ sorted_from 4294967280 rest ∧ fired ++ rest ++ stopped ≡ₚ cyclic_due ++ started ∧
    Forall (λ x, is_due 4294967280 30 x = true) fired ∧ Forall (λ x, is_due 4294967280 30 x = false) rest ∧
    StronglySorted (λ x y, off 4294967280 (due x) ≤ off 4294967280 (due y)) fired.
Proof.
  apply (sys_check_timeouts_fires 4294967280 30 cyclic_timers cyclic_due (30, []) 64).
  - exact cyclic_timers_pending.
  - split; [|]; repeat constructor; vm_compute; discriminate || done.
  - repeat constructor; [by exists 1000|done].
  - reflexivity.
  - reflexivity.
  - vm_compute. discriminate.
  - apply (bool_decide_unpack (work 4294967280 30 cyclic_due < 64)%nat). vm_compute. exact I.
Defined.

(** The run itself: both fire, and the cyclic timer is pending again, 1000 ms after it was due. *)
Example sample_run :
  match sys_check_timeouts 64 cyclic_timers with
  | Ok s => tmo s !! 1032 = Some (SysTimeo None 994 H_lwip_cyclic_timer 1) ∧ next_timeout s = Some 1032 ∧ world s = (30, [(2, 8)])
  | _ => False
  end.
Proof. vm_compute. done. Qed.

Lemma sys_timeouts_sleeptime_correct_witness :
  sys_timeouts_sleeptime (sample_timers 4294967285) = Ok (5, set_world (4294967285, []) (sample_timers 4294967285)).
Proof.
  apply (sys_timeouts_sleeptime_correct (sample_timers 4294967285) sample_due 4294967280 4294967285);
    [apply sample_timers_pending|apply sample_due_sorted|done|vm_compute; done].
Defined.

Lemma lwip_cyclic_timer_period_witness :
  let next := u32 (0 + 1000) in
  let t := if TIME_LESS_THAN next 2 then u32 (2 + 1000) else next in
  TIME_LESS_THAN t 2 = false ∧
  ((pool_malloc (pool (sample_timers 2)) = Ok (None, pool (sample_timers 2)) ∧
    lwip_cyclic_timer 1 (sample_timers 2) = Assert) ∨
   ∃ s', lwip_cyclic_timer 1 (sample_timers 2) = Ok s' ∧
     pending s' (insert_timeout (Timeout t H_lwip_cyclic_timer 1) sample_due)).
Proof.
  apply (lwip_cyclic_timer_period (sample_timers 2) sample_due 1 1000 (sample_timers 2) 2 (2, []));
    [reflexivity|reflexivity|apply sample_timers_pending|reflexivity|reflexivity].
Defined.
