(* ===== verification/Ip6Addr.v ===== *)
(** * IPv6 addresses: core/ipv6/ip6_addr.c and core/ip.c

    Parsing and printing of IPv6 addresses, IPv4-mapped ones included, and the
    functions of ip.c that choose between the two address families.  Strings are
    in byte memory; the four words of an address are an array whose index must be
    in range. *)

From S2P Require Import Prelude ByteMem Def IpAddr Ip4Addr.

(** ** Arrays of four words *)

Definition arr_get (a : list Z) (i : Z) : res Z := if 0 <=? i then deref (a !! Z.to_nat i) else Ub.
Definition arr_set (a : list Z) (i v : Z) : res (list Z) :=
  if (0 <=? i) && (i <? zlen a) then Ok (<[Z.to_nat i := v]> a) else Ub.

(** ** Parsing *)

(** The first loop: [zero_blocks] and [check_ipv4_mapped], or [None] for [return 0]. *)
Fixpoint count_blocks (fuel : nat) (b : bytes) (s zero_blocks : Z) : res (option (Z * bool)) :=
  match fuel with
  | O => Stuck
  | S fuel =>
      c ← deref (b !! s);
      if c =? 0 then Ok (Some (zero_blocks, false))
      else if c =? 58 then count_blocks fuel b (s + 1) (u32 (zero_blocks - 1))
      else if c =? 46 then
        if (zero_blocks =? 5) || (zero_blocks =? 2) then Ok (Some (u32 (zero_blocks - 1), true)) else Ok None
      else if negb (lwip_isxdigit c) then Ok (Some (zero_blocks, false))
      else count_blocks fuel b (s + 1) zero_blocks
  end.

(** The variables of the second loop; [p_addr] is [None] when [addr] is NULL. *)
Record parser := Parser {
  addr_index : Z; p_zero_blocks : Z; current_block_index : Z; current_block_value : Z; p_addr : option (list Z) }.

(** How the second loop ends: at the end of the text, by [goto
    fix_byte_order_and_return], or by a [return]. *)
Inductive parsed := P_end (st : parser) | P_fix (st : parser) | P_return (r : Z) (st : parser).

(** Store the current block: [addr->addr[addr_index++] |= value] for an odd block,
    [addr->addr[addr_index] = value << 16] for an even one. *)
Definition store_block (st : parser) : res parser :=
  match p_addr st with
  | None => Ok st
  | Some a =>
      if negb (Z.land (current_block_index st) 1 =? 0) then
        w ← arr_get a (addr_index st);
        a ← arr_set a (addr_index st) (Z.lor w (current_block_value st));
        Ok (Parser (addr_index st + 1) (p_zero_blocks st) (current_block_index st) (current_block_value st) (Some a))
      else
        a ← arr_set a (addr_index st) (u32 (Z.shiftl (current_block_value st) 16));
        Ok (Parser (addr_index st) (p_zero_blocks st) (current_block_index st) (current_block_value st) (Some a))
  end.

(** [while (zero_blocks > 0)]; [false] for [return 0].  At most 8 rounds because
    [current_block_index > 7] returns. *)
Fixpoint set_zeros (fuel : nat) (st : parser) : res (bool * parser) :=
  if 0 <? p_zero_blocks st then
    match fuel with
    | O => Stuck
    | S fuel =>
        st ← (if negb (Z.land (current_block_index st) 1 =? 0)
              then Ok (Parser (addr_index st + 1) (p_zero_blocks st - 1) (current_block_index st) (current_block_value st) (p_addr st))
              else match p_addr st with
                   | None => Ok (Parser (addr_index st) (p_zero_blocks st - 1) (current_block_index st) (current_block_value st) None)
                   | Some a =>
                       a ← arr_set a (addr_index st) 0;
                       Ok (Parser (addr_index st) (p_zero_blocks st - 1) (current_block_index st) (current_block_value st) (Some a))
                   end);
        let st := Parser (addr_index st) (p_zero_blocks st) (current_block_index st + 1) (current_block_value st) (p_addr st) in
        if 7 <? current_block_index st then Ok (false, st) else set_zeros fuel st
    end
  else Ok (true, st).

Definition hex_digit (c : Z) : Z :=
  if lwip_isdigit c then c - 48 else 10 + (if lwip_islower c then c - 97 else c - 65).

(** The body of the second loop at a colon: the next [s] and state, or the end. *)
Definition parse_colon (b : bytes) (check_ipv4_mapped : bool) (s : Z) (st : parser) : res (parsed + Z * parser) :=
  st ← store_block st;
  let st := Parser (addr_index st) (p_zero_blocks st) (current_block_index st + 1) (current_block_value st) (p_addr st) in
  r4 ← (if check_ipv4_mapped && (current_block_index st =? 6) then ip4addr_aton b (s + 1) else Ok None);
  match r4 with
  | Some ip4 =>
      match p_addr st with
      | Some a =>
          a ← arr_set a 3 (lwip_htonl ip4);
          Ok (inl (P_fix (Parser (addr_index st) (p_zero_blocks st) (current_block_index st + 1) (current_block_value st) (Some a))))
      | None => Ok (inl (P_return 1 st))
      end
  | None =>
      let st := Parser (addr_index st) (p_zero_blocks st) (current_block_index st) 0 (p_addr st) in
      if 7 <? current_block_index st then Ok (inl (P_return 0 st)) else
      c1 ← deref (b !! (s + 1));
      if c1 =? 58 then
        c2 ← deref (b !! (s + 2));
        if c2 =? 58 then Ok (inl (P_return 0 st)) else
        '(go, st) ← set_zeros 8 st;
        if (go : bool) then Ok (inr (s + 2, st)) else Ok (inl (P_return 0 st))
      else Ok (inr (s + 1, st))
  end.

(** The second loop. *)
Fixpoint parse_blocks (fuel : nat) (b : bytes) (check_ipv4_mapped : bool) (s : Z) (st : parser) : res parsed :=
  match fuel with
  | O => Stuck
  | S fuel =>
      c ← deref (b !! s);
      if c =? 0 then Ok (P_end st)
      else if c =? 58 then
        r ← parse_colon b check_ipv4_mapped s st;
        match r with
        | inl p => Ok p
        | inr (s, st) => parse_blocks fuel b check_ipv4_mapped s st
        end
      else if lwip_isxdigit c then
        let v := u32 (u32 (Z.shiftl (current_block_value st) 4) + hex_digit c) in
        parse_blocks fuel b check_ipv4_mapped (s + 1)
          (Parser (addr_index st) (p_zero_blocks st) (current_block_index st) v (p_addr st))
      else Ok (P_end st)
  end.

(** [fix_byte_order_and_return] *)
Definition fix_byte_order (st : parser) : res (Z * option (list Z)) :=
  let ret := if negb (current_block_index st =? 7) then 0 else 1 in
  match p_addr st with
  | None => Ok (ret, None)
  | Some a =>
      w0 ← arr_get a 0; w1 ← arr_get a 1; w2 ← arr_get a 2; w3 ← arr_get a 3;
      a ← arr_set a 0 (lwip_htonl w0); a ← arr_set a 1 (lwip_htonl w1);
      a ← arr_set a 2 (lwip_htonl w2); a ← arr_set a 3 (lwip_htonl w3);
      Ok (ret, Some a)
  end.

(** [dst] is the address to fill in, [None] for NULL.  The result is the return
    value and the address with its zone cleared, when the code clears it. *)
Definition ip6addr_aton (b : bytes) (cp : Z) (dst : option ip6_addr) : res (Z * option ip6_addr) :=
  r ← count_blocks (walk_fuel b) b cp 8;
  match r with
  | None => Ok (0, dst)
  | Some (zero_blocks, check_ipv4_mapped) =>
      p ← parse_blocks (walk_fuel b) b check_ipv4_mapped cp
            (Parser 0 zero_blocks 0 0 (match dst with Some a => Some (addr a) | None => None end));
      let finish st :=
        r ← fix_byte_order st;
        Ok (r.1, match r.2 with Some w => Some (Ip6Addr w 0) | None => None end) in
      match p with
      | P_return r st =>
          Ok (r, match dst, p_addr st with Some a, Some w => Some (Ip6Addr w (zone a)) | _, _ => dst end)
      | P_fix st => finish st
      | P_end st => st ← store_block st; finish st
      end
  end.

(** ** Printing *)

Definition lwip_xchar (i : Z) : Z := if i <? 10 then 48 + i else 65 + i - 10.

Definition ip6_addr_isipv4mappedipv6 (a : ip6_addr) : res bool :=
  w0 ← addr_word a 0; w1 ← addr_word a 1; w2 ← addr_word a 2;
  Ok ((w0 =? 0) && (w1 =? 0) && (w2 =? PP_HTONL 65535)).

(** "::FFFF:" *)
Definition IP4MAPPED_HEADER : list Z := [58; 58; 70; 70; 70; 70; 58].

(** [buf[i++] = ch; if (i >= buflen) return NULL;]  [None] is the return. *)
Definition put6 (buf buflen ch : Z) (i : Z) (b : bytes) : res (option Z * bytes) :=
  b ← store b (buf + i) ch;
  if buflen <=? i + 1 then Ok (None, b) else Ok (Some (i + 1), b).

Fixpoint puts6 (buf buflen : Z) (l : list Z) (i : Z) (b : bytes) : res (option Z * bytes) :=
  match l with
  | [] => Ok (Some i, b)
  | ch :: l =>
      '(o, b) ← put6 buf buflen ch i b;
      match o with None => Ok (None, b) | Some i => puts6 buf buflen l i b end
  end.

(** The digits of a block: the three [if]s suppress leading zeros. *)
Definition block_digits (v : Z) : list Z :=
  let '(l, zero_flag) := if Z.land v 61440 =? 0 then ([], true) else ([lwip_xchar (Z.shiftr (Z.land v 61440) 12)], false) in
  let '(l, zero_flag) := if (Z.land v 3840 =? 0) && (zero_flag : bool) then (l, zero_flag)
                         else (l ++ [lwip_xchar (Z.shiftr (Z.land v 3840) 8)], false) in
  let '(l, zero_flag) := if (Z.land v 240 =? 0) && (zero_flag : bool) then (l, zero_flag)
                         else (l ++ [lwip_xchar (Z.shiftr (Z.land v 240) 4)], false) in
  l ++ [lwip_xchar (Z.land v 15)].

(** The 16-bit block [k] of the address. *)
Definition block_value (a : ip6_addr) (k : Z) : res Z :=
  w ← addr_word a (Z.shiftr k 1);
  let v := lwip_htonl w in
  let v := if Z.land k 1 =? 0 then Z.shiftr v 16 else v in
  Ok (Z.land v 65535).

(** [next_block_value]: block [k + 1], as the code computes it from [k]. *)
Definition next_block_value (a : ip6_addr) (k : Z) : res Z :=
  w ← addr_word a (Z.shiftr (k + 1) 1);
  let v := lwip_htonl w in
  let v := if Z.land k 1 =? 1 then Z.shiftr v 16 else v in
  Ok (Z.land v 65535).

(** What one round of the loop does: the characters it stores, the new
    [empty_block_flag] and whether it leaves the loop by [break]. *)
Definition block_text (a : ip6_addr) (k empty_block_flag : Z) : res (list Z * Z * bool) :=
  v ← block_value a k;
  let number flag := Ok ((if 0 <? k then [58] else []) ++ block_digits v, flag, false) in
  if v =? 0 then
    if (k =? 7) && (empty_block_flag =? 1) then Ok ([58], empty_block_flag, true)
    else if empty_block_flag =? 0 then
      nv ← next_block_value a k;
      if nv =? 0 then Ok ([58], 1, false) else number empty_block_flag
    else if empty_block_flag =? 1 then Ok ([], empty_block_flag, false)
    else number empty_block_flag
  else number (if empty_block_flag =? 1 then 2 else empty_block_flag).

(** [for (current_block_index = k; current_block_index < 8; ...)], [n] rounds left. *)
Fixpoint ntoa6_loop (n : nat) (a : ip6_addr) (k empty_block_flag : Z) (buf buflen i : Z) (b : bytes)
    : res (option Z * bytes) :=
  match n with
  | O => Ok (Some i, b)
  | S n =>
      '(l, flag, brk) ← block_text a k empty_block_flag;
      '(o, b) ← puts6 buf buflen l i b;
      match o with
      | None => Ok (None, b)
      | Some i => if (brk : bool) then Ok (Some i, b) else ntoa6_loop n a (k + 1) flag buf buflen i b
      end
  end.

Definition ip6addr_ntoa_r (a : ip6_addr) (buf buflen : Z) (b : bytes) : res (Z * bytes) :=
  mapped4 ← ip6_addr_isipv4mappedipv6 a;
  if (mapped4 : bool) then
    let buf_ip4 := buf + 7 in
    let buflen_ip4 := buflen - 7 in
    if buflen <? 8 then Ok (0, b) else
    b ← mstore buf (IP4MAPPED_HEADER ++ [0]) b;
    addr4 ← addr_word a 3;
    '(ret, b) ← ip4addr_ntoa_r addr4 buf_ip4 buflen_ip4 b;
    if negb (ret =? buf_ip4) then Ok (0, b) else Ok (buf, b)
  else
    '(o, b) ← ntoa6_loop 8 a 0 0 buf buflen 0 b;
    match o with
    | None => Ok (0, b)
    | Some i => b ← store b (buf + i) 0; Ok (buf, b)
    end.

(** [str] is the function's static buffer of 40 bytes. *)
Definition ip6addr_ntoa (a : ip6_addr) (str : Z) (b : bytes) : res (Z * bytes) := ip6addr_ntoa_r a str 40 b.

(** ** core/ip.c: addresses of either family *)

(** A NULL [addr] is [None]; [str6] and [str4] are the static buffers. *)
Definition ipaddr_ntoa (addr : option ip_addr) (str6 str4 : Z) (b : bytes) : res (Z * bytes) :=
  match addr with
  | None => Ok (0, b)
  | Some a => if IP_IS_V6 a then ip6addr_ntoa (ip_2_ip6 a) str6 b
              else a4 ← ip_2_ip4 a; ip4addr_ntoa a4 str4 b
  end.

Definition ipaddr_ntoa_r (addr : option ip_addr) (buf buflen : Z) (b : bytes) : res (Z * bytes) :=
  match addr with
  | None => Ok (0, b)
  | Some a => if IP_IS_V6 a then ip6addr_ntoa_r (ip_2_ip6 a) buf buflen b
              else a4 ← ip_2_ip4 a; ip4addr_ntoa_r a4 buf buflen b
  end.

(** The loop of ipaddr_aton: does a colon come before the first dot? *)
Fixpoint has_colon (fuel : nat) (b : bytes) (c : Z) : res bool :=
  match fuel with
  | O => Stuck
  | S fuel =>
      x ← deref (b !! c);
      if x =? 0 then Ok false
      else if x =? 58 then Ok true
      else if x =? 46 then Ok false
      else has_colon fuel b (c + 1)
  end.

(** [cp] is not NULL; [dst] is [None] for NULL.  The IPv4 member is the first word. *)
Definition ipaddr_aton (b : bytes) (cp : Z) (dst : option ip_addr) : res (Z * option ip_addr) :=
  v6 ← has_colon (walk_fuel b) b cp;
  if (v6 : bool) then
    r ← ip6addr_aton b cp (match dst with Some a => Some (u_addr a) | None => None end);
    Ok (r.1, match r.2 with Some a => Some (IpAddr a IPADDR_TYPE_V6) | None => None end)
  else
    r ← ip4addr_aton b cp;
    match dst with
    | None => Ok (match r with Some _ => 1 | None => 0 end, None)
    | Some a =>
        match r with
        | None => Ok (0, Some (IpAddr (u_addr a) IPADDR_TYPE_V4))
        | Some v =>
            w ← arr_set (addr (u_addr a)) 0 v;
            Ok (1, Some (IpAddr (Ip6Addr w (zone (u_addr a))) IPADDR_TYPE_V4))
        end
    end.
