(* ===== verification/Ip6AddrFacts.v ===== *)
(** * IPv6 addresses: parsing is safe

    ip6addr_aton stays inside the string and inside the four words of the address,
    for every string and with or without a destination. *)

From S2P Require Import Prelude ByteMem Def IpAddr Ip4Addr Ip4AddrFacts Ip6Addr.

(** ** Arrays *)

Lemma arr_get_ok a i : 0 ≤ i < zlen a → ∃ w, arr_get a i = Ok w ∧ a !! Z.to_nat i = Some w.
Proof.
  intros Hi. unfold arr_get. replace (0 <=? i) with true by lia.
  destruct (lookup_lt_is_Some_2 a (Z.to_nat i)) as [w Hw]; [unfold zlen in Hi; lia|]. exists w. by rewrite Hw.
Qed.

Lemma arr_set_ok a i v : 0 ≤ i < zlen a → arr_set a i v = Ok (<[Z.to_nat i := v]> a).
Proof. intros Hi. unfold arr_set. by replace ((0 <=? i) && (i <? zlen a)) with true by lia. Qed.

(** Four 32-bit words. *)
Definition words_ok (a : list Z) : Prop := length a = 4%nat ∧ Forall is_u32 a.

Lemma words_ok_set a i v : words_ok a → is_u32 v → words_ok (<[i := v]> a).
Proof. intros [Hl Hf] Hv. split; [by rewrite length_insert|]. by apply Forall_insert. Qed.

(** ** The parser's invariant *)

(** Without a destination [addr_index] may lag behind; only the rest matters. *)
Definition parser_inv (st : parser) : Prop :=
  0 ≤ current_block_index st ≤ 7 ∧ 0 ≤ p_zero_blocks st ∧ is_u32 (current_block_value st) ∧
  match p_addr st with None => True | Some a => words_ok a ∧ addr_index st = current_block_index st / 2 end.

Lemma odd_block k : negb (Z.land k 1 =? 0) = negb (k mod 2 =? 0).
Proof. by rewrite (land_ones_mod k 1 1) by (done || lia). Qed.

(** The state after [store_block] and [current_block_index++]. *)
Lemma store_block_ok st : parser_inv st → ∃ st', store_block st = Ok st' ∧
  current_block_index st' = current_block_index st ∧ p_zero_blocks st' = p_zero_blocks st ∧
  current_block_value st' = current_block_value st ∧
  match p_addr st with
  | None => p_addr st' = None
  | Some _ => ∃ a, p_addr st' = Some a ∧ words_ok a ∧ addr_index st' = (current_block_index st + 1) / 2
  end.
Proof.
  intros (Hc & Hz & Hv & Ha). unfold store_block. destruct (p_addr st) as [a|] eqn:Ea; [|by exists st].
  destruct Ha as [Hw Hi]. pose proof Hw as [Hlen Hf]. rewrite odd_block.
  assert (Hr : 0 ≤ addr_index st < zlen a) by (unfold zlen; rewrite Hlen; zlia).
  destruct (current_block_index st mod 2 =? 0) eqn:E; breflect; cbn [negb].
  - rewrite arr_set_ok by done. cbn [mbind res_bind]. eexists. split; [done|]. split_and!; [done..|].
    eexists. split; [done|]. split; [by apply words_ok_set; [|apply u32_range]|]. simpl. zlia.
  - destruct (arr_get_ok a _ Hr) as (w & -> & Hlw). cbn [mbind res_bind]. rewrite arr_set_ok by done. cbn [mbind res_bind].
    eexists. split; [done|]. split_and!; [done..|]. eexists. split; [done|].
    split; [apply words_ok_set; [done|]; apply lor_u32; [|done]; by apply (Forall_lookup_1 _ _ _ _ Hf Hlw)|]. simpl. zlia.
Qed.

Lemma set_zeros_ok fuel : ∀ st, parser_inv st → 8 ≤ current_block_index st + Z.of_nat fuel →
  ∃ go st', set_zeros fuel st = Ok (go, st') ∧ (go = true → parser_inv st') ∧
    (∀ a', p_addr st' = Some a' → words_ok a') ∧ (p_addr st = None ↔ p_addr st' = None).
Proof.
  induction fuel as [|fuel IH]; intros st Hinv Hf; pose proof Hinv as (Hc & Hz & Hv & Ha); [lia|]. cbn [set_zeros].
  destruct (0 <? p_zero_blocks st) eqn:Ez; breflect.
  2:{ exists true, st. split; [done|]. split; [done|]. split; [|done]. intros a' Ha'. rewrite Ha' in Ha. by destruct Ha. }
  rewrite odd_block.
  assert (∃ st1, (if negb (current_block_index st mod 2 =? 0)
       then Ok (Parser (addr_index st + 1) (p_zero_blocks st - 1) (current_block_index st) (current_block_value st) (p_addr st))
       else match p_addr st with
            | None => Ok (Parser (addr_index st) (p_zero_blocks st - 1) (current_block_index st) (current_block_value st) None)
            | Some a => a ← arr_set a (addr_index st) 0;
                Ok (Parser (addr_index st) (p_zero_blocks st - 1) (current_block_index st) (current_block_value st) (Some a))
            end) = Ok st1 ∧ current_block_index st1 = current_block_index st ∧ p_zero_blocks st1 = p_zero_blocks st - 1 ∧
      current_block_value st1 = current_block_value st ∧ (p_addr st = None ↔ p_addr st1 = None) ∧
      match p_addr st1 with None => True | Some a => words_ok a ∧ addr_index st1 = (current_block_index st + 1) / 2 end)
    as (st1 & -> & Hc1 & Hz1 & Hv1 & Hn1 & Ha1).
  { destruct (current_block_index st mod 2 =? 0) eqn:E; breflect; cbn [negb].
    - destruct (p_addr st) as [a|] eqn:Ea.
      + destruct Ha as [Hw Hi]. rewrite arr_set_ok by (destruct Hw as [Hlen _]; unfold zlen; rewrite Hlen; zlia).
        cbn [mbind res_bind]. eexists. split; [done|]. split_and!; [done..|]. simpl.
        split; [apply words_ok_set; [done|done]|zlia].
      + eexists. split; [done|]. by split_and!.
    - eexists. split; [done|]. split_and!; [done..|]. simpl. destruct (p_addr st) as [a|]; [|done].
      destruct Ha as [Hw Hi]. split; [done|zlia]. }
  cbn [mbind res_bind]. rewrite Hc1. cbn [current_block_index].
  destruct (7 <? current_block_index st + 1) eqn:E7; breflect.
  - eexists _, _. split; [done|]. split; [done|]. simpl. split; [|done]. intros a' Ha'. rewrite Ha' in Ha1. by destruct Ha1.
  - destruct (IH (Parser (addr_index st1) (p_zero_blocks st1) (current_block_index st + 1) (current_block_value st1) (p_addr st1)))
      as (go & st' & -> & Hgo & Hw' & Hn'); [|simpl; lia|].
    + unfold parser_inv. simpl. rewrite Hz1, Hv1. split_and!; [lia|lia|lia|apply Hv..|done].
    + exists go, st'. split; [done|]. split; [done|]. split; [done|]. simpl in Hn'. by rewrite Hn1.
Qed.

(** What each way out of the second loop guarantees; [n] tells whether [addr] is NULL. *)
Definition parsed_ok (n : Prop) (p : parsed) : Prop :=
  match p with
  | P_end st => parser_inv st ∧ (n ↔ p_addr st = None)
  | P_fix st => (∃ a, p_addr st = Some a ∧ words_ok a) ∧ ¬ n
  | P_return r st => (r = 0 ∨ r = 1) ∧ (n ↔ p_addr st = None) ∧ ∀ a, p_addr st = Some a → words_ok a
  end.

Lemma parse_colon_ok b chk s l st : cstr b s (58 :: l) → parser_inv st →
  ∃ r, parse_colon b chk s st = Ok r ∧
    match r with
    | inl p => parsed_ok (p_addr st = None) p
    | inr (s', st') => parser_inv st' ∧ (p_addr st = None ↔ p_addr st' = None) ∧
                       ∃ l', cstr b s' l' ∧ (length l' ≤ length l)%nat
    end.
Proof.
  intros Hs Hinv. pose proof Hinv as (Hc & Hz & Hv & _). apply cstr_cons in Hs as (_ & _ & Hs). unfold parse_colon.
  destruct (store_block_ok st Hinv) as (st1 & -> & Hc1 & Hz1 & Hv1 & Ha1). cbn [mbind res_bind].
  rewrite Hc1, Hz1. cbn [current_block_index addr_index p_zero_blocks current_block_value p_addr].
  assert (Hn1 : p_addr st = None ↔ p_addr st1 = None).
  { destruct (p_addr st); [|by rewrite Ha1]. destruct Ha1 as (? & -> & _). done. }
  assert (Hw1 : ∀ a, p_addr st1 = Some a → words_ok a).
  { intros a Ha. destruct (p_addr st); [|congruence]. destruct Ha1 as (? & Ha' & Hw & _). congruence. }
  assert (∃ r4, (if chk && (current_block_index st + 1 =? 6) then ip4addr_aton b (s + 1) else Ok None) = Ok r4 ∧
    ∀ ip4, r4 = Some ip4 → is_u32 ip4) as (r4 & -> & Hr4).
  { destruct (_ && _); [by eapply ip4addr_aton_total|by exists None]. }
  cbn [mbind res_bind]. destruct r4 as [ip4|].
  { destruct (p_addr st1) as [a|] eqn:Ea.
    - rewrite arr_set_ok by (destruct (Hw1 a eq_refl) as [Hlen _]; unfold zlen; rewrite Hlen; lia). cbn [mbind res_bind].
      eexists. split; [done|]. simpl. split; [|by rewrite Hn1]. eexists. split; [done|].
      apply words_ok_set; [by apply Hw1|]. apply htonl_u32. by apply Hr4.
    - eexists. split; [done|]. simpl. split; [by right|]. split; [exact Hn1|done]. }
  destruct (7 <? current_block_index st + 1) eqn:E7; breflect.
  { eexists. split; [done|]. simpl. split; [by left|done]. }
  rewrite (cstr_head _ _ _ Hs). cbn [deref mbind res_bind].
  assert (Hinv1 : parser_inv (Parser (addr_index st1) (p_zero_blocks st) (current_block_index st + 1) 0 (p_addr st1))).
  { unfold parser_inv. simpl. split; [lia|]. split; [lia|]. split; [done|].
    destruct (p_addr st1) as [a|] eqn:Ea; [|done]. split; [by apply Hw1|].
    destruct (p_addr st); [|congruence]. by destruct Ha1 as (? & ? & ? & ?). }
  destruct (default 0 (head l) =? 58) eqn:E58; breflect.
  - destruct l as [|d l]; [done|]. apply cstr_cons in Hs as (_ & _ & Hs). replace (s + 1 + 1) with (s + 2) in Hs by lia.
    rewrite (cstr_head _ _ _ Hs). cbn [deref mbind res_bind].
    destruct (default 0 (head l) =? 58).
    { eexists. split; [done|]. simpl. split; [by left|done]. }
    destruct (set_zeros_ok 8 _ Hinv1) as (go & st' & -> & Hgo & Hw' & Hn'); [simpl; lia|]. cbn [mbind res_bind].
    simpl in Hn'. destruct go; (eexists; split; [done|]).
    + split; [by apply Hgo|]. split; [by rewrite Hn1|]. exists l. split; [done|]. simpl. lia.
    + simpl. split; [by left|]. split; [by rewrite Hn1|done].
  - eexists. split; [done|]. split; [done|]. split; [done|]. by exists l.
Qed.

Lemma hex_digit_range c : lwip_isxdigit c = true → 0 ≤ hex_digit c ≤ 15.
Proof.
  unfold lwip_isxdigit, hex_digit, lwip_isdigit, lwip_islower, lwip_in_range. intros Hx.
  destruct ((48 <=? c) && (c <=? 57)) eqn:E1; [lia|].
  destruct ((97 <=? c) && (c <=? 122)) eqn:E2; lia.
Qed.

Lemma parse_blocks_ok b chk : ∀ fuel l s st, cstr b s l → parser_inv st → (length l < fuel)%nat →
  ∃ p, parse_blocks fuel b chk s st = Ok p ∧ parsed_ok (p_addr st = None) p.
Proof.
  induction fuel as [|fuel IH]; intros l s st Hs Hinv Hf; [lia|]. cbn [parse_blocks].
  rewrite (cstr_head _ _ _ Hs). cbn [deref mbind res_bind].
  destruct l as [|c l]; [by exists (P_end st)|]. change (default 0 (head (c :: l))) with c. simpl in Hf.
  pose proof Hs as (_ & Hr & Hs')%cstr_cons. replace (c =? 0) with false by lia.
  destruct (c =? 58) eqn:E; breflect.
  - subst c. destruct (parse_colon_ok b chk s l st Hs Hinv) as (r & -> & Hr'). cbn [mbind res_bind].
    destruct r as [p|[s' st']]; [by exists p|]. destruct Hr' as (Hinv' & Hn' & l' & Hs2 & Hl).
    destruct (IH l' s' st' Hs2 Hinv') as (p & -> & Hp); [lia|]. exists p. split; [done|].
    destruct p; simpl in *; by rewrite Hn'.
  - destruct (lwip_isxdigit c) eqn:Ex; [|by exists (P_end st)].
    destruct Hinv as (Hc & Hz & Hv & Ha).
    apply (IH l (s + 1) (Parser _ _ _ (u32 _) _)); [done| |lia]. unfold parser_inv. simpl.
    split; [lia|]. split; [lia|]. split; [apply u32_range|done].
Qed.

Lemma count_blocks_ok b : ∀ fuel l s z, cstr b s l → (length l < fuel)%nat → 0 ≤ z →
  ∃ r, count_blocks fuel b s z = Ok r ∧ ∀ z' chk, r = Some (z', chk) → 0 ≤ z'.
Proof.
  induction fuel as [|fuel IH]; intros l s z Hs Hf Hz; [lia|]. cbn [count_blocks].
  rewrite (cstr_head _ _ _ Hs). cbn [deref mbind res_bind].
  destruct l as [|c l]; [by eexists; split; [done|]; intros ? ? [= <- <-]|]. change (default 0 (head (c :: l))) with c.
  simpl in Hf. apply cstr_cons in Hs as (_ & Hr & Hs). replace (c =? 0) with false by lia.
  destruct (c =? 58); [apply (IH l); [done|lia|]; pose proof (u32_range (z - 1)) as [? _]; done|].
  destruct (c =? 46).
  { destruct (_ || _); eexists; (split; [done|]); intros z' chk Heq; simplify_eq.
    pose proof (u32_range (z - 1)) as [? _]. done. }
  destruct (negb _); [by eexists; split; [done|]; intros ? ? [= <- <-]|]. apply (IH l); [done|lia|done].
Qed.

Lemma fix_byte_order_ok st a : p_addr st = Some a → words_ok a →
  ∃ r a', fix_byte_order st = Ok (r, Some a') ∧ (r = 0 ∨ r = 1) ∧ words_ok a'.
Proof.
  intros Ha [Hlen Hf]. unfold fix_byte_order. rewrite Ha.
  destruct a as [|w0 [|w1 [|w2 [|w3 [|? ?]]]]]; try discriminate Hlen.
  rewrite !Forall_cons in Hf. destruct Hf as (H0 & H1 & H2 & H3 & _).
  eexists _, [lwip_htonl w0; lwip_htonl w1; lwip_htonl w2; lwip_htonl w3]. split; [done|].
  split; [destruct (_ =? 7); [by right|by left]|]. split; [done|].
  repeat (apply Forall_cons; split; [by apply htonl_u32|]). done.
Qed.

Lemma fix_byte_order_null st : p_addr st = None → ∃ r, fix_byte_order st = Ok (r, None) ∧ (r = 0 ∨ r = 1).
Proof. intros Ha. unfold fix_byte_order. rewrite Ha. eexists. split; [done|]. destruct (_ =? 7); [by right|by left]. Qed.

(** C15: Parsing IPv6 addresses is safe: for every string, with a destination or
    without one, ip6addr_aton ends, reads no byte behind the terminator, stays
    inside the four words of the address, returns 0 or 1 and leaves four 32-bit
    words. *)
Theorem ip6addr_aton_safe b cp l dst :
  cstr b cp l → (∀ a, dst = Some a → ip6_ok a) →
  ∃ r dst', ip6addr_aton b cp dst = Ok (r, dst') ∧ (r = 0 ∨ r = 1) ∧
    (dst = None ↔ dst' = None) ∧ ∀ a, dst' = Some a → ip6_ok a.
Proof.
  intros Hs Hd. unfold ip6addr_aton. pose proof (cstr_fuel _ _ _ Hs) as Hf.
  destruct (count_blocks_ok b _ l cp 8 Hs Hf) as (r & -> & Hr); [lia|]. cbn [mbind res_bind].
  destruct r as [[z chk]|]; [|exists 0, dst; by split_and!; [|left| |]]. specialize (Hr z chk eq_refl).
  set (st0 := Parser 0 z 0 0 _). assert (Hinv : parser_inv st0).
  { unfold parser_inv, st0. simpl. split; [lia|]. split; [lia|]. split; [done|]. destruct dst as [a|]; [|done].
    split; [|done]. by destruct (Hd a eq_refl). }
  assert (Hn : dst = None ↔ p_addr st0 = None) by (unfold st0; simpl; by destruct dst). clearbody st0.
  destruct (parse_blocks_ok b chk _ l cp st0 Hs Hinv Hf) as (p & -> & Hp). cbn [mbind res_bind].
  destruct p as [st|st|r st]; simpl in Hp.
  - destruct Hp as [Hi Hn']. destruct (store_block_ok st Hi) as (st1 & -> & _ & _ & _ & Ha1). cbn [mbind res_bind].
    destruct (p_addr st) as [a|] eqn:Ea.
    + destruct Ha1 as (a1 & Ha1 & Hw & _). destruct (fix_byte_order_ok st1 a1 Ha1 Hw) as (r & a' & -> & Hr' & Hw').
      cbn [mbind res_bind]. eexists r, _. split; [done|]. split; [done|]. split; [by rewrite Hn, Hn'|].
      simpl. by intros ? [= <-].
    + destruct (fix_byte_order_null st1 Ha1) as (r & -> & Hr'). cbn [mbind res_bind]. eexists r, _.
      split; [done|]. split; [done|]. split; [by rewrite Hn, Hn'|done].
  - destruct Hp as [(a & Ha & Hw) Hn']. destruct (fix_byte_order_ok st a Ha Hw) as (r & a' & -> & Hr' & Hw').
    cbn [mbind res_bind]. eexists r, _. split; [done|]. split; [done|]. simpl. split; [by rewrite Hn|]. by intros ? [= <-].
  - destruct Hp as (Hr' & Hn' & Hw). eexists r, _. split; [done|]. split; [done|].
    destruct dst as [a|]; [|done]. destruct (p_addr st) as [w|] eqn:Ew; [|naive_solver]. split; [done|].
    intros a' [= <-]. by apply Hw.
Qed.

Lemma ip6addr_aton_safe_witness :
  ∃ r dst', ip6addr_aton sample_strings 100 (Some (Ip6Addr [0; 0; 0; 0] 1)) = Ok (r, dst') ∧ (r = 0 ∨ r = 1) ∧
    (Some (Ip6Addr [0; 0; 0; 0] 1) = None ↔ dst' = None) ∧ ∀ a, dst' = Some a → ip6_ok a.
Proof.
  apply (ip6addr_aton_safe sample_strings 100 [97; 98; 99; 65; 66]); [apply sample_cstr|].
  intros a [= <-]. split; [done|]. repeat constructor; done.
Defined.
