(* ===== verification/Ip6AddrText.v ===== *)
(** * IPv6 addresses: printing and the round trip

    [text_from] is the text ip6addr_ntoa_r produces for a list of 16-bit blocks;
    it is [None] where the code reads behind the address.  Parsing that text gives
    the blocks back, the ones hidden in "::" included. *)

From S2P Require Import Prelude ByteMem Def IpAddr Ip4Addr Ip4AddrFacts Ip6Addr Ip6AddrFacts.

(** ** Blocks *)

Definition is_block (v : Z) : Prop := 0 ≤ v < 65536.

Definition blocks (a : ip6_addr) : list Z :=
  flat_map (λ w, [lwip_htonl w / 65536; lwip_htonl w mod 65536]) (addr a).

Lemma htonl_htonl x : is_u32 x → lwip_htonl (lwip_htonl x) = x.
Proof.
  intros (a & c & d & e & Ha & Hc & Hd & He & ->)%u32_bytes. unfold lwip_htonl.
  by rewrite !PP_HTONL_bytes.
Qed.

Lemma block_high v : is_u32 v → Z.land (Z.shiftr v 16) 65535 = v / 65536.
Proof.
  intros Hv. rewrite (land_ones_mod _ 16), Z.shiftr_div_pow2 by (done || lia). change (2 ^ 16) with 65536. ulia.
Qed.

Lemma block_low v : Z.land v 65535 = v mod 65536.
Proof. by rewrite (land_ones_mod _ 16) by (done || lia). Qed.

Lemma block_index k : 0 ≤ k < 8 → k = 0 ∨ k = 1 ∨ k = 2 ∨ k = 3 ∨ k = 4 ∨ k = 5 ∨ k = 6 ∨ k = 7.
Proof. lia. Qed.

Lemma block_value_ok a k : ip6_ok a → 0 ≤ k < 8 → block_value a k = deref (blocks a !! Z.to_nat k).
Proof.
  intros (w0 & w1 & w2 & w3 & Ha & H0 & H1 & H2 & H3)%ip6_ok_words Hk. unfold block_value, addr_word, blocks. rewrite Ha.
  pose proof (htonl_u32 _ H0). pose proof (htonl_u32 _ H1). pose proof (htonl_u32 _ H2). pose proof (htonl_u32 _ H3).
  destruct (block_index k Hk) as [->|[->|[->|[->|[->|[->|[->| ->]]]]]]];
    first [exact (f_equal Ok (block_low _)) | refine (f_equal Ok (block_high _ _)); done].
Qed.

Lemma next_block_value_ok a k : ip6_ok a → 0 ≤ k < 8 → next_block_value a k = deref (blocks a !! Z.to_nat (k + 1)).
Proof.
  intros (w0 & w1 & w2 & w3 & Ha & H0 & H1 & H2 & H3)%ip6_ok_words Hk. unfold next_block_value, addr_word, blocks. rewrite Ha.
  pose proof (htonl_u32 _ H0). pose proof (htonl_u32 _ H1). pose proof (htonl_u32 _ H2). pose proof (htonl_u32 _ H3).
  destruct (block_index k Hk) as [->|[->|[->|[->|[->|[->|[->| ->]]]]]]];
    first [reflexivity | exact (f_equal Ok (block_low _)) | refine (f_equal Ok (block_high _ _)); done].
Qed.

Lemma blocks_ok a : ip6_ok a → length (blocks a) = 8%nat ∧ Forall is_block (blocks a).
Proof.
  intros (w0 & w1 & w2 & w3 & Ha & H0 & H1 & H2 & H3)%ip6_ok_words. unfold blocks. rewrite Ha. split; [done|].
  pose proof (htonl_u32 _ H0). pose proof (htonl_u32 _ H1). pose proof (htonl_u32 _ H2). pose proof (htonl_u32 _ H3).
  cbn [flat_map app]. unfold is_block, is_u32 in *. repeat (apply Forall_cons; split; [zlia|]). done.
Qed.

(** ** Digits of a block *)

Definition hex_char (c : Z) : bool := lwip_isxdigit c && negb (lwip_islower c).

Definition digit_step (v c : Z) : Z := u32 (u32 (Z.shiftl v 4) + hex_digit c).

Definition digits_check (v : Z) : bool :=
  let ds := block_digits v in
  forallb hex_char ds && (1 <=? zlen ds) && (zlen ds <=? 4) && (foldl digit_step 0 ds =? v).

(** [f] holds of [n] values from [v] on. *)
Fixpoint holds_from (f : Z → bool) (n : nat) (v : Z) : bool :=
  match n with O => true | S n => if f v then holds_from f n (v + 1) else false end.

Lemma holds_from_spec f n : ∀ v, holds_from f n v = true → ∀ x, v ≤ x < v + Z.of_nat n → f x = true.
Proof.
  induction n as [|n IH]; intros v H x Hx; [lia|]. cbn [holds_from] in H. destruct (f v) eqn:E; [|done].
  destruct (decide (x = v)) as [->|]; [done|]. apply (IH (v + 1)); [done|lia].
Qed.

Lemma digits_check_all : holds_from digits_check (Z.to_nat 65536) 0 = true.
Proof. vm_compute. reflexivity. Qed.

Lemma block_digits_ok v : is_block v →
  Forall (λ c, hex_char c = true) (block_digits v) ∧ 1 ≤ zlen (block_digits v) ≤ 4 ∧ foldl digit_step 0 (block_digits v) = v.
Proof.
  intros Hv. assert (Hc : digits_check v = true).
  { apply (holds_from_spec _ _ 0 digits_check_all). rewrite Z2Nat.id; [exact Hv|done]. }
  unfold digits_check in Hc. cbn zeta in Hc. breflect. rewrite forallb_forall in H. split_and!; [|done|done|done].
  apply Forall_forall. intros c Hin. apply H. by apply list_elem_of_In.
Qed.

Lemma hex_char_byte c : hex_char c = true →
  48 ≤ c ≤ 70 ∧ c ≠ 58 ∧ c ≠ 46 ∧ lwip_isxdigit c = true.
Proof.
  unfold hex_char. intros H. breflect. split; [|split; [|split; [|done]]];
    unfold lwip_isxdigit, lwip_islower, lwip_isdigit, lwip_in_range in *; lia.
Qed.

(** ** The text *)

(** What one round of the printing loop does at block [k] of value [v] when [next]
    is the block behind it: leave by [break] with a last colon, read behind the
    address, open a "::", skip a zero inside "::", or print a number. *)
Inductive move := M_last | M_overread | M_open | M_skip | M_number (flag : Z).

Definition move_at (k flag v : Z) (next : option Z) : move :=
  if v =? 0 then
    if (k =? 7) && (flag =? 1) then M_last
    else if flag =? 0 then
      match next with
      | None => M_overread
      | Some nv => if nv =? 0 then M_open else M_number flag
      end
    else if flag =? 1 then M_skip
    else M_number flag
  else M_number (if flag =? 1 then 2 else flag).

Fixpoint text_from (k flag : Z) (vs : list Z) : option (list Z) :=
  match vs with
  | [] => Some []
  | v :: vs' =>
      match move_at k flag v (head vs') with
      | M_last => Some [58]
      | M_overread => None
      | M_open => t ← text_from (k + 1) 1 vs'; Some (58 :: t)
      | M_skip => text_from (k + 1) flag vs'
      | M_number flag => t ← text_from (k + 1) flag vs'; Some ((if 0 <? k then [58] else []) ++ block_digits v ++ t)
      end
  end.

(** The text of [n] blocks from block [k] on fits in [room k n] characters. *)
Definition room (k n : Z) : Z := 5 * n - c_bool ((k =? 0) && (0 <? n)).

Lemma room_later k n : 0 < k → room k n = 5 * n.
Proof. intros Hk. unfold room. replace (k =? 0) with false by lia. unfold c_bool. simpl. lia. Qed.

Lemma room_step k n : 0 ≤ k → 0 ≤ n → room k (n + 1) = room (k + 1) n + 5 - c_bool (k =? 0).
Proof.
  intros Hk Hn. rewrite (room_later (k + 1)) by lia. unfold room. replace (0 <? n + 1) with true by lia.
  rewrite andb_true_r. lia.
Qed.

Lemma number_length k v : is_block v →
  zlen ((if 0 <? k then [58] else []) ++ block_digits v) ≤ 5 - c_bool (negb (0 <? k)).
Proof.
  intros Hv. destruct (block_digits_ok v Hv) as (_ & Hd & _). rewrite zlen_app. destruct (0 <? k); unfold c_bool; simpl.
  - change (zlen [58]) with 1. lia.
  - change (zlen (@nil Z)) with 0. lia.
Qed.

Lemma text_length vs : ∀ k flag t, Forall is_block vs → 0 ≤ k → text_from k flag vs = Some t → zlen t ≤ room k (zlen vs).
Proof.
  induction vs as [|v vs IH]; intros k flag t Hb Hk Ht; cbn [text_from] in Ht.
  { injection Ht as <-. unfold room. rewrite andb_false_r. done. }
  apply Forall_cons in Hb as [Hv Hb]. pose proof (number_length k v Hv) as Hn.
  pose proof (zlen_nonneg vs). rewrite zlen_cons, room_step by done.
  assert (Hc : c_bool (k =? 0) = c_bool (negb (0 <? k)) ∧ 0 ≤ c_bool (k =? 0) ≤ 1).
  { unfold c_bool. destruct (0 <? k) eqn:E; breflect; [replace (k =? 0) with false by lia|replace (k =? 0) with true by lia]; done. }
  destruct Hc as [Hc Hc']. rewrite <-Hc in Hn.
  pose proof (room_later (k + 1) (zlen vs)) as Hroom.
  destruct (move_at k flag v (head vs)) as [| | | |flag'].
  - injection Ht as <-. change (zlen [58]) with 1. lia.
  - done.
  - destruct (text_from (k + 1) 1 vs) as [t'|] eqn:E; [|done]. injection Ht as <-. apply IH in E; [|done|lia].
    rewrite zlen_cons. lia.
  - apply IH in Ht; [|done|lia]. lia.
  - destruct (text_from (k + 1) flag' vs) as [t'|] eqn:E; [|done]. injection Ht as <-. apply IH in E; [|done|lia].
    rewrite app_assoc, zlen_app. lia.
Qed.

(** ** Storing the text *)

Lemma puts6_app l1 l2 : ∀ buf buflen i b,
  puts6 buf buflen (l1 ++ l2) i b =
  ('(o, b) ← puts6 buf buflen l1 i b; match o with None => Ok (None, b) | Some i => puts6 buf buflen l2 i b end).
Proof.
  induction l1 as [|c l1 IH]; intros buf buflen i b; [done|]. cbn [app puts6]. unfold put6.
  destruct (store b (buf + i) c) as [b'| | |]; [|done..]. cbn [mbind res_bind].
  destruct (buflen <=? i + 1); [done|]. cbn [mbind res_bind]. apply IH.
Qed.

Lemma puts6_ok l : ∀ buf buflen i b, mapped b buf buflen → 0 ≤ i → i + zlen l < buflen →
  puts6 buf buflen l i b = Ok (Some (i + zlen l), mwrite b (buf + i) l).
Proof.
  induction l as [|c l IH]; intros buf buflen i b Hm Hi Hl.
  { cbn [puts6 mwrite]. unfold zlen. simpl. by rewrite Z.add_0_r. }
  rewrite zlen_cons in Hl |- *. pose proof (zlen_nonneg l). cbn [puts6 mwrite]. unfold put6.
  rewrite (store_in b buf buflen) by (done || lia). cbn [mbind res_bind].
  replace (buflen <=? i + 1) with false by lia. cbn [mbind res_bind].
  rewrite IH by (try apply mapped_insert; done || lia).
  f_equal. f_equal; [f_equal; lia|]. replace (buf + (i + 1)) with (buf + i + 1) by lia. done.
Qed.

(** One round of the loop in terms of the list of blocks. *)
Definition move_text (k v flag : Z) (m : move) : res (list Z * Z * bool) :=
  match m with
  | M_last => Ok ([58], flag, true)
  | M_overread => Ub
  | M_open => Ok ([58], 1, false)
  | M_skip => Ok ([], flag, false)
  | M_number flag' => Ok ((if 0 <? k then [58] else []) ++ block_digits v, flag', false)
  end.

Lemma block_text_move a k flag v vs : ip6_ok a → 0 ≤ k < 8 → drop (Z.to_nat k) (blocks a) = v :: vs →
  block_text a k flag = move_text k v flag (move_at k flag v (head vs)).
Proof.
  intros Ha Hk Hd. unfold block_text. rewrite block_value_ok, next_block_value_ok by done.
  assert (blocks a !! Z.to_nat k = Some v) as ->.
  { rewrite <-(Nat.add_0_r (Z.to_nat k)), <-lookup_drop, Hd. done. }
  assert (blocks a !! Z.to_nat (k + 1) = head vs) as ->.
  { replace (Z.to_nat (k + 1)) with (Z.to_nat k + 1)%nat by lia. rewrite <-lookup_drop, Hd. by destruct vs. }
  cbn [deref mbind res_bind]. unfold move_at. destruct (v =? 0); [|done]. destruct (_ && _); [done|].
  destruct (flag =? 0).
  - destruct (head vs) as [nv|]; [|done]. cbn [deref mbind res_bind]. by destruct (nv =? 0).
  - by destruct (flag =? 1).
Qed.


Lemma ntoa6_loop_text a buf buflen : ip6_ok a → ∀ vs k flag i b,
  drop (Z.to_nat k) (blocks a) = vs → 0 ≤ k → k + zlen vs = 8 →
  mapped b buf buflen → 0 ≤ i → i + room k (zlen vs) < buflen →
  ntoa6_loop (length vs) a k flag buf buflen i b =
    match text_from k flag vs with
    | Some t => Ok (Some (i + zlen t), mwrite b (buf + i) t)
    | None => Ub
    end.
Proof.
  intros Ha. destruct (blocks_ok a Ha) as [_ Hall].
  induction vs as [|v vs IH]; intros k flag i b Hd Hk Hlen Hm Hi Hroom.
  { cbn [ntoa6_loop text_from length mwrite]. change (zlen (@nil Z)) with 0. by rewrite Z.add_0_r. }
  rewrite zlen_cons in Hlen, Hroom. pose proof (zlen_nonneg vs). rewrite room_step in Hroom by done.
  cbn [ntoa6_loop length]. rewrite (block_text_move a k flag v vs) by (done || lia).
  assert (Hb : Forall is_block (v :: vs)) by (rewrite <-Hd; by apply Forall_drop).
  apply Forall_cons in Hb as [Hv _]. pose proof (number_length k v Hv) as Hn.
  assert (Hd' : drop (Z.to_nat (k + 1)) (blocks a) = vs).
  { replace (Z.to_nat (k + 1)) with (Z.to_nat k + 1)%nat by lia. by rewrite <-drop_drop, Hd. }
  assert (Hc : c_bool (k =? 0) = c_bool (negb (0 <? k)) ∧ 0 ≤ c_bool (k =? 0) ≤ 1).
  { unfold c_bool. destruct (0 <? k) eqn:E; breflect; [replace (k =? 0) with false by lia|replace (k =? 0) with true by lia]; done. }
  destruct Hc as [Hc Hc']. rewrite <-Hc in Hn. rewrite (room_later (k + 1)) in Hroom by lia.
  (* storing [l] and then the rest of the text *)
  assert (Hgo : ∀ l flag', zlen l ≤ 5 - c_bool (k =? 0) →
    ('(o, b) ← puts6 buf buflen l i b;
     match o with None => Ok (None, b) | Some i => ntoa6_loop (length vs) a (k + 1) flag' buf buflen i b end) =
    match text_from (k + 1) flag' vs with
    | Some t => Ok (Some (i + zlen (l ++ t)), mwrite b (buf + i) (l ++ t)) | None => Ub end).
  { intros l flag' Hl. pose proof (zlen_nonneg l).
    rewrite puts6_ok by (done || lia). cbn [mbind res_bind].
    rewrite IH by (try apply mapped_mwrite; try rewrite room_later; done || lia).
    destruct (text_from (k + 1) flag' vs) as [t|]; [|done]. rewrite zlen_app, mwrite_app.
    f_equal. f_equal; [f_equal; lia|f_equal; lia]. }
  cbn [text_from]. destruct (move_at k flag v (head vs)) as [| | | |flag']; cbn [move_text mbind res_bind].
  - rewrite puts6_ok by (change (zlen [58]) with 1; done || lia). done.
  - done.
  - rewrite (Hgo [58] 1) by (change (zlen [58]) with 1; lia). by destruct (text_from (k + 1) 1 vs).
  - rewrite (Hgo [] flag) by (change (zlen (@nil Z)) with 0; lia). by destruct (text_from (k + 1) flag vs).
  - rewrite Hgo by done. destruct (text_from (k + 1) flag' vs); [|done]. by rewrite <-app_assoc.
Qed.

(** ** What ip6addr_ntoa_r prints *)

Definition is_mapped4 (a : ip6_addr) : bool := match ip6_addr_isipv4mappedipv6 a with Ok m => m | _ => false end.

Definition ip6_text (a : ip6_addr) : option (list Z) :=
  if is_mapped4 a then Some (IP4MAPPED_HEADER ++ dotted (nth 3 (addr a) 0)) else text_from 0 0 (blocks a).

Lemma is_mapped4_ok a : ip6_ok a → ip6_addr_isipv4mappedipv6 a = Ok (is_mapped4 a).
Proof.
  intros (w0 & w1 & w2 & w3 & Ha & _)%ip6_ok_words. unfold is_mapped4, ip6_addr_isipv4mappedipv6, addr_word.
  rewrite Ha. done.
Qed.

Lemma text_chars vs : ∀ k flag t, Forall is_block vs → text_from k flag vs = Some t →
  Forall (λ c, c = 58 ∨ hex_char c = true) t.
Proof.
  induction vs as [|v vs IH]; intros k flag t Hb Ht; cbn [text_from] in Ht; [by injection Ht as <-|].
  apply Forall_cons in Hb as [Hv Hb]. destruct (block_digits_ok v Hv) as (Hd & _).
  destruct (move_at k flag v (head vs)) as [| | | |flag'].
  - injection Ht as <-. repeat constructor.
  - done.
  - destruct (text_from (k + 1) 1 vs) as [t'|] eqn:E; [|done]. injection Ht as <-. constructor; [by left|]. by eapply IH.
  - by eapply IH.
  - destruct (text_from (k + 1) flag' vs) as [t'|] eqn:E; [|done]. injection Ht as <-.
    apply Forall_app_2; [destruct (0 <? k); repeat constructor|]. apply Forall_app_2; [|by eapply IH].
    eapply Forall_impl; [exact Hd|]. by right.
Qed.

Lemma text_char_byte c : c = 58 ∨ hex_char c = true → 0 < c < 256.
Proof. intros [->|[H _]%hex_char_byte]; lia. Qed.

Lemma cstr_prepend b l k : ∀ a, Forall (λ c, 0 < c < 256) l →
  (∀ (i : nat) c, l !! i = Some c → b !! (a + Z.of_nat i) = Some c) → cstr b (a + zlen l) k → cstr b a (l ++ k).
Proof.
  induction l as [|c l IH]; intros a Hl Hb Hk.
  { change (zlen (@nil Z)) with 0 in Hk. by rewrite Z.add_0_r in Hk. }
  apply Forall_cons in Hl as [Hc Hl]. cbn [app]. apply cstr_cons.
  split; [rewrite <-(Z.add_0_r a); by apply (Hb 0%nat)|]. split; [done|]. apply IH; [done| |].
  - intros i x Hx. specialize (Hb (S i) x Hx). by replace (a + 1 + Z.of_nat i) with (a + Z.of_nat (S i)) by lia.
  - rewrite zlen_cons in Hk. by replace (a + 1 + zlen l) with (a + (zlen l + 1)) by lia.
Qed.

Lemma ntoa_r_mapped a buf buflen b : ip6_ok a → is_mapped4 a = true → mapped b buf buflen → buf ≠ 0 → 40 ≤ buflen →
  ∃ b', ip6addr_ntoa_r a buf buflen b = Ok (buf, b') ∧ cstr b' buf (IP4MAPPED_HEADER ++ dotted (nth 3 (addr a) 0)) ∧
    ∀ i, i < buf ∨ buf + buflen ≤ i → b' !! i = b !! i.
Proof.
  intros Ha H4 Hm Hbuf Hlen. unfold ip6addr_ntoa_r. rewrite is_mapped4_ok, H4 by done. cbn [mbind res_bind].
  apply ip6_ok_words in Ha as (w0 & w1 & w2 & w3 & Ha & _ & _ & _ & H3).
  replace (buflen <? 8) with false by lia. unfold mstore. change (zlen (IP4MAPPED_HEADER ++ [0])) with 8.
  rewrite (proj2 (mapped_b_spec b buf 8 ltac:(done))) by (apply (mapped_mono b buf buflen); [lia|lia|done]).
  cbn [mbind res_bind]. destruct (addr_word_4 _ _ _ _ _ Ha) as (_ & _ & _ & Hw). change (0 + 1 + 1 + 1) with 3 in Hw.
  rewrite Hw. cbn [mbind res_bind]. rewrite Ha. cbn [nth].
  set (b1 := mwrite b buf (IP4MAPPED_HEADER ++ [0])).
  assert (Hm1 : mapped b1 (buf + 7) (buflen - 7)).
  { apply (mapped_mono b1 buf buflen); [lia|lia|]. by apply mapped_mwrite. }
  destruct (ip4addr_ntoa_r_ok w3 (buf + 7) (buflen - 7) b1 H3 Hm1) as (b' & -> & Hs & Ho).
  destruct (dotted_chars w3 H3) as [_ Hd]. specialize (Hs ltac:(lia)). cbn [mbind res_bind].
  replace (zlen (dotted w3) + 1 <=? buflen - 7) with true by lia. rewrite Z.eqb_refl. cbn [negb].
  exists b'. split; [done|]. split.
  - apply cstr_prepend; [repeat (constructor; [lia|]); constructor| |exact Hs].
    intros j c Hj. pose proof (lookup_lt_Some _ _ _ Hj) as Hlt. simpl in Hlt. rewrite Ho by lia. unfold b1.
    rewrite lookup_mwrite, bool_decide_eq_true_2 by (change (zlen (IP4MAPPED_HEADER ++ [0])) with 8; lia).
    replace (Z.to_nat (buf + Z.of_nat j - buf)) with j by lia. by rewrite lookup_app_l by (simpl; lia).
  - intros i Hi. rewrite Ho by lia. unfold b1. rewrite lookup_mwrite, bool_decide_eq_false_2; [done|].
    change (zlen (IP4MAPPED_HEADER ++ [0])) with 8. lia.
Qed.

(** A buffer of 40 bytes (IP6ADDR_STRLEN_MAX is 46) is always enough; where the
    text does not exist the code reads behind the address. *)
Lemma ip6addr_ntoa_r_text a buf buflen b : ip6_ok a → mapped b buf buflen → buf ≠ 0 → 40 ≤ buflen →
  match ip6_text a with
  | None => ip6addr_ntoa_r a buf buflen b = Ub
  | Some t => ∃ b', ip6addr_ntoa_r a buf buflen b = Ok (buf, b') ∧ cstr b' buf t ∧
                ∀ i, i < buf ∨ buf + buflen ≤ i → b' !! i = b !! i
  end.
Proof.
  intros Ha Hm Hbuf Hlen. unfold ip6_text. destruct (is_mapped4 a) eqn:E4; [by apply ntoa_r_mapped|].
  destruct (blocks_ok a Ha) as [H8 Hall]. unfold ip6addr_ntoa_r. rewrite is_mapped4_ok, E4 by done. cbn [mbind res_bind].
  rewrite <-H8.
  assert (Hz : zlen (blocks a) = 8) by (unfold zlen; by rewrite H8).
  rewrite (ntoa6_loop_text a buf buflen Ha (blocks a) 0 0 0 b) by (rewrite ?Hz; done || lia || (change (room 0 8) with 39; lia)).
  destruct (text_from 0 0 (blocks a)) as [t|] eqn:Et; [|done]. cbn [mbind res_bind].
  pose proof (text_length _ 0 0 t Hall ltac:(lia) Et) as Hl. rewrite Hz in Hl. change (room 0 8) with 39 in Hl.
  rewrite (store_in _ buf buflen) by (try apply mapped_mwrite; done || (pose proof (zlen_nonneg t); lia)).
  cbn [mbind res_bind]. eexists. split; [done|]. rewrite Z.add_0_r, Z.add_0_l.
  change (<[buf + zlen t := 0]> (mwrite b buf t)) with (mwrite (mwrite b buf t) (buf + zlen t) [0]). rewrite <-mwrite_app. split.
  - split; [eapply Forall_impl; [by eapply text_chars|apply text_char_byte]|].
    replace (length t + 1)%nat with (length (t ++ [0])) by (by rewrite length_app). apply mread_mwrite_same.
  - intros i Hi. rewrite lookup_mwrite, bool_decide_eq_false_2; [done|]. rewrite zlen_app. change (zlen [0]) with 1. lia.
Qed.

(** ** When the text does not exist *)

Definition adjacent_zeros (vs : list Z) : Prop := ∃ i, vs !! i = Some 0 ∧ vs !! S i = Some 0.

Lemma text_flagged vs : ∀ k flag, flag ≠ 0 → is_Some (text_from k flag vs).
Proof.
  induction vs as [|v vs IH]; intros k flag Hf; [by eexists|]. cbn [text_from]. unfold move_at.
  replace (flag =? 0) with false by lia.
  assert (Hnum : ∀ f, f ≠ 0 → is_Some (t ← text_from (k + 1) f vs; Some ((if 0 <? k then [58] else []) ++ block_digits v ++ t))).
  { intros f Hf'. destruct (IH (k + 1) f Hf') as [t ->]. by eexists. }
  destruct (v =? 0); [|apply Hnum; by destruct (flag =? 1)]. destruct (_ && _); [by eexists|].
  destruct (flag =? 1); [by apply IH|by apply Hnum].
Qed.

Lemma text_none vs : ∀ k, text_from k 0 vs = None ↔ last vs = Some 0 ∧ ¬ adjacent_zeros vs.
Proof.
  induction vs as [|v vs IH]; intros k; cbn [text_from]; [naive_solver|].
  assert (Hadj : adjacent_zeros (v :: vs) ↔ (v = 0 ∧ head vs = Some 0) ∨ adjacent_zeros vs).
  { split.
    - intros ([|i] & H1 & H2); [left; destruct vs; simplify_eq/=; done|right; by exists i].
    - intros [[-> H]|(i & H1 & H2)]; [exists 0%nat; by destruct vs|by exists (S i)]. }
  assert (Hnum : (t ← text_from (k + 1) 0 vs; Some ((if 0 <? k then [58] else []) ++ block_digits v ++ t)) = None ↔
    text_from (k + 1) 0 vs = None) by (by destruct (text_from (k + 1) 0 vs)).
  unfold move_at. change (0 =? 1) with false. rewrite andb_false_r. change (0 =? 0) with true. cbn [negb]. rewrite Hadj.
  destruct (v =? 0) eqn:Ev; breflect.
  - subst v. destruct vs as [|nv vs]; cbn [head].
    + split; [|done]. intros _. split; [done|]. intros [[_ [=]]|(i & [=] & _)].
    + destruct (nv =? 0) eqn:En; breflect.
      * destruct (text_flagged (nv :: vs) (k + 1) 1 ltac:(done)) as [t ->]. split; [done|].
        intros [_ H]. exfalso. apply H. left. simpl. by subst nv.
      * rewrite Hnum, IH. change (last (0 :: nv :: vs)) with (last (nv :: vs)). split; intros [H1 H2]; split; [done| |done|].
        -- intros [[_ [= ->]]|H]; done.
        -- intros H. apply H2. by right.
  - rewrite Hnum, IH. destruct vs as [|nv vs].
    + split; [by intros [[=] _]|]. intros [[= ->] _]. done.
    + change (last (v :: nv :: vs)) with (last (nv :: vs)). split; intros [H1 H2]; split; [done| |done|].
      * intros [[-> _]|H]; done.
      * intros H. apply H2. by right.
Qed.
