(* ===== verification/Ip6AddrRound.v ===== *)
(** * IPv6 addresses: parsing the printed text

    [rep] relates the words the parser has filled in to the list of blocks read so
    far.  Along it, parsing the text of Ip6AddrText gives the blocks back, the ones
    hidden in "::" included, so printing and parsing are inverse. *)

From S2P Require Import Prelude ByteMem Def IpAddr Ip4Addr Ip4AddrFacts Ip6Addr Ip6AddrFacts Ip6AddrText.

(** ** The words read so far *)

Definition host_blocks (a : list Z) : list Z := flat_map (λ w, [w / 65536; w mod 65536]) a.

(** The blocks [ds] are stored; the low half of a started word is still zero. *)
Definition rep (ai ci : Z) (a ds : list Z) : Prop :=
  ci = zlen ds ∧ ai = zlen ds / 2 ∧ words_ok a ∧ take (length ds) (host_blocks a) = ds ∧
  (zlen ds mod 2 = 1 → host_blocks a !! length ds = Some 0).

Lemma shl16 v : is_block v → u32 (Z.shiftl v 16) = v * 65536.
Proof. unfold is_block. intros Hv. rewrite Z.shiftl_mul_pow2 by lia. change (2 ^ 16) with 65536. ulia. Qed.

Lemma lor16 w v : is_u32 w → w mod 65536 = 0 → is_block v → Z.lor w v = w + v.
Proof.
  unfold is_block. intros Hw H0 Hv. replace w with (w / 65536 * 2 ^ 16) at 1 by (change (2 ^ 16) with 65536; zlia).
  rewrite (lor_add_disjoint _ _ 16) by (change (2 ^ 16) with 65536; zlia). change (2 ^ 16) with 65536. zlia.
Qed.

Lemma lor_halves w v : is_u32 w → w mod 65536 = 0 → is_block v →
  is_u32 (Z.lor w v) ∧ Z.lor w v / 65536 = w / 65536 ∧ Z.lor w v mod 65536 = v.
Proof. unfold is_block, is_u32. intros Hw H0 Hv. rewrite lor16 by done. zlia. Qed.

Lemma shl_halves v : is_block v →
  is_u32 (u32 (Z.shiftl v 16)) ∧ u32 (Z.shiftl v 16) / 65536 = v ∧ u32 (Z.shiftl v 16) mod 65536 = 0.
Proof. intros Hv. rewrite shl16 by done. unfold is_block, is_u32 in *. zlia. Qed.

(** The eight positions of the next block, with the words spelled out. *)
Ltac rep_cases ds :=
  intros (-> & -> & [Hlen Hw] & Htake & Hodd);
  match type of Hlen with length ?a = _ => destruct a as [|w0 [|w1 [|w2 [|w3 [|? ?]]]]]; try discriminate Hlen end;
  rewrite !Forall_cons in Hw; destruct Hw as (H0 & H1 & H2 & H3 & _);
  cbn [host_blocks flat_map app] in Htake, Hodd;
  destruct ds as [|d0 [|d1 [|d2 [|d3 [|d4 [|d5 [|d6 [|d7 ds]]]]]]]];
  cbn [length take lookup list_lookup zlen] in Htake, Hodd;
  try (injection Htake; intros; subst); clear Htake.

Ltac rep_word n w :=
  match goal with H : length [?a; ?b; ?c; ?d] = _ |- _ =>
    eexists _, (<[n := w]> [a; b; c; d]); split; [reflexivity|]; cbn [insert list_insert];
    unfold rep; split; [reflexivity|]; split; [reflexivity|];
    split; [split; [reflexivity|]; repeat (apply Forall_cons; split; [done|]); done|]
  end.

(** An even block starts a word, an odd one completes it. *)
Ltac rep_even n :=
  match goal with Hsd : u32 ?w / _ = _, Hsm : _ mod _ = 0 |- _ =>
    rep_word n (u32 w); split; [cbn; by rewrite Hsd|]; intros _; cbn; by rewrite Hsm end.
Ltac rep_odd n :=
  match goal with Hodd : _ → Some (?w mod 65536) = Some 0, Hv : is_block ?v |- _ =>
    specialize (Hodd eq_refl); injection Hodd as Hodd;
    destruct (lor_halves w v ltac:(done) Hodd Hv) as (Hl & Hld & Hlm);
    rep_word n (Z.lor w v); split; [cbn; by rewrite Hld, Hlm|]; intros [=] end.

Lemma rep_store ai ci a ds v z : rep ai ci a ds → zlen ds ≤ 7 → is_block v →
  ∃ ai' a', store_block (Parser ai z ci v (Some a)) = Ok (Parser ai' z ci v (Some a')) ∧
    rep ai' (ci + 1) a' (ds ++ [v]).
Proof.
  intros Hrep H7 Hv. revert Hrep. destruct (shl_halves v Hv) as (Hs & Hsd & Hsm). rep_cases ds.
  1-8: first
    [ rep_even 0%nat | rep_even 1%nat | rep_even 2%nat | rep_even 3%nat
    | rep_odd 0%nat | rep_odd 1%nat | rep_odd 2%nat | rep_odd 3%nat ].
  unfold zlen in H7. simpl in H7. lia.
Qed.

Lemma rep_zero ai ci a ds : rep ai ci a ds → zlen ds ≤ 7 →
  (ci mod 2 = 1 ∧ rep (ai + 1) (ci + 1) a (ds ++ [0])) ∨
  (ci mod 2 = 0 ∧ ∃ a', arr_set a ai 0 = Ok a' ∧ rep ai (ci + 1) a' (ds ++ [0])).
Proof.
  intros Hrep H7. pose proof Hrep as (Hci & _). destruct (rep_store ai ci a ds 0 0 Hrep H7) as (ai' & a' & Hst & Hrep').
  { done. }
  unfold store_block in Hst. cbn [p_addr current_block_index addr_index current_block_value p_zero_blocks] in Hst.
  rewrite odd_block in Hst. destruct (ci mod 2 =? 0) eqn:E; breflect; cbn [negb] in Hst.
  - right. split; [done|]. change (u32 (Z.shiftl 0 16)) with 0 in Hst. destruct (arr_set a ai 0) as [a1| | |]; try discriminate Hst.
    injection Hst as <- <-. by exists a1.
  - left. split; [zlia|]. destruct (arr_get a ai) as [w| | |] eqn:Eg; try discriminate Hst. cbn [mbind res_bind] in Hst.
    rewrite Z.lor_0_r in Hst. unfold arr_set in Hst. destruct (_ && _); [|discriminate Hst]. injection Hst as <- <-.
    rewrite list_insert_id in Hrep'; [done|]. unfold arr_get in Eg. destruct (0 <=? ai); [|done]. by apply deref_Ok.
Qed.

Lemma set_zeros_rep n : ∀ fuel ai ci a ds v, rep ai ci a ds → zlen ds + Z.of_nat n ≤ 7 → (n ≤ fuel)%nat →
  ∃ ai' a', set_zeros fuel (Parser ai (Z.of_nat n) ci v (Some a)) = Ok (true, Parser ai' 0 (ci + Z.of_nat n) v (Some a')) ∧
    rep ai' (ci + Z.of_nat n) a' (ds ++ replicate n 0).
Proof.
  induction n as [|n IH]; intros fuel ai ci a ds v Hrep H7 Hf.
  { exists ai, a. rewrite Z.add_0_r, app_nil_r. split; [by destruct fuel|done]. }
  replace (Z.of_nat (S n)) with (Z.of_nat n + 1) in * by lia.
  destruct fuel as [|fuel]; [lia|]. cbn [set_zeros p_zero_blocks current_block_index addr_index p_addr current_block_value].
  replace (0 <? Z.of_nat n + 1) with true by lia. rewrite odd_block. pose proof Hrep as (Hci & _).
  replace (Z.of_nat n + 1 - 1) with (Z.of_nat n) by lia. replace (ci + (Z.of_nat n + 1)) with (ci + 1 + Z.of_nat n) by lia.
  change (replicate (S n) 0) with ([0] ++ replicate n 0). rewrite app_assoc.
  assert (H7' : zlen (ds ++ [0]) + Z.of_nat n ≤ 7) by (rewrite zlen_app; change (zlen [0]) with 1; lia).
  destruct (rep_zero ai ci a ds Hrep ltac:(lia)) as [[Hm Hr]|[Hm (a1 & Ha1 & Hr)]]; rewrite Hm.
  - change (negb (1 =? 0)) with true. cbn [mbind res_bind p_zero_blocks current_block_index addr_index p_addr current_block_value].
    replace (7 <? ci + 1) with false by lia. apply IH; [done|done|lia].
  - change (negb (0 =? 0)) with false. rewrite Ha1.
    cbn [mbind res_bind p_zero_blocks current_block_index addr_index p_addr current_block_value].
    replace (7 <? ci + 1) with false by lia. apply IH; [done|done|lia].
Qed.

(** ** The steps of the second loop *)

Lemma parse_digits b chk ds : ∀ fuel s ai z ci v a t, Forall (λ c, hex_char c = true) ds → cstr b s (ds ++ t) →
  (length ds ≤ fuel)%nat →
  parse_blocks fuel b chk s (Parser ai z ci v a) =
    parse_blocks (fuel - length ds) b chk (s + zlen ds) (Parser ai z ci (foldl digit_step v ds) a).
Proof.
  induction ds as [|c ds IH]; intros fuel s ai z ci v a t Hd Hs Hf.
  { change (zlen (@nil Z)) with 0. rewrite Z.add_0_r. simpl. by rewrite Nat.sub_0_r. }
  apply Forall_cons in Hd as [Hc Hd]. apply hex_char_byte in Hc as (Hc & H58 & _ & Hx).
  cbn [app] in Hs. apply cstr_cons in Hs as (Hb & _ & Hs). destruct fuel as [|fuel]; [simpl in Hf; lia|].
  cbn [parse_blocks]. rewrite Hb. cbn [deref mbind res_bind]. replace (c =? 0) with false by lia.
  replace (c =? 58) with false by lia. rewrite Hx. cbn [addr_index p_zero_blocks current_block_index current_block_value p_addr].
  rewrite (IH fuel (s + 1) ai z ci _ a t) by (done || (simpl in Hf; lia)). rewrite zlen_cons.
  replace (s + 1 + zlen ds) with (s + (zlen ds + 1)) by lia. done.
Qed.

Lemma parse_single b s fuel ai z ci v a ds t : rep ai ci a ds → zlen ds < 7 → is_block v →
  cstr b s (58 :: t) → head t ≠ Some 58 →
  ∃ ai' a', parse_blocks (S fuel) b false s (Parser ai z ci v (Some a)) =
      parse_blocks fuel b false (s + 1) (Parser ai' z (ci + 1) 0 (Some a')) ∧ rep ai' (ci + 1) a' (ds ++ [v]).
Proof.
  intros Hrep H7 Hv Hs Hh. pose proof Hrep as (Hci & _).
  destruct (rep_store ai ci a ds v z Hrep ltac:(lia) Hv) as (ai' & a' & Hst & Hrep').
  exists ai', a'. split; [|done]. apply cstr_cons in Hs as (Hb & _ & Hs). cbn [parse_blocks]. rewrite Hb.
  cbn [deref mbind res_bind]. change (58 =? 0) with false. change (58 =? 58) with true. cbv iota.
  unfold parse_colon. rewrite Hst. cbn [mbind res_bind andb addr_index p_zero_blocks current_block_index current_block_value p_addr].
  replace (7 <? ci + 1) with false by lia. rewrite (cstr_head _ _ _ Hs). cbn [deref mbind res_bind].
  replace (default 0 (head t) =? 58) with false; [done|]. symmetry. apply Z.eqb_neq. destruct t; [done|]. naive_solver.
Qed.

Lemma parse_double b chk s fuel ai n ci v a ds t : rep ai ci a ds → zlen ds + 1 + Z.of_nat n ≤ 7 → is_block v →
  cstr b s (58 :: 58 :: t) → head t ≠ Some 58 →
  chk && (ci + 1 =? 6) = false →
  ∃ ai' a', parse_blocks (S fuel) b chk s (Parser ai (Z.of_nat n) ci v (Some a)) =
      parse_blocks fuel b chk (s + 2) (Parser ai' 0 (ci + 1 + Z.of_nat n) 0 (Some a')) ∧
    rep ai' (ci + 1 + Z.of_nat n) a' (ds ++ [v] ++ replicate n 0).
Proof.
  intros Hrep H7 Hv Hs Hh Hchk. pose proof Hrep as (Hci & _).
  destruct (rep_store ai ci a ds v (Z.of_nat n) Hrep ltac:(lia) Hv) as (ai1 & a1 & Hst & Hrep1).
  destruct (set_zeros_rep n 8 ai1 (ci + 1) a1 (ds ++ [v]) 0 Hrep1) as (ai' & a' & Hz & Hrep'); [|pose proof (zlen_nonneg ds); lia|].
  { rewrite zlen_app. change (zlen [v]) with 1. lia. }
  exists ai', a'. rewrite app_assoc. split; [|done]. apply cstr_cons in Hs as (Hb & _ & Hs).
  apply cstr_cons in Hs as (Hb' & _ & Hs). cbn [parse_blocks]. rewrite Hb.
  cbn [deref mbind res_bind]. change (58 =? 0) with false. change (58 =? 58) with true. cbv iota.
  unfold parse_colon. rewrite Hst. cbn [mbind res_bind addr_index p_zero_blocks current_block_index current_block_value p_addr].
  rewrite Hchk. cbn [mbind res_bind].
  replace (7 <? ci + 1) with false by lia. rewrite Hb'. cbn [deref mbind res_bind]. change (58 =? 58) with true. cbv iota.
  replace (s + 1 + 1) with (s + 2) in Hs by lia. rewrite (cstr_head _ _ _ Hs). cbn [deref mbind res_bind].
  replace (default 0 (head t) =? 58) with false; [by rewrite Hz|]. symmetry. apply Z.eqb_neq. destruct t; [done|]. naive_solver.
Qed.

(** ** The shape of the text *)

Definition tail_text (ws : list Z) : list Z := flat_map (λ w, 58 :: block_digits w) ws.

Fixpoint colons (l : list Z) : Z :=
  match l with [] => 0 | c :: l => (if c =? 58 then 1 else 0) + colons l end.

Lemma colons_app l k : colons (l ++ k) = colons l + colons k.
Proof. induction l as [|c l IH]; [done|]. cbn [app colons]. lia. Qed.

Lemma colons_hex l : Forall (λ c, hex_char c = true) l → colons l = 0.
Proof.
  induction 1 as [|c l Hc _ IH]; [done|]. cbn [colons]. apply hex_char_byte in Hc. replace (c =? 58) with false by lia. lia.
Qed.

Lemma colons_tail ws : Forall is_block ws → colons (tail_text ws) = zlen ws.
Proof.
  induction 1 as [|w ws Hw _ IH]; [done|]. destruct (block_digits_ok w Hw) as (Hd & _).
  change (tail_text (w :: ws)) with (58 :: block_digits w ++ tail_text ws). cbn [colons].
  rewrite colons_app, (colons_hex _ Hd), IH, zlen_cons. change (58 =? 58) with true. cbv iota. lia.
Qed.

Lemma digits_head v t : is_block v → head (block_digits v ++ t) ≠ Some 58.
Proof.
  intros Hv. destruct (block_digits_ok v Hv) as (Hd & Hl & _). destruct (block_digits v) as [|c l]; [by exfalso; unfold zlen in Hl; simpl in Hl; lia|].
  apply Forall_cons in Hd as [Hc%hex_char_byte _]. cbn [app head]. intros [= ->]. lia.
Qed.

Lemma text_flag2 vs : ∀ k, 0 < k → text_from k 2 vs = Some (tail_text vs).
Proof.
  induction vs as [|v vs IH]; intros k Hk; [done|]. cbn [text_from]. unfold move_at.
  change (2 =? 1) with false. change (2 =? 0) with false. rewrite andb_false_r.
  replace (0 <? k) with true by lia. destruct (v =? 0); by rewrite IH by lia.
Qed.

Lemma text_flag1 vs : ∀ k t, 0 < k → k + zlen vs = 8 → vs ≠ [] → text_from k 1 vs = Some t →
  (t = [58] ∧ vs = replicate (length vs) 0) ∨
  (∃ n w ws, vs = replicate n 0 ++ w :: ws ∧ t = tail_text (w :: ws)).
Proof.
  induction vs as [|v vs IH]; intros k t Hk Hlen Hne Ht; [done|]. cbn [text_from] in Ht. unfold move_at in Ht.
  change (1 =? 1) with true in Ht. change (1 =? 0) with false in Ht. rewrite andb_true_r in Ht. rewrite zlen_cons in Hlen.
  destruct (v =? 0) eqn:Ev; breflect.
  - subst v. destruct (k =? 7) eqn:E7; breflect.
    + left. assert (vs = []) as -> by (destruct vs; [done|]; rewrite zlen_cons in Hlen; pose proof (zlen_nonneg vs); lia).
      by injection Ht as <-.
    + destruct (IH (k + 1) t) as [[-> Hvs]|(n & w & ws & -> & ->)]; [lia|lia| |done| |].
      * intros ->. change (zlen (@nil Z)) with 0 in Hlen. lia.
      * left. split; [done|]. cbn [length replicate]. by rewrite <-Hvs.
      * right. by exists (S n), w, ws.
  - rewrite text_flag2 in Ht by lia. injection Ht as <-. right. exists 0%nat, v, vs. split; [done|].
    replace (0 <? k) with true by lia. done.
Qed.

(** ** Parsing it *)

(** The second loop reaches the end of the text having read the blocks [all]. *)
Definition reads (p : res parsed) (all : list Z) : Prop :=
  ∃ ai z ci v a ds, p = Ok (P_end (Parser ai z ci v (Some a))) ∧ rep ai ci a ds ∧ is_block v ∧ all = ds ++ [v].

Lemma parse_end fuel b s ai z ci v a ds : (0 < fuel)%nat → cstr b s [] → rep ai ci a ds → is_block v →
  reads (parse_blocks fuel b false s (Parser ai z ci v (Some a))) (ds ++ [v]).
Proof.
  intros Hf Hs Hrep Hv. exists ai, z, ci, v, a, ds. split; [|done]. destruct fuel as [|fuel]; [lia|]. cbn [parse_blocks].
  rewrite (cstr_head _ _ _ Hs). done.
Qed.

Lemma cstr_skip b s l t : cstr b s (l ++ t) → cstr b (s + zlen l) t.
Proof.
  revert s. induction l as [|c l IH]; intros s Hs; [by change (zlen (@nil Z)) with 0; rewrite Z.add_0_r|].
  cbn [app] in Hs. apply cstr_cons in Hs as (_ & _ & Hs). rewrite zlen_cons.
  replace (s + (zlen l + 1)) with (s + 1 + zlen l) by lia. by apply IH.
Qed.

(** The digits of one block, from value 0. *)
Lemma parse_block b chk s fuel ai z ci a w t : is_block w → cstr b s (block_digits w ++ t) →
  (length (block_digits w ++ t) < fuel)%nat →
  ∃ fuel', (length t < fuel')%nat ∧ cstr b (s + zlen (block_digits w)) t ∧
    parse_blocks fuel b chk s (Parser ai z ci 0 a) =
    parse_blocks fuel' b chk (s + zlen (block_digits w)) (Parser ai z ci w a).
Proof.
  intros Hw Hs Hf. destruct (block_digits_ok w Hw) as (Hd & _ & Hv). rewrite length_app in Hf.
  exists (fuel - length (block_digits w))%nat. split; [lia|]. split; [by apply cstr_skip|].
  rewrite (parse_digits b chk (block_digits w) fuel s ai z ci 0 a t) by (done || lia). by rewrite Hv.
Qed.

Lemma parse_tail b ws : ∀ fuel s ai z ci v a ds, Forall is_block ws → rep ai ci a ds → is_block v →
  zlen ds + zlen ws ≤ 7 → cstr b s (tail_text ws) → (length (tail_text ws) < fuel)%nat →
  reads (parse_blocks fuel b false s (Parser ai z ci v (Some a))) (ds ++ v :: ws).
Proof.
  induction ws as [|w ws IH]; intros fuel s ai z ci v a ds Hws Hrep Hv H7 Hs Hf.
  { apply parse_end; [lia|done..]. }
  apply Forall_cons in Hws as [Hw Hws]. rewrite zlen_cons in H7. pose proof (zlen_nonneg ws).
  change (tail_text (w :: ws)) with (58 :: block_digits w ++ tail_text ws) in *.
  destruct fuel as [|fuel]; [simpl in Hf; lia|]. cbn [length] in Hf.
  destruct (parse_single b s fuel ai z ci v a ds (block_digits w ++ tail_text ws) Hrep) as (ai' & a' & -> & Hrep');
    [lia|done|done|by apply digits_head|].
  apply cstr_cons in Hs as (_ & _ & Hs).
  destruct (parse_block b false (s + 1) fuel ai' z (ci + 1) (Some a') w (tail_text ws) Hw Hs ltac:(lia)) as (fuel' & Hf' & Hs' & ->).
  replace (ds ++ v :: w :: ws) with ((ds ++ [v]) ++ w :: ws) by (by rewrite <-app_assoc).
  apply IH; [done|done|done| |done|done]. rewrite zlen_app. change (zlen [v]) with 1. lia.
Qed.

(** "::" at the end of the text, and in front of more blocks. *)
Lemma parse_open_last b n fuel s ai ci v a ds : rep ai ci a ds → is_block v → zlen ds + 1 + Z.of_nat n ≤ 7 →
  cstr b s [58; 58] → (2 < fuel)%nat →
  reads (parse_blocks fuel b false s (Parser ai (Z.of_nat n) ci v (Some a))) (ds ++ v :: replicate n 0 ++ [0]).
Proof.
  intros Hrep Hv H7 Hs Hf. destruct fuel as [|fuel]; [lia|].
  destruct (parse_double b false s fuel ai n ci v a ds [] Hrep H7 Hv Hs) as (ai' & a' & -> & Hrep'); [done|done|].
  replace (ds ++ v :: replicate n 0 ++ [0]) with ((ds ++ [v] ++ replicate n 0) ++ [0]) by (by rewrite <-!app_assoc).
  apply parse_end; [lia| |done|done]. apply (cstr_skip b s [58; 58] []). done.
Qed.

Lemma parse_open_tail b n w ws fuel s ai ci v a ds : rep ai ci a ds → is_block v → Forall is_block (w :: ws) →
  zlen ds + 1 + Z.of_nat n + zlen ws ≤ 7 → cstr b s (58 :: tail_text (w :: ws)) →
  (S (length (tail_text (w :: ws))) < fuel)%nat →
  reads (parse_blocks fuel b false s (Parser ai (Z.of_nat n) ci v (Some a))) (ds ++ v :: replicate n 0 ++ w :: ws).
Proof.
  intros Hrep Hv Hb H7 Hs Hf. apply Forall_cons in Hb as [Hw Hws]. pose proof (zlen_nonneg ws).
  change (tail_text (w :: ws)) with (58 :: block_digits w ++ tail_text ws) in *.
  destruct fuel as [|fuel]; [lia|]. cbn [length] in Hf.
  destruct (parse_double b false s fuel ai n ci v a ds (block_digits w ++ tail_text ws) Hrep ltac:(lia) Hv Hs)
    as (ai' & a' & -> & Hrep'); [by apply digits_head|done|].
  apply (cstr_skip b s [58; 58]) in Hs. change (zlen [58; 58]) with 2 in Hs.
  destruct (parse_block b false (s + 2) fuel ai' 0 (ci + 1 + Z.of_nat n) (Some a') w (tail_text ws) Hw Hs ltac:(lia))
    as (fuel' & Hf' & Hs' & ->).
  replace (ds ++ v :: replicate n 0 ++ w :: ws) with ((ds ++ [v] ++ replicate n 0) ++ w :: ws) by (by rewrite <-!app_assoc).
  apply parse_tail; [done|done|done| |done|done]. rewrite !zlen_app. change (zlen [v]) with 1.
  replace (zlen (replicate n 0)) with (Z.of_nat n) by (unfold zlen; by rewrite length_replicate). lia.
Qed.

(** A zero block that opens "::" behind the block [v], with [m] zero blocks
    before [vs]. *)
Lemma parse_open b vs k t (fuel m : nat) s ai z ci v a ds : text_from (k + 1) 1 vs = Some t → 0 ≤ k → k + zlen vs = 7 →
  vs ≠ [] → Forall is_block vs → rep ai ci a ds → is_block v →
  z = zlen vs + 1 + Z.of_nat m - colons (58 :: t) → zlen ds + Z.of_nat m = k →
  cstr b s (58 :: t) → (S (length t) < fuel)%nat →
  reads (parse_blocks fuel b false s (Parser ai z ci v (Some a))) (ds ++ v :: replicate m 0 ++ vs).
Proof.
  intros Ht Hk Hlen Hne Hb Hrep Hv Hz Hds Hs Hf.
  destruct (text_flag1 vs (k + 1) t ltac:(lia) ltac:(lia) Hne Ht) as [[-> Hvs]|(n & w & ws & -> & ->)].
  - destruct (length vs) as [|n] eqn:En; [by destruct vs|]. rewrite Hvs in *.
    assert (Hn : zlen (replicate (S n) 0) = Z.of_nat n + 1) by (unfold zlen; rewrite length_replicate; lia).
    rewrite Hn in *. change (colons [58; 58]) with 2 in Hz. replace z with (Z.of_nat (m + n)) by lia.
    replace (replicate m 0 ++ replicate (S n) 0) with (replicate (m + n) 0 ++ [0]).
    + apply parse_open_last; [done|done|lia|done|simpl in Hf; lia].
    + rewrite replicate_add, <-app_assoc. f_equal. by rewrite <-replicate_cons_app.
  - assert (Hn : zlen (replicate n 0 ++ w :: ws) = Z.of_nat n + zlen ws + 1).
    { rewrite zlen_app, zlen_cons. unfold zlen at 1. rewrite length_replicate. lia. }
    rewrite Hn in *. apply Forall_app in Hb as [_ Hb].
    cbn [colons] in Hz. rewrite colons_tail, zlen_cons in Hz by done. change (58 =? 58) with true in Hz. cbv iota in Hz.
    replace z with (Z.of_nat (m + n)) by lia. rewrite app_assoc, <-replicate_add.
    apply parse_open_tail; [done|done|done|lia|done|simpl in Hf; simpl; lia].
Qed.

(** The text from block [k] on, when block [k - 1] is the current value. *)
Lemma parse_text b vs : ∀ k t fuel s ai z ci v a ds, text_from k 0 vs = Some t → 0 < k → k + zlen vs = 8 →
  Forall is_block vs → rep ai ci a ds → is_block v → zlen ds = k - 1 → z = 9 - k - colons t →
  cstr b s t → (length t < fuel)%nat →
  reads (parse_blocks fuel b false s (Parser ai z ci v (Some a))) (ds ++ v :: vs).
Proof.
  induction vs as [|w vs IH]; intros k t fuel s ai z ci v a ds Ht Hk Hlen Hb Hrep Hv Hds Hz Hs Hf.
  { injection Ht as <-. apply parse_end; [lia|done..]. }
  pose proof Hb as [Hw Hvs]%Forall_cons. rewrite zlen_cons in Hlen. pose proof (zlen_nonneg vs).
  assert (Hnum : ∀ t', text_from (k + 1) 0 vs = Some t' → t = 58 :: block_digits w ++ t' →
    reads (parse_blocks fuel b false s (Parser ai z ci v (Some a))) (ds ++ v :: w :: vs)).
  { intros t' Ht' ->. destruct fuel as [|fuel]; [simpl in Hf; lia|].
    destruct (parse_single b s fuel ai z ci v a ds (block_digits w ++ t') Hrep) as (ai' & a' & -> & Hrep');
      [lia|done|done|by apply digits_head|].
    apply cstr_cons in Hs as (_ & _ & Hs). cbn [length] in Hf.
    destruct (parse_block b false (s + 1) fuel ai' z (ci + 1) (Some a') w t' Hw Hs ltac:(lia)) as (fuel' & Hf' & Hs' & ->).
    replace (ds ++ v :: w :: vs) with ((ds ++ [v]) ++ w :: vs) by (by rewrite <-app_assoc).
    apply (IH (k + 1) t'); [done|lia|lia|done|done|done| | |done|done].
    - rewrite zlen_app. change (zlen [v]) with 1. lia.
    - rewrite Hz. cbn [colons]. rewrite colons_app, (colons_hex (block_digits w)) by apply (block_digits_ok w Hw).
      change (58 =? 58) with true. cbv iota. lia. }
  cbn [text_from] in Ht. unfold move_at in Ht. change (0 =? 1) with false in Ht. change (0 =? 0) with true in Ht.
  rewrite andb_false_r in Ht. replace (0 <? k) with true in Ht by lia.
  destruct (w =? 0) eqn:Ew; breflect.
  - destruct vs as [|nv vs]; [done|]. cbn [head] in Ht. destruct (nv =? 0).
    + subst w. destruct (text_from (k + 1) 1 (nv :: vs)) as [t'|] eqn:Et; [|discriminate Ht]. injection Ht as <-.
      apply (parse_open b (nv :: vs) k t' fuel 1 s ai z ci v a ds); try done; lia.
    + destruct (text_from (k + 1) 0 (nv :: vs)) as [t'|]; [|discriminate Ht]. injection Ht as <-. by eapply Hnum.
  - destruct (text_from (k + 1) 0 vs) as [t'|]; [|discriminate Ht]. injection Ht as <-. by eapply Hnum.
Qed.

Lemma rep_start a : words_ok a → rep 0 0 a [].
Proof. intros Ha. by split_and!. Qed.

(** The whole text. *)
Lemma parse_all b vs t fuel s a : text_from 0 0 vs = Some t → zlen vs = 8 → Forall is_block vs → words_ok a →
  cstr b s t → (length t < fuel)%nat →
  reads (parse_blocks fuel b false s (Parser 0 (8 - colons t) 0 0 (Some a))) vs.
Proof.
  intros Ht Hlen Hb Ha Hs Hf. destruct vs as [|w vs]; [done|]. pose proof Hb as [Hw Hvs]%Forall_cons. rewrite zlen_cons in Hlen.
  pose proof (rep_start a Ha) as Hrep.
  assert (Hnum : ∀ t', text_from (0 + 1) 0 vs = Some t' → t = block_digits w ++ t' →
    reads (parse_blocks fuel b false s (Parser 0 (8 - colons t) 0 0 (Some a))) (w :: vs)).
  { intros t' Ht' ->.
    destruct (parse_block b false s fuel 0 (8 - colons (block_digits w ++ t')) 0 (Some a) w t' Hw Hs Hf) as (fuel' & Hf' & Hs' & ->).
    apply (parse_text b vs (0 + 1) t' fuel' _ 0 _ 0 w a []); [done|lia|lia|done|done|done|done| |done|done].
    rewrite colons_app, (colons_hex (block_digits w)) by apply (block_digits_ok w Hw). lia. }
  cbn [text_from] in Ht. unfold move_at in Ht. change (0 =? 1) with false in Ht. change (0 =? 0) with true in Ht.
  rewrite andb_false_r in Ht. change (0 <? 0) with false in Ht. cbn [app] in Ht.
  destruct (w =? 0) eqn:Ew; breflect.
  - destruct vs as [|nv vs]; [done|]. cbn [head] in Ht. destruct (nv =? 0).
    + subst w. destruct (text_from (0 + 1) 1 (nv :: vs)) as [t'|] eqn:Et; [|discriminate Ht]. injection Ht as <-.
      apply (parse_open b (nv :: vs) 0 t' fuel 0 s 0 _ 0 0 a []); try done; lia.
    + destruct (text_from (0 + 1) 0 (nv :: vs)) as [t'|]; [|discriminate Ht]. injection Ht as <-. by eapply Hnum.
  - destruct (text_from (0 + 1) 0 vs) as [t'|]; [|discriminate Ht]. injection Ht as <-. by eapply Hnum.
Qed.

(** ** The first loop and the end *)

Lemma colons_nonneg l : 0 ≤ colons l.
Proof. induction l as [|c l IH]; [done|]. cbn [colons]. destruct (c =? 58); lia. Qed.

Lemma count_skip b l : ∀ fuel s z t, Forall (λ c, c = 58 ∨ hex_char c = true) l → cstr b s (l ++ t) →
  (length l ≤ fuel)%nat → colons l ≤ z < 4294967296 →
  count_blocks fuel b s z = count_blocks (fuel - length l) b (s + zlen l) (z - colons l).
Proof.
  induction l as [|c l IH]; intros fuel s z t Hl Hs Hf Hz.
  { change (zlen (@nil Z)) with 0. cbn [colons length]. by rewrite Z.add_0_r, Z.sub_0_r, Nat.sub_0_r. }
  apply Forall_cons in Hl as [Hc Hl]. pose proof (text_char_byte c Hc). cbn [app] in Hs. apply cstr_cons in Hs as (Hb & _ & Hs).
  destruct fuel as [|fuel]; [simpl in Hf; lia|]. cbn [count_blocks colons length]. rewrite Hb. cbn [deref mbind res_bind].
  replace (c =? 0) with false by lia. cbn [colons] in Hz. rewrite zlen_cons. pose proof (colons_nonneg l).
  destruct Hc as [->|Hc].
  - change (58 =? 58) with true in *. cbv iota in *. rewrite u32_id by ulia.
    rewrite (IH fuel (s + 1) _ t) by (done || (simpl in Hf; lia)).
    replace (s + 1 + zlen l) with (s + (zlen l + 1)) by lia. replace (z - 1 - colons l) with (z - (1 + colons l)) by lia. done.
  - apply hex_char_byte in Hc as (_ & H58 & H46 & Hx). replace (c =? 58) with false in * by lia.
    replace (c =? 46) with false by lia. rewrite Hx. cbn [negb].
    rewrite (IH fuel (s + 1) _ t) by (done || (simpl in Hf; lia)).
    replace (s + 1 + zlen l) with (s + (zlen l + 1)) by lia. done.
Qed.

Lemma host_blocks_inj a a' : length a = length a' → host_blocks a = host_blocks a' → a = a'.
Proof.
  revert a'. induction a as [|w a IH]; intros [|w' a'] Hl H; try discriminate Hl; [done|].
  cbn [host_blocks flat_map app] in H. injection H as H1 H2 H3. injection Hl as Hl. f_equal; [zlia|by apply IH].
Qed.

Lemma blocks_host a : blocks a = host_blocks (map lwip_htonl (addr a)).
Proof. unfold blocks, host_blocks. induction (addr a) as [|w l IH]; [done|]. cbn [flat_map map]. by rewrite IH. Qed.

Lemma map_htonl_htonl l : Forall is_u32 l → map lwip_htonl (map lwip_htonl l) = l.
Proof. induction 1 as [|w l Hw _ IH]; [done|]. cbn [map]. by rewrite htonl_htonl, IH. Qed.

Lemma fix_byte_order_map ai z v a : words_ok a →
  fix_byte_order (Parser ai z 7 v (Some a)) = Ok (1, Some (map lwip_htonl a)).
Proof. intros [Hl _]. destruct a as [|w0 [|w1 [|w2 [|w3 [|? ?]]]]]; try discriminate Hl. done. Qed.

(** All eight blocks read: storing the last one and fixing the byte order gives
    the words of the address. *)
Lemma finish_reads p a : ip6_ok a → reads p (blocks a) →
  ∃ st st', p = Ok (P_end st) ∧ store_block st = Ok st' ∧ fix_byte_order st' = Ok (1, Some (addr a)).
Proof.
  intros Ha (ai & z & ci & v & w & ds & -> & Hrep & Hv & Hall). destruct (blocks_ok a Ha) as [H8 _].
  assert (Hds : length ds = 7%nat) by (rewrite Hall, length_app in H8; simpl in H8; lia).
  assert (Hz : zlen ds = 7) by (unfold zlen; rewrite Hds; done).
  destruct (rep_store ai ci w ds v z Hrep ltac:(lia) Hv) as (ai' & w' & Hst & (_ & _ & Hw' & Htake & _)).
  destruct Hrep as (Hci & _). eexists _, _. split; [done|]. split; [exact Hst|]. rewrite Hci, Hz.
  rewrite fix_byte_order_map by done. rewrite <-Hall, H8 in Htake.
  assert (Hfull : host_blocks w' = blocks a).
  { rewrite <-Htake. rewrite take_ge; [done|]. destruct Hw' as [Hl _].
    destruct w' as [|? [|? [|? [|? [|? ?]]]]]; try discriminate Hl. done. }
  rewrite blocks_host in Hfull. apply host_blocks_inj in Hfull as ->.
  - rewrite map_htonl_htonl; [done|]. apply Ha.
  - rewrite length_map. destruct Hw' as [-> _]. by destruct Ha.
Qed.

Lemma text_colons vs : ∀ k flag t, Forall is_block vs → text_from k flag vs = Some t → colons t ≤ zlen vs.
Proof.
  induction vs as [|v vs IH]; intros k flag t Hb Ht; cbn [text_from] in Ht; [by injection Ht as <-|].
  apply Forall_cons in Hb as [Hv Hb]. rewrite zlen_cons. pose proof (zlen_nonneg vs).
  destruct (move_at k flag v (head vs)) as [| | | |flag'].
  - injection Ht as <-. cbn. lia.
  - done.
  - destruct (text_from (k + 1) 1 vs) as [t'|] eqn:E; [|done]. injection Ht as <-. apply IH in E; [|done].
    cbn [colons]. change (58 =? 58) with true. cbv iota. lia.
  - apply IH in Ht; [|done]. lia.
  - destruct (text_from (k + 1) flag' vs) as [t'|] eqn:E; [|done]. injection Ht as <-. apply IH in E; [|done].
    rewrite !colons_app, (colons_hex (block_digits v)) by apply (block_digits_ok v Hv).
    destruct (0 <? k); cbn [colons]; [change (58 =? 58) with true; cbv iota|]; lia.
Qed.

Lemma aton_plain b cp t a d : ip6_ok a → ip6_ok d → text_from 0 0 (blocks a) = Some t → cstr b cp t →
  ip6addr_aton b cp (Some d) = Ok (1, Some (Ip6Addr (addr a) 0)).
Proof.
  intros Ha Hd Ht Hs. destruct (blocks_ok a Ha) as [H8 Hb]. pose proof (cstr_fuel _ _ _ Hs) as Hf.
  assert (Hlen : zlen (blocks a) = 8) by (unfold zlen; by rewrite H8).
  pose proof (text_colons _ _ _ _ Hb Ht) as Hc. rewrite Hlen in Hc.
  unfold ip6addr_aton. rewrite <-(app_nil_r t) in Hs.
  rewrite (count_skip b t (walk_fuel b) cp 8 [] ltac:(by eapply text_chars) Hs) by lia.
  apply cstr_skip in Hs as Hend. destruct (walk_fuel b - length t)%nat as [|fuel] eqn:Ef; [lia|]. cbn [count_blocks].
  rewrite (cstr_head _ _ _ Hend). cbn [head default from_option deref mbind res_bind]. change (0 =? 0) with true. cbv iota.
  rewrite app_nil_r in Hs. cbn [mbind res_bind].
  destruct (finish_reads _ a Ha (parse_all b (blocks a) t (walk_fuel b) cp (addr d) Ht Hlen Hb Hd Hs Hf))
    as (st & st' & -> & Hst & Hfix).
  cbn [mbind res_bind]. rewrite Hst. cbn [mbind res_bind]. rewrite Hfix. done.
Qed.

(** ** IPv4-mapped addresses *)

Lemma dec_hex n : is_u8 n → Forall (λ c, hex_char c = true) (dec_byte n).
Proof.
  intros Hn. destruct (dec_byte_digits n Hn) as [Hd _]. eapply Forall_impl; [exact Hd|]. intros c Hc. simpl in Hc.
  unfold hex_char, lwip_isxdigit, lwip_islower, lwip_isdigit, lwip_in_range. lia.
Qed.

(** The first octet and the dot behind it. *)
Lemma dotted_split a : is_u32 a → ∃ l, dotted a = dec_byte (a mod 256) ++ 46 :: l.
Proof. intros _. unfold dotted. eexists. reflexivity. Qed.

Lemma count_mapped b cp a4 : is_u32 a4 → cstr b cp (IP4MAPPED_HEADER ++ dotted a4) →
  count_blocks (walk_fuel b) b cp 8 = Ok (Some (4, true)).
Proof.
  intros H4 Hs. pose proof (cstr_fuel _ _ _ Hs) as Hf. destruct (dotted_split a4 H4) as [l Hl]. rewrite Hl in Hs, Hf.
  assert (Hd : Forall (λ c, hex_char c = true) (dec_byte (a4 mod 256))) by (apply dec_hex; unfold is_u8; zlia).
  rewrite app_assoc in Hs, Hf. rewrite length_app in Hf. cbn [length] in Hf.
  assert (Hcol : colons (IP4MAPPED_HEADER ++ dec_byte (a4 mod 256)) = 3) by (by rewrite colons_app, (colons_hex _ Hd)).
  assert (Hall : Forall (λ c, c = 58 ∨ hex_char c = true) (IP4MAPPED_HEADER ++ dec_byte (a4 mod 256))).
  { apply Forall_app_2; [|eapply Forall_impl; [exact Hd|by right]].
    repeat (apply Forall_cons; split; [first [by left|by right]|]). done. }
  rewrite (count_skip b _ (walk_fuel b) cp 8 (46 :: l) Hall Hs) by (rewrite ?Hcol; lia).
  rewrite Hcol. apply cstr_skip in Hs. destruct (_ - _)%nat as [|fuel] eqn:Ef; [lia|]. cbn [count_blocks].
  rewrite (cstr_head _ _ _ Hs). done.
Qed.

Lemma aton_mapped b cp a d : ip6_ok a → ip6_ok d → is_mapped4 a = true →
  cstr b cp (IP4MAPPED_HEADER ++ dotted (nth 3 (addr a) 0)) →
  ip6addr_aton b cp (Some d) = Ok (1, Some (Ip6Addr (addr a) 0)).
Proof.
  intros Ha Hd Hmap Hs. apply ip6_ok_words in Ha as (w0 & w1 & w2 & w3 & Ha & _ & _ & _ & H3).
  rewrite Ha in Hs. cbn [nth] in Hs. unfold ip6addr_aton. rewrite (count_mapped b cp w3) by done. cbn [mbind res_bind].
  pose proof (cstr_fuel _ _ _ Hs) as Hf. destruct (walk_fuel b) as [|fuel]; [lia|].
  unfold IP4MAPPED_HEADER in Hs, Hf. cbn [app length] in Hs, Hf.
  destruct (parse_double b true cp fuel 0 4 0 0 (addr d) [] ([70; 70; 70; 70; 58] ++ dotted w3) (rep_start _ Hd))
    as (ai1 & a1 & Hp & Hrep1); [done|done|exact Hs|done|done|].
  change (Z.of_nat 4) with 4 in *. rewrite Hp. clear Hp. cbn [app replicate] in Hrep1.
  apply (cstr_skip b cp [58; 58]) in Hs. change (zlen [58; 58]) with 2 in Hs.
  rewrite (parse_digits b true [70; 70; 70; 70] fuel (cp + 2) ai1 0 (0 + 1 + 4) 0 (Some a1) (58 :: dotted w3)) by
    (first [done | simpl; lia | repeat constructor]).
  apply (cstr_skip b (cp + 2) [70; 70; 70; 70]) in Hs. change (foldl digit_step 0 [70; 70; 70; 70]) with 65535.
  change (zlen [70; 70; 70; 70]) with 4 in *. change (0 + 1 + 4) with 5 in *.
  change (length [70; 70; 70; 70]) with 4%nat. destruct (fuel - 4)%nat as [|fuel'] eqn:Ef; [lia|]. cbn [parse_blocks].
  rewrite (cstr_head _ _ _ Hs). change (default 0 (head (58 :: dotted w3))) with 58. cbn [deref mbind res_bind]. change (58 =? 0) with false.
  change (58 =? 58) with true. cbv iota. unfold parse_colon.
  destruct (rep_store ai1 5 a1 [0; 0; 0; 0; 0] 65535 0 Hrep1) as (ai2 & a2 & -> & Hrep2); [done|done|].
  cbn [mbind res_bind current_block_index p_addr addr_index p_zero_blocks current_block_value].
  change (true && (5 + 1 =? 6)) with true. cbv iota. apply cstr_cons in Hs as (_ & _ & Hs).
  rewrite (ip4addr_aton_dotted b _ w3 H3 Hs). cbn [mbind res_bind].
  destruct Hrep2 as (_ & _ & [Hl2 Hw2] & Htake & _). destruct a2 as [|x0 [|x1 [|x2 [|x3 [|? ?]]]]]; try discriminate Hl2.
  cbn in Htake. injection Htake as T0 T1 T2 T3 T4 T5. cbn [arr_set].
  change (arr_set [x0; x1; x2; x3] 3 (lwip_htonl w3)) with (Ok [x0; x1; x2; lwip_htonl w3]). cbn [mbind res_bind].
  rewrite !Forall_cons in Hw2. destruct Hw2 as (X0 & X1 & X2 & _).
  change (5 + 1 + 1) with 7. rewrite fix_byte_order_map by (split; [done|]; repeat (apply Forall_cons; split; [first [done|by apply htonl_u32]|]); done).
  cbn [mbind res_bind fst snd map]. rewrite htonl_htonl by done.
  replace x0 with 0 by zlia. replace x1 with 0 by zlia. replace x2 with 65535 by zlia.
  unfold is_mapped4, ip6_addr_isipv4mappedipv6, addr_word in Hmap. rewrite Ha in Hmap |- *.
  cbn [Z.leb Z.compare Z.to_nat Pos.to_nat deref lookup list_lookup mbind res_bind] in Hmap.
  change (addr a !! 0%nat) with (Some w0) in Hmap. simpl in Hmap. breflect. subst w0 w1 w2. done.
Qed.

(** ** Round trips *)

(** The addresses ip6addr_ntoa_r can print: the last block is not zero, or two
    adjacent blocks are. *)
Definition printable (a : ip6_addr) : Prop := last (blocks a) ≠ Some 0 ∨ adjacent_zeros (blocks a).

Lemma mapped_adjacent a : ip6_ok a → is_mapped4 a = true → adjacent_zeros (blocks a).
Proof.
  intros (w0 & w1 & w2 & w3 & Ha & _)%ip6_ok_words Hmap. exists 0%nat.
  unfold is_mapped4, ip6_addr_isipv4mappedipv6, addr_word in Hmap. unfold blocks. rewrite Ha in *.
  simpl in Hmap. breflect. subst w0 w1 w2. done.
Qed.

Lemma ip6_text_printable a : ip6_ok a → is_Some (ip6_text a) ↔ printable a.
Proof.
  intros Ha. unfold ip6_text, printable. destruct (is_mapped4 a) eqn:E4.
  - split; [|by eexists]. intros _. right. by apply mapped_adjacent.
  - pose proof (text_none (blocks a) 0) as Hn. destruct (text_from 0 0 (blocks a)) as [t|].
    + split; [|by eexists]. intros _. destruct (decide (last (blocks a) = Some 0)) as [Hl|]; [|by left].
      right. unfold adjacent_zeros. destruct (decide (Exists (λ i, blocks a !! i = Some 0 ∧ blocks a !! S i = Some 0) (seq 0 8))) as [He|He].
      * apply Exists_exists in He as (i & _ & Hi). by exists i.
      * exfalso. destruct Hn as [_ Hn]. discriminate Hn. split; [done|]. intros (i & H1 & H2). apply He.
        apply Exists_exists. exists i. split; [|done]. apply elem_of_seq. apply lookup_lt_Some in H2.
        destruct (blocks_ok a Ha) as [H8 _]. lia.
    + split; [by intros [? [=]]|]. destruct Hn as [Hn _]. destruct (Hn eq_refl) as [Hl Ha']. intros [?|?]; done.
Qed.

(** Printing reads behind the four words of the address exactly when the last
    block is zero and no two adjacent blocks are. *)
Theorem ip6addr_ntoa_r_overread a buf buflen b : ip6_ok a → mapped b buf buflen → buf ≠ 0 → 40 ≤ buflen →
  ip6addr_ntoa_r a buf buflen b = Ub ↔ last (blocks a) = Some 0 ∧ ¬ adjacent_zeros (blocks a).
Proof.
  intros Ha Hm Hbuf Hlen. pose proof (ip6addr_ntoa_r_text a buf buflen b Ha Hm Hbuf Hlen) as Ht.
  unfold ip6_text in Ht. destruct (is_mapped4 a) eqn:E4.
  - destruct Ht as (b' & -> & _). split; [done|]. intros [_ H]. destruct H. by apply mapped_adjacent.
  - rewrite <-(text_none (blocks a) 0). destruct (text_from 0 0 (blocks a)) as [t|]; [|done].
    destruct Ht as (b' & -> & _). done.
Qed.

Lemma aton_text b cp t a d : ip6_ok a → ip6_ok d → ip6_text a = Some t → cstr b cp t →
  ip6addr_aton b cp (Some d) = Ok (1, Some (Ip6Addr (addr a) 0)).
Proof.
  intros Ha Hd Ht Hs. unfold ip6_text in Ht. destruct (is_mapped4 a) eqn:E4; [|by eapply aton_plain].
  injection Ht as <-. by apply aton_mapped.
Qed.

Lemma has_colon_skip b l : ∀ fuel s c k, Forall (λ c, hex_char c = true) l → cstr b s (l ++ c :: k) →
  (length l < fuel)%nat → c = 58 ∨ c = 46 → has_colon fuel b s = Ok (c =? 58).
Proof.
  induction l as [|x l IH]; intros fuel s c k Hl Hs Hf Hc; (destruct fuel as [|fuel]; [simpl in Hf; lia|]); cbn [has_colon app] in *.
  - apply cstr_cons in Hs as (-> & _ & _). by destruct Hc as [-> | ->].
  - apply Forall_cons in Hl as [Hx Hl]. apply hex_char_byte in Hx as (Hx & H58 & H46 & _).
    apply cstr_cons in Hs as (-> & _ & Hs). cbn [deref mbind res_bind].
    replace (x =? 0) with false by lia. replace (x =? 58) with false by lia. replace (x =? 46) with false by lia.
    apply (IH fuel (s + 1) c k); [done|done|simpl in Hf; lia|done].
Qed.

Lemma text_later_colon v vs k t : 0 < k → text_from k 0 (v :: vs) = Some t → ∃ t', t = 58 :: t'.
Proof.
  intros Hk Ht. cbn [text_from] in Ht. unfold move_at in Ht. change (0 =? 1) with false in Ht. rewrite andb_false_r in Ht.
  change (0 =? 0) with true in Ht. replace (0 <? k) with true in Ht by lia.
  destruct (v =? 0); [destruct (head vs) as [nv|]; [|done]; destruct (nv =? 0)|];
    (destruct (text_from (k + 1) _ vs) as [t'|]; [|discriminate Ht]); injection Ht as <-; by eexists.
Qed.

(** The printed text of an IPv6 address reaches a colon before any dot. *)
Lemma ip6_text_colon a t : ip6_ok a → ip6_text a = Some t →
  ∃ l k, t = l ++ 58 :: k ∧ Forall (λ c, hex_char c = true) l.
Proof.
  intros Ha Ht. unfold ip6_text in Ht. destruct (is_mapped4 a).
  { injection Ht as <-. eexists [], _. split; [reflexivity|done]. }
  destruct (blocks_ok a Ha) as [H8 Hb]. destruct (blocks a) as [|v [|w vs]]; try discriminate H8. clear H8.
  apply Forall_cons in Hb as [Hv _]. destruct (block_digits_ok v Hv) as (Hd & _).
  remember (w :: vs) as ws eqn:Ews. cbn [text_from] in Ht. unfold move_at in Ht. change (0 =? 1) with false in Ht.
  rewrite andb_false_r in Ht. change (0 =? 0) with true in Ht. change (0 <? 0) with false in Ht. cbn [app] in Ht.
  assert (Hgo : ∀ t', text_from (0 + 1) 0 ws = Some t' → t = block_digits v ++ t' →
    ∃ l k, t = l ++ 58 :: k ∧ Forall (λ c, hex_char c = true) l).
  { intros t' Ht' ->. rewrite Ews in Ht'. apply text_later_colon in Ht' as [k ->]; [|lia]. by exists (block_digits v), k. }
  destruct (v =? 0); [destruct (head ws) as [nv|]; [|done]; destruct (nv =? 0)|];
    (destruct (text_from (0 + 1) _ ws) as [t'|] eqn:E; [|discriminate Ht]); injection Ht as <-.
  - by exists [], t'.
  - by eapply Hgo.
  - by eapply Hgo.
Qed.

(** C14: Printing and parsing are inverse for either family of addresses: in a buffer
    of 46 bytes (IPADDR_STRLEN_MAX) ipaddr_ntoa_r prints every IPv4 address and
    every IPv6 address whose last block is not zero or that has two adjacent zero
    blocks, IPv4-mapped ones included; it writes only the buffer, and ipaddr_aton
    of the text returns 1 and the same address with the same family, whatever the
    destination held before. *)
Theorem ipaddr_roundtrip a d buf buflen b :
  ip6_ok (u_addr a) → ip6_ok (u_addr d) → mapped b buf buflen → buf ≠ 0 → 46 ≤ buflen →
  (IP_IS_V6 a = true → printable (ip_2_ip6 a)) →
  ∃ b' r, ipaddr_ntoa_r (Some a) buf buflen b = Ok (buf, b') ∧
    (∀ i, i < buf ∨ buf + buflen ≤ i → b' !! i = b !! i) ∧
    ipaddr_aton b' buf (Some d) = Ok (1, Some r) ∧ IP_IS_V6 r = IP_IS_V6 a ∧
    (if IP_IS_V6 a then addr (ip_2_ip6 r) = addr (ip_2_ip6 a) else ip_2_ip4 r = ip_2_ip4 a).
Proof.
  intros Ha Hd Hm Hbuf Hlen Hpr. unfold ipaddr_ntoa_r, ipaddr_aton. destruct (IP_IS_V6 a) eqn:E6.
  - specialize (Hpr eq_refl). unfold ip_2_ip6 in *. apply (ip6_text_printable _ Ha) in Hpr as [t Ht].
    pose proof (ip6addr_ntoa_r_text (u_addr a) buf buflen b Ha Hm Hbuf ltac:(lia)) as Hp. rewrite Ht in Hp.
    destruct Hp as (b' & -> & Hs & Ho). destruct (ip6_text_colon _ _ Ha Ht) as (l & k & -> & Hl).
    eexists b', _. split; [done|]. split; [done|]. pose proof (cstr_fuel _ _ _ Hs) as Hf. rewrite length_app in Hf.
    rewrite (has_colon_skip b' l _ buf 58 k) by (done || lia || by left). change (58 =? 58) with true. cbn [mbind res_bind].
    rewrite (aton_text b' buf _ (u_addr a) (u_addr d) Ha Hd Ht Hs). done.
  - apply ip6_ok_words in Ha as (w0 & w1 & w2 & w3 & Ha & Hw0 & _). destruct (addr_word_4 _ _ _ _ _ Ha) as (Hw & _).
    unfold ip_2_ip4. rewrite Hw. cbn [mbind res_bind].
    destruct (ip4addr_ntoa_r_ok w0 buf buflen b Hw0 Hm) as (b' & -> & Hs & Ho).
    destruct (dotted_chars w0 Hw0) as [_ Hdl]. specialize (Hs ltac:(lia)).
    replace (zlen (dotted w0) + 1 <=? buflen) with true by lia. destruct (dotted_split w0 Hw0) as [l Hl].
    pose proof Hs as Hs'. pose proof (cstr_fuel _ _ _ Hs) as Hf. rewrite Hl in Hs', Hf. rewrite length_app in Hf.
    destruct Hd as [Hdl' _]. destruct (addr (u_addr d)) as [|x0 [|x1 [|x2 [|x3 [|? ?]]]]] eqn:Ed; try discriminate Hdl'.
    eexists b', _. split; [done|]. split; [done|].
    rewrite (has_colon_skip b' (dec_byte (w0 mod 256)) _ buf 46 l) by
      (done || lia || (by right) || (apply dec_hex; unfold is_u8; zlia)).
    change (46 =? 58) with false. cbn [mbind res_bind]. rewrite (ip4addr_aton_dotted b' buf w0 Hw0 Hs). cbn [mbind res_bind].
    split; [reflexivity|]. done.
Qed.

Lemma ipaddr_roundtrip_witness :
  let a := IpAddr (Ip6Addr [PP_HTONL 536939960; 0; 0; PP_HTONL 1] 0) IPADDR_TYPE_V6 in
  let d := IpAddr (Ip6Addr [9; 9; 9; 9] 3) IPADDR_TYPE_V4 in
  let b := mwrite ∅ 100 (replicate 46 7) in
  ∃ b' r, ipaddr_ntoa_r (Some a) 100 46 b = Ok (100, b') ∧
    (∀ i, i < 100 ∨ 100 + 46 ≤ i → b' !! i = b !! i) ∧
    ipaddr_aton b' 100 (Some d) = Ok (1, Some r) ∧ IP_IS_V6 r = IP_IS_V6 a ∧
    (if IP_IS_V6 a then addr (ip_2_ip6 r) = addr (ip_2_ip6 a) else ip_2_ip4 r = ip_2_ip4 a).
Proof.
  cbv zeta. apply ipaddr_roundtrip.
  - split; [done|]. repeat constructor; done.
  - split; [done|]. repeat constructor; done.
  - apply mapped_b_spec; [lia|]. vm_compute. reflexivity.
  - done.
  - lia.
  - intros _. left. vm_compute. done.
Defined.

Lemma ip6addr_ntoa_r_overread_witness :
  let a := Ip6Addr [PP_HTONL 65538; PP_HTONL 196612; PP_HTONL 327686; PP_HTONL 458752] 0 in
  let b := mwrite ∅ 100 (replicate 46 7) in
  ip6addr_ntoa_r a 100 46 b = Ub ↔ last (blocks a) = Some 0 ∧ ¬ adjacent_zeros (blocks a).
Proof.
  cbv zeta. apply ip6addr_ntoa_r_overread.
  - split; [done|]. repeat constructor; done.
  - apply mapped_b_spec; [lia|]. vm_compute. reflexivity.
  - done.
  - lia.
Defined.
