(* ===== verification/Etharp.v ===== *)
(** * Address resolution: core/ipv4/etharp.c

    The ARP cache is a table of ten entries.  An entry is empty, pending (a request
    was sent, at most one packet waits for the answer) or stable; a stable entry
    that is used shortly before it expires is requested again.  etharp_tmr, called
    every second, ages the entries.

    Packets, network interfaces and the sending of frames are reached through the
    class [Packets]: pbuf.c for the packets, ethernet.c for [ethernet_output], the
    address conflict hooks of AUTOIP and DHCP.  EtharpFacts.v states what the cache
    needs of them.

    Configuration: ARP_TABLE_SIZE 10, ARP_MAXAGE 300, ARP_QUEUEING 0,
    ETHARP_SUPPORT_STATIC_ENTRIES 0, ETHARP_TABLE_MATCH_NETIF 1,
    LWIP_NETIF_HWADDRHINT 0, LWIP_AUTOIP 1, LWIP_DHCP 1, LWIP_DEBUG not defined. *)

From S2P Require Import Prelude Def Ip4Addr.

(** ** Data *)

(** Six bytes. *)
Definition eth_addr : Type := list Z.
Definition ethbroadcast : eth_addr := [255; 255; 255; 255; 255; 255].
Definition ethzero : eth_addr := [0; 0; 0; 0; 0; 0].
Definition ETH_HWADDR_LEN : Z := 6.

Definition LL_IP4_MULTICAST_ADDR_0 : Z := 1.
Definition LL_IP4_MULTICAST_ADDR_1 : Z := 0.
Definition LL_IP4_MULTICAST_ADDR_2 : Z := 94.

Definition ETHTYPE_IP : Z := 2048.
Definition ETHTYPE_ARP : Z := 2054.
Definition LWIP_IANA_HWTYPE_ETHERNET : Z := 1.
Definition ARP_REQUEST : Z := 1.
Definition ARP_REPLY : Z := 2.
Definition SIZEOF_ETHARP_HDR : Z := 28.

Definition ARP_TABLE_SIZE : Z := 10.
Definition ARP_MAXAGE : Z := 300.
Definition ARP_AGE_REREQUEST_USED_UNICAST : Z := ARP_MAXAGE - 30.
Definition ARP_AGE_REREQUEST_USED_BROADCAST : Z := ARP_MAXAGE - 15.
Definition ARP_MAXPENDING : Z := 5.

Definition ETHARP_FLAG_TRY_HARD : Z := 1.
Definition ETHARP_FLAG_FIND_ONLY : Z := 2.

(** struct etharp_hdr; the 16-bit fields in network byte order. *)
Record etharp_hdr := EtharpHdr {
  hwtype : Z; proto : Z; hwlen : Z; protolen : Z; opcode : Z;
  shwaddr : eth_addr; sipaddr : Z; dhwaddr : eth_addr; dipaddr : Z }.

(** The members of [struct netif] this file reads. *)
Record netif := Netif { hwaddr : eth_addr; hwaddr_len : Z; if4 : netif4; netif_ip4_gw : Z }.

Inductive etharp_state :=
  ETHARP_STATE_EMPTY | ETHARP_STATE_PENDING | ETHARP_STATE_STABLE
| ETHARP_STATE_STABLE_REREQUESTING_1 | ETHARP_STATE_STABLE_REREQUESTING_2.

#[global] Instance etharp_state_eq_dec : EqDecision etharp_state.
Proof. solve_decision. Defined.

(** The value of the enumerator. *)
Definition state_num (st : etharp_state) : Z :=
  match st with
  | ETHARP_STATE_EMPTY => 0 | ETHARP_STATE_PENDING => 1 | ETHARP_STATE_STABLE => 2
  | ETHARP_STATE_STABLE_REREQUESTING_1 => 3 | ETHARP_STATE_STABLE_REREQUESTING_2 => 4
  end.

Definition is_state (a b : etharp_state) : bool := state_num a =? state_num b.
Definition ge_stable (a : etharp_state) : bool := state_num ETHARP_STATE_STABLE <=? state_num a.

(** struct etharp_entry; [q] is the packet that waits, [e_netif] the address of
    the interface (0 for NULL). *)
Record etharp_entry := Entry {
  q : option Z; ipaddr : Z; e_netif : Z; ethaddr : eth_addr; ctime : Z; state : etharp_state }.

#[global] Instance etharp_entry_eq_dec : EqDecision etharp_entry.
Proof. solve_decision. Defined.

(** The static table before anything was stored: all bytes zero. *)
Definition empty_entry : etharp_entry := Entry None 0 0 ethzero 0 ETHARP_STATE_EMPTY.

Definition with_q v (e : etharp_entry) := Entry v (ipaddr e) (e_netif e) (ethaddr e) (ctime e) (state e).
Definition with_ipaddr v (e : etharp_entry) := Entry (q e) v (e_netif e) (ethaddr e) (ctime e) (state e).
Definition with_netif v (e : etharp_entry) := Entry (q e) (ipaddr e) v (ethaddr e) (ctime e) (state e).
Definition with_ethaddr v (e : etharp_entry) := Entry (q e) (ipaddr e) (e_netif e) v (ctime e) (state e).
Definition with_ctime v (e : etharp_entry) := Entry (q e) (ipaddr e) (e_netif e) (ethaddr e) v (state e).
Definition with_state v (e : etharp_entry) := Entry (q e) (ipaddr e) (e_netif e) (ethaddr e) (ctime e) v.

(** ** IPv4 address tests: include/lwip/ip4_addr.h *)

Definition ip4_addr_isany_val (a : Z) : bool := a =? IPADDR_ANY.
Definition ip4_addr_ismulticast (a : Z) : bool := Z.land a (PP_HTONL 4026531840) =? PP_HTONL 3758096384.
Definition ip4_addr_islinklocal (a : Z) : bool := Z.land a (PP_HTONL 4294901760) =? PP_HTONL 2851995648.
(** Byte [idx] of the address in memory, on a little-endian host. *)
Definition ip4_addr_get_byte (a idx : Z) : Z := Z.land (Z.shiftr a (8 * idx)) 255.
Definition ip4_addr_isbroadcast (a : Z) (n : netif) : bool := negb (ip4_addr_isbroadcast_u32 a (if4 n) =? 0).

(** ** What the cache uses of the rest of the stack *)

Class Packets (W : Type) := {
  (** the network interface at an address *)
  get_netif : Z → W → res netif;
  (** pbuf_free(p) *)
  pk_free : Z → W → res W;
  (** pbuf_ref(p) *)
  pk_ref : Z → W → res W;
  (** pbuf_alloc(PBUF_LINK, SIZEOF_ETHARP_HDR, PBUF_RAM) *)
  pk_alloc_arp : W → res (option Z * W);
  (** pbuf_clone(PBUF_LINK, PBUF_RAM, p) *)
  pk_clone : Z → W → res (option Z * W);
  (** p->len *)
  pk_len : Z → W → res Z;
  (** is there a pbuf in the chain of p for which PBUF_NEEDS_COPY holds? *)
  pk_needs_copy : Z → W → res bool;
  (** the struct etharp_hdr at p->payload *)
  pk_get_hdr : Z → W → res etharp_hdr;
  pk_put_hdr : Z → etharp_hdr → W → res W;
  (** the source address of the struct ip_hdr at p->payload *)
  pk_ip_src : Z → W → res Z;
  (** ethernet_output(netif, p, src, dst, eth_type) *)
  ethernet_output : Z → Z → eth_addr → eth_addr → Z → W → res (Z * W);
  (** autoip_arp_reply(netif, hdr) and dhcp_arp_reply(netif, addr) *)
  autoip_arp_reply : Z → etharp_hdr → W → res W;
  dhcp_arp_reply : Z → Z → W → res W
}.

Record astate (W : Type) := AState { arp_table : list etharp_entry; etharp_cached_entry : Z; world : W }.
Arguments AState {W} _ _ _.
Arguments arp_table {W} _.
Arguments etharp_cached_entry {W} _.
Arguments world {W} _.

Section operations.
Context {W : Type} `{Packets W}.
Implicit Types (a : astate W) (w : W).

(** [arp_table[i]]; an index outside the table is undefined behaviour. *)
Definition entry_at (i : Z) a : res etharp_entry := if 0 <=? i then deref (arp_table a !! Z.to_nat i) else Ub.
Definition set_entry (i : Z) (e : etharp_entry) a : astate W :=
  AState (<[Z.to_nat i := e]> (arp_table a)) (etharp_cached_entry a) (world a).
Definition set_world (w : W) a : astate W := AState (arp_table a) (etharp_cached_entry a) w.
Definition ETHARP_SET_ADDRHINT (addrhint : Z) a : astate W := AState (arp_table a) addrhint (world a).

(** ** Sending ARP packets *)

(** [netif] is the address of the interface, not NULL. *)
Definition etharp_raw (netif : Z) (ethsrc_addr ethdst_addr hwsrc_addr : eth_addr) (ipsrc_addr : Z)
    (hwdst_addr : eth_addr) (ipdst_addr opcode : Z) w : res (Z * W) :=
  '(r, w) ← pk_alloc_arp w;
  match r with
  | None => Ok (ERR_MEM, w)
  | Some p =>
      l ← pk_len p w;
      LWIP_ASSERT (SIZEOF_ETHARP_HDR <=? l);;
      n ← get_netif netif w;
      LWIP_ASSERT (hwaddr_len n =? ETH_HWADDR_LEN);;
      w ← pk_put_hdr p (EtharpHdr (PP_HTONS LWIP_IANA_HWTYPE_ETHERNET) (PP_HTONS ETHTYPE_IP) ETH_HWADDR_LEN 4
                          (lwip_htons opcode) hwsrc_addr ipsrc_addr hwdst_addr ipdst_addr) w;
      '(_, w) ← (if ip4_addr_islinklocal ipsrc_addr
                 then ethernet_output netif p ethsrc_addr ethbroadcast ETHTYPE_ARP w
                 else ethernet_output netif p ethsrc_addr ethdst_addr ETHTYPE_ARP w);
      w ← pk_free p w;
      Ok (ERR_OK, w)
  end.

Definition etharp_request_dst (netif ipaddr : Z) (hw_dst_addr : eth_addr) w : res (Z * W) :=
  n ← get_netif netif w;
  etharp_raw netif (hwaddr n) hw_dst_addr (hwaddr n) (netif_ip4_addr (if4 n)) ethzero ipaddr ARP_REQUEST w.

Definition etharp_request (netif ipaddr : Z) w : res (Z * W) := etharp_request_dst netif ipaddr ethbroadcast w.

(** A function that uses the rest of the stack only. *)
Definition on_world {B} (f : W → res (B * W)) a : res (B * astate W) := '(r, w) ← f (world a); Ok (r, set_world w a).

(** ** Ageing *)

Definition etharp_free_entry (i : Z) a : res (astate W) :=
  e ← entry_at i a;
  a ← (match q e with
       | Some p => w ← pk_free p (world a); Ok (set_entry i (with_q None e) (set_world w a))
       | None => Ok a
       end);
  e ← entry_at i a;
  Ok (set_entry i (with_state ETHARP_STATE_EMPTY e) a).

(** The body of the loop of etharp_tmr. *)
Definition etharp_tmr_entry (i : Z) a : res (astate W) :=
  e ← entry_at i a;
  if negb (is_state (state e) ETHARP_STATE_EMPTY) then
    let e := with_ctime (u16 (ctime e + 1)) e in
    let a := set_entry i e a in
    if (ARP_MAXAGE <=? ctime e) || (is_state (state e) ETHARP_STATE_PENDING && (ARP_MAXPENDING <=? ctime e))
    then etharp_free_entry i a
    else if is_state (state e) ETHARP_STATE_STABLE_REREQUESTING_1
    then Ok (set_entry i (with_state ETHARP_STATE_STABLE_REREQUESTING_2 e) a)
    else if is_state (state e) ETHARP_STATE_STABLE_REREQUESTING_2
    then Ok (set_entry i (with_state ETHARP_STATE_STABLE e) a)
    else if is_state (state e) ETHARP_STATE_PENDING
    then '(_, a) ← on_world (etharp_request (e_netif e) (ipaddr e)) a; Ok a
    else Ok a
  else Ok a.

(** [for (i = ...; i < ARP_TABLE_SIZE; ++i)], [n] rounds left. *)
Fixpoint etharp_tmr_loop (n : nat) (i : Z) a : res (astate W) :=
  match n with
  | O => Ok a
  | S n => a ← etharp_tmr_entry i a; etharp_tmr_loop n (i + 1) a
  end.

Definition etharp_tmr a : res (astate W) := etharp_tmr_loop (Z.to_nat ARP_TABLE_SIZE) 0 a.

(** ** Looking for an entry *)

(** The candidates the sweep remembers; ARP_TABLE_SIZE stands for none. *)
Record candidates := Candidates {
  old_pending : Z; old_stable : Z; empty : Z; old_queue : Z; age_queue : Z; age_pending : Z; age_stable : Z }.

(** One round of the sweep at an entry that is not empty and does not match. *)
Definition remember (i : Z) (e : etharp_entry) (c : candidates) : candidates :=
  if is_state (state e) ETHARP_STATE_PENDING then
    match q e with
    | Some _ =>
        if age_queue c <=? ctime e
        then Candidates (old_pending c) (old_stable c) (empty c) i (ctime e) (age_pending c) (age_stable c) else c
    | None =>
        if age_pending c <=? ctime e
        then Candidates i (old_stable c) (empty c) (old_queue c) (age_queue c) (ctime e) (age_stable c) else c
    end
  else if ge_stable (state e) then
    if age_stable c <=? ctime e
    then Candidates (old_pending c) i (empty c) (old_queue c) (age_queue c) (age_pending c) (ctime e) else c
  else c.

(** Does the entry match the address and, unless NULL, the interface? *)
Definition matches (ip : option Z) (nif : option Z) (e : etharp_entry) : bool :=
  match ip with
  | None => false
  | Some ip => (ip =? ipaddr e) && (match nif with None => true | Some nif => nif =? e_netif e end)
  end.

(** The sweep: the index of a match, or the candidates. *)
Fixpoint find_sweep (ip nif : option Z) (es : list etharp_entry) (i : Z) (c : candidates) : res (Z + candidates) :=
  match es with
  | [] => Ok (inr c)
  | e :: es =>
      if (empty c =? ARP_TABLE_SIZE) && is_state (state e) ETHARP_STATE_EMPTY then
        find_sweep ip nif es (i + 1)
          (Candidates (old_pending c) (old_stable c) i (old_queue c) (age_queue c) (age_pending c) (age_stable c))
      else if negb (is_state (state e) ETHARP_STATE_EMPTY) then
        LWIP_ASSERT (is_state (state e) ETHARP_STATE_PENDING || ge_stable (state e));;
        if matches ip nif e then Ok (inl i) else find_sweep ip nif es (i + 1) (remember i e c)
      else find_sweep ip nif es (i + 1) c
  end.

(** The entry to recycle, when there is no empty one: [None] for ERR_MEM. *)
Definition choose_victim (c : candidates) a : res (option Z) :=
  if old_stable c <? ARP_TABLE_SIZE then
    e ← entry_at (old_stable c) a;
    LWIP_ASSERT (bool_decide (q e = None));;
    Ok (Some (old_stable c))
  else if old_pending c <? ARP_TABLE_SIZE then Ok (Some (old_pending c))
  else if old_queue c <? ARP_TABLE_SIZE then Ok (Some (old_queue c))
  else Ok None.

(** A new entry at [i], which must be empty by now. *)
Definition find_create (ip nif : option Z) (i : Z) a : res (Z * astate W) :=
  LWIP_ASSERT (i <? ARP_TABLE_SIZE);;
  e ← entry_at i a;
  LWIP_ASSERT (is_state (state e) ETHARP_STATE_EMPTY);;
  let e := match ip with Some ip => with_ipaddr ip e | None => e end in
  let e := with_netif (default 0 nif) (with_ctime 0 e) in
  Ok (i, set_entry i e a).

(** NULL for the address or the interface is [None]. *)
Definition etharp_find_entry (ip : option Z) (flags : Z) (nif : option Z) a : res (Z * astate W) :=
  let none := ARP_TABLE_SIZE in
  r ← find_sweep ip nif (take (Z.to_nat ARP_TABLE_SIZE) (arp_table a)) 0 (Candidates none none none none 0 0 0);
  match r with
  | inl i => Ok (i, a)
  | inr c =>
      if negb (Z.land flags ETHARP_FLAG_FIND_ONLY =? 0) ||
         ((empty c =? ARP_TABLE_SIZE) && (Z.land flags ETHARP_FLAG_TRY_HARD =? 0)) then Ok (ERR_MEM, a) else
      if empty c <? ARP_TABLE_SIZE then find_create ip nif (empty c) a else
      v ← choose_victim c a;
      match v with
      | None => Ok (ERR_MEM, a)
      | Some i =>
          LWIP_ASSERT (i <? ARP_TABLE_SIZE);;
          a ← etharp_free_entry i a;
          find_create ip nif i a
      end
  end.

(** ** Learning an address *)

Definition etharp_update_arp_entry (netif ip : Z) (eth : eth_addr) (flags : Z) a : res (Z * astate W) :=
  n ← get_netif netif (world a);
  LWIP_ASSERT (hwaddr_len n =? ETH_HWADDR_LEN);;
  if ip4_addr_isany_val ip || ip4_addr_isbroadcast ip n || ip4_addr_ismulticast ip then Ok (ERR_ARG, a) else
  '(i, a) ← etharp_find_entry (Some ip) flags (Some netif) a;
  if i <? 0 then Ok (i, a) else
  e ← entry_at i a;
  let e := with_ctime 0 (with_ethaddr eth (with_netif netif (with_state ETHARP_STATE_STABLE e))) in
  let a := set_entry i e a in
  match q e with
  | None => Ok (ERR_OK, a)
  | Some p =>
      let a := set_entry i (with_q None e) a in
      n ← get_netif netif (world a);
      '(_, w) ← ethernet_output netif p (hwaddr n) eth ETHTYPE_IP (world a);
      w ← pk_free p w;
      Ok (ERR_OK, set_world w a)
  end.

(** ** Removing the entries of an interface *)

Fixpoint etharp_cleanup_loop (n : nat) (i netif : Z) a : res (astate W) :=
  match n with
  | O => Ok a
  | S n =>
      e ← entry_at i a;
      a ← (if negb (is_state (state e) ETHARP_STATE_EMPTY) && (e_netif e =? netif)
           then etharp_free_entry i a else Ok a);
      etharp_cleanup_loop n (i + 1) netif a
  end.

Definition etharp_cleanup_netif (netif : Z) a : res (astate W) :=
  etharp_cleanup_loop (Z.to_nat ARP_TABLE_SIZE) 0 netif a.

(** ** Reading the cache *)

(** The index and what the returned pointers point to, or -1. *)
Definition etharp_find_addr (netif : option Z) (ip : option Z) a : res (Z * option (eth_addr * Z) * astate W) :=
  '(i, a) ← etharp_find_entry ip ETHARP_FLAG_FIND_ONLY netif a;
  if 0 <=? i then
    e ← entry_at i a;
    if ge_stable (state e) then Ok (i, Some (ethaddr e, ipaddr e), a) else Ok (-1, None, a)
  else Ok (-1, None, a).

Definition etharp_get_entry (i : Z) a : res (Z * option (Z * Z * eth_addr)) :=
  if i <? ARP_TABLE_SIZE then
    e ← entry_at i a;
    if ge_stable (state e) then Ok (1, Some (ipaddr e, e_netif e, ethaddr e)) else Ok (0, None)
  else Ok (0, None).

(** ** Incoming ARP packets *)

Definition etharp_input (p netif : Z) a : res (astate W) :=
  LWIP_ASSERT (negb (netif =? 0));;
  hdr ← pk_get_hdr p (world a);
  if negb (hwtype hdr =? PP_HTONS LWIP_IANA_HWTYPE_ETHERNET) || negb (hwlen hdr =? ETH_HWADDR_LEN) ||
     negb (protolen hdr =? 4) || negb (proto hdr =? PP_HTONS ETHTYPE_IP)
  then w ← pk_free p (world a); Ok (set_world w a)
  else
    w ← autoip_arp_reply netif hdr (world a);
    let a := set_world w a in
    n ← get_netif netif (world a);
    let for_us := if ip4_addr_isany_val (netif_ip4_addr (if4 n)) then false
                  else dipaddr hdr =? netif_ip4_addr (if4 n) in
    '(_, a) ← etharp_update_arp_entry netif (sipaddr hdr) (shwaddr hdr)
                (if for_us then ETHARP_FLAG_TRY_HARD else ETHARP_FLAG_FIND_ONLY) a;
    a ← (if opcode hdr =? PP_HTONS ARP_REQUEST then
           if (for_us : bool) then
             n ← get_netif netif (world a);
             '(_, a) ← on_world (etharp_raw netif (hwaddr n) (shwaddr hdr) (hwaddr n) (netif_ip4_addr (if4 n))
                                   (shwaddr hdr) (sipaddr hdr) ARP_REPLY) a;
             Ok a
           else Ok a
         else if opcode hdr =? PP_HTONS ARP_REPLY then
           w ← dhcp_arp_reply netif (sipaddr hdr) (world a); Ok (set_world w a)
         else Ok a);
    w ← pk_free p (world a);
    Ok (set_world w a).

(** ** Outgoing IP packets *)

Definition etharp_output_to_arp_index (netif qp arp_idx : Z) a : res (Z * astate W) :=
  e ← entry_at arp_idx a;
  LWIP_ASSERT (ge_stable (state e));;
  a ← (if is_state (state e) ETHARP_STATE_STABLE then
         if ARP_AGE_REREQUEST_USED_BROADCAST <=? ctime e then
           '(r, a) ← on_world (etharp_request netif (ipaddr e)) a;
           if r =? ERR_OK then Ok (set_entry arp_idx (with_state ETHARP_STATE_STABLE_REREQUESTING_1 e) a) else Ok a
         else if ARP_AGE_REREQUEST_USED_UNICAST <=? ctime e then
           '(r, a) ← on_world (etharp_request_dst netif (ipaddr e) (ethaddr e)) a;
           if r =? ERR_OK then Ok (set_entry arp_idx (with_state ETHARP_STATE_STABLE_REREQUESTING_1 e) a) else Ok a
         else Ok a
       else Ok a);
  n ← get_netif netif (world a);
  on_world (ethernet_output netif qp (hwaddr n) (ethaddr e) ETHTYPE_IP) a.

(** Send an ARP request for an address and/or queue a packet ([None] for NULL). *)
Definition etharp_query (netif ip : Z) (qp : option Z) a : res (Z * astate W) :=
  n ← get_netif netif (world a);
  let srcaddr := hwaddr n in
  if ip4_addr_isbroadcast ip n || ip4_addr_ismulticast ip || ip4_addr_isany_val ip then Ok (ERR_ARG, a) else
  '(i, a) ← etharp_find_entry (Some ip) ETHARP_FLAG_TRY_HARD (Some netif) a;
  if i <? 0 then Ok (i, a) else
  LWIP_ASSERT (i <? 127);;
  e ← entry_at i a;
  let is_new_entry := is_state (state e) ETHARP_STATE_EMPTY in
  let a := if is_new_entry then set_entry i (with_netif netif (with_state ETHARP_STATE_PENDING e)) a else a in
  e ← entry_at i a;
  LWIP_ASSERT (is_state (state e) ETHARP_STATE_PENDING || ge_stable (state e));;
  '(result, a) ← (if is_new_entry || bool_decide (qp = None) then on_world (etharp_request netif ip) a
                  else Ok (ERR_MEM, a));
  match qp with
  | None => Ok (result, a)
  | Some qp =>
      e ← entry_at i a;
      if ge_stable (state e) then
        on_world (ethernet_output netif qp srcaddr (ethaddr e) ETHTYPE_IP) (ETHARP_SET_ADDRHINT i a)
      else if is_state (state e) ETHARP_STATE_PENDING then
        copy_needed ← pk_needs_copy qp (world a);
        '(p, w) ← (if (copy_needed : bool) then pk_clone qp (world a)
                   else w ← pk_ref qp (world a); Ok (Some qp, w));
        let a := set_world w a in
        match p with
        | None => Ok (ERR_MEM, a)
        | Some p =>
            e ← entry_at i a;
            a ← (match q e with
                 | Some old => w ← pk_free old (world a); Ok (set_world w a)
                 | None => Ok a
                 end);
            Ok (ERR_OK, set_entry i (with_q (Some p) e) a)
        end
      else Ok (result, a)
  end.

(** Is the entry stable and the one for this address and interface? *)
Definition stable_match (netif dst : Z) (e : etharp_entry) : bool :=
  ge_stable (state e) && (e_netif e =? netif) && (dst =? ipaddr e).

(** [for (i = 0; i < ARP_TABLE_SIZE; i++)]: the first stable match. *)
Fixpoint find_stable (netif dst : Z) (es : list etharp_entry) (i : Z) : option Z :=
  match es with
  | [] => None
  | e :: es => if stable_match netif dst e then Some i else find_stable netif dst es (i + 1)
  end.

(** The destination of a unicast packet: itself or the gateway; [None] for ERR_RTE.
    The IP header is read only for a destination outside the local network. *)
Definition unicast_dst (n : netif) (qp ip : Z) w : res (option Z) :=
  if negb (ip4_addr_netcmp ip (netif_ip4_addr (if4 n)) (netif_ip4_netmask (if4 n))) && negb (ip4_addr_islinklocal ip) then
    src ← pk_ip_src qp w;
    if negb (ip4_addr_islinklocal src) then
      if negb (ip4_addr_isany_val (netif_ip4_gw n)) then Ok (Some (netif_ip4_gw n)) else Ok None
    else Ok (Some ip)
  else Ok (Some ip).

Definition etharp_output (netif qp ip : Z) a : res (Z * astate W) :=
  n ← get_netif netif (world a);
  if ip4_addr_isbroadcast ip n then
    on_world (ethernet_output netif qp (hwaddr n) ethbroadcast ETHTYPE_IP) a
  else if ip4_addr_ismulticast ip then
    let mcastaddr := [LL_IP4_MULTICAST_ADDR_0; LL_IP4_MULTICAST_ADDR_1; LL_IP4_MULTICAST_ADDR_2;
                      Z.land (ip4_addr_get_byte ip 1) 127; ip4_addr_get_byte ip 2; ip4_addr_get_byte ip 3] in
    on_world (ethernet_output netif qp (hwaddr n) mcastaddr ETHTYPE_IP) a
  else
    dst ← unicast_dst n qp ip (world a);
    match dst with
    | None => Ok (ERR_RTE, a)
    | Some dst_addr =>
        e ← entry_at (etharp_cached_entry a) a;
        if stable_match netif dst_addr e then etharp_output_to_arp_index netif qp (etharp_cached_entry a) a
        else
          match find_stable netif dst_addr (take (Z.to_nat ARP_TABLE_SIZE) (arp_table a)) 0 with
          | Some i => etharp_output_to_arp_index netif qp i (ETHARP_SET_ADDRHINT i a)
          | None => etharp_query netif dst_addr (Some qp) a
          end
    end.

End operations.
