(* ===== verification/EtharpFacts.v ===== *)
(** * The ARP cache: its invariant and its operations

    [PacketsLaws] states what the cache relies on: a reference that is held may be
    released, copied or sent.  Against it every operation of the cache keeps the
    table well formed ([table_ok]) and holds exactly one reference for each packet
    that waits in the table ([arp_ok]): nothing is released twice and nothing is
    leaked. *)

From stdpp Require Import gmultiset.
From S2P Require Import Prelude Def Ip4Addr Etharp.

(** ** The promise of the packet layer *)

(** [own I X w]: the interfaces [I] exist, are Ethernet interfaces, and the
    references [X] are held by the cache and its callers.  A conflict that AutoIP hears
    while the interface is down aborts (autoip_start insists that it is up), so
    [own_autoip] allows this; IfaceSpec.autoip_arp_reply_total proves it of autoip.c. *)
Definition netif_down (n : netif) : Prop := Z.testbit (netif_flags (if4 n)) 0 = false.

Class PacketsLaws (W : Type) `{Packets W} := {
  own : gset Z → gmultiset Z → W → Prop;
  own_netif I X w i : own I X w → i ∈ I → ∃ n, get_netif i w = Ok n ∧ hwaddr_len n = ETH_HWADDR_LEN;
  own_free I X p w : own I ({[+ p +]} ⊎ X) w → ∃ w', pk_free p w = Ok w' ∧ own I X w';
  (** pbuf_ref aborts when the 8-bit counter would wrap around *)
  own_ref I X p w : own I ({[+ p +]} ⊎ X) w →
    pk_ref p w = Assert ∨ ∃ w', pk_ref p w = Ok w' ∧ own I ({[+ p +]} ⊎ ({[+ p +]} ⊎ X)) w';
  own_alloc I X w : own I X w → ∃ r w', pk_alloc_arp w = Ok (r, w') ∧
    match r with None => own I X w' | Some p => own I ({[+ p +]} ⊎ X) w' ∧ pk_len p w' = Ok SIZEOF_ETHARP_HDR end;
  own_clone I X p w : own I ({[+ p +]} ⊎ X) w → ∃ r w', pk_clone p w = Ok (r, w') ∧
    match r with None => own I ({[+ p +]} ⊎ X) w' | Some c => own I ({[+ c +]} ⊎ ({[+ p +]} ⊎ X)) w' end;
  own_needs_copy I X p w : own I ({[+ p +]} ⊎ X) w → ∃ b, pk_needs_copy p w = Ok b;
  own_put_hdr I X p h l w : own I ({[+ p +]} ⊎ X) w → pk_len p w = Ok l → SIZEOF_ETHARP_HDR ≤ l →
    ∃ w', pk_put_hdr p h w = Ok w' ∧ own I ({[+ p +]} ⊎ X) w';
  own_output I X i p s d t w : own I ({[+ p +]} ⊎ X) w → i ∈ I →
    ∃ r w', ethernet_output i p s d t w = Ok (r, w') ∧ own I ({[+ p +]} ⊎ X) w';
  own_autoip I X i h w : own I X w → i ∈ I →
    (∃ w', autoip_arp_reply i h w = Ok w' ∧ own I X w') ∨
    (autoip_arp_reply i h w = Assert ∧ ∃ n, get_netif i w = Ok n ∧ netif_down n);
  own_dhcp I X i ip w : own I X w → i ∈ I → ∃ w', dhcp_arp_reply i ip w = Ok w' ∧ own I X w'
}.

(** ** The table *)

Definition nonempty (e : etharp_entry) : Prop := state e ≠ ETHARP_STATE_EMPTY.
Definition unicast (ip : Z) : Prop := ip4_addr_isany_val ip = false ∧ ip4_addr_ismulticast ip = false.

(** An empty entry queues nothing; a pending one is younger than ARP_MAXPENDING; a
    stable one is younger than ARP_MAXAGE and queues nothing. *)
Definition entry_ok (I : gset Z) (e : etharp_entry) : Prop :=
  match state e with
  | ETHARP_STATE_EMPTY => q e = None
  | ETHARP_STATE_PENDING => 0 ≤ ctime e < ARP_MAXPENDING ∧ e_netif e ∈ I ∧ unicast (ipaddr e)
  | _ => 0 ≤ ctime e < ARP_MAXAGE ∧ q e = None ∧ e_netif e ∈ I ∧ unicast (ipaddr e)
  end.

(** At most one entry in use for an address and interface. *)
Definition unique (t : list etharp_entry) : Prop :=
  ∀ i j e e', t !! i = Some e → t !! j = Some e' → nonempty e → nonempty e' →
    ipaddr e = ipaddr e' → e_netif e = e_netif e' → i = j.

Definition table_ok (I : gset Z) (t : list etharp_entry) : Prop :=
  length t = Z.to_nat ARP_TABLE_SIZE ∧ Forall (entry_ok I) t ∧ unique t.

(** The references held for the packets that wait. *)
Definition oref (o : option Z) : gmultiset Z := match o with Some p => {[+ p +]} | None => ∅ end.
Definition queued (t : list etharp_entry) : gmultiset Z := foldr (λ e X, oref (q e) ⊎ X) ∅ t.

Lemma queued_split t (i : nat) e : t !! i = Some e →
  ∃ R, queued t = oref (q e) ⊎ R ∧ ∀ e', queued (<[i := e']> t) = oref (q e') ⊎ R.
Proof.
  revert i. induction t as [|x t IH]; intros [|i] Hi; simplify_eq/=; [by exists (queued t)|].
  destruct (IH i Hi) as (R & HR & Hins). exists (oref (q x) ⊎ R). split.
  - unfold queued in *. simpl. rewrite HR. multiset_solver.
  - intros e'. unfold queued in *. simpl. rewrite Hins. multiset_solver.
Qed.

Lemma unique_insert_empty t i e : unique t → ¬ nonempty e → unique (<[i := e]> t).
Proof.
  intros Hu He j k f f' Hj Hk Hf Hf'.
  destruct (decide (j = i)) as [->|]; [destruct (decide (i < length t)%nat);
    [rewrite list_lookup_insert_eq in Hj by done; by simplify_eq|rewrite list_insert_ge in Hj by lia; rewrite list_insert_ge in Hk by lia; by eapply Hu]|].
  destruct (decide (k = i)) as [->|]; [destruct (decide (i < length t)%nat);
    [rewrite list_lookup_insert_eq in Hk by done; by simplify_eq|rewrite list_insert_ge in Hj by lia; rewrite list_insert_ge in Hk by lia; by eapply Hu]|].
  rewrite list_lookup_insert_ne in Hj, Hk by done. by eapply Hu.
Qed.

(** Changing an entry in use without touching its key. *)
Lemma unique_insert_same t i e e' : unique t → t !! i = Some e → nonempty e →
  ipaddr e' = ipaddr e → e_netif e' = e_netif e → unique (<[i := e']> t).
Proof.
  intros Hu Hi Hne Hip Hnif j k f f' Hj Hk Hf Hf' Heq Heq'. pose proof (lookup_lt_Some _ _ _ Hi).
  destruct (decide (j = i)) as [->|], (decide (k = i)) as [->|]; [done|..];
    rewrite ?list_lookup_insert_eq in Hj by done; rewrite ?list_lookup_insert_eq in Hk by done;
    rewrite ?list_lookup_insert_ne in Hj by done; rewrite ?list_lookup_insert_ne in Hk by done; simplify_eq.
  - eapply (Hu i k e f'); try done; congruence.
  - eapply (Hu j i f e); try done; congruence.
  - by eapply (Hu j k f f').
Qed.

(** A key that is not in the table. *)
Lemma unique_insert_new t i e : unique t →
  (∀ j f, t !! j = Some f → nonempty f → ipaddr f = ipaddr e → e_netif f = e_netif e → j = i) →
  unique (<[i := e]> t).
Proof.
  intros Hu Hnew j k f f' Hj Hk Hf Hf' Heq Heq'.
  destruct (decide (i < length t)%nat); [|rewrite list_insert_ge in Hj by lia; rewrite list_insert_ge in Hk by lia; by eapply Hu].
  destruct (decide (j = i)) as [->|], (decide (k = i)) as [->|]; [done|..];
    rewrite ?list_lookup_insert_eq in Hj by done; rewrite ?list_lookup_insert_eq in Hk by done;
    rewrite ?list_lookup_insert_ne in Hj by done; rewrite ?list_lookup_insert_ne in Hk by done; simplify_eq.
  - symmetry. by eapply (Hnew k f').
  - by eapply (Hnew j f).
  - by eapply (Hu j k f f').
Qed.

(** ** Looking for an entry *)

Definition is_stable (e : etharp_entry) : Prop := ge_stable (state e) = true.
Definition waiting (e : etharp_entry) : Prop := state e = ETHARP_STATE_PENDING ∧ q e ≠ None.
Definition not_waiting (e : etharp_entry) : Prop := state e = ETHARP_STATE_PENDING ∧ q e = None.

(** [k] is an entry of [es] that satisfies [P] and is at least as old as the
    others that do; ARP_TABLE_SIZE when none does. *)
Definition oldest (P : etharp_entry → Prop) (es : list etharp_entry) (k age : Z) : Prop :=
  (k = ARP_TABLE_SIZE ∧ age = 0 ∧ Forall (λ e, ¬ P e) es) ∨
  (0 ≤ k ∧ ∃ e, es !! Z.to_nat k = Some e ∧ P e ∧ ctime e = age ∧ Forall (λ e', P e' → ctime e' ≤ age) es).

Lemma oldest_skip P es k age e : oldest P es k age → (P e → ctime e ≤ age ∧ k ≠ ARP_TABLE_SIZE) → oldest P (es ++ [e]) k age.
Proof.
  intros [(-> & -> & Hn)|(Hk & e' & Hi & HP & Ha & Hall)] He.
  - left. split_and!; [done|done|]. apply Forall_app_2; [done|]. constructor; [|done]. intros Hp. by destruct (He Hp).
  - right. split; [done|]. exists e'. split; [by apply lookup_app_l_Some|]. split_and!; [done|done|].
    apply Forall_app_2; [done|]. constructor; [|done]. intros Hp. by destruct (He Hp).
Qed.

Lemma oldest_take P es k age e : oldest P es k age → P e → age ≤ ctime e → oldest P (es ++ [e]) (zlen es) (ctime e).
Proof.
  intros Ho HP Ha. right. split; [apply zlen_nonneg|]. exists e. unfold zlen. rewrite Nat2Z.id.
  split; [by rewrite lookup_app_r, Nat.sub_diag by done|]. split_and!; [done|done|]. apply Forall_app_2; [|by constructor].
  destruct Ho as [(_ & _ & Hn)|(_ & e' & _ & _ & _ & Hall)].
  - eapply Forall_impl; [exact Hn|]. intros x Hx Hp. by destruct Hx.
  - eapply Forall_impl; [exact Hall|]. intros x Hx Hp. specialize (Hx Hp). lia.
Qed.

(** One more entry that is not recorded although older is not possible: ages only
    grow when an entry is recorded. *)
Lemma oldest_step P es k age e : oldest P es k age → P e → 0 ≤ ctime e → zlen es < ARP_TABLE_SIZE →
  oldest P (es ++ [e]) (if age <=? ctime e then zlen es else k) (if age <=? ctime e then ctime e else age).
Proof.
  intros Ho HP Hc Hl. destruct (age <=? ctime e) eqn:E; breflect; [by eapply oldest_take|].
  apply oldest_skip; [done|]. intros _. split; [lia|]. destruct Ho as [(_ & -> & _)|(Hk & e' & Hi & _)]; [lia|].
  apply lookup_lt_Some in Hi. unfold zlen, ARP_TABLE_SIZE in *. lia.
Qed.

Lemma oldest_other P es k age e : oldest P es k age → ¬ P e → oldest P (es ++ [e]) k age.
Proof. intros Ho HP. by apply oldest_skip. Qed.

(** The first empty entry. *)
Definition first_empty (es : list etharp_entry) (k : Z) : Prop :=
  (k = ARP_TABLE_SIZE ∧ Forall nonempty es) ∨
  (0 ≤ k ∧ ∃ e, es !! Z.to_nat k = Some e ∧ state e = ETHARP_STATE_EMPTY ∧ Forall nonempty (take (Z.to_nat k) es)).

Record swept (es : list etharp_entry) (c : candidates) : Prop := Swept {
  swept_empty : first_empty es (empty c);
  swept_stable : oldest is_stable es (old_stable c) (age_stable c);
  swept_pending : oldest not_waiting es (old_pending c) (age_pending c);
  swept_queue : oldest waiting es (old_queue c) (age_queue c) }.

Lemma swept_nil : swept [] (Candidates ARP_TABLE_SIZE ARP_TABLE_SIZE ARP_TABLE_SIZE ARP_TABLE_SIZE 0 0 0).
Proof. constructor; left; by repeat split. Qed.

Lemma is_state_spec a b : is_state a b = bool_decide (a = b).
Proof. by destruct a, b. Qed.

Lemma state_cases s : s = ETHARP_STATE_EMPTY ∨ s = ETHARP_STATE_PENDING ∨ (ge_stable s = true ∧ s ≠ ETHARP_STATE_EMPTY ∧ s ≠ ETHARP_STATE_PENDING).
Proof. destruct s; naive_solver. Qed.

Lemma first_empty_other es k e : first_empty es k → nonempty e → first_empty (es ++ [e]) k.
Proof.
  intros [(-> & Hn)|(Hk & e' & Hi & He & Hf)] Hne.
  - left. split; [done|]. apply Forall_app_2; [done|by constructor].
  - right. split; [done|]. exists e'. split; [by apply lookup_app_l_Some|]. split; [done|].
    rewrite take_app_le; [done|]. apply lookup_lt_Some in Hi. lia.
Qed.

(** An entry in use that does not match. *)
Lemma swept_remember es c e : swept es c → nonempty e → 0 ≤ ctime e → zlen es < ARP_TABLE_SIZE →
  swept (es ++ [e]) (remember (zlen es) e c).
Proof.
  intros [Hem Hst Hpe Hqu] Hne Hc Hl. unfold remember. rewrite is_state_spec.
  destruct (state_cases (state e)) as [Hs|[Hs|(Hs & _ & Hs')]]; [done|..].
  - rewrite bool_decide_eq_true_2 by done.
    assert (Hnst : ¬ is_stable e) by (unfold is_stable; by rewrite Hs).
    destruct (q e) as [p|] eqn:Eq.
    + assert (Hw : waiting e) by (split; [done|by rewrite Eq]). assert (Hnw : ¬ not_waiting e) by (intros [_ ?]; congruence).
      pose proof (oldest_step _ _ _ _ _ Hqu Hw Hc Hl) as Ho. destruct (age_queue c <=? ctime e);
        constructor; cbn [empty old_stable age_stable old_pending age_pending old_queue age_queue];
        auto using first_empty_other, oldest_other.
    + assert (Hw : ¬ waiting e) by (intros [_ ?]; congruence). assert (Hnw : not_waiting e) by done.
      pose proof (oldest_step _ _ _ _ _ Hpe Hnw Hc Hl) as Ho. destruct (age_pending c <=? ctime e);
        constructor; cbn [empty old_stable age_stable old_pending age_pending old_queue age_queue];
        auto using first_empty_other, oldest_other.
  - rewrite bool_decide_eq_false_2 by done. rewrite Hs.
    assert (Hw : ¬ waiting e) by (by intros [? _]). assert (Hnw : ¬ not_waiting e) by (by intros [? _]).
    pose proof (oldest_step _ _ _ _ _ Hst Hs Hc Hl) as Ho. destruct (age_stable c <=? ctime e);
      constructor; cbn [empty old_stable age_stable old_pending age_pending old_queue age_queue];
      auto using first_empty_other, oldest_other.
Qed.

(** An empty entry, the first one or not. *)
Lemma swept_empty_entry es c e : swept es c → state e = ETHARP_STATE_EMPTY → zlen es < ARP_TABLE_SIZE →
  swept (es ++ [e]) (if empty c =? ARP_TABLE_SIZE
    then Candidates (old_pending c) (old_stable c) (zlen es) (old_queue c) (age_queue c) (age_pending c) (age_stable c) else c).
Proof.
  intros [Hem Hst Hpe Hqu] Hs Hl.
  assert (¬ is_stable e) by (unfold is_stable; by rewrite Hs). assert (¬ waiting e) by (intros [? _]; congruence).
  assert (¬ not_waiting e) by (intros [? _]; congruence).
  destruct (empty c =? ARP_TABLE_SIZE) eqn:E; breflect; constructor;
    cbn [empty old_stable age_stable old_pending age_pending old_queue age_queue]; auto using oldest_other.
  - right. split; [apply zlen_nonneg|]. exists e. unfold zlen. rewrite Nat2Z.id.
    rewrite lookup_app_r, Nat.sub_diag by done. split; [done|]. split; [done|]. rewrite take_app_length.
    destruct Hem as [[_ Hn]|(Hk & e' & Hi & _)]; [done|].
    apply lookup_lt_Some in Hi. unfold zlen, ARP_TABLE_SIZE in *. lia.
  - destruct Hem as [[? _]|(Hk & e' & Hi & He & Hf)]; [done|]. right. split; [done|]. exists e'.
    split; [by apply lookup_app_l_Some|]. split; [done|]. rewrite take_app_le; [done|]. apply lookup_lt_Some in Hi. lia.
Qed.

Lemma find_sweep_ok ip nif : ∀ es pre c, swept pre c → Forall (λ e, nonempty e → 0 ≤ ctime e) es →
  zlen pre + zlen es ≤ ARP_TABLE_SIZE →
  ∃ r, find_sweep ip nif es (zlen pre) c = Ok r ∧
    match r with
    | inl i => 0 ≤ i ∧ ∃ e, (pre ++ es) !! Z.to_nat i = Some e ∧ nonempty e ∧ matches ip nif e = true
    | inr c' => swept (pre ++ es) c' ∧ Forall (λ e, nonempty e → matches ip nif e = false) es
    end.
Proof.
  induction es as [|e es IH]; intros pre c Hsw Hct Hl.
  { eexists. split; [done|]. by rewrite app_nil_r. }
  apply Forall_cons in Hct as [Hce Hct]. rewrite zlen_cons in Hl. pose proof (zlen_nonneg es).
  assert (Hpre : zlen (pre ++ [e]) = zlen pre + 1) by (rewrite zlen_app; done).
  assert (Happ : pre ++ e :: es = (pre ++ [e]) ++ es) by (by rewrite <-app_assoc).
  cbn [find_sweep]. rewrite !is_state_spec.
  assert (Hgo : ∀ c', swept (pre ++ [e]) c' → (nonempty e → matches ip nif e = false) →
    ∃ r, find_sweep ip nif es (zlen pre + 1) c' = Ok r ∧
    match r with
    | inl i => 0 ≤ i ∧ ∃ e0, (pre ++ e :: es) !! Z.to_nat i = Some e0 ∧ nonempty e0 ∧ matches ip nif e0 = true
    | inr c'' => swept (pre ++ e :: es) c'' ∧ Forall (λ e, nonempty e → matches ip nif e = false) (e :: es)
    end).
  { intros c' Hsw' Hm. destruct (IH (pre ++ [e]) c' Hsw' Hct) as (r & Hr & HP); [lia|]. rewrite Hpre in Hr.
    exists r. split; [done|]. rewrite Happ. destruct r; [done|]. destruct HP as [? ?]. split; [done|]. by constructor. }
  destruct (state_cases (state e)) as [Hs|Hs'].
  - rewrite (bool_decide_eq_true_2 (state e = ETHARP_STATE_EMPTY)) by done. rewrite andb_true_r. cbn [negb].
    pose proof (swept_empty_entry pre c e Hsw Hs ltac:(lia)) as Hsw'.
    destruct (empty c =? ARP_TABLE_SIZE); apply Hgo; (done || by intros []).
  - assert (Hne : nonempty e) by (unfold nonempty; by destruct Hs' as [->|(_ & ? & _)]).
    rewrite (bool_decide_eq_false_2 (state e = ETHARP_STATE_EMPTY)) by done. rewrite andb_false_r. cbn [negb].
    replace (bool_decide (state e = ETHARP_STATE_PENDING) || ge_stable (state e)) with true.
    2:{ symmetry. destruct Hs' as [->|(-> & _)]; [done|by rewrite orb_true_r]. }
    cbn [LWIP_ASSERT mbind res_bind]. destruct (matches ip nif e) eqn:Em.
    + eexists. split; [done|]. split; [apply zlen_nonneg|]. exists e. unfold zlen. rewrite Nat2Z.id.
      by rewrite lookup_app_r, Nat.sub_diag by done.
    + apply Hgo; [|done]. apply swept_remember; [done|done|by apply Hce|lia].
Qed.

(** ** The policy of etharp_find_entry *)

Section laws.
Context {W : Type} `{PacketsLaws W}.
Implicit Types (a : astate W) (I : gset Z) (X : gmultiset Z).

(** The cache is well formed and holds one reference for each packet that waits;
    its callers hold the references [X]. *)
Definition arp_ok I X a : Prop :=
  table_ok I (arp_table a) ∧ 0 ≤ etharp_cached_entry a < ARP_TABLE_SIZE ∧ own I (queued (arp_table a) ⊎ X) (world a).

Lemma entry_at_ok I a i : table_ok I (arp_table a) → 0 ≤ i < ARP_TABLE_SIZE →
  ∃ e, entry_at i a = Ok e ∧ arp_table a !! Z.to_nat i = Some e ∧ entry_ok I e.
Proof.
  intros (Hl & Hf & _) Hi. destruct (lookup_lt_is_Some_2 (arp_table a) (Z.to_nat i)) as [e He].
  { rewrite Hl. unfold ARP_TABLE_SIZE in *. lia. }
  exists e. unfold entry_at. replace (0 <=? i) with true by lia. rewrite He. split; [done|]. split; [done|].
  by apply (Forall_lookup_1 _ _ _ _ Hf He).
Qed.

Lemma entry_at_lookup a i e : 0 ≤ i → arp_table a !! Z.to_nat i = Some e → entry_at i a = Ok e.
Proof. intros Hi He. unfold entry_at. replace (0 <=? i) with true by lia. by rewrite He. Qed.

Lemma entry_at_set a i e : 0 ≤ i → (Z.to_nat i < length (arp_table a))%nat → entry_at i (set_entry i e a) = Ok e.
Proof. intros Hi Hl. apply entry_at_lookup; [done|]. by apply list_lookup_insert_eq. Qed.

(** An entry as it is freed. *)
Definition freed_entry (e : etharp_entry) : etharp_entry := with_state ETHARP_STATE_EMPTY (with_q None e).

Lemma etharp_free_entry_ok I X a i e : own I (queued (arp_table a) ⊎ X) (world a) → 0 ≤ i →
  arp_table a !! Z.to_nat i = Some e →
  ∃ w', etharp_free_entry i a = Ok (AState (<[Z.to_nat i := freed_entry e]> (arp_table a)) (etharp_cached_entry a) w') ∧
    own I (queued (<[Z.to_nat i := freed_entry e]> (arp_table a)) ⊎ X) w'.
Proof.
  intros Hown Hi He. pose proof (lookup_lt_Some _ _ _ He) as Hlt.
  destruct (queued_split _ _ _ He) as (R & HR & Hins). rewrite Hins. cbn [freed_entry with_state with_q q oref].
  unfold etharp_free_entry. rewrite (entry_at_lookup a i e) by done. cbn [mbind res_bind].
  rewrite HR in Hown. destruct (q e) as [p|] eqn:Eq; cbn [oref] in Hown.
  - replace ({[+ p +]} ⊎ R ⊎ X) with ({[+ p +]} ⊎ (R ⊎ X)) in Hown by multiset_solver.
    destruct (own_free _ _ _ _ Hown) as (w' & -> & Hw'). cbn [mbind res_bind].
    rewrite entry_at_set by done. cbn [mbind res_bind]. exists w'. split.
    + unfold set_entry, set_world. simpl. by rewrite list_insert_insert_eq.
    + by replace (∅ ⊎ R ⊎ X) with (R ⊎ X) by multiset_solver.
  - cbn [mbind res_bind]. rewrite (entry_at_lookup a i e) by done. cbn [mbind res_bind]. exists (world a). split.
    + unfold set_entry. do 3 f_equal. unfold freed_entry, with_q. rewrite <-Eq. by destruct e.
    + by replace (∅ ⊎ R ⊎ X) with (∅ ⊎ R ⊎ X) by done.
Qed.

(** The entry a new address gets: the first empty one; when there is none the
    oldest stable one, else the oldest pending one without a packet, else the
    oldest pending one. *)
Definition recycled (t : list etharp_entry) (k : nat) (e : etharp_entry) : Prop :=
  t !! k = Some e ∧
  ((state e = ETHARP_STATE_EMPTY ∧ Forall nonempty (take k t)) ∨
   (Forall nonempty t ∧ is_stable e ∧ Forall (λ e', is_stable e' → ctime e' ≤ ctime e) t) ∨
   (Forall nonempty t ∧ Forall (λ e', ¬ is_stable e') t ∧ not_waiting e ∧ Forall (λ e', not_waiting e' → ctime e' ≤ ctime e) t) ∨
   (Forall waiting t ∧ Forall (λ e', ctime e' ≤ ctime e) t)).

Definition no_match (t : list etharp_entry) (ip nif : Z) : Prop :=
  ∀ j f, t !! j = Some f → nonempty f → ¬ (ipaddr f = ip ∧ e_netif f = nif).

Definition fresh_entry (ip nif : Z) (e : etharp_entry) : etharp_entry :=
  Entry None ip nif (ethaddr e) 0 ETHARP_STATE_EMPTY.

Lemma nonempty_kinds e : nonempty e → is_stable e ∨ not_waiting e ∨ waiting e.
Proof.
  intros Hne. destruct (state_cases (state e)) as [?|[Hs|(Hs & _)]]; [done| |by left].
  right. destruct (q e) eqn:Eq; [right|left]; split; try done; congruence.
Qed.

(** The victim when no entry is empty. *)
Lemma choose_victim_ok I a c : table_ok I (arp_table a) → swept (arp_table a) c → Forall nonempty (arp_table a) →
  ∃ i e, choose_victim c a = Ok (Some i) ∧ 0 ≤ i < ARP_TABLE_SIZE ∧ recycled (arp_table a) (Z.to_nat i) e.
Proof.
  intros (Hl & Hok & Hu) [_ Hst Hpe Hqu] Hne. unfold choose_victim.
  assert (Hr : ∀ k e, 0 ≤ k → arp_table a !! Z.to_nat k = Some e → k < ARP_TABLE_SIZE).
  { intros k e Hk Hi%lookup_lt_Some. rewrite Hl in Hi. lia. }
  destruct Hst as [(-> & _ & Hns)|(Hk & e & Hi & HP & Ha & Hall)].
  2:{ pose proof (Hr _ _ Hk Hi). replace (old_stable c <? ARP_TABLE_SIZE) with true by lia.
      rewrite (entry_at_lookup a _ e) by done. cbn [mbind res_bind].
      assert (Hq : q e = None).
      { pose proof (Forall_lookup_1 _ _ _ _ Hok Hi) as He. unfold entry_ok in He. unfold is_stable in HP.
        destruct (state e); try discriminate HP; by destruct He as (_ & ? & _). }
      rewrite bool_decide_eq_true_2 by done. cbn [LWIP_ASSERT mbind res_bind].
      eexists _, e. split; [done|]. split; [lia|]. split; [done|]. right. left. split_and!; [done|done|]. by rewrite Ha. }
  rewrite Z.ltb_irrefl. destruct Hpe as [(-> & _ & Hnp)|(Hk & e & Hi & HP & Ha & Hall)].
  2:{ pose proof (Hr _ _ Hk Hi). replace (old_pending c <? ARP_TABLE_SIZE) with true by lia.
      eexists _, e. split; [done|]. split; [lia|]. split; [done|]. right. right. left. split; [done|]. split; [done|]. split; [done|]. by rewrite Ha. }
  rewrite Z.ltb_irrefl.
  assert (Hw : Forall waiting (arp_table a)).
  { apply Forall_lookup_2. intros j f Hj. destruct (nonempty_kinds f) as [?|[?|?]]; [by apply (Forall_lookup_1 _ _ _ _ Hne Hj)| | |done].
    - by destruct (Forall_lookup_1 _ _ _ _ Hns Hj).
    - by destruct (Forall_lookup_1 _ _ _ _ Hnp Hj). }
  destruct Hqu as [(_ & _ & Hnq)|(Hk & e & Hi & HP & Ha & Hall)].
  { exfalso. destruct (arp_table a) as [|f t]; [done|]. apply Forall_cons in Hw as [? _]. by apply Forall_cons in Hnq as [? _]. }
  pose proof (Hr _ _ Hk Hi). replace (old_queue c <? ARP_TABLE_SIZE) with true by lia.
  eexists _, e. split; [done|]. split; [lia|]. split; [done|]. do 3 right. split; [done|].
  apply Forall_lookup_2. intros j f Hj. rewrite Ha. apply (Forall_lookup_1 _ _ _ _ Hall Hj). by apply (Forall_lookup_1 _ _ _ _ Hw Hj).
Qed.

Lemma table_ok_insert I t i e : table_ok I t → entry_ok I e → unique (<[i := e]> t) → table_ok I (<[i := e]> t).
Proof. intros (Hl & Hf & _) He Hu. split; [by rewrite length_insert|]. split; [by apply Forall_insert|done]. Qed.

(** An empty entry may be stored anywhere; the reference of the packet there must
    be gone. *)
Lemma arp_ok_set_empty I X a i e e' : table_ok I (arp_table a) → 0 ≤ etharp_cached_entry a < ARP_TABLE_SIZE →
  arp_table a !! Z.to_nat i = Some e → state e' = ETHARP_STATE_EMPTY → q e' = None → q e = None →
  own I (queued (arp_table a) ⊎ X) (world a) → arp_ok I X (set_entry i e' a).
Proof.
  intros Ht Hc Hi Hs Hq Hq' Hown. split; [|split; [done|]].
  - apply table_ok_insert; [done|unfold entry_ok; by rewrite Hs|]. apply unique_insert_empty; [apply Ht|]. intros Hn. by apply Hn.
  - simpl. destruct (queued_split _ _ _ Hi) as (R & HR & Hins). rewrite Hins, Hq. by rewrite HR, Hq' in Hown.
Qed.

Lemma find_create_ok I X a ip nif i e : arp_ok I X a → 0 ≤ i < ARP_TABLE_SIZE → arp_table a !! Z.to_nat i = Some e →
  state e = ETHARP_STATE_EMPTY →
  find_create (Some ip) (Some nif) i a = Ok (i, set_entry i (fresh_entry ip nif e) a) ∧
  arp_ok I X (set_entry i (fresh_entry ip nif e) a).
Proof.
  intros (Ht & Hc & Hown) Hi He Hs. unfold find_create. replace (i <? ARP_TABLE_SIZE) with true by lia. cbn [LWIP_ASSERT mbind res_bind].
  rewrite (entry_at_lookup a i e) by (done || lia). cbn [mbind res_bind]. rewrite is_state_spec, bool_decide_eq_true_2 by done.
  cbn [LWIP_ASSERT mbind res_bind default from_option id].
  assert (Hq : q e = None).
  { destruct Ht as (_ & Hf & _). pose proof (Forall_lookup_1 _ _ _ _ Hf He) as Hok. unfold entry_ok in Hok. by rewrite Hs in Hok. }
  split.
  - unfold fresh_entry, with_netif, with_ctime, with_ipaddr. simpl. by rewrite Hq, Hs.
  - by eapply arp_ok_set_empty.
Qed.

Lemma matches_spec ip nif e : matches (Some ip) (Some nif) e = true ↔ ipaddr e = ip ∧ e_netif e = nif.
Proof. simpl. rewrite andb_true_iff, !Z.eqb_eq. naive_solver. Qed.

(** What etharp_find_entry returns: the entry in use for the address; else, unless
    only asked to search or not allowed to recycle, a fresh entry in the place the
    policy chooses. *)
Lemma etharp_find_entry_ok I X a ip flags nif : arp_ok I X a →
  let t := arp_table a in
  let find_only := negb (Z.land flags ETHARP_FLAG_FIND_ONLY =? 0) in
  let try_hard := negb (Z.land flags ETHARP_FLAG_TRY_HARD =? 0) in
  ∃ r a', etharp_find_entry (Some ip) flags (Some nif) a = Ok (r, a') ∧ arp_ok I X a' ∧
    ((0 ≤ r < ARP_TABLE_SIZE ∧ a' = a ∧ ∃ e, t !! Z.to_nat r = Some e ∧ nonempty e ∧ ipaddr e = ip ∧ e_netif e = nif) ∨
     (no_match t ip nif ∧ r = ERR_MEM ∧ a' = a ∧ (find_only = true ∨ (Forall nonempty t ∧ try_hard = false))) ∨
     (no_match t ip nif ∧ find_only = false ∧ 0 ≤ r < ARP_TABLE_SIZE ∧ ∃ e, recycled t (Z.to_nat r) e ∧
        (try_hard = false → state e = ETHARP_STATE_EMPTY) ∧
        arp_table a' = <[Z.to_nat r := fresh_entry ip nif e]> t ∧ etharp_cached_entry a' = etharp_cached_entry a)).
Proof.
  intros Hok t find_only try_hard. pose proof Hok as (Ht & Hc & Hown). pose proof Ht as (Hl & Hf & _).
  unfold etharp_find_entry. fold t. rewrite take_ge by (unfold t; lia).
  destruct (find_sweep_ok (Some ip) (Some nif) t [] _ swept_nil) as (r & Hr & Hsw).
  { eapply Forall_impl; [exact Hf|]. intros e He Hne. unfold entry_ok in He. unfold nonempty in Hne. destruct (state e); try done; lia. }
  { unfold zlen. simpl. unfold t. rewrite Hl. done. }
  change (zlen (@nil etharp_entry)) with 0 in Hr. rewrite Hr. cbn [mbind res_bind app] in *. destruct r as [i|c].
  { destruct Hsw as (Hi & e & He & Hne & Hm). apply matches_spec in Hm. exists i, a. split; [done|]. split; [done|]. left.
    split; [|split; [done|by exists e]]. apply lookup_lt_Some in He. unfold t in He. rewrite Hl in He. lia. }
  destruct Hsw as [Hsw Hnm].
  assert (Hno : no_match t ip nif).
  { intros j f Hj Hne Hk. apply matches_spec in Hk. pose proof (Forall_lookup_1 _ _ _ _ Hnm Hj Hne). simpl in *. congruence. }
  fold find_only.
  replace (Z.land flags ETHARP_FLAG_TRY_HARD =? 0) with (negb try_hard) by (unfold try_hard; by rewrite negb_involutive).
  destruct (swept_empty _ _ Hsw) as [(Hec & Hall)|(Hk & e & Hi & He & Htk)].
  - rewrite Hec. change (ARP_TABLE_SIZE =? ARP_TABLE_SIZE) with true. change (ARP_TABLE_SIZE <? ARP_TABLE_SIZE) with false. cbn [andb].
    destruct (find_only || negb try_hard) eqn:Efl.
    { exists ERR_MEM, a. split; [done|]. split; [done|]. right. left. split; [done|]. split; [done|]. split; [done|].
      apply orb_true_iff in Efl as [?|Hn]; [by left|right]. split; [done|]. by apply negb_true_iff. }
    apply orb_false_iff in Efl as [Efo Eth]. destruct (choose_victim_ok I a c Ht Hsw Hall) as (i & e & -> & Hi & Hrec).
    cbn [mbind res_bind]. replace (i <? ARP_TABLE_SIZE) with true by lia. cbn [LWIP_ASSERT mbind res_bind].
    pose proof (proj1 Hrec) as He. destruct (etharp_free_entry_ok I X a i e Hown) as (w' & -> & Hw'); [lia|done|]. cbn [mbind res_bind].
    pose proof (lookup_lt_Some _ _ _ He) as Hlt.
    assert (Hok' : arp_ok I X (AState (<[Z.to_nat i:=freed_entry e]> (arp_table a)) (etharp_cached_entry a) w')).
    { split; [|split; [done|exact Hw']]. apply table_ok_insert; [done|done|]. apply unique_insert_empty; [apply Ht|]. intros Hn. by apply Hn. }
    destruct (find_create_ok I X _ ip nif i (freed_entry e) Hok' Hi) as [-> Hfc]; [by apply list_lookup_insert_eq|done|].
    eexists _, _. split; [done|]. split; [exact Hfc|]. right. right. split; [done|]. split; [done|]. split; [done|]. exists e.
    split; [done|]. split; [intros Hth; rewrite Hth in Eth; done|]. split; [|done]. simpl. by rewrite list_insert_insert_eq.
  - assert (Hlt : empty c < ARP_TABLE_SIZE) by (apply lookup_lt_Some in Hi; unfold t in Hi; rewrite Hl in Hi; lia).
    replace (empty c =? ARP_TABLE_SIZE) with false by lia. replace (empty c <? ARP_TABLE_SIZE) with true by lia.
    rewrite andb_false_l, orb_false_r. destruct find_only eqn:Efo.
    { exists ERR_MEM, a. split; [done|]. split; [done|]. right. left. split_and!; [done..|by left]. }
    destruct (find_create_ok I X a ip nif (empty c) e Hok ltac:(lia) Hi He) as [-> Hfc].
    eexists _, _. split; [done|]. split; [exact Hfc|]. right. right. split; [done|]. split; [done|]. split; [lia|]. exists e.
    split; [split; [done|by left]|]. split; [done|]. done.
Qed.

(** ** Sending *)

Lemma etharp_raw_ok I X i es ed hs ips hd ipd op w : own I X w → i ∈ I →
  ∃ r w', etharp_raw i es ed hs ips hd ipd op w = Ok (r, w') ∧ own I X w'.
Proof.
  intros Hown Hi. unfold etharp_raw. destruct (own_alloc _ _ _ Hown) as (o & w1 & -> & Hw1). cbn [mbind res_bind].
  destruct o as [p|]; [|by eexists _, _]. destruct Hw1 as [Hw1 Hlen]. rewrite Hlen. cbn [mbind res_bind].
  rewrite Z.leb_refl. cbn [LWIP_ASSERT mbind res_bind].
  destruct (own_netif _ _ _ _ Hw1 Hi) as (n & -> & Hn). cbn [mbind res_bind]. rewrite Hn, Z.eqb_refl. cbn [LWIP_ASSERT mbind res_bind].
  destruct (own_put_hdr _ _ _ (EtharpHdr (PP_HTONS LWIP_IANA_HWTYPE_ETHERNET) (PP_HTONS ETHTYPE_IP) ETH_HWADDR_LEN 4
    (lwip_htons op) hs ips hd ipd) _ _ Hw1 Hlen ltac:(done)) as (w2 & -> & Hw2).
  cbn [mbind res_bind].
  assert (∀ d, ∃ r w3, ethernet_output i p es d ETHTYPE_ARP w2 = Ok (r, w3) ∧ own I ({[+ p +]} ⊎ X) w3) as Hout
    by (intros d; by apply own_output).
  destruct (ip4_addr_islinklocal ips); [destruct (Hout ethbroadcast) as (r & w3 & -> & Hw3)|destruct (Hout ed) as (r & w3 & -> & Hw3)];
    cbn [mbind res_bind]; destruct (own_free _ _ _ _ Hw3) as (w4 & -> & Hw4); cbn [mbind res_bind]; by eexists _, _.
Qed.

Lemma etharp_request_dst_ok I X i ip d w : own I X w → i ∈ I →
  ∃ r w', etharp_request_dst i ip d w = Ok (r, w') ∧ own I X w'.
Proof.
  intros Hown Hi. unfold etharp_request_dst. destruct (own_netif _ _ _ _ Hown Hi) as (n & -> & _). cbn [mbind res_bind].
  by apply etharp_raw_ok.
Qed.

(** A call that only uses the rest of the stack keeps the invariant. *)
Lemma on_world_ok {B} I X a (f : W → res (B * W)) :
  arp_ok I X a → (own I (queued (arp_table a) ⊎ X) (world a) → ∃ r w', f (world a) = Ok (r, w') ∧ own I (queued (arp_table a) ⊎ X) w') →
  ∃ r w', on_world f a = Ok (r, set_world w' a) ∧ f (world a) = Ok (r, w') ∧ arp_ok I X (set_world w' a).
Proof.
  intros (Ht & Hc & Hown) Hf. destruct (Hf Hown) as (r & w' & Hr & Hw'). exists r, w'. unfold on_world. rewrite Hr.
  by split_and!.
Qed.

Lemma request_arp_ok I X a i ip d : arp_ok I X a → i ∈ I →
  ∃ r w', on_world (etharp_request_dst i ip d) a = Ok (r, set_world w' a) ∧ arp_ok I X (set_world w' a).
Proof.
  intros Hok Hi. destruct (on_world_ok I X a (etharp_request_dst i ip d) Hok) as (r & w' & Hr & _ & Hok').
  - intros Hown. by apply etharp_request_dst_ok.
  - by exists r, w'.
Qed.

(** The reference of one packet of the caller. *)
Lemma output_arp_ok I X a i p s d t : arp_ok I ({[+ p +]} ⊎ X) a → i ∈ I →
  ∃ r w', on_world (ethernet_output i p s d t) a = Ok (r, set_world w' a) ∧
    ethernet_output i p s d t (world a) = Ok (r, w') ∧ arp_ok I ({[+ p +]} ⊎ X) (set_world w' a).
Proof.
  intros Hok Hi. apply on_world_ok; [done|]. intros Hown.
  replace (queued (arp_table a) ⊎ ({[+ p +]} ⊎ X)) with ({[+ p +]} ⊎ (queued (arp_table a) ⊎ X)) in * by multiset_solver.
  by apply own_output.
Qed.

(** ** Ageing *)

(** What one tick does to an entry. *)
Definition aged (e : etharp_entry) : etharp_entry :=
  if bool_decide (state e = ETHARP_STATE_EMPTY) then e else
  let e := with_ctime (ctime e + 1) e in
  if (ARP_MAXAGE <=? ctime e) || (bool_decide (state e = ETHARP_STATE_PENDING) && (ARP_MAXPENDING <=? ctime e))
  then freed_entry e
  else match state e with
       | ETHARP_STATE_STABLE_REREQUESTING_1 => with_state ETHARP_STATE_STABLE_REREQUESTING_2 e
       | ETHARP_STATE_STABLE_REREQUESTING_2 => with_state ETHARP_STATE_STABLE e
       | _ => e
       end.

Lemma aged_ok I e : entry_ok I e → entry_ok I (aged e).
Proof.
  unfold aged, entry_ok. intros He. destruct (state e) eqn:Es; simpl; rewrite ?Es; [done|..];
    (destruct (ARP_MAXAGE <=? ctime e + 1) eqn:E1; simpl; [done|]);
    try (destruct (ARP_MAXPENDING <=? ctime e + 1) eqn:E2; simpl; [done|]); simpl; rewrite ?Es; breflect; naive_solver lia.
Qed.

Lemma aged_key e : nonempty (aged e) → nonempty e ∧ ipaddr (aged e) = ipaddr e ∧ e_netif (aged e) = e_netif e.
Proof.
  unfold aged, nonempty. case_bool_decide; [done|]. cbn zeta. destruct (_ || _); [done|].
  intros Hn. split; [done|]. simpl. by destruct (state e).
Qed.

Lemma unique_shrink t i e e' : unique t → t !! i = Some e → (nonempty e' → nonempty e ∧ ipaddr e' = ipaddr e ∧ e_netif e' = e_netif e) →
  unique (<[i := e']> t).
Proof.
  intros Hu Hi Hk. destruct (decide (state e' = ETHARP_STATE_EMPTY)) as [Hs|Hs].
  - apply unique_insert_empty; [done|]. intros Hn. by apply Hn.
  - destruct (Hk Hs) as (? & ? & ?). by eapply unique_insert_same.
Qed.

(** A slot may be overwritten by any well-formed entry with the same or no key,
    if the reference for its packet is taken care of. *)
Lemma arp_ok_set I X a i e e' w' : arp_ok I X a → arp_table a !! Z.to_nat i = Some e → entry_ok I e' →
  (nonempty e' → nonempty e ∧ ipaddr e' = ipaddr e ∧ e_netif e' = e_netif e) →
  own I (queued (<[Z.to_nat i := e']> (arp_table a)) ⊎ X) w' →
  arp_ok I X (AState (<[Z.to_nat i := e']> (arp_table a)) (etharp_cached_entry a) w').
Proof.
  intros (Ht & Hc & _) Hi He Hk Hown. split; [|by split]. apply table_ok_insert; [done|done|]. by eapply unique_shrink; [apply Ht|..].
Qed.

Lemma queued_same t (i : nat) e e' : t !! i = Some e → q e' = q e → queued (<[i := e']> t) = queued t.
Proof. intros Hi Hq. destruct (queued_split _ _ _ Hi) as (R & -> & ->). by rewrite Hq. Qed.

Lemma ctime_range I e : entry_ok I e → nonempty e → 0 ≤ ctime e < ARP_MAXAGE.
Proof. unfold entry_ok, nonempty, ARP_MAXAGE, ARP_MAXPENDING. destruct (state e); naive_solver lia. Qed.

Lemma etharp_tmr_entry_ok I X a i e : arp_ok I X a → 0 ≤ i → arp_table a !! Z.to_nat i = Some e →
  ∃ w', etharp_tmr_entry i a = Ok (AState (<[Z.to_nat i := aged e]> (arp_table a)) (etharp_cached_entry a) w') ∧
    arp_ok I X (AState (<[Z.to_nat i := aged e]> (arp_table a)) (etharp_cached_entry a) w').
Proof.
  intros Hok Hi He. pose proof Hok as ((Hl & Hf & Hu) & Hc & Hown). pose proof (Forall_lookup_1 _ _ _ _ Hf He) as Heok.
  pose proof (lookup_lt_Some _ _ _ He) as Hlt. pose proof (aged_ok I e Heok) as Haok. pose proof (aged_key e) as Hkey.
  unfold etharp_tmr_entry. rewrite (entry_at_lookup a i e) by done. cbn [mbind res_bind]. rewrite !is_state_spec.
  unfold aged in *. case_bool_decide as Hs; cbn [negb].
  { exists (world a). rewrite list_insert_id by done. by destruct a. }
  pose proof (ctime_range I e Heok Hs) as Hct. rewrite u16_id by (unfold ARP_MAXAGE in Hct; ulia).
  set (e1 := with_ctime (ctime e + 1) e) in *. cbn zeta in *.
  assert (Hq1 : q e1 = q e) by done. change (state e1) with (state e) in *.
  (* the entry is stored with a new state and the packet stays *)
  assert (Hstore : ∀ e2, entry_ok I e2 → q e2 = q e → (nonempty e2 → ipaddr e2 = ipaddr e ∧ e_netif e2 = e_netif e) →
    arp_ok I X (AState (<[Z.to_nat i := e2]> (arp_table a)) (etharp_cached_entry a) (world a))).
  { intros e2 He2 Hq2 Hk2. apply (arp_ok_set I X a i e); [done|done|done| |by rewrite (queued_same _ _ e)].
    intros Hn. split; [done|by apply Hk2]. }
  destruct ((ARP_MAXAGE <=? ctime e1) || (bool_decide (state e = ETHARP_STATE_PENDING) && (ARP_MAXPENDING <=? ctime e1))) eqn:Eexp.
  { assert (Hown1 : own I (queued (arp_table (set_entry i e1 a)) ⊎ X) (world (set_entry i e1 a))) by (simpl; by rewrite (queued_same _ _ e)).
    destruct (etharp_free_entry_ok I X (set_entry i e1 a) i e1 Hown1 Hi) as (w' & -> & Hw'); [by apply list_lookup_insert_eq|].
    simpl in Hw' |- *. rewrite list_insert_insert_eq in Hw' |- *. exists w'. split; [done|].
    apply (arp_ok_set I X a i e); try done. }
  destruct (state e) eqn:Est; [done|..]; cbn [is_state state_num Z.eqb bool_decide decide_rel].
  - (* pending: ask again *)
    assert (Hok1 : arp_ok I X (set_entry i e1 a)) by (apply Hstore; [done|done|done]).
    unfold entry_ok in Heok. rewrite Est in Heok. destruct Heok as (_ & HI & _).
    destruct (request_arp_ok I X (set_entry i e1 a) (e_netif e1) (ipaddr e1) ethbroadcast Hok1 HI) as (r & w' & Hr & Hok').
    change (etharp_request (e_netif e1) (ipaddr e1)) with (etharp_request_dst (e_netif e1) (ipaddr e1) ethbroadcast). rewrite !bool_decide_eq_false_2 by done.
    rewrite bool_decide_eq_true_2 by done. rewrite Hr. cbn [mbind res_bind]. by exists w'.
  - rewrite !bool_decide_eq_false_2 by done. exists (world a). split; [done|]. by apply Hstore.
  - rewrite bool_decide_eq_true_2 by done. exists (world a). unfold set_entry. simpl. rewrite list_insert_insert_eq. split; [done|].
    by apply Hstore.
  - rewrite bool_decide_eq_false_2, bool_decide_eq_true_2 by done. exists (world a). unfold set_entry. simpl. rewrite list_insert_insert_eq. split; [done|].
    by apply Hstore.
Qed.

(** A loop over the table that changes entry by entry. *)
Lemma etharp_tmr_loop_ok I X : ∀ es pre a, arp_ok I X a → arp_table a = pre ++ es →
  ∃ w', etharp_tmr_loop (length es) (zlen pre) a = Ok (AState (pre ++ map aged es) (etharp_cached_entry a) w') ∧
    arp_ok I X (AState (pre ++ map aged es) (etharp_cached_entry a) w').
Proof.
  induction es as [|e es IH]; intros pre a Hok Ht.
  { exists (world a). simpl. rewrite <-Ht. by destruct a. }
  assert (He : arp_table a !! Z.to_nat (zlen pre) = Some e).
  { unfold zlen. rewrite Nat2Z.id, Ht, lookup_app_r, Nat.sub_diag by done. done. }
  destruct (etharp_tmr_entry_ok I X a (zlen pre) e Hok (zlen_nonneg pre) He) as (w1 & Hr & Hok1).
  cbn [etharp_tmr_loop length map]. rewrite Hr. cbn [mbind res_bind].
  assert (Hins : <[Z.to_nat (zlen pre) := aged e]> (arp_table a) = (pre ++ [aged e]) ++ es).
  { unfold zlen. rewrite Nat2Z.id, Ht, insert_app_r_alt, Nat.sub_diag by done. by rewrite <-app_assoc. }
  rewrite Hins in *. destruct (IH (pre ++ [aged e]) _ Hok1 eq_refl) as (w' & Hr' & Hok').
  rewrite zlen_app in Hr'. change (zlen [aged e]) with 1 in Hr'. rewrite Hr'. exists w'. by rewrite <-app_assoc in *.
Qed.

Lemma etharp_tmr_ok I X a : arp_ok I X a →
  ∃ a', etharp_tmr a = Ok a' ∧ arp_ok I X a' ∧ arp_table a' = map aged (arp_table a) ∧
    etharp_cached_entry a' = etharp_cached_entry a.
Proof.
  intros Hok. destruct (etharp_tmr_loop_ok I X (arp_table a) [] a Hok eq_refl) as (w' & Hr & Hok').
  pose proof Hok as ((Hl & _) & _). unfold etharp_tmr. rewrite <-Hl. eexists. split; [exact Hr|]. by split_and!.
Qed.

(** ** Learning an address *)

Lemma find_entry_range I X a ip flags nif r a' : arp_ok I X a →
  etharp_find_entry (Some ip) flags (Some nif) a = Ok (r, a') →
  arp_ok I X a' ∧ (r = ERR_MEM ∨ (0 ≤ r < ARP_TABLE_SIZE ∧ ∃ e, arp_table a' !! Z.to_nat r = Some e ∧ ipaddr e = ip ∧ e_netif e = nif ∧
    (nonempty e ∨ (no_match (arp_table a') ip nif ∧ ctime e = 0)))).
Proof.
  intros Hok Hr. destruct (etharp_find_entry_ok I X a ip flags nif Hok) as (r' & a'' & Hr' & Hok' & Hcases).
  rewrite Hr in Hr'. injection Hr' as <- <-. split; [done|].
  destruct Hcases as [(H1 & -> & e & He & Hne & Hip & Hnif)|[(_ & -> & _)|(Hno & _ & H1 & e & Hrec & _ & Ht & _)]].
  - right. split; [done|]. exists e. naive_solver.
  - by left.
  - right. split; [done|]. exists (fresh_entry ip nif e). rewrite Ht. pose proof (lookup_lt_Some _ _ _ (proj1 Hrec)).
    split; [by apply list_lookup_insert_eq|]. split_and!; [done|done|]. right. split; [|done].
    intros j f Hj Hne. destruct (decide (j = Z.to_nat r)) as [->|Hjr].
    + rewrite list_lookup_insert_eq in Hj by done. injection Hj as <-. by destruct Hne.
    + rewrite list_lookup_insert_ne in Hj by done. by eapply Hno.
Qed.

(** Making the entry for a key current: any entry with that key may be stored in
    the slot that was found or created for it. *)
Lemma arp_ok_store I X a i e e' w' : arp_ok I X a → arp_table a !! Z.to_nat i = Some e → entry_ok I e' →
  ipaddr e' = ipaddr e → e_netif e' = e_netif e → (nonempty e ∨ no_match (arp_table a) (ipaddr e) (e_netif e)) →
  own I (queued (<[Z.to_nat i := e']> (arp_table a)) ⊎ X) w' →
  arp_ok I X (AState (<[Z.to_nat i := e']> (arp_table a)) (etharp_cached_entry a) w').
Proof.
  intros (Ht & Hc & _) Hi He Hip Hnif Hk Hown. split; [|by split]. apply table_ok_insert; [done|done|].
  destruct Hk as [Hne|Hno]; [by eapply unique_insert_same; [apply Ht|..]|].
  apply unique_insert_new; [apply Ht|]. intros j f Hj Hf Hip' Hnif'. destruct (Hno j f Hj Hf). split; congruence.
Qed.

(** The entry after an address was learnt. *)
Definition learnt (ip nif : Z) (eth : eth_addr) : etharp_entry := Entry None ip nif eth 0 ETHARP_STATE_STABLE.

Lemma etharp_update_arp_entry_ok I X a nif ip eth flags : arp_ok I X a → nif ∈ I →
  ∃ r a', etharp_update_arp_entry nif ip eth flags a = Ok (r, a') ∧ arp_ok I X a'.
Proof.
  intros Hok Hi. pose proof Hok as (_ & _ & Hown). unfold etharp_update_arp_entry.
  destruct (own_netif _ _ _ _ Hown Hi) as (n & -> & Hn). cbn [mbind res_bind]. rewrite Hn, Z.eqb_refl. cbn [LWIP_ASSERT mbind res_bind].
  destruct (ip4_addr_isany_val ip || ip4_addr_isbroadcast ip n || ip4_addr_ismulticast ip) eqn:Ebad; [by exists ERR_ARG, a|].
  apply orb_false_iff in Ebad as [[Hany _]%orb_false_iff Hmc].
  destruct (etharp_find_entry_ok I X a ip flags nif Hok) as (i & a1 & Hr & _). rewrite Hr. cbn [mbind res_bind].
  destruct (find_entry_range _ _ _ _ _ _ _ _ Hok Hr) as [Hok1 [->|(Hri & e & He & Hip & Hnif & Hk)]]; [by exists ERR_MEM, a1|].
  replace (i <? 0) with false by lia. rewrite (entry_at_lookup a1 i e) by (done || lia). cbn [mbind res_bind].
  pose proof (lookup_lt_Some _ _ _ He) as Hlt. pose proof Hok1 as (Ht1 & Hc1 & Hown1).
  assert (Hlearnt : entry_ok I (learnt ip nif eth)) by (unfold entry_ok, learnt, unicast; simpl; by split_and!).
  assert (Hfinal : ∀ w', own I (queued (<[Z.to_nat i := learnt ip nif eth]> (arp_table a1)) ⊎ X) w' →
    arp_ok I X (AState (<[Z.to_nat i := learnt ip nif eth]> (arp_table a1)) (etharp_cached_entry a1) w')).
  { intros w' Hw'. apply (arp_ok_store I X a1 i e); try done. subst ip nif. by destruct Hk as [?|[? _]]; [left|right]. }
  destruct (queued_split _ _ _ He) as (R & HR & Hins). rewrite Hins in Hfinal. cbn [learnt q oref] in Hfinal.
  rewrite HR in Hown1. cbn [q with_ctime with_ethaddr with_netif with_state]. destruct (q e) as [p|] eqn:Eq.
  - cbn [oref] in Hown1. replace ({[+ p +]} ⊎ R ⊎ X) with ({[+ p +]} ⊎ (∅ ⊎ R ⊎ X)) in Hown1 by multiset_solver.
    cbn [world set_entry]. destruct (own_netif _ _ _ _ Hown1 Hi) as (n1 & -> & _). cbn [mbind res_bind].
    destruct (own_output _ _ _ _ (hwaddr n1) eth ETHTYPE_IP _ Hown1 Hi) as (r & w2 & -> & Hw2). cbn [mbind res_bind].
    destruct (own_free _ _ _ _ Hw2) as (w3 & -> & Hw3). cbn [mbind res_bind].
    eexists _, _. split; [done|]. unfold set_world, set_entry. simpl. rewrite list_insert_insert_eq.
    unfold with_q, with_ctime, with_ethaddr, with_netif, with_state. simpl. rewrite Hip. by apply Hfinal.
  - eexists _, _. split; [done|]. unfold set_entry. unfold with_ctime, with_ethaddr, with_netif, with_state. simpl. rewrite Hip, Eq.
    by apply Hfinal.
Qed.

(** ** Removing the entries of an interface *)

Definition cleaned (nif : Z) (e : etharp_entry) : etharp_entry :=
  if negb (bool_decide (state e = ETHARP_STATE_EMPTY)) && (e_netif e =? nif) then freed_entry e else e.

Lemma etharp_cleanup_loop_ok I X nif : ∀ es pre a, arp_ok I X a → arp_table a = pre ++ es →
  ∃ w', etharp_cleanup_loop (length es) (zlen pre) nif a = Ok (AState (pre ++ map (cleaned nif) es) (etharp_cached_entry a) w') ∧
    arp_ok I X (AState (pre ++ map (cleaned nif) es) (etharp_cached_entry a) w').
Proof.
  induction es as [|e es IH]; intros pre a Hok Ht.
  { exists (world a). simpl. rewrite <-Ht. by destruct a. }
  assert (He : arp_table a !! Z.to_nat (zlen pre) = Some e).
  { unfold zlen. rewrite Nat2Z.id, Ht, lookup_app_r, Nat.sub_diag by done. done. }
  cbn [etharp_cleanup_loop length map]. rewrite (entry_at_lookup a _ e) by (done || apply zlen_nonneg). cbn [mbind res_bind].
  rewrite is_state_spec.
  assert (∃ w1, (if negb (bool_decide (state e = ETHARP_STATE_EMPTY)) && (e_netif e =? nif) then etharp_free_entry (zlen pre) a else Ok a) =
      Ok (AState ((pre ++ [cleaned nif e]) ++ es) (etharp_cached_entry a) w1) ∧
      arp_ok I X (AState ((pre ++ [cleaned nif e]) ++ es) (etharp_cached_entry a) w1)) as (w1 & -> & Hok1).
  { unfold cleaned. destruct (negb _ && _) eqn:E.
    - pose proof Hok as (_ & _ & Hown). destruct (etharp_free_entry_ok I X a (zlen pre) e Hown (zlen_nonneg pre) He) as (w1 & Hr & Hw1).
      assert (Hins : <[Z.to_nat (zlen pre) := freed_entry e]> (arp_table a) = (pre ++ [freed_entry e]) ++ es).
      { unfold zlen. rewrite Nat2Z.id, Ht, insert_app_r_alt, Nat.sub_diag by done. by rewrite <-app_assoc. }
      exists w1. rewrite <-Hins. split; [done|]. apply (arp_ok_set I X a _ e); try done.
    - exists (world a). rewrite <-app_assoc. cbn [app]. rewrite <-Ht. by destruct a. }
  cbn [mbind res_bind]. destruct (IH (pre ++ [cleaned nif e]) _ Hok1 eq_refl) as (w' & Hr' & Hok').
  rewrite zlen_app in Hr'. change (zlen [cleaned nif e]) with 1 in Hr'. rewrite Hr'. exists w'. by rewrite <-app_assoc in *.
Qed.

Lemma etharp_cleanup_netif_ok I X a nif : arp_ok I X a →
  ∃ a', etharp_cleanup_netif nif a = Ok a' ∧ arp_ok I X a' ∧ arp_table a' = map (cleaned nif) (arp_table a).
Proof.
  intros Hok. destruct (etharp_cleanup_loop_ok I X nif (arp_table a) [] a Hok eq_refl) as (w' & Hr & Hok').
  pose proof Hok as ((Hl & _) & _). unfold etharp_cleanup_netif. rewrite <-Hl. eexists. split; [exact Hr|]. by split_and!.
Qed.

(** ** Outgoing packets *)

(** The operation returns a state that satisfies [P], or pbuf_ref aborts because
    the packet [p] has 255 references. *)
Definition or_ref_abort {B} (p : Z) (m : res B) (P : B → Prop) : Prop :=
  (∃ b, m = Ok b ∧ P b) ∨ (m = Assert ∧ ∃ w, pk_ref p w = Assert).

Lemma arp_ok_hint I X a i : arp_ok I X a → 0 ≤ i < ARP_TABLE_SIZE → arp_ok I X (ETHARP_SET_ADDRHINT i a).
Proof. intros (Ht & _ & Ho) Hi. split; [exact Ht|]. split; [exact Hi|exact Ho]. Qed.

Lemma own_swap I a X p : own I (queued (arp_table a) ⊎ ({[+ p +]} ⊎ X)) (world a) →
  own I ({[+ p +]} ⊎ (queued (arp_table a) ⊎ X)) (world a).
Proof. by replace ({[+ p +]} ⊎ (queued (arp_table a) ⊎ X)) with (queued (arp_table a) ⊎ ({[+ p +]} ⊎ X)) by multiset_solver. Qed.

Lemma etharp_output_to_arp_index_ok I X a nif p i e : arp_ok I ({[+ p +]} ⊎ X) a → nif ∈ I → 0 ≤ i →
  arp_table a !! Z.to_nat i = Some e → is_stable e →
  ∃ r a', etharp_output_to_arp_index nif p i a = Ok (r, a') ∧ arp_ok I ({[+ p +]} ⊎ X) a'.
Proof.
  intros Hok Hn Hi He Hst. unfold etharp_output_to_arp_index. rewrite (entry_at_lookup a i e) by done. cbn [mbind res_bind].
  rewrite Hst. cbn [LWIP_ASSERT mbind res_bind]. pose proof Hok as ((_ & Hf & _) & _). pose proof (Forall_lookup_1 _ _ _ _ Hf He) as Heok.
  assert (Hgo : ∀ a1, arp_ok I ({[+ p +]} ⊎ X) a1 → ∃ r a', (n ← get_netif nif (world a1);
    on_world (ethernet_output nif p (hwaddr n) (ethaddr e) ETHTYPE_IP) a1) = Ok (r, a') ∧ arp_ok I ({[+ p +]} ⊎ X) a').
  { intros a1 Hok1. pose proof Hok1 as (_ & _ & Hown1). destruct (own_netif _ _ _ _ Hown1 Hn) as (n & -> & _). cbn [mbind res_bind].
    destruct (output_arp_ok I X a1 nif p (hwaddr n) (ethaddr e) ETHTYPE_IP Hok1 Hn) as (r & w' & Hr & _ & Hok'). by eexists _, _. }
  assert (Hre : ∀ d, state e = ETHARP_STATE_STABLE → ∃ a1,
    ('(r, a) ← on_world (etharp_request_dst nif (ipaddr e) d) a;
     if r =? ERR_OK then Ok (set_entry i (with_state ETHARP_STATE_STABLE_REREQUESTING_1 e) a) else Ok a) = Ok a1 ∧
    arp_ok I ({[+ p +]} ⊎ X) a1).
  { intros d Hs. destruct (request_arp_ok I _ a nif (ipaddr e) d Hok Hn) as (r & w' & -> & Hok1). cbn [mbind res_bind].
    destruct (r =? ERR_OK); [|by eexists]. eexists. split; [done|].
    apply (arp_ok_set I _ (set_world w' a) i e); [done|done| | |].
    - unfold entry_ok in *. simpl. by rewrite Hs in Heok.
    - intros _. split; [|done]. unfold nonempty. by rewrite Hs.
    - simpl. rewrite (queued_same _ _ e) by done. by destruct Hok1 as (_ & _ & ?). }
  rewrite is_state_spec. case_bool_decide as Hs; [|by apply Hgo].
  change (etharp_request nif (ipaddr e)) with (etharp_request_dst nif (ipaddr e) ethbroadcast).
  destruct (ARP_AGE_REREQUEST_USED_BROADCAST <=? ctime e).
  { destruct (Hre ethbroadcast Hs) as (a1 & -> & Hok1). cbn [mbind res_bind]. by apply Hgo. }
  destruct (ARP_AGE_REREQUEST_USED_UNICAST <=? ctime e); [|by apply Hgo].
  destruct (Hre (ethaddr e) Hs) as (a1 & -> & Hok1). cbn [mbind res_bind]. by apply Hgo.
Qed.

(** Queueing a packet on a pending entry: the new reference goes into the table
    and the one for the packet that waited is released. *)
Lemma query_queue_ok I X a i e p c w : arp_ok I ({[+ p +]} ⊎ X) a → 0 ≤ i → arp_table a !! Z.to_nat i = Some e →
  state e = ETHARP_STATE_PENDING →
  own I ({[+ c +]} ⊎ ({[+ p +]} ⊎ (queued (arp_table a) ⊎ X))) w →
  ∃ w', (match q e with Some old => w0 ← pk_free old w; Ok (set_world w0 (set_world w a)) | None => Ok (set_world w a) end) =
      Ok (set_world w' a) ∧
    arp_ok I ({[+ p +]} ⊎ X) (set_entry i (with_q (Some c) e) (set_world w' a)).
Proof.
  intros Hok Hi He Hs Hown. pose proof Hok as ((_ & Hf & _) & _). pose proof (Forall_lookup_1 _ _ _ _ Hf He) as Heok.
  destruct (queued_split _ _ _ He) as (R & HR & Hins). rewrite HR in Hown.
  assert (Hgo : ∀ w', own I ({[+ c +]} ⊎ R ⊎ ({[+ p +]} ⊎ X)) w' →
    arp_ok I ({[+ p +]} ⊎ X) (set_entry i (with_q (Some c) e) (set_world w' a))).
  { intros w' Hw'. apply (arp_ok_set I _ a i e); [done|done| | |by rewrite Hins].
    - unfold entry_ok in *. simpl. by rewrite Hs in *.
    - intros Hne. split; [|done]. unfold nonempty. by rewrite Hs. }
  destruct (q e) as [old|]; cbn [oref] in Hown.
  - replace ({[+ c +]} ⊎ ({[+ p +]} ⊎ ({[+ old +]} ⊎ R ⊎ X))) with ({[+ old +]} ⊎ ({[+ c +]} ⊎ R ⊎ ({[+ p +]} ⊎ X))) in Hown by multiset_solver.
    destruct (own_free _ _ _ _ Hown) as (w' & -> & Hw'). cbn [mbind res_bind]. exists w'. split; [done|]. by apply Hgo.
  - exists w. split; [done|]. apply Hgo.
    by replace ({[+ c +]} ⊎ R ⊎ ({[+ p +]} ⊎ X)) with ({[+ c +]} ⊎ ({[+ p +]} ⊎ (∅ ⊎ R ⊎ X))) by multiset_solver.
Qed.

Lemma etharp_query_ok I X a nif ip p : arp_ok I ({[+ p +]} ⊎ X) a → nif ∈ I →
  or_ref_abort p (etharp_query nif ip (Some p) a) (λ ra, arp_ok I ({[+ p +]} ⊎ X) ra.2).
Proof.
  intros Hok Hn. pose proof Hok as (_ & _ & Hown). unfold etharp_query.
  destruct (own_netif _ _ _ _ Hown Hn) as (n & -> & _). cbn [mbind res_bind].
  destruct (ip4_addr_isbroadcast ip n || ip4_addr_ismulticast ip || ip4_addr_isany_val ip) eqn:Ebad; [left; by exists (ERR_ARG, a)|].
  apply orb_false_iff in Ebad as [[_ Hmc]%orb_false_iff Hany].
  destruct (etharp_find_entry_ok I _ a ip ETHARP_FLAG_TRY_HARD nif Hok) as (i & a1 & Hr & _). rewrite Hr. cbn [mbind res_bind].
  destruct (find_entry_range _ _ _ _ _ _ _ _ Hok Hr) as [Hok1 [->|(Hri & e & He & Hip & Hnif & Hk)]]; [left; by exists (ERR_MEM, a1)|].
  clear Hr Hok Hown a. replace (i <? 0) with false by lia. replace (i <? 127) with true by (unfold ARP_TABLE_SIZE in Hri; lia).
  cbn [LWIP_ASSERT mbind res_bind]. rewrite (entry_at_lookup a1 i e) by (done || lia). cbn [mbind res_bind].
  (* the entry is in use from now on *)
  set (a2 := if is_state (state e) ETHARP_STATE_EMPTY then _ else _).
  assert (∃ e2, arp_table a2 !! Z.to_nat i = Some e2 ∧ nonempty e2 ∧ arp_ok I ({[+ p +]} ⊎ X) a2) as (e2 & He2 & Hne2 & Hok2).
  { unfold a2. rewrite is_state_spec. case_bool_decide as Hs; [|by exists e].
    pose proof (lookup_lt_Some _ _ _ He). eexists. split; [by apply list_lookup_insert_eq|]. split; [done|].
    pose proof Hok1 as ((_ & Hf & _) & _ & Hown1). pose proof (Forall_lookup_1 _ _ _ _ Hf He) as Heok.
    apply (arp_ok_store I _ a1 i e); [done|done| |done|done| |].
    - destruct Hk as [Hne|[_ Hct]]; [by destruct Hne|]. unfold entry_ok, unicast. simpl. rewrite Hct, Hip. done.
    - right. destruct Hk as [Hne|[Hno _]]; [by destruct Hne|]. by rewrite Hip, Hnif.
    - simpl. rewrite (queued_same _ _ e) by done. done. }
  clearbody a2. rewrite (entry_at_lookup a2 i e2) by (done || lia). cbn [mbind res_bind]. rewrite !is_state_spec.
  replace (bool_decide (state e2 = ETHARP_STATE_PENDING) || ge_stable (state e2)) with true.
  2:{ symmetry. destruct (state_cases (state e2)) as [?|[->|(-> & _)]]; [done|done|by rewrite orb_true_r]. }
  cbn [LWIP_ASSERT mbind res_bind].
  assert (∃ r w3, (if bool_decide (state e = ETHARP_STATE_EMPTY) || bool_decide (Some p = None)
      then on_world (etharp_request nif ip) a2 else Ok (ERR_MEM, a2)) = Ok (r, set_world w3 a2) ∧
      arp_ok I ({[+ p +]} ⊎ X) (set_world w3 a2)) as (r & w3 & -> & Hok3).
  { destruct (_ || _).
    - by apply (request_arp_ok I _ a2 nif ip ethbroadcast).
    - exists ERR_MEM, (world a2). by destruct a2. }
  cbn [mbind res_bind]. set (a3 := set_world w3 a2) in *.
  assert (He3 : arp_table a3 !! Z.to_nat i = Some e2) by done. clearbody a3. clear He He2 Hok1 Hok2 Hk a1 a2 w3 Hip Hnif e.
  rewrite (entry_at_lookup a3 i e2) by (done || lia). cbn [mbind res_bind]. rewrite is_state_spec.
  destruct (ge_stable (state e2)) eqn:Est.
  { left. destruct (output_arp_ok I X (ETHARP_SET_ADDRHINT i a3) nif p (hwaddr n) (ethaddr e2) ETHTYPE_IP) as (r' & w' & Hr & _ & Hok');
      [by apply arp_ok_hint|done|]. rewrite Hr. by eexists. }
  assert (Hs : state e2 = ETHARP_STATE_PENDING) by (destruct (state_cases (state e2)) as [?|[?|(? & _)]]; [done|done|congruence]).
  rewrite bool_decide_eq_true_2 by done. pose proof Hok3 as (_ & _ & Hown3%own_swap).
  destruct (own_needs_copy _ _ _ _ Hown3) as (b & ->). cbn [mbind res_bind].
  (* the packet is taken over *)
  assert (Htake : ∀ c w', own I ({[+ c +]} ⊎ ({[+ p +]} ⊎ (queued (arp_table a3) ⊎ X))) w' →
    ∃ ra, (e ← entry_at i (set_world w' a3);
           a ← (match q e with Some old => w ← pk_free old (world (set_world w' a3)); Ok (set_world w (set_world w' a3))
                | None => Ok (set_world w' a3) end);
           Ok (ERR_OK, set_entry i (with_q (Some c) e) a)) = Ok ra ∧ arp_ok I ({[+ p +]} ⊎ X) ra.2).
  { intros c w' Hw'. rewrite (entry_at_lookup (set_world w' a3) i e2) by (done || lia). cbn [mbind res_bind].
    destruct (query_queue_ok I X a3 i e2 p c w' Hok3 ltac:(lia) He3 Hs Hw') as (w4 & Hq & Hok4). cbn [world set_world] in *.
    rewrite Hq. cbn [mbind res_bind]. by eexists. }
  destruct b.
  - left. destruct (own_clone _ _ _ _ Hown3) as (o & w' & -> & Hw'). cbn [mbind res_bind]. destruct o as [c|]; [by apply Htake|].
    eexists. split; [done|]. destruct Hok3 as (Ht3 & Hc3 & _). split; [exact Ht3|]. split; [exact Hc3|]. simpl.
    by replace (queued (arp_table a3) ⊎ ({[+ p +]} ⊎ X)) with ({[+ p +]} ⊎ (queued (arp_table a3) ⊎ X)) by multiset_solver.
  - destruct (own_ref _ _ _ _ Hown3) as [Hab|(w' & -> & Hw')].
    + right. rewrite Hab. split; [done|by eexists].
    + left. cbn [mbind res_bind]. by apply Htake.
Qed.

Lemma find_stable_ok nif dst es : ∀ i r, find_stable nif dst es i = Some r →
  ∃ k e, r = i + Z.of_nat k ∧ es !! k = Some e ∧ stable_match nif dst e = true.
Proof.
  induction es as [|e es IH]; intros i r Hr; [done|]. cbn [find_stable] in Hr. destruct (stable_match nif dst e) eqn:E.
  - injection Hr as <-. exists 0%nat, e. split_and!; [lia|done|done].
  - destruct (IH _ _ Hr) as (k & e' & -> & Hk & Hm). exists (S k), e'. split_and!; [lia|done|done].
Qed.

Lemma etharp_output_ok I X a nif p ip : arp_ok I ({[+ p +]} ⊎ X) a → nif ∈ I → is_Ok (pk_ip_src p (world a)) = true →
  or_ref_abort p (etharp_output nif p ip a) (λ ra, arp_ok I ({[+ p +]} ⊎ X) ra.2).
Proof.
  intros Hok Hn Hsrc. pose proof Hok as (Ht & Hc & Hown). unfold etharp_output.
  destruct (own_netif _ _ _ _ Hown Hn) as (n & -> & _). cbn [mbind res_bind].
  assert (Hout : ∀ d, ∃ ra, on_world (ethernet_output nif p (hwaddr n) d ETHTYPE_IP) a = Ok ra ∧ arp_ok I ({[+ p +]} ⊎ X) ra.2).
  { intros d. destruct (output_arp_ok I X a nif p (hwaddr n) d ETHTYPE_IP Hok Hn) as (r & w' & -> & _ & Hok'). by eexists. }
  destruct (ip4_addr_isbroadcast ip n); [left; apply Hout|]. destruct (ip4_addr_ismulticast ip); [left; apply Hout|].
  assert (∃ o, unicast_dst n p ip (world a) = Ok o) as (o & ->).
  { unfold unicast_dst. destruct (pk_ip_src p (world a)); try discriminate Hsrc. cbn [mbind res_bind].
    repeat (case_match; try by eexists). }
  cbn [mbind res_bind]. destruct o as [dst|]; [|left; by eexists].
  destruct (entry_at_ok I a (etharp_cached_entry a) Ht Hc) as (e & -> & He & _). cbn [mbind res_bind].
  assert (Hstm : ∀ e, stable_match nif dst e = true → is_stable e) by (intros f [[? _]%andb_true_iff _]%andb_true_iff; done).
  destruct (stable_match nif dst e) eqn:Em.
  { left. destruct (etharp_output_to_arp_index_ok I X a nif p (etharp_cached_entry a) e Hok Hn) as (r & a' & -> & Hok'); [lia|done|by apply Hstm|]. by eexists. }
  rewrite take_ge by (destruct Ht as [-> _]; done). destruct (find_stable nif dst (arp_table a) 0) as [i|] eqn:Ef; [|by apply etharp_query_ok].
  left. destruct (find_stable_ok _ _ _ _ _ Ef) as (k & f & -> & Hk & Hm). pose proof (lookup_lt_Some _ _ _ Hk) as Hlt.
  destruct Ht as [Hl _]. rewrite Hl in Hlt. rewrite Z.add_0_l.
  destruct (etharp_output_to_arp_index_ok I X (ETHARP_SET_ADDRHINT (Z.of_nat k) a) nif p (Z.of_nat k) f) as (r & a' & -> & Hok');
    [apply arp_ok_hint; [done|lia]|done|lia|by rewrite Nat2Z.id|by apply Hstm|]. by eexists.
Qed.

(** ** Incoming packets *)

(** [m] gives a result, or aborts, which it may only while the interface is down. *)
Definition or_down_abort {B} (nif : Z) (w : W) (m : res B) (P : B → Prop) : Prop :=
  (∃ r, m = Ok r ∧ P r) ∨ (m = Assert ∧ ∃ n, get_netif nif w = Ok n ∧ netif_down n).

Lemma etharp_input_ok I X a p nif hdr : arp_ok I ({[+ p +]} ⊎ X) a → nif ∈ I → nif ≠ 0 → pk_get_hdr p (world a) = Ok hdr →
  or_down_abort nif (world a) (etharp_input p nif a) (arp_ok I X).
Proof.
  intros Hok Hn Hnz Hhdr. unfold etharp_input. replace (nif =? 0) with false by lia. cbn [negb LWIP_ASSERT mbind res_bind].
  rewrite Hhdr. cbn [mbind res_bind].
  (* the packet is released at the end of every path *)
  assert (Hfree : ∀ a1, arp_ok I ({[+ p +]} ⊎ X) a1 → ∃ a', (w ← pk_free p (world a1); Ok (set_world w a1)) = Ok a' ∧ arp_ok I X a').
  { intros a1 (Ht & Hc & Hown%own_swap). destruct (own_free _ _ _ _ Hown) as (w' & -> & Hw'). cbn [mbind res_bind].
    eexists. split; [done|]. split; [exact Ht|]. split; [exact Hc|exact Hw']. }
  destruct (_ || _); [left; by apply Hfree|].
  pose proof Hok as (Ht & Hc & Hown). destruct (own_autoip _ _ _ hdr _ Hown Hn) as [(w1 & -> & Hw1)|[-> Hdown]]; [left|by right]. cbn [mbind res_bind].
  assert (Hok1 : arp_ok I ({[+ p +]} ⊎ X) (set_world w1 a)) by (split; [exact Ht|split; [exact Hc|exact Hw1]]).
  set (a1 := set_world w1 a) in *. clearbody a1. pose proof Hok1 as (_ & _ & Hown1).
  destruct (own_netif _ _ _ _ Hown1 Hn) as (n & -> & _). cbn [mbind res_bind].
  set (for_us := if ip4_addr_isany_val _ then false else _). clearbody for_us.
  destruct (etharp_update_arp_entry_ok I _ a1 nif (sipaddr hdr) (shwaddr hdr)
    (if for_us then ETHARP_FLAG_TRY_HARD else ETHARP_FLAG_FIND_ONLY) Hok1 Hn) as (r & a2 & -> & Hok2).
  cbn [mbind res_bind]. pose proof Hok2 as (Ht2 & Hc2 & Hown2).
  destruct (opcode hdr =? PP_HTONS ARP_REQUEST).
  - destruct for_us; [|by apply Hfree]. destruct (own_netif _ _ _ _ Hown2 Hn) as (n2 & -> & _). cbn [mbind res_bind].
    destruct (on_world_ok I _ a2 (etharp_raw nif (hwaddr n2) (shwaddr hdr) (hwaddr n2) (netif_ip4_addr (if4 n2)) (shwaddr hdr) (sipaddr hdr) ARP_REPLY) Hok2)
      as (r2 & w3 & -> & _ & Hok3); [intros ?; by apply etharp_raw_ok|]. cbn [mbind res_bind]. by apply Hfree.
  - destruct (opcode hdr =? PP_HTONS ARP_REPLY); [|by apply Hfree].
    destruct (own_dhcp _ _ _ (sipaddr hdr) _ Hown2 Hn) as (w3 & -> & Hw3). cbn [mbind res_bind]. apply (Hfree (set_world w3 a2)).
    split; [exact Ht2|split; [exact Hc2|exact Hw3]].
Qed.

End laws.
