(* ===== verification/EtharpRuns.v ===== *)
(** * The ARP cache over time

    What the cache guarantees along every run of its operations, how entries
    expire, which entry a new address replaces, and that a packet that had to wait
    is sent to the address that was learnt. *)

From stdpp Require Import gmultiset.
From S2P Require Import Prelude Def Ip4Addr Etharp EtharpFacts.

Section runs.
Context {W : Type} `{PacketsLaws W}.
Implicit Types (a : astate W) (I : gset Z) (X : gmultiset Z).

(** One operation of the cache, or a step of the rest of the stack; [X] are the
    references of the callers. *)
Inductive arp_step I : gmultiset Z * astate W → gmultiset Z * astate W → Prop :=
| step_tmr X a a' : etharp_tmr a = Ok a' → arp_step I (X, a) (X, a')
| step_output X a nif p ip r a' : nif ∈ I → p ∈ X → is_Ok (pk_ip_src p (world a)) = true →
    etharp_output nif p ip a = Ok (r, a') → arp_step I (X, a) (X, a')
| step_query X a nif p ip r a' : nif ∈ I → p ∈ X → etharp_query nif ip (Some p) a = Ok (r, a') → arp_step I (X, a) (X, a')
| step_input X a p nif hdr a' : nif ∈ I → nif ≠ 0 → pk_get_hdr p (world a) = Ok hdr → etharp_input p nif a = Ok a' →
    arp_step I ({[+ p +]} ⊎ X, a) (X, a')
| step_cleanup X a nif a' : etharp_cleanup_netif nif a = Ok a' → arp_step I (X, a) (X, a')
| step_env X X' a w' : own I (queued (arp_table a) ⊎ X') w' → arp_step I (X, a) (X', set_world w' a).

(** The table as the program starts. *)
Definition arp_init (w : W) : astate W := AState (replicate (Z.to_nat ARP_TABLE_SIZE) empty_entry) 0 w.

Lemma queued_none t : Forall (λ e, q e = None) t → queued t = ∅.
Proof. unfold queued. induction 1 as [|e t He _ IH]; [done|]. simpl. rewrite He, IH. simpl. multiset_solver. Qed.

Lemma arp_init_ok I X w : own I X w → arp_ok I X (arp_init w).
Proof.
  intros Hown. split; [split; [done|]; split|].
  - apply Forall_replicate. done.
  - intros i j e e' Hi _ He. apply lookup_replicate in Hi as [-> _]. by destruct He.
  - split; [done|]. unfold arp_init. cbn [arp_table world]. rewrite queued_none by (apply Forall_replicate; done). by rewrite (left_id_L ∅ (⊎)).
Qed.

Lemma take_ref (p : Z) X : p ∈ X → ∃ Y, X = {[+ p +]} ⊎ Y.
Proof. intros Hp. exists (X ∖ {[+ p +]}). multiset_solver. Qed.

Lemma arp_step_ok I s s' : arp_step I s s' → arp_ok I s.1 s.2 → arp_ok I s'.1 s'.2.
Proof.
  intros Hstep Hok. destruct Hstep as [X a a' Hr|X a nif p ip r a' Hn Hp Hs Hr|X a nif p ip r a' Hn Hp Hr|X a p nif hdr a' Hn Hz Hh Hr
    |X a nif a' Hr|X X' a w' Hown]; simpl in *.
  - destruct (etharp_tmr_ok I X a Hok) as (a'' & Hr' & Hok' & _). congruence.
  - destruct (take_ref _ _ Hp) as [Y ->]. destruct (etharp_output_ok I Y a nif p ip Hok Hn Hs) as [(ra & Hr' & Hok')|[Hr' _]]; [|congruence].
    rewrite Hr in Hr'. by injection Hr' as <-.
  - destruct (take_ref _ _ Hp) as [Y ->]. destruct (etharp_query_ok I Y a nif ip p Hok Hn) as [(ra & Hr' & Hok')|[Hr' _]]; [|congruence].
    rewrite Hr in Hr'. by injection Hr' as <-.
  - destruct (etharp_input_ok I X a p nif hdr Hok Hn Hz Hh) as [(a'' & Hr' & Hok')|[Hr' _]]; congruence.
  - destruct (etharp_cleanup_netif_ok I X a nif Hok) as (a'' & Hr' & Hok' & _). congruence.
  - destruct Hok as (Ht & Hc & _). split; [exact Ht|]. split; [exact Hc|exact Hown].
Qed.

Lemma arp_reach_ok I X w s : own I X w → rtc (arp_step I) (X, arp_init w) s → arp_ok I s.1 s.2.
Proof.
  intros Hown Hrun. assert (H1 : arp_ok I X (arp_init w)) by (by apply arp_init_ok).
  change X with (X, arp_init w).1 in H1 at 1. change (arp_init w) with (X, arp_init w).2 in H1 at 2.
  revert H1. induction Hrun as [s|s1 s2 s3 Hstep _ IH]; [done|]. intros H1. apply IH. by eapply arp_step_ok.
Qed.


(** ** Expiry *)

Fixpoint ticks (n : nat) a : res (astate W) :=
  match n with O => Ok a | S n => a ← etharp_tmr a; ticks n a end.

Lemma ticks_ok I X n : ∀ a, arp_ok I X a →
  ∃ a', ticks n a = Ok a' ∧ arp_ok I X a' ∧ arp_table a' = map (Nat.iter n aged) (arp_table a).
Proof.
  induction n as [|n IH]; intros a Hok; cbn [ticks].
  { exists a. split; [done|]. split; [done|]. by rewrite map_id. }
  destruct (etharp_tmr_ok I X a Hok) as (a1 & -> & Hok1 & Ht1 & _). cbn [mbind res_bind].
  destruct (IH a1 Hok1) as (a' & -> & Hok' & Ht'). exists a'. split; [done|]. split; [done|].
  rewrite Ht', Ht1, map_map. apply map_ext. intros e. by rewrite <-Nat.iter_succ_r.
Qed.

(** How many ticks an entry can still live. *)
Definition lifetime (e : etharp_entry) : Z :=
  match state e with
  | ETHARP_STATE_EMPTY => 0
  | ETHARP_STATE_PENDING => ARP_MAXPENDING - ctime e
  | _ => ARP_MAXAGE - ctime e
  end.

Lemma lifetime_aged e : state e ≠ ETHARP_STATE_EMPTY → 0 ≤ ctime e →
  lifetime (aged e) ≤ Z.max 0 (lifetime e - 1) ∧ (nonempty (aged e) → ctime (aged e) = ctime e + 1 ∧
    (state (aged e) = ETHARP_STATE_PENDING ↔ state e = ETHARP_STATE_PENDING)).
Proof.
  intros Hne Hc. unfold aged, lifetime, nonempty. rewrite bool_decide_eq_false_2 by done. cbn zeta.
  destruct (state e) eqn:Es; [done|..]; simpl; rewrite ?Es;
    (destruct (ARP_MAXAGE <=? ctime e + 1) eqn:E1; simpl; [split; [lia|done]|]);
    try (destruct (ARP_MAXPENDING <=? ctime e + 1) eqn:E2; simpl; [split; [lia|done]|]); breflect; simpl; rewrite ?Es; split; try lia; naive_solver.
Qed.

Lemma lifetime_aged_pos e : state e ≠ ETHARP_STATE_EMPTY → nonempty (aged e) → 0 < lifetime (aged e).
Proof.
  unfold aged, lifetime, nonempty. intros Hs. rewrite bool_decide_eq_false_2 by done. cbn zeta.
  destruct (_ || _) eqn:Eo; [done|]. apply orb_false_iff in Eo as [E1 E2]. simpl in *. intros _.
  destruct (state e) eqn:Es; simpl in *; rewrite ?Es in *; simpl in *; try done; breflect; lia.
Qed.

Lemma aged_dead n e : state e = ETHARP_STATE_EMPTY → Nat.iter n aged e = e.
Proof. intros Hs. induction n as [|n IH]; [done|]. simpl. rewrite IH. unfold aged. by rewrite bool_decide_eq_true_2. Qed.

Lemma aged_iter n : ∀ e, (nonempty e → 0 ≤ ctime e) → lifetime e ≤ Z.of_nat n → state (Nat.iter n aged e) = ETHARP_STATE_EMPTY ∨ nonempty e ∧ lifetime e ≤ 0.
Proof.
  induction n as [|n IH]; intros e Hc Hl.
  - destruct (decide (state e = ETHARP_STATE_EMPTY)); [by left|]. right. split; [done|lia].
  - destruct (decide (state e = ETHARP_STATE_EMPTY)) as [Hs|Hs]; [left; by rewrite aged_dead|].
    rewrite Nat.iter_succ_r. destruct (lifetime_aged e Hs (Hc Hs)) as [Hla Hka].
    destruct (decide (lifetime e ≤ 0)); [by right|]. left.
    destruct (IH (aged e)) as [?|[Hne Hle]]; [|lia|done|].
    + intros Hne. destruct (Hka Hne) as [-> _]. specialize (Hc Hs). lia.
    + exfalso. pose proof (lifetime_aged_pos e Hs Hne). lia.
Qed.

Lemma aged_not_pending n e : state e ≠ ETHARP_STATE_PENDING → state (Nat.iter n aged e) ≠ ETHARP_STATE_PENDING.
Proof.
  intros Hs. induction n as [|n IH]; [done|]. simpl. unfold aged at 1. case_bool_decide; [done|]. cbn zeta.
  destruct (_ || _); [done|]. generalize dependent (Nat.iter n aged e). intros f IH _. simpl. destruct (state f) eqn:Ef; simpl; congruence.
Qed.

(** An entry that satisfies the invariant is gone after its lifetime. *)
Lemma entry_expires I n e : entry_ok I e → lifetime e ≤ Z.of_nat n → state (Nat.iter n aged e) = ETHARP_STATE_EMPTY.
Proof.
  intros He Hl. destruct (aged_iter n e) as [?|[Hne Hl0]]; [|done|done|].
  - intros Hne. by destruct (ctime_range I e He Hne).
  - exfalso. unfold entry_ok, lifetime, nonempty in *. destruct (state e); try done; lia.
Qed.

(** C17: Entries expire.  After ARP_MAXPENDING ticks of the timer no request is pending
    any more: every entry that was pending is empty; after ARP_MAXAGE ticks without
    other activity the table is empty and the cache holds no packet: every reference
    it held was released. *)
Theorem arp_entries_expire I X a (n : nat) : arp_ok I X a → ARP_MAXPENDING ≤ Z.of_nat n →
  ∃ a', ticks n a = Ok a' ∧ length (arp_table a') = length (arp_table a) ∧
    (∀ i e e', arp_table a !! i = Some e → state e = ETHARP_STATE_PENDING → arp_table a' !! i = Some e' →
       state e' = ETHARP_STATE_EMPTY) ∧
    Forall (λ e, state e ≠ ETHARP_STATE_PENDING) (arp_table a') ∧
    (ARP_MAXAGE ≤ Z.of_nat n → Forall (λ e, state e = ETHARP_STATE_EMPTY) (arp_table a') ∧ own I X (world a')).
Proof.
  intros Hok Hn. destruct (ticks_ok I X n a Hok) as (a' & Hr & Hok' & Ht). exists a'. split; [done|]. rewrite Ht.
  split; [apply length_map|]. pose proof Hok as ((_ & Hf & _) & _).
  assert (Hpend : ∀ e, entry_ok I e → state e = ETHARP_STATE_PENDING → state (Nat.iter n aged e) = ETHARP_STATE_EMPTY).
  { intros e He Hs. apply (entry_expires I); [done|]. unfold lifetime, entry_ok in *. rewrite Hs in *. lia. }
  split; [|split].
  - intros i e e' Hi Hs Hi'. change (map (Nat.iter n aged) (arp_table a)) with (Nat.iter n aged <$> arp_table a) in Hi'.
    rewrite list_lookup_fmap, Hi in Hi'. injection Hi' as <-. apply Hpend; [|done]. by apply (Forall_lookup_1 _ _ _ _ Hf Hi).
  - apply Forall_map. eapply Forall_impl; [exact Hf|]. intros e He. simpl.
    destruct (decide (state e = ETHARP_STATE_PENDING)) as [Hs|Hs]; [by rewrite Hpend|by apply aged_not_pending].
  - intros Hn'. assert (Hall : Forall (λ e, state e = ETHARP_STATE_EMPTY) (arp_table a')).
    { rewrite Ht. apply Forall_map. eapply Forall_impl; [exact Hf|]. intros e He. apply (entry_expires I); [done|].
      unfold lifetime, entry_ok, ARP_MAXPENDING, ARP_MAXAGE in *. destruct (state e); lia. }
    rewrite <-Ht. split; [done|]. destruct Hok' as ((_ & Hf' & _) & _ & Hown').
    rewrite queued_none in Hown'; [by rewrite (left_id_L ∅ (⊎)) in Hown'|].
    apply Forall_lookup_2. intros i e Hi. pose proof (Forall_lookup_1 _ _ _ _ Hf' Hi) as He.
    pose proof (Forall_lookup_1 _ _ _ _ Hall Hi) as Hs. unfold entry_ok in He. simpl in Hs. by rewrite Hs in He.
Qed.

(** ** Which entry a new address replaces *)

(** etharp_find_entry returns the entry in use for the address and interface and
    changes nothing.  Without one it returns ERR_MEM when it may only search, or
    when no entry is empty and it may not recycle; otherwise it stores a fresh entry
    in the first empty place, or in the place of the oldest stable entry, or of the
    oldest pending entry without a packet, or of the oldest pending entry, in this
    order of preference, releasing the packet that waited there. *)
Theorem etharp_find_entry_policy I X a ip flags nif : arp_ok I X a →
  let t := arp_table a in
  let find_only := negb (Z.land flags ETHARP_FLAG_FIND_ONLY =? 0) in
  let try_hard := negb (Z.land flags ETHARP_FLAG_TRY_HARD =? 0) in
  ∃ r a', etharp_find_entry (Some ip) flags (Some nif) a = Ok (r, a') ∧ arp_ok I X a' ∧
    ((0 ≤ r < ARP_TABLE_SIZE ∧ a' = a ∧ ∃ e, t !! Z.to_nat r = Some e ∧ nonempty e ∧ ipaddr e = ip ∧ e_netif e = nif) ∨
     (no_match t ip nif ∧ r = ERR_MEM ∧ a' = a ∧ (find_only = true ∨ (Forall nonempty t ∧ try_hard = false))) ∨
     (no_match t ip nif ∧ find_only = false ∧ 0 ≤ r < ARP_TABLE_SIZE ∧ ∃ e, recycled t (Z.to_nat r) e ∧
        (try_hard = false → state e = ETHARP_STATE_EMPTY) ∧
        arp_table a' = <[Z.to_nat r := fresh_entry ip nif e]> t ∧ etharp_cached_entry a' = etharp_cached_entry a)).
Proof. apply etharp_find_entry_ok. Qed.

(** ** Resolution *)

(** The answer to a request sends the packet that waits and keeps the address. *)
Lemma update_delivers I X a nif ip eth flags i e p n : arp_ok I X a → nif ∈ I →
  arp_table a !! i = Some e → nonempty e → ipaddr e = ip → e_netif e = nif → q e = Some p → unicast ip →
  get_netif nif (world a) = Ok n → ip4_addr_isbroadcast ip n = false →
  ∃ r w1 w2, ethernet_output nif p (hwaddr n) eth ETHTYPE_IP (world a) = Ok (r, w1) ∧ pk_free p w1 = Ok w2 ∧
    etharp_update_arp_entry nif ip eth flags a =
      Ok (ERR_OK, AState (<[i := learnt ip nif eth]> (arp_table a)) (etharp_cached_entry a) w2).
Proof.
  intros Hok Hn Hi Hne Hip Hnif Hq [Hany Hmc] Hget Hbc. pose proof Hok as ((Hl & _ & Hu) & _ & Hown).
  destruct (queued_split _ _ _ Hi) as (R & HR & _). rewrite HR, Hq in Hown. cbn [oref] in Hown.
  replace ({[+ p +]} ⊎ R ⊎ X) with ({[+ p +]} ⊎ (R ⊎ X)) in Hown by multiset_solver.
  destruct (own_output _ _ _ _ (hwaddr n) eth ETHTYPE_IP _ Hown Hn) as (r & w1 & Hout & Hw1).
  destruct (own_free _ _ _ _ Hw1) as (w2 & Hfree & _). exists r, w1, w2. split; [done|]. split; [done|].
  unfold etharp_update_arp_entry. rewrite Hget. cbn [mbind res_bind].
  destruct (own_netif _ _ _ _ Hown Hn) as (n' & Hget' & Hlen). rewrite Hget in Hget'. injection Hget' as <-.
  rewrite Hlen, Z.eqb_refl, Hany, Hbc, Hmc. cbn [LWIP_ASSERT mbind res_bind orb].
  destruct (etharp_find_entry_ok I X a ip flags nif Hok) as (k & a1 & -> & _ &
    [(Hk & -> & e' & Hi' & Hne' & Hip' & Hnif')|[(Hno & _)|(Hno & _)]]); [|by destruct (Hno i e Hi Hne)..].
  assert (i = Z.to_nat k) as -> by (eapply (Hu i (Z.to_nat k) e e'); congruence). rewrite Hi in Hi'. injection Hi' as <-.
  cbn [mbind res_bind]. replace (k <? 0) with false by lia. rewrite (entry_at_lookup a k e) by (done || lia). cbn [mbind res_bind].
  cbn [q with_ctime with_ethaddr with_netif with_state]. rewrite Hq. cbn [world set_entry]. rewrite Hget. cbn [mbind res_bind].
  rewrite Hout. cbn [mbind res_bind]. rewrite Hfree. cbn [mbind res_bind]. unfold set_world, set_entry. simpl.
  rewrite list_insert_insert_eq. unfold with_q, with_ctime, with_ethaddr, with_netif, with_state, learnt. simpl. by rewrite Hip.
Qed.

(** A packet for an address that is not in the cache waits there. *)
Lemma query_waits I X a nif ip p a1 : arp_ok I ({[+ p +]} ⊎ X) a → nif ∈ I → no_match (arp_table a) ip nif →
  etharp_query nif ip (Some p) a = Ok (ERR_OK, a1) →
  unicast ip ∧ ∃ i e c, arp_table a1 !! i = Some e ∧ state e = ETHARP_STATE_PENDING ∧ ipaddr e = ip ∧ e_netif e = nif ∧
    ctime e = 0 ∧ q e = Some c ∧ (c = p ∨ ∃ w w', pk_clone p w = Ok (Some c, w')).
Proof.
  intros Hok Hn Hno Hq. unfold etharp_query in Hq. pose proof Hok as (_ & _ & Hown).
  destruct (own_netif _ _ _ _ Hown Hn) as (n & Hget & _). rewrite Hget in Hq. cbn [mbind res_bind] in Hq.
  destruct (ip4_addr_isbroadcast ip n || ip4_addr_ismulticast ip || ip4_addr_isany_val ip) eqn:Ebad; [discriminate Hq|].
  apply orb_false_iff in Ebad as [[_ Hmc]%orb_false_iff Hany]. split; [done|].
  destruct (etharp_find_entry_ok I _ a ip ETHARP_FLAG_TRY_HARD nif Hok) as (k & af & Hf & Hokf &
    [(_ & _ & e & He & Hne & Hip & Hnif)|[(_ & -> & _ & [[=]|[_ [=]]])|(_ & _ & Hk & e & Hrec & _ & Ht & _)]]).
  { by destruct (Hno _ e He Hne). }
  rewrite Hf in Hq. cbn [mbind res_bind] in Hq. replace (k <? 0) with false in Hq by lia.
  replace (k <? 127) with true in Hq by (unfold ARP_TABLE_SIZE in Hk; lia). cbn [LWIP_ASSERT mbind res_bind] in Hq.
  pose proof (lookup_lt_Some _ _ _ (proj1 Hrec)) as Hlt.
  assert (Hlf : (Z.to_nat k < length (arp_table af))%nat) by (rewrite Ht, length_insert; done).
  rewrite (entry_at_lookup af k (fresh_entry ip nif e)) in Hq by (lia || (rewrite Ht; by apply list_lookup_insert_eq)).
  cbn [mbind res_bind] in Hq. change (is_state (state (fresh_entry ip nif e)) ETHARP_STATE_EMPTY) with true in Hq. cbv iota in Hq.
  set (e1 := with_netif nif (with_state ETHARP_STATE_PENDING (fresh_entry ip nif e))) in *.
  rewrite entry_at_set in Hq by (done || lia). cbn [mbind res_bind] in Hq.
  change (is_state (state e1) ETHARP_STATE_PENDING || ge_stable (state e1)) with true in Hq. cbn [LWIP_ASSERT mbind res_bind orb] in Hq.
  destruct (on_world (etharp_request nif ip) (set_entry k e1 af)) as [[r a2]| | |] eqn:Ew; try discriminate Hq.
  assert (∃ w3, a2 = set_world w3 (set_entry k e1 af)) as [w3 ->].
  { unfold on_world in Ew. destruct (etharp_request nif ip (world (set_entry k e1 af))) as [[r' w3]| | |]; try discriminate Ew.
    injection Ew as _ <-. by exists w3. }
  clear Ew. cbn [mbind res_bind] in Hq. set (a3 := set_world w3 (set_entry k e1 af)) in *.
  assert (Hat : ∀ w, entry_at k (set_world w a3) = Ok e1) by (intros w; apply entry_at_lookup; [lia|by apply list_lookup_insert_eq]).
  rewrite (entry_at_lookup a3 k e1) in Hq by (lia || by apply list_lookup_insert_eq). cbn [mbind res_bind] in Hq.
  change (ge_stable (state e1)) with false in Hq. change (is_state (state e1) ETHARP_STATE_PENDING) with true in Hq. cbv iota in Hq.
  destruct (pk_needs_copy p (world a3)) as [b| | |] eqn:Eb; try discriminate Hq. cbn [mbind res_bind] in Hq.
  assert (∃ c w, (if b then pk_clone p (world a3) else w ← pk_ref p (world a3); Ok (Some p, w)) = Ok (Some c, w) ∧
    a1 = set_entry k (with_q (Some c) e1) (set_world w a3)) as (c & w & Hc & ->).
  { destruct (if b then _ else _) as [[[c|] w]| | |]; try discriminate Hq. cbn [mbind res_bind] in Hq. exists c, w. split; [done|].
    rewrite Hat in Hq. cbn [mbind res_bind] in Hq. change (q e1) with (@None Z) in Hq. cbn [mbind res_bind] in Hq. by injection Hq as <-. }
  exists (Z.to_nat k), (with_q (Some c) e1), c. split; [apply list_lookup_insert_eq; simpl; by rewrite length_insert|].
  split_and!; try done. destruct b; [right; by eexists _, _|left].
  destruct (pk_ref p (world a3)); try discriminate Hc. cbn [mbind res_bind] in Hc. by injection Hc as <-.
Qed.

(** C18: Resolution delivers the packet.  A packet accepted by etharp_query for an
    address that is not in the cache, or a copy of it, waits on a fresh pending
    entry; and from then on the first ARP packet that tells the hardware address,
    whether it is directed to us or not, makes the cache hand exactly this packet to
    ethernet_output with that address, release its reference once, and keep the
    address as a stable entry. *)
Theorem arp_resolution_delivers I X a nif ip p a1 : arp_ok I ({[+ p +]} ⊎ X) a → nif ∈ I → no_match (arp_table a) ip nif →
  etharp_query nif ip (Some p) a = Ok (ERR_OK, a1) →
  ∃ i e c, arp_table a1 !! i = Some e ∧ state e = ETHARP_STATE_PENDING ∧ ipaddr e = ip ∧ e_netif e = nif ∧ q e = Some c ∧
    (c = p ∨ ∃ w w', pk_clone p w = Ok (Some c, w')) ∧
    ∀ eth flags n, get_netif nif (world a1) = Ok n → ip4_addr_isbroadcast ip n = false →
      ∃ r w1 w2, ethernet_output nif c (hwaddr n) eth ETHTYPE_IP (world a1) = Ok (r, w1) ∧ pk_free c w1 = Ok w2 ∧
        etharp_update_arp_entry nif ip eth flags a1 =
          Ok (ERR_OK, AState (<[i := learnt ip nif eth]> (arp_table a1)) (etharp_cached_entry a1) w2).
Proof.
  intros Hok Hn Hno Hq. destruct (query_waits I X a nif ip p a1 Hok Hn Hno Hq) as (Hu & i & e & c & He & Hs & Hip & Hnif & _ & Hqe & Hc).
  destruct (etharp_query_ok I X a nif ip p Hok Hn) as [(ra & Hq' & Hok1)|[Hq' _]]; [|congruence].
  rewrite Hq in Hq'. injection Hq' as <-. exists i, e, c. split_and!; try done. intros eth flags n Hget Hbc.
  eapply update_delivers; try done. unfold nonempty. by rewrite Hs.
Qed.

(** ** Sending to a known address *)

Lemma output_to_index_exact I X a nif p i e : arp_ok I ({[+ p +]} ⊎ X) a → nif ∈ I → 0 ≤ i →
  arp_table a !! Z.to_nat i = Some e → is_stable e →
  ∃ r a' n w1, etharp_output_to_arp_index nif p i a = Ok (r, a') ∧ get_netif nif w1 = Ok n ∧
    ethernet_output nif p (hwaddr n) (ethaddr e) ETHTYPE_IP w1 = Ok (r, world a') ∧
    (ctime e < ARP_AGE_REREQUEST_USED_UNICAST → w1 = world a ∧ arp_table a' = arp_table a).
Proof.
  intros Hok Hn Hi He Hst. destruct (etharp_output_to_arp_index_ok I X a nif p i e Hok Hn Hi He Hst) as (r & a' & Hr & _).
  exists r, a'. pose proof Hr as Hr0. unfold etharp_output_to_arp_index in Hr. rewrite (entry_at_lookup a i e) in Hr by done. cbn [mbind res_bind] in Hr.
  rewrite Hst in Hr. cbn [LWIP_ASSERT mbind res_bind] in Hr.
  assert (Hgo : ∀ m, (a0 ← m; n ← get_netif nif (world a0); on_world (ethernet_output nif p (hwaddr n) (ethaddr e) ETHTYPE_IP) a0) = Ok (r, a') →
    ∃ a0 n, m = Ok a0 ∧ get_netif nif (world a0) = Ok n ∧
      ethernet_output nif p (hwaddr n) (ethaddr e) ETHTYPE_IP (world a0) = Ok (r, world a') ∧ arp_table a' = arp_table a0).
  { intros m Hm. destruct m as [a0| | |]; try discriminate Hm. cbn [mbind res_bind] in Hm. exists a0.
    destruct (get_netif nif (world a0)) as [n| | |]; try discriminate Hm. cbn [mbind res_bind] in Hm. exists n. unfold on_world in Hm.
    destruct (ethernet_output _ _ _ _ _ _) as [[r' w']| | |] eqn:Eo; try discriminate Hm. injection Hm as <- <-. by split_and!. }
  destruct (Hgo _ Hr) as (a0 & n & Hm & Hget & Hout & Htab). exists n, (world a0). split; [done|]. split; [done|]. split; [done|].
  intros Hct. rewrite is_state_spec in Hm. case_bool_decide.
  - replace (ARP_AGE_REREQUEST_USED_BROADCAST <=? ctime e) with false in Hm
      by (unfold ARP_AGE_REREQUEST_USED_BROADCAST, ARP_AGE_REREQUEST_USED_UNICAST in *; lia).
    replace (ARP_AGE_REREQUEST_USED_UNICAST <=? ctime e) with false in Hm by lia. by injection Hm as <-.
  - by injection Hm as <-.
Qed.

Lemma find_stable_some nif dst es k e : es !! k = Some e → stable_match nif dst e = true → ∀ i, is_Some (find_stable nif dst es i).
Proof.
  revert k. induction es as [|f es IH]; intros [|k] Hk Hm i; simplify_eq/=; [by rewrite Hm|].
  destruct (stable_match nif dst f); [done|]. by eapply IH.
Qed.

Lemma stable_match_spec nif dst e : stable_match nif dst e = true ↔ is_stable e ∧ e_netif e = nif ∧ ipaddr e = dst.
Proof. unfold stable_match, is_stable. rewrite !andb_true_iff, !Z.eqb_eq. naive_solver. Qed.

(** A known address is used directly.  When the cache has a stable entry for the
    destination of a unicast packet - the address itself, or the gateway for an
    address outside the local network - etharp_output hands the packet to
    ethernet_output with the hardware address of that entry, whichever of the two
    look-ups finds it (the entry used last or the scan of the table), and returns
    what ethernet_output returns; an entry that is not about to expire stays as it
    is, and nothing else is sent. *)
Theorem etharp_output_known I X a nif p ip n dst i e : arp_ok I ({[+ p +]} ⊎ X) a → nif ∈ I →
  get_netif nif (world a) = Ok n → ip4_addr_isbroadcast ip n = false → ip4_addr_ismulticast ip = false →
  unicast_dst n p ip (world a) = Ok (Some dst) → arp_table a !! i = Some e → stable_match nif dst e = true →
  ∃ r a' n1 w1, etharp_output nif p ip a = Ok (r, a') ∧ get_netif nif w1 = Ok n1 ∧
    ethernet_output nif p (hwaddr n1) (ethaddr e) ETHTYPE_IP w1 = Ok (r, world a') ∧
    (ctime e < ARP_AGE_REREQUEST_USED_UNICAST → w1 = world a ∧ arp_table a' = arp_table a).
Proof.
  intros Hok Hn Hget Hbc Hmc Hdst Hi Hm. pose proof Hok as (Ht & Hc & _). pose proof Ht as (Hl & _ & Hu).
  unfold etharp_output. rewrite Hget. cbn [mbind res_bind]. rewrite Hbc, Hmc, Hdst. cbn [mbind res_bind].
  pose proof Hm as (Hst & Hnif & Hip)%stable_match_spec.
  assert (Hsame : ∀ k f, arp_table a !! k = Some f → stable_match nif dst f = true → k = i ∧ f = e).
  { intros k f Hk (Hst' & Hnif' & Hip')%stable_match_spec. assert (k = i) as ->; [|by simplify_eq].
    eapply (Hu k i f e); try done; try congruence; unfold nonempty, is_stable in *; intros Hs; rewrite Hs in *; done. }
  destruct (entry_at_ok I a (etharp_cached_entry a) Ht Hc) as (f & -> & Hf & _). cbn [mbind res_bind].
  destruct (stable_match nif dst f) eqn:Ef.
  { destruct (Hsame _ _ Hf Ef) as [<- ->]. apply (output_to_index_exact I X); [done|done|lia|done|done]. }
  rewrite take_ge by (rewrite Hl; done). destruct (find_stable_some nif dst _ _ _ Hi Hm 0) as [k Hk]. rewrite Hk.
  destruct (find_stable_ok _ _ _ _ _ Hk) as (j & g & -> & Hj & Hg). destruct (Hsame _ _ Hj Hg) as [-> ->].
  pose proof (lookup_lt_Some _ _ _ Hi) as Hlt. rewrite Hl in Hlt. rewrite Z.add_0_l.
  apply (output_to_index_exact I X (ETHARP_SET_ADDRHINT (Z.of_nat i) a)); [apply arp_ok_hint; [done|lia]|done|lia| |done].
  cbn [ETHARP_SET_ADDRHINT arp_table]. by rewrite Nat2Z.id.
Qed.

End runs.
