(* ===== verification/EtharpLink.v ===== *)
(** * The ARP cache on a concrete link

    A small packet layer that counts the references to packets and records the
    frames handed to the driver.  It satisfies [PacketsLaws], so the theorems about
    the cache apply to it. *)

From stdpp Require Import gmultiset.
From S2P Require Import Prelude Def Ip4Addr Etharp EtharpFacts EtharpRuns.

Record frame := Frame { f_netif : Z; f_packet : Z; f_src : eth_addr; f_dst : eth_addr; f_type : Z }.

(** Interfaces, references, ARP headers written so far, the next free packet and the
    frames sent, the latest first. *)
Record link := Link {
  l_netifs : gmap Z netif; l_refs : gmultiset Z; l_hdrs : gmap Z etharp_hdr; l_next : Z; l_frames : list frame }.

Definition held (p : Z) (w : link) : bool := bool_decide (p ∈ l_refs w).
Definition with_refs (X : gmultiset Z) (w : link) : link := Link (l_netifs w) X (l_hdrs w) (l_next w) (l_frames w).
Definition new_packet (w : link) : option Z * link :=
  (Some (l_next w), Link (l_netifs w) ({[+ l_next w +]} ⊎ l_refs w) (l_hdrs w) (l_next w + 1) (l_frames w)).

#[global] Instance counted_packets : Packets link := {|
  get_netif i w := deref (l_netifs w !! i);
  pk_free p w := if held p w then Ok (with_refs (l_refs w ∖ {[+ p +]}) w) else Ub;
  pk_ref p w := if held p w then
      if 255 <=? Z.of_nat (multiplicity p (l_refs w)) then Assert else Ok (with_refs ({[+ p +]} ⊎ l_refs w) w)
    else Ub;
  pk_alloc_arp w := Ok (new_packet w);
  pk_clone p w := if held p w then Ok (new_packet w) else Ub;
  pk_len p w := if held p w then Ok SIZEOF_ETHARP_HDR else Ub;
  pk_needs_copy p w := if held p w then Ok false else Ub;
  pk_get_hdr p w := deref (l_hdrs w !! p);
  pk_put_hdr p h w := if held p w then Ok (Link (l_netifs w) (l_refs w) (<[p := h]> (l_hdrs w)) (l_next w) (l_frames w)) else Ub;
  pk_ip_src p w := if held p w then Ok 0 else Ub;
  ethernet_output i p s d t w := if held p w then
      Ok (ERR_OK, Link (l_netifs w) (l_refs w) (l_hdrs w) (l_next w) (Frame i p s d t :: l_frames w)) else Ub;
  autoip_arp_reply i _ w := n ← deref (l_netifs w !! i); if Z.testbit (netif_flags (if4 n)) 0 then Ok w else Assert;
  dhcp_arp_reply _ _ w := Ok w
|}.

Definition link_own (I : gset Z) (X : gmultiset Z) (w : link) : Prop :=
  l_refs w = X ∧ ∀ i, i ∈ I → ∃ n, l_netifs w !! i = Some n ∧ hwaddr_len n = ETH_HWADDR_LEN.

Lemma link_held I X p w : link_own I ({[+ p +]} ⊎ X) w → held p w = true.
Proof. intros [Hr _]. unfold held. rewrite Hr. apply bool_decide_eq_true_2. multiset_solver. Qed.

#[global] Instance counted_packets_laws : PacketsLaws link.
Proof.
  refine {| own := link_own |}.
  - intros I X w i [_ Hn] Hi. destruct (Hn i Hi) as (n & Hl & Hh). exists n. simpl. by rewrite Hl.
  - intros I X p w Ho. simpl. rewrite (link_held _ _ _ _ Ho). destruct Ho as [Hr Hn]. eexists. split; [done|]. split; [|done].
    simpl. rewrite Hr. multiset_solver.
  - intros I X p w Ho. simpl. rewrite (link_held _ _ _ _ Ho). destruct Ho as [Hr Hn]. destruct (255 <=? _); [by left|right].
    eexists. split; [done|]. split; [|done]. simpl. by rewrite Hr.
  - intros I X w [Hr Hn]. simpl. eexists _, _. split; [done|]. simpl. split; [by split; [simpl; rewrite Hr|]|].
    unfold held. simpl. by rewrite bool_decide_eq_true_2 by multiset_solver.
  - intros I X p w Ho. simpl. rewrite (link_held _ _ _ _ Ho). destruct Ho as [Hr Hn]. eexists _, _. split; [done|].
    simpl. by split; [simpl; rewrite Hr|].
  - intros I X p w Ho. simpl. rewrite (link_held _ _ _ _ Ho). by eexists.
  - intros I X p h l w Ho _ _. simpl. rewrite (link_held _ _ _ _ Ho). by eexists.
  - intros I X i p s d t w Ho _. simpl. rewrite (link_held _ _ _ _ Ho). by eexists _, _.
  - intros I X i h w Ho Hi. destruct (proj2 Ho i Hi) as (n & Hn & _). unfold autoip_arp_reply, get_netif, counted_packets. rewrite Hn. cbn [deref mbind res_bind].
    destruct (Z.testbit (netif_flags (if4 n)) 0) eqn:E; [left; by eexists|right]. split; [done|]. by exists n.
  - intros I X i ip w Ho _. by eexists.
Defined.

(** ** An example: one interface, 192.168.0.1/24, and one packet *)

Definition our_ip : Z := PP_HTONL 3232235521.
Definition peer_ip : Z := PP_HTONL 3232235522.
Definition our_mac : eth_addr := [2; 0; 0; 0; 0; 1].
Definition peer_mac : eth_addr := [2; 0; 0; 0; 0; 2].
Definition eth0 : netif := Netif our_mac 6 (Netif4 3 our_ip (PP_HTONL 4294967040)) 0.
Definition reply_hdr : etharp_hdr :=
  EtharpHdr (PP_HTONS 1) (PP_HTONS ETHTYPE_IP) 6 4 (PP_HTONS ARP_REPLY) peer_mac peer_ip our_mac our_ip.

(** Packet 5 is to be sent; packet 6 is an ARP reply that was received. *)
Definition link0 : link := Link {[1 := eth0]} {[+ 5; 6 +]} {[6 := reply_hdr]} 100 [].
Definition arp0 : astate link := arp_init link0.

Lemma link0_own : own {[1]} {[+ 5; 6 +]} link0.
Proof. split; [done|]. intros i ->%elem_of_singleton. by exists eth0. Qed.

Lemma arp0_ok : arp_ok {[1]} {[+ 5; 6 +]} arp0.
Proof. apply arp_init_ok, link0_own. Qed.

Definition state_of {B} (m : res B) (b : B) : B := match m with Ok x => x | _ => b end.

(** After the packet was queued, and after the reply came in. *)
Definition arp1 : astate link := (state_of (etharp_output 1 5 peer_ip arp0) (0, arp0)).2.
Definition arp2 : astate link := state_of (etharp_input 6 1 arp1) arp1.

(** The request goes to everyone, the packet to the peer that answered; both
    references of the cache are gone at the end. *)
Example resolution_frames :
  l_frames (world arp2) = [Frame 1 5 our_mac peer_mac ETHTYPE_IP; Frame 1 100 our_mac ethbroadcast ETHTYPE_ARP] ∧
  l_refs (world arp2) = {[+ 5 +]} ∧
  arp_table arp2 !! 0%nat = Some (learnt peer_ip 1 peer_mac).
Proof. split; [vm_compute; reflexivity|]. split; [|vm_compute; reflexivity]. apply (bool_decide_unpack (l_refs (world arp2) = {[+ 5 +]})). vm_compute. done. Qed.

Lemma step_example : rtc (arp_step {[1]}) ({[+ 5; 6 +]}, arp0) ({[+ 5 +]}, arp2).
Proof.
  eapply rtc_l; [apply (step_output {[1]} {[+ 5; 6 +]} arp0 1 5 peer_ip ERR_OK arp1)|].
  - set_solver.
  - multiset_solver.
  - vm_compute. reflexivity.
  - vm_compute. reflexivity.
  - eapply rtc_l; [|apply rtc_refl]. replace ({[+ 5; 6 +]} : gmultiset Z) with ({[+ 6 +]} ⊎ {[+ 5 +]} : gmultiset Z) by multiset_solver.
    apply (step_input {[1]} {[+ 5 +]} arp1 6 1 reply_hdr arp2); [set_solver|done|vm_compute; reflexivity|vm_compute; reflexivity].
Qed.


Lemma arp1_ok : arp_ok {[1]} {[+ 5; 6 +]} arp1.
Proof.
  assert (Hstep : arp_step {[1]} ({[+ 5; 6 +]}, arp0) ({[+ 5; 6 +]}, arp1)).
  { apply (step_output {[1]} {[+ 5; 6 +]} arp0 1 5 peer_ip ERR_OK arp1); [set_solver|multiset_solver|vm_compute; reflexivity..]. }
  exact (arp_step_ok _ _ _ Hstep arp0_ok).
Qed.

Lemma arp_entries_expire_witness :
  ∃ a', ticks 300 arp1 = Ok a' ∧ length (arp_table a') = length (arp_table arp1) ∧
    (∀ i e e', arp_table arp1 !! i = Some e → state e = ETHARP_STATE_PENDING → arp_table a' !! i = Some e' →
       state e' = ETHARP_STATE_EMPTY) ∧
    Forall (λ e, state e ≠ ETHARP_STATE_PENDING) (arp_table a') ∧
    (ARP_MAXAGE ≤ Z.of_nat 300 → Forall (λ e, state e = ETHARP_STATE_EMPTY) (arp_table a') ∧ own {[1]} {[+ 5; 6 +]} (world a')).
Proof. apply (arp_entries_expire {[1]} {[+ 5; 6 +]} arp1 300 arp1_ok). unfold ARP_MAXPENDING. lia. Defined.

Lemma etharp_find_entry_policy_witness :
  ∃ r a', etharp_find_entry (Some peer_ip) ETHARP_FLAG_TRY_HARD (Some 2) arp1 = Ok (r, a') ∧ arp_ok {[1]} {[+ 5; 6 +]} a'.
Proof.
  destruct (etharp_find_entry_policy {[1]} {[+ 5; 6 +]} arp1 peer_ip ETHARP_FLAG_TRY_HARD 2 arp1_ok) as (r & a' & Hr & Hok & _).
  exists r, a'. split; [exact Hr|exact Hok].
Defined.

Lemma no_match_init ip nif (w : link) : no_match (arp_table (arp_init w)) ip nif.
Proof. intros j f Hj Hf. apply lookup_replicate in Hj as [-> _]. by destruct Hf. Qed.

Lemma arp_resolution_delivers_witness :
  ∃ i e c, arp_table arp1 !! i = Some e ∧ state e = ETHARP_STATE_PENDING ∧ ipaddr e = peer_ip ∧ e_netif e = 1 ∧ q e = Some c ∧
    (c = 5 ∨ ∃ w w', pk_clone 5 w = Ok (Some c, w')) ∧
    ∀ eth flags n, get_netif 1 (world arp1) = Ok n → ip4_addr_isbroadcast peer_ip n = false →
      ∃ r w1 w2, ethernet_output 1 c (hwaddr n) eth ETHTYPE_IP (world arp1) = Ok (r, w1) ∧ pk_free c w1 = Ok w2 ∧
        etharp_update_arp_entry 1 peer_ip eth flags arp1 =
          Ok (ERR_OK, AState (<[i := learnt peer_ip 1 eth]> (arp_table arp1)) (etharp_cached_entry arp1) w2).
Proof.
  apply (arp_resolution_delivers {[1]} {[+ 6 +]} arp0 1 peer_ip 5 arp1).
  - exact arp0_ok.
  - set_solver.
  - apply no_match_init.
  - vm_compute. reflexivity.
Defined.

Lemma arp2_ok : arp_ok {[1]} {[+ 5 +]} arp2.
Proof. exact (arp_reach_ok {[1]} {[+ 5; 6 +]} link0 ({[+ 5 +]}, arp2) link0_own step_example). Qed.

Lemma etharp_output_known_witness :
  ∃ r a' n1 w1, etharp_output 1 5 peer_ip arp2 = Ok (r, a') ∧ get_netif 1 w1 = Ok n1 ∧
    ethernet_output 1 5 (hwaddr n1) peer_mac ETHTYPE_IP w1 = Ok (r, world a') ∧
    (0 < ARP_AGE_REREQUEST_USED_UNICAST → w1 = world arp2 ∧ arp_table a' = arp_table arp2).
Proof.
  apply (etharp_output_known {[1]} ∅ arp2 1 5 peer_ip eth0 peer_ip 0 (learnt peer_ip 1 peer_mac)).
  - rewrite (right_id_L ∅ (⊎)). exact arp2_ok.
  - set_solver.
  - vm_compute. reflexivity.
  - vm_compute. reflexivity.
  - vm_compute. reflexivity.
  - vm_compute. reflexivity.
  - vm_compute. reflexivity.
  - vm_compute. reflexivity.
Defined.
