(* ===== verification/PbufOwn.v ===== *)
(** * Packet buffers: packets held by one owner

    A component that queues packets holds the structs of several packets at the same
    time.  [excl s F] says that the structs [F] are in use, have one reference each and
    payloads that do not overlap: nobody else uses them.  The operations of pbuf.c on
    such packets are functions of the list of structs.

    [excl] says nothing of the structs outside [F].  That a packet has been released is
    said by the map of the structs in use: [without], and [confined], which bounds it. *)

From S2P Require Import Prelude ByteMem Pbuf PbufFacts PbufData PbufLife PbufChain.

Implicit Types (l F G : list (Z * pbuf)) (d : bytes).

(** ** Lists of structs *)

(** [l] is linked through [next] and starts at [p]. *)
Fixpoint linked (p : option Z) l : Prop :=
  match l with [] => p = None | (a, q) :: l => p = Some a ∧ linked (next q) l end.

Lemma chain_linked m p l : chain m p l ↔ linked p l ∧ Forall (λ x, m !! x.1 = Some x.2) l.
Proof.
  revert p; induction l as [|[a q] l IH]; intros p; simpl; [naive_solver|].
  rewrite IH, Forall_cons. simpl. naive_solver.
Qed.

Lemma away_perm a n F G : F ≡ₚ G → away a n F → away a n G.
Proof. unfold away. by intros ->. Qed.

Lemma sep_perm F G : F ≡ₚ G → sep F → sep G.
Proof.
  induction 1 as [|[a q] F G HFG IH|[a q] [b r] F|F G K _ IH1 _ IH2]; simpl.
  - done.
  - intros [Ha Hs]. split; [by eapply away_perm|auto].
  - rewrite !away_cons. intros ([Hab Ha] & Hb & Hs). split_and!; try done. lia.
  - auto.
Qed.

Lemma sep_away F a q G : sep ((a, q) :: F ++ G) → away (payload q) (len q) F ∧ away (payload q) (len q) G.
Proof. simpl. by intros [?%away_app _]. Qed.

(** ** What changes in memory: nothing in the payloads of [F], no object disappears *)

Definition keeps F d d' : Prop :=
  (∀ x i, x ∈ F → 0 ≤ i < len x.2 → d' !! (payload x.2 + i) = d !! (payload x.2 + i)) ∧
  ∀ i, is_Some (d !! i) → is_Some (d' !! i).

Lemma keeps_refl F d : keeps F d d.
Proof. done. Qed.

Lemma keeps_trans F d1 d2 d3 : keeps F d1 d2 → keeps F d2 d3 → keeps F d1 d3.
Proof. intros [H1 D1] [H2 D2]. split; [|eauto]. intros x i Hx Hi. by rewrite H2, H1. Qed.

Lemma keeps_sub F G d d' : F ⊆ G → keeps G d d' → keeps F d d'.
Proof. intros Hs [Hk Hd]. split; [|done]. intros x i Hx. apply Hk. by apply Hs. Qed.

Lemma keeps_mread F d d' a q : keeps F d d' → (a, q) ∈ F → ∀ off n,
  0 ≤ off → off + Z.of_nat n ≤ len q → mread d' (payload q + off) n = mread d (payload q + off) n.
Proof.
  intros [Hk _] Hin off n Ho Hn. apply mread_ext. intros i Hi.
  replace i with (payload q + (i - payload q)) by lia. apply (Hk (a, q)); [done|simpl; lia].
Qed.

Lemma keeps_content F d d' l : keeps F d d' → l ⊆ F → lens_ok l → content d' l = content d l.
Proof.
  intros Hk. induction l as [|[a q] l IH]; simpl; [done|]. intros Hs (Hq & _ & _ & Hl).
  rewrite IH; [|intros x Hx; apply Hs; by right|done]. rewrite <-(Z.add_0_r (payload q)) at 1.
  rewrite (keeps_mread F d d' a q); [by rewrite Z.add_0_r|done|apply Hs; by left|lia..].
Qed.

Lemma keeps_mapped F d d' a n : keeps F d d' → mapped d a n → mapped d' a n.
Proof. intros [_ Hd] Hm i Hi. apply Hd. by apply Hm. Qed.

Lemma keeps_mwrite F d a w : away a (zlen w) F → keeps F d (mwrite d a w).
Proof.
  intros Ha. split.
  - intros [b q] i Hin Hi. rewrite lookup_mwrite, bool_decide_eq_false_2; [done|]. simpl in *.
    unfold away in Ha. rewrite Forall_forall in Ha. specialize (Ha _ Hin). simpl in Ha. lia.
  - intros i Hi. rewrite lookup_mwrite. case_bool_decide; [|done]. apply lookup_lt_is_Some. unfold zlen in *. lia.
Qed.

#[export] Hint Resolve keeps_refl keeps_trans : core.

(** The structs at [addrs] leave the map of the structs in use. *)
Definition without (m : gmap Z pbuf) (addrs : list Z) : gmap Z pbuf := foldr delete m addrs.

Lemma dom_without (m : gmap Z pbuf) addrs : dom (without m addrs) = dom m ∖ list_to_set addrs.
Proof.
  apply set_eq. intros a. unfold without. rewrite elem_of_difference, elem_of_list_to_set, !elem_of_dom. destruct (decide (a ∈ addrs)) as [Ha|Ha].
  - rewrite lookup_foldr_delete_eq by done. split; [by intros [? ?]|by intros [_ ?]].
  - rewrite lookup_foldr_delete_ne by done. tauto.
Qed.

Lemma without_insert (m : gmap Z pbuf) a q addrs : a ∈ addrs → without (<[a := q]> m) addrs = without m addrs.
Proof.
  intros Ha. apply map_eq. intros b. unfold without. destruct (decide (b ∈ addrs)) as [Hb|Hb]; [by rewrite !lookup_foldr_delete_eq|].
  rewrite !lookup_foldr_delete_ne by done. rewrite lookup_insert_ne; [done|]. by intros ->.
Qed.

(** ** Ownership *)

Section own.
Context {A : Type} `{AllocatorLaws A}.
Implicit Types s : pstate A.

(** The payload of a struct lies in the block of the struct, or, for a reference and a custom
    struct, outside the memory of the allocators. *)
Definition placed (L : gmap Z src) (x : Z * pbuf) : Prop :=
  match L !! x.1 with
  | Some (SrcHeap n) => x.1 + SIZEOF_STRUCT_PBUF ≤ payload x.2 ∧ payload x.2 + len x.2 ≤ x.1 + n
  | Some (SrcPool MEMP_PBUF_POOL) =>
      x.1 + SIZEOF_STRUCT_PBUF ≤ payload x.2 ∧ payload x.2 + len x.2 ≤ x.1 + src_size (SrcPool MEMP_PBUF_POOL)
  | _ => 0 ≤ len x.2 ∧ ∀ i, payload x.2 ≤ i ≤ payload x.2 + len x.2 → ¬ al_arena i
  end.

Definition arena_mapped d : Prop := ∀ i, al_arena i → is_Some (d !! i).

Definition excl s F : Prop :=
  (∃ L, pstate_ok s L ∧ Forall (placed L) F) ∧ NoDup F.*1 ∧ sep F ∧
  Forall (λ x, pb s !! x.1 = Some x.2 ∧ ref x.2 = 1) F ∧ arena_mapped (dat s).

Lemma placed_ext L L' x : L' !! x.1 = L !! x.1 → placed L x → placed L' x.
Proof. unfold placed. by intros ->. Qed.

(** The payload gets smaller or stays. *)
Lemma placed_sub L a q q' : placed L (a, q) → payload q ≤ payload q' → payload q' + len q' ≤ payload q + len q →
  (0 ≤ len q → 0 ≤ len q') → placed L (a, q').
Proof.
  unfold placed. simpl. intros Hp H1 H2 H3. destruct (L !! a) as [[n|[]|]|]; try (destruct Hp as [Hl Hp]; split; [by apply H3|]; intros i Hi; apply Hp); lia.
Qed.

Lemma excl_perm s F G : F ≡ₚ G → excl s F → excl s G.
Proof.
  intros Hp ((L & HL & Hpl) & Hn & Hs & Hf & Hm).
  split_and!; [exists L; by rewrite <-Hp|by rewrite <-Hp|by eapply sep_perm|by rewrite <-Hp|done].
Qed.

Lemma excl_app_r s F G : excl s (F ++ G) → excl s G.
Proof.
  unfold excl. rewrite fmap_app. intros ((L & HL & Hpl) & Hn & Hs & Hf & Hm). apply NoDup_app in Hn as (_ & _ & Hn).
  apply sep_app in Hs as (_ & Hs & _). apply Forall_app in Hf as [_ Hf], Hpl as [_ Hpl]. split; [by exists L|done].
Qed.

Lemma excl_get s F a q : excl s F → (a, q) ∈ F → pb s !! a = Some q ∧ ref q = 1.
Proof. intros (_ & _ & _ & Hf & _) Hin. rewrite Forall_forall in Hf. by apply (Hf (a, q)). Qed.

Lemma excl_getp s F a q : excl s F → (a, q) ∈ F → getp a s = Ok q.
Proof. intros Ho Hin. apply getp_some. by eapply excl_get. Qed.

Lemma excl_addr s F a q : excl s F → (a, q) ∈ F → 0 < a < 4294967296.
Proof.
  intros Ho Hin. destruct (excl_get _ _ _ _ Ho Hin) as [Hb _]. destruct Ho as ((L & (Ha & Hp) & _) & _).
  destruct (Hp _ _ Hb) as (x & Hx & _). destruct (al_aligned _ _ _ _ Ha Hx) as (_ & ? & ?).
  lia.
Qed.

Lemma excl_length s F : excl s F → (length F ≤ size (pb s))%nat.
Proof.
  intros (_ & Hn & _ & Hf & _). rewrite <-(length_fmap fst), <-size_dom. rewrite <-(size_list_to_set (C:=gset Z)) by done.
  apply subseteq_size. intros a Ha. apply elem_of_list_to_set, list_elem_of_fmap in Ha as (x & -> & Hx).
  rewrite Forall_forall in Hf. destruct (Hf _ Hx) as [Hp _]. by eapply elem_of_dom_2.
Qed.

Lemma excl_set_dat s F G d : excl s F → keeps G (dat s) d → excl (set_dat d s) F.
Proof.
  intros (HL & Hn & Hs & Hf & Hm) [_ Hk]. split_and!; try done. intros i Hi. by apply Hk, Hm.
Qed.

Lemma excl_chain s l G p : excl s (l ++ G) → linked p l → chain (pb s) p l.
Proof.
  intros (_ & _ & _ & Hf & _) Hl. apply chain_linked. split; [done|]. apply Forall_app in Hf as [Hf _].
  by eapply Forall_impl; [exact Hf|]; intros x [? _].
Qed.

Lemma excl_disj s l G : excl s (l ++ G) → l.*1 ## G.*1.
Proof. intros (_ & Hn & _). rewrite fmap_app in Hn. apply NoDup_app in Hn as (_ & Hn & _). done. Qed.

(** ** The operations *)

Lemma clen_loop_ok l : ∀ fuel p n s, chain (pb s) p l → (length l ≤ fuel)%nat → n + zlen l < 65536 → 0 ≤ n →
  pbuf_clen_loop fuel p n s = Ok (n + zlen l).
Proof.
  induction l as [|[a q] l IH]; intros fuel p n s Hc Hf Hn Hn0.
  - simpl in Hc. subst p. destruct fuel; simpl; f_equal; unfold zlen; simpl; lia.
  - destruct Hc as (-> & Ha & Hc). destruct fuel as [|fuel]; [simpl in Hf; lia|]. cbn [pbuf_clen_loop].
    rewrite (getp_some _ _ _ Ha). cbn [mbind res_bind]. unfold zlen in *. cbn [length] in *.
    rewrite u16_id by ulia. rewrite IH; [f_equal; lia|done|lia|lia|lia].
Qed.

Lemma excl_clen s l G p : excl s (l ++ G) → linked (Some p) l → zlen l < 65536 → pbuf_clen (Some p) s = Ok (zlen l).
Proof.
  intros Ho Hl Hn. pose proof (excl_chain _ _ _ _ Ho Hl) as Hc. unfold pbuf_clen.
  rewrite (clen_loop_ok l) by (done || (pose proof (chain_fuel_enough _ _ _ Hc); lia)). done.
Qed.

(** Every struct in use is one of [F] or at an address of [D]. *)
Definition confined s (D : gset Z) F : Prop := dom (pb s) ⊆ D ∪ list_to_set F.*1.

Lemma confined_perm s D F G : F ≡ₚ G → confined s D F → confined s D G.
Proof. unfold confined. intros HFG Hc a Ha. specialize (Hc a Ha). rewrite elem_of_union, elem_of_list_to_set in *. by rewrite <-HFG. Qed.

Lemma confined_free s s' D l G : pb s' = without (pb s) l.*1 → confined s D (l ++ G) → confined s' D G.
Proof. unfold confined. intros ->. rewrite dom_without, fmap_app, list_to_set_app_L. clear. set_solver. Qed.

(** pbuf_free returns the structs of the packet to their allocators. *)
Lemma excl_free s l G p : excl s (l ++ G) → linked (Some p) l →
  ∃ n s', pbuf_free (Some p) s = Ok (n, s') ∧ excl s' G ∧ dat s' = dat s ∧ pb s' = without (pb s) l.*1.
Proof.
  intros Ho Hl. pose proof (excl_chain _ _ _ _ Ho Hl) as Hc. pose proof (excl_disj _ _ _ Ho) as Hd.
  destruct Ho as ((L & HL & Hpl) & Hn & Hs & Hf & Hm). apply Forall_app in Hf as [Hf1 Hf2].
  destruct (free_ok s L p l []) as (a & Hfree & Hok); [done|by rewrite app_nil_r|split; [|done]|].
  { eapply Forall_impl; [exact Hf1|]. by intros x [_ ?]. }
  eexists _, _. split; [exact Hfree|]. rewrite fmap_app in Hn. apply NoDup_app in Hn as (Hn1 & _ & Hn2).
  split; [|split; [done|]]; [split_and!|].
  - eexists. split; [exact Hok|]. apply Forall_app in Hpl as [_ Hpl]. rewrite Forall_forall in Hpl |- *.
    intros x Hx. eapply placed_ext; [|by apply Hpl]. apply lookup_foldr_delete_ne. intros Hin. apply (Hd x.1); [done|].
    apply list_elem_of_fmap. by exists x.
  - done.
  - by apply sep_app in Hs as (_ & Hs & _).
  - rewrite Forall_forall in Hf2 |- *. intros x Hx. cbn [pb freed]. rewrite lookup_foldr_delete_ne; [by apply Hf2|].
    intros Hin. apply (Hd x.1); [done|]. apply list_elem_of_fmap. by exists x.
  - done.
  - done.
Qed.

Lemma excl_remove_header s b q G n : excl s ((b, q) :: G) → 0 < n → n ≤ len q → len q ≤ tot_len q → tot_len q ≤ 65535 →
  ∃ s', pbuf_remove_header (Some b) n s = Ok (0, s') ∧ excl s' ((b, grown (-n) q) :: G) ∧ dat s' = dat s.
Proof.
  intros Ho Hn0 Hn Ht Hb. destruct (excl_get _ _ b q Ho) as [Hq Hr]; [by left|].
  unfold pbuf_remove_header. replace (65535 <? n) with false by lia. replace (n =? 0) with false by lia.
  rewrite (getp_some _ _ _ Hq). cbn [mbind res_bind]. rewrite (u16_id n) by ulia. replace (n <=? len q) with true by lia.
  cbn [LWIP_ASSERT mbind res_bind]. rewrite !u16_id by ulia. eexists. split; [done|].
  destruct Ho as ((L & HL & Hpl) & Hd & Hs & Hf & Hm). split; [|done]. split_and!.
  - exists L. split; [by apply (pstate_ok_put s L b q)|]. apply Forall_cons in Hpl as [Hpl Hpl2]. apply Forall_cons.
    split; [|done]. eapply placed_sub; [exact Hpl|simpl; lia..].
  - done.
  - destruct Hs as [Ha Hs]. split; [|done]. eapply away_mono; [| |exact Ha]; simpl; lia.
  - apply Forall_cons in Hf as [_ Hf]. apply Forall_cons. split.
    + simpl. rewrite lookup_insert_eq. split; [|done]. unfold grown. repeat f_equal; lia.
    + apply NoDup_cons in Hd as [Hd _]. rewrite Forall_forall in Hf |- *. intros x Hx. simpl.
      rewrite lookup_insert_ne; [by apply Hf|]. intros ->. apply Hd. apply list_elem_of_fmap. by exists x.
  - done.
Qed.

Lemma linked_path m p l e : path m p l e → ∀ l', linked e l' → linked p (l ++ l').
Proof. revert p; induction l as [|[a q] l IH]; simpl; intros p; [naive_solver|]. intros (-> & _ & Hp) l' Hl. eauto. Qed.

Lemma path_structs m p l e : path m p l e → Forall (λ x, m !! x.1 = Some x.2) l.
Proof. revert p; induction l as [|[a q] l IH]; simpl; intros p Hp; [done|]. apply Forall_cons. naive_solver. Qed.

Lemma cat_list_sep t T l G : sep (l ++ G) → sep (cat_list t T l ++ G).
Proof.
  assert (Haw : ∀ a n l, away a n l → away a n (cat_list t T l)).
  { clear. intros a n l. induction l as [|[b r] l IH]; [done|]. intros [Hb Ha]%away_cons.
    destruct l as [|[c x] l]; [apply away_cons; split; [exact Hb|done]|].
    change (away a n ((b, with_tot_len (tot_len r + T) r) :: cat_list t T ((c, x) :: l))).
    apply away_cons. split; [exact Hb|by apply IH]. }
  induction l as [|[a q] l IH]; [done|]. intros [Ha Hs].
  destruct l as [|[b r] l]; [done|].
  change (away (payload q) (len q) (cat_list t T ((b, r) :: l) ++ G) ∧ sep (cat_list t T ((b, r) :: l) ++ G)).
  apply away_app in Ha as [Ha1 Ha2]. split; [|by apply IH]. apply away_app. split; [by apply Haw|done].
Qed.

(** The structs of [cat_list] differ in [next] and [tot_len] only. *)
Lemma cat_list_elem t T l a q' : (a, q') ∈ cat_list t T l →
  ∃ q, (a, q) ∈ l ∧ flags q' = flags q ∧ type_internal q' = type_internal q ∧ ref q' = ref q ∧
    payload q' = payload q ∧ len q' = len q.
Proof.
  induction l as [|[b r] l IH]; [by intros ?%not_elem_of_nil|]. destruct l as [|[c x] l].
  - intros [=-> ->]%list_elem_of_singleton. exists r. split; [by left|done].
  - change (cat_list t T ((b, r) :: (c, x) :: l)) with ((b, with_tot_len (tot_len r + T) r) :: cat_list t T ((c, x) :: l)).
    intros [[=-> ->]|Hin]%elem_of_cons; [exists r; split; [by left|done]|].
    destruct (IH Hin) as (q & Hq & ?). exists q. split; [by right|done].
Qed.

(** pbuf_cat appends a packet of the same owner. *)
Lemma excl_cat s h t l1 l2 G : excl s (l1 ++ l2 ++ G) → linked (Some h) l1 → linked (Some t) l2 →
  lens_ok l1 → lens_ok l2 → bytes_in l1 + bytes_in l2 ≤ 65535 →
  ∃ s', let l := cat_list t (bytes_in l2) l1 ++ l2 in
    pbuf_cat (Some h) (Some t) s = Ok s' ∧ excl s' (l ++ G) ∧ dat s' = dat s ∧ linked (Some h) l ∧ lens_ok l.
Proof.
  intros Ho Hl1 Hl2 Hn1 Hn2 Hb. pose proof (excl_chain _ _ _ _ Ho Hl1) as Hc1.
  assert (Hc2 : chain (pb s) (Some t) l2)
    by (eapply (excl_chain s l2 (l1 ++ G)); [eapply excl_perm; [|exact Ho]; solve_Permutation|done]).
  pose proof (excl_disj _ _ _ Ho) as Hd. rewrite fmap_app in Hd.
  destruct (cat_ok s h t l1 l2) as (m & Hcat & Hpath & Hch & Hfr); try done.
  { intros x Hx Hx2. apply (Hd x Hx). apply elem_of_app. by left. }
  destruct Ho as ((L & (Ha & HL) & Hpl) & Hnd & Hs & Hf & Hm). apply Forall_app in Hf as [Hf1 Hf2].
  pose proof (path_structs _ _ _ _ Hpath) as Hps. rewrite Forall_forall in Hps, Hf1, Hf2.
  exists (PState m (dat s) (al s) (pbuf_free_ooseq_pending s)). split; [done|].
  split; [|split; [done|split; [by eapply linked_path|by apply cat_list_lens]]]. split_and!.
  - exists L. split; [split; [done|]|].
    2: { rewrite <-app_assoc. apply Forall_app in Hpl as [Hpl1 Hpl2]. apply Forall_app. split; [|done].
         rewrite Forall_forall in Hpl1 |- *. intros [a q'] Hx. destruct (cat_list_elem _ _ _ _ _ Hx) as (r & Hr & _ & _ & _ & Hpay & Hlen).
         eapply placed_sub; [exact (Hpl1 _ Hr)|lia..]. }
    simpl. intros a q Hq. destruct (decide (a ∈ l1.*1)) as [Hin|Hin].
    + rewrite <-(cat_list_fst t (bytes_in l2)) in Hin. apply list_elem_of_fmap in Hin as ([b q'] & -> & Hin).
      specialize (Hps _ Hin). simpl in *. destruct (cat_list_elem _ _ _ _ _ Hin) as (r & Hr & Hfl & Hty & _).
      destruct (Hf1 _ Hr) as [Hb' _]. destruct (HL _ _ Hb') as (x & Hx & Hsx). exists x. split; [done|].
      simplify_eq. unfold src_ok, is_custom, pbuf_get_allocsrc in *. by rewrite Hfl, Hty.
    + rewrite Hfr in Hq by done. by apply HL.
  - rewrite !fmap_app, cat_list_fst. rewrite !fmap_app in Hnd. by rewrite <-app_assoc.
  - rewrite <-app_assoc. by apply cat_list_sep.
  - rewrite <-app_assoc. apply Forall_app. rewrite !Forall_forall. split; intros [a q] Hx.
    + split; [by apply Hps|]. destruct (cat_list_elem _ _ _ _ _ Hx) as (r & Hr & _ & _ & Hrr & _). simpl.
      rewrite Hrr. by apply (Hf1 (a, r)).
    + simpl. rewrite Hfr; [by apply (Hf2 (a, q))|]. intros Hx1. apply (Hd a Hx1). rewrite <-fmap_app.
      apply list_elem_of_fmap. by exists (a, q).
  - done.
Qed.

(** The memory of a heap block that is not one of the blocks of [F] does not belong to the
    payloads of [F]. *)
Lemma block_away s L F p n m : pstate_ok s L → Forall (placed L) F → Forall (λ x, is_Some (L !! x.1)) F →
  L !! p = Some (SrcHeap n) → p ∉ F.*1 → ∀ a, p ≤ a → a + m ≤ p + n → 0 < m → away a m F.
Proof.
  intros [Ha _] Hpl Hin Hp Hnot a Ha1 Ha2 Hm. unfold away. rewrite Forall_forall in *. intros [b q] Hx.
  specialize (Hpl _ Hx). specialize (Hin _ Hx) as [y Hy]. cbn [fst snd] in *.
  assert (Hne : p ≠ b) by (intros ->; apply Hnot, list_elem_of_fmap; by exists (b, q)).
  pose proof (al_disjoint _ _ _ _ _ _ Ha Hp Hy Hne) as Hd. unfold placed in Hpl. cbn [fst snd] in Hpl. rewrite Hy in Hpl.
  destruct (decide (a + m ≤ payload q)) as [|Hn1]; [by left|]. destruct (decide (payload q + len q ≤ a)) as [|Hn2]; [by right|].
  destruct y as [k|[]|]; cbn [src_size] in *; change SIZEOF_STRUCT_PBUF with 16 in *; try lia.
  all: destruct Hpl as [Hlen Hpl]; exfalso; eapply (Hpl (Z.max a (payload q))); [lia|]; eapply al_inside; [exact Ha|exact Hp|done|]; cbn [src_size]; lia.
Qed.

Lemma excl_blocks s L F : pstate_ok s L → Forall (λ x, pb s !! x.1 = Some x.2 ∧ ref x.2 = 1) F → Forall (λ x, is_Some (L !! x.1)) F.
Proof.
  intros [_ Hp] Hf. eapply Forall_impl; [exact Hf|]. intros x [Hx _]. destruct (Hp _ _ Hx) as (y & Hy & _). by exists y.
Qed.

(** pbuf_alloc of a packet in the heap. *)
Lemma excl_alloc_ram s F layer n : excl s F → 0 ≤ layer ≤ PBUF_TRANSPORT → 0 < n ≤ 65535 →
  ∃ r s', pbuf_alloc layer n PBUF_RAM s = Ok (r, s') ∧ dat s' = dat s ∧
    match r with
    | None => excl s' F
    | Some p => ∃ q, excl s' ((p, q) :: F) ∧ next q = None ∧ len q = n ∧ tot_len q = n ∧
        mapped (dat s) (payload q) n ∧ payload q mod 4 = 0 ∧ p + SIZEOF_STRUCT_PBUF + layer ≤ payload q
    end.
Proof.
  intros ((L & HL & Hpl) & Hnd & Hs & Hf & Hm) Hlay Hn.
  destruct (alloc_ram_ok s L layer n HL Hlay) as (r & s' & Hr & Hd & Hres); [unfold is_u16; lia|].
  exists r, s'. split; [done|]. split; [done|]. pose proof (excl_blocks _ _ _ HL Hf) as Hblk. destruct r as [p|].
  - destruct Hres as (m & q & HL' & Hfresh & Hpb & Hp1 & Hp2 & Hal & Hnx & Hlq & Htq & Hrq & Hnew).
    assert (Hnot : p ∉ F.*1).
    { intros (x & -> & Hx)%list_elem_of_fmap. rewrite Forall_forall in Hf. destruct (Hf _ Hx). congruence. }
    assert (Hpl' : Forall (placed (<[p := SrcHeap m]> L)) F).
    { rewrite Forall_forall in Hpl |- *. intros x Hx. eapply placed_ext; [|by apply Hpl]. apply lookup_insert_ne.
      intros ->. apply Hnot, list_elem_of_fmap. by exists x. }
    assert (HLp : <[p := SrcHeap m]> L !! p = Some (SrcHeap m)) by apply lookup_insert_eq.
    exists q. change SIZEOF_STRUCT_PBUF with 16 in *. split_and!; try done.
    + split_and!; [|by apply NoDup_cons|split; [|done]| |by rewrite Hd].
      * exists (<[p := SrcHeap m]> L). split; [done|]. apply Forall_cons. split; [|done]. unfold placed. cbn [fst snd].
        rewrite HLp. change SIZEOF_STRUCT_PBUF with 16. lia.
      * eapply (block_away s' (<[p := SrcHeap m]> L) F p m); try done; try lia. eapply Forall_impl; [exact Hblk|].
        intros x [y Hy]. destruct (decide (x.1 = p)) as [->|]; [by rewrite HLp|]. rewrite lookup_insert_ne by done. by exists y.
      * rewrite Hpb. apply Forall_cons. split; [by rewrite lookup_insert_eq|]. rewrite Forall_forall in Hf |- *. intros x Hx.
        rewrite lookup_insert_ne; [by apply Hf|]. intros ->. apply Hnot, list_elem_of_fmap. by exists x.
    + intros i Hi. apply Hm. destruct HL' as [Ha' _]. eapply al_inside; [exact Ha'|exact HLp|done|]. cbn [src_size]. lia.
  - destruct Hres as [HL' Hpb]. split_and!; [by exists L|done|done|by rewrite Hpb|by rewrite Hd].
Qed.

End own.
