(* ===== verification/Ip4Frag.v ===== *)
(** * IPv4 reassembly: core/ipv4/ip4_frag.c

    Fragments of a datagram wait in a queue until all of them arrived.  A queue is a
    [struct ip_reassdata] from the pool MEMP_REASSDATA, the queues form a linked list
    headed by [reassdatagrams].  The fragments of a queue are linked through a
    [struct ip_reass_helper] that overwrites the first 8 bytes of each fragment's IP
    header, so that the model keeps it in byte memory: the pointer [next_pbuf] (32 bit),
    [start] and [end].

    The packets are those of Pbuf.v.  ICMP is reached through the class [ReassEnv].
    Configuration: IP_REASSEMBLY 1, IP_REASS_CHECK_OVERLAP 1, IP_REASS_FREE_OLDEST 1,
    IP_REASS_MAXAGE 15, IP_REASS_MAX_PBUFS 10, LWIP_ICMP 1, CHECKSUM_GEN_IP 0. *)

From S2P Require Import Prelude ByteMem Def MempPool Pbuf.

(** ** struct ip_hdr: the 20 bytes as they are in memory *)

Definition ip_hdr : Type := list Z.

Definition IP_HLEN : Z := 20.
Definition IP_MF : Z := 8192.
Definition IP_OFFMASK : Z := 8191.

Definition IPH_HL (hdr : ip_hdr) : Z := Z.land (nth 0 hdr 0) 15.
Definition IPH_HL_BYTES (hdr : ip_hdr) : Z := u8 (IPH_HL hdr * 4).
Definition IPH_LEN (hdr : ip_hdr) : Z := rd16 hdr 2.
Definition IPH_ID (hdr : ip_hdr) : Z := rd16 hdr 4.
Definition IPH_OFFSET (hdr : ip_hdr) : Z := rd16 hdr 6.
Definition IPH_OFFSET_BYTES (hdr : ip_hdr) : Z := u16 (Z.land (lwip_htons (IPH_OFFSET hdr)) IP_OFFMASK * 8).
Definition iph_src (hdr : ip_hdr) : Z := rd32 hdr 12.
Definition iph_dest (hdr : ip_hdr) : Z := rd32 hdr 16.

Definition ld_hdr (d : bytes) (a : Z) : res ip_hdr := deref (mread d a 20).

Definition IP_ADDRESSES_AND_ID_MATCH (a b : ip_hdr) : bool :=
  (iph_src a =? iph_src b) && (iph_dest a =? iph_dest b) && (IPH_ID a =? IPH_ID b).

(** ** struct ip_reass_helper *)

Definition iprh_next (d : bytes) (a : Z) : res (option Z) :=
  l ← deref (mread d a 4); let v := rd32 l 0 in Ok (if v =? 0 then None else Some v).
Definition iprh_start (d : bytes) (a : Z) : res Z := l ← deref (mread d (a + 4) 2); Ok (rd16 l 0).
Definition iprh_end (d : bytes) (a : Z) : res Z := l ← deref (mread d (a + 6) 2); Ok (rd16 l 0).

Definition ptr_value (p : option Z) : Z := match p with Some a => a | None => 0 end.
Definition iprh_set_next (a : Z) (p : option Z) (d : bytes) : res bytes := mstore a (word32 (ptr_value p)) d.
Definition iprh_set_start (a v : Z) (d : bytes) : res bytes := mstore (a + 4) (word16 v) d.
Definition iprh_set_end (a v : Z) (d : bytes) : res bytes := mstore (a + 6) (word16 v) d.

(** ** The queues *)

Record ip_reassdata := Reass {
  rnext : option Z; rp : option Z; iphdr : ip_hdr; datagram_len : Z; rflags : Z; timer : Z }.

Definition IP_REASS_FLAG_LASTFRAG : Z := 1.
Definition IP_REASS_MAXAGE : Z := 15.
Definition IP_REASS_MAX_PBUFS : Z := 10.
Definition ICMP_TE_FRAG : Z := 1.

Definition IP_REASS_VALIDATE_TELEGRAM_FINISHED : Z := 1.
Definition IP_REASS_VALIDATE_PBUF_QUEUED : Z := 0.
Definition IP_REASS_VALIDATE_PBUF_DROPPED : Z := -1.

Definition with_rnext v (r : ip_reassdata) := Reass v (rp r) (iphdr r) (datagram_len r) (rflags r) (timer r).
Definition with_rp v (r : ip_reassdata) := Reass (rnext r) v (iphdr r) (datagram_len r) (rflags r) (timer r).
Definition with_iphdr v (r : ip_reassdata) := Reass (rnext r) (rp r) v (datagram_len r) (rflags r) (timer r).
Definition with_last v (r : ip_reassdata) :=
  Reass (rnext r) (rp r) (iphdr r) v (Z.lor (rflags r) IP_REASS_FLAG_LASTFRAG) (timer r).
Definition with_timer v (r : ip_reassdata) := Reass (rnext r) (rp r) (iphdr r) (datagram_len r) (rflags r) v.

(** [icmp_time_exceeded(p, code)] answers the packet [p]. *)
Class ReassEnv (A : Type) := {
  icmp_time_exceeded : Z → Z → pstate A → res (pstate A)
}.

(** [rd] holds the structs in use by address, [rpool] is the pool MEMP_REASSDATA. *)
Record rstate (A P : Type) := RState {
  ps : pstate A; rd : gmap Z ip_reassdata; reassdatagrams : option Z; ip_reass_pbufcount : Z; rpool : P }.
Arguments RState {A P} _ _ _ _ _.
Arguments ps {A P} _.
Arguments rd {A P} _.
Arguments reassdatagrams {A P} _.
Arguments ip_reass_pbufcount {A P} _.
Arguments rpool {A P} _.

Section operations.
Context {A P : Type} `{Allocator A} `{ReassEnv A} `{Pool P}.
Implicit Types w : rstate A P.

Definition set_ps s w : rstate A P := RState s (rd w) (reassdatagrams w) (ip_reass_pbufcount w) (rpool w).
Definition set_rd m w : rstate A P := RState (ps w) m (reassdatagrams w) (ip_reass_pbufcount w) (rpool w).
Definition set_head r w : rstate A P := RState (ps w) (rd w) r (ip_reass_pbufcount w) (rpool w).
Definition set_count n w : rstate A P := RState (ps w) (rd w) (reassdatagrams w) n (rpool w).
Definition set_rpool p w : rstate A P := RState (ps w) (rd w) (reassdatagrams w) (ip_reass_pbufcount w) p.

Definition getr (r : Z) w : res ip_reassdata := deref (rd w !! r).
Definition putr (r : Z) (x : ip_reassdata) w : rstate A P := set_rd (<[r := x]> (rd w)) w.
Definition modr (r : Z) (f : ip_reassdata → ip_reassdata) w : res (rstate A P) := x ← getr r w; Ok (putr r (f x) w).

(** A store into byte memory. *)
Definition rstore (f : bytes → res bytes) w : res (rstate A P) :=
  d ← f (dat (ps w)); Ok (set_ps (set_dat d (ps w)) w).
Definition rdat w : bytes := dat (ps w).

(** Enough for every walk along a list of queues or of fragments. *)
Definition reass_fuel w : nat := S (size (rd w)).
Definition frags_fuel w : nat := chain_fuel (ps w).

(** ** Dequeueing *)

Definition ip_reass_dequeue_datagram (ipr : Z) (prev : option Z) w : res (rstate A P) :=
  r ← getr ipr w;
  w ← (if bool_decide (reassdatagrams w = Some ipr) then Ok (set_head (rnext r) w)
       else match prev with
            | None => Assert
            | Some prev => modr prev (with_rnext (rnext r)) w
            end);
  p ← pool_free ipr (rpool w);
  Ok (set_rpool p (set_rd (delete ipr (rd w)) w)).

(** The loop that releases the fragments of a queue. *)
Fixpoint free_frags (fuel : nat) (p : option Z) (pbufs_freed : Z) w : res (Z * rstate A P) :=
  match p with
  | None => Ok (pbufs_freed, w)
  | Some pcur =>
      match fuel with
      | O => Stuck
      | S fuel =>
          b ← getp pcur (ps w);
          p ← iprh_next (rdat w) (payload b);
          clen ← pbuf_clen (Some pcur) (ps w);
          LWIP_ASSERT (pbufs_freed + clen <=? 65535);;
          '(_, s) ← pbuf_free (Some pcur) (ps w);
          free_frags fuel p (u16 (pbufs_freed + clen)) (set_ps s w)
      end
  end.

(** Answer with ICMP and release the fragment with offset 0, which is [p]. *)
Definition free_first_frag (ipr p iprh : Z) w : res (Z * rstate A P) :=
  r ← getr ipr w;
  next_pbuf ← iprh_next (rdat w) iprh;
  let w := putr ipr (with_rp next_pbuf r) w in
  w ← rstore (mstore iprh (iphdr r)) w;
  s ← icmp_time_exceeded p ICMP_TE_FRAG (ps w);
  clen ← pbuf_clen (Some p) s;
  LWIP_ASSERT (0 + clen <=? 65535);;
  '(_, s) ← pbuf_free (Some p) s;
  Ok (u16 (0 + clen), set_ps s w).

Definition ip_reass_free_complete_datagram (ipr : Z) (prev : option Z) w : res (Z * rstate A P) :=
  LWIP_ASSERT (negb (bool_decide (prev = Some ipr)));;
  (match prev with
   | None => Ok tt
   | Some prev => r ← getr prev w; LWIP_ASSERT (bool_decide (rnext r = Some ipr))
   end);;
  r ← getr ipr w;
  p ← deref (rp r);
  b ← getp p (ps w);
  start ← iprh_start (rdat w) (payload b);
  '(pbufs_freed, w) ← (if start =? 0 then free_first_frag ipr p (payload b) w else Ok (0, w));
  r ← getr ipr w;
  '(pbufs_freed, w) ← free_frags (frags_fuel w) (rp r) pbufs_freed w;
  w ← ip_reass_dequeue_datagram ipr prev w;
  LWIP_ASSERT (pbufs_freed <=? ip_reass_pbufcount w);;
  Ok (pbufs_freed, set_count (u16 (ip_reass_pbufcount w - pbufs_freed)) w).

(** ** Time *)

Fixpoint reass_tmr_loop (fuel : nat) (r prev : option Z) w : res (rstate A P) :=
  match r with
  | None => Ok w
  | Some a =>
      match fuel with
      | O => Stuck
      | S fuel =>
          x ← getr a w;
          if 0 <? timer x then
            reass_tmr_loop fuel (rnext x) r (putr a (with_timer (u8 (timer x - 1)) x) w)
          else
            '(_, w) ← ip_reass_free_complete_datagram a prev w;
            reass_tmr_loop fuel (rnext x) prev w
      end
  end.

Definition ip_reass_tmr w : res (rstate A P) := reass_tmr_loop (reass_fuel w) (reassdatagrams w) None w.

(** ** Making room *)

(** The inner loop: the oldest queue that is not the one of [fraghdr], the queue before
    it and the number of such queues. *)
Fixpoint find_oldest (fuel : nat) (r prev oldest oldest_prev : option Z) (other_datagrams : Z) (fraghdr : Z) w :
    res (option Z * option Z * Z) :=
  match r with
  | None => Ok (oldest, oldest_prev, other_datagrams)
  | Some a =>
      match fuel with
      | O => Stuck
      | S fuel =>
          x ← getr a w;
          hdr ← ld_hdr (rdat w) fraghdr;
          '(oldest, oldest_prev, other_datagrams) ←
            (if negb (IP_ADDRESSES_AND_ID_MATCH (iphdr x) hdr) then
               match oldest with
               | None => Ok (r, prev, other_datagrams + 1)
               | Some o =>
                   y ← getr o w;
                   if timer x <=? timer y then Ok (r, prev, other_datagrams + 1)
                   else Ok (oldest, oldest_prev, other_datagrams + 1)
               end
             else Ok (oldest, oldest_prev, other_datagrams));
          let prev := match rnext x with Some _ => r | None => prev end in
          find_oldest fuel (rnext x) prev oldest oldest_prev other_datagrams fraghdr w
      end
  end.

Fixpoint remove_oldest_loop (fuel : nat) (fraghdr pbufs_needed pbufs_freed : Z) w : res (Z * rstate A P) :=
  match fuel with
  | O => Stuck
  | S fuel =>
      '(oldest, oldest_prev, other_datagrams) ←
        find_oldest (reass_fuel w) (reassdatagrams w) None None None 0 fraghdr w;
      '(pbufs_freed, w) ←
        (match oldest with
         | Some o => '(n, w) ← ip_reass_free_complete_datagram o oldest_prev w; Ok (pbufs_freed + n, w)
         | None => Ok (pbufs_freed, w)
         end);
      if (pbufs_freed <? pbufs_needed) && (1 <? other_datagrams)
      then remove_oldest_loop fuel fraghdr pbufs_needed pbufs_freed w
      else Ok (pbufs_freed, w)
  end.

Definition ip_reass_remove_oldest_datagram (fraghdr pbufs_needed : Z) w : res (Z * rstate A P) :=
  remove_oldest_loop (reass_fuel w) fraghdr pbufs_needed 0 w.

Definition ip_reass_enqueue_new_datagram (fraghdr clen : Z) w : res (option Z * rstate A P) :=
  '(ipr, p) ← pool_malloc (rpool w);
  let w := set_rpool p w in
  '(ipr, w) ←
    (match ipr with
     | Some _ => Ok (ipr, w)
     | None =>
         '(n, w) ← ip_reass_remove_oldest_datagram fraghdr clen w;
         if clen <=? n then '(ipr, p) ← pool_malloc (rpool w); Ok (ipr, set_rpool p w) else Ok (None, w)
     end);
  match ipr with
  | None => Ok (None, w)
  | Some a =>
      let w := putr a (Reass (reassdatagrams w) None (replicate 20 0) 0 0 IP_REASS_MAXAGE) w in
      let w := set_head (Some a) w in
      hdr ← ld_hdr (rdat w) fraghdr;
      w ← modr a (with_iphdr hdr) w;
      Ok (Some a, w)
  end.

(** ** Inserting a fragment *)

(** The loop that looks for the place of the new fragment.  [None]: the fragment is
    dropped.  [Some (q, iprh_prev, valid)]: the values of these variables after the loop. *)
Fixpoint chain_search (fuel : nat) (ipr new_p iprh : Z) (q iprh_prev : option Z) (valid : bool) w :
    res (option (option Z * option Z * bool) * rstate A P) :=
  match q with
  | None => Ok (Some (None, iprh_prev, valid), w)
  | Some qa =>
      match fuel with
      | O => Stuck
      | S fuel =>
          b ← getp qa (ps w);
          let iprh_tmp := payload b in
          start ← iprh_start (rdat w) iprh;
          tmp_start ← iprh_start (rdat w) iprh_tmp;
          if start <? tmp_start then
            w ← rstore (iprh_set_next iprh q) w;
            end_ ← iprh_end (rdat w) iprh;
            tmp_start ← iprh_start (rdat w) iprh_tmp;
            match iprh_prev with
            | Some prev =>
                prev_end ← iprh_end (rdat w) prev;
                if (start <? prev_end) || (tmp_start <? end_) then Ok (None, w) else
                w ← rstore (iprh_set_next prev (Some new_p)) w;
                prev_end ← iprh_end (rdat w) prev;
                start ← iprh_start (rdat w) iprh;
                Ok (Some (q, iprh_prev, valid && (prev_end =? start)), w)
            | None =>
                if tmp_start <? end_ then Ok (None, w) else
                w ← modr ipr (with_rp (Some new_p)) w;
                Ok (Some (q, iprh_prev, valid), w)
            end
          else if start =? tmp_start then Ok (None, w)
          else
            tmp_end ← iprh_end (rdat w) iprh_tmp;
            if start <? tmp_end then Ok (None, w) else
            valid ← (match iprh_prev with
                     | Some prev => prev_end ← iprh_end (rdat w) prev; Ok (valid && (prev_end =? tmp_start))
                     | None => Ok valid
                     end);
            q ← iprh_next (rdat w) iprh_tmp;
            chain_search fuel ipr new_p iprh q (Some iprh_tmp) valid w
      end
  end.

(** When the loop came to the end of the list, the new fragment is the last one. *)
Definition chain_append (ipr new_p iprh : Z) (q iprh_prev : option Z) (valid : bool) w : res (bool * rstate A P) :=
  match q, iprh_prev with
  | Some _, _ => Ok (valid, w)
  | None, Some prev =>
      prev_end ← iprh_end (rdat w) prev;
      start ← iprh_start (rdat w) iprh;
      LWIP_ASSERT (prev_end <=? start);;
      w ← rstore (iprh_set_next prev (Some new_p)) w;
      prev_end ← iprh_end (rdat w) prev;
      start ← iprh_start (rdat w) iprh;
      Ok (valid && (prev_end =? start), w)
  | None, None =>
      r ← getr ipr w;
      LWIP_ASSERT (bool_decide (rp r = None));;
      w ← modr ipr (with_rp (Some new_p)) w;
      Ok (valid, w)
  end.

(** The loop that looks for holes behind the new fragment: [valid] and the last [iprh]. *)
Fixpoint no_holes_after (fuel : nat) (iprh : Z) (q : option Z) w : res (bool * Z) :=
  match q with
  | None => Ok (true, iprh)
  | Some qa =>
      match fuel with
      | O => Stuck
      | S fuel =>
          b ← getp qa (ps w);
          prev_end ← iprh_end (rdat w) iprh;
          start ← iprh_start (rdat w) (payload b);
          if negb (prev_end =? start) then Ok (false, payload b) else
          q ← iprh_next (rdat w) (payload b);
          no_holes_after fuel (payload b) q w
      end
  end.

(** The validation part, once the last fragment is known. *)
Definition validate_datagram (ipr iprh : Z) (valid : bool) w : res bool :=
  if negb valid then Ok false else
  r ← getr ipr w;
  match rp r with
  | None => Ok false
  | Some p =>
      b ← getp p (ps w);
      start ← iprh_start (rdat w) (payload b);
      if negb (start =? 0) then Ok false else
      q ← iprh_next (rdat w) iprh;
      '(valid, iprh) ← no_holes_after (frags_fuel w) iprh q w;
      if negb valid then Ok false else
      LWIP_ASSERT (negb (payload b =? iprh));;
      next_pbuf ← iprh_next (rdat w) iprh;
      LWIP_ASSERT (bool_decide (next_pbuf = None));;
      Ok true
  end.

Definition ip_reass_chain_frag_into_datagram_and_validate (ipr new_p : Z) (is_last : bool) w :
    res (Z * rstate A P) :=
  nb ← getp new_p (ps w);
  fraghdr ← ld_hdr (rdat w) (payload nb);
  let len := lwip_htons (IPH_LEN fraghdr) in
  let hlen := IPH_HL_BYTES fraghdr in
  if len <? hlen then Ok (IP_REASS_VALIDATE_PBUF_DROPPED, w) else
  let len := u16 (len - hlen) in
  let offset := IPH_OFFSET_BYTES fraghdr in
  let iprh := payload nb in
  w ← rstore (iprh_set_next iprh None) w;
  w ← rstore (iprh_set_start iprh offset) w;
  w ← rstore (iprh_set_end iprh (u16 (offset + len))) w;
  end_ ← iprh_end (rdat w) iprh;
  if end_ <? offset then Ok (IP_REASS_VALIDATE_PBUF_DROPPED, w) else
  r ← getr ipr w;
  '(found, w) ← chain_search (frags_fuel w) ipr new_p iprh (rp r) None true w;
  match found with
  | None => Ok (IP_REASS_VALIDATE_PBUF_DROPPED, w)
  | Some (q, iprh_prev, valid) =>
      '(valid, w) ← chain_append ipr new_p iprh q iprh_prev valid w;
      r ← getr ipr w;
      if is_last || negb (Z.land (rflags r) IP_REASS_FLAG_LASTFRAG =? 0) then
        valid ← validate_datagram ipr iprh valid w;
        Ok (if valid : bool then IP_REASS_VALIDATE_TELEGRAM_FINISHED else IP_REASS_VALIDATE_PBUF_QUEUED, w)
      else Ok (IP_REASS_VALIDATE_PBUF_QUEUED, w)
  end.

(** ** ip4_reass *)

(** The labels [nullreturn] and [nullreturn_ipr]. *)
Definition reass_nullreturn (p : Z) w : res (option Z * rstate A P) :=
  '(_, s) ← pbuf_free (Some p) (ps w); Ok (None, set_ps s w).

Definition reass_nullreturn_ipr (ipr p : Z) w : res (option Z * rstate A P) :=
  r ← getr ipr w;
  w ← (match rp r with
       | None => LWIP_ASSERT (bool_decide (reassdatagrams w = Some ipr));; ip_reass_dequeue_datagram ipr None w
       | Some _ => Ok w
       end);
  reass_nullreturn p w.

(** The queue a header belongs to. *)
Fixpoint find_datagram (fuel : nat) (r : option Z) (fraghdr : Z) w : res (option Z) :=
  match r with
  | None => Ok None
  | Some a =>
      match fuel with
      | O => Stuck
      | S fuel =>
          x ← getr a w;
          hdr ← ld_hdr (rdat w) fraghdr;
          if IP_ADDRESSES_AND_ID_MATCH (iphdr x) hdr then Ok r else find_datagram fuel (rnext x) fraghdr w
      end
  end.

(** The queue before [ipr]. *)
Fixpoint find_prev (fuel : nat) (r : option Z) (ipr : Z) w : res (option Z) :=
  match r with
  | None => Ok None
  | Some a =>
      match fuel with
      | O => Stuck
      | S fuel => x ← getr a w; if bool_decide (rnext x = Some ipr) then Ok r else find_prev fuel (rnext x) ipr w
      end
  end.

(** The loop that chains the fragments behind the first one. *)
Fixpoint chain_frags (fuel : nat) (p : Z) (r : option Z) w : res (rstate A P) :=
  match r with
  | None => Ok w
  | Some a =>
      match fuel with
      | O => Stuck
      | S fuel =>
          b ← getp a (ps w);
          let iprh := payload b in
          '(_, s) ← pbuf_remove_header (Some a) IP_HLEN (ps w);
          s ← pbuf_cat (Some p) (Some a) s;
          let w := set_ps s w in
          r ← iprh_next (rdat w) iprh;
          chain_frags fuel p r w
      end
  end.

(** The datagram of [ipr] is complete: build the packet and release the queue. *)
Definition reass_complete (ipr : Z) w : res (option Z * rstate A P) :=
  r ← getr ipr w;
  let dlen := u16 (datagram_len r + IP_HLEN) in
  p ← deref (rp r);
  b ← getp p (ps w);
  next_pbuf ← iprh_next (rdat w) (payload b);
  w ← rstore (mstore (payload b) (iphdr r)) w;
  w ← rstore (mstore (payload b + 2) (word16 (lwip_htons dlen))) w;
  w ← rstore (mstore (payload b + 6) (word16 0)) w;
  w ← rstore (mstore (payload b + 10) (word16 0)) w;
  w ← chain_frags (frags_fuel w) p next_pbuf w;
  ipr_prev ← (if bool_decide (reassdatagrams w = Some ipr) then Ok None
              else find_prev (reass_fuel w) (reassdatagrams w) ipr w);
  w ← ip_reass_dequeue_datagram ipr ipr_prev w;
  clen ← pbuf_clen (Some p) (ps w);
  LWIP_ASSERT (clen <=? ip_reass_pbufcount w);;
  Ok (Some p, set_count (u16 (ip_reass_pbufcount w - clen)) w).

(** From the place where the queue [ipr] is known. *)
Definition reass_enqueue (ipr p clen offset len fraghdr : Z) w : res (option Z * rstate A P) :=
  hdr ← ld_hdr (rdat w) fraghdr;
  let is_last := Z.land (IPH_OFFSET hdr) (PP_HTONS IP_MF) =? 0 in
  let dlen := u16 (offset + len) in
  if is_last && ((dlen <? offset) || (65535 - IP_HLEN <? dlen)) then reass_nullreturn_ipr ipr p w else
  '(valid, w) ← ip_reass_chain_frag_into_datagram_and_validate ipr p is_last w;
  if valid =? IP_REASS_VALIDATE_PBUF_DROPPED then reass_nullreturn_ipr ipr p w else
  let w := set_count (u16 (ip_reass_pbufcount w + clen)) w in
  w ← (if is_last then modr ipr (with_last dlen) w else Ok w);
  if valid =? IP_REASS_VALIDATE_TELEGRAM_FINISHED then reass_complete ipr w
  else Ok (None, w).

(** Is there room for [clen] more structs, if need be without the oldest datagrams? *)
Definition reass_room (fraghdr clen : Z) w : res (bool * rstate A P) :=
  if IP_REASS_MAX_PBUFS <? ip_reass_pbufcount w + clen then
    '(n, w) ← ip_reass_remove_oldest_datagram fraghdr clen w;
    Ok (negb (n =? 0) && negb (IP_REASS_MAX_PBUFS <? ip_reass_pbufcount w + clen), w)
  else Ok (true, w).

(** The queue of the fragment: the one that is there, or a new one. *)
Definition reass_locate (fraghdr clen : Z) w : res (option Z * rstate A P) :=
  found ← find_datagram (reass_fuel w) (reassdatagrams w) fraghdr w;
  match found with
  | None => ip_reass_enqueue_new_datagram fraghdr clen w
  | Some ipr =>
      r ← getr ipr w;
      hdr ← ld_hdr (rdat w) fraghdr;
      if (Z.land (lwip_htons (IPH_OFFSET hdr)) IP_OFFMASK =? 0) &&
         negb (Z.land (lwip_htons (IPH_OFFSET (iphdr r))) IP_OFFMASK =? 0)
      then Ok (Some ipr, putr ipr (with_iphdr hdr r) w)
      else Ok (Some ipr, w)
  end.

Definition ip4_reass (p : Z) w : res (option Z * rstate A P) :=
  b ← getp p (ps w);
  fraghdr ← ld_hdr (rdat w) (payload b);
  if negb (IPH_HL_BYTES fraghdr =? IP_HLEN) then reass_nullreturn p w else
  let offset := IPH_OFFSET_BYTES fraghdr in
  let len := lwip_htons (IPH_LEN fraghdr) in
  let hlen := IPH_HL_BYTES fraghdr in
  if len <? hlen then reass_nullreturn p w else
  let len := u16 (len - hlen) in
  clen ← pbuf_clen (Some p) (ps w);
  '(room, w) ← reass_room (payload b) clen w;
  if negb room then reass_nullreturn p w else
  '(ipr, w) ← reass_locate (payload b) clen w;
  match ipr with
  | None => reass_nullreturn p w
  | Some ipr => reass_enqueue ipr p clen offset len (payload b) w
  end.

End operations.
