(* ===== verification/Ip4FragFacts.v ===== *)
(** * IPv4 reassembly: the queue of one datagram

    The abstract queue is a list of fragments sorted by offset.  [queue d fs] relates
    it to the helper structs in memory.  ip_reass_chain_frag_into_datagram_and_validate
    is ordered insertion into this list ([insert_frag]), it drops a fragment exactly when
    that one overlaps a fragment that is there, and reports a complete datagram exactly
    when the list starts at offset 0 and has no hole. *)

From S2P Require Import Prelude ByteMem Def MempFacts MempPool Pbuf PbufFacts PbufData PbufLife PbufChain PbufOwn Ip4Frag.

(** ** Fragments *)

(** A fragment: the structs of its packet, the first one apart, the range of the
    datagram it covers and the bytes behind its IP header. *)
Record frag := Frag {
  f_p : Z; f_b : pbuf; f_t : list (Z * pbuf); f_start : Z; f_end : Z; f_data : list Z }.

Definition f_l (f : frag) : list (Z * pbuf) := (f_p f, f_b f) :: f_t f.
Definition f_pay (f : frag) : Z := payload (f_b f).
Definition structs (fs : list frag) : list (Z * pbuf) := flat_map f_l fs.

(** The structs with the IP header hidden. *)
Definition f_body (f : frag) : list (Z * pbuf) := (f_p f, grown (-20) (f_b f)) :: f_t f.

(** The largest packet: ten of them fit into 16-bit length fields. *)
Definition MAX_FRAG : Z := 6553.

Definition ranges (f : frag) : Prop := 0 ≤ f_start f ∧ f_end f = f_start f + zlen (f_data f) ∧ f_end f ≤ 65535.

Definition packet_ok (f : frag) : Prop :=
  linked (Some (f_p f)) (f_l f) ∧ lens_ok (f_l f) ∧ 20 ≤ len (f_b f) ∧ bytes_in (f_l f) ≤ MAX_FRAG.

Definition frag_ok (f : frag) : Prop := packet_ok f ∧ ranges f.

Definition helper (d : bytes) (a : Z) (nx : option Z) (st en : Z) : Prop :=
  mread d a 8 = Some (word32 (ptr_value nx) ++ word16 st ++ word16 en).

Definition data_in (d : bytes) (f : frag) : Prop :=
  content d (f_body f) = Some (f_data f) ∧ mapped d (f_pay f) 28.

(** The helper structs link [fs] and end at [e]. *)
Definition fhead_or (fs : list frag) (e : option Z) : option Z := match fs with [] => e | f :: _ => Some (f_p f) end.

Fixpoint queue_to (d : bytes) (fs : list frag) (e : option Z) : Prop :=
  match fs with
  | [] => True
  | f :: fs => helper d (f_pay f) (fhead_or fs e) (f_start f) (f_end f) ∧ data_in d f ∧ queue_to d fs e
  end.

(** A fragment as ip4_input passes it on, with header [h]: the packet is as long as the
    header says. *)
Definition arrives (d : bytes) (f : frag) (h : ip_hdr) : Prop :=
  packet_ok f ∧ data_in d f ∧ mread d (f_pay f) 20 = Some h ∧ lwip_htons (IPH_LEN h) = bytes_in (f_l f) ∧
  f_start f = IPH_OFFSET_BYTES h ∧ f_end f = f_start f + zlen (f_data f).

Abbreviation queue d fs := (queue_to d fs None).
Abbreviation fhead fs := (fhead_or fs None).

(** Ordered insertion; [None]: the new fragment overlaps. *)
Fixpoint insert_frag (f : frag) (fs : list frag) : option (list frag) :=
  match fs with
  | [] => Some [f]
  | g :: fs' =>
      if f_start f <? f_start g then if f_end f <=? f_start g then Some (f :: fs) else None
      else if (f_start f =? f_start g) || (f_start f <? f_end g) then None
      else fs' ← insert_frag f fs'; Some (g :: fs')
  end.

(** No hole between the fragments. *)
Fixpoint contig (e : Z) (fs : list frag) : bool :=
  match fs with [] => true | f :: fs => (e =? f_start f) && contig (f_end f) fs end.

Definition joined (fs : list frag) : bool := match fs with [] => true | f :: fs => contig (f_end f) fs end.

Definition complete (fs : list frag) : bool :=
  match fs with [] => false | f :: fs' => (f_start f =? 0) && contig (f_end f) fs' end.

(** ** Reading helper structs *)

Definition ptr_ok (p : option Z) : Prop := match p with Some a => 0 < a < 4294967296 | None => True end.

Lemma helper_parts d a nx st en : helper d a nx st en →
  mread d a 4 = Some (word32 (ptr_value nx)) ∧ mread d (a + 4) 2 = Some (word16 st) ∧ mread d (a + 6) 2 = Some (word16 en).
Proof.
  intros Hm. apply (mread_app_inv d a (word32 _) (word16 st ++ word16 en)) in Hm as [H4 Hm].
  apply (mread_app_inv d (a + 4) (word16 st) (word16 en)) in Hm as [H2 Hm].
  change (zlen (word16 st)) with 2 in Hm. replace (a + 4 + 2) with (a + 6) in Hm by lia. done.
Qed.

Lemma helper_intro d a nx st en :
  mread d a 4 = Some (word32 (ptr_value nx)) → mread d (a + 4) 2 = Some (word16 st) → mread d (a + 6) 2 = Some (word16 en) →
  helper d a nx st en.
Proof.
  intros H4 H2 H6. apply (mread_app_inv d a (word32 _) (word16 st ++ word16 en)). split; [done|].
  apply (mread_app_inv d (a + 4) (word16 st) (word16 en)). split; [done|].
  change (zlen (word16 st)) with 2. by replace (a + 4 + 2) with (a + 6) by lia.
Qed.

Lemma helper_next d a nx st en : helper d a nx st en → ptr_ok nx → iprh_next d a = Ok nx.
Proof.
  intros (Hm & _ & _)%helper_parts Hp. unfold iprh_next. rewrite Hm. cbn [deref mbind res_bind].
  rewrite rd32_word32 by (destruct nx; simpl in *; unfold is_u32; lia).
  destruct nx as [v|]; simpl in *; [|done]. by replace (v =? 0) with false by lia.
Qed.

Lemma helper_start d a nx st en : helper d a nx st en → is_u16 st → iprh_start d a = Ok st.
Proof.
  intros (_ & Hm & _)%helper_parts Hs. unfold iprh_start. rewrite Hm. cbn [deref mbind res_bind]. by rewrite rd16_word16.
Qed.

Lemma helper_end d a nx st en : helper d a nx st en → is_u16 en → iprh_end d a = Ok en.
Proof.
  intros (_ & _ & Hm)%helper_parts Hs. unfold iprh_end. rewrite Hm. cbn [deref mbind res_bind]. by rewrite rd16_word16.
Qed.

Lemma mstore_mapped d a w : mapped d a (zlen w) → mstore a w d = Ok (mwrite d a w).
Proof.
  intros Hm. unfold mstore. pose proof (zlen_nonneg w). by rewrite (proj2 (mapped_b_spec d a (zlen w) ltac:(lia)) Hm).
Qed.

Lemma helper_set_next d a nx nx' st en : helper d a nx st en →
  iprh_set_next a nx' d = Ok (mwrite d a (word32 (ptr_value nx'))) ∧
  helper (mwrite d a (word32 (ptr_value nx'))) a nx' st en.
Proof.
  intros (H4 & H2 & H6)%helper_parts. split.
  - apply mstore_mapped. change (zlen _) with (Z.of_nat 4). apply mread_Some. by eexists.
  - apply helper_intro; [apply (mread_mwrite_same d a (word32 _))|rewrite mread_mwrite_disjoint..]; try done;
      change (zlen _) with 4; lia.
Qed.

Lemma f_ranges f : ranges f → is_u16 (f_start f) ∧ is_u16 (f_end f).
Proof. unfold ranges, is_u16. pose proof (zlen_nonneg (f_data f)). lia. Qed.

(** An inclusion between concatenations of lists. *)
Ltac sub_goal := clear; set_solver.

Ltac apply_ok := match goal with Hok : frag_ok ?f |- packet_ok ?f => apply Hok end.

(** ** Frames *)

Lemma structs_app fs gs : structs (fs ++ gs) = structs fs ++ structs gs.
Proof. apply flat_map_app. Qed.

Lemma structs_cons f fs : structs (f :: fs) = f_l f ++ structs fs.
Proof. done. Qed.

Lemma f_l_structs f fs : f ∈ fs → f_l f ⊆ structs fs.
Proof.
  intros Hin x Hx. unfold structs. apply list_elem_of_In, in_flat_map. exists f. split; by apply list_elem_of_In.
Qed.

Lemma data_keeps F d d' f : keeps F d d' → f_l f ⊆ F → packet_ok f → data_in d f → data_in d' f.
Proof.
  intros Hk Hs (_ & Hl & H20 & _) [Hc Hm]. split; [|by eapply keeps_mapped]. rewrite <-Hc.
  unfold f_body, f_l in *. destruct Hl as (_ & _ & _ & Hl). cbn [content]. simpl payload. simpl len.
  rewrite (keeps_content F d d' (f_t f)); [|done|intros x Hx; apply Hs; by right|done].
  replace (payload (f_b f) - -20) with (payload (f_b f) + 20) by lia.
  rewrite (keeps_mread F d d' (f_p f) (f_b f)); [done|done|apply Hs; by left|lia|lia].
Qed.

Lemma helper_keeps F d d' f nx st en :
  keeps F d d' → f_l f ⊆ F → packet_ok f → helper d (f_pay f) nx st en → helper d' (f_pay f) nx st en.
Proof.
  intros Hk Hs (_ & _ & H20 & _) Hh. unfold helper, f_pay in *. rewrite <-Hh, <-(Z.add_0_r (payload (f_b f))).
  apply (keeps_mread F d d' (f_p f)); [done|apply Hs; by left|lia|lia].
Qed.

Lemma queue_keeps F d d' fs e : keeps F d d' → structs fs ⊆ F → Forall frag_ok fs → queue_to d fs e → queue_to d' fs e.
Proof.
  intros Hk. induction fs as [|f fs IH]; [done|]. rewrite structs_cons. cbn [queue_to].
  intros Hs [Hf Hfs]%Forall_cons (Hh & Hd & Hq).
  assert (f_l f ⊆ F) by (intros x Hx; apply Hs; apply elem_of_app; by left).
  destruct Hf as [Hf _]. split_and!; [by eapply helper_keeps|by eapply data_keeps|apply IH; try done].
  intros x Hx. apply Hs. apply elem_of_app. by right.
Qed.

Lemma queue_to_app d fs gs e : queue_to d (fs ++ gs) e ↔ queue_to d fs (fhead_or gs e) ∧ queue_to d gs e.
Proof.
  induction fs as [|f fs IH]; simpl; [naive_solver|]. rewrite IH.
  assert (fhead_or (fs ++ gs) e = fhead_or fs (fhead_or gs e)) as -> by (by destruct fs). naive_solver.
Qed.

Lemma fhead_app fs gs : fhead (fs ++ gs) = fhead_or fs (fhead gs).
Proof. by destruct fs. Qed.

(** Storing [next_pbuf] of one fragment touches nothing else. *)
Lemma set_next_ok d f nx nx' G :
  packet_ok f → sep (f_l f ++ G) → helper d (f_pay f) nx (f_start f) (f_end f) → data_in d f →
  ∃ d', iprh_set_next (f_pay f) nx' d = Ok d' ∧ helper d' (f_pay f) nx' (f_start f) (f_end f) ∧ data_in d' f ∧ keeps G d d'.
Proof.
  intros Hok Hs Hh Hd. destruct (helper_set_next d (f_pay f) nx nx' _ _ Hh) as [Hst Hh'].
  eexists. split_and!; [exact Hst|done| |].
  - destruct Hok as (_ & (_ & _ & _ & Hl) & H20 & _). destruct Hs as [Ha _]. apply away_app in Ha as [Ha _].
    destruct Hd as [Hc Hm]. split; [|by apply mapped_mwrite]. rewrite <-Hc. unfold f_body. cbn [content].
    rewrite content_away; [|done|eapply away_mono; [| |exact Ha]; unfold f_pay; change (zlen _) with 4; lia].
    simpl payload. simpl len. rewrite mread_mwrite_disjoint; [done|]. unfold f_pay. change (zlen _) with 4. lia.
  - apply keeps_mwrite. destruct Hs as [Ha _]. apply away_app in Ha as [_ Ha].
    destruct Hok as (_ & _ & H20 & _). eapply away_mono; [| |exact Ha]; unfold f_pay; change (zlen _) with 4; lia.
Qed.

(** The last fragment of a list gets a new successor. *)
Lemma relink_last d fs g e e' G :
  Forall frag_ok (fs ++ [g]) → sep (structs (fs ++ [g]) ++ G) → queue_to d (fs ++ [g]) e →
  ∃ d', iprh_set_next (f_pay g) e' d = Ok d' ∧ queue_to d' (fs ++ [g]) e' ∧ keeps G d d'.
Proof.
  intros [Hfs [Hg _]%Forall_cons]%Forall_app Hs [Hq (Hh & Hd & _)]%queue_to_app. rewrite structs_app in Hs.
  destruct (set_next_ok d g e e' (structs fs ++ G)) as (d' & Hst & Hh' & Hd' & Hk); try done; try apply_ok.
  { eapply sep_perm; [|exact Hs]. simpl. rewrite app_nil_r. solve_Permutation. }
  exists d'. split; [done|]. split; [|eapply keeps_sub; [|exact Hk]; set_solver].
  apply queue_to_app. split; [|done]. eapply queue_keeps; [exact Hk|set_solver|done|done].
Qed.

(** ** Insertion and holes *)

Lemma contig_app e fs gs :
  contig e (fs ++ gs) = contig e fs && contig (match last fs with Some f => f_end f | None => e end) gs.
Proof.
  revert e; induction fs as [|f fs IH]; intros e; cbn [app contig]; [done|]. rewrite IH, andb_assoc. do 2 f_equal.
  rewrite last_cons. by destruct (last fs).
Qed.

Lemma joined_app fs gs :
  joined (fs ++ gs) = joined fs && match last fs with Some f => contig (f_end f) gs | None => joined gs end.
Proof.
  destruct fs as [|f fs]; [done|]. cbn [app joined]. rewrite contig_app, last_cons. by destruct (last fs).
Qed.

Lemma complete_joined f fs : complete (f :: fs) = (f_start f =? 0) && joined (f :: fs).
Proof. done. Qed.

(** [g] lies before the new fragment. *)
Definition before (f g : frag) : Prop := f_start g < f_start f ∧ f_end g ≤ f_start f.

(** [f] overlaps [g], which is the first one not before it. *)
Definition clash (f g : frag) : Prop :=
  f_start f < f_start g ∧ f_start g < f_end f ∨ f_start g ≤ f_start f ∧ (f_start f = f_start g ∨ f_start f < f_end g).

Lemma insert_frag_spec f fs :
  match insert_frag f fs with
  | Some fs' => ∃ fs1 fs2, fs = fs1 ++ fs2 ∧ fs' = fs1 ++ f :: fs2 ∧ Forall (before f) fs1 ∧
      match fs2 with [] => True | g :: _ => f_start f < f_start g ∧ f_end f ≤ f_start g end
  | None => ∃ fs1 g fs2, fs = fs1 ++ g :: fs2 ∧ Forall (before f) fs1 ∧ clash f g
  end.
Proof.
  induction fs as [|g fs IH]; cbn [insert_frag].
  { by exists [], []. }
  destruct (f_start f <? f_start g) eqn:E1; breflect.
  { destruct (f_end f <=? f_start g) eqn:E2; breflect.
    - by exists [], (g :: fs).
    - exists [], g, fs. split_and!; [done|done|left; lia]. }
  destruct ((f_start f =? f_start g) || (f_start f <? f_end g)) eqn:E2.
  { exists [], g, fs. split_and!; [done|done|]. apply orb_true_iff in E2. right. lia. }
  apply orb_false_iff in E2 as [E2 E3]. breflect. assert (before f g) by (unfold before; lia).
  destruct (insert_frag f fs) as [fs'|]; cbn [mbind option_bind].
  - destruct IH as (fs1 & fs2 & -> & -> & Hb & Hg). exists (g :: fs1), fs2. split_and!; try done. by constructor.
  - destruct IH as (fs1 & h & fs2 & -> & Hb & Hc). exists (g :: fs1), h, fs2. split_and!; try done. by constructor.
Qed.

(** ** The code *)

Definition last_pay (fs : list frag) : option Z := f_pay <$> last fs.

Section code.
Context {A P : Type} `{AllocatorLaws A} `{!ReassEnv A} `{!Pool P}.
Implicit Types w : rstate A P.

Definition wdat (d : bytes) w : rstate A P := set_ps (set_dat d (ps w)) w.

Lemma fhead_ok s F fs : excl s F → structs fs ⊆ F → ptr_ok (fhead fs).
Proof.
  intros Ho Hs. destruct fs as [|f fs]; [done|]. simpl. apply (excl_addr s F (f_p f) (f_b f)); [done|]. apply Hs. by left.
Qed.

Lemma frag_getp w F f : excl (ps w) F → f_l f ⊆ F → getp (f_p f) (ps w) = Ok (f_b f).
Proof. intros Ho Hs. apply (excl_getp _ F); [done|]. apply Hs. by left. Qed.

(** Fragments before the new one are skipped. *)
Lemma search_skip F f nx fs1 : ∀ pre fs2 fuel ipr new_p w,
  excl (ps w) F → structs (fs1 ++ fs2) ⊆ F → Forall frag_ok (pre ++ fs1 ++ fs2) → ranges f →
  helper (rdat w) (f_pay f) nx (f_start f) (f_end f) → queue (rdat w) (pre ++ fs1 ++ fs2) →
  Forall (before f) fs1 → (length fs1 ≤ fuel)%nat →
  chain_search fuel ipr new_p (f_pay f) (fhead (fs1 ++ fs2)) (last_pay pre) (joined pre) w =
  chain_search (fuel - length fs1) ipr new_p (f_pay f) (fhead fs2) (last_pay (pre ++ fs1)) (joined (pre ++ fs1)) w.
Proof.
  induction fs1 as [|g fs1 IH]; intros pre fs2 fuel ipr new_p w Ho Hs Hok Hr Hh Hq Hb Hf.
  { by rewrite app_nil_r, Nat.sub_0_r. }
  destruct fuel as [|fuel]; [simpl in Hf; lia|]. cbn [app] in *. cbn [fhead_or chain_search].
  apply Forall_cons in Hb as [[Hb1 Hb2] Hb]. rewrite structs_cons in Hs.
  rewrite (frag_getp w F) by (done || set_solver). cbn [mbind res_bind].
  pose proof (f_ranges _ Hr) as [Hf1 Hf2].
  apply queue_to_app in Hq as [Hq1 (Hg & Hdg & Hq2)]. fold (f_pay g).
  assert (Hok' : Forall frag_ok ((pre ++ [g]) ++ fs1 ++ fs2)) by (by rewrite <-app_assoc).
  assert (Hgr : ranges g) by (apply Forall_app in Hok as [_ Hok]; apply Forall_cons in Hok as [Hok _]; apply Hok).
  pose proof (f_ranges _ Hgr) as [Hg1 Hg2].
  rewrite (helper_start _ _ _ _ _ Hh), (helper_start _ _ _ _ _ Hg) by done. cbn [mbind res_bind].
  replace (f_start f <? f_start g) with false by lia. replace (f_start f =? f_start g) with false by lia.
  rewrite (helper_end _ _ _ _ _ Hg) by done. cbn [mbind res_bind]. replace (f_start f <? f_end g) with false by lia.
  assert (Hv : (match last_pay pre with
     | Some prev => prev_end ← iprh_end (rdat w) prev; Ok (joined pre && (prev_end =? f_start g))
     | None => Ok (joined pre) end) = Ok (joined (pre ++ [g]))).
  { unfold last_pay. rewrite joined_app. cbn [joined contig].
    destruct pre as [|h pre _] using rev_ind; [done|]. rewrite last_snoc. cbn [fmap option_fmap option_map].
    apply queue_to_app in Hq1 as [_ (Hhh & _)]. rewrite (helper_end _ _ _ _ _ Hhh).
    - cbn [mbind res_bind]. by rewrite andb_true_r.
    - apply Forall_app in Hok as [Hok _]. apply Forall_app in Hok as [_ Hok]. apply Forall_cons in Hok as [Hok _].
      apply f_ranges, Hok. }
  rewrite Hv. cbn [mbind res_bind].
  rewrite (helper_next _ _ _ _ _ Hg) by (eapply (fhead_ok _ F); [done|set_solver]). cbn [mbind res_bind].
  change (fhead_or (fs1 ++ fs2) None) with (fhead (fs1 ++ fs2)).
  assert (Hlp : Some (f_pay g) = last_pay (pre ++ [g])) by (unfold last_pay; by rewrite last_snoc). rewrite Hlp.
  rewrite (IH (pre ++ [g])); try done; [|set_solver| |simpl in Hf; lia].
  - by rewrite <-!app_assoc.
  - rewrite <-app_assoc. apply queue_to_app. done.
Qed.

Lemma wdat_id w : wdat (rdat w) w = w.
Proof. by destruct w as [[]]. Qed.

Lemma rstore_ok f d w : f (rdat w) = Ok d → rstore f w = Ok (wdat d w).
Proof. unfold rstore, rdat. by intros ->. Qed.

(** The last fragment of a prefix, as seen by the code. *)
Lemma last_pay_end w F fs gs e : queue_to (rdat w) (fs ++ gs) e → Forall frag_ok (fs ++ gs) → structs fs ⊆ F →
  fs = [] ∧ last_pay fs = None ∨
  ∃ fs0 h, fs = fs0 ++ [h] ∧ last_pay fs = Some (f_pay h) ∧ iprh_end (rdat w) (f_pay h) = Ok (f_end h) ∧
    frag_ok h ∧ f_l h ⊆ F.
Proof.
  intros Hq Hok Hs. destruct fs as [|h fs _] using rev_ind; [by left|right]. exists fs, h.
  apply queue_to_app in Hq as [Hq _]. apply queue_to_app in Hq as [_ (Hh & _)].
  apply Forall_app in Hok as [Hok _]. apply Forall_app in Hok as [_ [Hok _]%Forall_cons].
  unfold last_pay. rewrite last_snoc. split_and!; try done.
  - apply (helper_end _ _ _ _ _ Hh). apply f_ranges, Hok.
  - intros x Hx. apply Hs. rewrite structs_app. apply elem_of_app. right. simpl. by rewrite app_nil_r.
Qed.

(** What the loop finds when the new fragment overlaps. *)
Lemma search_clash F G f nx fs1 g fs2 fuel ipr new_p w :
  excl (ps w) F → structs (fs1 ++ g :: fs2) ⊆ F → Forall frag_ok (fs1 ++ g :: fs2) → frag_ok f → sep (f_l f ++ G) →
  structs (fs1 ++ g :: fs2) ⊆ G →
  helper (rdat w) (f_pay f) nx (f_start f) (f_end f) → data_in (rdat w) f → queue (rdat w) (fs1 ++ g :: fs2) →
  Forall (before f) fs1 → clash f g → (length fs1 < fuel)%nat →
  ∃ d', chain_search fuel ipr new_p (f_pay f) (fhead (fs1 ++ g :: fs2)) None true w = Ok (None, wdat d' w) ∧
    keeps G (rdat w) d'.
Proof.
  intros Ho Hs Hok Hf Hsep HG Hh Hd Hq Hb Hc Hfu. pose proof (f_ranges f (proj2 Hf)) as [Hf1 Hf2].
  change None with (last_pay []) at 1. change true with (joined []) at 1.
  rewrite (search_skip F f nx fs1 [] (g :: fs2)) by (done || apply Hf || lia). cbn [app].
  destruct (fuel - length fs1)%nat as [|n] eqn:En; [lia|]. cbn [fhead_or chain_search].
  rewrite structs_app, structs_cons in Hs, HG.
  rewrite (frag_getp w F) by (done || set_solver). cbn [mbind res_bind]. fold (f_pay g).
  pose proof Hq as [_ (Hg & _ & _)]%queue_to_app. pose proof Hok as [_ [Hgok _]%Forall_cons]%Forall_app.
  pose proof (f_ranges g (proj2 Hgok)) as [Hg1 Hg2].
  rewrite (helper_start _ _ _ _ _ Hh), (helper_start _ _ _ _ _ Hg) by done. cbn [mbind res_bind].
  destruct Hc as [[Hc1 Hc2]|[Hc1 Hc2]].
  - replace (f_start f <? f_start g) with true by lia.
    destruct (set_next_ok (rdat w) f nx (Some (f_p g)) G) as (d' & Hst & Hh' & Hd' & Hk); try done; try apply_ok.
    rewrite (rstore_ok _ _ _ Hst). cbn [mbind res_bind]. exists d'.
    assert (Hg' : helper d' (f_pay g) (fhead fs2) (f_start g) (f_end g)) by (eapply helper_keeps; [exact Hk|set_solver|apply_ok|done]).
    change (rdat (wdat d' w)) with d'. rewrite (helper_end _ _ _ _ _ Hh'), (helper_start _ _ _ _ _ Hg') by done.
    cbn [mbind res_bind]. replace (f_start g <? f_end f) with true by lia.
    destruct (last_pay_end (wdat d' w) F fs1 (g :: fs2) None) as [[_ ->]|(fs0 & h & _ & -> & He & _)]; try done.
    + eapply queue_keeps; [exact Hk|rewrite structs_app, structs_cons; set_solver|done|done].
    + set_solver.
    + change (rdat (wdat d' w)) with d' in He. rewrite He. cbn [mbind res_bind]. by rewrite orb_true_r.
  - replace (f_start f <? f_start g) with false by lia. exists (rdat w). rewrite wdat_id.
    destruct (f_start f =? f_start g) eqn:E; [done|]. breflect. rewrite (helper_end _ _ _ _ _ Hg) by done.
    cbn [mbind res_bind]. replace (f_start f <? f_end g) with true by lia. done.
Qed.

Lemma putr_same ipr r w : rd w !! ipr = Some r → putr ipr (with_rp (rp r) r) w = w.
Proof. intros Hr. unfold putr, set_rd. destruct r. simpl. rewrite insert_id by done. by destruct w. Qed.

Lemma modr_ok ipr r g w : rd w !! ipr = Some r → modr ipr g w = Ok (putr ipr (g r) w).
Proof. unfold modr, getr. by intros ->. Qed.

(** The search followed by the link at the end of the list. *)
Definition search_link fuel ipr (f : frag) q w : res (bool * rstate A P) :=
  '(found, w) ← chain_search fuel ipr (f_p f) (f_pay f) q None true w;
  match found with
  | Some (q, prev, valid) => chain_append ipr (f_p f) (f_pay f) q prev valid w
  | None => Stuck
  end.

(** The predecessor of the new fragment is linked to it. *)
Lemma link_prev G f fs0 h fs2 d : let fs1 := fs0 ++ [h] in
  Forall frag_ok (fs1 ++ fs2) → frag_ok f → sep (f_l f ++ structs (fs1 ++ fs2) ++ G) →
  helper d (f_pay f) (fhead fs2) (f_start f) (f_end f) → data_in d f → queue d (fs1 ++ fs2) →
  ∃ d', iprh_set_next (f_pay h) (Some (f_p f)) d = Ok d' ∧ queue d' (fs1 ++ f :: fs2) ∧ keeps G d d' ∧
    iprh_end d' (f_pay h) = Ok (f_end h) ∧ iprh_start d' (f_pay f) = Ok (f_start f).
Proof.
  intros fs1 Hok Hf Hsep Hh Hd Hq. apply queue_to_app in Hq as [Hq1 Hq2]. apply Forall_app in Hok as [Hok1 Hok2].
  rewrite structs_app in Hsep.
  destruct (relink_last d fs0 h (fhead fs2) (Some (f_p f)) (f_l f ++ structs fs2 ++ G)) as (d' & Hst & Hq1' & Hk); try done.
  { eapply sep_perm; [|exact Hsep]. solve_Permutation. }
  assert (Hh' : helper d' (f_pay f) (fhead fs2) (f_start f) (f_end f)) by (eapply helper_keeps; [exact Hk|set_solver|apply_ok|done]).
  exists d'. split; [done|]. split_and!.
  - apply queue_to_app. split; [done|]. split_and!; [done|eapply data_keeps; [exact Hk|set_solver|apply_ok|done]|].
    eapply queue_keeps; [exact Hk|set_solver|done|done].
  - eapply keeps_sub; [|exact Hk]. set_solver.
  - apply queue_to_app in Hq1' as [_ (Hhh & _)]. apply (helper_end _ _ _ _ _ Hhh).
    apply Forall_app in Hok1 as [_ [Hok1 _]%Forall_cons]. apply f_ranges, Hok1.
  - apply (helper_start _ _ _ _ _ Hh'). apply f_ranges, Hf.
Qed.

Lemma link_ok F G f fs1 fs2 fuel ipr r w :
  excl (ps w) F → structs (fs1 ++ fs2) ⊆ F → Forall frag_ok (fs1 ++ fs2) → frag_ok f →
  sep (f_l f ++ structs (fs1 ++ fs2) ++ G) →
  helper (rdat w) (f_pay f) None (f_start f) (f_end f) → data_in (rdat w) f → queue (rdat w) (fs1 ++ fs2) →
  Forall (before f) fs1 → match fs2 with [] => True | g :: _ => f_start f < f_start g ∧ f_end f ≤ f_start g end →
  rd w !! ipr = Some r → rp r = fhead (fs1 ++ fs2) → (length fs1 < fuel)%nat →
  ∃ d', search_link fuel ipr f (fhead (fs1 ++ fs2)) w =
      Ok (joined (fs1 ++ [f]), putr ipr (with_rp (fhead (fs1 ++ f :: fs2)) r) (wdat d' w)) ∧
    queue d' (fs1 ++ f :: fs2) ∧ keeps G (rdat w) d'.
Proof.
  intros Ho Hs Hok Hf Hsep Hh Hd Hq Hb Hg Hr Hrp Hfu.
  pose proof (f_ranges f (proj2 Hf)) as [Hf1 Hf2]. unfold search_link.
  change None with (last_pay []) at 1. change true with (joined []) at 1.
  rewrite (search_skip F f None fs1 [] fs2) by (done || apply Hf || lia). cbn [app].
  destruct (fuel - length fs1)%nat as [|n] eqn:En; [lia|]. destruct fs2 as [|g fs2].
  - cbn [fhead_or chain_search mbind res_bind]. rewrite app_nil_r in *.
    destruct (last_pay_end w F fs1 [] None) as [[-> ->]|(fs0 & h & -> & -> & He & Hhok & Hhs)]; try (by rewrite ?app_nil_r).
    + cbn [chain_append]. unfold getr. rewrite Hr. cbn [deref mbind res_bind].
      rewrite Hrp, bool_decide_eq_true_2 by done. cbn [LWIP_ASSERT mbind res_bind].
      rewrite (modr_ok _ r) by done. cbn [mbind res_bind]. exists (rdat w). rewrite wdat_id. done.
    + destruct (link_prev G f fs0 h [] (rdat w)) as (d' & Hst & Hq' & Hk & He' & Hs'); rewrite ?app_nil_r; try done.
      cbn [chain_append]. rewrite He, (helper_start _ _ _ _ _ Hh) by done. cbn [mbind res_bind].
      apply Forall_app in Hb as [_ [[Hb1 Hb2] _]%Forall_cons]. replace (f_end h <=? f_start f) with true by lia.
      cbn [LWIP_ASSERT mbind res_bind]. rewrite (rstore_ok _ _ _ Hst). cbn [mbind res_bind].
      change (rdat (wdat d' w)) with d'. rewrite He', Hs'. cbn [mbind res_bind]. exists d'. split; [|done].
      rewrite (joined_app _ [f]), last_snoc. cbn [contig]. rewrite andb_true_r.
      replace (fhead ((fs0 ++ [h]) ++ [f])) with (rp r) by (rewrite Hrp; by destruct fs0).
      by rewrite putr_same.
  - cbn [fhead_or chain_search]. rewrite structs_app, structs_cons in Hs, Hsep.
    rewrite (frag_getp w F) by (done || set_solver). cbn [mbind res_bind]. fold (f_pay g).
    pose proof Hq as [_ (Hhg & _ & _)]%queue_to_app. pose proof Hok as [_ [Hgok _]%Forall_cons]%Forall_app.
    pose proof (f_ranges g (proj2 Hgok)) as [Hg1 Hg2].
    rewrite (helper_start _ _ _ _ _ Hh), (helper_start _ _ _ _ _ Hhg) by done. cbn [mbind res_bind].
    replace (f_start f <? f_start g) with true by lia.
    destruct (set_next_ok (rdat w) f None (Some (f_p g)) ((structs fs1 ++ f_l g ++ structs fs2) ++ G))
      as (d1 & Hst & Hh1 & Hd1 & Hk1); try done; try apply_ok.
    rewrite (rstore_ok _ _ _ Hst). cbn [mbind res_bind]. change (rdat (wdat d1 w)) with d1.
    assert (Hhg1 : helper d1 (f_pay g) (fhead fs2) (f_start g) (f_end g)) by (eapply helper_keeps; [exact Hk1|set_solver|apply_ok|done]).
    assert (Hq1 : queue d1 (fs1 ++ g :: fs2))
      by (eapply queue_keeps; [exact Hk1|rewrite structs_app, structs_cons; set_solver|done|done]).
    rewrite (helper_end _ _ _ _ _ Hh1), (helper_start _ _ _ _ _ Hhg1) by done. cbn [mbind res_bind].
    replace (f_start g <? f_end f) with false by lia.
    destruct (last_pay_end (wdat d1 w) F fs1 (g :: fs2) None) as [[-> ->]|(fs0 & h & -> & -> & He & Hhok & Hhs)]; try done.
    { set_solver. }
    + rewrite (modr_ok _ r) by done. cbn [mbind res_bind chain_append]. exists d1. split; [done|].
      split; [by cbn [app queue_to]|]. eapply keeps_sub; [|exact Hk1]. set_solver.
    + change (rdat (wdat d1 w)) with d1 in He. rewrite He. cbn [mbind res_bind].
      apply Forall_app in Hb as [_ [[Hb1 Hb2] _]%Forall_cons]. replace (f_start f <? f_end h) with false by lia. cbn [orb].
      destruct (link_prev G f fs0 h (g :: fs2) d1) as (d2 & Hst2 & Hq2 & Hk2 & He2 & Hs2); try done.
      { rewrite (structs_app _ (g :: fs2)), structs_cons. done. }
      rewrite (rstore_ok _ d2) by exact Hst2. cbn [mbind res_bind]. change (rdat (wdat d2 (wdat d1 w))) with d2.
      rewrite He2, Hs2. cbn [mbind res_bind chain_append]. exists d2.
      split; [|split; [done|]]; [|eapply keeps_trans; [|exact Hk2]; eapply keeps_sub; [|exact Hk1]; set_solver].
      rewrite (joined_app _ [f]), last_snoc. cbn [contig]. rewrite andb_true_r.
      replace (fhead ((fs0 ++ [h]) ++ f :: g :: fs2)) with (rp r) by (rewrite Hrp; by destruct fs0).
      by rewrite putr_same.
Qed.

(** ** Validation *)

Lemma no_holes_ok F fs : ∀ f fuel w,
  excl (ps w) F → structs fs ⊆ F → Forall frag_ok (f :: fs) → queue (rdat w) (f :: fs) → (length fs ≤ fuel)%nat →
  ∃ a, no_holes_after fuel (f_pay f) (fhead fs) w = Ok (contig (f_end f) fs, a) ∧
    (contig (f_end f) fs = true → ∃ fs0 h, f :: fs = fs0 ++ [h] ∧ a = f_pay h).
Proof.
  induction fs as [|g fs IH]; intros f fuel w Ho Hs Hok (Hh & Hd & Hq) Hfu.
  { exists (f_pay f). split; [by destruct fuel|]. intros _. by exists [], f. }
  destruct fuel as [|fuel]; [simpl in Hfu; lia|]. cbn [fhead_or no_holes_after]. rewrite structs_cons in Hs.
  rewrite (frag_getp w F) by (done || set_solver). cbn [mbind res_bind]. fold (f_pay g).
  apply Forall_cons in Hok as [Hf Hok]. pose proof Hok as [Hg _]%Forall_cons. pose proof Hq as (Hhg & _ & _).
  rewrite (helper_end _ _ _ _ _ Hh) by (apply f_ranges, Hf). cbn [mbind res_bind].
  rewrite (helper_start _ _ _ _ _ Hhg) by (apply f_ranges, Hg). cbn [mbind res_bind contig].
  destruct (f_end f =? f_start g) eqn:E; cbn [negb andb]; [|by exists (f_pay g)].
  rewrite (helper_next _ _ _ _ _ Hhg) by (eapply (fhead_ok _ F); [done|set_solver]). cbn [mbind res_bind].
  destruct (IH g fuel w) as (a & -> & Ha); try done; [set_solver|simpl in Hfu; lia|].
  exists a. split; [done|]. intros Hc. destruct (Ha Hc) as (fs0 & h & -> & ->). by exists (f :: fs0), h.
Qed.

(** Different fragments have different headers. *)
Lemma pay_ne f fs h G : Forall frag_ok (f :: fs ++ [h]) → sep (structs (f :: fs ++ [h]) ++ G) → f_pay f ≠ f_pay h.
Proof.
  intros [Hf [_ [Hh _]%Forall_cons]%Forall_app]%Forall_cons Hs. rewrite structs_cons, structs_app in Hs.
  destruct Hf as [(_ & _ & Hf & _) _]. destruct Hh as [(_ & _ & Hh & _) _].
  destruct Hs as [Ha _]. apply away_app in Ha as [Ha _]. apply away_app in Ha as [_ Ha].
  apply away_app in Ha as [_ Ha]. simpl in Ha. apply away_cons in Ha as [Ha _]. unfold f_pay. lia.
Qed.

Lemma length_structs fs : (length fs ≤ length (structs fs))%nat.
Proof. induction fs as [|f fs IH]; [done|]. rewrite structs_cons, length_app. simpl. lia. Qed.

Lemma frags_fuel_enough fs G w : excl (ps w) (structs fs ++ G) → (length fs < frags_fuel w)%nat.
Proof.
  intros Ho%excl_length. rewrite length_app in Ho. pose proof (length_structs fs). unfold frags_fuel, chain_fuel. lia.
Qed.

Lemma validate_ok G f fs1 fs2 ipr r w : let fs := fs1 ++ f :: fs2 in
  excl (ps w) (structs fs ++ G) → Forall frag_ok fs → queue (rdat w) fs →
  rd w !! ipr = Some r → rp r = fhead fs → (complete fs = true → 2 ≤ length fs)%nat →
  validate_datagram ipr (f_pay f) (joined (fs1 ++ [f])) w = Ok (complete fs).
Proof.
  intros fs Ho Hok Hq Hr Hrp Hlen. pose proof (frags_fuel_enough _ _ _ Ho) as Hfu. unfold validate_datagram.
  assert (Hj : joined fs = joined (fs1 ++ [f]) && contig (f_end f) fs2).
  { unfold fs. change (f :: fs2) with ([f] ++ fs2). rewrite app_assoc, joined_app, last_snoc. done. }
  destruct fs as [|g gs] eqn:Efs; [by destruct fs1|]. rewrite complete_joined, Hj in Hlen |- *.
  destruct (joined (fs1 ++ [f])); cbn [negb andb]; [|by rewrite andb_false_r].
  unfold getr. rewrite Hr. cbn [deref mbind res_bind]. rewrite Hrp. cbn [fhead_or].
  rewrite (frag_getp w _ g Ho) by (rewrite structs_cons; sub_goal). cbn [mbind res_bind]. fold (f_pay g).
  pose proof Hq as (Hg & _ & _). pose proof Hok as [Hgok _]%Forall_cons.
  rewrite (helper_start _ _ _ _ _ Hg) by (apply f_ranges, Hgok). cbn [mbind res_bind].
  destruct (f_start g =? 0); cbn [negb andb] in *; [|done].
  pose proof Hq as Hq2. pose proof Hok as Hok2. rewrite <-Efs in Hq2, Hok2.
  apply queue_to_app in Hq2 as [_ Hq2]. apply Forall_app in Hok2 as [_ Hok2].
  assert (Hs2 : structs fs2 ⊆ structs (g :: gs) ++ G).
  { rewrite <-Efs. unfold fs. rewrite structs_app, structs_cons. sub_goal. }
  rewrite (helper_next _ _ _ _ _ (proj1 Hq2)) by (by eapply fhead_ok). cbn [mbind res_bind].
  destruct (no_holes_ok _ fs2 f (frags_fuel w) w Ho) as (a & -> & Ha); try done.
  { rewrite <-Efs in Hfu. unfold fs in Hfu. rewrite length_app in Hfu. simpl in Hfu. lia. }
  cbn [mbind res_bind]. destruct (contig (f_end f) fs2); cbn [negb]; [|done].
  destruct (Ha eq_refl) as (fs0 & h & Hfh & ->). specialize (Hlen eq_refl).
  assert (∃ hs, gs = hs ++ [h]) as [hs ->].
  { unfold fs in Efs. rewrite Hfh, app_assoc in Efs. destruct (fs1 ++ fs0) as [|x hs]; simplify_eq/=; [lia|by exists hs]. }
  replace (f_pay g =? f_pay h) with false
    by (symmetry; apply Z.eqb_neq; eapply pay_ne; [exact Hok|destruct Ho as (_ & _ & Ho & _); exact Ho]).
  cbn [negb LWIP_ASSERT mbind res_bind]. change (g :: hs ++ [h]) with ((g :: hs) ++ [h]) in Hq.
  apply queue_to_app in Hq as [_ (Hh & _)]. rewrite (helper_next _ _ _ _ _ Hh) by done. done.
Qed.
End code.
