(* ===== verification/Ip4FragQueue.v ===== *)
(** * IPv4 reassembly: one fragment and one datagram

    What happens to a fragment that belongs to a given queue: it is inserted or dropped
    (ip_reass_chain_frag_into_datagram_and_validate), a complete queue becomes one packet
    (the end of ip4_reass), a queue that timed out is released. *)

From S2P Require Import Prelude ByteMem Def MempFacts MempPool Pbuf PbufFacts PbufData PbufLife PbufChain PbufOwn Ip4Frag Ip4FragFacts.

(** ** The helper struct replaces the header *)

Lemma mread_prefix d a n m l : mread d a n = Some l → (m ≤ n)%nat → mread d a m = Some (take m l).
Proof. intros Hl Hm. rewrite <-(Z.add_0_r a). by apply (mread_sub d a n l 0 m). Qed.

Lemma mapped_word d a n : mapped d a 28 → 0 ≤ n → n + 4 ≤ 28 → mapped d (a + n) 2 ∧ mapped d (a + n) 4.
Proof. intros Hm ??. split; eapply mapped_mono; try exact Hm; lia. Qed.

Section code.
Context {A P : Type} `{AllocatorLaws A} `{!ReassEnv A} `{!Pool P}.
Implicit Types w : rstate A P.

(** A write into the IP header of a packet. *)
Lemma header_write_ok d f off v G :
  packet_ok f → sep (f_l f ++ G) → data_in d f → 0 ≤ off → off + zlen v ≤ 20 →
  mstore (f_pay f + off) v d = Ok (mwrite d (f_pay f + off) v) ∧ data_in (mwrite d (f_pay f + off) v) f ∧
  keeps G d (mwrite d (f_pay f + off) v).
Proof.
  intros (_ & (_ & _ & _ & Hl) & H20 & _) Hs [Hc Hm] Ho Hv. destruct Hs as [Ha _]. apply away_app in Ha as [Ha1 Ha2].
  split_and!.
  - apply mstore_mapped. eapply mapped_mono; [| |exact Hm]; lia.
  - split; [|by apply mapped_mwrite]. rewrite <-Hc. unfold f_body. cbn [content].
    rewrite content_away; [|done|eapply away_mono; [| |exact Ha1]; unfold f_pay; lia].
    simpl payload. simpl len. rewrite mread_mwrite_disjoint; [done|]. unfold f_pay. lia.
  - apply keeps_mwrite. eapply away_mono; [| |exact Ha2]; unfold f_pay; lia.
Qed.

(** The three stores that set up the helper struct. *)
Lemma helper_setup w f st en G :
  packet_ok f → sep (f_l f ++ G) → data_in (rdat w) f →
  ∃ d1 d2 d', rstore (iprh_set_next (f_pay f) None) w = Ok (wdat d1 w) ∧
    rstore (iprh_set_start (f_pay f) st) (wdat d1 w) = Ok (wdat d2 w) ∧
    rstore (iprh_set_end (f_pay f) en) (wdat d2 w) = Ok (wdat d' w) ∧
    helper d' (f_pay f) None st en ∧ data_in d' f ∧ keeps G (rdat w) d'.
Proof.
  intros Hok Hs Hd.
  destruct (header_write_ok (rdat w) f 0 (word32 0) G) as (S1 & D1 & K1); try done. rewrite Z.add_0_r in *.
  set (d1 := mwrite (rdat w) (f_pay f) (word32 0)) in *.
  destruct (header_write_ok d1 f 4 (word16 st) G) as (S2 & D2 & K2); try done.
  set (d2 := mwrite d1 (f_pay f + 4) (word16 st)) in *.
  destruct (header_write_ok d2 f 6 (word16 en) G) as (S3 & D3 & K3); try done.
  set (d3 := mwrite d2 (f_pay f + 6) (word16 en)) in *.
  exists d1, d2, d3. split_and!; [exact (rstore_ok _ d1 w S1)|exact (rstore_ok _ d2 (wdat d1 w) S2)|
    exact (rstore_ok _ d3 (wdat d2 w) S3)| |done|eauto].
  apply helper_intro; unfold d3; rewrite ?mread_mwrite_disjoint by (change (zlen _) with 2; lia).
  - unfold d2. rewrite mread_mwrite_disjoint by (change (zlen _) with 2; lia). apply (mread_mwrite_same _ _ (word32 0)).
  - apply (mread_mwrite_same _ _ (word16 st)).
  - apply (mread_mwrite_same _ _ (word16 en)).
Qed.

Definition last_seen (r : ip_reassdata) : bool := negb (Z.land (rflags r) IP_REASS_FLAG_LASTFRAG =? 0).

(** The abstract effect of a fragment on its queue; [None]: it is dropped. *)
Definition add_frag (f : frag) (fs : list frag) : option (list frag) :=
  if f_end f <=? 65535 then insert_frag f fs else None.

Lemma arrives_ok d f h : arrives d f h → f_end f ≤ 65535 → frag_ok f.
Proof.
  intros (Hp & _ & _ & _ & Hs & He) Hle. split; [done|]. split_and!; try done. rewrite Hs. apply u16_range.
Qed.

Lemma arrives_data_len d f h : arrives d f h → bytes_in (f_l f) = 20 + zlen (f_data f).
Proof.
  intros ((_ & Hl & H20 & _) & [Hc _] & _). apply content_length in Hc.
  - unfold f_body, f_l in *. cbn [bytes_in] in *. simpl in *. lia.
  - unfold f_body, f_l in *. destruct Hl as (? & ? & ? & ?). simpl. split_and!; try done; lia.
Qed.

Lemma insert_frag_perm f fs fs' : insert_frag f fs = Some fs' → fs' ≡ₚ f :: fs.
Proof.
  intros Hi. pose proof (insert_frag_spec f fs) as Hs. rewrite Hi in Hs. destruct Hs as (fs1 & fs2 & -> & -> & _).
  by rewrite Permutation_middle.
Qed.

Lemma structs_perm fs gs : fs ≡ₚ gs → structs fs ≡ₚ structs gs.
Proof. unfold structs. by intros ->. Qed.

Lemma chain_frag_ok G f h fs ipr r is_last w :
  excl (ps w) (f_l f ++ structs fs ++ G) → Forall frag_ok fs → queue (rdat w) fs → arrives (rdat w) f h →
  IPH_HL_BYTES h = 20 → rd w !! ipr = Some r → rp r = fhead fs →
  (∀ fs', add_frag f fs = Some fs' → complete fs' = true → is_last || last_seen r = true → (2 ≤ length fs')%nat) →
  ∃ d', keeps G (rdat w) d' ∧
    match add_frag f fs with
    | None => queue d' fs ∧
        ip_reass_chain_frag_into_datagram_and_validate ipr (f_p f) is_last w = Ok (IP_REASS_VALIDATE_PBUF_DROPPED, wdat d' w)
    | Some fs' => queue d' fs' ∧
        ip_reass_chain_frag_into_datagram_and_validate ipr (f_p f) is_last w =
          Ok (if (is_last || last_seen r) && complete fs' then IP_REASS_VALIDATE_TELEGRAM_FINISHED
              else IP_REASS_VALIDATE_PBUF_QUEUED, putr ipr (with_rp (fhead fs') r) (wdat d' w))
    end.
Proof.
  intros Ho Hok Hq Harr Hhl Hr Hrp Htwo. pose proof (arrives_data_len _ _ _ Harr) as Hlen.
  pose proof Harr as (Hp & Hd & Hhdr & Htot & Hst & Hen).
  assert (Hsep : sep (f_l f ++ structs fs ++ G)) by apply Ho.
  unfold ip_reass_chain_frag_into_datagram_and_validate.
  rewrite (frag_getp w _ f Ho) by sub_goal. cbn [mbind res_bind]. fold (f_pay f).
  unfold ld_hdr. rewrite Hhdr. cbn [deref mbind res_bind]. rewrite Hhl, Htot.
  pose proof (zlen_nonneg (f_data f)). replace (bytes_in (f_l f) <? 20) with false by lia.
  assert (Hby : bytes_in (f_l f) ≤ 65535) by (destruct Hp as (_ & _ & _ & Hp); unfold MAX_FRAG in Hp; lia).
  rewrite (u16_id (bytes_in (f_l f) - 20)) by ulia. replace (bytes_in (f_l f) - 20) with (zlen (f_data f)) by lia.
  rewrite <-Hst, <-Hen.
  destruct (helper_setup w f (f_start f) (u16 (f_end f)) (structs fs ++ G))
    as (d1 & d2 & d3 & S1 & S2 & S3 & Hh3 & Hd3 & Hk3); try done.
  rewrite S1. cbn [mbind res_bind]. rewrite S2. cbn [mbind res_bind]. rewrite S3. cbn [mbind res_bind]. clear S1 S2 S3.
  assert (Hs0 : is_u16 (f_start f)) by (rewrite Hst; apply u16_range).
  assert (Hq3 : queue d3 fs) by (eapply queue_keeps; [exact Hk3|sub_goal|done|done]).
  assert (HkG : keeps G (rdat w) d3) by (eapply keeps_sub; [|exact Hk3]; sub_goal).
  change (rdat (wdat d3 w)) with d3. rewrite (helper_end _ _ _ _ _ Hh3) by apply u16_range. cbn [mbind res_bind].
  unfold add_frag in *. destruct (f_end f <=? 65535) eqn:Ele; breflect.
  2:{ exists d3. split; [done|]. split; [done|]. by replace (u16 (f_end f) <? f_start f) with true by ulia. }
  rewrite u16_id in * by ulia. replace (f_end f <? f_start f) with false by lia.
  pose proof (arrives_ok _ _ _ Harr Ele) as Hf. unfold getr. change (rd (wdat d3 w)) with (rd w). rewrite Hr.
  cbn [deref mbind res_bind]. rewrite Hrp.
  assert (Ho3 : excl (ps (wdat d3 w)) (f_l f ++ structs fs ++ G)) by (by eapply (excl_set_dat (ps w))).
  assert (Hfu : (length fs < frags_fuel (wdat d3 w))%nat).
  { apply (frags_fuel_enough fs (f_l f ++ G)). eapply excl_perm; [|exact Ho3]. solve_Permutation. }
  pose proof (insert_frag_spec f fs) as Hspec. destruct (insert_frag f fs) as [fs'|] eqn:Ei.
  - destruct Hspec as (fs1 & fs2 & -> & -> & Hb & Hg).
    destruct (link_ok (f_l f ++ structs (fs1 ++ fs2) ++ G) G f fs1 fs2 (frags_fuel (wdat d3 w)) ipr r (wdat d3 w))
      as (d4 & Hlink & Hq4 & Hk4); try done; [sub_goal|rewrite length_app in Hfu; lia|].
    exists d4. split; [eauto|]. split; [done|]. unfold search_link in Hlink.
    destruct (chain_search _ _ _ _ _ _ _ _) as [[[[[q prev] valid]|] w']| | |]; cbn [mbind res_bind] in Hlink |- *; try done.
    rewrite Hlink. cbn [mbind res_bind].
    set (w4 := putr ipr (with_rp (fhead (fs1 ++ f :: fs2)) r) (wdat d4 (wdat d3 w))).
    assert (Hr4 : rd w4 !! ipr = Some (with_rp (fhead (fs1 ++ f :: fs2)) r)) by apply lookup_insert_eq.
    unfold getr. rewrite Hr4. cbn [deref mbind res_bind]. change (rflags (with_rp _ r)) with (rflags r).
    fold (last_seen r). destruct (is_last || last_seen r) eqn:El; [|done].
    rewrite (validate_ok G f fs1 fs2 ipr (with_rp (fhead (fs1 ++ f :: fs2)) r) w4); try done.
    + eapply (excl_set_dat (ps (wdat d3 w)) _ G d4); [|exact Hk4]. eapply excl_perm; [|exact Ho3].
      rewrite !structs_app, structs_cons. solve_Permutation.
    + apply Forall_app in Hok as [Hok1 Hok2]. apply Forall_app. split; [done|]. by constructor.
    + intros Hc. by apply (Htwo (fs1 ++ f :: fs2)).
  - destruct Hspec as (fs1 & g & fs2 & -> & Hb & Hc).
    destruct (search_clash (f_l f ++ structs (fs1 ++ g :: fs2) ++ G) (structs (fs1 ++ g :: fs2) ++ G) f None fs1 g fs2
      (frags_fuel (wdat d3 w)) ipr (f_p f) (wdat d3 w)) as (d4 & Hsearch & Hk4); try done; [sub_goal|sub_goal| |].
    { rewrite length_app in Hfu. simpl in Hfu. lia. }
    rewrite Hsearch. cbn [mbind res_bind]. exists d4. split; [|split; [|done]].
    + eapply keeps_trans; [exact HkG|]. eapply keeps_sub; [|exact Hk4]. sub_goal.
    + eapply queue_keeps; [exact Hk4|sub_goal|done|exact Hq3].
Qed.

(** ** A complete datagram becomes one packet *)

Definition datagram (fs : list frag) : list Z := concat (f_data <$> fs).

Lemma body_ok f : packet_ok f → lens_ok (f_body f) ∧ linked (Some (f_p f)) (f_body f) ∧
  bytes_in (f_body f) = bytes_in (f_l f) - 20.
Proof.
  intros ([_ Hk] & (? & ? & ? & ?) & H20 & _). simpl. split_and!; done || lia.
Qed.

Lemma data_len d f : packet_ok f → data_in d f → bytes_in (f_body f) = zlen (f_data f).
Proof. intros Hp [Hc _]. symmetry. eapply content_length; [|done]. by apply body_ok. Qed.

Lemma chain_frags_ok p G fs : ∀ fuel l0 c0 w,
  excl (ps w) (l0 ++ structs fs ++ G) → linked (Some p) l0 → lens_ok l0 → content (rdat w) l0 = Some c0 →
  Forall frag_ok fs → queue (rdat w) fs → zlen c0 + zlen (datagram fs) ≤ 65535 → (length fs ≤ fuel)%nat →
  ∃ s' l', chain_frags fuel p (fhead fs) w = Ok (set_ps s' w) ∧ excl s' (l' ++ G) ∧ dat s' = rdat w ∧
    linked (Some p) l' ∧ lens_ok l' ∧ content (rdat w) l' = Some (c0 ++ datagram fs) ∧
    length l' = (length l0 + length (structs fs))%nat.
Proof.
  induction fs as [|f fs IH]; intros fuel l0 c0 w Ho Hk Hl Hc Hok Hq Hb Hfu.
  { exists (ps w), l0. unfold datagram. simpl. rewrite app_nil_r, Nat.add_0_r. split_and!; try done.
    destruct fuel; simpl; by destruct w. }
  destruct fuel as [|fuel]; [simpl in Hfu; lia|]. cbn [fhead_or chain_frags].
  apply Forall_cons in Hok as [[Hf Hfr] Hok]. destruct Hq as (Hh & Hd & Hq). rewrite structs_cons in Ho.
  rewrite (frag_getp w _ f Ho) by sub_goal. cbn [mbind res_bind]. fold (f_pay f).
  destruct (body_ok f Hf) as (Hlb & Hkb & Hbb). pose proof (data_len _ _ Hf Hd) as Hdl.
  pose proof (content_length _ _ _ Hl Hc) as Hc0. unfold datagram in Hb. rewrite fmap_cons in Hb. cbn [concat] in Hb.
  unfold zlen in Hb. rewrite length_app in Hb. fold (datagram fs) in Hb.
  pose proof Hf as (_ & (Hf1 & Hf2 & Hf3 & _) & H20 & Hmax).
  pose proof (lens_ok_range _ (proj1 (proj2 Hf))) as Hrange.
  destruct (excl_remove_header (ps w) (f_p f) (f_b f) (l0 ++ f_t f ++ structs fs ++ G) 20) as (s1 & Hrm & Ho1 & Hd1);
    [eapply excl_perm; [|exact Ho]; unfold f_l; solve_Permutation|lia|lia| |lia|].
  { cbn [f_l bytes_in] in *. unfold f_l in Hf. destruct Hf as (_ & (_ & _ & _ & Hft) & _). apply lens_ok_range in Hft. lia. }
  unfold IP_HLEN. rewrite Hrm. cbn [mbind res_bind].
  destruct (excl_cat s1 p (f_p f) l0 (f_body f) (structs fs ++ G)) as (s2 & Hcat & Ho2 & Hd2 & Hk2 & Hl2); try done.
  { eapply excl_perm; [|exact Ho1]. unfold f_body. solve_Permutation. }
  { rewrite <-Hc0, Hdl. unfold zlen. lia. }
  rewrite Hcat. cbn [mbind res_bind]. change (rdat (set_ps s2 w)) with (dat s2). rewrite Hd2, Hd1. fold (rdat w).
  rewrite (helper_next _ _ _ _ _ Hh) by (eapply (fhead_ok _ _ fs Ho); sub_goal). cbn [mbind res_bind].
  destruct (IH fuel (cat_list (f_p f) (bytes_in (f_body f)) l0 ++ f_body f) (c0 ++ f_data f) (set_ps s2 w))
    as (s3 & l3 & Hch & Ho3 & Hd3 & Hk3 & Hl3 & Hc3 & Hn3); try done.
  - change (rdat (set_ps s2 w)) with (dat s2). rewrite Hd2, Hd1. rewrite content_app, cat_list_content. fold (rdat w).
    rewrite Hc. cbn [mbind option_bind]. destruct Hd as [Hd _]. by rewrite Hd.
  - change (rdat (set_ps s2 w)) with (dat s2). rewrite Hd2, Hd1. exact Hq.
  - unfold zlen. rewrite length_app. lia.
  - simpl in Hfu. lia.
  - change (rdat (set_ps s2 w)) with (dat s2) in *. rewrite Hd2, Hd1 in *. fold (rdat w) in *.
    exists s3, l3. split_and!; try done.
    + rewrite Hc3. unfold datagram. cbn [fmap list_fmap concat]. by rewrite app_assoc.
    + rewrite Hn3, structs_cons, !length_app. rewrite <-(length_fmap fst (cat_list _ _ _)), cat_list_fst, length_fmap.
      unfold f_body, f_l. simpl. lia.
Qed.

(** The header of the reassembled packet: length, offset and checksum are set. *)
Definition final_hdr (hdr : ip_hdr) (dlen : Z) : ip_hdr :=
  splice 10 (word16 0) (splice 6 (word16 0) (splice 2 (word16 (lwip_htons dlen)) hdr)).

Lemma final_hdr_len hdr dlen : length hdr = 20%nat → zlen (final_hdr hdr dlen) = 20.
Proof.
  intros Hl. assert (Hz : zlen hdr = 20) by (unfold zlen; lia). unfold final_hdr.
  assert (H2 : zlen (splice 2 (word16 (lwip_htons dlen)) hdr) = 20) by (rewrite zlen_splice; [done|lia|rewrite Hz; by compute]).
  assert (H6 : zlen (splice 6 (word16 0) (splice 2 (word16 (lwip_htons dlen)) hdr)) = 20)
    by (rewrite zlen_splice; [done|lia|rewrite H2; by compute]).
  rewrite zlen_splice; [done|lia|rewrite H6; by compute].
Qed.

Lemma mread_splice d a n l off v : mread d a (Z.to_nat n) = Some l → 0 ≤ off → off + zlen v ≤ n →
  mread (mwrite d (a + off) v) a (Z.to_nat n) = Some (splice off v l).
Proof.
  intros Hl Ho Hv. pose proof (zlen_nonneg v). rewrite (mread_mwrite_inside d a n l off v) by done. unfold splice. do 3 f_equal.
  apply mread_length in Hl. unfold slice, zlen in *. rewrite !take_ge; [done|rewrite length_drop; lia..].
Qed.

Lemma content_full d f h : packet_ok f → data_in d f → mread d (f_pay f) 20 = Some h → content d (f_l f) = Some (h ++ f_data f).
Proof.
  intros (_ & _ & H20 & _) [Hc _] Hh. unfold f_body, f_l, f_pay in *. cbn [content] in *. simpl payload in Hc. simpl len in Hc.
  replace (Z.to_nat (len (f_b f))) with (20 + Z.to_nat (len (f_b f) + -20))%nat by lia. rewrite mread_app, Hh.
  cbn [mbind option_bind]. replace (payload (f_b f) + Z.of_nat 20) with (payload (f_b f) - -20) by lia.
  destruct (mread d _ (Z.to_nat (len (f_b f) + -20))) as [c|]; cbn [mbind option_bind] in *; [|done].
  destruct (content d (f_t f)) as [c'|]; cbn [mbind option_bind] in *; [|done]. injection Hc as <-. by rewrite <-app_assoc.
Qed.

(** The stores that restore the header of the first fragment. *)
Lemma final_header_ok w f hdr dlen G :
  packet_ok f → sep (f_l f ++ G) → data_in (rdat w) f → length hdr = 20%nat →
  ∃ d1 d2 d3 d', rstore (mstore (f_pay f) hdr) w = Ok (wdat d1 w) ∧
    rstore (mstore (f_pay f + 2) (word16 (lwip_htons dlen))) (wdat d1 w) = Ok (wdat d2 w) ∧
    rstore (mstore (f_pay f + 6) (word16 0)) (wdat d2 w) = Ok (wdat d3 w) ∧
    rstore (mstore (f_pay f + 10) (word16 0)) (wdat d3 w) = Ok (wdat d' w) ∧
    content d' (f_l f) = Some (final_hdr hdr dlen ++ f_data f) ∧ keeps G (rdat w) d'.
Proof.
  intros Hp Hs Hd Hl. destruct (header_write_ok (rdat w) f 0 hdr G) as (S0 & D0 & K0); try done; [unfold zlen; lia|].
  rewrite Z.add_0_r in *. set (d0 := mwrite (rdat w) (f_pay f) hdr) in *.
  destruct (header_write_ok d0 f 2 (word16 (lwip_htons dlen)) G) as (S1 & D1 & K1); try done.
  set (d1 := mwrite d0 (f_pay f + 2) _) in *.
  destruct (header_write_ok d1 f 6 (word16 0) G) as (S2 & D2 & K2); try done. set (d2 := mwrite d1 (f_pay f + 6) _) in *.
  destruct (header_write_ok d2 f 10 (word16 0) G) as (S3 & D3 & K3); try done. set (d3 := mwrite d2 (f_pay f + 10) _) in *.
  exists d0, d1, d2, d3. split_and!; [exact (rstore_ok _ d0 w S0)|exact (rstore_ok _ d1 (wdat d0 w) S1)|
    exact (rstore_ok _ d2 (wdat d1 w) S2)|exact (rstore_ok _ d3 (wdat d2 w) S3)| |eauto].
  apply content_full; [done|done|]. unfold final_hdr, d3, d2, d1. change 20%nat with (Z.to_nat 20).
  do 3 (apply mread_splice; [|lia|change (zlen _) with 2; lia]).
  change (Z.to_nat 20) with 20%nat. rewrite <-Hl. apply mread_mwrite_same.
Qed.

Lemma datagram_len_bound d fs e : Forall frag_ok fs → queue_to d fs e → zlen (datagram fs) ≤ (MAX_FRAG - 20) * zlen fs.
Proof.
  induction fs as [|f fs IH]; intros Hok Hq; [done|]. apply Forall_cons in Hok as [[Hf _] Hok]. destruct Hq as (_ & Hd & Hq).
  specialize (IH Hok Hq). pose proof (data_len _ _ Hf Hd) as Hl. destruct (body_ok f Hf) as (_ & _ & Hb).
  destruct Hf as (_ & _ & _ & Hf). unfold datagram in *. rewrite fmap_cons. cbn [concat]. unfold zlen in *.
  rewrite length_app. cbn [length]. lia.
Qed.
End code.
