(* ===== verification/Ip4FragState.v ===== *)
(** * IPv4 reassembly: all queues

    [reass_ok w Q X]: the queues of the state [w] are the abstract datagrams [Q], the
    structs of their fragments belong to the reassembly code alone, ip_reass_pbufcount is
    their number, and [X] are structs held by the rest of the stack.  Releasing a datagram,
    the timer and the search for the oldest datagram are operations on the list [Q]. *)

From Stdlib Require Import Sorted.
From S2P Require Import Prelude ByteMem Def MempFacts MempPool Pbuf PbufFacts PbufData PbufLife PbufChain PbufOwn.
From S2P Require Import Ip4Frag Ip4FragFacts Ip4FragQueue.

(** ** Abstract datagrams *)

(** [g_last] is the length of the datagram once its last fragment arrived. *)
Record dgram := Dgram { g_hdr : ip_hdr; g_frags : list frag; g_last : option Z; g_timer : Z }.

Implicit Types (Q : list (Z * dgram)) (g : dgram).

Definition qhead Q : option Z := match Q with [] => None | (a, _) :: _ => Some a end.

Definition reassdata_of (nx : option Z) g : ip_reassdata :=
  Reass nx (fhead (g_frags g)) (g_hdr g) (default 0 (g_last g)) (match g_last g with Some _ => 1 | None => 0 end) (g_timer g).

Fixpoint rmap Q : gmap Z ip_reassdata :=
  match Q with [] => ∅ | (a, g) :: Q => <[a := reassdata_of (qhead Q) g]> (rmap Q) end.

Definition q_structs Q : list (Z * pbuf) := flat_map (λ x, structs (g_frags x.2)) Q.

Lemma q_structs_app Q1 Q2 : q_structs (Q1 ++ Q2) = q_structs Q1 ++ q_structs Q2.
Proof. apply flat_map_app. Qed.

Lemma q_structs_cons a g Q : q_structs ((a, g) :: Q) = structs (g_frags g) ++ q_structs Q.
Proof. done. Qed.

(** ** The linked list *)

Lemma rmap_None a Q : a ∉ Q.*1 → rmap Q !! a = None.
Proof.
  induction Q as [|[b g] Q IH]; intros Ha; [done|]. rewrite fmap_cons in Ha. apply not_elem_of_cons in Ha as [Hb Ha].
  simpl in *. rewrite lookup_insert_ne by done. auto.
Qed.

Lemma qhead_app Q1 Q2 Q2' : qhead Q2 = qhead Q2' → qhead (Q1 ++ Q2) = qhead (Q1 ++ Q2').
Proof. by destruct Q1 as [|[]]. Qed.

Lemma NoDup_middle Q1 a g Q2 : NoDup (Q1 ++ (a, g) :: Q2).*1 → (a ∉ Q1.*1) ∧ (a ∉ Q2.*1) ∧ NoDup (Q1 ++ Q2).*1.
Proof.
  rewrite !fmap_app, fmap_cons. cbn [fst]. intros Hn. pose proof (Permutation_middle Q1.*1 Q2.*1 a) as Hp.
  rewrite <-Hp in Hn. apply NoDup_cons in Hn as [Ha Hn]. rewrite elem_of_app in Ha. tauto.
Qed.

Lemma rmap_lookup Q1 a g Q2 : NoDup (Q1 ++ (a, g) :: Q2).*1 →
  rmap (Q1 ++ (a, g) :: Q2) !! a = Some (reassdata_of (qhead Q2) g).
Proof.
  intros (Ha & _ & _)%NoDup_middle. induction Q1 as [|[b g'] Q1 IH]; cbn [app rmap]; [by rewrite lookup_insert_eq|].
  rewrite fmap_cons in Ha. apply not_elem_of_cons in Ha as [Hb Ha]. rewrite lookup_insert_ne by (by simpl in Hb). auto.
Qed.

Lemma rmap_update Q1 a g g' Q2 : NoDup (Q1 ++ (a, g) :: Q2).*1 →
  <[a := reassdata_of (qhead Q2) g']> (rmap (Q1 ++ (a, g) :: Q2)) = rmap (Q1 ++ (a, g') :: Q2).
Proof.
  intros (Ha & _ & _)%NoDup_middle. induction Q1 as [|[b h] Q1 IH]; cbn [app rmap]; [by rewrite insert_insert_eq|].
  rewrite fmap_cons in Ha. apply not_elem_of_cons in Ha as [Hb Ha]. rewrite insert_insert_ne by (by simpl in Hb).
  rewrite IH by done. do 2 f_equal. by apply qhead_app.
Qed.

Lemma rmap_remove_head a g Q : NoDup ((a, g) :: Q).*1 → delete a (rmap ((a, g) :: Q)) = rmap Q.
Proof. intros (_ & Ha & _)%(NoDup_middle []). cbn [rmap]. apply delete_insert_id. by apply rmap_None. Qed.

Lemma rmap_remove Q1 b gb a g Q2 : NoDup (Q1 ++ (b, gb) :: (a, g) :: Q2).*1 →
  delete a (<[b := reassdata_of (qhead Q2) gb]> (rmap (Q1 ++ (b, gb) :: (a, g) :: Q2))) = rmap (Q1 ++ (b, gb) :: Q2).
Proof.
  induction Q1 as [|[c gc] Q1 IH]; intros Hn; cbn [app rmap].
  - rewrite insert_insert_eq. apply NoDup_cons in Hn as [Hb Hn]. apply NoDup_cons in Hn as [Ha _].
    rewrite delete_insert_ne by (intros ->; apply Hb; by left). rewrite delete_insert_id by (by apply rmap_None). done.
  - cbn [app] in Hn. rewrite fmap_cons in Hn. apply NoDup_cons in Hn as [Hc Hn]. cbn [fst] in Hc. rewrite fmap_app in Hc. apply not_elem_of_app in Hc as [_ Hc].
    rewrite !fmap_cons in Hc. cbn [fst] in Hc. apply not_elem_of_cons in Hc as [Hcb Hc]. apply not_elem_of_cons in Hc as [Hca _].
    rewrite insert_insert_ne, delete_insert_ne by done. rewrite IH by done. do 2 f_equal. by apply qhead_app.
Qed.

Lemma size_rmap Q : NoDup Q.*1 → size (rmap Q) = length Q.
Proof.
  induction Q as [|[a g] Q IH]; intros Hn; [done|]. apply NoDup_cons in Hn as [Ha Hn]. cbn [rmap].
  rewrite map_size_insert_None by (by apply rmap_None). simpl. by rewrite IH.
Qed.

(** ** The invariant *)

Definition ordered (f f' : frag) : Prop := f_start f < f_start f' ∧ f_end f ≤ f_start f'.

Record dgram_wf g : Prop := {
  go_hdr : length (g_hdr g) = 20%nat;
  go_frags : Forall frag_ok (g_frags g);
  go_sorted : StronglySorted ordered (g_frags g);
  go_timer : 0 ≤ g_timer g ≤ IP_REASS_MAXAGE;
  go_last : ∀ n, g_last g = Some n → 0 ≤ n ≤ 65515 ∧ Exists (λ f, 0 < f_start f) (g_frags g)
}.

Definition dgram_ok g : Prop := dgram_wf g ∧ g_frags g ≠ [].

(** What the reassembly code needs of ICMP: the answer to a packet leaves the packet and
    everything else that is held alone.  icmp_send_response copies 28 bytes. *)
Class ReassEnvLaws (A : Type) `{AllocatorLaws A} `{!ReassEnv A} := {
  icmp_time_exceeded_law (s : pstate A) F p q :
    excl s F → (p, q) ∈ F → mapped (dat s) (payload q) 28 →
    ∃ s', icmp_time_exceeded p ICMP_TE_FRAG s = Ok s' ∧ excl s' F ∧ keeps F (dat s) (dat s')
}.

(** The answer is handed over completely: nothing that was made for it stays in use. *)
Definition icmp_leaves_nothing {A : Type} `{AllocatorLaws A} `{!ReassEnv A} : Prop :=
  ∀ (s : pstate A) F p q s', excl s F → (p, q) ∈ F → mapped (dat s) (payload q) 28 → icmp_time_exceeded p ICMP_TE_FRAG s = Ok s' → dom (pb s') ⊆ dom (pb s).

Section state.
Context {A P : Type} `{AllocatorLaws A} `{!ReassEnv A} `{!ReassEnvLaws A} `{PoolLaws P}.
Implicit Types w : rstate A P.

(** The queues are linked as [Q] says; the pool knows their structs. *)
Definition linked_queues w Q : Prop :=
  rd w = rmap Q ∧ reassdatagrams w = qhead Q ∧ NoDup Q.*1 ∧ pool_ok (rpool w) Q.*1.

Definition reass_ok w Q (X : list (Z * pbuf)) : Prop :=
  excl (ps w) (q_structs Q ++ X) ∧ linked_queues w Q ∧
  Forall (λ x, dgram_ok x.2 ∧ queue (rdat w) (g_frags x.2)) Q ∧
  ip_reass_pbufcount w = zlen (q_structs Q) ∧ ip_reass_pbufcount w ≤ IP_REASS_MAX_PBUFS.

Definition prev_of Q : option Z := fst <$> last Q.

Lemma getr_middle w Q1 a g Q2 : linked_queues w (Q1 ++ (a, g) :: Q2) → getr a w = Ok (reassdata_of (qhead Q2) g).
Proof. intros (Hrd & _ & Hnd & _). unfold getr. by rewrite Hrd, rmap_lookup. Qed.

(** ip_reass_dequeue_datagram removes one datagram from the list. *)
Lemma dequeue_ok w Q1 a g Q2 : linked_queues w (Q1 ++ (a, g) :: Q2) →
  ∃ p', let w' := RState (ps w) (rmap (Q1 ++ Q2)) (qhead (Q1 ++ Q2)) (ip_reass_pbufcount w) p' in
    ip_reass_dequeue_datagram a (prev_of Q1) w = Ok w' ∧ linked_queues w' (Q1 ++ Q2).
Proof.
  intros (Hrd & Hh & Hn & Hp). pose proof (NoDup_middle _ _ _ _ Hn) as (Ha1 & Ha2 & Hn').
  destruct (pool_free_ok (rpool w) a (Q1 ++ (a, g) :: Q2).*1 (Q1 ++ Q2).*1) as (p' & Hf & Hp' & _); [done| |].
  { rewrite !fmap_app, fmap_cons. cbn [fst]. by rewrite Permutation_middle. }
  exists p'. split; [|split_and!; done]. unfold ip_reass_dequeue_datagram, getr. rewrite Hrd, rmap_lookup by done.
  cbn [deref mbind res_bind rnext reassdata_of]. rewrite Hh. destruct Q1 as [|[b gb] Q1 _] using rev_ind.
  - cbn [app qhead]. rewrite bool_decide_eq_true_2 by done. cbn [mbind res_bind set_head rpool rd]. rewrite Hf.
    cbn [mbind res_bind]. unfold set_rd. cbn [rd]. rewrite Hrd. f_equal. unfold set_rpool. simpl.
    rewrite delete_insert_id; [done|]. by apply rmap_None.
  - rewrite bool_decide_eq_false_2.
    2:{ intros Hq. apply Ha1. destruct Q1 as [|[c gc] Q1]; simplify_eq/=; by left. }
    unfold prev_of. rewrite last_snoc. cbn [fmap option_fmap option_map fst].
    rewrite <-app_assoc in *. cbn [app] in *.
    rewrite (modr_ok b (reassdata_of (Some a) gb)) by (rewrite Hrd; by apply rmap_lookup).
    cbn [mbind res_bind putr set_rd rpool rd]. rewrite Hf. cbn [mbind res_bind]. rewrite Hrd.
    change (with_rnext (qhead Q2) (reassdata_of (Some a) gb)) with (reassdata_of (qhead Q2) gb).
    unfold set_rpool, set_rd. simpl. rewrite rmap_remove by done. rewrite Hh.
    do 2 f_equal. destruct Q1 as [|[]]; done.
Qed.

(** ** Releasing a datagram *)

Lemma free_frags_ok G fs : ∀ fuel n w,
  excl (ps w) (structs fs ++ G) → Forall frag_ok fs → queue (rdat w) fs → 0 ≤ n → n + zlen (structs fs) ≤ 65535 →
  (length fs ≤ fuel)%nat →
  ∃ s', free_frags fuel (fhead fs) n w = Ok (n + zlen (structs fs), set_ps s' w) ∧ excl s' G ∧ dat s' = rdat w ∧
    ∀ D, confined (ps w) D (structs fs ++ G) → confined s' D G.
Proof.
  induction fs as [|f fs IH]; intros fuel n w Ho Hok Hq Hn Hb Hfu.
  { exists (ps w). split_and!; try done. destruct fuel; simpl; unfold zlen; simpl; rewrite Z.add_0_r; by destruct w. }
  destruct fuel as [|fuel]; [simpl in Hfu; lia|]. cbn [fhead_or free_frags].
  apply Forall_cons in Hok as [Hf Hok]. destruct Hq as (Hh & Hd & Hq). rewrite structs_cons in *.
  rewrite <-app_assoc in Ho. unfold zlen in Hb. rewrite length_app in Hb.
  rewrite (frag_getp w _ f Ho) by sub_goal. cbn [mbind res_bind]. fold (f_pay f).
  rewrite (helper_next _ _ _ _ _ Hh) by (eapply (fhead_ok _ _ fs Ho); sub_goal). cbn [mbind res_bind].
  rewrite (excl_clen (ps w) (f_l f) (structs fs ++ G)); [|done|apply Hf|unfold zlen; lia]. cbn [mbind res_bind].
  unfold zlen. replace (n + Z.of_nat (length (f_l f)) <=? 65535) with true by lia. cbn [LWIP_ASSERT mbind res_bind].
  destruct (excl_free (ps w) (f_l f) (structs fs ++ G) (f_p f)) as (k & s1 & -> & Ho1 & Hd1 & Hg1); [done|apply Hf|].
  cbn [mbind res_bind]. rewrite u16_id by ulia.
  destruct (IH fuel (n + Z.of_nat (length (f_l f))) (set_ps s1 w)) as (s2 & Hfr & Ho2 & Hd2 & Hg2); try done; try (unfold zlen; lia).
  - change (rdat (set_ps s1 w)) with (dat s1). by rewrite Hd1.
  - simpl in Hfu. lia.
  - exists s2. rewrite Hfr. split_and!; [|done|by rewrite Hd2; change (rdat (set_ps s1 w)) with (dat s1)|].
    2: { intros D HD. rewrite <-app_assoc in HD. apply Hg2. by eapply confined_free. }
    f_equal. f_equal. rewrite length_app. unfold zlen. lia.
Qed.

Definition with_frags fs g : dgram := Dgram (g_hdr g) fs (g_last g) (g_timer g).

(** Writing the IP header back over the helper struct. *)
Lemma restore_header d f hdr G : packet_ok f → sep (f_l f ++ G) → data_in d f → length hdr = 20%nat →
  mstore (f_pay f) hdr d = Ok (mwrite d (f_pay f) hdr) ∧ data_in (mwrite d (f_pay f) hdr) f ∧ keeps G d (mwrite d (f_pay f) hdr).
Proof.
  intros Hp Hs Hd Hl. rewrite <-(Z.add_0_r (f_pay f)). apply header_write_ok; try done. unfold zlen. lia.
Qed.

Lemma free_first_ok G f fs Q1 a g Q2 w :
  excl (ps w) (f_l f ++ structs fs ++ G) → packet_ok f → zlen (f_l f) ≤ 65535 → Forall frag_ok fs → g_frags g = f :: fs →
  length (g_hdr g) = 20%nat → queue (rdat w) (f :: fs) → linked_queues w (Q1 ++ (a, g) :: Q2) →
  ∃ s', free_first_frag a (f_p f) (f_pay f) w =
      Ok (zlen (f_l f), RState s' (rmap (Q1 ++ (a, with_frags fs g) :: Q2)) (reassdatagrams w) (ip_reass_pbufcount w) (rpool w)) ∧
    excl s' (structs fs ++ G) ∧ queue (dat s') fs ∧ keeps G (rdat w) (dat s') ∧
    ∀ D, icmp_leaves_nothing → confined (ps w) D (f_l f ++ structs fs ++ G) → confined s' D (structs fs ++ G).
Proof.
  intros Ho Hf Hn Hok Hg Hhdr (Hh & Hd & Hq) (Hrd & _ & Hnd & _). unfold free_first_frag, getr.
  rewrite Hrd, rmap_lookup by done. cbn [deref mbind res_bind].
  rewrite (helper_next _ _ _ _ _ Hh) by (eapply (fhead_ok _ _ fs Ho); sub_goal). cbn [mbind res_bind].
  change (with_rp (fhead fs) (reassdata_of (qhead Q2) g)) with (reassdata_of (qhead Q2) (with_frags fs g)).
  destruct (restore_header (rdat w) f (g_hdr g) (structs fs ++ G)) as (Hst & Hd1 & Hk1); try done; [apply Ho|].
  set (d1 := mwrite (rdat w) (f_pay f) (g_hdr g)) in *. cbn [iphdr reassdata_of].
  set (w1 := putr a _ w). rewrite (rstore_ok _ d1 w1) by exact Hst. cbn [mbind res_bind].
  destruct (icmp_time_exceeded_law (set_dat d1 (ps w)) (f_l f ++ structs fs ++ G) (f_p f) (f_b f)) as (s2 & Hic & Ho2 & Hk2).
  { by eapply excl_set_dat. }
  { by left. }
  { apply Hd1. }
  assert (Hdom : icmp_leaves_nothing → dom (pb s2) ⊆ dom (pb (ps w))).
  { intros Hnone. refine (Hnone (set_dat d1 (ps w)) (f_l f ++ structs fs ++ G) (f_p f) (f_b f) s2 _ _ _ Hic); [by eapply excl_set_dat|by left|apply Hd1]. }
  change (ps (wdat d1 w1)) with (set_dat d1 (ps w)). rewrite Hic. cbn [mbind res_bind].
  rewrite (excl_clen s2 (f_l f) (structs fs ++ G)); [|done|apply Hf|lia]. cbn [mbind res_bind].
  pose proof (zlen_nonneg (f_l f)). rewrite Z.add_0_l. replace (zlen (f_l f) <=? 65535) with true by lia.
  cbn [LWIP_ASSERT mbind res_bind].
  destruct (excl_free s2 (f_l f) (structs fs ++ G) (f_p f)) as (k & s3 & Hfr & Ho3 & Hd3 & Hg3); [done|apply Hf|].
  rewrite Hfr. cbn [mbind res_bind]. rewrite u16_id by ulia. exists s3.
  assert (Hk : keeps (structs fs ++ G) (rdat w) (dat s3)).
  { rewrite Hd3. eapply keeps_trans; [exact Hk1|]. eapply keeps_sub; [|exact Hk2]. sub_goal. }
  split_and!; [|done|eapply queue_keeps; [exact Hk|sub_goal|done|done]|eapply keeps_sub; [|exact Hk]; sub_goal|].
  2: { intros D Hnone HD. eapply confined_free; [exact Hg3|]. unfold confined in *. etransitivity; [by apply Hdom|exact HD]. }
  unfold w1, putr, wdat, set_ps, set_rd. simpl. by rewrite Hrd, rmap_update.
Qed.

(** The two assertions about [prev]. *)
Lemma prev_checked w Q1 a g Q2 : linked_queues w (Q1 ++ (a, g) :: Q2) →
  (match prev_of Q1 with
   | None => Ok tt
   | Some prev => r ← getr prev w; LWIP_ASSERT (bool_decide (rnext r = Some a))
   end) = Ok tt ∧ prev_of Q1 ≠ Some a.
Proof.
  intros (Hrd & _ & Hnd & _). pose proof (NoDup_middle _ _ _ _ Hnd) as (Ha1 & _ & _). unfold prev_of.
  destruct Q1 as [|[b gb] Q1 _] using rev_ind; [done|]. rewrite last_snoc. cbn [fmap option_fmap option_map fst]. split.
  - unfold getr. rewrite <-app_assoc in Hrd, Hnd. cbn [app] in Hrd, Hnd. rewrite Hrd, rmap_lookup by done.
    cbn [deref mbind res_bind rnext reassdata_of qhead]. by rewrite bool_decide_eq_true_2.
  - intros [= ->]. apply Ha1. rewrite fmap_app. apply elem_of_app. right. by left.
Qed.

(** The ICMP answer, sent when the first fragment is there. *)
Lemma free_first_cases G f fs Q1 a g Q2 w :
  excl (ps w) (structs (f :: fs) ++ G) → zlen (structs (f :: fs)) ≤ 65535 → dgram_ok g → g_frags g = f :: fs →
  queue (rdat w) (f :: fs) → linked_queues w (Q1 ++ (a, g) :: Q2) →
  ∃ n fs' s', (if f_start f =? 0 then free_first_frag a (f_p f) (f_pay f) w else Ok (0, w)) =
      Ok (n, RState s' (rmap (Q1 ++ (a, with_frags fs' g) :: Q2)) (reassdatagrams w) (ip_reass_pbufcount w) (rpool w)) ∧
    excl s' (structs fs' ++ G) ∧ queue (dat s') fs' ∧ keeps G (rdat w) (dat s') ∧ Forall frag_ok fs' ∧ 0 ≤ n ∧
    n + zlen (structs fs') = zlen (structs (f :: fs)) ∧
    ∀ D, icmp_leaves_nothing → confined (ps w) D (structs (f :: fs) ++ G) → confined s' D (structs fs' ++ G).
Proof.
  intros Ho Hn Hg Eg Hq Hl. pose proof (go_frags g (proj1 Hg)) as Hok. rewrite Eg in Hok. pose proof Hok as [Hf Hfs]%Forall_cons.
  destruct (f_start f =? 0).
  - rewrite structs_cons in Ho, Hn |- *. unfold zlen in Hn. rewrite length_app in Hn.
    destruct (free_first_ok G f fs Q1 a g Q2 w) as (s' & Hfr & Ho1 & Hq1 & Hk1 & Hg1); try done.
    + by rewrite app_assoc.
    + apply Hf.
    + unfold zlen. lia.
    + apply Hg.
    + exists (zlen (f_l f)), fs, s'. pose proof (zlen_nonneg (f_l f)). split_and!; try done; [|by rewrite <-app_assoc].
      unfold zlen. rewrite length_app. lia.
  - exists 0, (f :: fs), (ps w). split_and!; try done.
    rewrite <-Eg. replace (with_frags (g_frags g) g) with g by (by destruct g). destruct Hl as (<- & _). by destruct w.
Qed.

Lemma queues_keep d d' Q X : Forall (λ x, dgram_ok x.2 ∧ queue d (g_frags x.2)) Q → keeps (q_structs Q ++ X) d d' →
  Forall (λ x, dgram_ok x.2 ∧ queue d' (g_frags x.2)) Q.
Proof.
  rewrite !Forall_forall. intros Hall Hk x Hx. destruct (Hall x Hx) as [Hdg Hqx]. split; [done|].
  eapply queue_keeps; [exact Hk| |apply Hdg|exact Hqx]. intros y Hy. apply elem_of_app. left.
  unfold q_structs. apply list_elem_of_In, in_flat_map. exists x. by split; apply list_elem_of_In.
Qed.

Lemma free_complete_ok w Q1 a g Q2 X : reass_ok w (Q1 ++ (a, g) :: Q2) X →
  ∃ w', ip_reass_free_complete_datagram a (prev_of Q1) w = Ok (zlen (structs (g_frags g)), w') ∧
    reass_ok w' (Q1 ++ Q2) X ∧ keeps X (rdat w) (rdat w') ∧
    ∀ D, icmp_leaves_nothing → confined (ps w) D (q_structs (Q1 ++ (a, g) :: Q2) ++ X) → confined (ps w') D (q_structs (Q1 ++ Q2) ++ X).
Proof.
  intros (Ho & Hl & Hall & Hcnt & Hmax). pose proof Hl as (Hrd & Hhead & Hnd & Hpool).
  rewrite q_structs_app, q_structs_cons in Ho, Hcnt. set (G := q_structs (Q1 ++ Q2) ++ X).
  assert (Ho' : excl (ps w) (structs (g_frags g) ++ G)).
  { eapply excl_perm; [|exact Ho]. unfold G. rewrite q_structs_app. solve_Permutation. }
  pose proof Hall as [Hall1 [[Hg Hq] Hall2]%Forall_cons]%Forall_app. cbn [snd] in Hg, Hq.
  unfold ip_reass_free_complete_datagram. destruct (prev_checked _ _ _ _ _ Hl) as [Hp1 Hp2].
  rewrite bool_decide_eq_false_2 by done. cbn [negb LWIP_ASSERT mbind res_bind].
  rewrite Hp1. cbn [mbind res_bind]. rewrite (getr_middle w Q1 a g Q2 Hl). cbn [mbind res_bind].
  destruct (g_frags g) as [|f fs] eqn:Eg; [by destruct (proj2 Hg)|]. unfold reassdata_of at 1. rewrite Eg.
  cbn [rp fhead_or deref mbind res_bind]. rewrite (frag_getp w _ f Ho') by (rewrite structs_cons; sub_goal).
  cbn [mbind res_bind]. fold (f_pay f). pose proof (go_frags g (proj1 Hg)) as Hok. rewrite Eg in Hok. apply Forall_cons in Hok as [Hf Hfs].
  rewrite (helper_start _ _ _ _ _ (proj1 Hq)) by (apply f_ranges, Hf). cbn [mbind res_bind].
  assert (Hsz : zlen (structs (f :: fs)) ≤ ip_reass_pbufcount w) by (rewrite Hcnt; unfold zlen; rewrite !length_app; lia).
  unfold IP_REASS_MAX_PBUFS in *.
  destruct (free_first_cases G f fs Q1 a g Q2 w) as (n & fs' & s1 & -> & Ho1 & Hq1 & Hk1 & Hok1 & Hn & Hsum & Hg1); try done; [lia|].
  cbn [mbind res_bind]. set (w1 := RState s1 _ _ _ _).
  assert (Hl1 : linked_queues w1 (Q1 ++ (a, with_frags fs' g) :: Q2)).
  { unfold linked_queues. rewrite !fmap_app, !fmap_cons in *. split_and!; try done. simpl. rewrite Hhead. by destruct Q1 as [|[]]. }
  rewrite (getr_middle w1 _ _ _ _ Hl1). cbn [mbind res_bind rp reassdata_of with_frags g_frags].
  destruct (free_frags_ok G fs' (frags_fuel w1) n w1) as (s2 & -> & Ho2 & Hd2 & Hg2); try done; [lia| |].
  { pose proof (frags_fuel_enough fs' G w1 Ho1). lia. }
  cbn [mbind res_bind].
  destruct (dequeue_ok (set_ps s2 w1) Q1 a (with_frags fs' g) Q2) as (p' & Hdq & Hl2); [done|].
  rewrite Hdq. cbn [mbind res_bind]. rewrite Hsum. cbn [ip_reass_pbufcount set_ps w1].
  replace (zlen (structs (f :: fs)) <=? ip_reass_pbufcount w) with true by lia. cbn [LWIP_ASSERT mbind res_bind].
  pose proof (zlen_nonneg (structs (f :: fs))). rewrite u16_id by ulia.
  assert (Hkk : keeps G (rdat w) (dat s2)) by (rewrite Hd2; exact Hk1).
  eexists. split; [done|]. split; [|split; [by eapply (keeps_sub X G); [unfold G; sub_goal|]|]].
  2: { intros D Hnone HD. apply Hg2, Hg1; [done|]. eapply confined_perm; [|exact HD]. unfold G. rewrite !q_structs_app, q_structs_cons, Eg. solve_Permutation. }
  split_and!; [exact Ho2|exact Hl2| | |].
  - eapply (queues_keep (rdat w)); [by apply Forall_app|exact Hkk].
  - change (ip_reass_pbufcount w - zlen (structs (f :: fs)) = zlen (q_structs (Q1 ++ Q2))). rewrite Hcnt. unfold zlen. rewrite q_structs_app, !length_app. lia.
  - change (ip_reass_pbufcount w - zlen (structs (f :: fs)) ≤ 10). lia.
Qed.

(** ** The timer *)

(** A change of a datagram that leaves its fragments alone. *)
Lemma reass_update w Q1 a g g' Q2 X : reass_ok w (Q1 ++ (a, g) :: Q2) X → g_frags g' = g_frags g → dgram_ok g' →
  reass_ok (putr a (reassdata_of (qhead Q2) g') w) (Q1 ++ (a, g') :: Q2) X.
Proof.
  intros (Ho & (Hrd & Hh & Hnd & Hp) & Hall & Hcnt & Hmax) Hfr Hg'.
  assert (Hs : q_structs (Q1 ++ (a, g') :: Q2) = q_structs (Q1 ++ (a, g) :: Q2)).
  { rewrite !q_structs_app, !q_structs_cons. by rewrite Hfr. }
  unfold reass_ok, linked_queues. rewrite Hs. split_and!; try done.
  - simpl. by rewrite Hrd, rmap_update.
  - simpl. rewrite Hh. by destruct Q1 as [|[]].
  - rewrite fmap_app, fmap_cons in *. done.
  - rewrite fmap_app, fmap_cons in *. done.
  - apply Forall_app in Hall as [Ha1 [[Ha2 Ha3] Ha4]%Forall_cons]. apply Forall_app. split; [done|].
    apply Forall_cons. split; [|done]. split; [done|]. simpl in *. by rewrite Hfr.
Qed.

Definition with_gtimer t g : dgram := Dgram (g_hdr g) (g_frags g) (g_last g) t.

(** One second: datagrams whose timer ran down are given up. *)
Definition tick Q : list (Z * dgram) :=
  omap (λ x, if 0 <? g_timer x.2 then Some (x.1, with_gtimer (g_timer x.2 - 1) x.2) else None) Q.

Lemma prev_of_snoc Q a g : prev_of (Q ++ [(a, g)]) = Some a.
Proof. unfold prev_of. by rewrite last_snoc. Qed.

Lemma tmr_loop_ok X Q2 : ∀ Q1 fuel w, reass_ok w (Q1 ++ Q2) X → (length Q2 ≤ fuel)%nat →
  ∃ w', reass_tmr_loop fuel (qhead Q2) (prev_of Q1) w = Ok w' ∧ reass_ok w' (Q1 ++ tick Q2) X ∧ keeps X (rdat w) (rdat w') ∧
    ∀ D, icmp_leaves_nothing → confined (ps w) D (q_structs (Q1 ++ Q2) ++ X) → confined (ps w') D (q_structs (Q1 ++ tick Q2) ++ X).
Proof.
  induction Q2 as [|[a g] Q2 IH]; intros Q1 fuel w Hok Hfu.
  { exists w. split; [by destruct fuel|done]. }
  destruct fuel as [|fuel]; [simpl in Hfu; lia|]. cbn [qhead reass_tmr_loop]. simpl in Hfu.
  rewrite (getr_middle w Q1 a g Q2) by apply Hok. cbn [mbind res_bind timer reassdata_of rnext].
  assert (Hg : dgram_ok g) by (destruct Hok as (_ & _ & Hall & _); apply Forall_app in Hall as [_ [[Hg _] _]%Forall_cons]; done).
  destruct (go_timer g (proj1 Hg)) as [Ht1 Ht2]. unfold IP_REASS_MAXAGE in Ht2. unfold tick. cbn [omap list_omap fst snd].
  destruct (0 <? g_timer g) eqn:Et; breflect.
  - rewrite u8_id by ulia.
    change (with_timer (g_timer g - 1) (reassdata_of (qhead Q2) g)) with
      (reassdata_of (qhead Q2) (with_gtimer (g_timer g - 1) g)).
    destruct (IH (Q1 ++ [(a, with_gtimer (g_timer g - 1) g)]) fuel (putr a (reassdata_of (qhead Q2) (with_gtimer (g_timer g - 1) g)) w))
      as (w' & Hrun & Hok' & Hk' & Hg'); [|lia|].
    + rewrite <-app_assoc. apply (reass_update w Q1 a g); [done|done|]. destruct Hg as [[] ?]. split; [|done]. split; try done. simpl. unfold IP_REASS_MAXAGE. lia.
    + rewrite prev_of_snoc in Hrun. exists w'. rewrite <-app_assoc in Hok'. split_and!; try done.
      intros D Hnone HD. specialize (Hg' D Hnone). rewrite <-!app_assoc in Hg'. apply Hg'. rewrite q_structs_app in *. exact HD.
  - destruct (free_complete_ok w Q1 a g Q2 X Hok) as (w1 & -> & Hok1 & Hk1 & Hg1). cbn [mbind res_bind].
    destruct (IH Q1 fuel w1 Hok1) as (w' & Hrun & Hok' & Hk' & Hg'); [lia|]. exists w'. split_and!; try done; eauto.
Qed.

Lemma reass_fuel_enough w Q X : reass_ok w Q X → reass_fuel w = S (length Q).
Proof. intros (_ & (Hrd & _ & Hnd & _) & _). unfold reass_fuel. by rewrite Hrd, size_rmap. Qed.

Lemma tmr_ok w Q X : reass_ok w Q X →
  ∃ w', ip_reass_tmr w = Ok w' ∧ reass_ok w' (tick Q) X ∧ keeps X (rdat w) (rdat w') ∧
    ∀ D, icmp_leaves_nothing → confined (ps w) D (q_structs Q ++ X) → confined (ps w') D (q_structs (tick Q) ++ X).
Proof.
  intros Hok. unfold ip_reass_tmr. rewrite (reass_fuel_enough w Q X Hok). pose proof Hok as (_ & (_ & -> & _) & _).
  apply (tmr_loop_ok X Q []); [done|lia].
Qed.

(** ** The oldest datagram *)

Definition belongs (hdr : ip_hdr) (x : Z * dgram) : bool := IP_ADDRESSES_AND_ID_MATCH (g_hdr x.2) hdr.

Definition others (hdr : ip_hdr) Q : Z := zlen (filter (λ x, belongs hdr x = false) Q).

(** [g] is one of the datagrams with the least time left that [hdr] does not belong to. *)
Definition oldest (hdr : ip_hdr) Q1 a g Q2 : Prop :=
  belongs hdr (a, g) = false ∧ Forall (λ x, belongs hdr x = false → g_timer g ≤ g_timer x.2) (Q1 ++ Q2).

Definition oldest_found (hdr : ip_hdr) Q (o op : option Z) : Prop :=
  match o with
  | None => op = None ∧ Forall (λ x, belongs hdr x = true) Q
  | Some a => ∃ Q1 g Q2, Q = Q1 ++ (a, g) :: Q2 ∧ op = prev_of Q1 ∧ oldest hdr Q1 a g Q2
  end.

Lemma others_app hdr Q1 Q2 : others hdr (Q1 ++ Q2) = others hdr Q1 + others hdr Q2.
Proof. unfold others, zlen. rewrite filter_app, length_app. lia. Qed.

Lemma others_one hdr a g : others hdr [(a, g)] = if belongs hdr (a, g) then 0 else 1.
Proof. unfold others. rewrite filter_cons. by destruct (belongs hdr (a, g)); case_decide. Qed.

Lemma others_cons hdr a g Q : others hdr ((a, g) :: Q) = (if belongs hdr (a, g) then 0 else 1) + others hdr Q.
Proof. rewrite <-others_one. apply (others_app hdr [(a, g)] Q). Qed.

Lemma oldest_snoc_skip hdr Q o op x : belongs hdr x = true → oldest_found hdr Q o op → oldest_found hdr (Q ++ [x]) o op.
Proof.
  intros Hx. destruct o as [a|]; cbn [oldest_found].
  - intros (Q1 & g & Q2 & -> & -> & Hg & Hall). exists Q1, g, (Q2 ++ [x]). rewrite <-app_assoc. split_and!; try done.
    split; [done|]. rewrite app_assoc. apply Forall_app. split; [done|]. apply Forall_singleton. congruence.
  - intros [-> Hall]. split; [done|]. apply Forall_app. split; [done|]. by apply Forall_singleton.
Qed.

(** A younger datagram does not replace the oldest one. *)
Lemma oldest_snoc_keep hdr Q1 b h Q2 op a g : g_timer h ≤ g_timer g → op = prev_of Q1 → oldest hdr Q1 b h Q2 →
  oldest_found hdr ((Q1 ++ (b, h) :: Q2) ++ [(a, g)]) (Some b) op.
Proof.
  intros Ht -> [Hb Hall]. exists Q1, h, (Q2 ++ [(a, g)]). rewrite <-app_assoc. split_and!; try done. split; [done|].
  rewrite app_assoc. apply Forall_app. split; [done|]. apply Forall_singleton. done.
Qed.

Lemma oldest_snoc_new hdr Q a g : belongs hdr (a, g) = false →
  Forall (λ x, belongs hdr x = false → g_timer g ≤ g_timer x.2) Q → oldest_found hdr (Q ++ [(a, g)]) (Some a) (prev_of Q).
Proof. intros Hg Hall. exists Q, g, []. split_and!; try done. split; [done|]. by rewrite app_nil_r. Qed.

Lemma find_oldest_ok hdr fraghdr X w : ∀ Q2 Q1 fuel prev o op,
  reass_ok w (Q1 ++ Q2) X → ld_hdr (rdat w) fraghdr = Ok hdr → (Q2 ≠ [] → prev = prev_of Q1) →
  oldest_found hdr Q1 o op → (length Q2 ≤ fuel)%nat →
  ∃ o' op', find_oldest fuel (qhead Q2) prev o op (others hdr Q1) fraghdr w = Ok (o', op', others hdr (Q1 ++ Q2)) ∧
    oldest_found hdr (Q1 ++ Q2) o' op'.
Proof.
  induction Q2 as [|[a g] Q2 IH]; intros Q1 fuel prev o op Hok Hhdr Hprev Hold Hfu.
  { rewrite app_nil_r in *. exists o, op. split; [by destruct fuel|done]. }
  destruct fuel as [|fuel]; [simpl in Hfu; lia|]. cbn [qhead find_oldest]. simpl in Hfu.
  pose proof Hok as (_ & Hl & _). rewrite (getr_middle w Q1 a g Q2 Hl). cbn [mbind res_bind]. rewrite Hhdr.
  cbn [mbind res_bind iphdr reassdata_of rnext timer]. change (IP_ADDRESSES_AND_ID_MATCH (g_hdr g) hdr) with (belongs hdr (a, g)).
  rewrite Hprev by done.
  assert (Hstep : ∃ o1 op1,
    (if negb (belongs hdr (a, g)) then
       match o with
       | None => Ok (Some a, prev_of Q1, others hdr Q1 + 1)
       | Some b => y ← getr b w; if g_timer g <=? timer y then Ok (Some a, prev_of Q1, others hdr Q1 + 1)
                                else Ok (o, op, others hdr Q1 + 1)
       end else Ok (o, op, others hdr Q1)) = Ok (o1, op1, others hdr (Q1 ++ [(a, g)])) ∧
    oldest_found hdr (Q1 ++ [(a, g)]) o1 op1).
  { rewrite others_app, others_one. destruct (belongs hdr (a, g)) eqn:Eb; cbn [negb].
    { exists o, op. rewrite Z.add_0_r. split; [done|]. by apply oldest_snoc_skip. }
    destruct o as [b|].
    - destruct Hold as (Qa & h & Qb & -> & -> & Hold).
      rewrite (getr_middle w Qa b h (Qb ++ (a, g) :: Q2)) by (by rewrite <-app_assoc in Hl).
      cbn [mbind res_bind timer reassdata_of]. destruct (g_timer g <=? g_timer h) eqn:Et; breflect.
      + exists (Some a), (prev_of (Qa ++ (b, h) :: Qb)). split; [done|]. apply oldest_snoc_new; [done|].
        destruct Hold as [Hb Hall]. apply Forall_app in Hall as [Hall1 Hall2].
        assert (Hmono : ∀ Q, Forall (λ x, belongs hdr x = false → g_timer h ≤ g_timer x.2) Q →
                  Forall (λ x, belongs hdr x = false → g_timer g ≤ g_timer x.2) Q).
        { intros Q HQ. eapply Forall_impl; [exact HQ|]. simpl. intros x Hx Hxb. specialize (Hx Hxb). lia. }
        apply Forall_app. split; [by apply Hmono|]. apply Forall_cons. split; [done|by apply Hmono].
      + exists (Some b), (prev_of Qa). split; [done|]. apply oldest_snoc_keep; [lia|done|done].
    - destruct Hold as [-> Hall]. exists (Some a), (prev_of Q1). split; [done|]. apply oldest_snoc_new; [done|].
      eapply Forall_impl; [exact Hall|]. congruence. }
  destruct Hstep as (o1 & op1 & -> & Hold1). cbn [mbind res_bind].
  destruct (IH (Q1 ++ [(a, g)]) fuel (match qhead Q2 with Some _ => Some a | None => prev_of Q1 end) o1 op1)
    as (o2 & op2 & Hrun & Hold2); try done; [by rewrite <-app_assoc| |lia|].
  - destruct Q2 as [|[]]; [done|]. intros _. cbn [qhead]. by rewrite prev_of_snoc.
  - rewrite <-app_assoc in Hrun, Hold2. by exists o2, op2.
Qed.
End state.
