(* ===== verification/Ip4FragReass.v ===== *)
(** * IPv4 reassembly: ip4_reass

    The effect of a fragment on the abstract datagrams: making room by giving up the
    oldest other datagrams ([evicted]), finding or creating the queue, inserting, and
    returning the packet when the datagram is complete. *)

From Stdlib Require Import Sorted.
From S2P Require Import Prelude ByteMem Def MempFacts MempPool Pbuf PbufFacts PbufData PbufLife PbufChain PbufOwn.
From S2P Require Import Ip4Frag Ip4FragFacts Ip4FragQueue Ip4FragState.

Implicit Types (Q : list (Z * dgram)) (g : dgram).

(** ** Making room *)

Inductive evicted (hdr : ip_hdr) : list (Z * dgram) → list (Z * dgram) → Prop :=
| ev_none Q : evicted hdr Q Q
| ev_oldest Q1 a g Q2 Q' : oldest hdr Q1 a g Q2 → evicted hdr (Q1 ++ Q2) Q' → evicted hdr (Q1 ++ (a, g) :: Q2) Q'.

(** The datagram the fragment belongs to stays. *)
Lemma evicted_belongs hdr Q Q' : evicted hdr Q Q' →
  filter (λ x, belongs hdr x = true) Q' = filter (λ x, belongs hdr x = true) Q.
Proof.
  induction 1 as [|Q1 a g Q2 Q' [Hb _] _ IH]; [done|]. rewrite IH, !filter_app, filter_cons.
  rewrite decide_False by congruence. done.
Qed.

Lemma arrives_keeps F d d' f h : keeps F d d' → f_l f ⊆ F → arrives d f h → arrives d' f h.
Proof.
  intros Hk Hs (Hp & Hd & Hm & Hrest). split_and!; try done; [by eapply data_keeps| |apply Hrest..]. rewrite <-Hm.
  unfold f_pay. rewrite <-(Z.add_0_r (payload (f_b f))). destruct Hp as (_ & _ & H20 & _).
  apply (keeps_mread F d d' (f_p f)); [done|apply Hs; by left|lia|lia].
Qed.

Lemma evicted_trans hdr Q Q' Q'' : evicted hdr Q Q' → evicted hdr Q' Q'' → evicted hdr Q Q''.
Proof. induction 1 as [|Q1 a g Q2 Q' Ho _ IH]; [done|]. intros He. apply ev_oldest; [done|auto]. Qed.

Lemma evicted_Forall hdr (R : Z * dgram → Prop) Q Q' : evicted hdr Q Q' → Forall R Q → Forall R Q'.
Proof.
  induction 1 as [|Q1 a g Q2 Q' _ _ IH]; [done|]. intros [H1 [_ H2]%Forall_cons]%Forall_app. apply IH, Forall_app. done.
Qed.

Lemma q_structs_remove Q1 a g Q2 : zlen (q_structs (Q1 ++ (a, g) :: Q2)) = zlen (structs (g_frags g)) + zlen (q_structs (Q1 ++ Q2)).
Proof. rewrite !q_structs_app, q_structs_cons. unfold zlen. rewrite !length_app. lia. Qed.

Lemma dgram_structs g : dgram_ok g → 0 < zlen (structs (g_frags g)).
Proof.
  intros [_ Hg]. destruct (g_frags g) as [|f fs]; [done|]. rewrite structs_cons.
  unfold zlen, f_l. simpl. lia.
Qed.

Section reass.
Context {A P : Type} `{AllocatorLaws A} `{!ReassEnv A} `{!ReassEnvLaws A} `{PoolLaws P}.
Implicit Types w : rstate A P.

(** The header of the arriving packet, which belongs to [X]. *)
Definition header_in w (X : list (Z * pbuf)) (q : pbuf) (hdr : ip_hdr) : Prop :=
  (∃ p, (p, q) ∈ X) ∧ 20 ≤ len q ∧ ld_hdr (rdat w) (payload q) = Ok hdr.

Lemma header_keeps w w' X q hdr : header_in w X q hdr → keeps X (rdat w) (rdat w') → header_in w' X q hdr.
Proof.
  intros ([p Hp] & Hl & Hh) Hk. split_and!; [eauto|done|]. rewrite <-Hh. unfold ld_hdr. f_equal.
  rewrite <-(Z.add_0_r (payload q)). apply (keeps_mread X _ _ p); [done|done|lia|lia].
Qed.

Lemma remove_loop_ok hdr q X needed : ∀ fuel Q w n,
  reass_ok w Q X → header_in w X q hdr → (Z.to_nat (others hdr Q) < fuel)%nat →
  ∃ Q' w', remove_oldest_loop fuel (payload q) needed n w = Ok (n + (zlen (q_structs Q) - zlen (q_structs Q')), w') ∧
    reass_ok w' Q' X ∧ keeps X (rdat w) (rdat w') ∧ evicted hdr Q Q' ∧
    (others hdr Q = 0 ∧ Q' = Q ∨ zlen (q_structs Q') < zlen (q_structs Q)) ∧
    (needed ≤ n + (zlen (q_structs Q) - zlen (q_structs Q')) ∨ others hdr Q' = 0).
Proof.
  induction fuel as [|fuel IH]; intros Q w n Hok Hhdr Hfu; [lia|]. cbn [remove_oldest_loop].
  pose proof Hok as (_ & (_ & Hhead & _) & Hok1). rewrite Hhead.
  destruct (find_oldest_ok hdr (payload q) X w Q [] (reass_fuel w) None None None) as (o & op & Hfind & Hold);
    [done|apply Hhdr|done|done|by rewrite (reass_fuel_enough w Q X Hok); lia|].
  change (others hdr []) with 0 in Hfind. cbn [app] in Hfind, Hold. rewrite Hfind. cbn [mbind res_bind].
  destruct o as [a|].
  - destruct Hold as (Q1 & g & Q2 & -> & -> & Hold).
    destruct (free_complete_ok w Q1 a g Q2 X Hok) as (w1 & -> & Hokw & Hk & _). cbn [mbind res_bind].
    assert (Hg : dgram_ok g) by (destruct Hok1 as (Hall & _); apply Forall_app in Hall as [_ [[Hg _] _]%Forall_cons]; done).
    pose proof (q_structs_remove Q1 a g Q2) as Hsz. pose proof (dgram_structs g Hg) as Hpos.
    assert (Hoth : others hdr (Q1 ++ (a, g) :: Q2) = 1 + others hdr (Q1 ++ Q2)).
    { rewrite !others_app, others_cons. destruct Hold as [-> _]. lia. }
    destruct (_ && _) eqn:Ec.
    + apply andb_true_iff in Ec as [_ Ec]. breflect.
      destruct (IH (Q1 ++ Q2) w1 (n + zlen (structs (g_frags g)))) as (Q' & w' & Hrun & Hok' & Hk' & Hev & Hlt & Hend);
        [done|by eapply header_keeps|rewrite Hoth in Hfu; unfold others in *; lia|].
      exists Q', w'. rewrite Hrun. split; [do 2 f_equal; lia|]. split_and!; [done|eauto|by apply ev_oldest| |].
      * right. destruct Hlt as [[? ->]|?]; lia.
      * destruct Hend; [left; lia|by right].
    + exists (Q1 ++ Q2), w1. split; [do 2 f_equal; lia|]. split_and!; [done|done|by apply ev_oldest; [|constructor]|right; lia|].
      apply andb_false_iff in Ec as [Ec|Ec]; breflect; [left; lia|right]. unfold others, zlen in *. lia.
  - destruct Hold as [-> Hall]. cbn [mbind res_bind].
    assert (Hz : others hdr Q = 0).
    { clear -Hall. induction Q as [|[a g] Q IH]; [done|]. apply Forall_cons in Hall as [Hb Hall].
      rewrite others_cons, Hb. by rewrite IH. }
    rewrite Hz, andb_false_r. exists Q, w. split; [do 2 f_equal; lia|]. split_and!; [done|done|constructor|by left|by right].
Qed.

Lemma remove_oldest_ok w Q X q hdr needed : reass_ok w Q X → header_in w X q hdr →
  ∃ Q' w', ip_reass_remove_oldest_datagram (payload q) needed w = Ok (zlen (q_structs Q) - zlen (q_structs Q'), w') ∧
    reass_ok w' Q' X ∧ keeps X (rdat w) (rdat w') ∧ evicted hdr Q Q'.
Proof.
  intros Hok Hhdr. unfold ip_reass_remove_oldest_datagram. rewrite (reass_fuel_enough w Q X Hok).
  destruct (remove_loop_ok hdr q X needed (S (length Q)) Q w 0) as (Q' & w' & Hrun & ? & ? & ? & _); [done|done| |by exists Q', w'].
  unfold others. pose proof (length_filter (λ x, belongs hdr x = false) Q). unfold zlen. lia.
Qed.

(** ** The queue of the fragment

    Between finding the queue of a fragment and inserting the fragment, the queue may be
    new and empty; then it is the first one of the list. *)
Record pre_ok w Q1 (a : Z) g Q2 (X : list (Z * pbuf)) : Prop := {
  pre_excl : excl (ps w) (q_structs (Q1 ++ (a, g) :: Q2) ++ X);
  pre_linked : linked_queues w (Q1 ++ (a, g) :: Q2);
  pre_rest : Forall (λ x, dgram_ok x.2 ∧ queue (rdat w) (g_frags x.2)) (Q1 ++ Q2);
  pre_this : dgram_wf g ∧ queue (rdat w) (g_frags g);
  pre_count : ip_reass_pbufcount w = zlen (q_structs (Q1 ++ (a, g) :: Q2));
  pre_max : ip_reass_pbufcount w ≤ IP_REASS_MAX_PBUFS;
  pre_new : g_frags g = [] → Q1 = [] ∧ g_last g = None
}.

Lemma pre_of_reass w Q1 a g Q2 X : reass_ok w (Q1 ++ (a, g) :: Q2) X → pre_ok w Q1 a g Q2 X.
Proof.
  intros (Ho & Hl & Hall & Hc & Hm). apply Forall_app in Hall as [Ha1 [[[Ha2 Ha2'] Ha3] Ha4]%Forall_cons].
  split; try done. by apply Forall_app.
Qed.

Lemma reass_of_pre w Q1 a g Q2 X : pre_ok w Q1 a g Q2 X → g_frags g ≠ [] → reass_ok w (Q1 ++ (a, g) :: Q2) X.
Proof.
  intros [Ho Hl Hr [Ht Hq] Hc Hm _] Hne. split_and!; try done. apply Forall_app in Hr as [Ha1 Ha2].
  apply Forall_app. split; [done|]. apply Forall_cons. done.
Qed.

Definition new_dgram (hdr : ip_hdr) : dgram := Dgram hdr [] None IP_REASS_MAXAGE.

(** ** A new datagram *)

(** Taking an element of the pool for a new, empty queue. *)
Lemma new_queue_ok w Q X q hdr a p' : reass_ok w Q X → header_in w X q hdr → length hdr = 20%nat → pool_ok p' (a :: Q.*1) →
  let w0 := set_head (Some a) (putr a (Reass (qhead Q) None (replicate 20 0) 0 0 IP_REASS_MAXAGE) (set_rpool p' w)) in
  ∃ w', (hdr ← ld_hdr (rdat w0) (payload q); w ← modr a (with_iphdr hdr) w0; Ok (Some a, w)) = Ok (Some a, w') ∧
    pre_ok w' [] a (new_dgram hdr) Q X ∧ rdat w' = rdat w.
Proof.
  intros (Ho & (Hrd & Hh & Hnd & Hp) & Hall & Hc & Hm) (_ & _ & Hhdr) Hl20 Hp' w0. change (rdat w0) with (rdat w).
  rewrite Hhdr. cbn [mbind res_bind].
  rewrite (modr_ok a (Reass (qhead Q) None (replicate 20 0) 0 0 IP_REASS_MAXAGE)) by apply lookup_insert_eq.
  cbn [mbind res_bind]. eexists. split; [done|]. split; [|done]. split; cbn [app]; try done.
  - split_and!; try done; [simpl; rewrite insert_insert_eq, Hrd; done|].
    by apply pool_nodup in Hp'.
  - split; [|done]. by split; cbn [new_dgram g_frags g_timer g_hdr g_last]; try constructor.
Qed.

Lemma enqueue_new_ok w Q X q hdr clen : reass_ok w Q X → header_in w X q hdr → length hdr = 20%nat →
  ∃ Q' r w', ip_reass_enqueue_new_datagram (payload q) clen w = Ok (r, w') ∧ evicted hdr Q Q' ∧ keeps X (rdat w) (rdat w') ∧
    ip_reass_pbufcount w' ≤ ip_reass_pbufcount w ∧
    match r with None => reass_ok w' Q' X | Some a => pre_ok w' [] a (new_dgram hdr) Q' X end ∧
    (pool_malloc (rpool w) ≠ Ok (None, rpool w) → Q' = Q ∧ r ≠ None).
Proof.
  intros Hok Hhdr Hl20. unfold ip_reass_enqueue_new_datagram. pose proof Hok as (_ & (_ & Hhead & _ & Hpool) & _).
  destruct (pool_malloc_ok _ _ Hpool) as ([a|] & p' & Hm & Hp'); rewrite Hm; cbn [mbind res_bind].
  - change (reassdatagrams (set_rpool p' w)) with (reassdatagrams w). rewrite Hhead.
    destruct (new_queue_ok w Q X q hdr a p' Hok Hhdr Hl20 Hp') as (w' & Hrun & Hpre & Hd). rewrite Hrun.
    exists Q, (Some a), w'. split_and!; try done; [constructor|by rewrite Hd|].
    destruct Hpre as [_ _ _ _ Hc _ _]. rewrite Hc. destruct Hok as (_ & _ & _ & -> & _). done.
  - subst p'. replace (set_rpool (rpool w) w) with w by (by destruct w).
    destruct (remove_oldest_ok w Q X q hdr clen Hok Hhdr) as (Q' & w1 & -> & Hok1 & Hk1 & Hev). cbn [mbind res_bind].
    assert (Hle : ip_reass_pbufcount w1 ≤ ip_reass_pbufcount w).
    { destruct Hok1 as (_ & _ & _ & -> & _). destruct Hok as (_ & _ & _ & -> & _). clear -Hev.
      induction Hev as [|Q1 a g Q2 Q' _ _ IH]; [done|]. rewrite q_structs_remove. pose proof (zlen_nonneg (structs (g_frags g))). lia. }
    destruct (clen <=? _); [|by exists Q', None, w1].
    pose proof Hok1 as (_ & (_ & Hhead1 & _ & Hpool1) & _).
    destruct (pool_malloc_ok _ _ Hpool1) as ([a|] & p' & Hm1 & Hp'); rewrite Hm1; cbn [mbind res_bind].
    + change (reassdatagrams (set_rpool p' w1)) with (reassdatagrams w1). rewrite Hhead1.
      destruct (new_queue_ok w1 Q' X q hdr a p' Hok1 (header_keeps _ _ _ _ _ Hhdr Hk1) Hl20 Hp') as (w' & Hrun & Hpre & Hd).
      rewrite Hrun. exists Q', (Some a), w'. split_and!; try done; [by rewrite Hd|].
      destruct Hpre as [_ _ _ _ Hc _ _]. rewrite Hc. destruct Hok1 as (_ & _ & _ & Hc1 & _).
      change (q_structs ([] ++ (a, new_dgram hdr) :: Q')) with (q_structs Q'). lia.
    + subst p'. replace (set_rpool (rpool w1) w1) with w1 by (by destruct w1). by exists Q', None, w1.
Qed.

(** ** A complete datagram *)

Lemma find_prev_ok w a g Q2 : ∀ Qb Qa fuel, linked_queues w (Qa ++ Qb ++ (a, g) :: Q2) → Qb ≠ [] → (length Qb ≤ fuel)%nat →
  find_prev fuel (qhead (Qb ++ (a, g) :: Q2)) a w = Ok (prev_of (Qa ++ Qb)).
Proof.
  induction Qb as [|[b gb] Qb IH]; intros Qa fuel Hl Hne Hfu; [done|]. destruct fuel as [|fuel]; [simpl in Hfu; lia|].
  cbn [app qhead find_prev]. rewrite (getr_middle w Qa b gb (Qb ++ (a, g) :: Q2) Hl). cbn [mbind res_bind rnext reassdata_of].
  destruct Qb as [|[c gc] Qb]; [cbn [app qhead]; rewrite bool_decide_eq_true_2 by done; by rewrite prev_of_snoc|].
  rewrite bool_decide_eq_false_2.
  - change ((b, gb) :: (c, gc) :: Qb) with ([(b, gb)] ++ (c, gc) :: Qb) in Hl |- *. rewrite <-!app_assoc in Hl. rewrite (app_assoc Qa) in Hl |- *.
    rewrite (IH (Qa ++ [(b, gb)])); [done|done|done|simpl in *; lia].
  - intros Hq. simplify_eq/=. destruct Hl as (_ & _ & Hnd & _). rewrite app_comm_cons, app_comm_cons, app_assoc in Hnd.
    apply NoDup_middle in Hnd as (Ha & _). apply Ha. rewrite fmap_app. apply elem_of_app. right. right. by left.
Qed.

Lemma prev_queue_ok w Q1 a g Q2 : linked_queues w (Q1 ++ (a, g) :: Q2) →
  (if bool_decide (reassdatagrams w = Some a) then Ok None else find_prev (reass_fuel w) (reassdatagrams w) a w) = Ok (prev_of Q1).
Proof.
  intros Hl. pose proof Hl as (Hrd & Hh & Hnd & _). rewrite Hh. destruct Q1 as [|[b gb] Q1].
  - cbn [app qhead]. by rewrite bool_decide_eq_true_2.
  - rewrite bool_decide_eq_false_2.
    + rewrite (find_prev_ok w a g Q2 ((b, gb) :: Q1) []); [done|done|done|].
      unfold reass_fuel. rewrite Hrd, size_rmap by done. rewrite length_app. simpl. lia.
    + apply NoDup_middle in Hnd as (Ha & _). intros Hq. simplify_eq/=. apply Ha. by left.
Qed.

(** A packet held by the rest of the stack, with its bytes. *)
Definition packet_in w (p : Z) (l : list (Z * pbuf)) (c : list Z) : Prop :=
  linked (Some p) l ∧ lens_ok l ∧ content (rdat w) l = Some c.

(** The other queues do not notice changes elsewhere. *)
Lemma rest_keeps d d' Q G : keeps G d d' → q_structs Q ⊆ G →
  Forall (λ x, dgram_ok x.2 ∧ queue d (g_frags x.2)) Q → Forall (λ x, dgram_ok x.2 ∧ queue d' (g_frags x.2)) Q.
Proof.
  intros Hk Hs Hall. rewrite Forall_forall in Hall |- *. intros x Hx. destruct (Hall x Hx) as [Hg Hq]. split; [done|].
  eapply queue_keeps; [exact Hk| |apply Hg|exact Hq]. intros y Hy. apply Hs. unfold q_structs.
  apply list_elem_of_In, in_flat_map. exists x. by split; apply list_elem_of_In.
Qed.

Lemma complete_ok w Q1 a g Q2 X f fs n : pre_ok w Q1 a g Q2 X → g_frags g = f :: fs → g_last g = Some n →
  ∃ l w', reass_complete a w = Ok (Some (f_p f), w') ∧ reass_ok w' (Q1 ++ Q2) (l ++ X) ∧
    packet_in w' (f_p f) l (final_hdr (g_hdr g) (n + 20) ++ datagram (f :: fs)) ∧ keeps X (rdat w) (rdat w').
Proof.
  intros [Ho Hl Hr [Hg Hq] Hc Hm _] Hfr Hn. pose proof (go_frags g Hg) as Hok. rewrite Hfr in Hok, Hq.
  pose proof Hok as [[Hf _] Hfs]%Forall_cons. destruct (go_last g Hg n Hn) as [Hn0 _].
  rewrite q_structs_remove, Hfr in Hc. unfold IP_REASS_MAX_PBUFS in Hm. set (G := q_structs (Q1 ++ Q2) ++ X).
  assert (Ho' : excl (ps w) (f_l f ++ structs fs ++ G)).
  { eapply excl_perm; [|exact Ho]. rewrite !q_structs_app, q_structs_cons, Hfr, structs_cons. unfold G.
    rewrite q_structs_app. solve_Permutation. }
  assert (Hbound : zlen (datagram (f :: fs)) ≤ 65330).
  { pose proof (datagram_len_bound _ _ _ Hok Hq). pose proof (length_structs (f :: fs)).
    pose proof (zlen_nonneg (q_structs (Q1 ++ Q2))). unfold MAX_FRAG, zlen in *. lia. }
  unfold reass_complete. rewrite (getr_middle w Q1 a g Q2 Hl). cbn [mbind res_bind]. unfold reassdata_of. rewrite Hfr, Hn.
  cbn [datagram_len rp iphdr fhead_or deref mbind res_bind]. change (default 0 (Some n)) with n. unfold IP_HLEN. rewrite (u16_id (n + 20)) by ulia.
  rewrite (frag_getp w _ f Ho') by sub_goal. cbn [mbind res_bind]. fold (f_pay f).
  destruct Hq as (Hh & Hd & Hq). rewrite (helper_next _ _ _ _ _ Hh) by (eapply (fhead_ok _ _ fs Ho'); sub_goal).
  cbn [mbind res_bind].
  destruct (final_header_ok w f (g_hdr g) (n + 20) (structs fs ++ G))
    as (d1 & d2 & d3 & d4 & S1 & S2 & S3 & S4 & Hc4 & Hk4); try done; [apply Ho'|apply Hg|].
  rewrite S1. cbn [mbind res_bind]. rewrite S2. cbn [mbind res_bind]. rewrite S3. cbn [mbind res_bind]. rewrite S4.
  cbn [mbind res_bind]. clear S1 S2 S3 S4.
  assert (Hq4 : queue d4 fs) by (eapply queue_keeps; [exact Hk4|sub_goal|done|done]).
  pose proof (final_hdr_len (g_hdr g) (n + 20) (go_hdr g Hg)) as Hz.
  assert (Ho4 : excl (ps (wdat d4 w)) (f_l f ++ structs fs ++ G)) by (by eapply (excl_set_dat (ps w))).
  destruct (chain_frags_ok (f_p f) G fs (frags_fuel (wdat d4 w)) (f_l f) (final_hdr (g_hdr g) (n + 20) ++ f_data f) (wdat d4 w))
    as (s5 & l & Hrun & Ho5 & Hd5 & Hk5 & Hl5 & Hc5 & Hn5); try done; [apply Hf|apply Hf| | |].
  { unfold datagram, zlen in *. rewrite fmap_cons in Hbound. cbn [concat] in Hbound. rewrite !length_app in *. lia. }
  { assert (Hfu : (length (f :: fs) < frags_fuel (wdat d4 w))%nat).
    { apply (frags_fuel_enough _ G). by rewrite structs_cons, <-app_assoc. }
    simpl in Hfu. lia. }
  change (rdat (wdat d4 w)) with d4 in *. rewrite Hrun. cbn [mbind res_bind].
  assert (Hl' : linked_queues (set_ps s5 (wdat d4 w)) (Q1 ++ (a, g) :: Q2)) by done.
  rewrite (prev_queue_ok _ _ _ _ _ Hl'). cbn [mbind res_bind].
  destruct (dequeue_ok _ _ _ _ _ Hl') as (p' & -> & Hl6). cbn [mbind res_bind ps set_ps].
  assert (Hn5' : zlen l = zlen (structs (f :: fs))) by (rewrite structs_cons; unfold zlen; rewrite length_app; lia).
  rewrite (excl_clen s5 l G (f_p f) Ho5 Hk5) by (unfold zlen in *; lia). cbn [mbind res_bind].
  cbn [ip_reass_pbufcount set_ps wdat]. pose proof (zlen_nonneg (q_structs (Q1 ++ Q2))). pose proof (zlen_nonneg l).
  replace (zlen l <=? ip_reass_pbufcount w) with true by lia. cbn [LWIP_ASSERT mbind res_bind].
  exists l. eexists. split; [done|].
  assert (HkG : keeps G (rdat w) (dat s5)) by (rewrite Hd5; eapply keeps_sub; [|exact Hk4]; sub_goal).
  split; [unfold reass_ok; split_and!|split].
  - eapply excl_perm; [|exact Ho5]. unfold G. solve_Permutation.
  - exact Hl6.
  - eapply rest_keeps; [exact HkG|unfold G; sub_goal|done].
  - change (u16 (ip_reass_pbufcount w - zlen l) = zlen (q_structs (Q1 ++ Q2))). rewrite u16_id by ulia. lia.
  - change (u16 (ip_reass_pbufcount w - zlen l) ≤ 10). rewrite u16_id by ulia. lia.
  - split_and!; [done|done|]. change (content (dat s5) l = Some (final_hdr (g_hdr g) (n + 20) ++ datagram (f :: fs))).
    rewrite Hd5, Hc5. unfold datagram. rewrite fmap_cons. cbn [concat]. by rewrite <-app_assoc.
  - eapply (keeps_sub X G); [unfold G; sub_goal|]. exact HkG.
Qed.

(** ** A fragment and its queue *)

Definition is_last_frag (hdr : ip_hdr) : bool := Z.land (IPH_OFFSET hdr) (PP_HTONS IP_MF) =? 0.

(** The datagram with the fragment; [None]: the fragment is dropped. *)
Definition added (is_last : bool) (f : frag) g : option dgram :=
  if is_last && (65515 <? f_end f) then None else
  fs ← add_frag f (g_frags g);
  Some (Dgram (g_hdr g) fs (if is_last then Some (f_end f) else g_last g) (g_timer g)).

(** The length of the datagram when nothing is missing. *)
Definition finished g : option Z := if complete (g_frags g) then g_last g else None.

Lemma insert_sorted f fs fs' : frag_ok f → Forall frag_ok fs → StronglySorted ordered fs → insert_frag f fs = Some fs' →
  StronglySorted ordered fs'.
Proof.
  intros [_ (Hf0 & Hf1 & _)]. pose proof (zlen_nonneg (f_data f)).
  revert fs'. induction fs as [|g fs IH]; intros fs' Hok Hs Hi; cbn [insert_frag] in Hi.
  { simplify_eq. repeat constructor. }
  apply StronglySorted_inv in Hs as [Hs Hg]. apply Forall_cons in Hok as [[_ (Hg0 & Hg1 & _)] Hok]. pose proof (zlen_nonneg (f_data g)).
  destruct (f_start f <? f_start g) eqn:E1; breflect.
  - destruct (f_end f <=? f_start g) eqn:E2; simplify_eq. breflect. constructor; [by constructor|].
    apply Forall_cons. split; [by split|]. eapply Forall_impl; [exact Hg|]. intros h [??]. split; lia.
  - destruct (_ || _) eqn:E2; [done|]. apply orb_false_iff in E2 as [E2 E3]. breflect.
    destruct (insert_frag f fs) as [fs1|] eqn:Ei; simplify_eq/=. constructor; [by apply IH|].
    rewrite (insert_frag_perm _ _ _ Ei). apply Forall_cons. split; [split; lia|done].
Qed.

(** A fragment of a datagram that is not the whole datagram. *)
Definition proper_frag (hdr : ip_hdr) (f : frag) : Prop := is_last_frag hdr = true → f_start f ≠ 0.

Lemma added_wf hdr f g g' : dgram_wf g → (f_end f ≤ 65535 → frag_ok f) → proper_frag hdr f → added (is_last_frag hdr) f g = Some g' →
  dgram_wf g' ∧ g_frags g' ≡ₚ f :: g_frags g ∧ g_hdr g' = g_hdr g ∧ g_timer g' = g_timer g ∧ frag_ok f.
Proof.
  unfold added, add_frag. intros Hg Hf Hprop Ha. destruct (_ && _) eqn:El; [done|]. destruct (f_end f <=? 65535) eqn:E; [|done]. breflect.
  specialize (Hf E). destruct (insert_frag f (g_frags g)) as [fs|] eqn:Ei; simplify_eq/=. pose proof (insert_frag_perm _ _ _ Ei) as Hp.
  split_and!; try done. destruct Hg as [G1 G2 G3 G4 G5]. split; cbn [g_hdr g_frags g_timer g_last]; try done.
  - rewrite Hp. by constructor.
  - by eapply insert_sorted.
  - intros n Hn. destruct (is_last_frag hdr) eqn:Eb; cbn [andb] in El.
    + simplify_eq. breflect. destruct Hf as [_ (Hf0 & Hf1 & Hf2)]. pose proof (zlen_nonneg (f_data f)).
      split; [lia|]. specialize (Hprop Eb). rewrite Exists_exists. exists f. split; [rewrite Hp; by left|lia].
    + destruct (G5 n Hn) as [? Hex]. split; [done|]. rewrite Exists_exists in Hex |- *. destruct Hex as (x & Hx & ?).
      exists x. split; [rewrite Hp; by right|done].
Qed.

Lemma nullreturn_ok w Q f X : reass_ok w Q (f_l f ++ X) → packet_ok f →
  ∃ w', reass_nullreturn (f_p f) w = Ok (None, w') ∧ reass_ok w' Q X ∧ rdat w' = rdat w.
Proof.
  intros (Ho & Hl & Hall & Hc & Hm) Hf. unfold reass_nullreturn.
  destruct (excl_free (ps w) (f_l f) (q_structs Q ++ X) (f_p f)) as (n & s' & -> & Ho' & Hd & _); [|apply Hf|].
  { eapply excl_perm; [|exact Ho]. solve_Permutation. }
  cbn [mbind res_bind]. eexists. split; [done|]. split; [|exact Hd]. unfold reass_ok. split_and!; try done.
  change (rdat (set_ps s' w)) with (dat s'). by rewrite Hd.
Qed.

(** The queues when a fragment of [a] was dropped: a queue that was new is given back. *)
Definition drop_new a g Q2 : list (Z * dgram) := match g_frags g with [] => Q2 | _ => (a, g) :: Q2 end.

Lemma nullreturn_ipr_ok w Q1 a g Q2 f X : pre_ok w Q1 a g Q2 (f_l f ++ X) → packet_ok f →
  ∃ w', reass_nullreturn_ipr a (f_p f) w = Ok (None, w') ∧ reass_ok w' (Q1 ++ drop_new a g Q2) X ∧ rdat w' = rdat w.
Proof.
  intros Hpre Hf. pose proof Hpre as [Ho Hl Hr Ht Hc Hm Hnew]. unfold reass_nullreturn_ipr, drop_new.
  rewrite (getr_middle w Q1 a g Q2 Hl). cbn [mbind res_bind]. unfold reassdata_of. destruct (g_frags g) as [|f0 fs] eqn:Eg.
  - destruct (Hnew eq_refl) as [-> _]. cbn [rp fhead_or mbind res_bind app] in *. pose proof Hl as (_ & Hh & _).
    rewrite Hh. cbn [qhead]. rewrite bool_decide_eq_true_2 by done. cbn [LWIP_ASSERT mbind res_bind].
    destruct (dequeue_ok w [] a g Q2 Hl) as (p' & Hdq & Hl'). cbn [app] in *.
    change (prev_of []) with (@None Z) in Hdq. rewrite Hdq. cbn [mbind res_bind].
    rewrite q_structs_cons, Eg in Ho, Hc. set (w1 := RState _ _ _ _ _) in *.
    destruct (nullreturn_ok w1 Q2 f X) as (w' & Hrun & Hok' & Hd'); [unfold reass_ok; split_and!; done|done|]. by exists w'.
  - cbn [rp fhead_or mbind res_bind]. apply nullreturn_ok; [|done]. apply reass_of_pre; [done|by rewrite Eg].
Qed.

(** Two fragments at least: the assertion of the validation holds. *)
Lemma complete_two hdr f g fs : dgram_wf g → proper_frag hdr f → (g_frags g = [] → g_last g = None) →
  insert_frag f (g_frags g) = Some fs → complete fs = true →
  is_last_frag hdr || (match g_last g with Some _ => true | None => false end) = true → (2 ≤ length fs)%nat.
Proof.
  intros Hg Hprop Hnew Hi Hc Hlast. pose proof (insert_frag_perm _ _ _ Hi) as Hp. rewrite (Permutation_length Hp). simpl.
  destruct (g_frags g) as [|g0 gs]; [|simpl; lia]. exfalso. rewrite (Hnew eq_refl), orb_false_r in Hlast.
  cbn [insert_frag] in Hi. simplify_eq. simpl in Hc. rewrite andb_true_r in Hc. breflect. by specialize (Hprop Hlast).
Qed.

(** What a fragment does to the queue [a] it belongs to. *)
Definition enqueued w w' r Q1 a g Q2 X (o : option dgram) : Prop :=
  match o with
  | None => r = None ∧ reass_ok w' (Q1 ++ drop_new a g Q2) X
  | Some g' =>
      match finished g' with
      | None => r = None ∧ reass_ok w' (Q1 ++ (a, g') :: Q2) X
      | Some n => ∃ p l, r = Some p ∧ reass_ok w' (Q1 ++ Q2) (l ++ X) ∧
          packet_in w' p l (final_hdr (g_hdr g') (n + 20) ++ datagram (g_frags g'))
      end
  end ∧ keeps X (rdat w) (rdat w').

Lemma pre_keeps w Q1 a g Q2 f X d : pre_ok w Q1 a g Q2 (f_l f ++ X) → keeps (q_structs (Q1 ++ Q2) ++ X) (rdat w) d →
  queue d (g_frags g) → pre_ok (wdat d w) Q1 a g Q2 (f_l f ++ X).
Proof.
  intros [Ho Hl Hr Ht Hc Hm Hnew] Hk Hq. split; try done.
  - by eapply (excl_set_dat (ps w)).
  - eapply rest_keeps; [exact Hk|sub_goal|done].
  - by destruct Ht.
Qed.

(** The state after the fragment was inserted. *)
Lemma pre_added w Q1 a g g' Q2 f X d : pre_ok w Q1 a g Q2 (f_l f ++ X) → keeps (q_structs (Q1 ++ Q2) ++ X) (rdat w) d →
  queue d (g_frags g') → dgram_wf g' → g_frags g' ≡ₚ f :: g_frags g → ip_reass_pbufcount w + zlen (f_l f) ≤ IP_REASS_MAX_PBUFS →
  pre_ok (set_count (u16 (ip_reass_pbufcount w + zlen (f_l f))) (putr a (reassdata_of (qhead Q2) g') (wdat d w))) Q1 a g' Q2 X.
Proof.
  intros [Ho Hl Hr Ht Hc Hm Hnew] Hk Hq Hg' Hperm Hcnt. pose proof (zlen_nonneg (f_l f)). pose proof Hl as (Hrd & Hh & Hnd & Hp).
  assert (Hs : structs (g_frags g') ≡ₚ f_l f ++ structs (g_frags g)) by (by rewrite (structs_perm _ _ Hperm), structs_cons).
  assert (Hz : zlen (q_structs (Q1 ++ (a, g') :: Q2)) = ip_reass_pbufcount w + zlen (f_l f)).
  { rewrite Hc, !q_structs_remove. unfold zlen. rewrite (Permutation_length Hs), length_app. lia. }
  pose proof (zlen_nonneg (q_structs (Q1 ++ (a, g) :: Q2))) as Hz0. unfold IP_REASS_MAX_PBUFS in *.
  assert (Hu : u16 (ip_reass_pbufcount w + zlen (f_l f)) = ip_reass_pbufcount w + zlen (f_l f)) by (rewrite u16_id; ulia).
  rewrite Hu. split.
  - eapply (excl_set_dat (ps w)); [|exact Hk]. eapply excl_perm; [|exact Ho]. rewrite !q_structs_app, !q_structs_cons, Hs. solve_Permutation.
  - unfold linked_queues. rewrite !fmap_app, !fmap_cons in *. split_and!; try done.
    + change (<[a := reassdata_of (qhead Q2) g']> (rd w) = rmap (Q1 ++ (a, g') :: Q2)). rewrite Hrd. apply rmap_update.
      by rewrite fmap_app, fmap_cons.
    + change (reassdatagrams w = qhead (Q1 ++ (a, g') :: Q2)). rewrite Hh. by destruct Q1 as [|[]].
  - eapply rest_keeps; [exact Hk|sub_goal|done].
  - done.
  - done.
  - done.
  - intros He. rewrite He in Hperm. by apply Permutation_nil_l in Hperm.
Qed.

Lemma last_seen_of nx g : last_seen (reassdata_of nx g) = match g_last g with Some _ => true | None => false end.
Proof. unfold last_seen, reassdata_of. simpl. by destruct (g_last g). Qed.

(** The datagram that is too long: the test of the code on 16-bit values. *)
Lemma too_long d f h : arrives d f h →
  (u16 (f_start f + zlen (f_data f)) <? f_start f) || (65535 - IP_HLEN <? u16 (f_start f + zlen (f_data f))) = (65515 <? f_end f).
Proof.
  intros Harr. pose proof (arrives_data_len _ _ _ Harr) as Hl. destruct Harr as ((_ & _ & _ & Hm) & _ & _ & _ & Hs & He).
  assert (Hs0 : is_u16 (f_start f)) by (rewrite Hs; apply u16_range). rewrite <-He. unfold MAX_FRAG, IP_HLEN in *.
  pose proof (zlen_nonneg (f_data f)).
  destruct (65515 <? f_end f) eqn:E; breflect; [apply orb_true_iff|apply orb_false_iff]; ulia.
Qed.

Lemma enqueue_ok w Q1 a g Q2 f hdr X :
  pre_ok w Q1 a g Q2 (f_l f ++ X) → arrives (rdat w) f hdr → IPH_HL_BYTES hdr = 20 → proper_frag hdr f →
  ip_reass_pbufcount w + zlen (f_l f) ≤ IP_REASS_MAX_PBUFS →
  ∃ r w', reass_enqueue a (f_p f) (zlen (f_l f)) (f_start f) (zlen (f_data f)) (f_pay f) w = Ok (r, w') ∧
    enqueued w w' r Q1 a g Q2 X (added (is_last_frag hdr) f g).
Proof.
  intros Hpre Harr Hhl Hprop Hcnt. unfold reass_enqueue. pose proof Harr as (Hf & Hd & Hhdr & _). unfold ld_hdr. rewrite Hhdr.
  cbn [deref mbind res_bind]. fold (is_last_frag hdr). rewrite (too_long _ _ _ Harr). unfold added.
  destruct (is_last_frag hdr && (65515 <? f_end f)) eqn:Elong.
  { destruct (nullreturn_ipr_ok w Q1 a g Q2 f X Hpre Hf) as (w' & -> & Hok' & Hd').
    exists None, w'. split; [done|]. split; [done|]. by rewrite Hd'. }
  pose proof Hpre as [Ho Hl Hr [Hg Hq] Hc Hm Hnew]. set (G := q_structs (Q1 ++ Q2) ++ X).
  destruct (chain_frag_ok G f hdr (g_frags g) a (reassdata_of (qhead Q2) g) (is_last_frag hdr) w) as (d & Hk & Hres); try done.
  { eapply excl_perm; [|exact Ho]. unfold G. rewrite !q_structs_app, q_structs_cons. solve_Permutation. }
  { apply Hg. }
  { destruct Hl as (-> & _ & Hnd & _). by apply rmap_lookup. }
  { intros fs' Hadd Hcomp Hlast. unfold add_frag in Hadd. destruct (f_end f <=? 65535); [|done].
    rewrite last_seen_of in Hlast. eapply complete_two; try done. intros He. by apply Hnew. }
  destruct (add_frag f (g_frags g)) as [fs|] eqn:Eadd; cbn [mbind option_bind].
  2:{ destruct Hres as [Hq' ->]. cbn [mbind res_bind]. change (_ =? IP_REASS_VALIDATE_PBUF_DROPPED) with true. cbn iota.
      destruct (nullreturn_ipr_ok (wdat d w) Q1 a g Q2 f X) as (w' & -> & Hok' & Hd'); [by apply pre_keeps|done|].
      exists None, w'. split; [done|]. split; [done|]. rewrite Hd'. change (rdat (wdat d w)) with d.
      eapply keeps_sub; [|exact Hk]. unfold G. sub_goal. }
  destruct Hres as [Hq' ->]. cbn [mbind res_bind].
  set (g' := Dgram (g_hdr g) fs (if is_last_frag hdr then Some (f_end f) else g_last g) (g_timer g)).
  destruct (added_wf hdr f g g') as (Hg' & Hperm & _ & _ & Hfok); try done.
  { intros Hle. by eapply arrives_ok. }
  { unfold added. by rewrite Elong, Eadd. }
  rewrite last_seen_of. set (v := if _ && complete fs then _ else _).
  replace (v =? IP_REASS_VALIDATE_PBUF_DROPPED) with false by (unfold v; destruct (_ && complete fs); reflexivity).
  set (w1 := set_count (u16 (ip_reass_pbufcount w + zlen (f_l f))) (putr a (reassdata_of (qhead Q2) g') (wdat d w))).
  assert (Hpre1 : pre_ok w1 Q1 a g' Q2 X) by (by eapply pre_added).
  assert (Hw1 : (if is_last_frag hdr then modr a (with_last (u16 (f_start f + zlen (f_data f))))
      (set_count (u16 (ip_reass_pbufcount (putr a (with_rp (fhead fs) (reassdata_of (qhead Q2) g)) (wdat d w)) + zlen (f_l f)))
         (putr a (with_rp (fhead fs) (reassdata_of (qhead Q2) g)) (wdat d w)))
    else Ok (set_count (u16 (ip_reass_pbufcount (putr a (with_rp (fhead fs) (reassdata_of (qhead Q2) g)) (wdat d w)) + zlen (f_l f)))
         (putr a (with_rp (fhead fs) (reassdata_of (qhead Q2) g)) (wdat d w)))) = Ok w1).
  { unfold w1, g'. destruct (is_last_frag hdr).
    - rewrite (modr_ok a (with_rp (fhead fs) (reassdata_of (qhead Q2) g))) by apply lookup_insert_eq. f_equal.
      unfold putr, set_count, set_rd, wdat. simpl. f_equal. rewrite insert_insert_eq. f_equal. f_equal.
      destruct Hfok as [_ (Hf0 & Hf1 & Hf2)]. pose proof (zlen_nonneg (f_data f)). rewrite u16_id by ulia.
      unfold with_last, with_rp, reassdata_of. simpl. rewrite <-Hf1. by destruct (g_last g).
    - f_equal. }
  rewrite Hw1. cbn [mbind res_bind].
  assert (Hfin : (v =? IP_REASS_VALIDATE_TELEGRAM_FINISHED) = match finished g' with Some _ => true | None => false end).
  { unfold v, finished, g'. cbn [g_frags g_last]. destruct (complete fs), (is_last_frag hdr), (g_last g); done. }
  rewrite Hfin. assert (HkX : keeps X (rdat w) (rdat w1)) by (eapply keeps_sub; [|exact Hk]; unfold G; sub_goal).
  unfold enqueued. destruct (finished g') as [n|] eqn:Efin.
  - destruct (g_frags g') as [|f0 fs0] eqn:Efs; [by apply Permutation_nil_l in Hperm|].
    assert (Hlast : g_last g' = Some n) by (unfold finished in Efin; by destruct (complete _)).
    destruct (complete_ok w1 Q1 a g' Q2 X f0 fs0 n Hpre1 Efs Hlast) as (l & w' & -> & Hok' & Hpk & Hk').
    exists (Some (f_p f0)), w'. split; [done|]. split; [by exists (f_p f0), l|eauto].
  - exists None, w1. split; [done|]. split; [|done]. split; [done|]. apply reass_of_pre; [done|].
    intros He. rewrite He in Hperm. by apply Permutation_nil_l in Hperm.
Qed.

(** ** ip4_reass *)

(** The header of the first fragment is kept. *)
Definition first_frag (hdr : ip_hdr) : bool := Z.land (lwip_htons (IPH_OFFSET hdr)) IP_OFFMASK =? 0.
Definition with_hdr (hdr : ip_hdr) g : dgram :=
  if first_frag hdr && negb (first_frag (g_hdr g)) then Dgram hdr (g_frags g) (g_last g) (g_timer g) else g.

(** The queue [a] of a header among [Q]: found, or new at the front. *)
Definition located hdr Q Q1 (a : Z) g Q2 : Prop :=
  (∃ g0, Q = Q1 ++ (a, g0) :: Q2 ∧ belongs hdr (a, g0) = true ∧ Forall (λ x, belongs hdr x = false) Q1 ∧ g = with_hdr hdr g0) ∨
  (Forall (λ x, belongs hdr x = false) Q ∧ Q1 = [] ∧ Q2 = Q ∧ g = new_dgram hdr).

Lemma find_datagram_ok hdr fraghdr X w : ∀ Q2 Q1 fuel, reass_ok w (Q1 ++ Q2) X → ld_hdr (rdat w) fraghdr = Ok hdr →
  Forall (λ x, belongs hdr x = false) Q1 → (length Q2 ≤ fuel)%nat →
  ∃ r, find_datagram fuel (qhead Q2) fraghdr w = Ok r ∧
    match r with
    | None => Forall (λ x, belongs hdr x = false) (Q1 ++ Q2)
    | Some a => ∃ Qa g Qb, Q1 ++ Q2 = Qa ++ (a, g) :: Qb ∧ belongs hdr (a, g) = true ∧ Forall (λ x, belongs hdr x = false) Qa
    end.
Proof.
  induction Q2 as [|[a g] Q2 IH]; intros Q1 fuel Hok Hhdr Hno Hfu.
  { exists None. rewrite app_nil_r. split; [by destruct fuel|done]. }
  destruct fuel as [|fuel]; [simpl in Hfu; lia|]. cbn [qhead find_datagram].
  rewrite (getr_middle w Q1 a g Q2) by apply Hok. cbn [mbind res_bind]. rewrite Hhdr. cbn [mbind res_bind iphdr reassdata_of rnext].
  change (IP_ADDRESSES_AND_ID_MATCH (g_hdr g) hdr) with (belongs hdr (a, g)). destruct (belongs hdr (a, g)) eqn:Eb.
  { exists (Some a). split; [done|]. by exists Q1, g, Q2. }
  destruct (IH (Q1 ++ [(a, g)]) fuel) as (r & Hrun & Hr); [by rewrite <-app_assoc|done| |simpl in Hfu; lia|].
  { apply Forall_app. split; [done|]. by apply Forall_singleton. }
  exists r. rewrite <-app_assoc in Hr. done.
Qed.

(** Room for the packet: evict other datagrams when there are too many structs. *)
Lemma room_ok w Q X q hdr clen : reass_ok w Q X → header_in w X q hdr →
  ∃ Q' room w', reass_room (payload q) clen w = Ok (room, w') ∧ reass_ok w' Q' X ∧ keeps X (rdat w) (rdat w') ∧ evicted hdr Q Q' ∧
    (room = true → ip_reass_pbufcount w' + clen ≤ IP_REASS_MAX_PBUFS) ∧
    (ip_reass_pbufcount w + clen ≤ IP_REASS_MAX_PBUFS → room = true ∧ w' = w ∧ Q' = Q).
Proof.
  intros Hok Hhdr. unfold reass_room. destruct (IP_REASS_MAX_PBUFS <? _) eqn:E; breflect.
  - destruct (remove_oldest_ok w Q X q hdr clen Hok Hhdr) as (Q' & w' & -> & Hok' & Hk & Hev). cbn [mbind res_bind].
    eexists Q', _, w'. split; [done|]. split_and!; try done; [|lia].
    intros Hr. apply andb_true_iff in Hr as [_ Hr]. apply negb_true_iff in Hr. breflect. done.
  - exists Q, true, w. split_and!; try done. constructor.
Qed.

Lemma locate_ok w Q X q hdr clen : reass_ok w Q X → header_in w X q hdr → length hdr = 20%nat →
  ∃ Q' r w', reass_locate (payload q) clen w = Ok (r, w') ∧ keeps X (rdat w) (rdat w') ∧ evicted hdr Q Q' ∧
    ip_reass_pbufcount w' ≤ ip_reass_pbufcount w ∧
    match r with
    | None => reass_ok w' Q' X
    | Some a => ∃ Q1 g Q2, located hdr Q' Q1 a g Q2 ∧ pre_ok w' Q1 a g Q2 X
    end ∧
    (Exists (λ x, belongs hdr x = true) Q ∨ pool_malloc (rpool w) ≠ Ok (None, rpool w) → Q' = Q ∧ r ≠ None).
Proof.
  intros Hok Hhdr Hl. pose proof Hhdr as (_ & _ & Hld). pose proof Hok as (_ & (_ & Hhead & _) & Hall & _).
  unfold reass_locate. rewrite Hhead.
  destruct (find_datagram_ok hdr (payload q) X w Q [] (reass_fuel w)) as (r & -> & Hr);
    [done|done|done|by rewrite (reass_fuel_enough w Q _ Hok); lia|]. cbn [app mbind res_bind] in *. destruct r as [a|].
  - destruct Hr as (Q1 & g0 & Q2 & -> & Hb & Hno). exists (Q1 ++ (a, g0) :: Q2), (Some a).
    rewrite (getr_middle w Q1 a g0 Q2) by apply Hok. cbn [mbind res_bind]. rewrite Hld. cbn [mbind res_bind iphdr reassdata_of].
    fold (first_frag hdr). fold (first_frag (g_hdr g0)).
    assert (Hloc : located hdr (Q1 ++ (a, g0) :: Q2) Q1 a (with_hdr hdr g0) Q2) by (left; by exists g0).
    unfold with_hdr in Hloc. destruct (first_frag hdr && negb (first_frag (g_hdr g0))); eexists; (split; [done|]).
    + split_and!; try done; [constructor|]. exists Q1, (Dgram hdr (g_frags g0) (g_last g0) (g_timer g0)), Q2. split; [done|].
      apply pre_of_reass, (reass_update w Q1 a g0); [done|done|].
      apply Forall_app in Hall as [_ [[[[] ?] _] _]%Forall_cons]. split; [|done]. by split.
    + split_and!; try done; [constructor|]. exists Q1, g0, Q2. split; [done|]. by apply pre_of_reass.
  - destruct (enqueue_new_ok w Q X q hdr clen Hok Hhdr Hl) as (Q' & r & w' & Hrun & Hev & Hk & Hle & Hres & Hfree).
    exists Q', r, w'. rewrite Hrun. split_and!; try done.
    + destruct r as [a|]; [|done]. exists [], (new_dgram hdr), Q'. split; [|done]. right. split_and!; try done.
      by eapply evicted_Forall.
    + intros [Hex|Hp]; [|by apply Hfree]. exfalso. rewrite Exists_exists in Hex. destruct Hex as (x & Hx & Hbx).
      rewrite Forall_forall in Hr. by rewrite (Hr x Hx) in Hbx.
Qed.

Lemma enqueued_keeps w w1 w' r Q1 a g Q2 X o :
  keeps X (rdat w) (rdat w1) → enqueued w1 w' r Q1 a g Q2 X o → enqueued w w' r Q1 a g Q2 X o.
Proof. intros Hk [He Hk']. split; [done|eauto]. Qed.

Lemma ip4_reass_ok w Q f hdr X :
  reass_ok w Q (f_l f ++ X) → arrives (rdat w) f hdr → proper_frag hdr f → zlen (f_l f) < 65536 →
  ∃ r w' Q', ip4_reass (f_p f) w = Ok (r, w') ∧ evicted hdr Q Q' ∧
    ((r = None ∧ reass_ok w' Q' X ∧ keeps X (rdat w) (rdat w')) ∨
     ∃ Q1 a g Q2, located hdr Q' Q1 a g Q2 ∧ enqueued w w' r Q1 a g Q2 X (added (is_last_frag hdr) f g)) ∧
    (IPH_HL_BYTES hdr = 20 → zlen (q_structs Q) + zlen (f_l f) ≤ IP_REASS_MAX_PBUFS →
     (Exists (λ x, belongs hdr x = true) Q ∨ pool_malloc (rpool w) ≠ Ok (None, rpool w)) →
     Q' = Q ∧ ∃ Q1 a g Q2, located hdr Q Q1 a g Q2 ∧ enqueued w w' r Q1 a g Q2 X (added (is_last_frag hdr) f g)).
Proof.
  intros Hok Harr Hprop Hcl. pose proof Harr as (Hf & Hd & Hmr & Htot & Hst & Hen). pose proof (arrives_data_len _ _ _ Harr) as Hlen.
  assert (Hl20 : length hdr = 20%nat) by (by apply mread_length in Hmr).
  assert (Hin : header_in w (f_l f ++ X) (f_b f) hdr).
  { split_and!; [exists (f_p f); by left|apply Hf|]. unfold ld_hdr. unfold f_pay in Hmr. by rewrite Hmr. }
  pose proof Hok as (Ho & _). unfold ip4_reass. rewrite (frag_getp w _ f Ho) by sub_goal. cbn [mbind res_bind].
  rewrite (proj2 (proj2 Hin)). cbn [mbind res_bind]. unfold IP_HLEN. destruct (IPH_HL_BYTES hdr =? 20) eqn:Ehl; cbn [negb].
  2:{ destruct (nullreturn_ok w Q f X Hok Hf) as (w' & -> & Hok' & Hd'). exists None, w', Q. split; [done|]. split; [constructor|].
      split; [left; by rewrite Hd'|]. breflect. done. }
  breflect. rewrite Ehl, Htot, <-Hst. pose proof (zlen_nonneg (f_data f)). replace (bytes_in (f_l f) <? 20) with false by lia.
  assert (Hby : bytes_in (f_l f) ≤ 65535) by (destruct Hf as (_ & _ & _ & Hf); unfold MAX_FRAG in Hf; lia).
  rewrite (u16_id (bytes_in (f_l f) - 20)) by ulia. replace (bytes_in (f_l f) - 20) with (zlen (f_data f)) by lia.
  rewrite (excl_clen (ps w) (f_l f) (q_structs Q ++ X)); [|eapply excl_perm; [|exact Ho]; solve_Permutation|apply Hf|done].
  cbn [mbind res_bind].
  assert (Hcnt : ip_reass_pbufcount w = zlen (q_structs Q)) by (by destruct Hok as (_ & _ & _ & -> & _)).
  destruct (room_ok w Q (f_l f ++ X) (f_b f) hdr (zlen (f_l f)) Hok Hin)
    as (Q1 & room & w1 & -> & Hok1 & Hk1 & Hev1 & Hroom & Hfree). cbn [mbind res_bind].
  assert (HkX : keeps X (rdat w) (rdat w1)) by (eapply keeps_sub; [|exact Hk1]; sub_goal). rewrite Hcnt in Hfree.
  destruct room; cbn [negb].
  2:{ destruct (nullreturn_ok w1 Q1 f X Hok1 Hf) as (w' & -> & Hok' & Hd'). exists None, w', Q1. split_and!; [done|done| |].
      - left. by rewrite Hd'.
      - intros _ Hle _. by destruct (Hfree Hle). }
  specialize (Hroom eq_refl). pose proof (header_keeps _ _ _ _ _ Hin Hk1) as Hin1.
  destruct (locate_ok w1 Q1 (f_l f ++ X) (f_b f) hdr (zlen (f_l f)) Hok1 Hin1 Hl20)
    as (Q2 & r & w2 & -> & Hk2 & Hev2 & Hle2 & Hres & Hfree2). cbn [mbind res_bind].
  assert (HkX2 : keeps X (rdat w) (rdat w2)) by (eapply keeps_trans; [exact HkX|]; eapply keeps_sub; [|exact Hk2]; sub_goal).
  pose proof (evicted_trans _ _ _ _ Hev1 Hev2) as Hev. destruct r as [a|].
  - destruct Hres as (Qa & g & Qb & Hloc & Hpre).
    assert (Harr2 : arrives (rdat w2) f hdr).
    { eapply (arrives_keeps (f_l f ++ X)); [|sub_goal|exact Harr]. eauto. }
    destruct (enqueue_ok w2 Qa a g Qb f hdr X) as (r & w' & Hrun & Henq); try done; [lia|].
    exists r, w', Q2. split; [exact Hrun|]. split; [done|]. apply (enqueued_keeps w) in Henq; [|done].
    split; [right; by exists Qa, a, g, Qb|]. intros _ Hle Hp. destruct (Hfree Hle) as (_ & -> & ->).
    destruct (Hfree2 Hp) as [-> _]. split; [done|]. by exists Qa, a, g, Qb.
  - destruct (nullreturn_ok w2 Q2 f X Hres Hf) as (w' & -> & Hok' & Hd'). exists None, w', Q2. split_and!; [done|done| |].
    + left. by rewrite Hd'.
    + intros _ Hle Hp. destruct (Hfree Hle) as (_ & -> & ->). by destruct (Hfree2 Hp).
Qed.
End reass.
