(* ===== verification/Ip4FragRuns.v ===== *)
(** * IPv4 reassembly: runs

    What the reassembly of fragments guarantees over time: along every run the queues are
    well formed and no assertion fails, the fragments of a datagram can arrive in any
    order, and what is not completed is released after 16 seconds. *)

From Stdlib Require Import Sorted.
From S2P Require Import Prelude ByteMem Def MempFacts MempPool Pbuf PbufFacts PbufData PbufLife PbufChain PbufOwn.
From S2P Require Import Ip4Frag Ip4FragFacts Ip4FragQueue Ip4FragState Ip4FragReass.

Implicit Types (Q : list (Z * dgram)) (g : dgram) (X : list (Z * pbuf)).

Section runs.
Context {A P : Type} `{AllocatorLaws A} `{!ReassEnv A} `{!ReassEnvLaws A} `{PoolLaws P}.
Implicit Types w : rstate A P.

(** ** Runs *)

(** The rest of the stack turns [s] into [s'] and holds [X'] instead of [X]; whatever
    anybody else holds stays as it is. *)
Definition frame_update (s : pstate A) X (s' : pstate A) X' : Prop :=
  ∀ F, excl s (F ++ X) → excl s' (F ++ X') ∧ keeps F (dat s) (dat s').

(** [reass_run w X]: a state of the stack, [X] the structs that the rest of the stack
    holds: fragments arrive, the timer runs, and the rest of the stack does its work. *)
Inductive reass_run : rstate A P → list (Z * pbuf) → Prop :=
| run_init w X : rd w = ∅ → reassdatagrams w = None → ip_reass_pbufcount w = 0 → pool_ok (rpool w) [] → excl (ps w) X →
    reass_run w X
| run_rest w X s' X' : reass_run w X → frame_update (ps w) X s' X' → reass_run (set_ps s' w) X'
| run_tmr w X w' : reass_run w X → ip_reass_tmr w = Ok w' → reass_run w' X
| run_frag w f hdr X r w' l :
    reass_run w (f_l f ++ X) → arrives (rdat w) f hdr → proper_frag hdr f → zlen (f_l f) < 65536 →
    ip4_reass (f_p f) w = Ok (r, w') →
    match r with None => l = [] | Some p => chain (pb (ps w')) (Some p) l end → reass_run w' (l ++ X).

Lemma reass_ok_init w X : rd w = ∅ → reassdatagrams w = None → ip_reass_pbufcount w = 0 → pool_ok (rpool w) [] → excl (ps w) X →
  reass_ok w [] X.
Proof. intros Hr Hh Hc Hp Ho. unfold reass_ok, linked_queues. split_and!; try done; [by constructor|by rewrite Hc]. Qed.

Lemma reass_ok_frame w Q X s' X' : reass_ok w Q X → frame_update (ps w) X s' X' → reass_ok (set_ps s' w) Q X'.
Proof.
  intros (Ho & Hl & Hall & Hc & Hm) Hfr. destruct (Hfr _ Ho) as [Ho' Hk]. unfold reass_ok. split_and!; try done.
  eapply rest_keeps; [exact Hk|done|done].
Qed.

(** A fragment arrives: the result in every case. *)
Lemma reass_ok_frag w Q f hdr X : reass_ok w Q (f_l f ++ X) → arrives (rdat w) f hdr → proper_frag hdr f → zlen (f_l f) < 65536 →
  ∃ r w' Q' l, ip4_reass (f_p f) w = Ok (r, w') ∧ reass_ok w' Q' (l ++ X) ∧ keeps X (rdat w) (rdat w') ∧
    match r with None => l = [] | Some p => ∃ c, packet_in w' p l c end.
Proof.
  intros Hok Harr Hprop Hz. destruct (ip4_reass_ok w Q f hdr X Hok Harr Hprop Hz) as (r & w' & Q' & Hrun & _ & Hres & _).
  destruct Hres as [(-> & Hok' & Hk)|(Q1 & a & g & Q2 & _ & Henq & Hk)]; [by exists None, w', Q', []|].
  exists r, w'. destruct (added _ f g) as [g'|].
  - destruct (finished g') as [n|]; [|destruct Henq as [-> Henq]; by exists (Q1 ++ (a, g') :: Q2), []].
    destruct Henq as (p & l & -> & Hok' & Hpk). exists (Q1 ++ Q2), l. split_and!; try done. by eexists.
  - destruct Henq as [-> Henq]. by exists (Q1 ++ drop_new a g Q2), [].
Qed.

Lemma run_reass_ok w X : reass_run w X → ∃ Q, reass_ok w Q X.
Proof.
  induction 1 as [w X Hr Hh Hc Hp Ho|w X s' X' _ [Q IH] Hfr|w X w' _ [Q IH] Ht|w f hdr X r w' l _ [Q IH] Ha Hp Hz Hrun Hl].
  - exists []. by apply reass_ok_init.
  - exists Q. by eapply reass_ok_frame.
  - destruct (tmr_ok w Q X IH) as (w1 & Ht1 & Hok & _). exists (tick Q).
    rewrite Ht in Ht1. by injection Ht1 as ->.
  - destruct (reass_ok_frag w Q f hdr X IH Ha Hp Hz) as (r1 & w1 & Q1 & l1 & Hrun1 & Hok & _ & Hres).
    rewrite Hrun in Hrun1. injection Hrun1 as <- <-. exists Q1.
    destruct r as [p|]; [|by subst]. destruct Hres as (c & Hlk & _).
    assert (Hch : chain (pb (ps w')) (Some p) l1).
    { eapply (excl_chain (ps w') l1 (q_structs Q1 ++ X)); [|done]. destruct Hok as (Ho & _). eapply excl_perm; [|exact Ho]. solve_Permutation. }
    by rewrite (chain_det _ _ _ _ Hl Hch).
Qed.

(** C20: The reassembly code never fails.  In every state of every run (fragments
    arriving, at most 6553 bytes each as on an Ethernet link, the timer, the rest of the
    stack in between) the queues are well formed: the fragments of each are sorted and do
    not overlap, all their structs belong to the reassembly code alone, ip_reass_pbufcount
    is their number and at most IP_REASS_MAX_PBUFS.  From every such state the timer
    function returns, and ip4_reass returns for every fragment that ip4_input passes on:
    no assertion fails and no memory is misused, whatever the header fields are. *)
Theorem reass_runs_safe w X : reass_run w X →
  (∃ Q, reass_ok w Q X) ∧ (∃ w', ip_reass_tmr w = Ok w') ∧
  ∀ f hdr X', X ≡ₚ f_l f ++ X' → arrives (rdat w) f hdr → proper_frag hdr f → zlen (f_l f) < 65536 →
    ∃ r w', ip4_reass (f_p f) w = Ok (r, w').
Proof.
  intros [Q Hok]%run_reass_ok. split; [by exists Q|]. split.
  - destruct (tmr_ok w Q X Hok) as (w' & ? & _). by exists w'.
  - intros f hdr X' HX Ha Hp Hz. destruct (reass_ok_frag w Q f hdr X') as (r & w' & Q' & l & ? & _); try done; [|by exists r, w'].
    destruct Hok as (Ho & Hok). split; [|done]. eapply excl_perm; [|exact Ho]. by rewrite HX.
Qed.

(** ** Time *)

Fixpoint tmr_times (n : nat) w : res (rstate A P) :=
  match n with O => Ok w | S n => w ← ip_reass_tmr w; tmr_times n w end.

Lemma tick_bound Q k : 0 ≤ k → Forall (λ x, g_timer x.2 ≤ k) Q → Forall (λ x, g_timer x.2 ≤ k - 1) (tick Q).
Proof.
  intros Hk. induction Q as [|[a g] Q IH]; intros Hall; [constructor|]. apply Forall_cons in Hall as [Hg Hall].
  unfold tick. cbn [omap list_omap fst snd] in *. destruct (0 <? g_timer g); [|by apply IH].
  apply Forall_cons. split; [simpl; lia|by apply IH].
Qed.

Lemma tmr_times_ok n : ∀ w Q X k, reass_ok w Q X → Forall (λ x, g_timer x.2 ≤ k) Q → Z.of_nat n = k + 1 →
  ∃ w', tmr_times n w = Ok w' ∧ reass_ok w' [] X ∧ keeps X (rdat w) (rdat w') ∧
    ∀ D, icmp_leaves_nothing → confined (ps w) D (q_structs Q ++ X) → confined (ps w') D X.
Proof.
  induction n as [|n IH]; intros w Q X k Hok Hall Hk.
  - exists w. assert (Q = []) as ->; [|done]. destruct Q as [|[a g] Q]; [done|]. exfalso.
    apply Forall_cons in Hall as [Hg _]. destruct Hok as (_ & _ & Hall & _). apply Forall_cons in Hall as [[[Hwf _] _] _].
    pose proof (go_timer _ Hwf). simpl in *. lia.
  - cbn [tmr_times]. destruct (tmr_ok w Q X Hok) as (w1 & -> & Hok1 & Hk1 & Hg1). cbn [mbind res_bind].
    destruct (IH w1 (tick Q) X (k - 1) Hok1) as (w' & Hrun & Hok' & Hk' & Hg'); [apply tick_bound; [lia|done]|lia|].
    exists w'. split_and!; try done; eauto.
Qed.

(** Together with what the others hold, the structs of the queues are all that is in use. *)
Lemma reass_confined w Q X : reass_ok w Q X →
  confined (ps w) (dom (pb (ps w)) ∖ list_to_set (q_structs Q).*1) (q_structs Q ++ X) ∧
  list_to_set X.*1 ⊆ dom (pb (ps w)) ∖ list_to_set (q_structs Q).*1.
Proof.
  intros (Ho & _). pose proof (excl_disj _ _ _ Ho) as Hdis. destruct Ho as (_ & _ & _ & Hf & _). apply Forall_app in Hf as [_ Hf]. split.
  - unfold confined. rewrite fmap_app, list_to_set_app_L. intros a Ha. rewrite !elem_of_union, elem_of_difference.
    destruct (decide (a ∈@{gset Z} list_to_set (q_structs Q).*1)) as [Hq|Hq]; [right; by left|by left].
  - intros a Ha%elem_of_list_to_set. apply elem_of_difference. rewrite elem_of_list_to_set. split; [|intros Hq; by apply (Hdis a)].
    apply list_elem_of_fmap in Ha as (x & -> & Hx). rewrite Forall_forall in Hf. destruct (Hf x Hx) as [Hpx _]. by apply elem_of_dom_2 in Hpx.
Qed.

(** C21: Incomplete datagrams do not stay.  In every state of a run the queues hold the packets
    [Q]; after IP_REASS_MAXAGE + 1 calls of ip_reass_tmr without a new fragment there is no
    queue left, all structs of the queues went back to their pool and the counter of packet
    structs is zero.  The packets of the queues have been released: when the ICMP messages
    that were sent leave nothing behind, every packet struct in use afterwards was in use
    before and belonged to no queue.  Nothing that the rest of the stack holds was
    touched. *)
Theorem reass_expires w X : reass_run w X →
  ∃ Q w', reass_ok w Q X ∧ tmr_times 16 w = Ok w' ∧ rd w' = ∅ ∧ reassdatagrams w' = None ∧ ip_reass_pbufcount w' = 0 ∧
    pool_ok (rpool w') [] ∧ excl (ps w') X ∧ keeps X (rdat w) (rdat w') ∧
    (icmp_leaves_nothing → dom (pb (ps w')) ⊆ dom (pb (ps w)) ∖ list_to_set (q_structs Q).*1).
Proof.
  intros [Q Hok]%run_reass_ok. exists Q. destruct (tmr_times_ok 16 w Q X 15 Hok) as (w' & Hrun & Hok' & Hk & Hg); [|done|].
  - destruct Hok as (_ & _ & Hall & _). eapply Forall_impl; [exact Hall|]. intros x [[Hwf _] _]. apply (go_timer _ Hwf).
  - exists w'. split; [done|]. split; [done|]. destruct Hok' as (Ho & (Hr & Hh & _ & Hp) & _ & Hc & _). split_and!; try done. intros Hnone.
    destruct (reass_confined w Q X Hok) as [Hin HX]. specialize (Hg _ Hnone Hin). intros a Ha. apply Hg, elem_of_union in Ha as [Ha|Ha]; [done|by apply HX].
Qed.

(** ** Room for new fragments *)

(** C22: Making room ends and is fair.  The do-while loop of
    ip_reass_remove_oldest_datagram returns; it gives up other datagrams in the order of the
    time they have left, the oldest first, and returns the number of structs that left the queues.  The
    datagrams the fragment may belong to stay, whatever is asked for; it stops when enough
    structs have left the queues or no other datagram is left, and gives up something
    whenever there is another datagram. *)
Theorem remove_oldest_terminates w Q X q hdr needed : reass_ok w Q X → header_in w X q hdr →
  ∃ Q' n w', ip_reass_remove_oldest_datagram (payload q) needed w = Ok (n, w') ∧ reass_ok w' Q' X ∧
    n = zlen (q_structs Q) - zlen (q_structs Q') ∧ evicted hdr Q Q' ∧
    filter (λ x, belongs hdr x = true) Q' = filter (λ x, belongs hdr x = true) Q ∧
    (needed ≤ n ∨ others hdr Q' = 0) ∧ (others hdr Q = 0 ∧ Q' = Q ∨ 0 < n).
Proof.
  intros Hok Hhdr. unfold ip_reass_remove_oldest_datagram. rewrite (reass_fuel_enough w Q X Hok).
  destruct (remove_loop_ok hdr q X needed (S (length Q)) Q w 0) as (Q' & w' & Hrun & Hok' & _ & Hev & Hlt & Hend); [done|done| |].
  { unfold others. pose proof (length_filter (λ x, belongs hdr x = false) Q). unfold zlen. lia. }
  exists Q'. eexists _, w'. split; [exact Hrun|]. split_and!; [done|lia|done|by apply evicted_belongs|done|].
  destruct Hlt; [by left|right; lia].
Qed.
End runs.
