(* ===== verification/Ip4FragOrder.v ===== *)
(** * IPv4 reassembly: fragments in any order

    When all fragments of a datagram arrive, in whatever order, the last one to arrive
    makes ip4_reass return the datagram. *)

From stdpp Require Import sorting.
From S2P Require Import Prelude ByteMem Def MempFacts MempPool Pbuf PbufFacts PbufData PbufLife PbufChain PbufOwn.
From S2P Require Import Ip4Frag Ip4FragFacts Ip4FragQueue Ip4FragState Ip4FragReass Ip4FragRuns.

Implicit Types (Q : list (Z * dgram)) (g : dgram) (X : list (Z * pbuf)) (fs gs : list frag).

(** ** Sorted lists of fragments *)

#[global] Instance zlen_perm {B} : Proper ((≡ₚ) ==> (=)) (@zlen B).
Proof. intros l l' Hp. unfold zlen. by rewrite Hp. Qed.

#[global] Instance ordered_asymm : AntiSymm (=) ordered.
Proof. intros f f' [??] [??]. lia. Qed.

Lemma insert_frag_fits f fs : Forall (λ h, ordered f h ∨ before f h) fs → ∃ fs', insert_frag f fs = Some fs'.
Proof.
  induction fs as [|h fs IH]; cbn [insert_frag]; [eauto|]. intros [Hh Hfs]%Forall_cons.
  destruct Hh as [[H1 H2]|[H1 H2]].
  - replace (f_start f <? f_start h) with true by lia. replace (f_end f <=? f_start h) with true by lia. eauto.
  - replace (f_start f <? f_start h) with false by lia.
    replace (f_start f =? f_start h) with false by lia. replace (f_start f <? f_end h) with false by lia. cbn [orb].
    destruct (IH Hfs) as [fs' ->]. eauto.
Qed.

(** Two different fragments of a sorted list are ordered one way or the other. *)
Lemma sorted_pairwise gs f rest : StronglySorted ordered gs → gs ≡ₚ f :: rest → Forall (λ h, ordered f h ∨ before f h) rest.
Proof.
  intros Hs Hp. assert (Hin : f ∈ gs) by (rewrite Hp; by left). apply list_elem_of_split in Hin as (g1 & g2 & ->).
  rewrite <-Permutation_middle in Hp. apply Permutation_cons_inv in Hp. rewrite <-Hp.
  apply Forall_app. rewrite !Forall_forall. split; intros h Hh.
  - right. apply (StronglySorted_app_1_elem_of _ g1 (f :: g2) h f Hs Hh). by left.
  - left. apply StronglySorted_app_1_r, StronglySorted_inv in Hs as [_ Hs]. rewrite Forall_forall in Hs. by apply Hs.
Qed.

Definition spans (f : frag) : Prop := 0 ≤ f_start f ∧ f_end f = f_start f + zlen (f_data f).

(** Without holes, the fragments are as long as the range they cover. *)
Definition end_of (e : Z) fs : Z := match last fs with Some f => f_end f | None => e end.

Lemma contig_sum fs : ∀ e, Forall spans fs → contig e fs = true → end_of e fs = e + zlen (datagram fs).
Proof.
  unfold end_of. induction fs as [|f fs IH]; intros e Hr Hc; [unfold zlen; simpl; lia|]. apply Forall_cons in Hr as [(H0 & H1) Hr].
  cbn [contig] in Hc. apply andb_true_iff in Hc as [He Hc]. breflect. specialize (IH (f_end f) Hr Hc).
  rewrite last_cons. unfold datagram, zlen in *. rewrite fmap_cons. cbn [concat]. rewrite length_app.
  destruct (last fs); lia.
Qed.

Lemma contig_sorted fs : ∀ e, Forall spans fs → Forall (λ f, 0 < zlen (f_data f)) fs → contig e fs = true →
  StronglySorted ordered fs ∧ Forall (λ f, e ≤ f_start f) fs.
Proof.
  induction fs as [|f fs IH]; intros e Hr Hn Hc; [split; constructor|].
  apply Forall_cons in Hr as [(H0 & H1) Hr]. apply Forall_cons in Hn as [Hf Hn].
  cbn [contig] in Hc. cbn beta in Hf. apply andb_true_iff in Hc as [He Hc]. breflect. destruct (IH (f_end f) Hr Hn Hc) as [Hs Hb]. split.
  - constructor; [done|]. eapply Forall_impl; [exact Hb|]. intros h Hh. simpl in Hh. split; lia.
  - constructor; [lia|]. eapply Forall_impl; [exact Hb|]. intros h Hh. simpl in *. lia.
Qed.

Lemma contig_ends fs : ∀ e, Forall spans fs → contig e fs = true → Forall (λ f, f_end f ≤ e + zlen (datagram fs)) fs.
Proof.
  induction fs as [|f fs IH]; intros e Hr Hc; [constructor|]. apply Forall_cons in Hr as [(H0 & H1) Hr].
  cbn [contig] in Hc. apply andb_true_iff in Hc as [He Hc]. breflect. specialize (IH _ Hr Hc).
  assert (Hz : zlen (datagram (f :: fs)) = zlen (f_data f) + zlen (datagram fs)) by apply zlen_app.
  rewrite Hz. pose proof (zlen_nonneg (datagram fs)). constructor; [lia|]. eapply Forall_impl; [exact IH|]. intros h Hh. simpl in Hh. lia.
Qed.

Lemma complete_contig fs : complete fs = true → contig 0 fs = true.
Proof.
  destruct fs as [|f fs]; [done|]. cbn [complete contig]. intros [H1 H2]%andb_true_iff. breflect.
  replace (0 =? f_start f) with true by lia. done.
Qed.

Lemma datagram_perm fs gs : fs ≡ₚ gs → zlen (datagram fs) = zlen (datagram gs).
Proof.
  induction 1 as [|f fs gs _ IH|f f' fs|? ? ? _ IH1 _ IH2]; unfold datagram, zlen in *; rewrite ?fmap_cons; cbn [concat];
    rewrite ?length_app; lia.
Qed.

(** A part of the fragments that includes the last one is not complete. *)
Lemma part_incomplete gs L fs rest :
  Forall spans (gs ++ [L]) → Forall (λ f, 0 < zlen (f_data f)) (gs ++ [L]) → complete (gs ++ [L]) = true →
  StronglySorted ordered fs → L ∈ fs → gs ++ [L] ≡ₚ fs ++ rest → rest ≠ [] → complete fs = false.
Proof.
  intros Hr Hn Hc Hs HL Hp Hne. destruct (complete fs) eqn:E; [exfalso|done].
  pose proof (contig_sum _ 0 Hr (complete_contig _ Hc)) as Hsum.
  destruct (contig_sorted _ 0 Hr Hn (complete_contig _ Hc)) as [Hsg _].
  assert (Hrf : Forall spans fs) by (rewrite Hp in Hr; by apply Forall_app in Hr as [Hr _]).
  pose proof (contig_sum _ 0 Hrf (complete_contig _ E)) as Hsumf.
  assert (Hlast : end_of 0 fs = f_end L).
  { apply list_elem_of_split in HL as (f1 & f2 & ->). unfold end_of. destruct f2 as [|h f2 _] using rev_ind; [by rewrite last_snoc|].
    exfalso. assert (Hh : h ∈ gs ++ [L]) by (rewrite Hp, !elem_of_app, elem_of_cons; set_solver).
    apply elem_of_app in Hh as [Hh| ->%list_elem_of_singleton].
    - pose proof (StronglySorted_app_1_elem_of _ gs [L] h L Hsg Hh) as Ho1. specialize (Ho1 ltac:(by left)).
      apply StronglySorted_app_1_r, StronglySorted_inv in Hs as [_ Hs]. rewrite Forall_forall in Hs.
      specialize (Hs h ltac:(set_solver)). unfold ordered in *. lia.
    - apply StronglySorted_app_1_r, StronglySorted_inv in Hs as [_ Hs]. rewrite Forall_forall in Hs.
      specialize (Hs L ltac:(set_solver)). unfold ordered in *. lia. }
  unfold end_of in Hsum. rewrite last_snoc in Hsum. rewrite (datagram_perm _ _ Hp) in Hsum.
  rewrite Hp in Hn. apply Forall_app in Hn as [_ Hn]. destruct rest as [|r rest]; [done|]. apply Forall_cons in Hn as [Hn _].
  unfold datagram, zlen in *. rewrite fmap_app, concat_app, fmap_cons in Hsum. cbn [concat] in Hsum. rewrite !length_app in Hsum. lia.
Qed.

(** ** A datagram in fragments *)

Definition key (hdr : ip_hdr) : Z * Z * Z := (iph_src hdr, iph_dest hdr, IPH_ID hdr).

Lemma match_key a b : IP_ADDRESSES_AND_ID_MATCH a b = bool_decide (key a = key b).
Proof.
  unfold IP_ADDRESSES_AND_ID_MATCH, key. destruct (iph_src a =? iph_src b) eqn:E1, (iph_dest a =? iph_dest b) eqn:E2,
    (IPH_ID a =? IPH_ID b) eqn:E3; breflect; cbn [andb]; symmetry;
    (apply bool_decide_eq_true_2 || apply bool_decide_eq_false_2); congruence.
Qed.

(** [cs] are the fragments of a datagram with their headers, in the order of their
    offsets; only the last one has the flag "more fragments" cleared. *)
Record cut (k : Z * Z * Z) (cs : list (frag * ip_hdr)) : Prop := {
  cut_last : ∃ cs0 x, cs = cs0 ++ [x] ∧ cs0 ≠ [] ∧ Forall (λ y, is_last_frag y.2 = false) cs0 ∧ is_last_frag x.2 = true;
  cut_complete : complete cs.*1 = true;
  cut_data : Forall (λ x, 0 < zlen (f_data x.1)) cs;
  cut_len : zlen (datagram cs.*1) ≤ 65515;
  cut_hdrs : Forall (λ x, key x.2 = k ∧ IPH_HL_BYTES x.2 = 20) cs
}.

Lemma first_frag_start d f h : arrives d f h → first_frag h = (f_start f =? 0).
Proof.
  intros (_ & _ & _ & _ & -> & _). unfold first_frag, IPH_OFFSET_BYTES, IP_OFFMASK.
  change 8191 with (Z.ones 13). rewrite Z.land_ones by lia. change (2 ^ 13) with 8192.
  destruct (_ =? 0) eqn:E; breflect; symmetry; [apply Z.eqb_eq|apply Z.eqb_neq]; ulia.
Qed.

Section order.
Context {A P : Type} `{AllocatorLaws A} `{!ReassEnv A} `{!ReassEnvLaws A} `{PoolLaws P}.
Context (k : Z * Z * Z) (cs : list (frag * ip_hdr)) (Hcut : cut k cs) (Q : list (Z * dgram)) (X : list (Z * pbuf)).
Context (Hspan : Forall spans cs.*1) (Hother : Forall (λ x, key (g_hdr x.2) ≠ k) Q).
Context (Hroom : zlen (q_structs Q) + zlen (structs cs.*1) ≤ IP_REASS_MAX_PBUFS).
Implicit Types (w : rstate A P) (x : frag * ip_hdr).

Definition total : Z := zlen (datagram cs.*1).
Definition first_hdr : ip_hdr := match cs with [] => [] | x :: _ => x.2 end.

Lemma cut_sorted : StronglySorted ordered cs.*1.
Proof.
  destruct (contig_sorted cs.*1 0) as [Hs _]; try done.
  - apply Forall_fmap. eapply Forall_impl; [exact (cut_data _ _ Hcut)|]. done.
  - apply complete_contig, (cut_complete _ _ Hcut).
Qed.

Lemma cut_end x : x ∈ cs → f_end x.1 ≤ total ∧ (is_last_frag x.2 = true → f_end x.1 = total ∧ f_start x.1 ≠ 0).
Proof.
  intros Hx. pose proof (complete_contig _ (cut_complete _ _ Hcut)) as Hc. split.
  - pose proof (contig_ends _ 0 Hspan Hc) as He. rewrite Forall_forall in He. apply (He x.1). by apply list_elem_of_fmap_2.
  - intros Hl. destruct (cut_last _ _ Hcut) as (cs0 & y & Hcs & Hne & Hmf & Hy).
    assert (x = y) as ->.
    { rewrite Hcs in Hx. apply elem_of_app in Hx as [Hx| ?%list_elem_of_singleton]; [|done].
      rewrite Forall_forall in Hmf. by rewrite (Hmf x Hx) in Hl. }
    pose proof (contig_sum _ 0 Hspan Hc) as Hsum. unfold end_of in Hsum. rewrite Hcs, fmap_app in Hsum at 1.
    cbn [fmap list_fmap] in Hsum. rewrite last_snoc in Hsum. split; [unfold total; lia|].
    pose proof cut_sorted as Hs. rewrite Hcs, fmap_app in Hs. destruct cs0 as [|z cs0]; [done|].
    assert (Hzy : ordered z.1 y.1) by (eapply (StronglySorted_app_1_elem_of _ (z :: cs0).*1 [y].*1); [done|by left|by left]).
    unfold ordered in Hzy. assert (Hz : spans z.1).
    { rewrite Forall_forall in Hspan. apply Hspan. apply list_elem_of_fmap_2. rewrite Hcs. by left. }
    unfold spans in Hz. lia.
Qed.

Lemma cut_first x : x ∈ cs → f_start x.1 = 0 → x.2 = first_hdr.
Proof.
  intros Hx Hx0. unfold first_hdr. pose proof cut_sorted as Hs. pose proof (cut_complete _ _ Hcut) as Hc.
  destruct cs as [|y cs']; [by apply not_elem_of_nil in Hx|]. apply elem_of_cons in Hx as [->|Hx]; [done|]. exfalso.
  rewrite fmap_cons in Hs, Hc. apply StronglySorted_inv in Hs as [_ Hs]. rewrite Forall_forall in Hs.
  specialize (Hs x.1 ltac:(by apply list_elem_of_fmap_2)). cbn [complete] in Hc. apply andb_true_iff in Hc as [Hc _]. breflect.
  unfold ordered in Hs. lia.
Qed.

(** The queue when [arr] have arrived; [hs] are the fragments whose headers were seen. *)
Definition good g (hs arr : list (frag * ip_hdr)) : Prop :=
  g_frags g ≡ₚ arr.*1 ∧ key (g_hdr g) = k ∧
  (g_hdr g = first_hdr ∨ first_frag (g_hdr g) = false ∧ Forall (λ x, f_start x.1 ≠ 0) hs) ∧
  (Exists (λ x, is_last_frag x.2 = true) arr ∧ g_last g = Some total ∨
   Forall (λ x, is_last_frag x.2 = false) arr ∧ g_last g = None).

Definition waiting w (arr : list (frag * ip_hdr)) Y : Prop :=
  match arr with
  | [] => reass_ok w Q Y
  | _ => ∃ a g, reass_ok w ((a, g) :: Q) Y ∧ good g arr arr
  end.

Lemma not_belongs hdr : key hdr = k → Forall (λ y, belongs hdr y = false) Q.
Proof.
  intros Hk. eapply Forall_impl; [exact Hother|]. intros [a g] Hx. unfold belongs. rewrite match_key, Hk.
  by apply bool_decide_eq_false_2.
Qed.

(** The queue that ip4_reass finds is ours. *)
Lemma located_ours d arr x Qc Q1 a g Q2 : x ∈ cs → arrives d x.1 x.2 →
  match arr with [] => Qc = Q | _ => ∃ a0 g0, Qc = (a0, g0) :: Q ∧ good g0 arr arr end →
  located x.2 Qc Q1 a g Q2 → Q1 = [] ∧ Q2 = Q ∧ good g (x :: arr) arr.
Proof.
  intros Hx Harr Hst Hloc. pose proof (cut_hdrs _ _ Hcut) as Hh. rewrite Forall_forall in Hh. destruct (Hh x Hx) as [Hk _].
  pose proof (first_frag_start _ _ _ Harr) as Hff. pose proof (not_belongs _ Hk) as Hno.
  destruct arr as [|y arr].
  - subst Qc. destruct Hloc as [(g0 & HQ & Hb & _)|(_ & -> & -> & ->)].
    + exfalso. rewrite Forall_forall in Hno. rewrite (Hno (a, g0)) in Hb; [done|]. rewrite HQ, elem_of_app. right. by left.
    + split_and!; try done. split_and!; try done; [|right; split; [constructor|done]]. cbn [new_dgram g_hdr].
      destruct (decide (f_start x.1 = 0)); [left; by apply cut_first|right]. rewrite Hff. split; [by apply Z.eqb_neq|].
      by apply Forall_singleton.
  - destruct Hst as (a0 & g0 & -> & Hg & Hgk & Hgh & Hgl).
    assert (Hb0 : belongs x.2 (a0, g0) = true) by (unfold belongs; rewrite match_key; apply bool_decide_eq_true_2; by rewrite Hk).
    destruct Hloc as [(g1 & HQ & Hb & Hno1 & ->)|(Hno1 & _)].
    2:{ apply Forall_cons in Hno1 as [Hno1 _]. congruence. }
    destruct Q1 as [|z Q1]; cbn [app] in HQ; [injection HQ as <- <- <-|].
    2:{ injection HQ as <- _. apply Forall_cons in Hno1 as [Hno1 _]. congruence. }
    split_and!; try done. unfold with_hdr. destruct (first_frag x.2 && negb (first_frag (g_hdr g0))) eqn:E.
    + apply andb_true_iff in E as [E1 E2]. rewrite Hff in E1. breflect. split_and!; try done. left. by apply cut_first.
    + split_and!; try done. destruct Hgh as [Hgh|[Hgh Hall]]; [by left|]. right. split; [done|]. constructor; [|done].
      rewrite Hgh, andb_true_r, Hff in E. by apply Z.eqb_neq in E.
Qed.

(** The new fragment fits in between. *)
Lemma added_ours d x arr rem g : arr ++ x :: rem ≡ₚ cs → arrives d x.1 x.2 → good g (x :: arr) arr →
  ∃ g', added (is_last_frag x.2) x.1 g = Some g' ∧ good g' (x :: arr) (x :: arr).
Proof.
  intros Hp Harr (Hg & Hgk & Hgh & Hgl). assert (Hx : x ∈ cs) by (rewrite <-Hp, elem_of_app; right; by left).
  destruct (cut_end x Hx) as [Hend Hlast]. pose proof (cut_len _ _ Hcut) as Htot. fold total in Htot. unfold added, add_frag.
  replace (65515 <? f_end x.1) with false by lia. rewrite andb_false_r. replace (f_end x.1 <=? 65535) with true by lia.
  destruct (insert_frag_fits x.1 (g_frags g)) as [fs Hi].
  { rewrite Hg. assert (Hpp : cs.*1 ≡ₚ x.1 :: (arr ++ rem).*1) by (rewrite <-Hp, !fmap_app, fmap_cons; by rewrite Permutation_middle).
    pose proof (sorted_pairwise _ _ _ cut_sorted Hpp) as Hall. rewrite fmap_app in Hall. by apply Forall_app in Hall as [? _]. }
  rewrite Hi. cbn [mbind option_bind]. eexists. split; [done|]. split_and!; cbn [g_frags g_hdr g_last]; try done.
  - by rewrite (insert_frag_perm _ _ _ Hi), Hg.
  - destruct (is_last_frag x.2) eqn:El.
    + left. split; [by constructor|]. f_equal. by apply Hlast.
    + destruct Hgl as [[He Hl]|[Hf Hl]]; [left|right]; split; try done; [by constructor 2|by constructor].
Qed.

(** The datagram is finished exactly when everything has arrived. *)
Lemma finished_ours arr rem g : dgram_wf g → arr ++ rem ≡ₚ cs → good g arr arr →
  finished g = match rem with [] => Some total | _ => None end ∧ (rem = [] → g_frags g = cs.*1 ∧ g_hdr g = first_hdr).
Proof.
  intros Hwf Hp (Hg & _ & Hgh & Hgl). unfold finished. pose proof (cut_complete _ _ Hcut) as Hc. destruct rem as [|y rem].
  - rewrite app_nil_r in Hp. assert (Hfs : g_frags g = cs.*1).
    { apply (StronglySorted_unique ordered); [apply Hwf|apply cut_sorted|by rewrite Hg, Hp]. }
    rewrite Hfs, Hc. split.
    + destruct Hgl as [[_ ->]|[Hf _]]; [done|]. exfalso. destruct (cut_last _ _ Hcut) as (cs0 & z & Hcs & _ & _ & Hz).
      rewrite Hp, Hcs in Hf. apply Forall_app in Hf as [_ Hf]. apply Forall_cons in Hf as [Hf _]. congruence.
    + intros _. split; [done|]. destruct Hgh as [Hgh|[_ Hall]]; [done|]. exfalso. rewrite Hp in Hall.
      destruct cs as [|z cs']; [done|]. apply Forall_cons in Hall as [Hz _]. rewrite fmap_cons in Hc. cbn [complete] in Hc.
      apply andb_true_iff in Hc as [Hc _]. breflect. done.
  - split; [|done]. destruct Hgl as [[He Hl]|[_ Hl]]; [|rewrite Hl; by destruct (complete (g_frags g))].
    destruct (cut_last _ _ Hcut) as (cs0 & z & Hcs & _ & Hmf & _). rewrite (part_incomplete cs0.*1 z.1 (g_frags g) (y :: rem).*1); try done.
    + by rewrite Hcs, fmap_app in Hspan.
    + change [z.1] with [z].*1. rewrite <-fmap_app, <-Hcs. apply Forall_fmap. eapply Forall_impl; [exact (cut_data _ _ Hcut)|]. done.
    + by rewrite Hcs, fmap_app in Hc.
    + apply Hwf.
    + rewrite Hg. rewrite Exists_exists in He. destruct He as (u & Hu & Hul). apply list_elem_of_fmap_2.
      assert (Hin : u ∈ cs) by (rewrite <-Hp, elem_of_app; by left). rewrite Hcs in Hin.
      apply elem_of_app in Hin as [Hin|Hin]; [rewrite Forall_forall in Hmf; by rewrite (Hmf u Hin) in Hul|].
      apply list_elem_of_singleton in Hin. by subst.
    + rewrite Hg. rewrite <-fmap_app, Hp, Hcs, fmap_app. done.
Qed.

(** One more fragment arrives. *)
Lemma order_step x rem arr w : arr ++ x :: rem ≡ₚ cs → waiting w arr (structs (x :: rem).*1 ++ X) → arrives (rdat w) x.1 x.2 →
  zlen (f_l x.1) < 65536 → (arr = [] → pool_malloc (rpool w) ≠ Ok (None, rpool w)) →
  ∃ r w', ip4_reass (f_p x.1) w = Ok (r, w') ∧ keeps (structs rem.*1 ++ X) (rdat w) (rdat w') ∧
    match rem with
    | [] => ∃ p l, r = Some p ∧ reass_ok w' Q (l ++ X) ∧ packet_in w' p l (final_hdr first_hdr (total + 20) ++ datagram cs.*1)
    | _ => r = None ∧ waiting w' (x :: arr) (structs rem.*1 ++ X)
    end.
Proof.
  intros Hp Hw Harr Hz Hpool. assert (Hx : x ∈ cs) by (rewrite <-Hp, elem_of_app; right; by left).
  destruct (cut_end x Hx) as [_ Hprop]. pose proof (cut_hdrs _ _ Hcut) as Hh. rewrite Forall_forall in Hh. destruct (Hh x Hx) as [Hk Hhl].
  assert (∃ Qc, reass_ok w Qc (f_l x.1 ++ structs rem.*1 ++ X) ∧
    match arr with [] => Qc = Q | _ => ∃ a0 g0, Qc = (a0, g0) :: Q ∧ good g0 arr arr end ∧
    zlen (q_structs Qc) = zlen (q_structs Q) + zlen (structs arr.*1) ∧
    (Exists (λ y, belongs x.2 y = true) Qc ∨ pool_malloc (rpool w) ≠ Ok (None, rpool w))) as (Qc & Hok & Hst & Hsz & Hfree).
  { rewrite fmap_cons, structs_cons, <-app_assoc in Hw. destruct arr as [|y arr]; [exists Q|].
    - split_and!; [done|done|unfold zlen; simpl; lia|right; by apply Hpool].
    - destruct Hw as (a & g & Hok & Hg). exists ((a, g) :: Q). split_and!; [done|by exists a, g| |].
      + rewrite q_structs_cons, (structs_perm _ _ (proj1 Hg)), zlen_app. lia.
      + left. left. unfold belongs. rewrite match_key. apply bool_decide_eq_true_2. rewrite Hk. apply Hg. }
  destruct (ip4_reass_ok w Qc x.1 x.2 (structs rem.*1 ++ X) Hok Harr) as (r & w' & Q' & Hrun & _ & _ & Hfun);
    [intros Hl; by apply Hprop|done|].
  destruct Hfun as (-> & Q1 & a & g & Q2 & Hloc & Henq & Hkeep); [done| |done|].
  { assert (Hle : zlen (structs arr.*1) + zlen (f_l x.1) ≤ zlen (structs cs.*1)); [|lia].
    assert (Hpp : structs cs.*1 ≡ₚ structs arr.*1 ++ f_l x.1 ++ structs rem.*1).
    { rewrite <-(structs_perm (arr ++ x :: rem).*1 cs.*1) by (by rewrite Hp). rewrite fmap_app, structs_app, fmap_cons. done. }
    unfold zlen. rewrite (Permutation_length Hpp), !length_app. lia. }
  destruct (located_ours _ _ _ _ _ _ _ _ Hx Harr Hst Hloc) as (-> & -> & Hgood).
  destruct (added_ours _ x arr rem g Hp Harr Hgood) as (g' & Hadd & Hgood'). rewrite Hadd in Henq.
  assert (Hwf : dgram_wf g').
  { destruct (added_wf x.2 x.1 g g') as (Hwf & _); try done; [|intros Hle; by eapply arrives_ok|intros Hl; by apply Hprop].
    destruct Hok as (_ & _ & Hall & _). destruct Hloc as [(g0 & HQ & _ & _ & ->)|(_ & _ & _ & ->)].
    - cbn [app] in HQ. rewrite HQ in Hall. apply Forall_cons in Hall as [[[Hwf _] _] _]. unfold with_hdr.
      destruct (_ && _); [|done]. destruct Hwf. split; try done. simpl. destruct Harr as (_ & _ & Hm & _). by apply mread_length in Hm.
    - destruct Harr as (_ & _ & Hm & _). apply mread_length in Hm. by split; cbn [new_dgram g_frags g_timer g_hdr g_last]; try constructor. }
  destruct (finished_ours (x :: arr) rem g' Hwf) as [Hfin Hall]; [|done|].
  { rewrite <-Hp. cbn [app]. apply Permutation_middle. }
  exists r, w'. split; [done|]. split; [done|]. rewrite Hfin in Henq. destruct rem as [|y rem].
  - destruct (Hall eq_refl) as [Hfs Hhd]. rewrite Hfs, Hhd in Henq. destruct Henq as (p & l & -> & Hok' & Hpk). by exists p, l.
  - destruct Henq as [-> Hok']. split; [done|]. by exists a, g'.
Qed.

Fixpoint reass_all (packets : list Z) w : res (list (option Z) * rstate A P) :=
  match packets with
  | [] => Ok ([], w)
  | p :: packets => '(r, w) ← ip4_reass p w; '(rs, w) ← reass_all packets w; Ok (r :: rs, w)
  end.

Lemma order_all rem : ∀ arr w, arr ++ rem ≡ₚ cs → rem ≠ [] → waiting w arr (structs rem.*1 ++ X) →
  Forall (λ x, arrives (rdat w) x.1 x.2 ∧ zlen (f_l x.1) < 65536) rem →
  (arr = [] → pool_malloc (rpool w) ≠ Ok (None, rpool w)) →
  ∃ p l w', reass_all ((λ x, f_p x.1) <$> rem) w = Ok (replicate (pred (length rem)) None ++ [Some p], w') ∧
    reass_ok w' Q (l ++ X) ∧ packet_in w' p l (final_hdr first_hdr (total + 20) ++ datagram cs.*1) ∧ keeps X (rdat w) (rdat w').
Proof.
  induction rem as [|x rem IH]; intros arr w Hp Hne Hw Hall Hpool; [done|]. apply Forall_cons in Hall as [[Harr Hz] Hall].
  destruct (order_step x rem arr w Hp Hw Harr Hz Hpool) as (r & w1 & Hrun & Hk & Hres).
  rewrite fmap_cons. cbn [reass_all]. rewrite Hrun. cbn [mbind res_bind].
  assert (HkX : keeps X (rdat w) (rdat w1)) by (eapply keeps_sub; [|exact Hk]; sub_goal).
  destruct rem as [|y rem].
  - destruct Hres as (p & l & -> & Hok & Hpk). exists p, l, w1. by split_and!.
  - destruct Hres as [-> Hw1]. destruct (IH (x :: arr) w1) as (p & l & w' & Hrun' & Hok' & Hpk & Hk'); try done.
    + rewrite <-Hp. cbn [app]. apply Permutation_middle.
    + rewrite Forall_forall in Hall |- *. intros u Hu. destruct (Hall u Hu) as [Hua Huz]. split; [|done].
      eapply arrives_keeps; [exact Hk| |exact Hua]. intros v Hv. apply elem_of_app. left.
      eapply f_l_structs; [|exact Hv]. by apply list_elem_of_fmap_2.
    + exists p, l, w'. rewrite Hrun'. cbn [mbind res_bind]. split_and!; try done. eauto.
Qed.
End order.

Section claim.
Context {A P : Type} `{AllocatorLaws A} `{!ReassEnv A} `{!ReassEnvLaws A} `{PoolLaws P}.
Implicit Types w : rstate A P.

Lemma any_order_ok w Q X k cs arrival :
  cut k cs → arrival ≡ₚ cs → reass_ok w Q (structs arrival.*1 ++ X) →
  Forall (λ x, arrives (rdat w) x.1 x.2) arrival → Forall (λ x, key (g_hdr x.2) ≠ k) Q →
  zlen (q_structs Q) + zlen (structs arrival.*1) ≤ IP_REASS_MAX_PBUFS → pool_malloc (rpool w) ≠ Ok (None, rpool w) →
  ∃ p l w', reass_all ((λ x, f_p x.1) <$> arrival) w = Ok (replicate (pred (length arrival)) None ++ [Some p], w') ∧
    packet_in w' p l (final_hdr (first_hdr cs) (zlen (datagram cs.*1) + 20) ++ datagram cs.*1) ∧
    reass_ok w' Q (l ++ X) ∧ keeps X (rdat w) (rdat w').
Proof.
  intros Hcut Hp Hok Harr Hother Hroom Hpool.
  assert (Hspan : Forall spans cs.*1).
  { rewrite <-Hp. apply Forall_fmap. eapply Forall_impl; [exact Harr|]. intros x (_ & _ & _ & _ & Hs & He). split; [|done].
    rewrite Hs. apply u16_range. }
  assert (Hne : arrival ≠ []).
  { intros ->. destruct (cut_last _ _ Hcut) as (cs0 & x & -> & _). apply Permutation_nil_l in Hp. by destruct cs0. }
  assert (Hroom' : zlen (q_structs Q) + zlen (structs cs.*1) ≤ IP_REASS_MAX_PBUFS).
  { by rewrite <-(structs_perm arrival.*1 cs.*1) by (by rewrite Hp). }
  destruct (order_all k cs Hcut Q X Hspan Hother Hroom' arrival [] w) as (p & l & w' & Hrun & Hok' & Hpk & Hk); try done.
  - rewrite Forall_forall in Harr |- *. intros x Hx. split; [by apply Harr|].
    assert (Hle : (length (f_l x.1) ≤ length (structs arrival.*1))%nat).
    { apply list_elem_of_split in Hx as (a1 & a2 & ->). rewrite fmap_app, structs_app, fmap_cons, structs_cons, !length_app. lia. }
    pose proof (zlen_nonneg (q_structs Q)). unfold IP_REASS_MAX_PBUFS, zlen in *. lia.
  - by exists p, l, w'.
Qed.
(** C19: Fragments may arrive in any order.  Let [cs] be a datagram of at most
    65515 bytes cut into at least two fragments, [arrival] the same fragments in any other
    order, each in a packet of its own of at most 6553 bytes (the header included) with any
    segmentation.  If there is room for their
    structs, a free element in the pool, and no queue with the same addresses and
    identification, then ip4_reass returns NULL for all packets but the last, and for the
    last one the packet of the datagram: its bytes are the IP header of the fragment with
    offset 0, with length, offset and checksum set, followed by the data in the right
    order.  The queues are as before and nothing else is touched. *)
Theorem ip4_reass_any_order w Q X k cs arrival :
  cut k cs → arrival ≡ₚ cs → reass_ok w Q (structs arrival.*1 ++ X) →
  Forall (λ x, arrives (rdat w) x.1 x.2) arrival → Forall (λ x, key (g_hdr x.2) ≠ k) Q →
  zlen (q_structs Q) + zlen (structs arrival.*1) ≤ IP_REASS_MAX_PBUFS → pool_malloc (rpool w) ≠ Ok (None, rpool w) →
  ∃ p l w', reass_all ((λ x, f_p x.1) <$> arrival) w = Ok (replicate (pred (length arrival)) None ++ [Some p], w') ∧
    packet_in w' p l (final_hdr (first_hdr cs) (zlen (datagram cs.*1) + 20) ++ datagram cs.*1) ∧
    reass_ok w' Q (l ++ X) ∧ keeps X (rdat w) (rdat w').
Proof. apply any_order_ok. Qed.
End claim.
