(* ===== verification/Ip4FragLink.v ===== *)
(** * IPv4 reassembly on concrete packets

    Three fragments in custom pbufs, a pool of five queues and the heap and pools of
    PbufAlloc.v.  ICMP does not answer here, as when pbuf_alloc fails in
    icmp_send_response. *)

From stdpp Require Import sorting.
From S2P Require Import Prelude ByteMem Def Mem MemFacts MemClient Memp MempFacts MempPool Pbuf PbufFacts PbufData PbufLife.
From S2P Require Import PbufChain PbufAlloc PbufOwn Ip4Frag Ip4FragFacts Ip4FragQueue Ip4FragState Ip4FragReass Ip4FragRuns Ip4FragOrder.

#[local] Existing Instance sample_allocator.
#[local] Existing Instance sample_laws.

#[local] Instance silent_icmp : ReassEnv stack_mem := {| icmp_time_exceeded _ _ s := Ok s |}.
#[local] Instance silent_icmp_laws : ReassEnvLaws stack_mem.
Proof. split. intros s F p q Ho _ _. by exists s. Qed.

(** The pool MEMP_REASSDATA. *)
Definition reass_pools : list memp_desc := [LWIP_MEMPOOL_DECLARE 5 32 600000 4].

Lemma reass_pools_ok : descs_ok reass_pools.
Proof.
  split.
  - intros [|i] e Hd; vm_compute in Hd; simplify_eq. split_and!; [done|by exists 8|done..].
  - intros [|i] [|j] e e' Hd Hd' Hne; done.
Qed.

#[local] Instance reass_pool_laws : PoolLaws (pools_at reass_pools 0) := memp_pool_laws reass_pools 0 _ reass_pools_ok eq_refl.

Definition reass_pool : pools_at reass_pools 0 := from_ok (memp_init reass_pools (Pools ∅ ∅)) (Pools ∅ ∅).

Lemma reass_pool_ok : pool_ok reass_pool [].
Proof.
  exists []. split; [|done]. destruct (memp_init_ok reass_pools reass_pools_ok) as (s & Hi & Hinv).
  unfold reass_pool. by rewrite Hi.
Qed.

(** A header with the bytes of the field for flags and offset, for 8 bytes of data. *)
Definition sample_hdr (hi lo : Z) : ip_hdr := [69; 0; 0; 28; 18; 52; hi; lo; 64; 17; 0; 0; 10; 0; 0; 1; 10; 0; 0; 2].

Definition sample_frag (i start : Z) (data : list Z) : frag :=
  Frag (400000 + 16 * i) (Pbuf None (500000 + 100 * i) 28 28 1 PBUF_FLAG_IS_CUSTOM 1 0) [] start (start + 8) data.

Definition frag0 : frag := sample_frag 0 0 [1; 2; 3; 4; 5; 6; 7; 8].
Definition frag1 : frag := sample_frag 1 8 [9; 10; 11; 12; 13; 14; 15; 16].
Definition frag2 : frag := sample_frag 2 16 [17; 18; 19; 20; 21; 22; 23; 24].

(** The three packets with the headers [h0], [h1] and [h2]. *)
Definition sample_packets (h0 h1 h2 : ip_hdr) : pstate stack_mem :=
  PState (list_to_map (f_l frag0 ++ f_l frag1 ++ f_l frag2))
    (mwrite (mwrite (mwrite sample_arena 500000 (h0 ++ f_data frag0)) 500100 (h1 ++ f_data frag1)) 500200 (h2 ++ f_data frag2))
    (StackMem (sm_heap sample_mem) (sm_pools sample_mem) (custom_set 3 400000)) 0.

Definition sample_reass (h0 h1 h2 : ip_hdr) : rstate stack_mem (pools_at reass_pools 0) :=
  RState (sample_packets h0 h1 h2) ∅ None 0 reass_pool.

(** The payloads are not in the heap or the pools. *)
Lemma sample_far : Forall (λ x, 0 ≤ len x.2 ∧ ∀ i, payload x.2 ≤ i ≤ payload x.2 + len x.2 → ¬ stack_arena 100000 sample_ds i) (structs [frag2; frag0; frag1]).
Proof.
  assert (Hfar : ∀ i, 500000 ≤ i → ¬ stack_arena 100000 sample_ds i).
  { intros i Hi Ha. destruct Ha as [Ha|(k & d & Hd & Ha)]; [change MEM_SIZE with 3200 in Ha; lia|].
    destruct k as [|[|k]]; [injection Hd as <-..|discriminate Hd];
      [change (200000 ≤ i < 200000 + 16 * 16 + 4 - 1) in Ha|change (300000 ≤ i < 300000 + 4 * 608 + 4 - 1) in Ha]; lia. }
  repeat (apply Forall_cons; split; [split; [done|]; intros i Hi; apply Hfar; cbn in Hi; lia|]). constructor.
Qed.

Lemma sample_packets_excl h0 h1 h2 : excl (sample_packets h0 h1 h2) (structs [frag2; frag0; frag1]).
Proof.
  split_and!.
  - exists (gset_to_gmap SrcCustom (custom_set 3 400000)).
    assert (Hcs : Forall (λ x, gset_to_gmap SrcCustom (custom_set 3 400000) !! x.1 = Some SrcCustom) (structs [frag2; frag0; frag1]))
      by (repeat constructor; by apply lookup_gset_to_gmap_Some).
    split; [split; [apply stack_init_ok, custom_set_place; lia|]|].
    2: { eapply Forall_impl; [exact (proj2 (Forall_and _ _) (conj Hcs sample_far))|]. intros x [Hx Hfar]. unfold placed. by rewrite Hx. }
    intros p q Hq. apply elem_of_list_to_map_2 in Hq. exists SrcCustom.
    repeat (apply elem_of_cons in Hq as [Hq|Hq]; [injection Hq as -> ->; split; [by apply lookup_gset_to_gmap_Some; split|done]|]).
    by apply not_elem_of_nil in Hq.
  - apply (bool_decide_unpack _). vm_compute. done.
  - cbn [structs flat_map f_l f_p f_b f_t frag0 frag1 frag2 sample_frag app sep].
    split_and!; try done; repeat (apply away_cons; split; [cbn [payload len]; lia|]); constructor.
  - repeat constructor.
  - intros i Hi. do 3 apply lookup_mwrite_some. by apply sample_arena_mapped.
Qed.

(** ** The datagram of 24 bytes in three fragments, arriving in the order 2, 0, 1 *)

Definition hdr0 : ip_hdr := sample_hdr 32 0.
Definition hdr1 : ip_hdr := sample_hdr 32 1.
Definition hdr2 : ip_hdr := sample_hdr 0 2.
Definition sample_state := sample_reass hdr0 hdr1 hdr2.
Definition sample_cut : list (frag * ip_hdr) := [(frag0, hdr0); (frag1, hdr1); (frag2, hdr2)].
Definition sample_arrival : list (frag * ip_hdr) := [(frag2, hdr2); (frag0, hdr0); (frag1, hdr1)].

(** What has to be checked of a fragment is decidable. *)
Definition arrives_b (d : bytes) (f : frag) (h : ip_hdr) : bool :=
  bool_decide (f_t f = []) && bool_decide (next (f_b f) = None) && bool_decide (tot_len (f_b f) = len (f_b f)) &&
  bool_decide (20 ≤ len (f_b f) ≤ MAX_FRAG) && bool_decide (content d (f_body f) = Some (f_data f)) && mapped_b d (f_pay f) 28 &&
  bool_decide (mread d (f_pay f) 20 = Some h) && bool_decide (lwip_htons (IPH_LEN h) = len (f_b f)) &&
  bool_decide (f_start f = IPH_OFFSET_BYTES h) && bool_decide (f_end f = f_start f + zlen (f_data f)).

Lemma arrives_b_ok d f h : arrives_b d f h = true → arrives d f h.
Proof.
  unfold arrives_b, arrives, packet_ok, data_in, MAX_FRAG. rewrite !andb_true_iff.
  intros (((((((((Ht & Hn) & Htot) & Hl) & Hc) & Hm) & Hh) & Hlen) & Hs) & He). breflect. unfold f_l. rewrite Ht. cbn [linked lens_ok bytes_in].
  split_and!; try done; try lia. by apply mapped_b_spec in Hm.
Qed.

Lemma sample_state_run : reass_run sample_state (structs [frag2; frag0; frag1]).
Proof. apply run_init; [done|done|done|exact reass_pool_ok|apply sample_packets_excl]. Qed.

Lemma reass_runs_safe_witness :
  ∃ r w', ip4_reass (f_p frag1) sample_state = Ok (r, w').
Proof.
  destruct (reass_runs_safe sample_state (structs [frag2; frag0; frag1]) sample_state_run) as (_ & _ & Hfrag).
  apply (Hfrag frag1 hdr1 (structs [frag2; frag0])).
  - cbn [structs flat_map app]. solve_Permutation.
  - apply arrives_b_ok. vm_compute. reflexivity.
  - intros Hl. vm_compute in Hl. discriminate.
  - vm_compute. reflexivity.
Defined.

(** One fragment has arrived and waits for the others. *)
Definition waiting_state : rstate stack_mem (pools_at reass_pools 0) :=
  match ip4_reass (f_p frag2) sample_state with Ok (_, w) => w | _ => sample_state end.

Lemma waiting_run : reass_run waiting_state (structs [frag0; frag1]).
Proof.
  assert (Hrun : ip4_reass (f_p frag2) sample_state = Ok (None, waiting_state)).
  { assert (Hn : match ip4_reass (f_p frag2) sample_state with Ok (None, _) => true | _ => false end = true) by (vm_compute; reflexivity).
    unfold waiting_state. destruct (ip4_reass (f_p frag2) sample_state) as [[[p|] w]| | |]; [discriminate Hn|reflexivity|discriminate Hn..]. }
  apply (run_frag sample_state frag2 hdr2 (structs [frag0; frag1]) None waiting_state []); [exact sample_state_run| | | |exact Hrun|done].
  - apply arrives_b_ok. vm_compute. reflexivity.
  - intros Hl. vm_compute in Hl. discriminate.
  - vm_compute. reflexivity.
Qed.

Lemma silent_leaves_nothing : icmp_leaves_nothing (A := stack_mem).
Proof. intros s F p q s' _ _ _ [= <-]. done. Qed.

Lemma reass_expires_witness : ip_reass_pbufcount waiting_state = 1 ∧
  ∃ Q w', reass_ok waiting_state Q (structs [frag0; frag1]) ∧ tmr_times 16 waiting_state = Ok w' ∧ rd w' = ∅ ∧ ip_reass_pbufcount w' = 0 ∧
    dom (pb (ps w')) ⊆ dom (pb (ps waiting_state)) ∖ list_to_set (q_structs Q).*1.
Proof.
  split; [vm_compute; reflexivity|].
  destruct (reass_expires waiting_state (structs [frag0; frag1]) waiting_run) as (Q & w' & Hok & Hrun & Hrd & _ & Hc & _ & _ & _ & Hgone).
  exists Q, w'. split; [exact Hok|]. split; [exact Hrun|]. split; [exact Hrd|]. split; [exact Hc|exact (Hgone silent_leaves_nothing)].
Defined.

Lemma sample_cut_ok : cut (key hdr0) sample_cut.
Proof.
  split.
  - exists [(frag0, hdr0); (frag1, hdr1)], (frag2, hdr2). split_and!; [done|done|repeat constructor|done].
  - done.
  - repeat constructor.
  - vm_compute. discriminate.
  - repeat constructor.
Qed.

(** The bytes of the reassembled packet. *)
Definition sample_datagram : list Z :=
  [69; 0; 0; 44; 18; 52; 0; 0; 64; 17; 0; 0; 10; 0; 0; 1; 10; 0; 0; 2] ++ seqZ 1 24.

Lemma ip4_reass_any_order_witness :
  ∃ p l w', reass_all [400032; 400000; 400016] sample_state = Ok ([None; None; Some p], w') ∧
    packet_in w' p l sample_datagram ∧ reass_ok w' [] (l ++ []).
Proof.
  destruct (ip4_reass_any_order sample_state [] [] (key hdr0) sample_cut sample_arrival) as (p & l & w' & Hrun & Hpk & Hok & _).
  - exact sample_cut_ok.
  - unfold sample_arrival, sample_cut. solve_Permutation.
  - apply reass_ok_init; [done|done|done|exact reass_pool_ok|apply sample_packets_excl].
  - do 3 (apply Forall_cons; split; [apply arrives_b_ok; vm_compute; reflexivity|]). constructor.
  - constructor.
  - vm_compute. discriminate.
  - vm_compute. discriminate.
  - exists p, l, w'. split; [exact Hrun|]. split; [|exact Hok]. exact Hpk.
Defined.

(** The first fragment waits, then a fragment of another datagram needs room. *)
Definition hdr_other : ip_hdr := [69; 0; 0; 28; 99; 99; 32; 0; 64; 17; 0; 0; 10; 0; 0; 1; 10; 0; 0; 2].
Definition other_state := sample_reass hdr0 hdr1 hdr_other.

Lemma other_state_ok : reass_ok other_state [] (f_l frag0 ++ structs [frag2; frag1]).
Proof.
  apply reass_ok_init; [done|done|done|exact reass_pool_ok|]. eapply excl_perm; [|apply sample_packets_excl].
  cbn [structs flat_map app]. solve_Permutation.
Qed.

Lemma remove_oldest_terminates_witness :
  ∃ w1 Q1 Q' n w', ip4_reass 400000 other_state = Ok (None, w1) ∧ reass_ok w1 Q1 (structs [frag2; frag1]) ∧
    ip_reass_remove_oldest_datagram 500200 1 w1 = Ok (n, w') ∧ evicted hdr_other Q1 Q' ∧ n = zlen (q_structs Q1) - zlen (q_structs Q').
Proof.
  destruct (reass_ok_frag other_state [] frag0 hdr0 (structs [frag2; frag1])) as (r & w1 & Q1 & l & Hrun & Hok1 & Hk & Hr).
  - exact other_state_ok.
  - apply arrives_b_ok. vm_compute. reflexivity.
  - intros Hl. vm_compute in Hl. discriminate.
  - vm_compute. reflexivity.
  - assert (Hnone : match ip4_reass 400000 other_state with Ok (None, _) => True | _ => False end) by (vm_compute; done).
    change (f_p frag0) with 400000 in Hrun. rewrite Hrun in Hnone. destruct r as [z|]; [exfalso; exact Hnone|]. clear Hnone. subst l.
    destruct (remove_oldest_terminates w1 Q1 (structs [frag2; frag1]) (f_b frag2) hdr_other 1) as (Q' & n & w' & Hrm & _ & Hn & Hev & _).
    + exact Hok1.
    + eapply header_keeps; [|exact Hk]. split; [exists (f_p frag2); by left|]. split; [done|]. vm_compute. reflexivity.
    + exists w1, Q1, Q', n, w'. split_and!; [exact Hrun|exact Hok1|exact Hrm|exact Hev|exact Hn].
Defined.

(** ** A fragment behind the last one

    The code records the length of the datagram with the last fragment and never compares
    it with the fragments that are there. *)

Definition hdr_last8 : ip_hdr := sample_hdr 0 1.
Definition hdr_more16 : ip_hdr := sample_hdr 32 2.

(** The length in the header of a reassembled packet need not be the length of
    the packet.  Here the last fragment covers the bytes 8 to 15 of the datagram and another
    one, with the flag "more fragments", the bytes 16 to 23.  ip4_reass accepts all three
    fragments and returns a packet of 44 bytes whose header says 36. *)
Theorem ip4_reass_overlong :
  match reass_all [400016; 400032; 400000] (sample_reass hdr0 hdr_last8 hdr_more16) with
  | Ok (rs, w) =>
      rs = [None; None; Some 400000] ∧ tot_len <$> pb (ps w) !! 400000 = Some 44 ∧
      (lwip_htons ∘ IPH_LEN) <$> mread (rdat w) 500000 20 = Some 36
  | _ => False
  end.
Proof. vm_compute. done. Qed.
