(* ===== verification/Iface.v ===== *)
(** * Network interfaces: the state shared by netif.c, igmp.c and autoip.c

    core/netif.c keeps the list of network interfaces and their addresses,
    core/ipv4/igmp.c the multicast groups of each interface, core/ipv4/autoip.c
    a link-local address for it.  The three files call each other and work on the
    same structs, so the structs and the state are defined here, the operations in
    Igmp.v, Netif.v and Autoip.v.

    The rest of the stack is reached through the class [NetEnv]: the calls into
    TCP, UDP, ARP, neighbour discovery, DHCP and the driver are the constructors
    of [call], and packets are handled through it as well.  [NetEnvLaws] states what
    the theorems rely on.

    Configuration: LWIP_IPV6 1 (LWIP_IPV6_NUM_ADDRESSES 3, LWIP_IPV6_SCOPES 1,
    LWIP_IPV6_MLD 1, LWIP_IPV6_AUTOCONFIG 1), LWIP_IGMP 1, LWIP_AUTOIP 1,
    LWIP_DHCP 1, LWIP_RAW 0, LWIP_SINGLE_NETIF 0, ENABLE_LOOPBACK 0, no status, link
    or extended callbacks, LWIP_RAND defined.  The callbacks stored in struct netif
    for input and output and the opaque driver state are not part of the model. *)

From S2P Require Import Prelude Def IpAddr Ip4Addr MempPool Etharp.

(** ** Flags of an interface: include/lwip/netif.h *)

Definition NETIF_FLAG_UP : Z := 1.
Definition NETIF_FLAG_LINK_UP : Z := 4.
Definition NETIF_FLAG_ETHARP : Z := 8.
Definition NETIF_FLAG_ETHERNET : Z := 16.
Definition NETIF_FLAG_IGMP : Z := 32.
Definition NETIF_FLAG_MLD6 : Z := 64.

(** ** The structs *)

(** Group membership states: include/lwip/prot/igmp.h *)
Definition IGMP_GROUP_NON_MEMBER : Z := 0.
Definition IGMP_GROUP_DELAYING_MEMBER : Z := 1.
Definition IGMP_GROUP_IDLE_MEMBER : Z := 2.

(** struct igmp_group with its address in the pool; the link is the position in
    the list of the interface. *)
Record igmp_group := Group {
  g_ptr : Z; group_address : Z; last_reporter_flag : Z; group_state : Z; gtimer : Z; guse : Z }.

#[global] Instance igmp_group_eq_dec : EqDecision igmp_group.
Proof. solve_decision. Defined.

Definition with_reporter v (g : igmp_group) :=
  Group (g_ptr g) (group_address g) v (group_state g) (gtimer g) (guse g).
Definition with_gstate v (g : igmp_group) :=
  Group (g_ptr g) (group_address g) (last_reporter_flag g) v (gtimer g) (guse g).
Definition with_gtimer v (g : igmp_group) :=
  Group (g_ptr g) (group_address g) (last_reporter_flag g) (group_state g) v (guse g).
Definition with_use v (g : igmp_group) :=
  Group (g_ptr g) (group_address g) (last_reporter_flag g) (group_state g) (gtimer g) v.

(** struct autoip and its states: include/lwip/autoip.h, include/lwip/prot/autoip.h *)
Inductive autoip_state_enum :=
  AUTOIP_STATE_OFF | AUTOIP_STATE_PROBING | AUTOIP_STATE_ANNOUNCING | AUTOIP_STATE_BOUND.

#[global] Instance autoip_state_eq_dec : EqDecision autoip_state_enum.
Proof. solve_decision. Defined.

Record autoip := Autoip {
  llipaddr : Z; ai_state : autoip_state_enum; sent_num : Z; ttw : Z; lastconflict : Z; tried_llipaddr : Z }.

#[global] Instance autoip_eq_dec : EqDecision autoip.
Proof. solve_decision. Defined.

Definition with_llipaddr v (a : autoip) :=
  Autoip v (ai_state a) (sent_num a) (ttw a) (lastconflict a) (tried_llipaddr a).
Definition with_ai_state v (a : autoip) :=
  Autoip (llipaddr a) v (sent_num a) (ttw a) (lastconflict a) (tried_llipaddr a).
Definition with_sent_num v (a : autoip) :=
  Autoip (llipaddr a) (ai_state a) v (ttw a) (lastconflict a) (tried_llipaddr a).
Definition with_ttw v (a : autoip) :=
  Autoip (llipaddr a) (ai_state a) (sent_num a) v (lastconflict a) (tried_llipaddr a).
Definition with_lastconflict v (a : autoip) :=
  Autoip (llipaddr a) (ai_state a) (sent_num a) (ttw a) v (tried_llipaddr a).
Definition with_tried v (a : autoip) :=
  Autoip (llipaddr a) (ai_state a) (sent_num a) (ttw a) (lastconflict a) v.

(** struct netif.  [base] holds the members that etharp.c reads too: hwaddr,
    hwaddr_len, flags, ip_addr, netmask, gw.  [v6] is the array of IPv6 addresses with
    state, valid and preferred lifetime of each.  Of the client data, AUTOIP and IGMP
    are followed, DHCP and MLD6 are the pointers. *)
Record v6addr := V6 { ip6_addr_of : ip6_addr; ip6_addr_state : Z; valid_life : Z; pref_life : Z }.

Record iface := Iface {
  base : netif; v6 : list v6addr; mtu : Z; mtu6 : Z; name0 : Z; name1 : Z; num : Z;
  ip6_autoconfig_enabled : Z; rs_count : Z; igmp_mac_filter : bool; mld_mac_filter : bool;
  dhcp_data : Z; mld6_data : Z; autoip_data : option autoip; igmp_data : list igmp_group }.

Definition nflags (i : iface) : Z := netif_flags (if4 (base i)).
Definition nip (i : iface) : Z := netif_ip4_addr (if4 (base i)).
Definition nmask (i : iface) : Z := netif_ip4_netmask (if4 (base i)).
Definition ngw (i : iface) : Z := netif_ip4_gw (base i).

Definition with_base v (i : iface) :=
  Iface v (v6 i) (mtu i) (mtu6 i) (name0 i) (name1 i) (num i) (ip6_autoconfig_enabled i) (rs_count i)
    (igmp_mac_filter i) (mld_mac_filter i) (dhcp_data i) (mld6_data i) (autoip_data i) (igmp_data i).
Definition with_v6 v (i : iface) :=
  Iface (base i) v (mtu i) (mtu6 i) (name0 i) (name1 i) (num i) (ip6_autoconfig_enabled i) (rs_count i)
    (igmp_mac_filter i) (mld_mac_filter i) (dhcp_data i) (mld6_data i) (autoip_data i) (igmp_data i).
Definition with_mtu6 v (i : iface) :=
  Iface (base i) (v6 i) (mtu i) v (name0 i) (name1 i) (num i) (ip6_autoconfig_enabled i) (rs_count i)
    (igmp_mac_filter i) (mld_mac_filter i) (dhcp_data i) (mld6_data i) (autoip_data i) (igmp_data i).
Definition with_num v (i : iface) :=
  Iface (base i) (v6 i) (mtu i) (mtu6 i) (name0 i) (name1 i) v (ip6_autoconfig_enabled i) (rs_count i)
    (igmp_mac_filter i) (mld_mac_filter i) (dhcp_data i) (mld6_data i) (autoip_data i) (igmp_data i).
Definition with_rs_count v (i : iface) :=
  Iface (base i) (v6 i) (mtu i) (mtu6 i) (name0 i) (name1 i) (num i) (ip6_autoconfig_enabled i) v
    (igmp_mac_filter i) (mld_mac_filter i) (dhcp_data i) (mld6_data i) (autoip_data i) (igmp_data i).
Definition with_autoip v (i : iface) :=
  Iface (base i) (v6 i) (mtu i) (mtu6 i) (name0 i) (name1 i) (num i) (ip6_autoconfig_enabled i) (rs_count i)
    (igmp_mac_filter i) (mld_mac_filter i) (dhcp_data i) (mld6_data i) v (igmp_data i).
Definition with_igmp v (i : iface) :=
  Iface (base i) (v6 i) (mtu i) (mtu6 i) (name0 i) (name1 i) (num i) (ip6_autoconfig_enabled i) (rs_count i)
    (igmp_mac_filter i) (mld_mac_filter i) (dhcp_data i) (mld6_data i) (autoip_data i) v.

Definition with_if4 v (i : iface) :=
  with_base (Netif (hwaddr (base i)) (hwaddr_len (base i)) v (ngw i)) i.
Definition with_flags v (i : iface) := with_if4 (Netif4 v (nip i) (nmask i)) i.
Definition with_ip v (i : iface) := with_if4 (Netif4 (nflags i) v (nmask i)) i.
Definition with_mask v (i : iface) := with_if4 (Netif4 (nflags i) (nip i) v) i.
Definition with_gw v (i : iface) := with_base (Netif (hwaddr (base i)) (hwaddr_len (base i)) (if4 (base i)) v) i.

(** netif_is_flag_set, netif_set_flags, netif_clear_flags *)
Definition flag_set (i : iface) (flag : Z) : bool := negb (Z.land (nflags i) flag =? 0).
Definition netif_set_flags (flag : Z) (i : iface) : iface := with_flags (u8 (Z.lor (nflags i) flag)) i.
Definition netif_clear_flags (flag : Z) (i : iface) : iface :=
  with_flags (u8 (Z.land (nflags i) (u8 (Z.land (Z.lnot flag) 255)))) i.
Definition netif_is_up (i : iface) : bool := flag_set i NETIF_FLAG_UP.

(** ** Calls into the rest of the stack

    An address handed over is an IPv4 or an IPv6 address.  A call carries what the
    callee reads through its pointers: the members of the interface that ARP puts into
    its packets, the data of a packet that is sent.  The last one is the pbuf_alloc of
    igmp_send when it returned NULL: [igmp_pbuf_alloc] makes it, and it is recorded so
    that one can see that memory was denied. *)

Inductive any_addr := A4 (a : Z) | A6 (a : ip6_addr).

Inductive mac_filter_action := NETIF_DEL_MAC_FILTER | NETIF_ADD_MAC_FILTER.

Inductive call :=
| C_tcp_netif_ip_addr_changed (old : any_addr) (new : option any_addr)
| C_udp_netif_ip_addr_changed (old : any_addr) (new : option any_addr)
| C_etharp_gratuitous (n : Z) (nif : netif)
| C_etharp_request (n : Z) (nif : netif) (ip : Z)
| C_etharp_cleanup_netif (n : Z)
| C_nd6_cleanup_netif (n : Z)
| C_nd6_adjust_mld_membership (n addr_idx new_state : Z)
| C_mld6_report_groups (n : Z)
| C_mld6_stop (n : Z)
| C_dhcp_network_changed (n : Z)
| C_igmp_mac_filter (n : Z) (group : Z) (action : mac_filter_action)
| C_ip4_output_if_opt (p src dest ttl tos proto n : Z) (options data : list Z)
| C_pbuf_alloc_NULL.

Class NetEnv (W : Type) := {
  (** the calls above, with the value returned *)
  do_call : call → W → res (Z * W);
  (** LWIP_RAND() *)
  lwip_rand : W → Z * W;
  (** mem_calloc(1, sizeof(struct autoip)): was there memory? *)
  autoip_calloc : W → res (bool * W);
  (** pbuf_alloc(PBUF_TRANSPORT, IGMP_MINLEN, PBUF_RAM) *)
  igmp_pbuf_alloc : W → res (option Z * W);
  (** the p->len bytes at p->payload *)
  pk_bytes : Z → W → res (list Z);
  (** store bytes at p->payload + offset *)
  pk_store : Z → Z → list Z → W → res W;
  (** pbuf_free(p) *)
  if_pbuf_free : Z → W → res W;
  (** does dhcp_network_changed(netif) call autoip_stop(netif)?  It does when the
      client is neither off nor bound and its autoip_coop_state is on. *)
  dhcp_stops_autoip : Z → W → bool
}.

(** What the operations rely on.  The packets given out and not yet given back are
    held by the caller; [env_log] are the calls made so far.  Memory may be denied at any
    time. *)
Class NetEnvLaws (W : Type) `{NetEnv W} := {
  env_ok : W → list Z → Prop;
  env_log : W → list call;
  env_perm w L L' : L ≡ₚ L' → env_ok w L → env_ok w L';
  call_ok c w L : env_ok w L →
    ∃ r w', do_call c w = Ok (r, w') ∧ env_ok w' L ∧ env_log w' = env_log w ++ [c];
  rand_ok w L : env_ok w L →
    ∃ r w', lwip_rand w = (r, w') ∧ is_u32 r ∧ env_ok w' L ∧ env_log w' = env_log w;
  calloc_ok w L : env_ok w L → ∃ r w', autoip_calloc w = Ok (r, w') ∧ env_ok w' L ∧ env_log w' = env_log w;
  alloc_ok w L : env_ok w L →
    ∃ r w', igmp_pbuf_alloc w = Ok (r, w') ∧
      match r with
      | Some p => env_log w' = env_log w ∧ env_ok w' (p :: L) ∧ ∃ l, pk_bytes p w' = Ok l ∧ zlen l = 8
      | None => env_log w' = env_log w ++ [C_pbuf_alloc_NULL] ∧ env_ok w' L
      end;
  bytes_ok w L p : env_ok w L → p ∈ L → ∃ l, pk_bytes p w = Ok l ∧ Forall is_u8 l ∧ zlen l < 65536;
  store_ok w L p off l old : env_ok w L → p ∈ L → pk_bytes p w = Ok old →
    0 ≤ off → off + zlen l ≤ zlen old → Forall is_u8 l →
    ∃ w', pk_store p off l w = Ok w' ∧ env_ok w' L ∧ env_log w' = env_log w ∧
      pk_bytes p w' = Ok (take (Z.to_nat off) old ++ l ++ drop (Z.to_nat off + length l) old);
  free_ok w L p : env_ok w (p :: L) →
    ∃ w', if_pbuf_free p w = Ok w' ∧ env_ok w' L ∧ env_log w' = env_log w
}.

(** ** The state *)

(** [ifs]: the structs, by address; [netif_list]: the linked list; [gpool]: the pool
    MEMP_IGMP_GROUP. *)
Record nstate (P W : Type) := NState {
  ifs : gmap Z iface; netif_list : list Z; netif_default : option Z; netif_num : Z; gpool : P; nworld : W }.
Arguments NState {P W} _ _ _ _ _ _.
Arguments ifs {P W} _.
Arguments netif_list {P W} _.
Arguments netif_default {P W} _.
Arguments netif_num {P W} _.
Arguments gpool {P W} _.
Arguments nworld {P W} _.

Section state.
Context {P W : Type}.
Implicit Types s : nstate P W.

Definition set_ifs v s : nstate P W := NState v (netif_list s) (netif_default s) (netif_num s) (gpool s) (nworld s).
Definition set_list v s : nstate P W := NState (ifs s) v (netif_default s) (netif_num s) (gpool s) (nworld s).
Definition set_default v s : nstate P W := NState (ifs s) (netif_list s) v (netif_num s) (gpool s) (nworld s).
Definition set_num v s : nstate P W := NState (ifs s) (netif_list s) (netif_default s) v (gpool s) (nworld s).
Definition set_gpool v s : nstate P W := NState (ifs s) (netif_list s) (netif_default s) (netif_num s) v (nworld s).
Definition set_nworld v s : nstate P W := NState (ifs s) (netif_list s) (netif_default s) (netif_num s) (gpool s) v.

Definition getn (n : Z) s : res iface := deref (ifs s !! n).
Definition putn (n : Z) (i : iface) s : nstate P W := set_ifs (<[n := i]> (ifs s)) s.
Definition modn (n : Z) (f : iface → iface) s : res (nstate P W) := i ← getn n s; Ok (putn n (f i) s).

(** A call whose result is not used. *)
Definition call_ `{NetEnv W} (c : call) s : res (nstate P W) :=
  '(_, w) ← do_call c (nworld s); Ok (set_nworld w s).

End state.
