(* ===== verification/Igmp.v ===== *)
(** * Multicast groups: core/ipv4/igmp.c

    Each interface has a list of the groups it is a member of; the first entry is
    the group of all systems, which igmp_start adds.  A group counts its users, knows
    whether this host was the last to report it, and is idle or delays a report until
    its timer, counted down by igmp_tmr every 100 ms, expires. *)

From S2P Require Import Prelude ByteMem Def IpAddr Ip4Addr MempPool Chksum Etharp Iface.

Definition IGMP_TTL : Z := 1.
Definition IGMP_MINLEN : Z := 8.
Definition ROUTER_ALERT : Z := 37892.
Definition IP_PROTO_IGMP : Z := 2.
Definition IGMP_MEMB_QUERY : Z := 17.
Definition IGMP_V2_MEMB_REPORT : Z := 22.
Definition IGMP_LEAVE_GROUP : Z := 23.
Definition IGMP_V1_DELAYING_MEMBER_TMR : Z := 10.
Definition IGMP_JOIN_DELAYING_MEMBER_TMR : Z := 5.

(** 224.0.0.1 and 224.0.0.2 in network byte order, stored by igmp_init *)
Definition allsystems : Z := PP_HTONL 3758096385.
Definition allrouters : Z := PP_HTONL 3758096386.

(** inet_chksum(l, length of l) for the bytes [l], wherever they are. *)
Definition chksum_bytes (l : list Z) : res Z := inet_chksum (mwrite ∅ 0 l) 0 (zlen l).

Definition igmp_lookfor_group (gs : list igmp_group) (addr : Z) : option igmp_group :=
  List.find (λ g, group_address g =? addr) gs.

(** The struct a pointer refers to, in the list of an interface. *)
Definition group_at (gp : Z) (gs : list igmp_group) : option igmp_group := List.find (λ g, g_ptr g =? gp) gs.
Definition upd_group (gp : Z) (f : igmp_group → igmp_group) (gs : list igmp_group) : list igmp_group :=
  (λ g, if g_ptr g =? gp then f g else g) <$> gs.

(** The loop of igmp_remove_group: the list without [group], unless it is not
    behind another element ([None], ERR_ARG). *)
Fixpoint remove_group_loop (gp : Z) (gs : list igmp_group) : option (list igmp_group) :=
  match gs with
  | tmp_group :: rest =>
      match rest with
      | group :: next =>
          if g_ptr group =? gp then Some (tmp_group :: next)
          else rest ← remove_group_loop gp rest; Some (tmp_group :: rest)
      | [] => None
      end
  | [] => None
  end.

Section world.
Context {W : Type} `{NetEnv W}.
Implicit Types w : W.

(** ** Timers of a group *)

Definition igmp_start_timer (g : igmp_group) (max_time : Z) w : igmp_group * W :=
  let '(t, w) := if 2 <? max_time then let '(r, w) := lwip_rand w in (u16 (r mod max_time), w) else (1, w) in
  let g := with_gtimer t g in
  (if gtimer g =? 0 then with_gtimer 1 g else g, w).

Definition igmp_delaying_member (g : igmp_group) (maxresp : Z) w : igmp_group * W :=
  if (group_state g =? IGMP_GROUP_IDLE_MEMBER) ||
     ((group_state g =? IGMP_GROUP_DELAYING_MEMBER) && ((gtimer g =? 0) || (maxresp <? gtimer g)))
  then let '(g, w) := igmp_start_timer g maxresp w in (with_gstate IGMP_GROUP_DELAYING_MEMBER g, w)
  else (g, w).

(** The loop over the groups behind the first of igmp_report_groups and of a
    general query. *)
Fixpoint delay_groups (gs : list igmp_group) (maxresp : Z) w : list igmp_group * W :=
  match gs with
  | [] => ([], w)
  | g :: gs =>
      let '(g, w) := igmp_delaying_member g maxresp w in
      let '(gs, w) := delay_groups gs maxresp w in
      (g :: gs, w)
  end.

Definition delay_all_but_first (gs : list igmp_group) (maxresp : Z) w : list igmp_group * W :=
  match gs with
  | [] => ([], w)
  | g :: gs => let '(gs, w) := delay_groups gs maxresp w in (g :: gs, w)
  end.

(** ** Sending *)

Definition igmp_ip_output_if (p src dest n : Z) w : res (Z * W) :=
  data ← pk_bytes p w;
  do_call (C_ip4_output_if_opt p src dest IGMP_TTL 0 IP_PROTO_IGMP n (word16 (PP_HTONS ROUTER_ALERT) ++ [0; 0]) data) w.

(** Returns the group, whose reporter flag may change. *)
Definition igmp_send (n : Z) (i : iface) (g : igmp_group) (type : Z) w : res (igmp_group * W) :=
  '(r, w) ← igmp_pbuf_alloc w;
  match r with
  | None => Ok (g, w)
  | Some p =>
      l ← pk_bytes p w;
      LWIP_ASSERT (IGMP_MINLEN <=? zlen l);;
      let src := nip i in
      '(dest, g, w) ← (if type =? IGMP_V2_MEMB_REPORT then
                         w ← pk_store p 4 (word32 (group_address g)) w;
                         Ok (Some (group_address g), with_reporter 1 g, w)
                       else if type =? IGMP_LEAVE_GROUP then
                         w ← pk_store p 4 (word32 (group_address g)) w;
                         Ok (Some allrouters, g, w)
                       else Ok (None, g, w));
      w ← (match dest with
           | Some dest =>
               w ← pk_store p 0 [type; 0; 0; 0] w;
               l ← pk_bytes p w;
               c ← chksum_bytes (take (Z.to_nat IGMP_MINLEN) l);
               w ← pk_store p 2 (word16 c) w;
               '(_, w) ← igmp_ip_output_if p src dest n w;
               Ok w
           | None => Ok w
           end);
      w ← if_pbuf_free p w;
      Ok (g, w)
  end.

(** ** Timeouts *)

Definition igmp_timeout (n : Z) (i : iface) (g : igmp_group) w : res (igmp_group * W) :=
  if (group_state g =? IGMP_GROUP_DELAYING_MEMBER) && negb (group_address g =? allsystems)
  then igmp_send n i (with_gstate IGMP_GROUP_IDLE_MEMBER g) IGMP_V2_MEMB_REPORT w
  else Ok (g, w).

(** One round of igmp_tmr for a group. *)
Definition tmr_group (n : Z) (i : iface) (g : igmp_group) w : res (igmp_group * W) :=
  if 0 <? gtimer g then
    let g := with_gtimer (gtimer g - 1) g in
    if gtimer g =? 0 then igmp_timeout n i g w else Ok (g, w)
  else Ok (g, w).

(** The loop of igmp_tmr over the groups of an interface. *)
Fixpoint tmr_groups (n : Z) (i : iface) (gs : list igmp_group) w : res (list igmp_group * W) :=
  match gs with
  | [] => Ok ([], w)
  | g :: gs =>
      '(g, w) ← tmr_group n i g w;
      '(gs, w) ← tmr_groups n i gs w;
      Ok (g :: gs, w)
  end.

End world.

Section operations.
Context {P W : Type} `{Pool P} `{NetEnv W}.
Implicit Types s : nstate P W.

Definition set_groups (n : Z) (gs : list igmp_group) s : res (nstate P W) := modn n (with_igmp gs) s.

Definition igmp_report_groups (n : Z) s : res (nstate P W) :=
  i ← getn n s;
  let '(gs, w) := delay_all_but_first (igmp_data i) IGMP_JOIN_DELAYING_MEMBER_TMR (nworld s) in
  set_groups n gs (set_nworld w s).

(** netif->igmp_mac_filter(netif, addr, action), unless NULL *)
Definition mac_filter (n : Z) (i : iface) (addr : Z) (action : mac_filter_action) s : res (nstate P W) :=
  if igmp_mac_filter i then call_ (C_igmp_mac_filter n addr action) s else Ok s.

(** The pointer to the group, NULL when there is no memory. *)
Definition igmp_lookup_group (n addr : Z) s : res (option Z * nstate P W) :=
  i ← getn n s;
  match igmp_lookfor_group (igmp_data i) addr with
  | Some g => Ok (Some (g_ptr g), s)
  | None =>
      '(r, p) ← pool_malloc (gpool s);
      let s := set_gpool p s in
      match r with
      | None => Ok (None, s)
      | Some a =>
          let group := Group a addr 0 IGMP_GROUP_NON_MEMBER 0 0 in
          gs ← (match igmp_data i with
                | [] => LWIP_ASSERT (addr =? allsystems);; Ok [group]
                | list_head :: next => LWIP_ASSERT (negb (addr =? allsystems));; Ok (list_head :: group :: next)
                end);
          s ← set_groups n gs s;
          Ok (Some a, s)
      end
  end.

Definition igmp_start (n : Z) s : res (Z * nstate P W) :=
  '(group, s) ← igmp_lookup_group n allsystems s;
  match group with
  | None => Ok (ERR_MEM, s)
  | Some gp =>
      i ← getn n s;
      s ← set_groups n (upd_group gp (λ g, with_use (u8 (guse g + 1)) (with_gstate IGMP_GROUP_IDLE_MEMBER g))
                          (igmp_data i)) s;
      s ← mac_filter n i allsystems NETIF_ADD_MAC_FILTER s;
      Ok (ERR_OK, s)
  end.

Fixpoint igmp_stop_loop (n : Z) (i : iface) (gs : list igmp_group) s : res (nstate P W) :=
  match gs with
  | [] => Ok s
  | group :: next =>
      s ← mac_filter n i (group_address group) NETIF_DEL_MAC_FILTER s;
      p ← pool_free (g_ptr group) (gpool s);
      igmp_stop_loop n i next (set_gpool p s)
  end.

Definition igmp_stop (n : Z) s : res (Z * nstate P W) :=
  i ← getn n s;
  s ← set_groups n [] s;
  s ← igmp_stop_loop n i (igmp_data i) s;
  Ok (ERR_OK, s).

Definition igmp_remove_group (n gp : Z) s : res (Z * nstate P W) :=
  i ← getn n s;
  match remove_group_loop gp (igmp_data i) with
  | Some gs => s ← set_groups n gs s; Ok (ERR_OK, s)
  | None => Ok (ERR_ARG, s)
  end.

(** ** Joining and leaving *)

Definition igmp_joingroup_netif (n groupaddr : Z) s : res (Z * nstate P W) :=
  LWIP_ASSERT (ip4_addr_ismulticast groupaddr);;
  LWIP_ASSERT (negb (groupaddr =? allsystems));;
  i ← getn n s;
  LWIP_ASSERT (flag_set i NETIF_FLAG_IGMP);;
  '(group, s) ← igmp_lookup_group n groupaddr s;
  match group with
  | None => Ok (ERR_MEM, s)
  | Some gp =>
      i ← getn n s;
      g ← deref (group_at gp (igmp_data i));
      '(g, s) ← (if negb (group_state g =? IGMP_GROUP_NON_MEMBER) then Ok (g, s)
                 else
                   s ← (if guse g =? 0 then mac_filter n i groupaddr NETIF_ADD_MAC_FILTER s else Ok s);
                   '(g, w) ← igmp_send n i g IGMP_V2_MEMB_REPORT (nworld s);
                   let '(g, w) := igmp_start_timer g IGMP_JOIN_DELAYING_MEMBER_TMR w in
                   Ok (with_gstate IGMP_GROUP_DELAYING_MEMBER g, set_nworld w s));
      s ← set_groups n (upd_group gp (λ _, with_use (u8 (guse g + 1)) g) (igmp_data i)) s;
      Ok (ERR_OK, s)
  end.

Definition igmp_leavegroup_netif (n groupaddr : Z) s : res (Z * nstate P W) :=
  LWIP_ASSERT (ip4_addr_ismulticast groupaddr);;
  LWIP_ASSERT (negb (groupaddr =? allsystems));;
  i ← getn n s;
  LWIP_ASSERT (flag_set i NETIF_FLAG_IGMP);;
  match igmp_lookfor_group (igmp_data i) groupaddr with
  | None => Ok (ERR_VAL, s)
  | Some g =>
      if guse g <=? 1 then
        '(_, s) ← igmp_remove_group n (g_ptr g) s;
        s ← (if negb (last_reporter_flag g =? 0) then
               '(_, w) ← igmp_send n i g IGMP_LEAVE_GROUP (nworld s); Ok (set_nworld w s)
             else Ok s);
        s ← mac_filter n i groupaddr NETIF_DEL_MAC_FILTER s;
        p ← pool_free (g_ptr g) (gpool s);
        Ok (ERR_OK, set_gpool p s)
      else
        s ← set_groups n (upd_group (g_ptr g) (λ g, with_use (u8 (guse g - 1)) g) (igmp_data i)) s;
        Ok (ERR_OK, s)
  end.

(** Does the call concern the interface?  [ifaddr] is [None] for NULL. *)
Definition on_interface (ifaddr : option Z) (i : iface) : bool :=
  flag_set i NETIF_FLAG_IGMP &&
  match ifaddr with None => true | Some a => (a =? IPADDR_ANY) || (nip i =? a) end.

Fixpoint joingroup_loop (ifaddr : option Z) (groupaddr : Z) (ns : list Z) (err : Z) s : res (Z * nstate P W) :=
  match ns with
  | [] => Ok (err, s)
  | n :: ns =>
      i ← getn n s;
      if on_interface ifaddr i then
        '(err, s) ← igmp_joingroup_netif n groupaddr s;
        if negb (err =? ERR_OK) then Ok (err, s) else joingroup_loop ifaddr groupaddr ns err s
      else joingroup_loop ifaddr groupaddr ns err s
  end.

Definition igmp_joingroup (ifaddr : option Z) (groupaddr : Z) s : res (Z * nstate P W) :=
  LWIP_ASSERT (ip4_addr_ismulticast groupaddr);;
  LWIP_ASSERT (negb (groupaddr =? allsystems));;
  joingroup_loop ifaddr groupaddr (netif_list s) ERR_VAL s.

Fixpoint leavegroup_loop (ifaddr : option Z) (groupaddr : Z) (ns : list Z) (err : Z) s : res (Z * nstate P W) :=
  match ns with
  | [] => Ok (err, s)
  | n :: ns =>
      i ← getn n s;
      if on_interface ifaddr i then
        '(r, s) ← igmp_leavegroup_netif n groupaddr s;
        leavegroup_loop ifaddr groupaddr ns (if negb (err =? ERR_OK) then r else err) s
      else leavegroup_loop ifaddr groupaddr ns err s
  end.

Definition igmp_leavegroup (ifaddr : option Z) (groupaddr : Z) s : res (Z * nstate P W) :=
  LWIP_ASSERT (ip4_addr_ismulticast groupaddr);;
  LWIP_ASSERT (negb (groupaddr =? allsystems));;
  leavegroup_loop ifaddr groupaddr (netif_list s) ERR_VAL s.

(** ** The timer *)

Fixpoint igmp_tmr_loop (ns : list Z) s : res (nstate P W) :=
  match ns with
  | [] => Ok s
  | n :: ns =>
      i ← getn n s;
      '(gs, w) ← tmr_groups n i (igmp_data i) (nworld s);
      s ← set_groups n gs (set_nworld w s);
      igmp_tmr_loop ns s
  end.

Definition igmp_tmr s : res (nstate P W) := igmp_tmr_loop (netif_list s) s.

(** ** Incoming messages *)

(** A query; [group] is the group found for the destination address. *)
Definition igmp_query (p n dest : Z) (group : igmp_group) (msg : list Z) s : res (nstate P W) :=
  i ← getn n s;
  let maxresp := nth 1 msg 0 in
  let addr := rd32 msg 4 in
  if (dest =? allsystems) && ip4_addr_isany_val addr then
    '(maxresp, w) ← (if maxresp =? 0 then
                       w ← pk_store p 1 [IGMP_V1_DELAYING_MEMBER_TMR] (nworld s); Ok (IGMP_V1_DELAYING_MEMBER_TMR, w)
                     else Ok (maxresp, nworld s));
    let '(gs, w) := delay_all_but_first (igmp_data i) maxresp w in
    set_groups n gs (set_nworld w s)
  else if negb (ip4_addr_isany_val addr) then
    let group := if dest =? allsystems then igmp_lookfor_group (igmp_data i) addr else Some group in
    match group with
    | Some g =>
        let '(g', w) := igmp_delaying_member g maxresp (nworld s) in
        set_groups n (upd_group (g_ptr g) (λ _, g') (igmp_data i)) (set_nworld w s)
    | None => Ok s
    end
  else Ok s.

(** A report of another host for [group]. *)
Definition igmp_report (n : Z) (group : igmp_group) s : res (nstate P W) :=
  i ← getn n s;
  if group_state group =? IGMP_GROUP_DELAYING_MEMBER then
    set_groups n (upd_group (g_ptr group)
      (λ g, with_reporter 0 (with_gstate IGMP_GROUP_IDLE_MEMBER (with_gtimer 0 g))) (igmp_data i)) s
  else Ok s.

Definition igmp_input (p n dest : Z) s : res (nstate P W) :=
  let finish s := w ← if_pbuf_free p (nworld s); Ok (set_nworld w s) in
  msg ← pk_bytes p (nworld s);
  if zlen msg <? IGMP_MINLEN then finish s else
  c ← chksum_bytes msg;
  if negb (c =? 0) then finish s else
  i ← getn n s;
  match igmp_lookfor_group (igmp_data i) dest with
  | None => finish s
  | Some group =>
      s ← (if nth 0 msg 0 =? IGMP_MEMB_QUERY then igmp_query p n dest group msg s
           else if nth 0 msg 0 =? IGMP_V2_MEMB_REPORT then igmp_report n group s
           else Ok s);
      finish s
  end.

End operations.
