(* ===== verification/Netif.v ===== *)
(** * Network interfaces: core/netif.c

    The list of interfaces, the numbers and names they are found by, their IPv4 and
    IPv6 addresses, and the two flags that say whether an interface is up and whether
    its link is up.  A change of an address is reported to TCP and UDP, and by ARP,
    IGMP and MLD to the network.  netif_set_link_up, which also restarts AutoIP, is in
    Autoip.v. *)

From S2P Require Import Prelude ByteMem Def IpAddr Ip4Addr MempPool Etharp Iface Igmp.

Definition NETIF_REPORT_TYPE_IPV4 : Z := 1.
Definition NETIF_REPORT_TYPE_IPV6 : Z := 2.
Definition LWIP_IPV6_NUM_ADDRESSES : Z := 3.
Definition LWIP_ND6_MAX_MULTICAST_SOLICIT : Z := 3.
Definition IP6_ADDR_INVALID : Z := 0.
Definition IP6_ADDR_TENTATIVE : Z := 8.
Definition IP6_ADDR_VALID : Z := 16.
Definition IP6_ADDR_LIFE_STATIC : Z := 0.
Definition NETIF_NO_INDEX : Z := 0.
Definition NETIF_NAMESIZE : Z := 6.
Definition IP4_ADDR_ANY4 : Z := IPADDR_ANY.

(** include/lwip/netif.h *)
Definition netif_get_index (i : iface) : Z := u8 (num i + 1).

(** ** IPv6 addresses: include/lwip/ip6_addr.h, include/lwip/ip6_zone.h *)

Definition ip6_word (a : ip6_addr) (k : nat) : Z := nth k (addr a) 0.
Definition ip6_addr_isinvalid (st : Z) : bool := st =? IP6_ADDR_INVALID.
Definition ip6_addr_isvalid (st : Z) : bool := negb (Z.land st IP6_ADDR_VALID =? 0).
Definition ip6_addr_islinklocal (a : ip6_addr) : bool :=
  Z.land (ip6_word a 0) (PP_HTONL 4290772992) =? PP_HTONL 4269801472.
Definition ip6_addr_cmp_zoneless (a b : ip6_addr) : bool :=
  (ip6_word a 0 =? ip6_word b 0) && (ip6_word a 1 =? ip6_word b 1) &&
  (ip6_word a 2 =? ip6_word b 2) && (ip6_word a 3 =? ip6_word b 3).
(** with the type IP6_UNICAST *)
Definition ip6_addr_assign_zone (i : iface) (a : ip6_addr) : ip6_addr :=
  Ip6Addr (addr a) (if ip6_addr_islinklocal a then netif_get_index i else 0).
Definition ip6_addr_any : ip6_addr := Ip6Addr [0; 0; 0; 0] 0.

Definition nd6_restart_netif (i : iface) : iface := with_rs_count LWIP_ND6_MAX_MULTICAST_SOLICIT i.

Section operations.
Context {P W : Type} `{Pool P} `{NetEnv W}.
Implicit Types s : nstate P W.

(** ** Reports *)

Definition netif_issue_reports (n report_type : Z) s : res (nstate P W) :=
  i ← getn n s;
  if negb (flag_set i NETIF_FLAG_LINK_UP) || negb (flag_set i NETIF_FLAG_UP) then Ok s else
  s ← (if negb (Z.land report_type NETIF_REPORT_TYPE_IPV4 =? 0) && negb (ip4_addr_isany_val (nip i)) then
         s ← (if flag_set i NETIF_FLAG_ETHARP then call_ (C_etharp_gratuitous n (base i)) s else Ok s);
         if flag_set i NETIF_FLAG_IGMP then igmp_report_groups n s else Ok s
       else Ok s);
  if negb (Z.land report_type NETIF_REPORT_TYPE_IPV6 =? 0) then call_ (C_mld6_report_groups n) s else Ok s.

Definition netif_do_ip_addr_changed (old_addr : any_addr) (new_addr : option any_addr) s : res (nstate P W) :=
  s ← call_ (C_tcp_netif_ip_addr_changed old_addr new_addr) s;
  call_ (C_udp_netif_ip_addr_changed old_addr new_addr) s.

(** ** IPv4 addresses *)

(** The boolean returned says whether the address changed. *)
Definition netif_do_set_ipaddr (n ipaddr : Z) s : res (bool * nstate P W) :=
  i ← getn n s;
  if negb (ipaddr =? nip i) then
    s ← netif_do_ip_addr_changed (A4 (nip i)) (Some (A4 ipaddr)) s;
    s ← modn n (with_ip ipaddr) s;
    s ← netif_issue_reports n NETIF_REPORT_TYPE_IPV4 s;
    Ok (true, s)
  else Ok (false, s).

Definition netif_do_set_netmask (n netmask : Z) s : res (bool * nstate P W) :=
  i ← getn n s;
  if negb (netmask =? nmask i) then s ← modn n (with_mask netmask) s; Ok (true, s) else Ok (false, s).

Definition netif_do_set_gw (n gw : Z) s : res (bool * nstate P W) :=
  i ← getn n s;
  if negb (gw =? ngw i) then s ← modn n (with_gw gw) s; Ok (true, s) else Ok (false, s).

(** NULL stands for the address ANY in the functions below. *)
Definition or_any (a : option Z) : Z := default IP4_ADDR_ANY4 a.

Definition netif_set_ipaddr (n : Z) (ipaddr : option Z) s : res (nstate P W) :=
  '(_, s) ← netif_do_set_ipaddr n (or_any ipaddr) s; Ok s.
Definition netif_set_netmask (n : Z) (netmask : option Z) s : res (nstate P W) :=
  '(_, s) ← netif_do_set_netmask n (or_any netmask) s; Ok s.
Definition netif_set_gw (n : Z) (gw : option Z) s : res (nstate P W) :=
  '(_, s) ← netif_do_set_gw n (or_any gw) s; Ok s.

Definition netif_set_addr (n : Z) (ipaddr netmask gw : option Z) s : res (nstate P W) :=
  let remove := ip4_addr_isany_val (or_any ipaddr) in
  s ← (if remove then '(_, s) ← netif_do_set_ipaddr n (or_any ipaddr) s; Ok s else Ok s);
  '(_, s) ← netif_do_set_netmask n (or_any netmask) s;
  '(_, s) ← netif_do_set_gw n (or_any gw) s;
  if negb remove then '(_, s) ← netif_do_set_ipaddr n (or_any ipaddr) s; Ok s else Ok s.

(** ** Up and down *)

Definition netif_set_default (netif : option Z) s : nstate P W := set_default netif s.

Definition netif_set_up (n : Z) s : res (nstate P W) :=
  i ← getn n s;
  if negb (flag_set i NETIF_FLAG_UP) then
    s ← modn n (netif_set_flags NETIF_FLAG_UP) s;
    s ← netif_issue_reports n (Z.lor NETIF_REPORT_TYPE_IPV4 NETIF_REPORT_TYPE_IPV6) s;
    modn n nd6_restart_netif s
  else Ok s.

Definition netif_set_down (n : Z) s : res (nstate P W) :=
  i ← getn n s;
  if flag_set i NETIF_FLAG_UP then
    s ← modn n (netif_clear_flags NETIF_FLAG_UP) s;
    i ← getn n s;
    s ← (if flag_set i NETIF_FLAG_ETHARP then call_ (C_etharp_cleanup_netif n) s else Ok s);
    call_ (C_nd6_cleanup_netif n) s
  else Ok s.

Definition netif_set_link_down (n : Z) s : res (nstate P W) :=
  i ← getn n s;
  if flag_set i NETIF_FLAG_LINK_UP then modn n (netif_clear_flags NETIF_FLAG_LINK_UP) s else Ok s.

(** ** Adding and removing an interface *)

(** The inner loop of the search for a number: is [nr] taken by an interface of the
    list?  Its two assertions: [n] is not in the list, and the list is short. *)
Fixpoint num_taken (n nr : Z) (ns : list Z) (num_netifs : Z) s : res bool :=
  match ns with
  | [] => Ok false
  | netif2 :: ns =>
      LWIP_ASSERT (negb (netif2 =? n));;
      let num_netifs := num_netifs + 1 in
      LWIP_ASSERT (num_netifs <=? 255);;
      i2 ← getn netif2 s;
      if num i2 =? nr then Ok true else num_taken n nr ns num_netifs s
  end.

(** The outer loop, with the number of rounds left. *)
Fixpoint num_search (fuel : nat) (n nr : Z) s : res Z :=
  match fuel with
  | O => Stuck
  | S fuel =>
      let nr := if nr =? 255 then 0 else nr in
      taken ← num_taken n nr (netif_list s) 0 s;
      if (taken : bool) then num_search fuel n (u8 (nr + 1)) s else Ok nr
  end.

(** There are 255 numbers. *)
Definition num_fuel : nat := 256.

(** What netif_add stores into the struct before it calls the driver. *)
Definition netif_add_reset (nr : Z) (i : iface) : iface :=
  nd6_restart_netif
    (Iface (Netif (hwaddr (base i)) (hwaddr_len (base i)) (Netif4 0 IPADDR_ANY IPADDR_ANY) IPADDR_ANY)
       (replicate (Z.to_nat LWIP_IPV6_NUM_ADDRESSES)
          (V6 ip6_addr_any IP6_ADDR_INVALID IP6_ADDR_LIFE_STATIC IP6_ADDR_LIFE_STATIC))
       0 (mtu6 i) (name0 i) (name1 i) nr 0 (rs_count i) false false 0 0 None []).

(** A number for the interface, and its place at the head of the list. *)
Definition netif_add_to_list (n : Z) s : res (nstate P W) :=
  i ← getn n s;
  nr ← num_search num_fuel n (num i) s;
  s ← modn n (with_num nr) s;
  let s := set_num (if nr =? 254 then 0 else u8 (nr + 1)) s in
  Ok (set_list (n :: netif_list s) s).

(** [init] is the driver: it fills the struct and may use the rest of the world.  The
    number of the interface is chosen after it ran.  NULL is returned when it fails. *)
Definition netif_add (n : Z) (ipaddr netmask gw : option Z) (init : iface → W → res (Z * iface * W)) s :
    res (option Z * nstate P W) :=
  LWIP_ASSERT (negb (n =? 0));;
  s ← modn n (netif_add_reset (netif_num s)) s;
  s ← netif_set_addr n ipaddr netmask gw s;
  i ← getn n s;
  '(err, i, w) ← init i (nworld s);
  let s := putn n i (set_nworld w s) in
  if negb (err =? ERR_OK) then Ok (None, s) else
  s ← modn n (with_mtu6 (mtu i)) s;
  s ← netif_add_to_list n s;
  i ← getn n s;
  s ← (if flag_set i NETIF_FLAG_IGMP then '(_, s) ← igmp_start n s; Ok s else Ok s);
  Ok (Some n, s).

Definition netif_add_noaddr (n : Z) (init : iface → W → res (Z * iface * W)) s : res (option Z * nstate P W) :=
  netif_add n None None None init s.

(** The loop of netif_remove over the IPv6 addresses. *)
Fixpoint remove_ip6_loop (vs : list v6addr) s : res (nstate P W) :=
  match vs with
  | [] => Ok s
  | v :: vs =>
      s ← (if ip6_addr_isvalid (ip6_addr_state v)
           then netif_do_ip_addr_changed (A6 (ip6_addr_of v)) None s else Ok s);
      remove_ip6_loop vs s
  end.

(** The search for the predecessor in the list: the list without [n], if it is
    behind another element. *)
Fixpoint remove_from_list (n : Z) (ns : list Z) : option (list Z) :=
  match ns with
  | tmp_netif :: rest =>
      match rest with
      | next :: rest' =>
          if next =? n then Some (tmp_netif :: rest')
          else rest ← remove_from_list n rest; Some (tmp_netif :: rest)
      | [] => None
      end
  | [] => None
  end.

Definition netif_remove (netif : option Z) s : res (nstate P W) :=
  match netif with
  | None => Ok s
  | Some n =>
      i ← getn n s;
      s ← (if negb (ip4_addr_isany_val (nip i)) then netif_do_ip_addr_changed (A4 (nip i)) None s else Ok s);
      s ← (if flag_set i NETIF_FLAG_IGMP then '(_, s) ← igmp_stop n s; Ok s else Ok s);
      s ← remove_ip6_loop (v6 i) s;
      s ← call_ (C_mld6_stop n) s;
      i ← getn n s;
      s ← (if netif_is_up i then netif_set_down n s else Ok s);
      let s := if bool_decide (netif_default s = Some n) then netif_set_default None s else s in
      match netif_list s with
      | hd :: tl =>
          if hd =? n then Ok (set_list tl s)
          else match remove_from_list n (netif_list s) with
               | Some l => Ok (set_list l s)
               | None => Ok s
               end
      | [] => Ok s
      end
  end.

(** ** Finding an interface *)

Fixpoint get_by_index_loop (idx : Z) (ns : list Z) s : res (option Z) :=
  match ns with
  | [] => Ok None
  | n :: ns => i ← getn n s; if idx =? netif_get_index i then Ok (Some n) else get_by_index_loop idx ns s
  end.

Definition netif_get_by_index (idx : Z) s : res (option Z) :=
  if negb (idx =? NETIF_NO_INDEX) then get_by_index_loop idx (netif_list s) s else Ok None.

(** atoi of the C library: white space, a sign, then the digits up to the first other
    character; the result of a number that is no int is not defined. *)
Fixpoint atoi_spaces (fuel : nat) (b : bytes) (a : Z) : res Z :=
  match fuel with
  | O => Stuck
  | S fuel => c ← deref (b !! a); if lwip_isspace c then atoi_spaces fuel b (a + 1) else Ok a
  end.

Fixpoint atoi_digits (fuel : nat) (b : bytes) (a acc : Z) : res Z :=
  match fuel with
  | O => Stuck
  | S fuel =>
      c ← deref (b !! a);
      if lwip_isdigit c then atoi_digits fuel b (a + 1) (acc * 10 + (c - 48))
      else if acc <=? INT_MAX then Ok acc else Ub
  end.

Definition atoi (b : bytes) (a : Z) : res Z :=
  a ← atoi_spaces (walk_fuel b) b a;
  c ← deref (b !! a);
  if c =? 45 then v ← atoi_digits (walk_fuel b) b (a + 1) 0; Ok (- v)
  else if c =? 43 then atoi_digits (walk_fuel b) b (a + 1) 0
  else atoi_digits (walk_fuel b) b a 0.

Fixpoint netif_find_loop (nr c0 c1 : Z) (ns : list Z) s : res (option Z) :=
  match ns with
  | [] => Ok None
  | n :: ns =>
      i ← getn n s;
      if (nr =? num i) && (c0 =? name0 i) && (c1 =? name1 i) then Ok (Some n) else netif_find_loop nr c0 c1 ns s
  end.

(** [name] is the address of the string, 0 for NULL. *)
Definition netif_find (b : bytes) (name : Z) s : res (option Z) :=
  if name =? 0 then Ok None else
  v ← atoi b (name + 2);
  c0 ← deref (b !! name);
  c1 ← deref (b !! (name + 1));
  netif_find_loop (u8 v) c0 c1 (netif_list s) s.

Definition netif_name_to_index (b : bytes) (name : Z) s : res Z :=
  r ← netif_find b name s;
  match r with
  | Some n => i ← getn n s; Ok (netif_get_index i)
  | None => Ok NETIF_NO_INDEX
  end.

Definition netif_index_to_num (idx : Z) : Z := idx - 1.

(** Returns [name], or 0 for NULL. *)
Definition netif_index_to_name (idx name : Z) (b : bytes) s : res (Z * bytes) :=
  r ← netif_get_by_index idx s;
  match r with
  | Some n =>
      i ← getn n s;
      b ← mstore name [name0 i] b;
      b ← mstore (name + 1) [name1 i] b;
      b ← lwip_itoa (name + 2) (NETIF_NAMESIZE - 2) (netif_index_to_num idx) b;
      Ok (name, b)
  | None => Ok (0, b)
  end.

(** ** IPv6 addresses of an interface *)

Definition v6_at (i : iface) (addr_idx : Z) : res v6addr :=
  if 0 <=? addr_idx then deref (v6 i !! Z.to_nat addr_idx) else Ub.
Definition set_v6 (addr_idx : Z) (v : v6addr) (i : iface) : iface := with_v6 (<[Z.to_nat addr_idx := v]> (v6 i)) i.

Definition netif_ip6_addr_set_parts (n addr_idx i0 i1 i2 i3 : Z) s : res (nstate P W) :=
  LWIP_ASSERT (addr_idx <? LWIP_IPV6_NUM_ADDRESSES);;
  i ← getn n s;
  v ← v6_at i addr_idx;
  let old_addr := ip6_addr_of v in
  if negb (ip6_word old_addr 0 =? i0) || negb (ip6_word old_addr 1 =? i1) ||
     negb (ip6_word old_addr 2 =? i2) || negb (ip6_word old_addr 3 =? i3) then
    let new_ipaddr := ip6_addr_assign_zone i (Ip6Addr [i0; i1; i2; i3] 0) in
    s ← (if ip6_addr_isvalid (ip6_addr_state v)
         then netif_do_ip_addr_changed (A6 old_addr) (Some (A6 new_ipaddr)) s else Ok s);
    s ← modn n (set_v6 addr_idx (V6 new_ipaddr (ip6_addr_state v) (valid_life v) (pref_life v))) s;
    if ip6_addr_isvalid (ip6_addr_state v) then netif_issue_reports n NETIF_REPORT_TYPE_IPV6 s else Ok s
  else Ok s.

Definition netif_ip6_addr_set (n addr_idx : Z) (addr6 : ip6_addr) s : res (nstate P W) :=
  netif_ip6_addr_set_parts n addr_idx (ip6_word addr6 0) (ip6_word addr6 1) (ip6_word addr6 2) (ip6_word addr6 3) s.

Definition netif_ip6_addr_set_state (n addr_idx state : Z) s : res (nstate P W) :=
  LWIP_ASSERT (addr_idx <? LWIP_IPV6_NUM_ADDRESSES);;
  i ← getn n s;
  v ← v6_at i addr_idx;
  let old_state := ip6_addr_state v in
  if negb (old_state =? state) then
    let old_valid := ip6_addr_isvalid old_state in
    let new_valid := ip6_addr_isvalid state in
    s ← (if flag_set i NETIF_FLAG_MLD6 then call_ (C_nd6_adjust_mld_membership n addr_idx state) s else Ok s);
    s ← (if old_valid && negb new_valid then netif_do_ip_addr_changed (A6 (ip6_addr_of v)) None s else Ok s);
    s ← modn n (set_v6 addr_idx (V6 (ip6_addr_of v) state (valid_life v) (pref_life v))) s;
    if negb old_valid && new_valid then netif_issue_reports n NETIF_REPORT_TYPE_IPV6 s else Ok s
  else Ok s.

Fixpoint ip6_match_loop (vs : list v6addr) (a : ip6_addr) (k : Z) : Z :=
  match vs with
  | [] => -1
  | v :: vs =>
      if negb (ip6_addr_isinvalid (ip6_addr_state v)) && ip6_addr_cmp_zoneless (ip6_addr_of v) a then k
      else ip6_match_loop vs a (k + 1)
  end.

Definition netif_get_ip6_addr_match (n : Z) (a : ip6_addr) s : res Z :=
  i ← getn n s;
  if negb (zone a =? 0) && negb (zone a =? netif_get_index i) then Ok (-1)
  else Ok (ip6_match_loop (v6 i) a 0).

(** The first slot from [k] on that is free. *)
Fixpoint free_slot (vs : list v6addr) (k from : Z) : option Z :=
  match vs with
  | [] => None
  | v :: vs => if (from <=? k) && ip6_addr_isinvalid (ip6_addr_state v) then Some k else free_slot vs (k + 1) from
  end.

(** Returns the error and the index chosen. *)
Definition netif_add_ip6_address (n : Z) (ip6addr : ip6_addr) s : res (Z * Z * nstate P W) :=
  k ← netif_get_ip6_addr_match n ip6addr s;
  if 0 <=? k then Ok (ERR_OK, k, s) else
  i ← getn n s;
  match free_slot (v6 i) 0 (if ip6_addr_islinklocal ip6addr then 0 else 1) with
  | Some k =>
      v ← v6_at i k;
      s ← modn n (set_v6 k (V6 (ip6_addr_assign_zone i ip6addr) (ip6_addr_state v) (valid_life v) (pref_life v))) s;
      s ← netif_ip6_addr_set_state n k IP6_ADDR_TENTATIVE s;
      Ok (ERR_OK, k, s)
  | None => Ok (ERR_VAL, -1, s)
  end.

(** The interface identifier in the last two words, from a 48-bit address. *)
Definition eui64_words (hw : list Z) : Z * Z :=
  let b k := nth k hw 0 in
  (lwip_htonl (Z.lor (Z.lor (Z.lor (Z.shiftl (Z.lxor (b 0%nat) 2) 24) (Z.shiftl (b 1%nat) 16)) (Z.shiftl (b 2%nat) 8)) 255),
   lwip_htonl (Z.lor (Z.lor (Z.lor (Z.shiftl 254 24) (Z.shiftl (b 3%nat) 16)) (Z.shiftl (b 4%nat) 8)) (b 5%nat))).

(** [for (i = 0; (i < 8) && (i < netif->hwaddr_len); i++)], [k] rounds left; the words
    are those at index 2 and 3, [addr_index] starts at 3. *)
Fixpoint hwaddr_words (k : nat) (hw : list Z) (len i addr_index : Z) (w2 w3 : Z) : res (Z * Z) :=
  match k with
  | O => Ok (w2, w3)
  | S k =>
      if i <? len then
        let addr_index := if i =? 4 then addr_index - 1 else addr_index in
        h ← deref (hw !! Z.to_nat (len - i - 1));
        let x := lwip_htonl (u32 (Z.shiftl h (8 * Z.land i 3))) in
        if addr_index =? 3 then hwaddr_words k hw len (i + 1) addr_index w2 (Z.lor w3 x)
        else hwaddr_words k hw len (i + 1) addr_index (Z.lor w2 x) w3
      else Ok (w2, w3)
  end.

Definition netif_create_ip6_linklocal_address (n from_mac_48bit : Z) s : res (nstate P W) :=
  i ← getn n s;
  v ← v6_at i 0;
  '(w2, w3) ← (if negb (from_mac_48bit =? 0) then Ok (eui64_words (hwaddr (base i)))
               else hwaddr_words 8 (hwaddr (base i)) (hwaddr_len (base i)) 0 3 0 0);
  let a := ip6_addr_assign_zone i (Ip6Addr [PP_HTONL 4269801472; 0; w2; w3] 0) in
  s ← modn n (set_v6 0 (V6 a (ip6_addr_state v) (valid_life v) (pref_life v))) s;
  netif_ip6_addr_set_state n 0 IP6_ADDR_TENTATIVE s.

End operations.
