(* ===== verification/Autoip.v ===== *)
(** * Link-local addresses: core/ipv4/autoip.c

    AutoIP picks an address out of 169.254.1.0 to 169.254.254.255 from the hardware
    address, probes it with three ARP requests, announces it twice and then uses it.
    An ARP packet that shows another user of the address makes it defend the address
    once in ten seconds, or pick the next one.  autoip_tmr runs every 100 ms.
    netif_set_link_up of core/netif.c is here because it restarts the probing. *)

From S2P Require Import Prelude ByteMem Def IpAddr Ip4Addr MempPool Etharp Iface Igmp Netif.

Definition PROBE_WAIT : Z := 1.
Definition PROBE_MIN : Z := 1.
Definition PROBE_MAX : Z := 2.
Definition PROBE_NUM : Z := 3.
Definition MAX_CONFLICTS : Z := 10.
Definition RATE_LIMIT_INTERVAL : Z := 60.
Definition ANNOUNCE_WAIT : Z := 2.
Definition ANNOUNCE_NUM : Z := 2.
Definition ANNOUNCE_INTERVAL : Z := 2.
Definition DEFEND_INTERVAL : Z := 10.
Definition AUTOIP_TICKS_PER_SECOND : Z := 10.

Definition AUTOIP_NET : Z := 2851995648.
Definition AUTOIP_RANGE_START : Z := Z.lor AUTOIP_NET 256.
Definition AUTOIP_RANGE_END : Z := Z.lor AUTOIP_NET 65279.

(** Byte [k] of the hardware address. *)
Definition hw (i : iface) (k : nat) : Z := nth k (hwaddr (base i)) 0.

Definition LWIP_AUTOIP_RAND (i : iface) : Z :=
  u32 (Z.lor (Z.lor (Z.lor (Z.shiftl (Z.land (hw i 5) 255) 24) (Z.shiftl (Z.land (hw i 3) 255) 16))
                (Z.shiftl (Z.land (hw i 2) 255) 8)) (Z.land (hw i 4) 255)
       + match autoip_data i with Some a => tried_llipaddr a | None => 0 end).

Definition LWIP_AUTOIP_CREATE_SEED_ADDR (i : iface) : Z :=
  lwip_htonl (u32 (AUTOIP_RANGE_START + Z.lor (hw i 4) (Z.shiftl (hw i 5) 8))).

Section operations.
Context {P W : Type} `{Pool P} `{NetEnv W}.
Implicit Types s : nstate P W.

(** The struct autoip of an interface, through netif_autoip_data(netif). *)
Definition get_autoip (n : Z) s : res autoip := i ← getn n s; deref (autoip_data i).
Definition put_autoip (n : Z) (a : autoip) s : res (nstate P W) := modn n (with_autoip (Some a)) s.

Definition autoip_set_struct (n : Z) s : res (nstate P W) :=
  i ← getn n s;
  LWIP_ASSERT (bool_decide (autoip_data i = None));;
  put_autoip n (Autoip 0 AUTOIP_STATE_OFF 0 0 0 0) s.

(** The address to try, in network byte order. *)
Definition autoip_create_addr (n : Z) s : res Z :=
  i ← getn n s;
  a ← get_autoip n s;
  let addr := lwip_htonl (LWIP_AUTOIP_CREATE_SEED_ADDR i) in
  let addr := u32 (addr + tried_llipaddr a) in
  let addr := Z.lor AUTOIP_NET (Z.land addr 65535) in
  let addr := if addr <? AUTOIP_RANGE_START then u32 (addr + (AUTOIP_RANGE_END - AUTOIP_RANGE_START + 1)) else addr in
  let addr := if AUTOIP_RANGE_END <? addr then u32 (addr - (AUTOIP_RANGE_END - AUTOIP_RANGE_START + 1)) else addr in
  LWIP_ASSERT ((AUTOIP_RANGE_START <=? addr) && (addr <=? AUTOIP_RANGE_END));;
  Ok (lwip_htonl addr).

Definition autoip_start_probing (n : Z) s : res (nstate P W) :=
  i ← getn n s;
  a ← get_autoip n s;
  let a := with_sent_num 0 (with_ai_state AUTOIP_STATE_PROBING a) in
  let a := with_ttw (u16 (LWIP_AUTOIP_RAND i mod (PROBE_WAIT * AUTOIP_TICKS_PER_SECOND))) a in
  let a := if MAX_CONFLICTS <? tried_llipaddr a
           then with_ttw (RATE_LIMIT_INTERVAL * AUTOIP_TICKS_PER_SECOND) a else a in
  put_autoip n a s.

Definition autoip_start (n : Z) s : res (Z * nstate P W) :=
  i ← getn n s;
  LWIP_ASSERT (netif_is_up i);;
  s ← netif_set_addr n (Some IP4_ADDR_ANY4) (Some IP4_ADDR_ANY4) (Some IP4_ADDR_ANY4) s;
  '(ok, s) ← (match autoip_data i with
              | None =>
                  '(r, w) ← autoip_calloc (nworld s);
                  let s := set_nworld w s in
                  if (r : bool) then s ← put_autoip n (Autoip 0 AUTOIP_STATE_OFF 0 0 0 0) s; Ok (true, s)
                  else Ok (false, s)
              | Some _ =>
                  a ← get_autoip n s;
                  s ← put_autoip n (Autoip 0 AUTOIP_STATE_OFF 0 0 0 (tried_llipaddr a)) s;
                  Ok (true, s)
              end);
  if negb ok then Ok (ERR_MEM, s) else
  addr ← autoip_create_addr n s;
  a ← get_autoip n s;
  s ← put_autoip n (with_llipaddr addr a) s;
  s ← autoip_start_probing n s;
  Ok (ERR_OK, s).

Definition autoip_restart (n : Z) s : res (nstate P W) :=
  a ← get_autoip n s;
  s ← put_autoip n (with_tried (u8 (tried_llipaddr a + 1)) a) s;
  '(_, s) ← autoip_start n s;
  Ok s.

Definition autoip_arp_probe (n : Z) s : res (nstate P W) :=
  i ← getn n s;
  a ← get_autoip n s;
  call_ (C_etharp_request n (base i) (llipaddr a)) s.

Definition autoip_arp_announce (n : Z) s : res (nstate P W) :=
  i ← getn n s;
  call_ (C_etharp_gratuitous n (base i)) s.

Definition autoip_handle_arp_conflict (n : Z) s : res (nstate P W) :=
  a ← get_autoip n s;
  if 0 <? lastconflict a then autoip_restart n s
  else
    s ← autoip_arp_announce n s;
    a ← get_autoip n s;
    put_autoip n (with_lastconflict (DEFEND_INTERVAL * AUTOIP_TICKS_PER_SECOND) a) s.

Definition autoip_bind (n : Z) s : res (nstate P W) :=
  a ← get_autoip n s;
  netif_set_addr n (Some (llipaddr a)) (Some (PP_HTONL 4294901760)) (Some (PP_HTONL 0)) s.

Definition autoip_network_changed (n : Z) s : res (nstate P W) :=
  i ← getn n s;
  match autoip_data i with
  | Some a => if negb (bool_decide (ai_state a = AUTOIP_STATE_OFF)) then autoip_start_probing n s else Ok s
  | None => Ok s
  end.

Definition autoip_stop (n : Z) s : res (Z * nstate P W) :=
  i ← getn n s;
  match autoip_data i with
  | Some a =>
      s ← put_autoip n (with_ai_state AUTOIP_STATE_OFF a) s;
      if ip4_addr_islinklocal (nip i)
      then s ← netif_set_addr n (Some IP4_ADDR_ANY4) (Some IP4_ADDR_ANY4) (Some IP4_ADDR_ANY4) s; Ok (ERR_OK, s)
      else Ok (ERR_OK, s)
  | None => Ok (ERR_OK, s)
  end.

(** ** The timer *)

(** The case AUTOIP_STATE_PROBING of autoip_tmr; the time to wait is over. *)
Definition tmr_probing (n : Z) s : res (nstate P W) :=
  a ← get_autoip n s;
  if PROBE_NUM <=? sent_num a then
    s ← put_autoip n (with_ai_state AUTOIP_STATE_ANNOUNCING a) s;
    s ← autoip_bind n s;
    a ← get_autoip n s;
    put_autoip n (with_ttw (ANNOUNCE_WAIT * AUTOIP_TICKS_PER_SECOND) (with_sent_num 1 a)) s
  else
    s ← autoip_arp_probe n s;
    a ← get_autoip n s;
    let a := with_sent_num (u8 (sent_num a + 1)) a in
    i ← getn n s;
    put_autoip n (if sent_num a =? PROBE_NUM then with_ttw (ANNOUNCE_WAIT * AUTOIP_TICKS_PER_SECOND) a
                  else with_ttw (u16 (LWIP_AUTOIP_RAND i mod ((PROBE_MAX - PROBE_MIN) * AUTOIP_TICKS_PER_SECOND)
                                      + PROBE_MIN * AUTOIP_TICKS_PER_SECOND)) a) s.

(** The case AUTOIP_STATE_ANNOUNCING; the time to wait is over. *)
Definition tmr_announcing (n : Z) s : res (nstate P W) :=
  s ← autoip_arp_announce n s;
  a ← get_autoip n s;
  let a := with_sent_num (u8 (sent_num a + 1)) (with_ttw (ANNOUNCE_INTERVAL * AUTOIP_TICKS_PER_SECOND) a) in
  put_autoip n (if ANNOUNCE_NUM <=? sent_num a
                then with_ttw 0 (with_sent_num 0 (with_ai_state AUTOIP_STATE_BOUND a)) else a) s.

(** One interface. *)
Definition autoip_tmr_netif (n : Z) s : res (nstate P W) :=
  i ← getn n s;
  match autoip_data i with
  | None => Ok s
  | Some a =>
      let a := if 0 <? lastconflict a then with_lastconflict (lastconflict a - 1) a else a in
      let a := if 0 <? ttw a then with_ttw (ttw a - 1) a else a in
      s ← put_autoip n a s;
      match ai_state a with
      | AUTOIP_STATE_PROBING => if ttw a =? 0 then tmr_probing n s else Ok s
      | AUTOIP_STATE_ANNOUNCING => if ttw a =? 0 then tmr_announcing n s else Ok s
      | _ => Ok s
      end
  end.

Fixpoint autoip_tmr_loop (ns : list Z) s : res (nstate P W) :=
  match ns with
  | [] => Ok s
  | n :: ns => s ← autoip_tmr_netif n s; autoip_tmr_loop ns s
  end.

Definition autoip_tmr s : res (nstate P W) := autoip_tmr_loop (netif_list s) s.

(** ** Incoming ARP packets *)

Definition autoip_arp_reply (n : Z) (hdr : etharp_hdr) s : res (nstate P W) :=
  i ← getn n s;
  match autoip_data i with
  | None => Ok s
  | Some a =>
      let netifaddr := take (Z.to_nat ETH_HWADDR_LEN) (hwaddr (base i)) in
      let own := bool_decide (netifaddr = shwaddr hdr) in
      match ai_state a with
      | AUTOIP_STATE_OFF => Ok s
      | AUTOIP_STATE_PROBING =>
          if (sipaddr hdr =? llipaddr a) ||
             (ip4_addr_isany_val (sipaddr hdr) && (dipaddr hdr =? llipaddr a) && negb own)
          then autoip_restart n s else Ok s
      | _ =>
          if (sipaddr hdr =? llipaddr a) && negb own then autoip_handle_arp_conflict n s else Ok s
      end
  end.

(** ** Questions of other components *)

(** [None] for NULL *)
Definition autoip_supplied_address (netif : option iface) : Z :=
  match netif with
  | Some i =>
      match autoip_data i with
      | Some a => c_bool (bool_decide (ai_state a = AUTOIP_STATE_BOUND) ||
                          bool_decide (ai_state a = AUTOIP_STATE_ANNOUNCING))
      | None => 0
      end
  | None => 0
  end.

Definition autoip_accept_packet (i : iface) (addr : Z) : Z :=
  c_bool (match autoip_data i with Some a => addr =? llipaddr a | None => false end).

(** ** The link comes up: core/netif.c *)

Definition netif_set_link_up (n : Z) s : res (nstate P W) :=
  i ← getn n s;
  if negb (flag_set i NETIF_FLAG_LINK_UP) then
    s ← modn n (netif_set_flags NETIF_FLAG_LINK_UP) s;
    s ← (if dhcp_stops_autoip n (nworld s) then '(_, s) ← autoip_stop n s; Ok s else Ok s);
    s ← call_ (C_dhcp_network_changed n) s;
    s ← autoip_network_changed n s;
    s ← netif_issue_reports n (Z.lor NETIF_REPORT_TYPE_IPV4 NETIF_REPORT_TYPE_IPV6) s;
    modn n nd6_restart_netif s
  else Ok s.

End operations.
