(* ===== verification/IfaceFacts.v ===== *)
(** * Network interfaces: what is always true of them

    The types of the fields, the shape of the list of groups of an interface, the
    ownership of the structs of the groups, and the rules to show that an operation
    on one interface keeps all of it. *)

From S2P Require Import Prelude ByteMem Def IpAddr Ip4Addr MempPool Chksum ChksumFacts Etharp Iface Igmp Netif Autoip.

(** ** Types and shapes *)

Definition group_ok (g : igmp_group) : Prop :=
  is_u32 (group_address g) ∧ is_u8 (last_reporter_flag g) ∧ 0 ≤ group_state g ≤ 2 ∧ 0 ≤ gtimer g ≤ 255 ∧ is_u8 (guse g).

(** A group that was joined: a multicast address, and a report waits exactly while the
    timer runs. *)
Definition member_ok (g : igmp_group) : Prop :=
  ip4_addr_ismulticast (group_address g) = true ∧ group_address g ≠ allsystems ∧
  (group_state g = IGMP_GROUP_DELAYING_MEMBER ∧ 0 < gtimer g ∨ group_state g = IGMP_GROUP_IDLE_MEMBER ∧ gtimer g = 0).

(** The list of an interface: empty, or the group of all systems and the groups joined,
    each once. *)
Definition groups_ok (gs : list igmp_group) : Prop :=
  Forall group_ok gs ∧ NoDup (group_address <$> gs) ∧
  match gs with [] => True | g :: gs => group_address g = allsystems ∧ Forall member_ok gs end.

(** A link-local address of the range, in network byte order. *)
Definition ll_addr (a : Z) : Prop :=
  is_u32 a ∧ AUTOIP_RANGE_START ≤ lwip_htonl a ≤ AUTOIP_RANGE_END.

Definition autoip_ok (a : autoip) : Prop :=
  is_u8 (sent_num a) ∧ is_u16 (ttw a) ∧ is_u8 (lastconflict a) ∧ is_u8 (tried_llipaddr a) ∧ is_u32 (llipaddr a) ∧
  (ai_state a ≠ AUTOIP_STATE_OFF → ll_addr (llipaddr a)).

Definition v6_ok (v : v6addr) : Prop :=
  ip6_ok (ip6_addr_of v) ∧ is_u8 (zone (ip6_addr_of v)) ∧ is_u8 (ip6_addr_state v) ∧ is_u32 (valid_life v) ∧ is_u32 (pref_life v).

(** The numbers that the stack keeps in the struct: the switch for IPv6 autoconfiguration, the
    router solicitations left to send and two pointers to client data. *)
Definition counters_ok (i : iface) : Prop :=
  is_u8 (ip6_autoconfig_enabled i) ∧ is_u8 (rs_count i) ∧ is_u32 (dhcp_data i) ∧ is_u32 (mld6_data i).

(** What the driver says of the interface: the MTU, the two characters of its name and the
    length of its hardware address. *)
Definition device_ok (i : iface) : Prop :=
  is_u16 (mtu i) ∧ is_u8 (name0 i) ∧ is_u8 (name1 i) ∧ is_u8 (hwaddr_len (base i)).

(** The values of the fields fit their C types. *)
Record iface_ok (i : iface) : Prop := {
  io_hwaddr : length (hwaddr (base i)) = 6%nat ∧ Forall is_u8 (hwaddr (base i));
  io_flags : is_u8 (nflags i);
  io_ip : is_u32 (nip i);
  io_mask : is_u32 (nmask i);
  io_gw : is_u32 (ngw i);
  io_v6 : length (v6 i) = 3%nat ∧ Forall v6_ok (v6 i);
  io_num : is_u8 (num i);
  io_counters : counters_ok i;
  io_device : device_ok i;
  io_mtu6 : is_u16 (mtu6 i);
  io_autoip : ∀ a, autoip_data i = Some a → autoip_ok a;
  io_groups : groups_ok (igmp_data i);
  (** only interfaces that do IGMP have groups *)
  io_igmp : flag_set i NETIF_FLAG_IGMP = false → igmp_data i = [] }.

(** The structs of the groups of an interface. *)
Definition ptrs (i : iface) : list Z := g_ptr <$> igmp_data i.

(** The structs of the groups of the interfaces in the list. *)
Definition held {P W} (s : nstate P W) : list Z :=
  concat ((λ n, match ifs s !! n with Some i => ptrs i | None => [] end) <$> netif_list s).

(** The numbers in use. *)
Definition nums {P W} (s : nstate P W) : list Z :=
  (λ n, match ifs s !! n with Some i => num i | None => 0 end) <$> netif_list s.

Section inv.
Context {P W : Type} `{PoolLaws P} `{NetEnvLaws W}.
Implicit Types s : nstate P W.

(** The invariant; [L] are the packets held by the callers. *)
Record net_inv (L : list Z) (s : nstate P W) : Prop := {
  ni_nodup : NoDup (netif_list s);
  ni_ifs n i : n ∈ netif_list s → ifs s !! n = Some i → iface_ok i;
  ni_some n : n ∈ netif_list s → is_Some (ifs s !! n);
  ni_nums : NoDup (nums s) ∧ Forall (λ k, 0 ≤ k ≤ 254) (nums s);
  ni_num : 0 ≤ netif_num s ≤ 254;
  ni_default n : netif_default s = Some n → n ∈ netif_list s;
  ni_pool : pool_ok (gpool s) (held s);
  ni_env : env_ok (nworld s) L }.

(** [s'] is [s] after the calls [cs] into the rest of the stack and with the interface
    [n] replaced by [i']. *)
Record changes (L : list Z) (s : nstate P W) (n : Z) (i' : iface) (cs : list call) (s' : nstate P W) : Prop := {
  ch_ifs : ifs s' = <[n := i']> (ifs s);
  ch_list : netif_list s' = netif_list s;
  ch_default : netif_default s' = netif_default s;
  ch_num : netif_num s' = netif_num s;
  ch_pool : gpool s' = gpool s;
  ch_env : env_ok (nworld s') L;
  ch_log : env_log (nworld s') = env_log (nworld s) ++ cs }.

Lemma changes_lookup L s n i cs s' : changes L s n i cs s' → ifs s' !! n = Some i.
Proof. intros []. rewrite ch_ifs0. apply lookup_insert_eq. Qed.

Lemma changes_refl L s n i : ifs s !! n = Some i → env_ok (nworld s) L → changes L s n i [] s.
Proof. intros Hi He. split; try done; [by rewrite insert_id|by rewrite app_nil_r]. Qed.

Lemma changes_trans L s1 s2 s3 n i2 i3 c1 c2 :
  changes L s1 n i2 c1 s2 → changes L s2 n i3 c2 s3 → changes L s1 n i3 (c1 ++ c2) s3.
Proof.
  intros [] []. split; try congruence.
  - by rewrite ch_ifs1, ch_ifs0, insert_insert_eq.
  - rewrite ch_log1, ch_log0. by rewrite app_assoc.
Qed.

Lemma putn_changes L s n i : env_ok (nworld s) L → changes L s n i [] (putn n i s).
Proof. intros He. split; try done. cbn. by rewrite app_nil_r. Qed.

Lemma changes_world L s n i s' w : changes L s n i [] s' → env_ok w L → env_log w = env_log (nworld s') →
  changes L s n i [] (set_nworld w s').
Proof. intros [] He Hl. split; try done. cbn. by rewrite Hl. Qed.

(** *** Rules for the operations *)

Lemma getn_Some s n i : ifs s !! n = Some i → getn n s = Ok i.
Proof. unfold getn. by intros ->. Qed.

Lemma getn_yields s n i (Q : iface → Prop) : ifs s !! n = Some i → Q i → yields (getn n s) Q.
Proof. intros Hi HQ. exists i. unfold getn. by rewrite Hi. Qed.

Lemma modn_changes L s n i f : ifs s !! n = Some i → env_ok (nworld s) L →
  yields (modn n f s) (changes L s n (f i) []).
Proof.
  intros Hi He. exists (putn n (f i) s). unfold modn, getn. rewrite Hi. split; [done|]. by apply putn_changes.
Qed.

Lemma call_changes L s n i c : ifs s !! n = Some i → env_ok (nworld s) L →
  yields (call_ c s) (changes L s n i [c]).
Proof.
  intros Hi He. destruct (call_ok c (nworld s) L He) as (r & w' & Hc & He' & Hl).
  exists (set_nworld w' s). unfold call_. rewrite Hc. split; [done|]. split; try done. cbn. by rewrite insert_id.
Qed.

(** [m] changes the interface [n] of [s] only; [Q] holds of the interface afterwards and
    of the calls made. *)
Definition updates (L : list Z) (s : nstate P W) (n : Z) (Q : iface → list call → Prop) (m : res (nstate P W)) : Prop :=
  yields m (λ s', ∃ i' cs, changes L s n i' cs s' ∧ Q i' cs).

Lemma updates_of L s n i cs Q m : yields m (changes L s n i cs) → Q i cs → updates L s n Q m.
Proof. intros Hm HQ. eapply yields_mono; [exact Hm|]. intros s' Hs'. by exists i, cs. Qed.

Lemma updates_mono L s n (Q R : iface → list call → Prop) m :
  updates L s n Q m → (∀ i cs, Q i cs → R i cs) → updates L s n R m.
Proof. intros Hm HQR. eapply yields_mono; [exact Hm|]. intros s' (i & cs & Hc & HQ). exists i, cs. auto. Qed.

Lemma updates_ret L s n i (Q : iface → list call → Prop) :
  ifs s !! n = Some i → env_ok (nworld s) L → Q i [] → updates L s n Q (Ok s).
Proof. intros Hi He HQ. apply yields_ret. exists i, []. split; [by apply changes_refl|done]. Qed.

Lemma updates_bind L s n Q R (m : res (nstate P W)) f :
  updates L s n Q m →
  (∀ s1 i1 c1, Q i1 c1 → ifs s1 !! n = Some i1 → env_ok (nworld s1) L →
     updates L s1 n (λ i2 c2, R i2 (c1 ++ c2)) (f s1)) →
  updates L s n R (m ≫= f).
Proof.
  intros Hm Hf. eapply yields_bind; [exact Hm|]. intros s1 (i1 & c1 & Hs1 & HQ).
  destruct (Hf s1 i1 c1 HQ) as (s2 & Hr & i2 & c2 & Hs2 & HR); [by eapply changes_lookup|by destruct Hs1|].
  exists s2. split; [done|]. exists i2, (c1 ++ c2). split; [by eapply changes_trans|done].
Qed.

(** The same for an operation that returns a value as well. *)
Definition updates_val {A} (L : list Z) (s : nstate P W) (n : Z) (Q : A → iface → list call → Prop)
    (m : res (A * nstate P W)) : Prop :=
  yields m (λ r, ∃ i' cs, changes L s n i' cs r.2 ∧ Q r.1 i' cs).

Lemma updates_val_ret {A} L s n i (a : A) (Q : A → iface → list call → Prop) :
  ifs s !! n = Some i → env_ok (nworld s) L → Q a i [] → updates_val L s n Q (Ok (a, s)).
Proof. intros Hi He HQ. apply yields_ret. exists i, []. split; [by apply changes_refl|done]. Qed.

Lemma updates_val_bind {A} L s n (Q : A → iface → list call → Prop) R m (f : A * nstate P W → res (nstate P W)) :
  updates_val L s n Q m →
  (∀ a s1 i1 c1, Q a i1 c1 → ifs s1 !! n = Some i1 → env_ok (nworld s1) L →
     updates L s1 n (λ i2 c2, R i2 (c1 ++ c2)) (f (a, s1))) →
  updates L s n R (m ≫= f).
Proof.
  intros Hm Hf. eapply yields_bind; [exact Hm|]. intros [a s1] (i1 & c1 & Hs1 & HQ). cbn in *.
  destruct (Hf a s1 i1 c1 HQ) as (s2 & Hr & i2 & c2 & Hs2 & HR); [by eapply changes_lookup|by destruct Hs1|].
  exists s2. split; [done|]. exists i2, (c1 ++ c2). split; [by eapply changes_trans|done].
Qed.

(** The value is not used. *)
Lemma updates_drop {A} L s n (Q : A → iface → list call → Prop) m :
  updates_val L s n Q m → updates L s n (λ i cs, ∃ a, Q a i cs) ('(_, s) ← m; Ok s).
Proof. intros ([a s'] & -> & i & cs & Hc & HQ). exists s'. split; [done|]. exists i, cs. split; [done|by exists a]. Qed.

Lemma updates_bind_val {A} L s n (Q : iface → list call → Prop) (R : A → iface → list call → Prop) m f :
  updates L s n Q m →
  (∀ s1 i1 c1, Q i1 c1 → ifs s1 !! n = Some i1 → env_ok (nworld s1) L →
     updates_val L s1 n (λ a i2 c2, R a i2 (c1 ++ c2)) (f s1)) →
  updates_val L s n R (m ≫= f).
Proof.
  intros Hm Hf. eapply yields_bind; [exact Hm|]. intros s1 (i1 & c1 & Hs1 & HQ).
  destruct (Hf s1 i1 c1 HQ) as ([a s2] & Hr & i2 & c2 & Hs2 & HR); [by eapply changes_lookup|by destruct Hs1|].
  exists (a, s2). split; [done|]. exists i2, (c1 ++ c2). split; [by eapply changes_trans|done].
Qed.

Lemma updates_getn L s n i (Q : iface → list call → Prop) f : ifs s !! n = Some i →
  updates L s n Q (f i) → updates L s n Q (getn n s ≫= f).
Proof. intros Hi. unfold getn. by rewrite Hi. Qed.

Lemma updates_val_getn {A} L s n i (Q : A → iface → list call → Prop) f : ifs s !! n = Some i →
  updates_val L s n Q (f i) → updates_val L s n Q (getn n s ≫= f).
Proof. intros Hi. unfold getn. by rewrite Hi. Qed.

(** *** What keeps the invariant *)

(** An interface that owns the same structs and has the same number. *)
Definition same_owner (i i' : iface) : Prop := num i' = num i ∧ ptrs i' = ptrs i.

Lemma nums_insert s s' n i i' : ifs s' = <[n := i']> (ifs s) → netif_list s' = netif_list s →
  ifs s !! n = Some i → num i' = num i → nums s' = nums s.
Proof.
  intros Hifs Hl Hi Hn. unfold nums. rewrite Hl, Hifs. apply list_fmap_ext. intros k m Hm.
  destruct (decide (m = n)) as [->|Hne]; [by rewrite lookup_insert_eq, Hi|by rewrite lookup_insert_ne].
Qed.

Lemma held_insert s s' n i i' : ifs s' = <[n := i']> (ifs s) → netif_list s' = netif_list s →
  ifs s !! n = Some i → ptrs i' = ptrs i → held s' = held s.
Proof.
  intros Hifs Hl Hi Hn. unfold held. rewrite Hl, Hifs. f_equal. apply list_fmap_ext. intros k m Hm.
  destruct (decide (m = n)) as [->|Hne]; [by rewrite lookup_insert_eq, Hi|by rewrite lookup_insert_ne].
Qed.

Lemma changes_inv L s n i i' cs s' : net_inv L s → ifs s !! n = Some i → changes L s n i' cs s' →
  same_owner i i' → iface_ok i' → net_inv L s'.
Proof.
  intros [] Hi [] [Hnum Hptr] Hok. split; rewrite ?ch_list0, ?ch_num0, ?ch_default0, ?ch_pool0; try done.
  - intros m j Hm. rewrite ch_ifs0. destruct (decide (m = n)) as [->|Hne].
    + rewrite lookup_insert_eq. by intros [= <-].
    + rewrite lookup_insert_ne by done. by apply ni_ifs0.
  - intros m Hm. rewrite ch_ifs0. destruct (decide (m = n)) as [->|Hne].
    + rewrite lookup_insert_eq. by eexists.
    + rewrite lookup_insert_ne by done. by apply ni_some0.
  - by rewrite (nums_insert s s' n i i').
  - by rewrite (held_insert s s' n i i').
Qed.

Lemma world_inv L s w : net_inv L s → env_ok w L → net_inv L (set_nworld w s).
Proof. by intros [] He. Qed.

Lemma inv_lookup L s n : net_inv L s → n ∈ netif_list s → ∃ i, ifs s !! n = Some i ∧ iface_ok i.
Proof. intros [] Hn. destruct (ni_some0 n Hn) as [i Hi]. exists i. split; [done|]. by eapply ni_ifs0. Qed.

End inv.

(** ** Messages of IGMP *)

(** A message as igmp_send builds it, with the checksum [c]. *)
Definition igmp_bytes (type c group : Z) : list Z := [type; 0] ++ word16 c ++ word32 group.
