(* ===== verification/IgmpFacts.v ===== *)
(** * Multicast groups: the lemmas

    Messages and their checksums, timers and delayed reports of one group, then of the
    list of an interface, and what joining and leaving do to the list and to the pool
    of groups. *)

From S2P Require Import Prelude ByteMem Def IpAddr Ip4Addr MempPool Chksum ChksumFacts Etharp Iface Igmp Netif Autoip IfaceFacts.

(** ** Checksums *)

Lemma chksum_bytes_ok l : Forall is_u8 l → zlen l ≤ 131072 → chksum_bytes l = Ok (65535 - oc (wsum l)).
Proof. intros. apply inet_chksum_ok; [apply mread_mwrite_same|done|done]. Qed.

Lemma word16_bytes c : Forall is_u8 (word16 c).
Proof. unfold word16. repeat constructor; ulia. Qed.

Lemma word32_bytes c : is_u32 c → Forall is_u8 (word32 c).
Proof. intros. unfold word32. repeat constructor; ulia. Qed.

Lemma igmp_bytes_u8 type c group : is_u8 type → is_u32 group → Forall is_u8 (igmp_bytes type c group).
Proof.
  intros. unfold igmp_bytes. rewrite !Forall_app, Forall_cons, Forall_singleton.
  split; [split; [done|unfold is_u8; lia]|]. split; [apply word16_bytes|by apply word32_bytes].
Qed.

(** The checksum of the message without one, and that a message with it verifies. *)
Lemma igmp_checksum type group : is_u8 type → is_u32 group →
  ∃ c, is_u16 c ∧ chksum_bytes (igmp_bytes type 0 group) = Ok c ∧ chksum_bytes (igmp_bytes type c group) = Ok 0.
Proof.
  intros Ht Hg. set (S := wsum (igmp_bytes type 0 group)).
  assert (HS : 0 ≤ S) by (apply wsum_nonneg, igmp_bytes_u8; done).
  pose proof (oc_range S) as Hr. exists (65535 - oc S). split; [unfold is_u16; lia|].
  split; [apply chksum_bytes_ok; [by apply igmp_bytes_u8|done]|].
  rewrite chksum_bytes_ok; [|by apply igmp_bytes_u8|done]. f_equal.
  assert (HS' : ∀ c, is_u16 c → wsum (igmp_bytes type c group) = S + c).
  { intros c Hc. subst S. unfold igmp_bytes, word16, word32. cbn [app wsum]. ulia. }
  rewrite HS' by (unfold is_u16; lia). destruct (oc_spec S HS) as [Hz [k Hk]].
  rewrite (oc_eq _ 65535); [done|lia|lia|split; lia|]. exists k. lia.
Qed.

(** ** One group *)

(** Nothing but the timer and the state of the report changed. *)
Definition same_group (g g' : igmp_group) : Prop :=
  g_ptr g' = g_ptr g ∧ group_address g' = group_address g ∧ guse g' = guse g.

Section world.
Context {W : Type} `{NetEnvLaws W}.
Implicit Types w : W.

(** [w'] is [w] after the calls [cs]. *)
Definition after (L : list Z) (w : W) (cs : list call) (w' : W) : Prop :=
  env_ok w' L ∧ env_log w' = env_log w ++ cs.

Lemma after_refl L w : env_ok w L → after L w [] w.
Proof. intros. split; [done|by rewrite app_nil_r]. Qed.

Lemma after_trans L w1 w2 w3 c1 c2 : after L w1 c1 w2 → after L w2 c2 w3 → after L w1 (c1 ++ c2) w3.
Proof. intros [_ Ha] [He Hb]. split; [done|]. by rewrite Hb, Ha, app_assoc. Qed.

Lemma start_timer_ok L g max w : env_ok w L → 0 ≤ max ≤ 255 →
  ∃ t w', igmp_start_timer g max w = (with_gtimer t g, w') ∧ 1 ≤ t ≤ Z.max 1 (max - 1) ∧ after L w [] w'.
Proof.
  intros He Hm. unfold igmp_start_timer. destruct (2 <? max) eqn:E; breflect.
  - destruct (rand_ok w L He) as (r & w' & -> & Hr & He' & Hl).
    assert (Ha : after L w [] w') by (split; [done|by rewrite app_nil_r]).
    pose proof (Z.mod_pos_bound r max ltac:(lia)). rewrite u16_id by ulia. cbn [gtimer with_gtimer].
    destruct (r mod max =? 0) eqn:E0; breflect; [exists 1, w'|exists (r mod max), w']; (split; [done|]); split; (done || lia).
  - exists 1, w. cbn. split; [done|]. split; [lia|]. by apply after_refl.
Qed.

Lemma delaying_member_ok L g maxresp w : env_ok w L → 0 ≤ maxresp ≤ 255 → group_ok g →
  ∃ g' w', igmp_delaying_member g maxresp w = (g', w') ∧ after L w [] w' ∧ same_group g g' ∧ group_ok g' ∧
    last_reporter_flag g' = last_reporter_flag g ∧
    (member_ok g → member_ok g' ∧ group_state g' = IGMP_GROUP_DELAYING_MEMBER ∧ gtimer g' ≤ Z.max 1 maxresp).
Proof.
  intros He Hm (Ha & Hr & Hs & Ht & Hu). unfold igmp_delaying_member.
  destruct (_ || _) eqn:E.
  - destruct (start_timer_ok L g maxresp w He Hm) as (t & w' & -> & Hb & Haf).
    exists (with_gstate IGMP_GROUP_DELAYING_MEMBER (with_gtimer t g)), w'. split; [done|]. split; [done|].
    split; [done|]. split; [unfold group_ok, with_gstate, with_gtimer, IGMP_GROUP_DELAYING_MEMBER in *; cbn; split_and!; (done || lia)|].
    split; [done|]. intros (Hmc & Hna & _). split; [split; [done|split; [done|left; cbn; split; [done|lia]]]|]. split; [done|]. cbn. lia.
  - exists g, w. split; [done|]. split; [by apply after_refl|]. split; [done|]. split; [done|]. split; [done|].
    intros (Hmc & Hna & Hst). split; [done|]. apply orb_false_iff in E as [E1 E2]. unfold IGMP_GROUP_IDLE_MEMBER, IGMP_GROUP_DELAYING_MEMBER in *. breflect.
    destruct Hst as [[Hst Hp]|[Hst _]]; [|lia]. split; [done|].
    rewrite Hst in E2. change (1 =? 1) with true in E2. cbn [andb] in E2. breflect. lia.
Qed.

(** ** Sending *)

(** The packet of a message. *)
Definition igmp_packet (p n src dest type group : Z) (cs : list call) : Prop :=
  ∃ c, is_u16 c ∧ chksum_bytes (igmp_bytes type c group) = Ok 0 ∧
    cs = [C_ip4_output_if_opt p src dest 1 0 2 n [148; 4; 0; 0] (igmp_bytes type c group)].

Definition igmp_dest (type group : Z) : Z := if type =? IGMP_V2_MEMB_REPORT then group else allrouters.

Lemma list_of_8 (l : list Z) : zlen l = 8 → ∃ a b c d e f g h, l = [a; b; c; d; e; f; g; h].
Proof.
  intros Hl. do 8 (destruct l as [|? l]; [done|]). destruct l; [by do 8 eexists|].
  unfold zlen in Hl. cbn [length] in Hl. lia.
Qed.

Lemma igmp_fill L w p type group : env_ok w L → p ∈ L → (∃ l, pk_bytes p w = Ok l ∧ zlen l = 8) → is_u8 type → is_u32 group →
  ∃ w1 w2 w3 c, pk_store p 4 (word32 group) w = Ok w1 ∧ pk_store p 0 [type; 0; 0; 0] w1 = Ok w2 ∧
    pk_bytes p w2 = Ok (igmp_bytes type 0 group) ∧ chksum_bytes (igmp_bytes type 0 group) = Ok c ∧ is_u16 c ∧
    chksum_bytes (igmp_bytes type c group) = Ok 0 ∧
    pk_store p 2 (word16 c) w2 = Ok w3 ∧ pk_bytes p w3 = Ok (igmp_bytes type c group) ∧ after L w [] w3.
Proof.
  intros He Hp (l & Hl & H8) Ht Hg. destruct (list_of_8 l H8) as (x0 & x1 & x2 & x3 & x4 & x5 & x6 & x7 & ->).
  destruct (igmp_checksum type group Ht Hg) as (c & Hc & Hck & Hver).
  destruct (store_ok w L p 4 (word32 group) _ He Hp Hl) as (w1 & -> & He1 & Hl1 & Hb1); [lia|done|by apply word32_bytes|].
  destruct (store_ok w1 L p 0 [type; 0; 0; 0] _ He1 Hp Hb1) as (w2 & Hst2 & He2 & Hl2 & Hb2);
    [lia|done|repeat constructor; (done || ulia)|].
  destruct (store_ok w2 L p 2 (word16 c) _ He2 Hp Hb2) as (w3 & Hst3 & He3 & Hl3 & Hb3); [lia|done|apply word16_bytes|].
  exists w1, w2, w3, c. split_and!; try done.
  split; [done|]. by rewrite Hl3, Hl2, Hl1, app_nil_r.
Qed.

Lemma igmp_send_ok L n i g type w : env_ok w L → is_u32 (group_address g) →
  type = IGMP_V2_MEMB_REPORT ∨ type = IGMP_LEAVE_GROUP →
  ∃ g' w' cs, igmp_send n i g type w = Ok (g', w') ∧ after L w cs w' ∧
    (cs = [C_pbuf_alloc_NULL] ∧ g' = g ∨
     (∃ p, igmp_packet p n (nip i) (igmp_dest type (group_address g)) type (group_address g) cs) ∧
     g' = if type =? IGMP_V2_MEMB_REPORT then with_reporter 1 g else g).
Proof.
  intros He Hg Hty. unfold igmp_send. destruct (alloc_ok w L He) as (r & w1 & Hal & Hr). rewrite Hal.
  destruct r as [p|]; cbn [mbind res_bind].
  2:{ destruct Hr as [Hl1 He1]. exists g, w1, [C_pbuf_alloc_NULL]. split; [done|]. split; [done|]. by left. }
  destruct Hr as (Hl1 & He1 & l & Hb & H8). rewrite Hb. cbn [mbind res_bind]. rewrite H8. cbn [Z.leb IGMP_MINLEN mbind res_bind LWIP_ASSERT].
  assert (Htu : is_u8 type) by (destruct Hty as [-> | ->]; done).
  destruct (igmp_fill (p :: L) w1 p type (group_address g) He1 (list_elem_of_here _ _)) as
    (w2 & w3 & w4 & c & E2 & E3 & B3 & Hck & Hc & Hver & E4 & B4 & Haf); [by exists l|done|done|].
  destruct (call_ok (C_ip4_output_if_opt p (nip i) (igmp_dest type (group_address g)) 1 0 2 n [148; 4; 0; 0]
    (igmp_bytes type c (group_address g))) w4 _ (proj1 Haf)) as (r5 & w5 & E5 & He5 & Hl5).
  destruct (free_ok w5 L p He5) as (w6 & E6 & He6 & Hl6).
  exists (if type =? IGMP_V2_MEMB_REPORT then with_reporter 1 g else g), w6. eexists. split.
  { destruct Hty as [-> | ->]; cbn [Z.eqb Pos.eqb IGMP_V2_MEMB_REPORT IGMP_LEAVE_GROUP mbind res_bind];
      rewrite E2; cbn [mbind res_bind]; rewrite E3; cbn [mbind res_bind]; rewrite B3; cbn [mbind res_bind];
      change (take (Z.to_nat IGMP_MINLEN) (igmp_bytes ?t 0 ?a)) with (igmp_bytes t 0 a); rewrite Hck; cbn [mbind res_bind];
      rewrite E4; cbn [mbind res_bind]; unfold igmp_ip_output_if; rewrite B4; cbn [mbind res_bind];
      change (word16 (PP_HTONS ROUTER_ALERT) ++ [0; 0]) with [148; 4; 0; 0];
      change IGMP_TTL with 1; change IP_PROTO_IGMP with 2; cbn [igmp_dest Z.eqb Pos.eqb IGMP_V2_MEMB_REPORT IGMP_LEAVE_GROUP] in E5;
      unfold igmp_dest in E5; cbn [Z.eqb Pos.eqb IGMP_V2_MEMB_REPORT IGMP_LEAVE_GROUP] in E5;
      rewrite E5; cbn [mbind res_bind]; rewrite E6; done. }
  destruct Haf as [_ Hl4]. rewrite app_nil_r in Hl4. split; [split; [done|by rewrite Hl6, Hl5, Hl4, Hl1]|].
  right. split; [|done]. exists p, c. done.
Qed.

(** ** The list of an interface *)

(** The report of a group waits at most [m] ticks, the rest of the group is unchanged. *)
Definition delayed (m : Z) (g g' : igmp_group) : Prop :=
  same_group g g' ∧ group_ok g' ∧ last_reporter_flag g' = last_reporter_flag g ∧
  (member_ok g → member_ok g' ∧ group_state g' = IGMP_GROUP_DELAYING_MEMBER ∧ gtimer g' ≤ Z.max 1 m).

Lemma delay_groups_ok L gs m : ∀ w, env_ok w L → 0 ≤ m ≤ 255 → Forall group_ok gs →
  ∃ gs' w', delay_groups gs m w = (gs', w') ∧ after L w [] w' ∧ Forall2 (delayed m) gs gs'.
Proof.
  induction gs as [|g gs IH]; intros w He Hm Hok.
  - exists [], w. split; [done|]. split; [by apply after_refl|constructor].
  - apply Forall_cons in Hok as [Hg Hok]. cbn [delay_groups].
    destruct (delaying_member_ok L g m w He Hm Hg) as (g' & w1 & -> & Ha1 & Hg').
    destruct (IH w1 (proj1 Ha1) Hm Hok) as (gs' & w2 & -> & Ha2 & Hgs').
    exists (g' :: gs'), w2. split; [done|]. split; [exact (after_trans _ _ _ _ [] [] Ha1 Ha2)|].
    constructor; [|done]. destruct Hg' as (? & ? & ? & ?). by split_and!.
Qed.

(** One tick of the timer of a group: [c] are the calls made, and a report is sent,
    unless pbuf_alloc returns NULL, when the timer of a member runs out. *)
Definition ticked (n : Z) (i : iface) (g g' : igmp_group) (c : list call) : Prop :=
  same_group g g' ∧ group_ok g' ∧
  (member_ok g → member_ok g' ∧ gtimer g' = Z.max 0 (gtimer g - 1)) ∧
  (member_ok g → gtimer g = 1 →
     (c = [C_pbuf_alloc_NULL] ∧ last_reporter_flag g' = last_reporter_flag g) ∨
     (∃ p, igmp_packet p n (nip i) (group_address g) IGMP_V2_MEMB_REPORT (group_address g) c) ∧ last_reporter_flag g' = 1) ∧
  (gtimer g ≠ 1 ∨ group_address g = allsystems → c = [] ∧ last_reporter_flag g' = last_reporter_flag g).

Lemma timeout_ok L n i g w : env_ok w L → group_ok g → gtimer g = 1 →
  ∃ g' w' c, igmp_timeout n i (with_gtimer 0 g) w = Ok (g', w') ∧ after L w c w' ∧ ticked n i g g' c.
Proof.
  intros He Hg Ht. pose proof Hg as (Ha & Hr & Hs & _ & Hu). unfold igmp_timeout. cbn [group_state group_address with_gtimer].
  unfold ticked. rewrite Ht. destruct (_ && _) eqn:E; breflect.
  - set (g1 := with_gstate IGMP_GROUP_IDLE_MEMBER (with_gtimer 0 g)).
    destruct (igmp_send_ok L n i g1 IGMP_V2_MEMB_REPORT w He Ha (or_introl eq_refl)) as (g' & w' & c & -> & Haf & Hcase).
    exists g', w', c. split; [done|]. split; [done|].
    assert (Hmo : member_ok g → member_ok g1) by (intros (Hmc & Hna & _); split; [done|split; [done|right; done]]).
    assert (Hgo : group_ok g1).
    { split_and!; try done; try apply Ha; try apply Hr; try apply Hu. }
    destruct Hcase as [[-> ->]|[Hp ->]].
    + split; [done|]. split; [done|]. split; [intros Hm; split; [auto|done]|]. split; [intros; by left|]. by intros [?|?].
    + split; [done|]. split; [split_and!; try done; try apply Ha; apply Hu|].
      split; [intros Hm; split; [by apply Hmo|done]|].
      split; [intros _ _; right; by split|]. by intros [?|?].
  - exists (with_gtimer 0 g), w, []. split; [done|]. split; [by apply after_refl|]. split; [done|].
    split; [split_and!; try done; try apply Ha; try apply Hr; try apply Hu; apply Hs|].
    assert (Hmem : ¬ member_ok g).
    { intros (_ & Hna & [[Hst _]|[_ Hz]]); [|lia]. apply Hna. rewrite Hst in E. cbn [Z.eqb Pos.eqb IGMP_GROUP_DELAYING_MEMBER andb] in E. by breflect. }
    split; [by intros Hm|]. split; [by intros Hm|done].
Qed.

Lemma tmr_group_ok L n i g w : env_ok w L → group_ok g →
  ∃ g' w' c, tmr_group n i g w = Ok (g', w') ∧ after L w c w' ∧ ticked n i g g' c.
Proof.
  intros He Hg. pose proof Hg as (? & ? & ? & Ht & ?). unfold tmr_group. destruct (0 <? gtimer g) eqn:E; breflect.
  - cbn zeta. destruct (decide (gtimer g = 1)) as [E1|E1].
    + rewrite E1. cbn [gtimer with_gtimer Z.sub Z.eqb Z.add Z.opp Z.pos_sub]. by apply timeout_ok.
    + cbn [gtimer with_gtimer]. replace (gtimer g - 1 =? 0) with false by lia.
      exists (with_gtimer (gtimer g - 1) g), w, []. split; [done|]. split; [by apply after_refl|].
      split; [done|]. split; [split_and!; try done; cbn; lia|]. split; [|split; [by intros|done]].
      intros (Hmc & Hna & Hst). split; [|cbn; lia]. split; [done|]. split; [done|]. left. cbn. destruct Hst as [[? ?]|[? ?]]; lia.
  - exists g, w, []. split; [done|]. split; [by apply after_refl|]. split; [done|]. split; [done|].
    split; [intros Hm; split; [done|lia]|]. split; [intros; lia|done].
Qed.

Lemma tmr_groups_ok L n i gs : ∀ w, env_ok w L → Forall group_ok gs →
  ∃ gs' w' css, tmr_groups n i gs w = Ok (gs', w') ∧ after L w (concat css) w' ∧ Forall3 (ticked n i) gs gs' css.
Proof.
  induction gs as [|g gs IH]; intros w He Hok.
  - exists [], w, []. split; [done|]. split; [by apply after_refl|constructor].
  - apply Forall_cons in Hok as [Hg Hok]. cbn [tmr_groups].
    destruct (tmr_group_ok L n i g w He Hg) as (g' & w1 & c & -> & Ha1 & Hg'). cbn [mbind res_bind].
    destruct (IH w1 (proj1 Ha1) Hok) as (gs' & w2 & css & -> & Ha2 & Hgs').
    exists (g' :: gs'), w2, (c :: css). split; [done|]. split; [by eapply after_trans|by constructor].
Qed.

End world.

(** ** Interfaces whose groups were rescheduled *)

Definition resched (g g' : igmp_group) : Prop :=
  same_group g g' ∧ group_ok g' ∧ (member_ok g → member_ok g').

(** [i'] is [i] with other timers, states and reporter flags of its groups. *)
Definition regrouped (i i' : iface) : Prop :=
  ∃ gs', i' = with_igmp gs' i ∧ Forall2 resched (igmp_data i) gs'.

Lemma resched_refl gs : Forall group_ok gs → Forall2 resched gs gs.
Proof. induction 1 as [|g gs Hg _ IH]; constructor; [by split_and!|done]. Qed.

Lemma resched_trans gs1 gs2 gs3 : Forall2 resched gs1 gs2 → Forall2 resched gs2 gs3 → Forall2 resched gs1 gs3.
Proof.
  intros Hab. revert gs3. induction Hab as [|g1 g2 gs1 gs2 ((Hp & Ha & Hu) & Hg & Hm) _ IH]; intros gs3 Hb; [by inversion Hb|].
  apply Forall2_cons_inv_l in Hb as (g3 & gs3' & ((Hp' & Ha' & Hu') & Hg' & Hm') & Hb & ->).
  constructor; [|auto]. split; [split_and!; congruence|]. split; auto.
Qed.

Lemma regrouped_refl i : groups_ok (igmp_data i) → regrouped i i.
Proof. intros [Hg _]. exists (igmp_data i). split; [by destruct i|by apply resched_refl]. Qed.

Lemma regrouped_trans i1 i2 i3 : regrouped i1 i2 → regrouped i2 i3 → regrouped i1 i3.
Proof. intros (g2 & -> & Ha) (g3 & -> & Hb). exists g3. split; [done|]. by eapply resched_trans. Qed.

Lemma resched_ptrs gs gs' : Forall2 resched gs gs' → g_ptr <$> gs' = g_ptr <$> gs.
Proof. induction 1 as [|g g' gs gs' ((Hp & _) & _) _ IH]; [done|]. rewrite !fmap_cons. by rewrite Hp, IH. Qed.

Lemma groups_ok_resched gs gs' : groups_ok gs → Forall2 resched gs gs' → groups_ok gs'.
Proof.
  intros (Hg & Hnd & Hs) Hr. split_and!.
  - clear -Hr. induction Hr as [|g g' gs gs' (_ & Hg & _) _ IH]; by constructor.
  - assert (Ha : group_address <$> gs' = group_address <$> gs); [|by rewrite Ha].
    clear -Hr. induction Hr as [|g g' gs gs' ((_ & Ha & _) & _) _ IH]; [done|]. rewrite !fmap_cons. by rewrite Ha, IH.
  - destruct Hr as [|g g' gs gs' ((_ & Ha & _) & _) Hr]; [done|]. destruct Hs as [Hall Hm].
    split; [congruence|]. clear -Hr Hm. revert Hm. induction Hr as [|h h' gs gs' (_ & _ & Hh) _ IH]; [done|].
    intros [Hm Hms]%Forall_cons. constructor; auto.
Qed.

Lemma regrouped_ok i i' : iface_ok i → regrouped i i' → iface_ok i'.
Proof.
  intros Hok (gs' & -> & Hr). pose proof (io_igmp i Hok) as Hf. split; try apply Hok.
  - by eapply groups_ok_resched; [apply Hok|].
  - intros Hs. cbn [igmp_data with_igmp]. rewrite (Hf Hs) in Hr. by inversion Hr.
Qed.

Lemma regrouped_owner i i' : regrouped i i' → same_owner i i'.
Proof. intros (gs' & -> & Hr). split; [done|]. by apply resched_ptrs. Qed.

Section operations.
Context {P W : Type} `{PoolLaws P} `{NetEnvLaws W}.
Implicit Types s : nstate P W.

Lemma delay_all_ok L gs m w : env_ok w L → 0 ≤ m ≤ 255 → Forall group_ok gs →
  ∃ gs' w', delay_all_but_first gs m w = (gs', w') ∧ after L w [] w' ∧ Forall2 resched gs gs' ∧
    Forall2 (delayed m) (tail gs) (tail gs').
Proof.
  intros He Hm Hok. destruct gs as [|g gs].
  - exists [], w. split; [done|]. split; [by apply after_refl|]. by split.
  - apply Forall_cons in Hok as [Hg Hok]. unfold delay_all_but_first.
    destruct (delay_groups_ok L gs m w He Hm Hok) as (gs' & w' & -> & Ha & Hd).
    exists (g :: gs'), w'. split; [done|]. split; [done|]. split; [|done].
    constructor; [by split_and!|]. eapply Forall2_impl; [exact Hd|]. intros h h' (Hs & Hh & _ & Hmm).
    split; [done|]. split; [done|]. intros Hmem. by apply Hmm.
Qed.

Lemma set_groups_updates L s n i gs w (Q : iface → list call → Prop) cs : ifs s !! n = Some i →
  after L (nworld s) cs w → Q (with_igmp gs i) cs → updates L s n Q (set_groups n gs (set_nworld w s)).
Proof.
  intros Hi [He Hl] HQ. exists (putn n (with_igmp gs i) (set_nworld w s)). unfold set_groups, modn, getn. cbn [ifs set_nworld].
  rewrite Hi. split; [done|]. exists (with_igmp gs i), cs. split; [|done]. by split.
Qed.

Lemma igmp_report_groups_ok L s n i : ifs s !! n = Some i → env_ok (nworld s) L → groups_ok (igmp_data i) →
  updates L s n (λ i' cs, cs = [] ∧ regrouped i i' ∧
     Forall2 (delayed IGMP_JOIN_DELAYING_MEMBER_TMR) (tail (igmp_data i)) (tail (igmp_data i'))) (igmp_report_groups n s).
Proof.
  intros Hi He (Hg & _). unfold igmp_report_groups. eapply updates_getn; [done|].
  destruct (delay_all_ok L (igmp_data i) IGMP_JOIN_DELAYING_MEMBER_TMR (nworld s) He) as (gs' & w' & -> & Ha & Hr & Hd); [done|done|].
  eapply set_groups_updates; [done|done|]. split; [done|]. split; [by exists gs'|done].
Qed.

End operations.
