(* ===== verification/NetifFacts.v ===== *)
(** * Network interfaces: addresses, flags and numbers

    What the operations of netif.c do to an interface and which calls into the rest of
    the stack they make, in which order; the search for a number; finding an interface
    by number and by name. *)

From S2P Require Import Prelude ByteMem Def IpAddr Ip4Addr MempPool Etharp Iface Igmp Netif Autoip IfaceFacts IgmpFacts.

(** ** Flags *)

Lemma nflags_set f i : is_u8 (nflags i) → is_u8 f → nflags (netif_set_flags f i) = Z.lor (nflags i) f.
Proof. intros Hi Hf. cbn. apply u8_id. apply (lor_range 8); done. Qed.

Lemma flag_set_set f g i : is_u8 (nflags i) → is_u8 f →
  flag_set (netif_set_flags f i) g = flag_set i g || negb (Z.land f g =? 0).
Proof.
  intros Hi Hf. unfold flag_set. rewrite nflags_set by done. rewrite Z.land_lor_distr_l.
  destruct (Z.land (nflags i) g =? 0) eqn:E1, (Z.land f g =? 0) eqn:E2; breflect; cbn [negb orb].
  - by rewrite E1, E2.
  - rewrite E1, Z.lor_0_l. by rewrite (proj2 (Z.eqb_neq _ _)).
  - rewrite E2, Z.lor_0_r. by rewrite (proj2 (Z.eqb_neq _ _)).
  - apply negb_true_iff, Z.eqb_neq. intros [? ?]%Z.lor_eq_0_iff. done.
Qed.

Lemma nflags_clear f i : is_u8 (nflags i) → nflags (netif_clear_flags f i) = Z.land (nflags i) (u8 (Z.land (Z.lnot f) 255)).
Proof.
  intros Hi. cbn. apply u8_id. unfold is_u8 in *. split; [apply Z.land_nonneg; lia|].
  rewrite <-(Z.mod_small (nflags i) (2 ^ 8)), <-Z.land_ones, <-Z.land_assoc, (Z.land_comm (Z.ones 8)), Z.land_assoc, Z.land_ones by lia.
  apply Z.mod_pos_bound. lia.
Qed.

Lemma flag_set_clear f g i : is_u8 (nflags i) →
  flag_set (netif_clear_flags f i) g = negb (Z.land (nflags i) (Z.land (u8 (Z.land (Z.lnot f) 255)) g) =? 0).
Proof. intros Hi. unfold flag_set. by rewrite nflags_clear, <-Z.land_assoc. Qed.

(** ** Types of changed interfaces *)

Lemma with_ip_ok a i : is_u32 a → iface_ok i → iface_ok (with_ip a i).
Proof. intros Ha Hok. split; try apply Hok. done. Qed.
Lemma with_mask_ok a i : is_u32 a → iface_ok i → iface_ok (with_mask a i).
Proof. intros Ha Hok. split; try apply Hok. done. Qed.
Lemma with_gw_ok a i : is_u32 a → iface_ok i → iface_ok (with_gw a i).
Proof. intros Ha Hok. split; try apply Hok. done. Qed.
Lemma with_autoip_ok a i : autoip_ok a → iface_ok i → iface_ok (with_autoip (Some a) i).
Proof. intros Ha Hok. split; try apply Hok. by intros b [= <-]. Qed.
Lemma restart_ok i : iface_ok i → iface_ok (nd6_restart_netif i).
Proof. intros Hok. split; try apply Hok. destruct (io_counters i Hok) as (? & _ & ? & ?). by split_and!. Qed.

Lemma set_flags_ok f i : is_u8 f → Z.land f NETIF_FLAG_IGMP = 0 → iface_ok i → iface_ok (netif_set_flags f i).
Proof.
  intros Hf Hg Hok. pose proof (io_flags i Hok) as Hfl. split; try apply Hok.
  - cbn. apply u8_range.
  - intros Hn. apply Hok. rewrite flag_set_set in Hn by done. by apply orb_false_iff in Hn as [? _].
Qed.

Lemma clear_flags_ok f i : Z.land (u8 (Z.land (Z.lnot f) 255)) NETIF_FLAG_IGMP = NETIF_FLAG_IGMP →
  iface_ok i → iface_ok (netif_clear_flags f i).
Proof.
  intros Hg Hok. pose proof (io_flags i Hok) as Hfl. split; try apply Hok.
  - cbn. apply u8_range.
  - intros Hn. apply Hok. by rewrite flag_set_clear, Hg in Hn.
Qed.

#[export] Hint Resolve with_ip_ok with_mask_ok with_gw_ok with_autoip_ok restart_ok : lwip_range.

(** ** Reports *)

(** The calls of netif_issue_reports. *)
Definition report_calls (n : Z) (i : iface) (t : Z) : list call :=
  if flag_set i NETIF_FLAG_LINK_UP && flag_set i NETIF_FLAG_UP then
    (if negb (Z.land t NETIF_REPORT_TYPE_IPV4 =? 0) && negb (ip4_addr_isany_val (nip i)) && flag_set i NETIF_FLAG_ETHARP
     then [C_etharp_gratuitous n (base i)] else []) ++
    (if negb (Z.land t NETIF_REPORT_TYPE_IPV6 =? 0) then [C_mld6_report_groups n] else [])
  else [].

(** The calls that announce a new IPv4 address. *)
Definition addr_changed_calls (old : any_addr) (new : option any_addr) : list call :=
  [C_tcp_netif_ip_addr_changed old new; C_udp_netif_ip_addr_changed old new].

Section operations.
Context {P W : Type} `{PoolLaws P} `{NetEnvLaws W}.
Implicit Types s : nstate P W.

Lemma issue_reports_ok L s n i t : ifs s !! n = Some i → env_ok (nworld s) L → groups_ok (igmp_data i) →
  updates L s n (λ i' cs, regrouped i i' ∧ cs = report_calls n i t) (netif_issue_reports n t s).
Proof.
  intros Hi He Hg. unfold netif_issue_reports, report_calls. eapply updates_getn; [done|].
  destruct (flag_set i NETIF_FLAG_LINK_UP) eqn:El; [|by apply (updates_ret _ _ _ i); auto using regrouped_refl].
  destruct (flag_set i NETIF_FLAG_UP) eqn:Eu; [|by apply (updates_ret _ _ _ i); auto using regrouped_refl].
  cbn [negb orb andb].
  apply (updates_bind _ _ _ (λ i' cs, regrouped i i' ∧ cs =
    if negb (Z.land t NETIF_REPORT_TYPE_IPV4 =? 0) && negb (ip4_addr_isany_val (nip i)) && flag_set i NETIF_FLAG_ETHARP
    then [C_etharp_gratuitous n (base i)] else [])).
  - destruct (negb (Z.land t NETIF_REPORT_TYPE_IPV4 =? 0) && negb (ip4_addr_isany_val (nip i))); cbn [andb];
      [|by apply (updates_ret _ _ _ i); auto using regrouped_refl].
    eapply (updates_bind _ _ _ (λ i' cs, i' = i ∧ cs = if flag_set i NETIF_FLAG_ETHARP then [C_etharp_gratuitous n (base i)] else [])).
    + destruct (flag_set i NETIF_FLAG_ETHARP); [|by apply (updates_ret _ _ _ i)].
      eapply updates_of; [by apply call_changes|done].
    + intros s1 i1 c1 [-> ->] Hi1 He1. destruct (flag_set i NETIF_FLAG_IGMP).
      * eapply updates_mono; [by apply igmp_report_groups_ok|]. intros i' cs (-> & Hr & _). by rewrite app_nil_r.
      * apply (updates_ret _ _ _ i); [done|done|]. split; [by apply regrouped_refl|by rewrite app_nil_r].
  - intros s1 i1 c1 [Hr ->] Hi1 He1. destruct (negb (Z.land t NETIF_REPORT_TYPE_IPV6 =? 0)).
    + eapply updates_of; [by apply call_changes|]. done.
    + apply (updates_ret _ _ _ i1); [done|done|]. by rewrite app_nil_r.
Qed.

Lemma ip_addr_changed_ok L s n i old new : ifs s !! n = Some i → env_ok (nworld s) L →
  updates L s n (λ i' cs, i' = i ∧ cs = addr_changed_calls old new) (netif_do_ip_addr_changed old new s).
Proof.
  intros Hi He. unfold netif_do_ip_addr_changed.
  eapply updates_bind; [by eapply (updates_of _ _ _ i _ (λ j cs, j = i ∧ cs = [C_tcp_netif_ip_addr_changed old new])); [apply call_changes|]|].
  intros s1 i1 c1 [-> ->] Hi1 He1. eapply updates_of; [by apply call_changes|done].
Qed.

(** ** IPv4 addresses *)

Definition set_ip_calls (n : Z) (i : iface) (ip : Z) : list call :=
  if ip =? nip i then []
  else addr_changed_calls (A4 (nip i)) (Some (A4 ip)) ++ report_calls n (with_ip ip i) NETIF_REPORT_TYPE_IPV4.

Lemma do_set_ipaddr_ok L s n i ip : ifs s !! n = Some i → env_ok (nworld s) L → groups_ok (igmp_data i) →
  updates_val L s n (λ r i' cs, r = negb (ip =? nip i) ∧ regrouped (with_ip ip i) i' ∧ cs = set_ip_calls n i ip)
    (netif_do_set_ipaddr n ip s).
Proof.
  intros Hi He Hg. unfold netif_do_set_ipaddr, set_ip_calls. eapply updates_val_getn; [done|].
  destruct (ip =? nip i) eqn:E; cbn [negb].
  - apply (updates_val_ret _ _ _ i); [done|done|]. split; [done|]. split; [|done]. apply Z.eqb_eq in E. subst ip.
    exists (igmp_data i). split; [by destruct i as [[? ? [] ?]]|]. apply resched_refl. apply Hg.
  - eapply updates_bind_val; [by apply ip_addr_changed_ok|]. intros s1 i1 c1 [-> ->] Hi1 He1.
    eapply updates_bind_val.
    { eapply (updates_of _ _ _ (with_ip ip i) [] (λ i' cs, i' = with_ip ip i ∧ cs = [])); [by apply modn_changes|done]. }
    intros s2 i2 c2 [-> ->] Hi2 He2. eapply updates_bind_val; [by apply issue_reports_ok|].
    intros s3 i3 c3 [Hr ->] Hi3 He3. apply (updates_val_ret _ _ _ i3); [done|done|].
    split; [done|]. split; [done|]. cbn [app]. by rewrite app_nil_r.
Qed.

Lemma do_set_netmask_ok L s n i m : ifs s !! n = Some i → env_ok (nworld s) L →
  updates_val L s n (λ r i' cs, r = negb (m =? nmask i) ∧ i' = with_mask m i ∧ cs = []) (netif_do_set_netmask n m s).
Proof.
  intros Hi He. unfold netif_do_set_netmask. eapply updates_val_getn; [done|]. destruct (m =? nmask i) eqn:E; cbn [negb].
  - apply (updates_val_ret _ _ _ i); [done|done|]. split; [done|]. split; [|done]. apply Z.eqb_eq in E. subst m. by destruct i as [[? ? [] ?]].
  - eapply updates_bind_val; [by eapply (updates_of _ _ _ _ _ (λ i' cs, i' = with_mask m i ∧ cs = [])); [apply modn_changes|]|].
    intros s1 i1 c1 [-> ->] Hi1 He1. by apply (updates_val_ret _ _ _ (with_mask m i)).
Qed.

Lemma do_set_gw_ok L s n i g : ifs s !! n = Some i → env_ok (nworld s) L →
  updates_val L s n (λ r i' cs, r = negb (g =? ngw i) ∧ i' = with_gw g i ∧ cs = []) (netif_do_set_gw n g s).
Proof.
  intros Hi He. unfold netif_do_set_gw. eapply updates_val_getn; [done|]. destruct (g =? ngw i) eqn:E; cbn [negb].
  - apply (updates_val_ret _ _ _ i); [done|done|]. split; [done|]. split; [|done]. apply Z.eqb_eq in E. subst g. by destruct i as [[? ? [] ?]].
  - eapply updates_bind_val; [by eapply (updates_of _ _ _ _ _ (λ i' cs, i' = with_gw g i ∧ cs = [])); [apply modn_changes|]|].
    intros s1 i1 c1 [-> ->] Hi1 He1. by apply (updates_val_ret _ _ _ (with_gw g i)).
Qed.

(** The three addresses set. *)
Definition readdressed (ip mask gw : Z) (i : iface) : iface := with_ip ip (with_gw gw (with_mask mask i)).

(** The calls of netif_set_addr: TCP and UDP are told about a change, then the new
    address, unless it is ANY, is announced with netmask and gateway already set. *)
Definition set_addr_calls (n : Z) (i : iface) (ip mask gw : Z) : list call :=
  if ip =? nip i then []
  else addr_changed_calls (A4 (nip i)) (Some (A4 ip)) ++
       report_calls n (readdressed ip mask gw i) NETIF_REPORT_TYPE_IPV4.

Lemma report_calls_any n i : nip i = 0 → report_calls n i NETIF_REPORT_TYPE_IPV4 = [].
Proof.
  intros Hz. unfold report_calls, ip4_addr_isany_val. rewrite Hz. cbn. by destruct (_ && _).
Qed.

Lemma set_addr_ok L s n i ip mask gw : ifs s !! n = Some i → env_ok (nworld s) L → groups_ok (igmp_data i) →
  updates L s n (λ i' cs, regrouped (readdressed (or_any ip) (or_any mask) (or_any gw) i) i' ∧
      cs = set_addr_calls n i (or_any ip) (or_any mask) (or_any gw))
    (netif_set_addr n ip mask gw s).
Proof.
  intros Hi He Hg. unfold netif_set_addr. set (a := or_any ip). set (m := or_any mask). set (g := or_any gw).
  destruct (ip4_addr_isany_val a) eqn:Ea; cbn [negb].
  - eapply updates_bind; [by apply updates_drop, do_set_ipaddr_ok|].
    intros s1 i1 c1 (_ & _ & Hr & ->) Hi1 He1. eapply updates_val_bind; [by apply do_set_netmask_ok|].
    intros r2 s2 i2 c2 (_ & -> & ->) Hi2 He2. eapply updates_val_bind; [by apply do_set_gw_ok|].
    intros r3 s3 i3 c3 (_ & -> & ->) Hi3 He3. apply (updates_ret _ _ _ (with_gw g (with_mask m i1))); [done|done|].
    split; [destruct Hr as (gs & -> & Hr); by exists gs|]. cbn [app]. rewrite app_nil_r. unfold set_ip_calls, set_addr_calls.
    apply Z.eqb_eq in Ea. destruct (a =? nip i); [done|]. f_equal. rewrite !report_calls_any; done.
  - eapply (updates_bind _ _ _ (λ j cs, j = i ∧ cs = [])); [by apply (updates_ret _ _ _ i)|].
    intros s1 i1 c1 [-> ->] Hi1 He1. eapply updates_val_bind; [by apply do_set_netmask_ok|].
    intros r2 s2 i2 c2 (_ & -> & ->) Hi2 He2. eapply updates_val_bind; [by apply do_set_gw_ok|].
    intros r3 s3 i3 c3 (_ & -> & ->) Hi3 He3.
    eapply updates_mono; [by apply updates_drop, do_set_ipaddr_ok|]. intros i4 c4 (_ & _ & Hr & ->). by split.
Qed.

(** ** Up and down *)

Definition set_up_iface (i : iface) : iface :=
  if flag_set i NETIF_FLAG_UP then i else nd6_restart_netif (netif_set_flags NETIF_FLAG_UP i).
Definition set_up_calls (n : Z) (i : iface) : list call :=
  if flag_set i NETIF_FLAG_UP then [] else report_calls n (netif_set_flags NETIF_FLAG_UP i) 3.

Lemma set_up_ok L s n i : ifs s !! n = Some i → env_ok (nworld s) L → groups_ok (igmp_data i) →
  updates L s n (λ i' cs, regrouped (set_up_iface i) i' ∧ cs = set_up_calls n i) (netif_set_up n s).
Proof.
  intros Hi He Hg. unfold netif_set_up, set_up_iface, set_up_calls. eapply updates_getn; [done|].
  destruct (flag_set i NETIF_FLAG_UP) eqn:E; cbn [negb]; [by apply (updates_ret _ _ _ i); auto using regrouped_refl|].
  eapply updates_bind; [by eapply (updates_of _ _ _ _ _ (λ j cs, j = netif_set_flags NETIF_FLAG_UP i ∧ cs = [])); [apply modn_changes|]|].
  intros s1 i1 c1 [-> ->] Hi1 He1. eapply updates_bind; [by apply issue_reports_ok|].
  intros s2 i2 c2 [Hr ->] Hi2 He2. eapply updates_of; [by apply modn_changes|].
  cbn [app]. rewrite app_nil_r. split; [|done]. destruct Hr as (gs & -> & Hr). by exists gs.
Qed.

Definition set_down_calls (n : Z) (i : iface) : list call :=
  (if flag_set (netif_clear_flags NETIF_FLAG_UP i) NETIF_FLAG_ETHARP then [C_etharp_cleanup_netif n] else []) ++
  [C_nd6_cleanup_netif n].

Lemma set_down_ok L s n i : ifs s !! n = Some i → env_ok (nworld s) L →
  updates L s n (λ i' cs, if flag_set i NETIF_FLAG_UP
                          then i' = netif_clear_flags NETIF_FLAG_UP i ∧ cs = set_down_calls n i else i' = i ∧ cs = [])
    (netif_set_down n s).
Proof.
  intros Hi He. unfold netif_set_down, set_down_calls. eapply updates_getn; [done|].
  destruct (flag_set i NETIF_FLAG_UP) eqn:E; [|by apply (updates_ret _ _ _ i)].
  set (i' := netif_clear_flags NETIF_FLAG_UP i).
  eapply updates_bind; [by eapply (updates_of _ _ _ _ _ (λ j cs, j = i' ∧ cs = [])); [apply modn_changes|]|].
  intros s1 i1 c1 [-> ->] Hi1 He1. eapply updates_getn; [done|].
  eapply (updates_bind _ _ _ (λ j cs, j = i' ∧ cs = if flag_set i' NETIF_FLAG_ETHARP then [C_etharp_cleanup_netif n] else [])).
  - destruct (flag_set i' NETIF_FLAG_ETHARP); [|by apply (updates_ret _ _ _ i')].
    by eapply updates_of; [apply call_changes|].
  - intros s2 i2 c2 [-> ->] Hi2 He2. by eapply updates_of; [apply call_changes|].
Qed.

Lemma set_link_down_ok L s n i : ifs s !! n = Some i → env_ok (nworld s) L →
  updates L s n (λ i' cs, i' = (if flag_set i NETIF_FLAG_LINK_UP then netif_clear_flags NETIF_FLAG_LINK_UP i else i) ∧ cs = [])
    (netif_set_link_down n s).
Proof.
  intros Hi He. unfold netif_set_link_down. eapply updates_getn; [done|].
  destruct (flag_set i NETIF_FLAG_LINK_UP) eqn:E; [|by apply (updates_ret _ _ _ i)].
  by eapply updates_of; [apply modn_changes|].
Qed.

(** ** Numbers *)

(** [nr] is the number of one of [ns]. *)
Definition taken (nr : Z) (ns : list Z) s : Prop := nr ∈ (λ n, match ifs s !! n with Some i => num i | None => 0 end) <$> ns.

Lemma num_taken_ok n nr s : ∀ ns k, n ∉ ns → (∀ m, m ∈ ns → is_Some (ifs s !! m)) → 0 ≤ k → k + zlen ns ≤ 255 →
  ∃ b, num_taken n nr ns k s = Ok b ∧ (b = true ↔ taken nr ns s).
Proof.
  induction ns as [|m ns IH]; intros k Hn Hs Hk Hlen.
  - exists false. split; [done|]. split; [done|]. by intros Hin%elem_of_nil.
  - apply not_elem_of_cons in Hn as [Hnm Hn]. cbn [num_taken]. rewrite zlen_cons in Hlen. pose proof (zlen_nonneg ns).
    replace (negb (m =? n)) with true by lia. cbn [LWIP_ASSERT mbind res_bind].
    replace (k + 1 <=? 255) with true by lia. cbn [LWIP_ASSERT mbind res_bind].
    destruct (Hs m) as [i Hi]; [by left|]. unfold getn. rewrite Hi. cbn [deref mbind res_bind].
    assert (Htk : taken nr (m :: ns) s ↔ nr = num i ∨ taken nr ns s) by (unfold taken; by rewrite fmap_cons, Hi, elem_of_cons).
    destruct (num i =? nr) eqn:E; breflect.
    + exists true. split; [done|]. rewrite Htk. split; [by left|done].
    + destruct (IH (k + 1)) as (b & -> & Hb); [done|by intros m' ?; apply Hs; right|lia|lia|].
      exists b. split; [done|]. rewrite Hb, Htk. split; [by right|]. by intros [?|?].
Qed.

(** The numbers are tried in order from [nr] on, modulo 255. *)
Lemma num_search_ok n s : n ∉ netif_list s → (∀ m, m ∈ netif_list s → is_Some (ifs s !! m)) → zlen (netif_list s) ≤ 255 →
  ∀ fuel nr, 0 ≤ nr ≤ 255 →
  (num_search fuel n nr s = Stuck ∧ ∀ j, 0 ≤ j < Z.of_nat fuel → ((nr + j) mod 255) ∈ nums s) ∨
  (∃ k, 0 ≤ k < Z.of_nat fuel ∧ num_search fuel n nr s = Ok ((nr + k) mod 255) ∧ ¬ ((nr + k) mod 255 ∈ nums s) ∧
     ∀ j, 0 ≤ j < k → ((nr + j) mod 255) ∈ nums s).
Proof.
  intros Hn Hs Hlen. induction fuel as [|fuel IH]; intros nr Hnr; [left; split; [done|lia]|].
  cbn [num_search]. assert (Hc : (if nr =? 255 then 0 else nr) = nr mod 255) by (destruct (nr =? 255) eqn:E; zlia).
  rewrite Hc. destruct (num_taken_ok n (nr mod 255) s (netif_list s) 0) as (b & -> & Hb); [done..|lia|].
  cbn [mbind res_bind]. change (taken (nr mod 255) (netif_list s) s) with ((nr mod 255) ∈ nums s) in Hb.
  pose proof (Z.mod_pos_bound nr 255 ltac:(lia)) as Hr.
  assert (Hshift : ∀ j, (u8 (nr mod 255 + 1) + j) mod 255 = (nr + (j + 1)) mod 255).
  { intros j. rewrite u8_id by ulia. rewrite <-Z.add_assoc, Z.add_mod_idemp_l by lia. f_equal. lia. }
  destruct b.
  - destruct (IH (u8 (nr mod 255 + 1))) as [[Hst Hall]|(k & Hk & Hr' & Hfree & Hall)]; [ulia| |].
    + left. split; [done|]. intros j Hj. destruct (decide (j = 0)) as [->|Hj0]; [rewrite Z.add_0_r; by apply Hb|].
      specialize (Hall (j - 1) ltac:(lia)). rewrite Hshift in Hall. by replace (j - 1 + 1) with j in Hall by lia.
    + right. exists (k + 1). rewrite Hshift in Hr', Hfree. split; [lia|]. split; [done|]. split; [done|].
      intros j Hj. destruct (decide (j = 0)) as [->|Hj0]; [rewrite Z.add_0_r; by apply Hb|].
      specialize (Hall (j - 1) ltac:(lia)). rewrite Hshift in Hall. by replace (j - 1 + 1) with j in Hall by lia.
  - right. exists 0. rewrite Z.add_0_r. split; [lia|]. split; [done|]. split; [intros Hin; by apply Hb in Hin|lia].
Qed.

Lemma all_numbers_used l : (∀ k, 0 ≤ k < 255 → k ∈ l) → 255 ≤ zlen l.
Proof.
  intros Hall. assert (Hsub : seqZ 0 255 ⊆+ l).
  { apply NoDup_submseteq; [apply NoDup_seqZ|]. intros x Hx%elem_of_seqZ. apply Hall. lia. }
  apply submseteq_length in Hsub. rewrite length_seqZ in Hsub. unfold zlen. lia.
Qed.

Lemma num_search_free n s nr : n ∉ netif_list s → (∀ m, m ∈ netif_list s → is_Some (ifs s !! m)) → zlen (netif_list s) ≤ 254 →
  0 ≤ nr ≤ 255 → ∃ r, num_search num_fuel n nr s = Ok r ∧ 0 ≤ r ≤ 254 ∧ r ∉ nums s.
Proof.
  intros Hn Hs Hlen Hnr. destruct (num_search_ok n s Hn Hs ltac:(lia) num_fuel nr Hnr) as [[_ Hall]|(k & Hk & -> & Hf & _)].
  - exfalso. assert (255 ≤ zlen (nums s)); [|assert (Hl : zlen (nums s) = zlen (netif_list s)) by (unfold nums, zlen; by rewrite length_fmap); lia].
    apply all_numbers_used. intros v Hv. specialize (Hall ((v - nr) mod 255)).
    rewrite Z.add_mod_idemp_r in Hall by lia. replace (nr + (v - nr)) with v in Hall by lia.
    rewrite (Z.mod_small v) in Hall by lia. apply Hall. pose proof (Z.mod_pos_bound (v - nr) 255 ltac:(lia)). unfold num_fuel. lia.
  - exists ((nr + k) mod 255). split; [done|]. split; [|done]. pose proof (Z.mod_pos_bound (nr + k) 255 ltac:(lia)). lia.
Qed.

End operations.
