(* ===== verification/IfaceInv.v ===== *)
(** * Network interfaces: operations that keep the invariant

    Joining and leaving groups, adding and removing interfaces: the structs of the
    groups are taken from and given back to their pool, so that the pool hands out
    exactly the groups of the interfaces in the list. *)

From S2P Require Import Prelude ByteMem Def IpAddr Ip4Addr MempPool Etharp Iface Igmp Netif Autoip IfaceFacts IgmpFacts NetifFacts.

(** ** Lists of groups *)

Lemma lookfor_Some gs a g : igmp_lookfor_group gs a = Some g → g ∈ gs ∧ group_address g = a.
Proof. intros [Hin Ha]%List.find_some. split; [by apply list_elem_of_In|lia]. Qed.

Lemma lookfor_None gs a : igmp_lookfor_group gs a = None → a ∉ group_address <$> gs.
Proof.
  intros Hn Hin. apply list_elem_of_fmap in Hin as (g & -> & Hg).
  pose proof (List.find_none _ _ Hn g (proj1 (list_elem_of_In _ _) Hg)) as Hf. cbn in Hf. lia.
Qed.

Lemma lookfor_cons g gs a :
  igmp_lookfor_group (g :: gs) a = if group_address g =? a then Some g else igmp_lookfor_group gs a.
Proof. done. Qed.

Lemma group_at_Some gs gp g : group_at gp gs = Some g → g ∈ gs ∧ g_ptr g = gp.
Proof. intros [Hin Ha]%List.find_some. split; [by apply list_elem_of_In|lia]. Qed.

Lemma group_at_elem gs g : NoDup (g_ptr <$> gs) → g ∈ gs → group_at (g_ptr g) gs = Some g.
Proof.
  induction gs as [|h gs IH]; intros Hnd Hin; [by apply elem_of_nil in Hin|].
  rewrite fmap_cons in Hnd. apply NoDup_cons in Hnd as [Hh Hnd]. unfold group_at. cbn [List.find].
  apply elem_of_cons in Hin as [->|Hin]; [by rewrite Z.eqb_refl|].
  destruct (g_ptr h =? g_ptr g) eqn:E; breflect; [|by apply IH].
  exfalso. apply Hh. rewrite E. by apply list_elem_of_fmap_2.
Qed.

Lemma upd_group_fmap gs g f {B} (p : igmp_group → B) : NoDup (g_ptr <$> gs) → g ∈ gs → p (f g) = p g →
  p <$> upd_group (g_ptr g) f gs = p <$> gs.
Proof.
  intros Hnd Hg Hp. unfold upd_group. rewrite <-list_fmap_compose. apply list_fmap_ext. intros k h Hk. cbn.
  destruct (g_ptr h =? g_ptr g) eqn:E; [|done]. breflect.
  assert (h = g) as ->; [|done].
  pose proof (group_at_elem gs g Hnd Hg) as Ha. pose proof (group_at_elem gs h Hnd (list_elem_of_lookup_2 _ _ _ Hk)) as Hb. congruence.
Qed.

(** A pointwise change of the group [g] to [f g]. *)
Lemma upd_group_Forall2 gs g f (R : igmp_group → igmp_group → Prop) : NoDup (g_ptr <$> gs) → g ∈ gs →
  R g (f g) → (∀ h, h ∈ gs → R h h) → Forall2 R gs (upd_group (g_ptr g) f gs).
Proof.
  intros Hnd Hg Hf Hr. unfold upd_group. apply Forall2_fmap_r, Forall_Forall2_diag, Forall_forall.
  intros h Hh. destruct (g_ptr h =? g_ptr g) eqn:E; cbn; rewrite E; [|by apply Hr]. breflect. assert (h = g) as ->; [|done].
  pose proof (group_at_elem gs g Hnd Hg). pose proof (group_at_elem gs h Hnd Hh). congruence.
Qed.

Lemma lookfor_upd gs a g f b : NoDup (g_ptr <$> gs) → igmp_lookfor_group gs a = Some g → group_address (f g) = a →
  igmp_lookfor_group (upd_group (g_ptr g) f gs) b = if b =? a then Some (f g) else igmp_lookfor_group gs b.
Proof.
  induction gs as [|h gs IH]; intros Hnd Hl Hf; [done|]. rewrite fmap_cons in Hnd. apply NoDup_cons in Hnd as [Hh Hnd].
  rewrite lookfor_cons in Hl. unfold upd_group. rewrite fmap_cons. fold (upd_group (g_ptr g) f gs). rewrite !lookfor_cons.
  destruct (group_address h =? a) eqn:Ea; breflect.
  - injection Hl as ->. rewrite Z.eqb_refl, Hf. rewrite (Z.eqb_sym a b). destruct (b =? a) eqn:Eb; [done|].
    rewrite Ea, (Z.eqb_sym a b), Eb. assert (upd_group (g_ptr g) f gs = gs) as ->; [|done].
    unfold upd_group. rewrite <-(list_fmap_id gs) at 2. apply list_fmap_ext. intros k x Hx. cbn.
    destruct (g_ptr x =? g_ptr g) eqn:E; [|done]. breflect. exfalso. apply Hh. rewrite <-E.
    apply list_elem_of_fmap_2. by eapply list_elem_of_lookup_2.
  - pose proof (lookfor_Some _ _ _ Hl) as [Hin Hg]. destruct (g_ptr h =? g_ptr g) eqn:E; breflect.
    { exfalso. apply Hh. rewrite E. by apply list_elem_of_fmap_2. }
    rewrite IH by done. destruct (group_address h =? b) eqn:Eb, (b =? a) eqn:Eba; breflect; [congruence|done..].
Qed.

Lemma remove_group_ok g0 gs g : NoDup (g_ptr <$> g0 :: gs) → g ∈ gs →
  ∃ gs', remove_group_loop (g_ptr g) (g0 :: gs) = Some (g0 :: gs') ∧ gs ≡ₚ g :: gs' ∧
    ∀ b, NoDup (group_address <$> gs) → igmp_lookfor_group gs' b =
      if b =? group_address g then None else igmp_lookfor_group gs b.
Proof.
  revert g0. induction gs as [|h gs IH]; intros g0 Hnd Hin; [by apply elem_of_nil in Hin|].
  cbn [remove_group_loop]. rewrite fmap_cons in Hnd. apply NoDup_cons in Hnd as [_ Hnd].
  destruct (g_ptr h =? g_ptr g) eqn:E; breflect.
  - assert (h = g) as ->.
    { pose proof (group_at_elem _ g Hnd Hin). pose proof (group_at_elem _ h Hnd (list_elem_of_here _ _)). congruence. }
    exists gs. split; [done|]. split; [done|]. intros b Ha. rewrite fmap_cons in Ha. apply NoDup_cons in Ha as [Hng _].
    rewrite lookfor_cons, (Z.eqb_sym (group_address g) b). destruct (b =? group_address g) eqn:Eb; [|done]. breflect. subst b.
    destruct (igmp_lookfor_group gs (group_address g)) as [x|] eqn:El; [|done]. apply lookfor_Some in El as [Hx Hax].
    exfalso. apply Hng. rewrite <-Hax. by apply list_elem_of_fmap_2.
  - apply elem_of_cons in Hin as [->|Hin]; [done|]. destruct (IH h Hnd Hin) as (gs' & Hr & Hp & Hl).
    cbn [remove_group_loop] in Hr. rewrite Hr. cbn [mbind option_bind]. exists (h :: gs'). split; [done|].
    split; [by rewrite Hp, Permutation_swap|]. intros b Ha. rewrite fmap_cons in Ha. apply NoDup_cons in Ha as [Hh Ha].
    rewrite !lookfor_cons, (Hl b Ha). destruct (group_address h =? b) eqn:E1, (b =? group_address g) eqn:E2; breflect; try done.
    exfalso. apply Hh. replace (group_address h) with (group_address g) by lia. by apply list_elem_of_fmap_2.
Qed.

(** ** Ownership *)

Section inv.
Context {P W : Type} `{PoolLaws P} `{NetEnvLaws W}.
Implicit Types s : nstate P W.

Lemma held_split s n i : NoDup (netif_list s) → n ∈ netif_list s → ifs s !! n = Some i →
  ∃ R, held s ≡ₚ ptrs i ++ R ∧
    (∀ s' i', ifs s' = <[n := i']> (ifs s) → netif_list s' = netif_list s → held s' ≡ₚ ptrs i' ++ R) ∧
    (∀ s', (∀ m, m ≠ n → ifs s' !! m = ifs s !! m) → (∃ l, netif_list s ≡ₚ n :: l ∧ netif_list s' ≡ₚ l) → held s' ≡ₚ R).
Proof.
  intros Hnd Hn Hi. apply list_elem_of_split in Hn as (l1 & l2 & Hl). rewrite Hl in Hnd.
  apply NoDup_app in Hnd as (_ & Hd & [Hn2 _]%NoDup_cons).
  assert (Hn1 : n ∉ l1) by (intros Hin; apply (Hd n Hin); left).
  set (f := λ (s : nstate P W) n, match ifs s !! n with Some i => ptrs i | None => [] end).
  assert (Hext : ∀ s' (l : list Z), n ∉ l → (∀ m, m ≠ n → ifs s' !! m = ifs s !! m) → f s' <$> l = f s <$> l).
  { intros s' l Hnl Hsame. apply list_fmap_ext. intros k m Hm. unfold f. rewrite Hsame; [done|].
    intros ->. apply Hnl. by eapply list_elem_of_lookup_2. }
  exists (concat (f s <$> l1) ++ concat (f s <$> l2)). split_and!.
  - unfold held. fold (f s). rewrite Hl, fmap_app, fmap_cons, concat_app. cbn [concat]. unfold f at 2. rewrite Hi. by rewrite Permutation_app_swap_app.
  - intros s' i' Hifs Hlist. unfold held. fold (f s'). rewrite Hlist, Hl, fmap_app, fmap_cons, concat_app. cbn [concat].
    rewrite !(Hext s') by (try done; intros; rewrite Hifs; by apply lookup_insert_ne).
    unfold f at 2. rewrite Hifs, lookup_insert_eq. by rewrite Permutation_app_swap_app.
  - intros s' Hsame (l & Hp & Hp'). unfold held. fold (f s').
    assert (Hll : l ≡ₚ l1 ++ l2) by (apply (Permutation_cons_inv (a := n)); rewrite <-Hp, Hl; by rewrite Permutation_middle).
    rewrite Hp', Hll, fmap_app, concat_app. by rewrite !(Hext s').
Qed.

(** A change of one interface that takes structs from the pool or gives them back. *)
Lemma owner_inv L s s' n i i' : net_inv L s → n ∈ netif_list s → ifs s !! n = Some i →
  ifs s' = <[n := i']> (ifs s) → netif_list s' = netif_list s → netif_default s' = netif_default s → netif_num s' = netif_num s →
  env_ok (nworld s') L → iface_ok i' → num i' = num i →
  (∀ R, held s ≡ₚ ptrs i ++ R → pool_ok (gpool s) (ptrs i ++ R) → pool_ok (gpool s') (ptrs i' ++ R)) → net_inv L s'.
Proof.
  intros Hinv Hn Hi Hifs Hl Hd Hnn He Hok Hnum Hpool. pose proof Hinv as [].
  destruct (held_split s n i ni_nodup Hn Hi) as (R & HR & HR' & _).
  split; rewrite ?Hl, ?Hd, ?Hnn; try done.
  - intros m j Hm. rewrite Hifs. destruct (decide (m = n)) as [->|Hne].
    + rewrite lookup_insert_eq. by intros [= <-].
    + rewrite lookup_insert_ne by done. by apply ni_ifs.
  - intros m Hm. rewrite Hifs. destruct (decide (m = n)) as [->|Hne].
    + rewrite lookup_insert_eq. by eexists.
    + rewrite lookup_insert_ne by done. by apply ni_some.
  - by rewrite (nums_insert s s' n i i').
  - eapply pool_perm; [symmetry; by apply HR'|]. apply Hpool; [done|]. by eapply pool_perm.
Qed.

(** A change of a struct that is not in the list. *)
Lemma unlisted_inv L s s' n i' cs : net_inv L s → n ∉ netif_list s → changes L s n i' cs s' → net_inv L s'.
Proof.
  intros [] Hn []. assert (Hsame : ∀ m, m ∈ netif_list s → ifs s' !! m = ifs s !! m).
  { intros m Hm. rewrite ch_ifs. apply lookup_insert_ne. by intros ->. }
  assert (Hheld : held s' = held s).
  { unfold held. rewrite ch_list. f_equal. apply list_fmap_ext. intros k m Hm. rewrite Hsame; [done|]. by eapply list_elem_of_lookup_2. }
  assert (Hnums : nums s' = nums s).
  { unfold nums. rewrite ch_list. apply list_fmap_ext. intros k m Hm. rewrite Hsame; [done|]. by eapply list_elem_of_lookup_2. }
  split; rewrite ?ch_list, ?ch_default, ?ch_num, ?ch_pool, ?Hheld, ?Hnums; try done.
  - intros m j Hm. rewrite Hsame by done. by apply ni_ifs.
  - intros m Hm. rewrite Hsame by done. by apply ni_some.
Qed.

End inv.
