(* ===== verification/IgmpMembers.v ===== *)
(** * Joining and leaving multicast groups

    What igmp_start, igmp_stop, igmp_joingroup_netif and igmp_leavegroup_netif do to an
    interface, to the pool of groups and to the network. *)

From S2P Require Import Prelude ByteMem Def IpAddr Ip4Addr MempPool Etharp Iface Igmp Netif Autoip IfaceFacts IgmpFacts NetifFacts IfaceInv.

Definition filter_calls (n : Z) (i : iface) (a : Z) (act : mac_filter_action) : list call :=
  if igmp_mac_filter i then [C_igmp_mac_filter n a act] else [].

Lemma upd_group_cons gp f g gs : upd_group gp f (g :: gs) = (if g_ptr g =? gp then f g else g) :: upd_group gp f gs.
Proof. done. Qed.

Lemma upd_group_notin gp f gs : gp ∉ g_ptr <$> gs → upd_group gp f gs = gs.
Proof.
  induction gs as [|g gs IH]; [done|]. rewrite fmap_cons. intros [Hg Hgs]%not_elem_of_cons.
  rewrite upd_group_cons, IH by done. by replace (g_ptr g =? gp) with false by lia.
Qed.

Lemma group_ok_use v g : is_u8 v → group_ok g → group_ok (with_use v g).
Proof. unfold group_ok. cbn. tauto. Qed.

Section operations.
Context {P W : Type} `{PoolLaws P} `{NetEnvLaws W}.
Implicit Types s : nstate P W.

(** A message for the group [a] was sent, or pbuf_alloc returned NULL for it. *)
Definition report_or_nothing (n src dest type a : Z) (cs : list call) : Prop :=
  cs = [C_pbuf_alloc_NULL] ∨ ∃ p, igmp_packet p n src dest type a cs.

Lemma mac_filter_ok L s n i j a act : ifs s !! n = Some i → env_ok (nworld s) L →
  updates L s n (λ i' cs, i' = i ∧ cs = filter_calls n j a act) (mac_filter n j a act s).
Proof.
  intros Hi He. unfold mac_filter, filter_calls. destruct (igmp_mac_filter j); [|by apply (updates_ret _ _ _ i)].
  by eapply updates_of; [apply call_changes|].
Qed.

(** *** Pointers are unique *)

Lemma inv_ptrs L s n i : net_inv L s → n ∈ netif_list s → ifs s !! n = Some i → NoDup (ptrs i).
Proof.
  intros Hinv Hn Hi. destruct (held_split s n i (ni_nodup _ _ Hinv) Hn Hi) as (R & HR & _).
  pose proof (pool_nodup _ _ (ni_pool _ _ Hinv)) as Hnd. rewrite HR in Hnd. by apply NoDup_app in Hnd as [? _].
Qed.

(** *** igmp_lookup_group *)

(** A new group is the first after the group of all systems. *)
Definition add_group (g : igmp_group) (gs : list igmp_group) : list igmp_group :=
  match gs with [] => [g] | h :: t => h :: g :: t end.

Definition new_group (a addr : Z) : igmp_group := Group a addr 0 IGMP_GROUP_NON_MEMBER 0 0.

Lemma lookup_group_ok L s n i addr : net_inv L s → n ∈ netif_list s → ifs s !! n = Some i →
  (igmp_data i = [] ↔ addr = allsystems) ∨ is_Some (igmp_lookfor_group (igmp_data i) addr) →
  (∃ g, igmp_lookfor_group (igmp_data i) addr = Some g ∧ igmp_lookup_group n addr s = Ok (Some (g_ptr g), s)) ∨
  (igmp_lookfor_group (igmp_data i) addr = None ∧ igmp_lookup_group n addr s = Ok (None, s)) ∨
  (∃ a p, igmp_lookfor_group (igmp_data i) addr = None ∧
     igmp_lookup_group n addr s = Ok (Some a, putn n (with_igmp (add_group (new_group a addr) (igmp_data i)) i) (set_gpool p s)) ∧
     ¬ a ∈ ptrs i ∧ ∀ R, pool_ok (gpool s) R → pool_ok p (a :: R)).
Proof.
  intros Hinv Hn Hi Hlk. unfold igmp_lookup_group, getn. rewrite Hi. cbn [deref mbind res_bind].
  destruct (igmp_lookfor_group (igmp_data i) addr) as [g|] eqn:El; [left; by exists g|]. right.
  destruct Hlk as [Hlk|[x [=]]].
  destruct (pool_malloc_ok _ _ (ni_pool _ _ Hinv)) as (r & p & Hm & Hr). rewrite Hm. cbn [mbind res_bind].
  destruct r as [a|]; [right|left; split; [done|]; subst p; by destruct s]. exists a, p. split; [done|].
  destruct (held_split s n i (ni_nodup _ _ Hinv) Hn Hi) as (R0 & HR0 & _).
  split_and!.
  - unfold set_groups, modn, getn. cbn [ifs set_gpool].
    destruct (igmp_data i) as [|h t] eqn:Ed.
    + replace (addr =? allsystems) with true by (symmetry; apply Z.eqb_eq; by apply Hlk).
      cbn [LWIP_ASSERT mbind res_bind]. rewrite Hi. done.
    + replace (addr =? allsystems) with false by (symmetry; apply Z.eqb_neq; by intros ?%Hlk).
      cbn [negb LWIP_ASSERT mbind res_bind]. rewrite Hi. done.
  - pose proof (pool_nodup _ _ Hr) as Hnd. rewrite HR0 in Hnd. apply NoDup_cons in Hnd as [Ha _]. set_solver.
  - intros R HR. destruct (pool_malloc_ok (gpool s) R HR) as (r' & p' & Hm' & Hr'). rewrite Hm in Hm'. by injection Hm' as <- <-.
Qed.

(** *** igmp_start *)

(** The interface after igmp_start. *)
Definition started (a : Z) (i : iface) : iface :=
  with_igmp [Group a allsystems 0 IGMP_GROUP_IDLE_MEMBER 0 1] i.

Lemma igmp_start_ok L s n i : net_inv L s → n ∈ netif_list s → ifs s !! n = Some i → igmp_data i = [] →
  flag_set i NETIF_FLAG_IGMP = true →
  yields (igmp_start n s) (λ r, net_inv L r.2 ∧ netif_list r.2 = netif_list s ∧
    ((r.1 = ERR_MEM ∧ r.2 = s) ∨
     (∃ a, r.1 = ERR_OK ∧ ifs r.2 = <[n := started a i]> (ifs s) ∧
        env_log (nworld r.2) = env_log (nworld s) ++ filter_calls n i allsystems NETIF_ADD_MAC_FILTER))).
Proof.
  intros Hinv Hn Hi Hd Hf. unfold igmp_start.
  destruct (lookup_group_ok L s n i allsystems Hinv Hn Hi) as [(g & Hg & _)|[[_ ->]|(a & p & _ & -> & _ & Hpool)]].
  { left. by rewrite Hd. } { by rewrite Hd in Hg. }
  { apply yields_ret. split; [done|]. split; [done|]. by left. }
  cbn [mbind res_bind]. set (i1 := with_igmp (add_group (new_group a allsystems) (igmp_data i)) i).
  set (s1 := putn n i1 (set_gpool p s)). assert (Hi1 : ifs s1 !! n = Some i1) by apply lookup_insert_eq.
  assert (He1 : env_ok (nworld s1) L) by apply Hinv.
  assert (Hup : updates_val L s1 n (λ r i' cs, r = ERR_OK ∧ i' = started a i ∧ cs = filter_calls n i allsystems NETIF_ADD_MAC_FILTER)
    (i ← getn n s1;
     s ← set_groups n (upd_group a (λ g, with_use (u8 (guse g + 1)) (with_gstate IGMP_GROUP_IDLE_MEMBER g)) (igmp_data i)) s1;
     s ← mac_filter n i allsystems NETIF_ADD_MAC_FILTER s; Ok (ERR_OK, s))).
  { eapply updates_val_getn; [done|]. eapply updates_bind_val.
    { eapply (updates_of _ _ _ _ _ (λ j cs, j = started a i ∧ cs = [])); [by apply modn_changes|]. split; [|done].
      subst i1. rewrite Hd. unfold upd_group. cbn. by rewrite Z.eqb_refl. }
    intros s2 i2 c2 [-> ->] Hi2 He2. eapply updates_bind_val; [by apply mac_filter_ok|].
    intros s3 i3 c3 [-> ->] Hi3 He3. apply (updates_val_ret _ _ _ (started a i)); [done|done|]. by rewrite app_nil_r. }
  eapply yields_mono; [exact Hup|]. intros [r s'] (i' & cs & Hch & -> & -> & ->). cbn [fst snd] in *. pose proof Hch as [].
  assert (Hifs : ifs s' = <[n := started a i]> (ifs s)) by (rewrite ch_ifs; apply insert_insert_eq).
  split; [|split; [done|right; exists a; done]].
  pose proof (ni_ifs _ _ Hinv n i Hn Hi) as Hok.
  apply (owner_inv L s s' n i (started a i)); try done.
  - split; try apply Hok; [|intros Hf'; change (flag_set i NETIF_FLAG_IGMP = false) in Hf'; congruence]. split; [|split; [apply NoDup_singleton|done]].
    apply Forall_singleton. by repeat split.
  - intros R _ HR. rewrite ch_pool. unfold ptrs in *. rewrite Hd in HR. by apply Hpool.
Qed.

(** *** igmp_joingroup_netif *)

(** What joining [a] does to the interface: the group gets one more user, or it is new,
    with one user, its report sent (unless there is no memory) and to be repeated. *)
Definition joined (n a : Z) (i i' : iface) (cs : list call) : Prop :=
  match igmp_lookfor_group (igmp_data i) a with
  | Some g => i' = with_igmp (upd_group (g_ptr g) (λ g, with_use (u8 (guse g + 1)) g) (igmp_data i)) i ∧ cs = []
  | None =>
      ∃ ptr rep t cs', i' = with_igmp (add_group (Group ptr a rep IGMP_GROUP_DELAYING_MEMBER t 1) (igmp_data i)) i ∧
        1 ≤ t ≤ 4 ∧ cs = filter_calls n i a NETIF_ADD_MAC_FILTER ++ cs' ∧
        (rep = 0 ∧ cs' = [C_pbuf_alloc_NULL] ∨ rep = 1 ∧ ∃ p, igmp_packet p n (nip i) a IGMP_V2_MEMB_REPORT a cs')
  end.

(** The interface can join groups: it does IGMP and has the group of all systems. *)
Definition can_join (i : iface) : Prop := flag_set i NETIF_FLAG_IGMP = true ∧ igmp_data i ≠ [].

Lemma allsystems_first i h t g : groups_ok (igmp_data i) → igmp_data i = h :: t → g ∈ igmp_data i →
  group_address g ≠ allsystems → g ∈ t ∧ member_ok g.
Proof.
  intros (_ & _ & Hs) Hd Hg Hne. rewrite Hd in *. destruct Hs as [Hh Hm]. apply elem_of_cons in Hg as [->|Hg]; [done|].
  split; [done|]. by eapply Forall_forall in Hm.
Qed.

(** The use count of a group may change freely. *)
Lemma use_ok i g (v : igmp_group → Z) : iface_ok i → NoDup (ptrs i) → g ∈ igmp_data i → (∀ h, is_u8 (v h)) →
  iface_ok (with_igmp (upd_group (g_ptr g) (λ h, with_use (v h) h) (igmp_data i)) i).
Proof.
  intros Hok Hnd Hg Hv. pose proof (io_groups i Hok) as (Hgs & Ha & Hs). split; try apply Hok.
  - cbn [igmp_data with_igmp]. split_and!.
    + unfold upd_group. apply Forall_fmap. eapply Forall_impl; [exact Hgs|]. intros h Hh.
      unfold compose. destruct (_ =? _); [by apply group_ok_use|done].
    + by rewrite upd_group_fmap.
    + unfold upd_group. destruct (igmp_data i) as [|h t]; [done|]. rewrite fmap_cons. destruct Hs as [Hh Ht].
      split; [by destruct (_ =? _)|]. apply Forall_fmap. eapply Forall_impl; [exact Ht|]. intros x Hx.
      unfold compose. by destruct (_ =? _).
  - intros Hf. change (flag_set i NETIF_FLAG_IGMP = false) in Hf. cbn [igmp_data with_igmp]. by rewrite (io_igmp i Hok Hf).
Qed.

Lemma use_ptrs i g f : NoDup (ptrs i) → g ∈ igmp_data i → g_ptr (f g) = g_ptr g →
  ptrs (with_igmp (upd_group (g_ptr g) f (igmp_data i)) i) = ptrs i.
Proof. intros Hnd Hg Hf. unfold ptrs. cbn [igmp_data with_igmp]. by apply upd_group_fmap. Qed.

(** Joining a group that is there already. *)
Lemma join_existing L s n i a g : net_inv L s → n ∈ netif_list s → ifs s !! n = Some i → a ≠ allsystems →
  igmp_lookfor_group (igmp_data i) a = Some g → can_join i → ip4_addr_ismulticast a = true →
  igmp_joingroup_netif n a s =
    Ok (ERR_OK, putn n (with_igmp (upd_group (g_ptr g) (λ g, with_use (u8 (guse g + 1)) g) (igmp_data i)) i) s).
Proof.
  intros Hinv Hn Hi Ha Hg [Hf Hd] Hm. unfold igmp_joingroup_netif. rewrite Hm.
  replace (negb (a =? allsystems)) with true by lia. cbn [LWIP_ASSERT mbind res_bind].
  rewrite (getn_Some _ _ _ Hi). cbn [mbind res_bind]. rewrite Hf. cbn [LWIP_ASSERT mbind res_bind].
  destruct (lookup_group_ok L s n i a Hinv Hn Hi) as [(g' & Hg' & ->)|[[Hg' _]|(? & ? & Hg' & _)]]; [right; by rewrite Hg| |congruence..].
  rewrite Hg in Hg'. injection Hg' as <-. cbn [mbind res_bind]. rewrite (getn_Some _ _ _ Hi). cbn [mbind res_bind].
  destruct (lookfor_Some _ _ _ Hg) as [Hin Hga]. pose proof (inv_ptrs L s n i Hinv Hn Hi) as Hnd.
  rewrite (group_at_elem _ g Hnd Hin). cbn [deref mbind res_bind].
  pose proof (ni_ifs _ _ Hinv n i Hn Hi) as Hok. assert (∃ h t, igmp_data i = h :: t) as (h & t & Ed) by (destruct (igmp_data i); [done|by eexists _, _]).
  assert (Hmem : member_ok g) by (apply (allsystems_first i h t g); [apply Hok|done|done|congruence]).
  replace (group_state g =? IGMP_GROUP_NON_MEMBER) with false by (destruct Hmem as (_ & _ & [[-> _]|[-> _]]); done).
  cbn [negb mbind res_bind]. unfold set_groups, modn, getn. rewrite Hi. cbn [deref mbind res_bind]. do 3 f_equal. f_equal.
  unfold upd_group. apply list_fmap_ext. intros k x Hx. cbn. destruct (g_ptr x =? g_ptr g) eqn:E; [|done]. breflect.
  assert (x = g) as ->; [|done]. pose proof (group_at_elem _ g Hnd Hin). pose proof (group_at_elem _ x Hnd (list_elem_of_lookup_2 _ _ _ Hx)). congruence.
Qed.

(** A group that was just joined. *)
Lemma fresh_member i a ptr rep t : iface_ok i → can_join i → ip4_addr_ismulticast a = true → a ≠ allsystems → is_u32 a →
  igmp_lookfor_group (igmp_data i) a = None → 1 ≤ t ≤ 4 → 0 ≤ rep ≤ 1 →
  iface_ok (with_igmp (add_group (Group ptr a rep IGMP_GROUP_DELAYING_MEMBER t 1) (igmp_data i)) i).
Proof.
  intros Hok [Hf Hd] Hm Ha Hu Hl Ht Hr. pose proof (io_groups i Hok) as (Hgs & Hnd & Hs).
  apply lookfor_None in Hl. split; try apply Hok; [|intros Hf'; change (flag_set i NETIF_FLAG_IGMP = false) in Hf'; congruence].
  cbn [igmp_data with_igmp]. destruct (igmp_data i) as [|h gs]; [done|]. cbn [add_group]. destruct Hs as [Hh Hmem].
  apply Forall_cons in Hgs as [Hgh Hgs]. rewrite !fmap_cons in *. apply NoDup_cons in Hnd as [Hnh Hnd].
  apply not_elem_of_cons in Hl as [Hah Hl]. split; [|split; [|split; [done|]]].
  - constructor; [done|]. constructor; [|done]. unfold group_ok, is_u8, IGMP_GROUP_DELAYING_MEMBER. cbn. split; [done|lia].
  - cbn [group_address]. constructor; [by apply not_elem_of_cons|]. by constructor.
  - constructor; [|done]. split; [done|]. split; [done|]. left. cbn. split; [done|lia].
Qed.

(** Joining a group that is not there. *)
Lemma join_new L s n i a : net_inv L s → n ∈ netif_list s → ifs s !! n = Some i → a ≠ allsystems → is_u32 a →
  igmp_lookfor_group (igmp_data i) a = None → can_join i → ip4_addr_ismulticast a = true →
  yields (igmp_joingroup_netif n a s) (λ r, (r.1 = ERR_MEM ∧ r.2 = s) ∨
    (r.1 = ERR_OK ∧ net_inv L r.2 ∧ netif_list r.2 = netif_list s ∧
     ∃ i' cs, ifs r.2 = <[n := i']> (ifs s) ∧ env_log (nworld r.2) = env_log (nworld s) ++ cs ∧ joined n a i i' cs)).
Proof.
  intros Hinv Hn Hi Ha Hu Hl [Hf Hd] Hm. unfold igmp_joingroup_netif, joined. rewrite Hm, Hl.
  replace (negb (a =? allsystems)) with true by lia. cbn [LWIP_ASSERT mbind res_bind].
  rewrite (getn_Some _ _ _ Hi). cbn [mbind res_bind]. rewrite Hf. cbn [LWIP_ASSERT mbind res_bind].
  destruct (lookup_group_ok L s n i a Hinv Hn Hi) as [(g & Hg & _)|[[_ ->]|(ptr & p & _ & -> & Hptr & Hpool)]];
    [by left; split|congruence|by apply yields_ret; left|].
  cbn [mbind res_bind]. set (gs1 := add_group (new_group ptr a) (igmp_data i)). set (i1 := with_igmp gs1 i).
  set (s1 := putn n i1 (set_gpool p s)). assert (Hi1 : ifs s1 !! n = Some i1) by apply lookup_insert_eq.
  assert (He1 : env_ok (nworld s1) L) by apply Hinv. rewrite (getn_Some _ _ _ Hi1). cbn [mbind res_bind].
  assert (Hat : group_at ptr gs1 = Some (new_group ptr a)).
  { subst gs1. unfold ptrs in Hptr. destruct (igmp_data i) as [|h t]; [done|]. rewrite fmap_cons in Hptr.
    apply not_elem_of_cons in Hptr as [Hp _]. unfold group_at. cbn [add_group List.find]. replace (g_ptr h =? ptr) with false by lia.
    cbn [g_ptr new_group]. by rewrite Z.eqb_refl. }
  change (igmp_data i1) with gs1. rewrite Hat. cbn [deref mbind res_bind group_state guse new_group Z.eqb negb IGMP_GROUP_NON_MEMBER].
  destruct (mac_filter_ok L s1 n i1 i1 a NETIF_ADD_MAC_FILTER Hi1 He1) as (s2 & -> & i2 & c2 & Hch2 & -> & ->). cbn [mbind res_bind].
  destruct (igmp_send_ok L n i1 (new_group ptr a) IGMP_V2_MEMB_REPORT (nworld s2)) as (g3 & w3 & c3 & -> & Haf3 & Hcase);
    [by destruct Hch2|done|by left|]. cbn [mbind res_bind].
  destruct (start_timer_ok L g3 IGMP_JOIN_DELAYING_MEMBER_TMR w3 (proj1 Haf3)) as (t & w4 & -> & Ht & Haf4); [done|]. cbn [mbind res_bind].
  pose proof (after_trans _ _ _ _ _ _ Haf3 Haf4) as Haf. rewrite app_nil_r in Haf. change (Z.max 1 _) with 4 in Ht.
  assert (∃ rep, g3 = Group ptr a rep IGMP_GROUP_NON_MEMBER 0 0 ∧
    (rep = 0 ∧ c3 = [C_pbuf_alloc_NULL] ∨ rep = 1 ∧ ∃ q, igmp_packet q n (nip i) a IGMP_V2_MEMB_REPORT a c3)) as (rep & -> & Hrep).
  { destruct Hcase as [[-> ->]|[Hq ->]]; [exists 0; split; [done|by left]|exists 1; split; [done|by right]]. }
  set (g4 := with_use _ _). assert (Hupd : upd_group ptr (λ _, g4) gs1 = add_group g4 (igmp_data i)).
  { subst gs1. unfold ptrs in Hptr. destruct (igmp_data i) as [|h l]; [done|]. rewrite fmap_cons in Hptr.
    apply not_elem_of_cons in Hptr as [Hp Hpt]. cbn [add_group]. rewrite !upd_group_cons. replace (g_ptr h =? ptr) with false by lia.
    cbn [g_ptr new_group]. rewrite Z.eqb_refl. by rewrite upd_group_notin. }
  rewrite Hupd.
  destruct (set_groups_updates L s2 n i1 (add_group g4 (igmp_data i)) w4 (λ j cs, j = with_igmp (add_group g4 (igmp_data i)) i ∧ cs = c3) c3
    (changes_lookup _ _ _ _ _ _ Hch2) Haf (conj eq_refl eq_refl)) as (s5 & -> & i5 & c5 & Hch5 & -> & ->). cbn [mbind res_bind].
  pose proof (changes_trans _ _ _ _ _ _ _ _ _ Hch2 Hch5) as Hch. apply yields_ret. right. cbn [fst snd]. split; [done|].
  assert (Hifs : ifs s5 = <[n := with_igmp (add_group g4 (igmp_data i)) i]> (ifs s)).
  { rewrite (ch_ifs _ _ _ _ _ _ Hch). apply insert_insert_eq. }
  split; [|split; [by rewrite (ch_list _ _ _ _ _ _ Hch)|]].
  - apply (owner_inv L s s5 n i (with_igmp (add_group g4 (igmp_data i)) i)); try done; try apply Hch.
    + change g4 with (Group ptr a rep IGMP_GROUP_DELAYING_MEMBER t 1). apply fresh_member; try done; [by apply (ni_ifs _ _ Hinv n i)|]. destruct Hrep as [[-> _]|[-> _]]; lia.
    + intros R _ HR. rewrite (ch_pool _ _ _ _ _ _ Hch). eapply pool_perm; [|exact (Hpool _ HR)].
      unfold ptrs. cbn [igmp_data with_igmp]. destruct (igmp_data i) as [|h l]; [done|]. cbn [add_group]. rewrite !fmap_cons. apply Permutation_swap.
  - eexists _, _. split; [exact Hifs|]. split; [apply (ch_log _ _ _ _ _ _ Hch)|].
    exists ptr, rep, t, c3. split; [done|]. split; [done|]. split; [done|]. exact Hrep.
Qed.

Lemma join_ok L s n i a : net_inv L s → n ∈ netif_list s → ifs s !! n = Some i → a ≠ allsystems → is_u32 a →
  can_join i → ip4_addr_ismulticast a = true →
  yields (igmp_joingroup_netif n a s) (λ r,
    (r.1 = ERR_MEM ∧ r.2 = s ∧ igmp_lookfor_group (igmp_data i) a = None) ∨
    (r.1 = ERR_OK ∧ net_inv L r.2 ∧ netif_list r.2 = netif_list s ∧
     ∃ i' cs, ifs r.2 = <[n := i']> (ifs s) ∧ env_log (nworld r.2) = env_log (nworld s) ++ cs ∧ joined n a i i' cs)).
Proof.
  intros Hinv Hn Hi Ha Hu Hj Hm. destruct (igmp_lookfor_group (igmp_data i) a) as [g|] eqn:El.
  - rewrite (join_existing L s n i a g) by done. apply yields_ret. right. cbn [fst snd].
    destruct (lookfor_Some _ _ _ El) as [Hin _]. pose proof (inv_ptrs _ _ _ _ Hinv Hn Hi) as Hnd.
    set (i' := with_igmp _ i). split; [done|]. split; [|split; [done|]].
    + apply (changes_inv L s n i i' [] (putn n i' s)); [done|done|apply putn_changes, Hinv| |].
      * split; [done|]. subst i'. by apply use_ptrs.
      * subst i'. apply (use_ok i g (λ g, u8 (guse g + 1))); [by eapply ni_ifs|done|done|intros; apply u8_range].
    + exists i', []. split; [done|]. split; [by rewrite app_nil_r|]. unfold joined. by rewrite El.
  - eapply yields_mono; [by apply (join_new L s n i a)|]. intros r [[? ?]|Hr]; [by left|by right].
Qed.

(** *** igmp_leavegroup_netif *)

(** What leaving a group does: one user less, or the group is gone, with a message if
    this host was the last to report it. *)
Definition left_group (n a : Z) (i i' : iface) (cs : list call) : Prop :=
  ∃ g, igmp_lookfor_group (igmp_data i) a = Some g ∧
  if guse g <=? 1 then
    ∃ gs' cs', i' = with_igmp gs' i ∧ remove_group_loop (g_ptr g) (igmp_data i) = Some gs' ∧
      cs = cs' ++ filter_calls n i a NETIF_DEL_MAC_FILTER ∧
      (if last_reporter_flag g =? 0 then cs' = [] else report_or_nothing n (nip i) allrouters IGMP_LEAVE_GROUP a cs')
  else i' = with_igmp (upd_group (g_ptr g) (λ g, with_use (u8 (guse g - 1)) g) (igmp_data i)) i ∧ cs = [].

(** A list of groups without one of the members. *)
Lemma groups_ok_without h t g t' : groups_ok (h :: t) → t ≡ₚ g :: t' → groups_ok (h :: t').
Proof.
  intros (Hgs & Hnd & Hh & Hm) Hp. apply Forall_cons in Hgs as [Hgh Hgs]. rewrite fmap_cons in Hnd.
  apply NoDup_cons in Hnd as [Hnh Hnd]. rewrite Hp in Hgs, Hm. apply Forall_cons in Hgs as [_ Hgs]. apply Forall_cons in Hm as [_ Hm].
  rewrite Hp in Hnd, Hnh. rewrite fmap_cons in Hnd, Hnh. apply NoDup_cons in Hnd as [_ Hnd]. apply not_elem_of_cons in Hnh as [_ Hnh].
  split; [by constructor|]. split; [by constructor|done].
Qed.

Lemma leave_last L s n i a g : net_inv L s → n ∈ netif_list s → ifs s !! n = Some i → a ≠ allsystems →
  igmp_lookfor_group (igmp_data i) a = Some g → guse g ≤ 1 → can_join i → ip4_addr_ismulticast a = true →
  yields (igmp_leavegroup_netif n a s) (λ r, r.1 = ERR_OK ∧ net_inv L r.2 ∧ netif_list r.2 = netif_list s ∧
    ∃ i' cs, ifs r.2 = <[n := i']> (ifs s) ∧ env_log (nworld r.2) = env_log (nworld s) ++ cs ∧ left_group n a i i' cs).
Proof.
  intros Hinv Hn Hi Ha Hl Hu [Hf Hd] Hm. pose proof (ni_ifs _ _ Hinv n i Hn Hi) as Hok.
  pose proof (inv_ptrs _ _ _ _ Hinv Hn Hi) as Hnd. destruct (lookfor_Some _ _ _ Hl) as [Hin Hga].
  assert (∃ h t, igmp_data i = h :: t) as (h & t & Ed) by (destruct (igmp_data i); [done|by eexists _, _]).
  destruct (allsystems_first i h t g) as [Hgt Hmem]; [apply Hok|done|done|congruence|].
  unfold ptrs in Hnd. rewrite Ed in Hnd. destruct (remove_group_ok h t g Hnd Hgt) as (t' & Hrm & Hperm & _).
  assert (Hg32 : is_u32 (group_address g)).
  { pose proof (io_groups i Hok) as (Hgs & _). eapply Forall_forall in Hgs; [|exact Hin]. apply Hgs. }
  unfold igmp_leavegroup_netif. rewrite Hm. replace (negb (a =? allsystems)) with true by lia. cbn [LWIP_ASSERT mbind res_bind].
  rewrite (getn_Some _ _ _ Hi). cbn [mbind res_bind]. rewrite Hf, Hl. cbn [LWIP_ASSERT mbind res_bind].
  replace (guse g <=? 1) with true by lia. unfold igmp_remove_group. rewrite (getn_Some _ _ _ Hi). cbn [mbind res_bind].
  rewrite Ed, Hrm. set (i' := with_igmp (h :: t') i).
  assert (Hup : updates L s n (λ j cs, j = i' ∧ ∃ cs', cs = cs' ++ filter_calls n i a NETIF_DEL_MAC_FILTER ∧
      (if last_reporter_flag g =? 0 then cs' = [] else report_or_nothing n (nip i) allrouters IGMP_LEAVE_GROUP a cs'))
    ('(_, s) ← (s ← set_groups n (h :: t') s; Ok (ERR_OK, s));
     s ← (if negb (last_reporter_flag g =? 0) then
               '(_, w) ← igmp_send n i g IGMP_LEAVE_GROUP (nworld s); Ok (set_nworld w s)
             else Ok s);
     mac_filter n i a NETIF_DEL_MAC_FILTER s)).
  { eapply updates_val_bind.
    { eapply (updates_bind_val _ _ _ _ (λ (_ : Z) j cs, j = i' ∧ cs = [])).
      - by eapply (updates_of _ _ _ i' [] (λ j cs, j = i' ∧ cs = [])); [apply modn_changes; [done|apply Hinv]|].
      - intros s1 i1 c1 [-> ->] Hi1 He1. by apply (updates_val_ret _ _ _ i'). }
    intros _ s1 i1 c1 [-> ->] Hi1 He1. eapply (updates_bind _ _ _ (λ j cs, j = i' ∧
      if last_reporter_flag g =? 0 then cs = [] else report_or_nothing n (nip i) allrouters IGMP_LEAVE_GROUP a cs)).
    - destruct (last_reporter_flag g =? 0); cbn [negb]; [by apply (updates_ret _ _ _ i')|].
      destruct (igmp_send_ok L n i g IGMP_LEAVE_GROUP (nworld s1) He1 Hg32 (or_intror eq_refl)) as (g' & w & cs & -> & [He Hlog] & Hcase).
      cbn [mbind res_bind]. apply yields_ret. exists i', cs. split; [split; try done; cbn; by rewrite insert_id|].
      split; [done|]. destruct Hcase as [[-> _]|[(p & Hp) _]]; [by left|right]. exists p. by rewrite <-Hga.
    - intros s2 i2 c2 [-> Hc2] Hi2 He2. eapply updates_mono; [by apply mac_filter_ok|]. intros j cs [-> ->]. split; [done|]. by exists c2. }
  destruct Hup as (s' & Hrun & j & cs & Hch & -> & cs' & -> & Hcs'). pose proof Hch as [].
  apply res_bind_Ok in Hrun as ([r1 s1] & -> & Hrun). cbn [mbind res_bind]. apply res_bind_Ok in Hrun as (s2 & -> & Hrun).
  cbn [mbind res_bind]. rewrite Hrun. cbn [mbind res_bind].
  destruct (held_split s n i (ni_nodup _ _ Hinv) Hn Hi) as (R0 & HR0 & _).
  assert (Hpg : ptrs i ≡ₚ g_ptr g :: ptrs i') by (unfold ptrs; subst i'; rewrite Ed; cbn [igmp_data with_igmp]; by rewrite !fmap_cons, Hperm, fmap_cons, Permutation_swap).
  destruct (pool_free_ok (gpool s) (g_ptr g) (held s) (ptrs i' ++ R0) (ni_pool _ _ Hinv)) as (p' & Hfree & Hp' & _); [by rewrite HR0, Hpg|].
  rewrite ch_pool, Hfree. cbn [mbind res_bind]. apply yields_ret. cbn [fst snd].
  split; [done|]. split; [|split; [done|]].
  - apply (owner_inv L s (set_gpool p' s') n i i'); try done.
    + split; try apply Hok; [|intros Hf'; change (flag_set i NETIF_FLAG_IGMP = false) in Hf'; congruence].
      cbn [igmp_data with_igmp]. eapply groups_ok_without; [|exact Hperm]. rewrite <-Ed. apply Hok.
    + intros R _ HR. destruct (pool_free_ok (gpool s) (g_ptr g) (ptrs i ++ R) (ptrs i' ++ R) HR) as (p2 & Hf2 & Hp2 & _); [by rewrite Hpg|].
      rewrite Hfree in Hf2. by injection Hf2 as <-.
  - exists i', (cs' ++ filter_calls n i a NETIF_DEL_MAC_FILTER). split; [done|]. split; [done|].
    exists g. split; [done|]. replace (guse g <=? 1) with true by lia. exists (h :: t'), cs'. split; [done|]. split; [by rewrite Ed|done].
Qed.

Lemma leave_ok L s n i a : net_inv L s → n ∈ netif_list s → ifs s !! n = Some i → a ≠ allsystems →
  can_join i → ip4_addr_ismulticast a = true →
  yields (igmp_leavegroup_netif n a s) (λ r,
    (r.1 = ERR_VAL ∧ r.2 = s ∧ igmp_lookfor_group (igmp_data i) a = None) ∨
    (r.1 = ERR_OK ∧ net_inv L r.2 ∧ netif_list r.2 = netif_list s ∧
     ∃ i' cs, ifs r.2 = <[n := i']> (ifs s) ∧ env_log (nworld r.2) = env_log (nworld s) ++ cs ∧ left_group n a i i' cs)).
Proof.
  intros Hinv Hn Hi Ha Hj Hm. destruct (igmp_lookfor_group (igmp_data i) a) as [g|] eqn:El.
  - destruct (decide (guse g ≤ 1)) as [Hu|Hu].
    { eapply yields_mono; [by apply (leave_last L s n i a g)|]. intros r Hr. by right. }
    pose proof Hj as [Hf Hd]. unfold igmp_leavegroup_netif. rewrite Hm. replace (negb (a =? allsystems)) with true by lia.
    cbn [LWIP_ASSERT mbind res_bind]. rewrite (getn_Some _ _ _ Hi). cbn [mbind res_bind]. rewrite Hf, El. cbn [LWIP_ASSERT mbind res_bind].
    replace (guse g <=? 1) with false by lia. unfold set_groups, modn. rewrite (getn_Some _ _ _ Hi). cbn [mbind res_bind].
    apply yields_ret. right. cbn [fst snd]. destruct (lookfor_Some _ _ _ El) as [Hin _]. pose proof (inv_ptrs _ _ _ _ Hinv Hn Hi) as Hnd.
    set (i' := with_igmp _ i). split; [done|]. split; [|split; [done|]].
    + apply (changes_inv L s n i i' [] (putn n i' s)); [done|done|apply putn_changes, Hinv| |].
      * split; [done|]. subst i'. by apply use_ptrs.
      * subst i'. apply (use_ok i g (λ g, u8 (guse g - 1))); [by eapply ni_ifs|done|done|intros; apply u8_range].
    + exists i', []. split; [done|]. split; [by rewrite app_nil_r|]. exists g. split; [done|]. by replace (guse g <=? 1) with false by lia.
  - destruct Hj as [Hf Hd]. unfold igmp_leavegroup_netif. rewrite Hm. replace (negb (a =? allsystems)) with true by lia.
    cbn [LWIP_ASSERT mbind res_bind]. rewrite (getn_Some _ _ _ Hi). cbn [mbind res_bind]. rewrite Hf, El. apply yields_ret. by left.
Qed.

(** *** igmp_stop *)

Lemma stop_loop_ok L n i gs : ∀ s R, pool_ok (gpool s) ((g_ptr <$> gs) ++ R) → env_ok (nworld s) L →
  yields (igmp_stop_loop n i gs s) (λ s', pool_ok (gpool s') R ∧ env_ok (nworld s') L ∧
    ifs s' = ifs s ∧ netif_list s' = netif_list s ∧ netif_default s' = netif_default s ∧ netif_num s' = netif_num s ∧
    env_log (nworld s') = env_log (nworld s) ++ concat ((λ g, filter_calls n i (group_address g) NETIF_DEL_MAC_FILTER) <$> gs)).
Proof.
  induction gs as [|g gs IH]; intros s R Hp He; cbn [igmp_stop_loop].
  { apply yields_ret. split_and!; try done. by rewrite app_nil_r. }
  assert (∃ s1, mac_filter n i (group_address g) NETIF_DEL_MAC_FILTER s = Ok s1 ∧ gpool s1 = gpool s ∧ env_ok (nworld s1) L ∧
    ifs s1 = ifs s ∧ netif_list s1 = netif_list s ∧ netif_default s1 = netif_default s ∧ netif_num s1 = netif_num s ∧
    env_log (nworld s1) = env_log (nworld s) ++ filter_calls n i (group_address g) NETIF_DEL_MAC_FILTER)
    as (s1 & -> & Hg1 & He1 & Hi1 & Hl1 & Hd1 & Hn1 & Hlog1).
  { unfold mac_filter, filter_calls, call_. destruct (igmp_mac_filter i).
    - destruct (call_ok (C_igmp_mac_filter n (group_address g) NETIF_DEL_MAC_FILTER) (nworld s) L He) as (r & w & -> & He' & Hl').
      by exists (set_nworld w s).
    - exists s. split_and!; try done. by rewrite app_nil_r. }
  cbn [mbind res_bind]. rewrite Hg1.
  destruct (pool_free_ok (gpool s) (g_ptr g) _ ((g_ptr <$> gs) ++ R) Hp) as (p' & -> & Hp' & _); [done|]. cbn [mbind res_bind].
  eapply yields_mono; [by apply (IH (set_gpool p' s1) R)|]. cbn. intros s' (? & ? & Hi' & Hl' & Hd' & Hn' & Hlog').
  split_and!; try congruence. by rewrite Hlog', Hlog1, app_assoc.
Qed.

Lemma igmp_stop_ok L s n i : net_inv L s → n ∈ netif_list s → ifs s !! n = Some i →
  yields (igmp_stop n s) (λ r, r.1 = ERR_OK ∧ net_inv L r.2 ∧ ifs r.2 = <[n := with_igmp [] i]> (ifs s) ∧
    netif_list r.2 = netif_list s ∧ netif_default r.2 = netif_default s ∧
    env_log (nworld r.2) = env_log (nworld s) ++
      concat ((λ g, filter_calls n i (group_address g) NETIF_DEL_MAC_FILTER) <$> igmp_data i)).
Proof.
  intros Hinv Hn Hi. unfold igmp_stop, set_groups, modn. rewrite (getn_Some _ _ _ Hi). cbn [mbind res_bind].
  destruct (held_split s n i (ni_nodup _ _ Hinv) Hn Hi) as (R & HR & _).
  destruct (stop_loop_ok L n i (igmp_data i) (putn n (with_igmp [] i) s) R) as (s' & -> & Hp & He & Hi' & Hl' & Hd' & Hn' & Hlog).
  { eapply pool_perm; [exact HR|]. apply Hinv. } { apply Hinv. }
  cbn [mbind res_bind]. apply yields_ret. cbn [fst snd] in *. split; [done|]. split; [|by split_and!].
  pose proof (ni_ifs _ _ Hinv n i Hn Hi) as Hok.
  apply (owner_inv L s s' n i (with_igmp [] i)); try done.
  - split; try apply Hok; try done. split; [constructor|]. split; [constructor|done].
  - intros R' HR2 _. eapply pool_perm; [|exact Hp]. rewrite HR in HR2. by apply Permutation_app_inv_l in HR2.
Qed.

End operations.
