(* ===== verification/NetifList.v ===== *)
(** * The list of interfaces

    Adding, removing and finding an interface. *)

From S2P Require Import Prelude ByteMem Def IpAddr Ip4Addr MempPool Etharp Iface Igmp Netif Autoip IfaceFacts IgmpFacts NetifFacts IfaceInv IgmpMembers.

(** ** What the driver of an interface must do

    The init function gets a struct that netif_add has reset and fills it in: values that fit their types, the IPv4
    addresses and what belongs to the stack (number, client data) left alone. *)
Definition filled (i i' : iface) : Prop :=
  length (hwaddr (base i')) = 6%nat ∧ Forall is_u8 (hwaddr (base i')) ∧ is_u8 (nflags i') ∧
  nip i' = nip i ∧ nmask i' = nmask i ∧ ngw i' = ngw i ∧ length (v6 i') = 3%nat ∧ Forall v6_ok (v6 i') ∧
  counters_ok i' ∧ device_ok i' ∧ num i' = num i ∧ autoip_data i' = autoip_data i ∧ igmp_data i' = igmp_data i.

Section operations.
Context {P W : Type} `{PoolLaws P} `{NetEnvLaws W}.
Implicit Types s : nstate P W.

Definition driver_ok (L : list Z) (init : iface → W → res (Z * iface * W)) : Prop :=
  ∀ i w, env_ok w L → length (v6 i) = 3%nat → Forall v6_ok (v6 i) → counters_ok i →
    yields (init i w) (λ r, env_ok r.2 L ∧ env_log r.2 = env_log w ∧ (r.1.1 = ERR_OK → filled i r.1.2)).

(** ** Adding *)

(** The struct after the reset and with its addresses set. *)
Definition readdressed_reset (nr : Z) (ip mask gw : option Z) (i : iface) : iface :=
  readdressed (or_any ip) (or_any mask) (or_any gw) (netif_add_reset nr i).

Lemma reset_set_addr_ok L s n i ip mask gw : ifs s !! n = Some i → env_ok (nworld s) L →
  updates L s n (λ i' cs, i' = readdressed_reset (netif_num s) ip mask gw i ∧
      cs = set_addr_calls n (netif_add_reset (netif_num s) i) (or_any ip) (or_any mask) (or_any gw))
    (s ← modn n (netif_add_reset (netif_num s)) s; netif_set_addr n ip mask gw s).
Proof.
  intros Hi He. set (i0 := netif_add_reset (netif_num s) i).
  eapply updates_bind; [by eapply (updates_of _ _ _ _ _ (λ j cs, j = i0 ∧ cs = [])); [apply modn_changes|]|].
  intros s1 i1 c1 [-> ->] Hi1 He1. eapply updates_mono.
  { apply set_addr_ok; [done|done|]. split; [constructor|]. split; [constructor|done]. }
  intros i' cs [(gs & -> & Hr) ->]. split; [|done]. cbn in Hr. by inversion Hr.
Qed.

Lemma filled_ok nr ip mask gw i i' : is_u32 (or_any ip) → is_u32 (or_any mask) → is_u32 (or_any gw) → is_u8 nr →
  filled (readdressed_reset nr ip mask gw i) i' → iface_ok (with_mtu6 (mtu i') i').
Proof.
  intros Hip Hm Hg Hn (Hh & Hhb & Hf & Ei & Em & Eg & Hv & Hvo & Hco & Hde & En & Ea & Eg').
  split; try done; try apply Hde.
  - change (is_u32 (nip i')). by rewrite Ei.
  - change (is_u32 (nmask i')). by rewrite Em.
  - change (is_u32 (ngw i')). by rewrite Eg.
  - change (is_u8 (num i')). by rewrite En.
  - change (∀ a, autoip_data i' = Some a → autoip_ok a). by rewrite Ea.
  - change (groups_ok (igmp_data i')). rewrite Eg'. by repeat constructor.
Qed.

(** A new interface at the head of the list. *)
Lemma listed_inv L s n i nr nn : net_inv L s → n ∉ netif_list s → ifs s !! n = Some i → iface_ok i → igmp_data i = [] →
  0 ≤ nr ≤ 254 → ¬ nr ∈ nums s → 0 ≤ nn ≤ 254 →
  net_inv L (set_list (n :: netif_list s) (set_num nn (putn n (with_num nr i) s))).
Proof.
  intros [] Hn Hi Hok Hg Hnr Hfree Hnn. set (s' := set_list _ _).
  assert (Hsame : ∀ m, m ∈ netif_list s → ifs s' !! m = ifs s !! m) by (intros m Hm; apply lookup_insert_ne; by intros ->).
  assert (Hnew : ifs s' !! n = Some (with_num nr i)) by apply lookup_insert_eq.
  split; try done.
  - by constructor.
  - intros m j Hm Hj. cbn [netif_list set_list s'] in Hm. apply elem_of_cons in Hm as [->|Hm].
    + rewrite Hnew in Hj. injection Hj as <-. split; try apply Hok. unfold is_u8. cbn. lia.
    + rewrite Hsame in Hj by done. by eapply ni_ifs.
  - intros m Hm. cbn [netif_list set_list s'] in Hm. apply elem_of_cons in Hm as [->|Hm]; [by rewrite Hnew|].
    rewrite Hsame by done. by apply ni_some.
  - assert (Hnums : nums s' = nr :: nums s).
    { unfold nums. cbn [netif_list set_list s']. rewrite fmap_cons, Hnew. f_equal. apply list_fmap_ext. intros k m Hm.
      rewrite Hsame; [done|]. by eapply list_elem_of_lookup_2. }
    rewrite Hnums. destruct ni_nums as [Hnd Hr]. split; [by constructor|]. by constructor.
  - intros m Hm. apply elem_of_cons. right. by apply ni_default.
  - assert (Hheld : held s' = held s).
    { unfold held. cbn [netif_list set_list s']. rewrite fmap_cons, Hnew. unfold ptrs at 1. cbn [igmp_data with_num]. rewrite Hg. cbn [concat]. rewrite fmap_nil, app_nil_l.
      f_equal. apply list_fmap_ext. intros k m Hm. rewrite Hsame; [done|]. by eapply list_elem_of_lookup_2. }
    by rewrite Hheld.
Qed.

Lemma add_to_list_ok L s n i : net_inv L s → n ∉ netif_list s → ifs s !! n = Some i → iface_ok i → igmp_data i = [] →
  zlen (netif_list s) ≤ 254 →
  yields (netif_add_to_list n s) (λ s', net_inv L s' ∧ netif_list s' = n :: netif_list s ∧
    ∃ nr, ifs s' !! n = Some (with_num nr i) ∧ 0 ≤ nr ≤ 254 ∧ ¬ nr ∈ nums s).
Proof.
  intros Hinv Hn Hi Hok Hg Hlen.
  destruct (num_search_free n s (num i) Hn (ni_some _ _ Hinv) Hlen) as (nr & Hns & Hnr & Hfree).
  { pose proof (io_num i Hok) as Hu. unfold is_u8 in Hu. lia. }
  unfold netif_add_to_list. revert Hns. generalize num_fuel. intros fuel Hns.
  rewrite (getn_Some _ _ _ Hi). cbn [mbind res_bind]. rewrite Hns. cbn [mbind res_bind]. unfold modn. rewrite (getn_Some _ _ _ Hi). cbn [mbind res_bind].
  set (nn := if nr =? 254 then 0 else u8 (nr + 1)).
  assert (Hnn : 0 ≤ nn ≤ 254) by (subst nn; destruct (nr =? 254) eqn:E; breflect; [lia|rewrite u8_id by ulia; lia]).
  apply yields_ret. split; [exact (listed_inv L s n i nr nn Hinv Hn Hi Hok Hg Hnr Hfree Hnn)|]. split; [done|]. exists nr. split; [apply lookup_insert_eq|done].
Qed.

(** Up to the result of the driver. *)
Lemma add_init_ok L s n i ip mask gw init : net_inv L s → n ∉ netif_list s → ifs s !! n = Some i →
  is_u32 (or_any ip) → is_u32 (or_any mask) → is_u32 (or_any gw) → driver_ok L init →
  yields (s ← modn n (netif_add_reset (netif_num s)) s;
          s ← netif_set_addr n ip mask gw s;
          i ← getn n s;
          '(err, i, w) ← init i (nworld s);
          Ok (err, i, putn n i (set_nworld w s)))
    (λ r, (∃ cs, changes L s n r.1.2 cs r.2) ∧
      (r.1.1 = ERR_OK → iface_ok (with_mtu6 (mtu r.1.2) r.1.2) ∧ igmp_data r.1.2 = [] ∧
         nip r.1.2 = or_any ip ∧ nmask r.1.2 = or_any mask ∧ ngw r.1.2 = or_any gw)).
Proof.
  intros Hinv Hn Hi Hip Hm Hg Hinit. pose proof (ni_num _ _ Hinv) as Hnum.
  destruct (reset_set_addr_ok L s n i ip mask gw Hi (ni_env _ _ Hinv)) as (s1 & Hrun & i1 & cs & Hch & -> & _).
  apply res_bind_Ok in Hrun as (s0 & -> & Hrun). cbn [mbind res_bind]. rewrite Hrun. cbn [mbind res_bind].
  rewrite (getn_Some _ _ _ (changes_lookup _ _ _ _ _ _ Hch)). cbn [mbind res_bind]. set (i1 := readdressed_reset _ _ _ _ i) in *.
  destruct (Hinit i1 (nworld s1) (ch_env _ _ _ _ _ _ Hch)) as ([[e i2] w2] & -> & He2 & Hl2 & Hfill); [done|by repeat constructor|done|]. cbn [mbind res_bind fst snd] in *.
  apply yields_ret. cbn [fst snd]. split.
  - exists cs. destruct Hch. split; try done; cbn; [rewrite ch_ifs; by rewrite insert_insert_eq|by rewrite Hl2].
  - intros ->. specialize (Hfill eq_refl). split; [eapply filled_ok; [..|exact Hfill]; try done; unfold is_u8; lia|].
    destruct Hfill as (_ & _ & _ & -> & -> & -> & _ & _ & _ & _ & _ & _ & ->). done.
Qed.

Lemma netif_add_ok L s n i ip mask gw init : net_inv L s → n ≠ 0 → n ∉ netif_list s → ifs s !! n = Some i →
  is_u32 (or_any ip) → is_u32 (or_any mask) → is_u32 (or_any gw) → zlen (netif_list s) ≤ 254 → driver_ok L init →
  yields (netif_add n ip mask gw init s) (λ r, net_inv L r.2 ∧
    match r.1 with
    | None => netif_list r.2 = netif_list s
    | Some m => m = n ∧ netif_list r.2 = n :: netif_list s ∧
        ∃ i', ifs r.2 !! n = Some i' ∧ 0 ≤ num i' ≤ 254 ∧ ¬ num i' ∈ nums s ∧
          nip i' = or_any ip ∧ nmask i' = or_any mask ∧ ngw i' = or_any gw
    end).
Proof.
  intros Hinv Hn0 Hn Hi Hip Hm Hg Hlen Hinit. unfold netif_add. replace (negb (n =? 0)) with true by lia. cbn [LWIP_ASSERT mbind res_bind].
  destruct (add_init_ok L s n i ip mask gw init) as ([[e i2] s2] & Hrun & [cs Hch2] & Hfill); [done..|]. cbn [fst snd] in *.
  apply res_bind_Ok in Hrun as (x0 & -> & Hrun). cbn [mbind res_bind]. apply res_bind_Ok in Hrun as (x1 & -> & Hrun). cbn [mbind res_bind].
  apply res_bind_Ok in Hrun as (x2 & -> & Hrun). cbn [mbind res_bind]. apply res_bind_Ok in Hrun as ([[e' i2'] w'] & -> & Hrun). cbn [mbind res_bind].
  injection Hrun as -> -> ->. destruct (e =? ERR_OK) eqn:Ee; cbn [negb].
  2:{ apply yields_ret. cbn [fst snd]. split; [by eapply unlisted_inv|]. apply Hch2. }
  breflect. destruct (Hfill Ee) as (Hok2 & Hg2 & Hip2 & Hm2 & Hgw2).
  destruct (modn_changes L s2 n i2 (with_mtu6 (mtu i2)) (changes_lookup _ _ _ _ _ _ Hch2) (ch_env _ _ _ _ _ _ Hch2)) as (s3 & -> & Hch3).
  cbn [mbind res_bind]. pose proof (changes_trans _ _ _ _ _ _ _ _ _ Hch2 Hch3) as Hch13.
  pose proof (unlisted_inv _ _ _ _ _ _ Hinv Hn Hch13) as Hinv3. pose proof (ch_list _ _ _ _ _ _ Hch13) as Hlist3.
  destruct (add_to_list_ok L s3 n (with_mtu6 (mtu i2) i2) Hinv3) as (s4 & -> & Hinv4 & Hlist4 & nr & Hi4 & Hnr & Hfree);
    [by rewrite Hlist3|by eapply changes_lookup|done|done|by rewrite Hlist3|]. cbn [mbind res_bind].
  set (i4 := with_num nr _) in *. rewrite (getn_Some _ _ _ Hi4). cbn [mbind res_bind]. rewrite Hlist3 in Hlist4.
  assert (Hnums : nums s3 = nums s).
  { unfold nums. rewrite Hlist3. apply list_fmap_ext. intros k m Hm'.
    rewrite (ch_ifs _ _ _ _ _ _ Hch13), lookup_insert_ne; [done|]. intros ->. apply Hn. by eapply list_elem_of_lookup_2. }
  rewrite Hnums in Hfree. destruct (flag_set i4 NETIF_FLAG_IGMP) eqn:Efl.
  - destruct (igmp_start_ok L s4 n i4 Hinv4) as ([r s5] & -> & Hinv5 & Hl5 & Hcase); [rewrite Hlist4; left|done|done|done|].
    cbn [mbind res_bind fst snd] in *. apply yields_ret. cbn [fst snd]. split; [done|]. split; [done|]. split; [congruence|].
    destruct Hcase as [[_ ->]|(a & _ & Hifs & _)]; [by exists i4|]. exists (started a i4).
    split; [rewrite Hifs; apply lookup_insert_eq|done].
  - cbn [mbind res_bind]. apply yields_ret. cbn [fst snd]. split; [done|]. split; [done|]. split; [done|]. by exists i4.
Qed.

(** ** Removing *)

Lemma remove_from_list_ok n hd tl : NoDup (hd :: tl) → n ∈ tl →
  ∃ l1 l2, remove_from_list n (hd :: tl) = Some (l1 ++ l2) ∧ hd :: tl = l1 ++ n :: l2.
Proof.
  revert hd. induction tl as [|m tl IH]; intros hd Hnd Hin; [by apply elem_of_nil in Hin|].
  apply NoDup_cons in Hnd as [_ Hnd]. cbn [remove_from_list]. destruct (m =? n) eqn:E; breflect.
  - subst m. by exists [hd], tl.
  - apply elem_of_cons in Hin as [->|Hin]; [done|]. destruct (IH m Hnd Hin) as (l1 & l2 & Hr & Hl).
    cbn [remove_from_list] in Hr. rewrite Hr. cbn [mbind option_bind]. exists (hd :: l1), l2. split; [done|]. cbn. by rewrite <-Hl.
Qed.

(** The interface leaves the list. *)
Lemma unlist_inv L s n i l1 l2 : net_inv L s → ifs s !! n = Some i → igmp_data i = [] → netif_list s = l1 ++ n :: l2 →
  netif_default s ≠ Some n → net_inv L (set_list (l1 ++ l2) s).
Proof.
  intros [] Hi Hg Hl Hd. assert (Hn : n ∈ netif_list s) by (rewrite Hl; set_solver).
  destruct (held_split s n i ni_nodup Hn Hi) as (R & HR & _ & HR').
  assert (Hsub : ∀ m, m ∈ l1 ++ l2 → m ∈ netif_list s) by (intros m; rewrite Hl; set_solver).
  assert (Hperm : netif_list s ≡ₚ n :: l1 ++ l2) by (rewrite Hl; by rewrite Permutation_middle).
  split; try done.
  - rewrite Hperm in ni_nodup. by apply NoDup_cons in ni_nodup as [_ ?].
  - intros m j Hm. apply ni_ifs. by apply Hsub.
  - intros m Hm. apply ni_some. by apply Hsub.
  - destruct ni_nums as [Hnd Hr]. unfold nums in *. cbn [netif_list set_list ifs]. rewrite Hl in Hnd, Hr.
    rewrite fmap_app, fmap_cons in Hnd, Hr. rewrite fmap_app. rewrite <-Permutation_middle in Hnd, Hr.
    apply NoDup_cons in Hnd as [_ ?]. by apply Forall_cons in Hr as [_ ?].
  - intros m Hm. cbn in *. specialize (ni_default m Hm). rewrite Hperm in ni_default. apply elem_of_cons in ni_default as [->|?]; done.
  - eapply pool_perm; [symmetry; apply (HR' (set_list (l1 ++ l2) s)); [done|by exists (l1 ++ l2)]|].
    eapply pool_perm; [|exact ni_pool]. rewrite HR. unfold ptrs. by rewrite Hg.
Qed.

Lemma remove_ip6_ok L n i vs : ∀ s, ifs s !! n = Some i → env_ok (nworld s) L →
  updates L s n (λ i' cs, i' = i ∧ cs = concat ((λ v, if ip6_addr_isvalid (ip6_addr_state v)
                                              then addr_changed_calls (A6 (ip6_addr_of v)) None else []) <$> vs))
    (remove_ip6_loop vs s).
Proof.
  induction vs as [|v vs IH]; intros s Hi He; cbn [remove_ip6_loop]; [by apply (updates_ret _ _ _ i)|].
  eapply (updates_bind _ _ _ (λ i' cs, i' = i ∧ cs = if ip6_addr_isvalid (ip6_addr_state v)
                                              then addr_changed_calls (A6 (ip6_addr_of v)) None else [])).
  - destruct (ip6_addr_isvalid _); [by apply ip_addr_changed_ok|by apply (updates_ret _ _ _ i)].
  - intros s1 i1 c1 [-> ->] Hi1 He1. eapply updates_mono; [by apply IH|]. intros i' cs [-> ->]. done.
Qed.

(** The calls and the state before the interface leaves the list. *)
Lemma remove_prepare_ok L s n i : net_inv L s → n ∈ netif_list s → ifs s !! n = Some i →
  yields (s ← (if negb (ip4_addr_isany_val (nip i)) then netif_do_ip_addr_changed (A4 (nip i)) None s else Ok s);
          s ← (if flag_set i NETIF_FLAG_IGMP then '(_, s) ← igmp_stop n s; Ok s else Ok s);
          s ← remove_ip6_loop (v6 i) s;
          s ← call_ (C_mld6_stop n) s;
          i ← getn n s;
          if netif_is_up i then netif_set_down n s else Ok s)
    (λ s', net_inv L s' ∧ netif_list s' = netif_list s ∧ netif_default s' = netif_default s ∧
       ∃ i', ifs s' = <[n := i']> (ifs s) ∧ igmp_data i' = [] ∧ flag_set i' NETIF_FLAG_UP = false).
Proof.
  intros Hinv Hn Hi. pose proof (ni_ifs _ _ Hinv n i Hn Hi) as Hok.
  eapply yields_bind.
  { instantiate (1 := λ s1, net_inv L s1 ∧ ifs s1 = ifs s ∧ netif_list s1 = netif_list s ∧ netif_default s1 = netif_default s).
    destruct (negb _); [|by apply yields_ret].
    eapply yields_mono; [by apply (ip_addr_changed_ok L s n i _ None Hi), Hinv|]. intros s1 (i1 & c1 & Hch & -> & ->). pose proof Hch as [].
    split; [|split_and!; [by rewrite ch_ifs, insert_id|done|done]]. by apply (changes_inv L s n i i _ s1 Hinv Hi Hch). }
  intros s1 (Hinv1 & Hifs1 & Hl1 & Hd1). assert (Hi1 : ifs s1 !! n = Some i) by congruence. eapply yields_bind.
  { instantiate (1 := λ s2, net_inv L s2 ∧ ifs s2 = <[n := with_igmp [] i]> (ifs s) ∧ netif_list s2 = netif_list s ∧ netif_default s2 = netif_default s).
    destruct (flag_set i NETIF_FLAG_IGMP) eqn:Ef.
    - destruct (igmp_stop_ok L s1 n i Hinv1) as ([r s2] & -> & _ & Hinv2 & Hifs2 & Hl2 & Hd2 & _); [by rewrite Hl1|done|].
      cbn [mbind res_bind fst snd] in *. apply yields_ret. split_and!; [done|by rewrite Hifs2, Hifs1|congruence|congruence].
    - apply yields_ret. split; [done|]. split; [|done]. rewrite Hifs1, insert_id; [done|]. rewrite Hi.
      pose proof (io_igmp i Hok Ef) as Hg. destruct i. cbn in *. by rewrite Hg. }
  intros s2 (Hinv2 & Hifs2 & Hl2 & Hd2). set (i2 := with_igmp [] i) in *. assert (Hi2 : ifs s2 !! n = Some i2) by (rewrite Hifs2; apply lookup_insert_eq).
  assert (Hok2 : iface_ok i2) by (eapply ni_ifs; [exact Hinv2|by rewrite Hl2|done]).
  assert (Hup : updates L s2 n (λ i' cs, i' = (if flag_set i2 NETIF_FLAG_UP then netif_clear_flags NETIF_FLAG_UP i2 else i2))
    (s ← remove_ip6_loop (v6 i) s2; s ← call_ (C_mld6_stop n) s; i ← getn n s; if netif_is_up i then netif_set_down n s else Ok s)).
  { eapply updates_bind; [by apply remove_ip6_ok; [done|apply Hinv2]|]. intros s3 i3 c3 [-> ->] Hi3 He3.
    eapply updates_bind; [by eapply (updates_of _ _ _ _ _ (λ j cs, j = i2)); [apply call_changes|]|]. intros s4 i4 c4 -> Hi4 He4.
    eapply updates_getn; [done|]. unfold netif_is_up. destruct (flag_set i2 NETIF_FLAG_UP) eqn:E; [|by apply (updates_ret _ _ _ i2)].
    eapply updates_mono; [by apply set_down_ok|]. intros j cs. rewrite E. by intros [-> _]. }
  eapply yields_mono; [exact Hup|]. intros s3 (i3 & c3 & Hch & ->). set (i3 := if flag_set i2 _ then _ else _) in *.
  assert (Hi3 : igmp_data i3 = [] ∧ same_owner i2 i3 ∧ iface_ok i3 ∧ flag_set i3 NETIF_FLAG_UP = false).
  { subst i3. destruct (flag_set i2 NETIF_FLAG_UP) eqn:E; [|done]. split; [done|]. split; [done|]. split; [by apply clear_flags_ok|].
    rewrite flag_set_clear by apply Hok2. change (Z.land (u8 _) _) with 0. by rewrite Z.land_0_r. }
  destruct Hi3 as (Hg3 & Hso & Hok3 & Hup3). split; [by apply (changes_inv L s2 n i2 i3 c3 s3)|].
  destruct Hch. split; [congruence|]. split; [congruence|]. exists i3. split; [by rewrite ch_ifs, Hifs2, insert_insert_eq|done].
Qed.

Lemma netif_remove_ok L s n : net_inv L s → n ∈ netif_list s →
  yields (netif_remove (Some n) s) (λ s', net_inv L s' ∧
    (∃ l1 l2, netif_list s = l1 ++ n :: l2 ∧ netif_list s' = l1 ++ l2) ∧
    netif_default s' = (if bool_decide (netif_default s = Some n) then None else netif_default s) ∧
    ∃ i', ifs s' = <[n := i']> (ifs s) ∧ igmp_data i' = [] ∧ flag_set i' NETIF_FLAG_UP = false).
Proof.
  intros Hinv Hn. destruct (inv_lookup L s n Hinv Hn) as (i & Hi & Hok). cbn [netif_remove].
  destruct (remove_prepare_ok L s n i Hinv Hn Hi) as (s' & Hrun & Hinv' & Hl' & Hd' & i' & Hifs' & Hg' & Hup').
  rewrite (getn_Some _ _ _ Hi). cbn [mbind res_bind].
  apply res_bind_Ok in Hrun as (x1 & -> & Hrun). cbn [mbind res_bind]. apply res_bind_Ok in Hrun as (x2 & -> & Hrun). cbn [mbind res_bind].
  apply res_bind_Ok in Hrun as (x3 & -> & Hrun). cbn [mbind res_bind]. apply res_bind_Ok in Hrun as (x4 & -> & Hrun). cbn [mbind res_bind].
  apply res_bind_Ok in Hrun as (x5 & -> & Hrun). cbn [mbind res_bind]. rewrite Hrun. cbn [mbind res_bind].
  set (s2 := if bool_decide (netif_default s' = Some n) then netif_set_default None s' else s').
  assert (Hs2 : net_inv L s2 ∧ netif_list s2 = netif_list s ∧ ifs s2 = ifs s' ∧ netif_default s2 ≠ Some n ∧
    netif_default s2 = (if bool_decide (netif_default s = Some n) then None else netif_default s)).
  { subst s2. rewrite <-Hd'. case_bool_decide; [|done]. split; [|done]. destruct Hinv'. by split. }
  destruct Hs2 as (Hinv2 & Hl2 & Hifs2 & Hdn & Hd2). rewrite <-Hifs2 in Hifs'.
  assert (Hin : ∃ l1 l2, netif_list s = l1 ++ n :: l2 ∧
    (match netif_list s2 with
      | hd :: tl => if hd =? n then Ok (set_list tl s2) else match remove_from_list n (netif_list s2) with Some l => Ok (set_list l s2) | None => Ok s2 end
      | [] => Ok s2
      end) = Ok (set_list (l1 ++ l2) s2)).
  { rewrite Hl2. pose proof (ni_nodup _ _ Hinv) as Hnd. destruct (netif_list s) as [|hd tl]; [by apply elem_of_nil in Hn|].
    destruct (hd =? n) eqn:E; breflect; [subst hd; by exists [], tl|]. apply elem_of_cons in Hn as [->|Hn]; [done|].
    destruct (remove_from_list_ok n hd tl Hnd Hn) as (l1 & l2 & -> & ->). by exists l1, l2. }
  destruct Hin as (l1 & l2 & Hl & ->). apply yields_ret. split; [|split; [by exists l1, l2|split; [done|by exists i']]].
  apply (unlist_inv L s2 n i'); try done; [by rewrite Hifs', lookup_insert_eq|by rewrite Hl2].
Qed.

End operations.
