(* ===== verification/AutoipFacts.v ===== *)
(** * Link-local addresses: the lemmas

    The addresses AutoIP chooses, and what its functions do to an interface. *)

From S2P Require Import Prelude ByteMem Def IpAddr Ip4Addr Ip4AddrFacts Ip6AddrText MempPool Etharp Iface Igmp Netif Autoip IfaceFacts IgmpFacts NetifFacts IfaceInv.

(** ** The address to try *)

(** The low 16 bits, from the sum of the two bytes of the hardware address, the tries
    and the start of the range. *)
Definition in_range16 (x : Z) : Z := if x <? 256 then x + 65024 else if 65279 <? x then x - 65024 else x.

(** The address number [t] for an interface, in host byte order. *)
Definition candidate (i : iface) (t : Z) : Z := AUTOIP_NET + in_range16 ((256 + hw i 4 + 256 * hw i 5 + t) mod 65536).

Lemma candidate_range i t : AUTOIP_RANGE_START ≤ candidate i t ≤ AUTOIP_RANGE_END.
Proof.
  unfold candidate, in_range16. change AUTOIP_RANGE_START with (AUTOIP_NET + 256). change AUTOIP_RANGE_END with (AUTOIP_NET + 65279).
  pose proof (Z.mod_pos_bound (256 + hw i 4 + 256 * hw i 5 + t) 65536 ltac:(lia)).
  destruct (_ <? 256) eqn:E1; [lia|]. destruct (65279 <? _) eqn:E2; lia.
Qed.

(** Different tries give different addresses. *)
Lemma candidate_inj i t1 t2 : is_u8 t1 → is_u8 t2 → candidate i t1 = candidate i t2 → t1 = t2.
Proof.
  intros H1 H2. unfold candidate, in_range16, is_u8 in *. set (h := 256 + hw i 4 + 256 * hw i 5). intros He.
  destruct ((h + t1) mod 65536 <? 256) eqn:E1, ((h + t2) mod 65536 <? 256) eqn:E2, (65279 <? (h + t1) mod 65536) eqn:E3, (65279 <? (h + t2) mod 65536) eqn:E4; zlia.
Qed.

Lemma hw_u8 i k : iface_ok i → is_u8 (hw i k).
Proof.
  intros [[Hl Hf] _ _ _ _ _ _ _ _ _]. unfold hw. destruct (decide (k < 6)%nat) as [Hk|Hk].
  - eapply Forall_forall; [exact Hf|]. apply list_elem_of_In, nth_In. lia.
  - rewrite nth_overflow by lia. done.
Qed.

Lemma lor_bytes x y : is_u8 x → is_u8 y → Z.lor x (Z.shiftl y 8) = x + 256 * y.
Proof.
  intros Hx Hy. rewrite Z.lor_comm, Z.shiftl_mul_pow2 by lia. rewrite lor_add_disjoint by (unfold is_u8 in *; lia). lia.
Qed.

Lemma ll_host a : AUTOIP_RANGE_START ≤ a ≤ AUTOIP_RANGE_END → ll_addr (lwip_htonl a) ∧ lwip_htonl (lwip_htonl a) = a.
Proof.
  intros Ha. assert (Hu : is_u32 a) by (unfold is_u32; change AUTOIP_RANGE_START with 2851995904 in Ha; change AUTOIP_RANGE_END with 2852060927 in Ha; lia).
  rewrite htonl_htonl by done. split; [|done]. split; [by apply htonl_u32|]. by rewrite htonl_htonl.
Qed.

Lemma or_net x : 0 ≤ x < 65536 → Z.lor AUTOIP_NET x = AUTOIP_NET + x.
Proof. intros Hx. change AUTOIP_NET with (43518 * 2 ^ 16). apply lor_add_disjoint; lia. Qed.

Section operations.
Context {P W : Type} `{PoolLaws P} `{NetEnvLaws W}.
Implicit Types s : nstate P W.

Lemma create_addr_ok s n i a : ifs s !! n = Some i → iface_ok i → autoip_data i = Some a → is_u8 (tried_llipaddr a) →
  autoip_create_addr n s = Ok (lwip_htonl (candidate i (tried_llipaddr a))).
Proof.
  intros Hi Hok Ha Ht. unfold autoip_create_addr, get_autoip. rewrite (getn_Some _ _ _ Hi). cbn [mbind res_bind]. rewrite Ha. cbn [deref mbind res_bind].
  unfold LWIP_AUTOIP_CREATE_SEED_ADDR. pose proof (hw_u8 i 4 Hok) as H4. pose proof (hw_u8 i 5 Hok) as H5.
  rewrite lor_bytes by done. change AUTOIP_RANGE_START with 2851995904. change AUTOIP_RANGE_END with 2852060927.
  rewrite (u32_id (2851995904 + _)) by ulia. rewrite htonl_htonl by (unfold is_u8, is_u32 in *; lia).
  rewrite (u32_id (2851995904 + _ + _)) by ulia. rewrite (land_ones_mod _ 16) by (done || lia). rewrite or_net by (apply Z.mod_pos_bound; lia).
  replace ((2851995904 + (hw i 4 + 256 * hw i 5) + tried_llipaddr a) mod 2 ^ 16) with ((256 + hw i 4 + 256 * hw i 5 + tried_llipaddr a) mod 65536)
    by (change (2 ^ 16) with 65536; rewrite <-(Z_mod_plus_full (256 + _ + _ + _) 43518 65536); f_equal; lia).
  pose proof (candidate_range i (tried_llipaddr a)) as Hr. change AUTOIP_RANGE_START with 2851995904 in Hr. change AUTOIP_RANGE_END with 2852060927 in Hr.
  unfold candidate, in_range16 in *. set (x := (256 + hw i 4 + 256 * hw i 5 + tried_llipaddr a) mod 65536) in *.
  pose proof (Z.mod_pos_bound (256 + hw i 4 + 256 * hw i 5 + tried_llipaddr a) 65536 ltac:(lia)) as Hx. fold x in Hx. clearbody x.
  unfold AUTOIP_NET in *. replace (2851995648 + x <? 2851995904) with (x <? 256) by lia.
  destruct (x <? 256) eqn:E1; breflect.
  - rewrite u32_id by ulia. replace (2851995648 + x + (2852060927 - 2851995904 + 1)) with (2851995648 + (x + 65024)) by lia.
    replace (2852060927 <? 2851995648 + (x + 65024)) with false by lia. replace (_ && _) with true by lia. done.
  - replace (2852060927 <? 2851995648 + x) with (65279 <? x) by lia. destruct (65279 <? x) eqn:E2; breflect.
    + rewrite u32_id by ulia. replace (2851995648 + x - (2852060927 - 2851995904 + 1)) with (2851995648 + (x - 65024)) by lia.
      replace (_ && _) with true by lia. done.
    + replace (_ && _) with true by lia. done.
Qed.

(** ** The struct of an interface *)

Lemma get_autoip_Some s n i a : ifs s !! n = Some i → autoip_data i = Some a → get_autoip n s = Ok a.
Proof. intros Hi Ha. unfold get_autoip. rewrite (getn_Some _ _ _ Hi). cbn [mbind res_bind]. by rewrite Ha. Qed.

Lemma put_autoip_updates L s n i a (Q : iface → list call → Prop) : ifs s !! n = Some i → env_ok (nworld s) L →
  Q (with_autoip (Some a) i) [] → updates L s n Q (put_autoip n a s).
Proof. intros Hi He HQ. by eapply updates_of; [apply modn_changes|]. Qed.

(** ** Probing *)

(** The number of ticks before the first probe. *)
Definition probe_wait (i : iface) (t : Z) : Z :=
  if MAX_CONFLICTS <? t then 600 else LWIP_AUTOIP_RAND i mod 10.

Lemma probe_wait_range i t : 0 ≤ probe_wait i t ≤ 600.
Proof. unfold probe_wait. destruct (_ <? _); [lia|]. pose proof (Z.mod_pos_bound (LWIP_AUTOIP_RAND i) 10 ltac:(lia)). lia. Qed.

Definition probing (i : iface) (a : autoip) : autoip :=
  Autoip (llipaddr a) AUTOIP_STATE_PROBING 0 (probe_wait i (tried_llipaddr a)) (lastconflict a) (tried_llipaddr a).

Lemma start_probing_ok L s n i a : ifs s !! n = Some i → env_ok (nworld s) L → autoip_data i = Some a →
  updates L s n (λ i' cs, i' = with_autoip (Some (probing i a)) i ∧ cs = []) (autoip_start_probing n s).
Proof.
  intros Hi He Ha. unfold autoip_start_probing. rewrite (getn_Some _ _ _ Hi). cbn [mbind res_bind].
  rewrite (get_autoip_Some _ _ _ _ Hi Ha). cbn [mbind res_bind]. apply (put_autoip_updates L s n i); [done|done|]. split; [|done].
  do 2 f_equal. unfold probing, probe_wait. cbn [tried_llipaddr with_ttw with_sent_num with_ai_state].
  change (PROBE_WAIT * AUTOIP_TICKS_PER_SECOND) with 10. change (RATE_LIMIT_INTERVAL * AUTOIP_TICKS_PER_SECOND) with 600.
  pose proof (Z.mod_pos_bound (LWIP_AUTOIP_RAND i) 10 ltac:(lia)). rewrite u16_id by ulia. by destruct (_ <? _).
Qed.

(** ** Starting *)

(** The interface after a start that picks try number [t]. *)
Definition started_at (t : Z) (i : iface) : iface :=
  with_autoip (Some (Autoip (lwip_htonl (candidate i t)) AUTOIP_STATE_PROBING 0
                       (probe_wait (with_autoip (Some (Autoip 0 AUTOIP_STATE_OFF 0 0 0 t)) i) t) 0 t))
    (readdressed 0 0 0 i).

(** From the struct cleared to the first wait. *)
Lemma start_tail_ok L s n i t : ifs s !! n = Some i → env_ok (nworld s) L → iface_ok i →
  autoip_data i = Some (Autoip 0 AUTOIP_STATE_OFF 0 0 0 t) → is_u8 t →
  updates_val L s n (λ r i' cs, r = ERR_OK ∧ cs = [] ∧
      i' = with_autoip (Some (Autoip (lwip_htonl (candidate i t)) AUTOIP_STATE_PROBING 0 (probe_wait i t) 0 t)) i)
    (addr ← autoip_create_addr n s;
     a ← get_autoip n s;
     s ← put_autoip n (with_llipaddr addr a) s;
     s ← autoip_start_probing n s;
     Ok (ERR_OK, s)).
Proof.
  intros Hi He Hok Ha Ht. rewrite (create_addr_ok s n i _ Hi Hok Ha Ht). cbn [mbind res_bind tried_llipaddr].
  rewrite (get_autoip_Some _ _ _ _ Hi Ha). cbn [mbind res_bind]. set (a1 := with_llipaddr _ _).
  eapply updates_bind_val; [by eapply (put_autoip_updates _ _ _ i _ (λ j cs, j = with_autoip (Some a1) i ∧ cs = []))|].
  intros s1 i1 c1 [-> ->] Hi1 He1. eapply updates_bind_val; [by apply (start_probing_ok L s1 n (with_autoip (Some a1) i) a1)|].
  intros s2 i2 c2 [-> ->] Hi2 He2. apply (updates_val_ret _ _ _ _ _ _ Hi2 He2). split; [done|]. split; [done|].
  unfold probing, probe_wait, LWIP_AUTOIP_RAND. cbn. by rewrite Ha.
Qed.

Lemma autoip_start_ok L s n i : ifs s !! n = Some i → env_ok (nworld s) L → iface_ok i → netif_is_up i = true →
  updates_val L s n (λ r i' cs, cs = set_addr_calls n i 0 0 0 ∧
      match autoip_data i with
      | None => r = ERR_MEM ∧ regrouped (readdressed 0 0 0 i) i' ∨ r = ERR_OK ∧ regrouped (started_at 0 i) i'
      | Some a => r = ERR_OK ∧ regrouped (started_at (tried_llipaddr a) i) i'
      end) (autoip_start n s).
Proof.
  intros Hi He Hok Hup. unfold autoip_start. rewrite (getn_Some _ _ _ Hi). cbn [mbind res_bind]. rewrite Hup. cbn [LWIP_ASSERT mbind res_bind].
  eapply updates_bind_val; [apply set_addr_ok; [done|done|apply Hok]|]. intros s1 i1 c1 [(gs & -> & Hr) ->] Hi1 He1.
  change (or_any (Some IP4_ADDR_ANY4)) with 0 in *. set (i1 := with_igmp gs (readdressed 0 0 0 i)) in *.
  assert (Hok1 : iface_ok i1).
  { eapply regrouped_ok; [|by exists gs]. apply with_ip_ok; [done|]. apply with_gw_ok; [done|]. by apply with_mask_ok. }
  assert (Htail : ∀ s2 t, ifs s2 !! n = Some (with_autoip (Some (Autoip 0 AUTOIP_STATE_OFF 0 0 0 t)) i1) → env_ok (nworld s2) L → is_u8 t →
    updates_val L s2 n (λ r i' cs, r = ERR_OK ∧ cs = [] ∧ regrouped (started_at t i) i')
      (addr ← autoip_create_addr n s2; a ← get_autoip n s2; s ← put_autoip n (with_llipaddr addr a) s2; s ← autoip_start_probing n s; Ok (ERR_OK, s))).
  { intros s2 t Hi2 He2 Ht. eapply yields_mono; [eapply (start_tail_ok L s2 n _ t Hi2 He2); try done|].
    - apply with_autoip_ok; [|done]. split_and!; try done; try apply Ht.
    - intros [r s3] (i3 & c3 & Hch & Hr1 & -> & ->). cbn [fst snd] in *. exists (with_autoip (Some (Autoip (lwip_htonl (candidate i t)) AUTOIP_STATE_PROBING 0
        (probe_wait (with_autoip (Some (Autoip 0 AUTOIP_STATE_OFF 0 0 0 t)) i) t) 0 t)) i1), []. split; [exact Hch|]. split; [done|]. split; [done|]. by exists gs. }
  destruct (autoip_data i) as [a|] eqn:Ea.
  - rewrite (get_autoip_Some s1 n i1 a Hi1 Ea). cbn [mbind res_bind]. set (a0 := Autoip 0 AUTOIP_STATE_OFF 0 0 0 (tried_llipaddr a)).
    destruct (put_autoip_updates L s1 n i1 a0 (λ j cs, j = with_autoip (Some a0) i1 ∧ cs = []) Hi1 He1 (conj eq_refl eq_refl)) as (s2 & -> & i2 & c2 & Hch2 & -> & ->).
    cbn [mbind res_bind negb]. pose proof (io_autoip i Hok a Ea) as (_ & _ & _ & Ht & _).
    destruct (Htail s2 (tried_llipaddr a) (changes_lookup _ _ _ _ _ _ Hch2) (ch_env _ _ _ _ _ _ Hch2) Ht) as ([r s3] & -> & i3 & c3 & Hch3 & Hrr & -> & Hr3). cbn [fst snd] in *. subst r.
    apply yields_ret. exists i3, []. split; [exact (changes_trans _ _ _ _ _ _ _ _ _ Hch2 Hch3)|]. split; [by rewrite app_nil_r|done].
  - destruct (calloc_ok (nworld s1) L He1) as (r & w & -> & Hew & Hlw). cbn [mbind res_bind].
    assert (Hch1 : changes L s1 n i1 [] (set_nworld w s1)).
    { split; try done; cbn; [by rewrite insert_id|by rewrite Hlw, app_nil_r]. }
    destruct r.
    + set (a0 := Autoip 0 AUTOIP_STATE_OFF 0 0 0 0).
      destruct (put_autoip_updates L (set_nworld w s1) n i1 a0 (λ j cs, j = with_autoip (Some a0) i1 ∧ cs = []) Hi1 Hew (conj eq_refl eq_refl)) as (s2 & -> & i2 & c2 & Hch2 & -> & ->).
      cbn [mbind res_bind negb]. destruct (Htail s2 0 (changes_lookup _ _ _ _ _ _ Hch2) (ch_env _ _ _ _ _ _ Hch2)) as ([r s3] & -> & i3 & c3 & Hch3 & Hrr & -> & Hr3); [done|]. cbn [fst snd] in *. subst r.
      apply yields_ret. exists i3, []. split; [exact (changes_trans _ _ _ _ _ _ _ _ _ Hch1 (changes_trans _ _ _ _ _ _ _ _ _ Hch2 Hch3))|].
      split; [by rewrite app_nil_r|by right].
    + cbn [mbind res_bind negb]. apply yields_ret. exists i1, []. split; [done|]. split; [by rewrite app_nil_r|]. left. split; [done|]. by exists gs.
Qed.

Lemma started_at_ok t i : is_u8 t → iface_ok i → iface_ok (started_at t i).
Proof.
  intros Ht Hok. apply with_autoip_ok.
  - set (pw := probe_wait _ t). pose proof (probe_wait_range (with_autoip (Some (Autoip 0 AUTOIP_STATE_OFF 0 0 0 t)) i) t) as Hw. fold pw in Hw. clearbody pw.
    split; [done|]. split; [unfold is_u16; cbn; lia|]. split; [done|]. split; [done|]. destruct (ll_host _ (candidate_range i t)) as [Hc _].
    split; [exact (proj1 Hc)|]. intros _. exact Hc.
  - apply with_ip_ok; [done|]. apply with_gw_ok; [done|]. by apply with_mask_ok.
Qed.

(** ** Conflicts *)

Lemma autoip_restart_ok L s n i a : ifs s !! n = Some i → env_ok (nworld s) L → iface_ok i → netif_is_up i = true → autoip_data i = Some a →
  updates L s n (λ i' cs, cs = set_addr_calls n i 0 0 0 ∧ regrouped (started_at (u8 (tried_llipaddr a + 1)) i) i') (autoip_restart n s).
Proof.
  intros Hi He Hok Hup Ha. unfold autoip_restart. rewrite (get_autoip_Some _ _ _ _ Hi Ha). cbn [mbind res_bind].
  set (a1 := with_tried _ a). set (i1 := with_autoip (Some a1) i).
  eapply updates_bind; [by eapply (put_autoip_updates _ _ _ i _ (λ j cs, j = i1 ∧ cs = []))|]. intros s1 j1 c1 [-> ->] Hi1 He1.
  eapply updates_mono.
  { apply updates_drop, (autoip_start_ok L s1 n i1 Hi1 He1); [|done]. apply with_autoip_ok; [|done].
    pose proof (io_autoip i Hok a Ha) as (? & ? & ? & ? & ?). split; [done|]. split; [done|]. split; [done|]. split; [apply u8_range|done]. }
  intros i' cs (r & -> & _ & Hr). split; [done|exact Hr].
Qed.

(** A packet that shows another user of the address. *)
Definition conflicts (i : iface) (a : autoip) (hdr : etharp_hdr) : bool :=
  let own := bool_decide (take 6 (hwaddr (base i)) = shwaddr hdr) in
  match ai_state a with
  | AUTOIP_STATE_OFF => false
  | AUTOIP_STATE_PROBING =>
      (sipaddr hdr =? llipaddr a) || (ip4_addr_isany_val (sipaddr hdr) && (dipaddr hdr =? llipaddr a) && negb own)
  | _ => (sipaddr hdr =? llipaddr a) && negb own
  end.

(** Is the address given up?  An address in use is defended first. *)
Definition gives_up (a : autoip) : bool := bool_decide (ai_state a = AUTOIP_STATE_PROBING) || (0 <? lastconflict a).

Lemma arp_reply_ok L s n i hdr : ifs s !! n = Some i → env_ok (nworld s) L → iface_ok i → netif_is_up i = true →
  updates L s n (λ i' cs,
      match autoip_data i with
      | Some a =>
          if conflicts i a hdr then
            if gives_up a then cs = set_addr_calls n i 0 0 0 ∧ regrouped (started_at (u8 (tried_llipaddr a + 1)) i) i'
            else cs = [C_etharp_gratuitous n (base i)] ∧ i' = with_autoip (Some (with_lastconflict 100 a)) i
          else cs = [] ∧ i' = i
      | None => cs = [] ∧ i' = i
      end) (autoip_arp_reply n hdr s).
Proof.
  intros Hi He Hok Hup. unfold autoip_arp_reply. rewrite (getn_Some _ _ _ Hi). cbn [mbind res_bind].
  destruct (autoip_data i) as [a|] eqn:Ea; [|by apply (updates_ret _ _ _ i)].
  assert (Hdefend : updates L s n (λ i' cs,
      if 0 <? lastconflict a then cs = set_addr_calls n i 0 0 0 ∧ regrouped (started_at (u8 (tried_llipaddr a + 1)) i) i'
      else cs = [C_etharp_gratuitous n (base i)] ∧ i' = with_autoip (Some (with_lastconflict 100 a)) i) (autoip_handle_arp_conflict n s)).
  { unfold autoip_handle_arp_conflict. rewrite (get_autoip_Some _ _ _ _ Hi Ea). cbn [mbind res_bind].
    destruct (0 <? lastconflict a); [by apply autoip_restart_ok|]. unfold autoip_arp_announce. rewrite (getn_Some _ _ _ Hi). cbn [mbind res_bind].
    eapply updates_bind; [by eapply (updates_of _ _ _ _ _ (λ j cs, j = i ∧ cs = [C_etharp_gratuitous n (base i)])); [apply call_changes|]|].
    intros s1 i1 c1 [-> ->] Hi1 He1. rewrite (get_autoip_Some _ _ _ _ Hi1 Ea). cbn [mbind res_bind]. by apply (put_autoip_updates L s1 n i). }
  unfold conflicts, gives_up. change (Z.to_nat ETH_HWADDR_LEN) with 6%nat. destruct (ai_state a); cbn [bool_decide decide orb].
  - by apply (updates_ret _ _ _ i).
  - destruct (_ || _); [by apply autoip_restart_ok|by apply (updates_ret _ _ _ i)].
  - destruct (_ && _); [done|by apply (updates_ret _ _ _ i)].
  - destruct (_ && _); [done|by apply (updates_ret _ _ _ i)].
Qed.

(** ** The timer *)

(** The two counters of a tick. *)
Definition tick_counters (a : autoip) : autoip :=
  Autoip (llipaddr a) (ai_state a) (sent_num a) (Z.max 0 (ttw a - 1)) (Z.max 0 (lastconflict a - 1)) (tried_llipaddr a).

(** Ticks between two probes. *)
Definition probe_gap (i : iface) : Z := LWIP_AUTOIP_RAND i mod 10 + 10.

(** The struct after a tick; [i] is the interface. *)
Definition tick_autoip (i : iface) (a : autoip) : autoip :=
  let a := tick_counters a in
  match ai_state a with
  | AUTOIP_STATE_PROBING =>
      if ttw a =? 0 then
        if 3 <=? sent_num a then with_ttw 20 (with_sent_num 1 (with_ai_state AUTOIP_STATE_ANNOUNCING a))
        else let a := with_sent_num (u8 (sent_num a + 1)) a in
             if sent_num a =? 3 then with_ttw 20 a else with_ttw (probe_gap i) a
      else a
  | AUTOIP_STATE_ANNOUNCING =>
      if ttw a =? 0 then
        let a := with_sent_num (u8 (sent_num a + 1)) (with_ttw 20 a) in
        if 2 <=? sent_num a then with_ttw 0 (with_sent_num 0 (with_ai_state AUTOIP_STATE_BOUND a)) else a
      else a
  | _ => a
  end.

(** Does the tick bind the interface to the address? *)
Definition binds (a : autoip) : bool :=
  bool_decide (ai_state a = AUTOIP_STATE_PROBING) && (ttw (tick_counters a) =? 0) && (3 <=? sent_num a).

(** 255.255.0.0 in network byte order. *)
Definition ll_mask : Z := PP_HTONL 4294901760.

Definition tick_iface (i : iface) (a : autoip) : iface :=
  with_autoip (Some (tick_autoip i a)) (if binds a then readdressed (llipaddr a) ll_mask 0 i else i).

(** The calls of a tick. *)
Definition tick_calls (n : Z) (i : iface) (a : autoip) : list call :=
  if ttw (tick_counters a) =? 0 then
    match ai_state a with
    | AUTOIP_STATE_PROBING =>
        if 3 <=? sent_num a then set_addr_calls n i (llipaddr a) ll_mask 0 else [C_etharp_request n (base i) (llipaddr a)]
    | AUTOIP_STATE_ANNOUNCING => [C_etharp_gratuitous n (base i)]
    | _ => []
    end
  else [].

Lemma tick_counters_eq a : is_u16 (ttw a) → is_u8 (lastconflict a) →
  (let a := if 0 <? lastconflict a then with_lastconflict (lastconflict a - 1) a else a in
   if 0 <? ttw a then with_ttw (ttw a - 1) a else a) = tick_counters a.
Proof.
  intros Ht Hl. unfold is_u16, is_u8 in *. destruct a as [ll st sn t lc tr]. cbn in *.
  destruct (0 <? lc) eqn:E1; cbn; destruct (0 <? t) eqn:E2; unfold tick_counters, with_ttw, with_lastconflict; cbn; f_equal; lia.
Qed.

Lemma bind_ok L s n i a : ifs s !! n = Some i → env_ok (nworld s) L → groups_ok (igmp_data i) → autoip_data i = Some a →
  updates L s n (λ i' cs, cs = set_addr_calls n i (llipaddr a) ll_mask 0 ∧ regrouped (readdressed (llipaddr a) ll_mask 0 i) i') (autoip_bind n s).
Proof.
  intros Hi He Hok Ha. unfold autoip_bind. rewrite (get_autoip_Some _ _ _ _ Hi Ha). cbn [mbind res_bind].
  eapply updates_mono; [by apply set_addr_ok|]. intros i' cs [Hr ->]. done.
Qed.

Lemma tmr_probing_ok L s n i a : ifs s !! n = Some i → env_ok (nworld s) L → iface_ok i → autoip_data i = Some a →
  updates L s n (λ i' cs,
      if 3 <=? sent_num a then
        cs = set_addr_calls n i (llipaddr a) ll_mask 0 ∧
        regrouped (with_autoip (Some (with_ttw 20 (with_sent_num 1 (with_ai_state AUTOIP_STATE_ANNOUNCING a)))) (readdressed (llipaddr a) ll_mask 0 i)) i'
      else
        cs = [C_etharp_request n (base i) (llipaddr a)] ∧
        i' = with_autoip (Some (let a := with_sent_num (u8 (sent_num a + 1)) a in
                                if sent_num a =? 3 then with_ttw 20 a else with_ttw (probe_gap i) a)) i) (tmr_probing n s).
Proof.
  intros Hi He Hok Ha. unfold tmr_probing. rewrite (get_autoip_Some _ _ _ _ Hi Ha). cbn [mbind res_bind]. change PROBE_NUM with 3.
  destruct (3 <=? sent_num a).
  - set (a1 := with_ai_state AUTOIP_STATE_ANNOUNCING a). set (i1 := with_autoip (Some a1) i).
    eapply updates_bind; [by eapply (put_autoip_updates _ _ _ i _ (λ j cs, j = i1 ∧ cs = []))|]. intros s1 j1 c1 [-> ->] Hi1 He1.
    eapply updates_bind; [by apply (bind_ok L s1 n i1 a1); try done; apply Hok|]. intros s2 i2 c2 [-> (gs & -> & Hr)] Hi2 He2.
    rewrite (get_autoip_Some s2 n _ a1 Hi2) by done. cbn [mbind res_bind]. eapply put_autoip_updates; [done|done|].
    split; [cbn [app]; by rewrite app_nil_r|]. by exists gs.
  - unfold autoip_arp_probe. rewrite (getn_Some _ _ _ Hi), (get_autoip_Some _ _ _ _ Hi Ha). cbn [mbind res_bind].
    eapply updates_bind; [by eapply (updates_of _ _ _ _ _ (λ j cs, j = i ∧ cs = [C_etharp_request n (base i) (llipaddr a)])); [apply call_changes|]|].
    intros s1 i1 c1 [-> ->] Hi1 He1. rewrite (get_autoip_Some _ _ _ _ Hi1 Ha), (getn_Some _ _ _ Hi1). cbn [mbind res_bind].
    apply (put_autoip_updates L s1 n i); [done|done|]. split; [done|]. do 2 f_equal. cbn zeta. unfold probe_gap.
    change ((PROBE_MAX - PROBE_MIN) * AUTOIP_TICKS_PER_SECOND) with 10. change (PROBE_MIN * AUTOIP_TICKS_PER_SECOND) with 10.
    change (ANNOUNCE_WAIT * AUTOIP_TICKS_PER_SECOND) with 20.
    pose proof (Z.mod_pos_bound (LWIP_AUTOIP_RAND i) 10 ltac:(lia)). by rewrite u16_id by ulia.
Qed.

Lemma tmr_announcing_ok L s n i a : ifs s !! n = Some i → env_ok (nworld s) L → autoip_data i = Some a →
  updates L s n (λ i' cs, cs = [C_etharp_gratuitous n (base i)] ∧
      i' = with_autoip (Some (let a := with_sent_num (u8 (sent_num a + 1)) (with_ttw 20 a) in
                              if 2 <=? sent_num a then with_ttw 0 (with_sent_num 0 (with_ai_state AUTOIP_STATE_BOUND a)) else a)) i)
    (tmr_announcing n s).
Proof.
  intros Hi He Ha. unfold tmr_announcing, autoip_arp_announce. rewrite (getn_Some _ _ _ Hi). cbn [mbind res_bind].
  eapply updates_bind; [by eapply (updates_of _ _ _ _ _ (λ j cs, j = i ∧ cs = [C_etharp_gratuitous n (base i)])); [apply call_changes|]|].
  intros s1 i1 c1 [-> ->] Hi1 He1. rewrite (get_autoip_Some _ _ _ _ Hi1 Ha). cbn [mbind res_bind]. by apply (put_autoip_updates L s1 n i).
Qed.

(** What a tick does to one interface. *)
Lemma tmr_netif_ok L s n i : ifs s !! n = Some i → env_ok (nworld s) L → iface_ok i →
  updates L s n (λ i' cs, match autoip_data i with
                          | Some a => regrouped (tick_iface i a) i' ∧ cs = tick_calls n i a
                          | None => i' = i ∧ cs = []
                          end) (autoip_tmr_netif n s).
Proof.
  intros Hi He Hok. unfold autoip_tmr_netif. rewrite (getn_Some _ _ _ Hi). cbn [mbind res_bind].
  destruct (autoip_data i) as [a|] eqn:Ea; [|by apply (updates_ret _ _ _ i)].
  pose proof (io_autoip i Hok a Ea) as (Hsn & Htw & Hlc & _). pose proof (tick_counters_eq a Htw Hlc) as Ht. cbn zeta in Ht. rewrite Ht.
  set (a1 := tick_counters a). set (i1 := with_autoip (Some a1) i).
  eapply updates_bind; [by eapply (put_autoip_updates _ _ _ i _ (λ j cs, j = i1 ∧ cs = []))|]. intros s1 j1 c1 [-> ->] Hi1 He1. cbn [app].
  assert (Hrand : LWIP_AUTOIP_RAND i1 = LWIP_AUTOIP_RAND i) by (unfold LWIP_AUTOIP_RAND; cbn; by rewrite Ea).
  assert (Hg1 : groups_ok (igmp_data i1)) by apply Hok.
  unfold tick_iface, tick_calls, tick_autoip, binds. fold a1. change (ai_state a) with (ai_state a1). change (sent_num a) with (sent_num a1).
  destruct (ai_state a1) eqn:Est; rewrite ?bool_decide_eq_false_2, ?bool_decide_eq_true_2 by done; cbn [andb].
  - apply (updates_ret _ _ _ i1); [done|done|]. split; [by apply regrouped_refl|]. by destruct (_ =? 0).
  - destruct (ttw a1 =? 0) eqn:Et; cbn [andb]; [|apply (updates_ret _ _ _ i1); [done|done|]; split; [by apply regrouped_refl|done]].
    eapply updates_mono; [apply (tmr_probing_ok L s1 n i1 a1); try done|].
    { apply with_autoip_ok; [|done]. pose proof (io_autoip i Hok a Ea) as (? & ? & ? & ? & ? & Hll). unfold is_u16, is_u8 in *.
      split; [done|]. split; [unfold is_u16; cbn; lia|]. split; [unfold is_u8; cbn; lia|]. split; [done|]. split; [done|]. intros Hs. by apply Hll. }
    intros i' cs. cbn beta. destruct (3 <=? sent_num a1).
    + intros [-> Hr]. split; [exact Hr|done].
    + intros [-> ->]. split; [|done]. unfold probe_gap. rewrite Hrand. by apply regrouped_refl.
  - destruct (ttw a1 =? 0) eqn:Et; [|apply (updates_ret _ _ _ i1); [done|done|]; split; [by apply regrouped_refl|done]].
    eapply updates_mono; [by apply (tmr_announcing_ok L s1 n i1 a1)|]. intros i' cs [-> ->]. split; [by apply regrouped_refl|done].
  - apply (updates_ret _ _ _ i1); [done|done|]. split; [by apply regrouped_refl|]. by destruct (_ =? 0).
Qed.

End operations.
