(* ===== verification/AutoipRuns.v ===== *)
(** * Link-local addresses: the time behaviour

    All interfaces tick together; an interface that is left in peace takes a fixed
    number of ticks from the start of the probing to the use of its address, and sends
    the packets of RFC 3927 in between. *)

From S2P Require Import Prelude ByteMem Def IpAddr Ip4Addr MempPool Etharp Iface Igmp Netif Autoip IfaceFacts IgmpFacts NetifFacts IfaceInv AutoipFacts.

(** ** ARP packets of an interface *)

Definition arp_of (n : Z) (c : call) : bool :=
  match c with
  | C_etharp_gratuitous m _ => m =? n
  | C_etharp_request m _ _ => m =? n
  | _ => false
  end.

Definition arp_calls (n : Z) (cs : list call) : list call := List.filter (arp_of n) cs.

Lemma arp_calls_app n cs cs' : arp_calls n (cs ++ cs') = arp_calls n cs ++ arp_calls n cs'.
Proof. apply List.filter_app. Qed.

(** The announcement of an address when it is set. *)
Definition announced (n : Z) (i : iface) : list call :=
  if flag_set i NETIF_FLAG_LINK_UP && flag_set i NETIF_FLAG_UP && flag_set i NETIF_FLAG_ETHARP
  then [C_etharp_gratuitous n (base i)] else [].

Lemma arp_set_addr n m i ip mask gw : arp_calls n (set_addr_calls m i ip mask gw) =
  if (ip =? nip i) || (ip =? 0) || negb (m =? n) then [] else announced n (readdressed ip mask gw i).
Proof.
  unfold set_addr_calls, announced, report_calls. destruct (ip =? nip i); [done|]. cbn [orb].
  change (nip (readdressed ip mask gw i)) with ip. unfold ip4_addr_isany_val. change IPADDR_ANY with 0.
  change (Z.land NETIF_REPORT_TYPE_IPV4 NETIF_REPORT_TYPE_IPV4 =? 0) with false. change (Z.land NETIF_REPORT_TYPE_IPV4 NETIF_REPORT_TYPE_IPV6 =? 0) with true.
  set (j := readdressed ip mask gw i).
  destruct (flag_set j NETIF_FLAG_LINK_UP), (flag_set j NETIF_FLAG_UP), (flag_set j NETIF_FLAG_ETHARP), (ip =? 0); cbn; try (by destruct (m =? n)).
  destruct (m =? n) eqn:E; breflect; [by subst|done].
Qed.

(** ** One tick *)

Lemma tick_other n m i a : m ≠ n → arp_calls n (tick_calls m i a) = [].
Proof.
  intros Hne. unfold tick_calls. destruct (_ =? 0); [|done]. destruct (ai_state a); [done| |cbn; by replace (m =? n) with false by lia|done].
  destruct (3 <=? _); [|cbn; by replace (m =? n) with false by lia]. rewrite arp_set_addr. replace (m =? n) with false by lia. by rewrite orb_true_r.
Qed.

Lemma tick_autoip_ok i a : autoip_ok a → autoip_ok (tick_autoip i a).
Proof.
  intros (Hs & Ht & Hl & Htr & Ha & Hll). unfold is_u16, is_u8 in *.
  assert (H0 : autoip_ok (tick_counters a)) by (split; [done|]; split; [unfold is_u16; cbn; lia|]; split; [unfold is_u8; cbn; lia|]; by split).
  destruct H0 as (Hs1 & Ht1 & Hl1 & Htr1 & Ha1 & Hll1).
  assert (Hg : is_u16 (probe_gap i)) by (unfold probe_gap, is_u16; pose proof (Z.mod_pos_bound (LWIP_AUTOIP_RAND i) 10 ltac:(lia)); lia).
  unfold tick_autoip. destruct (ai_state (tick_counters a)) eqn:E; [by split_and!| | |by split_and!].
  - destruct (ttw _ =? 0); [|by split_and!]. destruct (3 <=? _); cbn zeta;
      [|destruct (_ =? 3)]; (split; [first [done|apply u8_range]|]; split; [done|]; split; [done|]; split; [done|]; split; [done|]; intros _; by apply Hll1).
  - destruct (ttw _ =? 0); [|by split_and!]. cbn zeta.
    destruct (2 <=? _); (split; [first [done|apply u8_range]|]; split; [done|]; split; [done|]; split; [done|]; split; [done|]; intros _; by apply Hll1).
Qed.

Lemma tick_iface_ok i a : iface_ok i → autoip_data i = Some a → iface_ok (tick_iface i a).
Proof.
  intros Hok Ha. pose proof (io_autoip i Hok a Ha) as Hao. unfold tick_iface. apply with_autoip_ok; [by apply tick_autoip_ok|].
  destruct (binds a) eqn:Eb; [|done]. unfold binds in Eb. breflect. destruct Hao as (_ & _ & _ & _ & _ & Hll).
  apply with_ip_ok; [|apply with_gw_ok; [done|by apply with_mask_ok]]. apply Hll. congruence.
Qed.


Section runs.
Context {P W : Type} `{PoolLaws P} `{NetEnvLaws W}.
Implicit Types s : nstate P W.

(** What a tick of all interfaces does to the interface [n]. *)
Definition ticks_to (n : Z) s s' : Prop := ∀ i, ifs s !! n = Some i →
  match autoip_data i with
  | Some a => (∃ i', ifs s' !! n = Some i' ∧ regrouped (tick_iface i a) i') ∧
      arp_calls n (env_log (nworld s')) = arp_calls n (env_log (nworld s)) ++ arp_calls n (tick_calls n i a)
  | None => ifs s' !! n = Some i ∧ arp_calls n (env_log (nworld s')) = arp_calls n (env_log (nworld s))
  end.

Lemma tick_same_owner i a i' : regrouped (tick_iface i a) i' → same_owner i i'.
Proof.
  intros [Hn Hp]%regrouped_owner. unfold same_owner. rewrite Hn, Hp. unfold tick_iface. by destruct (binds a).
Qed.

Lemma tmr_one_ok L s n : net_inv L s → n ∈ netif_list s →
  yields (autoip_tmr_netif n s) (λ s', net_inv L s' ∧ netif_list s' = netif_list s ∧ ticks_to n s s' ∧
    ∀ m, m ≠ n → ifs s' !! m = ifs s !! m ∧ arp_calls m (env_log (nworld s')) = arp_calls m (env_log (nworld s))).
Proof.
  intros Hinv Hn. destruct (inv_lookup L s n Hinv Hn) as (i & Hi & Hok).
  eapply yields_mono; [apply (tmr_netif_ok L s n i Hi); [apply Hinv|done]|]. intros s' (i' & cs & Hch & HQ). pose proof Hch as [].
  assert (Hother : ∀ m, m ≠ n → ifs s' !! m = ifs s !! m) by (intros m Hm; rewrite ch_ifs; by rewrite lookup_insert_ne).
  assert (Hi' : ifs s' !! n = Some i') by (rewrite ch_ifs; apply lookup_insert_eq).
  assert (Hown : same_owner i i' ∧ iface_ok i').
  { destruct (autoip_data i) as [a|] eqn:Ea; [destruct HQ as [Hr _]|destruct HQ as [-> _]; done].
    split; [by eapply tick_same_owner|]. eapply regrouped_ok; [|exact Hr]. by apply tick_iface_ok. }
  split; [by eapply changes_inv; [..|apply Hown|apply Hown]|]. split; [done|]. split.
  - intros j Hj. rewrite Hi in Hj. injection Hj as <-. rewrite ch_log, arp_calls_app. destruct (autoip_data i) as [a|].
    + destruct HQ as [Hr ->]. split; [by exists i'|done].
    + destruct HQ as [-> ->]. split; [done|by rewrite app_nil_r].
  - intros m Hm. split; [by apply Hother|]. rewrite ch_log, arp_calls_app. destruct (autoip_data i) as [a|].
    + destruct HQ as [_ ->]. by rewrite tick_other, app_nil_r by done.
    + destruct HQ as [_ ->]. by rewrite app_nil_r.
Qed.

Lemma autoip_loop_ok L ns : ∀ s, net_inv L s → NoDup ns → (∀ n, n ∈ ns → n ∈ netif_list s) →
  yields (autoip_tmr_loop ns s) (λ s', net_inv L s' ∧ netif_list s' = netif_list s ∧ (∀ n, n ∈ ns → ticks_to n s s') ∧
    ∀ m, m ∉ ns → ifs s' !! m = ifs s !! m ∧ arp_calls m (env_log (nworld s')) = arp_calls m (env_log (nworld s))).
Proof.
  induction ns as [|n ns IH]; intros s Hinv Hnd Hsub; cbn [autoip_tmr_loop].
  { apply yields_ret. split; [done|]. split; [done|]. split; [|done]. by intros n Hn%elem_of_nil. }
  apply NoDup_cons in Hnd as [Hn Hnd]. eapply yields_bind; [apply (tmr_one_ok L s n Hinv), Hsub; left|].
  intros s1 (Hinv1 & Hl1 & Hn1 & Ho1). eapply yields_mono; [apply (IH s1 Hinv1 Hnd)|].
  { intros m Hm. rewrite Hl1. apply Hsub. by right. }
  intros s2 (Hinv2 & Hl2 & Hn2 & Ho2). split; [done|]. split; [congruence|]. split.
  - intros m [->|Hm]%elem_of_cons.
    + destruct (Ho2 n Hn) as [Hs2 Hlog2]. unfold ticks_to in *. intros i Hi. specialize (Hn1 i Hi). by rewrite Hs2, Hlog2.
    + assert (m ≠ n) as Hne by (by intros ->). destruct (Ho1 m Hne) as [Hs1 Hlog1]. specialize (Hn2 m Hm). unfold ticks_to in *.
      by rewrite Hs1, Hlog1 in Hn2.
  - intros m [Hmn Hm]%not_elem_of_cons. destruct (Ho1 m Hmn) as [<- <-]. by apply Ho2.
Qed.

Lemma autoip_tmr_ok L s : net_inv L s →
  yields (autoip_tmr s) (λ s', net_inv L s' ∧ netif_list s' = netif_list s ∧ ∀ n, n ∈ netif_list s → ticks_to n s s').
Proof.
  intros Hinv. eapply yields_mono; [apply (autoip_loop_ok L (netif_list s) s Hinv); [apply Hinv|done]|].
  intros s' (? & ? & ? & _). done.
Qed.

(** ** The way to an address *)

(** [k] ticks *)
Fixpoint ticks (k : nat) s : res (nstate P W) :=
  match k with O => Ok s | S k => s ← autoip_tmr s; ticks k s end.

End runs.

(** An interface on the way to use its address: it has none while it probes. *)
Definition on_the_way (i : iface) (a : autoip) : Prop :=
  match ai_state a with
  | AUTOIP_STATE_OFF => False
  | AUTOIP_STATE_PROBING => 0 ≤ sent_num a ≤ 3 ∧ nip i = 0
  | AUTOIP_STATE_ANNOUNCING => sent_num a = 1 ∧ ttw a ≤ 20 ∧ nip i = llipaddr a ∧ nmask i = ll_mask ∧ ngw i = 0
  | AUTOIP_STATE_BOUND => nip i = llipaddr a ∧ nmask i = ll_mask ∧ ngw i = 0
  end.

(** The ticks left until the address is bound. *)
Definition remaining (i : iface) (a : autoip) : Z :=
  match ai_state a with
  | AUTOIP_STATE_OFF => 0
  | AUTOIP_STATE_PROBING =>
      Z.max 1 (ttw a) + (if 3 <=? sent_num a then 20 else 40 + (2 - sent_num a) * probe_gap i)
  | AUTOIP_STATE_ANNOUNCING => Z.max 1 (ttw a)
  | AUTOIP_STATE_BOUND => 0
  end.

(** The ARP packets still to be sent: the probes, the announcement that goes with the
    address and another one. *)
Definition todo (n : Z) (i : iface) (a : autoip) : list call :=
  let i' := readdressed (llipaddr a) ll_mask 0 i in
  match ai_state a with
  | AUTOIP_STATE_PROBING =>
      replicate (Z.to_nat (3 - sent_num a)) (C_etharp_request n (base i) (llipaddr a)) ++
      announced n i' ++ [C_etharp_gratuitous n (base i')]
  | AUTOIP_STATE_ANNOUNCING => [C_etharp_gratuitous n (base i)]
  | _ => []
  end.

Lemma ll_nonzero a : ll_addr a → a ≠ 0.
Proof. intros [_ Hr] ->. change (lwip_htonl 0) with 0 in Hr. change AUTOIP_RANGE_START with 2851995904 in Hr. lia. Qed.

Lemma gap_range i : 10 ≤ probe_gap i ≤ 19.
Proof. unfold probe_gap. pose proof (Z.mod_pos_bound (LWIP_AUTOIP_RAND i) 10 ltac:(lia)). lia. Qed.

Lemma tick_keeps i a : llipaddr (tick_autoip i a) = llipaddr a ∧ tried_llipaddr (tick_autoip i a) = tried_llipaddr a.
Proof.
  unfold tick_autoip. cbn zeta. destruct (ai_state (tick_counters a)); [done| | |done].
  - destruct (ttw _ =? 0); [|done]. destruct (3 <=? _); [done|]. by destruct (_ =? 3).
  - destruct (ttw _ =? 0); [|done]. by destruct (2 <=? _).
Qed.

Lemma tick_gap i a : autoip_data i = Some a → probe_gap (tick_iface i a) = probe_gap i.
Proof.
  intros Ha. unfold probe_gap, LWIP_AUTOIP_RAND. rewrite Ha. change (autoip_data (tick_iface i a)) with (Some (tick_autoip i a)).
  cbn [tried_llipaddr]. rewrite (proj2 (tick_keeps i a)). unfold tick_iface. by destruct (binds a).
Qed.

(** Still waiting. *)
Lemma tick_waits n i a : 1 < ttw a → tick_autoip i a = tick_counters a ∧ binds a = false ∧ tick_calls n i a = [].
Proof.
  intros Ht. unfold tick_autoip, binds, tick_calls. assert (E : (ttw (tick_counters a) =? 0) = false) by (cbn; lia). rewrite E. cbn zeta.
  split; [by destruct (ai_state _)|]. by rewrite andb_false_r.
Qed.

(** The wait is over while probing: a probe, or the address is bound. *)
Lemma tick_probes i a : ttw a ≤ 1 → ai_state a = AUTOIP_STATE_PROBING →
  tick_autoip i a =
    if 3 <=? sent_num a then with_ttw 20 (with_sent_num 1 (with_ai_state AUTOIP_STATE_ANNOUNCING (tick_counters a)))
    else with_ttw (if u8 (sent_num a + 1) =? 3 then 20 else probe_gap i) (with_sent_num (u8 (sent_num a + 1)) (tick_counters a)).
Proof.
  intros Ht Hst. unfold tick_autoip. assert (E : (ttw (tick_counters a) =? 0) = true) by (cbn; lia). cbn zeta. rewrite E.
  change (ai_state (tick_counters a)) with (ai_state a). rewrite Hst. change (sent_num (tick_counters a)) with (sent_num a).
  destruct (3 <=? sent_num a); [done|]. cbn [sent_num with_sent_num]. by destruct (_ =? 3).
Qed.

(** A tick brings the interface one tick closer and sends the next packet, if any. *)
Lemma tick_progress n i a : iface_ok i → autoip_data i = Some a → on_the_way i a → 0 < remaining i a →
  on_the_way (tick_iface i a) (tick_autoip i a) ∧ remaining (tick_iface i a) (tick_autoip i a) = remaining i a - 1 ∧
  arp_calls n (tick_calls n i a) ++ todo n (tick_iface i a) (tick_autoip i a) = todo n i a.
Proof.
  intros Hok Ha Hway Hrem. pose proof (io_autoip i Hok a Ha) as (Hs & Ht & _ & _ & Hll). pose proof (gap_range i) as Hg.
  pose proof (tick_gap i a Ha) as Hgap. unfold is_u16, is_u8 in *. unfold remaining at 1. rewrite Hgap.
  destruct (decide (1 < ttw a)) as [Hw|Hw].
  { destruct (tick_waits n i a Hw) as (Hta & Hb & Hc). unfold tick_iface. rewrite Hta, Hb, Hc. unfold on_the_way, remaining, todo in *.
    change (ai_state (tick_counters a)) with (ai_state a). change (sent_num (tick_counters a)) with (sent_num a). change (ttw (tick_counters a)) with (Z.max 0 (ttw a - 1)).
    destruct (ai_state a); [done|split; [done|]; split; [lia|done]| |done]. split; [destruct Hway as (? & ? & ?); split; [done|split; [lia|done]]|]. split; [lia|done]. }
  assert (E0 : (ttw (tick_counters a) =? 0) = true) by (cbn; lia).
  destruct (ai_state a) eqn:Est.
  - unfold on_the_way in Hway. by rewrite Est in Hway.
  - pose proof (tick_probes i a ltac:(lia) Est) as Hta. assert (Hl : ll_addr (llipaddr a)) by (by apply Hll). pose proof (ll_nonzero _ Hl) as Hl0.
    unfold on_the_way in Hway. rewrite Est in Hway. destruct Hway as [Hsn Hip].
    assert (Hb : binds a = (3 <=? sent_num a)) by (unfold binds; rewrite Est, E0; by rewrite bool_decide_eq_true_2).
    unfold tick_iface, remaining, todo, on_the_way, tick_calls. rewrite Hta, Hb, E0, Est. destruct (3 <=? sent_num a) eqn:E3; breflect.
    + cbn [ai_state with_ttw with_sent_num with_ai_state sent_num ttw]. split; [done|]. split; [lia|].
      rewrite arp_set_addr, Hip, Z.eqb_refl. replace (llipaddr a =? 0) with false by lia. cbn [orb negb].
      replace (Z.to_nat (3 - sent_num a)) with 0%nat by lia. cbn [replicate app]. done.
    + cbn [ai_state with_ttw with_sent_num sent_num ttw tick_counters]. rewrite Est. rewrite u8_id by ulia. split; [split; [lia|done]|].
      split; [destruct (sent_num a + 1 =? 3) eqn:E4; breflect; [replace (3 <=? sent_num a + 1) with true by lia|replace (3 <=? sent_num a + 1) with false by lia]; nia|].
      cbn [arp_calls List.filter arp_of]. rewrite Z.eqb_refl. replace (Z.to_nat (3 - sent_num a)) with (S (Z.to_nat (3 - (sent_num a + 1)))) by lia. done.
  - unfold on_the_way in Hway. rewrite Est in Hway. destruct Hway as (Hsn & Htw & Hip & Hm & Hgw).
    assert (Hb : binds a = false) by (unfold binds; rewrite Est; by rewrite bool_decide_eq_false_2).
    assert (Hta : tick_autoip i a = with_ttw 0 (with_sent_num 0 (with_ai_state AUTOIP_STATE_BOUND (tick_counters a)))).
    { unfold tick_autoip. cbn zeta. rewrite E0. change (ai_state (tick_counters a)) with (ai_state a). rewrite Est.
      cbn [sent_num with_sent_num with_ttw]. change (sent_num (tick_counters a)) with (sent_num a). by rewrite Hsn. }
    unfold tick_iface, remaining, todo, on_the_way, tick_calls. rewrite Hta, Hb, E0, Est. cbn [ai_state with_ttw with_sent_num with_ai_state].
    split; [done|]. split; [lia|]. cbn. by rewrite Z.eqb_refl.
  - unfold remaining in Hrem. rewrite Est in Hrem. lia.
Qed.

Section way.
Context {P W : Type} `{PoolLaws P} `{NetEnvLaws W}.
Implicit Types s : nstate P W.

(** The interface [n] of [s'], [k] ticks after [s] where it is [i] with the struct [a]. *)
Definition along (n : Z) (k : nat) (i : iface) (a : autoip) s s' : Prop :=
  ∃ i' a', ifs s' !! n = Some i' ∧ autoip_data i' = Some a' ∧ llipaddr a' = llipaddr a ∧ on_the_way i' a' ∧
    remaining i' a' = remaining i a - Z.of_nat k ∧
    arp_calls n (env_log (nworld s')) ++ todo n i' a' = arp_calls n (env_log (nworld s)) ++ todo n i a.

Lemma ticks_along L n k : ∀ s i a, net_inv L s → n ∈ netif_list s → ifs s !! n = Some i → autoip_data i = Some a →
  on_the_way i a → Z.of_nat k ≤ remaining i a → yields (ticks k s) (λ s', net_inv L s' ∧ along n k i a s s').
Proof.
  induction k as [|k IH]; intros s i a Hinv Hn Hi Ha Hway Hk; cbn [ticks].
  { apply yields_ret. split; [done|]. exists i, a. split_and!; try done. lia. }
  eapply yields_bind; [by apply autoip_tmr_ok|]. intros s1 (Hinv1 & Hl1 & Ht1). specialize (Ht1 n Hn i Hi). rewrite Ha in Ht1.
  destruct Ht1 as [(i1 & Hi1 & gs & -> & _) Hlog1]. pose proof (ni_ifs _ _ Hinv n i Hn Hi) as Hok.
  destruct (tick_progress n i a Hok Ha Hway ltac:(lia)) as (Hway1 & Hrem1 & Htodo1).
  eapply yields_mono; [eapply (IH s1 _ (tick_autoip i a) Hinv1 ltac:(by rewrite Hl1) Hi1 eq_refl Hway1)|].
  { change (remaining (with_igmp gs ?j) ?b) with (remaining j b). lia. }
  intros s2 (Hinv2 & i2 & a2 & Hi2 & Ha2 & Hll2 & Hway2 & Hrem2 & Htodo2). split; [done|]. exists i2, a2.
  change (remaining (with_igmp gs ?j) ?b) with (remaining j b) in Hrem2. change (todo n (with_igmp gs ?j) ?b) with (todo n j b) in Htodo2.
  split; [done|]. split; [done|]. split; [by rewrite Hll2, (proj1 (tick_keeps i a))|]. split; [done|]. split; [lia|].
  rewrite Htodo2, Hlog1, <-app_assoc. by rewrite Htodo1.
Qed.

(** Which state the remaining ticks tell. *)
Lemma remaining_state i a : on_the_way i a →
  (20 < remaining i a → ai_state a = AUTOIP_STATE_PROBING ∧ nip i = 0) ∧
  (0 < remaining i a ≤ 20 → ai_state a = AUTOIP_STATE_ANNOUNCING ∧ nip i = llipaddr a) ∧
  (remaining i a = 0 → ai_state a = AUTOIP_STATE_BOUND ∧ nip i = llipaddr a ∧ nmask i = ll_mask ∧ ngw i = 0).
Proof.
  intros Hway. pose proof (gap_range i) as Hg. unfold on_the_way, remaining in *. destruct (ai_state a); [done| | |].
  - destruct Hway as [Hs Hip]. assert (20 < Z.max 1 (ttw a) + (if 3 <=? sent_num a then 20 else 40 + (2 - sent_num a) * probe_gap i)).
    { destruct (3 <=? sent_num a) eqn:E; breflect; nia. }
    split; [done|]. split; intros; lia.
  - destruct Hway as (_ & Ht & Hip & _). split; [intros; lia|]. split; [done|intros; lia].
  - split; [intros; lia|]. split; [intros; lia|done].
Qed.

End way.
