(* ===== verification/IfaceRuns.v ===== *)
(** * Network interfaces along every run

    Every operation of netif.c, igmp.c and autoip.c keeps the invariant of the
    interfaces and returns, whatever was done before. *)

From S2P Require Import Prelude ByteMem Def IpAddr Ip4Addr Ip4AddrFacts MempPool Chksum ChksumFacts Etharp Iface Igmp Netif Autoip IfaceFacts IgmpFacts NetifFacts IfaceInv IgmpMembers NetifList AutoipFacts AutoipRuns.

Section runs.
Context {P W : Type} `{PoolLaws P} `{NetEnvLaws W}.
Implicit Types s : nstate P W.

(** The operation returns and keeps the invariant and the list. *)
Definition safe (L : list Z) s (m : res (nstate P W)) : Prop :=
  yields m (λ s', net_inv L s' ∧ netif_list s' = netif_list s).

Lemma safe_ret L s : net_inv L s → safe L s (Ok s).
Proof. intros. by apply yields_ret. Qed.

Lemma safe_bind L s m f : safe L s m → (∀ s1, net_inv L s1 → netif_list s1 = netif_list s → safe L s1 (f s1)) → safe L s (m ≫= f).
Proof.
  intros Hm Hf. eapply yields_bind; [exact Hm|]. intros s1 [Hinv Hl]. eapply yields_mono; [by apply Hf|].
  intros s2 [? ?]. split; [done|congruence].
Qed.

(** What is left to show of an operation on one interface. *)
Definition good (i i' : iface) : Prop := same_owner i i' ∧ iface_ok i'.

Lemma updates_safe L s n i m : net_inv L s → ifs s !! n = Some i → updates L s n (λ i' _, good i i') m → safe L s m.
Proof.
  intros Hinv Hi Hm. eapply yields_mono; [exact Hm|]. intros s' (i' & cs & Hch & Ho & Hok).
  split; [by eapply changes_inv|by destruct Hch].
Qed.

Lemma regrouped_good i i0 i' : regrouped i0 i' → same_owner i i0 → iface_ok i0 → good i i'.
Proof.
  intros Hr [Hn Hp] Hok. split; [|by eapply regrouped_ok]. destruct (regrouped_owner _ _ Hr) as [Hn' Hp'].
  split; congruence.
Qed.

Lemma readdressed_ok ip mask gw i : is_u32 ip → is_u32 mask → is_u32 gw → iface_ok i → iface_ok (readdressed ip mask gw i).
Proof. intros. apply with_ip_ok; [done|]. apply with_gw_ok; [done|]. by apply with_mask_ok. Qed.

(** Proves that an operation on the interface [n] of the list is safe, from the lemma that
    says what it does. *)
Ltac listed Hinv Hn i Hi Hok :=
  destruct (inv_lookup _ _ _ Hinv Hn) as (i & Hi & Hok); pose proof (ni_env _ _ Hinv) as ?He;
  eapply updates_safe; [exact Hinv|exact Hi|].

(** ** netif.c *)

Lemma set_addr_safe L s n ip mask gw : net_inv L s → n ∈ netif_list s →
  is_u32 (or_any ip) → is_u32 (or_any mask) → is_u32 (or_any gw) → safe L s (netif_set_addr n ip mask gw s).
Proof.
  intros Hinv Hn Hip Hm Hg. listed Hinv Hn i Hi Hok. eapply updates_mono; [by apply set_addr_ok, Hok|].
  intros i' cs [Hr _]. apply (regrouped_good _ _ _ Hr); [done|by apply readdressed_ok].
Qed.

Lemma set_ipaddr_safe L s n ip : net_inv L s → n ∈ netif_list s → is_u32 (or_any ip) → safe L s (netif_set_ipaddr n ip s).
Proof.
  intros Hinv Hn Hip. listed Hinv Hn i Hi Hok. eapply updates_mono; [by apply updates_drop, do_set_ipaddr_ok, Hok|].
  intros i' cs (_ & _ & Hr & _). apply (regrouped_good _ _ _ Hr); [done|by apply with_ip_ok].
Qed.

Lemma set_netmask_safe L s n m : net_inv L s → n ∈ netif_list s → is_u32 (or_any m) → safe L s (netif_set_netmask n m s).
Proof.
  intros Hinv Hn Hm. listed Hinv Hn i Hi Hok. eapply updates_mono; [by apply updates_drop, do_set_netmask_ok|].
  intros i' cs (_ & _ & -> & _). split; [done|by apply with_mask_ok].
Qed.

Lemma set_gw_safe L s n g : net_inv L s → n ∈ netif_list s → is_u32 (or_any g) → safe L s (netif_set_gw n g s).
Proof.
  intros Hinv Hn Hm. listed Hinv Hn i Hi Hok. eapply updates_mono; [by apply updates_drop, do_set_gw_ok|].
  intros i' cs (_ & _ & -> & _). split; [done|by apply with_gw_ok].
Qed.

Lemma set_up_safe L s n : net_inv L s → n ∈ netif_list s → safe L s (netif_set_up n s).
Proof.
  intros Hinv Hn. listed Hinv Hn i Hi Hok. eapply updates_mono; [by apply set_up_ok, Hok|].
  intros i' cs [Hr _]. apply (regrouped_good _ _ _ Hr); unfold set_up_iface; destruct (flag_set i NETIF_FLAG_UP); try done.
  apply restart_ok. by apply set_flags_ok.
Qed.

Lemma set_down_safe L s n : net_inv L s → n ∈ netif_list s → safe L s (netif_set_down n s).
Proof.
  intros Hinv Hn. listed Hinv Hn i Hi Hok. eapply updates_mono; [by apply set_down_ok|]. intros i' cs. cbn beta.
  destruct (flag_set i NETIF_FLAG_UP); intros [-> _]; [|done]. split; [done|]. by apply clear_flags_ok.
Qed.

Lemma set_link_down_safe L s n : net_inv L s → n ∈ netif_list s → safe L s (netif_set_link_down n s).
Proof.
  intros Hinv Hn. listed Hinv Hn i Hi Hok. eapply updates_mono; [by apply set_link_down_ok|]. intros i' cs [-> _].
  destruct (flag_set i NETIF_FLAG_LINK_UP); [|done]. split; [done|]. by apply clear_flags_ok.
Qed.

Lemma set_default_safe L s n : net_inv L s → n ∈ netif_list s → net_inv L (netif_set_default (Some n) s).
Proof. intros [] Hn. split; try done. intros m [= <-]. done. Qed.

(** ** autoip.c *)

Lemma autoip_start_safe L s n i : net_inv L s → n ∈ netif_list s → ifs s !! n = Some i → netif_is_up i = true →
  safe L s ('(_, s) ← autoip_start n s; Ok s).
Proof.
  intros Hinv Hn Hi Hup. pose proof (ni_ifs _ _ Hinv n i Hn Hi) as Hok. eapply updates_safe; [done|exact Hi|].
  eapply updates_mono; [apply updates_drop, (autoip_start_ok L s n i Hi (ni_env _ _ Hinv) Hok Hup)|].
  intros i' cs (r & _ & Hr). destruct (autoip_data i) as [a|] eqn:Ea.
  - destruct Hr as [_ Hr]. apply (regrouped_good _ _ _ Hr); [done|]. apply started_at_ok; [|done]. by destruct (io_autoip i Hok a Ea) as (_ & _ & _ & ? & _).
  - destruct Hr as [[_ Hr]|[_ Hr]]; (apply (regrouped_good _ _ _ Hr)); try done; [by apply readdressed_ok|by apply started_at_ok].
Qed.

Lemma arp_reply_safe L s n i hdr : net_inv L s → n ∈ netif_list s → ifs s !! n = Some i → netif_is_up i = true →
  safe L s (autoip_arp_reply n hdr s).
Proof.
  intros Hinv Hn Hi Hup. pose proof (ni_ifs _ _ Hinv n i Hn Hi) as Hok. eapply updates_safe; [done|exact Hi|].
  eapply updates_mono; [by apply (arp_reply_ok L s n i hdr Hi (ni_env _ _ Hinv) Hok Hup)|]. intros i' cs Hr.
  destruct (autoip_data i) as [a|] eqn:Ea; [|destruct Hr as [_ ->]; done]. pose proof (io_autoip i Hok a Ea) as (? & ? & ? & ? & ? & ?).
  destruct (conflicts i a hdr); [|destruct Hr as [_ ->]; done]. destruct (gives_up a); destruct Hr as [_ Hr].
  - apply (regrouped_good _ _ _ Hr); [done|]. apply started_at_ok; [apply u8_range|done].
  - subst i'. split; [done|]. apply with_autoip_ok; [|done]. by split_and!.
Qed.

Lemma autoip_tmr_safe L s : net_inv L s → safe L s (autoip_tmr s).
Proof. intros Hinv. eapply yields_mono; [by apply autoip_tmr_ok|]. intros s' (? & ? & _). done. Qed.

Lemma autoip_stop_ok L s n i : ifs s !! n = Some i → env_ok (nworld s) L → iface_ok i →
  updates L s n (λ i' cs,
      match autoip_data i with
      | Some a => if ip4_addr_islinklocal (nip i)
          then regrouped (with_autoip (Some (with_ai_state AUTOIP_STATE_OFF a)) (readdressed 0 0 0 i)) i' ∧ cs = set_addr_calls n i 0 0 0
          else i' = with_autoip (Some (with_ai_state AUTOIP_STATE_OFF a)) i ∧ cs = []
      | None => i' = i ∧ cs = []
      end) ('(_, s) ← autoip_stop n s; Ok s).
Proof.
  intros Hi He Hok. unfold autoip_stop. rewrite (getn_Some _ _ _ Hi). cbn [mbind res_bind].
  destruct (autoip_data i) as [a|] eqn:Ea; [|by apply (updates_ret _ _ _ i)]. set (a1 := with_ai_state AUTOIP_STATE_OFF a). set (i1 := with_autoip (Some a1) i).
  destruct (put_autoip_updates L s n i a1 (λ j cs, j = i1 ∧ cs = []) Hi He (conj eq_refl eq_refl)) as (s1 & -> & j1 & c1 & Hch1 & -> & ->).
  cbn [mbind res_bind]. destruct (ip4_addr_islinklocal (nip i)).
  - destruct (set_addr_ok L s1 n i1 (Some IP4_ADDR_ANY4) (Some IP4_ADDR_ANY4) (Some IP4_ADDR_ANY4)) as (s2 & -> & i2 & c2 & Hch2 & Hr & ->);
      [by eapply changes_lookup|by destruct Hch1|apply Hok|]. cbn [mbind res_bind]. apply yields_ret. eexists i2, _.
    split; [exact (changes_trans _ _ _ _ _ _ _ _ _ Hch1 Hch2)|]. split; [exact Hr|done].
  - cbn [mbind res_bind]. apply yields_ret. by exists i1, [].
Qed.

Lemma autoip_stop_good i i' a : iface_ok i → autoip_data i = Some a →
  (if ip4_addr_islinklocal (nip i) then regrouped (with_autoip (Some (with_ai_state AUTOIP_STATE_OFF a)) (readdressed 0 0 0 i)) i'
   else i' = with_autoip (Some (with_ai_state AUTOIP_STATE_OFF a)) i) → good i i'.
Proof.
  intros Hok Ha Hr. assert (Hao : autoip_ok (with_ai_state AUTOIP_STATE_OFF a)).
  { destruct (io_autoip i Hok a Ha) as (? & ? & ? & ? & ? & ?). by split_and!. }
  destruct (ip4_addr_islinklocal (nip i)).
  - apply (regrouped_good _ _ _ Hr); [done|]. apply with_autoip_ok; [done|]. by apply readdressed_ok.
  - subst i'. split; [done|]. by apply with_autoip_ok.
Qed.

Lemma autoip_stop_safe L s n : net_inv L s → n ∈ netif_list s → safe L s ('(_, s) ← autoip_stop n s; Ok s).
Proof.
  intros Hinv Hn. listed Hinv Hn i Hi Hok. eapply updates_mono; [by apply autoip_stop_ok|]. intros i' cs Hr.
  destruct (autoip_data i) as [a|] eqn:Ea; [|destruct Hr as [-> _]; done]. apply (autoip_stop_good i i' a Hok Ea).
  destruct (ip4_addr_islinklocal (nip i)); by destruct Hr.
Qed.

Lemma network_changed_ok L s n i : ifs s !! n = Some i → env_ok (nworld s) L →
  updates L s n (λ i' cs, cs = [] ∧ i' = match autoip_data i with
      | Some a => if negb (bool_decide (ai_state a = AUTOIP_STATE_OFF)) then with_autoip (Some (probing i a)) i else i
      | None => i end) (autoip_network_changed n s).
Proof.
  intros Hi He. unfold autoip_network_changed. rewrite (getn_Some _ _ _ Hi). cbn [mbind res_bind].
  destruct (autoip_data i) as [a|] eqn:Ea; [|by apply (updates_ret _ _ _ i)]. destruct (negb _); [|by apply (updates_ret _ _ _ i)].
  eapply updates_mono; [by apply (start_probing_ok L s n i a)|]. intros i' cs [-> ->]. done.
Qed.

Lemma network_changed_safe L s n : net_inv L s → n ∈ netif_list s → safe L s (autoip_network_changed n s).
Proof.
  intros Hinv Hn. listed Hinv Hn i Hi Hok. eapply updates_mono; [by apply network_changed_ok|]. intros i' cs [_ ->].
  destruct (autoip_data i) as [a|] eqn:Ea; [|done]. case_bool_decide as Hst; [done|]. cbn [negb]. split; [done|].
  apply with_autoip_ok; [|done]. destruct (io_autoip i Hok a Ea) as (? & ? & ? & ? & ? & Hll). pose proof (probe_wait_range i (tried_llipaddr a)) as Hw.
  split; [done|]. split; [unfold is_u16; cbn; lia|]. split; [done|]. split; [done|]. split; [done|]. intros _. by apply Hll.
Qed.

Lemma set_struct_safe L s n i : net_inv L s → n ∈ netif_list s → ifs s !! n = Some i → autoip_data i = None → safe L s (autoip_set_struct n s).
Proof.
  intros Hinv Hn Hi Ha. pose proof (ni_ifs _ _ Hinv n i Hn Hi) as Hok. eapply updates_safe; [done|exact Hi|].
  unfold autoip_set_struct. rewrite (getn_Some _ _ _ Hi). cbn [mbind res_bind]. rewrite bool_decide_eq_true_2 by done. cbn [LWIP_ASSERT mbind res_bind].
  apply (put_autoip_updates L s n i); [done|apply Hinv|]. split; [done|]. by apply with_autoip_ok.
Qed.

(** ** Steps of one interface *)

Lemma modn_safe L s n f : net_inv L s → n ∈ netif_list s → (∀ i, iface_ok i → good i (f i)) → safe L s (modn n f s).
Proof.
  intros Hinv Hn Hf. listed Hinv Hn i Hi Hok. eapply updates_of; [by apply modn_changes|]. by apply Hf.
Qed.

Lemma call_safe L s c : net_inv L s → safe L s (call_ c s).
Proof.
  intros Hinv. destruct (call_ok c (nworld s) L (ni_env _ _ Hinv)) as (r & w & Hc & He & _).
  exists (set_nworld w s). unfold call_. rewrite Hc. split; [done|]. split; [by apply world_inv|done].
Qed.

Lemma issue_reports_safe L s n t : net_inv L s → n ∈ netif_list s → safe L s (netif_issue_reports n t s).
Proof.
  intros Hinv Hn. listed Hinv Hn i Hi Hok. eapply updates_mono; [by apply issue_reports_ok, Hok|].
  intros i' cs [Hr _]. by apply (regrouped_good _ _ _ Hr).
Qed.

Lemma set_link_up_safe L s n : net_inv L s → n ∈ netif_list s → safe L s (netif_set_link_up n s).
Proof.
  intros Hinv Hn. destruct (inv_lookup _ _ _ Hinv Hn) as (i & Hi & Hok). unfold netif_set_link_up. rewrite (getn_Some _ _ _ Hi). cbn [mbind res_bind].
  destruct (negb _); [|by apply safe_ret].
  apply safe_bind; [apply modn_safe; [done|done|]; intros j Hj; split; [done|by apply set_flags_ok]|]. intros s1 Hinv1 Hl1.
  apply safe_bind; [destruct (dhcp_stops_autoip _ _); [apply autoip_stop_safe; [done|by rewrite Hl1]|by apply safe_ret]|]. intros s2 Hinv2 Hl2.
  apply safe_bind; [by apply call_safe|]. intros s3 Hinv3 Hl3. assert (Hn3 : n ∈ netif_list s3) by congruence.
  apply safe_bind; [by apply network_changed_safe|]. intros s4 Hinv4 Hl4. assert (Hn4 : n ∈ netif_list s4) by congruence.
  apply safe_bind; [by apply issue_reports_safe|]. intros s5 Hinv5 Hl5.
  apply modn_safe; [done|congruence|]. intros j Hj. split; [done|by apply restart_ok].
Qed.

Lemma addr_changed_safe L s old new : net_inv L s → safe L s (netif_do_ip_addr_changed old new s).
Proof. intros Hinv. apply safe_bind; [by apply call_safe|]. intros s1 Hinv1 _. by apply call_safe. Qed.

(** ** IPv6 addresses *)

Lemma v6_at_ok i k : iface_ok i → 0 ≤ k < 3 → ∃ v, v6_at i k = Ok v ∧ v6_ok v.
Proof.
  intros Hok Hk. destruct (io_v6 i Hok) as [Hl Hf]. unfold v6_at. replace (0 <=? k) with true by lia.
  destruct (lookup_lt_is_Some_2 (v6 i) (Z.to_nat k)) as [v Hv]; [lia|]. rewrite Hv. exists v. split; [done|]. by eapply Forall_lookup_1.
Qed.

Lemma set_v6_good i k v : iface_ok i → v6_ok v → good i (set_v6 k v i).
Proof.
  intros Hok Hv. split; [done|]. destruct (io_v6 i Hok) as [Hl Hf]. split; try apply Hok. cbn. split; [by rewrite length_insert|by apply Forall_insert].
Qed.

Lemma assign_zone_ok i ws : length ws = 4%nat → Forall is_u32 ws → ip6_ok (ip6_addr_assign_zone i (Ip6Addr ws 0)) ∧ is_u8 (zone (ip6_addr_assign_zone i (Ip6Addr ws 0))).
Proof. intros Hl Hf. split; [done|]. cbn. destruct (ip6_addr_islinklocal _); [apply u8_range|done]. Qed.

Lemma set_parts_safe L s n k i0 i1 i2 i3 : net_inv L s → n ∈ netif_list s → 0 ≤ k < 3 → Forall is_u32 [i0; i1; i2; i3] →
  safe L s (netif_ip6_addr_set_parts n k i0 i1 i2 i3 s).
Proof.
  intros Hinv Hn Hk Hw. destruct (inv_lookup _ _ _ Hinv Hn) as (i & Hi & Hok). unfold netif_ip6_addr_set_parts, LWIP_IPV6_NUM_ADDRESSES.
  replace (k <? 3) with true by lia. cbn [LWIP_ASSERT mbind res_bind]. rewrite (getn_Some _ _ _ Hi). cbn [mbind res_bind].
  destruct (v6_at_ok i k Hok Hk) as (v & -> & Hv1 & Hv2 & Hv3 & Hv4 & Hv5). cbn [mbind res_bind]. destruct (_ || _); [|by apply safe_ret].
  destruct (assign_zone_ok i [i0; i1; i2; i3] eq_refl Hw) as [Ha Hz].
  apply safe_bind; [destruct (ip6_addr_isvalid _); [by apply addr_changed_safe|by apply safe_ret]|]. intros s1 Hinv1 Hl1.
  apply safe_bind; [apply modn_safe; [done|by rewrite Hl1|]; intros j Hj; apply set_v6_good; [done|by split_and!]|]. intros s2 Hinv2 Hl2.
  destruct (ip6_addr_isvalid _); [apply issue_reports_safe; [done|congruence]|by apply safe_ret].
Qed.

Lemma set_state_safe L s n k st : net_inv L s → n ∈ netif_list s → 0 ≤ k < 3 → is_u8 st →
  safe L s (netif_ip6_addr_set_state n k st s).
Proof.
  intros Hinv Hn Hk Hst. destruct (inv_lookup _ _ _ Hinv Hn) as (i & Hi & Hok). unfold netif_ip6_addr_set_state, LWIP_IPV6_NUM_ADDRESSES.
  replace (k <? 3) with true by lia. cbn [LWIP_ASSERT mbind res_bind]. rewrite (getn_Some _ _ _ Hi). cbn [mbind res_bind].
  destruct (v6_at_ok i k Hok Hk) as (v & -> & Hv1 & Hv2 & Hv3 & Hv4 & Hv5). cbn [mbind res_bind]. destruct (negb (_ =? _)); [|by apply safe_ret].
  apply safe_bind; [destruct (flag_set i NETIF_FLAG_MLD6); [by apply call_safe|by apply safe_ret]|]. intros s1 Hinv1 Hl1.
  apply safe_bind; [destruct (_ && _); [by apply addr_changed_safe|by apply safe_ret]|]. intros s2 Hinv2 Hl2.
  apply safe_bind; [apply modn_safe; [done|congruence|]; intros j Hj; apply set_v6_good; [done|by split_and!]|]. intros s3 Hinv3 Hl3.
  destruct (_ && _); [apply issue_reports_safe; [done|congruence]|by apply safe_ret].
Qed.

Lemma free_slot_range vs k from j : free_slot vs k from = Some j → k ≤ j < k + zlen vs.
Proof.
  revert k. induction vs as [|v vs IH]; intros k; [done|]. cbn [free_slot]. rewrite zlen_cons. pose proof (zlen_nonneg vs).
  destruct (_ && _); [intros [= <-]; lia|]. intros Hj%IH. lia.
Qed.

Lemma add_ip6_safe L s n a : net_inv L s → n ∈ netif_list s → ip6_ok a → safe L s ('(_, _, s) ← netif_add_ip6_address n a s; Ok s).
Proof.
  intros Hinv Hn [Ha1 Ha2]. destruct (inv_lookup _ _ _ Hinv Hn) as (i & Hi & Hok). unfold netif_add_ip6_address, netif_get_ip6_addr_match.
  rewrite (getn_Some _ _ _ Hi). cbn [mbind res_bind]. set (k := if negb (zone a =? 0) && _ then Ok (-1) else _).
  assert (∃ v, k = Ok v) as [v ->] by (subst k; destruct (_ && _); eauto). cbn [mbind res_bind]. destruct (0 <=? v); [by apply safe_ret|].
  destruct (free_slot (v6 i) 0 _) as [j|] eqn:Ej; [|by apply safe_ret]. apply free_slot_range in Ej. unfold zlen in Ej. destruct (io_v6 i Hok) as [Hl Hf]. rewrite Hl in Ej.
  destruct (v6_at_ok i j Hok ltac:(lia)) as (x & -> & Hx1 & Hx2 & Hx3 & Hx4 & Hx5). cbn [mbind res_bind].
  destruct (modn_safe L s n (set_v6 j (V6 (ip6_addr_assign_zone i a) (ip6_addr_state x) (valid_life x) (pref_life x))) Hinv Hn) as (s1 & -> & Hinv1 & Hl1).
  { intros i1 Hi1. apply set_v6_good; [done|]. split; [done|]. split; [|done]. cbn. destruct (ip6_addr_islinklocal _); [apply u8_range|done]. }
  cbn [mbind res_bind]. destruct (set_state_safe L s1 n j IP6_ADDR_TENTATIVE Hinv1) as (s2 & -> & Hinv2 & Hl2); [by rewrite Hl1|lia|done|].
  apply yields_ret. split; [done|congruence].
Qed.

Lemma hwaddr_words_ok hwl len k : ∀ j ai w2 w3, Forall is_u8 hwl → 0 ≤ j → 0 ≤ len ≤ zlen hwl → is_u32 w2 → is_u32 w3 →
  ∃ w2' w3', hwaddr_words k hwl len j ai w2 w3 = Ok (w2', w3') ∧ is_u32 w2' ∧ is_u32 w3'.
Proof.
  induction k as [|k IH]; intros j ai w2 w3 Hu Hj Hlen H2' H3'; cbn [hwaddr_words]; [by exists w2, w3|].
  destruct (j <? len) eqn:E; breflect; [|by exists w2, w3].
  destruct (lookup_lt_is_Some_2 hwl (Z.to_nat (len - j - 1))) as [h Hh]; [unfold zlen in *; lia|]. rewrite Hh. cbn [deref mbind res_bind].
  assert (Hx : is_u32 (lwip_htonl (u32 (Z.shiftl h (8 * Z.land j 3))))) by apply htonl_u32, u32_range.
  destruct (_ =? 3); apply IH; try done; try lia; by apply (lor_range 32).
Qed.

Lemma lxor_range k x y : 0 ≤ k → 0 ≤ x < 2 ^ k → 0 ≤ y < 2 ^ k → 0 ≤ Z.lxor x y < 2 ^ k.
Proof.
  intros Hk Hx Hy. replace (Z.lxor x y) with (Z.lxor x y mod 2 ^ k); [apply Z.mod_pos_bound; lia|].
  rewrite <-(Z.mod_small x (2 ^ k)), <-(Z.mod_small y (2 ^ k)), <-!Z.land_ones by lia. apply Z.bits_inj'. intros j Hj.
  rewrite Z.land_spec, Z.lxor_spec, !Z.land_spec. by repeat destruct (Z.testbit _ _).
Qed.

Lemma eui64_ok hwl : Forall is_u8 hwl → is_u32 (eui64_words hwl).1 ∧ is_u32 (eui64_words hwl).2.
Proof.
  intros Hu. assert (Hb : ∀ k, is_u8 (nth k hwl 0)).
  { intros k. destruct (nth_in_or_default k hwl 0) as [Hin| ->]; [|done]. eapply Forall_forall; [exact Hu|]. by apply list_elem_of_In. }
  assert (Hs : ∀ x m, is_u8 x → 0 ≤ m ≤ 24 → 0 ≤ Z.shiftl x m < 2 ^ 32).
  { intros x m Hx Hm. rewrite Z.shiftl_mul_pow2 by lia. unfold is_u8 in Hx. pose proof (Z.pow_le_mono_r 2 m 24 ltac:(lia) ltac:(lia)).
    pose proof (Z.pow_pos_nonneg 2 m ltac:(lia) ltac:(lia)). change (2 ^ 24) with 16777216 in *. change (2 ^ 32) with 4294967296. nia. }
  assert (Hxor : is_u8 (Z.lxor (nth 0 hwl 0) 2)) by (apply (lxor_range 8); [lia|apply Hb|lia]).
  assert (Hz : ∀ k, 0 ≤ nth k hwl 0 < 2 ^ 32) by (intros k; specialize (Hb k); unfold is_u8 in Hb; lia).
  unfold eui64_words. cbn [fst snd]. split; apply htonl_u32; repeat apply (lor_range 32); try done; apply Hs; try done; lia.
Qed.

Lemma linklocal_safe L s n mac : net_inv L s → n ∈ netif_list s →
  (∀ i, ifs s !! n = Some i → mac = 0 → 0 ≤ hwaddr_len (base i) ≤ 6) → safe L s (netif_create_ip6_linklocal_address n mac s).
Proof.
  intros Hinv Hn Hlen. destruct (inv_lookup _ _ _ Hinv Hn) as (i & Hi & Hok). unfold netif_create_ip6_linklocal_address. rewrite (getn_Some _ _ _ Hi).
  cbn [mbind res_bind]. destruct (v6_at_ok i 0 Hok ltac:(lia)) as (v & -> & Hv1 & Hv2 & Hv3 & Hv4 & Hv5). cbn [mbind res_bind].
  destruct (io_hwaddr i Hok) as [Hl Hu]. set (m := if negb (mac =? 0) then _ else _).
  assert (∃ w2 w3, m = Ok (w2, w3) ∧ is_u32 w2 ∧ is_u32 w3) as (w2 & w3 & -> & Hw2 & Hw3).
  { subst m. destruct (mac =? 0) eqn:E; breflect; cbn [negb].
    - apply hwaddr_words_ok; try done. unfold zlen. rewrite Hl. by apply Hlen.
    - destruct (eui64_ok _ Hu) as [? ?]. destruct (eui64_words _) as [w2 w3]. by exists w2, w3. }
  cbn [mbind res_bind]. destruct (assign_zone_ok i [PP_HTONL 4269801472; 0; w2; w3] eq_refl) as [Ha Hz].
  { repeat (apply Forall_cons; split; [done|]). by apply Forall_nil. }
  apply safe_bind; [apply modn_safe; [done|done|]; intros j Hj; apply set_v6_good; [done|by split_and!]|]. intros s1 Hinv1 Hl1.
  apply set_state_safe; [done|congruence|lia|done].
Qed.

End runs.
