(* ===== verification/IgmpRuns.v ===== *)
(** * Multicast groups along runs

    The timer of all interfaces, incoming messages, and joining and leaving on all
    interfaces of the list; the reports that follow a query. *)

From S2P Require Import Prelude ByteMem Def IpAddr Ip4Addr MempPool Chksum ChksumFacts Etharp Iface Igmp Netif Autoip IfaceFacts IgmpFacts NetifFacts IfaceInv IgmpMembers IfaceRuns.

(** ** Messages of a group *)

(** The message was sent on [n] to [a]. *)
Definition sent_to (n a : Z) (c : call) : bool :=
  match c with C_ip4_output_if_opt _ _ dest _ _ _ m _ _ => (m =? n) && (dest =? a) | _ => false end.

Definition group_calls (n a : Z) (cs : list call) : list call := List.filter (sent_to n a) cs.

Lemma group_calls_app n a cs cs' : group_calls n a (cs ++ cs') = group_calls n a cs ++ group_calls n a cs'.
Proof. apply List.filter_app. Qed.

Lemma packet_calls p n src dest type g cs m a : igmp_packet p n src dest type g cs →
  group_calls m a cs = if (m =? n) && (a =? dest) then cs else [].
Proof.
  intros (c & _ & _ & ->). unfold group_calls. cbn [List.filter sent_to]. rewrite (Z.eqb_sym n m), (Z.eqb_sym dest a).
  by destruct (_ && _).
Qed.

(** From [l] to [l'] the log grew by calls [cs] that include [c], the only ones about [a] on [n]. *)
Definition logged (n a : Z) (l l' c : list call) : Prop :=
  ∃ cs, l' = l ++ cs ∧ c ⊆ cs ∧ group_calls n a cs = group_calls n a c.

Lemma logged_app n a l l1 l2 c1 c2 : logged n a l l1 c1 → logged n a l1 l2 c2 → logged n a l l2 (c1 ++ c2).
Proof.
  intros (x & -> & Hx & Ex) (y & -> & Hy & Ey). exists (x ++ y). split; [by rewrite app_assoc|].
  split; [set_solver|]. by rewrite !group_calls_app, Ex, Ey.
Qed.

Lemma logged_refl n a l : logged n a l l [].
Proof. exists []. by rewrite app_nil_r. Qed.

Section runs.
Context {P W : Type} `{PoolLaws P} `{NetEnvLaws W}.
Implicit Types s : nstate P W.

(** ** The timer *)

Lemma ticked_calls n i g g' c m a : ticked n i g g' c → member_ok g ∨ group_address g = allsystems →
  group_calls m a c = if (m =? n) && (a =? group_address g) then group_calls m a c else [].
Proof.
  intros (_ & _ & _ & Hone & Hnone) Hg.
  assert (c = [] ∨ c = [C_pbuf_alloc_NULL] ∨ ∃ p, igmp_packet p n (nip i) (group_address g) IGMP_V2_MEMB_REPORT (group_address g) c) as [->|[->|[p Hp]]].
  { destruct (decide (gtimer g = 1)) as [E|E]; [|left; apply Hnone; by left].
    destruct Hg as [Hm|Hall]; [|left; apply Hnone; by right]. destruct (Hone Hm E) as [[-> _]|[Hp _]]; [right; by left|right; by right]. }
  - by destruct (_ && _).
  - by destruct (_ && _).
  - rewrite (packet_calls _ _ _ _ _ _ _ m a Hp). by destruct (_ && _).
Qed.

(** The messages of one group among those of a tick of its interface. *)
Lemma ticked_concat n i gs gs' css : Forall3 (ticked n i) gs gs' css →
  Forall (λ g, member_ok g ∨ group_address g = allsystems) gs → NoDup (group_address <$> gs) →
  (∀ m a, m ≠ n ∨ a ∉ group_address <$> gs → group_calls m a (concat css) = []) ∧
  (∀ g, g ∈ gs → ∃ g' c, g' ∈ gs' ∧ ticked n i g g' c ∧ c ⊆ concat css ∧
     group_calls n (group_address g) (concat css) = group_calls n (group_address g) c).
Proof.
  induction 1 as [|g g' c gs gs' css Ht _ IH]; intros Hm Hnd; [split; [done|]; by intros g Hg%elem_of_nil|].
  apply Forall_cons in Hm as [Hg Hm]. rewrite fmap_cons in Hnd. apply NoDup_cons in Hnd as [Hng Hnd]. destruct (IH Hm Hnd) as [IH1 IH2].
  pose proof (λ m a, ticked_calls n i g g' c m a Ht Hg) as Hc. cbn [concat]. split.
  - intros m a Ha. rewrite group_calls_app, Hc, IH1, app_nil_r; [|set_solver]. destruct Ha as [Ha|Ha].
    + by replace (m =? n) with false by lia.
    + rewrite fmap_cons in Ha. apply not_elem_of_cons in Ha as [Ha _]. replace (a =? group_address g) with false by lia. by rewrite andb_false_r.
  - intros h [->|Hh]%elem_of_cons.
    + exists g', c. split; [left|]. split; [done|]. split; [set_solver|]. rewrite group_calls_app, Hc, !Z.eqb_refl, IH1, app_nil_r by auto. done.
    + destruct (IH2 h Hh) as (h' & c' & Hh' & Ht' & Hsub & Hc'). exists h', c'. split; [by right|]. split; [done|]. split; [set_solver|].
      rewrite group_calls_app, Hc, Hc'. assert (group_address h ≠ group_address g).
      { intros E. apply Hng. rewrite <-E. by apply list_elem_of_fmap_2. }
      replace (group_address h =? group_address g) with false by lia. by rewrite andb_false_r.
Qed.

(** What a tick does to the interface [n] and its groups. *)
Definition group_ticks (n : Z) s s' : Prop := ∀ i, ifs s !! n = Some i →
  ∃ gs', ifs s' !! n = Some (with_igmp gs' i) ∧ Forall2 resched (igmp_data i) gs' ∧
    ∀ g, g ∈ igmp_data i → ∃ g' c, g' ∈ gs' ∧ ticked n i g g' c ∧
      logged n (group_address g) (env_log (nworld s)) (env_log (nworld s')) c.

Lemma ticked_resched n i gs gs' css : Forall3 (ticked n i) gs gs' css → Forall2 resched gs gs'.
Proof.
  induction 1 as [|g g' c gs gs' css (Hs & Hg & Hm & _) _ IH]; constructor; [|done]. split; [done|]. split; [done|]. intros Hmem. by apply Hm.
Qed.

Lemma groups_member gs : groups_ok gs → Forall (λ g, member_ok g ∨ group_address g = allsystems) gs.
Proof.
  intros (_ & _ & Hs). destruct gs as [|g gs]; [done|]. destruct Hs as [Hall Hm]. constructor; [by right|].
  eapply Forall_impl; [exact Hm|]. auto.
Qed.

Lemma igmp_tmr_one L s n : net_inv L s → n ∈ netif_list s →
  yields (i ← getn n s; '(gs, w) ← tmr_groups n i (igmp_data i) (nworld s); set_groups n gs (set_nworld w s))
    (λ s', net_inv L s' ∧ netif_list s' = netif_list s ∧ (∃ cs, env_log (nworld s') = env_log (nworld s) ++ cs) ∧ group_ticks n s s' ∧
      ∀ m, m ≠ n → ifs s' !! m = ifs s !! m ∧ ∀ a, logged m a (env_log (nworld s)) (env_log (nworld s')) []).
Proof.
  intros Hinv Hn. destruct (inv_lookup L s n Hinv Hn) as (i & Hi & Hok). rewrite (getn_Some _ _ _ Hi). cbn [mbind res_bind].
  pose proof (io_groups i Hok) as Hgs. destruct (tmr_groups_ok L n i (igmp_data i) (nworld s)) as (gs' & w & css & -> & Haf & Ht);
    [apply Hinv|apply Hgs|]. cbn [mbind res_bind]. pose proof (ticked_resched _ _ _ _ _ Ht) as Hr.
  destruct (ticked_concat n i _ _ _ Ht (groups_member _ Hgs)) as [Hother Hmine]; [apply Hgs|].
  destruct (set_groups_updates L s n i gs' w (λ j cs, j = with_igmp gs' i ∧ cs = concat css) _ Hi Haf (conj eq_refl eq_refl))
    as (s' & -> & j & cs & Hch & -> & ->). apply yields_ret. pose proof Hch as [].
  assert (Hreg : regrouped i (with_igmp gs' i)) by (by exists gs').
  split; [eapply changes_inv; [exact Hinv|exact Hi|exact Hch|by apply regrouped_owner|by eapply regrouped_ok]|]. split; [done|].
  split; [by exists (concat css)|]. split.
  - intros j Hj. rewrite Hi in Hj. injection Hj as <-. exists gs'. split; [by eapply changes_lookup|]. split; [done|].
    intros g Hg. destruct (Hmine g Hg) as (g' & c & Hg' & Htg & Hsub & Hc). exists g', c. split; [done|]. split; [done|]. by exists (concat css).
  - intros m Hm. split; [rewrite ch_ifs; by rewrite lookup_insert_ne|]. intros a. exists (concat css). split; [done|]. split; [apply list_subseteq_nil|]. apply Hother. by left.
Qed.

Lemma igmp_tmr_loop_ok L ns : ∀ s, net_inv L s → NoDup ns → (∀ n, n ∈ ns → n ∈ netif_list s) →
  yields (igmp_tmr_loop ns s) (λ s', net_inv L s' ∧ netif_list s' = netif_list s ∧
    (∃ cs, env_log (nworld s') = env_log (nworld s) ++ cs) ∧ (∀ n, n ∈ ns → group_ticks n s s') ∧
    ∀ m, m ∉ ns → ifs s' !! m = ifs s !! m ∧ ∀ a, logged m a (env_log (nworld s)) (env_log (nworld s')) []).
Proof.
  induction ns as [|n ns IH]; intros s Hinv Hnd Hsub; cbn [igmp_tmr_loop].
  { apply yields_ret. split; [done|]. split; [done|]. split; [exists []; by rewrite app_nil_r|].
    split; [by intros n Hn%elem_of_nil|]. intros m _. split; [done|]. intros a. apply logged_refl. }
  apply NoDup_cons in Hnd as [Hn Hnd]. destruct (igmp_tmr_one L s n Hinv) as (s1 & Hr1 & Hinv1 & Hl1 & [cs1 Hcs1] & Hn1 & Ho1); [apply Hsub; left|].
  apply res_bind_Ok in Hr1 as (i & -> & Hr1). cbn [mbind res_bind]. apply res_bind_Ok in Hr1 as ([gs w] & -> & Hr1). cbn [mbind res_bind].
  rewrite Hr1. cbn [mbind res_bind]. eapply yields_mono; [apply (IH s1 Hinv1 Hnd)|].
  { intros m Hm. rewrite Hl1. apply Hsub. by right. }
  intros s2 (Hinv2 & Hl2 & [cs2 Hcs2] & Hn2 & Ho2). split; [done|]. split; [congruence|].
  split; [exists (cs1 ++ cs2); by rewrite Hcs2, Hcs1, app_assoc|]. split.
  - intros m [->|Hm]%elem_of_cons.
    + destruct (Ho2 n Hn) as [Hs2 Hlog2]. intros j Hj. destruct (Hn1 j Hj) as (gs' & Hgs' & Hrs & Hg). exists gs'. rewrite Hs2.
      split; [done|]. split; [done|]. intros g Hin.
      destruct (Hg g Hin) as (g' & c & Hg' & Htk & Hc). exists g', c. split; [done|]. split; [done|].
      rewrite <-(app_nil_r c). by eapply logged_app.
    + assert (m ≠ n) as Hne by (by intros ->). destruct (Ho1 m Hne) as [Hs1 Hlog1]. intros j Hj. rewrite <-Hs1 in Hj.
      destruct (Hn2 m Hm j Hj) as (gs' & Hgs' & Hrs & Hg). exists gs'. split; [done|]. split; [done|]. intros g Hin.
      destruct (Hg g Hin) as (g' & c & Hg' & Htk & Hc). exists g', c. split; [done|]. split; [done|].
      rewrite <-(app_nil_l c). by eapply logged_app.
  - intros m [Hmn Hm]%not_elem_of_cons. destruct (Ho1 m Hmn) as [Hs1 Hlog1], (Ho2 m Hm) as [Hs2 Hlog2]. split; [congruence|].
    intros a. exact (logged_app _ _ _ _ _ [] [] (Hlog1 a) (Hlog2 a)).
Qed.

Lemma igmp_tmr_ok L s : net_inv L s →
  yields (igmp_tmr s) (λ s', net_inv L s' ∧ netif_list s' = netif_list s ∧
    ∃ cs, env_log (nworld s') = env_log (nworld s) ++ cs ∧ ∀ n, n ∈ netif_list s → group_ticks n s s').
Proof.
  intros Hinv. eapply yields_mono; [apply (igmp_tmr_loop_ok L (netif_list s) s Hinv); [apply Hinv|done]|].
  intros s' (? & ? & [cs ?] & ? & _). split; [done|]. split; [done|]. by exists cs.
Qed.

(** ** Reports that are due *)

(** [k] ticks *)
Fixpoint igmp_ticks (k : nat) s : res (nstate P W) :=
  match k with O => Ok s | S k => s ← igmp_tmr s; igmp_ticks k s end.

(** The report of a group with a timer [t], [k] ticks later. *)
Definition due (n : Z) (i : iface) (a t : Z) (k : nat) (cs : list call) : Prop :=
  if (0 <? t) && (t <=? Z.of_nat k) then report_or_nothing n (nip i) a IGMP_V2_MEMB_REPORT a cs else cs = [].

Lemma due_step n i g g1 c1 k c2 : ticked n i g g1 c1 → member_ok g → due n i (group_address g) (gtimer g1) k c2 →
  due n i (group_address g) (gtimer g) (S k) (c1 ++ c2).
Proof.
  intros (_ & _ & Hm & Hone & Hnone) Hg. destruct (Hm Hg) as [_ Ht]. unfold due. rewrite Ht.
  assert (0 ≤ gtimer g) by (destruct Hg as (_ & _ & [[_ ?]|[_ ?]]); lia). destruct (decide (gtimer g = 1)) as [E|E].
  - rewrite E. replace (0 <? Z.max 0 (1 - 1)) with false by lia. replace (1 <=? Z.of_nat (S k)) with true by (symmetry; apply Z.leb_le; lia). cbn [andb].
    intros ->. rewrite app_nil_r. destruct (Hone Hg E) as [[-> _]|[Hp _]]; [by left|by right].
  - destruct (Hnone (or_introl E)) as [-> _]. rewrite app_nil_l.
    destruct (decide (gtimer g = 0)) as [E0|E0]; [by rewrite E0|].
    replace (0 <? gtimer g) with true by lia. replace (0 <? Z.max 0 (gtimer g - 1)) with true by lia.
    replace (Z.max 0 (gtimer g - 1) <=? Z.of_nat k) with (gtimer g <=? Z.of_nat (S k)); [done|].
    destruct (gtimer g <=? Z.of_nat (S k)) eqn:E1; breflect; lia.
Qed.

Lemma igmp_ticks_ok L n k : ∀ s i g, net_inv L s → n ∈ netif_list s → ifs s !! n = Some i → g ∈ igmp_data i → member_ok g →
  yields (igmp_ticks k s) (λ s', net_inv L s' ∧ netif_list s' = netif_list s ∧ ∃ gs' g' c,
    ifs s' !! n = Some (with_igmp gs' i) ∧ g' ∈ gs' ∧ same_group g g' ∧ member_ok g' ∧
    gtimer g' = Z.max 0 (gtimer g - Z.of_nat k) ∧
    logged n (group_address g) (env_log (nworld s)) (env_log (nworld s')) c ∧
    due n i (group_address g) (gtimer g) k c).
Proof.
  induction k as [|k IH]; intros s i g Hinv Hn Hi Hg Hm; cbn [igmp_ticks].
  { apply yields_ret. split; [done|]. split; [done|]. assert (0 ≤ gtimer g) by (destruct Hm as (_ & _ & [[_ ?]|[_ ?]]); lia).
    exists (igmp_data i), g, []. split; [by destruct i|]. split; [done|]. split; [done|]. split; [done|]. split; [lia|].
    split; [apply logged_refl|]. unfold due. destruct (_ && _) eqn:E; [breflect; lia|done]. }
  eapply yields_bind; [by apply igmp_tmr_ok|]. intros s1 (Hinv1 & Hl1 & _ & _ & Ht1). destruct (Ht1 n Hn i Hi) as (gs1 & Hi1 & _ & Hgs1).
  destruct (Hgs1 g Hg) as (g1 & c1 & Hg1 & Htk & Hc1). pose proof Htk as ((Hp1 & Ha1 & Hu1) & _ & Hm1 & _). destruct (Hm1 Hm) as [Hmem1 Htm1].
  eapply yields_mono; [apply (IH s1 (with_igmp gs1 i) g1 Hinv1); [by rewrite Hl1|done|done|done]|].
  intros s2 (Hinv2 & Hl2 & gs2 & g2 & c2 & Hi2 & Hg2 & (Hp2 & Ha2 & Hu2) & Hmem2 & Htm2 & Hc2 & Hdue). split; [done|]. split; [congruence|].
  exists gs2, g2, (c1 ++ c2). split; [done|]. split; [done|]. split; [split_and!; congruence|]. split; [done|]. split; [lia|].
  rewrite Ha1 in Hc2, Hdue. split; [by eapply logged_app|]. by eapply due_step.
Qed.

(** ** Incoming messages *)

(** A general query: 224.0.0.1 asks for all groups. *)
Definition general_query (msg : list Z) (dest : Z) : Prop :=
  8 ≤ zlen msg ∧ chksum_bytes msg = Ok 0 ∧ nth 0 msg 0 = IGMP_MEMB_QUERY ∧ dest = allsystems ∧ rd32 msg 4 = 0.

(** The time to answer, in tenths of a second; 0 stands for version 1 of the protocol. *)
Definition max_resp (msg : list Z) : Z := if nth 1 msg 0 =? 0 then 10 else nth 1 msg 0.

Lemma nth_u8 (l : list Z) k : Forall is_u8 l → is_u8 (nth k l 0).
Proof.
  intros Hl. destruct (nth_in_or_default k l 0) as [Hin| ->]; [|done]. eapply Forall_forall; [exact Hl|]. by apply list_elem_of_In.
Qed.

(** What a query does to the groups. *)
Lemma igmp_query_ok L s n i p dest group msg : net_inv L s → n ∈ netif_list s → ifs s !! n = Some i → p ∈ L →
  pk_bytes p (nworld s) = Ok msg → 8 ≤ zlen msg → Forall is_u8 msg → igmp_lookfor_group (igmp_data i) dest = Some group →
  updates L s n (λ i' cs, cs = [] ∧ regrouped i i' ∧
      (dest = allsystems → rd32 msg 4 = 0 → Forall2 (delayed (max_resp msg)) (tail (igmp_data i)) (tail (igmp_data i'))))
    (igmp_query p n dest group msg s).
Proof.
  intros Hinv Hn Hi Hp Hb Hlen Hu Hl. pose proof (ni_ifs _ _ Hinv n i Hn Hi) as Hok. pose proof (ni_env _ _ Hinv) as He.
  pose proof (io_groups i Hok) as (Hgs & Hnd & Hs). unfold igmp_query. eapply updates_getn; [done|]. pose proof (nth_u8 msg 1 Hu) as Hm. unfold is_u8 in Hm.
  destruct (_ && _) eqn:E; cbn zeta.
  - assert (∃ w, (if nth 1 msg 0 =? 0 then w ← pk_store p 1 [IGMP_V1_DELAYING_MEMBER_TMR] (nworld s); Ok (IGMP_V1_DELAYING_MEMBER_TMR, w)
      else Ok (nth 1 msg 0, nworld s)) = Ok (max_resp msg, w) ∧ after L (nworld s) [] w) as (w & -> & Haf).
    { unfold max_resp. destruct (nth 1 msg 0 =? 0); [|exists (nworld s); split; [done|by apply after_refl]].
      destruct (store_ok (nworld s) L p 1 [IGMP_V1_DELAYING_MEMBER_TMR] msg He Hp Hb) as (w & -> & He' & Hlog & _);
        [lia|unfold zlen in *; cbn [length]; lia|by repeat constructor|]. exists w. split; [done|]. split; [done|by rewrite app_nil_r]. }
    cbn [mbind res_bind]. destruct (delay_all_ok L (igmp_data i) (max_resp msg) w (proj1 Haf)) as (gs' & w' & -> & Haf' & Hr & Hd);
      [unfold max_resp; destruct (_ =? 0); lia|done|]. eapply set_groups_updates; [done|exact (after_trans _ _ _ _ [] [] Haf Haf')|].
    split; [done|]. split; [by exists gs'|done].
  - assert (Hno : dest = allsystems → rd32 msg 4 = 0 → False).
    { intros -> E4. rewrite Z.eqb_refl in E. unfold ip4_addr_isany_val in E. by rewrite E4 in E. }
    destruct (negb _); [|apply (updates_ret _ _ _ i); [done|done|]; split; [done|]; split; [by apply regrouped_refl|intros ? ?; by exfalso; eauto]].
    set (og := if dest =? allsystems then _ else _). assert (Hog : ∀ g, og = Some g → g ∈ igmp_data i).
    { intros g Hg. subst og. destruct (dest =? allsystems); [by apply lookfor_Some in Hg as [? _]|]. injection Hg as <-. by apply lookfor_Some in Hl as [? _]. }
    destruct og as [g|]; [|apply (updates_ret _ _ _ i); [done|done|]; split; [done|]; split; [by apply regrouped_refl|intros ? ?; by exfalso; eauto]].
    specialize (Hog g eq_refl). assert (Hg : group_ok g) by (by eapply Forall_forall in Hgs).
    destruct (delaying_member_ok L g (nth 1 msg 0) (nworld s) He ltac:(lia) Hg) as (g' & w' & -> & Haf & Hsame & Hg' & _ & Hmem).
    eapply set_groups_updates; [done|exact Haf|]. split; [done|]. split; [|intros ? ?; by exfalso; eauto].
    eexists. split; [done|]. apply upd_group_Forall2; [exact (inv_ptrs _ _ _ _ Hinv Hn Hi)|done| |].
    + split; [done|]. split; [done|]. intros Hmg. by apply Hmem.
    + intros h Hh. eapply Forall_forall in Hgs; [|exact Hh]. by split_and!.
Qed.

(** Another host reported the group: the report that waits is not sent. *)
Definition suppressed (g : igmp_group) (i : iface) : iface :=
  if group_state g =? IGMP_GROUP_DELAYING_MEMBER
  then with_igmp (upd_group (g_ptr g) (λ g, with_reporter 0 (with_gstate IGMP_GROUP_IDLE_MEMBER (with_gtimer 0 g))) (igmp_data i)) i
  else i.

Lemma igmp_report_ok L s n i g : net_inv L s → n ∈ netif_list s → ifs s !! n = Some i → g ∈ igmp_data i →
  updates L s n (λ i' cs, cs = [] ∧ i' = suppressed g i ∧ regrouped i i') (igmp_report n g s).
Proof.
  intros Hinv Hn Hi Hg. pose proof (ni_ifs _ _ Hinv n i Hn Hi) as Hok. pose proof (io_groups i Hok) as (Hgs & _).
  unfold igmp_report, suppressed. eapply updates_getn; [done|]. destruct (_ =? _).
  - eapply updates_of; [apply modn_changes; [done|apply Hinv]|]. split; [done|]. split; [done|]. eexists. split; [done|].
    apply upd_group_Forall2; [exact (inv_ptrs _ _ _ _ Hinv Hn Hi)|done| |].
    + eapply Forall_forall in Hgs; [|exact Hg]. destruct Hgs as (Ha & Hr & Hs & Ht & Hu). split; [done|].
      split; [split; [done|]; split; [done|]; split; [done|]; split; [done|exact Hu]|]. intros (Hm & Hall & _). split; [done|]. split; [done|by right].
    + intros h Hh. eapply Forall_forall in Hgs; [|exact Hh]. by split_and!.
  - apply (updates_ret _ _ _ i); [done|apply Hinv|]. split; [done|]. split; [done|]. apply regrouped_refl, Hok.
Qed.

(** The packet is given back at the end. *)
Lemma input_finish L s p : net_inv (p :: L) s →
  yields (w ← if_pbuf_free p (nworld s); Ok (set_nworld w s)) (λ s', net_inv L s' ∧ netif_list s' = netif_list s ∧
    ifs s' = ifs s ∧ env_log (nworld s') = env_log (nworld s)).
Proof.
  intros []. destruct (free_ok (nworld s) L p ni_env) as (w & -> & He & Hl). cbn [mbind res_bind]. apply yields_ret.
  split; [by split|]. by split_and!.
Qed.

Lemma input_rest L s s1 n i i' p (Q : iface → Prop) : net_inv (p :: L) s → ifs s !! n = Some i →
  changes (p :: L) s n i' [] s1 → regrouped i i' → iface_ok i → Q i' →
  yields (w ← if_pbuf_free p (nworld s1); Ok (set_nworld w s1)) (λ s', net_inv L s' ∧ netif_list s' = netif_list s ∧
    env_log (nworld s') = env_log (nworld s) ∧ ∃ i', ifs s' = <[n := i']> (ifs s) ∧ regrouped i i' ∧ Q i').
Proof.
  intros Hinv Hi Hch Hr Hok HQ. eapply yields_mono; [apply (input_finish L s1)|].
  { eapply changes_inv; [exact Hinv|exact Hi|exact Hch|by apply regrouped_owner|by eapply regrouped_ok]. }
  intros s' (Hinv' & Hl' & Hi' & Hlog'). destruct Hch. split; [done|]. split; [congruence|].
  split; [by rewrite Hlog', ch_log, app_nil_r|]. exists i'. split; [congruence|done].
Qed.

Lemma lookfor_all_None gs : groups_ok gs → igmp_lookfor_group gs allsystems = None → gs = [].
Proof.
  intros (_ & _ & Hs) Hl. destruct gs as [|g gs]; [done|]. destruct Hs as [Hall _]. apply lookfor_None in Hl.
  exfalso. apply Hl. rewrite fmap_cons, Hall. left.
Qed.

Lemma igmp_input_ok L s n i p dest msg : net_inv (p :: L) s → n ∈ netif_list s → ifs s !! n = Some i →
  pk_bytes p (nworld s) = Ok msg →
  yields (igmp_input p n dest s) (λ s', net_inv L s' ∧ netif_list s' = netif_list s ∧
    env_log (nworld s') = env_log (nworld s) ∧ ∃ i', ifs s' = <[n := i']> (ifs s) ∧ regrouped i i' ∧
    (general_query msg dest → Forall2 (delayed (max_resp msg)) (tail (igmp_data i)) (tail (igmp_data i')))).
Proof.
  intros Hinv Hn Hi Hb. pose proof (ni_ifs _ _ Hinv n i Hn Hi) as Hok. pose proof (io_groups i Hok) as Hgs. pose proof (ni_env _ _ Hinv) as He.
  destruct (bytes_ok (nworld s) (p :: L) p He) as (l & Hl & Hu & Hz); [left|]. rewrite Hb in Hl. injection Hl as <-.
  unfold igmp_input. rewrite Hb. cbn [mbind res_bind]. pose proof (changes_refl _ _ _ _ Hi He) as Hch0. pose proof (regrouped_refl i Hgs) as Hr0.
  rewrite chksum_bytes_ok by (done || lia). destruct (zlen msg <? IGMP_MINLEN) eqn:E8; breflect.
  { eapply input_rest; [exact Hinv|exact Hi|exact Hch0|done|done|]. intros (Hlen & _). unfold IGMP_MINLEN in E8. lia. }
  cbn [mbind res_bind]. destruct (negb _) eqn:Ec; breflect.
  { eapply input_rest; [exact Hinv|exact Hi|exact Hch0|done|done|]. intros (_ & Hck & _). rewrite chksum_bytes_ok in Hck by (done || lia). congruence. }
  rewrite (getn_Some _ _ _ Hi). cbn [mbind res_bind]. destruct (igmp_lookfor_group (igmp_data i) dest) as [g|] eqn:El.
  2:{ eapply input_rest; [exact Hinv|exact Hi|exact Hch0|done|done|]. intros (_ & _ & _ & -> & _). by rewrite (lookfor_all_None _ Hgs El). }
  destruct (nth 0 msg 0 =? IGMP_MEMB_QUERY) eqn:Eq.
  { destruct (igmp_query_ok (p :: L) s n i p dest g msg) as (s1 & -> & i1 & cs & Hch & -> & Hr & Hd);
      [done|done|done|left|done|unfold IGMP_MINLEN in E8; lia|done|done|]. cbn [mbind res_bind].
    eapply input_rest; [exact Hinv|exact Hi|exact Hch|done|done|]. intros (_ & _ & _ & -> & E4). by apply Hd. }
  assert (Hng : general_query msg dest → False) by (intros (_ & _ & E0 & _); breflect; by rewrite E0 in Eq).
  destruct (_ =? IGMP_V2_MEMB_REPORT).
  - apply lookfor_Some in El as [Hg _]. destruct (igmp_report_ok (p :: L) s n i g Hinv Hn Hi Hg) as (s1 & -> & i1 & cs & Hch & -> & _ & Hr).
    cbn [mbind res_bind]. eapply input_rest; [exact Hinv|exact Hi|exact Hch|done|done|]. by intros ?%Hng.
  - cbn [mbind res_bind]. eapply input_rest; [exact Hinv|exact Hi|exact Hch0|done|done|]. by intros ?%Hng.
Qed.

(** ** Joining and leaving on all interfaces *)

(** The interfaces asked for run IGMP. *)
Definition joinable (ifaddr : option Z) s : Prop :=
  ∀ n i, n ∈ netif_list s → ifs s !! n = Some i → on_interface ifaddr i = true → igmp_data i ≠ [].

Lemma joinable_can ifaddr s n i : joinable ifaddr s → n ∈ netif_list s → ifs s !! n = Some i → on_interface ifaddr i = true → can_join i.
Proof. intros Hj Hn Hi Ho. split; [|by eapply Hj]. unfold on_interface in Ho. by apply andb_true_iff in Ho as [? _]. Qed.

Lemma joined_nonempty n a i i' cs : joined n a i i' cs → igmp_data i ≠ [] →
  igmp_data i' ≠ [] ∧ ∀ ifaddr, on_interface ifaddr i' = on_interface ifaddr i.
Proof.
  unfold joined. destruct (igmp_lookfor_group _ _).
  - intros [-> _] Hd. split; [|done]. cbn. unfold upd_group. by intros ?%fmap_nil_inv.
  - intros (ptr & rep & t & cs' & -> & _) Hd. split; [|done]. cbn. by destruct (igmp_data i).
Qed.

Lemma left_nonempty n a i i' cs : left_group n a i i' cs → igmp_data i ≠ [] →
  igmp_data i' ≠ [] ∧ ∀ ifaddr, on_interface ifaddr i' = on_interface ifaddr i.
Proof.
  intros (g & _ & Hl) Hd. destruct (guse g <=? 1).
  - destruct Hl as (gs' & cs' & -> & Hrm & _). split; [|done]. cbn. destruct (igmp_data i) as [|h [|h2 t]]; [done..|].
    cbn [remove_group_loop] in Hrm. destruct (_ =? _); [by injection Hrm as <-|]. apply bind_Some in Hrm as (x & _ & [= <-]). done.
  - destruct Hl as [-> _]. split; [|done]. cbn. unfold upd_group. by intros ?%fmap_nil_inv.
Qed.

Lemma joinable_insert ifaddr s s' n i i' : joinable ifaddr s → ifs s !! n = Some i → ifs s' = <[n := i']> (ifs s) → netif_list s' = netif_list s →
  igmp_data i' ≠ [] → joinable ifaddr s'.
Proof.
  intros Hj Hi Hs Hl Hd m j Hm Hmj Ho. rewrite Hs in Hmj. rewrite Hl in Hm. destruct (decide (m = n)) as [->|Hne].
  - rewrite lookup_insert_eq in Hmj. by injection Hmj as <-.
  - rewrite lookup_insert_ne in Hmj by done. by eapply Hj.
Qed.

Lemma joingroup_loop_safe L ifaddr a ns : a ≠ allsystems → is_u32 a → ip4_addr_ismulticast a = true →
  ∀ err s, net_inv L s → joinable ifaddr s → (∀ n, n ∈ ns → n ∈ netif_list s) →
  yields (joingroup_loop ifaddr a ns err s) (λ r, net_inv L r.2 ∧ netif_list r.2 = netif_list s).
Proof.
  intros Ha Hu Hm. induction ns as [|n ns IH]; intros err s Hinv Hj Hsub; cbn [joingroup_loop]; [by apply yields_ret|].
  assert (Hn : n ∈ netif_list s) by (apply Hsub; left). assert (Hsub' : ∀ m, m ∈ ns → m ∈ netif_list s) by (intros m ?; apply Hsub; by right).
  destruct (inv_lookup L s n Hinv Hn) as (i & Hi & Hok). rewrite (getn_Some _ _ _ Hi). cbn [mbind res_bind].
  destruct (on_interface ifaddr i) eqn:Eo; [|by apply IH]. pose proof (joinable_can _ _ _ _ Hj Hn Hi Eo) as Hcan.
  destruct (join_ok L s n i a Hinv Hn Hi Ha Hu Hcan Hm) as ([r s1] & -> & Hr). cbn [mbind res_bind fst snd] in *.
  destruct Hr as [(-> & -> & _)|(-> & Hinv1 & Hl1 & i' & cs & Hifs & _ & Hjd)]; cbn [Z.eqb negb ERR_MEM ERR_OK]; [by apply yields_ret|].
  eapply yields_mono; [apply (IH _ s1 Hinv1)|].
  - destruct (joined_nonempty _ _ _ _ _ Hjd (proj2 Hcan)) as [Hd _]. by eapply joinable_insert.
  - intros m Hmm. rewrite Hl1. by apply Hsub'.
  - intros r [? ?]. split; [done|congruence].
Qed.

Lemma leavegroup_loop_safe L ifaddr a ns : a ≠ allsystems → ip4_addr_ismulticast a = true →
  ∀ err s, net_inv L s → joinable ifaddr s → (∀ n, n ∈ ns → n ∈ netif_list s) →
  yields (leavegroup_loop ifaddr a ns err s) (λ r, net_inv L r.2 ∧ netif_list r.2 = netif_list s).
Proof.
  intros Ha Hm. induction ns as [|n ns IH]; intros err s Hinv Hj Hsub; cbn [leavegroup_loop]; [by apply yields_ret|].
  assert (Hn : n ∈ netif_list s) by (apply Hsub; left). assert (Hsub' : ∀ m, m ∈ ns → m ∈ netif_list s) by (intros m ?; apply Hsub; by right).
  destruct (inv_lookup L s n Hinv Hn) as (i & Hi & Hok). rewrite (getn_Some _ _ _ Hi). cbn [mbind res_bind].
  destruct (on_interface ifaddr i) eqn:Eo; [|by apply IH]. pose proof (joinable_can _ _ _ _ Hj Hn Hi Eo) as Hcan.
  destruct (leave_ok L s n i a Hinv Hn Hi Ha Hcan Hm) as ([r s1] & -> & Hr). cbn [mbind res_bind fst snd] in *.
  destruct Hr as [(-> & -> & _)|(-> & Hinv1 & Hl1 & i' & cs & Hifs & _ & Hjd)]; [by apply IH|].
  eapply yields_mono; [apply (IH _ s1 Hinv1)|].
  - destruct (left_nonempty _ _ _ _ _ Hjd (proj2 Hcan)) as [Hd _]. by eapply joinable_insert.
  - intros m Hmm. rewrite Hl1. by apply Hsub'.
  - intros r1 [? ?]. split; [done|congruence].
Qed.

Lemma joingroup_safe L ifaddr a s : net_inv L s → joinable ifaddr s → a ≠ allsystems → is_u32 a → ip4_addr_ismulticast a = true →
  safe L s ('(_, s) ← igmp_joingroup ifaddr a s; Ok s).
Proof.
  intros Hinv Hj Ha Hu Hm. unfold igmp_joingroup. rewrite Hm. replace (negb (a =? allsystems)) with true by lia. cbn [LWIP_ASSERT mbind res_bind].
  eapply yields_bind; [by apply (joingroup_loop_safe L ifaddr a)|]. intros [r s'] ?. by apply yields_ret.
Qed.

Lemma leavegroup_safe L ifaddr a s : net_inv L s → joinable ifaddr s → a ≠ allsystems → ip4_addr_ismulticast a = true →
  safe L s ('(_, s) ← igmp_leavegroup ifaddr a s; Ok s).
Proof.
  intros Hinv Hj Ha Hm. unfold igmp_leavegroup. rewrite Hm. replace (negb (a =? allsystems)) with true by lia. cbn [LWIP_ASSERT mbind res_bind].
  eapply yields_bind; [by apply (leavegroup_loop_safe L ifaddr a)|]. intros [r s'] ?. by apply yields_ret.
Qed.

End runs.
