(* ===== verification/IfaceSteps.v ===== *)
(** * Network interfaces: every sequence of calls

    The functions of netif.c, igmp.c and autoip.c that the rest of the program calls are
    the operations of a step relation; between two of them the rest of the stack may do
    anything that respects its part of the contract.  No sequence of steps breaks the
    types of the fields or the ownership of the structs, and no operation fails. *)

From S2P Require Import Prelude ByteMem Def IpAddr Ip4Addr MempPool Chksum Etharp Iface Igmp Netif Autoip IfaceFacts IgmpFacts NetifFacts IfaceInv IgmpMembers NetifList AutoipFacts AutoipRuns IfaceRuns IgmpRuns.

Section steps.
Context {P W : Type} `{PoolLaws P} `{NetEnvLaws W}.
Implicit Types s : nstate P W.

(** The calls, with their arguments. *)
Inductive op : Type :=
| Netif_add (n : Z) (ip mask gw : option Z) (init : iface → W → res (Z * iface * W))
| Netif_remove (n : option Z)
| Netif_set_addr (n : Z) (ip mask gw : option Z)
| Netif_set_ipaddr (n : Z) (ip : option Z)
| Netif_set_netmask (n : Z) (mask : option Z)
| Netif_set_gw (n : Z) (gw : option Z)
| Netif_set_default (n : option Z)
| Netif_set_up (n : Z)
| Netif_set_down (n : Z)
| Netif_set_link_up (n : Z)
| Netif_set_link_down (n : Z)
| Netif_ip6_addr_set (n k : Z) (a : ip6_addr)
| Netif_ip6_addr_set_state (n k st : Z)
| Netif_add_ip6_address (n : Z) (a : ip6_addr)
| Netif_create_ip6_linklocal_address (n mac : Z)
| Igmp_joingroup (ifaddr : option Z) (a : Z)
| Igmp_leavegroup (ifaddr : option Z) (a : Z)
| Igmp_tmr
| Igmp_input (p n dest : Z)
| Autoip_set_struct (n : Z)
| Autoip_start (n : Z)
| Autoip_stop (n : Z)
| Autoip_network_changed (n : Z)
| Autoip_arp_reply (n : Z) (hdr : etharp_hdr)
| Autoip_tmr.

(** The call without its result. *)
Definition run_op (o : op) s : res (nstate P W) :=
  match o with
  | Netif_add n ip mask gw init => '(_, s) ← netif_add n ip mask gw init s; Ok s
  | Netif_remove n => netif_remove n s
  | Netif_set_addr n ip mask gw => netif_set_addr n ip mask gw s
  | Netif_set_ipaddr n ip => netif_set_ipaddr n ip s
  | Netif_set_netmask n mask => netif_set_netmask n mask s
  | Netif_set_gw n gw => netif_set_gw n gw s
  | Netif_set_default n => Ok (netif_set_default n s)
  | Netif_set_up n => netif_set_up n s
  | Netif_set_down n => netif_set_down n s
  | Netif_set_link_up n => netif_set_link_up n s
  | Netif_set_link_down n => netif_set_link_down n s
  | Netif_ip6_addr_set n k a => netif_ip6_addr_set n k a s
  | Netif_ip6_addr_set_state n k st => netif_ip6_addr_set_state n k st s
  | Netif_add_ip6_address n a => '(_, _, s) ← netif_add_ip6_address n a s; Ok s
  | Netif_create_ip6_linklocal_address n mac => netif_create_ip6_linklocal_address n mac s
  | Igmp_joingroup ifaddr a => '(_, s) ← igmp_joingroup ifaddr a s; Ok s
  | Igmp_leavegroup ifaddr a => '(_, s) ← igmp_leavegroup ifaddr a s; Ok s
  | Igmp_tmr => igmp_tmr s
  | Igmp_input p n dest => igmp_input p n dest s
  | Autoip_set_struct n => autoip_set_struct n s
  | Autoip_start n => '(_, s) ← autoip_start n s; Ok s
  | Autoip_stop n => '(_, s) ← autoip_stop n s; Ok s
  | Autoip_network_changed n => autoip_network_changed n s
  | Autoip_arp_reply n hdr => autoip_arp_reply n hdr s
  | Autoip_tmr => autoip_tmr s
  end.

(** The struct of an interface of the list. *)
Definition listed (n : Z) (Q : iface → Prop) s : Prop := n ∈ netif_list s ∧ ∀ i, ifs s !! n = Some i → Q i.

(** What the caller must see to: arguments that fit their types, interfaces that are in
    the list, or not yet when they are added, and the documented conditions.  [L] are
    the packets the caller holds. *)
Definition op_pre (L : list Z) (o : op) s : Prop :=
  match o with
  | Netif_add n ip mask gw init => n ≠ 0 ∧ ¬ n ∈ netif_list s ∧ is_Some (ifs s !! n) ∧
      is_u32 (or_any ip) ∧ is_u32 (or_any mask) ∧ is_u32 (or_any gw) ∧ zlen (netif_list s) ≤ 254 ∧ driver_ok L init
  | Netif_remove n => ∀ m, n = Some m → m ∈ netif_list s
  | Netif_set_addr n ip mask gw => n ∈ netif_list s ∧ is_u32 (or_any ip) ∧ is_u32 (or_any mask) ∧ is_u32 (or_any gw)
  | Netif_set_ipaddr n v | Netif_set_netmask n v | Netif_set_gw n v => n ∈ netif_list s ∧ is_u32 (or_any v)
  | Netif_set_default n => ∀ m, n = Some m → m ∈ netif_list s
  | Netif_set_up n | Netif_set_down n | Netif_set_link_up n | Netif_set_link_down n => n ∈ netif_list s
  | Netif_ip6_addr_set n k a => n ∈ netif_list s ∧ 0 ≤ k < 3 ∧ ip6_ok a
  | Netif_ip6_addr_set_state n k st => n ∈ netif_list s ∧ 0 ≤ k < 3 ∧ is_u8 st
  | Netif_add_ip6_address n a => n ∈ netif_list s ∧ ip6_ok a
  | Netif_create_ip6_linklocal_address n mac => listed n (λ i, mac = 0 → 0 ≤ hwaddr_len (base i) ≤ 6) s
  | Igmp_joingroup ifaddr a | Igmp_leavegroup ifaddr a =>
      joinable ifaddr s ∧ a ≠ allsystems ∧ is_u32 a ∧ ip4_addr_ismulticast a = true
  | Igmp_tmr | Autoip_tmr => True
  | Igmp_input p n dest => n ∈ netif_list s ∧ p ∈ L
  | Autoip_set_struct n => listed n (λ i, autoip_data i = None) s
  | Autoip_start n => listed n (λ i, netif_is_up i = true) s
  | Autoip_stop n | Autoip_network_changed n => n ∈ netif_list s
  | Autoip_arp_reply n hdr => listed n (λ i, netif_is_up i = true) s
  end.

(** The packets held afterwards. *)
Definition holds_after (L : list Z) (o : op) (L' : list Z) : Prop :=
  match o with Igmp_input p _ _ => L ≡ₚ p :: L' | _ => L' = L end.

(** A step: a call of the interface layer, something the rest of the stack does (a
    packet arrives or is given back, time passes), or a struct that is not in the list
    gets any contents. *)
Inductive istep : list Z * nstate P W → list Z * nstate P W → Prop :=
| step_op L L' o s s' : op_pre L o s → holds_after L o L' → run_op o s = Ok s' → istep (L, s) (L', s')
| step_world L L' s w : env_ok w L' → istep (L, s) (L', set_nworld w s)
| step_struct L s n i : ¬ n ∈ netif_list s → istep (L, s) (L, putn n i s).

(** Before the first call. *)
Definition initial (L : list Z) s : Prop :=
  netif_list s = [] ∧ netif_default s = None ∧ netif_num s = 0 ∧ pool_ok (gpool s) [] ∧ env_ok (nworld s) L.

Lemma initial_inv L s : initial L s → net_inv L s.
Proof.
  intros (Hl & Hd & Hn & Hp & He). split; unfold nums, held; rewrite ?Hl, ?Hd, ?Hn; try done.
  - constructor.
  - by intros n i ?%elem_of_nil.
  - by intros n ?%elem_of_nil.
  - split; constructor.
Qed.

Lemma unlisted_put_inv L s n i : net_inv L s → ¬ n ∈ netif_list s → net_inv L (putn n i s).
Proof.
  intros [] Hn. assert (Hsame : ∀ m, m ∈ netif_list s → ifs (putn n i s) !! m = ifs s !! m) by (intros m Hm; apply lookup_insert_ne; by intros ->).
  assert (Hnums : nums (putn n i s) = nums s).
  { unfold nums. apply list_fmap_ext. intros k m Hm%list_elem_of_lookup_2. by rewrite Hsame. }
  assert (Hheld : held (putn n i s) = held s).
  { unfold held. f_equal. apply list_fmap_ext. intros k m Hm%list_elem_of_lookup_2. by rewrite Hsame. }
  split; rewrite ?Hnums, ?Hheld; try done.
  - intros m j Hm. rewrite Hsame by done. by apply ni_ifs.
  - intros m Hm. rewrite Hsame by done. by apply ni_some.
Qed.

Lemma default_inv L s n : net_inv L s → (∀ m, n = Some m → m ∈ netif_list s) → net_inv L (netif_set_default n s).
Proof. by intros []. Qed.

Lemma safe_yields L s m : safe L s m → yields m (net_inv L).
Proof. intros Hm. eapply yields_mono; [exact Hm|]. by intros s' []. Qed.

Create HintDb iface.
#[local] Hint Resolve safe_yields set_addr_safe set_ipaddr_safe set_netmask_safe set_gw_safe set_up_safe set_down_safe
  set_link_up_safe set_link_down_safe set_state_safe add_ip6_safe linklocal_safe joingroup_safe leavegroup_safe
  autoip_tmr_safe autoip_stop_safe network_changed_safe autoip_start_safe arp_reply_safe set_struct_safe : iface.

(** Every operation returns and keeps the invariant. *)
Lemma run_op_ok L o s L' : net_inv L s → op_pre L o s → holds_after L o L' → yields (run_op o s) (net_inv L').
Proof.
  intros Hinv Hpre HL. destruct o; cbn [run_op op_pre holds_after] in *; unfold listed in *; subst;
    try solve [intuition eauto with iface];
    try solve [apply proj1 in Hpre as Hn; apply proj2 in Hpre; destruct (inv_lookup _ _ _ Hinv Hn) as (i & Hi & _); eauto with iface].
  - destruct Hpre as (Hn & Hnl & [i Hi] & Hip & Hm & Hg & Hlen & Hd).
    eapply yields_bind; [by apply (netif_add_ok L s n i)|]. intros [r s'] [Hinv' _]. by apply yields_ret.
  - destruct n as [n|]; [|by apply yields_ret]. eapply yields_mono; [apply (netif_remove_ok L s n Hinv); by apply Hpre|]. by intros s' [].
  - by apply yields_ret, default_inv.
  - destruct Hpre as (Hn & Hk & Hl & Hf). eapply safe_yields, set_parts_safe; [done|done|done|].
    unfold ip6_word. destruct (addr a) as [|w0 [|w1 [|w2 [|w3 [|]]]]]; done.
  - eapply yields_mono; [by apply igmp_tmr_ok|]. by intros s' [].
  - destruct Hpre as [Hn Hp]. assert (Hinv' : net_inv (p :: L') s) by (destruct Hinv; split; try done; by eapply env_perm).
    destruct (inv_lookup _ _ _ Hinv Hn) as (i & Hi & _). destruct (bytes_ok (nworld s) L p (ni_env _ _ Hinv) Hp) as (msg & Hb & _).
    eapply yields_mono; [by apply (igmp_input_ok L' s n i p dest msg)|]. by intros s' [].
Qed.

Lemma istep_inv L s L' s' : istep (L, s) (L', s') → net_inv L s → net_inv L' s'.
Proof.
  inversion 1 as [?? o ?? Hpre HL Hrun|??? w He|??? i Hn]; subst; intros Hinv.
  - destruct (run_op_ok L o s L' Hinv Hpre HL) as (s2 & Hrun2 & Hinv2). congruence.
  - by destruct Hinv; split.
  - by apply unlisted_put_inv.
Qed.

(** C23: Every field of every interface of the list fits its C type, hardware address, IPv4 and
    IPv6 addresses with their states and lifetimes, flags, number, name, MTUs, counters and
    client data, and the data of AUTOIP and IGMP have their shapes; the structs of the groups
    are owned by exactly one interface and the numbers are unique; after any sequence of
    calls of netif.c, igmp.c and autoip.c and of steps of the rest of the stack, provided
    that drivers fill in values that fit.  There every call whose preconditions hold
    returns: no assertion fails, nothing is read or written outside an object, no loop runs
    forever. *)
Theorem iface_runs_well_typed L0 s0 L s : initial L0 s0 → rtc istep (L0, s0) (L, s) →
  (∀ n, n ∈ netif_list s → ∃ i, ifs s !! n = Some i ∧ iface_ok i) ∧
  NoDup (held s) ∧ pool_ok (gpool s) (held s) ∧ NoDup (nums s) ∧
  ∀ o L', op_pre L o s → holds_after L o L' → ∃ s', run_op o s = Ok s'.
Proof.
  intros Hini Hrun. assert (Hinv : net_inv L s).
  { assert (Hgen : ∀ x y, rtc istep x y → net_inv x.1 x.2 → net_inv y.1 y.2).
    { induction 1 as [|[L1 s1] [L2 s2] y Hst _ IH]; [done|]. intros Hinv1. apply IH. by eapply istep_inv. }
    apply (Hgen _ _ Hrun). by apply initial_inv. }
  split; [intros n Hn; by eapply inv_lookup|]. split; [exact (pool_nodup _ _ (ni_pool _ _ Hinv))|]. split; [apply Hinv|]. split; [apply Hinv|].
  intros o L' Hpre HL. destruct (run_op_ok L o s L' Hinv Hpre HL) as (s' & -> & _). by exists s'.
Qed.

End steps.
