(* ===== verification/IfaceSpec.v ===== *)
(** * Network interfaces: what the operations promise

    Addresses and numbers of an interface (netif.c), the way to a link-local address and
    conflicts about it (autoip.c). *)

From S2P Require Import Prelude ByteMem Def IpAddr Ip4Addr Ip4AddrFacts MempPool Chksum Etharp Iface Igmp Netif Autoip IfaceFacts IgmpFacts NetifFacts IfaceInv IgmpMembers NetifList AutoipFacts AutoipRuns IfaceRuns.

Section spec.
Context {P W : Type} `{PoolLaws P} `{NetEnvLaws W}.
Implicit Types s : nstate P W.

(** ** netif.c *)

(** netif_set_addr stores the three addresses (NULL stands for 0.0.0.0) and changes
    nothing else of any interface but the timers of the reports of groups.  When the
    address changes, TCP and then UDP are told the old and the new address, exactly
    once; after that a new address is announced by ARP, if the interface and its link
    are up, with netmask and gateway already in place. *)
Theorem netif_set_addr_effect L s n i ip mask gw : net_inv L s → n ∈ netif_list s → ifs s !! n = Some i →
  is_u32 (or_any ip) → is_u32 (or_any mask) → is_u32 (or_any gw) →
  ∃ s' i', netif_set_addr n ip mask gw s = Ok s' ∧ net_inv L s' ∧ netif_list s' = netif_list s ∧
    ifs s' = <[n := i']> (ifs s) ∧
    (∃ gs, i' = with_igmp gs (readdressed (or_any ip) (or_any mask) (or_any gw) i) ∧ Forall2 resched (igmp_data i) gs) ∧
    nip i' = or_any ip ∧ nmask i' = or_any mask ∧ ngw i' = or_any gw ∧
    env_log (nworld s') = env_log (nworld s) ++
      (if or_any ip =? nip i then [] else
         [C_tcp_netif_ip_addr_changed (A4 (nip i)) (Some (A4 (or_any ip)));
          C_udp_netif_ip_addr_changed (A4 (nip i)) (Some (A4 (or_any ip)))] ++
         if flag_set i NETIF_FLAG_LINK_UP && flag_set i NETIF_FLAG_UP && negb (or_any ip =? 0) && flag_set i NETIF_FLAG_ETHARP
         then [C_etharp_gratuitous n (base i')] else []).
Proof.
  intros Hinv Hn Hi Hip Hm Hg. pose proof (ni_ifs _ _ Hinv n i Hn Hi) as Hok.
  destruct (set_addr_ok L s n i ip mask gw Hi (ni_env _ _ Hinv)) as (s' & Hrun & i' & cs & Hch & Hr & ->); [apply Hok|].
  exists s', i'. split; [done|]. pose proof Hch as []. assert (Hr2 : regrouped (readdressed (or_any ip) (or_any mask) (or_any gw) i) i') by done.
  split; [eapply changes_inv; [exact Hinv|exact Hi|exact Hch|by apply regrouped_owner in Hr|eapply regrouped_ok; [|exact Hr]]|].
  { apply with_ip_ok; [done|]. apply with_gw_ok; [done|]. by apply with_mask_ok. }
  split; [done|]. split; [done|]. destruct Hr as (gs & -> & Hgs). split; [by exists gs|]. split; [done|]. split; [done|]. split; [done|].
  rewrite ch_log. f_equal. unfold set_addr_calls, report_calls, addr_changed_calls, ip4_addr_isany_val. destruct (or_any ip =? nip i); [done|]. f_equal.
  set (r := readdressed _ _ _ i). change (flag_set r ?f) with (flag_set i f). change (nip r) with (or_any ip).
  change (negb (Z.land NETIF_REPORT_TYPE_IPV4 NETIF_REPORT_TYPE_IPV4 =? 0)) with true. change (negb (Z.land NETIF_REPORT_TYPE_IPV4 NETIF_REPORT_TYPE_IPV6 =? 0)) with false.
  destruct (flag_set i NETIF_FLAG_LINK_UP), (flag_set i NETIF_FLAG_UP); try done. cbn [andb]. rewrite app_nil_r. done.
Qed.

(** C28: netif_add returns, with up to 254 other interfaces: it gives the interface the
    addresses asked for and a number from 0 to 254 that no other interface has and puts
    it at the head of the list, or returns NULL and leaves the list alone if the driver
    fails. *)
Theorem netif_add_unique_number L s n i ip mask gw init : net_inv L s → n ≠ 0 → ¬ n ∈ netif_list s → ifs s !! n = Some i →
  is_u32 (or_any ip) → is_u32 (or_any mask) → is_u32 (or_any gw) → zlen (netif_list s) ≤ 254 → driver_ok L init →
  ∃ r s', netif_add n ip mask gw init s = Ok (r, s') ∧ net_inv L s' ∧
    match r with
    | None => netif_list s' = netif_list s
    | Some m => m = n ∧ netif_list s' = n :: netif_list s ∧
        ∃ i', ifs s' !! n = Some i' ∧ 0 ≤ num i' ≤ 254 ∧ ¬ num i' ∈ nums s ∧
          nip i' = or_any ip ∧ nmask i' = or_any mask ∧ ngw i' = or_any gw
    end.
Proof.
  intros Hinv Hn0 Hn Hi Hip Hm Hg Hlen Hd. destruct (netif_add_ok L s n i ip mask gw init) as ([r s'] & Hrun & Hinv' & Hr); [done..|].
  exists r, s'. done.
Qed.

(** With 255 interfaces, which use up the numbers 0 to 254, the search of netif_add for
    the number of another one does not end: no number of rounds is enough. *)
Theorem netif_add_full_diverges s n nr : ¬ n ∈ netif_list s → (∀ m, m ∈ netif_list s → is_Some (ifs s !! m)) →
  zlen (netif_list s) = 255 → NoDup (nums s) → Forall (λ k, 0 ≤ k ≤ 254) (nums s) → 0 ≤ nr ≤ 255 →
  ∀ rounds, num_search rounds n nr s = Stuck.
Proof.
  intros Hn Hs Hlen Hnd Hr Hnr rounds. destruct (num_search_ok n s Hn Hs ltac:(lia) rounds nr Hnr) as [[-> _]|(k & Hk & _ & Hf & _)]; [done|].
  exfalso. apply Hf. pose proof (Z.mod_pos_bound (nr + k) 255 ltac:(lia)) as Hb.
  assert (Hsub : nums s ⊆+ seqZ 0 255).
  { apply NoDup_submseteq; [done|]. intros x Hx. eapply Forall_forall in Hr; [|exact Hx]. apply elem_of_seqZ. lia. }
  assert (Hp : nums s ≡ₚ seqZ 0 255).
  { apply submseteq_length_Permutation; [done|]. rewrite length_seqZ. unfold nums. rewrite length_fmap. unfold zlen in Hlen. lia. }
  rewrite Hp. apply elem_of_seqZ. lia.
Qed.

(** ** autoip.c *)

(** The address tried by the interface for its [t]-th conflict. *)
Definition tries (i : iface) : Z := match autoip_data i with Some a => tried_llipaddr a | None => 0 end.

Lemma start_on_the_way t i i' : regrouped (started_at t i) i' →
  ∃ a, autoip_data i' = Some a ∧ on_the_way i' a ∧ llipaddr a = lwip_htonl (candidate i t) ∧
    ttw a = probe_wait (with_autoip (Some (Autoip 0 AUTOIP_STATE_OFF 0 0 0 t)) i) t ∧ sent_num a = 0 ∧ ai_state a = AUTOIP_STATE_PROBING ∧
    base i' = base (readdressed 0 0 0 i).
Proof. intros (gs & -> & _). eexists. split; [reflexivity|]. done. Qed.

Lemma start_ticks t i i' a : regrouped (started_at t i) i' → autoip_data i' = Some a →
  if 10 <? t then 660 ≤ remaining i' a ≤ 678 else 61 ≤ remaining i' a ≤ 87.
Proof.
  intros (gs & -> & _) [= <-]. unfold remaining. cbn [ai_state sent_num ttw]. change (3 <=? 0) with false. cbn iota.
  unfold probe_wait, MAX_CONFLICTS. set (j := with_autoip _ i). set (i' := with_igmp gs (started_at t i)).
  assert (Hg : probe_gap i' = LWIP_AUTOIP_RAND j mod 10 + 10) by done. rewrite Hg.
  pose proof (Z.mod_pos_bound (LWIP_AUTOIP_RAND j) 10 ltac:(lia)). destruct (10 <? t); lia.
Qed.


(** C27: An ARP packet on an interface that is up and whose link-local address is the one the
    number of tries stands for.  It is a conflict, as the code tests it: while the interface
    probes, when the sender address is that address, whoever sent it, or when the sender
    address is 0.0.0.0, the target is the address and the hardware address is another's;
    later, when the sender address is the address and the hardware address another's.  In a
    conflict while it probes, and when the last conflict is less than ten seconds ago, the
    interface gives the address up and starts again with a different one; otherwise it
    defends the address with an announcement and keeps it.  Any other ARP packet changes
    nothing, a packet to the address from a host that has one included. *)
Theorem autoip_conflict_resolved L s n i a hdr : net_inv L s → n ∈ netif_list s → ifs s !! n = Some i → netif_is_up i = true →
  autoip_data i = Some a → llipaddr a = lwip_htonl (candidate i (tried_llipaddr a)) →
  ∃ s' i', autoip_arp_reply n hdr s = Ok s' ∧ net_inv L s' ∧ ifs s' = <[n := i']> (ifs s) ∧
  if conflicts i a hdr then
    if gives_up a then
      ∃ a', autoip_data i' = Some a' ∧ ai_state a' = AUTOIP_STATE_PROBING ∧ nip i' = 0 ∧ ll_addr (llipaddr a') ∧
        llipaddr a' ≠ llipaddr a ∧ llipaddr a' = lwip_htonl (candidate i' (tried_llipaddr a')) ∧
        tried_llipaddr a' = u8 (tried_llipaddr a + 1) ∧ sent_num a' = 0
    else i' = with_autoip (Some (with_lastconflict 100 a)) i ∧
      env_log (nworld s') = env_log (nworld s) ++ [C_etharp_gratuitous n (base i)]
  else i' = i ∧ env_log (nworld s') = env_log (nworld s).
Proof.
  intros Hinv Hn Hi Hup Ha Hll. pose proof (ni_ifs _ _ Hinv n i Hn Hi) as Hok. pose proof (io_autoip i Hok a Ha) as (Hs & Hw & Hc & Ht & Hlr & Hlr2).
  destruct (arp_reply_ok L s n i hdr Hi (ni_env _ _ Hinv) Hok Hup) as (s' & Hrun & i' & cs & Hch & Hr). rewrite Ha in Hr. exists s', i'. split; [done|].
  assert (Hu : is_u8 (u8 (tried_llipaddr a + 1))) by apply u8_range. pose proof Hch as [].
  destruct (conflicts i a hdr); [destruct (gives_up a)|]; destruct Hr as [-> Hr].
  - pose proof Hr as (gs & -> & _). split; [|split; [done|]].
    { eapply changes_inv; [exact Hinv|exact Hi|exact Hch|by apply regrouped_owner in Hr|eapply regrouped_ok; [by apply started_at_ok|exact Hr]]. }
    eexists. split; [reflexivity|]. split; [done|]. split; [done|]. split; [apply ll_host, candidate_range|]. split; [|done].
    cbn [llipaddr]. rewrite Hll. intros Heq%(f_equal lwip_htonl). rewrite !(proj2 (ll_host _ (candidate_range _ _))) in Heq.
    apply candidate_inj in Heq; [|done|done]. revert Heq. unfold is_u8 in *. unfold u8. zlia.
  - split; [|split; [done|]].
    { eapply changes_inv; [exact Hinv|exact Hi|exact Hch|by subst i'|]. subst i'. apply with_autoip_ok; [|done]. by split_and!. }
    by rewrite ch_log.
  - subst i'. split; [by eapply changes_inv|]. split; [done|]. split; [done|]. by rewrite ch_log, app_nil_r.
Qed.

(** What the ARP cache relies on: autoip_arp_reply returns, or it aborts because a conflict
    was heard while the interface was down. *)
Theorem autoip_arp_reply_total L s n i hdr : net_inv L s → n ∈ netif_list s → ifs s !! n = Some i →
  yields (autoip_arp_reply n hdr s) (net_inv L) ∨ autoip_arp_reply n hdr s = Assert ∧ netif_is_up i = false.
Proof.
  intros Hinv Hn Hi. pose proof (ni_ifs _ _ Hinv n i Hn Hi) as Hok. destruct (netif_is_up i) eqn:Hup.
  { left. eapply yields_mono; [by eapply arp_reply_safe|]. by intros s' [? _]. }
  assert (Hrs : ∀ a, autoip_data i = Some a → autoip_restart n s = Assert).
  { intros a Ha. unfold autoip_restart. rewrite (get_autoip_Some _ _ _ _ Hi Ha). cbn [mbind res_bind]. unfold put_autoip, modn.
    rewrite (getn_Some _ _ _ Hi). cbn [mbind res_bind]. unfold autoip_start, getn. cbn [putn set_ifs ifs]. rewrite lookup_insert_eq.
    cbn [deref mbind res_bind]. change (netif_is_up (with_autoip ?b i)) with (netif_is_up i). by rewrite Hup. }
  unfold autoip_arp_reply. rewrite (getn_Some _ _ _ Hi). cbn [mbind res_bind].
  destruct (autoip_data i) as [a|] eqn:Ea; [|left; by apply yields_ret]. specialize (Hrs a eq_refl).
  assert (Hdef : yields (autoip_handle_arp_conflict n s) (net_inv L) ∨ autoip_handle_arp_conflict n s = Assert ∧ false = false).
  { unfold autoip_handle_arp_conflict. rewrite (get_autoip_Some _ _ _ _ Hi Ea). cbn [mbind res_bind].
    destruct (0 <? lastconflict a); [by right|left]. unfold autoip_arp_announce. rewrite (getn_Some _ _ _ Hi). cbn [mbind res_bind].
    apply (yields_mono _ (λ s', net_inv L s' ∧ netif_list s' = netif_list s)); [|by intros s' [? _]]. apply (updates_safe L s n i); [done|done|].
    eapply updates_bind; [by eapply (updates_of _ _ _ _ _ (λ j cs, j = i ∧ cs = [C_etharp_gratuitous n (base i)])); [apply call_changes; [done|apply Hinv]|]|].
    intros s1 i1 c1 [-> ->] Hi1 He1. rewrite (get_autoip_Some _ _ _ _ Hi1 Ea). cbn [mbind res_bind]. apply (put_autoip_updates L s1 n i); [done|done|].
    split; [done|]. apply with_autoip_ok; [|done]. pose proof (io_autoip i Hok a Ea) as (? & ? & ? & ? & ? & ?). by split_and!. }
  destruct (ai_state a); [left; by apply yields_ret|..];
    (case_match; [first [by right|exact Hdef]|left; by apply yields_ret]).
Qed.

(** A conflict that is heard while the interface is down aborts: the restart insists that
    it is up. *)
Theorem autoip_conflict_down_aborts s n i a hdr : ifs s !! n = Some i → netif_is_up i = false → autoip_data i = Some a →
  ai_state a = AUTOIP_STATE_PROBING → sipaddr hdr = llipaddr a → autoip_arp_reply n hdr s = Assert.
Proof.
  intros Hi Hup Ha Hst Hs. unfold autoip_arp_reply. rewrite (getn_Some _ _ _ Hi). cbn [mbind res_bind]. rewrite Ha, Hst, Hs, Z.eqb_refl. cbn [orb].
  unfold autoip_restart. rewrite (get_autoip_Some _ _ _ _ Hi Ha). cbn [mbind res_bind]. unfold put_autoip, modn. rewrite (getn_Some _ _ _ Hi). cbn [mbind res_bind].
  unfold autoip_start, getn. cbn [putn set_ifs ifs]. rewrite lookup_insert_eq. cbn [deref mbind res_bind].
  change (netif_is_up (with_autoip ?b i)) with (netif_is_up i). by rewrite Hup.
Qed.

End spec.
