(* ===== verification/IgmpSpec.v ===== *)
(** * Multicast groups: what the operations promise

    The groups of an interface are a multiset of addresses, one occurrence for every
    join that has not been left; a general query is answered by a report of every group
    in time. *)

From stdpp Require Import gmultiset.
From S2P Require Import Prelude ByteMem Def IpAddr Ip4Addr MempPool Chksum Etharp Iface Igmp Netif Autoip IfaceFacts IgmpFacts NetifFacts IfaceInv IgmpMembers IfaceRuns IgmpRuns.

(** ** The multiset of memberships *)

(** What happens to the groups of one interface: a group is joined or left, the timer
    ticks, a message [p] to [dest] is heard. *)
Inductive mevent := Join (a : Z) | Leave (a : Z) | Tick | Hear (p dest : Z).

#[global] Instance mevent_eq_dec : EqDecision mevent.
Proof. solve_decision. Defined.

(** The promise, with the result of the call: joining adds an occurrence unless there is
    no memory for a new group, leaving takes one away if there is one. *)
Inductive mspec : mevent → gmultiset Z → Z → gmultiset Z → Prop :=
| spec_join a m : mspec (Join a) m ERR_OK (m ⊎ {[+ a +]})
| spec_join_nomem a m : ¬ a ∈ m → mspec (Join a) m ERR_MEM m
| spec_leave a m : a ∈ m → mspec (Leave a) m ERR_OK (m ∖ {[+ a +]})
| spec_leave_none a m : ¬ a ∈ m → mspec (Leave a) m ERR_VAL m
| spec_tick m : mspec Tick m ERR_OK m
| spec_hear p dest m : mspec (Hear p dest) m ERR_OK m.

Inductive mspecs : list mevent → gmultiset Z → list Z → gmultiset Z → Prop :=
| specs_nil m : mspecs [] m [] m
| specs_cons e es m r m1 rs m2 : mspec e m r m1 → mspecs es m1 rs m2 → mspecs (e :: es) m (r :: rs) m2.

(** The groups of the interface are those of the multiset, each with its number of users. *)
Definition members (i : iface) (m : gmultiset Z) : Prop :=
  ∀ a, a ≠ allsystems → match igmp_lookfor_group (igmp_data i) a with
    | Some g => guse g = Z.of_nat (multiplicity a m) ∧ 0 < guse g
    | None => multiplicity a m = 0%nat
    end.

Lemma lookfor_resched gs gs' a : Forall2 resched gs gs' →
  match igmp_lookfor_group gs a, igmp_lookfor_group gs' a with
  | Some g, Some g' => guse g' = guse g
  | None, None => True
  | _, _ => False
  end.
Proof.
  induction 1 as [|g g' gs gs' ((_ & Ha & Hu) & _) _ IH]; [done|]. rewrite !lookfor_cons, Ha. by destruct (_ =? a).
Qed.

Lemma members_resched i gs' m : members i m → Forall2 resched (igmp_data i) gs' → members (with_igmp gs' i) m.
Proof.
  intros Hm Hr a Ha. specialize (Hm a Ha). pose proof (lookfor_resched _ _ a Hr) as Hl. cbn [igmp_data with_igmp].
  destruct (igmp_lookfor_group (igmp_data i) a), (igmp_lookfor_group gs' a); try done. by rewrite Hl.
Qed.

(** Groups are multicast addresses other than 224.0.0.1. *)
Definition event_ok (e : mevent) : Prop :=
  match e with
  | Join a | Leave a => a ≠ allsystems ∧ is_u32 a ∧ ip4_addr_ismulticast a = true
  | _ => True
  end.

(** The packets heard, and how often a group is joined. *)
Definition heard (es : list mevent) : list Z := omap (λ e, match e with Hear p _ => Some p | _ => None end) es.
Definition joins (a : Z) (es : list mevent) : nat := length (filter (λ e, e = Join a) es).

Section spec.
Context {P W : Type} `{PoolLaws P} `{NetEnvLaws W}.
Implicit Types s : nstate P W.

Definition run_event (n : Z) (e : mevent) s : res (Z * nstate P W) :=
  match e with
  | Join a => igmp_joingroup_netif n a s
  | Leave a => igmp_leavegroup_netif n a s
  | Tick => s ← igmp_tmr s; Ok (ERR_OK, s)
  | Hear p dest => s ← igmp_input p n dest s; Ok (ERR_OK, s)
  end.

Fixpoint run_events (n : Z) (es : list mevent) s : res (list Z * nstate P W) :=
  match es with
  | [] => Ok ([], s)
  | e :: es => '(r, s) ← run_event n e s; '(rs, s) ← run_events n es s; Ok (r :: rs, s)
  end.

Lemma join_members n a i i' cs m : members i m → joined n a i i' cs → NoDup (ptrs i) → groups_ok (igmp_data i) →
  can_join i → a ≠ allsystems → Z.of_nat (multiplicity a m) < 255 → members i' (m ⊎ {[+ a +]}).
Proof.
  intros Hm Hj Hnd Hgs Hcan Ha Hlt b Hb. rewrite multiplicity_disj_union, multiplicity_singleton. unfold joined in Hj.
  destruct (igmp_lookfor_group (igmp_data i) a) as [g|] eqn:El.
  - destruct Hj as [-> _]. cbn [igmp_data with_igmp]. pose proof (lookfor_Some _ _ _ El) as [_ Hga].
    rewrite (lookfor_upd _ a g) by done. pose proof (Hm a Ha) as Hma. rewrite El in Hma. destruct Hma as [Hu Hp]. destruct (b =? a) eqn:E; breflect.
    + subst b. rewrite decide_True by done. cbn [guse with_use]. rewrite u8_id by ulia. lia.
    + rewrite decide_False by done. rewrite Nat.add_0_r. by apply Hm.
  - destruct Hj as (ptr & rep & t & cs' & -> & _). cbn [igmp_data with_igmp]. destruct (igmp_data i) as [|h gs] eqn:Ed; [by destruct Hcan|].
    destruct Hgs as (_ & _ & Hall & _). cbn [add_group]. rewrite !lookfor_cons. rewrite Hall. cbn [group_address].
    pose proof (Hm b Hb) as Hmb. pose proof (Hm a Ha) as Hma. rewrite Ed, El in Hma. rewrite Ed, lookfor_cons, Hall in Hmb.
    replace (allsystems =? b) with false in * by lia. destruct (a =? b) eqn:E; breflect.
    + subst b. rewrite decide_True by done. cbn [guse]. rewrite Hma. lia.
    + rewrite decide_False by done. by rewrite Nat.add_0_r.
Qed.

Lemma leave_members n a i i' cs m : members i m → left_group n a i i' cs → NoDup (ptrs i) → groups_ok (igmp_data i) →
  can_join i → a ≠ allsystems → a ∈ m ∧ members i' (m ∖ {[+ a +]}).
Proof.
  intros Hm (g & El & Hj) Hnd Hgs Hcan Ha. pose proof (lookfor_Some _ _ _ El) as [Hin Hga].
  pose proof (Hm a Ha) as Hma. rewrite El in Hma. destruct Hma as [Hu Hp]. split; [apply elem_of_multiplicity; lia|].
  intros b Hb. rewrite multiplicity_difference, multiplicity_singleton. destruct (guse g <=? 1) eqn:E1; breflect.
  - destruct Hj as (gs' & cs' & -> & Hrm & _). cbn [igmp_data with_igmp]. unfold ptrs in Hnd.
    pose proof (Hm b Hb) as Hmb. destruct (igmp_data i) as [|h t] eqn:Ed; [done|]. destruct Hgs as (_ & Hnda & Hall & _).
    rewrite fmap_cons in Hnda. apply NoDup_cons in Hnda as [_ Hnda]. apply elem_of_cons in Hin as [->|Hin]; [congruence|].
    destruct (remove_group_ok h t g Hnd Hin) as (t' & Hrm' & _ & Hlook). rewrite Hrm' in Hrm. injection Hrm as <-.
    rewrite lookfor_cons, Hall in Hmb |- *. replace (allsystems =? b) with false in * by lia. rewrite Hlook, Hga by done.
    destruct (b =? a) eqn:E; breflect.
    + subst b. rewrite decide_True by done. lia.
    + rewrite decide_False by done. by rewrite Nat.sub_0_r.
  - destruct Hj as [-> _]. cbn [igmp_data with_igmp]. rewrite (lookfor_upd _ a g) by done. destruct (b =? a) eqn:E; breflect.
    + subst b. rewrite decide_True by done. cbn [guse with_use]. pose proof (proj1 Hgs) as Hf. eapply Forall_forall in Hf; [|exact Hin].
      destruct Hf as (_ & _ & _ & _ & Hu8). unfold is_u8 in Hu8. rewrite u8_id by ulia. lia.
    + rewrite decide_False by done. rewrite Nat.sub_0_r. by apply Hm.
Qed.

Lemma joined_can n a i i' cs : can_join i → joined n a i i' cs → can_join i'.
Proof.
  intros [Hf Hd] Hj. destruct (joined_nonempty _ _ _ _ _ Hj Hd) as [Hd' _]. split; [|done]. unfold joined in Hj.
  destruct (igmp_lookfor_group _ _); [by destruct Hj as [-> _]|by destruct Hj as (? & ? & ? & ? & -> & _)].
Qed.

Lemma left_can n a i i' cs : can_join i → left_group n a i i' cs → can_join i'.
Proof.
  intros [Hf Hd] Hj. destruct (left_nonempty _ _ _ _ _ Hj Hd) as [Hd' _]. split; [|done]. destruct Hj as (g & _ & Hj).
  destruct (_ <=? _); [by destruct Hj as (? & ? & -> & _)|by destruct Hj as [-> _]].
Qed.

Lemma resched_can i gs' : can_join i → Forall2 resched (igmp_data i) gs' → can_join (with_igmp gs' i).
Proof. intros [Hf Hd] Hr. split; [done|]. cbn. intros ->. by inversion Hr. Qed.

(** One event: [L] are the packets held afterwards. *)
Lemma event_ok_members L n e s i m : event_ok e → net_inv (heard [e] ++ L) s → n ∈ netif_list s → ifs s !! n = Some i →
  can_join i → members i m → (∀ a, Z.of_nat (multiplicity a m + joins a [e]) ≤ 255) →
  ∃ r s' i' m', run_event n e s = Ok (r, s') ∧ net_inv L s' ∧ netif_list s' = netif_list s ∧ ifs s' !! n = Some i' ∧ can_join i' ∧
    mspec e m r m' ∧ members i' m' ∧ ∀ a, (multiplicity a m' ≤ multiplicity a m + joins a [e])%nat.
Proof.
  intros He Hinv Hn Hi Hcan Hm Hlt. pose proof (ni_ifs _ _ Hinv n i Hn Hi) as Hok. pose proof (inv_ptrs _ _ _ _ Hinv Hn Hi) as Hnd.
  destruct e as [a|a| |p dest]; cbn [run_event heard omap list_omap app] in *.
  - destruct He as (Ha & Hu & Hmc). assert (Hj : ∀ b, joins b [Join a] = if decide (b = a) then 1%nat else 0%nat).
    { intros b. unfold joins. rewrite filter_cons, filter_nil. destruct (decide (b = a)) as [->|Hne]; [by rewrite decide_True|].
      rewrite decide_False by congruence. done. }
    destruct (join_ok L s n i a Hinv Hn Hi Ha Hu Hcan Hmc) as ([r s'] & Hrun & [(Hr & Hs & El)|(Hr & Hinv' & Hl & i' & cs & Hifs & _ & Hjd)]); cbn [fst snd] in *.
    + exists r, s', i, m. subst r s'. split; [done|]. do 4 (split; [done|]). specialize (Hm a Ha) as Hma. rewrite El in Hma.
      split; [constructor; rewrite elem_of_multiplicity; lia|]. split; [done|]. intros; lia.
    + exists r, s', i', (m ⊎ {[+ a +]}). split; [done|]. split; [done|]. split; [done|]. split; [rewrite Hifs; apply lookup_insert_eq|].
      split; [by eapply joined_can|]. split; [subst r; constructor|]. split.
      * eapply join_members; [exact Hm|exact Hjd|done|apply Hok|done|done|]. specialize (Hlt a). rewrite Hj, decide_True in Hlt by done. lia.
      * intros b. rewrite multiplicity_disj_union, multiplicity_singleton, Hj. done.
  - destruct He as (Ha & Hu & Hmc).
    destruct (leave_ok L s n i a Hinv Hn Hi Ha Hcan Hmc) as ([r s'] & Hrun & [(Hr & Hs & El)|(Hr & Hinv' & Hl & i' & cs & Hifs & _ & Hjd)]); cbn [fst snd] in *.
    + exists r, s', i, m. subst r s'. split; [done|]. do 4 (split; [done|]). specialize (Hm a Ha) as Hma. rewrite El in Hma.
      split; [constructor; rewrite elem_of_multiplicity; lia|]. split; [done|]. intros; lia.
    + destruct (leave_members n a i i' cs m Hm Hjd Hnd (io_groups i Hok) Hcan Ha) as [Hin Hm'].
      exists r, s', i', (m ∖ {[+ a +]}). split; [done|]. split; [done|]. split; [done|]. split; [rewrite Hifs; apply lookup_insert_eq|].
      split; [by eapply left_can|]. split; [subst r; by constructor|]. split; [done|]. intros b. rewrite multiplicity_difference. lia.
  - destruct (igmp_tmr_ok L s Hinv) as (s' & -> & Hinv' & Hl & _ & _ & Ht). destruct (Ht n Hn i Hi) as (gs' & Hi' & Hr & _).
    exists ERR_OK, s', (with_igmp gs' i), m. split; [done|]. do 3 (split; [done|]). split; [by eapply resched_can|]. split; [constructor|].
    split; [by apply members_resched|]. intros; lia.
  - destruct (bytes_ok (nworld s) (p :: L) p (ni_env _ _ Hinv)) as (msg & Hb & _); [left|].
    destruct (igmp_input_ok L s n i p dest msg Hinv Hn Hi Hb) as (s' & -> & Hinv' & Hl & _ & i' & Hifs & (gs' & -> & Hr) & _).
    exists ERR_OK, s', (with_igmp gs' i), m. split; [done|]. do 2 (split; [done|]). split; [rewrite Hifs; apply lookup_insert_eq|].
    split; [by eapply resched_can|]. split; [constructor|]. split; [by apply members_resched|]. intros; lia.
Qed.

(** C24: Joining and leaving groups on an interface refines a multiset of addresses: along any
    sequence of joins, leaves, timer ticks and incoming messages the results are those of
    adding and removing occurrences, and the groups of the interface with their numbers of
    users are the multiset, as long as no group is joined more than 255 times. *)
Theorem igmp_membership_refines L n es s i m : Forall event_ok es → net_inv (heard es ++ L) s → n ∈ netif_list s → ifs s !! n = Some i →
  can_join i → members i m → (∀ a, Z.of_nat (multiplicity a m + joins a es) ≤ 255) →
  ∃ rs s' i' m', run_events n es s = Ok (rs, s') ∧ net_inv L s' ∧ ifs s' !! n = Some i' ∧ mspecs es m rs m' ∧ members i' m'.
Proof.
  intros Hes. revert s i m. induction Hes as [|e es He _ IH]; intros s i m Hinv Hn Hi Hcan Hm Hlt.
  { exists [], s, i, m. split; [done|]. split; [done|]. split; [done|]. split; [constructor|done]. }
  assert (Hj : ∀ a, joins a (e :: es) = (joins a [e] + joins a es)%nat).
  { intros a. unfold joins. rewrite (filter_cons _ e es), (filter_cons _ e []), filter_nil. by destruct (decide _). }
  assert (Hh : heard (e :: es) = heard [e] ++ heard es) by (by destruct e). rewrite Hh, <-app_assoc in Hinv.
  destruct (event_ok_members (heard es ++ L) n e s i m He Hinv Hn Hi Hcan Hm) as (r & s1 & i1 & m1 & Hr & Hinv1 & Hl1 & Hi1 & Hcan1 & Hsp & Hm1 & Hle).
  { intros a. specialize (Hlt a). rewrite Hj in Hlt. lia. }
  destruct (IH s1 i1 m1 Hinv1) as (rs & s2 & i2 & m2 & Hr2 & Hinv2 & Hi2 & Hsp2 & Hm2); [by rewrite Hl1|done|done|done| |].
  { intros a. specialize (Hlt a). specialize (Hle a). rewrite Hj in Hlt. lia. }
  exists (r :: rs), s2, i2, m2. cbn [run_events]. rewrite Hr. cbn [mbind res_bind]. rewrite Hr2. split; [done|]. do 2 (split; [done|]).
  split; [by econstructor|done].
Qed.

(** ** Queries *)

Lemma delayed_lookup m gs gs' g : Forall2 (delayed m) gs gs' → g ∈ gs → ∃ g', g' ∈ gs' ∧ delayed m g g'.
Proof.
  induction 1 as [|h h' gs gs' Hh _ IH]; [by intros ?%elem_of_nil|]. intros [->|Hg]%elem_of_cons; [exists h'; split; [left|done]|].
  destruct (IH Hg) as (g' & ? & ?). exists g'. split; [by right|done].
Qed.

Lemma igmp_ticks_run L k s : net_inv L s → ∃ s', igmp_ticks k s = Ok s' ∧ net_inv L s' ∧
  ∃ cs, env_log (nworld s') = env_log (nworld s) ++ cs.
Proof.
  revert s. induction k as [|k IH]; intros s Hinv; cbn [igmp_ticks]; [exists s; split; [done|]; split; [done|]; exists []; by rewrite app_nil_r|].
  destruct (igmp_tmr_ok L s Hinv) as (s1 & -> & Hinv1 & _ & cs1 & Hcs1 & _). cbn [mbind res_bind].
  destruct (IH s1 Hinv1) as (s2 & Hr & Hinv2 & cs2 & Hcs2). exists s2. split; [done|]. split; [done|].
  exists (cs1 ++ cs2). by rewrite Hcs2, Hcs1, app_assoc.
Qed.

(** C25: A general query is answered in time: when one is heard on an interface, every group
    joined there is reported exactly once, to the group and with the address of the
    interface as the source, in the time the query allows (in ticks of igmp_tmr, 100 ms
    each; 10 for a query of version 1).  The only other case is that pbuf_alloc returned
    NULL in that time: a group that is not reported then has no message sent to it. *)
Theorem igmp_query_answered L s n i p msg k : net_inv (p :: L) s → n ∈ netif_list s → ifs s !! n = Some i →
  pk_bytes p (nworld s) = Ok msg → general_query msg allsystems → max_resp msg ≤ Z.of_nat k →
  ∃ s1 s2 cs, igmp_input p n allsystems s = Ok s1 ∧ igmp_ticks k s1 = Ok s2 ∧ net_inv L s2 ∧ env_log (nworld s2) = env_log (nworld s) ++ cs ∧
    ∀ g, g ∈ tail (igmp_data i) →
      (∃ q, igmp_packet q n (nip i) (group_address g) IGMP_V2_MEMB_REPORT (group_address g) (group_calls n (group_address g) cs)) ∨
      (group_calls n (group_address g) cs = [] ∧ C_pbuf_alloc_NULL ∈ cs).
Proof.
  intros Hinv Hn Hi Hb Hq Hk. pose proof (ni_ifs _ _ Hinv n i Hn Hi) as Hok.
  destruct (igmp_input_ok L s n i p allsystems msg Hinv Hn Hi Hb) as (s1 & Hrun & Hinv1 & Hl1 & Hlog1 & i1 & Hifs1 & Hr1 & Hd1). specialize (Hd1 Hq).
  destruct (igmp_ticks_run L k s1 Hinv1) as (s2 & Hrun2 & Hinv2 & cs & Hcs).
  exists s1, s2, cs. split; [done|]. split; [done|]. split; [done|]. split; [by rewrite Hcs, Hlog1|].
  intros g Hg. destruct (delayed_lookup _ _ _ _ Hd1 Hg) as (g1 & Hg1 & (_ & Ha1 & _) & _ & _ & Hm1).
  assert (Hmem : member_ok g).
  { destruct (io_groups i Hok) as (_ & _ & Hs). destruct (igmp_data i) as [|h t]; [by apply elem_of_nil in Hg|]. destruct Hs as [_ Hf]. by eapply Forall_forall in Hf. }
  destruct (Hm1 Hmem) as (Hmem1 & Hst1 & Ht1). assert (Hg1' : g1 ∈ igmp_data i1) by (destruct (igmp_data i1); [by apply elem_of_nil in Hg1|by right]).
  assert (Hi1 : ifs s1 !! n = Some i1) by (rewrite Hifs1; apply lookup_insert_eq).
  destruct (igmp_ticks_ok L n k s1 i1 g1 Hinv1) as (s2' & Hrun2' & _ & _ & gs' & g' & c & _ & _ & _ & _ & _ & (cs' & Hc & Hsub & Hgc) & Hdue); [by rewrite Hl1|done|done|done|].
  rewrite Hrun2 in Hrun2'. injection Hrun2' as <-. rewrite Hcs in Hc. apply app_inv_head in Hc as <-. assert (0 < gtimer g1).
  { destruct Hmem1 as (_ & _ & [[_ ?]|[Hs _]]); [lia|]. rewrite Hs in Hst1. done. }
  assert (max_resp msg = 10 ∨ 0 < max_resp msg).
  { destruct (bytes_ok (nworld s) (p :: L) p (ni_env _ _ Hinv)) as (l & Hl & Hu & _); [left|]. rewrite Hb in Hl. injection Hl as <-.
    pose proof (nth_u8 msg 1 Hu) as Hx. unfold is_u8 in Hx. unfold max_resp. destruct (_ =? 0) eqn:E; breflect; lia. }
  unfold due in Hdue. replace ((0 <? gtimer g1) && (gtimer g1 <=? Z.of_nat k)) with true in Hdue by lia.
  rewrite Ha1 in *. destruct Hdue as [->|[q Hp]]; [right; split; [done|apply Hsub; left]|left]. exists q.
  destruct Hr1 as (gs1 & -> & _). rewrite Hgc, (packet_calls _ _ _ _ _ _ _ _ _ Hp), !Z.eqb_refl. done.
Qed.

(** ** Limits of the counter and of the start *)

(** The number of users is 8 bits wide: the 256th join of a group makes it 0, and the next
    leave removes the group although 255 users are left. *)
Theorem igmp_use_overflow L s n i a g : net_inv L s → n ∈ netif_list s → ifs s !! n = Some i → can_join i → a ≠ allsystems → is_u32 a →
  ip4_addr_ismulticast a = true → igmp_lookfor_group (igmp_data i) a = Some g → guse g = 255 →
  ∃ s1 s2 i1 i2, igmp_joingroup_netif n a s = Ok (ERR_OK, s1) ∧ ifs s1 !! n = Some i1 ∧
    (∃ g1, igmp_lookfor_group (igmp_data i1) a = Some g1 ∧ guse g1 = 0) ∧
    igmp_leavegroup_netif n a s1 = Ok (ERR_OK, s2) ∧ ifs s2 !! n = Some i2 ∧ igmp_lookfor_group (igmp_data i2) a = None.
Proof.
  intros Hinv Hn Hi Hcan Ha Hu Hm El Hg. pose proof (inv_ptrs _ _ _ _ Hinv Hn Hi) as Hnd.
  destruct (join_ok L s n i a Hinv Hn Hi Ha Hu Hcan Hm) as ([r s1] & Hr1 & [(_ & _ & Hno)|(Hr & Hinv1 & Hl1 & i1 & c1 & Hifs1 & _ & Hj)]); [congruence|]. cbn [fst snd] in *. subst r.
  pose proof (joined_can _ _ _ _ _ Hcan Hj) as Hcan1. unfold joined in Hj. rewrite El in Hj. destruct Hj as [-> _]. set (i1 := with_igmp _ i) in *.
  assert (Hi1 : ifs s1 !! n = Some i1) by (rewrite Hifs1; apply lookup_insert_eq). assert (Hn1 : n ∈ netif_list s1) by (by rewrite Hl1).
  pose proof (lookfor_Some _ _ _ El) as [_ Hga].
  assert (El1 : igmp_lookfor_group (igmp_data i1) a = Some (with_use 0 g)) by (subst i1; cbn [igmp_data with_igmp]; rewrite (lookfor_upd _ a g), Z.eqb_refl, Hg by done; done).
  destruct (leave_ok L s1 n i1 a Hinv1 Hn1 Hi1 Ha Hcan1 Hm) as ([r s2] & Hr2 & [(_ & _ & Hno)|(Hr & Hinv2 & Hl2 & i2 & c2 & Hifs2 & _ & (g1 & El1' & Hlv))]); [congruence|].
  cbn [fst snd] in *. subst r. rewrite El1 in El1'. injection El1' as <-. change (guse (with_use 0 g) <=? 1) with true in Hlv.
  destruct Hlv as (gs' & _ & -> & Hrm & _). exists s1, s2, i1, (with_igmp gs' i1). split; [done|]. split; [done|].
  split; [by exists (with_use 0 g)|]. split; [done|]. split; [rewrite Hifs2; apply lookup_insert_eq|].
  cbn [igmp_data with_igmp]. pose proof (inv_ptrs _ _ _ _ Hinv1 Hn1 Hi1) as Hnd1. pose proof (io_groups _ (ni_ifs _ _ Hinv1 n i1 Hn1 Hi1)) as (_ & Hnda & Hall).
  destruct (lookfor_Some _ _ _ El1) as [Hin1 Hga1]. unfold ptrs in Hnd1. destruct (igmp_data i1) as [|h t]; [by apply elem_of_nil in Hin1|].
  destruct Hall as [Hh _]. apply elem_of_cons in Hin1 as [Heq|Hin1]; [subst h; congruence|]. rewrite fmap_cons in Hnda. apply NoDup_cons in Hnda as [_ Hnda].
  destruct (remove_group_ok h t _ Hnd1 Hin1) as (t' & Hrm' & _ & Hlook). rewrite Hrm' in Hrm. injection Hrm as <-.
  rewrite lookfor_cons, Hh. replace (allsystems =? a) with false by lia. rewrite Hlook, Hga1, Z.eqb_refl by done. done.
Qed.

(** netif_add does not look at the result of igmp_start.  On an interface where it ran out
    of memory, so that the list is empty, joining a group aborts as soon as there is
    memory again. *)
Theorem igmp_join_unstarted_aborts s n i a ptr p : ifs s !! n = Some i → flag_set i NETIF_FLAG_IGMP = true → igmp_data i = [] →
  a ≠ allsystems → ip4_addr_ismulticast a = true → pool_malloc (gpool s) = Ok (Some ptr, p) → igmp_joingroup_netif n a s = Assert.
Proof.
  intros Hi Hf Hd Ha Hm Hp. unfold igmp_joingroup_netif, igmp_lookup_group. rewrite Hm. replace (negb (a =? allsystems)) with true by lia.
  cbn [LWIP_ASSERT mbind res_bind]. rewrite (getn_Some _ _ _ Hi). cbn [mbind res_bind]. rewrite Hf, Hd. cbn [LWIP_ASSERT mbind res_bind igmp_lookfor_group List.find].
  rewrite Hp. cbn [mbind res_bind]. by replace (a =? allsystems) with false by lia.
Qed.

End spec.
