(* ===== verification/NetifNames.v ===== *)
(** * Names and indices of interfaces

    netif_index_to_name prints the name of an interface, netif_name_to_index and
    netif_find read it back. *)

From S2P Require Import Prelude ByteMem Def IpAddr Ip4Addr MempPool Etharp Iface Igmp Netif Autoip IfaceFacts NetifFacts.

(** ** atoi *)

(** The value of digits that follow [acc]. *)
Definition digits_value (acc : Z) (ds : list Z) : Z := fold_left (λ v c, v * 10 + (c - 48)) ds acc.

Lemma numeral_value n ds : numeral n ds → digits_value 0 ds = n.
Proof.
  induction 1 as [d Hd|n d ds _ IH Hd]; unfold digits_value in *; [cbn; lia|]. rewrite fold_left_app, IH. cbn. lia.
Qed.

Lemma digit_char c : 48 ≤ c ≤ 57 → lwip_isdigit c = true ∧ lwip_isspace c = false ∧ (c =? 45) = false ∧ (c =? 43) = false.
Proof.
  intros Hc. assert (c ∈ seqZ 48 10) as Hin by (apply elem_of_seqZ; lia). clear Hc. revert c Hin. apply Forall_forall.
  change (seqZ 48 10) with [48; 49; 50; 51; 52; 53; 54; 55; 56; 57]. by repeat constructor.
Qed.

Lemma digits_value_mono acc ds : Forall (λ c, 48 ≤ c ≤ 57) ds → 0 ≤ acc → acc ≤ digits_value acc ds.
Proof.
  revert acc. induction ds as [|d ds IH]; intros acc Hd Ha; [done|]. apply Forall_cons in Hd as [Hd Hds].
  change (digits_value acc (d :: ds)) with (digits_value (acc * 10 + (d - 48)) ds). specialize (IH (acc * 10 + (d - 48)) Hds ltac:(lia)). lia.
Qed.

Lemma atoi_digits_ok b ds : Forall (λ c, 48 ≤ c ≤ 57) ds → ∀ fuel a acc, cstr b a ds → (length ds < fuel)%nat →
  0 ≤ acc → digits_value acc ds ≤ INT_MAX → atoi_digits fuel b a acc = Ok (digits_value acc ds).
Proof.
  induction 1 as [|d ds Hd Hds IH]; intros fuel a acc Hs Hf Ha Hm; (destruct fuel as [|fuel]; [cbn in Hf; lia|]); cbn [atoi_digits].
  - apply cstr_nil in Hs. rewrite Hs. cbn [deref mbind res_bind]. change (lwip_isdigit 0) with false. cbv iota.
    unfold digits_value in *. cbn [fold_left] in *. by replace (acc <=? INT_MAX) with true by lia.
  - apply cstr_cons in Hs as (Hc & _ & Hs). rewrite Hc. cbn [deref mbind res_bind]. destruct (digit_char d Hd) as (-> & _).
    apply IH; [done|cbn in Hf; lia|lia|done].
Qed.

Lemma atoi_ok b a n ds : 0 ≤ n ≤ INT_MAX → decimal n ds → cstr b a ds → atoi b a = Ok n.
Proof.
  intros Hn Hdec Hs. assert (Forall (λ c, 48 ≤ c ≤ 57) ds ∧ digits_value 0 ds = n ∧ ds ≠ []) as (Hd & Hv & Hne).
  { unfold decimal in Hdec. destruct (n =? 0) eqn:E; breflect.
    - subst. split; [by repeat constructor|]. done.
    - pose proof (numeral_digits _ _ Hdec) as [? ?]. split; [done|]. split; [by apply numeral_value|]. by intros ->. }
  pose proof (cstr_fuel _ _ _ Hs) as Hf. destruct ds as [|d ds]; [done|]. pose proof (cstr_head _ _ _ Hs) as Hh. cbn in Hh.
  pose proof Hd as [Hdd _]%Forall_cons. destruct (digit_char d Hdd) as (_ & Hsp & Hm & Hp).
  unfold atoi. assert (Hspc : atoi_spaces (walk_fuel b) b a = Ok a) by (unfold walk_fuel; cbn [atoi_spaces]; rewrite Hh; cbn [deref mbind res_bind]; by rewrite Hsp).
  rewrite Hspc. cbn [mbind res_bind]. rewrite Hh. cbn [deref mbind res_bind]. rewrite Hm, Hp.
  rewrite (atoi_digits_ok b (d :: ds) Hd) by (done || lia). by rewrite Hv.
Qed.

(** A number of an interface has at most three digits. *)
Lemma decimal_short n ds : 0 ≤ n ≤ 254 → decimal n ds → zlen ds ≤ 3.
Proof.
  intros Hn Hdec. unfold decimal in Hdec. destruct (n =? 0) eqn:E; breflect; [by subst|].
  inversion Hdec as [d Hd|n1 d ds1 Hn1 Hd]; subst; [done|]. rewrite zlen_app. change (zlen [_]) with 1.
  inversion Hn1 as [d1 Hd1|n2 d1 ds2 Hn2 Hd1]; subst; [done|]. rewrite zlen_app. change (zlen [_]) with 1.
  inversion Hn2 as [d2 Hd2|n3 d2 ds3 Hn3 Hd2]; subst; [done|]. apply numeral_pos in Hn3. lia.
Qed.

Section names.
Context {P W : Type} `{PoolLaws P} `{NetEnvLaws W}.
Implicit Types s : nstate P W.

(** ** Finding *)

Lemma nums_inj L s n m i j : net_inv L s → n ∈ netif_list s → m ∈ netif_list s → ifs s !! n = Some i → ifs s !! m = Some j →
  num i = num j → n = m.
Proof.
  intros Hinv [k Hk]%list_elem_of_lookup [l Hl]%list_elem_of_lookup Hi Hj He. destruct (ni_nums _ _ Hinv) as [Hnd _].
  assert (k = l) as ->; [|congruence]. eapply (NoDup_lookup (nums s)); [done| |]; unfold nums; rewrite list_lookup_fmap.
  - rewrite Hk. cbn. by rewrite Hi.
  - rewrite Hl. cbn. by rewrite Hj, He.
Qed.

Lemma inv_num L s n i : net_inv L s → n ∈ netif_list s → ifs s !! n = Some i → 0 ≤ num i ≤ 254.
Proof.
  intros Hinv [k Hk]%list_elem_of_lookup Hi. destruct (ni_nums _ _ Hinv) as [_ Hf]. eapply Forall_lookup_1 in Hf; [exact Hf|].
  unfold nums. rewrite list_lookup_fmap, Hk. cbn. by rewrite Hi.
Qed.

Lemma inv_index L s n i : net_inv L s → n ∈ netif_list s → ifs s !! n = Some i → netif_get_index i = num i + 1.
Proof. intros Hinv Hn Hi. pose proof (inv_num _ _ _ _ Hinv Hn Hi). unfold netif_get_index. apply u8_id. ulia. Qed.

Lemma get_by_index_loop_ok L s n i ns : net_inv L s → n ∈ ns → ifs s !! n = Some i → (∀ m, m ∈ ns → m ∈ netif_list s) →
  get_by_index_loop (num i + 1) ns s = Ok (Some n).
Proof.
  intros Hinv Hn Hi. revert Hn. induction ns as [|m ns IH]; [by intros ?%elem_of_nil|]. intros Hn Hsub. cbn [get_by_index_loop].
  destruct (inv_lookup _ _ _ Hinv (Hsub m ltac:(left))) as (j & Hj & _). rewrite (getn_Some _ _ _ Hj). cbn [mbind res_bind].
  rewrite (inv_index _ _ _ _ Hinv (Hsub m ltac:(left)) Hj). destruct (num i + 1 =? num j + 1) eqn:E; breflect.
  - do 2 f_equal. symmetry. eapply (nums_inj L s n m i j); try done; [by apply Hsub|apply Hsub; left|lia].
  - apply elem_of_cons in Hn as [->|Hn]; [rewrite Hi in Hj; injection Hj as ->; lia|]. apply IH; [done|]. intros k Hk. apply Hsub. by right.
Qed.

Lemma find_loop_ok L s n i ns : net_inv L s → n ∈ ns → ifs s !! n = Some i → (∀ m, m ∈ ns → m ∈ netif_list s) →
  netif_find_loop (num i) (name0 i) (name1 i) ns s = Ok (Some n).
Proof.
  intros Hinv Hn Hi. revert Hn. induction ns as [|m ns IH]; [by intros ?%elem_of_nil|]. intros Hn Hsub. cbn [netif_find_loop].
  destruct (inv_lookup _ _ _ Hinv (Hsub m ltac:(left))) as (j & Hj & _). rewrite (getn_Some _ _ _ Hj). cbn [mbind res_bind].
  destruct (_ && _) eqn:E; breflect.
  - do 2 f_equal. symmetry. eapply (nums_inj L s n m i j); try done; [by apply Hsub|apply Hsub; left].
  - apply elem_of_cons in Hn as [->|Hn]; [rewrite Hi in Hj; injection Hj as ->; by rewrite !Z.eqb_refl in E|].
    apply IH; [done|]. intros k Hk. apply Hsub. by right.
Qed.

(** ** Printing *)

Lemma itoa_num b a n : mapped b a 4 → 0 ≤ n ≤ 254 →
  ∃ ds b', decimal n ds ∧ lwip_itoa a 4 n b = Ok b' ∧ cstr b' a ds ∧ ∀ k, k < a ∨ a + 4 ≤ k → b' !! k = b !! k.
Proof.
  intros Hm Hn. destruct (decide (n = 0)) as [->|Hne].
  - destruct (itoa_zero b a 4 Hm) as (b' & Hr & Hs & Ho); [lia|]. by exists [48], b'.
  - destruct (numeral_exists n) as [ds Hds]; [lia|]. assert (Hdec : decimal n ds) by (unfold decimal; by replace (n =? 0) with false by lia).
    destruct (itoa_nonzero b a 4 n ds Hm) as (b' & Hr & Hs & Ho); [lia|unfold INT_MIN; lia|done|by rewrite Z.abs_eq by lia|].
    exists ds, b'. split; [done|]. split; [done|]. split; [|done]. cbn zeta in Hs. replace (n <? 0) with false in Hs by lia.
    pose proof (decimal_short n ds Hn Hdec). by replace (zlen ds + 1 <=? 4) with true in Hs by lia.
Qed.

Lemma mstore_byte b a n k v : mapped b a n → a ≤ k < a + n → mstore k [v] b = Ok (<[k := v]> b).
Proof. intros Hm Hk. exact (store_in b a n k v Hm Hk). Qed.

(** Names and indices of interfaces are two ways to say the same: for every interface
    of the list, the name that netif_index_to_name prints for its index (two characters
    and the number, in a buffer of NETIF_NAMESIZE bytes, nothing outside is touched)
    finds the interface again and gives the index back. *)
Theorem netif_name_round_trip L s n i b name : net_inv L s → n ∈ netif_list s → ifs s !! n = Some i →
  mapped b name NETIF_NAMESIZE → name ≠ 0 →
  ∃ b', netif_index_to_name (netif_get_index i) name b s = Ok (name, b') ∧
    netif_get_by_index (netif_get_index i) s = Ok (Some n) ∧
    netif_find b' name s = Ok (Some n) ∧ netif_name_to_index b' name s = Ok (netif_get_index i) ∧
    (∃ ds, decimal (num i) ds ∧ b' !! name = Some (name0 i) ∧ b' !! (name + 1) = Some (name1 i) ∧ cstr b' (name + 2) ds) ∧
    ∀ k, k < name ∨ name + NETIF_NAMESIZE ≤ k → b' !! k = b !! k.
Proof.
  intros Hinv Hn Hi Hm Hname. unfold NETIF_NAMESIZE in *. pose proof (inv_num _ _ _ _ Hinv Hn Hi) as Hnum.
  assert (Hget : netif_get_by_index (num i + 1) s = Ok (Some n)).
  { unfold netif_get_by_index, NETIF_NO_INDEX. replace (negb (num i + 1 =? 0)) with true by lia. by eapply get_by_index_loop_ok. }
  rewrite (inv_index _ _ _ _ Hinv Hn Hi). set (b2 := <[name + 1 := name1 i]> (<[name := name0 i]> b)).
  assert (Hm2 : mapped b2 (name + 2) 4) by (do 2 apply mapped_insert; eapply mapped_mono; [| |exact Hm]; lia).
  destruct (itoa_num b2 (name + 2) (num i) Hm2 Hnum) as (ds & b' & Hdec & Hitoa & Hs & Ho).
  assert (Hc0 : b' !! name = Some (name0 i)) by (rewrite Ho by lia; subst b2; rewrite lookup_insert_ne by lia; apply lookup_insert_eq).
  assert (Hc1 : b' !! (name + 1) = Some (name1 i)) by (rewrite Ho by lia; apply lookup_insert_eq).
  assert (Hfind : netif_find b' name s = Ok (Some n)).
  { unfold netif_find. replace (name =? 0) with false by lia. rewrite (atoi_ok b' (name + 2) (num i) ds) by (done || unfold INT_MAX; lia).
    cbn [mbind res_bind]. rewrite Hc0, Hc1. cbn [deref mbind res_bind]. rewrite u8_id by ulia. by eapply find_loop_ok. }
  exists b'. split; [|split; [done|]; split; [done|]; split; [|split; [by exists ds|]]].
  - unfold netif_index_to_name. rewrite Hget. cbn [mbind res_bind]. rewrite (getn_Some _ _ _ Hi). cbn [mbind res_bind].
    rewrite (mstore_byte b name 6) by (done || lia). cbn [mbind res_bind].
    rewrite (mstore_byte _ name 6) by (by apply mapped_insert || lia). cbn [mbind res_bind].
    unfold netif_index_to_num, NETIF_NAMESIZE. replace (num i + 1 - 1) with (num i) by lia. change (6 - 2) with 4. fold b2. by rewrite Hitoa.
  - unfold netif_name_to_index. rewrite Hfind. cbn [mbind res_bind]. rewrite (getn_Some _ _ _ Hi). cbn [mbind res_bind].
    by rewrite (inv_index _ _ _ _ Hinv Hn Hi).
  - intros k Hk. rewrite Ho by lia. subst b2. by rewrite !lookup_insert_ne by lia.
Qed.

End names.
