(* ===== verification/IfaceLink.v ===== *)
(** * Network interfaces on a concrete stack

    A pool of memp.c for the groups, at most four packets in a map and a record of the calls: a
    stack that satisfies [NetEnvLaws], with an interface that was added to it. *)

From stdpp Require Import gmultiset.
From S2P Require Import Prelude ByteMem Def IpAddr Ip4Addr Memp MempFacts MempPool Chksum Etharp Iface Igmp Netif Autoip IfaceFacts IgmpFacts NetifFacts IfaceInv IgmpMembers NetifList AutoipFacts AutoipRuns IfaceRuns IgmpRuns IfaceSteps IfaceSpec IgmpSpec NetifNames.

(** ** The rest of the stack *)

Record trace := Trace { t_calls : list call; t_packets : gmap Z (list Z); t_next : Z; t_rand : Z }.

#[global] Instance trace_env : NetEnv trace := {|
  do_call c w := Ok (0, Trace (t_calls w ++ [c]) (t_packets w) (t_next w) (t_rand w));
  lwip_rand w := (u32 (t_rand w), Trace (t_calls w) (t_packets w) (t_next w) (t_rand w * 1103515245 + 12345));
  autoip_calloc w := Ok (true, w);
  igmp_pbuf_alloc w :=
    if (size (t_packets w) <? 4)%nat then
      Ok (Some (t_next w), Trace (t_calls w) (<[t_next w := replicate 8 0]> (t_packets w)) (t_next w + 1) (t_rand w))
    else Ok (None, Trace (t_calls w ++ [C_pbuf_alloc_NULL]) (t_packets w) (t_next w) (t_rand w));
  pk_bytes p w := deref (t_packets w !! p);
  pk_store p off l w :=
    old ← deref (t_packets w !! p);
    if (0 <=? off) && (off + zlen l <=? zlen old) then
      Ok (Trace (t_calls w) (<[p := take (Z.to_nat off) old ++ l ++ drop (Z.to_nat off + length l) old]> (t_packets w)) (t_next w) (t_rand w))
    else Ub;
  if_pbuf_free p w := _ ← deref (t_packets w !! p); Ok (Trace (t_calls w) (delete p (t_packets w)) (t_next w) (t_rand w));
  dhcp_stops_autoip _ _ := false
|}.

Definition trace_ok (w : trace) (L : list Z) : Prop :=
  NoDup L ∧ (∀ p, p ∈ L ↔ is_Some (t_packets w !! p)) ∧ (∀ p l, t_packets w !! p = Some l → Forall is_u8 l ∧ zlen l < 65536) ∧
  ∀ p, p ∈ L → p < t_next w.

#[global] Instance trace_laws : NetEnvLaws trace.
Proof.
  refine {| env_ok := trace_ok; env_log := t_calls |}.
  - intros w L L' HL (Hnd & Hin & Hb & Hlt). split; [by rewrite <-HL|]. split; [intros p; by rewrite <-HL|]. split; [done|]. intros p. rewrite <-HL. apply Hlt.
  - intros c w L Hok. by eexists _, _.
  - intros w L Hok. eexists _, _. split; [done|]. split; [apply u32_range|]. done.
  - intros w L Hok. by eexists _, _.
  - intros w L (Hnd & Hin & Hb & Hlt). unfold igmp_pbuf_alloc, trace_env. destruct (size (t_packets w) <? 4)%nat; [|by eexists _, _]. eexists _, _. split; [done|]. cbn. split; [done|]. split.
    + assert (Hnew : ¬ t_next w ∈ L) by (intros ?%Hlt; lia). split; [by constructor|]. split; [|split].
      * intros p. cbn. rewrite elem_of_cons, lookup_insert_is_Some, Hin. destruct (decide (t_next w = p)) as [->|]; [naive_solver|naive_solver].
      * intros p l. cbn. rewrite lookup_insert_Some. intros [[_ <-]|[_ Hp]]; [|by eapply Hb]. split; [by repeat constructor|done].
      * cbn. intros p [->|Hp]%elem_of_cons; [lia|]. specialize (Hlt p Hp). lia.
    + exists (replicate 8 0). cbn. rewrite lookup_insert_eq. done.
  - intros w L p (Hnd & Hin & Hb & Hlt) [l Hl]%Hin. exists l. cbn. rewrite Hl. split; [done|]. by eapply Hb.
  - intros w L p off l old (Hnd & Hin & Hb & Hlt) Hp Hold Hoff Hlen Hl. cbn in *. unfold deref in *. destruct (t_packets w !! p) as [x|] eqn:Ex; [|done].
    injection Hold as ->. cbn [mbind res_bind]. replace (0 <=? off) with true by lia. replace (off + zlen l <=? zlen old) with true by lia.
    eexists. split; [done|]. split; [|split; [done|cbn; by rewrite lookup_insert_eq]]. destruct (Hb p old Ex) as [Hu Hz].
    split; [done|]. split; [|split; [|done]].
    + intros q. cbn. rewrite Hin, lookup_insert_is_Some. destruct (decide (p = q)) as [->|]; naive_solver.
    + intros q y. cbn. rewrite lookup_insert_Some. intros [[_ <-]|[_ Hq]]; [|by eapply Hb]. split.
      * rewrite !Forall_app. split; [by apply Forall_take|]. split; [done|by apply Forall_drop].
      * unfold zlen in *. rewrite !length_app, length_take, length_drop. lia.
  - intros w L p (Hnd & Hin & Hb & Hlt). apply NoDup_cons in Hnd as [Hp Hnd]. destruct (proj1 (Hin p) ltac:(left)) as [l Hl]. cbn. rewrite Hl.
    eexists. split; [done|]. split; [|done]. split; [done|]. cbn. split; [|split].
    + intros q. rewrite lookup_delete_is_Some. specialize (Hin q). rewrite elem_of_cons in Hin. destruct (decide (q = p)) as [->|]; naive_solver.
    + intros q y. rewrite lookup_delete_Some. intros [_ Hq]. by eapply Hb.
    + intros q Hq. apply Hlt. by right.
Defined.

(** ** An interface that is added and goes up *)

Definition from_ok {B} (m : res B) (b : B) : B := match m with Ok x => x | _ => b end.

Definition igmp_pools : list memp_desc := [LWIP_MEMPOOL_DECLARE 8 16 700000 4].

Lemma igmp_pools_ok : descs_ok igmp_pools.
Proof.
  split.
  - intros [|i] e Hd; vm_compute in Hd; simplify_eq. split_and!; [done|by exists 4|done..].
  - intros [|i] [|j] e e' Hd Hd' Hne; done.
Qed.

#[global] Instance igmp_pool_laws : PoolLaws (pools_at igmp_pools 0) := memp_pool_laws igmp_pools 0 _ igmp_pools_ok eq_refl.

Definition igmp_pool : pools_at igmp_pools 0 := from_ok (memp_init igmp_pools (Pools ∅ ∅)) (Pools ∅ ∅).

Lemma igmp_pool_ok : pool_ok igmp_pool [].
Proof.
  exists []. split; [|done]. destruct (memp_init_ok igmp_pools igmp_pools_ok) as (s & Hi & Hinv).
  unfold igmp_pool. by rewrite Hi.
Qed.

Definition stack := nstate (pools_at igmp_pools 0) trace.

(** A struct that was not initialised. *)
Definition raw_netif : iface := Iface (Netif [] 0 (Netif4 0 0 0) 0) [] 0 0 0 0 0 0 0 false false 0 0 None [].

Definition stack0 : stack := NState {[1 := raw_netif; 2 := raw_netif]} [] None 0 igmp_pool (Trace [] ∅ 100 7).

(** The driver of an Ethernet interface "en" whose link is up, with a filter for groups. *)
Definition eth_init (mac : list Z) (i : iface) (w : trace) : res (Z * iface * trace) :=
  Ok (ERR_OK,
      Iface (Netif mac 6 (Netif4 (2 + 4 + 8 + 16 + 32) (nip i) (nmask i)) (ngw i)) (v6 i) 1500 (mtu6 i) 101 110 (num i)
        (ip6_autoconfig_enabled i) (rs_count i) true false (dhcp_data i) (mld6_data i) (autoip_data i) (igmp_data i),
      w).

Definition mac1 : list Z := [2; 0; 0; 0; 17; 34].
Definition addr1 : option Z := Some (PP_HTONL 3232235521).
Definition mask1 : option Z := Some (PP_HTONL 4294967040).

Lemma eth_init_ok L mac : length mac = 6%nat → Forall is_u8 mac → driver_ok L (eth_init mac).
Proof. intros Hl Hu i w He Hv1 Hv2 Hco. apply yields_ret. split; [done|]. split; [done|]. intros _. by split_and!. Qed.

(** Added with an address, then up, then with the group 224.1.2.3. *)
Definition stack1 : stack := (from_ok (netif_add 1 addr1 mask1 None (eth_init mac1) stack0) (None, stack0)).2.
Definition stack2 : stack := from_ok (netif_set_up 1 stack1) stack1.
Definition group1 : Z := PP_HTONL 3758162435.
Definition stack3 : stack := (from_ok (igmp_joingroup_netif 1 group1 stack2) (0, stack2)).2.

Definition netif1 (s : stack) : iface := default raw_netif (ifs s !! 1).

Lemma stack0_initial : initial [] stack0.
Proof.
  split_and!; try done; [exact igmp_pool_ok|]. split; [constructor|]. split; [|split].
  - intros p. cbn. rewrite lookup_empty, elem_of_nil. split; [done|]. by intros [].
  - intros p l. cbn. by rewrite lookup_empty.
  - by intros p ?%elem_of_nil.
Qed.

Lemma mac1_ok : length mac1 = 6%nat ∧ Forall is_u8 mac1.
Proof. split; [done|]. by repeat constructor. Qed.

Lemma stack1_inv : net_inv [] stack1.
Proof.
  destruct (netif_add_ok [] stack0 1 raw_netif addr1 mask1 None (eth_init mac1)) as ([r s] & Hrun & Hinv & _);
    [apply initial_inv, stack0_initial|done|by intros ?%elem_of_nil|done|done|done|done|done|by apply eth_init_ok; apply mac1_ok|].
  unfold stack1. by rewrite Hrun.
Qed.

Lemma stack1_list : netif_list stack1 = [1] ∧ ifs stack1 !! 1 = Some (netif1 stack1).
Proof. split; vm_compute; reflexivity. Qed.

Lemma stack2_inv : net_inv [] stack2 ∧ netif_list stack2 = [1].
Proof.
  destruct stack1_list as [Hl _].
  destruct (set_up_safe [] stack1 1 stack1_inv) as (s & Hrun & Hinv & Hl2); [rewrite Hl; left|]. unfold stack2. rewrite Hrun.
  split; [exact Hinv|]. exact (eq_trans Hl2 Hl).
Qed.

Lemma stack2_netif : ifs stack2 !! 1 = Some (netif1 stack2) ∧ netif_is_up (netif1 stack2) = true ∧ can_join (netif1 stack2) ∧
  nip (netif1 stack2) = PP_HTONL 3232235521.
Proof. split; [vm_compute; reflexivity|]. split; [vm_compute; reflexivity|]. split; [split; [vm_compute; reflexivity|by vm_compute]|vm_compute; reflexivity]. Qed.

(** ** Witnesses *)

Lemma in_list2 : 1 ∈ netif_list stack2.
Proof. rewrite (proj2 stack2_inv). left. Qed.

Definition addr2 : Z := PP_HTONL 167772161.

Lemma netif_set_addr_effect_witness :
  ∃ s' i', netif_set_addr 1 (Some addr2) mask1 None stack2 = Ok s' ∧ net_inv [] s' ∧ netif_list s' = netif_list stack2 ∧
    ifs s' = <[1 := i']> (ifs stack2) ∧
    (∃ gs, i' = with_igmp gs (readdressed addr2 (or_any mask1) 0 (netif1 stack2)) ∧ Forall2 resched (igmp_data (netif1 stack2)) gs) ∧
    nip i' = addr2 ∧ nmask i' = or_any mask1 ∧ ngw i' = 0 ∧
    env_log (nworld s') = env_log (nworld stack2) ++
      [C_tcp_netif_ip_addr_changed (A4 (PP_HTONL 3232235521)) (Some (A4 addr2));
       C_udp_netif_ip_addr_changed (A4 (PP_HTONL 3232235521)) (Some (A4 addr2)); C_etharp_gratuitous 1 (base i')].
Proof.
  destruct (netif_set_addr_effect [] stack2 1 (netif1 stack2) (Some addr2) mask1 None) as (s' & i' & Hr & Hinv & Hl & Hi & Hg & H1 & H2 & H3 & Hlog);
    [apply stack2_inv|apply in_list2|apply stack2_netif|vm_compute; split; [discriminate|reflexivity]|vm_compute; split; [discriminate|reflexivity]|vm_compute; split; [discriminate|reflexivity]|].
  exists s', i'. split; [exact Hr|]. split; [exact Hinv|]. split; [exact Hl|]. split; [exact Hi|]. split; [exact Hg|].
  split; [exact H1|]. split; [exact H2|]. split; [exact H3|exact Hlog].
Defined.

Lemma netif_add_unique_number_witness :
  ∃ r s', netif_add 1 addr1 mask1 None (eth_init mac1) stack0 = Ok (r, s') ∧ net_inv [] s' ∧
    match r with
    | None => netif_list s' = netif_list stack0
    | Some m => m = 1 ∧ netif_list s' = 1 :: netif_list stack0 ∧
        ∃ i', ifs s' !! 1 = Some i' ∧ 0 ≤ num i' ≤ 254 ∧ ¬ num i' ∈ nums stack0 ∧
          nip i' = or_any addr1 ∧ nmask i' = or_any mask1 ∧ ngw i' = or_any None
    end.
Proof.
  apply (netif_add_unique_number [] stack0 1 raw_netif addr1 mask1 None (eth_init mac1)).
  - apply initial_inv, stack0_initial.
  - lia.
  - intros Hn. by apply elem_of_nil in Hn.
  - reflexivity.
  - vm_compute. split; [discriminate|reflexivity].
  - vm_compute. split; [discriminate|reflexivity].
  - vm_compute. split; [discriminate|reflexivity].
  - vm_compute. discriminate.
  - apply eth_init_ok; apply mac1_ok.
Defined.

(** 255 interfaces, with the numbers 0 to 254. *)
Definition stack_full : stack :=
  NState (list_to_map ((λ k, (k, with_num (k - 1) raw_netif)) <$> seqZ 1 255)) (seqZ 1 255) None 0 igmp_pool (Trace [] ∅ 100 7).

Lemma netif_add_full_diverges_witness : num_search 1000 1000 0 stack_full = Stuck.
Proof.
  apply (netif_add_full_diverges stack_full 1000 0).
  - intros Hn%elem_of_seqZ. lia.
  - apply Forall_forall. apply (bool_decide_unpack (Forall (λ m, is_Some (ifs stack_full !! m)) (netif_list stack_full))). vm_compute. exact I.
  - vm_compute. reflexivity.
  - apply (bool_decide_unpack (NoDup (nums stack_full))). vm_compute. exact I.
  - apply (bool_decide_unpack (Forall (λ k, 0 ≤ k ≤ 254) (nums stack_full))). vm_compute. exact I.
  - lia.
Defined.


(** The interface probes, and another host claims the address. *)
Definition stack_probing : stack := (from_ok (autoip_start 1 stack2) (0, stack2)).2.

Lemma stack_probing_inv : net_inv [] stack_probing ∧ 1 ∈ netif_list stack_probing.
Proof.
  destruct (autoip_start_safe [] stack2 1 (netif1 stack2)) as (s & Hrun & Hinv & Hl); [apply stack2_inv|apply in_list2|apply stack2_netif..|].
  apply res_bind_Ok in Hrun as ([r s'] & Hr & [= ->]). unfold stack_probing. rewrite Hr. split; [exact Hinv|].
  change (from_ok (Ok (r, s)) (0, stack2)).2 with s. rewrite Hl. apply in_list2.
Qed.

Definition autoip1 : autoip := default (Autoip 0 AUTOIP_STATE_OFF 0 0 0 0) (autoip_data (netif1 stack_probing)).
Definition claim_hdr : etharp_hdr :=
  EtharpHdr (PP_HTONS 1) (PP_HTONS ETHTYPE_IP) 6 4 (PP_HTONS ARP_REPLY) [2; 0; 0; 0; 0; 9] (llipaddr autoip1) mac1 0.

Lemma autoip_conflict_resolved_witness :
  ∃ s' i' a', autoip_arp_reply 1 claim_hdr stack_probing = Ok s' ∧ ifs s' = <[1 := i']> (ifs stack_probing) ∧ autoip_data i' = Some a' ∧
    ai_state a' = AUTOIP_STATE_PROBING ∧ llipaddr a' ≠ llipaddr autoip1.
Proof.
  assert (Hc : conflicts (netif1 stack_probing) autoip1 claim_hdr = true) by (vm_compute; reflexivity).
  assert (Hg : gives_up autoip1 = true) by (vm_compute; reflexivity).
  destruct (autoip_conflict_resolved [] stack_probing 1 (netif1 stack_probing) autoip1 claim_hdr) as (s' & i' & Hr & _ & Hi & Hcase).
  - apply stack_probing_inv.
  - apply stack_probing_inv.
  - vm_compute. reflexivity.
  - vm_compute. reflexivity.
  - vm_compute. reflexivity.
  - vm_compute. reflexivity.
  - rewrite Hc, Hg in Hcase. destruct Hcase as (a' & Ha & Hst & _ & _ & Hne & _). exists s', i', a'.
    split; [exact Hr|]. split; [exact Hi|]. split; [exact Ha|]. split; [exact Hst|exact Hne].
Defined.

(** A group is joined twice, left once, and still there. *)
Lemma members0 : members (netif1 stack2) ∅.
Proof.
  intros a Ha. assert (Hd : ∃ g, igmp_data (netif1 stack2) = [g] ∧ group_address g = allsystems) by (eexists; split; vm_compute; reflexivity).
  destruct Hd as (g & -> & Hg). rewrite lookfor_cons, Hg. by replace (allsystems =? a) with false by lia.
Qed.

Lemma group1_ok : group1 ≠ allsystems ∧ is_u32 group1 ∧ ip4_addr_ismulticast group1 = true.
Proof. split; [by vm_compute|]. split; [vm_compute; split; [discriminate|reflexivity]|vm_compute; reflexivity]. Qed.

Lemma igmp_membership_refines_witness :
  ∃ rs s' i' m', run_events 1 [Join group1; Join group1; Tick; Leave group1] stack2 = Ok (rs, s') ∧
    net_inv [] s' ∧ ifs s' !! 1 = Some i' ∧ mspecs [Join group1; Join group1; Tick; Leave group1] ∅ rs m' ∧ members i' m'.
Proof.
  apply (igmp_membership_refines [] 1 [Join group1; Join group1; Tick; Leave group1] stack2 (netif1 stack2) ∅).
  - repeat (apply Forall_cons; split; [exact group1_ok || exact I|]). apply Forall_nil. exact I.
  - apply stack2_inv.
  - apply in_list2.
  - apply stack2_netif.
  - apply stack2_netif.
  - exact members0.
  - intros a. rewrite multiplicity_empty. unfold joins. pose proof (length_filter (λ e, e = Join a) [Join group1; Join group1; Tick; Leave group1]) as Hl.
    cbn [length] in Hl. lia.
Defined.

(** A general query on an interface with a group; it may be answered within 10 seconds. *)
Definition query_bytes : list Z := [17; 100; 238; 155; 0; 0; 0; 0].

Definition stack_query : stack := set_nworld (Trace (t_calls (nworld stack3)) {[50 := query_bytes]} 1000 3) stack3.

Lemma stack3_inv : net_inv [] stack3 ∧ netif_list stack3 = [1].
Proof.
  destruct group1_ok as (Ha & Hu & Hm).
  destruct (join_ok [] stack2 1 (netif1 stack2) group1) as ([r s] & Hrun & Hr); [apply stack2_inv|apply in_list2|apply stack2_netif|exact Ha|exact Hu|apply stack2_netif|exact Hm|].
  unfold stack3. rewrite Hrun. change (from_ok (Ok (r, s)) (0, stack2)).2 with s. destruct Hr as [(_ & Hs & _)|(_ & Hinv & Hl & _)]; cbn [fst snd] in *.
  - rewrite Hs. apply stack2_inv.
  - split; [exact Hinv|]. exact (eq_trans Hl (proj2 stack2_inv)).
Qed.

Lemma stack_query_inv : net_inv [50] stack_query.
Proof.
  eapply istep_inv; [apply step_world|exact (proj1 stack3_inv)]. split; [apply NoDup_singleton|]. split; [|split].
  - intros p. cbn. rewrite list_elem_of_singleton. rewrite lookup_singleton_is_Some. done.
  - intros p l. cbn. rewrite lookup_singleton_Some. intros [_ <-]. split; [by repeat constructor|done].
  - cbn. intros p ->%list_elem_of_singleton. lia.
Qed.

Lemma igmp_query_answered_witness :
  ∃ s1 s2 cs, igmp_input 50 1 allsystems stack_query = Ok s1 ∧ igmp_ticks 100 s1 = Ok s2 ∧ net_inv [] s2 ∧
    env_log (nworld s2) = env_log (nworld stack_query) ++ cs ∧
    ∀ g, g ∈ tail (igmp_data (netif1 stack_query)) →
      (∃ q, igmp_packet q 1 (nip (netif1 stack_query)) (group_address g) IGMP_V2_MEMB_REPORT (group_address g)
         (group_calls 1 (group_address g) cs)) ∨
      (group_calls 1 (group_address g) cs = [] ∧ C_pbuf_alloc_NULL ∈ cs).
Proof.
  apply (igmp_query_answered [] stack_query 1 (netif1 stack_query) 50 query_bytes 100).
  - exact stack_query_inv.
  - change (netif_list stack_query) with (netif_list stack3). rewrite (proj2 stack3_inv). left.
  - vm_compute. reflexivity.
  - vm_compute. reflexivity.
  - split; [vm_compute; discriminate|]. split; [vm_compute; reflexivity|]. split; [reflexivity|]. split; vm_compute; reflexivity.
  - vm_compute. discriminate.
Defined.

(** The group of the interface is really there. *)
Example stack_query_groups : group_address <$> tail (igmp_data (netif1 stack_query)) = [group1].
Proof. vm_compute. reflexivity. Qed.

Lemma netif_name_round_trip_witness :
  ∃ b', netif_index_to_name 1 500 (mwrite ∅ 500 (replicate 6 0)) stack2 = Ok (500, b') ∧ netif_find b' 500 stack2 = Ok (Some 1) ∧
    netif_name_to_index b' 500 stack2 = Ok 1 ∧ mread b' 500 4 = Some [101; 110; 48; 0].
Proof.
  destruct (netif_name_round_trip [] stack2 1 (netif1 stack2) (mwrite ∅ 500 (replicate 6 0)) 500) as (b' & Hr & _ & Hf & Hn & _).
  - apply stack2_inv.
  - apply in_list2.
  - apply stack2_netif.
  - apply mapped_b_spec; [vm_compute; discriminate|vm_compute; reflexivity].
  - lia.
  - assert (Hidx : netif_get_index (netif1 stack2) = 1) by (vm_compute; reflexivity). rewrite Hidx in *. exists b'.
    split; [exact Hr|]. split; [exact Hf|]. split; [exact Hn|]. vm_compute in Hr. injection Hr as <-. vm_compute. reflexivity.
Defined.

(** Added, up, and joined by the group. *)
Lemma run_example : rtc istep ([], stack0) ([], stack2).
Proof.
  eapply rtc_l; [apply (step_op [] [] (Netif_add 1 addr1 mask1 None (eth_init mac1)) stack0 stack1)|].
  - split; [lia|]. split; [by intros ?%elem_of_nil|]. split; [by eexists|]. split; [vm_compute; split; [discriminate|reflexivity]|].
    split; [vm_compute; split; [discriminate|reflexivity]|]. split; [vm_compute; split; [discriminate|reflexivity]|].
    split; [vm_compute; discriminate|]. apply eth_init_ok; apply mac1_ok.
  - reflexivity.
  - vm_compute. reflexivity.
  - eapply rtc_l; [|apply rtc_refl]. apply (step_op [] [] (Netif_set_up 1) stack1 stack2).
    + change (1 ∈ netif_list stack1). rewrite (proj1 stack1_list). left.
    + reflexivity.
    + vm_compute. reflexivity.
Qed.

Lemma iface_runs_well_typed_witness :
  (∀ n, n ∈ netif_list stack2 → ∃ i, ifs stack2 !! n = Some i ∧ iface_ok i) ∧
  NoDup (held stack2) ∧ pool_ok (gpool stack2) (held stack2) ∧ NoDup (nums stack2) ∧
  ∀ o L', op_pre [] o stack2 → holds_after [] o L' → ∃ s', run_op o stack2 = Ok s'.
Proof. exact (iface_runs_well_typed [] stack0 [] stack2 stack0_initial run_example). Defined.
