(* ===== verification/Ip4.v ===== *)
(** * IPv4 output: core/ipv4/ip4.c and the fragmentation of core/ipv4/ip4_frag.c

    ip4_route chooses the interface for a destination, ip4_output and its variants put
    the IP header in front of a packet and hand it to the interface, ip4_frag cuts a
    packet that is larger than the MTU of the interface.  The input side is in Icmp.v
    and Ip4Input.v.

    The packets are those of Pbuf.v and the interfaces those of Iface.v.  The state is
    a [pstate] over [ipmem]: the heap and the pools, with the interfaces, the variables
    of ip4.c and the link layer beside them.  The link layer ([netif->output], as
    etharp_output) and the pool MEMP_FRAG_PBUF are reached through the class [Link];
    Ip4Facts.v states what the theorems rely on.

    A fragment made by ip4_frag refers to the data of the original packet through structs
    pbuf_custom_ref, which hold a reference to a struct of the original.  Releasing such
    a struct releases that reference, so that [frag_free] is pbuf_free with the function
    ipfrag_free_pbuf_custom behind the pointer [custom_free_function].

    Configuration: LWIP_MULTICAST_TX_OPTIONS 1, IP_OPTIONS_SEND 1, IP_FRAG 1,
    LWIP_NETIF_TX_SINGLE_PBUF 0, IP_FORWARD 0, ENABLE_LOOPBACK 0, CHECKSUM_GEN_IP 0, no
    routing hooks. *)

From S2P Require Import Prelude ByteMem Def Pbuf Ip4Addr Etharp Ip4Frag Iface.

(** ** Address tests and header fields *)

Definition IP_HLEN_MAX : Z := 60.
Definition IPH_V (hdr : ip_hdr) : Z := Z.shiftr (nth 0 hdr 0) 4.
Definition IPH_PROTO (hdr : ip_hdr) : Z := nth 9 hdr 0.
Definition ip4_addr_isloopback (a : Z) : bool := Z.land a (PP_HTONL 4278190080) =? PP_HTONL (Z.shiftl 127 24).
(** ip4_addr_isany of a pointer to an address, [None] is NULL *)
Definition ip4_addr_isany (a : option Z) : bool := match a with None => true | Some a => ip4_addr_isany_val a end.
Definition netif_is_link_up (i : iface) : bool := flag_set i NETIF_FLAG_LINK_UP.

(** ** The state *)

(** struct ip_globals, the members for IPv4; [current_ip4_header] is a pointer. *)
Record ip_globals := IpGlobals {
  current_netif : option Z; current_input_netif : option Z; current_ip4_header : Z;
  current_ip_header_tot_len : Z; current_iphdr_src : Z; current_iphdr_dest : Z }.

(** [am]: the heap and the pools; [original]: the member of that name of the structs
    pbuf_custom_ref in use; [link]: the state of the link layer. *)
Record ipmem (A P N W : Type) := IpMem {
  am : A; net : nstate P N; ip4_default_multicast_netif : option Z; ip_id : Z; original : gmap Z Z;
  ip_data : ip_globals; link : W }.
Arguments IpMem {A P N W} _ _ _ _ _ _ _.
Arguments am {A P N W} _.
Arguments net {A P N W} _.
Arguments ip4_default_multicast_netif {A P N W} _.
Arguments ip_id {A P N W} _.
Arguments original {A P N W} _.
Arguments ip_data {A P N W} _.
Arguments link {A P N W} _.

Section state.
Context {A P N W : Type}.
Implicit Types m : ipmem A P N W.

Definition set_am v m : ipmem A P N W := IpMem v (net m) (ip4_default_multicast_netif m) (ip_id m) (original m) (ip_data m) (link m).
Definition set_net v m : ipmem A P N W := IpMem (am m) v (ip4_default_multicast_netif m) (ip_id m) (original m) (ip_data m) (link m).
Definition set_multicast v m : ipmem A P N W := IpMem (am m) (net m) v (ip_id m) (original m) (ip_data m) (link m).
Definition set_ip_id v m : ipmem A P N W := IpMem (am m) (net m) (ip4_default_multicast_netif m) v (original m) (ip_data m) (link m).
Definition set_original v m : ipmem A P N W := IpMem (am m) (net m) (ip4_default_multicast_netif m) (ip_id m) v (ip_data m) (link m).
Definition set_ip_data v m : ipmem A P N W := IpMem (am m) (net m) (ip4_default_multicast_netif m) (ip_id m) (original m) v (link m).
Definition set_link v m : ipmem A P N W := IpMem (am m) (net m) (ip4_default_multicast_netif m) (ip_id m) (original m) (ip_data m) v.

(** The allocators of pbuf.c work on [am]. *)
#[global] Instance ip_allocator `{Allocator A} : Allocator (ipmem A P N W) := {|
  mem_malloc n m := '(r, a) ← mem_malloc n (am m); Ok (r, set_am a m);
  mem_free p m := a ← mem_free p (am m); Ok (set_am a m);
  mem_trim p n m := '(r, a) ← mem_trim p n (am m); Ok (r, set_am a m);
  memp_malloc t m := '(r, a) ← memp_malloc t (am m); Ok (r, set_am a m);
  memp_free t p m := a ← memp_free t p (am m); Ok (set_am a m);
  custom_free_function p m := a ← custom_free_function p (am m); Ok (set_am a m) |}.
End state.

Class Link (A P N W : Type) := {
  (** [netif->output(netif, p, dest)] *)
  netif_output : Z → Z → Z → pstate (ipmem A P N W) → res (Z * pstate (ipmem A P N W));
  (** memp_malloc(MEMP_FRAG_PBUF) and memp_free(MEMP_FRAG_PBUF, p) *)
  frag_pbuf_malloc : A → res (option Z * A);
  frag_pbuf_free : Z → A → res A
}.

Section operations.
Context {A P N W : Type} `{Allocator A} `{Link A P N W}.
Abbreviation st := (pstate (ipmem A P N W)).
Implicit Types s : st.

Definition on_ip (f : ipmem A P N W → ipmem A P N W) s : st := set_al (f (al s)) s.

(** A store into byte memory. *)
Definition pst (a : Z) (l : list Z) s : res st := d ← mstore a l (dat s); Ok (set_dat d s).

(** ** Routing *)

Definition ip4_set_default_multicast_netif (default_multicast_netif : option Z) s : st :=
  on_ip (set_multicast default_multicast_netif) s.

(** The interface is up, has a link and an address. *)
Definition usable (i : iface) : bool :=
  netif_is_up i && netif_is_link_up i && negb (ip4_addr_isany_val (nip i)).

(** NETIF_FOREACH *)
Fixpoint route_loop (dest : Z) (ns : list Z) (n0 : nstate P N) : res (option Z) :=
  match ns with
  | [] => Ok None
  | n :: ns =>
      i ← getn n n0;
      if usable i then
        if ip4_addr_netcmp dest (nip i) (nmask i) then Ok (Some n) else
        if (Z.land (nflags i) NETIF_FLAG_BROADCAST =? 0) && (dest =? ngw i) then Ok (Some n)
        else route_loop dest ns n0
      else route_loop dest ns n0
  end.

Definition ip4_route (dest : Z) s : res (option Z) :=
  let n0 := net (al s) in
  if ip4_addr_ismulticast dest && negb (bool_decide (ip4_default_multicast_netif (al s) = None))
  then Ok (ip4_default_multicast_netif (al s)) else
  r ← route_loop dest (netif_list n0) n0;
  match r with
  | Some n => Ok (Some n)
  | None =>
      match netif_default n0 with
      | None => Ok None
      | Some n =>
          i ← getn n n0;
          if negb (netif_is_up i) || negb (netif_is_link_up i) || ip4_addr_isany_val (nip i) || ip4_addr_isloopback dest
          then Ok None else Ok (Some n)
      end
  end.

(** ** Fragmentation *)

Definition ip_frag_alloc_pbuf_custom_ref s : res (option Z * st) :=
  '(r, a) ← frag_pbuf_malloc (am (al s)); Ok (r, on_ip (set_am a) s).

Definition ip_frag_free_pbuf_custom_ref (p : Z) s : res st :=
  a ← frag_pbuf_free p (am (al s)); Ok (dropp p (on_ip (set_am a) s)).

Definition ipfrag_free_pbuf_custom (p : Z) s : res st :=
  s ← (match original (al s) !! p with
       | Some o => '(_, s) ← pbuf_free (Some o) s; Ok s
       | None => Ok s
       end);
  s ← ip_frag_free_pbuf_custom_ref p s;
  Ok (on_ip (λ m, set_original (delete p (original m)) m) s).

(** pbuf_free of a packet that may hold structs pbuf_custom_ref. *)
Fixpoint frag_free_loop (fuel : nat) (p : option Z) (count : Z) s : res (Z * st) :=
  match p with
  | None => Ok (count, s)
  | Some a =>
      match fuel with
      | O => Stuck
      | S fuel =>
          b ← getp a s;
          LWIP_ASSERT (0 <? ref b);;
          let ref' := u8 (ref b - 1) in
          let s := putp a (with_ref ref' b) s in
          if ref' =? 0 then
            s ← (if is_custom b && negb (bool_decide (original (al s) !! a = None))
                 then ipfrag_free_pbuf_custom a s else pbuf_release a b s);
            frag_free_loop fuel (next b) (u8 (count + 1)) s
          else Ok (count, s)
      end
  end.

Definition frag_free (p : option Z) s : res (Z * st) :=
  match p with
  | None => Assert
  | Some _ => frag_free_loop (chain_fuel s) p 0 s
  end.

(** The body of the inner loop of ip4_frag: mirror [newpbuflen] bytes of the struct [b] at
    [p] from [poff] on behind [rambuf].  [false]: goto memerr. *)
Definition frag_mirror (rambuf p : Z) (b : pbuf) (poff newpbuflen : Z) s : res (bool * st) :=
  '(pcr, s) ← ip_frag_alloc_pbuf_custom_ref s;
  match pcr with
  | None => '(_, s) ← frag_free (Some rambuf) s; Ok (false, s)
  | Some pcr =>
      let '(newpbuf, s) := pbuf_alloced_custom PBUF_RAW newpbuflen PBUF_REF pcr (payload b + poff) newpbuflen s in
      match newpbuf with
      | None =>
          s ← ip_frag_free_pbuf_custom_ref pcr s;
          '(_, s) ← frag_free (Some rambuf) s;
          Ok (false, s)
      | Some newpbuf =>
          s ← pbuf_ref (Some p) s;
          let s := on_ip (λ m, set_original (<[pcr := p]> (original m)) m) s in
          s ← pbuf_cat (Some rambuf) (Some newpbuf) s;
          Ok (true, s)
      end
  end.

(** The loop [while (left_to_copy)]; every round but the last one goes on to the next
    struct.  [None]: goto memerr; otherwise [p], [poff] and [newpbuflen]. *)
Fixpoint frag_fill (fuel : nat) (rambuf : Z) (p : option Z) (poff left_to_copy newpbuflen : Z) s :
    res (option (option Z * Z * Z) * st) :=
  if left_to_copy =? 0 then Ok (Some (p, poff, newpbuflen), s) else
  match fuel with
  | O => Stuck
  | S fuel =>
      a ← deref p;
      b ← getp a s;
      let plen := u16 (len b - poff) in
      LWIP_ASSERT (poff <=? len b);;
      let newpbuflen := Z.min left_to_copy plen in
      if newpbuflen =? 0 then frag_fill fuel rambuf (next b) 0 left_to_copy newpbuflen s else
      '(ok, s) ← frag_mirror rambuf a b poff newpbuflen s;
      if negb ok then Ok (None, s) else
      let left_to_copy := u16 (left_to_copy - newpbuflen) in
      if negb (left_to_copy =? 0) then frag_fill fuel rambuf (next b) 0 left_to_copy newpbuflen s
      else frag_fill fuel rambuf p poff left_to_copy newpbuflen s
  end.

(** The header of a fragment, at [iphdr]. *)
Definition frag_header (iphdr mtu left ofo fragsize mf_set : Z) s : res st :=
  let last := left <=? mtu - IP_HLEN in
  let tmp := Z.land IP_OFFMASK ofo in
  let tmp := if negb last || negb (mf_set =? 0) then Z.lor tmp IP_MF else tmp in
  s ← pst (iphdr + 6) (word16 (lwip_htons tmp)) s;
  s ← pst (iphdr + 2) (word16 (lwip_htons (u16 (fragsize + IP_HLEN)))) s;
  pst (iphdr + 10) (word16 0) s.

(** The struct for the link and IP headers of a fragment, with a copy of the IP header. *)
Definition frag_start (original_iphdr : Z) s : res (option (Z * Z) * st) :=
  '(rambuf, s) ← pbuf_alloc PBUF_LINK IP_HLEN PBUF_RAM s;
  match rambuf with
  | None => Ok (None, s)
  | Some rambuf =>
      rb ← getp rambuf s;
      LWIP_ASSERT (IP_HLEN <=? len rb);;
      d ← memcpy (payload rb) original_iphdr IP_HLEN (dat s);
      Ok (Some (rambuf, payload rb), set_dat d s)
  end.

(** The body of the loop [while (left)]: send one fragment.  [None]: goto memerr; otherwise
    [p], [poff] and [newpbuflen]. *)
Definition frag_round (n dest mtu original_iphdr mf_set : Z) (p : option Z) (poff newpbuflen left ofo fragsize : Z) s :
    res (option (option Z * Z * Z) * st) :=
  '(r, s) ← frag_start original_iphdr s;
  match r with
  | None => Ok (None, s)
  | Some (rambuf, iphdr) =>
      '(r, s) ← frag_fill (chain_fuel s) rambuf p poff fragsize newpbuflen s;
      match r with
      | None => Ok (None, s)
      | Some (p, poff, newpbuflen) =>
          s ← frag_header iphdr mtu left ofo fragsize mf_set s;
          '(_, s) ← netif_output n rambuf dest s;
          '(_, s) ← frag_free (Some rambuf) s;
          Ok (Some (p, u16 (poff + newpbuflen), newpbuflen), s)
      end
  end.

Fixpoint frag_loop (fuel : nat) (n dest mtu nfb original_iphdr mf_set : Z) (p : option Z)
    (poff newpbuflen left ofo : Z) s : res (Z * st) :=
  if left =? 0 then Ok (ERR_OK, s) else
  match fuel with
  | O => Stuck
  | S fuel =>
      let fragsize := Z.min left (u16 (nfb * 8)) in
      '(r, s) ← frag_round n dest mtu original_iphdr mf_set p poff newpbuflen left ofo fragsize s;
      match r with
      | None => Ok (ERR_MEM, s)
      | Some (p, poff, newpbuflen) =>
          frag_loop fuel n dest mtu nfb original_iphdr mf_set p poff newpbuflen (u16 (left - fragsize)) (u16 (ofo + nfb)) s
      end
  end.

(** Every round sends at least one byte when the MTU is at least 28. *)
Definition ip4_frag (p n dest : Z) s : res (Z * st) :=
  i ← getn n (net (al s));
  let nfb := u16 (Z.quot (mtu i - IP_HLEN) 8) in
  b ← getp p s;
  hdr ← ld_hdr (dat s) (payload b);
  if negb (IPH_HL_BYTES hdr =? IP_HLEN) then Ok (ERR_VAL, s) else
  LWIP_ASSERT (IP_HLEN <=? len b);;
  let tmp := lwip_htons (IPH_OFFSET hdr) in
  let ofo := Z.land tmp IP_OFFMASK in
  let mf_set := Z.land tmp IP_MF in
  let left := u16 (tot_len b - IP_HLEN) in
  frag_loop (S (Z.to_nat left)) n dest (mtu i) nfb (payload b) mf_set (Some p) IP_HLEN 0 left ofo s.

(** ** Output *)

(** The IP options, [options] are the [optlen] bytes at [ip_options]: the error and the
    length of the header. *)
Definition put_options (p : Z) (options : list Z) s : res (Z * Z * st) :=
  let optlen := zlen options in
  if optlen =? 0 then Ok (ERR_OK, IP_HLEN, s) else
  if IP_HLEN_MAX - IP_HLEN <? optlen then Ok (ERR_VAL, IP_HLEN, s) else
  let optlen_aligned := u16 (Z.land (optlen + 3) (Z.lnot 3)) in
  let ip_hlen := u16 (IP_HLEN + optlen_aligned) in
  '(r, s) ← pbuf_add_header (Some p) optlen_aligned s;
  if negb (r =? 0) then Ok (ERR_BUF, ip_hlen, s) else
  b ← getp p s;
  d ← mstore (payload b) options (dat s);
  d ← (if optlen <? optlen_aligned then memset (payload b + optlen) 0 (optlen_aligned - optlen) d else Ok d);
  Ok (ERR_OK, ip_hlen, set_dat d s).

Definition put_header (p : Z) (src : option Z) (dest ttl tos proto ip_hlen : Z) s : res (Z * st) :=
  '(r, s) ← pbuf_add_header (Some p) IP_HLEN s;
  if negb (r =? 0) then Ok (ERR_BUF, s) else
  b ← getp p s;
  let iphdr := payload b in
  LWIP_ASSERT (20 <=? len b);;
  s ← pst (iphdr + 8) [u8 ttl] s;
  s ← pst (iphdr + 9) [u8 proto] s;
  s ← pst (iphdr + 16) (word32 dest) s;
  s ← pst iphdr [u8 (Z.lor (Z.shiftl 4 4) (ip_hlen / 4))] s;
  s ← pst (iphdr + 1) [u8 tos] s;
  s ← pst (iphdr + 2) (word16 (lwip_htons (tot_len b))) s;
  s ← pst (iphdr + 6) (word16 0) s;
  s ← pst (iphdr + 4) (word16 (lwip_htons (ip_id (al s)))) s;
  let s := on_ip (λ m, set_ip_id (u16 (ip_id m + 1)) m) s in
  s ← pst (iphdr + 12) (word32 (default IPADDR_ANY src)) s;
  s ← pst (iphdr + 10) (word16 0) s;
  Ok (ERR_OK, s).

(** The packet has its header: send it, in fragments if it is too large. *)
Definition ip4_transmit (p dest n : Z) s : res (Z * st) :=
  i ← getn n (net (al s));
  b ← getp p s;
  if negb (mtu i =? 0) && (mtu i <? tot_len b) then ip4_frag p n dest s else netif_output n p dest s.

(** [dest = None] is LWIP_IP_HDRINCL. *)
Definition ip4_output_if_opt_src (p : Z) (src dest : option Z) (ttl tos proto n : Z) (options : list Z) s :
    res (Z * st) :=
  b ← getp p s;
  LWIP_ASSERT (ref b =? 1);;
  match dest with
  | Some dest =>
      '(err, ip_hlen, s) ← put_options p options s;
      if negb (err =? ERR_OK) then Ok (err, s) else
      '(err, s) ← put_header p src dest ttl tos proto ip_hlen s;
      if negb (err =? ERR_OK) then Ok (err, s) else
      ip4_transmit p dest n s
  | None =>
      if len b <? IP_HLEN then Ok (ERR_BUF, s) else
      hdr ← ld_hdr (dat s) (payload b);
      ip4_transmit p (iph_dest hdr) n s
  end.

Definition ip4_output_if_src (p : Z) (src dest : option Z) (ttl tos proto n : Z) s : res (Z * st) :=
  ip4_output_if_opt_src p src dest ttl tos proto n [] s.

Definition ip4_output_if_opt (p : Z) (src dest : option Z) (ttl tos proto n : Z) (options : list Z) s :
    res (Z * st) :=
  src_used ← (match dest with
              | Some _ => if ip4_addr_isany src then i ← getn n (net (al s)); Ok (Some (nip i)) else Ok src
              | None => Ok src
              end);
  ip4_output_if_opt_src p src_used dest ttl tos proto n options s.

Definition ip4_output_if (p : Z) (src dest : option Z) (ttl tos proto n : Z) s : res (Z * st) :=
  ip4_output_if_opt p src dest ttl tos proto n [] s.

(** [dest] is the address of the destination: ip4_route reads it. *)
Definition ip4_output (p : Z) (src : option Z) (dest ttl tos proto : Z) s : res (Z * st) :=
  b ← getp p s;
  LWIP_ASSERT (ref b =? 1);;
  r ← ip4_route dest s;
  match r with
  | None => Ok (ERR_RTE, s)
  | Some n => ip4_output_if p src (Some dest) ttl tos proto n s
  end.

End operations.
