(* ===== verification/Icmp.v ===== *)
(** * ICMP for IPv4: core/ipv4/icmp.c

    icmp_input answers echo requests and drops everything else; icmp_dest_unreach and
    icmp_time_exceeded report an error to the sender of a packet.  The messages leave
    through ip4_output_if of Ip4.v.

    Configuration: LWIP_ICMP_ECHO_CHECK_INPUT_PBUF_LEN 1, LWIP_MULTICAST_PING 0,
    LWIP_BROADCAST_PING 0, CHECKSUM_CHECK_ICMP 1, CHECKSUM_GEN_ICMP 0, CHECKSUM_GEN_IP 0,
    ICMP_TTL 255. *)

From S2P Require Import Prelude ByteMem Def Pbuf Chksum Ip4Addr Etharp Ip4Frag Iface Ip4.

Definition ICMP_ER : Z := 0.
Definition ICMP_DUR : Z := 3.
Definition ICMP_ECHO : Z := 8.
Definition ICMP_TE : Z := 11.
Definition ICMP_DUR_PROTO : Z := 2.
Definition ICMP_TTL : Z := 255.
Definition IP_PROTO_ICMP : Z := 1.
Definition SIZEOF_ICMP_ECHO_HDR : Z := 8.
Definition ICMP_DEST_UNREACH_DATASIZE : Z := 8.

Section operations.
Context {A P N W : Type} `{Allocator A} `{Link A P N W}.
Abbreviation st := (pstate (ipmem A P N W)).
Implicit Types s : st.

(** The labels [lenerr] and [icmperr] and the end of the function: pbuf_free(p). *)
Definition icmp_drop (p : Z) s : res st := '(_, s) ← pbuf_free (Some p) s; Ok s.

(** ** Errors *)

Definition icmp_send_response (p type code : Z) s : res st :=
  '(q, s) ← pbuf_alloc PBUF_IP (SIZEOF_ICMP_ECHO_HDR + IP_HLEN + ICMP_DEST_UNREACH_DATASIZE) PBUF_RAM s;
  match q with
  | None => Ok s
  | Some q =>
      qb ← getp q s;
      LWIP_ASSERT (SIZEOF_ICMP_ECHO_HDR + IP_HLEN + ICMP_DEST_UNREACH_DATASIZE <=? len qb);;
      b ← getp p s;
      let iphdr := payload b in
      let icmphdr := payload qb in
      s ← pst icmphdr [u8 type] s;
      s ← pst (icmphdr + 1) [u8 code] s;
      s ← pst (icmphdr + 4) (word16 0) s;
      s ← pst (icmphdr + 6) (word16 0) s;
      d ← memcpy (icmphdr + SIZEOF_ICMP_ECHO_HDR) iphdr (IP_HLEN + ICMP_DEST_UNREACH_DATASIZE) (dat s);
      let s := set_dat d s in
      hdr ← ld_hdr (dat s) iphdr;
      let iphdr_src := iph_src hdr in
      netif ← ip4_route iphdr_src s;
      s ← (match netif with
           | None => Ok s
           | Some n =>
               s ← pst (icmphdr + 2) (word16 0) s;
               '(_, s) ← ip4_output_if q None (Some iphdr_src) ICMP_TTL 0 IP_PROTO_ICMP n s;
               Ok s
           end);
      '(_, s) ← pbuf_free (Some q) s;
      Ok s
  end.

Definition icmp_dest_unreach (p t : Z) s : res st := icmp_send_response p ICMP_DUR t s.
Definition icmp_time_exceeded (p t : Z) s : res st := icmp_send_response p ICMP_TE t s.

(** ** Echo *)

(** Make sure that the link and IP headers fit in front of the message.  [None]: goto
    icmperr was taken; otherwise the packet to answer with, [p] or a copy of it. *)
Definition icmp_make_room (p hlen iphdr_in : Z) s : res (option Z * st) :=
  let fail s := s ← icmp_drop p s; Ok (None, s) in
  '(e, s) ← pbuf_add_header (Some p) (hlen + PBUF_LINK_HLEN + PBUF_LINK_ENCAPSULATION_HLEN) s;
  if negb (e =? 0) then
    b ← getp p s;
    let alloc_len := u16 (tot_len b + hlen) in
    if alloc_len <? tot_len b then fail s else
    '(r, s) ← pbuf_alloc PBUF_LINK alloc_len PBUF_RAM s;
    match r with
    | None => fail s
    | Some r =>
        rb ← getp r s;
        if len rb <? hlen + SIZEOF_ICMP_ECHO_HDR then '(_, s) ← pbuf_free (Some r) s; fail s else
        d ← memcpy (payload rb) iphdr_in hlen (dat s);
        '(e, s) ← pbuf_remove_header (Some r) hlen (set_dat d s);
        LWIP_ASSERT (e =? 0);;
        '(e, s) ← pbuf_copy (Some r) (Some p) s;
        if negb (e =? ERR_OK) then '(_, s) ← pbuf_free (Some r) s; fail s else
        '(_, s) ← pbuf_free (Some p) s;
        Ok (Some r, s)
    end
  else
    '(e, s) ← pbuf_remove_header (Some p) (hlen + PBUF_LINK_HLEN + PBUF_LINK_ENCAPSULATION_HLEN) s;
    LWIP_ASSERT (e =? 0);;
    Ok (Some p, s).

(** Turn the request into the reply and send it. *)
Definition icmp_echo_reply (p hlen src inp : Z) s : res st :=
  b ← getp p s;
  let iecho := payload b in
  '(e, s) ← pbuf_add_header (Some p) hlen s;
  if negb (e =? 0) then Ok s else
  b ← getp p s;
  let iphdr := payload b in
  s ← pst (iphdr + 12) (word32 src) s;
  s ← pst (iphdr + 16) (word32 (current_iphdr_src (ip_data (al s)))) s;
  s ← pst iecho [ICMP_ER] s;
  s ← pst (iecho + 2) (word16 0) s;
  s ← pst (iphdr + 8) [ICMP_TTL] s;
  s ← pst (iphdr + 10) (word16 0) s;
  '(_, s) ← ip4_output_if p (Some src) None ICMP_TTL 0 IP_PROTO_ICMP inp s;
  Ok s.

(** The case ICMP_ECHO up to the final pbuf_free(p). *)
Definition icmp_echo (p inp hlen iphdr_in : Z) s : res st :=
  let src := current_iphdr_dest (ip_data (al s)) in
  if ip4_addr_ismulticast src then icmp_drop p s else
  cur ← deref (current_netif (ip_data (al s)));
  i ← getn cur (net (al s));
  if ip4_addr_isbroadcast src (base i) then icmp_drop p s else
  b ← getp p s;
  if tot_len b <? SIZEOF_ICMP_ECHO_HDR then icmp_drop p s else
  sum ← inet_chksum_pbuf (Some p) s;
  if negb (sum =? 0) then icmp_drop p s else
  '(r, s) ← icmp_make_room p hlen iphdr_in s;
  match r with
  | None => Ok s
  | Some p => s ← icmp_echo_reply p hlen src inp s; icmp_drop p s
  end.

Definition icmp_input (p inp : Z) s : res st :=
  let iphdr_in := current_ip4_header (ip_data (al s)) in
  b0 ← ld8 (dat s) iphdr_in;
  let hlen := u8 (Z.land b0 15 * 4) in
  if hlen <? IP_HLEN then icmp_drop p s else
  b ← getp p s;
  if len b <? 4 then icmp_drop p s else
  type ← ld8 (dat s) (payload b);
  if type =? ICMP_ECHO then icmp_echo p inp hlen iphdr_in s else icmp_drop p s.

End operations.
