(* ===== verification/Ip4Input.v ===== *)
(** * IPv4 input: ip4_input of core/ipv4/ip4.c

    ip4_input checks the header of a received packet, decides whether the packet is for
    this host, hands fragments to ip4_reass (Ip4Frag.v) and complete packets to the
    protocol: icmp_input of Icmp.v, or UDP, TCP and IGMP, which are reached through the
    class [Transport].

    Configuration: LWIP_IGMP 1, LWIP_DHCP 1 (IP_ACCEPT_LINK_LAYER_ADDRESSING 1, the port
    of the DHCP client), LWIP_AUTOIP 1, LWIP_RAW 0, LWIP_UDPLITE 0, IP_FORWARD 0,
    IP_REASSEMBLY 1, IP_OPTIONS_ALLOWED 1, CHECKSUM_CHECK_IP 0, LWIP_NETIF_LOOPBACK 0. *)

From S2P Require Import Prelude ByteMem Def MempPool Pbuf Chksum Ip4Addr Etharp Ip4Frag Iface Igmp Autoip Ip4 Icmp.

Definition IP_PROTO_TCP : Z := 6.
Definition IP_PROTO_UDP : Z := 17.
Definition LWIP_IANA_PORT_DHCP_CLIENT : Z := 68.

(** Return true if the packet with the destination [dest] should be accepted. *)
Definition ip4_input_accept (i : iface) (dest : Z) : bool :=
  if netif_is_up i && negb (ip4_addr_isany_val (nip i)) then
    if (dest =? nip i) || ip4_addr_isbroadcast dest (base i) then true
    else negb (autoip_accept_packet i dest =? 0)
  else false.

(** The protocols above, called with p->payload behind the IP header. *)
Class Transport (S : Type) := {
  udp_input : Z → Z → S → res S;
  tcp_input : Z → Z → S → res S;
  igmp_deliver : Z → Z → Z → S → res S
}.

Section operations.
Context {A P N W Q : Type} `{Allocator A} `{Link A P N W} `{Pool Q} `{Transport (pstate (ipmem A P N W))}.
Abbreviation st := (pstate (ipmem A P N W)).
Implicit Types (s : st) (w : rstate (ipmem A P N W) Q).

(** ip4_reass answers with the ICMP of Icmp.v. *)
#[global] Instance icmp_reass_env : ReassEnv (ipmem A P N W) :=
  {| Ip4Frag.icmp_time_exceeded := Icmp.icmp_time_exceeded |}.

Definition with_addrs (src dest : Z) (g : ip_globals) : ip_globals :=
  IpGlobals (current_netif g) (current_input_netif g) (current_ip4_header g) (current_ip_header_tot_len g) src dest.

(** NETIF_FOREACH over the interfaces other than [inp]. *)
Fixpoint accept_loop (dest inp : Z) (ns : list Z) (n0 : nstate P N) : res (option Z) :=
  match ns with
  | [] => Ok None
  | n :: ns =>
      if n =? inp then accept_loop dest inp ns n0 else
      i ← getn n n0;
      if ip4_input_accept i dest then Ok (Some n) else accept_loop dest inp ns n0
  end.

(** The interface that accepts the packet, and check_ip_src. *)
Definition input_netif (src dest inp : Z) (n0 : nstate P N) : res (option Z * bool) :=
  i ← getn inp n0;
  if ip4_addr_ismulticast dest then
    if flag_set i NETIF_FLAG_IGMP && negb (bool_decide (igmp_lookfor_group (igmp_data i) dest = None)) then
      Ok (Some inp, negb ((dest =? allsystems) && ip4_addr_isany_val src))
    else Ok (None, true)
  else if ip4_input_accept i dest then Ok (Some inp, true)
  else if ip4_addr_isloopback dest then Ok (None, true)
  else n ← accept_loop dest inp (netif_list n0) n0; Ok (n, true).

(** Packets to the port of the DHCP client are accepted whatever the destination. *)
Definition input_dhcp (netif : option Z) (check_ip_src : bool) (inp : Z) (hdr : ip_hdr) (iphdr iphdr_hlen : Z) s :
    res (option Z * bool) :=
  if bool_decide (netif = None) && (IPH_PROTO hdr =? IP_PROTO_UDP) then
    port ← ld16 (dat s) (iphdr + iphdr_hlen + 2);
    if port =? PP_HTONS LWIP_IANA_PORT_DHCP_CLIENT then Ok (Some inp, false) else Ok (netif, check_ip_src)
  else Ok (netif, check_ip_src).

(** The default case of the switch: no such protocol. *)
Definition unknown_proto (p netif iphdr_hlen : Z) s : res st :=
  let dest := current_iphdr_dest (ip_data (al s)) in
  i ← getn netif (net (al s));
  s ← (if negb (ip4_addr_isbroadcast dest (base i)) && negb (ip4_addr_ismulticast dest) then
         '(_, s) ← pbuf_header_force (Some p) iphdr_hlen s;
         icmp_dest_unreach p ICMP_DUR_PROTO s
       else Ok s);
  icmp_drop p s.

(** From "send to upper layers" on; [iphdr] points to the header of [p]. *)
Definition ip4_deliver (p netif inp iphdr iphdr_hlen : Z) s : res st :=
  hdr ← ld_hdr (dat s) iphdr;
  let s := on_ip (λ m, set_ip_data (IpGlobals (Some netif) (Some inp) iphdr (IPH_HL_BYTES hdr)
              (current_iphdr_src (ip_data m)) (current_iphdr_dest (ip_data m))) m) s in
  '(_, s) ← pbuf_remove_header (Some p) iphdr_hlen s;
  let proto := IPH_PROTO hdr in
  s ← (if proto =? IP_PROTO_UDP then udp_input p inp s
       else if proto =? IP_PROTO_TCP then tcp_input p inp s
       else if proto =? IP_PROTO_ICMP then icmp_input p inp s
       else if proto =? IP_PROTO_IGMP then igmp_deliver p inp (current_iphdr_dest (ip_data (al s))) s
       else unknown_proto p netif iphdr_hlen s);
  Ok (on_ip (set_ip_data (IpGlobals None None 0 0 IPADDR_ANY IPADDR_ANY)) s).

Definition input_drop (p : Z) w : res (Z * rstate (ipmem A P N W) Q) :=
  s ← icmp_drop p (ps w); Ok (ERR_OK, set_ps s w).

(** From the place where the length is known to be right. *)
Definition ip4_input_checked (p inp iphdr iphdr_hlen : Z) w : res (Z * rstate (ipmem A P N W) Q) :=
  hdr ← ld_hdr (rdat w) iphdr;
  let src := iph_src hdr in
  let dest := iph_dest hdr in
  let w := set_ps (on_ip (λ m, set_ip_data (with_addrs src dest (ip_data m)) m) (ps w)) w in
  let n0 := net (al (ps w)) in
  '(netif, check_ip_src) ← input_netif src dest inp n0;
  '(netif, check_ip_src) ← input_dhcp netif check_ip_src inp hdr iphdr iphdr_hlen (ps w);
  i ← getn inp n0;
  if check_ip_src && negb (ip4_addr_isany_val src) &&
     (ip4_addr_isbroadcast src (base i) || ip4_addr_ismulticast src)
  then input_drop p w else
  match netif with
  | None => input_drop p w
  | Some netif =>
      '(r, w) ← (if negb (Z.land (IPH_OFFSET hdr) (PP_HTONS (Z.lor IP_OFFMASK IP_MF)) =? 0)
                 then '(r, w) ← ip4_reass p w;
                      match r with
                      | None => Ok (None, w)
                      | Some p => b ← getp p (ps w); Ok (Some (p, payload b), w)
                      end
                 else Ok (Some (p, iphdr), w));
      match r with
      | None => Ok (ERR_OK, w)
      | Some (p, iphdr) => s ← ip4_deliver p netif inp iphdr iphdr_hlen (ps w); Ok (ERR_OK, set_ps s w)
      end
  end.

Definition ip4_input (p inp : Z) w : res (Z * rstate (ipmem A P N W) Q) :=
  b ← getp p (ps w);
  let iphdr := payload b in
  b0 ← ld8 (rdat w) iphdr;
  if negb (Z.shiftr b0 4 =? 4) then input_drop p w else
  let iphdr_hlen := u8 (Z.land b0 15 * 4) in
  l ← ld16 (rdat w) (iphdr + 2);
  let iphdr_len := lwip_htons l in
  w ← (if iphdr_len <? tot_len b then s ← pbuf_realloc (Some p) iphdr_len (ps w); Ok (set_ps s w) else Ok w);
  b ← getp p (ps w);
  if (len b <? iphdr_hlen) || (tot_len b <? iphdr_len) || (iphdr_hlen <? IP_HLEN) then input_drop p w else
  ip4_input_checked p inp iphdr iphdr_hlen w.

End operations.
