(* ===== verification/Ip4Facts.v ===== *)
(** * IPv4: what the IP layer relies on, and its packets

    [ip_laws I] are the laws of the allocators for the state of the IP layer, together
    with an invariant [I] on everything beside the heap and the pools; with [I] the
    equality to the present state, the lemmas of Pbuf*.v say that the operations of
    pbuf.c leave interfaces, link layer and variables of ip4.c alone.

    [LinkLaws] states what netif->output does: the packet handed over is recorded; when
    the function returns it may have put up to 14 bytes in front of the packet and may
    hold a reference to it, but no other packet has changed.  [LinkKeeps] adds which
    structs the link layer holds, so that a packet that is sent can be accounted for. *)

From S2P Require Import Prelude ByteMem Def Pbuf PbufFacts PbufData PbufLife PbufChain PbufOwn Ip4Addr Etharp Ip4Frag Ip4FragQueue Iface Ip4.

(** ** The allocators *)

(** Everything beside the heap and the pools. *)
Definition rest {A P N W} (m : ipmem A P N W) : ipmem unit P N W :=
  IpMem tt (net m) (ip4_default_multicast_netif m) (ip_id m) (original m) (ip_data m) (link m).

Section laws.
Context {A P N W : Type} `{AllocatorLaws A}.
Abbreviation st := (pstate (ipmem A P N W)).
Implicit Types (s : st) (I : ipmem unit P N W → Prop) (F : list (Z * pbuf)).

Definition ip_al_ok I (m : ipmem A P N W) (L : gmap Z src) : Prop := al_ok (am m) L ∧ I (rest m).

Lemma ip_malloc_law I m L n : ip_al_ok I m L → is_u16 n →
  ∃ r m', mem_malloc n m = Ok (r, m') ∧
    match r with Some p => L !! p = None ∧ ip_al_ok I m' (<[p := SrcHeap n]> L) | None => ip_al_ok I m' L end.
Proof.
  intros [Ha HI] Hn. destruct (mem_malloc_law _ _ n Ha Hn) as (r & a & Hr & Hp). exists r, (set_am a m).
  cbn [mem_malloc ip_allocator]. rewrite Hr. split; [done|]. by destruct r; [destruct Hp|].
Qed.

Lemma ip_trim_law I m L p n n' : ip_al_ok I m L → L !! p = Some (SrcHeap n) → 0 ≤ n' ≤ n →
  mem_trim p n' m = Assert ∨ ∃ m', mem_trim p n' m = Ok (Some p, m') ∧ ip_al_ok I m' (<[p := SrcHeap n']> L).
Proof.
  intros [Ha HI] Hp Hn. cbn [mem_trim ip_allocator]. destruct (mem_trim_law _ _ _ _ _ Ha Hp Hn) as [->|(a & -> & Ha')].
  - by left.
  - right. by exists (set_am a m).
Qed.

Lemma ip_memp_malloc_law I m L t : ip_al_ok I m L →
  ∃ r m', memp_malloc t m = Ok (r, m') ∧
    match r with Some p => L !! p = None ∧ ip_al_ok I m' (<[p := SrcPool t]> L) | None => ip_al_ok I m' L end.
Proof.
  intros [Ha HI]. destruct (memp_malloc_law _ _ t Ha) as (r & a & Hr & Hp). exists r, (set_am a m).
  cbn [memp_malloc ip_allocator]. rewrite Hr. split; [done|]. by destruct r; [destruct Hp|].
Qed.

(** The laws hold for every invariant. *)
Lemma ip_release_laws I m L p : ip_al_ok I m L →
  (∀ n, L !! p = Some (SrcHeap n) → ∃ m', mem_free p m = Ok m' ∧ ip_al_ok I m' (delete p L)) ∧
  (∀ t, L !! p = Some (SrcPool t) → ∃ m', memp_free t p m = Ok m' ∧ ip_al_ok I m' (delete p L)) ∧
  (L !! p = Some SrcCustom → ∃ m', custom_free_function p m = Ok m' ∧ ip_al_ok I m' (delete p L)).
Proof.
  intros [Ha HI]. cbn [mem_free memp_free custom_free_function ip_allocator]. split_and!.
  - intros n Hp. destruct (mem_free_law _ _ _ _ Ha Hp) as (a & -> & ?). by exists (set_am a m).
  - intros t Hp. destruct (memp_free_law _ _ _ _ Ha Hp) as (a & -> & ?). by exists (set_am a m).
  - intros Hp. destruct (custom_free_law _ _ _ Ha Hp) as (a & -> & ?). by exists (set_am a m).
Qed.

Definition ip_laws I : AllocatorLaws (ipmem A P N W) := {|
  al_ok := ip_al_ok I;
  al_arena := al_arena;
  mem_malloc_law := ip_malloc_law I;
  mem_free_law m L p n Ha Hp := proj1 (ip_release_laws I m L p Ha) n Hp;
  mem_trim_law := ip_trim_law I;
  memp_malloc_law := ip_memp_malloc_law I;
  memp_free_law m L t p Ha Hp := proj1 (proj2 (ip_release_laws I m L p Ha)) t Hp;
  custom_free_law m L p Ha Hp := proj2 (proj2 (ip_release_laws I m L p Ha)) Hp;
  al_aligned m L p x Ha := al_aligned (am m) L p x (proj1 Ha);
  al_disjoint m L p q x y Ha := al_disjoint (am m) L p q x y (proj1 Ha);
  al_inside m L p x i Ha := al_inside (am m) L p x i (proj1 Ha) |}.

#[global] Instance ip_laws_any : AllocatorLaws (ipmem A P N W) := ip_laws (λ _, True).

Lemma pstate_ok_inv I s L : pstate_ok (H0 := ip_laws I) s L ↔ pstate_ok s L ∧ I (rest (al s)).
Proof. unfold pstate_ok. cbn [al_ok ip_laws ip_laws_any]. unfold ip_al_ok. tauto. Qed.

Lemma excl_inv I s F : excl (H0 := ip_laws I) s F ↔ excl s F ∧ I (rest (al s)).
Proof.
  unfold excl. split.
  - intros ((L & [HL HI]%pstate_ok_inv & Hp) & Hr). split; [|done]. split; [by exists L|done].
  - intros [((L & HL & Hp) & Hr) HI]. split; [|done]. exists L. split; [by apply pstate_ok_inv|done].
Qed.

(** Only the heap and the pools matter. *)
Lemma excl_same s s' F : pb s' = pb s → dat s' = dat s → am (al s') = am (al s) → excl s F → excl s' F.
Proof.
  intros Hpb Hd Ha ((L & ([Hal HI] & HL) & Hp) & Hn & Hs & Hf & Hm). unfold excl, pstate_ok. rewrite Hpb, Hd.
  split; [|done]. exists L. split; [|done]. split; [|done]. split; [by rewrite Ha|done].
Qed.

End laws.

(** ** The link layer *)

(** [p] was handed to netif->output in the state [s]: [s'] is the state afterwards. *)
Record handed {A P N W} `{AllocatorLaws A} (s s' : pstate (ipmem A P N W)) (L L' : gmap Z src) (p : Z) (q : pbuf) : Prop := {
  ho_ok : pstate_ok s' L';
  ho_blocks : L ⊆ L';
  ho_head : ∃ k r, pb s' !! p = Some (with_ref r (grown k q)) ∧ 0 ≤ k ≤ 14 ∧ ref q ≤ r ≤ ref q + 1;
  ho_others a x : a ≠ p → pb s !! a = Some x → pb s' !! a = Some x;
  ho_data a x i : pb s !! a = Some x → 0 ≤ i < len x → dat s' !! (payload x + i) = dat s !! (payload x + i);
  ho_mapped i : is_Some (dat s !! i) → is_Some (dat s' !! i)
}.

Class LinkLaws (A P N W : Type) `{AllocatorLaws A} `{!Link A P N W} := {
  (** the packets handed over: interface, destination, bytes *)
  sent : W → list (Z * Z * list Z);
  output_law (s : pstate (ipmem A P N W)) L n dest p q l c :
    pstate_ok s L → arena_mapped (dat s) → is_Some (ifs (net (al s)) !! n) →
    chain (pb s) (Some p) ((p, q) :: l) → lens_ok ((p, q) :: l) → content (dat s) ((p, q) :: l) = Some c → ref q = 1 →
    ∃ e s' L' w, netif_output n p dest s = Ok (e, s') ∧ handed s s' L L' p q ∧
      rest (al s') = rest (set_link w (al s)) ∧ sent w = sent (link (al s)) ++ [(n, dest, c)];
  frag_malloc_law a L : al_ok a L →
    ∃ r a', frag_pbuf_malloc a = Ok (r, a') ∧
      match r with Some p => L !! p = None ∧ al_ok a' (<[p := SrcCustom]> L) | None => al_ok a' L end;
  frag_free_law a L p : al_ok a L → L !! p = Some SrcCustom → ∃ a', frag_pbuf_free p a = Ok a' ∧ al_ok a' (delete p L)
}.

(** The structs the link layer holds: those it has made for itself, and the structs of a packet
    it was given and has taken a reference to. *)
Class LinkKeeps (A P N W : Type) `{LinkLaws A P N W} := {
  kept : W → gset Z;
  kept_law (s : pstate (ipmem A P N W)) n dest p q l e s' :
    chain (pb s) (Some p) ((p, q) :: l) → ref q = 1 → netif_output n p dest s = Ok (e, s') →
    dom (pb s') ⊆ dom (pb s) ∪ kept (link (al s')) ∧
    ((∃ k, pb s' !! p = Some (grown k q)) ∨ list_to_set ((p, q) :: l).*1 ⊆ kept (link (al s')))
}.

(** ** Packets held by the IP layer and its clients *)

Section held.
Context {A P N W : Type} `{LinkLaws A P N W}.
Abbreviation st := (pstate (ipmem A P N W)).
Implicit Types (s : st) (F l : list (Z * pbuf)).

Definition log s : list (Z * Z * list Z) := sent (link (al s)).

(** [l] describes the structs of a packet up to the number of references; each has at
    least one and at most [m]. *)
Definition refd (m : Z) s l : Prop :=
  Forall (λ x, ∃ r, pb s !! x.1 = Some (with_ref r x.2) ∧ 1 ≤ r ≤ m) l.

(** The caller still has its reference to the packet [l] starting at [p]; the structs [F] of
    others are as they were. *)
Definition held s p l F : Prop :=
  linked (Some p) l ∧ refd 255 s l ∧ l.*1 ## F.*1 ∧ excl s F.

Lemma refd_chain m s l : ∀ p, linked p l → refd m s l →
  ∃ l', chain (pb s) p l' ∧ l'.*1 = l.*1 ∧ Forall (λ x, 1 ≤ ref x.2 ≤ m) l'.
Proof.
  induction l as [|[a q] l IH]; intros p Hl Hr; [exists []; split_and!; [done|done|constructor]|].
  destruct Hl as [-> Hl]. apply Forall_cons in Hr as [(r & Ha & Hr) Hrl]. destruct (IH _ Hl Hrl) as (l' & Hc & Hf & Hl').
  exists ((a, with_ref r q) :: l'). split_and!; [by split_and!|by rewrite !fmap_cons, Hf|by constructor].
Qed.

(** A chain with references splits where pbuf_free stops. *)
Lemma last_ref_split l : Forall (λ x : Z * pbuf, 1 ≤ ref x.2 ≤ 255) l → ∃ l1 l2, l = l1 ++ l2 ∧ last_ref l1 l2.
Proof.
  induction l as [|[a q] l IH]; intros Hl; [by exists [], []|]. apply Forall_cons in Hl as [Hq Hl].
  destruct (decide (ref q = 1)) as [E|E].
  - destruct (IH Hl) as (l1 & l2 & -> & Hr & H2). exists ((a, q) :: l1), l2. split; [done|]. split; [by constructor|done].
  - exists [], ((a, q) :: l). split; [done|]. split; [constructor|]. simpl in *. lia.
Qed.

(** Structs that are not touched stay. *)
Lemma excl_frame s s' F : excl s F → (∃ L, pstate_ok s' L ∧ Forall (placed L) F) →
  (∀ x, x ∈ F → pb s' !! x.1 = pb s !! x.1) → arena_mapped (dat s') → excl s' F.
Proof.
  intros (_ & Hn & Hs & Hf & _) HL Hpb Hm. split_and!; try done. rewrite Forall_forall in Hf |- *. intros x Hx.
  rewrite Hpb by done. by apply Hf.
Qed.

Lemma disj_elem l F (x y : Z * pbuf) : l.*1 ## F.*1 → x ∈ l → y ∈ F → x.1 ≠ y.1.
Proof. intros Hd Hx Hy Heq. apply (Hd x.1); [by apply list_elem_of_fmap_2|rewrite Heq; by apply list_elem_of_fmap_2]. Qed.

(** Releasing a packet: its structs go or lose a reference, everything else stays. *)
Lemma held_free s p l F : held s p l F →
  ∃ n s', pbuf_free (Some p) s = Ok (n, s') ∧ excl s' F ∧ dat s' = dat s ∧ rest (al s') = rest (al s).
Proof.
  intros (Hl & Hr & Hd & Hx). destruct (refd_chain _ _ _ _ Hl Hr) as (l' & Hc & Hfst & Hrefs).
  destruct (last_ref_split _ Hrefs) as (l1 & l2 & -> & Hlast). pose proof Hx as ((L & HL & Hp) & _ & _ & _ & Hm).
  destruct (PbufLife.free_ok (H0 := ip_laws (eq (rest (al s)))) s L p l1 l2) as (a & Hf & [Hok Hrest]%pstate_ok_inv); try done.
  { by apply pstate_ok_inv. }
  eexists _, _. split; [exact Hf|]. split; [|by split]. rewrite fmap_app in Hfst.
  assert (Hne : ∀ x y, x ∈ F → y ∈ (l1 ++ l2).*1 → y ≠ x.1).
  { intros x y Hx' Hy ->. apply (Hd x.1); [by rewrite <-Hfst, <-fmap_app|by apply list_elem_of_fmap_2]. }
  eapply excl_frame; [exact Hx| | |done].
  - eexists. split; [exact Hok|]. rewrite Forall_forall in Hp |- *. intros x Hx'. eapply placed_ext; [|by apply Hp].
    apply lookup_foldr_delete_ne. intros Hin. apply (Hne x x.1); [done| |done]. rewrite fmap_app. apply elem_of_app. by left.
  - intros x Hx'. cbn [pb]. unfold freed. assert (Hx1 : x.1 ∉ l1.*1).
    { intros Hin. apply (Hne x x.1); [done| |done]. rewrite fmap_app. apply elem_of_app. by left. }
    destruct l2 as [|[b y] l2]; [by apply lookup_foldr_delete_ne|]. rewrite lookup_insert_ne; [by apply lookup_foldr_delete_ne|].
    apply (Hne x b); [done|]. rewrite fmap_app. apply elem_of_app. right. by left.
Qed.

(** Nobody else refers to the struct at [a]. *)
Definition sole s (a : Z) : Prop := ∃ x, pb s !! a = Some x ∧ ref x = 1.

Lemma excl_sole s l F : excl s (l ++ F) → Forall (sole s) l.*1.
Proof.
  intros (_ & _ & _ & Hf & _). apply Forall_app in Hf as [Hf _]. apply Forall_fmap. eapply Forall_impl; [exact Hf|]. intros x [? ?]. by exists x.2.
Qed.

(** What pbuf_free leaves: no new struct is in use, and a packet without further references is gone. *)
Lemma held_gone s p l F n s' : held s p l F → pbuf_free (Some p) s = Ok (n, s') →
  dom (pb s') ⊆ dom (pb s) ∧ (Forall (sole s) l.*1 → pb s' = without (pb s) l.*1).
Proof.
  intros (Hl & Hr & Hd & Hx) Hrun. destruct (refd_chain _ _ _ _ Hl Hr) as (l' & Hc & Hfst & Hrefs).
  destruct (last_ref_split _ Hrefs) as (l1 & l2 & -> & Hlast). pose proof Hx as ((L & HL & _) & _).
  destruct (PbufLife.free_ok s L p l1 l2 HL Hc Hlast) as (a & Hf & _). rewrite Hf in Hrun. injection Hrun as _ <-. cbn [pb].
  rewrite <-Hfst. unfold freed, without. split.
  - pose proof (dom_without (pb s) l1.*1) as Hdom. unfold without in Hdom. destruct l2 as [|[b y] l2]; [set_solver|].
    rewrite dom_insert_L, Hdom. assert (Hb : b ∈ dom (pb s)); [|set_solver]. apply elem_of_dom. exists y.
    apply (chain_lookup _ _ _ _ _ Hc). apply elem_of_app. right. by left.
  - intros Hs. destruct l2 as [|[b y] l2]; [by rewrite app_nil_r|]. exfalso. destruct Hlast as [_ Hy]. rewrite Forall_forall in Hs.
    assert (Hin : (b, y) ∈ l1 ++ (b, y) :: l2) by (apply elem_of_app; right; by left).
    destruct (Hs b) as (x & Hxb & Hx1); [by apply (list_elem_of_fmap_2 fst _ (b, y))|]. rewrite (chain_lookup _ _ _ _ _ Hc Hin) in Hxb. injection Hxb as <-. lia.
Qed.

Lemma excl_gone s p l F n s' : held s p l F → excl s (l ++ F) → pbuf_free (Some p) s = Ok (n, s') → pb s' = without (pb s) l.*1.
Proof. intros Hh Hx Hrun. apply (held_gone _ _ _ _ _ _ Hh Hrun). by eapply excl_sole. Qed.

(** Handing a packet to the link layer. *)
Lemma output_held s n dest p q l F c : excl s (((p, q) :: l) ++ F) → linked (Some p) ((p, q) :: l) → lens_ok ((p, q) :: l) →
  content (dat s) ((p, q) :: l) = Some c → is_Some (ifs (net (al s)) !! n) →
  ∃ e s' k w, netif_output n p dest s = Ok (e, s') ∧ held s' p ((p, grown k q) :: l) F ∧
    keeps (((p, q) :: l) ++ F) (dat s) (dat s') ∧ rest (al s') = rest (set_link w (al s)) ∧ log s' = log s ++ [(n, dest, c)].
Proof.
  intros Hx Hl Hlen Hc Hn. pose proof (excl_chain _ _ _ _ Hx Hl) as Hch. pose proof (excl_disj _ _ _ Hx) as Hd.
  destruct (excl_get _ _ p q Hx) as [_ Hq]; [by left|]. pose proof (excl_app_r _ _ _ Hx) as HxF.
  pose proof Hx as ((L & HL & Hp) & Hnd & _ & Hf & Hm).
  destruct (output_law s L n dest p q l c) as (e & s' & L' & w & Hrun & Hh & Hrest & Hlog); try done.
  destruct (ho_head _ _ _ _ _ _ Hh) as (k & r & Hpb & Hk & Hr). exists e, s', k, w. split; [done|].
  rewrite Forall_forall in Hf. split; [|split; [|split; [done|]]].
  - split; [by destruct Hl|]. split; [|split; [done|]].
    + apply Forall_cons. split; [exists r; split; [done|simpl; lia]|]. apply Forall_forall. intros [a x] Hax. exists 1.
      destruct (Hf (a, x)) as [Ha Hx1]; [rewrite <-app_comm_cons; right; apply elem_of_app; by left|]. split; [|lia]. cbn [fst snd] in *.
      replace (with_ref 1 x) with x by (destruct x; simpl in *; by subst). eapply ho_others; [done| |done]. intros ->.
      cbn [app fmap list_fmap] in Hnd. apply NoDup_cons in Hnd as [Hnd _]. apply Hnd. rewrite fmap_app. apply elem_of_app. left.
      apply list_elem_of_fmap. by exists (p, x).
    + eapply excl_frame; [exact HxF| | |intros i Hi; by eapply ho_mapped, Hm].
      * exists L'. split; [by eapply ho_ok|]. apply Forall_app in Hp as [_ Hp]. rewrite Forall_forall in Hp |- *. intros x Hx'.
        eapply placed_ext; [|by apply Hp]. destruct (Hf x) as [Hx1 _]; [apply elem_of_app; by right|].
        destruct HL as [_ HL]. destruct (HL _ _ Hx1) as (y & Hy & _). rewrite Hy. eapply lookup_weaken; [exact Hy|by eapply ho_blocks].
      * intros x Hx'. destruct (Hf x) as [Hx1 _]; [apply elem_of_app; by right|]. rewrite Hx1. eapply ho_others; [done| |done].
        intros Heq. apply (Hd p); [by left|]. rewrite <-Heq. by apply list_elem_of_fmap_2.
  - split; [|intros i; by eapply ho_mapped]. intros x i Hx' Hi. eapply ho_data; [done| |done]. by apply Hf.
  - unfold log. rewrite <-Hlog. unfold rest in Hrest. injection Hrest as _ _ _ _ _ ->. done.
Qed.

(** ** Accounting for the structs in use *)

Section accounting.
Context {K : LinkKeeps A P N W}.

(** The caller still has the packet at [addrs]: no struct is in use that was not before or is
    the link layer's, and nobody but the link layer has a reference to the packet. *)
Definition returned s0 s (addrs : list Z) : Prop :=
  dom (pb s) ⊆ dom (pb s0) ∪ kept (link (al s)) ∧ (Forall (sole s) addrs ∨ list_to_set addrs ⊆ kept (link (al s))).

(** The packet at [addrs] has been released: what is in use was in use before and is no struct of
    the packet, or it is in the hands of the link layer. *)
Definition accounted s0 s (addrs : list Z) : Prop := dom (pb s) ⊆ (dom (pb s0) ∖ list_to_set addrs) ∪ kept (link (al s)).

Lemma output_returned s n dest p q l F c e s' : excl s (((p, q) :: l) ++ F) → linked (Some p) ((p, q) :: l) → lens_ok ((p, q) :: l) →
  content (dat s) ((p, q) :: l) = Some c → is_Some (ifs (net (al s)) !! n) → netif_output n p dest s = Ok (e, s') → returned s s' ((p, q) :: l).*1.
Proof.
  intros Hx Hl Hlen Hc Hn Hrun. pose proof (excl_chain _ _ _ _ Hx Hl) as Hch. destruct (excl_get _ _ p q Hx) as [_ Hq]; [by left|].
  destruct (kept_law s n dest p q l e s' Hch Hq Hrun) as [Hdom Hhead]. split; [done|]. destruct Hhead as [[k Hk]|?]; [left|by right].
  pose proof Hx as ((L & HL & _) & Hnd & _ & Hf & Hm). destruct (output_law s L n dest p q l c) as (e' & s1 & L' & w & Hrun' & Hh & _); try done.
  rewrite Hrun in Hrun'. injection Hrun' as <- <-. apply Forall_cons. split; [by exists (grown k q)|]. apply Forall_fmap, Forall_forall. intros [a x] Hax.
  rewrite Forall_forall in Hf. destruct (Hf (a, x)) as [Ha Hr]; [right; apply elem_of_app; by left|]. exists x. split; [|done]. eapply ho_others; [done| |done].
  cbn [app fmap list_fmap fst] in *. intros ->. apply NoDup_cons in Hnd as [Hnd _]. apply Hnd. rewrite fmap_app. apply elem_of_app. left. by apply (list_elem_of_fmap_2 fst l (p, x)).
Qed.

Lemma returned_free s0 s p l F n s' : held s p l F → returned s0 s l.*1 → pbuf_free (Some p) s = Ok (n, s') → accounted s0 s' l.*1.
Proof.
  intros Hh [Hdom Hret] Hrun. destruct (held_gone _ _ _ _ _ _ Hh Hrun) as [Hsub Hgone]. destruct (held_free _ _ _ _ Hh) as (n' & s1 & Hrun' & _ & _ & Hrest).
  rewrite Hrun in Hrun'. injection Hrun' as <- <-. unfold rest in Hrest. injection Hrest as _ _ _ _ _ Hlk. unfold accounted. rewrite Hlk.
  destruct Hret as [Hs|Hk]; [rewrite (Hgone Hs), dom_without; set_solver|].
  intros a Ha. destruct (decide (a ∈@{gset Z} list_to_set l.*1)); set_solver.
Qed.

Lemma accounted_exact s0 s addrs : pb s = without (pb s0) addrs → accounted s0 s addrs.
Proof. unfold accounted. intros ->. rewrite dom_without. set_solver. Qed.

Lemma accounted_sub s0 s1 s (l0 l1 : list Z) : dom (pb s1) ∖ list_to_set l1 ⊆ dom (pb s0) ∖ list_to_set l0 → accounted s1 s l1 → accounted s0 s l0.
Proof. unfold accounted. set_solver. Qed.

End accounting.

(** A store into a region of memory whose contents are known. *)
Lemma pst_ok s a n (c : list Z) off v G : mread (dat s) a (Z.to_nat n) = Some c → 0 ≤ off → off + zlen v ≤ n → away a n G →
  ∃ d, pst (a + off) v s = Ok (set_dat d s) ∧ mread d a (Z.to_nat n) = Some (splice off v c) ∧ keeps G (dat s) d.
Proof.
  intros Hl Ho Hv Ha. exists (mwrite (dat s) (a + off) v). split_and!; [|by apply mread_splice|].
  - unfold pst, mstore. pose proof (mread_mapped _ _ _ _ Hl) as Hm. rewrite (proj2 (mapped_b_spec _ _ _ (zlen_nonneg v))); [done|].
    eapply mapped_mono; [| |exact Hm]; lia.
  - apply keeps_mwrite. eapply away_mono; [| |exact Ha]; lia.
Qed.

End held.
