(* ===== verification/Ip4FragOut.v ===== *)
(** * IPv4 fragmentation: the structs of ip4_frag

    While ip4_frag works, the structs of the packet get references from the structs
    pbuf_custom_ref that mirror them.  [core] says that the packet is intact: its
    structs are as before up to the number of references, which is between 1 and [m],
    plus one for each struct in [O], the ones that are mirrored at the moment. *)

From S2P Require Import Prelude ByteMem Def Pbuf PbufFacts PbufData PbufLife PbufChain PbufCopy PbufOwn Ip4Addr Etharp Ip4Frag Iface.
From S2P Require Import Ip4 Ip4Facts.

(** ** pbuf_cat keeps what a struct is *)

(** Two structs differ in [next] and [tot_len] only. *)
Definition alike (x y : Z * pbuf) : Prop :=
  y.1 = x.1 ∧ flags y.2 = flags x.2 ∧ type_internal y.2 = type_internal x.2 ∧ ref y.2 = ref x.2 ∧
  payload y.2 = payload x.2 ∧ len y.2 = len x.2.

Lemma cat_list_alike t T l : Forall2 alike l (cat_list t T l).
Proof.
  induction l as [|[a q] l IH]; [constructor|]. destruct l as [|[b x] l]; [by repeat constructor|].
  change (cat_list t T ((a, q) :: (b, x) :: l)) with ((a, with_tot_len (tot_len q + T) q) :: cat_list t T ((b, x) :: l)).
  by constructor.
Qed.

Lemma alike_content d l l' : Forall2 alike l l' → content d l' = content d l.
Proof.
  induction 1 as [|[a q] [a' q'] l l' (_ & _ & _ & _ & Hp & Hn) _ IH]; [done|]. cbn [content fst snd] in *. by rewrite IH, Hp, Hn.
Qed.

Lemma alike_fst l l' : Forall2 alike l l' → l'.*1 = l.*1.
Proof. induction 1 as [|x y l l' (Hxy & _) _ IH]; [done|]. by rewrite !fmap_cons, IH, Hxy. Qed.

(** Two adjacent slices. *)
Lemma slice_join {B} i n k (l : list B) : 0 ≤ i → 0 ≤ n → 0 ≤ k → slice i n l ++ slice (i + n) k l = slice i (n + k) l.
Proof.
  intros Hi Hn Hk. unfold slice. rewrite !Z2Nat.inj_add, <-drop_drop by lia. set (l' := drop (Z.to_nat i) l).
  rewrite <-(take_drop (Z.to_nat n) l') at 3. destruct (decide (Z.to_nat n ≤ length l')%nat).
  - rewrite take_app, length_take_le by done. rewrite (take_ge (take _ _)) by (rewrite length_take; lia). do 2 f_equal. lia.
  - rewrite (drop_ge l') by lia. rewrite take_nil, !app_nil_r. rewrite !take_ge; [done|rewrite ?length_take; lia..].
Qed.

Lemma linked_next p pre a b x post : linked p (pre ++ (a, b) :: x :: post) → next b = Some x.1.
Proof. revert p. induction pre as [|[e q] pre IH]; intros p; cbn [app linked]; [destruct x; naive_solver|]. intros [_ Hl]. eauto. Qed.

Definition pend (a : Z) (O : list Z) : Z := if decide (a ∈ O) then 1 else 0.

Lemma pend_le a O : 0 ≤ pend a O ≤ 1.
Proof. unfold pend. destruct (decide _); lia. Qed.

Lemma pend_in a O : a ∈ O → pend a O = 1.
Proof. intros. unfold pend. by rewrite decide_True. Qed.

Lemma pend_out a O : a ∉ O → pend a O = 0.
Proof. intros. unfold pend. by rewrite decide_False. Qed.

(** The packet [l0] starting at [p] and the structs [F] of others. *)
Record packet_env (p : Z) (l0 F : list (Z * pbuf)) : Prop := {
  pe_linked : linked (Some p) l0;
  pe_lens : lens_ok l0;
  pe_dup : NoDup (l0 ++ F).*1;
  pe_sep : sep F;
  pe_refs : Forall (λ x, ref x.2 = 1) F
}.

Section frag.
Context {A P N W : Type} `{LinkLaws A P N W}.
Abbreviation st := (pstate (ipmem A P N W)).
Implicit Types (s : st) (L : gmap Z src) (R M : list (Z * pbuf)) (O : list Z).

(** [l0] is the packet of ip4_frag with the bytes [c], [F] are the structs of others. *)
Context (p : Z) (l0 F : list (Z * pbuf)) (c : list Z).
Context (Hpe : packet_env p l0 F).
Let Hlink : linked (Some p) l0 := pe_linked _ _ _ Hpe.
Let Hlens : lens_ok l0 := pe_lens _ _ _ Hpe.
Let Hdup : NoDup (l0 ++ F).*1 := pe_dup _ _ _ Hpe.

Record core (m : Z) O s L : Prop := {
  co_ok : pstate_ok s L;
  co_mapped : arena_mapped (dat s);
  co_placed : Forall (placed L) (l0 ++ F);
  co_refs : Forall (λ x, ∃ r, pb s !! x.1 = Some (with_ref r x.2) ∧ 1 + pend x.1 O ≤ r ≤ m + pend x.1 O) l0;
  co_others : Forall (λ x, pb s !! x.1 = Some x.2) F;
  co_content : content (dat s) l0 = Some c
}.

Lemma core_blocks m O s L : core m O s L → Forall (λ x, is_Some (L !! x.1)) (l0 ++ F).
Proof.
  intros [[_ Hp] _ _ Hr Ho _]. apply Forall_app. split.
  - eapply Forall_impl; [exact Hr|]. intros x (r & Hx & _). destruct (Hp _ _ Hx) as (y & Hy & _). by exists y.
  - eapply Forall_impl; [exact Ho|]. intros x Hx. destruct (Hp _ _ Hx) as (y & Hy & _). by exists y.
Qed.

Lemma core_in m O s L x : core m O s L → x ∈ l0 → ∃ r, pb s !! x.1 = Some (with_ref r x.2) ∧ 1 + pend x.1 O ≤ r ≤ m + pend x.1 O.
Proof. intros Hc Hx. pose proof (co_refs _ _ _ _ Hc) as Hr. rewrite Forall_forall in Hr. by apply Hr. Qed.

(** A change of the state that leaves the structs and payloads of [l0 ++ F] alone. *)
Lemma core_frame m O s s' L L' : core m O s L → pstate_ok s' L' → arena_mapped (dat s') →
  (∀ a, a ∈ (l0 ++ F).*1 → pb s' !! a = pb s !! a ∧ L' !! a = L !! a) → content (dat s') l0 = Some c → core m O s' L'.
Proof.
  intros [Hok Hm Hp Hr Ho Hc] Hok' Hm' Hfr Hc'. rewrite fmap_app in Hfr. split; try done.
  - rewrite Forall_forall in Hp |- *. intros x Hx. eapply placed_ext; [|by apply Hp]. apply Hfr. rewrite <-fmap_app. by apply list_elem_of_fmap_2.
  - rewrite Forall_forall in Hr |- *. intros x Hx. destruct (Hfr x.1) as [-> _]; [|by apply Hr]. apply elem_of_app. left. by apply list_elem_of_fmap_2.
  - rewrite Forall_forall in Ho |- *. intros x Hx. destruct (Hfr x.1) as [-> _]; [|by apply Ho]. apply elem_of_app. right. by apply list_elem_of_fmap_2.
Qed.

(** One struct of the packet gets another number of references. *)
Lemma core_ref m O O' s L a b r : core m O s L → (a, b) ∈ l0 → 1 + pend a O' ≤ r ≤ m + pend a O' →
  (∀ a', a' ≠ a → pend a' O' = pend a' O) → core m O' (putp a (with_ref r b) s) L.
Proof.
  intros Hcore Hin Hr Hpend. pose proof Hcore as [Hok Hm Hp Hrf Ho Hc]. destruct (core_in _ _ _ _ _ Hcore Hin) as (r0 & Ha & _).
  assert (Hne : ∀ x, x ∈ F → x.1 ≠ a).
  { intros x Hx Hxa. pose proof Hdup as Hnd0. rewrite fmap_app in Hnd0. apply NoDup_app in Hnd0 as (_ & Hdis & _).
    apply (Hdis a); [by apply (list_elem_of_fmap_2 fst l0 (a, b))|]. rewrite <-Hxa. by apply list_elem_of_fmap_2. }
  split; try done.
  - by apply (pstate_ok_put s L a (with_ref r0 b)).
  - rewrite Forall_forall in Hrf |- *. intros [a' b'] Hx. cbn [pb putp fst snd]. destruct (decide (a' = a)) as [->|Hne'].
    + rewrite lookup_insert_eq. assert (b' = b) as ->; [|by exists r].
      pose proof Hdup as Hnd0. rewrite fmap_app in Hnd0. apply NoDup_app in Hnd0 as (Hnd & _ & _).
      apply list_elem_of_lookup in Hx as [i Hi], Hin as [j Hj].
      assert (i = j) as ->; [|congruence]. eapply (NoDup_lookup l0.*1); [done|rewrite list_lookup_fmap, Hi; done|rewrite list_lookup_fmap, Hj; done].
    + rewrite lookup_insert_ne by done. rewrite Hpend by done. by apply (Hrf (a', b')).
  - rewrite Forall_forall in Ho |- *. intros x Hx. cbn [pb putp]. rewrite lookup_insert_ne by (intros Hxa; by apply (Hne x)). by apply Ho.
Qed.

Lemma core_mono m m' O s L : m ≤ m' → core m O s L → core m' O s L.
Proof.
  intros Hm [Hok Hma Hp Hr Ho Hc]. split; try done. eapply Forall_impl; [exact Hr|]. intros x (r & Hx & Hb). exists r. split; [done|lia].
Qed.

(** The structs in [O] keep their reference. *)
Lemma core_keep m O s L : core m O s L → core (m + 1) [] s L.
Proof.
  intros [Hok Hma Hp Hr Ho Hc]. split; try done. eapply Forall_impl; [exact Hr|]. intros x (r & Hx & Hb). exists r. split; [done|].
  pose proof (pend_le x.1 O). rewrite (pend_out x.1 []) by apply not_elem_of_nil. lia.
Qed.

(** ** Releasing a fragment *)

(** Nothing beside the packets and [original] changes. *)
Definition quiet s s' : Prop := set_original ∅ (rest (al s')) = set_original ∅ (rest (al s)).

Lemma quiet_trans s1 s2 s3 : quiet s1 s2 → quiet s2 s3 → quiet s1 s3.
Proof. unfold quiet. congruence. Qed.

Lemma quiet_rest s s' : rest (al s') = rest (al s) → quiet s s'.
Proof. unfold quiet. by intros ->. Qed.

(** The struct [x] mirrors a part of the struct [o] of the packet. *)
Record mirror s L (x : Z * pbuf) (o : Z) : Prop := {
  mi_custom : is_custom x.2 = true;
  mi_ref : ref x.2 = 1;
  mi_block : L !! x.1 = Some SrcCustom;
  mi_orig : original (al s) !! x.1 = Some o;
  mi_new : x.1 ∉ (l0 ++ F).*1;
  mi_in : ∃ b, (o, b) ∈ l0 ∧ payload b ≤ payload x.2 ∧ payload x.2 + len x.2 ≤ payload b + len b ∧ 0 ≤ len x.2
}.

Lemma orig_in s L x o : mirror s L x o → o ∈ (l0 ++ F).*1.
Proof. intros [_ _ _ _ _ (b & Hb & _)]. rewrite fmap_app. apply elem_of_app. left. by apply (list_elem_of_fmap_2 fst l0 (o, b)). Qed.

Lemma mirrors_ext s s' L L' R O : Forall2 (mirror s L) R O →
  (∀ x, x ∈ R → L' !! x.1 = L !! x.1 ∧ original (al s') !! x.1 = original (al s) !! x.1) → Forall2 (mirror s' L') R O.
Proof.
  induction 1 as [|x o R O Hx HR IH]; intros Hfr; constructor.
  - destruct (Hfr x) as [HL Ho]; [by left|]. destruct Hx. split; try done; [by rewrite HL|by rewrite Ho].
  - apply IH. intros y Hy. apply Hfr. by right.
Qed.

Lemma mirrors_new s L R O x : Forall2 (mirror s L) R O → x ∈ R → x.1 ∉ (l0 ++ F).*1.
Proof.
  intros HR [i Hi]%list_elem_of_lookup. destruct (Forall2_lookup_l _ _ _ _ _ HR Hi) as (o & _ & Hx). apply Hx.
Qed.

(** ipfrag_free_pbuf_custom on the first of the mirrors. *)
Lemma free_mirror m O s L a q o : m ≤ 254 → o ∉ O → mirror s L (a, q) o → pb s !! a = Some q → core m (o :: O) s L →
  ∃ s', ipfrag_free_pbuf_custom a (putp a (with_ref 0 q) s) = Ok s' ∧ core m O s' (delete a L) ∧ dat s' = dat s ∧ quiet s s' ∧
    (∀ e, e ≠ a → e ≠ o → pb s' !! e = pb s !! e) ∧ (∀ e, e ≠ a → original (al s') !! e = original (al s) !! e).
Proof.
  intros Hm Ho Hmi Ha Hcore. destruct (mi_in _ _ _ _ Hmi) as (b & Hob & _).
  destruct (core_in _ _ _ _ _ Hcore Hob) as (r & Hr & Hrb). cbn [fst snd] in *. rewrite (pend_in o) in Hrb by (by left).
  assert (Hne : o ≠ a) by (intros <-; by apply (mi_new _ _ _ _ Hmi), (orig_in _ _ _ _ Hmi)).
  unfold ipfrag_free_pbuf_custom. cbn [al putp]. rewrite (mi_orig _ _ _ _ Hmi : original (al s) !! a = Some o).
  rewrite (free_shared _ o (with_ref r b)); [|cbn [pb putp]; by rewrite lookup_insert_ne|cbn [ref with_ref]; lia].
  cbn [mbind res_bind ref with_ref]. unfold ip_frag_free_pbuf_custom_ref. cbn [al putp].
  pose proof (co_ok _ _ _ _ Hcore) as Hok. pose proof Hok as [[Hal _] _].
  destruct (frag_free_law _ _ a Hal (mi_block _ _ _ _ Hmi)) as (a' & Hf & Hal'). rewrite Hf. cbn [mbind res_bind].
  eexists. split; [done|]. split_and!; try done.
  - assert (Hc1 : core m O (putp o (with_ref (r - 1) b) s) L).
    { eapply core_ref; [exact Hcore|done| |].
      - rewrite (pend_out o O) by done. lia.
      - intros e He. unfold pend. destruct (decide (e ∈ o :: O)) as [Hin|Hin], (decide (e ∈ O)); try done; set_solver. }
    eapply core_frame; [exact Hc1| |apply (co_mapped _ _ _ _ Hc1)| |apply (co_content _ _ _ _ Hc1)].
    + pose proof (pstate_ok_delete _ _ a (set_am a' (al s)) (co_ok _ _ _ _ Hc1)) as Hd. destruct Hd as [Hd1 Hd2]; [by split|].
      split; [by split|]. intros e x. cbn [on_ip set_al dropp putp pb al]. intros Hx. apply (Hd2 e x). cbn [dropp putp set_al pb] in *.
      destruct (decide (e = a)) as [->|Hea]; [by rewrite lookup_delete_eq in Hx|]. rewrite !lookup_delete_ne in * by done.
      destruct (decide (e = o)) as [->|Heo]; [by rewrite lookup_insert_eq in *|]. by rewrite !lookup_insert_ne in * by done.
    + intros e He. cbn [on_ip set_al dropp putp pb al]. assert (Hea : e ≠ a) by (intros ->; by apply (mi_new _ _ _ _ Hmi)).
      rewrite !lookup_delete_ne by done. split; [|done]. destruct (decide (e = o)) as [->|Heo]; [by rewrite !lookup_insert_eq|].
      by rewrite !lookup_insert_ne by done.
  - intros e Hea Heo. cbn [on_ip set_al dropp putp pb al]. rewrite lookup_delete_ne by done. by rewrite !lookup_insert_ne by done.
  - intros e Hea. cbn [on_ip set_al dropp putp pb al set_original set_am original]. by rewrite lookup_delete_ne.
Qed.

Lemma free_mirrors m R : m ≤ 254 → ∀ O fuel pt count s L, NoDup O → Forall2 (mirror s L) R O → chain (pb s) pt R → core m O s L →
  (length R ≤ fuel)%nat →
  ∃ n s' L', frag_free_loop fuel pt count s = Ok (n, s') ∧ core m [] s' L' ∧ dat s' = dat s ∧ quiet s s'.
Proof.
  intros Hm. induction R as [|[a q] R IH]; intros O fuel pt count s L HO Hmi Hch Hcore Hf.
  - apply Forall2_nil_inv_l in Hmi as ->. simpl in Hch. subst pt. exists count, s, L. by destruct fuel.
  - apply Forall2_cons_inv_l in Hmi as (o & O' & Ho & Hmi & ->). pose proof (chain_NoDup _ _ _ Hch) as Hnd. rewrite fmap_cons in Hnd.
    destruct Hch as (-> & Ha & Hch). destruct fuel as [|fuel]; [simpl in Hf; lia|]. cbn [frag_free_loop].
    rewrite (getp_some _ _ _ Ha). cbn [mbind res_bind]. pose proof (mi_ref _ _ _ _ Ho) as Hr1. cbn [snd] in Hr1. rewrite Hr1. cbn [Z.ltb LWIP_ASSERT mbind res_bind].
    change (u8 (1 - 1)) with 0. cbn [Z.compare]. rewrite (mi_custom _ _ _ _ Ho : is_custom q = true). cbn [al putp].
    rewrite (mi_orig _ _ _ _ Ho : original (al s) !! a = Some o). rewrite bool_decide_eq_false_2 by done. cbn [andb negb Z.eqb].
    apply NoDup_cons in HO as [Hoo HO]. destruct (free_mirror m O' s L a q o Hm Hoo Ho Ha Hcore) as (s1 & Hrun & Hc1 & Hd1 & Hq1 & Hpb1 & Hor1).
    rewrite Hrun. cbn [mbind res_bind]. apply NoDup_cons in Hnd as [Hna Hnd].
    assert (Hnew : ∀ x, x ∈ R → x.1 ≠ a ∧ x.1 ≠ o).
    { intros x Hin. split; [intros Hxa; apply Hna; cbn [fst]; rewrite <-Hxa; by apply list_elem_of_fmap_2|]. intros Hxo.
      apply (mirrors_new _ _ _ _ _ Hmi Hin). rewrite Hxo. by eapply orig_in. }
    destruct (IH O' fuel (next q) (u8 (count + 1)) s1 (delete a L)) as (n & s' & L' & Hrun' & Hc' & Hd' & Hq'); try done.
    + eapply mirrors_ext; [exact Hmi|]. intros x Hx. destruct (Hnew x Hx). split; [by apply lookup_delete_ne|by apply Hor1].
    + eapply chain_frame; [|exact Hch]. intros e He. apply list_elem_of_fmap in He as (x & -> & Hx).
      destruct (Hnew x Hx). by apply Hpb1.
    + simpl in Hf. lia.
    + exists n, s', L'. split_and!; try done; [congruence|by eapply quiet_trans].
Qed.

(** The struct that holds the IP header goes back to the heap. *)
Lemma release_header m O s L r rq nn : core m O s L → pb s !! r = Some rq → L !! r = Some (SrcHeap nn) → r ∉ (l0 ++ F).*1 →
  ∃ s', pbuf_release r rq (putp r (with_ref 0 rq) s) = Ok s' ∧ core m O s' (delete r L) ∧ dat s' = dat s ∧
    rest (al s') = rest (al s) ∧ (∀ e, e ≠ r → pb s' !! e = pb s !! e).
Proof.
  intros Hcore Hr HL Hnew. pose proof (co_ok _ _ _ _ Hcore) as Hok. pose proof Hok as [Hal Hp].
  destruct (Hp _ _ Hr) as (x & Hx & Hs). rewrite HL in Hx. injection Hx as <-.
  destruct (release_ok (H0 := ip_laws (eq (rest (al s)))) (putp r (with_ref 0 rq) s) L r rq (SrcHeap nn)) as (a & Hrel & [Ha Hrest]); try done.
  { split; [apply Hal|done]. }
  rewrite Hrel. eexists. split; [done|].
  assert (Hpb : ∀ e, e ≠ r → pb (dropp r (set_al a (putp r (with_ref 0 rq) s))) !! e = pb s !! e).
  { intros e He. cbn [dropp set_al putp pb]. rewrite lookup_delete_ne by done. by rewrite lookup_insert_ne by done. }
  split_and!; try done. eapply core_frame; [exact Hcore| |apply (co_mapped _ _ _ _ Hcore)| |apply (co_content _ _ _ _ Hcore)].
  - split; [by split|]. intros e y Hy. destruct (decide (e = r)) as [->|He].
    + cbn [dropp set_al putp pb] in Hy. by rewrite lookup_delete_eq in Hy.
    + rewrite Hpb in Hy by done. destruct (Hp _ _ Hy) as (z & Hz & ?). exists z. by rewrite lookup_delete_ne.
  - intros e He. assert (e ≠ r) by (intros ->; done). rewrite Hpb, lookup_delete_ne by done. done.
Qed.

(** pbuf_free of a fragment, when nobody else refers to it. *)
Lemma frag_free_ok m O s L r rq R nn : m ≤ 254 → core m O s L → chain (pb s) (Some r) ((r, rq) :: R) → L !! r = Some (SrcHeap nn) →
  r ∉ (l0 ++ F).*1 → is_custom rq = false → ref rq = 1 → Forall2 (mirror s L) R O → NoDup O →
  ∃ n s' L', frag_free (Some r) s = Ok (n, s') ∧ core m [] s' L' ∧ dat s' = dat s ∧ quiet s s'.
Proof.
  intros Hm Hcore Hch HL Hnew Hcu Hr1 Hmi HO. pose proof (chain_fuel_enough _ _ _ Hch) as Hfu. pose proof (chain_NoDup _ _ _ Hch) as Hnd.
  rewrite fmap_cons in Hnd. apply NoDup_cons in Hnd as [Hnd _]. destruct Hch as (_ & Hr & Hch).
  unfold frag_free. destruct (chain_fuel s) as [|fuel]; [lia|]. cbn [frag_free_loop]. rewrite (getp_some _ _ _ Hr). cbn [mbind res_bind].
  rewrite Hr1. cbn [Z.ltb Z.compare LWIP_ASSERT mbind res_bind]. change (u8 (1 - 1)) with 0. cbn [Z.eqb]. rewrite Hcu. cbn [andb].
  destruct (release_header _ _ _ _ _ _ _ Hcore Hr HL Hnew) as (s1 & Hrel & Hc1 & Hd1 & Hrest & Hpb). rewrite Hrel. cbn [mbind res_bind].
  assert (Hne : ∀ x, x ∈ R → x.1 ≠ r) by (intros x Hx Hxr; apply Hnd; cbn [fst]; rewrite <-Hxr; by apply list_elem_of_fmap_2).
  destruct (free_mirrors m R Hm O fuel (next rq) (u8 (0 + 1)) s1 (delete r L)) as (n & s' & L' & Hrun & Hc' & Hd' & Hq'); try done.
  - eapply mirrors_ext; [exact Hmi|]. intros x Hx. split; [apply lookup_delete_ne, not_eq_sym; by apply Hne|].
    unfold rest in Hrest. by injection Hrest as _ _ _ -> _ _.
  - eapply chain_frame; [|exact Hch]. intros e He. apply list_elem_of_fmap in He as (x & -> & Hx). by apply Hpb, Hne.
  - simpl in Hfu. lia.
  - exists n, s', L'. split_and!; try done; [congruence|]. eapply quiet_trans; [by apply quiet_rest|done].
Qed.

(** pbuf_free of a fragment the link layer refers to. *)
Lemma frag_free_lent m O s L r rq : core m O s L → pb s !! r = Some rq → ref rq = 2 → r ∉ (l0 ++ F).*1 →
  ∃ n s', frag_free (Some r) s = Ok (n, s') ∧ core (m + 1) [] s' L ∧ dat s' = dat s ∧ quiet s s'.
Proof.
  intros Hcore Hr Hr2 Hnew. unfold frag_free, chain_fuel. cbn [frag_free_loop]. rewrite (getp_some _ _ _ Hr). cbn [mbind res_bind].
  rewrite Hr2. cbn [Z.ltb Z.compare LWIP_ASSERT mbind res_bind]. change (u8 (2 - 1) =? 0) with false. cbn iota.
  eexists _, _. split; [done|]. split_and!; try done. apply (core_keep m O).
  eapply core_frame; [exact Hcore| |apply (co_mapped _ _ _ _ Hcore)| |apply (co_content _ _ _ _ Hcore)].
  - apply (pstate_ok_put s L r rq); [apply Hcore|done..].
  - intros e He. assert (e ≠ r) by (intros ->; done). cbn [putp pb]. by rewrite lookup_insert_ne by done.
Qed.

(** ** Building a fragment *)

Record building m O s L r rq R : Prop := {
  bu_core : core m O s L;
  bu_chain : chain (pb s) (Some r) ((r, rq) :: R);
  bu_lens : lens_ok ((r, rq) :: R);
  bu_block : ∃ nn, L !! r = Some (SrcHeap nn);
  bu_custom : is_custom rq = false;
  bu_ref : ref rq = 1;
  bu_new : r ∉ (l0 ++ F).*1;
  bu_mirrors : Forall2 (mirror s L) R O;
  bu_dup : NoDup O
}.

Lemma building_disj m O s L r rq R x : building m O s L r rq R → x ∈ ((r, rq) :: R) → x.1 ∉ (l0 ++ F).*1.
Proof.
  intros [] [->|Hx]%elem_of_cons; [done|]. by eapply mirrors_new.
Qed.

Lemma mirror_alike s L x y o : alike x y → mirror s L x o → mirror s L y o.
Proof.
  intros (H1' & Hf & Ht & Hr & Hp & Hl) [Hcu Hre Hb Ho Hn Hi]. unfold is_custom in *.
  split; rewrite ?H1', ?Hr, ?Hp, ?Hl; try done. unfold is_custom. by rewrite Hf.
Qed.

Lemma mirrors_alike s L R R1 : Forall2 alike R R1 → ∀ O, Forall2 (mirror s L) R O → Forall2 (mirror s L) R1 O.
Proof.
  induction 1 as [|x y R R1 Hxy HR1 IH]; intros O Hm1.
  - apply Forall2_nil_inv_l in Hm1 as ->. constructor.
  - apply Forall2_cons_inv_l in Hm1 as (o & O' & Hx & Hm1 & ->). constructor; [by eapply mirror_alike|by apply IH].
Qed.

Lemma pstate_ok_alike s L M M' m : pstate_ok s L → Forall2 alike M M' → Forall (λ x, pb s !! x.1 = Some x.2) M →
  Forall (λ x, m !! x.1 = Some x.2) M' → (∀ e, e ∉ M.*1 → m !! e = pb s !! e) →
  pstate_ok (PState m (dat s) (al s) (pbuf_free_ooseq_pending s)) L.
Proof.
  intros [Hal Hp] Hal2 HM HM' Hfr. split; [done|]. cbn [pb]. intros e q Hq. destruct (decide (e ∈ M.*1)) as [Hin|Hin].
  2: { apply Hp. by rewrite <-Hfr. }
  apply list_elem_of_fmap in Hin as (x & -> & Hx). rewrite Forall_forall in HM, HM'. destruct (Hp _ _ (HM _ Hx)) as (y & Hy & Hs).
  exists y. split; [done|]. apply list_elem_of_lookup in Hx as [i Hi]. destruct (Forall2_lookup_l _ _ _ _ _ Hal2 Hi) as (x' & Hi' & Ha & Hf & Ht & _).
  specialize (HM' x' (list_elem_of_lookup_2 _ _ _ Hi')). rewrite Ha, Hq in HM'. injection HM' as ->.
  unfold src_ok, is_custom, pbuf_get_allocsrc in *. by rewrite Hf, Ht.
Qed.

Definition mirror_of (b : pbuf) (off k : Z) : pbuf := Pbuf None (payload b + off) k k (u8 PBUF_REF) PBUF_FLAG_IS_CUSTOM 1 NETIF_NO_INDEX.

Lemma alloced_custom_ok pcr b off k s : 0 ≤ k →
  pbuf_alloced_custom PBUF_RAW k PBUF_REF pcr (payload b + off) k s = (Some pcr, putp pcr (mirror_of b off k) s).
Proof.
  intros Hk. unfold pbuf_alloced_custom. change (LWIP_MEM_ALIGN_SIZE (u16 PBUF_RAW)) with 0. rewrite Z.add_0_l, Z.ltb_irrefl, Z.add_0_r.
  unfold pbuf_init_alloced_pbuf, mirror_of. destruct (payload b + off =? 0) eqn:E; breflect; cbn [negb]; [by rewrite E|done].
Qed.

(** The struct is there, but not yet in the fragment. *)
Lemma mirror_made m O s L r rq R a b off k pcr a' : building m O s L r rq R → (a, b) ∈ l0 → a ∉ O → m ≤ 254 →
  0 ≤ off → 0 < k → off + k ≤ len b → L !! pcr = None → al_ok a' (<[pcr := SrcCustom]> L) →
  let s1 := putp pcr (mirror_of b off k) (on_ip (set_am a') s) in
  ∃ s2, pbuf_ref (Some a) s1 = Ok s2 ∧ dat s2 = dat s ∧ rest (al s2) = rest (al s) ∧
    let s3 := on_ip (λ m, set_original (<[pcr := a]> (original m)) m) s2 in
    core m (O ++ [a]) s3 (<[pcr := SrcCustom]> L) ∧ chain (pb s3) (Some r) ((r, rq) :: R) ∧
    pb s3 !! pcr = Some (mirror_of b off k) ∧ Forall2 (mirror s3 (<[pcr := SrcCustom]> L)) (R ++ [(pcr, mirror_of b off k)]) (O ++ [a]) ∧
    pcr ∉ ((r, rq) :: R).*1.
Proof.
  intros Hbu Hin HaO Hm Hoff Hk Hle Hfresh Hal. pose proof Hbu as [Hcore Hch Hl [nn Hblk] Hcu Hr1 Hnew Hmi HO].
  pose proof (co_ok _ _ _ _ Hcore) as Hok. pose proof (pstate_fresh _ _ _ Hok Hfresh) as Hpf.
  assert (Hpn : pcr ∉ (l0 ++ F).*1).
  { intros (x & Hx & Hx')%list_elem_of_fmap. pose proof (core_blocks _ _ _ _ Hcore) as Hb. rewrite Forall_forall in Hb.
    destruct (Hb _ Hx') as [y Hy]. rewrite <-Hx, Hfresh in Hy. done. }
  assert (HpM : ∀ x, x ∈ (r, rq) :: R → x.1 ≠ pcr).
  { intros [e x] Hx. pose proof (chain_lookup _ _ _ _ _ Hch Hx) as Hx'. cbn [fst]. intros ->. congruence. }
  destruct (core_in _ _ _ _ _ Hcore Hin) as (r0 & Ha & Hr0). cbn [fst snd] in *. rewrite (pend_out a O) in Hr0 by done.
  assert (Hapcr : a ≠ pcr) by (intros ->; congruence).
  unfold pbuf_ref. assert (Hget : getp a (putp pcr (mirror_of b off k) (on_ip (set_am a') s)) = Ok (with_ref r0 b)).
  { apply getp_some. cbn [putp on_ip set_al pb]. by rewrite lookup_insert_ne. }
  rewrite Hget. cbn [mbind res_bind ref with_ref]. rewrite u8_id by ulia. replace (0 <? r0 + 1) with true by lia. cbn [LWIP_ASSERT mbind res_bind].
  eexists. split; [done|]. split; [done|]. split; [done|]. cbn zeta. split_and!.
  - assert (Hc1 : core m O (putp pcr (mirror_of b off k) (on_ip (set_am a') s)) (<[pcr := SrcCustom]> L)).
    { eapply core_frame; [exact Hcore| |apply (co_mapped _ _ _ _ Hcore)| |apply (co_content _ _ _ _ Hcore)].
      - apply (init_ok s L (set_am a' (al s)) pcr (payload b + off) k k PBUF_REF PBUF_FLAG_IS_CUSTOM SrcCustom); done.
      - intros e He. assert (e ≠ pcr) by (intros ->; done). cbn [putp on_ip set_al pb]. rewrite !lookup_insert_ne by done. done. }
    assert (Hc2 : core m (O ++ [a]) (putp a (with_ref (r0 + 1) b) (putp pcr (mirror_of b off k) (on_ip (set_am a') s))) (<[pcr := SrcCustom]> L)).
    { eapply core_ref; [exact Hc1|done| |].
      - rewrite (pend_in a) by set_solver. lia.
      - intros e He. unfold pend. destruct (decide (e ∈ O ++ [a])) as [Hi|Hi], (decide (e ∈ O)); try done; set_solver. }
    eapply core_frame; [exact Hc2|apply Hc2|apply (co_mapped _ _ _ _ Hc2)|done|apply (co_content _ _ _ _ Hc2)].
  - eapply chain_frame; [|exact Hch]. intros e (x & -> & Hx)%list_elem_of_fmap. cbn [putp on_ip set_al pb].
    rewrite !lookup_insert_ne; [done|apply not_eq_sym; by apply HpM|]. intros Hae. apply (building_disj _ _ _ _ _ _ _ _ Hbu Hx).
    rewrite <-Hae, fmap_app. apply elem_of_app. left. by apply (list_elem_of_fmap_2 fst l0 (a, b)).
  - cbn [putp on_ip set_al pb]. rewrite lookup_insert_ne by done. by rewrite lookup_insert_eq.
  - apply Forall2_app; [|constructor; [|constructor]].
    + eapply mirrors_ext; [exact Hmi|]. intros x Hx. assert (x.1 ≠ pcr) by (apply HpM; by right).
      split; [by rewrite lookup_insert_ne|]. cbn. by rewrite lookup_insert_ne.
    + split; cbn [fst snd]; try done; [by rewrite lookup_insert_eq|cbn; by rewrite lookup_insert_eq|]. exists b. split; [done|]. simpl. lia.
  - intros (x & Hx & Hx')%list_elem_of_fmap. by apply (HpM x).
Qed.

(** pbuf_cat puts it at the end. *)
Lemma mirror_cat m O s L r rq R a b off k pcr : core m (O ++ [a]) s L → chain (pb s) (Some r) ((r, rq) :: R) → lens_ok ((r, rq) :: R) →
  (∃ nn, L !! r = Some (SrcHeap nn)) → is_custom rq = false → ref rq = 1 → r ∉ (l0 ++ F).*1 → NoDup (O ++ [a]) →
  pb s !! pcr = Some (mirror_of b off k) → Forall2 (mirror s L) (R ++ [(pcr, mirror_of b off k)]) (O ++ [a]) → pcr ∉ ((r, rq) :: R).*1 →
  0 < k → bytes_in ((r, rq) :: R) + k ≤ 65535 →
  ∃ s' rq' R', pbuf_cat (Some r) (Some pcr) s = Ok s' ∧ building m (O ++ [a]) s' L r rq' R' ∧ dat s' = dat s ∧ al s' = al s ∧
    payload rq' = payload rq ∧ len rq' = len rq ∧ bytes_in ((r, rq') :: R') = bytes_in ((r, rq) :: R) + k ∧
    ∀ d, content d R' = content d (R ++ [(pcr, mirror_of b off k)]).
Proof.
  intros Hcore Hch Hl Hblk Hcu Hr1 Hnew HO Hpcr Hmi Hpn Hk Hb. set (t := (pcr, mirror_of b off k)) in *.
  pose proof (lens_ok_range _ Hl) as Hrange. assert (Ht0 : lens_ok [t]) by (simpl; split_and!; try done; simpl; lia).
  destruct (cat_ok s r pcr ((r, rq) :: R) [t]) as (mm & Hcat & Hpath & Hcht & Hfr); try done.
  { intros e He ->%list_elem_of_singleton. done. }
  { cbn [bytes_in]. unfold t. simpl. simpl in Hb. lia. }
  rewrite Hcat. pose proof (cat_list_alike pcr (bytes_in [t]) ((r, rq) :: R)) as Hal2.
  pose proof (cat_list_lens pcr ((r, rq) :: R) [t] Hl) as Hlens2. pose proof (cat_list_bytes pcr (bytes_in [t]) ((r, rq) :: R)) as Hbytes.
  pose proof (path_chain _ _ _ _ _ Hpath Hcht) as Hch2.
  destruct (cat_list pcr (bytes_in [t]) ((r, rq) :: R)) as [|[r' rq'] R1] in *; [by apply Forall2_nil_inv_r in Hal2|].
  apply Forall2_cons in Hal2 as [(Hr' & Hf & Ht & Hrf & Hp & Hln) HR1]. cbn [fst snd] in *. subst r'. cbn [app] in *. eexists _, rq', (R1 ++ [t]). split; [done|]. split; [|split_and!; try done].
  - assert (HchM : Forall (λ x, mm !! x.1 = Some x.2) (((r, rq') :: R1) ++ [t])) by (by apply chain_linked in Hch2 as [_ ?]).
    assert (Hdis : ∀ e, e ∈ (l0 ++ F).*1 → e ∉ ((r, rq) :: R).*1).
    { intros e He (x & -> & [->|Hx]%elem_of_cons)%list_elem_of_fmap; [done|]. apply Forall2_app_inv_l in Hmi as (O1 & O2 & Hm1 & _ & _).
      by apply (mirrors_new _ _ _ _ _ Hm1 Hx). }
    split; try done.
    + eapply core_frame; [exact Hcore| |apply (co_mapped _ _ _ _ Hcore)| |apply (co_content _ _ _ _ Hcore)].
      * eapply (pstate_ok_alike s L ((r, rq) :: R) ((r, rq') :: R1)); [apply Hcore|by constructor| |by apply Forall_app in HchM as [? _]|done].
        by apply chain_linked in Hch as [_ ?].
      * intros e He. cbn [pb]. split; [|done]. by apply Hfr, Hdis.
    + apply Hlens2; [done|]. cbn [bytes_in t len mirror_of]. simpl in Hb. lia.
    + unfold is_custom in *. by rewrite Hf.
    + congruence.
    + eapply (mirrors_ext s); [|done]. apply Forall2_app_inv_l in Hmi as (O1 & O2 & Hm1 & Hm2 & ->). apply Forall2_app; [|done].
      by eapply mirrors_alike.
  - cbn [bytes_in] in *. rewrite bytes_in_app. simpl in *. lia.
  - intros d. rewrite !content_app. by rewrite (alike_content d _ _ HR1).
Qed.

(** ** The inner loop *)

Lemma fill_0 fuel r pt off nl s : frag_fill fuel r pt off 0 nl s = Ok (Some (pt, off, nl), s).
Proof. by destruct fuel. Qed.

(** What the inner loop leaves when it does not run out of memory. *)
Definition filled m s L r rq pos0 pos (x : option Z * Z * Z) : Prop :=
  ∃ pre a b post rq' R O, x.1.1 = Some a ∧ l0 = pre ++ (a, b) :: post ∧ 0 ≤ x.1.2 ∧ 0 ≤ x.2 ∧ x.1.2 + x.2 ≤ len b ∧
    bytes_in pre + x.1.2 + x.2 = pos ∧ building m O s L r rq' R ∧ payload rq' = payload rq ∧ len rq' = len rq ∧
    content (dat s) R = Some (slice pos0 (pos - pos0) c).

Lemma fill_no_memory m O s L r rq R a' : m ≤ 254 → building m O s L r rq R → al_ok a' L →
  ∃ n s' L', frag_free (Some r) (on_ip (set_am a') s) = Ok (n, s') ∧ core m [] s' L' ∧ dat s' = dat s ∧ quiet s s'.
Proof.
  intros Hm [Hcore Hch Hl [nn Hblk] Hcu Hr1 Hnew Hmi HO] Ha.
  assert (Hc1 : core m O (on_ip (set_am a') s) L).
  { eapply core_frame; [exact Hcore| |apply (co_mapped _ _ _ _ Hcore)|done|apply (co_content _ _ _ _ Hcore)].
    pose proof (co_ok _ _ _ _ Hcore) as [_ Hp]. by split. }
  destruct (frag_free_ok m O (on_ip (set_am a') s) L r rq R nn) as (n & s' & L' & Hrun & Hc' & Hd & Hq); try done.
  - eapply mirrors_ext; [exact Hmi|done].
  - exists n, s', L'. split_and!; done.
Qed.

(** One struct is mirrored, or there is no memory. *)
Lemma frag_mirror_ok m O s L r rq R a b r0 off k : m ≤ 254 → building m O s L r rq R → (a, b) ∈ l0 → a ∉ O →
  0 ≤ off → 0 < k → off + k ≤ len b → bytes_in ((r, rq) :: R) + k ≤ 65535 →
  ∃ ok s' L', frag_mirror r a (with_ref r0 b) off k s = Ok (ok, s') ∧ dat s' = dat s ∧ quiet s s' ∧
    if ok : bool then ∃ pcr rq' R', building m (O ++ [a]) s' L' r rq' R' ∧ payload rq' = payload rq ∧ len rq' = len rq ∧
      bytes_in ((r, rq') :: R') = bytes_in ((r, rq) :: R) + k ∧ ∀ d, content d R' = content d (R ++ [(pcr, mirror_of b off k)])
    else core m [] s' L'.
Proof.
  intros Hm Hbu Hin HaO Hoff Hk Hle Hb. unfold frag_mirror, ip_frag_alloc_pbuf_custom_ref. cbn [payload with_ref].
  pose proof (co_ok _ _ _ _ (bu_core _ _ _ _ _ _ _ Hbu)) as [[Hal _] _].
  destruct (frag_malloc_law _ _ Hal) as (x & a' & -> & Hx). cbn [mbind res_bind]. destruct x as [pcr|].
  - destruct Hx as [Hfresh Ha']. rewrite alloced_custom_ok by lia.
    destruct (mirror_made m O s L r rq R a b off k pcr a') as (s2 & Href & Hd2 & Hrest2 & Hc3 & Hch3 & Hp3 & Hmi3 & Hpn3); try done.
    cbn zeta in *. rewrite Href. cbn [mbind res_bind]. pose proof Hbu as [_ _ Hl [nn Hblk] Hcu Hr1 Hnew _ HO].
    destruct (mirror_cat m O _ _ r rq R a b off k pcr Hc3 Hch3) as (s4 & rq' & R' & -> & Hbu4 & Hd4 & Hal4 & Hrest4); try done.
    + exists nn. rewrite lookup_insert_ne; [done|]. intros ->. congruence.
    + apply NoDup_app. split_and!; [done| |apply NoDup_singleton]. intros e He ->%list_elem_of_singleton. done.
    + cbn [mbind res_bind]. eexists true, s4, _. split; [done|]. split; [rewrite Hd4; exact Hd2|]. split; [|by exists pcr, rq', R'].
      unfold quiet. rewrite Hal4. cbn [on_ip set_al al]. unfold rest in *. injection Hrest2 as E1 E2 E3 E4 E5 E6.
      unfold set_original. cbn. by rewrite E1, E2, E3, E5, E6.
  - destruct (fill_no_memory m O s L r rq R a' Hm Hbu Hx) as (n & s' & L' & -> & Hc & Hd & Hq). cbn [mbind res_bind].
    by exists false, s', L'.
Qed.

Lemma fill_ok m : m ≤ 254 → ∀ fuel post pre a b off left nl s L r rq R O pos0,
  l0 = pre ++ (a, b) :: post → 0 ≤ off ≤ len b → 0 < left → bytes_in pre + off + left ≤ bytes_in l0 →
  building m O s L r rq R → (∀ o, o ∈ O → o ∈ pre.*1) → bytes_in ((r, rq) :: R) + left ≤ 65535 → (length post < fuel)%nat →
  0 ≤ pos0 ≤ bytes_in pre + off → content (dat s) R = Some (slice pos0 (bytes_in pre + off - pos0) c) →
  ∃ x s' L', frag_fill fuel r (Some a) off left nl s = Ok (x, s') ∧ dat s' = dat s ∧ quiet s s' ∧
    match x with None => core m [] s' L' | Some x => filled m s' L' r rq pos0 (bytes_in pre + off + left) x end.
Proof.
  intros Hm fuel. induction fuel as [|fuel IH]; intros post pre a b off left nl s L r rq R O pos0 Hl0 Hoff Hleft Hend Hbu HO Hbytes Hfuel Hpos Hcont; [lia|].
  cbn [frag_fill]. replace (left =? 0) with false by lia. cbn [deref mbind res_bind].
  assert (Hin : (a, b) ∈ l0) by (rewrite Hl0; apply elem_of_app; right; by left).
  pose proof (bu_core _ _ _ _ _ _ _ Hbu) as Hcore. destruct (core_in _ _ _ _ _ Hcore Hin) as (r0 & Ha & _). cbn [fst snd] in Ha.
  rewrite (getp_some _ _ _ Ha). cbn [mbind res_bind]. change (len (with_ref r0 b)) with (len b). change (next (with_ref r0 b)) with (next b).
  assert (Hlb : len b ≤ 65535).
  { pose proof Hlens as Hl. rewrite Hl0 in Hl. apply lens_ok_app in Hl as (_ & ? & ? & Hl). apply lens_ok_range in Hl. lia. }
  rewrite (u16_id (len b - off)) by ulia. replace (off <=? len b) with true by lia. cbn [LWIP_ASSERT mbind res_bind].
  assert (Hnext : len b - off < left → ∃ a2 b2 post2, post = (a2, b2) :: post2 ∧ next b = Some a2).
  { intros Hlt. destruct post as [|[a2 b2] post2].
    - rewrite Hl0, bytes_in_app in Hend. simpl in Hend. lia.
    - exists a2, b2, post2. split; [done|]. pose proof Hlink as Hl. rewrite Hl0 in Hl. by apply linked_next in Hl. }
  assert (Hpre2 : bytes_in (pre ++ [(a, b)]) = bytes_in pre + len b) by (rewrite bytes_in_app; simpl; lia).
  destruct (Z.min left (len b - off) =? 0) eqn:Ek; breflect.
  - destruct Hnext as (a2 & b2 & post2 & -> & ->); [lia|].
    destruct (IH post2 (pre ++ [(a, b)]) a2 b2 0 left (Z.min left (len b - off)) s L r rq R O pos0) as (x & s' & L' & Hrun & Hd & Hq & Hres); try done; try lia.
    + rewrite Hl0, <-app_assoc. done.
    + pose proof Hlens as Hl2. rewrite Hl0 in Hl2. apply lens_ok_app in Hl2 as (_ & _ & _ & ? & _). lia.
    + intros o Ho. rewrite fmap_app. apply elem_of_app. left. by apply HO.
    + simpl in Hfuel. lia.
    + rewrite Hcont. do 2 f_equal. lia.
    + exists x, s', L'. rewrite Hpre2 in Hres. replace (bytes_in pre + len b + 0 + left) with (bytes_in pre + off + left) in Hres by lia. done.
  - set (k := Z.min left (len b - off)) in *.
    assert (HaO : a ∉ O).
    { intros Hi%HO. pose proof Hdup as Hnd. rewrite Hl0, fmap_app, fmap_app, fmap_cons in Hnd. apply NoDup_app in Hnd as [Hnd _].
      apply NoDup_app in Hnd as (_ & Hnd & _). apply (Hnd a Hi). by left. }
    destruct (frag_mirror_ok m O s L r rq R a b r0 off k) as (ok & s1 & L1 & Hrun1 & Hd1 & Hq1 & Hres1); try done; try lia.
    rewrite Hrun1. cbn [mbind res_bind]. destruct ok; cbn [negb]; [|by exists None, s1, L1].
    destruct Hres1 as (pcr & rq1 & R1 & Hbu1 & Hp1 & Hl1 & Hb1 & Hc1). rewrite u16_id by (pose proof (lens_ok_range _ Hlens); ulia).
    assert (Hcont1 : content (dat s1) R1 = Some (slice pos0 (bytes_in pre + off + k - pos0) c)).
    { pose proof (bytes_in_prefix pre ((a, b) :: post)) as Hpn. rewrite <-Hl0 in Hpn. specialize (Hpn Hlens). rewrite Hc1, Hd1, content_app, Hcont. cbn [mbind option_bind content mirror_of payload len].
      rewrite (content_slice (dat s) pre a b post c off k); try done; try lia; [|by rewrite <-Hl0|rewrite <-Hl0; apply Hcore]. cbn [mbind option_bind].
      rewrite app_nil_r. f_equal. replace (bytes_in pre + off) with (pos0 + (bytes_in pre + off - pos0)) at 2 by lia.
      rewrite slice_join by lia. f_equal. lia. }
    destruct (left - k =? 0) eqn:El; breflect; cbn [negb].
    + rewrite El, fill_0. eexists _, s1, L1. split; [done|]. split_and!; try done. exists pre, a, b, post, rq1, R1, (O ++ [a]). cbn [fst snd].
      replace (bytes_in pre + off + left) with (bytes_in pre + off + k) by lia. split_and!; try done; try lia.
    + destruct Hnext as (a2 & b2 & post2 & -> & ->); [lia|].
      destruct (IH post2 (pre ++ [(a, b)]) a2 b2 0 (left - k) k s1 L1 r rq1 R1 (O ++ [a]) pos0) as (x & s' & L' & Hrun & Hd & Hq & Hres); try done; try lia.
      * rewrite Hl0, <-app_assoc. done.
      * pose proof Hlens as Hl2. rewrite Hl0 in Hl2. apply lens_ok_app in Hl2 as (_ & _ & _ & ? & _). lia.
      * intros o [Ho| ->%list_elem_of_singleton]%elem_of_app; rewrite fmap_app; apply elem_of_app; [left; by apply HO|right; by left].
      * simpl in Hfuel. lia.
      * rewrite Hcont1. do 2 f_equal. lia.
      * exists x, s', L'. rewrite Hrun. split; [done|]. split; [congruence|]. split; [by eapply quiet_trans|]. destruct x as [x|]; [|done].
        unfold filled in *. rewrite Hp1, Hl1, Hpre2 in Hres. replace (bytes_in pre + len b + 0 + (left - k)) with (bytes_in pre + off + left) in Hres by lia.
        done.
Qed.

End frag.
