(* ===== verification/Ip4FragSend.v ===== *)
(** * IPv4 fragmentation: the packets that ip4_frag sends

    [fragments] lists the fragments of a packet as byte strings.  ip4_frag hands them to the
    link layer in this order, or stops at some point when there is no memory; the packet
    itself stays intact. *)

From S2P Require Import Prelude ByteMem Def Pbuf PbufFacts PbufData PbufLife PbufChain PbufCopy PbufOwn Ip4Addr Etharp Ip4Frag.
From S2P Require Import Ip4FragQueue Iface Ip4 Ip4Facts Ip4FragOut.

(** ** The fragments *)

(** The header of the fragment at the offset [ofo] (in units of 8 bytes), when [left] bytes
    are left. *)
Definition frag_offset (mtu left ofo mf_set : Z) : Z :=
  let tmp := Z.land IP_OFFMASK ofo in
  if negb (left <=? mtu - IP_HLEN) || negb (mf_set =? 0) then Z.lor tmp IP_MF else tmp.

Definition frag_hdr (hdr : ip_hdr) (off len : Z) : ip_hdr :=
  splice 10 (word16 0) (splice 2 (word16 (lwip_htons len)) (splice 6 (word16 (lwip_htons off)) hdr)).

(** The packet is [c], with the header [hdr]. *)
Fixpoint fragments (k : nat) (hdr : ip_hdr) (c : list Z) (mtu nfb mf_set left ofo : Z) : list (list Z) :=
  match k with
  | O => []
  | S k =>
      if left =? 0 then [] else
      let n := Z.min left (nfb * 8) in
      (frag_hdr hdr (frag_offset mtu left ofo mf_set) (n + IP_HLEN) ++ slice (zlen c - left) n c)
        :: fragments k hdr c mtu nfb mf_set (left - n) (u16 (ofo + nfb))
  end.

(** All fragments of the packet [c]. *)
Definition fragments_of (mtu : Z) (c : list Z) : list (list Z) :=
  let hdr := take 20 c in
  let tmp := lwip_htons (IPH_OFFSET hdr) in
  let left := zlen c - IP_HLEN in
  fragments (S (Z.to_nat left)) hdr c mtu ((mtu - IP_HLEN) / 8) (Z.land tmp IP_MF) left (Z.land tmp IP_OFFMASK).

Section send.
Context {A P N W : Type} `{LinkLaws A P N W}.
Abbreviation st := (pstate (ipmem A P N W)).
Implicit Types (s : st) (L : gmap Z src) (R M : list (Z * pbuf)) (O : list Z).

Context (p : Z) (l0 F : list (Z * pbuf)) (c : list Z) (Hpe : packet_env p l0 F).
Abbreviation core := (core l0 F c).
Abbreviation building := (building l0 F c).

(** Nothing beside the packets, [original] and the link layer changes. *)
Definition calm s s' : Prop := ∃ w, set_original ∅ (rest (al s')) = set_link w (set_original ∅ (rest (al s))).

Lemma quiet_calm s s' : quiet s s' → calm s s' ∧ log s' = log s.
Proof.
  unfold quiet, calm, log. intros Hq. split; [exists (link (al s)); by rewrite Hq|]. unfold rest, set_original in Hq. cbn in Hq. by injection Hq as _ _ _ _ ->.
Qed.

Lemma calm_trans s1 s2 s3 : calm s1 s2 → calm s2 s3 → calm s1 s3.
Proof. intros [w1 H1'] [w2 H2']. exists w2. by rewrite H2', H1'. Qed.

Lemma calm_net s s' : calm s s' → net (al s') = net (al s).
Proof. intros [w Hw]. unfold rest, set_original, set_link in Hw. cbn in Hw. by injection Hw as -> _ _ _ _. Qed.

Lemma l0_part : l0 ⊆ l0 ++ F.
Proof. intros x Hx. apply elem_of_app. by left. Qed.

(** The payloads of the packet and of the others are not in the new block. *)
Lemma block_apart m O s L r n a k : core m O s L → L !! r = Some (SrcHeap n) → r ∉ (l0 ++ F).*1 →
  r ≤ a → a + k ≤ r + n → 0 < k → away a k (l0 ++ F).
Proof.
  intros Hcore HL Hr Ha Hk Hk0. eapply (block_away s L (l0 ++ F) r n); try done; [apply Hcore|apply Hcore|by eapply core_blocks].
Qed.

(** A change of memory elsewhere. *)
Lemma core_dat m O s L d : core m O s L → keeps (l0 ++ F) (dat s) d → core m O (set_dat d s) L.
Proof.
  intros Hcore Hk. eapply core_frame; [exact Hcore|apply Hcore| |done|].
  - intros i Hi. apply Hk. by apply (co_mapped _ _ _ _ _ _ _ Hcore).
  - cbn [set_dat dat]. rewrite (keeps_content (l0 ++ F) (dat s) d l0 Hk); [apply Hcore|apply l0_part|apply Hpe].
Qed.

Lemma building_dat m O s L r rq R d : building m O s L r rq R → keeps (l0 ++ F) (dat s) d → building m O (set_dat d s) L r rq R.
Proof.
  intros [Hcore Hch Hl Hblk Hcu Hr1 Hnew Hmi HO] Hk. split; try done; [by apply core_dat|]. by eapply mirrors_ext.
Qed.

(** The data a mirror shows. *)
Lemma mirrors_content s L R O d d' : Forall2 (mirror l0 F s L) R O → keeps l0 d d' → content d' R = content d R.
Proof.
  induction 1 as [|[a q] o R O [_ _ _ _ _ (b & Hb & H1' & H2' & H3')] _ IH]; intros Hk; [done|]. cbn [content fst snd] in *. rewrite IH by done.
  destruct Hk as [Hk _]. f_equal. apply mread_ext. intros i Hi. replace i with (payload b + (i - payload b)) by lia.
  apply (Hk (o, b)); [done|]. simpl. lia.
Qed.

(** ** The beginning of a fragment *)

Lemma frag_start_ok m s L h hdr : core m [] s L → mread (dat s) h 20 = Some hdr →
  ∃ x s' L', frag_start h s = Ok (x, s') ∧ quiet s s' ∧ keeps (l0 ++ F) (dat s) (dat s') ∧
    match x with
    | None => core m [] s' L'
    | Some (r, hd) => ∃ rq, building m [] s' L' r rq [] ∧ payload rq = hd ∧ len rq = 20 ∧ mread (dat s') hd 20 = Some hdr ∧ away hd 20 (l0 ++ F)
    end.
Proof.
  intros Hcore Hh. unfold frag_start.
  destruct (alloc_ram_ok (H0 := ip_laws (eq (rest (al s)))) s L PBUF_LINK IP_HLEN) as (x & s1 & Hrun & Hd & Hx).
  { apply pstate_ok_inv. split; [apply Hcore|done]. } { by compute. } { by compute. }
  rewrite Hrun. cbn [mbind res_bind]. destruct x as [r|].
  - destruct Hx as (n & q & [Hok Hrest]%pstate_ok_inv & Hfresh & Hpb & Hp1 & Hp2 & _ & Hnx & Hlq & Htq & Hrq & Hnone).
    change IP_HLEN with 20 in *. change SIZEOF_STRUCT_PBUF with 16 in *. change PBUF_LINK with 14 in *.
    assert (Hrn : r ∉ (l0 ++ F).*1).
    { intros (x & -> & Hx)%list_elem_of_fmap. pose proof (core_blocks _ _ _ _ _ _ _ Hcore) as Hb. rewrite Forall_forall in Hb.
      destruct (Hb _ Hx) as [y Hy]. congruence. }
    assert (HL1 : <[r := SrcHeap n]> L !! r = Some (SrcHeap n)) by apply lookup_insert_eq.
    assert (Hcore1 : core m [] s1 (<[r := SrcHeap n]> L)).
    { eapply core_frame; [exact Hcore|done|rewrite Hd; apply Hcore| |rewrite Hd; apply Hcore].
      intros e He. assert (e ≠ r) by (intros ->; done). rewrite Hpb, !lookup_insert_ne by done. done. }
    rewrite (getp_some r q) by (rewrite Hpb; apply lookup_insert_eq). cbn [mbind res_bind]. rewrite Hlq. cbn [Z.leb Z.compare Pos.compare Pos.compare_cont LWIP_ASSERT mbind res_bind].
    assert (Hmap : mapped (dat s1) (payload q) 20).
    { intros i Hi. apply (co_mapped _ _ _ _ _ _ _ Hcore1). destruct Hok as [Hal _]. eapply (al_inside _ _ r (SrcHeap n)); [exact (proj1 Hal)|done|done|]. cbn [src_size]. lia. }
    rewrite (memcpy_ok _ _ _ _ hdr) by (done || by rewrite Hd). cbn [mbind res_bind].
    assert (Haw : away (payload q) 20 (l0 ++ F)) by (eapply (block_apart m [] s1); [done|exact HL1|done|lia|lia|lia]).
    assert (Hz : zlen hdr = 20) by (apply mread_length in Hh; unfold zlen; lia).
    assert (Hk : keeps (l0 ++ F) (dat s1) (mwrite (dat s1) (payload q) hdr)) by (apply keeps_mwrite; by rewrite Hz).
    eexists _, _, (<[r := SrcHeap n]> L). split; [done|]. split; [apply quiet_rest; symmetry; exact Hrest|]. split; [by rewrite <-Hd|]. exists q. split_and!; try done.
    + apply building_dat; [|done]. split; try done.
      * split_and!; [done|rewrite Hpb; apply lookup_insert_eq|done].
      * simpl. split_and!; try done; lia.
      * by exists n.
      * destruct Hok as [_ Hp]. destruct (Hp r q) as (x & Hx & Hs); [rewrite Hpb; apply lookup_insert_eq|]. rewrite HL1 in Hx. injection Hx as <-. apply Hs.
      * apply NoDup_nil_2.
    + cbn [set_dat dat]. replace 20%nat with (length hdr) by (unfold zlen in Hz; lia). apply mread_mwrite_same.
  - destruct Hx as [[Hok Hrest]%pstate_ok_inv Hpb]. eexists None, s1, L. split; [done|]. split; [apply quiet_rest; symmetry; exact Hrest|]. rewrite Hd. split; [done|].
    eapply core_frame; [exact Hcore|done|rewrite Hd; apply Hcore|by rewrite Hpb|rewrite Hd; apply Hcore].
Qed.

(** ** The end of a fragment *)

Lemma frag_header_ok s hd hdr mtu left ofo fs mf : mread (dat s) hd 20 = Some hdr → away hd 20 (l0 ++ F) →
  ∃ d, frag_header hd mtu left ofo fs mf s = Ok (set_dat d s) ∧ keeps (l0 ++ F) (dat s) d ∧
    mread d hd 20 = Some (frag_hdr hdr (frag_offset mtu left ofo mf) (u16 (fs + IP_HLEN))).
Proof.
  intros Hh Haw. unfold frag_header. fold (frag_offset mtu left ofo mf).
  destruct (pst_ok s hd 20 hdr 6 (word16 (lwip_htons (frag_offset mtu left ofo mf))) (l0 ++ F)) as (d1 & -> & Hm1 & Hk1); try done.
  cbn [mbind res_bind].
  destruct (pst_ok (set_dat d1 s) hd 20 _ 2 (word16 (lwip_htons (u16 (fs + IP_HLEN)))) (l0 ++ F) Hm1) as (d2 & -> & Hm2 & Hk2); try done.
  cbn [mbind res_bind].
  destruct (pst_ok (set_dat d2 (set_dat d1 s)) hd 20 _ 10 (word16 0) (l0 ++ F) Hm2) as (d3 & -> & Hm3 & Hk3); try done.
  exists d3. rewrite !set_dat_twice. split_and!; [done| |exact Hm3]. cbn [set_dat dat] in *. eauto.
Qed.

(** The structs of the packet and of the others are still there after netif->output. *)
Lemma handed_core m O s s' L L' r rq : core m O s L → handed s s' L L' r rq → r ∉ (l0 ++ F).*1 →
  core m O s' L' ∧ keeps (l0 ++ F) (dat s) (dat s').
Proof.
  intros Hcore Hh Hr. assert (Hin : ∀ x, x ∈ l0 ++ F → ∃ y, pb s !! x.1 = Some y ∧ payload y = payload x.2 ∧ len y = len x.2).
  { intros x [Hx|Hx]%elem_of_app.
    - destruct (core_in _ _ _ _ _ _ _ _ Hcore Hx) as (r0 & Hy & _). by exists (with_ref r0 x.2).
    - pose proof (co_others _ _ _ _ _ _ _ Hcore) as Ho. rewrite Forall_forall in Ho. exists x.2. split; [by apply Ho|done]. }
  assert (Hk : keeps (l0 ++ F) (dat s) (dat s')).
  { split; [|intros i; by eapply ho_mapped]. intros x i Hx Hi. destruct (Hin x Hx) as (y & Hy & Hp & Hl). rewrite <-Hp.
    eapply ho_data; [done|exact Hy|lia]. }
  split; [|done]. eapply core_frame; [exact Hcore|by eapply ho_ok| | |].
  - intros i Hi. eapply ho_mapped; [done|]. by apply (co_mapped _ _ _ _ _ _ _ Hcore).
  - intros e He. assert (e ≠ r) by (intros ->; done). apply list_elem_of_fmap in He as (x & -> & Hx). destruct (Hin x Hx) as (y & Hy & _).
    split; [rewrite Hy; by eapply ho_others|]. pose proof (core_blocks _ _ _ _ _ _ _ Hcore) as Hb. rewrite Forall_forall in Hb.
    destruct (Hb _ Hx) as [z Hz]. rewrite Hz. eapply lookup_weaken; [exact Hz|by eapply ho_blocks].
  - rewrite (keeps_content (l0 ++ F) (dat s) (dat s') l0 Hk); [apply Hcore|apply l0_part|apply Hpe].
Qed.

Lemma frag_output_ok m O s L r rq R n dest bytes : m ≤ 254 → building m O s L r rq R → content (dat s) ((r, rq) :: R) = Some bytes →
  is_Some (ifs (net (al s)) !! n) →
  ∃ e s1 k s2 L', netif_output n r dest s = Ok (e, s1) ∧ frag_free (Some r) s1 = Ok (k, s2) ∧ core (m + 1) [] s2 L' ∧ calm s s2 ∧
    log s2 = log s ++ [(n, dest, bytes)] ∧ keeps (l0 ++ F) (dat s) (dat s2).
Proof.
  intros Hm [Hcore Hch Hl [nn Hblk] Hcu Hr1 Hnew Hmi HO] Hc Hn. pose proof (chain_NoDup _ _ _ Hch) as Hnd. rewrite fmap_cons in Hnd.
  apply NoDup_cons in Hnd as [Hnd _]. cbn [fst] in Hnd.
  destruct (output_law s L n dest r rq R bytes) as (e & s1 & L1 & w & Hrun & Hh & Hrest & Hlog); try done; [apply Hcore|apply Hcore|].
  destruct (handed_core _ _ _ _ _ _ _ _ Hcore Hh Hnew) as [Hcore1 Hk1]. destruct (ho_head _ _ _ _ _ _ Hh) as (k & r' & Hpb & Hk & Hr').
  assert (Hlog1 : log s1 = log s ++ [(n, dest, bytes)]).
  { unfold log. rewrite <-Hlog. unfold rest in Hrest. by injection Hrest as _ _ _ _ _ ->. }
  assert (Hcalm1 : calm s s1) by (exists w; by rewrite Hrest).
  assert (Hfin : ∃ k s2 L', frag_free (Some r) s1 = Ok (k, s2) ∧ core (m + 1) [] s2 L' ∧ dat s2 = dat s1 ∧ quiet s1 s2).
  { destruct (decide (r' = 2)) as [->|Hne].
    - destruct (frag_free_lent l0 F c m O s1 L1 r _ Hcore1 Hpb eq_refl Hnew) as (k2 & s2 & ? & ? & ? & ?). by exists k2, s2, L1.
    - assert (r' = 1) as -> by lia.
      destruct (frag_free_ok p l0 F c Hpe m O s1 L1 r (with_ref 1 (grown k rq)) R nn) as (k2 & s2 & L2 & ? & Hc2 & ? & ?); try done.
      + split_and!; [done|done|]. destruct Hch as (_ & _ & Hch). eapply chain_frame; [|exact Hch]. intros x Hx.
        apply list_elem_of_fmap in Hx as ([b q] & -> & Hx). pose proof (chain_lookup _ _ _ _ _ Hch Hx) as Hbq. cbn [fst]. rewrite Hbq.
        eapply ho_others; [done| |done]. intros ->. apply Hnd. by apply (list_elem_of_fmap_2 fst R (r, q)).
      + eapply lookup_weaken; [exact Hblk|by eapply ho_blocks].
      + eapply mirrors_ext; [exact Hmi|]. intros x Hx. apply list_elem_of_lookup in Hx as [i Hi].
        destruct (Forall2_lookup_l _ _ _ _ _ Hmi Hi) as (o & _ & Hmo). pose proof (mi_block _ _ _ _ _ _ Hmo) as Hb. rewrite Hb. split.
        * eapply lookup_weaken; [exact Hb|by eapply ho_blocks].
        * unfold rest, set_link in Hrest. cbn in Hrest. by injection Hrest as _ _ _ -> _ _.
      + exists k2, s2, L2. split_and!; try done. eapply core_mono; [|exact Hc2]. lia. }
  destruct Hfin as (k2 & s2 & L2 & Hfree & Hc2 & Hd2 & Hq2). destruct (quiet_calm _ _ Hq2) as [Hcalm2 Hlog2].
  exists e, s1, k2, s2, L2. split_and!; try done; [by eapply calm_trans|congruence|by rewrite Hd2].
Qed.

(** ** One round *)

Lemma frag_round_ok m s L h hdr n dest mtu mf pre a b post off nl left ofo fs : m ≤ 254 → core m [] s L → mread (dat s) h 20 = Some hdr →
  is_Some (ifs (net (al s)) !! n) → l0 = pre ++ (a, b) :: post → 0 ≤ off ≤ len b → 0 < fs ≤ 65515 → bytes_in pre + off + fs ≤ bytes_in l0 →
  ∃ x s' L', frag_round n dest mtu h mf (Some a) off nl left ofo fs s = Ok (x, s') ∧ calm s s' ∧ keeps (l0 ++ F) (dat s) (dat s') ∧
    match x with
    | None => log s' = log s ∧ core m [] s' L'
    | Some (p', off', _) =>
        log s' = log s ++ [(n, dest, frag_hdr hdr (frag_offset mtu left ofo mf) (fs + IP_HLEN) ++ slice (bytes_in pre + off) fs c)] ∧ core (m + 1) [] s' L' ∧
        ∃ pre' a' b' post', p' = Some a' ∧ l0 = pre' ++ (a', b') :: post' ∧ 0 ≤ off' ≤ len b' ∧ bytes_in pre' + off' = bytes_in pre + off + fs
    end.
Proof.
  intros Hm Hcore Hh Hn Hl0 Hoff Hfs Hend. unfold frag_round.
  destruct (frag_start_ok m s L h hdr Hcore Hh) as (x & s1 & L1 & -> & Hq1 & Hk1 & Hx). cbn [mbind res_bind].
  destruct (quiet_calm _ _ Hq1) as [Hcalm1 Hlog1]. destruct x as [[r hd]|]; [|exists None, s1, L1; split_and!; done].
  destruct Hx as (rq & Hbu & Hhd & Hlen & Hm1 & Haw). pose proof (chain_fuel_enough _ _ _ (bu_chain _ _ _ _ _ _ _ _ _ _ Hbu)) as _.
  assert (Hfuel : (length post < chain_fuel s1)%nat).
  { destruct (refd_chain (m + 0) s1 l0 (Some p)) as (l' & Hc & Hf & _); [apply Hpe| |].
    - eapply Forall_impl; [apply (co_refs _ _ _ _ _ _ _ (bu_core _ _ _ _ _ _ _ _ _ _ Hbu))|]. intros y (r0 & Hy & Hr0). exists r0. split; [done|].
      rewrite (pend_out y.1 []) in Hr0 by apply not_elem_of_nil. lia.
    - apply chain_fuel_enough in Hc. rewrite <-(length_fmap fst l'), Hf, length_fmap, Hl0, length_app in Hc. simpl in Hc. lia. }
  assert (Hp0 : 0 ≤ bytes_in pre) by (eapply (bytes_in_prefix pre ((a, b) :: post)); rewrite <-Hl0; apply Hpe).
  destruct (fill_ok p l0 F c Hpe m Hm (chain_fuel s1) post pre a b off fs nl s1 L1 r rq [] [] (bytes_in pre + off)) as (x & s2 & L2 & -> & Hd2 & Hq2 & Hx); try done; try lia.
  { intros o Ho. by apply not_elem_of_nil in Ho. } { simpl. lia. } { simpl. f_equal. rewrite Z.sub_diag. unfold slice. by rewrite take_0. }
  cbn [mbind res_bind]. destruct (quiet_calm _ _ Hq2) as [Hcalm2 Hlog2]. pose proof (calm_trans _ _ _ Hcalm1 Hcalm2) as Hcalm12.
  destruct x as [[[p' off'] nl']|].
  2: { exists None, s2, L2. rewrite Hd2. split_and!; try done. congruence. }
  destruct Hx as (pre' & a' & b' & post' & rq' & R & O & Hp' & Hl0' & Ho1 & Ho2 & Ho3 & Hpos & Hbu2 & Hpay & Hlen' & Hcont). cbn [fst snd] in *.
  destruct (frag_header_ok s2 hd hdr mtu left ofo fs mf) as (d & -> & Hk3 & Hm3); [by rewrite Hd2|done|]. cbn [mbind res_bind].
  rewrite u16_id in Hm3 by (change IP_HLEN with 20; ulia).
  assert (Hbytes : content d ((r, rq') :: R) = Some (frag_hdr hdr (frag_offset mtu left ofo mf) (fs + IP_HLEN) ++ slice (bytes_in pre + off) fs c)).
  { cbn [content]. rewrite Hpay, Hlen', Hhd, Hlen. change (Z.to_nat 20) with 20%nat. rewrite Hm3. cbn [mbind option_bind].
    rewrite (mirrors_content s2 L2 R O (dat s2) d); [|apply Hbu2|eapply keeps_sub; [|exact Hk3]; apply l0_part]. rewrite Hcont. cbn [mbind option_bind]. do 3 f_equal. lia. }
  destruct (frag_output_ok m O (set_dat d s2) L2 r rq' R n dest _ Hm (building_dat _ _ _ _ _ _ _ _ Hbu2 Hk3) Hbytes) as (e & s3 & k & s4 & L4 & -> & Hfree & Hcore4 & Hcalm4 & Hlog4 & Hk4); [cbn [set_dat al]; by rewrite (calm_net _ _ Hcalm12)|].
  cbn [mbind res_bind]. rewrite Hfree. cbn [mbind res_bind].
  assert (Hlb : len b' ≤ 65535).
  { pose proof (pe_lens _ _ _ Hpe) as Hl. rewrite Hl0' in Hl. apply lens_ok_app in Hl as (_ & ? & ? & Hl). apply lens_ok_range in Hl. lia. }
  eexists _, s4, L4. split; [done|]. split; [by eapply calm_trans|]. split; [|split; [|split; [done|]]].
  - eapply keeps_trans; [exact Hk1|]. rewrite <-Hd2. eapply keeps_trans; [exact Hk3|exact Hk4].
  - rewrite Hlog4. change (log (set_dat d s2)) with (log s2). by rewrite Hlog2, Hlog1.
  - exists pre', a', b', post'. rewrite u16_id by ulia. split_and!; try done; lia.
Qed.

(** ** All rounds *)

(** The header of the packet stays where it is. *)
Lemma header_stays b l h d d' : l0 = (p, b) :: l → h = payload b → 20 ≤ len b → keeps (l0 ++ F) d d' → mread d' h 20 = mread d h 20.
Proof.
  intros -> -> Hb Hk. rewrite <-(Z.add_0_r (payload b)). eapply (keeps_mread _ _ _ p b Hk); [by left|lia|lia].
Qed.

Lemma frag_loop_ok n dest mtu nfb h hdr mf b0 l1 : l0 = (p, b0) :: l1 → h = payload b0 → 20 ≤ len b0 → zlen c = bytes_in l0 → 1 ≤ nfb → nfb * 8 ≤ 65515 →
  ∀ fuel left ofo m pre a b post off nl s L, core m [] s L → mread (dat s) h 20 = Some hdr → is_Some (ifs (net (al s)) !! n) →
  0 ≤ left ≤ 65515 → (Z.to_nat left < fuel)%nat → l0 = pre ++ (a, b) :: post → 0 ≤ off ≤ len b → bytes_in pre + off = bytes_in l0 - left →
  let frs := fragments fuel hdr c mtu nfb mf left ofo in m + zlen frs ≤ 255 →
  ∃ e s' L' k, frag_loop fuel n dest mtu nfb h mf (Some a) off nl left ofo s = Ok (e, s') ∧ core (m + Z.of_nat k) [] s' L' ∧ calm s s' ∧
    keeps (l0 ++ F) (dat s) (dat s') ∧ log s' = log s ++ ((λ x, (n, dest, x)) <$> take k frs) ∧
    (e = ERR_OK ∧ k = length frs ∨ e = ERR_MEM ∧ (k < length frs)%nat).
Proof.
  intros Hl0 Hh Hb0 Hzc Hnfb Hnfb2 fuel. induction fuel as [|fuel IH]; intros left ofo m pre a b post off nl s L Hcore Hm Hn Hleft Hfuel Hsplit Hoff Hpos frs Hlen; [lia|].
  subst frs. cbn [frag_loop fragments] in *. destruct (left =? 0) eqn:E; breflect.
  - exists ERR_OK, s, L, O. rewrite Z.add_0_r, app_nil_r. split_and!; try done; [by exists (link (al s))|by left].
  - rewrite (u16_id (nfb * 8)) by ulia. set (fs := Z.min left (nfb * 8)) in *.
    rewrite zlen_cons in Hlen. match type of Hlen with context [zlen ?f] => pose proof (zlen_nonneg f) end.
    destruct (frag_round_ok m s L h hdr n dest mtu mf pre a b post off nl left ofo fs) as (x & s1 & L1 & -> & Hcalm & Hk & Hx); try done; try lia.
    cbn [mbind res_bind]. destruct x as [[[p' off'] nl']|].
    + destruct Hx as (Hlog & Hcore1 & pre' & a' & b' & post' & -> & Hsplit' & Hoff' & Hpos'). rewrite (u16_id (left - fs)) by ulia.
      destruct (IH (left - fs) (u16 (ofo + nfb)) (m + 1) pre' a' b' post' off' nl' s1 L1) as (e & s' & L' & k & -> & Hcore' & Hcalm' & Hk' & Hlog' & Hres); try done; try lia.
      * by rewrite (header_stays b0 l1 h (dat s) (dat s1)).
      * by rewrite (calm_net _ _ Hcalm).
      * exists e, s', L', (S k). split; [done|]. split; [by replace (m + Z.of_nat (S k)) with (m + 1 + Z.of_nat k) by lia|].
        split; [by eapply calm_trans|]. split; [by eapply keeps_trans|]. split.
        -- rewrite Hlog', Hlog, firstn_cons, fmap_cons, <-app_assoc. cbn [app]. do 5 f_equal. rewrite Hpos. by rewrite Hzc.
        -- cbn [length]. destruct Hres as [[-> ->]|[-> ?]]; [by left|right; split; [done|lia]].
    + destruct Hx as [Hlog Hcore1]. exists ERR_MEM, s1, L1, O. rewrite Z.add_0_r. split_and!; try done; [by rewrite Hlog, app_nil_r|].
      right. split; [done|]. cbn [length]. lia.
Qed.

End send.

(** ** ip4_frag *)

Section ip4_frag.
Context {A P N W : Type} `{LinkLaws A P N W}.
Abbreviation st := (pstate (ipmem A P N W)).
Implicit Types (s : st).

(** What a packet of the IP layer needs to be cut. *)
Record cuttable (mtu : Z) (b : pbuf) (c : list Z) : Prop := {
  cu_mtu : 28 ≤ mtu ≤ 65535;
  cu_len : 20 ≤ len b;
  cu_hdr : IPH_HL_BYTES (take 20 c) = IP_HLEN;
  cu_count : zlen (fragments_of mtu c) ≤ 254
}.

Lemma excl_env s p b l F : excl s (((p, b) :: l) ++ F) → linked (Some p) ((p, b) :: l) → lens_ok ((p, b) :: l) →
  packet_env p ((p, b) :: l) F.
Proof.
  intros Hx Hl Hlen. pose proof Hx as (_ & Hnd & _ & Hf & _). pose proof (excl_app_r _ _ _ Hx) as (_ & _ & Hs & _ & _).
  apply Forall_app in Hf as [_ Hf]. split; try done. eapply Forall_impl; [exact Hf|]. by intros x [_ ?].
Qed.

Lemma excl_core s p b l F c : excl s (((p, b) :: l) ++ F) → content (dat s) ((p, b) :: l) = Some c →
  ∃ L, core ((p, b) :: l) F c 1 [] s L.
Proof.
  intros ((L & HL & Hp) & _ & _ & Hf & Hm) Hc. exists L. apply Forall_app in Hf as [Hf1 Hf2]. split; try done.
  - eapply Forall_impl; [exact Hf1|]. intros [a q] [Ha Hr]. exists 1. cbn [fst snd] in *. split; [|rewrite (pend_out a []) by apply not_elem_of_nil; lia].
    rewrite Ha. f_equal. destruct q. simpl in *. by subst.
  - eapply Forall_impl; [exact Hf2|]. by intros x [? _].
Qed.

Lemma core_held s p l0 F c m L : packet_env p l0 F → core l0 F c m [] s L → m ≤ 255 → held s p l0 F.
Proof.
  intros Hpe Hcore Hm. split; [apply Hpe|]. split; [|split].
  - eapply Forall_impl; [apply (co_refs _ _ _ _ _ _ _ Hcore)|]. intros x (r & Hx & Hr). exists r. split; [done|].
    rewrite (pend_out x.1 []) in Hr by apply not_elem_of_nil. lia.
  - pose proof (pe_dup _ _ _ Hpe) as Hd. rewrite fmap_app in Hd. apply NoDup_app in Hd as (_ & Hd & _). done.
  - pose proof (pe_dup _ _ _ Hpe) as Hd. rewrite fmap_app in Hd. apply NoDup_app in Hd as (_ & _ & Hd).
    pose proof (co_placed _ _ _ _ _ _ _ Hcore) as [_ Hp]%Forall_app. split_and!; [exists L; split; [apply Hcore|done]|done|apply Hpe| |apply Hcore].
    pose proof (co_others _ _ _ _ _ _ _ Hcore) as Ho. pose proof (pe_refs _ _ _ Hpe) as Hr. rewrite Forall_forall in *. intros x Hx. split; [by apply Ho|by apply Hr].
Qed.

Lemma content_head d p b l c : lens_ok ((p, b) :: l) → content d ((p, b) :: l) = Some c → 20 ≤ len b → mread d (payload b) 20 = Some (take 20 c).
Proof.
  intros Hl Hc Hb. pose proof (content_slice d [] p b l c 0 20 Hl Hc) as Hs. rewrite Z.add_0_r in Hs. change (Z.to_nat 20) with 20%nat in Hs.
  rewrite Hs by lia. reflexivity.
Qed.

Lemma ip4_frag_ok s n i dest p b l F c : excl s (((p, b) :: l) ++ F) → linked (Some p) ((p, b) :: l) → lens_ok ((p, b) :: l) →
  content (dat s) ((p, b) :: l) = Some c → ifs (net (al s)) !! n = Some i → cuttable (mtu i) b c →
  ∃ e s' k, ip4_frag p n dest s = Ok (e, s') ∧ held s' p ((p, b) :: l) F ∧ calm s s' ∧ keeps (((p, b) :: l) ++ F) (dat s) (dat s') ∧
    log s' = log s ++ ((λ x, (n, dest, x)) <$> take k (fragments_of (mtu i) c)) ∧
    (e = ERR_OK ∧ k = length (fragments_of (mtu i) c) ∨ e = ERR_MEM ∧ (k < length (fragments_of (mtu i) c))%nat).
Proof.
  intros Hx Hl Hlen Hc Hi [Hmtu Hb Hhl Hcount]. pose proof (excl_env _ _ _ _ _ Hx Hl Hlen) as Hpe.
  destruct (excl_core _ _ _ _ _ _ Hx Hc) as (L & Hcore). pose proof (content_head _ _ _ _ _ Hlen Hc Hb) as Hh.
  pose proof (content_length _ _ _ Hlen Hc) as Hz. pose proof (lens_ok_range _ Hlen) as Hrange.
  destruct (excl_get _ _ p b Hx) as [Hpb _]; [by left|]. unfold ip4_frag, getn. rewrite Hi. cbn [deref mbind res_bind].
  rewrite (getp_some _ _ _ Hpb). cbn [mbind res_bind]. unfold ld_hdr. rewrite Hh. cbn [deref mbind res_bind]. rewrite Hhl, Z.eqb_refl. cbn [negb].
  change IP_HLEN with 20 in *. replace (20 <=? len b) with true by lia. cbn [LWIP_ASSERT mbind res_bind].
  assert (Htot : tot_len b = zlen c) by (simpl in Hlen, Hz; lia). rewrite Htot.
  assert (Hz20 : 20 ≤ zlen c) by (destruct Hlen as (_ & _ & _ & Hl2); apply lens_ok_range in Hl2; simpl in Hz; lia).
  rewrite (u16_id (zlen c - 20)) by ulia. rewrite Z.quot_div_nonneg by lia. rewrite (u16_id ((mtu i - 20) / 8)) by (unfold is_u16; zlia).
  destruct (frag_loop_ok p ((p, b) :: l) F c Hpe n dest (mtu i) ((mtu i - 20) / 8) (payload b) (take 20 c)
      (Z.land (lwip_htons (IPH_OFFSET (take 20 c))) IP_MF) b l eq_refl eq_refl Hb Hz) with (fuel := S (Z.to_nat (zlen c - 20)))
      (left := zlen c - 20) (ofo := Z.land (lwip_htons (IPH_OFFSET (take 20 c))) IP_OFFMASK) (m := 1) (pre := @nil (Z * pbuf)) (a := p) (b := b)
      (post := l) (off := 20) (nl := 0) (s := s) (L := L) as (e & s' & L' & k & Hrun & Hcore' & Hcalm & Hk & Hlog & Hres); try done; try lia; try zlia.
  - cbn [bytes_in]. simpl in Hz. lia.
  - change (1 + zlen (fragments_of (mtu i) c) ≤ 255). lia.
  - exists e, s', k. split; [exact Hrun|]. split; [|by split_and!]. eapply core_held; [done|exact Hcore'|].
    change (e = ERR_OK ∧ k = length (fragments_of (mtu i) c) ∨ e = ERR_MEM ∧ (k < length (fragments_of (mtu i) c))%nat) in Hres. unfold zlen in Hcount. destruct Hres as [[_ ->]|[_ ?]]; lia.
Qed.

End ip4_frag.
