(* ===== verification/Ip4FragTrip.v ===== *)
(** * IPv4 fragmentation and reassembly

    The fragments ip4_frag makes of a datagram, put together again by ip4_reass. *)

From S2P Require Import Prelude ByteMem Def MempFacts MempPool Pbuf PbufFacts PbufData PbufLife PbufChain PbufOwn.
From S2P Require Import Ip4Frag Ip4FragFacts Ip4FragQueue Ip4FragState Ip4FragReass Ip4FragRuns Ip4FragOrder Iface Ip4 Ip4Facts Ip4FragOut Ip4FragSend.

Implicit Types (hdr : ip_hdr) (cs : list (frag * ip_hdr)).

(** ** Headers of fragments *)

Lemma land_32 v : Z.land v 32 = 32 * (v / 32 mod 2).
Proof.
  assert (Hr : 32 * (v / 32 mod 2) = Z.shiftl (Z.land (Z.shiftr v 5) (Z.ones 1)) 5).
  { rewrite Z.land_ones, Z.shiftr_div_pow2, Z.shiftl_mul_pow2 by lia. change (2 ^ 5) with 32. change (2 ^ 1) with 2. lia. }
  rewrite Hr. change 32 with (Z.shiftl (Z.ones 1) 5). apply Z.bits_inj'. intros i Hi.
  rewrite Z.land_spec, !Z.shiftl_spec, Z.land_spec by lia. destruct (decide (i < 5)).
  - rewrite !(Z.testbit_neg_r _ (i - 5)) by lia. by rewrite !andb_false_r.
  - rewrite Z.shiftr_spec by lia. by replace (i - 5 + 5) with i by lia.
Qed.

(** A header in memory has 20 bytes. *)
Ltac bytes20 hdr Hz :=
  do 20 (destruct hdr as [|? hdr]; [exfalso; cbv in Hz; congruence|]);
  destruct hdr as [|? hdr]; [|exfalso; unfold zlen in Hz; cbn [length] in Hz; lia].

Lemma frag_hdr_fields hdr off len : zlen hdr = 20 → is_u16 off →
  zlen (frag_hdr hdr off len) = 20 ∧ IPH_OFFSET (frag_hdr hdr off len) = lwip_htons off ∧ key (frag_hdr hdr off len) = key hdr ∧
  IPH_HL_BYTES (frag_hdr hdr off len) = IPH_HL_BYTES hdr ∧ ∀ d, final_hdr (frag_hdr hdr off len) d = final_hdr hdr d.
Proof.
  intros Hz Hoff. bytes20 hdr Hz. split_and!; try done. transitivity (rd16 (word16 (lwip_htons off)) 0); [done|].
  apply rd16_word16. unfold lwip_htons, PP_HTONS. apply u16_range.
Qed.

Lemma last_frag_bit hdr off : is_u16 off → IPH_OFFSET hdr = lwip_htons off → is_last_frag hdr = (off / 8192 mod 2 =? 0).
Proof.
  intros Ho Hx. unfold is_last_frag. rewrite Hx. change (PP_HTONS IP_MF) with 32. rewrite land_32. unfold lwip_htons.
  rewrite PP_HTONS_eq by done. destruct (off / 8192 mod 2 =? 0) eqn:E; breflect; [apply Z.eqb_eq|apply Z.eqb_neq]; ulia.
Qed.

(** The field for flags and offset of a fragment of a complete datagram. *)
Lemma frag_offset_eq mtu left ofo : 0 ≤ ofo < 8192 →
  frag_offset mtu left ofo 0 = ofo + (if left <=? mtu - IP_HLEN then 0 else 8192).
Proof.
  intros Ho. unfold frag_offset, IP_OFFMASK, IP_MF. rewrite Z.land_comm, (land_ones_mod ofo 13) by done. change (2 ^ 13) with 8192.
  rewrite Z.mod_small by lia. destruct (left <=? mtu - IP_HLEN); cbn [negb orb Z.eqb]; [lia|].
  rewrite Z.lor_comm. change 8192 with (1 * 2 ^ 13). rewrite lor_add_disjoint by lia. lia.
Qed.

Lemma frag_hdr_ok hdr mtu left ofo n : zlen hdr = 20 → 0 ≤ ofo < 8192 → let h := frag_hdr hdr (frag_offset mtu left ofo 0) n in
  zlen h = 20 ∧ IPH_OFFSET_BYTES h = 8 * ofo ∧ key h = key hdr ∧ IPH_HL_BYTES h = IPH_HL_BYTES hdr ∧
  is_last_frag h = (left <=? mtu - IP_HLEN) ∧ ∀ d, final_hdr h d = final_hdr hdr d.
Proof.
  intros Hz Ho h. assert (Hu : is_u16 (frag_offset mtu left ofo 0)) by (rewrite frag_offset_eq by done; destruct (_ <=? _); ulia).
  destruct (frag_hdr_fields hdr (frag_offset mtu left ofo 0) n Hz Hu) as (Hz' & Hoff & Hk & Hhl & Hf). fold h in Hz', Hoff, Hk, Hhl, Hf.
  split_and!; try done.
  - unfold IPH_OFFSET_BYTES. rewrite Hoff, htons_htons by done. unfold IP_OFFMASK. rewrite (land_ones_mod _ 13) by done.
    rewrite frag_offset_eq by done. change (2 ^ 13) with 8192. destruct (_ <=? _); ulia.
  - rewrite (last_frag_bit h _ Hu Hoff), frag_offset_eq by done. destruct (left <=? mtu - IP_HLEN); [apply Z.eqb_eq|apply Z.eqb_neq]; zlia.
Qed.

(** ** Whether ip4_frag marks the last fragment

    ip4_frag takes a fragment for the last one when the rest fits into the MTU, but the data
    of a fragment is at most [unit mtu] bytes long, the largest multiple of 8 that fits. *)

Definition unit (mtu : Z) : Z := (mtu - IP_HLEN) / 8 * 8.

(** No rest on the way is between the two. *)
Definition marked (mtu left : Z) : bool :=
  (left <=? unit mtu) || (left mod unit mtu =? 0) || ((mtu - IP_HLEN) mod 8 <? left mod unit mtu).

Lemma marked_step mtu left : 28 ≤ mtu → unit mtu < left → marked mtu left = true →
  mtu - IP_HLEN < left ∧ marked mtu (left - unit mtu) = true.
Proof.
  intros Hm Hl Hg. unfold marked in *. change IP_HLEN with 20 in *. set (u := unit mtu) in *.
  assert (Hu : u = (mtu - 20) / 8 * 8) by done. assert (Hu8 : 8 ≤ u) by (rewrite Hu; zlia).
  assert (Hmod : (left - u) mod u = left mod u).
  { rewrite <-(Z.mod_add (left - u) 1 u) by lia. f_equal. lia. }
  pose proof (Z.div_mod left u ltac:(lia)) as Hdm. pose proof (Z.mod_pos_bound left u ltac:(lia)) as Hmb.
  assert (Hq : 1 ≤ left / u) by (apply Z.div_le_lower_bound; lia).
  rewrite Hmod. apply orb_true_iff in Hg as [Hg|Hg]; [apply orb_true_iff in Hg as [Hg|Hg]|]; breflect.
  - lia.
  - split; [|apply orb_true_iff; left; apply orb_true_iff; right; by apply Z.eqb_eq].
    assert (Hq2 : left / u ≠ 1) by (intros E; rewrite E in Hdm; lia). assert (2 * u ≤ left) by nia. zlia.
  - split; [|apply orb_true_iff; right; by apply Z.ltb_lt]. assert (u + left mod u ≤ left) by nia. zlia.
Qed.

(** ** The fragments of a datagram are a cut *)

(** What the receiver knows about a fragment that arrives. *)
Definition frag_of (x : frag * ip_hdr) : Prop :=
  zlen x.2 = 20 ∧ f_start x.1 = IPH_OFFSET_BYTES x.2 ∧ f_end x.1 = f_start x.1 + zlen (f_data x.1).

Definition frag_bytes (x : frag * ip_hdr) : list Z := x.2 ++ f_data x.1.

Record cut_from hdr (c : list Z) (mtu left ofo : Z) cs : Prop := {
  cf_contig : contig (8 * ofo) cs.*1 = true;
  cf_data : datagram cs.*1 = slice (zlen c - left) left c;
  cf_nonempty : Forall (λ x, 0 < zlen (f_data x.1)) cs;
  cf_hdrs : Forall (λ x, key x.2 = key hdr ∧ IPH_HL_BYTES x.2 = IPH_HL_BYTES hdr ∧ ∀ d, final_hdr x.2 d = final_hdr hdr d) cs;
  cf_last : ∃ cs0 x, cs = cs0 ++ [x] ∧ Forall (λ y, is_last_frag y.2 = false) cs0 ∧ is_last_frag x.2 = true ∧ (unit mtu < left → cs0 ≠ [])
}.

Lemma fragments_cut hdr c mtu : zlen hdr = 20 → 28 ≤ mtu ≤ 65535 → ∀ k left ofo cs,
  fragments k hdr c mtu ((mtu - IP_HLEN) / 8) 0 left ofo = frag_bytes <$> cs → Forall frag_of cs → marked mtu left = true →
  0 < left ≤ zlen c - 20 → zlen c ≤ 65535 → 8 * ofo = zlen c - 20 - left → (Z.to_nat left < k)%nat → cut_from hdr c mtu left ofo cs.
Proof.
  intros Hz Hmtu k. induction k as [|k IH]; intros left ofo cs Hfr Hof Hmk Hleft Hzc Hofo Hk; [lia|]. cbn [fragments] in Hfr.
  replace (left =? 0) with false in Hfr by lia. fold (unit mtu) in Hfr. destruct cs as [|x cs]; [done|]. rewrite fmap_cons in Hfr.
  injection Hfr as Hx Hfr. apply Forall_cons in Hof as [(Hx20 & Hxs & Hxe) Hof]. change IP_HLEN with 20 in *.
  assert (Hu8 : 8 ≤ unit mtu ≤ mtu - 20) by (unfold unit; change IP_HLEN with 20; zlia).
  destruct (frag_hdr_ok hdr mtu left ofo (Z.min left (unit mtu) + 20) Hz ltac:(lia)) as (Hz1 & Hb & Hky & Hhl & Hlast & Hfin).
  change IP_HLEN with 20 in *. apply app_inj_1 in Hx as [Hx2 Hxd]; [|unfold zlen in *; lia]. rewrite Hx2 in Hz1, Hb, Hky, Hhl, Hlast, Hfin.
  assert (Hzd : zlen (f_data x.1) = Z.min left (unit mtu)) by (rewrite <-Hxd, zlen_slice; lia).
  destruct (decide (left ≤ unit mtu)) as [Hle|Hgt].
  - rewrite Z.min_l in * by lia. rewrite Z.sub_diag in Hfr. assert (cs = []) as -> by (destruct k; by destruct cs).
    split.
    + cbn [fmap list_fmap contig]. rewrite andb_true_r. apply Z.eqb_eq. by rewrite Hxs.
    + unfold datagram. cbn [fmap list_fmap concat]. by rewrite app_nil_r, Hxd.
    + constructor; [simpl; lia|constructor].
    + by constructor; [|constructor].
    + exists [], x. split_and!; [done|constructor| |lia]. rewrite Hlast. apply Z.leb_le. lia.
  - rewrite Z.min_r in * by lia. destruct (marked_step mtu left) as [Hlt Hmk']; [lia|lia|done|]. change IP_HLEN with 20 in Hlt.
    assert (Hun : 8 * ((mtu - 20) / 8) = unit mtu) by (unfold unit; change IP_HLEN with 20; lia).
    rewrite (u16_id (ofo + _)) in Hfr by ulia.
    destruct (IH (left - unit mtu) (ofo + (mtu - 20) / 8) cs) as [Hc1 Hc2 Hc3 Hc4 (cs0 & y & -> & Hc5 & Hc6 & _)]; try done; try lia.
    split.
    + rewrite fmap_cons. cbn [contig]. apply andb_true_iff. split; [apply Z.eqb_eq; by rewrite Hxs|].
      rewrite Hxe, Hxs, Hb, Hzd. rewrite <-Hc1. f_equal. lia.
    + unfold datagram in *. rewrite fmap_cons. cbn [concat fmap list_fmap]. cbn [fmap list_fmap] in Hc2. rewrite Hc2, <-Hxd.
      replace (zlen c - (left - unit mtu)) with (zlen c - left + unit mtu) by lia. rewrite slice_join by lia. f_equal. lia.
    + constructor; [simpl; lia|done].
    + by constructor.
    + exists (x :: cs0), y. split_and!; [done| |done|done]. constructor; [|done]. rewrite Hlast. apply Z.leb_gt. lia.
Qed.

(** ** Sender and receiver *)

Section trip.
Context {A P N W : Type} `{LinkLaws A P N W}.
Context {A' P' : Type} `{AllocatorLaws A'} `{!ReassEnv A'} `{!ReassEnvLaws A'} `{PoolLaws P'}.
Implicit Types (s : pstate (ipmem A P N W)) (w : rstate A' P').

(** The packet is a datagram, not a fragment of one. *)
Definition unfragmented hdr : Prop := Z.land (lwip_htons (IPH_OFFSET hdr)) (Z.lor IP_OFFMASK IP_MF) = 0.

Lemma unfragmented_parts hdr : unfragmented hdr →
  Z.land (lwip_htons (IPH_OFFSET hdr)) IP_OFFMASK = 0 ∧ Z.land (lwip_htons (IPH_OFFSET hdr)) IP_MF = 0.
Proof. unfold unfragmented. rewrite Z.land_lor_distr_r. by intros [? ?]%Z.lor_eq_0_iff. Qed.

Lemma arrives_frag_of d x : arrives d x.1 x.2 → frag_of x.
Proof. intros (_ & _ & Hm & _ & Hs & He). apply mread_length in Hm. split_and!; [unfold zlen; lia|done|done]. Qed.

(** The fragments are a cut of the datagram. *)
Lemma sent_cut mtu c cs : 28 ≤ mtu ≤ 65535 → 20 ≤ zlen c ≤ 65535 → IPH_HL_BYTES (take 20 c) = IP_HLEN → unfragmented (take 20 c) →
  marked mtu (zlen c - 20) = true → unit mtu < zlen c - 20 → fragments_of mtu c = frag_bytes <$> cs → Forall frag_of cs →
  cut (key (take 20 c)) cs ∧ datagram cs.*1 = drop 20 c ∧ ∀ d, final_hdr (first_hdr cs) d = final_hdr (take 20 c) d.
Proof.
  intros Hmtu Hz Hhl [Hu1 Hu2]%unfragmented_parts Hmk Hu Hfr Hof. unfold fragments_of in Hfr. rewrite Hu1, Hu2 in Hfr.
  assert (Hz20 : zlen (take 20 c) = 20) by (unfold zlen in *; rewrite length_take; lia).
  assert (Hu8 : 8 ≤ unit mtu) by (unfold unit; change IP_HLEN with 20; zlia).
  destruct (fragments_cut (take 20 c) c mtu Hz20 Hmtu _ _ _ _ Hfr Hof) as [Hc1 Hc2 Hc3 Hc4 (cs0 & x & Hcs & Hc5 & Hc6 & Hc7)]; try done; change IP_HLEN with 20 in *; try lia.
  assert (Hd : datagram cs.*1 = drop 20 c).
  { rewrite Hc2. unfold slice. replace (Z.to_nat (zlen c - (zlen c - 20))) with 20%nat by lia. apply take_ge. rewrite length_drop. unfold zlen. lia. }
  split; [|split; [done|]].
  - split.
    + exists cs0, x. split_and!; try done. apply Hc7. lia.
    + subst cs. destruct cs0 as [|y cs0]; [by destruct (Hc7 ltac:(lia))|]. cbn [app fmap list_fmap complete contig] in *.
      apply andb_true_iff in Hc1 as [Hy Hc1]. apply andb_true_iff. split; [|done]. apply Z.eqb_eq in Hy. apply Z.eqb_eq. lia.
    + done.
    + rewrite Hd. unfold zlen in *. rewrite length_drop. lia.
    + eapply Forall_impl; [exact Hc4|]. intros y (? & ? & _). split; [done|congruence].
  - intros d. unfold first_hdr. destruct cs as [|y cs]; [by destruct cs0|]. apply Forall_cons in Hc4 as [(_ & _ & ->) _]. done.
Qed.

(** C30: Fragmentation and reassembly are inverse.  When ip4_frag has sent a datagram of more
    than one fragment without an error, and the packets it handed to the link layer arrive,
    in whatever order and segmentation, at a host whose reassembly has room for them and
    knows no other datagram with the same addresses and identification, then ip4_reass
    returns NULL for all but the last of them and for the last one the datagram: the
    bytes of the original packet, with the length in the header set and the fields for
    the offset and the checksum cleared.  The MTU must be such that ip4_frag marks the
    last fragment correctly ([marked]). *)
Theorem ip4_frag_reass_roundtrip s s' n i dest p b l F c w Q X cs arrival :
  excl s (((p, b) :: l) ++ F) → linked (Some p) ((p, b) :: l) → lens_ok ((p, b) :: l) →
  content (dat s) ((p, b) :: l) = Some c → ifs (net (al s)) !! n = Some i → cuttable (mtu i) b c →
  unfragmented (take 20 c) → marked (mtu i) (zlen c - 20) = true → unit (mtu i) < zlen c - 20 →
  ip4_frag p n dest s = Ok (ERR_OK, s') → log s' = log s ++ ((λ x, (n, dest, frag_bytes x)) <$> cs) →
  arrival ≡ₚ cs → reass_ok w Q (structs arrival.*1 ++ X) → Forall (λ x, arrives (rdat w) x.1 x.2) arrival →
  Forall (λ x, key (g_hdr x.2) ≠ key (take 20 c)) Q →
  zlen (q_structs Q) + zlen (structs arrival.*1) ≤ IP_REASS_MAX_PBUFS → pool_malloc (rpool w) ≠ Ok (None, rpool w) →
  ∃ q lq w', reass_all ((λ x, f_p x.1) <$> arrival) w = Ok (replicate (pred (length arrival)) None ++ [Some q], w') ∧
    packet_in w' q lq (final_hdr (take 20 c) (zlen c) ++ drop 20 c) ∧ reass_ok w' Q (lq ++ X) ∧ keeps X (rdat w) (rdat w').
Proof.
  intros Hx Hl Hlen Hc Hi Hcu Hun Hmk Hu Hrun Hlog Hp Hok Harr Hother Hroom Hpool.
  destruct (ip4_frag_ok s n i dest p b l F c) as (e & s1 & k & Hrun1 & _ & _ & _ & Hlog1 & Hres); try done.
  rewrite Hrun in Hrun1. injection Hrun1 as <- <-. destruct Hres as [[_ ->]|[? _]]; [|done]. rewrite firstn_all, Hlog in Hlog1.
  apply app_inv_head in Hlog1.
  assert (Hfr : fragments_of (mtu i) c = frag_bytes <$> cs).
  { apply (f_equal (fmap (M := list) snd)) in Hlog1. rewrite <-!list_fmap_compose in Hlog1. symmetry. etransitivity; [exact Hlog1|]. apply list_fmap_id. }
  pose proof (content_length _ _ _ Hlen Hc) as Hz. pose proof (lens_ok_range _ Hlen) as Hrange. destruct Hcu as [Hmtu Hb Hhl _].
  assert (Hu8 : 8 ≤ unit (mtu i)) by (unfold unit; change IP_HLEN with 20; zlia).
  destruct (sent_cut (mtu i) c cs) as (Hcut & Hd & Hfin); try done; try lia.
  { rewrite <-Hp. eapply Forall_impl; [exact Harr|]. intros x. apply arrives_frag_of. }
  destruct (any_order_ok w Q X (key (take 20 c)) cs arrival) as (q & lq & w' & Hre & Hpk & Hok' & Hk); try done.
  exists q, lq, w'. split_and!; try done. rewrite Hd, Hfin in Hpk.
  replace (zlen c) with (zlen (drop 20 c) + 20) by (unfold zlen in *; rewrite length_drop; lia). done.
Qed.

(** When the rest comes to lie between the two limits, ip4_frag sends two fragments that look
    like the last one. *)
Lemma fragments_unmarked hdr c mtu : zlen hdr = 20 → 28 ≤ mtu ≤ 65535 → ∀ k left ofo,
  marked mtu left = false → 0 < left ≤ zlen c - 20 → zlen c ≤ 65535 → 8 * ofo = zlen c - 20 - left → (Z.to_nat left < k)%nat →
  ∃ pre x y, fragments k hdr c mtu ((mtu - IP_HLEN) / 8) 0 left ofo = pre ++ [x; y] ∧
    is_last_frag (take 20 x) = true ∧ is_last_frag (take 20 y) = true.
Proof.
  intros Hz Hmtu k. induction k as [|k IH]; intros left ofo Hmk Hleft Hzc Hofo Hk; [lia|]. cbn [fragments].
  replace (left =? 0) with false by lia. fold (unit mtu). change IP_HLEN with 20 in *.
  assert (Hun : 8 * ((mtu - 20) / 8) = unit mtu) by (unfold unit; change IP_HLEN with 20; lia).
  assert (Hu : unit mtu ≤ mtu - 20 < unit mtu + 8) by zlia. assert (Hu8 : 8 ≤ unit mtu) by zlia.
  assert (Hr : (mtu - 20) mod 8 = mtu - 20 - unit mtu) by zlia.
  unfold marked in Hmk. change IP_HLEN with 20 in *. breflect. rewrite Z.min_r by lia.
  assert (Hlast : ∀ n o rest, n ≤ mtu - 20 → 0 ≤ o < 8192 → is_last_frag (take 20 (frag_hdr hdr (frag_offset mtu n o 0) (unit mtu + 20) ++ rest)) = true ∧
    is_last_frag (take 20 (frag_hdr hdr (frag_offset mtu n o 0) (n + 20) ++ rest)) = true).
  { intros n o rest Hn Ho. split; (destruct (frag_hdr_ok hdr mtu n o (unit mtu + 20) Hz Ho) as (Hz1 & _ & _ & _ & Hl1 & _) +
      destruct (frag_hdr_ok hdr mtu n o (n + 20) Hz Ho) as (Hz1 & _ & _ & _ & Hl1 & _));
      (rewrite take_app_length' by (unfold zlen in Hz1; lia); rewrite Hl1; apply Z.leb_le; change IP_HLEN with 20; lia). }
  rewrite (u16_id (ofo + _)) by ulia. destruct (decide (left ≤ mtu - 20)) as [Hle|Hgt].
  - destruct k as [|k]; [lia|]. cbn [fragments]. replace (left - unit mtu =? 0) with false by lia. fold (unit mtu). rewrite Z.min_l by lia.
    rewrite Z.sub_diag. assert (Hnil : ∀ j o, fragments j hdr c mtu ((mtu - 20) / 8) 0 0 o = []) by (by intros []). rewrite Hnil.
    eexists [], _, _. split; [done|]. split; apply Hlast; lia.
  - pose proof (Z.div_mod left (unit mtu) ltac:(lia)) as Hdm. pose proof (Z.mod_pos_bound left (unit mtu) ltac:(lia)) as Hmb.
    assert (Hmod : (left - unit mtu) mod unit mtu = left mod unit mtu).
    { rewrite <-(Z.mod_add (left - unit mtu) 1 (unit mtu)) by lia. f_equal. lia. }
    assert (2 ≤ left / unit mtu) by nia. assert (unit mtu < left - unit mtu) by nia.
    destruct (IH (left - unit mtu) (ofo + (mtu - 20) / 8)) as (pre & x & y & -> & Hx & Hy); try lia.
    { unfold marked. rewrite Hmod. change IP_HLEN with 20. rewrite !orb_false_iff. split_and!; [apply Z.leb_gt|apply Z.eqb_neq|apply Z.ltb_ge]; lia. }
    eexists (_ :: pre), x, y. split; [reflexivity|done].
Qed.

(** C34: ip4_frag does not mark the fragments of every datagram.  When the space for data in the
    MTU is no multiple of 8 and the rest of the datagram comes to lie between the two, which
    depends on its length ([marked] is false), then of the fragments ip4_frag sends not only
    the last one but also the one before has the flag "more fragments" cleared, so that no
    receiver can put the datagram together. *)
Theorem ip4_frag_unmarked s s' n i dest p b l F c :
  excl s (((p, b) :: l) ++ F) → linked (Some p) ((p, b) :: l) → lens_ok ((p, b) :: l) →
  content (dat s) ((p, b) :: l) = Some c → ifs (net (al s)) !! n = Some i → cuttable (mtu i) b c →
  unfragmented (take 20 c) → marked (mtu i) (zlen c - 20) = false → ip4_frag p n dest s = Ok (ERR_OK, s') →
  ∃ pre x y, log s' = log s ++ ((λ f, (n, dest, f)) <$> pre ++ [x; y]) ∧
    is_last_frag (take 20 x) = true ∧ is_last_frag (take 20 y) = true.
Proof.
  intros Hx Hl Hlen Hc Hi Hcu [Hu1 Hu2]%unfragmented_parts Hmk Hrun.
  destruct (ip4_frag_ok s n i dest p b l F c) as (e & s1 & k & Hrun1 & _ & _ & _ & Hlog1 & Hres); try done.
  rewrite Hrun in Hrun1. injection Hrun1 as <- <-. destruct Hres as [[_ ->]|[? _]]; [|done]. rewrite firstn_all in Hlog1.
  pose proof (content_length _ _ _ Hlen Hc) as Hz. pose proof (lens_ok_range _ Hlen) as Hrange. destruct Hcu as [Hmtu Hb Hhl _].
  assert (Hz20 : 20 ≤ zlen c) by (destruct Hlen as (_ & _ & _ & Hl2); apply lens_ok_range in Hl2; simpl in Hz; lia).
  assert (Hzt : zlen (take 20 c) = 20) by (unfold zlen in *; rewrite length_take; lia).
  assert (Hne : 0 < zlen c - 20).
  { destruct (decide (zlen c = 20)) as [E|]; [|lia]. exfalso. rewrite E in Hmk. unfold marked, unit in Hmk. change IP_HLEN with 20 in Hmk. breflect. zlia. }
  unfold fragments_of in Hlog1. rewrite Hu1, Hu2 in Hlog1. change IP_HLEN with 20 in Hlog1.
  destruct (fragments_unmarked (take 20 c) c (mtu i) Hzt Hmtu (S (Z.to_nat (zlen c - 20))) (zlen c - 20) 0) as (pre & x & y & Hfr & Hlx & Hly); try done; try lia.
  change IP_HLEN with 20 in Hfr. rewrite Hfr in Hlog1. by exists pre, x, y.
Qed.

End trip.

(** Below an MTU of 28 bytes no data fits into a fragment, and the loop of ip4_frag never
    sends the datagram: it only stops when a buffer for a fragment cannot be had. *)
Lemma frag_loop_small_mtu {A P N W} `{Allocator A} `{Link A P N W} n dest mtu h mf left : 0 < left → is_u16 left →
  ∀ fuel p poff nl ofo (s : pstate (ipmem A P N W)) e s', frag_loop fuel n dest mtu 0 h mf p poff nl left ofo s = Ok (e, s') → e = ERR_MEM.
Proof.
  intros Hl Hu fuel. induction fuel as [|fuel IH]; intros p poff nl ofo s e s'; cbn [frag_loop]; replace (left =? 0) with false by lia; [done|].
  change (u16 (0 * 8)) with 0. rewrite Z.min_r by lia. rewrite Z.sub_0_r, (u16_id left) by done.
  destruct (frag_round _ _ _ _ _ _ _ _ _ _ _ _) as [[[[[q po] nl1]|] s1]| | |]; cbn [mbind res_bind]; try done; [apply IH|]. by intros [= <- _].
Qed.
