(* ===== verification/Ip4Send.v ===== *)
(** * IPv4 routing and output

    ip4_route chooses an interface as the relation [routes] says; the functions of the
    family ip4_output put [ip_header] and the options in front of a packet and hand it,
    or its fragments, to the link layer. *)

From S2P Require Import Prelude ByteMem Def Pbuf PbufFacts PbufData PbufLife PbufChain PbufCopy PbufOwn Ip4Addr Etharp Ip4Frag.
From S2P Require Import Ip4FragQueue Iface Ip4 Ip4Facts Ip4FragOut Ip4FragSend.

(** ** Routing *)

(** Every interface that is named exists. *)
Record netifs_known {A P N W} (m : ipmem A P N W) : Prop := {
  nk_list : Forall (λ n, is_Some (ifs (net m) !! n)) (netif_list (net m));
  nk_default n : netif_default (net m) = Some n → is_Some (ifs (net m) !! n);
  nk_multicast n : ip4_default_multicast_netif m = Some n → is_Some (ifs (net m) !! n)
}.

Section routing.
Context {A P N W : Type}.
Implicit Types s : pstate (ipmem A P N W).

(** The interface is up (bit 0 of the flags), has a link (bit 2) and an address. *)
Definition operational (i : iface) : bool := Z.testbit (nflags i) 0 && Z.testbit (nflags i) 2 && negb (nip i =? 0).

(** The destination is on the network of the interface, or is its gateway when the
    interface is a point-to-point link (bit 1 is cleared). *)
Definition reaches (i : iface) (dest : Z) : bool :=
  operational i && ((Z.land dest (nmask i) =? Z.land (nip i) (nmask i)) || negb (Z.testbit (nflags i) 1) && (dest =? ngw i)).

(** 127.x.x.x: the first byte in memory is the lowest one of the word. *)
Definition loopback (dest : Z) : bool := dest mod 256 =? 127.

Definition iface_reaches s (dest n : Z) : Prop := ∃ i, ifs (net (al s)) !! n = Some i ∧ reaches i dest = true.

(** Which interface a packet to [dest] leaves through. *)
Inductive routes s (dest : Z) : Z → Prop :=
  | routes_multicast n : ip4_addr_ismulticast dest = true → ip4_default_multicast_netif (al s) = Some n → routes s dest n
  | routes_direct n pre post :
      (ip4_addr_ismulticast dest = true → ip4_default_multicast_netif (al s) = None) →
      netif_list (net (al s)) = pre ++ n :: post → Forall (λ m, ¬ iface_reaches s dest m) pre → iface_reaches s dest n →
      routes s dest n
  | routes_default n i :
      (ip4_addr_ismulticast dest = true → ip4_default_multicast_netif (al s) = None) →
      Forall (λ m, ¬ iface_reaches s dest m) (netif_list (net (al s))) →
      netif_default (net (al s)) = Some n → ifs (net (al s)) !! n = Some i → operational i = true →
      loopback dest = false → routes s dest n.

Lemma bit_test f k : 0 ≤ k → (Z.land f (2 ^ k) =? 0) = negb (Z.testbit f k).
Proof.
  intros Hk. destruct (Z.testbit f k) eqn:E; cbn [negb]; [apply Z.eqb_neq|apply Z.eqb_eq].
  - intros H0. apply (f_equal (λ x, Z.testbit x k)) in H0. by rewrite Z.land_spec, E, Z.pow2_bits_true, Z.bits_0 in H0.
  - apply Z.bits_inj'. intros j Hj. rewrite Z.land_spec, Z.bits_0. destruct (decide (j = k)) as [->|Hne]; [by rewrite E|]. by rewrite Z.pow2_bits_false, andb_false_r by lia.
Qed.

Lemma usable_operational i : usable i = operational i.
Proof.
  unfold usable, operational, netif_is_up, netif_is_link_up, flag_set, nflags. change NETIF_FLAG_UP with (2 ^ 0). change NETIF_FLAG_LINK_UP with (2 ^ 2). by rewrite !bit_test, !negb_involutive by lia.
Qed.

Lemma isloopback_loopback dest : ip4_addr_isloopback dest = loopback dest.
Proof. unfold ip4_addr_isloopback, loopback. change (PP_HTONL 4278190080) with (Z.ones 8). by rewrite Z.land_ones by lia. Qed.

Lemma route_loop_ok s dest ns : Forall (λ n, is_Some (ifs (net (al s)) !! n)) ns →
  ∃ r, route_loop dest ns (net (al s)) = Ok r ∧
    match r with
    | Some n => ∃ pre post, ns = pre ++ n :: post ∧ Forall (λ m, ¬ iface_reaches s dest m) pre ∧ iface_reaches s dest n
    | None => Forall (λ m, ¬ iface_reaches s dest m) ns
    end.
Proof.
  induction ns as [|n ns IH]; intros Hk; [by exists None|]. apply Forall_cons in Hk as [[i Hi] Hk]. cbn [route_loop].
  unfold getn. rewrite Hi. cbn [deref mbind res_bind].
  assert (Hno : reaches i dest = false → ∃ r, route_loop dest ns (net (al s)) = Ok r ∧
    match r with
    | Some m => ∃ pre post, n :: ns = pre ++ m :: post ∧ Forall (λ m, ¬ iface_reaches s dest m) pre ∧ iface_reaches s dest m
    | None => Forall (λ m, ¬ iface_reaches s dest m) (n :: ns)
    end).
  { intros Hr. destruct (IH Hk) as (r & -> & Hres). exists r. split; [done|].
    assert (Hn : ¬ iface_reaches s dest n) by (intros (i' & Hi' & Hr'); congruence).
    destruct r as [m|]; [|by constructor]. destruct Hres as (pre & post & -> & Hpre & Hm). exists (n :: pre), post. split_and!; try done. by constructor. }
  assert (Hyes : reaches i dest = true → ∃ r, Ok (Some n) = Ok r ∧
    match r with
    | Some m => ∃ pre post, n :: ns = pre ++ m :: post ∧ Forall (λ m, ¬ iface_reaches s dest m) pre ∧ iface_reaches s dest m
    | None => Forall (λ m, ¬ iface_reaches s dest m) (n :: ns)
    end).
  { intros Hr. exists (Some n). split; [done|]. exists [], ns. split_and!; [done|constructor|by exists i]. }
  unfold reaches in *. rewrite usable_operational. destruct (operational i); [|by apply Hno]. cbn [andb] in *.
  unfold ip4_addr_netcmp. destruct (Z.land dest (nmask i) =? Z.land (nip i) (nmask i)); [by apply Hyes|]. cbn [orb] in *.
  change NETIF_FLAG_BROADCAST with (2 ^ 1). rewrite bit_test by lia.
  destruct (_ && _); [by apply Hyes|by apply Hno].
Qed.

(** At most one place of the list is the first one with a property. *)
Lemma first_unique {B} (Q : B → Prop) (ns : list B) pre n post pre' n' post' :
  ns = pre ++ n :: post → ns = pre' ++ n' :: post' → Forall (λ m, ¬ Q m) pre → Forall (λ m, ¬ Q m) pre' → Q n → Q n' → n = n'.
Proof.
  revert ns pre'. induction pre as [|x pre IH]; intros ns [|y pre'] -> Heq Hp Hp' Hn Hn'; cbn [app] in Heq; simplify_eq; try done.
  - apply Forall_cons in Hp' as [? _]. done.
  - apply Forall_cons in Hp as [? _]. done.
  - apply Forall_cons in Hp as [_ Hp], Hp' as [_ Hp']. by eapply IH.
Qed.

(** Without a multicast route the first interface that reaches the destination decides. *)
Lemma route_direct s dest pre n post m : netif_list (net (al s)) = pre ++ n :: post → Forall (λ m, ¬ iface_reaches s dest m) pre →
  iface_reaches s dest n → (ip4_addr_ismulticast dest = true → ip4_default_multicast_netif (al s) = None) → routes s dest m → n = m.
Proof.
  intros Hl Hpre Hn Hm Hr. inversion Hr as [? Hm' E|? ? ? _ Hl' Hpre' Hn'|? ? _ Hall]; subst.
  - specialize (Hm Hm'). congruence.
  - by eapply (first_unique (iface_reaches s dest)).
  - rewrite Hl in Hall. apply Forall_app in Hall as [_ Hall]. by apply Forall_cons in Hall as [? _].
Qed.

Lemma route_default s dest m : Forall (λ m, ¬ iface_reaches s dest m) (netif_list (net (al s))) →
  (ip4_addr_ismulticast dest = true → ip4_default_multicast_netif (al s) = None) → routes s dest m →
  netif_default (net (al s)) = Some m ∧ loopback dest = false ∧ ∃ i, ifs (net (al s)) !! m = Some i ∧ operational i = true.
Proof.
  intros Hall Hm Hr. inversion Hr as [? Hm' E|? ? ? _ Hl' Hpre' Hn'|? i _ Hall' Hd Hi Hu Hlo]; subst.
  - specialize (Hm Hm'). congruence.
  - rewrite Hl' in Hall. apply Forall_app in Hall as [_ Hall]. by apply Forall_cons in Hall as [? _].
  - split_and!; try done. by exists i.
Qed.

Lemma route_ok s dest : netifs_known (al s) → ∃ r, ip4_route dest s = Ok r ∧ ∀ n, r = Some n ↔ routes s dest n.
Proof.
  intros [Hl Hd _]. unfold ip4_route. destruct (_ && _) eqn:Em.
  { apply andb_true_iff in Em as [Em En]. destruct (ip4_default_multicast_netif (al s)) as [m|] eqn:E; [|by rewrite bool_decide_eq_true_2 in En].
    exists (Some m). split; [done|]. intros n. split; [intros [= <-]; by apply routes_multicast|].
    intros Hr. inversion Hr as [? _ E'|? ? ? Hc|? ? Hc]; [congruence|specialize (Hc Em); congruence..]. }
  assert (Hm : ip4_addr_ismulticast dest = true → ip4_default_multicast_netif (al s) = None).
  { intros E. rewrite E in Em. cbn [andb] in Em. apply negb_false_iff in Em. by apply bool_decide_eq_true in Em. }
  destruct (route_loop_ok s dest _ Hl) as (r & -> & Hr). cbn [mbind res_bind]. destruct r as [n|].
  { destruct Hr as (pre & post & Hpp & Hpre & Hn). exists (Some n). split; [done|]. intros m. split.
    - intros [= <-]. by eapply routes_direct.
    - intros Hr. f_equal. by eapply route_direct. }
  destruct (netif_default (net (al s))) as [n|] eqn:Edef.
  2: { exists None. split; [done|]. intros m. split; [done|]. intros Hr'. destruct (route_default _ _ _ Hr Hm Hr'). congruence. }
  destruct (Hd n eq_refl) as [i Hi]. unfold getn. rewrite Hi. cbn [deref mbind res_bind].
  assert (Hus : (negb (netif_is_up i) || negb (netif_is_link_up i) || ip4_addr_isany_val (nip i) || ip4_addr_isloopback dest) = negb (operational i && negb (loopback dest))).
  { rewrite <-usable_operational, <-isloopback_loopback. unfold usable. by destruct (netif_is_up i), (netif_is_link_up i), (ip4_addr_isany_val (nip i)), (ip4_addr_isloopback dest). }
  rewrite Hus. destruct (operational i && negb (loopback dest)) eqn:E; cbn [negb]; eexists; (split; [reflexivity|]); intros m; split.
  - intros [= <-]. apply andb_true_iff in E as [Eu El]. apply negb_true_iff in El. by eapply routes_default.
  - intros Hr'. destruct (route_default _ _ _ Hr Hm Hr') as (? & _). congruence.
  - done.
  - intros Hr'. destruct (route_default _ _ _ Hr Hm Hr') as (Hd' & Hlo & i' & Hi' & Hu'). rewrite Edef in Hd'. injection Hd' as <-.
    rewrite Hi in Hi'. injection Hi' as <-. by rewrite Hu', Hlo in E.
Qed.

Lemma route_known s dest n : netifs_known (al s) → ip4_route dest s = Ok (Some n) → is_Some (ifs (net (al s)) !! n).
Proof.
  intros Hk Hr. destruct (route_ok s dest Hk) as (r & Hr' & Hiff). rewrite Hr in Hr'. injection Hr' as <-.
  destruct (proj1 (Hiff n) eq_refl) as [? _ Hm|? ? ? _ _ _ (i & Hi & _)|? i _ _ _ Hi]; [by apply (nk_multicast _ Hk)|by exists i..].
Qed.

(** C31: Routing.  ip4_route returns an interface exactly when the rules of IPv4 routing choose
    it: a multicast address goes to the default interface for multicast, if there is one;
    otherwise the first interface of the list that is up, has a link and an address, and
    either has the destination on its network or is a point-to-point link with the
    destination as its gateway; otherwise the default interface, when it is up, has a link
    and an address and the destination is no loopback address.  In all other cases NULL is
    returned. *)
Theorem ip4_route_correct s dest :
  netifs_known (al s) → ∃ r, ip4_route dest s = Ok r ∧ ∀ n, r = Some n ↔ routes s dest n.
Proof. apply route_ok. Qed.

End routing.
