(* ===== verification/Ip4OutFacts.v ===== *)
(** * IPv4 output: headers

    The functions of the family ip4_output put [ip_header] and the options in front of a
    packet and hand it, or its fragments, to the link layer. *)

From S2P Require Import Prelude ByteMem Def Pbuf PbufFacts PbufData PbufLife PbufChain PbufCopy PbufOwn Ip4Addr Etharp Ip4Frag.
From S2P Require Import Ip4FragQueue Iface Ip4 Ip4Facts Ip4FragOut Ip4FragSend Ip4Send.

(** ** Space in front of a packet *)

(** A struct of the type PBUF_RAM. *)
Definition ram_struct (b : pbuf) : Prop := is_custom b = false ∧ type_internal b = u8 PBUF_RAM.

Section own.
Context {A : Type} `{AllocatorLaws A}.
Implicit Types (s : pstate A) (F G l : list (Z * pbuf)).

Lemma grown_grown n m b : grown n (grown m b) = grown (m + n) b.
Proof. destruct b. unfold grown, with_tot_len, with_len, with_payload. simpl. f_equal; lia. Qed.

Lemma ram_grown n b : ram_struct b → ram_struct (grown n b).
Proof. done. Qed.

Lemma excl_heap s L a q G : pstate_ok s L → excl s ((a, q) :: G) → ram_struct q → ∃ m, L !! a = Some (SrcHeap m).
Proof.
  intros [_ HL] Hx [Hc Ht]. destruct (excl_get _ _ a q Hx) as [Hq _]; [by left|]. destruct (HL _ _ Hq) as (x & Hxl & Hs).
  assert (Hal : pbuf_get_allocsrc q = 0) by (unfold pbuf_get_allocsrc; by rewrite Ht).
  destruct x as [m|[]|]; simpl in Hs; [by exists m|destruct Hs; congruence..|congruence].
Qed.

Lemma excl_add_header s p b G n : excl s ((p, b) :: G) → ram_struct b → 0 ≤ len b → len b ≤ tot_len b → tot_len b ≤ 65535 → 0 ≤ n →
  (header_fits p n b false = false → pbuf_add_header (Some p) n s = Ok (1, s)) ∧
  (header_fits p n b false = true → pbuf_add_header (Some p) n s = Ok (0, putp p (grown n b) s) ∧
     excl (putp p (grown n b) s) ((p, grown n b) :: G) ∧ mapped (dat s) (payload b - n) n ∧ tot_len b + n ≤ 65535).
Proof.
  intros Hx Hram H1 H2 H3 Hn. destruct (excl_get _ _ p b Hx) as [Hb Hr]; [by left|].
  unfold pbuf_add_header. rewrite (add_header_ok s p b n false) by done. split; intros Hf; rewrite Hf; [done|]. split; [done|].
  destruct (decide (n = 0)) as [->|Hn0].
  { rewrite with_grown_0, putp_id by done. split; [done|]. split; [intros i Hi; lia|lia]. }
  unfold header_fits in Hf. replace (n =? 0) with false in Hf by lia. destruct Hram as [Hcu Hty]. rewrite Hty in Hf.
  change (negb (Z.land (u8 PBUF_RAM) PBUF_TYPE_FLAG_STRUCT_DATA_CONTIGUOUS =? 0)) with true in Hf. cbn [orb] in Hf. breflect.
  pose proof Hx as ((L & HL & Hpl) & Hnd & Hs & Hfo & Hm). destruct (excl_heap s L p b G HL Hx (conj Hcu Hty)) as (m & Hm').
  apply Forall_cons in Hpl as [Hpb Hpl]. unfold placed in Hpb. cbn [fst snd] in Hpb. rewrite Hm' in Hpb. change SIZEOF_STRUCT_PBUF with 16 in *.
  rewrite fmap_cons in Hnd. apply NoDup_cons in Hnd as [Hnot Hnd]. apply Forall_cons in Hfo as [_ Hfo].
  split; [split_and!|split; [|lia]].
  - exists L. split; [by apply (pstate_ok_put s L p b)|]. apply Forall_cons. split; [|done]. unfold placed. cbn [fst snd]. rewrite Hm'.
    change SIZEOF_STRUCT_PBUF with 16. cbn [grown with_tot_len with_len with_payload payload len]. lia.
  - rewrite fmap_cons. by apply NoDup_cons.
  - destruct Hs as [_ Hs]. split; [|done]. cbn [grown with_tot_len with_len with_payload payload len].
    eapply (block_away s L G p m); try done; try lia. by eapply excl_blocks.
  - apply Forall_cons. split; [cbn [putp pb fst snd]; by rewrite lookup_insert_eq|]. rewrite Forall_forall in Hfo |- *. intros x Hx'. cbn [putp pb].
    rewrite lookup_insert_ne; [by apply Hfo|]. intros ->. apply Hnot, list_elem_of_fmap. by exists x.
  - done.
  - intros i Hi. apply Hm. destruct HL as [Ha _]. eapply al_inside; [exact Ha|exact Hm'|done|]. cbn [src_size]. lia.
Qed.

(** The bytes of a packet with more in front. *)
Lemma content_grown d p b l n h c : 0 ≤ n → 0 ≤ len b → mread d (payload b - n) (Z.to_nat n) = Some h → content d ((p, b) :: l) = Some c →
  content d ((p, grown n b) :: l) = Some (h ++ c).
Proof.
  intros Hn Hb Hh Hc. cbn [content] in *. cbn [grown with_tot_len with_len with_payload payload len].
  replace (Z.to_nat (len b + n)) with (Z.to_nat n + Z.to_nat (len b))%nat by lia. rewrite mread_app, Hh.
  replace (payload b - n + Z.of_nat (Z.to_nat n)) with (payload b) by lia. cbn [mbind option_bind].
  destruct (mread d (payload b) _) as [x|]; [|done]. cbn [mbind option_bind] in *. destruct (content d l) as [y|]; [|done].
  cbn [mbind option_bind] in *. injection Hc as <-. by rewrite app_assoc.
Qed.

Lemma lens_grown p b l n : lens_ok ((p, b) :: l) → 0 ≤ n → tot_len b + n ≤ 65535 → lens_ok ((p, grown n b) :: l).
Proof. cbn [lens_ok grown with_tot_len with_len with_payload len tot_len]. intros (? & ? & ? & ?) ? ?. split_and!; try done; lia. Qed.

Lemma linked_grown p b l n : linked (Some p) ((p, b) :: l) → linked (Some p) ((p, grown n b) :: l).
Proof. done. Qed.

End own.

(** ** The header *)

(** The bytes of an IP header without options and checksum. *)
Definition ip_header (src dest ttl tos proto hlen len id : Z) : ip_hdr :=
  [u8 (Z.lor (Z.shiftl 4 4) (hlen / 4)); u8 tos] ++ word16 (lwip_htons len) ++ word16 (lwip_htons id) ++ word16 0 ++
  [u8 ttl; u8 proto] ++ word16 0 ++ word32 src ++ word32 dest.

(** One store at [a + off] into the region [Hm] describes; [Hk] collects what stays. *)
Ltac store Hm Hk off :=
  lazymatch type of Hm with mread _ ?a (Z.to_nat ?n) = Some ?c =>
  lazymatch goal with |- context [pst ?a1 ?v ?s] =>
  lazymatch type of Hk with keeps ?G _ _ =>
    let d := fresh "d" in let E := fresh in let Hm1 := fresh in let Hk1 := fresh in
    replace (pst a1 v s) with (pst (a + off) v s) by (f_equal; lia);
    destruct (pst_ok s a n c off v G Hm) as (d & E & Hm1 & Hk1); [lia|change (zlen v) with (Z.of_nat (length v)); cbn [length word16 word32]; lia|assumption|];
    rewrite E; clear E; cbn [mbind res_bind]; clear Hm; rename Hm1 into Hm;
    pose proof (keeps_trans _ _ _ _ Hk Hk1) as E; clear Hk Hk1; rename E into Hk
  end end end.

Section output.
Context {A P N W : Type} `{LinkLaws A P N W}.
Abbreviation st := (pstate (ipmem A P N W)).
Implicit Types (s : st) (F G l : list (Z * pbuf)).

Definition next_id (m : ipmem A P N W) : ipmem A P N W := set_ip_id (u16 (ip_id m + 1)) m.

(** The region in front of a packet is not part of any payload. *)
Lemma front_away s p b G n : excl s ((p, grown n b) :: G) → 0 ≤ n → 0 ≤ len b → away (payload b - n) n ((p, b) :: G).
Proof.
  intros (_ & _ & [Ha _] & _) Hn Hb. cbn [grown with_tot_len with_len with_payload payload len] in Ha.
  apply away_cons. split; [lia|]. eapply away_mono; [| |exact Ha]; lia.
Qed.

Lemma put_header_ok s p b G src dest ttl tos proto hlen : excl s ((p, b) :: G) → ram_struct b →
  0 ≤ len b → len b ≤ tot_len b → tot_len b ≤ 65535 →
  (header_fits p IP_HLEN b false = false → put_header p src dest ttl tos proto hlen s = Ok (ERR_BUF, s)) ∧
  (header_fits p IP_HLEN b false = true → ∃ d,
     put_header p src dest ttl tos proto hlen s = Ok (ERR_OK, set_dat d (on_ip next_id (putp p (grown IP_HLEN b) s))) ∧
     excl (set_dat d (on_ip next_id (putp p (grown IP_HLEN b) s))) ((p, grown IP_HLEN b) :: G) ∧ keeps ((p, b) :: G) (dat s) d ∧
     tot_len b + IP_HLEN ≤ 65535 ∧
     mread d (payload b - IP_HLEN) (Z.to_nat IP_HLEN) =
       Some (ip_header (default IPADDR_ANY src) dest ttl tos proto hlen (tot_len b + IP_HLEN) (ip_id (al s)))).
Proof.
  intros Hx Hram H1' H2' H3'. change IP_HLEN with 20 in *.
  destruct (excl_add_header s p b G 20 Hx Hram H1' H2' H3' ltac:(lia)) as [Hno Hyes]. unfold put_header. change IP_HLEN with 20 in *. split; intros Hf.
  { by rewrite (Hno Hf). }
  destruct (Hyes Hf) as (-> & Hx' & Hmap & Htot). cbn [mbind res_bind Z.eqb negb]. rewrite getp_put_eq. cbn [mbind res_bind].
  replace (20 <=? len (grown 20 b)) with true by (cbn [grown with_tot_len with_len with_payload len]; lia). cbn [LWIP_ASSERT mbind res_bind].
  change (tot_len (grown 20 b)) with (tot_len b + 20). change (payload (grown 20 b)) with (payload b - 20).
  set (s1 := putp p (grown 20 b) s). pose proof (front_away _ _ _ _ _ Hx' ltac:(lia) H1') as Haw.
  destruct (proj2 (mread_Some (dat s1) (payload b - 20) (Z.to_nat 20))) as [h Hm]; [exact Hmap|].
  pose proof (mread_length _ _ _ _ Hm) as Hlen. change (Z.to_nat 20) with 20%nat in Hlen.
  assert (Hk : keeps ((p, b) :: G) (dat s1) (dat s1)) by done.
  store Hm Hk 8. store Hm Hk 9. store Hm Hk 16. store Hm Hk 0. store Hm Hk 1. store Hm Hk 2. store Hm Hk 6. store Hm Hk 4.
  store Hm Hk 12. store Hm Hk 10.
  exists d8. split; [reflexivity|]. split; [|split; [exact Hk|split; [done|]]].
  - eapply excl_set_dat; [|exact Hk]. eapply (excl_same s1); [reflexivity..|exact Hx'].
  - etransitivity; [exact Hm|]. f_equal. clear -Hlen. do 20 (destruct h as [|? h]; [discriminate Hlen|]). destruct h; [reflexivity|discriminate Hlen].
Qed.

(** ** Options *)

(** The options as they are sent: padded with zeros to a multiple of 4 bytes. *)
Definition pad_options (options : list Z) : list Z :=
  options ++ replicate (Z.to_nat (- zlen options mod 4)) 0.

Lemma put_options_ok s p b G options : excl s ((p, b) :: G) → ram_struct b →
  0 ≤ len b → len b ≤ tot_len b → tot_len b ≤ 65535 →
  let n := zlen (pad_options options) in
  (40 < zlen options → put_options p options s = Ok (ERR_VAL, IP_HLEN, s)) ∧
  (zlen options ≤ 40 → header_fits p n b false = false → put_options p options s = Ok (ERR_BUF, IP_HLEN + n, s)) ∧
  (zlen options ≤ 40 → header_fits p n b false = true → ∃ d,
     put_options p options s = Ok (ERR_OK, IP_HLEN + n, set_dat d (putp p (grown n b) s)) ∧
     excl (set_dat d (putp p (grown n b) s)) ((p, grown n b) :: G) ∧ keeps ((p, b) :: G) (dat s) d ∧ tot_len b + n ≤ 65535 ∧
     mread d (payload b - n) (Z.to_nat n) = Some (pad_options options)).
Proof.
  intros Hx Hram H1' H2' H3' n. set (k := zlen options). pose proof (zlen_nonneg options) as Hk0. fold k in Hk0.
  assert (Hn : n = k + - k mod 4) by (unfold n, pad_options; rewrite zlen_app; unfold zlen at 2; rewrite length_replicate; fold k; zlia).
  destruct (excl_add_header s p b G n Hx Hram H1' H2' H3' ltac:(zlia)) as [Hno Hyes]. unfold put_options. fold k. change (IP_HLEN_MAX - IP_HLEN) with 40.
  destruct (excl_get _ _ p b Hx) as [Hb _]; [by left|].
  destruct (k =? 0) eqn:E0; breflect.
  { assert (options = []) as -> by (destruct options; [done|unfold k, zlen in E0; simpl in E0; lia]). assert (n = 0) as -> by done.
    split; [lia|]. split; [by intros _ ?|]. intros _ _. exists (dat s). rewrite with_grown_0, (putp_id p b s Hb). destruct s. split_and!; try done. lia. }
  assert (Hal : u16 (Z.land (k + 3) (Z.lnot 3)) = n ∨ 40 < k).
  { destruct (decide (40 < k)); [by right|]. left. change (Z.lnot 3) with (Z.lnot (Z.ones 2)). rewrite <-Z.ldiff_land, Z.ldiff_ones_r by lia.
    rewrite Z.shiftl_mul_pow2, Z.shiftr_div_pow2 by lia. change (2 ^ 2) with 4. rewrite u16_id; ulia. }
  split; [intros Hgt; by replace (40 <? k) with true by lia|].
  split; intros Hle Hf; (replace (40 <? k) with false by lia); (destruct Hal as [->|?]; [|lia]); rewrite (u16_id (IP_HLEN + n)) by (change IP_HLEN with 20; ulia).
  { by rewrite (Hno Hf). }
  destruct (Hyes Hf) as (-> & Hx' & Hmap & Htot). cbn [mbind res_bind Z.eqb negb]. rewrite getp_put_eq. cbn [mbind res_bind].
  change (payload (grown n b)) with (payload b - n). change (dat (putp p (grown n b) s)) with (dat s).
  pose proof (front_away _ _ _ _ _ Hx' ltac:(zlia) H1') as Haw.
  assert (Hst : mstore (payload b - n) options (dat s) = Ok (mwrite (dat s) (payload b - n) options)).
  { unfold mstore. rewrite (proj2 (mapped_b_spec _ _ _ Hk0)); [done|]. eapply mapped_mono; [| |exact Hmap]; zlia. }
  rewrite Hst. cbn [mbind res_bind].
  assert (Hpad : (if k <? n then memset (payload b - n + k) 0 (n - k) (mwrite (dat s) (payload b - n) options) else Ok (mwrite (dat s) (payload b - n) options))
    = Ok (mwrite (dat s) (payload b - n) (pad_options options))).
  { unfold pad_options. rewrite mwrite_app. fold k. destruct (k <? n) eqn:E; breflect.
    - unfold memset. rewrite (proj2 (mapped_b_spec _ _ (n - k) ltac:(lia))); [by replace (Z.to_nat (n - k)) with (Z.to_nat (- k mod 4)) by (f_equal; lia)|].
      apply mapped_mwrite. eapply mapped_mono; [| |exact Hmap]; lia.
    - replace (- k mod 4) with 0 by zlia. done. }
  rewrite Hpad. cbn [mbind res_bind]. eexists. split; [reflexivity|].
  assert (Hkeep : keeps ((p, b) :: G) (dat s) (mwrite (dat s) (payload b - n) (pad_options options))) by (apply keeps_mwrite; exact Haw).
  split; [eapply excl_set_dat; [exact Hx'|exact Hkeep]|]. split; [done|]. split; [done|].
  replace (Z.to_nat n) with (length (pad_options options)) by (unfold n, zlen; lia). apply mread_mwrite_same.
Qed.

End output.
