(* ===== verification/Ip4Output.v ===== *)
(** * IPv4 output: what reaches the link layer

    [sent_as] says which packets leave when ip4_output and its variants send a packet:
    the packet itself, its fragments, or none. *)

From S2P Require Import Prelude ByteMem Def Pbuf PbufFacts PbufData PbufLife PbufChain PbufCopy PbufOwn Ip4Addr Etharp Ip4Frag.
From S2P Require Import Ip4FragQueue Iface Ip4 Ip4Facts Ip4FragOut Ip4FragSend Ip4Send Ip4OutFacts.

Section output.
Context {A P N W : Type} `{LinkLaws A P N W}.
Abbreviation st := (pstate (ipmem A P N W)).
Implicit Types (s : st) (F G l : list (Z * pbuf)) (c : list Z).

(** The packet [c] does not fit into the MTU; 0 stands for no limit. *)
Definition too_large (mtu : Z) c : bool := negb (mtu =? 0) && (mtu <? zlen c).

(** The packet [c] was sent to [dest] through the interface [n], with the result [e]. *)
Definition sent_as (n dest mtu : Z) c (e : Z) s s' : Prop :=
  if too_large mtu c then
    if IPH_HL_BYTES (take 20 c) =? IP_HLEN then
      ∃ k, log s' = log s ++ ((λ x, (n, dest, x)) <$> take k (fragments_of mtu c)) ∧
        (e = ERR_OK ∧ k = length (fragments_of mtu c) ∨ e = ERR_MEM ∧ (k < length (fragments_of mtu c))%nat)
    else e = ERR_VAL ∧ log s' = log s
  else log s' = log s ++ [(n, dest, c)].

(** A packet that is too large can be cut: no fragment is empty and the references to a
    struct of the packet can be counted. *)
Definition can_cut (mtu : Z) c : Prop := too_large mtu c = true → 28 ≤ mtu ≤ 65535 ∧ zlen (fragments_of mtu c) ≤ 254.

Lemma excl_held s p l F : excl s (l ++ F) → linked (Some p) l → held s p l F.
Proof.
  intros Hx Hl. split; [done|]. split; [|split; [exact (excl_disj _ _ _ Hx)|exact (excl_app_r _ _ _ Hx)]].
  pose proof Hx as (_ & _ & _ & Hf & _). apply Forall_app in Hf as [Hf _]. eapply Forall_impl; [exact Hf|]. intros [a q] [Ha Hr].
  exists 1. split; [|lia]. cbn [fst snd] in *. rewrite Ha. f_equal. destruct q. simpl in *. by subst.
Qed.

Lemma calm_refl s : calm s s.
Proof. by exists (link (al s)). Qed.

Lemma transmit_ok s p q l F c n i dest : excl s (((p, q) :: l) ++ F) → linked (Some p) ((p, q) :: l) → lens_ok ((p, q) :: l) →
  content (dat s) ((p, q) :: l) = Some c → ifs (net (al s)) !! n = Some i → 20 ≤ len q → can_cut (mtu i) c →
  ∃ e s' k, ip4_transmit p dest n s = Ok (e, s') ∧ held s' p ((p, grown k q) :: l) F ∧ calm s s' ∧
    keeps (((p, q) :: l) ++ F) (dat s) (dat s') ∧ sent_as n dest (mtu i) c e s s'.
Proof.
  intros Hx Hl Hlen Hc Hi Hq Hcut. destruct (excl_get _ _ p q Hx) as [Hpb _]; [by left|].
  pose proof (content_length _ _ _ Hlen Hc) as Hz. assert (Htot : tot_len q = zlen c) by (simpl in Hlen, Hz; lia).
  unfold ip4_transmit, getn. rewrite Hi. cbn [deref mbind res_bind]. rewrite (getp_some _ _ _ Hpb). cbn [mbind res_bind].
  rewrite Htot. fold (too_large (mtu i) c). unfold sent_as. destruct (too_large (mtu i) c) eqn:E.
  - destruct (Hcut E) as [Hmtu Hn]. destruct (IPH_HL_BYTES (take 20 c) =? IP_HLEN) eqn:Eh; breflect.
    + destruct (ip4_frag_ok s n i dest p q l F c) as (e & s' & k & Hrun & Hh & Hcalm & Hk & Hlog & Hres); try done.
      exists e, s', 0. rewrite with_grown_0. split_and!; try done. by exists k.
    + pose proof (content_head _ _ _ _ _ Hlen Hc Hq) as Hhd. unfold ip4_frag, getn. rewrite Hi. cbn [deref mbind res_bind].
      rewrite (getp_some _ _ _ Hpb). cbn [mbind res_bind]. unfold ld_hdr. rewrite Hhd. cbn [deref mbind res_bind].
      rewrite (proj2 (Z.eqb_neq _ _) Eh). cbn [negb]. exists ERR_VAL, s, 0. rewrite with_grown_0. split_and!; try done; [by apply excl_held|apply calm_refl].
  - destruct (output_held s n dest p q l F c) as (e & s' & k & w & Hrun & Hh & Hk & Hrest & Hlog); try done.
    exists e, s', k. split_and!; try done. exists w. by rewrite Hrest.
Qed.

(** ** The whole family *)

Lemma keeps_grown p b G n d d' : 0 ≤ n → keeps ((p, grown n b) :: G) d d' → keeps ((p, b) :: G) d d'.
Proof.
  intros Hn [Hk Hd]. split; [|done]. intros x i [->|Hx]%elem_of_cons Hi; [|by apply Hk; [right|]]. cbn [snd] in *.
  specialize (Hk (p, grown n b) (i + n)). cbn [snd grown with_tot_len with_len with_payload payload len] in Hk.
  replace (payload b + i) with (payload b - n + (i + n)) by lia. apply Hk; [by left|lia].
Qed.

Lemma fits_split p b n : ram_struct b → 0 ≤ n → header_fits p (n + IP_HLEN) b false = true →
  header_fits p n b false = true ∧ header_fits p IP_HLEN (grown n b) false = true.
Proof.
  intros [_ Ht] Hn. unfold header_fits. cbn [grown with_tot_len with_len with_payload payload tot_len type_internal]. rewrite Ht. change IP_HLEN with 20.
  change (negb (Z.land (u8 PBUF_RAM) PBUF_TYPE_FLAG_STRUCT_DATA_CONTIGUOUS =? 0)) with true. change SIZEOF_STRUCT_PBUF with 16.
  destruct (n + 20 =? 0) eqn:E; [lia|]. cbn [orb]. rewrite andb_true_iff. intros [? ?]. breflect.
  split; [destruct (n =? 0); [done|]; cbn [orb]|change (20 =? 0) with false; cbn [orb]]; apply andb_true_iff; split; apply Z.leb_le; lia.
Qed.

(** The packet with its header. *)
Definition with_header (src dest ttl tos proto id : Z) (options c : list Z) : list Z :=
  let o := pad_options options in
  ip_header src dest ttl tos proto (IP_HLEN + zlen o) (zlen c + zlen o + IP_HLEN) id ++ o ++ c.

Lemma zlen_with_header src dest ttl tos proto id options c :
  zlen (with_header src dest ttl tos proto id options c) = 20 + zlen (pad_options options) + zlen c.
Proof. unfold with_header. rewrite !zlen_app. change (zlen (ip_header _ _ _ _ _ _ _ _)) with 20. lia. Qed.

(** ip4_output_if_opt_src up to ip4_transmit: the packet has its header. *)
Lemma opt_src_built s p b l F c n src dest ttl tos proto options :
  excl s (((p, b) :: l) ++ F) → ram_struct b → linked (Some p) ((p, b) :: l) → lens_ok ((p, b) :: l) →
  content (dat s) ((p, b) :: l) = Some c → zlen options ≤ 40 → header_fits p (zlen (pad_options options) + IP_HLEN) b false = true →
  ∃ s2 k, ip4_output_if_opt_src p src (Some dest) ttl tos proto n options s = ip4_transmit p dest n s2 ∧
    excl s2 (((p, grown k b) :: l) ++ F) ∧ lens_ok ((p, grown k b) :: l) ∧
    content (dat s2) ((p, grown k b) :: l) = Some (with_header (default IPADDR_ANY src) dest ttl tos proto (ip_id (al s)) options c) ∧
    20 ≤ len (grown k b) ∧ 0 ≤ k ∧ keeps (((p, b) :: l) ++ F) (dat s) (dat s2) ∧ al s2 = next_id (al s) ∧ dom (pb s2) = dom (pb s).
Proof.
  intros Hx Hram Hl Hlen Hc Ho Hfit. destruct (excl_get _ _ p b Hx) as [Hpb Hr]; [by left|].
  pose proof (content_length _ _ _ Hlen Hc) as Hz. set (o := pad_options options) in *. pose proof (zlen_nonneg o) as Hzo.
  pose proof Hlen as (Hlb & Htb & Htb2 & Hll). pose proof (lens_ok_range _ Hlen) as Hrange. pose proof (lens_ok_range _ Hll) as Hrange2. cbn [bytes_in] in Hrange, Hz.
  destruct (fits_split p b (zlen o) Hram Hzo Hfit) as [Hf1 Hf2].
  destruct (put_options_ok s p b (l ++ F) options) as (_ & _ & Hopt); try done; try lia. fold o in Hopt.
  destruct (Hopt Ho Hf1) as (d1 & Hrun1 & Hx1 & Hk1 & Ht1 & Hm1).
  set (s1 := set_dat d1 (putp p (grown (zlen o) b) s)) in *. set (b1 := grown (zlen o) b) in *.
  destruct (put_header_ok s1 p b1 (l ++ F) src dest ttl tos proto (IP_HLEN + zlen o)) as [_ Hhdr]; try done;
    [unfold b1; cbn [grown with_tot_len with_len with_payload len tot_len]; lia..|].
  destruct (Hhdr Hf2) as (d2 & Hrun2 & Hx2 & Hk2 & Ht2 & Hm2). set (s2 := set_dat d2 (on_ip next_id (putp p (grown IP_HLEN b1) s1))) in *.
  unfold ip4_output_if_opt_src. rewrite (getp_some _ _ _ Hpb). cbn [mbind res_bind]. rewrite Hr. cbn [Z.eqb Pos.eqb LWIP_ASSERT mbind res_bind].
  rewrite Hrun1. cbn [mbind res_bind]. change (negb (ERR_OK =? ERR_OK)) with false. cbv iota. rewrite Hrun2. cbn [mbind res_bind]. change (negb (ERR_OK =? ERR_OK)) with false. cbv iota.
  assert (Hlen1 : lens_ok ((p, b1) :: l)) by (by apply lens_grown). change IP_HLEN with 20 in *.
  assert (Hc1 : content d1 ((p, b1) :: l) = Some (o ++ c)).
  { apply content_grown; [lia|lia|done|]. rewrite (keeps_content ((p, b) :: l ++ F) (dat s) d1); try done.
    intros x Hx'. rewrite app_comm_cons. apply elem_of_app. by left. }
  exists s2, (zlen o + 20). rewrite <-grown_grown. fold b1. split_and!; [done|done|by apply lens_grown| | |lia| |done|].
  - apply (content_grown d2 p b1 l 20 (ip_header (default IPADDR_ANY src) dest ttl tos proto (20 + zlen o) (zlen c + zlen o + 20) (ip_id (al s)))); [lia|cbn; lia| |].
    + change (Z.to_nat 20) with 20%nat. etransitivity; [exact Hm2|]. do 2 f_equal. unfold b1. cbn [grown with_tot_len tot_len]. lia.
    + rewrite (keeps_content ((p, b1) :: l ++ F) d1 d2); try done. intros x Hx'. rewrite app_comm_cons. apply elem_of_app. by left.
  - unfold b1. cbn [grown with_tot_len with_len with_payload len]. lia.
  - eapply (keeps_trans _ _ d1); [exact Hk1|]. eapply (keeps_grown p b (l ++ F) (zlen o)); [lia|exact Hk2].
  - cbn [s2 s1 set_dat on_ip set_al putp pb]. rewrite insert_insert_eq. apply dom_insert_lookup_L. by exists b.
Qed.

Lemma output_opt_src_ok s p b l F c n i src dest ttl tos proto options :
  excl s (((p, b) :: l) ++ F) → ram_struct b → linked (Some p) ((p, b) :: l) → lens_ok ((p, b) :: l) →
  content (dat s) ((p, b) :: l) = Some c → ifs (net (al s)) !! n = Some i → zlen options ≤ 40 →
  header_fits p (zlen (pad_options options) + IP_HLEN) b false = true →
  let c' := with_header (default IPADDR_ANY src) dest ttl tos proto (ip_id (al s)) options c in can_cut (mtu i) c' →
  ∃ e s' k, ip4_output_if_opt_src p src (Some dest) ttl tos proto n options s = Ok (e, s') ∧ held s' p ((p, grown k b) :: l) F ∧
    calm (on_ip next_id s) s' ∧ keeps (((p, b) :: l) ++ F) (dat s) (dat s') ∧ sent_as n dest (mtu i) c' e s s'.
Proof.
  intros Hx Hram Hl Hlen Hc Hi Ho Hfit c' Hcut.
  destruct (opt_src_built s p b l F c n src dest ttl tos proto options) as (s2 & k & -> & Hx2 & Hlen2 & Hc2 & Hl20 & Hk0 & Hk & Hal & _); try done.
  destruct (transmit_ok s2 p (grown k b) l F c' n i dest) as (e & s' & k' & Hrun & Hh & Hcalm & Hk' & Hs); try done; [by rewrite Hal|].
  rewrite grown_grown in Hh. exists e, s', (k + k'). unfold calm, sent_as, log in *. rewrite Hal in Hcalm, Hs. split_and!; try done.
  eapply (keeps_trans _ _ (dat s2)); [exact Hk|]. by eapply (keeps_grown p b (l ++ F) k).
Qed.

(** The source address: that of the interface unless the caller gives one. *)
Definition source (i : iface) (src : option Z) : Z := if ip4_addr_isany src then nip i else default IPADDR_ANY src.

Lemma output_if_ok s p b l F c n i src dest ttl tos proto :
  excl s (((p, b) :: l) ++ F) → ram_struct b → linked (Some p) ((p, b) :: l) → lens_ok ((p, b) :: l) →
  content (dat s) ((p, b) :: l) = Some c → ifs (net (al s)) !! n = Some i → header_fits p IP_HLEN b false = true →
  let c' := with_header (source i src) dest ttl tos proto (ip_id (al s)) [] c in can_cut (mtu i) c' →
  ∃ e s' k, ip4_output_if p src (Some dest) ttl tos proto n s = Ok (e, s') ∧ held s' p ((p, grown k b) :: l) F ∧
    calm (on_ip next_id s) s' ∧ keeps (((p, b) :: l) ++ F) (dat s) (dat s') ∧ sent_as n dest (mtu i) c' e s s'.
Proof.
  intros Hx Hram Hl Hlen Hc Hi Hfit c' Hcut. unfold ip4_output_if, ip4_output_if_opt.
  assert (Hsrc : (if ip4_addr_isany src then i0 ← getn n (net (al s)); Ok (Some (nip i0)) else Ok src) = Ok (if ip4_addr_isany src then Some (nip i) else src)).
  { destruct (ip4_addr_isany src); [|done]. unfold getn. by rewrite Hi. }
  rewrite Hsrc. cbn [mbind res_bind].
  assert (Hdef : default IPADDR_ANY (if ip4_addr_isany src then Some (nip i) else src) = source i src) by (unfold source; by destruct (ip4_addr_isany src)).
  pose proof (output_opt_src_ok s p b l F c n i (if ip4_addr_isany src then Some (nip i) else src) dest ttl tos proto []) as Hgen.
  rewrite Hdef in Hgen. by apply Hgen.
Qed.

(** No room for the header: nothing happens. *)
Lemma output_if_no_room s p b l F n i src dest ttl tos proto :
  excl s (((p, b) :: l) ++ F) → ram_struct b → lens_ok ((p, b) :: l) → ifs (net (al s)) !! n = Some i →
  header_fits p IP_HLEN b false = false → ip4_output_if p src (Some dest) ttl tos proto n s = Ok (ERR_BUF, s).
Proof.
  intros Hx Hram Hlen Hi Hfit. destruct (excl_get _ _ p b Hx) as [Hpb Hr]; [by left|]. unfold ip4_output_if, ip4_output_if_opt.
  assert (Hsrc : ∃ v, (if ip4_addr_isany src then i0 ← getn n (net (al s)); Ok (Some (nip i0)) else Ok src) = Ok v).
  { destruct (ip4_addr_isany src); [|by exists src]. unfold getn. rewrite Hi. by exists (Some (nip i)). }
  destruct Hsrc as [v ->]. cbn [mbind res_bind]. unfold ip4_output_if_opt_src. rewrite (getp_some _ _ _ Hpb). cbn [mbind res_bind]. rewrite Hr.
  cbn [Z.eqb Pos.eqb LWIP_ASSERT mbind res_bind]. change (put_options p [] s) with (Ok (ERR_OK, IP_HLEN, s)). cbn [mbind res_bind].
  change (negb (ERR_OK =? ERR_OK)) with false. cbv iota. pose proof Hlen as (Hlb & Htb & Htb2 & Hll). apply lens_ok_range in Hll.
  destruct (put_header_ok s p b (l ++ F) v dest ttl tos proto IP_HLEN) as [Hno _]; try done; try lia.
  by rewrite (Hno Hfit).
Qed.

(** C32: Sending a packet.  ip4_output of a packet in the heap that its caller alone holds, to a
    destination that [ip4_route] sends through the interface [n]:
    without room for the header in front of the data nothing happens and the result is
    ERR_BUF; otherwise the packet gets a header with the given fields, the next
    identification and the address of the interface as the source unless another is given,
    and exactly this packet is handed to the link layer, or its fragments in order when it
    is larger than the MTU, where memory may run out on the way (ERR_MEM).  The caller still
    holds the packet, no other packet and no interface changed, and the identification has
    been incremented.  Without a route the result is ERR_RTE and nothing happens. *)
Theorem ip4_output_sends s p b l F c src dest ttl tos proto :
  excl s (((p, b) :: l) ++ F) → ram_struct b → linked (Some p) ((p, b) :: l) → lens_ok ((p, b) :: l) →
  content (dat s) ((p, b) :: l) = Some c →
  (ip4_route dest s = Ok None → ip4_output p src dest ttl tos proto s = Ok (ERR_RTE, s)) ∧
  ∀ n i, ip4_route dest s = Ok (Some n) → ifs (net (al s)) !! n = Some i →
    (header_fits p IP_HLEN b false = false → ip4_output p src dest ttl tos proto s = Ok (ERR_BUF, s)) ∧
    (header_fits p IP_HLEN b false = true →
     let c' := with_header (source i src) dest ttl tos proto (ip_id (al s)) [] c in can_cut (mtu i) c' →
     ∃ e s' k, ip4_output p src dest ttl tos proto s = Ok (e, s') ∧ held s' p ((p, grown k b) :: l) F ∧
       calm (on_ip next_id s) s' ∧ keeps (((p, b) :: l) ++ F) (dat s) (dat s') ∧ sent_as n dest (mtu i) c' e s s').
Proof.
  intros Hx Hram Hl Hlen Hc. destruct (excl_get _ _ p b Hx) as [Hpb Hr]; [by left|].
  unfold ip4_output. rewrite (getp_some _ _ _ Hpb). cbn [mbind res_bind]. rewrite Hr. cbn [Z.eqb Pos.eqb LWIP_ASSERT mbind res_bind].
  split; [by intros ->|]. intros n i -> Hi. cbn [mbind res_bind]. split; intros Hfit; [by eapply output_if_no_room|].
  intros Hcut. by apply output_if_ok.
Qed.

(** A packet that has its header already is sent as it is. *)
Lemma output_hdrincl_ok s p b l F c n i src ttl tos proto :
  excl s (((p, b) :: l) ++ F) → linked (Some p) ((p, b) :: l) → lens_ok ((p, b) :: l) →
  content (dat s) ((p, b) :: l) = Some c → ifs (net (al s)) !! n = Some i → 20 ≤ len b → can_cut (mtu i) c →
  ∃ e s' k, ip4_output_if p src None ttl tos proto n s = Ok (e, s') ∧ held s' p ((p, grown k b) :: l) F ∧
    calm s s' ∧ keeps (((p, b) :: l) ++ F) (dat s) (dat s') ∧ sent_as n (iph_dest (take 20 c)) (mtu i) c e s s'.
Proof.
  intros Hx Hl Hlen Hc Hi Hb Hcut. destruct (excl_get _ _ p b Hx) as [Hpb Hr]; [by left|].
  unfold ip4_output_if, ip4_output_if_opt. cbn [mbind res_bind]. unfold ip4_output_if_opt_src. rewrite (getp_some _ _ _ Hpb). cbn [mbind res_bind].
  rewrite Hr. cbn [Z.eqb Pos.eqb LWIP_ASSERT mbind res_bind]. change IP_HLEN with 20. replace (len b <? 20) with false by lia.
  unfold ld_hdr. rewrite (content_head _ _ _ _ _ Hlen Hc Hb). cbn [deref mbind res_bind]. by apply transmit_ok.
Qed.

(** ** Accounting for the structs in use *)

Section accounting.
Context {K : LinkKeeps A P N W}.

(** A packet that fits the MTU is returned by ip4_transmit. *)
Lemma transmit_returned s p q l F c n i dest e s' : excl s (((p, q) :: l) ++ F) → linked (Some p) ((p, q) :: l) → lens_ok ((p, q) :: l) →
  content (dat s) ((p, q) :: l) = Some c → ifs (net (al s)) !! n = Some i → too_large (mtu i) c = false →
  ip4_transmit p dest n s = Ok (e, s') → returned s s' (p :: l.*1).
Proof.
  intros Hx Hl Hlen Hc Hi Hfit Hrun. destruct (excl_get _ _ p q Hx) as [Hpb _]; [by left|].
  pose proof (content_length _ _ _ Hlen Hc) as Hz. assert (Htot : tot_len q = zlen c) by (simpl in Hlen, Hz; lia).
  unfold ip4_transmit, getn in Hrun. rewrite Hi in Hrun. cbn [deref mbind res_bind] in Hrun. rewrite (getp_some _ _ _ Hpb) in Hrun. cbn [mbind res_bind] in Hrun.
  rewrite Htot in Hrun. fold (too_large (mtu i) c) in Hrun. rewrite Hfit in Hrun. by eapply (output_returned s n dest p q l F c).
Qed.

Lemma hdrincl_returned s p b l F c n i src ttl tos proto e s' :
  excl s (((p, b) :: l) ++ F) → linked (Some p) ((p, b) :: l) → lens_ok ((p, b) :: l) →
  content (dat s) ((p, b) :: l) = Some c → ifs (net (al s)) !! n = Some i → 20 ≤ len b → too_large (mtu i) c = false →
  ip4_output_if p src None ttl tos proto n s = Ok (e, s') → returned s s' (p :: l.*1).
Proof.
  intros Hx Hl Hlen Hc Hi Hb Hfit. destruct (excl_get _ _ p b Hx) as [Hpb Hr]; [by left|].
  unfold ip4_output_if, ip4_output_if_opt. cbn [mbind res_bind]. unfold ip4_output_if_opt_src. rewrite (getp_some _ _ _ Hpb). cbn [mbind res_bind].
  rewrite Hr. cbn [Z.eqb Pos.eqb LWIP_ASSERT mbind res_bind]. change IP_HLEN with 20. replace (len b <? 20) with false by lia.
  unfold ld_hdr. rewrite (content_head _ _ _ _ _ Hlen Hc Hb). cbn [deref mbind res_bind]. by eapply (transmit_returned s p b l F c).
Qed.

Lemma output_if_returned s p b l F c n i dest ttl tos proto e s' :
  excl s (((p, b) :: l) ++ F) → ram_struct b → linked (Some p) ((p, b) :: l) → lens_ok ((p, b) :: l) →
  content (dat s) ((p, b) :: l) = Some c → ifs (net (al s)) !! n = Some i → header_fits p IP_HLEN b false = true →
  too_large (mtu i) (with_header (nip i) dest ttl tos proto (ip_id (al s)) [] c) = false →
  ip4_output_if p None (Some dest) ttl tos proto n s = Ok (e, s') → returned s s' (p :: l.*1).
Proof.
  intros Hx Hram Hl Hlen Hc Hi Hfit Hsmall. unfold ip4_output_if, ip4_output_if_opt. cbn [ip4_addr_isany]. unfold getn. rewrite Hi. cbn [deref mbind res_bind].
  destruct (opt_src_built s p b l F c n (Some (nip i)) dest ttl tos proto []) as (s2 & k & -> & Hx2 & Hlen2 & Hc2 & _ & _ & _ & Hal & Hdom); try done.
  intros Hrun. unfold returned. rewrite <-Hdom. eapply (transmit_returned s2 p (grown k b) l F _ n i dest); try done. by rewrite Hal.
Qed.

End accounting.

End output.
