(* ===== verification/IcmpFacts.v ===== *)
(** * ICMP: error messages

    icmp_send_response quotes the packet it answers; everything that is held stays as it
    is.  This discharges the contract [ReassEnvLaws] that ip4_reass has with ICMP. *)

From S2P Require Import Prelude ByteMem Def Pbuf PbufFacts PbufData PbufLife PbufChain PbufCopy PbufOwn Ip4Addr Etharp Ip4Frag.
From S2P Require Import Ip4FragQueue Ip4FragState Iface Ip4 Icmp Ip4Facts Ip4FragOut Ip4FragSend Ip4Send Ip4OutFacts Ip4Output.

Lemma alloc_ram_struct {A} `{Allocator A} (s s' : pstate A) layer n p :
  pbuf_alloc layer n PBUF_RAM s = Ok (Some p, s') → ∃ q, pb s' !! p = Some q ∧ ram_struct q.
Proof.
  unfold pbuf_alloc. change (PBUF_RAM =? PBUF_REF) with false. change (PBUF_RAM =? PBUF_ROM) with false.
  change (PBUF_RAM =? PBUF_POOL) with false. change (PBUF_RAM =? PBUF_RAM) with true. cbn [orb].
  destruct (_ || _); [done|]. destruct (mem_malloc _ _) as [[[r|] a]| | |]; cbn [mbind res_bind]; try done.
  destruct (_ =? 0); cbn [LWIP_ASSERT mbind res_bind]; [|done]. intros [= <- <-]. eexists. split; [apply lookup_insert_eq|done].
Qed.

(** There is memory for a packet of [n] bytes in the heap. *)
Definition ram_available {A} `{Allocator A} (layer n : Z) (s : pstate A) : bool :=
  match pbuf_alloc layer n PBUF_RAM s with Ok (Some _, _) => true | _ => false end.

(** What pbuf_alloc of such a packet does to the structs in use. *)
Lemma alloc_ram_structs {A} `{AllocatorLaws A} (s : pstate A) F layer n r s' : excl s F → 0 ≤ layer ≤ PBUF_TRANSPORT → 0 < n ≤ 65535 →
  pbuf_alloc layer n PBUF_RAM s = Ok (r, s') →
  match r with None => pb s' = pb s | Some p => pb s !! p = None ∧ ∃ q, pb s' = <[p := q]> (pb s) end.
Proof.
  intros ((L & HL & _) & _) Hlay Hn Hrun. destruct (alloc_ram_ok s L layer n HL Hlay) as (r1 & s1 & Hrun1 & _ & Hr); [unfold is_u16; lia|].
  rewrite Hrun in Hrun1. injection Hrun1 as <- <-. destruct r as [p|]; [|by destruct Hr]. destruct Hr as (m & q & _ & _ & Hpb & _ & _ & _ & _ & _ & _ & _ & Hnew). split; [done|]. by exists q.
Qed.

(** Every fragment has at least one byte. *)
Lemma fragments_count hdr c mtu nfb mf : 1 ≤ nfb → ∀ k left ofo, 0 ≤ left → zlen (fragments k hdr c mtu nfb mf left ofo) ≤ left.
Proof.
  intros Hn k. induction k as [|k IH]; intros left ofo Hl; cbn [fragments]; [done|].
  destruct (left =? 0) eqn:E; breflect; [unfold zlen; simpl; lia|]. rewrite zlen_cons.
  specialize (IH (left - Z.min left (nfb * 8)) (u16 (ofo + nfb)) ltac:(lia)). lia.
Qed.

Section icmp.
Context {A P N W : Type} `{LinkLaws A P N W}.
Abbreviation st := (pstate (ipmem A P N W)).
Implicit Types (s : st) (F G l : list (Z * pbuf)).

(** The interfaces are such that messages can be sent: those that are named exist, and no
    MTU is too small for a fragment. *)
Definition net_fine {B} (m : ipmem B P N W) : Prop :=
  netifs_known m ∧ ∀ n i, ifs (net m) !! n = Some i → mtu i = 0 ∨ 28 ≤ mtu i ≤ 65535.

Lemma small_can_cut mtu c : mtu = 0 ∨ 28 ≤ mtu ≤ 65535 → 20 ≤ zlen c ≤ 274 → can_cut mtu c.
Proof.
  intros Hm Hc Hl. unfold too_large in Hl. apply andb_true_iff in Hl as [Hl _]. breflect. destruct Hm as [->|Hm]; [done|]. split; [done|].
  etransitivity; [apply fragments_count|]; change IP_HLEN with 20; zlia.
Qed.

(** The message: a header of 8 bytes and the beginning of the packet. *)
Definition icmp_message (type code : Z) (quoted : list Z) : list Z := [u8 type; u8 code] ++ word16 0 ++ word16 0 ++ word16 0 ++ quoted.

Lemma sent_as_log n dest mtu c e s1 s1' s2 s2' : log s1 = log s2 → log s1' = log s2' → sent_as n dest mtu c e s1 s1' → sent_as n dest mtu c e s2 s2'.
Proof. intros Hl1 Hl2. unfold sent_as. by rewrite Hl1, Hl2. Qed.

Lemma rest_log s s' : rest (al s') = rest (al s) → log s' = log s.
Proof. unfold rest, log. by intros [= _ _ _ _ _ ->]. Qed.

Lemma route_same s s' dest : net (al s') = net (al s) → ip4_default_multicast_netif (al s') = ip4_default_multicast_netif (al s) →
  ip4_route dest s' = ip4_route dest s.
Proof. unfold ip4_route. by intros -> ->. Qed.

(** The message [m] has gone to [dest], if there is a route, and whatever was made for it, the
    structs at [addrs], has been released or is held by the link layer. *)
Definition routed (dest : Z) s s' (addrs m : list Z) : Prop :=
  match ip4_route dest s with
  | Ok (Some n) =>
      ∃ i e, ifs (net (al s)) !! n = Some i ∧
        let c := with_header (nip i) dest ICMP_TTL 0 IP_PROTO_ICMP (ip_id (al s)) [] m in
        sent_as n dest (mtu i) c e s s' ∧ ∀ K : LinkKeeps A P N W, too_large (mtu i) c = false → accounted s s' addrs
  | _ => log s' = log s ∧ pb s' = without (pb s) addrs
  end.

Lemma ram_fits q qb : ram_struct qb → tot_len qb = 36 → q + SIZEOF_STRUCT_PBUF + PBUF_IP ≤ payload qb → header_fits q IP_HLEN qb false = true.
Proof.
  intros Hram Htq Hroom. unfold header_fits. destruct Hram as [_ Ht]. rewrite Ht, Htq. change IP_HLEN with 20. change PBUF_IP with 54 in Hroom. change SIZEOF_STRUCT_PBUF with 16 in *.
    change (negb (Z.land (u8 PBUF_RAM) PBUF_TYPE_FLAG_STRUCT_DATA_CONTIGUOUS =? 0)) with true. cbv iota. change (36 + 20 <=? 65535) with true. cbn [orb andb]. apply orb_true_iff. right. apply Z.leb_le. lia.
Qed.

(** Routing, sending and releasing the message [h]. *)
Lemma response_sent s F q qb h src : excl s ((q, qb) :: F) → net_fine (al s) → ram_struct qb → next qb = None → len qb = 36 → tot_len qb = 36 →
  q + SIZEOF_STRUCT_PBUF + PBUF_IP ≤ payload qb → mread (dat s) (payload qb) (Z.to_nat 36) = Some h →
  ∃ s', (netif ← ip4_route src s;
         s ← (match netif with
              | None => Ok s
              | Some n =>
                  s ← pst (payload qb + 2) (word16 0) s;
                  '(_, s) ← ip4_output_if q None (Some src) ICMP_TTL 0 IP_PROTO_ICMP n s;
                  Ok s
              end);
         '(_, s) ← pbuf_free (Some q) s; Ok s) = Ok s' ∧ excl s' F ∧ keeps F (dat s) (dat s') ∧
    net (al s') = net (al s) ∧ ip4_default_multicast_netif (al s') = ip4_default_multicast_netif (al s) ∧
    routed src s s' [q] (splice 2 (word16 0) h).
Proof.
  intros Hx [Hknown Hmtu] Hram Hnx Hlq Htq Hroom Hm. assert (Hl : linked (Some q) [(q, qb)]) by done.
  destruct (route_ok s src Hknown) as (r & Hr & _). rewrite Hr. cbn [mbind res_bind]. destruct r as [n|].
  2: { cbn [mbind res_bind]. pose proof (excl_held s q [(q, qb)] F Hx Hl) as Hh. destruct (held_free s q [(q, qb)] F Hh) as (k & s' & Hfree & Hx' & Hd' & Hrest).
       rewrite Hfree. exists s'. pose proof (rest_log s s' Hrest) as Hlog. pose proof (excl_gone _ _ _ _ _ _ Hh Hx Hfree) as Hgone.
       unfold rest in Hrest. injection Hrest as Hn Hmu _ _ _ _. rewrite Hd'. unfold routed. rewrite Hr. split_and!; done. }
  destruct (route_known s src n Hknown Hr) as [i Hi].
  assert (Haw : away (payload qb) 36 F) by (destruct Hx as (_ & _ & [Ha _] & _); by rewrite Hlq in Ha).
  assert (Hk : keeps F (dat s) (dat s)) by done. pose proof (mread_length _ _ _ _ Hm) as Hlh. store Hm Hk 2. set (s1 := set_dat d s) in *.
  assert (Hx1 : excl s1 ([(q, qb)] ++ F)) by (by eapply excl_set_dat).
  assert (Hz : zlen (splice 2 (word16 0) h) = 36) by (rewrite zlen_splice; unfold zlen; simpl; lia).
  assert (Hc : content (dat s1) [(q, qb)] = Some (splice 2 (word16 0) h)).
  { cbn [content]. rewrite Hlq. change (dat s1) with d. rewrite Hm. cbn [mbind option_bind]. by rewrite app_nil_r. }
  destruct (output_if_ok s1 q qb [] F (splice 2 (word16 0) h) n i None src ICMP_TTL 0 IP_PROTO_ICMP) as (e & s2 & k & Hout & Hh & Hcalm & Hk2 & Hs); try done.
  { simpl. lia. }
  { exact (ram_fits q qb Hram Htq Hroom). }
  { apply small_can_cut; [by eapply Hmtu|]. rewrite zlen_with_header, Hz. by compute. }
  rewrite Hout. cbn [mbind res_bind]. destruct (held_free s2 q _ F Hh) as (k3 & s3 & Hfree & Hx3 & Hd3 & Hrest3). rewrite Hfree. exists s3. cbn [mbind res_bind].
  pose proof (rest_log s2 s3 Hrest3) as Hlog3. unfold rest in Hrest3. injection Hrest3 as Hn3 Hmu3 _ _ _ _.
  destruct Hcalm as [w Hcalm]. unfold set_original, set_link, rest in Hcalm. cbn in Hcalm. injection Hcalm as Hn2 Hmu2 _ _ _.
  split_and!; [done|done| |congruence|congruence|].
  - rewrite Hd3. eapply (keeps_trans _ _ d); [done|]. eapply keeps_sub; [|exact Hk2]. intros x ?. apply elem_of_app. by right.
  - unfold routed. rewrite Hr. exists i, e. split; [done|]. split; [eapply sent_as_log; [reflexivity|symmetry; exact Hlog3|exact Hs]|].
    intros K Hsmall. apply (returned_free s s2 q ((q, grown k qb) :: []) F k3 s3 Hh); [|done].
    eapply (output_if_returned s1 q qb [] F _ n i src); try done; [simpl; lia|exact (ram_fits q qb Hram Htq Hroom)].
Qed.

(** What the stores of icmp_send_response make of the 36 bytes [h]. *)
Lemma quoted_message type code (quoted h : list Z) : length quoted = Z.to_nat 28 → length h = Z.to_nat 36 →
  splice 2 (word16 0) (splice 8 quoted (splice 6 (word16 0) (splice 4 (word16 0) (splice 1 [u8 code] (splice 0 [u8 type] h))))) = icmp_message type code quoted.
Proof.
  intros Hlq2 Hh. change (Z.to_nat 36) with 36%nat in Hh. do 36 (destruct h as [|? h]; [discriminate Hh|]). destruct h; [|discriminate Hh].
  change (Z.to_nat 28) with 28%nat in Hlq2. do 28 (destruct quoted as [|? quoted]; [discriminate Hlq2|]). destruct quoted; [reflexivity|discriminate Hlq2].
Qed.

(** The message goes out if there is memory for it; otherwise nothing happens. *)
Definition reported (dest : Z) s s' (m : list Z) : Prop :=
  if ram_available PBUF_IP 36 s then routed dest s s' [] m else log s' = log s ∧ pb s' = pb s.

Lemma send_response_ok s F p b type code : excl s F → net_fine (al s) → (p, b) ∈ F → mapped (dat s) (payload b) 28 →
  ∃ s' quoted hdr, icmp_send_response p type code s = Ok s' ∧ excl s' F ∧ keeps F (dat s) (dat s') ∧
    net (al s') = net (al s) ∧ ip4_default_multicast_netif (al s') = ip4_default_multicast_netif (al s) ∧
    (28 ≤ len b → mread (dat s) (payload b) 28 = Some quoted ∧ hdr = take 20 quoted) ∧
    reported (iph_src hdr) s s' (icmp_message type code quoted).
Proof.
  intros Hx [Hknown Hmtu] Hin Hmap. unfold icmp_send_response.
  change (SIZEOF_ICMP_ECHO_HDR + IP_HLEN + ICMP_DEST_UNREACH_DATASIZE) with 36.
  destruct (excl_alloc_ram (H0 := ip_laws (eq (rest (al s)))) s F PBUF_IP 36) as (r & s1 & Hal & Hd1 & Hr); [by apply excl_inv|by compute|done|].
  rewrite Hal. cbn [mbind res_bind]. unfold reported, ram_available. rewrite Hal.
  pose proof (alloc_ram_structs s F PBUF_IP 36 r s1 Hx ltac:(by compute) ltac:(done) Hal) as Hpb1. destruct r as [q|].
  2: { apply excl_inv in Hr as [Hr Hrest]. destruct (proj2 (mread_Some (dat s) (payload b) 28) Hmap) as [qd Hqd].
       exists s1, qd, (take 20 qd). rewrite Hd1. pose proof (rest_log s s1 (eq_sym Hrest)) as Hlog. unfold rest in Hrest. injection Hrest as <- <- _ _ _ _. split_and!; done. }
  destruct Hpb1 as (Hnew & qb0 & Hpb1). destruct Hr as (qb & [Hx1 Hrest]%excl_inv & Hnx & Hlq & Htq & Hmq & _ & Hroom).
  destruct (alloc_ram_struct _ _ _ _ _ Hal) as (qb' & Hqb' & Hram). destruct (excl_get _ _ q qb Hx1) as [Hqb Hqr]; [by left|].
  rewrite Hqb in Hqb'. injection Hqb' as <-. rewrite (getp_some _ _ _ Hqb). cbn [mbind res_bind]. rewrite Hlq. cbn [Z.leb Z.compare Pos.compare Pos.compare_cont LWIP_ASSERT mbind res_bind].
  rewrite (excl_getp s1 ((q, qb) :: F) p b Hx1) by (by right). cbn [mbind res_bind].
  assert (Haw : away (payload qb) 36 F) by (destruct Hx1 as (_ & _ & [Ha _] & _); by rewrite Hlq in Ha).
  rewrite <-Hd1 in Hmq. destruct (proj2 (mread_Some (dat s1) (payload qb) (Z.to_nat 36)) Hmq) as [h Hm].
  pose proof (mread_length _ _ _ _ Hm) as Hlh. assert (Hk : keeps F (dat s1) (dat s1)) by done.
  store Hm Hk 0. store Hm Hk 1. store Hm Hk 4. store Hm Hk 6. change (payload qb + SIZEOF_ICMP_ECHO_HDR) with (payload qb + 8).
  change (IP_HLEN + ICMP_DEST_UNREACH_DATASIZE) with 28. rewrite !set_dat_twice. change (dat (set_dat d2 s1)) with d2.
  destruct (proj2 (mread_Some d2 (payload b) (Z.to_nat 28))) as [quoted Hq]; [eapply keeps_mapped; [exact Hk|by rewrite Hd1]|].
  pose proof (mread_length _ _ _ _ Hq) as Hlq2. assert (Hmd2 : mapped d2 (payload qb) 36) by exact (mread_mapped _ _ _ _ Hm).
  rewrite (memcpy_ok _ _ _ _ quoted) by (done || (eapply mapped_mono; [| |exact Hmd2]; lia)). cbn [mbind res_bind]. rewrite set_dat_twice.
  assert (Hzq : zlen quoted = 28) by (unfold zlen; lia).
  assert (Hk3 : keeps F d2 (mwrite d2 (payload qb + 8) quoted)) by (apply keeps_mwrite; rewrite Hzq; eapply away_mono; [| |exact Haw]; lia).
  apply (mread_splice _ _ _ _ 8 quoted) in Hm; [|lia..]. set (d3 := mwrite d2 (payload qb + 8) quoted) in *. pose proof (keeps_trans _ _ _ _ Hk Hk3) as Hk'.
  destruct (proj2 (mread_Some d3 (payload b) 20)) as [hdr Hhdr].
  { eapply keeps_mapped; [exact Hk'|]. rewrite Hd1. eapply mapped_mono; [| |exact Hmap]; simpl; lia. }
  unfold ld_hdr. change (dat (set_dat d3 s1)) with d3. rewrite Hhdr. cbn [deref mbind res_bind].
  assert (Hnet : net (al s1) = net (al s) ∧ ip4_default_multicast_netif (al s1) = ip4_default_multicast_netif (al s) ∧ ip_id (al s1) = ip_id (al s)).
  { unfold rest in Hrest. by injection Hrest as -> -> -> _ _ _. }
  destruct Hnet as (Hn1 & Hmu1 & Hid1). pose proof (rest_log s s1 (eq_sym Hrest)) as Hlog1.
  assert (Hfine : net_fine (al (set_dat d3 s1))).
  { split; cbn [set_dat al]; [|by rewrite Hn1]. destruct Hknown as [Hk1 Hk2 Hk4]. split; by rewrite ?Hn1, ?Hmu1. }
  destruct (response_sent (set_dat d3 s1) F q qb _ (iph_src hdr) (excl_set_dat _ _ _ _ Hx1 Hk') Hfine Hram Hnx Hlq Htq Hroom Hm) as (s' & Hrun & Hx' & Hk4 & Hn' & Hmu' & Hres).
  exists s', quoted, hdr. split; [exact Hrun|]. split; [done|]. split; [rewrite <-Hd1; by eapply keeps_trans|].
  cbn [set_dat al] in Hn', Hmu', Hres. split; [by rewrite Hn'|]. split; [by rewrite Hmu'|]. split.
  - intros Hlb. rewrite <-Hd1. pose proof (keeps_mread _ _ _ p b Hk Hin 0 28%nat ltac:(lia) ltac:(lia)) as Hr1.
    pose proof (keeps_mread _ _ _ p b Hk' Hin 0 20%nat ltac:(lia) ltac:(lia)) as Hr2. rewrite !Z.add_0_r in *.
    change (Z.to_nat 28) with 28%nat in Hq. rewrite Hq in Hr1. split; [symmetry; exact Hr1|]. rewrite Hhdr in Hr2.
    change 28%nat with (20 + 8)%nat in Hr1. rewrite mread_app, <-Hr2 in Hr1. cbn [mbind option_bind] in Hr1.
    destruct (mread (dat s1) (payload b + Z.of_nat 20) 8) as [x|]; [|done]. injection Hr1 as ->. apply mread_length in Hhdr. by rewrite take_app_length'.
  - unfold routed in Hres |- *. assert (Hrt : ip4_route (iph_src hdr) s = ip4_route (iph_src hdr) (set_dat d3 s1)) by (symmetry; by apply route_same).
    rewrite Hrt. cbn [set_dat al pb] in Hres. rewrite Hn1, Hid1 in Hres.
    rewrite (quoted_message type code quoted _ Hlq2 Hlh) in Hres. assert (Hquiet : log s' = log (set_dat d3 s1) ∧ pb s' = without (pb (set_dat d3 s1)) [q] → log s' = log s ∧ pb s' = without (pb s) []).
    { intros [Hl Hp]. split; [by rewrite Hl|]. rewrite Hp. cbn [set_dat pb]. rewrite Hpb1. by apply delete_insert_id. }
    destruct (ip4_route _ _) as [[n|]| | |]; [|by apply Hquiet..].
    destruct Hres as (i & e & Hi & Hs & Hacc). exists i, e. split; [done|]. split; [eapply sent_as_log; [exact Hlog1|reflexivity|exact Hs]|].
    intros K Hsmall. refine (accounted_sub _ _ _ _ _ _ (Hacc K Hsmall)). cbn [set_dat pb]. rewrite Hpb1, dom_insert_L. clear. set_solver.
Qed.

(** Error messages.  icmp_dest_unreach and icmp_time_exceeded, given a packet whose first struct holds
    at least the IP header and 8 more bytes, send to its source, through the interface the
    routing chooses, an ICMP message with the given type and code that quotes these 28
    bytes, from the address of that interface, exactly when there is memory for it and a
    route; otherwise nothing is sent and the structs in use are the same.  Whatever happens,
    every packet that is held stays as it is and no interface changes. *)
Theorem icmp_response_quotes s F p b type code quoted :
  excl s F → net_fine (al s) → (p, b) ∈ F → 28 ≤ len b → mread (dat s) (payload b) 28 = Some quoted →
  let src := iph_src (take 20 quoted) in
  ∃ s', icmp_send_response p type code s = Ok s' ∧ excl s' F ∧ keeps F (dat s) (dat s') ∧ net (al s') = net (al s) ∧
    reported src s s' (icmp_message type code quoted).
Proof.
  intros Hx Hfine Hin Hlb Hq src. destruct (send_response_ok s F p b type code Hx Hfine Hin) as (s' & qd & hdr & Hrun & Hx' & Hk & Hn & _ & Hqd & Hres).
  { exact (mread_mapped _ _ 28 _ Hq). }
  destruct (Hqd Hlb) as [Hqd' ->]. rewrite Hq in Hqd'. injection Hqd' as <-. by exists s'.
Qed.

End icmp.
