(* ===== verification/IcmpEcho.v ===== *)
(** * ICMP: echo

    icmp_input answers an echo request with [echo_reply], in the buffer of the request or
    in a copy of it, and drops everything else. *)

From S2P Require Import Prelude ByteMem Def Chksum ChksumFacts Pbuf PbufFacts PbufData PbufLife PbufChain PbufCopy PbufOwn Ip4Addr Etharp Ip4Frag.
From S2P Require Import Ip4FragQueue Iface Ip4 Icmp Ip4Facts Ip4FragOut Ip4FragSend Ip4Send Ip4OutFacts Ip4Output IcmpFacts.

(** The reply to the request [c], whose IP header has [hlen] bytes: the addresses, the type
    and the time to live are set, the checksums are cleared. *)
Definition echo_reply (hlen src dest : Z) (c : list Z) : list Z :=
  splice 10 (word16 0) (splice 8 [ICMP_TTL] (splice (hlen + 2) (word16 0) (splice hlen [ICMP_ER] (splice 16 (word32 dest) (splice 12 (word32 src) c))))).

Lemma splice_eq {B} off (w l : list B) : 0 ≤ off → splice off w l = take (Z.to_nat off) l ++ w ++ drop (Z.to_nat off + length w) l.
Proof.
  intros Ho. unfold splice, slice, zlen. rewrite (take_ge (drop (Z.to_nat (off + _)) l)) by (rewrite length_drop; lia).
  rewrite drop_0. do 3 f_equal. lia.
Qed.

Lemma take_splice_lt {B} (n : nat) off (w l : list B) : Z.of_nat n ≤ off → (n ≤ length l)%nat → take n (splice off w l) = take n l.
Proof. intros Hn Hl. rewrite splice_eq by lia. rewrite take_app_le by (rewrite length_take; lia). rewrite take_take. f_equal. lia. Qed.

Lemma take_splice_le {B} (n : nat) off (w l : list B) : 0 ≤ off → off + zlen w ≤ Z.of_nat n → (n ≤ length l)%nat →
  take n (splice off w l) = splice off w (take n l).
Proof.
  intros Ho Hw Hl. unfold zlen in *. rewrite !splice_eq by lia. rewrite firstn_app, !take_take, length_take. f_equal; [f_equal; lia|].
  rewrite firstn_app, (take_ge w), skipn_firstn_comm by lia. do 2 f_equal. lia.
Qed.

(** Stores do not change the length. *)
Ltac zsplice :=
  lazymatch goal with
  | |- context [zlen (splice ?o ?w ?l)] =>
      rewrite (zlen_splice o w l); [try zsplice|lia|change (zlen w) with (Z.of_nat (length w)); cbn [length word16 word32]; zsplice; lia]
  | _ => idtac
  end.

Lemma zlen_echo_reply hlen src dest c : 20 ≤ hlen → hlen + 4 ≤ zlen c → zlen (echo_reply hlen src dest c) = zlen c.
Proof. intros Hh Hc. unfold echo_reply. by zsplice. Qed.

Lemma echo_reply_dest hlen src dest c : 20 ≤ hlen → hlen + 4 ≤ zlen c → is_u32 dest → iph_dest (take 20 (echo_reply hlen src dest c)) = dest.
Proof.
  intros Hh Hc Hd. set (c1 := splice 16 (word32 dest) (splice 12 (word32 src) c)).
  assert (Hz0 : zlen (splice 12 (word32 src) c) = zlen c) by (by zsplice).
  assert (Hz1 : zlen c1 = zlen c) by (unfold c1; by zsplice).
  assert (Hz2 : zlen (splice hlen [ICMP_ER] c1) = zlen c) by (by zsplice).
  assert (Hz3 : zlen (splice (hlen + 2) (word16 0) (splice hlen [ICMP_ER] c1)) = zlen c) by (by zsplice).
  assert (Hz4 : zlen (splice 8 [ICMP_TTL] (splice (hlen + 2) (word16 0) (splice hlen [ICMP_ER] c1))) = zlen c) by (by zsplice).
  unfold zlen in *. unfold echo_reply. fold c1. rewrite (take_splice_le 20 10), (take_splice_le 20 8), !take_splice_lt by (unfold zlen; simpl; lia).
  clear Hz2 Hz3 Hz4. unfold c1. rewrite (take_splice_le 20 16), (take_splice_le 20 12) by (unfold zlen; simpl; lia).
  assert (Hl : length (take 20 c) = 20%nat) by (rewrite length_take; lia). revert Hl. generalize (take 20 c). clear -Hd. intros h Hl.
  do 20 (destruct h as [|? h]; [discriminate Hl|]). destruct h; [|discriminate Hl]. transitivity (rd32 (word32 dest) 0); [reflexivity|by apply rd32_word32].
Qed.

Section echo.
Context {A P N W : Type} `{LinkLaws A P N W}.
Abbreviation st := (pstate (ipmem A P N W)).
Implicit Types (s : st) (F G l : list (Z * pbuf)) (c hdr : list Z).

(** A store into the first struct of a packet. *)
Lemma pst_content s p b l G c a off v : excl s (((p, b) :: l) ++ G) → lens_ok ((p, b) :: l) → content (dat s) ((p, b) :: l) = Some c →
  a = payload b + off → 0 ≤ off → off + zlen v ≤ len b →
  ∃ d, pst a v s = Ok (set_dat d s) ∧ excl (set_dat d s) (((p, b) :: l) ++ G) ∧ content d ((p, b) :: l) = Some (splice off v c) ∧ keeps G (dat s) d.
Proof.
  intros Hx Hlen Hc -> Ho Hv. exists (mwrite (dat s) (payload b + off) v). pose proof Hx as (_ & _ & Hs & _ & _).
  assert (Hk : keeps G (dat s) (mwrite (dat s) (payload b + off) v)).
  { apply keeps_mwrite. rewrite <-app_comm_cons in Hs. destruct Hs as [Ha _]. apply away_app in Ha as [_ Ha]. eapply away_mono; [| |exact Ha]; lia. }
  split; [|split; [by eapply excl_set_dat|split; [|done]]].
  - unfold pst, mstore. rewrite (proj2 (mapped_b_spec _ _ _ (zlen_nonneg v))); [done|].
    assert (Hm : mapped (dat s) (payload b) (len b)).
    { cbn [content] in Hc. destruct (mread (dat s) (payload b) (Z.to_nat (len b))) as [x|] eqn:E; [|done]. by eapply mread_mapped. }
    eapply mapped_mono; [| |exact Hm]; lia.
  - apply (content_write _ [] p b l c off v); try done. by apply sep_app in Hs as [Hs _].
Qed.

(** A packet whose header is hidden. *)
Lemma excl_hide s p b n G : pb s !! p = Some b → excl (putp p (grown n b) s) ((p, grown n b) :: G) → 0 ≤ n → 0 ≤ len b → excl s ((p, b) :: G).
Proof.
  intros Hb ((L & [Ha HL] & Hpl) & Hnd & Hs & Hf & Hm) Hn Hl. rewrite fmap_cons in *. apply NoDup_cons in Hnd as [Hnot Hnd].
  apply Forall_cons in Hf as [[_ Hr] Hf]. apply Forall_cons in Hpl as [Hp1 Hpl]. split_and!.
  - exists L. split.
    + split; [exact Ha|]. intros a x Hx. destruct (decide (a = p)) as [->|Hne].
      * rewrite Hb in Hx. injection Hx as <-. destruct (HL p (grown n b)) as (y & Hy & Hsy); [apply lookup_insert_eq|]. by exists y.
      * apply HL. cbn [putp pb]. by rewrite lookup_insert_ne.
    + apply Forall_cons. split; [|done]. eapply placed_sub; [exact Hp1|cbn [grown with_tot_len with_len with_payload payload len]; lia..].
  - by apply NoDup_cons.
  - destruct Hs as [Haw Hs]. split; [|done]. eapply away_mono; [| |exact Haw]; cbn [grown with_tot_len with_len with_payload payload len]; lia.
  - apply Forall_cons. split; [done|]. rewrite Forall_forall in Hf |- *. intros x Hx. destruct (Hf x Hx) as [Hx1 Hx2]. split; [|done].
    cbn [putp pb] in Hx1. rewrite lookup_insert_ne in Hx1; [done|]. intros ->. apply Hnot, list_elem_of_fmap. by exists x.
  - exact Hm.
Qed.

(** The reply is written and sent, the packet released. *)
Lemma echo_sent s p b l F all hlen src inp i : pb s !! p = Some b → excl (putp p (grown hlen b) s) (((p, grown hlen b) :: l) ++ F) →
  linked (Some p) ((p, b) :: l) → lens_ok ((p, grown hlen b) :: l) → content (dat s) ((p, grown hlen b) :: l) = Some all →
  20 ≤ hlen → 4 ≤ len b → header_fits p hlen b false = true → ifs (net (al s)) !! inp = Some i → is_u32 (current_iphdr_src (ip_data (al s))) →
  let reply := echo_reply hlen src (current_iphdr_src (ip_data (al s))) all in can_cut (mtu i) reply →
  ∃ e s', (s1 ← icmp_echo_reply p hlen src inp s; icmp_drop p s1) = Ok s' ∧ excl s' F ∧ keeps F (dat s) (dat s') ∧ calm s s' ∧
    sent_as inp (current_iphdr_src (ip_data (al s))) (mtu i) reply e s s' ∧
    ∀ K : LinkKeeps A P N W, too_large (mtu i) reply = false → accounted s s' (p :: l.*1).
Proof.
  intros Hb Hx Hl Hlen Hc Hh Hlb Hfit Hi Hu reply Hcut. unfold icmp_echo_reply. rewrite (getp_some _ _ _ Hb). cbn [mbind res_bind].
  pose proof Hlen as (Hl1 & Hl2 & Hl3 & Hll). apply lens_ok_range in Hll as Hr. cbn [grown with_tot_len with_len with_payload payload len tot_len] in Hl1, Hl2, Hl3.
  pose proof (content_length _ _ _ Hlen Hc) as Hz. cbn [bytes_in grown with_tot_len with_len with_payload len] in Hz.
  unfold pbuf_add_header. rewrite (add_header_ok s p b hlen false) by (done || lia). rewrite Hfit. cbn [mbind res_bind Z.eqb negb]. rewrite getp_put_eq. cbn [mbind res_bind].
  set (b0 := grown hlen b) in *. set (s0 := putp p b0 s) in *. assert (Hb0 : payload b = payload b0 + hlen) by (unfold b0; cbn [grown with_tot_len with_len with_payload payload]; lia).
  assert (Hlb0 : len b0 = len b + hlen) by done. change (al s0) with (al s).
  destruct (pst_content s0 p b0 l F all (payload b0 + 12) 12 (word32 src)) as (d1 & -> & Hx1 & Hc1 & Hk1); try done; [unfold zlen; simpl; lia|]. cbn [mbind res_bind]. change (al (set_dat d1 s0)) with (al s).
  destruct (pst_content (set_dat d1 s0) p b0 l F _ (payload b0 + 16) 16 (word32 (current_iphdr_src (ip_data (al s)))) Hx1 Hlen Hc1) as (d2 & -> & Hx2 & Hc2 & Hk2); try done; [unfold zlen; simpl; lia|]. cbn [mbind res_bind].
  destruct (pst_content (set_dat d2 (set_dat d1 s0)) p b0 l F _ (payload b) hlen [ICMP_ER] Hx2 Hlen Hc2 Hb0) as (d3 & -> & Hx3 & Hc3 & Hk3); [lia|unfold zlen; simpl; lia|]. cbn [mbind res_bind].
  destruct (pst_content _ p b0 l F _ (payload b + 2) (hlen + 2) (word16 0) Hx3 Hlen Hc3 ltac:(lia)) as (d4 & -> & Hx4 & Hc4 & Hk4); [lia|unfold zlen; simpl; lia|]. cbn [mbind res_bind].
  destruct (pst_content _ p b0 l F _ (payload b0 + 8) 8 [ICMP_TTL] Hx4 Hlen Hc4 eq_refl) as (d5 & -> & Hx5 & Hc5 & Hk5); [lia|unfold zlen; simpl; lia|]. cbn [mbind res_bind].
  destruct (pst_content _ p b0 l F _ (payload b0 + 10) 10 (word16 0) Hx5 Hlen Hc5 eq_refl) as (d6 & -> & Hx6 & Hc6 & Hk6); [lia|unfold zlen; simpl; lia|]. cbn [mbind res_bind].
  rewrite !set_dat_twice in *. fold reply in Hc6.
  change (splice 10 (word16 0) _) with reply in Hc6.
  destruct (output_hdrincl_ok (set_dat d6 s0) p b0 l F reply inp i (Some src) ICMP_TTL 0 IP_PROTO_ICMP) as (e & s' & k & Hout & Hheld & Hcalm & Hk7 & Hs); try done; [lia|].
  rewrite Hout. cbn [mbind res_bind]. unfold icmp_drop. destruct (held_free s' p _ F Hheld) as (k2 & s2 & Hfree & Hx' & Hd' & Hrest). rewrite Hfree. cbn [mbind res_bind].
  exists e, s2. split; [done|]. split; [done|]. split; [|split; [|split]].
  - rewrite Hd'. eapply (keeps_trans _ _ d6).
    + change (dat s) with (dat s0). cbn [set_dat dat] in *. eauto 8.
    + eapply keeps_sub; [|exact Hk7]. intros x ?. apply elem_of_app. by right.
  - destruct Hcalm as [w Hw]. exists w. unfold calm. rewrite Hrest. exact Hw.
  - unfold reply in Hs. rewrite echo_reply_dest in Hs by (done || lia). eapply sent_as_log; [reflexivity|symmetry; by apply rest_log|exact Hs].
  - intros K Hsmall. apply (accounted_sub s (set_dat d6 s0) s2 (p :: l.*1) (p :: l.*1)).
    { cbn [set_dat s0 putp pb]. by rewrite dom_insert_lookup_L by (by exists b). }
    apply (returned_free (set_dat d6 s0) s' p ((p, grown k b0) :: l) F k2 s2 Hheld); [|done].
    eapply (hdrincl_returned (set_dat d6 s0) p b0 l F reply inp i); try done. lia.
Qed.

(** ** Room for the headers *)

Lemma remove_header_eq s p q n : pb s !! p = Some q → 0 < n ≤ len q → len q ≤ tot_len q → tot_len q ≤ 65535 →
  pbuf_remove_header (Some p) n s = Ok (0, putp p (grown (- n) q) s).
Proof.
  intros Hq Hn H2 H3. unfold pbuf_remove_header. replace (65535 <? n) with false by lia. replace (n =? 0) with false by lia.
  rewrite (getp_some _ _ _ Hq). cbn [mbind res_bind]. rewrite (u16_id n) by ulia. replace (n <=? len q) with true by lia.
  cbn [LWIP_ASSERT mbind res_bind]. rewrite !u16_id by ulia. do 3 f_equal. unfold grown. repeat f_equal; lia.
Qed.

(** What icmp_make_room returns: a packet with the same bytes and room for the IP header. *)
Definition ready s p l F all hlen : Prop :=
  ∃ b, pb s !! p = Some b ∧ excl (putp p (grown hlen b) s) (((p, grown hlen b) :: l) ++ F) ∧ linked (Some p) ((p, b) :: l) ∧
    lens_ok ((p, grown hlen b) :: l) ∧ content (dat s) ((p, grown hlen b) :: l) = Some all ∧ 4 ≤ len b ∧ header_fits p hlen b false = true.

Lemma fits_less p n m b : 0 ≤ n ≤ m → header_fits p m b false = true → header_fits p n b false = true.
Proof.
  intros Hn. unfold header_fits. destruct (n =? 0) eqn:E; [done|]. breflect. replace (m =? 0) with false by lia. cbn [orb]. rewrite !andb_true_iff.
  destruct (negb _); [|by intros [_ ?]]. intros [? ?]. breflect. split; apply Z.leb_le; lia.
Qed.

(** Copying the message [c] of [p] to the end of the new packet [r] with the header [hdr]. *)
Lemma copy_message s p b l F r rb hdr c : excl s (((r, rb) :: (p, b) :: l) ++ F) → ram_struct rb → next rb = None → len rb = zlen hdr + zlen c → tot_len rb = len rb →
  linked (Some p) ((p, b) :: l) → lens_ok ((p, b) :: l) → tail_nonempty ((p, b) :: l) → content (dat s) ((p, b) :: l) = Some c →
  mread (dat s) (payload rb) (Z.to_nat (zlen hdr)) = Some hdr → mapped (dat s) (payload rb) (len rb) → len rb ≤ 65535 → 20 ≤ zlen hdr → 8 ≤ zlen c →
  r + SIZEOF_STRUCT_PBUF + PBUF_LINK ≤ payload rb →
  ∃ s1 d k s2, pbuf_remove_header (Some r) (zlen hdr) s = Ok (0, s1) ∧ pbuf_copy (Some r) (Some p) s1 = Ok (ERR_OK, set_dat d s1) ∧
    pbuf_free (Some p) (set_dat d s1) = Ok (k, s2) ∧ rest (al s2) = rest (al s) ∧ keeps F (dat s) (dat s2) ∧ ready s2 r [] F (hdr ++ c) (zlen hdr) ∧
    dom (pb s2) ⊆ dom (pb s) ∖ list_to_set (p :: l.*1).
Proof.
  intros Hx Hram Hnx Hlr Htr Hl Hlen Hne Hc Hm Hmap Hl16 Hh Hc8 Hroom. set (hlen := zlen hdr) in *. set (rb' := grown (- hlen) rb).
  destruct (excl_get _ _ r rb Hx) as [Hrb _]; [by left|].
  assert (Hp' : payload rb' = payload rb + hlen ∧ len rb' = zlen c ∧ tot_len rb' = zlen c ∧ next rb' = None).
  { unfold rb'. cbn [grown with_tot_len with_len with_payload payload len tot_len next]. split_and!; try done; lia. }
  destruct Hp' as (Hpay & Hlen' & Htot' & Hnx'). set (s1 := putp r rb' s).
  assert (Hx1 : excl s1 (((r, rb') :: (p, b) :: l) ++ F)).
  { destruct (excl_remove_header s r rb (((p, b) :: l) ++ F) hlen) as (s1' & Hr & Hx1 & _); [done|lia..|]. rewrite (remove_header_eq s r rb hlen) in Hr by (done || lia). by injection Hr as <-. }
  assert (Hlt : lens_ok [(r, rb')]) by (simpl; lia). pose proof Hx1 as (_ & Hnd & Hs & _ & _). cbn [app] in Hs. destruct Hs as [Haw Hs].
  rewrite Hpay, Hlen' in Haw. rewrite app_comm_cons in Haw. apply away_app in Haw as [Haw1 Haw2].
  assert (Hct : ∃ ct, content (dat s1) [(r, rb')] = Some ct).
  { cbn [content]. rewrite Hpay, Hlen'. destruct (proj2 (mread_Some (dat s1) (payload rb + hlen) (Z.to_nat (zlen c)))) as [x ->]; [|by exists (x ++ [])].
    eapply mapped_mono; [| |exact Hmap]; lia. }
  destruct Hct as [ct Hct]. pose proof (content_length _ _ _ Hlt Hct) as Hzt. cbn [bytes_in] in Hzt.
  destruct (copy_ok s1 r p [(r, rb')] ((p, b) :: l) ct c) as (d & Hcopy & Hcd & Hfr); try done; try lia.
  { eapply (excl_chain s1 [(r, rb')] (((p, b) :: l) ++ F)); [exact Hx1|by split]. }
  { eapply (excl_chain s1 ((p, b) :: l) ((r, rb') :: F)); [|done]. eapply excl_perm; [|exact Hx1]. cbn [app]. solve_Permutation. }
  { split; [constructor|done]. }
  { intros x Hx'. unfold away in Haw1 |- *. rewrite Forall_forall in Haw1. specialize (Haw1 x Hx'). apply Forall_cons. split; [|constructor]. cbn [snd]. rewrite Hpay, Hlen'. lia. }
  { constructor. }
  assert (Hin : ∀ i, payload rb + hlen ≤ i < payload rb + hlen + zlen c → is_Some (d !! i)).
  { intros i Hi. cbn [content] in Hcd. rewrite Hpay, Hlen' in Hcd. destruct (mread d (payload rb + hlen) (Z.to_nat (zlen c))) as [x|] eqn:E; [|done].
    apply mread_mapped in E. replace i with (payload rb + hlen + (i - payload rb - hlen)) by lia. apply E. lia. }
  assert (Hout : ∀ i, ¬ payload rb + hlen ≤ i < payload rb + hlen + zlen c → d !! i = dat s !! i).
  { intros i Hi. apply Hfr. apply Forall_cons. split; [|constructor]. cbn [snd]. rewrite Hpay, Hlen'. lia. }
  assert (Hk : keeps (((p, b) :: l) ++ F) (dat s) d).
  { split.
    - intros x i Hx' Hi. apply Hout. assert (Ha : away (payload rb + hlen) (zlen c) (((p, b) :: l) ++ F)) by (by apply away_app).
      unfold away in Ha. rewrite Forall_forall in Ha. specialize (Ha x Hx'). lia.
    - intros i Hi. destruct (decide (payload rb + hlen ≤ i < payload rb + hlen + zlen c)) as [Hd|Hd]; [by apply Hin|by rewrite Hout]. }
  assert (Hx2 : excl (set_dat d s1) (((p, b) :: l) ++ (r, rb') :: F)).
  { eapply excl_set_dat; [|exact Hk]. eapply excl_perm; [|exact Hx1]. cbn [app]. solve_Permutation. }
  destruct (held_free (set_dat d s1) p ((p, b) :: l) ((r, rb') :: F)) as (k & s2 & Hfree & Hx3 & Hd2 & Hrest2); [by apply excl_held|].
  pose proof (excl_gone _ _ _ _ _ _ (excl_held _ _ _ _ Hx2 Hl) Hx2 Hfree) as Hgone.
  exists s1, d, k, s2. split; [apply remove_header_eq; (done || lia)|]. split; [done|]. split; [done|]. split; [done|].
  assert (HkF : keeps F (dat s) (dat s2)) by (rewrite Hd2; eapply keeps_sub; [|exact Hk]; intros x ?; apply elem_of_app; by right). split; [done|].
  destruct (excl_get _ _ r rb' Hx3) as [Hrb2 _]; [by left|]. split.
  2: { rewrite Hgone, dom_without. cbn [set_dat s1 putp pb]. by rewrite dom_insert_lookup_L by (by exists rb). }
  assert (Hfits : header_fits r hlen rb' false = true).
  { destruct Hram as [_ Ht]. unfold header_fits. change (type_internal rb') with (type_internal rb). rewrite Ht, Htot', Hpay. replace (hlen =? 0) with false by lia.
    change (negb (Z.land (u8 PBUF_RAM) PBUF_TYPE_FLAG_STRUCT_DATA_CONTIGUOUS =? 0)) with true. cbn [orb]. apply andb_true_iff. change PBUF_LINK with 14 in Hroom. split; apply Z.leb_le; lia. }
  destruct (excl_add_header s2 r rb' F hlen Hx3 Hram ltac:(lia) ltac:(lia) ltac:(lia) ltac:(lia)) as [_ Hadd]. destruct (Hadd Hfits) as (_ & Hx4 & _ & _).
  exists rb'. split_and!; try done; [apply lens_grown; (done || lia)| |lia].
  apply content_grown; [lia|lia| |].
  - rewrite Hpay, Hd2. replace (payload rb + hlen - hlen) with (payload rb) by lia. rewrite <-Hm. apply mread_ext. intros i Hi. apply Hout. lia.
  - rewrite Hd2. change (dat (set_dat d s1)) with d. rewrite Hcd. f_equal. rewrite drop_ge, app_nil_r; [done|]. unfold zlen in *. lia.
Qed.

(** The request [hdr ++ c] in the packet [p], whose payload pointer is behind the header. *)
Record request s p b l F hdr c : Prop := {
  rq_struct : pb s !! p = Some b;
  rq_excl : excl (putp p (grown (zlen hdr) b) s) (((p, grown (zlen hdr) b) :: l) ++ F);
  rq_linked : linked (Some p) ((p, b) :: l);
  rq_lens : lens_ok ((p, grown (zlen hdr) b) :: l);
  rq_len : 0 ≤ len b;
  rq_tail : tail_nonempty ((p, b) :: l);
  rq_bytes : content (dat s) ((p, grown (zlen hdr) b) :: l) = Some (hdr ++ c)
}.

Lemma request_parts s p b l F hdr c : request s p b l F hdr c →
  excl s (((p, b) :: l) ++ F) ∧ lens_ok ((p, b) :: l) ∧ tot_len b = zlen c ∧ zlen hdr + zlen c ≤ 65535 ∧
  mread (dat s) (payload b - zlen hdr) (Z.to_nat (zlen hdr)) = Some hdr ∧ content (dat s) ((p, b) :: l) = Some c.
Proof.
  intros [Hb Hx Hl Hlen Hlb Hne Hc]. pose proof (zlen_nonneg hdr) as Hh. split; [by eapply excl_hide|].
  pose proof (content_length _ _ _ Hlen Hc) as Hz. pose proof Hlen as (H1' & H2' & H3' & Hll). cbn [grown with_tot_len with_len with_payload len tot_len bytes_in] in *.
  rewrite zlen_app in Hz. apply lens_ok_range in Hll as Hr. split; [simpl; split_and!; try done; lia|]. split; [lia|]. split; [lia|].
  cbn [content] in Hc |- *. cbn [grown with_tot_len with_len with_payload payload len] in Hc.
  replace (Z.to_nat (len b + zlen hdr)) with (Z.to_nat (zlen hdr) + Z.to_nat (len b))%nat in Hc by lia. rewrite mread_app in Hc.
  replace (payload b - zlen hdr + Z.of_nat (Z.to_nat (zlen hdr))) with (payload b) in Hc by lia.
  destruct (mread (dat s) (payload b - zlen hdr) (Z.to_nat (zlen hdr))) as [x|] eqn:Ex; cbn [mbind option_bind] in Hc; [|done].
  destruct (mread (dat s) (payload b) (Z.to_nat (len b))) as [y|] eqn:Ey; cbn [mbind option_bind] in *; [|done].
  destruct (content (dat s) l) as [z|] eqn:Ez; cbn [mbind option_bind] in *; [|done]. injection Hc as Hc. rewrite <-app_assoc in Hc.
  apply app_inj_1 in Hc as [-> <-]; [done|]. apply mread_length in Ex. unfold zlen in *. lia.
Qed.

(** Dropping a packet. *)
Lemma drop_ok s p l F : excl s (l ++ F) → linked (Some p) l →
  ∃ s', icmp_drop p s = Ok s' ∧ excl s' F ∧ dat s' = dat s ∧ rest (al s') = rest (al s) ∧ pb s' = without (pb s) l.*1.
Proof.
  intros Hx Hl. pose proof (excl_held _ _ _ _ Hx Hl) as Hh. destruct (held_free s p l F Hh) as (k & s' & Hr & ? & ? & ?).
  pose proof (excl_gone _ _ _ _ _ _ Hh Hx Hr). exists s'. unfold icmp_drop. by rewrite Hr.
Qed.

Lemma make_room_ok s p b l F hdr c : request s p b l F hdr c → 20 ≤ zlen hdr → 4 ≤ len b → 8 ≤ zlen c →
  ∃ r s', icmp_make_room p (zlen hdr) (payload b - zlen hdr) s = Ok (r, s') ∧ rest (al s') = rest (al s) ∧ keeps F (dat s) (dat s') ∧
    match r with
    | None => header_fits p (zlen hdr + 14) b false = false ∧ excl s' F ∧ pb s' = without (pb s) (p :: l.*1)
    | Some p' => ∃ l', ready s' p' l' F (hdr ++ c) (zlen hdr) ∧
        dom (pb s') ∖ list_to_set (p' :: l'.*1) ⊆ dom (pb s) ∖ list_to_set (p :: l.*1)
    end.
Proof.
  intros Hrq Hh Hlb Hc8. destruct (request_parts _ _ _ _ _ _ _ Hrq) as (Hx & Hlen & Htot & Hmax & Hm & Hc). destruct Hrq as [Hb Hxv Hl Hlenv _ Hne Hcv].
  pose proof Hlen as (_ & Ht1 & _ & Hll). apply lens_ok_range in Hll as Hr. unfold icmp_make_room. change (PBUF_LINK_HLEN + PBUF_LINK_ENCAPSULATION_HLEN) with 14.
  rewrite <-Z.add_assoc. change (PBUF_LINK_HLEN + PBUF_LINK_ENCAPSULATION_HLEN) with 14.
  unfold pbuf_add_header. rewrite (add_header_ok s p b (zlen hdr + 14) false) by (done || lia).
  destruct (header_fits p (zlen hdr + 14) b false) eqn:Ef; cbn [mbind res_bind Z.eqb Pos.eqb negb].
  - assert (Hb14 : tot_len b + (zlen hdr + 14) ≤ 65535).
    { unfold header_fits in Ef. replace (zlen hdr + 14 =? 0) with false in Ef by lia. cbn [orb] in Ef. apply andb_true_iff in Ef as [Ef _]. breflect. lia. }
    rewrite (remove_grown s p b) by (done || lia). cbn [mbind res_bind Z.eqb LWIP_ASSERT]. exists (Some p), s. split_and!; try done. exists l. split; [|done]. exists b. split_and!; try done.
    eapply fits_less; [|exact Ef]. lia.
  - rewrite (getp_some _ _ _ Hb). cbn [mbind res_bind]. rewrite Htot, (u16_id (zlen c + zlen hdr)) by ulia. replace (zlen c + zlen hdr <? zlen c) with false by lia.
    destruct (excl_alloc_ram (H0 := ip_laws (eq (rest (al s)))) s (((p, b) :: l) ++ F) PBUF_LINK (zlen c + zlen hdr)) as (r & s1 & Hal & Hd1 & Hres); [by apply excl_inv|by compute|lia|].
    rewrite Hal. cbn [mbind res_bind]. pose proof (alloc_ram_structs s _ PBUF_LINK (zlen c + zlen hdr) r s1 Hx ltac:(by compute) ltac:(lia) Hal) as Hpb1. destruct r as [r|].
    2: { apply excl_inv in Hres as [Hx1 Hrest]. destruct (drop_ok s1 p ((p, b) :: l) F Hx1 Hl) as (s2 & -> & Hx2 & Hd2 & Hrest2 & Hgone).
         exists None, s2. rewrite Hd2, Hd1. split_and!; try done; [by rewrite Hrest2|by rewrite Hgone, Hpb1]. }
    destruct Hpb1 as (_ & q0 & Hpb1).
    destruct Hres as (rb & [Hx1 Hrest]%excl_inv & Hnx & Hlr & Htr & Hmr & _ & Hroom).
    destruct (alloc_ram_struct _ _ _ _ _ Hal) as (rb' & Hrb' & Hram). destruct (excl_get _ _ r rb Hx1) as [Hrb _]; [by left|].
    rewrite Hrb in Hrb'. injection Hrb' as <-. rewrite (getp_some _ _ _ Hrb). cbn [mbind res_bind]. rewrite Hlr. change SIZEOF_ICMP_ECHO_HDR with 8.
    replace (zlen c + zlen hdr <? zlen hdr + 8) with false by lia. rewrite <-Hd1 in Hmr.
    rewrite (memcpy_ok _ _ _ _ hdr) by first [lia|by rewrite Hd1|eapply mapped_mono; [| |exact Hmr]; lia]. cbn [mbind res_bind].
    set (d1 := mwrite (dat s1) (payload rb) hdr).
    assert (Hk1 : keeps (((p, b) :: l) ++ F) (dat s1) d1).
    { apply keeps_mwrite. destruct Hx1 as (_ & _ & [Ha _] & _). eapply away_mono; [| |exact Ha]; lia. }
    destruct (copy_message (set_dat d1 s1) p b l F r rb hdr c) as (s2 & d2 & k & s3 & -> & Hcp & Hfr & Hrest3 & Hk3 & Hready & Hdom3); try done; try lia.
    { eapply excl_set_dat; [exact Hx1|exact Hk1]. }
    { change (content d1 ((p, b) :: l) = Some c). rewrite (keeps_content (((p, b) :: l) ++ F) (dat s1) d1); [by rewrite Hd1|done| |done]. intros x ?. apply elem_of_app. by left. }
    { change (mread d1 (payload rb) (Z.to_nat (zlen hdr)) = Some hdr). unfold d1, zlen. rewrite Nat2Z.id. apply mread_mwrite_same. }
    { change (mapped d1 (payload rb) (len rb)). apply mapped_mwrite. rewrite Hlr. exact Hmr. }
    cbn [mbind res_bind Z.eqb LWIP_ASSERT]. rewrite Hcp. cbn [mbind res_bind]. change (negb (ERR_OK =? ERR_OK)) with false. cbv iota. rewrite Hfr. cbn [mbind res_bind].
    exists (Some r), s3. split; [done|]. split; [rewrite Hrest3; by rewrite Hrest|]. split; [|exists []; split; [done|]; cbn [set_dat pb] in Hdom3; rewrite Hpb1, dom_insert_L in Hdom3; revert Hdom3; clear; set_solver].
    rewrite <-Hd1. eapply keeps_trans; [|exact Hk3]. eapply keeps_sub; [|exact Hk1]. intros x ?. apply elem_of_app. by right.
Qed.

(** ** icmp_input *)

(** An echo request that is answered: an intact message to an address of one host. *)
Definition answerable (b : pbuf) (ci : iface) (dest : Z) c : bool :=
  (4 <=? len b) && (nth 0 c 0 =? ICMP_ECHO) && negb (ip4_addr_ismulticast dest) && negb (ip4_addr_isbroadcast dest (base ci)) &&
  (8 <=? zlen c) && (oc (wsum c) =? 65535).

(** What icmp_input does with the request: it is answered if it should and there is memory
    for a copy, should one be needed; it is released, up to a reference the link layer has
    taken to a reply (a reply that is cut into fragments is not accounted for); the structs
    [F] of others, the interfaces and the variables stay. *)
Definition icmp_outcome s s' p b l F hdr c inp ii ci : Prop :=
  let g := ip_data (al s) in
  let reply := echo_reply (zlen hdr) (current_iphdr_dest g) (current_iphdr_src g) (hdr ++ c) in
  excl s' F ∧ keeps F (dat s) (dat s') ∧ calm s s' ∧
  if answerable b ci (current_iphdr_dest g) c
  then (∃ e, sent_as inp (current_iphdr_src g) (mtu ii) reply e s s' ∧
             ∀ K : LinkKeeps A P N W, too_large (mtu ii) reply = false → accounted s s' (p :: l.*1)) ∨
       header_fits p (zlen hdr + 14) b false = false ∧ log s' = log s ∧ pb s' = without (pb s) (p :: l.*1)
  else log s' = log s ∧ pb s' = without (pb s) (p :: l.*1).

Lemma drop_silent s p b l F hdr c inp ii ci : excl s (((p, b) :: l) ++ F) → linked (Some p) ((p, b) :: l) →
  answerable b ci (current_iphdr_dest (ip_data (al s))) c = false → ∃ s', icmp_drop p s = Ok s' ∧ icmp_outcome s s' p b l F hdr c inp ii ci.
Proof.
  intros Hx Hl Ha. destruct (drop_ok s p ((p, b) :: l) F Hx Hl) as (s' & Hr & Hx' & Hd & Hrest & Hgone). exists s'. unfold icmp_outcome. rewrite Ha, Hd.
  split_and!; try done; [|by apply rest_log]. exists (link (al s)). by rewrite Hrest.
Qed.

Lemma icmp_echo_ok s p b l F hdr c inp ii cur ci : request s p b l F hdr c → 20 ≤ zlen hdr → 4 ≤ len b → Forall is_u8 c →
  current_netif (ip_data (al s)) = Some cur → ifs (net (al s)) !! cur = Some ci → ifs (net (al s)) !! inp = Some ii →
  is_u32 (current_iphdr_src (ip_data (al s))) → nth 0 c 0 = ICMP_ECHO →
  let g := ip_data (al s) in let reply := echo_reply (zlen hdr) (current_iphdr_dest g) (current_iphdr_src g) (hdr ++ c) in can_cut (mtu ii) reply →
  ∃ s', icmp_echo p inp (zlen hdr) (payload b - zlen hdr) s = Ok s' ∧ icmp_outcome s s' p b l F hdr c inp ii ci.
Proof.
  intros Hrq Hh Hlb Hu8 Hcur Hci Hii Hu32 Hty g reply Hcut. destruct (request_parts _ _ _ _ _ _ _ Hrq) as (Hx & Hlen & Htot & Hmax & Hm & Hc).
  pose proof Hrq as [Hb _ Hl _ _ _ _].
  pose proof (drop_silent s p b l F hdr c inp ii ci Hx Hl) as Hdrop. fold g in Hdrop.
  unfold icmp_outcome in Hdrop |- *. fold g in Hdrop |- *. fold reply in Hdrop |- *. unfold answerable in Hdrop |- *. rewrite Hty, Z.eqb_refl in Hdrop |- *. replace (4 <=? len b) with true in Hdrop |- * by lia. unfold icmp_echo. cbn [andb] in Hdrop |- *. fold g.
  destruct (ip4_addr_ismulticast (current_iphdr_dest g)); [by apply Hdrop|]. cbn [negb andb] in Hdrop |- *.
  change (current_netif g) with (current_netif (ip_data (al s))). rewrite Hcur. cbn [deref mbind res_bind]. unfold getn. rewrite Hci. cbn [deref mbind res_bind].
  destruct (ip4_addr_isbroadcast (current_iphdr_dest g) (base ci)); [by apply Hdrop|]. cbn [negb andb] in Hdrop |- *.
  rewrite (getp_some _ _ _ Hb). cbn [mbind res_bind]. rewrite Htot. change SIZEOF_ICMP_ECHO_HDR with 8.
  destruct (zlen c <? 8) eqn:E8; breflect; [replace (8 <=? zlen c) with false in Hdrop |- * by lia; by apply Hdrop|]. replace (8 <=? zlen c) with true in Hdrop |- * by lia. cbn [andb] in Hdrop |- *.
  rewrite (inet_chksum_pbuf_ok s (Some p) ((p, b) :: l) c) by (done || by eapply excl_chain). cbn [mbind res_bind].
  destruct (oc (wsum c) =? 65535) eqn:Eo; breflect; [rewrite Eo|replace (65535 - oc (wsum c) =? 0) with false by lia; by apply Hdrop]. cbn [Z.sub Z.add Z.opp Z.pos_sub Pos.pred_double Z.eqb negb].
  destruct (make_room_ok s p b l F hdr c Hrq Hh Hlb ltac:(lia)) as (r & s1 & -> & Hrest & Hk & Hr). cbn [mbind res_bind].
  assert (Hcalm1 : calm s s1) by (exists (link (al s)); by rewrite Hrest). assert (Hal1 : net (al s1) = net (al s) ∧ ip_data (al s1) = ip_data (al s)).
  { unfold rest in Hrest. by injection Hrest as -> _ _ _ -> _. }
  destruct Hal1 as [Hn1 Hg1]. pose proof (rest_log s s1 Hrest) as Hlog1. destruct r as [p'|].
  2: { destruct Hr as (Hf & Hx' & Hgone). exists s1. split_and!; try done. right. by split. }
  destruct Hr as (l' & (b' & Hb' & Hx' & Hl' & Hlen' & Hc' & Hlb' & Hf') & Hdom).
  destruct (echo_sent s1 p' b' l' F (hdr ++ c) (zlen hdr) (current_iphdr_dest g) inp ii) as (e & s' & -> & Hx2 & Hk2 & Hcalm2 & Hs & Hacc); try done; try (by rewrite ?Hn1, ?Hg1).
  exists s'. split_and!; [done|done|by eapply keeps_trans|by eapply calm_trans|]. left. exists e. rewrite Hg1 in Hs, Hacc. split; [eapply sent_as_log; [exact Hlog1|reflexivity|exact Hs]|].
  intros K Hsmall. exact (accounted_sub _ _ _ _ _ Hdom (Hacc K Hsmall)).
Qed.

(** Echo requests are answered.  Given a received packet with the IP header [hdr] and the ICMP message [c],
    which only icmp_input holds: an echo request with a correct checksum, addressed to one
    host, is answered by the same message with the addresses exchanged, the type "echo
    reply", a full time to live and cleared checksums, sent to the sender through the
    interface the request came from; everything else is dropped silently.  When there is no
    room for the link header in front of the request the answer is a copy of it, and then
    there may be none for lack of memory.  The packet is released: [icmp_outcome] says which
    structs are in use.  Nothing else that is held and no interface changes. *)
Theorem icmp_input_answers s p b l F hdr c inp ii cur ci : request s p b l F hdr c →
  IPH_HL_BYTES hdr = zlen hdr → 20 ≤ zlen hdr → Forall is_u8 c → current_ip4_header (ip_data (al s)) = payload b - zlen hdr →
  current_netif (ip_data (al s)) = Some cur → ifs (net (al s)) !! cur = Some ci → ifs (net (al s)) !! inp = Some ii →
  is_u32 (current_iphdr_src (ip_data (al s))) →
  let g := ip_data (al s) in let reply := echo_reply (zlen hdr) (current_iphdr_dest g) (current_iphdr_src g) (hdr ++ c) in can_cut (mtu ii) reply →
  ∃ s', icmp_input p inp s = Ok s' ∧ icmp_outcome s s' p b l F hdr c inp ii ci.
Proof.
  intros Hrq Hhl Hh Hu8 Hip Hcur Hci Hii Hu32 g reply Hcut. destruct (request_parts _ _ _ _ _ _ _ Hrq) as (Hx & Hlen & Htot & Hmax & Hm & Hc).
  pose proof Hrq as [Hb _ Hl _ _ _ _]. unfold icmp_input. cbn zeta. rewrite Hip. unfold ld8.
  assert (H0b : dat s !! (payload b - zlen hdr) = Some (nth 0 hdr 0)).
  { pose proof (mread_lookup _ _ _ _ O Hm ltac:(unfold zlen in *; lia)) as Hlk. rewrite Z.add_0_r in Hlk. rewrite Hlk.
    destruct (nth_lookup_or_length hdr 0 0) as [->|?]; [done|unfold zlen in *; lia]. }
  pose proof (drop_silent s p b l F hdr c inp ii ci Hx Hl) as Hdrop. fold g in Hdrop.
  rewrite H0b. cbn [deref mbind res_bind]. fold (IPH_HL hdr). fold (IPH_HL_BYTES hdr). rewrite Hhl. change IP_HLEN with 20.
  replace (zlen hdr <? 20) with false by lia. rewrite (getp_some _ _ _ Hb). cbn [mbind res_bind].
  destruct (len b <? 4) eqn:E4; breflect; [apply Hdrop; unfold answerable; by replace (4 <=? len b) with false by lia|].
  assert (Hty : dat s !! payload b = Some (nth 0 c 0)).
  { pose proof (content_lookup (dat s) [] p b l c 0 Hlen Hc ltac:(lia)) as Hlk. rewrite Z.add_0_r in Hlk. rewrite Hlk. change (Z.to_nat (bytes_in [] + 0)) with O.
    destruct (nth_lookup_or_length c 0 0) as [->|Hle]; [done|]. pose proof (content_length _ _ _ Hlen Hc) as Hz. cbn [bytes_in] in Hz.
    destruct Hlen as (_ & _ & _ & Hll%lens_ok_range). unfold zlen in Hz. lia. }
  rewrite Hty. cbn [deref mbind res_bind]. destruct (nth 0 c 0 =? ICMP_ECHO) eqn:Et; [apply Z.eqb_eq in Et|].
  - by apply icmp_echo_ok with (cur := cur) (l := l).
  - apply Hdrop. unfold answerable. rewrite Et. by rewrite andb_false_r.
Qed.


End echo.
