(* ===== verification/Ip4InputFacts.v ===== *)
(** * IPv4 input: which packets are accepted, and what becomes of them

    [for_us] says when a packet is for this host.  Every other packet, and every packet
    with a bad header, is dropped; an echo request that arrives is answered. *)

From S2P Require Import Prelude ByteMem Def MempPool Chksum ChksumFacts Pbuf PbufFacts PbufData PbufLife PbufChain PbufCopy PbufOwn Ip4Addr Etharp Ip4Frag.
From S2P Require Import Ip4FragQueue Ip4FragState Iface Igmp Autoip Ip4 Icmp Ip4Input Ip4Facts Ip4FragOut Ip4FragSend Ip4Send Ip4OutFacts Ip4Output IcmpFacts IcmpEcho.

Section accept.
Context {P N : Type}.

Definition in_group (n0 : nstate P N) (inp dest : Z) : Prop :=
  ∃ i, ifs n0 !! inp = Some i ∧ flag_set i NETIF_FLAG_IGMP = true ∧ igmp_lookfor_group (igmp_data i) dest ≠ None.

(** The interface is up (bit 0 of the flags), has an address, and the destination is this
    address, a broadcast address of its network or the link-local address it has or had. *)
Definition takes (i : iface) (dest : Z) : bool :=
  Z.testbit (nflags i) 0 && negb (nip i =? 0) &&
  ((dest =? nip i) || ip4_addr_isbroadcast dest (base i) || negb (autoip_accept_packet i dest =? 0)).

Lemma accept_takes i dest : ip4_input_accept i dest = takes i dest.
Proof.
  unfold ip4_input_accept, takes, netif_is_up, flag_set. change NETIF_FLAG_UP with (2 ^ 0). rewrite bit_test, negb_involutive by lia. unfold ip4_addr_isany_val. change IPADDR_ANY with 0.
  destruct (Z.testbit (nflags i) 0 && negb (nip i =? 0)); [cbn [andb]|done]. by destruct ((dest =? nip i) || _).
Qed.

Definition accepts (n0 : nstate P N) (dest n : Z) : Prop := ∃ i, ifs n0 !! n = Some i ∧ takes i dest = true.

(** A packet to [dest] that came through [inp] is for this host. *)
Definition for_us (n0 : nstate P N) (inp dest : Z) : Prop :=
  if ip4_addr_ismulticast dest then in_group n0 inp dest
  else accepts n0 dest inp ∨ ip4_addr_isloopback dest = false ∧ ∃ n, n ∈ netif_list n0 ∧ accepts n0 dest n.

Lemma accept_loop_ok (n0 : nstate P N) dest inp ns : Forall (λ n, is_Some (ifs n0 !! n)) ns →
  ∃ r, accept_loop dest inp ns n0 = Ok r ∧
    match r with Some n => n ∈ ns ∧ accepts n0 dest n | None => ∀ n, n ∈ ns → n ≠ inp → ¬ accepts n0 dest n end.
Proof.
  induction ns as [|n ns IH]; intros Hk; [exists None; split; [done|]; by intros n ?%not_elem_of_nil|]. apply Forall_cons in Hk as [[i Hi] Hk].
  destruct (IH Hk) as (r & Hr & Hres). cbn [accept_loop].
  assert (Hskip : (n ≠ inp → ¬ accepts n0 dest n) → ∃ r, accept_loop dest inp ns n0 = Ok r ∧
    match r with Some m => m ∈ n :: ns ∧ accepts n0 dest m | None => ∀ m, m ∈ n :: ns → m ≠ inp → ¬ accepts n0 dest m end).
  { intros Hn. exists r. split; [done|]. destruct r as [m|]; [destruct Hres; split; [by right|done]|]. intros m [->|Hm]%elem_of_cons Hne; [by apply Hn|by apply Hres]. }
  destruct (n =? inp) eqn:E; breflect; [by apply Hskip|]. unfold getn. rewrite Hi. cbn [deref mbind res_bind].
  rewrite accept_takes. destruct (takes i dest) eqn:Ea; [|apply Hskip; intros _ (i' & Hi' & Ha'); congruence].
  exists (Some n). split; [done|]. split; [by left|by exists i].
Qed.

Lemma input_netif_ok (n0 : nstate P N) src dest inp : Forall (λ n, is_Some (ifs n0 !! n)) (netif_list n0) → is_Some (ifs n0 !! inp) →
  ∃ r ck, input_netif src dest inp n0 = Ok (r, ck) ∧ (is_Some r ↔ for_us n0 inp dest) ∧ (∀ n, r = Some n → is_Some (ifs n0 !! n)) ∧
    (ck = false → ip4_addr_isany_val src = true) ∧ (accepts n0 dest inp → ip4_addr_ismulticast dest = false → r = Some inp).
Proof.
  intros Hk [i Hi]. unfold input_netif, for_us, getn. rewrite Hi. cbn [deref mbind res_bind]. destruct (ip4_addr_ismulticast dest).
  - destruct (flag_set i NETIF_FLAG_IGMP && _) eqn:E.
    + apply andb_true_iff in E as [Ef Eg]. apply negb_true_iff, bool_decide_eq_false in Eg. eexists _, _. split; [done|]. split; [|split; [by intros n [= <-]|split; [|done]]].
      * split; [|done]. intros _. by exists i.
      * intros Hck. apply negb_false_iff, andb_true_iff in Hck as [_ ?]. done.
    + eexists _, _. split; [done|]. split; [|by split_and!]. split; [by intros [? ?]|]. intros (i' & Hi' & Hf & Hg). rewrite Hi in Hi'. injection Hi' as <-.
      rewrite Hf, bool_decide_eq_false_2 in E by done. done.
  - rewrite accept_takes. destruct (takes i dest) eqn:Ea.
    { eexists _, _. split; [done|]. split; [|by split_and!; [intros n [= <-]|..]]. split; [|done]. intros _. left. by exists i. }
    assert (Hni : ¬ accepts n0 dest inp) by (intros (i' & Hi' & Ha); congruence). destruct (ip4_addr_isloopback dest).
    { eexists _, _. split; [done|]. split; [split; [by intros [? ?]|by intros [?|[? _]]]|by split_and!]. }
    destruct (accept_loop_ok n0 dest inp _ Hk) as (r & -> & Hr). cbn [mbind res_bind]. eexists _, _. split; [done|]. split; [|split; [intros n ->|by split]].
    + destruct r as [n|].
      * split; [intros _|done]. right. split; [done|]. exists n. exact Hr.
      * split; [by intros [? ?]|]. intros [?|[_ (n & Hn & Ha)]]; [done|]. exfalso. destruct (decide (n = inp)) as [->|Hne]; [done|]. by apply (Hr n).
    + destruct Hr as [_ (i' & Hi' & _)]. by exists i'.
Qed.

End accept.

Lemma rd32_u32 (l : list Z) (i : nat) : Forall is_u8 l → is_u32 (rd32 l i).
Proof.
  intros Hl. assert (Hn : ∀ j, is_u8 (nth j l 0)).
  { intros j. destruct (nth_in_or_default j l 0) as [Hin| ->]; [|done]. rewrite Forall_forall in Hl. apply Hl. by apply list_elem_of_In. }
  unfold rd32, rd16. pose proof (Hn i). pose proof (Hn (S i)). pose proof (Hn (S (S i))). pose proof (Hn (S (S (S i)))). unfold is_u8, is_u32 in *. lia.
Qed.

(** ** Reassembly with ICMP *)

Section reass.
Context {A P N W : Type} `{LinkLaws A P N W}.

Lemma time_exceeded_ok (s : pstate (ipmem A P N W)) F p q :
  excl (H0 := ip_laws net_fine) s F → (p, q) ∈ F → mapped (dat s) (payload q) 28 →
  ∃ s', Ip4Frag.icmp_time_exceeded p ICMP_TE_FRAG s = Ok s' ∧ excl (H0 := ip_laws net_fine) s' F ∧ keeps F (dat s) (dat s').
Proof.
  intros [Hx Hfine]%excl_inv Hin Hmap. assert (Hf : net_fine (al s)) by (destruct Hfine as [[? ? ?] ?]; by repeat split).
  destruct (send_response_ok s F p q ICMP_TE ICMP_TE_FRAG Hx Hf Hin Hmap) as (s' & _ & _ & Hrun & Hx' & Hk & Hn & Hmu & _).
  exists s'. split; [exact Hrun|]. split; [|done]. apply excl_inv. split; [done|]. destruct Hf as [[Hf1 Hf2 Hf3] Hf4].
  split; [split|]; cbn [rest net ip4_default_multicast_netif]; rewrite ?Hn, ?Hmu; done.
Qed.

#[global] Instance icmp_reass_laws : @ReassEnvLaws (ipmem A P N W) ip_allocator (ip_laws net_fine) icmp_reass_env :=
  {| icmp_time_exceeded_law := time_exceeded_ok |}.

(** ICMP as ip4_reass needs it.  When a datagram times out, icmp_time_exceeded ends and leaves alone
    the packet and everything else that is held, and the interfaces stay usable: the
    contract on which the theorems about ip4_reass rest holds for the ICMP of this stack,
    on top of ip4_route, ip4_output_if and the link layer. *)
Theorem icmp_fulfils_reass_contract (s : pstate (ipmem A P N W)) F p q :
  excl (H0 := ip_laws net_fine) s F → (p, q) ∈ F → mapped (dat s) (payload q) 28 →
  ∃ s', Ip4Frag.icmp_time_exceeded p ICMP_TE_FRAG s = Ok s' ∧ excl (H0 := ip_laws net_fine) s' F ∧ keeps F (dat s) (dat s').
Proof. apply time_exceeded_ok. Qed.

End reass.

Section input.
Context {A P N W Q : Type} `{LinkLaws A P N W} `{Pool Q} `{Transport (pstate (ipmem A P N W))}.
Abbreviation st := (pstate (ipmem A P N W)).
Implicit Types (s : st) (w : rstate (ipmem A P N W) Q) (F l : list (Z * pbuf)) (c hdr : list Z).

(** The packet [c] as the driver hands it over: its caller alone holds it and the first
    struct has the fixed part of the header. *)
Record received w p b l F c : Prop := {
  re_excl : excl (ps w) (((p, b) :: l) ++ F);
  re_linked : linked (Some p) ((p, b) :: l);
  re_lens : lens_ok ((p, b) :: l);
  re_bytes : content (rdat w) ((p, b) :: l) = Some c;
  re_head : 20 ≤ len b;
  re_even : payload b mod 2 = 0
}.

Lemma received_byte w p b l F c i : received w p b l F c → 0 ≤ i < len b → rdat w !! (payload b + i) = Some (nth (Z.to_nat i) c 0).
Proof.
  intros [_ _ Hlen Hc _ _] Hi. rewrite (content_lookup (rdat w) [] p b l c i Hlen Hc Hi). change (bytes_in [] + i) with i.
  destruct (nth_lookup_or_length c (Z.to_nat i) 0) as [->|Hle]; [done|]. pose proof (content_length _ _ _ Hlen Hc) as Hz. cbn [bytes_in] in Hz.
  destruct Hlen as (_ & _ & _ & Hll%lens_ok_range). unfold zlen in Hz. lia.
Qed.

Lemma received_word w p b l F c i : received w p b l F c → 0 ≤ i → i + 2 ≤ len b → i mod 2 = 0 → ld16 (rdat w) (payload b + i) = Ok (rd16 c (Z.to_nat i)).
Proof.
  intros Hre Hi Hb Hev. pose proof (re_even _ _ _ _ _ _ Hre) as He. unfold ld16. replace ((payload b + i) mod 2) with 0 by zlia. cbn [Z.eqb]. unfold ld8.
  rewrite (received_byte _ _ _ _ _ _ i Hre) by lia. cbn [deref mbind res_bind]. rewrite <-Z.add_assoc, (received_byte _ _ _ _ _ _ (i + 1) Hre) by lia.
  cbn [deref mbind res_bind]. unfold rd16. replace (Z.to_nat (i + 1)) with (S (Z.to_nat i)) by lia. done.
Qed.

(** Fields of the header do not depend on what follows. *)
Lemma nth_take_20 c (i : nat) : (i < 20)%nat → nth i (take 20 c) 0 = nth i c 0.
Proof. intros Hi. rewrite !nth_lookup. by rewrite lookup_take_lt. Qed.

Lemma hdr_fields_take c : IPH_V (take 20 c) = IPH_V c ∧ IPH_HL_BYTES (take 20 c) = IPH_HL_BYTES c ∧ IPH_LEN (take 20 c) = IPH_LEN c ∧
  IPH_OFFSET (take 20 c) = IPH_OFFSET c ∧ IPH_PROTO (take 20 c) = IPH_PROTO c ∧ iph_src (take 20 c) = iph_src c ∧ iph_dest (take 20 c) = iph_dest c.
Proof.
  unfold IPH_V, IPH_HL_BYTES, IPH_HL, IPH_LEN, IPH_OFFSET, IPH_PROTO, iph_src, iph_dest, rd32, rd16. by rewrite !nth_take_20 by lia.
Qed.

Lemma input_drop_ok w p l F : excl (ps w) (l ++ F) → linked (Some p) l →
  ∃ s', input_drop p w = Ok (ERR_OK, set_ps s' w) ∧ excl s' F ∧ dat s' = rdat w ∧ rest (al s') = rest (al (ps w)) ∧ pb s' = without (pb (ps w)) l.*1.
Proof. intros Hx Hl. destruct (drop_ok (ps w) p l F Hx Hl) as (s' & Hr & ? & ? & ? & ?). exists s'. unfold input_drop. by rewrite Hr. Qed.

(** The checks of the header. *)
Definition ip_len c : Z := lwip_htons (IPH_LEN (take 20 c)).
Definition good_header (b : pbuf) c : bool :=
  negb ((len b <? IPH_HL_BYTES (take 20 c)) || (zlen c <? ip_len c) || (IPH_HL_BYTES (take 20 c) <? IP_HLEN)).

Lemma input_head w p b l F c inp : received w p b l F c → IPH_V (take 20 c) ≠ 4 ∨ zlen c ≤ ip_len c →
  ip4_input p inp w = if (IPH_V (take 20 c) =? 4) && good_header b c then ip4_input_checked p inp (payload b) (IPH_HL_BYTES (take 20 c)) w else input_drop p w.
Proof.
  intros Hre Hcond. pose proof Hre as [Hx Hl Hlen Hc H20 _]. destruct (excl_get _ _ p b Hx) as [Hb _]; [by left|].
  unfold ip4_input. rewrite (getp_some _ _ _ Hb). cbn [mbind res_bind]. unfold ld8. pose proof (received_byte w p b l F c 0 Hre ltac:(lia)) as H0b. rewrite Z.add_0_r in H0b.
  rewrite H0b. cbn [deref mbind res_bind]. change (nth (Z.to_nat 0) c 0) with (nth 0 c 0). rewrite <-(nth_take_20 c 0) by lia. fold (IPH_V (take 20 c)).
  fold (IPH_HL (take 20 c)). fold (IPH_HL_BYTES (take 20 c)). destruct (IPH_V (take 20 c) =? 4) eqn:Ev; breflect; cbn [negb andb]; [|done].
  destruct Hcond as [?|Hcond]; [lia|]. rewrite (received_word w p b l F c 2 Hre) by (done || lia). cbn [mbind res_bind].
  assert (Hlf : lwip_htons (rd16 c (Z.to_nat 2)) = ip_len c).
  { unfold ip_len, IPH_LEN, rd16. rewrite !nth_take_20 by lia. done. }
  rewrite Hlf. pose proof (content_length _ _ _ Hlen Hc) as Hz. assert (Htot : tot_len b = zlen c) by (simpl in Hlen, Hz; lia).
  rewrite Htot. replace (ip_len c <? zlen c) with false by lia. cbn [mbind res_bind]. rewrite (getp_some _ _ _ Hb). cbn [mbind res_bind]. rewrite Htot.
  unfold good_header. by destruct (_ || _).
Qed.

(** Not a message for the DHCP client. *)
Definition no_dhcp (b : pbuf) c : Prop :=
  let hlen := IPH_HL_BYTES (take 20 c) in
  IPH_PROTO (take 20 c) ≠ IP_PROTO_UDP ∨ hlen + 4 ≤ len b ∧ rd16 c (Z.to_nat (hlen + 2)) ≠ PP_HTONS LWIP_IANA_PORT_DHCP_CLIENT.

(** A source address that no packet may have. *)
Definition bad_source (i : iface) (src : Z) : bool :=
  negb (ip4_addr_isany_val src) && (ip4_addr_isbroadcast src (base i) || ip4_addr_ismulticast src).

Definition with_src_dest c w : rstate (ipmem A P N W) Q :=
  set_ps (on_ip (λ m, set_ip_data (with_addrs (iph_src (take 20 c)) (iph_dest (take 20 c)) (ip_data m)) m) (ps w)) w.

Lemma hl_bytes_mod hdr : IPH_HL_BYTES hdr mod 4 = 0 ∧ 0 ≤ IPH_HL_BYTES hdr.
Proof. unfold IPH_HL_BYTES, u8. generalize (IPH_HL hdr). intros x. zlia. Qed.

Lemma input_dhcp_none w p b l F c inp ck : received w p b l F c → no_dhcp b c →
  input_dhcp None ck inp (take 20 c) (payload b) (IPH_HL_BYTES (take 20 c)) (ps w) = Ok (None, ck).
Proof.
  intros Hre Hno. unfold input_dhcp. rewrite bool_decide_eq_true_2 by done. cbn [andb]. destruct (IPH_PROTO (take 20 c) =? IP_PROTO_UDP) eqn:E; [|done].
  apply Z.eqb_eq in E. destruct Hno as [?|[Hlen Hp]]; [done|]. pose proof (hl_bytes_mod (take 20 c)) as Hm.
  rewrite <-Z.add_assoc, (received_word w p b l F c _ Hre) by zlia. cbn [mbind res_bind]. by rewrite (proj2 (Z.eqb_neq _ _) Hp).
Qed.

(** The decision of ip4_input_checked. *)
Lemma checked_ok w p b l F c inp i : received w p b l F c → netifs_known (al (ps w)) → ifs (net (al (ps w))) !! inp = Some i →
  ∃ r ck, input_netif (iph_src (take 20 c)) (iph_dest (take 20 c)) inp (net (al (ps w))) = Ok (r, ck) ∧
    (is_Some r ↔ for_us (net (al (ps w))) inp (iph_dest (take 20 c))) ∧
    (accepts (net (al (ps w))) (iph_dest (take 20 c)) inp → ip4_addr_ismulticast (iph_dest (take 20 c)) = false → r = Some inp) ∧
    (r = None → no_dhcp b c → ip4_input_checked p inp (payload b) (IPH_HL_BYTES (take 20 c)) w = input_drop p (with_src_dest c w)) ∧
    (is_Some r → bad_source i (iph_src (take 20 c)) = true → ip4_input_checked p inp (payload b) (IPH_HL_BYTES (take 20 c)) w = input_drop p (with_src_dest c w)) ∧
    (∀ n, r = Some n → bad_source i (iph_src (take 20 c)) = false → Z.land (IPH_OFFSET (take 20 c)) (PP_HTONS (Z.lor IP_OFFMASK IP_MF)) = 0 →
       ip4_input_checked p inp (payload b) (IPH_HL_BYTES (take 20 c)) w =
         (s ← ip4_deliver p n inp (payload b) (IPH_HL_BYTES (take 20 c)) (ps (with_src_dest c w)); Ok (ERR_OK, set_ps s (with_src_dest c w)))).
Proof.
  intros Hre Hk Hi. pose proof Hre as [Hx Hl Hlen Hc H20 _].
  destruct (input_netif_ok (net (al (ps w))) (iph_src (take 20 c)) (iph_dest (take 20 c)) inp) as (r & ck & Hr & Hfor & _ & Hck & Hacc); [apply Hk|by exists i|].
  exists r, ck. split; [done|]. split; [done|]. split; [done|]. unfold ip4_input_checked.
  assert (Hhd : ld_hdr (rdat w) (payload b) = Ok (take 20 c)) by (unfold ld_hdr; rewrite (content_head (rdat w) p b l c Hlen Hc H20); done).
  rewrite Hhd. cbn [mbind res_bind]. fold (with_src_dest c w). change (net (al (ps (with_src_dest c w)))) with (net (al (ps w))). rewrite Hr. cbn [mbind res_bind].
  unfold getn. rewrite Hi. cbn [deref mbind res_bind]. assert (Hre' : received (with_src_dest c w) p b l F c).
  { split; [eapply (excl_same (ps w)); [reflexivity..|exact Hx]|apply Hre..]. }
  split; [|split].
  - intros -> Hno. rewrite (input_dhcp_none _ _ _ _ _ _ inp ck Hre' Hno). cbn [mbind res_bind]. by destruct (_ && _ && _).
  - intros [n ->] Hbad. unfold input_dhcp. rewrite bool_decide_eq_false_2 by done. cbn [andb mbind res_bind]. unfold bad_source in Hbad.
    destruct ck; [cbn [andb]; by rewrite Hbad|]. rewrite (Hck eq_refl) in Hbad. done.
  - intros n -> Hbad Hoff. unfold input_dhcp. rewrite bool_decide_eq_false_2 by done. cbn [andb mbind res_bind]. unfold bad_source in Hbad.
    assert (Hb : ck && negb (ip4_addr_isany_val (iph_src (take 20 c))) && (ip4_addr_isbroadcast (iph_src (take 20 c)) (base i) || ip4_addr_ismulticast (iph_src (take 20 c))) = false).
    { destruct ck; [cbn [andb]; exact Hbad|done]. }
    rewrite Hb, Hoff. done.
Qed.

(** C33: Packets that are dropped.  A packet with a wrong version, a header that is too short or
    does not fit, or a length field larger than the packet is dropped; so is a packet that
    is not for this host, unless it is a message for the DHCP client, and a packet for this
    host with a broadcast or multicast source address.  ip4_input then returns ERR_OK, the
    structs in use are those of before without the structs of the packet, which has been
    released, nothing was sent, and neither memory nor interfaces changed.  (Packets with
    trailing bytes, which ip4_input trims first, are not considered.) *)
Theorem ip4_input_drops w p b l F c inp i :
  received w p b l F c → netifs_known (al (ps w)) → ifs (net (al (ps w))) !! inp = Some i →
  IPH_V (take 20 c) ≠ 4 ∨ zlen c ≤ ip_len c ∧
    (good_header b c = false ∨
     ¬ for_us (net (al (ps w))) inp (iph_dest (take 20 c)) ∧ no_dhcp b c ∨
     for_us (net (al (ps w))) inp (iph_dest (take 20 c)) ∧ bad_source i (iph_src (take 20 c)) = true) →
  ∃ s', ip4_input p inp w = Ok (ERR_OK, set_ps s' w) ∧ excl s' F ∧ pb s' = without (pb (ps w)) (p :: l.*1) ∧
    dat s' = rdat w ∧ log s' = log (ps w) ∧ net (al s') = net (al (ps w)).
Proof.
  intros Hre Hk Hi Hcase. pose proof Hre as [Hx Hl _ _ _ _].
  rewrite (input_head w p b l F c inp Hre) by (destruct Hcase as [?|[? _]]; [by left|by right]).
  assert (Hdrop : ∀ w1, ps w1 = ps w ∨ ps w1 = ps (with_src_dest c w) → ∃ s', input_drop p w1 = Ok (ERR_OK, set_ps s' w1) ∧ excl s' F ∧ pb s' = without (pb (ps w)) (p :: l.*1) ∧ dat s' = rdat w ∧ log s' = log (ps w) ∧ net (al s') = net (al (ps w))).
  { intros w1 Hw1. destruct (input_drop_ok w1 p ((p, b) :: l) F) as (s' & -> & Hx' & Hd & Hrest & Hgone); [|done|].
    - destruct Hw1 as [->| ->]; [done|]. eapply (excl_same (ps w)); [reflexivity..|exact Hx].
    - exists s'. split; [done|]. split; [done|]. unfold rdat in *. unfold log, rest in *. injection Hrest as Hn _ _ _ _ Hlk. rewrite Hgone, Hd, Hn, Hlk. by destruct Hw1 as [->| ->]. }
  destruct ((IPH_V (take 20 c) =? 4) && good_header b c) eqn:E; [|by apply Hdrop; left].
  apply andb_true_iff in E as [Ev Eg]. apply Z.eqb_eq in Ev. destruct Hcase as [?|(_ & [Hg|Hcase])]; [done|congruence|].
  destruct (checked_ok w p b l F c inp i Hre Hk Hi) as (r & ck & _ & Hfor & _ & Hnone & Hbad & _).
  destruct Hcase as [[Hnot Hno]|[Hfu Hsrc]].
  - rewrite Hnone; [|destruct r; [exfalso; apply Hnot, Hfor; by eexists|done]|done]. destruct (Hdrop (with_src_dest c w)) as (s' & -> & ?); [by right|]. by exists s'.
  - rewrite Hbad; [|by apply Hfor|done]. destruct (Hdrop (with_src_dest c w)) as (s' & -> & ?); [by right|]. by exists s'.
Qed.

(** A packet [hdr ++ c] that is no fragment, for the address of the receiving interface and with a
    proper source address. *)
Record for_inp w p b l F hdr c inp i : Prop := {
  fi_received : received w p b l F (hdr ++ c);
  fi_known : netifs_known (al (ps w));
  fi_inp : ifs (net (al (ps w))) !! inp = Some i;
  fi_hlen : zlen hdr = IPH_HL_BYTES hdr;
  fi_hdr : 20 ≤ zlen hdr ≤ len b;
  fi_version : IPH_V hdr = 4;
  fi_len : lwip_htons (IPH_LEN hdr) = zlen (hdr ++ c);
  fi_offset : Z.land (IPH_OFFSET hdr) (PP_HTONS (Z.lor IP_OFFMASK IP_MF)) = 0;
  fi_tail : tail_nonempty ((p, b) :: l);
  fi_takes : takes i (iph_dest hdr) = true;
  fi_unicast : ip4_addr_ismulticast (iph_dest hdr) = false;
  fi_source : bad_source i (iph_src hdr) = false
}.

(** Such a packet reaches the protocol in its header, with the payload pointer behind the header
    and ip_data set. *)
Lemma input_dispatch w p b l F hdr c inp i : for_inp w p b l F hdr c inp i →
  ∃ s1, ip4_input p inp w =
      (s ← (if IPH_PROTO hdr =? IP_PROTO_UDP then udp_input p inp s1
            else if IPH_PROTO hdr =? IP_PROTO_TCP then tcp_input p inp s1
            else if IPH_PROTO hdr =? IP_PROTO_ICMP then icmp_input p inp s1
            else if IPH_PROTO hdr =? IP_PROTO_IGMP then igmp_deliver p inp (iph_dest hdr) s1
            else unknown_proto p inp (zlen hdr) s1);
       Ok (ERR_OK, set_ps (on_ip (set_ip_data (IpGlobals None None 0 0 IPADDR_ANY IPADDR_ANY)) s) w)) ∧
    request s1 p (grown (- zlen hdr) b) l F hdr c ∧ dat s1 = rdat w ∧ net (al s1) = net (al (ps w)) ∧ log s1 = log (ps w) ∧
    pb s1 = <[p := grown (- zlen hdr) b]> (pb (ps w)) ∧ am (al s1) = am (al (ps w)) ∧
    ip_data (al s1) = IpGlobals (Some inp) (Some inp) (payload b) (zlen hdr) (iph_src hdr) (iph_dest hdr).
Proof.
  intros [Hre Hk Hi Hhl Hh Hv Hln Hoff Hne Hacc Hmc Hbad]. pose proof Hre as [Hx Hl Hlen Hc H20 He].
  set (C := hdr ++ c) in *. assert (Hf : take 20 C = take 20 hdr) by (unfold C; rewrite take_app_le; [done|unfold zlen in *; lia]).
  destruct (hdr_fields_take hdr) as (Fv & Fhl & Fln & Foff & Fpr & Fsrc & Fdst). rewrite <-Hf in Fv, Fhl, Fln, Foff, Fpr, Fsrc, Fdst.
  assert (Hlen_c : ip_len C = zlen C) by (unfold ip_len; by rewrite Fln).
  rewrite (input_head w p b l F C inp Hre) by (right; lia). unfold good_header. rewrite Fv, Hv, Fhl, <-Hhl, Hlen_c. change IP_HLEN with 20.
  replace (len b <? zlen hdr) with false by lia. replace (zlen C <? zlen C) with false by lia. replace (zlen hdr <? 20) with false by lia. cbn [Z.eqb Pos.eqb orb negb andb].
  destruct (checked_ok w p b l F C inp i Hre Hk Hi) as (r & ck & _ & _ & Hsome & _ & _ & Hdel). rewrite Fdst in Hsome. rewrite Fsrc, Foff, Fhl, <-Hhl in Hdel.
  rewrite (Hdel inp) by (done || apply Hsome; (done || by exists i)). unfold ip4_deliver.
  set (w1 := with_src_dest C w). assert (Hhd : ld_hdr (dat (ps w1)) (payload b) = Ok (take 20 C)).
  { unfold ld_hdr. change (dat (ps w1)) with (rdat w). by rewrite (content_head (rdat w) p b l C Hlen Hc H20). }
  rewrite Hhd. cbn [mbind res_bind]. rewrite Fpr. set (s0 := on_ip _ (ps w1)). destruct (excl_get _ _ p b Hx) as [Hb _]; [by left|].
  pose proof Hlen as (_ & Ht1 & Ht2 & Hll). apply lens_ok_range in Hll as Hr.
  rewrite (remove_header_eq s0 p b (zlen hdr)) by (done || lia). cbn [mbind res_bind]. set (b1 := grown (- zlen hdr) b). set (s1 := putp p b1 s0).
  assert (Hb1 : grown (zlen hdr) b1 = b) by (unfold b1; rewrite grown_grown; replace (- zlen hdr + zlen hdr) with 0 by lia; apply with_grown_0).
  assert (Hg : ip_data (al s1) = IpGlobals (Some inp) (Some inp) (payload b) (zlen hdr) (iph_src hdr) (iph_dest hdr)).
  { unfold s1, s0, w1, with_src_dest. cbn. by rewrite Fhl, <-Hhl, Fsrc, Fdst. }
  exists s1. split; [rewrite Hg; cbn [current_iphdr_dest]; by destruct (if IPH_PROTO hdr =? IP_PROTO_UDP then _ else _)|]. split_and!; try done.
  split; rewrite ?Hb1; try done; [apply lookup_insert_eq| |unfold b1; cbn [grown with_tot_len with_len with_payload len]; lia].
  unfold s1. rewrite putp_putp, putp_id by done. eapply (excl_same (ps w)); [reflexivity..|exact Hx].
Qed.


End input.
