(* ===== verification/Ip4Link.v ===== *)
(** * IPv4 on a concrete host

    A link layer that records the packets it is given, 15 structs pbuf_custom_ref, the heap
    and pools of PbufAlloc.v, and one interface with the address 10.0.0.1.  The contract
    [LinkLaws] is proved for it, and the theorems on IPv4 are applied to packets. *)

From stdpp Require Import sorting.
From S2P Require Import Prelude ByteMem Def Mem MemFacts MemClient Memp MempFacts MempPool Chksum ChksumFacts Pbuf PbufFacts PbufData PbufLife.
From S2P Require Import PbufChain PbufCopy PbufAlloc PbufOwn Ip4Addr Etharp Ip4Frag Ip4FragFacts Ip4FragQueue Ip4FragState Ip4FragReass Ip4FragRuns Ip4FragOrder Ip4FragLink.
From S2P Require Import Iface Igmp Autoip Ip4 Icmp Ip4Input Ip4Facts Ip4FragOut Ip4FragSend Ip4FragTrip Ip4Send Ip4OutFacts Ip4Output IcmpFacts IcmpEcho Ip4InputFacts.

#[local] Existing Instance sample_allocator.
#[local] Existing Instance sample_laws.
#[local] Existing Instance silent_icmp.
#[local] Existing Instance silent_icmp_laws.
#[local] Existing Instance reass_pool_laws.

(** ** The link layer *)

Definition packets := list (Z * Z * list Z).
Abbreviation hmem := (ipmem stack_mem () () packets).

(** The bytes of a packet. *)
Fixpoint gather {N} (fuel : nat) (p : option Z) (s : pstate (ipmem stack_mem () N packets)) : res (list Z) :=
  match p with
  | None => Ok []
  | Some a =>
      match fuel with
      | O => Stuck
      | S fuel =>
          b ← getp a s;
          x ← deref (mread (dat s) (payload b) (Z.to_nat (len b)));
          y ← gather fuel (next b) s;
          Ok (x ++ y)
      end
  end.

Definition record_output {N} (n p dest : Z) (s : pstate (ipmem stack_mem () N packets)) : res (Z * pstate (ipmem stack_mem () N packets)) :=
  c ← gather (chain_fuel s) (Some p) s;
  Ok (ERR_OK, on_ip (λ m, set_link (link m ++ [(n, dest, c)]) m) s).

(** The structs pbuf_custom_ref; one is free when it does not overlap with a custom struct. *)
Definition frag_structs : list Z := (λ i : nat, 800000 + 16 * Z.of_nat i) <$> seq 0 15.
Definition clear_of (cs : gset Z) (p : Z) : bool := bool_decide (set_Forall (λ q, p + SIZEOF_STRUCT_PBUF ≤ q ∨ q + SIZEOF_STRUCT_PBUF ≤ p) cs).

Definition frag_malloc (a : stack_mem) : res (option Z * stack_mem) :=
  match List.find (clear_of (sm_custom a)) frag_structs with
  | Some p => Ok (Some p, StackMem (sm_heap a) (sm_pools a) ({[p]} ∪ sm_custom a))
  | None => Ok (None, a)
  end.

#[local] Instance record_link {N} : Link stack_mem () N packets := {|
  netif_output := record_output; frag_pbuf_malloc := frag_malloc; frag_pbuf_free := custom_free_function |}.

Lemma gather_ok {N} (s : pstate (ipmem stack_mem () N packets)) l : ∀ fuel p c, chain (pb s) p l → (length l < fuel)%nat → content (dat s) l = Some c → gather fuel p s = Ok c.
Proof.
  induction l as [|[a q] l IH]; intros fuel p c Hch Hf Hc; (destruct fuel as [|fuel]; [simpl in Hf; lia|]).
  - simpl in Hch, Hc. subst p. by injection Hc as <-.
  - destruct Hch as (-> & Ha & Hch). cbn [gather]. rewrite (getp_some _ _ _ Ha). cbn [mbind res_bind]. cbn [content] in Hc.
    destruct (mread _ _ _) as [x|]; cbn [mbind option_bind] in Hc; [|done]. destruct (content (dat s) l) as [y|]; cbn [mbind option_bind] in Hc; [|done].
    injection Hc as <-. cbn [deref mbind res_bind]. rewrite (IH fuel _ y) by (done || simpl in Hf; lia). done.
Qed.

Lemma frag_struct_place p : p ∈ frag_structs → (4 | p) ∧ 800000 ≤ p ≤ 800224.
Proof.
  intros (i & -> & Hi%elem_of_seq)%list_elem_of_fmap. split; [|lia]. apply Z.divide_add_r; [by exists 200000|]. exists (4 * Z.of_nat i). lia.
Qed.

(** Beyond the heap and the pools. *)
Lemma far_place p : 600000 ≤ p → (p + SIZEOF_STRUCT_PBUF ≤ 100000 ∨ 100000 + MEM_SIZE ≤ p) ∧
  ∀ i d, sample_ds !! i = Some d → p + SIZEOF_STRUCT_PBUF ≤ d_base d ∨ region_end d ≤ p.
Proof.
  intros Hp. split; [right; heap_consts; lia|]. intros [|[|i]] d Hd; [injection Hd as <-; right..|done].
  - change (200000 + 16 * 16 + 4 - 1 ≤ p). lia.
  - change (300000 + 4 * 608 + 4 - 1 ≤ p). lia.
Qed.

Lemma record_malloc_law {N} (a : stack_mem) L : al_ok a L →
  ∃ r a', @frag_pbuf_malloc stack_mem () N packets record_link a = Ok (r, a') ∧ match r with Some p => L !! p = None ∧ al_ok a' (<[p := SrcCustom]> L) | None => al_ok a' L end.
Proof.
  intros Hok. cbn [frag_pbuf_malloc record_link]. unfold frag_malloc. destruct (List.find _ _) as [p|] eqn:E; [|by exists None, a].
  apply List.find_some in E as [Hin%list_elem_of_In Hcl%bool_decide_eq_true]. destruct (frag_struct_place p Hin) as [H4 Hp].
  eexists (Some p), _. split; [done|]. destruct Hok as (LH & LP & HH & HP & HC & HL).
  assert (Hnot : p ∉ sm_custom a) by (intros Hq; specialize (Hcl p Hq); change SIZEOF_STRUCT_PBUF with 16 in Hcl; simpl in Hcl; lia).
  destruct (far_place p ltac:(lia)) as [Hf1 Hf2]. assert (Hnone : L !! p = None).
  { destruct (L !! p) as [x|] eqn:Ex; [exfalso|done]. pose proof (proj1 (HL p x) Ex) as Ho.
    destruct (owned_place 100000 sample_ds 0 1 sample_layout _ _ _ _ _ HH HP HC Ho) as (Hpl & _). destruct x as [k|t|]; cbn [place] in Hpl; [heap_consts; lia| |done].
    destruct Hpl as (d & Hd & Hb & He & _). destruct (Hf2 _ _ Hd) as [?|?]; destruct t; cbn [src_size] in *; change SIZEOF_STRUCT_PBUF with 16 in *; change PBUF_POOL_BUFSIZE_ALIGNED with 592 in *; lia. }
  split; [done|]. exists LH, LP. cbn [sm_heap sm_pools sm_custom]. split_and!; try done.
  - destruct HC as [HC1 HC2]. split.
    + intros q [->%elem_of_singleton|Hq]%elem_of_union; [|by apply HC1]. change SIZEOF_STRUCT_PBUF with 16 in *. split_and!; try done; lia.
    + intros q q' [->%elem_of_singleton|Hq]%elem_of_union [->%elem_of_singleton|Hq']%elem_of_union Hne; [done|by apply (Hcl q')|destruct (Hcl q Hq); auto|by apply HC2].
  - intros q x. destruct (decide (q = p)) as [->|Hne].
    + rewrite lookup_insert_eq. split; [intros [= <-]; cbn [owned]; apply elem_of_union; left; by apply elem_of_singleton|].
      destruct x as [k|t|]; [intros Ho; exfalso; pose proof (proj2 (HL p (SrcHeap k)) Ho); congruence|intros Ho; exfalso; pose proof (proj2 (HL p (SrcPool t)) Ho); congruence|done].
    + rewrite lookup_insert_ne by done. rewrite HL. destruct x; cbn [owned]; [done|done|]. rewrite elem_of_union, elem_of_singleton. naive_solver.
Qed.

Lemma record_output_law {N} (s : pstate (ipmem stack_mem () N packets)) L n dest p q l c :
  pstate_ok s L → arena_mapped (dat s) → is_Some (ifs (net (al s)) !! n) →
  chain (pb s) (Some p) ((p, q) :: l) → lens_ok ((p, q) :: l) → content (dat s) ((p, q) :: l) = Some c → ref q = 1 →
  ∃ e s' L' w, netif_output n p dest s = Ok (e, s') ∧ handed s s' L L' p q ∧
    rest (al s') = rest (set_link w (al s)) ∧ w = link (al s) ++ [(n, dest, c)].
Proof.
  intros HL _ _ Hch Hlen Hc Hr. exists ERR_OK. eexists _, L, _. cbn [netif_output record_link]. unfold record_output.
  rewrite (gather_ok s _ _ _ c Hch) by (done || by apply chain_fuel_enough in Hch). cbn [mbind res_bind]. split; [reflexivity|]. split; [|by split].
  split; [exact HL|done| |done|done|done]. exists 0, 1. destruct Hch as (_ & Hq & _). rewrite with_grown_0. split; [|lia]. transitivity (pb s !! p); [reflexivity|]. rewrite Hq. f_equal. destruct q. simpl in *. by subst.
Qed.

#[local] Instance record_laws {N} : LinkLaws stack_mem () N packets :=
  {| sent w := w; output_law := record_output_law; frag_malloc_law := record_malloc_law; frag_free_law a L p := custom_free_law a L p |}.

(** This link layer holds nothing. *)
#[local] Instance record_keeps {N} : LinkKeeps stack_mem () N packets.
Proof.
  refine {| kept _ := ∅ |}. intros s n dest p q l e s' (_ & Hq & _) _ Hrun. cbn [netif_output record_link] in Hrun. unfold record_output in Hrun.
  destruct (gather _ _ _) as [c| | |]; [|discriminate Hrun..]. cbn [mbind res_bind] in Hrun. injection Hrun as _ <-. cbn [on_ip set_al pb]. split; [set_solver|].
  left. exists 0. by rewrite with_grown_0.
Defined.

Lemma accounted_empty {N} (s0 s : pstate (ipmem stack_mem () N packets)) p q : pb s0 = {[p := q]} → accounted s0 s [p] → pb s = ∅.
Proof.
  intros Hs Ha. unfold accounted in Ha. cbn [kept record_keeps] in Ha. rewrite Hs, dom_singleton_L in Ha. apply dom_empty_inv_L. revert Ha. clear. set_solver.
Qed.

(** ** A host with one packet *)

Definition ADDR1 : Z := 16777226.
Definition ADDR2 : Z := 33554442.
Definition host_if (m : Z) : iface :=
  Iface (Netif [2; 0; 0; 0; 0; 1] 6 (Netif4 31 ADDR1 16777215) 0) [] m 0 101 110 0 0 0 false false 0 0 None [].
(** [v] is the state behind the interfaces. *)
Definition host_net_with {N} (v : N) (m : Z) : nstate () N := NState {[1 := host_if m]} [1] (Some 1) 1 tt v.
Abbreviation host_net := (host_net_with tt).
Definition packet_struct (n : Z) : pbuf := Pbuf None 500000 n n 1 PBUF_FLAG_IS_CUSTOM 1 0.

Definition host_with {N} (v : N) (m : Z) (c : list Z) : pstate (ipmem stack_mem () N packets) :=
  PState {[400000 := packet_struct (zlen c)]} (mwrite sample_arena 500000 c)
    (IpMem (StackMem (sm_heap sample_mem) (sm_pools sample_mem) (custom_set 1 400000)) (host_net_with v m) None 7 ∅ (IpGlobals None None 0 0 0 0) []) 0.
Abbreviation host := (host_with tt).

Lemma host_excl {N} (v : N) m c : excl (host_with v m c) ([(400000, packet_struct (zlen c))] ++ []).
Proof.
  assert (Hin : 400000 ∈ custom_set 1 400000) by (apply (bool_decide_unpack _); vm_compute; done).
  split_and!.
  - exists (gset_to_gmap SrcCustom (custom_set 1 400000)). split; [split; [split; [apply stack_init_ok, custom_set_place; lia|done]|]|].
    + intros p q Hq. cbn [pb host_with] in Hq. apply lookup_singleton_Some in Hq as [<- <-]. exists SrcCustom. split; [by apply lookup_gset_to_gmap_Some|done].
    + constructor; [|constructor]. unfold placed. cbn [fst snd]. rewrite (proj2 (lookup_gset_to_gmap_Some _ _ _ _) (conj Hin eq_refl)). split; [apply zlen_nonneg|].
      intros i Hi Ha. cbn [packet_struct payload] in Hi. destruct Ha as [Ha|(k & d & Hd & Ha)]; [change MEM_SIZE with 3200 in Ha; lia|].
      destruct k as [|[|k]]; [injection Hd as <-..|discriminate Hd]; [change (200000 ≤ i < 200000 + 16 * 16 + 4 - 1) in Ha|change (300000 ≤ i < 300000 + 4 * 608 + 4 - 1) in Ha]; lia.
  - apply NoDup_singleton.
  - split; [constructor|done].
  - constructor; [|constructor]. split; [cbn [pb host_with fst snd]; apply lookup_singleton_eq|done].
  - intros i Hi. apply lookup_mwrite_some. by apply sample_arena_mapped.
Qed.

Lemma host_content {N} (v : N) m c : content (dat (host_with v m c)) [(400000, packet_struct (zlen c))] = Some c.
Proof.
  cbn [content packet_struct payload len host_with dat]. unfold zlen. rewrite Nat2Z.id, mread_mwrite_same. cbn [mbind option_bind]. by rewrite app_nil_r.
Qed.

Lemma host_lens (c : list Z) : zlen c ≤ 65535 → lens_ok [(400000, packet_struct (zlen c))].
Proof. intros Hc. pose proof (zlen_nonneg c). cbn [lens_ok packet_struct len tot_len bytes_in]. split_and!; try done; lia. Qed.

Lemma host_known {N} (v : N) m c : netifs_known (al (host_with v m c)).
Proof. split; [by repeat constructor|by intros n [= <-]|done]. Qed.

(** Whether a computation succeeds with a value, as a test. *)
Definition ends {B} (test : B → bool) (m : res B) : bool := match m with Ok x => test x | _ => false end.

Lemma ends_ok {B} (test : B → bool) (m : res B) : ends test m = true → ∃ x, m = Ok x ∧ test x = true.
Proof. destruct m as [x| | |]; simpl; try done. by exists x. Qed.

(** *** Routing *)

Lemma ip4_route_correct_witness :
  ∃ r, ip4_route ADDR2 (host 1500 []) = Ok r ∧ ∀ n, r = Some n ↔ routes (host 1500 []) ADDR2 n.
Proof. apply (ip4_route_correct (host 1500 []) ADDR2). apply host_known. Defined.

(** *** Fragmentation and reassembly: the datagram of Ip4FragLink.v *)

Definition datagram24 : list Z := [69; 0; 0; 44; 18; 52; 0; 0; 64; 17; 0; 0; 10; 0; 0; 1; 10; 0; 0; 2] ++ seqZ 1 24.

Lemma frag24_run : ends (λ x, (x.1 =? ERR_OK) && bool_decide (log x.2 = (λ y, (1, ADDR2, frag_bytes y)) <$> sample_cut)) (ip4_frag 400000 1 ADDR2 (host 28 datagram24)) = true.
Proof. vm_compute. reflexivity. Qed.

Lemma ip4_frag_reass_roundtrip_witness :
  ∃ s' q lq w', ip4_frag 400000 1 ADDR2 (host 28 datagram24) = Ok (ERR_OK, s') ∧
    reass_all [400032; 400000; 400016] Ip4FragLink.sample_state = Ok ([None; None; Some q], w') ∧ packet_in w' q lq sample_datagram.
Proof.
  destruct (ends_ok _ _ frag24_run) as ([e s'] & Hrun & [He Hlog]%andb_true_iff). cbn [fst snd] in *. apply Z.eqb_eq in He as ->. apply bool_decide_eq_true in Hlog.
  destruct (ip4_frag_reass_roundtrip (host 28 datagram24) s' 1 (host_if 28) ADDR2 400000 (packet_struct (zlen datagram24)) [] [] datagram24
              Ip4FragLink.sample_state [] [] sample_cut sample_arrival) as (q & lq & w' & Hre & Hpk & _).
  - apply host_excl.
  - split; done.
  - apply host_lens. vm_compute. discriminate.
  - apply host_content.
  - reflexivity.
  - split; [vm_compute; split; discriminate|vm_compute; discriminate|vm_compute; reflexivity|vm_compute; discriminate].
  - vm_compute. reflexivity.
  - vm_compute. reflexivity.
  - vm_compute. reflexivity.
  - exact Hrun.
  - exact Hlog.
  - unfold sample_arrival, sample_cut. solve_Permutation.
  - apply reass_ok_init; [done|done|done|exact reass_pool_ok|apply sample_packets_excl].
  - do 3 (apply Forall_cons; split; [apply arrives_b_ok; vm_compute; reflexivity|]). constructor.
  - constructor.
  - vm_compute. discriminate.
  - vm_compute. discriminate.
  - exists s', q, lq, w'. split; [exact Hrun|]. split; [exact Hre|]. exact Hpk.
Defined.

(** 18 bytes of data for an MTU of 30. *)
Definition datagram18 : list Z := [69; 0; 0; 38; 18; 52; 0; 0; 64; 17; 0; 0; 10; 0; 0; 1; 10; 0; 0; 2] ++ seqZ 1 18.

Lemma frag18_run : ends (λ x, x.1 =? ERR_OK) (ip4_frag 400000 1 ADDR2 (host 30 datagram18)) = true.
Proof. vm_compute. reflexivity. Qed.

Lemma ip4_frag_unmarked_witness :
  ∃ s' pre x y, ip4_frag 400000 1 ADDR2 (host 30 datagram18) = Ok (ERR_OK, s') ∧ log s' = ((λ f, (1, ADDR2, f)) <$> pre ++ [x; y]) ∧
    is_last_frag (take 20 x) = true ∧ is_last_frag (take 20 y) = true.
Proof.
  destruct (ends_ok _ _ frag18_run) as ([e s'] & Hrun & He). cbn [fst snd] in *. apply Z.eqb_eq in He as ->.
  destruct (ip4_frag_unmarked (host 30 datagram18) s' 1 (host_if 30) ADDR2 400000 (packet_struct (zlen datagram18)) [] [] datagram18) as (pre & x & y & Hlog & Hx & Hy).
  - apply host_excl.
  - split; done.
  - apply host_lens. vm_compute. discriminate.
  - apply host_content.
  - reflexivity.
  - split; [vm_compute; split; discriminate|vm_compute; discriminate|vm_compute; reflexivity|vm_compute; discriminate].
  - vm_compute. reflexivity.
  - vm_compute. reflexivity.
  - exact Hrun.
  - exists s', pre, x, y. split; [exact Hrun|]. split; [exact Hlog|]. split; [exact Hx|exact Hy].
Defined.

(** *** Output of a packet in the heap *)

Definition empty_host_with {N} (v : N) (m : Z) : pstate (ipmem stack_mem () N packets) :=
  PState ∅ sample_arena (IpMem sample_mem (host_net_with v m) None 7 ∅ (IpGlobals None None 0 0 0 0) []) 0.

Abbreviation empty_host := (empty_host_with tt).

Lemma empty_host_excl {N} (v : N) m : excl (empty_host_with v m) [].
Proof.
  split_and!; [|constructor|done|constructor|].
  - exists ∅. split; [|constructor]. split; [|done]. split; [|done]. change (stack_ok 100000 sample_ds 0 1 sample_mem ∅).
    rewrite <-(gset_to_gmap_empty SrcCustom). apply (stack_init_ok ∅). split; intros p; set_solver.
  - intros i Hi. by apply sample_arena_mapped.
Qed.

Lemma alloc_run : ends (λ x, bool_decide (x.1 ≠ None)) (pbuf_alloc PBUF_IP 10 PBUF_RAM (empty_host 1500)) = true.
Proof. vm_compute. reflexivity. Qed.

Lemma ip4_output_sends_witness :
  ∃ p s1 e s' c, pbuf_alloc PBUF_IP 10 PBUF_RAM (empty_host 1500) = Ok (Some p, s1) ∧ ip4_output p None ADDR2 64 0 17 s1 = Ok (e, s') ∧
    zlen c = 10 ∧ log s' = [(1, ADDR2, with_header ADDR1 ADDR2 64 0 17 7 [] c)].
Proof.
  destruct (excl_alloc_ram (H0 := ip_laws (eq (rest (al (empty_host 1500))))) (empty_host 1500) [] PBUF_IP 10) as (r & s1 & Hal & Hd & Hr).
  - apply excl_inv. split; [apply empty_host_excl|reflexivity].
  - by compute.
  - done.
  - pose proof alloc_run as Hsome. rewrite Hal in Hsome. destruct r as [p|]; [|done]. clear Hsome.
    destruct Hr as (q & [Hx Hrest]%excl_inv & Hnx & Hlq & Htq & Hmq & _ & Hroom).
    destruct (alloc_ram_struct _ _ _ _ _ Hal) as (q' & Hq' & Hram). destruct (excl_get _ _ p q Hx) as [Hq _]; [by left|]. rewrite Hq in Hq'. injection Hq' as <-.
    destruct (proj2 (mread_Some (dat s1) (payload q) 10)) as [c Hc]; [by rewrite Hd|]. assert (Hz : zlen c = 10) by (apply mread_length in Hc; unfold zlen; lia).
    unfold rest in Hrest. injection Hrest as Hn Hmu Hid _ _ Hlk.
    assert (Hroute : ip4_route ADDR2 s1 = Ok (Some 1)) by (rewrite (route_same (empty_host 1500) s1) by done; vm_compute; reflexivity).
    destruct (ip4_output_sends s1 p q [] [] c None ADDR2 64 0 17) as [_ Hsend].
    + exact Hx.
    + exact Hram.
    + split; done.
    + simpl. lia.
    + cbn [content]. rewrite Hlq. change (Z.to_nat 10) with 10%nat. rewrite Hc. cbn [mbind option_bind]. by rewrite app_nil_r.
    + destruct (Hsend 1 (host_if 1500) Hroute) as [_ Hfit]; [by rewrite <-Hn|].
      destruct Hfit as (e & s' & k & Hrun & _ & _ & _ & Hs).
      * unfold header_fits. destruct Hram as [_ Ht]. rewrite Ht, Htq. change PBUF_IP with 54 in Hroom. change SIZEOF_STRUCT_PBUF with 16 in *.
        change (negb (Z.land (u8 PBUF_RAM) PBUF_TYPE_FLAG_STRUCT_DATA_CONTIGUOUS =? 0)) with true. change IP_HLEN with 20. cbv iota. change (10 + 20 <=? 65535) with true. cbn [orb andb].
        apply orb_true_iff. right. apply Z.leb_le. lia.
      * apply small_can_cut; [right; vm_compute; split; discriminate|]. rewrite zlen_with_header, Hz. vm_compute. split; discriminate.
      * exists p, s1, e, s', c. split; [exact Hal|]. split; [exact Hrun|]. split; [exact Hz|]. unfold sent_as in Hs.
        replace (too_large _ _) with false in Hs.
        -- rewrite Hs. unfold log. cbn [sent record_laws]. rewrite <-Hlk, <-Hid. reflexivity.
        -- unfold too_large. rewrite zlen_with_header, Hz. vm_compute. reflexivity.
Defined.

(** *** ICMP *)

Lemma host_fine c : net_fine (al (host 1500 c)).
Proof.
  split; [apply host_known|]. intros n i Hi. cbn [host_with al net host_net_with ifs] in Hi. apply lookup_singleton_Some in Hi as [<- <-]. right. vm_compute. split; discriminate.
Qed.

Lemma icmp_response_quotes_witness :
  ∃ s', icmp_send_response 400000 ICMP_DUR ICMP_DUR_PROTO (host 1500 datagram24) = Ok s' ∧
    excl s' [(400000, packet_struct (zlen datagram24))] ∧ net (al s') = host_net 1500.
Proof.
  destruct (icmp_response_quotes (host 1500 datagram24) [(400000, packet_struct (zlen datagram24))] 400000 (packet_struct (zlen datagram24))
              ICMP_DUR ICMP_DUR_PROTO (take 28 datagram24)) as (s' & Hrun & Hx & _ & Hn & _).
  - exact (host_excl tt 1500 datagram24).
  - apply host_fine.
  - by left.
  - vm_compute. discriminate.
  - vm_compute. reflexivity.
  - exists s'. split; [exact Hrun|]. split; [exact Hx|exact Hn].
Defined.

Lemma icmp_fulfils_reass_contract_witness :
  ∃ s', icmp_time_exceeded 400000 ICMP_TE_FRAG (host 1500 datagram24) = Ok s' ∧ keeps [(400000, packet_struct (zlen datagram24))] (dat (host 1500 datagram24)) (dat s').
Proof.
  destruct (icmp_fulfils_reass_contract (host 1500 datagram24) [(400000, packet_struct (zlen datagram24))] 400000 (packet_struct (zlen datagram24))) as (s' & Hrun & _ & Hk).
  - apply excl_inv. split; [exact (host_excl tt 1500 datagram24)|]. destruct (host_fine datagram24) as [[? ? ?] ?]. split; [split|]; done.
  - by left.
  - apply (mapped_b_spec _ _ 28 ltac:(lia)). vm_compute. reflexivity.
  - exists s'. split; [exact Hrun|exact Hk].
Defined.

(** An echo request from 10.0.0.2. *)
Definition echo_hdr : list Z := [69; 0; 0; 32; 0; 1; 0; 0; 64; 1; 0; 0; 10; 0; 0; 2; 10; 0; 0; 1].
Definition echo_msg : list Z := [8; 0; 243; 247; 0; 1; 0; 1; 1; 2; 3; 4].
Definition echo_bytes : list Z := echo_hdr ++ echo_msg.

Definition input_state : pstate hmem :=
  putp 400000 (grown (- 20) (packet_struct 32))
    (on_ip (set_ip_data (IpGlobals (Some 1) (Some 1) 500000 20 ADDR2 ADDR1)) (host 1500 echo_bytes)).

Lemma input_state_request : request input_state 400000 (grown (- 20) (packet_struct 32)) [] [] echo_hdr echo_msg.
Proof.
  change (zlen echo_hdr) with 20. assert (Hg : grown 20 (grown (- 20) (packet_struct 32)) = packet_struct (zlen echo_bytes)) by reflexivity.
  split; change (zlen echo_hdr) with 20; rewrite ?Hg.
  - apply lookup_insert_eq.
  - unfold input_state. rewrite putp_putp. rewrite putp_id by (cbn [on_ip set_al pb host_with]; apply lookup_singleton_eq).
    eapply (excl_same (host 1500 echo_bytes)); [reflexivity..|apply host_excl].
  - split; done.
  - apply host_lens. vm_compute. discriminate.
  - vm_compute. discriminate.
  - constructor.
  - exact (host_content tt 1500 echo_bytes).
Qed.

Lemma icmp_input_answers_witness :
  ∃ s', icmp_input 400000 1 input_state = Ok s' ∧ icmp_outcome input_state s' 400000 (grown (- 20) (packet_struct 32)) [] [] echo_hdr echo_msg 1 (host_if 1500) (host_if 1500).
Proof.
  apply (icmp_input_answers input_state 400000 (grown (- 20) (packet_struct 32)) [] [] echo_hdr echo_msg 1 (host_if 1500) 1 (host_if 1500)).
  - exact input_state_request.
  - vm_compute. reflexivity.
  - vm_compute. discriminate.
  - repeat constructor; vm_compute; discriminate.
  - vm_compute. reflexivity.
  - vm_compute. reflexivity.
  - reflexivity.
  - reflexivity.
  - vm_compute. split; [discriminate|reflexivity].
  - intros Hl. vm_compute in Hl. discriminate.
Defined.

(** *** Input *)

#[local] Instance drop_transport : Transport (pstate hmem) :=
  {| udp_input p _ s := icmp_drop p s; tcp_input p _ s := icmp_drop p s; igmp_deliver p _ _ s := icmp_drop p s |}.

Definition input_host (c : list Z) : rstate hmem (pools_at reass_pools 0) := RState (host 1500 c) ∅ None 0 reass_pool.

Lemma input_host_received c : 20 ≤ zlen c ≤ 65535 → received (input_host c) 400000 (packet_struct (zlen c)) [] [] c.
Proof.
  intros Hc. split; [apply host_excl|split; done|apply host_lens; lia|apply host_content|cbn [packet_struct len]; lia|reflexivity].
Qed.

(** A packet for 10.0.0.3. *)
Definition other_bytes : list Z := [69; 0; 0; 24; 0; 1; 0; 0; 64; 1; 0; 0; 10; 0; 0; 2; 10; 0; 0; 3; 8; 0; 0; 0].

Lemma ip4_input_drops_witness :
  ∃ s', ip4_input 400000 1 (input_host other_bytes) = Ok (ERR_OK, set_ps s' (input_host other_bytes)) ∧ pb s' = ∅ ∧ log s' = [].
Proof.
  destruct (ip4_input_drops (input_host other_bytes) 400000 (packet_struct (zlen other_bytes)) [] [] other_bytes 1 (host_if 1500)) as (s' & Hrun & _ & Hpb & _ & Hlog & _).
  - apply input_host_received. vm_compute. split; discriminate.
  - apply host_known.
  - reflexivity.
  - right. split; [vm_compute; discriminate|]. right. left. split.
    + assert (Hna : ∀ n, ¬ accepts (host_net 1500) (iph_dest (take 20 other_bytes)) n).
      { intros n (i & Hi & Ha). cbn [host_net_with ifs] in Hi. apply lookup_singleton_Some in Hi as [<- <-]. vm_compute in Ha. discriminate. }
      unfold for_us. replace (ip4_addr_ismulticast (iph_dest (take 20 other_bytes))) with false by (vm_compute; reflexivity).
      intros [Ha|[_ (n & _ & Ha)]]; by eapply Hna.
    + left. vm_compute. discriminate.
  - exists s'. split; [exact Hrun|]. split; [|exact Hlog]. rewrite Hpb. vm_compute. reflexivity.
Defined.

