(* ===== verification/Udp.v ===== *)
(** * UDP: the protocol control blocks of core/udp.c

    A struct udp_pcb says to which local address and port an application is bound and
    to which remote address and port it is connected.  The blocks in use are linked in
    the list udp_pcbs; udp_new_port, udp_bind and udp_connect put a block on the list,
    udp_remove takes it off and releases it, and udp_input searches the list for the
    block a datagram is for.  The functions that handle packets are in UdpIp.v.

    The state [ustate] has the blocks by address, the list as the sequence of addresses,
    the variable udp_port and the pool MEMP_UDP_PCB.  The macro ip6_addr_select_zone asks
    ip6_route for an interface; it is the argument [select_zone] of the functions that
    use it, with the address to complete and the source address as its arguments.

    Configuration: LWIP_IPV4 1, LWIP_IPV6 1, LWIP_IPV6_SCOPES 1, LWIP_MULTICAST_TX_OPTIONS 1,
    SO_REUSE 0, IP_SOF_BROADCAST 0, IP_SOF_BROADCAST_RECV 0, LWIP_UDPLITE 0, LWIP_RAND
    defined. *)

From S2P Require Import Prelude Def IpAddr Ip4Addr MempPool Etharp Iface Netif Ip4.

(** ** Addresses of either family: include/lwip/ip_addr.h, ip6_addr.h, ip6_zone.h *)

Definition ip4_of (a : ip_addr) : Z := ip6_word (u_addr a) 0.
Definition v4_addr (a : Z) : ip_addr := IpAddr (Ip6Addr [a; 0; 0; 0] 0) IPADDR_TYPE_V4.
Definition IP_ANY_TYPE : ip_addr := IpAddr (Ip6Addr [0; 0; 0; 0] 0) IPADDR_TYPE_ANY.
Definition IP4_ADDR_ANY : ip_addr := v4_addr IPADDR_ANY.

Definition IP_IS_ANY_TYPE_VAL (a : ip_addr) : bool := type a =? IPADDR_TYPE_ANY.
Definition IP_IS_V4_VAL (a : ip_addr) : bool := type a =? IPADDR_TYPE_V4.

Definition ip6_addr_isany_val (a : ip6_addr) : bool :=
  (ip6_word a 0 =? 0) && (ip6_word a 1 =? 0) && (ip6_word a 2 =? 0) && (ip6_word a 3 =? 0).
Definition ip6_addr_cmp (a b : ip6_addr) : bool := ip6_addr_cmp_zoneless a b && (zone a =? zone b).
Definition ip6_addr_ismulticast (a : ip6_addr) : bool :=
  Z.land (ip6_word a 0) (PP_HTONL 4278190080) =? PP_HTONL 4278190080.
Definition ip6_addr_ismulticast_iflocal (a : ip6_addr) : bool :=
  Z.land (ip6_word a 0) (PP_HTONL 4287561728) =? PP_HTONL 4278255616.
Definition ip6_addr_ismulticast_linklocal (a : ip6_addr) : bool :=
  Z.land (ip6_word a 0) (PP_HTONL 4287561728) =? PP_HTONL 4278321152.
(** with the type IP6_UNKNOWN *)
Definition ip6_addr_has_scope (a : ip6_addr) : bool :=
  ip6_addr_islinklocal a || (ip6_addr_ismulticast_iflocal a || ip6_addr_ismulticast_linklocal a).
Definition ip6_addr_lacks_zone (a : ip6_addr) : bool := (zone a =? 0) && ip6_addr_has_scope a.

Definition ip_addr_cmp (a b : ip_addr) : bool :=
  if negb (type a =? type b) then false
  else if IP_IS_V6 a then ip6_addr_cmp (u_addr a) (u_addr b) else ip4_of a =? ip4_of b.
Definition ip_addr_isany_val (a : ip_addr) : bool :=
  if IP_IS_V6 a then ip6_addr_isany_val (u_addr a) else ip4_addr_isany_val (ip4_of a).
(** of a pointer, [None] is NULL *)
Definition ip_addr_isany (a : option ip_addr) : bool :=
  match a with None => true | Some a => ip_addr_isany_val a end.
Definition ip_addr_isbroadcast (a : ip_addr) (i : iface) : bool :=
  if IP_IS_V6 a then false else ip4_addr_isbroadcast (ip4_of a) (base i).
Definition ip_addr_ismulticast (a : ip_addr) : bool :=
  if IP_IS_V6 a then ip6_addr_ismulticast (u_addr a) else ip4_addr_ismulticast (ip4_of a).

(** The value that ip_addr_set and ip_addr_copy store. *)
Definition ip_addr_copy (src : ip_addr) : ip_addr :=
  if IP_IS_V6 src then IpAddr (u_addr src) (type src) else IpAddr (Ip6Addr [ip4_of src; 0; 0; 0] 0) (type src).
Definition ip_addr_set_any (is_ipv6 : bool) : ip_addr :=
  if is_ipv6 then IpAddr (Ip6Addr [0; 0; 0; 0] 0) IPADDR_TYPE_V6 else v4_addr IPADDR_ANY.

(** ** The blocks: include/lwip/udp.h, include/lwip/ip.h *)

(** include/lwip/err.h *)
Definition ERR_USE : Z := -8.

Definition UDP_FLAGS_CONNECTED : Z := 4.
Definition UDP_FLAGS_MULTICAST_LOOP : Z := 8.
Definition UDP_TTL : Z := 255.
Definition UDP_LOCAL_PORT_RANGE_START : Z := 49152.
Definition UDP_LOCAL_PORT_RANGE_END : Z := 65535.
Definition UDP_ENSURE_LOCAL_PORT_RANGE (port : Z) : Z :=
  u16 (Z.land port (u16 (Z.lnot UDP_LOCAL_PORT_RANGE_START)) + UDP_LOCAL_PORT_RANGE_START).

(** [recv] is a pointer to a function, [None] is NULL. *)
Record udp_pcb := UdpPcb {
  local_ip : ip_addr; remote_ip : ip_addr; netif_idx : Z; so_options : Z; tos : Z; ttl : Z;
  uflags : Z; local_port : Z; remote_port : Z; mcast_ip4 : Z; mcast_ifindex : Z; mcast_ttl : Z;
  recv : option Z; recv_arg : Z }.

Definition with_local_ip v (b : udp_pcb) := UdpPcb v (remote_ip b) (netif_idx b) (so_options b) (tos b) (ttl b) (uflags b) (local_port b) (remote_port b) (mcast_ip4 b) (mcast_ifindex b) (mcast_ttl b) (recv b) (recv_arg b).
Definition with_remote_ip v (b : udp_pcb) := UdpPcb (local_ip b) v (netif_idx b) (so_options b) (tos b) (ttl b) (uflags b) (local_port b) (remote_port b) (mcast_ip4 b) (mcast_ifindex b) (mcast_ttl b) (recv b) (recv_arg b).
Definition with_netif_idx v (b : udp_pcb) := UdpPcb (local_ip b) (remote_ip b) v (so_options b) (tos b) (ttl b) (uflags b) (local_port b) (remote_port b) (mcast_ip4 b) (mcast_ifindex b) (mcast_ttl b) (recv b) (recv_arg b).
Definition with_uflags v (b : udp_pcb) := UdpPcb (local_ip b) (remote_ip b) (netif_idx b) (so_options b) (tos b) (ttl b) v (local_port b) (remote_port b) (mcast_ip4 b) (mcast_ifindex b) (mcast_ttl b) (recv b) (recv_arg b).
Definition with_local_port v (b : udp_pcb) := UdpPcb (local_ip b) (remote_ip b) (netif_idx b) (so_options b) (tos b) (ttl b) (uflags b) v (remote_port b) (mcast_ip4 b) (mcast_ifindex b) (mcast_ttl b) (recv b) (recv_arg b).
Definition with_remote_port v (b : udp_pcb) := UdpPcb (local_ip b) (remote_ip b) (netif_idx b) (so_options b) (tos b) (ttl b) (uflags b) (local_port b) v (mcast_ip4 b) (mcast_ifindex b) (mcast_ttl b) (recv b) (recv_arg b).
Definition with_recv v arg (b : udp_pcb) := UdpPcb (local_ip b) (remote_ip b) (netif_idx b) (so_options b) (tos b) (ttl b) (uflags b) (local_port b) (remote_port b) (mcast_ip4 b) (mcast_ifindex b) (mcast_ttl b) v arg.

Definition connected (b : udp_pcb) : bool := negb (Z.land (uflags b) UDP_FLAGS_CONNECTED =? 0).

(** ** The state *)

Record ustate (Q : Type) := UState { pcbs : gmap Z udp_pcb; udp_pcbs : list Z; udp_port : Z; upool : Q }.
Arguments UState {Q} _ _ _ _.
Arguments pcbs {Q} _.
Arguments udp_pcbs {Q} _.
Arguments udp_port {Q} _.
Arguments upool {Q} _.

Section operations.
Context {Q : Type} `{Pool Q}.
Implicit Types u : ustate Q.

Definition set_pcbs v u : ustate Q := UState v (udp_pcbs u) (udp_port u) (upool u).
Definition set_udp_pcbs v u : ustate Q := UState (pcbs u) v (udp_port u) (upool u).
Definition set_udp_port v u : ustate Q := UState (pcbs u) (udp_pcbs u) v (upool u).
Definition set_upool v u : ustate Q := UState (pcbs u) (udp_pcbs u) (udp_port u) v.

Definition getu (a : Z) u : res udp_pcb := deref (pcbs u !! a).
Definition putu (a : Z) (b : udp_pcb) u : ustate Q := set_pcbs (<[a := b]> (pcbs u)) u.

(** ** Ports *)

(** [rand] is LWIP_RAND(). *)
Definition udp_init (rand : Z) u : ustate Q := set_udp_port (UDP_ENSURE_LOCAL_PORT_RANGE rand) u.

(** Check all PCBs. *)
Fixpoint port_taken (l : list Z) u : res bool :=
  match l with
  | [] => Ok false
  | a :: l => b ← getu a u; if local_port b =? udp_port u then Ok true else port_taken l u
  end.

(** From the label [again] on. *)
Fixpoint new_port_loop (fuel : nat) (n : Z) u : res (Z * ustate Q) :=
  match fuel with
  | O => Stuck
  | S fuel =>
      let u := if udp_port u =? UDP_LOCAL_PORT_RANGE_END then set_udp_port UDP_LOCAL_PORT_RANGE_START u
               else set_udp_port (u16 (udp_port u + 1)) u in
      taken ← port_taken (udp_pcbs u) u;
      if (taken : bool) then
        let n := u16 (n + 1) in
        if UDP_LOCAL_PORT_RANGE_END - UDP_LOCAL_PORT_RANGE_START <? n then Ok (0, u) else new_port_loop fuel n u
      else Ok (udp_port u, u)
  end.

(** The counter exceeds its limit after 0x4000 ports. *)
Definition udp_new_port u : res (Z * ustate Q) :=
  new_port_loop (Z.to_nat (UDP_LOCAL_PORT_RANGE_END - UDP_LOCAL_PORT_RANGE_START + 1)) 0 u.

(** ** Binding and connecting *)

(** Does another block have the port, and an address that overlaps? *)
Fixpoint bind_conflict (pcb : Z) (ipaddr : ip_addr) (port : Z) (l : list Z) u : res bool :=
  match l with
  | [] => Ok false
  | a :: l =>
      if pcb =? a then bind_conflict pcb ipaddr port l u else
      b ← getu a u;
      if (local_port b =? port) && (ip_addr_cmp (local_ip b) ipaddr || ip_addr_isany_val ipaddr || ip_addr_isany_val (local_ip b))
      then Ok true else bind_conflict pcb ipaddr port l u
  end.

Section zones.
Variable select_zone : ip6_addr → ip6_addr → res ip6_addr.

Definition udp_bind (pcb : Z) (ipaddr : option ip_addr) (port : Z) u : res (Z * ustate Q) :=
  let ipaddr := default IP4_ADDR_ANY ipaddr in
  let rebind := bool_decide (pcb ∈ udp_pcbs u) in
  ipaddr ← (if IP_IS_V6 ipaddr && ip6_addr_lacks_zone (u_addr ipaddr) then
              let zoned := ip_addr_copy ipaddr in
              a ← select_zone (u_addr zoned) (u_addr zoned); Ok (IpAddr a (type zoned))
            else Ok ipaddr);
  '(err, port, u) ←
    (if port =? 0 then
       '(port, u) ← udp_new_port u;
       Ok (if port =? 0 then ERR_USE else ERR_OK, port, u)
     else
       conflict ← bind_conflict pcb ipaddr port (udp_pcbs u) u;
       Ok (if (conflict : bool) then ERR_USE else ERR_OK, port, u));
  if negb (err =? ERR_OK) then Ok (err, u) else
  b ← getu pcb u;
  let u := putu pcb (with_local_port port (with_local_ip (ip_addr_copy ipaddr) b)) u in
  Ok (ERR_OK, if rebind then u else set_udp_pcbs (pcb :: udp_pcbs u) u).

(** [idx] is the index of the interface, [None] for NULL. *)
Definition udp_bind_netif (pcb : Z) (idx : option Z) u : res (ustate Q) :=
  b ← getu pcb u; Ok (putu pcb (with_netif_idx (default NETIF_NO_INDEX idx) b) u).

Definition udp_connect (pcb : Z) (ipaddr : ip_addr) (port : Z) u : res (Z * ustate Q) :=
  b ← getu pcb u;
  '(err, u) ← (if local_port b =? 0 then udp_bind pcb (Some (local_ip b)) (local_port b) u else Ok (ERR_OK, u));
  if negb (err =? ERR_OK) then Ok (err, u) else
  b ← getu pcb u;
  let remote := ip_addr_copy ipaddr in
  remote ← (if IP_IS_V6 remote && ip6_addr_lacks_zone (u_addr remote) then
              a ← select_zone (u_addr remote) (u_addr (local_ip b)); Ok (IpAddr a (type remote))
            else Ok remote);
  let b := with_uflags (u8 (Z.lor (uflags b) UDP_FLAGS_CONNECTED)) (with_remote_port port (with_remote_ip remote b)) in
  let u := putu pcb b u in
  if bool_decide (pcb ∈ udp_pcbs u) then Ok (ERR_OK, u)
  else Ok (ERR_OK, set_udp_pcbs (pcb :: udp_pcbs u) u).

End zones.

Definition udp_disconnect (pcb : Z) u : res (ustate Q) :=
  b ← getu pcb u;
  let b := if IP_IS_ANY_TYPE_VAL (local_ip b) then with_remote_ip (ip_addr_copy IP_ANY_TYPE) b
           else with_remote_ip (ip_addr_set_any (IP_IS_V6 (remote_ip b))) b in
  let b := with_netif_idx NETIF_NO_INDEX (with_remote_port 0 b) in
  Ok (putu pcb (with_uflags (u8 (Z.land (uflags b) (u8 (Z.land (Z.lnot UDP_FLAGS_CONNECTED) 255)))) b) u).

Definition udp_recv (pcb : Z) (f : option Z) (arg : Z) u : res (ustate Q) :=
  b ← getu pcb u; Ok (putu pcb (with_recv f arg b) u).

(** ** Creating and removing *)

Fixpoint unlink (pcb : Z) (l : list Z) : list Z :=
  match l with
  | [] => []
  | a :: l => if a =? pcb then l else a :: unlink pcb l
  end.

Definition udp_remove (pcb : Z) u : res (ustate Q) :=
  let u := set_udp_pcbs (unlink pcb (udp_pcbs u)) u in
  q ← pool_free pcb (upool u);
  Ok (set_pcbs (delete pcb (pcbs u)) (set_upool q u)).

(** memset to zero, then the members that are not zero. *)
Definition udp_new u : res (option Z * ustate Q) :=
  '(r, q) ← pool_malloc (upool u);
  let u := set_upool q u in
  match r with
  | None => Ok (None, u)
  | Some a =>
      let zero := v4_addr 0 in
      Ok (Some a, putu a (UdpPcb zero zero 0 0 0 UDP_TTL 0 0 0 0 0 UDP_TTL None 0) u)
  end.

Definition with_type (t : Z) (a : ip_addr) : ip_addr := IpAddr (u_addr a) t.

Definition udp_new_ip_type (t : Z) u : res (option Z * ustate Q) :=
  '(r, u) ← udp_new u;
  match r with
  | None => Ok (None, u)
  | Some a =>
      b ← getu a u;
      Ok (Some a, putu a (with_remote_ip (with_type t (remote_ip b)) (with_local_ip (with_type t (local_ip b)) b)) u)
  end.

Fixpoint addr_changed_loop (old new : ip_addr) (l : list Z) u : res (ustate Q) :=
  match l with
  | [] => Ok u
  | a :: l =>
      b ← getu a u;
      let u := if ip_addr_cmp (local_ip b) old then putu a (with_local_ip (ip_addr_copy new) b) u else u in
      addr_changed_loop old new l u
  end.

Definition udp_netif_ip_addr_changed (old_addr new_addr : option ip_addr) u : res (ustate Q) :=
  match old_addr, new_addr with
  | Some old, Some new =>
      if negb (ip_addr_isany_val old) && negb (ip_addr_isany_val new)
      then addr_changed_loop old new (udp_pcbs u) u else Ok u
  | _, _ => Ok u
  end.

(** ** The block a datagram is for *)

(** [dest]: the destination address of the packet; [input_idx]: the index of the interface
    that received it; [inp]: that interface. *)
Definition udp_input_local_match (b : udp_pcb) (dest : ip_addr) (input_idx : Z) (inp : iface) (broadcast : bool) : bool :=
  if negb (netif_idx b =? NETIF_NO_INDEX) && negb (netif_idx b =? input_idx) then false else
  if IP_IS_ANY_TYPE_VAL (local_ip b) then true else
  if type (local_ip b) =? type dest then
    if broadcast then
      ip4_addr_isany_val (ip4_of (local_ip b)) || (ip4_of dest =? IPADDR_BROADCAST) ||
      ip4_addr_netcmp (ip4_of (local_ip b)) (ip4_of dest) (nmask inp)
    else ip_addr_isany_val (local_ip b) || ip_addr_cmp (local_ip b) dest
  else false.

(** A datagram on its way to a block: the addresses and ports, and what
    [udp_input_local_match] needs to know. *)
Record datagram := Datagram {
  d_src : ip_addr; d_dest : ip_addr; d_sport : Z; d_dport : Z; d_input : Z; d_inp : iface; d_broadcast : bool }.

(** Is the address of the block the one of the interface? *)
Definition on_netif (b : udp_pcb) (inp : iface) : bool := IP_IS_V4_VAL (local_ip b) && (ip4_of (local_ip b) =? nip inp).

Definition local_match (b : udp_pcb) (d : datagram) : bool :=
  (local_port b =? d_dport d) && udp_input_local_match b (d_dest d) (d_input d) (d_inp d) (d_broadcast d).
Definition remote_match (b : udp_pcb) (d : datagram) : bool :=
  (remote_port b =? d_sport d) && (ip_addr_isany_val (remote_ip b) || ip_addr_cmp (remote_ip b) (d_src d)).

(** The new value of uncon_pcb. *)
Definition next_uncon (a : Z) (b : udp_pcb) (d : datagram) (uncon : option Z) u : res (option Z) :=
  if connected b then Ok uncon else
  match uncon with
  | None => Ok (Some a)
  | Some x =>
      if d_broadcast d && (ip4_of (d_dest d) =? IPADDR_BROADCAST) then
        c ← getu x u;
        if negb (on_netif c (d_inp d)) && on_netif b (d_inp d) then Ok (Some a) else Ok uncon
      else Ok uncon
  end.

(** The loop: the block that matches completely, and the one for want of such a block. *)
Fixpoint udp_search (d : datagram) (l : list Z) (uncon : option Z) u : res (option Z * option Z) :=
  match l with
  | [] => Ok (None, uncon)
  | a :: l =>
      b ← getu a u;
      if local_match b d then
        uncon ← next_uncon a b d uncon u;
        if remote_match b d then Ok (Some a, uncon) else udp_search d l uncon u
      else udp_search d l uncon u
  end.

(** The block found; one that matches completely is moved to the front. *)
Definition udp_demux (d : datagram) u : res (option Z * ustate Q) :=
  '(pcb, uncon) ← udp_search d (udp_pcbs u) None u;
  match pcb with
  | None => Ok (uncon, u)
  | Some a =>
      let u := match udp_pcbs u with
               | hd :: _ => if hd =? a then u else set_udp_pcbs (a :: unlink a (udp_pcbs u)) u
               | [] => u
               end in
      Ok (Some a, u)
  end.

End operations.
