(* ===== verification/UdpFacts.v ===== *)
(** * UDP: ports, bindings and the search for a block

    [udp_inv] is the invariant of udp.c: the blocks on the list are exactly the ones that
    have a local port, and no two of them have the same port with addresses that
    overlap.  The operations keep it, so that a datagram that is no broadcast can match
    one block only.  The invariant holds along all sequences of calls, and udp_demux finds
    the block that the rules for bound and connected blocks determine. *)

From S2P Require Import Prelude Def IpAddr Ip4Addr MempPool Etharp Iface Netif Ip4 Udp.

(** ** Addresses *)

Definition addrs_overlap (x y : ip_addr) : bool := ip_addr_cmp x y || ip_addr_isany_val y || ip_addr_isany_val x.

(** The words of the unspecified address. *)
Definition addr_sane (x : ip_addr) : Prop := type x = IPADDR_TYPE_ANY → ip_addr_isany_val x = true.

Lemma ip6_cmp_eq x y : ip6_addr_cmp x y = true ↔
  (∀ k, (k < 4)%nat → ip6_word x k = ip6_word y k) ∧ zone x = zone y.
Proof.
  unfold ip6_addr_cmp, ip6_addr_cmp_zoneless. rewrite !andb_true_iff, !Z.eqb_eq. split.
  - intros [(((H0 & H1) & H2) & H3) Hz]. split; [|done]. intros k Hk. do 4 (destruct k as [|k]; [done|]). lia.
  - intros [Hk Hz]. split_and!; try done; apply Hk; lia.
Qed.

Lemma ip_addr_cmp_eq x y : ip_addr_cmp x y = true ↔
  type x = type y ∧ if IP_IS_V6 x then ip6_addr_cmp (u_addr x) (u_addr y) = true else ip4_of x = ip4_of y.
Proof.
  unfold ip_addr_cmp. destruct (type x =? type y) eqn:E; cbn [negb].
  - apply Z.eqb_eq in E. destruct (IP_IS_V6 x); [naive_solver|]. rewrite Z.eqb_eq. naive_solver.
  - apply Z.eqb_neq in E. naive_solver.
Qed.

Lemma ip_addr_cmp_sym x y : ip_addr_cmp x y = true → ip_addr_cmp y x = true.
Proof.
  intros [Ht Hw]%ip_addr_cmp_eq. apply ip_addr_cmp_eq. split; [done|]. unfold IP_IS_V6 in *. rewrite <-Ht.
  destruct (_ =? _); [|done]. apply ip6_cmp_eq in Hw as [Hw Hz]. apply ip6_cmp_eq. split; [|done]. intros k Hk. symmetry. auto.
Qed.

Lemma ip_addr_cmp_trans x y z : ip_addr_cmp x y = true → ip_addr_cmp y z = true → ip_addr_cmp x z = true.
Proof.
  intros [Ht Hw]%ip_addr_cmp_eq [Ht' Hw']%ip_addr_cmp_eq. apply ip_addr_cmp_eq. split; [congruence|].
  unfold IP_IS_V6 in *. rewrite <-Ht in Hw'. destruct (_ =? _); [|congruence].
  apply ip6_cmp_eq in Hw as [Hw Hz], Hw' as [Hw' Hz']. apply ip6_cmp_eq. split; [|congruence]. intros k Hk. rewrite Hw by done. auto.
Qed.

Lemma overlap_sym x y : addrs_overlap x y = addrs_overlap y x.
Proof.
  unfold addrs_overlap. rewrite <-!orb_assoc, (orb_comm (ip_addr_isany_val y)). f_equal.
  apply eq_true_iff_eq. split; apply ip_addr_cmp_sym.
Qed.

Lemma copy_word x k : IP_IS_V6 x = true ∨ k = 0%nat → ip6_word (u_addr (ip_addr_copy x)) k = ip6_word (u_addr x) k.
Proof. unfold ip_addr_copy. destruct (IP_IS_V6 x); [done|]. by intros [?| ->]. Qed.

Lemma copy_type x : type (ip_addr_copy x) = type x.
Proof. unfold ip_addr_copy. by destruct (IP_IS_V6 x). Qed.

(** Storing an address keeps what the tests see of it. *)
Lemma copy_isany x : ip_addr_isany_val (ip_addr_copy x) = ip_addr_isany_val x.
Proof.
  unfold ip_addr_copy. destruct (IP_IS_V6 x) eqn:E; [by destruct x|]. unfold ip_addr_isany_val, IP_IS_V6 in *. cbn [type]. by rewrite E.
Qed.

Lemma copy_cmp x y : ip_addr_cmp (ip_addr_copy x) y = ip_addr_cmp x y.
Proof.
  unfold ip_addr_copy. destruct (IP_IS_V6 x) eqn:E; [by destruct x|]. unfold ip_addr_cmp, IP_IS_V6 in *. cbn [type]. by rewrite E.
Qed.

Lemma copy_overlap x y : addrs_overlap (ip_addr_copy x) y = addrs_overlap x y.
Proof. unfold addrs_overlap. by rewrite copy_cmp, copy_isany. Qed.

Lemma copy_sane x : addr_sane x → addr_sane (ip_addr_copy x).
Proof. unfold addr_sane. by rewrite copy_type, copy_isany. Qed.

(** ** The invariant *)

(** Two blocks that would both receive some datagram. *)
Definition clash (b c : udp_pcb) : bool := (local_port b =? local_port c) && addrs_overlap (local_ip b) (local_ip c).

Lemma clash_sym b c : clash b c = clash c b.
Proof. unfold clash. by rewrite Z.eqb_sym, overlap_sym. Qed.

Section facts.
Context {Q : Type} `{PoolLaws Q}.
Implicit Types u : ustate Q.

(** [ex]: do two blocks on the list never overlap?  It is so as long as no interface takes an
    address that some block is bound to. *)
Record udp_inv (ex : bool) u : Prop := {
  uo_pool : pool_ok (upool u) (elements (dom (pcbs u)));
  uo_nodup : NoDup (udp_pcbs u);
  uo_range : UDP_LOCAL_PORT_RANGE_START ≤ udp_port u ≤ UDP_LOCAL_PORT_RANGE_END;
  uo_known a : a ∈ udp_pcbs u → is_Some (pcbs u !! a);
  uo_active a b : pcbs u !! a = Some b → is_u16 (local_port b) ∧ (a ∈ udp_pcbs u ↔ local_port b ≠ 0);
  uo_sane a b : pcbs u !! a = Some b → addr_sane (local_ip b);
  uo_clash : ex = true → ∀ a a' b b', a ∈ udp_pcbs u → a' ∈ udp_pcbs u → a ≠ a' → pcbs u !! a = Some b → pcbs u !! a' = Some b' →
    clash b b' = false
}.

Lemma getu_some a b u : pcbs u !! a = Some b → getu a u = Ok b.
Proof. unfold getu. by intros ->. Qed.

(** ** Ports *)

(** A block of the list has the port. *)
Definition has_port u (port : Z) : Prop := ∃ a b, a ∈ udp_pcbs u ∧ pcbs u !! a = Some b ∧ local_port b = port.

Lemma port_taken_ok u l : (∀ a, a ∈ l → is_Some (pcbs u !! a)) →
  ∃ r, port_taken l u = Ok r ∧ (r = true ↔ ∃ a b, a ∈ l ∧ pcbs u !! a = Some b ∧ local_port b = udp_port u).
Proof.
  induction l as [|a l IH]; intros Hk; cbn [port_taken].
  { exists false. split; [done|]. split; [done|]. intros (? & ? & ?%elem_of_nil & _). done. }
  destruct (Hk a) as [b Hb]; [by left|]. rewrite (getu_some _ _ _ Hb). cbn [mbind res_bind].
  destruct (local_port b =? udp_port u) eqn:E.
  - exists true. split; [done|]. split; [|done]. intros _. exists a, b. split; [by left|]. split; [done|lia].
  - destruct IH as (r & -> & Hr); [intros; apply Hk; by right|]. exists r. split; [done|]. rewrite Hr. split.
    + intros (a' & b' & Hin & ?). exists a', b'. split; [by right|done].
    + intros (a' & b' & [-> |Hin]%elem_of_cons & Hb' & Hp); [rewrite Hb in Hb'; injection Hb' as <-; lia|]. by exists a', b'.
Qed.

(** The port after [p] in the cyclic order of the range, [k] times. *)
Definition port_after (p : Z) (k : Z) : Z :=
  UDP_LOCAL_PORT_RANGE_START + (p - UDP_LOCAL_PORT_RANGE_START + k) mod 16384.

Lemma port_after_range p k : UDP_LOCAL_PORT_RANGE_START ≤ port_after p k ≤ UDP_LOCAL_PORT_RANGE_END.
Proof. unfold port_after, UDP_LOCAL_PORT_RANGE_START, UDP_LOCAL_PORT_RANGE_END. pose proof (Z.mod_pos_bound (p - 49152 + k) 16384). lia. Qed.

Lemma port_after_next p k : port_after (port_after p k) 1 = port_after p (k + 1).
Proof. unfold port_after, UDP_LOCAL_PORT_RANGE_START. zlia. Qed.

Lemma port_step u : UDP_LOCAL_PORT_RANGE_START ≤ udp_port u ≤ UDP_LOCAL_PORT_RANGE_END →
  (if udp_port u =? UDP_LOCAL_PORT_RANGE_END then set_udp_port UDP_LOCAL_PORT_RANGE_START u
   else set_udp_port (u16 (udp_port u + 1)) u) = set_udp_port (port_after (udp_port u) 1) u.
Proof.
  intros Hr. unfold port_after, UDP_LOCAL_PORT_RANGE_START, UDP_LOCAL_PORT_RANGE_END in *. destruct (udp_port u =? 65535) eqn:E.
  - apply Z.eqb_eq in E. by rewrite E.
  - apply Z.eqb_neq in E. f_equal. rewrite Z.mod_small by lia. ulia.
Qed.

Lemma port_after_onto p q : UDP_LOCAL_PORT_RANGE_START ≤ q ≤ UDP_LOCAL_PORT_RANGE_END →
  ∃ k, 1 ≤ k ≤ 16384 ∧ port_after p k = q.
Proof.
  unfold port_after, UDP_LOCAL_PORT_RANGE_START, UDP_LOCAL_PORT_RANGE_END. intros Hq. exists ((q - p - 1) mod 16384 + 1). zlia.
Qed.

Lemma new_port_loop_ok u p fuel : (∀ a, a ∈ udp_pcbs u → is_Some (pcbs u !! a)) → ∀ n,
  0 ≤ n → Z.of_nat fuel + n = 16384 → (0 < fuel)%nat → (∀ k, 1 ≤ k ≤ n → has_port u (port_after p k)) →
  ∃ q k, new_port_loop fuel n (set_udp_port (port_after p n) u) = Ok (q, set_udp_port (port_after p k) u) ∧
    (q = 0 ∧ (∀ q', UDP_LOCAL_PORT_RANGE_START ≤ q' ≤ UDP_LOCAL_PORT_RANGE_END → has_port u q') ∨ q = port_after p k ∧ ¬ has_port u q).
Proof.
  intros Hk. induction fuel as [|fuel IH]; intros n Hn Hf Hpos Hall; [lia|]. cbn [new_port_loop].
  rewrite port_step by apply port_after_range. cbv zeta. change (udp_port (set_udp_port (port_after p n) u)) with (port_after p n).
  rewrite port_after_next. change (set_udp_port ?v (set_udp_port ?w u)) with (set_udp_port v u).
  destruct (port_taken_ok (set_udp_port (port_after p (n + 1)) u) (udp_pcbs u)) as (r & Hr & Hiff); [done|].
  change (udp_pcbs (set_udp_port (port_after p (n + 1)) u)) with (udp_pcbs u).
  rewrite Hr. cbn [mbind res_bind]. destruct r.
  - rewrite (u16_id (n + 1)) by ulia. assert (Hall' : ∀ k, 1 ≤ k ≤ n + 1 → has_port u (port_after p k)).
    { intros k Hkr. destruct (decide (k = n + 1)) as [-> |]; [by apply Hiff|apply Hall; lia]. }
    destruct (_ <? n + 1) eqn:E; unfold UDP_LOCAL_PORT_RANGE_START, UDP_LOCAL_PORT_RANGE_END in E; breflect.
    + exists 0, (n + 1). split; [done|]. left. split; [done|]. intros q' Hq'. destruct (port_after_onto p q' Hq') as (k & Hk' & <-). apply Hall'. lia.
    + apply (IH (n + 1)); try done; lia.
  - exists (port_after p (n + 1)), (n + 1). split; [done|]. right. split; [done|]. intros Hp. by apply Hiff in Hp.
Qed.

Lemma new_port_ok ex u : udp_inv ex u → ∃ q v, udp_new_port u = Ok (q, set_udp_port v u) ∧
  UDP_LOCAL_PORT_RANGE_START ≤ v ≤ UDP_LOCAL_PORT_RANGE_END ∧
  (q = 0 ∧ (∀ q', UDP_LOCAL_PORT_RANGE_START ≤ q' ≤ UDP_LOCAL_PORT_RANGE_END → has_port u q') ∨ q = v ∧ ¬ has_port u q).
Proof.
  intros Hok. destruct (new_port_loop_ok u (udp_port u) (Z.to_nat 16384) (uo_known _ _ Hok) 0) as (q & k & Hrun & Hres); [lia..|intros; lia|].
  exists q, (port_after (udp_port u) k). split; [|split; [apply port_after_range|done]].
  unfold udp_new_port. rewrite <-Hrun. unfold UDP_LOCAL_PORT_RANGE_END, UDP_LOCAL_PORT_RANGE_START. change (65535 - 49152 + 1) with 16384. f_equal.
  destruct u as [x y po z]. unfold set_udp_port. cbn. f_equal. pose proof (uo_range _ _ Hok) as Hr. cbn in Hr.
  unfold port_after, UDP_LOCAL_PORT_RANGE_START, UDP_LOCAL_PORT_RANGE_END in *. zlia.
Qed.

(** ** Changes of a block *)

(** A change of members other than the local address and port. *)
Lemma update_ok e u a b b' : udp_inv e u → pcbs u !! a = Some b → local_port b' = local_port b → local_ip b' = local_ip b →
  udp_inv e (putu a b' u).
Proof.
  intros [Hp Hnd Hr Hk Ha Hs Hc] Hb Hport Hip.
  assert (Hold : ∀ x y, <[a := b']> (pcbs u) !! x = Some y → ∃ z, pcbs u !! x = Some z ∧ local_port y = local_port z ∧ local_ip y = local_ip z).
  { intros x y [[-> <-]|[? ?]]%lookup_insert_Some; [by exists b|by exists y]. }
  split; cbn [putu set_pcbs pcbs udp_pcbs udp_port upool]; try done.
  - rewrite dom_insert_lookup_L; [done|by eexists].
  - intros x Hx. destruct (decide (x = a)) as [-> |]; [rewrite lookup_insert_eq; by eexists|rewrite lookup_insert_ne by done; auto].
  - intros x y (z & Hz & -> & _)%Hold. eauto.
  - intros x y (z & Hz & _ & ->)%Hold. eauto.
  - intros He x x' y y' Hx Hx' Hne (z & Hz & Hp1 & Hi1)%Hold (z' & Hz' & Hp2 & Hi2)%Hold. unfold clash. rewrite Hp1, Hi1, Hp2, Hi2. exact (Hc He _ _ _ _ Hx Hx' Hne Hz Hz').
Qed.

(** The state after udp_bind has chosen the port [q] and the address [x]; [v] is the new value
    of udp_port. *)
Definition bound (a : Z) (b : udp_pcb) (q : Z) (x : ip_addr) (v : Z) u : ustate Q :=
  UState (<[a := with_local_port q (with_local_ip (ip_addr_copy x) b)]> (pcbs u))
    (if bool_decide (a ∈ udp_pcbs u) then udp_pcbs u else a :: udp_pcbs u) v (upool u).

Lemma bound_ok e u a b q x v : udp_inv e u → pcbs u !! a = Some b → is_u16 q → q ≠ 0 → addr_sane x →
  UDP_LOCAL_PORT_RANGE_START ≤ v ≤ UDP_LOCAL_PORT_RANGE_END →
  (∀ a' b', a' ∈ udp_pcbs u → a' ≠ a → pcbs u !! a' = Some b' → local_port b' = q → addrs_overlap (local_ip b') x = false) →
  udp_inv e (bound a b q x v u).
Proof.
  intros [Hp Hnd Hr Hk Ha Hs Hc] Hb Hq Hq0 Hx Hv Hfree. set (b1 := with_local_port q (with_local_ip (ip_addr_copy x) b)).
  assert (Hin : ∀ y, y ∈ (if bool_decide (a ∈ udp_pcbs u) then udp_pcbs u else a :: udp_pcbs u) ↔ y = a ∨ y ∈ udp_pcbs u).
  { intros y. case_bool_decide; [|apply elem_of_cons]. split; [by right|]. by intros [-> |]. }
  assert (Hno : ∀ a' b', a' ∈ udp_pcbs u → a' ≠ a → pcbs u !! a' = Some b' → clash b1 b' = false).
  { intros a' b' Hin' Hne Hb'. unfold clash. cbn [b1 with_local_port with_local_ip local_port local_ip]. rewrite copy_overlap, overlap_sym.
    destruct (q =? local_port b') eqn:E; [|done]. apply (Hfree a' b'); try done. lia. }
  split; cbn [bound pcbs udp_pcbs udp_port upool]; fold b1.
  - rewrite dom_insert_lookup_L; [done|by eexists].
  - case_bool_decide; [done|]. by constructor.
  - done.
  - intros y [-> |Hy]%Hin; [rewrite lookup_insert_eq; by eexists|]. destruct (decide (y = a)) as [-> |]; [rewrite lookup_insert_eq; by eexists|].
    rewrite lookup_insert_ne by done. auto.
  - intros y c [[<- <-]|[Hne Hy]]%lookup_insert_Some; rewrite Hin.
    + split; [done|]. split; [done|]. by left.
    + destruct (Ha _ _ Hy) as [? Hiff]. split; [done|]. rewrite <-Hiff. split; [by intros [-> |]|by right].
  - intros y c [[<- <-]|[Hne Hy]]%lookup_insert_Some; [by apply copy_sane|eauto].
  - intros He y y' c c' Hy%Hin Hy'%Hin Hne [[<- <-]|[Hn1 Hc1]]%lookup_insert_Some [[<- <-]|[Hn2 Hc2]]%lookup_insert_Some; [done|..].
    + destruct Hy' as [-> |Hy']; [done|]. by eapply Hno.
    + rewrite clash_sym. destruct Hy as [-> |Hy]; [done|]. by eapply Hno.
    + destruct Hy as [-> |Hy], Hy' as [-> |Hy']; try done. by eapply (Hc He y y').
Qed.

Lemma bind_conflict_ok u a x port l : (∀ y, y ∈ l → is_Some (pcbs u !! y)) →
  ∃ r, bind_conflict a x port l u = Ok r ∧
    (r = true ↔ ∃ a' b', a' ∈ l ∧ a' ≠ a ∧ pcbs u !! a' = Some b' ∧ local_port b' = port ∧ addrs_overlap (local_ip b') x = true).
Proof.
  induction l as [|y l IH]; intros Hk; cbn [bind_conflict].
  { exists false. split; [done|]. split; [done|]. intros (? & ? & ?%elem_of_nil & _). done. }
  destruct IH as (r & Hr & Hiff); [intros; apply Hk; by right|].
  assert (Hskip : (∀ b', y ≠ a → pcbs u !! y = Some b' → local_port b' = port → addrs_overlap (local_ip b') x = false) →
    (r = true ↔ ∃ a' b', a' ∈ y :: l ∧ a' ≠ a ∧ pcbs u !! a' = Some b' ∧ local_port b' = port ∧ addrs_overlap (local_ip b') x = true)).
  { intros Hno. rewrite Hiff. split; intros (a' & b' & Hin & Hne & Hb' & Hp & Ho); exists a', b'; [split; [by right|done]|].
    apply elem_of_cons in Hin as [-> |Hin]; [|done]. by rewrite (Hno b') in Ho. }
  destruct (a =? y) eqn:E; breflect; [subst; exists r; split; [done|]; by apply Hskip|].
  destruct (Hk y) as [b Hb]; [by left|]. rewrite (getu_some _ _ _ Hb). cbn [mbind res_bind]. fold (addrs_overlap (local_ip b) x).
  destruct (_ && _) eqn:E2.
  - breflect. exists true. split; [done|]. split; [|done]. intros _. exists y, b. split_and!; try done. by left.
  - exists r. split; [done|]. apply Hskip. intros b' _ Hb' Hp. rewrite Hb in Hb'. injection Hb' as <-. rewrite Hp, Z.eqb_refl in E2. done.
Qed.

Section zones.
Variable select_zone : ip6_addr → ip6_addr → res ip6_addr.
(** ip6_addr_select_zone sets the zone of its first argument. *)
Definition sets_zone : Prop := ∀ a src, ∃ z, select_zone a src = Ok (Ip6Addr (addr a) z).

(** The address that udp_bind uses for [x]. *)
Definition zoned_from (x y : ip_addr) : Prop := type y = type x ∧ addr (u_addr y) = addr (u_addr x).

Lemma zoned_sane x y : zoned_from x y → addr_sane x → addr_sane y.
Proof.
  intros [Ht Hw] Hs. unfold addr_sane. rewrite Ht. intros E. specialize (Hs E). revert Hs. unfold ip_addr_isany_val, IP_IS_V6, ip6_addr_isany_val, ip4_of, ip6_word. by rewrite Ht, Hw.
Qed.

Lemma zone_ok (x : ip_addr) : sets_zone → ∃ y,
  (if IP_IS_V6 x && ip6_addr_lacks_zone (u_addr x) then
     a ← select_zone (u_addr (ip_addr_copy x)) (u_addr (ip_addr_copy x)); Ok (IpAddr a (type (ip_addr_copy x)))
   else Ok x) = Ok y ∧ zoned_from x y.
Proof.
  intros Hz. destruct (IP_IS_V6 x) eqn:E; cbn [andb]; [|by exists x]. destruct (ip6_addr_lacks_zone _); [|by exists x].
  unfold ip_addr_copy. rewrite E. cbn [u_addr type]. destruct (Hz (u_addr x) (u_addr x)) as [z ->]. by eexists.
Qed.

(** What udp_bind does. *)
Inductive bind_result u (a : Z) (b : udp_pcb) (ip : ip_addr) (port : Z) : Z → ustate Q → Prop :=
| bind_done q x v : zoned_from ip x → is_u16 q → q ≠ 0 →
    (if port =? 0 then q = v ∧ ¬ has_port u q else q = port ∧ v = udp_port u) →
    bind_result u a b ip port ERR_OK (bound a b q x v u)
| bind_full v : port = 0 → (∀ q, UDP_LOCAL_PORT_RANGE_START ≤ q ≤ UDP_LOCAL_PORT_RANGE_END → has_port u q) →
    bind_result u a b ip port ERR_USE (set_udp_port v u)
| bind_in_use a' b' x : port ≠ 0 → zoned_from ip x → a' ∈ udp_pcbs u → a' ≠ a → pcbs u !! a' = Some b' →
    local_port b' = port → addrs_overlap (local_ip b') x = true → bind_result u a b ip port ERR_USE u.

Lemma set_udp_port_ok e u v : UDP_LOCAL_PORT_RANGE_START ≤ v ≤ UDP_LOCAL_PORT_RANGE_END → udp_inv e u → udp_inv e (set_udp_port v u).
Proof. by intros Hv [? ? ? ? ? ? ?]. Qed.

Lemma udp_bind_ok ex u a b ip port : sets_zone → udp_inv ex u → pcbs u !! a = Some b → is_u16 port → addr_sane (default IP4_ADDR_ANY ip) →
  ∃ e u', udp_bind select_zone a ip port u = Ok (e, u') ∧ udp_inv ex u' ∧ bind_result u a b (default IP4_ADDR_ANY ip) port e u'.
Proof.
  intros Hz Hok Hb Hport Hsane. unfold udp_bind. cbv zeta. set (ip0 := default IP4_ADDR_ANY ip) in *.
  destruct (zone_ok ip0 Hz) as (x & -> & Hx). cbn [mbind res_bind]. pose proof (zoned_sane _ _ Hx Hsane) as Hsx.
  destruct (port =? 0) eqn:E; breflect.
  - destruct (new_port_ok _ u Hok) as (q & v & -> & Hv & Hq). cbn [mbind res_bind]. destruct Hq as [[-> Hall]|[-> Hfree]].
    + cbn. exists ERR_USE, (set_udp_port v u). split; [done|]. split; [by apply set_udp_port_ok|]. by apply bind_full.
    + assert (Hv0 : v ≠ 0 ∧ is_u16 v) by (unfold UDP_LOCAL_PORT_RANGE_START, UDP_LOCAL_PORT_RANGE_END in Hv; split; [lia|ulia]).
      destruct Hv0 as [Hv0 Hvu]. rewrite (proj2 (Z.eqb_neq v 0)) by done. cbn [Z.eqb ERR_OK negb]. rewrite (getu_some a b) by done. cbn [mbind res_bind].
      exists ERR_OK, (bound a b v x v u). split; [unfold bound; by case_bool_decide|]. split.
      * apply bound_ok; try done. intros a' b' Hin _ Hb' Hp. destruct Hfree. by exists a', b'.
      * apply bind_done; try done. by rewrite E.
  - destruct (bind_conflict_ok u a x port (udp_pcbs u) (uo_known _ _ Hok)) as (r & -> & Hr). cbn [mbind res_bind]. destruct r.
    + destruct (proj1 Hr eq_refl) as (a' & b' & ? & ? & ? & ? & ?). exists ERR_USE, u. split; [done|]. split; [done|]. by eapply bind_in_use.
    + cbn [Z.eqb ERR_OK negb]. rewrite (getu_some a b) by done. cbn [mbind res_bind]. exists ERR_OK, (bound a b port x (udp_port u) u).
      split; [unfold bound; by case_bool_decide|]. split; [|apply bind_done; try done; by rewrite (proj2 (Z.eqb_neq port 0))].
      apply bound_ok; try done; [apply Hok|]. intros a' b' Hin Hne Hb' Hp. apply not_true_iff_false. intros Ho.
      assert (false = true); [|done]. apply Hr. by exists a', b'.
Qed.

End zones.
End facts.

(** The invariant with the exclusion of overlaps. *)
Abbreviation udp_ok := (udp_inv true).

(** ** The list *)

Lemma unlink_elem a x l : NoDup l → x ∈ unlink a l ↔ x ∈ l ∧ x ≠ a.
Proof.
  induction 1 as [|y l Hy Hnd IH]; cbn [unlink]; [split; [by intros ?%elem_of_nil|by intros [?%elem_of_nil ?]]|].
  destruct (y =? a) eqn:E; breflect.
  - subst. rewrite elem_of_cons. split; [|by intros [[-> |] ?]]. intros Hx. split; [by right|]. by intros ->.
  - rewrite !elem_of_cons, IH. naive_solver.
Qed.

Lemma unlink_nodup a l : NoDup l → NoDup (unlink a l).
Proof.
  induction 1 as [|y l Hy Hnd IH]; cbn [unlink]; [constructor|]. destruct (y =? a); [done|]. constructor; [|done]. rewrite unlink_elem by done. naive_solver.
Qed.

Lemma unlink_perm a l : a ∈ l → l ≡ₚ a :: unlink a l.
Proof.
  induction l as [|y l IH]; [by intros ?%elem_of_nil|]. cbn [unlink]. destruct (y =? a) eqn:E; breflect; [by subst|].
  intros [-> |Hl]%elem_of_cons; [done|]. rewrite (IH Hl) at 1. constructor.
Qed.

Section runs.
Context {Q : Type} `{PoolLaws Q}.
Implicit Types u : ustate Q.
Variable select_zone : ip6_addr → ip6_addr → res ip6_addr.
Hypothesis Hzone : sets_zone select_zone.

(** ** The operations keep the invariant *)

Lemma connect_ok ex u a b ip port : udp_inv ex u → pcbs u !! a = Some b →
  ∃ e u', udp_connect select_zone a ip port u = Ok (e, u') ∧ udp_inv ex u'.
Proof.
  intros Hok Hb. unfold udp_connect. rewrite (getu_some _ _ _ Hb). cbn [mbind res_bind].
  assert (Hbind : ∃ e u1, (if local_port b =? 0 then udp_bind select_zone a (Some (local_ip b)) (local_port b) u else Ok (ERR_OK, u)) = Ok (e, u1) ∧
    udp_inv ex u1 ∧ (e = ERR_OK → ∃ b1, pcbs u1 !! a = Some b1 ∧ a ∈ udp_pcbs u1)).
  { destruct (uo_active _ _ Hok _ _ Hb) as [Hu16 Hact]. destruct (local_port b =? 0) eqn:E; breflect.
    - destruct (udp_bind_ok select_zone ex u a b (Some (local_ip b)) (local_port b)) as (e & u1 & -> & Hok1 & Hres); try done; [by apply (uo_sane _ _ Hok a)|].
      exists e, u1. split; [done|]. split; [done|]. intros ->. inversion Hres; subst; [|done..]. eexists. cbn [bound pcbs udp_pcbs].
      split; [apply lookup_insert_eq|]. case_bool_decide; [done|by left].
    - exists ERR_OK, u. split; [done|]. split; [done|]. intros _. exists b. split; [done|]. by apply Hact. }
  destruct Hbind as (e & u1 & -> & Hok1 & Hb1). cbn [mbind res_bind]. destruct (e =? ERR_OK) eqn:E; cbn [negb]; [|by exists e, u1].
  apply Z.eqb_eq in E. destruct (Hb1 E) as (b1 & Hb1' & Hin). rewrite (getu_some _ _ _ Hb1'). cbn [mbind res_bind].
  assert (Hr : ∃ r, (if IP_IS_V6 (ip_addr_copy ip) && ip6_addr_lacks_zone (u_addr (ip_addr_copy ip)) then
     x ← select_zone (u_addr (ip_addr_copy ip)) (u_addr (local_ip b1)); Ok (IpAddr x (type (ip_addr_copy ip))) else Ok (ip_addr_copy ip)) = Ok r).
  { destruct (_ && _); [|by eexists]. destruct (Hzone (u_addr (ip_addr_copy ip)) (u_addr (local_ip b1))) as [z ->]. by eexists. }
  destruct Hr as [r ->]. cbn [mbind res_bind]. rewrite bool_decide_eq_true_2 by exact Hin. do 2 eexists. split; [done|]. by eapply update_ok.
Qed.

Lemma remove_ok ex u a b : udp_inv ex u → pcbs u !! a = Some b → ∃ u', udp_remove a u = Ok u' ∧ udp_inv ex u' ∧
  pcbs u' = delete a (pcbs u) ∧ udp_pcbs u' = unlink a (udp_pcbs u).
Proof.
  intros [Hp Hnd Hr Hk Ha Hs Hc] Hb. unfold udp_remove. cbn [set_udp_pcbs upool].
  assert (Hd : elements (dom (pcbs u)) ≡ₚ a :: elements (dom (delete a (pcbs u)))).
  { assert (Hin : a ∈ dom (pcbs u)) by (apply elem_of_dom; by eexists). rewrite dom_delete_L. rewrite <-elements_union_singleton by set_solver.
    f_equiv. intros x. destruct (decide (x = a)); set_solver. }
  destruct (pool_free_ok _ _ _ _ Hp Hd) as (q & -> & Hq & _). cbn [mbind res_bind]. eexists. split; [done|]. split; [|done].
  split; cbn [set_pcbs set_upool set_udp_pcbs pcbs udp_pcbs udp_port upool]; try done.
  - by apply unlink_nodup.
  - intros x [Hx Hne]%unlink_elem; [|done]. rewrite lookup_delete_ne by done. auto.
  - intros x y [Hne Hy]%lookup_delete_Some. destruct (Ha _ _ Hy) as [? Hiff]. split; [done|]. rewrite unlink_elem, Hiff by done. naive_solver.
  - intros x y [Hne Hy]%lookup_delete_Some. eauto.
  - intros He x x' y y' [Hx _]%unlink_elem [Hx' _]%unlink_elem Hne [_ Hy]%lookup_delete_Some [_ Hy']%lookup_delete_Some; try done. by eapply (Hc He x x').
Qed.

Lemma new_ok ex u : udp_inv ex u → ∃ r u', udp_new u = Ok (r, u') ∧ udp_inv ex u' ∧ udp_pcbs u' = udp_pcbs u ∧
  match r with
  | Some a => pcbs u !! a = None ∧ ∃ b, pcbs u' = <[a := b]> (pcbs u) ∧ local_port b = 0 ∧ local_ip b = v4_addr 0
  | None => u' = u
  end.
Proof.
  intros [Hp Hnd Hr Hk Ha Hs Hc]. unfold udp_new. destruct (pool_malloc_ok _ _ Hp) as (r & q & -> & Hq). cbn [mbind res_bind].
  destruct r as [a|]; [|subst q; destruct u; by eexists None, _]. do 2 eexists. split; [done|].
  assert (Hfresh : pcbs u !! a = None).
  { apply pool_nodup, NoDup_cons in Hq as [Hn _]. apply not_elem_of_dom. by rewrite <-elem_of_elements. }
  assert (Ha' : a ∉ udp_pcbs u) by (intros Hin; apply Hk in Hin as [? ?]; congruence).
  split; [|split; [done|]; split; [done|]; eexists; split; [done|done]].
  split; cbn [putu set_pcbs set_upool pcbs udp_pcbs udp_port upool]; try done.
  - eapply pool_perm; [|exact Hq]. rewrite dom_insert_L, elements_union_singleton; [done|]. by apply not_elem_of_dom.
  - intros x Hx. rewrite lookup_insert_ne by (by intros ->). auto.
  - intros x y [[<- <-]|[Hne Hy]]%lookup_insert_Some; [|eauto]. split; [done|]. split; [done|]. by intros [].
  - intros x y [[<- <-]|[Hne Hy]]%lookup_insert_Some; [done|eauto].
  - intros He x x' y y' Hx Hx' Hne [[<- <-]|[_ Hy]]%lookup_insert_Some [[<- <-]|[_ Hy']]%lookup_insert_Some; try done. by eapply (Hc He x x').
Qed.

Lemma new_ip_type_ok ex t u : udp_inv ex u → ∃ r u', udp_new_ip_type t u = Ok (r, u') ∧ udp_inv ex u'.
Proof.
  intros Hok. unfold udp_new_ip_type. destruct (new_ok ex u Hok) as (r & u1 & -> & Hok1 & Hl & Hr). cbn [mbind res_bind]. destruct r as [a|]; [|by eexists None, _].
  destruct Hr as (Hfresh & b & Hm & Hp & Hip). assert (Hb : pcbs u1 !! a = Some b) by (rewrite Hm; apply lookup_insert_eq).
  rewrite (getu_some _ _ _ Hb). cbn [mbind res_bind]. do 2 eexists. split; [done|]. destruct Hok1 as [Kp Knd Kr Kk Ka Ks Kc].
  assert (Hn : a ∉ udp_pcbs u1). { destruct (Ka _ _ Hb) as [_ Hiff]. rewrite Hiff. lia. }
  split; cbn [putu set_pcbs pcbs udp_pcbs udp_port upool]; try done.
  - rewrite dom_insert_lookup_L; [done|by eexists].
  - intros x Hx. rewrite lookup_insert_ne by (by intros ->). auto.
  - intros x y [[<- <-]|[Hne Hy]]%lookup_insert_Some; [|eauto]. cbn. apply (Ka _ _ Hb).
  - intros x y [[<- <-]|[Hne Hy]]%lookup_insert_Some; [|eauto]. cbn. rewrite Hip. intros Ht. cbn in Ht. subst t. done.
  - intros He x x' y y' Hx Hx' Hne [[<- <-]|[_ Hy]]%lookup_insert_Some [[<- <-]|[_ Hy']]%lookup_insert_Some; try done. by eapply (Kc He x x').
Qed.

(** ** A new address of an interface *)

Definition rehome (old new : ip_addr) (b : udp_pcb) : udp_pcb :=
  if ip_addr_cmp (local_ip b) old then with_local_ip (ip_addr_copy new) b else b.

Lemma addr_changed_eq old new l : NoDup l → ∀ u, (∀ a, a ∈ l → is_Some (pcbs u !! a)) →
  ∃ u', addr_changed_loop old new l u = Ok u' ∧ udp_pcbs u' = udp_pcbs u ∧ udp_port u' = udp_port u ∧ upool u' = upool u ∧
    ∀ a, pcbs u' !! a = if bool_decide (a ∈ l) then rehome old new <$> pcbs u !! a else pcbs u !! a.
Proof.
  induction 1 as [|a l Ha Hnd IH]; intros u Hk; cbn [addr_changed_loop].
  { exists u. by split_and!. }
  destruct (Hk a) as [b Hb]; [by left|]. rewrite (getu_some _ _ _ Hb). cbn [mbind res_bind]. cbv zeta.
  set (u1 := if ip_addr_cmp (local_ip b) old then putu a (with_local_ip (ip_addr_copy new) b) u else u).
  assert (Hu1 : pcbs u1 = <[a := rehome old new b]> (pcbs u) ∧ udp_pcbs u1 = udp_pcbs u ∧ udp_port u1 = udp_port u ∧ upool u1 = upool u).
  { unfold u1, rehome. destruct (ip_addr_cmp _ _); [done|]. split; [|done]. symmetry. by apply insert_id. }
  destruct Hu1 as (Hp1 & Hl1 & Ho1 & Hq1). destruct (IH u1) as (u' & -> & Hl' & Ho' & Hq' & Hp').
  { intros x Hx. rewrite Hp1. destruct (decide (x = a)) as [-> |]; [rewrite lookup_insert_eq; by eexists|]. rewrite lookup_insert_ne by done. apply Hk. by right. }
  exists u'. split_and!; try congruence. intros x. rewrite Hp', Hp1. destruct (decide (x = a)) as [-> |Hne].
  - rewrite lookup_insert_eq, bool_decide_eq_false_2, bool_decide_eq_true_2 by (done || by left). by rewrite Hb.
  - rewrite lookup_insert_ne by done. rewrite (bool_decide_ext (x ∈ a :: l) (x ∈ l)); [done|]. rewrite elem_of_cons. naive_solver.
Qed.

(** No block on the list is bound to the address. *)
Definition unused u (x : ip_addr) : Prop := ∀ a b, a ∈ udp_pcbs u → pcbs u !! a = Some b → ip_addr_cmp (local_ip b) x = false.

Lemma addr_changed_ok ex u old new : udp_inv ex u → (∀ x, new = Some x → addr_sane x ∧ (ex = true → unused u x)) →
  ∃ u', udp_netif_ip_addr_changed old new u = Ok u' ∧ udp_inv ex u'.
Proof.
  intros Hok Hnew. unfold udp_netif_ip_addr_changed. destruct old as [old|], new as [new|]; try by exists u.
  destruct (_ && _) eqn:E; [|by exists u]. apply andb_true_iff in E as [_ En%negb_true_iff]. destruct (Hnew new eq_refl) as [Hsane Hun]. pose proof Hok as [Hp Hnd Hr Hk Ha Hs Hc].
  destruct (addr_changed_eq old new _ Hnd u Hk) as (u' & -> & Hl & Ho & Hq & Hm). exists u'. split; [done|].
  assert (Hback : ∀ a b, pcbs u' !! a = Some b → ∃ c, pcbs u !! a = Some c ∧ (b = c ∨ b = rehome old new c) ∧ (a ∈ udp_pcbs u → b = rehome old new c)).
  { intros a b. rewrite Hm. case_bool_decide; [|intros Hb; exists b; naive_solver]. destruct (pcbs u !! a) as [c|]; [|done]. cbn. intros [= <-]. exists c. naive_solver. }
  assert (Hport : ∀ c, local_port (rehome old new c) = local_port c) by (intros c; unfold rehome; by destruct (ip_addr_cmp _ _)).
  split; rewrite ?Hl, ?Ho, ?Hq; try done.
  - replace (dom (pcbs u')) with (dom (pcbs u)); [done|]. apply set_eq. intros x. rewrite !elem_of_dom, Hm. case_bool_decide; [|done]. by rewrite fmap_is_Some.
  - intros a Hin. destruct (Hk _ Hin) as [b Hb]. rewrite Hm, bool_decide_eq_true_2, Hb by done. by eexists.
  - intros a b (c & Hcb & [-> | ->] & _)%Hback; rewrite ?Hport; eauto.
  - intros a b (c & Hcb & [-> | ->] & _)%Hback; [eauto|]. unfold rehome. destruct (ip_addr_cmp _ _); [by apply copy_sane|eauto].
  - intros He a a' b b' Hin Hin' Hne (c & Hb & _ & Eb)%Hback (c' & Hb' & _ & Eb')%Hback. rewrite (Eb Hin), (Eb' Hin').
    specialize (Hc He _ _ _ _ Hin Hin' Hne Hb Hb'). specialize (Hun He). unfold clash in *. rewrite !Hport. destruct (local_port c =? local_port c'); [|done]. cbn [andb] in *.
    assert (Hnc : ∀ x y z, z ∈ udp_pcbs u → pcbs u !! z = Some y → addrs_overlap (local_ip x) (local_ip y) = false → addrs_overlap (ip_addr_copy new) (local_ip y) = false).
    { intros x y z Hz Hy Ho1. unfold addrs_overlap in Ho1 |- *. apply orb_false_iff in Ho1 as [[_ Hy0]%orb_false_iff _].
      rewrite copy_isany, copy_cmp, En, Hy0, !orb_false_r.
      apply not_true_iff_false. intros Hcmp%ip_addr_cmp_sym. by rewrite (Hun _ _ Hz Hy) in Hcmp. }
    unfold rehome. destruct (ip_addr_cmp (local_ip c) old) eqn:E1', (ip_addr_cmp (local_ip c') old) eqn:E2'; cbn [with_local_ip local_ip].
    + exfalso. unfold addrs_overlap in Hc. breflect. assert (ip_addr_cmp (local_ip c) (local_ip c') = true); [|congruence].
      eapply ip_addr_cmp_trans; [done|]. by apply ip_addr_cmp_sym.
    + by eapply (Hnc c).
    + rewrite overlap_sym. rewrite overlap_sym in Hc. exact (Hnc c' c a Hin Hb Hc).
    + done.
Qed.

(** ** The search for a block *)

(** The first block of [l] with the property [T]. *)
Fixpoint first (T : udp_pcb → bool) (l : list Z) u : option Z :=
  match l with
  | [] => None
  | a :: l => if from_option T false (pcbs u !! a) then Some a else first T l u
  end.

Definition full (d : datagram) (b : udp_pcb) : bool := local_match b d && remote_match b d.
Definition unconnected (d : datagram) (b : udp_pcb) : bool := local_match b d && negb (connected b).
Definition unconnected_here (d : datagram) (b : udp_pcb) : bool := unconnected d b && on_netif b (d_inp d).
(** sent to 255.255.255.255 *)
Definition limited (d : datagram) : bool := d_broadcast d && (ip4_of (d_dest d) =? IPADDR_BROADCAST).

(** The block for a datagram: one that matches both ends if there is one; else an unconnected
    one, for 255.255.255.255 preferably one that is bound to the address of the interface. *)
Definition receiver (d : datagram) (l : list Z) u : option Z :=
  match first (full d) l u with
  | Some a => Some a
  | None =>
      match (if limited d then first (unconnected_here d) l u else None) with
      | Some a => Some a
      | None => first (unconnected d) l u
      end
  end.

Lemma first_some T l u a : first T l u = Some a → a ∈ l ∧ ∃ b, pcbs u !! a = Some b ∧ T b = true.
Proof.
  induction l as [|x l IH]; cbn [first]; [done|]. destruct (pcbs u !! x) as [b|] eqn:Hb; cbn [from_option].
  - destruct (T b) eqn:E; [intros [= <-]; split; [by left|by exists b]|]. intros [? ?]%IH. split; [by right|done].
  - intros [? ?]%IH. split; [by right|done].
Qed.

Lemma first_none T l u a b : first T l u = None → a ∈ l → pcbs u !! a = Some b → T b = false.
Proof.
  induction l as [|x l IH]; cbn [first]; [by intros _ ?%elem_of_nil|]. intros Hf [-> |Hin]%elem_of_cons Hb.
  - rewrite Hb in Hf. cbn in Hf. by destruct (T b).
  - apply IH; try done. by destruct (from_option _ _ _).
Qed.

(** What becomes of uncon_pcb when the rest [l] of the list holds no full match. *)
Definition improved (d : datagram) (uncon : option Z) (l : list Z) u : option Z :=
  match uncon with
  | None => match (if limited d then first (unconnected_here d) l u else None) with Some a => Some a | None => first (unconnected d) l u end
  | Some y =>
      if limited d && negb (from_option (λ c, on_netif c (d_inp d)) false (pcbs u !! y))
      then match first (unconnected_here d) l u with Some a => Some a | None => Some y end else Some y
  end.

Lemma improved_skip d uncon a b l u : pcbs u !! a = Some b → unconnected d b = false → improved d uncon (a :: l) u = improved d uncon l u.
Proof.
  intros Hb Hu. assert (Hh : unconnected_here d b = false) by (unfold unconnected_here; by rewrite Hu).
  unfold improved. cbn [first]. rewrite Hb. cbn [from_option]. by rewrite Hu, Hh.
Qed.

Lemma improved_some d y c l u : pcbs u !! y = Some c → improved d (Some y) l u =
  if limited d && negb (on_netif c (d_inp d)) then match first (unconnected_here d) l u with Some a => Some a | None => Some y end else Some y.
Proof. intros Hc. unfold improved. by rewrite Hc. Qed.

Lemma next_uncon_ok d uncon a b l u : pcbs u !! a = Some b → local_match b d = true → (∀ y, uncon = Some y → is_Some (pcbs u !! y)) →
  ∃ x, next_uncon a b d uncon u = Ok x ∧ improved d x l u = improved d uncon (a :: l) u ∧ (∀ y, x = Some y → is_Some (pcbs u !! y)).
Proof.
  intros Hb Hm Hy. unfold next_uncon. fold (limited d). destruct (connected b) eqn:Ec.
  { exists uncon. split; [done|]. split; [|done]. symmetry. apply (improved_skip _ _ _ b); [done|]. unfold unconnected. by rewrite Ec, Hm. }
  assert (Hu : unconnected d b = true) by (unfold unconnected; by rewrite Hm, Ec).
  assert (Hh : unconnected_here d b = on_netif b (d_inp d)) by (unfold unconnected_here; by rewrite Hu).
  destruct uncon as [y|].
  - destruct (Hy y eq_refl) as [c Hc]. rewrite (getu_some _ _ _ Hc). cbn [mbind res_bind]. rewrite (improved_some _ _ _ (a :: l) _ Hc). cbn [first].
    rewrite Hb. cbn [from_option]. rewrite Hh. destruct (limited d && negb (on_netif c (d_inp d))) eqn:E1.
    + apply andb_true_iff in E1 as [El E1]. rewrite El, E1. cbn [andb]. destruct (on_netif b (d_inp d)) eqn:E2.
      * exists (Some a). rewrite (improved_some _ _ _ l _ Hb), E2, andb_false_r. split_and!; try done. intros ? [= <-]. by eexists.
      * exists (Some y). rewrite (improved_some _ _ _ l _ Hc), El, E1. done.
    + exists (Some y). rewrite (improved_some _ _ _ l _ Hc), E1. split_and!; try done. destruct (limited d); [|done]. cbn in E1. by rewrite E1.
  - exists (Some a). split; [done|]. split; [|intros ? [= <-]; by eexists]. unfold improved. cbn [first]. rewrite Hb. cbn [from_option]. rewrite Hu, Hh.
    destruct (limited d); [|done]. by destruct (on_netif b (d_inp d)).
Qed.

Lemma search_ok d u l : (∀ a, a ∈ l → is_Some (pcbs u !! a)) → ∀ uncon, (∀ y, uncon = Some y → is_Some (pcbs u !! y)) →
  ∃ x, udp_search d l uncon u = Ok (first (full d) l u, x) ∧ (first (full d) l u = None → x = improved d uncon l u).
Proof.
  induction l as [|a l IH]; intros Hk uncon Hy; cbn [udp_search].
  { exists uncon. split; [done|]. intros _. unfold improved. cbn. destruct uncon; [|by destruct (limited d)]. by destruct (_ && _). }
  destruct (Hk a) as [b Hb]; [by left|]. rewrite (getu_some _ _ _ Hb). cbn [mbind res_bind]. cbn [first]. rewrite Hb. cbn [from_option].
  assert (Hk' : ∀ a0, a0 ∈ l → is_Some (pcbs u !! a0)) by (intros; apply Hk; by right).
  change (full d b) with (local_match b d && remote_match b d). destruct (local_match b d) eqn:Em; cbn [andb].
  - destruct (next_uncon_ok d uncon a b l u Hb Em Hy) as (x & -> & Hx & Hx'). cbn [mbind res_bind]. destruct (remote_match b d); [by exists x|].
    destruct (IH Hk' x Hx') as (z & -> & Hz). exists z. split; [done|]. intros Hn. by rewrite (Hz Hn), Hx.
  - destruct (IH Hk' uncon Hy) as (z & -> & Hz). exists z. split; [done|]. intros Hn. rewrite (Hz Hn). symmetry. apply (improved_skip _ _ _ b); [done|].
    unfold unconnected. by rewrite Em.
Qed.

(** A permutation of the list keeps the invariant. *)
Lemma reorder_ok ex u l : udp_inv ex u → l ≡ₚ udp_pcbs u → udp_inv ex (set_udp_pcbs l u).
Proof.
  intros [Hp Hnd Hr Hk Ha Hs Hc] Hl. split; cbn [set_udp_pcbs pcbs udp_pcbs udp_port upool]; try done.
  - by rewrite Hl.
  - intros a. rewrite Hl. auto.
  - intros a b Hb. rewrite Hl. auto.
  - intros He a a' b b'. rewrite !Hl. eauto.
Qed.

Lemma demux_ok ex d u : udp_inv ex u → ∃ u', udp_demux d u = Ok (receiver d (udp_pcbs u) u, u') ∧ udp_inv ex u' ∧ pcbs u' = pcbs u ∧ upool u' = upool u ∧
  udp_pcbs u' ≡ₚ udp_pcbs u.
Proof.
  intros Hok. unfold udp_demux. destruct (search_ok d u (udp_pcbs u) (uo_known _ _ Hok) None) as (x & -> & Hx); [done|]. cbn [mbind res_bind].
  unfold receiver. destruct (first (full d) (udp_pcbs u) u) as [a|] eqn:E; [|exists u; split; [by rewrite (Hx eq_refl)|done]].
  apply first_some in E as [Hin _]. eexists. split; [done|]. pose proof (unlink_perm _ _ Hin) as Hperm.
  destruct (udp_pcbs u) as [|hd tl] eqn:El; [by rewrite El|]. destruct (hd =? a); [by rewrite El|].
  split; [apply reorder_ok; [done|]; rewrite El; by symmetry|]. split; [done|]. split; [done|]. cbn [set_udp_pcbs udp_pcbs]. by symmetry.
Qed.

(** Two blocks that match the same datagram, no broadcast, overlap. *)
Lemma match_clash d b b' : d_broadcast d = false → addr_sane (local_ip b) → addr_sane (local_ip b') →
  local_match b d = true → local_match b' d = true → clash b b' = true.
Proof.
  intros Hbc Hs Hs'. unfold local_match, udp_input_local_match. rewrite Hbc.
  assert (Hc : ∀ c, addr_sane (local_ip c) → (if negb (netif_idx c =? NETIF_NO_INDEX) && negb (netif_idx c =? d_input d) then false else
     if IP_IS_ANY_TYPE_VAL (local_ip c) then true else if type (local_ip c) =? type (d_dest d) then ip_addr_isany_val (local_ip c) || ip_addr_cmp (local_ip c) (d_dest d) else false) = true →
     ip_addr_isany_val (local_ip c) = true ∨ ip_addr_cmp (local_ip c) (d_dest d) = true).
  { intros c Hsc. destruct (_ && _); [done|]. unfold IP_IS_ANY_TYPE_VAL. destruct (type (local_ip c) =? IPADDR_TYPE_ANY) eqn:E; [left; apply Hsc; lia|].
    destruct (type (local_ip c) =? type (d_dest d)); [|done]. by intros ?%orb_true_iff. }
  intros [Hp Hm]%andb_true_iff [Hp' Hm']%andb_true_iff. apply (Hc b Hs) in Hm. apply (Hc b' Hs') in Hm'. unfold clash, addrs_overlap. apply andb_true_iff. split; [breflect; apply Z.eqb_eq; congruence|].
  rewrite !orb_true_iff. destruct Hm as [Hm|Hm], Hm' as [Hm'|Hm']; auto. left. left. eapply ip_addr_cmp_trans; [exact Hm|]. by apply ip_addr_cmp_sym.
Qed.

Lemma receiver_unique d u a : udp_ok u → d_broadcast d = false →
  receiver d (udp_pcbs u) u = Some a ↔
    a ∈ udp_pcbs u ∧ ∃ b, pcbs u !! a = Some b ∧ local_match b d = true ∧ (connected b = false ∨ remote_match b d = true).
Proof.
  intros Hok Hbc. assert (Huniq : ∀ x b, x ∈ udp_pcbs u → pcbs u !! x = Some b → local_match b d = true →
    ∀ y c, y ∈ udp_pcbs u → pcbs u !! y = Some c → local_match c d = true → x = y).
  { intros x b Hx Hb Hm y c Hy Hc Hm'. destruct (decide (x = y)) as [|Hne]; [done|]. exfalso.
    pose proof (uo_clash _ _ Hok eq_refl _ _ _ _ Hx Hy Hne Hb Hc) as Hcl. rewrite (match_clash d b c) in Hcl; try done; by eapply uo_sane. }
  unfold receiver. replace (limited d) with false by (unfold limited; by rewrite Hbc). destruct (first (full d) (udp_pcbs u) u) as [x|] eqn:Ef.
  - apply first_some in Ef as (Hx & b & Hb & [Hm Hr]%andb_true_iff). split.
    + intros [= <-]. split; [done|]. exists b. auto.
    + intros (Ha & c & Hc & Hm' & _). f_equal. by eapply Huniq.
  - split.
    + intros (Hx & b & Hb & [Hm Hc]%andb_true_iff)%first_some. split; [done|]. exists b. split_and!; try done. left. by apply negb_true_iff.
    + intros (Ha & b & Hb & Hm & Hor). assert (Hn : remote_match b d = false) by (pose proof (first_none _ _ _ _ _ Ef Ha Hb) as Hf; unfold full in Hf; by rewrite Hm in Hf).
      destruct Hor as [Hc|]; [|congruence]. destruct (first (unconnected d) (udp_pcbs u) u) as [y|] eqn:Eu.
      * apply first_some in Eu as (Hy & c & Hc' & [Hm' _]%andb_true_iff). f_equal. by eapply Huniq.
      * pose proof (first_none _ _ _ _ _ Eu Ha Hb) as Hf. unfold unconnected in Hf. by rewrite Hm, Hc in Hf.
Qed.

(** ** Sequences of calls *)

Inductive uop :=
| U_init (rand : Z)
| U_new (t : Z)
| U_remove (a : Z)
| U_bind (a : Z) (ip : option ip_addr) (port : Z)
| U_bind_netif (a : Z) (idx : option Z)
| U_connect (a : Z) (ip : ip_addr) (port : Z)
| U_disconnect (a : Z)
| U_recv (a : Z) (f : option Z) (arg : Z)
| U_addr_changed (old new : option ip_addr)
| U_receive (d : datagram).

Definition exec (o : uop) u : res (ustate Q) :=
  match o with
  | U_init rand => Ok (udp_init rand u)
  | U_new t => '(_, u) ← udp_new_ip_type t u; Ok u
  | U_remove a => udp_remove a u
  | U_bind a ip port => '(_, u) ← udp_bind select_zone a ip port u; Ok u
  | U_bind_netif a idx => udp_bind_netif a idx u
  | U_connect a ip port => '(_, u) ← udp_connect select_zone a ip port u; Ok u
  | U_disconnect a => udp_disconnect a u
  | U_recv a f arg => udp_recv a f arg u
  | U_addr_changed old new => udp_netif_ip_addr_changed old new u
  | U_receive d => '(_, u) ← udp_demux d u; Ok u
  end.

(** The calls an application may make: a block is used between udp_new and udp_remove only,
    ports have 16 bits, the only address of the type IPADDR_TYPE_ANY is the unspecified one,
    and, for the exclusion of overlaps ([ex]), an interface takes an address that no block
    is bound to. *)
Definition allowed (ex : bool) (o : uop) u : Prop :=
  match o with
  | U_init _ | U_new _ | U_receive _ => True
  | U_remove a | U_bind_netif a _ | U_connect a _ _ | U_disconnect a | U_recv a _ _ => is_Some (pcbs u !! a)
  | U_bind a ip port => is_Some (pcbs u !! a) ∧ is_u16 port ∧ addr_sane (default IP4_ADDR_ANY ip)
  | U_addr_changed _ new => ∀ x, new = Some x → addr_sane x ∧ (ex = true → unused u x)
  end.

Inductive reachable (ex : bool) : ustate Q → Prop :=
| reach_start q : pool_ok q [] → reachable ex (UState ∅ [] UDP_LOCAL_PORT_RANGE_START q)
| reach_step o u u' : reachable ex u → allowed ex o u → exec o u = Ok u' → reachable ex u'.

Lemma ensure_range r : UDP_LOCAL_PORT_RANGE_START ≤ UDP_ENSURE_LOCAL_PORT_RANGE r ≤ UDP_LOCAL_PORT_RANGE_END.
Proof.
  unfold UDP_ENSURE_LOCAL_PORT_RANGE. change (u16 (Z.lnot UDP_LOCAL_PORT_RANGE_START)) with (Z.ones 14). rewrite Z.land_ones by lia.
  unfold UDP_LOCAL_PORT_RANGE_START, UDP_LOCAL_PORT_RANGE_END. pose proof (Z.mod_pos_bound r (2 ^ 14)). change (2 ^ 14) with 16384 in *. ulia.
Qed.

Lemma exec_ok ex o u : udp_inv ex u → allowed ex o u → ∃ u', exec o u = Ok u' ∧ udp_inv ex u'.
Proof.
  intros Hok Ha. destruct o as [rand|t|a|a ip port|a idx|a ip port|a|a f arg|old new|d]; cbn [exec allowed] in *;
    try (match type of Ha with is_Some _ => destruct Ha as [b Hb] end; unfold udp_bind_netif, udp_disconnect, udp_recv; rewrite ?(getu_some _ _ _ Hb); cbn [mbind res_bind]).
  - eexists. split; [done|]. apply set_udp_port_ok; [apply ensure_range|done].
  - destruct (new_ip_type_ok ex t u Hok) as (r & u' & -> & ?). by eexists.
  - destruct (remove_ok ex u a b Hok Hb) as (u' & -> & ? & _). by eexists.
  - destruct Ha as ([b Hb] & Hp & Hs). destruct (udp_bind_ok select_zone ex u a b ip port) as (e & u' & -> & ? & _); try done. by eexists.
  - eexists. split; [done|]. by eapply update_ok.
  - destruct (connect_ok ex u a b ip port Hok Hb) as (e & u' & -> & ?). by eexists.
  - eexists. split; [done|]. eapply update_ok; try done; by destruct (IP_IS_ANY_TYPE_VAL _).
  - eexists. split; [done|]. by eapply update_ok.
  - by apply addr_changed_ok.
  - destruct (demux_ok ex d u Hok) as (u' & -> & ? & _). by eexists.
Qed.

(** C35: UDP blocks along every sequence of calls.  Whatever an application and the stack do with
    the blocks (a block is used between udp_new and udp_remove only), no call fails, the
    list and the pool stay consistent, and exactly the blocks with a local port are on the
    list.  Two blocks on the list never have the same port with overlapping addresses
    ([ex = true]), provided that whenever an interface changes its address no block is bound
    to the new one: udp_netif_ip_addr_changed does not look, and UdpLink.addr_changed_clash
    is a run with an overlap. *)
Theorem udp_runs_exclusive ex u : reachable ex u → udp_inv ex u ∧ ∀ o, allowed ex o u → ∃ u', exec o u = Ok u'.
Proof.
  intros Hr. assert (Hok : udp_inv ex u).
  { induction Hr as [q Hq|o u u' _ Hok Ha He].
    - split; cbn [pcbs udp_pcbs udp_port upool]; try done; [constructor|..]; try (by intros ? ?%elem_of_nil); by intros; simplify_map_eq.
    - destruct (exec_ok ex o u Hok Ha) as (u1 & He1 & ?). rewrite He in He1. by injection He1 as <-. }
  split; [done|]. intros o Ha. destruct (exec_ok ex o u Hok Ha) as (u' & ? & _). by exists u'.
Qed.

(** C36: A local port of one's own.  udp_new_port ends, however many ports of the range from 49152
    are taken; it returns a port of the range that no block has, and 0 exactly when all
    16384 are taken.  Only the variable udp_port changes. *)
Theorem udp_new_port_free u : udp_ok u →
  ∃ q v, udp_new_port u = Ok (q, set_udp_port v u) ∧ UDP_LOCAL_PORT_RANGE_START ≤ v ≤ UDP_LOCAL_PORT_RANGE_END ∧
    (q = 0 ↔ ∀ q', UDP_LOCAL_PORT_RANGE_START ≤ q' ≤ UDP_LOCAL_PORT_RANGE_END → has_port u q') ∧
    (q ≠ 0 → UDP_LOCAL_PORT_RANGE_START ≤ q ≤ UDP_LOCAL_PORT_RANGE_END ∧ ¬ has_port u q).
Proof.
  intros Hok. destruct (new_port_ok _ u Hok) as (q & v & -> & Hv & Hq). exists q, v. split; [done|]. split; [done|].
  unfold UDP_LOCAL_PORT_RANGE_START, UDP_LOCAL_PORT_RANGE_END in *. destruct Hq as [[-> Hall]|[-> Hno]]; [done|].
  split; [|done]. split; [lia|]. intros Hall. destruct Hno. by apply Hall.
Qed.

(** C37: The block for a datagram.  The search of udp_input finds the block that [receiver]
    describes; for a datagram that is no broadcast that is the only block that is bound
    to the destination and unconnected, or connected to the source.  The blocks stay as
    they are and the list keeps its members. *)
Theorem udp_demux_correct d u : udp_ok u →
  ∃ r u', udp_demux d u = Ok (r, u') ∧ udp_ok u' ∧ pcbs u' = pcbs u ∧ udp_pcbs u' ≡ₚ udp_pcbs u ∧ r = receiver d (udp_pcbs u) u ∧
    (d_broadcast d = false → ∀ a, r = Some a ↔
       a ∈ udp_pcbs u ∧ ∃ b, pcbs u !! a = Some b ∧ local_match b d = true ∧ (connected b = false ∨ remote_match b d = true)).
Proof.
  intros Hok. destruct (demux_ok _ d u Hok) as (u' & -> & ? & ? & _ & ?). eexists _, u'. split_and!; try done. intros Hbc a. by apply receiver_unique.
Qed.

End runs.
