(* ===== verification/UdpIp.v ===== *)
(** * UDP: datagrams (core/udp.c)

    udp_input gives a received datagram to the block it is for; udp_send, udp_sendto,
    udp_sendto_if and udp_sendto_if_src put the UDP header in front of a packet and hand it to
    IP.  The packets are those of Pbuf.v, IPv4 is that of Ip4.v and Icmp.v, the blocks are
    those of Udp.v.

    The blocks are a part of the world behind the interfaces, where netif.c reaches them
    too: the state is a [pstate] over [ipmem A P (ustate Q * N) W].  The callback that an
    application stores in a block, and IPv6, are reached through the class [UdpEnv].

    udp_input reads the variable ip_data, which ip4_input and ip6_input set; [current] is
    the part it reads.  [udp_input4] is udp_input as ip4_input calls it.

    Configuration: as in Udp.v, and CHECKSUM_GEN_UDP 0, CHECKSUM_CHECK_UDP 0,
    LWIP_CHECKSUM_ON_COPY 0, LWIP_ICMP 1, LWIP_ICMP6 1, LWIP_NETIF_USE_HINTS 0. *)

From S2P Require Import Prelude ByteMem Def IpAddr MempPool Pbuf Chksum Ip4Addr Etharp Ip4Frag Iface Igmp Autoip Netif Ip4 Icmp Ip4Input Udp.

Definition UDP_HLEN : Z := 8.
Definition ICMP_DUR_PORT : Z := 3.
Definition ICMP6_DUR_PORT : Z := 4.
Definition PBUF_FLAG_MCASTLOOP : Z := 4.

(** Conversion to s16_t. *)
Definition to_s16 (x : Z) : Z := let y := u16 x in if y <? 32768 then y else y - 65536.

(** A member of two bytes of struct udp_hdr, which is packed. *)
Definition ld_member (b : bytes) (a : Z) : res Z := x ← ld8 b a; y ← ld8 b (a + 1); Ok (x + 256 * y).

(** What udp_input reads of ip_data. *)
Record current := Current {
  c_is_v6 : bool; c_netif : option Z; c_input_netif : option Z; c_header_tot_len : Z; c_src : ip_addr; c_dest : ip_addr }.

(** ip_data while ip4_input runs: current_ip6_header is NULL. *)
Definition current4 (g : ip_globals) : current :=
  Current false (current_netif g) (current_input_netif g) (current_ip_header_tot_len g)
    (v4_addr (current_iphdr_src g)) (v4_addr (current_iphdr_dest g)).

Class UdpEnv (S : Type) := {
  (** [pcb->recv(arg, pcb, p, addr, port)] *)
  recv_call : Z → Z → Z → Z → ip_addr → Z → S → res S;
  (** ip6_route(src, dest) *)
  ip6_route : ip6_addr → ip6_addr → S → res (option Z);
  (** ip6_select_source_address(netif, dest) *)
  ip6_select_source_address : Z → ip6_addr → S → res (option ip_addr);
  (** ip6_output_if_src(p, src, dest, hl, tc, nexth, netif) *)
  ip6_output_if_src : Z → ip6_addr → ip6_addr → Z → Z → Z → Z → S → res (Z * S);
  (** icmp6_dest_unreach(p, code) *)
  icmp6_dest_unreach : Z → Z → S → res S
}.

Section operations.
Context {A P N W Q : Type} `{Allocator A} `{Link A P (ustate Q * N) W} `{Pool Q} `{UdpEnv (pstate (ipmem A P (ustate Q * N) W))}.
Abbreviation st := (pstate (ipmem A P (ustate Q * N) W)).
Implicit Types s : st.

Definition udp_of s : ustate Q := (nworld (net (al s))).1.
Definition set_udp (u : ustate Q) s : st :=
  on_ip (λ m, set_net (set_nworld (u, (nworld (net m)).2) (net m)) m) s.

(** ** Receiving *)

Definition udp_drop (p : Z) s : res st := '(_, s) ← pbuf_free (Some p) s; Ok s.

(** From the removal of the UDP header on; [pcb] is the block found. *)
Definition udp_deliver (cur : current) (p : Z) (pcb : option Z) (sport : Z) (broadcast : bool) s : res st :=
  '(r, s) ← pbuf_remove_header (Some p) UDP_HLEN s;
  LWIP_ASSERT (r =? 0);;
  match pcb with
  | Some a =>
      b ← getu a (udp_of s);
      match recv b with
      | Some f => recv_call f (recv_arg b) a p (c_src cur) sport s
      | None => udp_drop p s
      end
  | None =>
      s ← (if negb broadcast && negb (ip_addr_ismulticast (c_dest cur)) then
             '(_, s) ← pbuf_header_force (Some p) (to_s16 (c_header_tot_len cur + UDP_HLEN)) s;
             if c_is_v6 cur then icmp6_dest_unreach p ICMP6_DUR_PORT s else icmp_dest_unreach p ICMP_DUR_PORT s
           else Ok s);
      udp_drop p s
  end.

(** The index of ip_data.current_input_netif, which ip4_input and ip6_input set, is computed once;
    the code computes it for each block that is tied to an interface. *)
Definition udp_input_from (cur : current) (p inp : Z) s : res st :=
  b ← getp p s;
  if len b <? UDP_HLEN then udp_drop p s else
  broadcast ← (if IP_IS_V6 (c_dest cur) then Ok false
               else n ← deref (c_netif cur); i ← getn n (net (al s)); Ok (ip_addr_isbroadcast (c_dest cur) i));
  src ← ld_member (dat s) (payload b);
  dest ← ld_member (dat s) (payload b + 2);
  let src := lwip_htons src in
  let dest := lwip_htons dest in
  i ← getn inp (net (al s));
  cin ← deref (c_input_netif cur);
  ci ← getn cin (net (al s));
  '(pcb, u) ← udp_demux (Datagram (c_src cur) (c_dest cur) src dest (netif_get_index ci) i broadcast) (udp_of s);
  let s := set_udp u s in
  for_us ← (match pcb with
            | Some _ => Ok true
            | None => if c_is_v6 cur then k ← netif_get_ip6_addr_match inp (u_addr (c_dest cur)) (net (al s)); Ok (0 <=? k)
                      else Ok (nip i =? ip4_of (c_dest cur))
            end);
  if (for_us : bool) then udp_deliver cur p pcb src broadcast s else udp_drop p s.

Definition udp_input4 (p inp : Z) s : res st := udp_input_from (current4 (ip_data (al s))) p inp s.

(** ** Sending *)

Definition IP_ADDR_PCB_VERSION_MATCH (b : udp_pcb) (a : ip_addr) : bool :=
  IP_IS_ANY_TYPE_VAL (local_ip b) || (type (local_ip b) =? type a).

(** ip6_addr_select_zone *)
Definition ip6_addr_select_zone s (a src : ip6_addr) : res ip6_addr :=
  r ← ip6_route src a s;
  match r with
  | Some n => i ← getn n (net (al s)); Ok (Ip6Addr (addr a) (if ip6_addr_has_scope a then netif_get_index i else 0))
  | None => Ok a
  end.

Definition ip_route (src dest : ip_addr) s : res (option Z) :=
  if IP_IS_V6 dest then ip6_route (u_addr src) (u_addr dest) s else ip4_route (ip4_of dest) s.

Definition ip_output_if_src (p : Z) (src dest : ip_addr) (ttl tos proto n : Z) s : res (Z * st) :=
  if IP_IS_V6 dest then ip6_output_if_src p (u_addr src) (u_addr dest) ttl tos proto n s
  else ip4_output_if_src p (Some (ip4_of src)) (Some (ip4_of dest)) ttl tos proto n s.

(** Space for the UDP header: in front of the data, or in a packet of its own, which is
    then the first struct. *)
Definition udp_make_room (p : Z) s : res (option Z * st) :=
  '(r, s) ← pbuf_add_header (Some p) UDP_HLEN s;
  if r =? 0 then Ok (Some p, s) else
  '(q, s) ← pbuf_alloc PBUF_IP UDP_HLEN PBUF_RAM s;
  match q with
  | None => Ok (None, s)
  | Some q =>
      b ← getp p s;
      s ← (if negb (tot_len b =? 0) then pbuf_chain (Some q) (Some p) s else Ok s);
      Ok (Some q, s)
  end.

(** The header is written and the packet [q] given to IP. *)
Definition udp_transmit (c : udp_pcb) (q : Z) (dst_ip : ip_addr) (dst_port n : Z) (src_ip : ip_addr) s : res (Z * st) :=
  b ← getp q s;
  LWIP_ASSERT (8 <=? len b);;
  let udphdr := payload b in
  s ← pst udphdr (word16 (lwip_htons (local_port c))) s;
  s ← pst (udphdr + 2) (word16 (lwip_htons dst_port)) s;
  s ← pst (udphdr + 6) (word16 0) s;
  let s := if negb (Z.land (uflags c) UDP_FLAGS_MULTICAST_LOOP =? 0) && ip_addr_ismulticast dst_ip
           then putp q (Pbuf.with_flags (u8 (Z.lor (flags b) PBUF_FLAG_MCASTLOOP)) b) s else s in
  s ← pst (udphdr + 4) (word16 (lwip_htons (tot_len b))) s;
  let t := if ip_addr_ismulticast dst_ip then mcast_ttl c else ttl c in
  ip_output_if_src q src_ip dst_ip t (tos c) IP_PROTO_UDP n s.

Definition udp_sendto_if_src (pcb p : Z) (dst_ip : ip_addr) (dst_port n : Z) (src_ip : ip_addr) s : res (Z * st) :=
  c ← getu pcb (udp_of s);
  if negb (IP_ADDR_PCB_VERSION_MATCH c src_ip) || negb (IP_ADDR_PCB_VERSION_MATCH c dst_ip) then Ok (ERR_VAL, s) else
  '(err, s) ← (if local_port c =? 0 then
                 '(err, u) ← udp_bind (ip6_addr_select_zone s) pcb (Some (local_ip c)) (local_port c) (udp_of s);
                 Ok (err, set_udp u s)
               else Ok (ERR_OK, s));
  if negb (err =? ERR_OK) then Ok (err, s) else
  b ← getp p s;
  if u16 (tot_len b + UDP_HLEN) <? tot_len b then Ok (ERR_MEM, s) else
  '(q, s) ← udp_make_room p s;
  match q with
  | None => Ok (ERR_MEM, s)
  | Some q =>
      c ← getu pcb (udp_of s);
      '(err, s) ← udp_transmit c q dst_ip dst_port n src_ip s;
      s ← (if negb (q =? p) then udp_drop q s else Ok s);
      Ok (err, s)
  end.

Definition udp_sendto_if (pcb p : Z) (dst_ip : ip_addr) (dst_port n : Z) s : res (Z * st) :=
  c ← getu pcb (udp_of s);
  if negb (IP_ADDR_PCB_VERSION_MATCH c dst_ip) then Ok (ERR_VAL, s) else
  src_ip ← (if IP_IS_V6 dst_ip then
              if ip6_addr_isany_val (u_addr (local_ip c)) || ip6_addr_ismulticast (u_addr (local_ip c))
              then ip6_select_source_address n (u_addr dst_ip) s
              else k ← netif_get_ip6_addr_match n (u_addr (local_ip c)) (net (al s));
                   Ok (if k <? 0 then None else Some (local_ip c))
            else
              i ← getn n (net (al s));
              if ip4_addr_isany_val (ip4_of (local_ip c)) || ip4_addr_ismulticast (ip4_of (local_ip c))
              then Ok (Some (v4_addr (nip i)))
              else Ok (if ip4_of (local_ip c) =? nip i then Some (local_ip c) else None));
  match src_ip with
  | None => Ok (ERR_RTE, s)
  | Some src_ip => udp_sendto_if_src pcb p dst_ip dst_port n src_ip s
  end.

(** The interface that the options for multicast choose. *)
Definition multicast_netif (c : udp_pcb) (dst_ip : ip_addr) s : res (option Z) :=
  if ip_addr_ismulticast dst_ip then
    if negb (mcast_ifindex c =? NETIF_NO_INDEX) then netif_get_by_index (mcast_ifindex c) (net (al s))
    else if IP_IS_V4_VAL dst_ip then
      if negb (ip4_addr_isany_val (mcast_ip4 c)) && negb (mcast_ip4 c =? IPADDR_BROADCAST)
      then ip4_route (mcast_ip4 c) s else Ok None
    else Ok None
  else Ok None.

Definition udp_sendto (pcb p : Z) (dst_ip : ip_addr) (dst_port : Z) s : res (Z * st) :=
  c ← getu pcb (udp_of s);
  if negb (IP_ADDR_PCB_VERSION_MATCH c dst_ip) then Ok (ERR_VAL, s) else
  netif ← (if negb (netif_idx c =? NETIF_NO_INDEX) then netif_get_by_index (netif_idx c) (net (al s))
           else
             netif ← multicast_netif c dst_ip s;
             match netif with
             | Some n => Ok (Some n)
             | None => ip_route (local_ip c) dst_ip s
             end);
  match netif with
  | None => Ok (ERR_RTE, s)
  | Some n => udp_sendto_if pcb p dst_ip dst_port n s
  end.

Definition udp_send (pcb p : Z) s : res (Z * st) :=
  c ← getu pcb (udp_of s);
  if IP_IS_ANY_TYPE_VAL (remote_ip c) then Ok (ERR_VAL, s)
  else udp_sendto pcb p (remote_ip c) (remote_port c) s.

(** The protocols above IPv4, with this UDP. *)
Definition udp_transport (tcp : Z → Z → st → res st) (igmp : Z → Z → Z → st → res st) : Transport st :=
  {| udp_input := udp_input4; tcp_input := tcp; igmp_deliver := igmp |}.

End operations.
