(* ===== verification/UdpIpFacts.v ===== *)
(** * UDP: what is sent and what is delivered

    udp_sendto hands the UDP header and the data to IP; udp_input gives the data of a
    datagram to the callback of its block, or answers with an ICMP message. *)

From S2P Require Import Prelude ByteMem Def IpAddr MempPool Chksum Pbuf PbufFacts PbufData PbufLife PbufChain PbufCopy PbufOwn Ip4Addr Etharp.
From S2P Require Import Ip4Frag Ip4FragQueue Iface Igmp Autoip Netif Ip4 Icmp Ip4Input Ip4Facts Ip4FragOut Ip4FragSend Ip4Send Ip4OutFacts Ip4Output.
From S2P Require Import IcmpFacts IcmpEcho Ip4InputFacts Udp UdpFacts UdpIp.

(** The header of a datagram with [n] bytes, header included, without checksum. *)
Definition udp_header (sport dport n : Z) : list Z :=
  word16 (lwip_htons sport) ++ word16 (lwip_htons dport) ++ word16 (lwip_htons n) ++ word16 0.

(** The ports that udp_input finds in a datagram. *)
Definition dgram_sport (c : list Z) : Z := lwip_htons (rd16 c 0).
Definition dgram_dport (c : list Z) : Z := lwip_htons (rd16 c 2).

Lemma header_ports sport dport n c : is_u16 sport → is_u16 dport →
  dgram_sport (udp_header sport dport n ++ c) = sport ∧ dgram_dport (udp_header sport dport n ++ c) = dport.
Proof.
  intros Hs Hd. assert (Hr : ∀ x, is_u16 x → is_u16 (lwip_htons x)) by (intros x Hx; unfold lwip_htons; rewrite PP_HTONS_eq by done; ulia).
  unfold dgram_sport, dgram_dport. change (rd16 (udp_header sport dport n ++ c) 0) with (rd16 (word16 (lwip_htons sport)) 0).
  change (rd16 (udp_header sport dport n ++ c) 2) with (rd16 (word16 (lwip_htons dport)) 0). rewrite !rd16_word16 by auto. by rewrite !htons_htons.
Qed.

Section datagrams.
Context {A P N W Q : Type} `{LinkLaws A P (ustate Q * N) W} `{Pool Q} `{!PoolLaws Q} `{UdpEnv (pstate (ipmem A P (ustate Q * N) W))}.
Abbreviation st := (pstate (ipmem A P (ustate Q * N) W)).
Implicit Types (s : st) (F G l : list (Z * pbuf)) (c : list Z).

(** ** Sending *)

(** The source address of a datagram through the interface [i]: [None] when the block is
    bound to an address that is not the one of the interface. *)
Definition source4 (c : udp_pcb) (i : iface) : option Z :=
  let a := ip4_of (local_ip c) in
  if ip4_addr_isany_val a || ip4_addr_ismulticast a then Some (nip i) else if a =? nip i then Some a else None.

Lemma transmit_sends s p b l F c n i blk dst dport src : excl s (((p, b) :: l) ++ F) → ram_struct b → linked (Some p) ((p, b) :: l) →
  lens_ok ((p, b) :: l) → content (dat s) ((p, b) :: l) = Some c → ifs (net (al s)) !! n = Some i →
  header_fits p (UDP_HLEN + IP_HLEN) b false = true → IP_IS_V6 dst = false → ip_addr_ismulticast dst = false →
  let c' := with_header (ip4_of src) (ip4_of dst) (ttl blk) (tos blk) IP_PROTO_UDP (ip_id (al s)) []
              (udp_header (local_port blk) dport (zlen c + UDP_HLEN) ++ c) in can_cut (mtu i) c' →
  ∃ e s' k, udp_transmit blk p dst dport n src (putp p (grown UDP_HLEN b) s) = Ok (e, s') ∧ held s' p ((p, grown k b) :: l) F ∧
    calm (on_ip next_id s) s' ∧ keeps (((p, b) :: l) ++ F) (dat s) (dat s') ∧ sent_as n (ip4_of dst) (mtu i) c' e s s'.
Proof.
  intros Hx Hram Hl Hlen Hc Hi Hfit Hv4 Hmc c' Hcut. pose proof (content_length _ _ _ Hlen Hc) as Hz. pose proof Hlen as (H1' & H2' & H3' & Hll).
  apply lens_ok_range in Hll as Hr. cbn [bytes_in] in Hz. destruct (fits_split p b UDP_HLEN Hram ltac:(done) Hfit) as [Hf1 Hf2].
  change UDP_HLEN with 8 in *.
  destruct (excl_add_header s p b (l ++ F) 8 Hx Hram ltac:(lia) ltac:(lia) ltac:(lia) ltac:(lia)) as [_ Hadd]. destruct (Hadd Hf1) as (_ & Hx1 & Hmap & Ht).
  set (b1 := grown 8 b) in *. set (s1 := putp p b1 s) in *. assert (Hb1 : pb s1 !! p = Some b1) by apply lookup_insert_eq.
  unfold udp_transmit. rewrite (getp_some _ _ _ Hb1). cbn [mbind res_bind].
  replace (8 <=? len b1) with true by (unfold b1; cbn [grown with_tot_len with_len with_payload len]; lia). cbn [LWIP_ASSERT mbind res_bind].
  change (tot_len b1) with (tot_len b + 8). change (payload b1) with (payload b - 8). rewrite Hmc, andb_false_r.
  pose proof (front_away _ _ _ _ _ Hx1 ltac:(lia) ltac:(lia)) as Haw.
  destruct (proj2 (mread_Some (dat s1) (payload b - 8) (Z.to_nat 8))) as [h Hm]; [exact Hmap|].
  pose proof (mread_length _ _ _ _ Hm) as Hlh. change (Z.to_nat 8) with 8%nat in Hlh.
  assert (Hk : keeps ((p, b) :: l ++ F) (dat s1) (dat s1)) by done.
  store Hm Hk 0. store Hm Hk 2. store Hm Hk 6. store Hm Hk 4. set (s2 := set_dat d2 _).
  assert (Hx2 : excl s2 (((p, b1) :: l) ++ F)) by (eapply (excl_set_dat s1); [exact Hx1|exact Hk]).
  assert (Hc2 : content (dat s2) ((p, b1) :: l) = Some (udp_header (local_port blk) dport (zlen c + 8) ++ c)).
  { apply content_grown; [lia|lia| |].
    - etransitivity; [exact Hm|]. f_equal. unfold udp_header. rewrite Hz. replace (len b + bytes_in l + 8) with (tot_len b + 8) by lia. clear -Hlh.
      do 8 (destruct h as [|? h]; [discriminate Hlh|]). destruct h; [reflexivity|discriminate Hlh].
    - rewrite (keeps_content ((p, b) :: l ++ F) (dat s) (dat s2)); try done. intros x Hx'. rewrite app_comm_cons. apply elem_of_app. by left. }
  unfold ip_output_if_src, ip4_output_if_src. rewrite Hv4.
  destruct (output_opt_src_ok s2 p b1 l F (udp_header (local_port blk) dport (zlen c + 8) ++ c) n i (Some (ip4_of src)) (ip4_of dst) (ttl blk) (tos blk) IP_PROTO_UDP [] Hx2) as (e & s' & k & Hrun & Hh & Hcalm & Hk2 & Hs); try done.
  { apply lens_grown; [done|lia|lia]. }
  exists e, s', (8 + k). split; [exact Hrun|]. unfold b1 in Hh. rewrite grown_grown in Hh. split; [done|]. split; [exact Hcalm|]. split; [|exact Hs].
  eapply (keeps_trans _ _ (dat s2)); [exact Hk|]. eapply (keeps_grown p b (l ++ F) 8); [lia|exact Hk2].
Qed.

Lemma sendto_if_src_ok s p b l F c n i pcb blk dst dport src : excl s (((p, b) :: l) ++ F) → ram_struct b → linked (Some p) ((p, b) :: l) →
  lens_ok ((p, b) :: l) → content (dat s) ((p, b) :: l) = Some c → ifs (net (al s)) !! n = Some i →
  pcbs (udp_of s) !! pcb = Some blk → local_port blk ≠ 0 → IP_ADDR_PCB_VERSION_MATCH blk src = true → IP_ADDR_PCB_VERSION_MATCH blk dst = true →
  header_fits p (UDP_HLEN + IP_HLEN) b false = true → IP_IS_V6 dst = false → ip_addr_ismulticast dst = false →
  let c' := with_header (ip4_of src) (ip4_of dst) (ttl blk) (tos blk) IP_PROTO_UDP (ip_id (al s)) []
              (udp_header (local_port blk) dport (zlen c + UDP_HLEN) ++ c) in can_cut (mtu i) c' →
  ∃ e s' k, udp_sendto_if_src pcb p dst dport n src s = Ok (e, s') ∧ held s' p ((p, grown k b) :: l) F ∧
    calm (on_ip next_id s) s' ∧ keeps (((p, b) :: l) ++ F) (dat s) (dat s') ∧ sent_as n (ip4_of dst) (mtu i) c' e s s'.
Proof.
  intros Hx Hram Hl Hlen Hc Hi Hblk Hport Hms Hmd Hfit Hv4 Hmc c' Hcut. unfold udp_sendto_if_src. rewrite (getu_some _ _ _ Hblk). cbn [mbind res_bind].
  rewrite Hms, Hmd. cbn [negb orb]. rewrite (proj2 (Z.eqb_neq _ _) Hport). cbn [mbind res_bind]. change (negb (ERR_OK =? ERR_OK)) with false. cbv iota.
  destruct (excl_get _ _ p b Hx) as [Hpb _]; [by left|]. rewrite (getp_some _ _ _ Hpb). cbn [mbind res_bind].
  pose proof Hlen as (H1' & H2' & H3' & Hll). apply lens_ok_range in Hll as Hr. destruct (fits_split p b UDP_HLEN Hram ltac:(done) Hfit) as [Hf1 _].
  destruct (excl_add_header s p b (l ++ F) UDP_HLEN Hx Hram ltac:(lia) ltac:(lia) ltac:(lia) ltac:(done)) as [_ Hadd]. destruct (Hadd Hf1) as (Hrun & _ & _ & Ht).
  change UDP_HLEN with 8 in *. rewrite (u16_id (tot_len b + 8)) by ulia. replace (tot_len b + 8 <? tot_len b) with false by lia.
  unfold udp_make_room. change UDP_HLEN with 8. rewrite Hrun. cbn [mbind res_bind Z.eqb]. change (udp_of (putp p (grown 8 b) s)) with (udp_of s). rewrite (getu_some _ _ _ Hblk). cbn [mbind res_bind].
  destruct (transmit_sends s p b l F c n i blk dst dport src Hx Hram Hl Hlen Hc Hi Hfit Hv4 Hmc Hcut) as (e & s' & k & Hs & ?).
  change UDP_HLEN with 8 in Hs. rewrite Hs. cbn [mbind res_bind]. rewrite Z.eqb_refl. cbn [negb mbind res_bind]. by exists e, s', k.
Qed.

(** C39: Sending a datagram.  udp_sendto of a packet in the heap that its caller alone holds, from
    a block with a local port that is not tied to an interface, to an IPv4 address that
    is no multicast address: without a route, or when the block is bound to an address
    that the interface does not have, the result is ERR_RTE and nothing happens.
    Otherwise, with room for both headers in front of the data, the data with a UDP header
    that has the port of the block, the destination port and the length, and an IP header
    with the time to live and the type of service of the block, is handed to the link
    layer, in fragments if necessary.  The caller keeps the packet and nothing else
    changes. *)
Theorem udp_sendto_sends s p b l F c pcb blk dst dport :
  excl s (((p, b) :: l) ++ F) → ram_struct b → linked (Some p) ((p, b) :: l) → lens_ok ((p, b) :: l) → content (dat s) ((p, b) :: l) = Some c →
  pcbs (udp_of s) !! pcb = Some blk → local_port blk ≠ 0 → netif_idx blk = NETIF_NO_INDEX →
  IP_ADDR_PCB_VERSION_MATCH blk (v4_addr dst) = true → ip4_addr_ismulticast dst = false →
  (ip4_route dst s = Ok None → udp_sendto pcb p (v4_addr dst) dport s = Ok (ERR_RTE, s)) ∧
  ∀ n i, ip4_route dst s = Ok (Some n) → ifs (net (al s)) !! n = Some i →
    match source4 blk i with
    | None => udp_sendto pcb p (v4_addr dst) dport s = Ok (ERR_RTE, s)
    | Some src =>
        header_fits p (UDP_HLEN + IP_HLEN) b false = true →
        let c' := with_header src dst (ttl blk) (tos blk) IP_PROTO_UDP (ip_id (al s)) []
                    (udp_header (local_port blk) dport (zlen c + UDP_HLEN) ++ c) in can_cut (mtu i) c' →
        ∃ e s' k, udp_sendto pcb p (v4_addr dst) dport s = Ok (e, s') ∧ held s' p ((p, grown k b) :: l) F ∧
          calm (on_ip next_id s) s' ∧ keeps (((p, b) :: l) ++ F) (dat s) (dat s') ∧ sent_as n dst (mtu i) c' e s s'
    end.
Proof.
  intros Hx Hram Hl Hlen Hc Hblk Hport Hidx Hmd Hmc. unfold udp_sendto. rewrite (getu_some _ _ _ Hblk). cbn [mbind res_bind]. rewrite Hmd, Hidx. cbn [negb].
  change (negb (NETIF_NO_INDEX =? NETIF_NO_INDEX)) with false. cbv iota. unfold multicast_netif.
  assert (Hmc' : ip_addr_ismulticast (v4_addr dst) = false) by exact Hmc. rewrite Hmc'. cbn [mbind res_bind].
  unfold ip_route. change (IP_IS_V6 (v4_addr dst)) with false. cbv iota. change (ip4_of (v4_addr dst)) with dst.
  split; [by intros ->|]. intros n i -> Hi. cbn [mbind res_bind]. unfold udp_sendto_if. rewrite (getu_some _ _ _ Hblk). cbn [mbind res_bind]. rewrite Hmd. cbn [negb].
  change (IP_IS_V6 (v4_addr dst)) with false. cbv iota. unfold getn. rewrite Hi. cbn [deref mbind res_bind]. unfold source4. cbv zeta.
  destruct (ip4_addr_isany_val (ip4_of (local_ip blk)) || ip4_addr_ismulticast (ip4_of (local_ip blk))); cbn [mbind res_bind].
  - intros Hfit Hcut. apply (sendto_if_src_ok s p b l F c n i pcb blk (v4_addr dst) dport (v4_addr (nip i))); try done.
  - destruct (ip4_of (local_ip blk) =? nip i); [|done]. cbn [mbind res_bind]. intros Hfit Hcut.
    apply (sendto_if_src_ok s p b l F c n i pcb blk (v4_addr dst) dport (local_ip blk)); try done.
    unfold IP_ADDR_PCB_VERSION_MATCH. by rewrite Z.eqb_refl, orb_true_r.
Qed.

(** ** Receiving *)

Lemma ld_member_ok s p b l F c i : excl s (((p, b) :: l) ++ F) → lens_ok ((p, b) :: l) → content (dat s) ((p, b) :: l) = Some c →
  0 ≤ i → i + 2 ≤ len b → ld_member (dat s) (payload b + i) = Ok (rd16 c (Z.to_nat i)).
Proof.
  intros Hx Hlen Hc Hi Hb. unfold ld_member, ld8, rd16. pose proof (content_length _ _ _ Hlen Hc) as Hz. pose proof Hlen as (_ & _ & _ & Hll%lens_ok_range).
  cbn [bytes_in] in Hz. assert (Hlook : ∀ k, 0 ≤ k < len b → dat s !! (payload b + k) = Some (nth (Z.to_nat k) c 0)).
  { intros k Hk. rewrite (content_lookup (dat s) [] p b l c k Hlen Hc Hk). change (bytes_in [] + k) with k.
    destruct (nth_lookup_or_length c (Z.to_nat k) 0) as [->|Hle]; [done|]. unfold zlen in Hz. lia. }
  rewrite Hlook by lia. cbn [deref mbind res_bind]. rewrite <-Z.add_assoc, Hlook by lia. cbn [deref mbind res_bind]. do 3 f_equal. f_equal. lia.
Qed.

Lemma getn_Ok s n i : ifs (net (al s)) !! n = Some i → getn n (net (al s)) = Ok i.
Proof. unfold getn. by intros ->. Qed.

Lemma udp_drop_ok s p l F : excl s (l ++ F) → linked (Some p) l →
  ∃ s', udp_drop p s = Ok s' ∧ excl s' F ∧ dat s' = dat s ∧ rest (al s') = rest (al s) ∧ pb s' = without (pb s) l.*1.
Proof. exact (drop_ok s p l F). Qed.

(** A datagram for this host: the packet [hdr ++ c] whose payload pointer is behind the IP
    header, with ip_data set by ip4_input; [src] and [dest] are the addresses, [i] the
    interface that received it, [ia] the one that accepted it, [idx] the index of the former. *)
Record dgram_in s p b l F hdr c inp i ia src dest : Prop := {
  di_packet : request s p b l F hdr c;
  di_len : UDP_HLEN ≤ len b;
  di_inp : ifs (net (al s)) !! inp = Some i;
  di_data : ∃ na h, ip_data (al s) = IpGlobals (Some na) (Some inp) h (zlen hdr) src dest ∧ ifs (net (al s)) !! na = Some ia;
  di_hdr : 20 ≤ zlen hdr ≤ 60
}.

Definition dgram_of (i ia : iface) (src dest : Z) c : datagram :=
  Datagram (v4_addr src) (v4_addr dest) (dgram_sport c) (dgram_dport c) (netif_get_index i) i (ip4_addr_isbroadcast dest (base ia)).

(** Up to the choice of the block. *)
Lemma input_found s p b l F hdr c inp i ia src dest : udp_ok (udp_of s) → dgram_in s p b l F hdr c inp i ia src dest →
  let d := dgram_of i ia src dest c in let r := receiver d (udp_pcbs (udp_of s)) (udp_of s) in
  ∃ u, udp_ok u ∧ pcbs u = pcbs (udp_of s) ∧ udp_pcbs u ≡ₚ udp_pcbs (udp_of s) ∧
    udp_input4 p inp s =
      if bool_decide (is_Some r) || (nip i =? dest)
      then udp_deliver (current4 (ip_data (al s))) p r (dgram_sport c) (d_broadcast d) (set_udp u s)
      else udp_drop p (set_udp u s).
Proof.
  intros Hok [Hreq Hlb Hi (na & h & Hdata & Hna) Hh] d r. destruct (request_parts _ _ _ _ _ _ _ Hreq) as (Hx & Hlen & _ & _ & _ & Hc).
  destruct (demux_ok true d (udp_of s) Hok) as (u & Hrun & Hu1 & Hu2 & _ & Hu3). exists u. split_and!; try done.
  unfold udp_input4, udp_input_from. rewrite (getp_some _ _ _ (rq_struct _ _ _ _ _ _ _ Hreq)). cbn [mbind res_bind]. change UDP_HLEN with 8 in *.
  replace (len b <? 8) with false by lia. rewrite Hdata. unfold current4. cbn [c_is_v6 c_dest c_src c_netif c_input_netif c_header_tot_len current_netif current_input_netif current_iphdr_src current_iphdr_dest current_ip_header_tot_len].
  change (IP_IS_V6 (v4_addr dest)) with false. cbv iota. cbn [deref mbind res_bind]. rewrite (getn_Ok _ _ _ Hna). cbn [mbind res_bind].
  change (ip_addr_isbroadcast (v4_addr dest) ia) with (ip4_addr_isbroadcast dest (base ia)).
  pose proof (ld_member_ok s p b l F c 0 Hx Hlen Hc) as Hl0. rewrite Z.add_0_r in Hl0. rewrite Hl0 by lia. cbn [mbind res_bind].
  rewrite (ld_member_ok s p b l F c 2 Hx Hlen Hc) by lia. cbn [mbind res_bind]. rewrite (getn_Ok _ _ _ Hi). cbn [deref mbind res_bind].
  change (Datagram _ _ _ _ _ _ _) with d. rewrite Hrun. cbn [mbind res_bind]. fold r. change (ip4_of (v4_addr dest)) with dest.
  destruct r as [a|]; cbn [mbind res_bind]; [done|]. rewrite bool_decide_eq_false_2 by (by intros [? ?]). cbn [orb]. by destruct (nip i =? dest).
Qed.

Lemma set_udp_same u s : pb (set_udp u s) = pb s ∧ dat (set_udp u s) = dat s ∧ am (al (set_udp u s)) = am (al s) ∧ udp_of (set_udp u s) = u ∧ log (set_udp u s) = log s.
Proof. done. Qed.

Lemma request_udp u s p b l F hdr c : request s p b l F hdr c → request (set_udp u s) p b l F hdr c.
Proof. by intros [? ? ? ? ? ? ?]. Qed.

(** Delivery.  udp_input of a datagram that is long enough for its header, called by ip4_input:
    if there is a block for the datagram with a callback, the callback is called, once,
    with its argument, the block, the packet reduced to the data, the source address and
    the source port; the packet is its own and everything else is as before.  If the
    block has no callback the packet is released.  The blocks are unchanged. *)
Lemma udp_input_delivers s p b l F hdr c inp i ia src dest a blk :
  udp_ok (udp_of s) → dgram_in s p b l F hdr c inp i ia src dest →
  receiver (dgram_of i ia src dest c) (udp_pcbs (udp_of s)) (udp_of s) = Some a → pcbs (udp_of s) !! a = Some blk →
  match recv blk with
  | Some f => ∃ s', udp_input4 p inp s = recv_call f (recv_arg blk) a p (v4_addr src) (dgram_sport c) s' ∧
      excl s' (((p, grown (- UDP_HLEN) b) :: l) ++ F) ∧ linked (Some p) ((p, grown (- UDP_HLEN) b) :: l) ∧
      content (dat s') ((p, grown (- UDP_HLEN) b) :: l) = Some (drop 8 c) ∧ dat s' = dat s ∧ log s' = log s ∧
      ifs (net (al s')) = ifs (net (al s)) ∧ udp_ok (udp_of s') ∧ pcbs (udp_of s') = pcbs (udp_of s)
  | None => ∃ s', udp_input4 p inp s = Ok s' ∧ excl s' F ∧ dat s' = dat s ∧ log s' = log s ∧ udp_ok (udp_of s') ∧ pcbs (udp_of s') = pcbs (udp_of s)
  end.
Proof.
  intros Hok Hdi Hrec Hblk. destruct (input_found _ _ _ _ _ _ _ _ _ _ _ _ Hok Hdi) as (u & Hu1 & Hu2 & Hu3 & ->). rewrite Hrec.
  rewrite bool_decide_eq_true_2 by (by eexists). cbn [orb]. destruct Hdi as [Hreq Hlb _ (na & h & Hdata & _) _]. apply (request_udp u) in Hreq.
  destruct (request_parts _ _ _ _ _ _ _ Hreq) as (Hx & Hlen & _ & _ & _ & Hc). pose proof Hlen as (H1' & H2' & H3' & Hll). apply lens_ok_range in Hll as Hr.
  pose proof (rq_linked _ _ _ _ _ _ _ Hreq) as Hl. apply (linked_grown p b l (- 8)) in Hl.
  unfold udp_deliver. destruct (excl_get _ _ p b Hx) as [Hpb _]; [by left|]. change UDP_HLEN with 8 in *.
  destruct (excl_remove_header (H0 := ip_laws (eq (rest (al (set_udp u s))))) (set_udp u s) p b (l ++ F) 8) as (s1 & Hrun & Hx1 & Hd1); [by apply excl_inv|lia..|].
  apply excl_inv in Hx1 as [Hx1 Hrest]. rewrite Hrun. cbn [mbind res_bind]. change (LWIP_ASSERT (0 =? 0)) with (Ok tt). cbn [mbind res_bind].
  unfold rest in Hrest. injection Hrest as Hn1 _ _ _ Hdata1 Hlog1.
  assert (Hu : udp_of s1 = u) by (unfold udp_of; by rewrite <-Hn1). rewrite Hu. rewrite (getu_some a blk) by (by rewrite Hu2). cbn [mbind res_bind].
  destruct (recv blk) as [f|].
  - exists s1. rewrite Hdata. cbn [current4 c_src current_iphdr_src]. split_and!; try done.
    + rewrite Hd1. cbn [content] in Hc |- *. cbn [grown with_tot_len with_len with_payload payload len].
      replace (Z.to_nat (len b)) with (8 + Z.to_nat (len b + -8))%nat in Hc by lia. rewrite mread_app in Hc.
      change (- (8)) with (-8). replace (payload b - -8) with (payload b + Z.of_nat 8) by lia. change (dat (set_udp u s)) with (dat s) in *.
      destruct (mread (dat s) (payload b) 8) as [x|] eqn:Ex; [|done]. destruct (mread (dat s) (payload b + Z.of_nat 8) _) as [y|]; [|done].
      cbn [mbind option_bind] in *. destruct (content (dat s) l) as [z|]; [|done]. cbn [mbind option_bind] in *. injection Hc as <-.
      apply mread_length in Ex. rewrite <-app_assoc. by rewrite drop_app_length' by done.
    + unfold log. by rewrite <-Hlog1.
    + by rewrite <-Hn1.
    + by rewrite Hu.
    + by rewrite Hu.
  - destruct (udp_drop_ok s1 p ((p, grown (- 8) b) :: l) F Hx1) as (s2 & -> & Hx2 & Hd2 & Hr2 & _).
    { done. }
    unfold rest in Hr2. injection Hr2 as Hn2 _ _ _ _ Hlog2. assert (Hu' : udp_of s2 = u) by (unfold udp_of; by rewrite Hn2, <-Hn1).
    exists s2. rewrite Hu'. split_and!; try done; [by rewrite Hd2, Hd1|]. unfold log. by rewrite Hlog2, <-Hlog1.
Qed.

(** The blocks do not matter for the routing. *)
Lemma route_udp u dest s : ip4_route dest (set_udp u s) = ip4_route dest s.
Proof.
  assert (Hl : ∀ w (n0 : nstate P (ustate Q * N)) ns, route_loop dest ns (set_nworld w n0) = route_loop dest ns n0).
  { intros w n0 ns. induction ns as [|n ns IH]; [done|]. cbn [route_loop]. change (getn n (set_nworld w n0)) with (getn n n0). by rewrite IH. }
  unfold ip4_route. cbv zeta. cbn [set_udp on_ip set_al al set_net net ip4_default_multicast_netif]. by rewrite Hl.
Qed.

(** pbuf_header_force after pbuf_remove_header shows the IP header again. *)
Lemma force_back s p b n : pb s !! p = Some (grown (- (8)) b) → 8 ≤ len b → len b ≤ tot_len b → tot_len b ≤ 65535 → 0 ≤ n ≤ 60 →
  header_fits p (n + 8) (grown (- (8)) b) true = true →
  pbuf_header_force (Some p) (to_s16 (n + 8)) s = Ok (0, putp p (grown n b) s).
Proof.
  intros Hb H1' H2' H3' Hn Hfit. replace (to_s16 (n + 8)) with (n + 8) by (unfold to_s16; rewrite u16_id by ulia; by replace (n + 8 <? 32768) with true by lia).
  unfold pbuf_header_force, pbuf_header_impl. replace (n + 8 <? 0) with false by lia. rewrite u32_id by ulia.
  rewrite (add_header_ok s p (grown (- (8)) b)) by (done || (cbn [grown with_tot_len with_len with_payload len tot_len]; lia)). rewrite Hfit, grown_grown.
  do 4 f_equal. lia.
Qed.

(** The memory for a packet in the heap depends on the heap alone. *)
Lemma ram_available_am s s' layer n : am (al s') = am (al s) → ram_available layer n s' = ram_available layer n s.
Proof.
  intros Ha. unfold ram_available, pbuf_alloc. change (PBUF_RAM =? PBUF_REF) with false. change (PBUF_RAM =? PBUF_ROM) with false.
  change (PBUF_RAM =? PBUF_POOL) with false. change (PBUF_RAM =? PBUF_RAM) with true. cbn [orb]. destruct (_ || _); [done|].
  cbn [mem_malloc ip_allocator]. rewrite Ha. destruct (mem_malloc _ (am (al s))) as [[[r|] a]| | |]; cbn [mbind res_bind]; try done. by destruct (_ =? 0).
Qed.

(** The ICMP message, seen from the state before udp_input. *)
Lemma reported_before u p x y s s3 s4 addrs to m : pb s !! p = Some x → p ∈ addrs → reported to (putp p y (set_udp u s)) s3 m → log s4 = log s3 → link (al s4) = link (al s3) →
  pb s4 = without (pb s3) addrs →
  if ram_available PBUF_IP 36 s then
    match ip4_route to s with
    | Ok (Some n) => ∃ j e, ifs (net (al s)) !! n = Some j ∧
        let c := with_header (nip j) to ICMP_TTL 0 IP_PROTO_ICMP (ip_id (al s)) [] m in
        sent_as n to (mtu j) c e s s4 ∧ ∀ K : LinkKeeps A P (ustate Q * N) W, too_large (mtu j) c = false → accounted s s4 addrs
    | _ => log s4 = log s ∧ pb s4 = without (pb s) addrs
    end
  else log s4 = log s ∧ pb s4 = without (pb s) addrs.
Proof.
  intros Hx Hp Hrep Hlog Hlk Hpb. unfold reported in Hrep. rewrite (ram_available_am s (putp p y (set_udp u s))) in Hrep by done.
  assert (Hquiet : log s3 = log s ∧ pb s3 = <[p := y]> (pb s) → log s4 = log s ∧ pb s4 = without (pb s) addrs).
  { intros [Hl3 Hp3]. split; [congruence|]. rewrite Hpb, Hp3. by apply without_insert. }
  destruct (ram_available PBUF_IP 36 s); [|by apply Hquiet]. unfold routed in Hrep. change (ip4_route to (putp p y (set_udp u s))) with (ip4_route to (set_udp u s)) in Hrep.
  rewrite route_udp in Hrep. destruct (ip4_route to s) as [[n|]| | |]; [|by apply Hquiet..]. destruct Hrep as (j & e & Hj & Hs & Hacc). exists j, e. split; [done|].
  split; [eapply sent_as_log; [reflexivity|symmetry; exact Hlog|exact Hs]|]. intros K Hsmall. specialize (Hacc K Hsmall). unfold accounted in Hacc |- *.
  rewrite Hlk, Hpb, dom_without. cbn [putp set_udp on_ip set_al pb] in Hacc. rewrite dom_insert_lookup_L in Hacc by (by exists x). revert Hacc. clear. set_solver.
Qed.

(** The packet is released at the end, whatever happened to the blocks. *)
Lemma dropped_for_good s u p l F : udp_ok u → pcbs u = pcbs (udp_of s) → ∀ s1 x,
  excl s1 (((p, x) :: l) ++ F) → linked (Some p) ((p, x) :: l) → keeps F (dat s) (dat s1) → udp_of s1 = u →
  ∃ s2, udp_drop p s1 = Ok s2 ∧ excl s2 F ∧ Forall (λ a, pb s2 !! a = None) (p :: l.*1) ∧ keeps F (dat s) (dat s2) ∧
    udp_ok (udp_of s2) ∧ pcbs (udp_of s2) = pcbs (udp_of s) ∧ log s2 = log s1 ∧ link (al s2) = link (al s1) ∧ pb s2 = without (pb s1) (p :: l.*1).
Proof.
  intros Hu1 Hu2 s1 x Hx1 Hl1 Hk1 Hu. destruct (udp_drop_ok s1 p _ F Hx1 Hl1) as (s2 & -> & Hx2 & Hd2 & Hr2 & Hgone). exists s2.
  unfold rest in Hr2. injection Hr2 as Hn2 _ _ _ _ Hlog2. assert (Hu' : udp_of s2 = u) by (unfold udp_of in *; by rewrite Hn2).
  rewrite Hu', Hd2. unfold log. rewrite Hlog2. split_and!; try done. rewrite Hgone. apply Forall_forall. intros a Ha. by apply lookup_foldr_delete_eq.
Qed.

(** A datagram without a receiver is reported when it was sent to the address of the interface,
    and that is no broadcast and no multicast address. *)
Definition unreachable (i ia : iface) (dest : Z) : bool :=
  (nip i =? dest) && negb (ip4_addr_isbroadcast dest (base ia)) && negb (ip4_addr_ismulticast dest).

(** C40: No receiver.  When no block is for a datagram, udp_input releases the packet: none of its
    structs is in use any more.  If the datagram was sent to the address of the interface,
    that is no broadcast and no multicast address, and there is memory for a message and a
    route to the source, then an ICMP message "port unreachable" that quotes the IP header
    and the first bytes of the datagram goes to its source, and when the message fits the
    MTU every struct in use afterwards was in use before or is held by the link layer.  In
    all other cases nothing is sent, and the structs in use are those of before without
    those of the packet.  The blocks stay as they are. *)
Theorem udp_input_unreachable {K : LinkKeeps A P (ustate Q * N) W} s p b l F hdr c inp i ia src dest :
  udp_ok (udp_of s) → dgram_in s p b l F hdr c inp i ia src dest → net_fine (al s) →
  receiver (dgram_of i ia src dest c) (udp_pcbs (udp_of s)) (udp_of s) = None →
  header_fits p (zlen hdr + UDP_HLEN) (grown (- UDP_HLEN) b) true = true →
  ∃ s', udp_input4 p inp s = Ok s' ∧ excl s' F ∧ Forall (λ a, pb s' !! a = None) (p :: l.*1) ∧ keeps F (dat s) (dat s') ∧
    udp_ok (udp_of s') ∧ pcbs (udp_of s') = pcbs (udp_of s) ∧
    let quoted := take 28 (hdr ++ c) in let to := iph_src (take 20 quoted) in
    match (if unreachable i ia dest && ram_available PBUF_IP 36 s then ip4_route to s else Ok None) with
    | Ok (Some n) => ∃ j e, ifs (net (al s)) !! n = Some j ∧
        let c' := with_header (nip j) to ICMP_TTL 0 IP_PROTO_ICMP (ip_id (al s)) [] (icmp_message ICMP_DUR ICMP_DUR_PORT quoted) in
        sent_as n to (mtu j) c' e s s' ∧ (too_large (mtu j) c' = false → accounted s s' (p :: l.*1))
    | _ => log s' = log s ∧ pb s' = without (pb s) (p :: l.*1)
    end.
Proof.
  intros Hok Hdi Hfine Hrec Hfit. destruct (input_found _ _ _ _ _ _ _ _ _ _ _ _ Hok Hdi) as (u & Hu1 & Hu2 & Hu3 & ->). rewrite Hrec.
  rewrite bool_decide_eq_false_2 by (by intros [? ?]). cbn [orb]. destruct Hdi as [Hreq Hlb Hi (na & h & Hdata & _) Hh]. apply (request_udp u) in Hreq. set (s0 := set_udp u s) in *.
  destruct (request_parts _ _ _ _ _ _ _ Hreq) as (Hx & Hlen & _ & _ & _ & Hc). pose proof Hlen as (H1' & H2' & H3' & Hll). apply lens_ok_range in Hll as Hr.
  destruct Hreq as [Hpb Hxg Hl Hleng _ _ Hcg]. change UDP_HLEN with 8 in *.
  pose proof (dropped_for_good s u p l F Hu1 Hu2) as Hdone.
  unfold unreachable. destruct (nip i =? dest) eqn:Ei; cbn [andb].
  2: { destruct (Hdone s0 b Hx Hl) as (s2 & -> & ? & ? & ? & ? & ? & Hlog & _ & Hgone); try done. by exists s2. }
  breflect. unfold udp_deliver. change UDP_HLEN with 8. rewrite (remove_header_eq s0 p b 8) by (done || lia). cbn [mbind res_bind]. change (LWIP_ASSERT (0 =? 0)) with (Ok tt). cbn [mbind res_bind].
  set (s1 := putp p (grown (- (8)) b) s0). rewrite Hdata. unfold current4. cbn [c_is_v6 c_dest c_header_tot_len current_iphdr_dest current_ip_header_tot_len d_broadcast dgram_of].
  change (ip_addr_ismulticast (v4_addr dest)) with (ip4_addr_ismulticast dest).
  assert (Hx8 : excl s1 (((p, grown (- (8)) b) :: l) ++ F)).
  { destruct (excl_remove_header s0 p b (l ++ F) 8 Hx ltac:(lia) ltac:(lia) ltac:(lia) ltac:(lia)) as (s2 & Hrun & Hx2 & _).
    rewrite (remove_header_eq s0 p b 8) in Hrun by (done || lia). by injection Hrun as <-. }
  destruct (negb (ip4_addr_isbroadcast dest (base ia)) && negb (ip4_addr_ismulticast dest)) eqn:Ebm.
  2: { cbn [mbind res_bind andb]. destruct (Hdone s1 (grown (- (8)) b)) as (s2 & -> & ? & ? & ? & ? & ? & Hlog & _ & Hgone); try done. exists s2. split_and!; try done.
       rewrite Hgone. cbn [s1 s0 putp set_udp on_ip set_al pb]. apply without_insert. by left. }
  cbn [andb]. rewrite (force_back s1 p b (zlen hdr)) by (done || lia || apply lookup_insert_eq). cbn [mbind res_bind]. unfold s1. rewrite putp_putp.
  set (s2 := putp p (grown (zlen hdr) b) s0) in *.
  assert (Hlg : 28 ≤ len (grown (zlen hdr) b)) by (cbn [grown with_tot_len with_len with_payload len]; lia).
  assert (Hq : mread (dat s2) (payload (grown (zlen hdr) b)) 28 = Some (take 28 (hdr ++ c))).
  { pose proof (content_slice (dat s2) [] p (grown (zlen hdr) b) l (hdr ++ c) 0 28 Hleng Hcg) as Hs. rewrite Z.add_0_r in Hs. change (Z.to_nat 28) with 28%nat in Hs. rewrite Hs by lia. reflexivity. }
  destruct (send_response_ok s2 (((p, grown (zlen hdr) b) :: l) ++ F) p (grown (zlen hdr) b) ICMP_DUR ICMP_DUR_PORT Hxg) as (s3 & quoted & qh & Hrun & Hx3 & Hk3 & Hn3 & _ & Hqd & Hres).
  { destruct Hfine as [[? ? ?] ?]. by repeat split. } { by left. } { exact (mread_mapped _ _ 28 _ Hq). }
  unfold icmp_dest_unreach. rewrite Hrun. cbn [mbind res_bind]. destruct (Hqd Hlg) as [Hq' ->]. rewrite Hq in Hq'. injection Hq' as <-.
  destruct (Hdone s3 (grown (zlen hdr) b) Hx3) as (s4 & -> & ? & ? & ? & ? & ? & Hlog & Hlk & Hgone); try done.
  { eapply keeps_sub; [|exact Hk3]. intros x ?. apply elem_of_app. by right. } { unfold udp_of. by rewrite Hn3. }
  exists s4. split_and!; try done. cbv zeta.
  pose proof (reported_before u p b _ s s3 s4 (p :: l.*1) _ _ Hpb ltac:(by left) Hres Hlog Hlk Hgone) as Hrep.
  destruct (ram_available PBUF_IP 36 s); [|done]. destruct (ip4_route _ s) as [[n|]| | |]; try done.
  destruct Hrep as (j & e & Hj & Hs & Hacc). exists j, e. split_and!; try done. exact (Hacc K).
Qed.

(** C38: The whole way of a datagram.  ip4_input of a UDP packet [hdr ++ c] for the address of the receiving
    interface, that is no fragment and has a proper source address and a complete UDP
    header, calls the callback of the block the datagram is for, once, with the packet
    reduced to the data, the source address and the source port, and returns ERR_OK after
    it; up to the call no packet was sent and no memory, interface or block changed. *)
Theorem ip4_input_udp {R} `{Pool R} tcp igmp (w : rstate (ipmem A P (ustate Q * N) W) R) p b l F hdr c inp i a blk f :
  for_inp w p b l F hdr c inp i → zlen hdr ≤ 60 → IPH_PROTO hdr = IP_PROTO_UDP → zlen hdr + UDP_HLEN ≤ len b → udp_ok (udp_of (ps w)) →
  receiver (dgram_of i i (iph_src hdr) (iph_dest hdr) c) (udp_pcbs (udp_of (ps w))) (udp_of (ps w)) = Some a →
  pcbs (udp_of (ps w)) !! a = Some blk → recv blk = Some f →
  let b' := grown (- (zlen hdr + UDP_HLEN)) b in
  ∃ s', ip4_input (H2 := udp_transport tcp igmp) p inp w =
      (s ← recv_call f (recv_arg blk) a p (v4_addr (iph_src hdr)) (dgram_sport c) s';
       Ok (ERR_OK, set_ps (on_ip (set_ip_data (IpGlobals None None 0 0 IPADDR_ANY IPADDR_ANY)) s) w)) ∧
    excl s' (((p, b') :: l) ++ F) ∧ linked (Some p) ((p, b') :: l) ∧ content (dat s') ((p, b') :: l) = Some (drop 8 c) ∧
    dat s' = rdat w ∧ log s' = log (ps w) ∧ ifs (net (al s')) = ifs (net (al (ps w))) ∧
    udp_ok (udp_of s') ∧ pcbs (udp_of s') = pcbs (udp_of (ps w)).
Proof.
  intros Hfi Hh Hpr Hlb Hok Hrec Hblk Hf b'. pose proof (fi_hdr _ _ _ _ _ _ _ _ _ Hfi) as Hh2. pose proof (fi_inp _ _ _ _ _ _ _ _ _ Hfi) as Hi.
  destruct (input_dispatch (H3 := udp_transport tcp igmp) w p b l F hdr c inp i Hfi) as (s1 & -> & Hrq & Hd1 & Hn1 & Hlog1 & _ & _ & Hg).
  rewrite Hpr. change (IP_PROTO_UDP =? IP_PROTO_UDP) with true. cbv iota. cbn [udp_input udp_transport].
  assert (Hu : udp_of s1 = udp_of (ps w)) by (unfold udp_of; by rewrite Hn1). rewrite <-Hu in Hok, Hrec, Hblk. rewrite <-Hn1 in Hi.
  pose proof (udp_input_delivers s1 p (grown (- zlen hdr) b) l F hdr c inp i i (iph_src hdr) (iph_dest hdr) a blk Hok) as Hdel. rewrite Hf in Hdel.
  destruct Hdel as (s' & -> & Hx' & Hl' & Hc' & Hd' & Hlog' & Hi' & Hok' & Hp'); try done.
  { split; try done; [cbn [grown with_tot_len with_len with_payload len]; lia|by exists inp, (payload b)|lia]. }
  rewrite grown_grown in Hx', Hl', Hc'. replace (- zlen hdr + - UDP_HLEN) with (- (zlen hdr + UDP_HLEN)) in Hx', Hl', Hc' by lia.
  exists s'. rewrite Hu in Hp'. split_and!; try done; congruence.
Qed.

End datagrams.
