(* ===== verification/UdpLink.v ===== *)
(** * UDP on a concrete host

    The host of Ip4Link.v with one UDP block, in the pool MEMP_UDP_PCB, that is bound to the
    port 5000.  Its callback releases the packet, and there is no IPv6.  The theorems on
    UDP are applied to this host. *)

From S2P Require Import Prelude ByteMem Def IpAddr Mem Memp MempFacts MempPool Chksum Pbuf PbufFacts PbufData PbufLife PbufChain PbufCopy PbufAlloc PbufOwn.
From S2P Require Import Ip4Addr Etharp Ip4Frag Ip4FragFacts Ip4FragQueue Ip4FragLink Iface Igmp Autoip Netif Ip4 Icmp Ip4Input Ip4Facts Ip4FragOut Ip4FragSend.
From S2P Require Import Ip4Send Ip4OutFacts Ip4Output IcmpFacts IcmpEcho Ip4InputFacts Ip4Link Udp UdpFacts UdpIp UdpIpFacts.

#[local] Existing Instance sample_allocator.
#[local] Existing Instance sample_laws.
#[local] Existing Instance record_link.
#[local] Existing Instance record_laws.
#[local] Existing Instance record_keeps.

(** ** The blocks *)

(** The pool MEMP_UDP_PCB. *)
Definition udp_pools : list memp_desc := [LWIP_MEMPOOL_DECLARE 4 76 700000 4].

Lemma udp_pools_ok : descs_ok udp_pools.
Proof.
  split.
  - intros [|i] e Hd; vm_compute in Hd; simplify_eq. split_and!; [done|by exists 19|done..].
  - intros [|i] [|j] e e' Hd Hd' Hne; done.
Qed.

#[local] Instance udp_pool_laws : PoolLaws (pools_at udp_pools 0) := memp_pool_laws udp_pools 0 _ udp_pools_ok eq_refl.

Definition udp_pool : pools_at udp_pools 0 := from_ok (memp_init udp_pools (Pools ∅ ∅)) (Pools ∅ ∅).

Lemma udp_pool_ok : pool_ok udp_pool [].
Proof.
  exists []. split; [|done]. destruct (memp_init_ok udp_pools udp_pools_ok) as (s & Hi & Hinv). unfold udp_pool. by rewrite Hi.
Qed.

Abbreviation blocks := (ustate (pools_at udp_pools 0)).

Definition no_zone (a src : ip6_addr) : res ip6_addr := Ok a.

Lemma no_zone_ok : sets_zone no_zone.
Proof. intros a src. exists (zone a). by destruct a. Qed.

Definition BLOCK : Z := 700228.
Definition udp0 : blocks := UState ∅ [] UDP_LOCAL_PORT_RANGE_START udp_pool.
Definition then_do (o : uop) (u : blocks) : blocks := from_ok (exec no_zone o u) u.
Definition udp1 : blocks := then_do (U_new IPADDR_TYPE_V4) udp0.
Definition udp2 : blocks := then_do (U_bind BLOCK None 5000) udp1.
Definition udp3 : blocks := then_do (U_recv BLOCK (Some 9) 3) udp2.

Lemma then_reachable o u : reachable no_zone true u → allowed true o u → reachable no_zone true (then_do o u).
Proof. intros Hr Ha. unfold then_do. destruct (exec no_zone o u) as [u'| | |] eqn:E; [|done..]. by eapply reach_step. Qed.

Lemma then_ok o u : udp_ok u → allowed true o u → udp_ok (then_do o u).
Proof. intros Hr Ha. unfold then_do. destruct (exec_ok no_zone no_zone_ok true o u Hr Ha) as (u' & -> & ?). done. Qed.

Lemma udp0_ok : udp_ok udp0.
Proof.
  split; cbn [udp0 pcbs udp_pcbs udp_port upool]; try done; [exact udp_pool_ok|constructor|..]; try (by intros ? ?%elem_of_nil); by intros; simplify_map_eq.
Qed.

Lemma block_allowed (u : blocks) : bool_decide (is_Some (pcbs u !! BLOCK)) = true → is_Some (pcbs u !! BLOCK).
Proof. apply bool_decide_eq_true_1. Qed.

Lemma allowed2 : allowed true (U_bind BLOCK None 5000) udp1.
Proof. split; [apply block_allowed; vm_compute; reflexivity|]. split; [vm_compute; split; [discriminate|reflexivity]|done]. Qed.

Lemma allowed3 : allowed true (U_recv BLOCK (Some 9) 3) udp2.
Proof. apply block_allowed. vm_compute. reflexivity. Qed.

Lemma udp3_ok : udp_ok udp3.
Proof. apply then_ok; [|exact allowed3]. apply then_ok; [|exact allowed2]. apply then_ok; [exact udp0_ok|done]. Qed.

Lemma udp_runs_exclusive_witness : udp_ok udp3 ∧ ∃ u', exec no_zone (U_remove BLOCK) udp3 = Ok u'.
Proof.
  destruct (udp_runs_exclusive no_zone no_zone_ok true udp3) as [Hok Hex].
  - apply then_reachable; [|exact allowed3]. apply then_reachable; [|exact allowed2]. apply then_reachable; [|done]. apply reach_start. exact udp_pool_ok.
  - split; [exact Hok|]. apply Hex. apply block_allowed. vm_compute. reflexivity.
Defined.

Lemma udp_new_port_free_witness : ∃ q v, udp_new_port udp3 = Ok (q, set_udp_port v udp3) ∧
  (q ≠ 0 → UDP_LOCAL_PORT_RANGE_START ≤ q ≤ UDP_LOCAL_PORT_RANGE_END ∧ ¬ has_port udp3 q).
Proof.
  destruct (udp_new_port_free udp3) as (q & v & Hrun & _ & _ & Hq).
  - exact udp3_ok.
  - exists q, v. split; [exact Hrun|exact Hq].
Defined.

(** A datagram from 10.0.0.2, port 4000, to 10.0.0.1, port 5000. *)
Definition to_block : datagram := Datagram (v4_addr ADDR2) (v4_addr ADDR1) 4000 5000 1 (host_if 1500) false.

Lemma udp_demux_correct_witness : ∃ u', udp_demux to_block udp3 = Ok (Some BLOCK, u') ∧ udp_ok u'.
Proof.
  destruct (udp_demux_correct to_block udp3) as (r & u' & Hrun & Hok & _ & _ & Hr & _).
  - exact udp3_ok.
  - exists u'. split; [|exact Hok]. rewrite Hrun, Hr. f_equal.
Defined.

(** ** Datagrams *)

Abbreviation world := (blocks * ())%type.
Abbreviation umem := (ipmem stack_mem () world packets).

#[local] Instance quiet_udp : UdpEnv (pstate umem) := {|
  recv_call f arg pcb p addr port s := udp_drop p s;
  ip6_route src dest s := Ok None;
  ip6_select_source_address n dest s := Ok None;
  ip6_output_if_src p src dest hl tc proto n s := Ok (ERR_RTE, s);
  icmp6_dest_unreach p code s := Ok s |}.

(** The block as udp3 has it. *)
Definition the_block : udp_pcb := UdpPcb (v4_addr 0) (v4_addr 0) 0 0 0 UDP_TTL 0 5000 0 0 0 UDP_TTL (Some 9) 3.

Lemma udp3_block : pcbs udp3 !! BLOCK = Some the_block.
Proof. vm_compute. reflexivity. Qed.

Definition send_host : pstate umem := empty_host_with (udp3, tt) 1500.

Lemma udp_alloc_run : ends (λ x, bool_decide (x.1 ≠ None)) (pbuf_alloc PBUF_TRANSPORT 10 PBUF_RAM send_host) = true.
Proof. vm_compute. reflexivity. Qed.

Lemma udp_sendto_sends_witness :
  ∃ p s1 e s' c, pbuf_alloc PBUF_TRANSPORT 10 PBUF_RAM send_host = Ok (Some p, s1) ∧ udp_sendto BLOCK p (v4_addr ADDR2) 4000 s1 = Ok (e, s') ∧
    zlen c = 10 ∧ log s' = [(1, ADDR2, with_header ADDR1 ADDR2 255 0 17 7 [] (udp_header 5000 4000 18 ++ c))].
Proof.
  destruct (excl_alloc_ram (H0 := ip_laws (eq (rest (al send_host)))) send_host [] PBUF_TRANSPORT 10) as (r & s1 & Hal & Hd & Hr).
  - apply excl_inv. split; [apply empty_host_excl|reflexivity].
  - by compute.
  - done.
  - pose proof udp_alloc_run as Hsome. rewrite Hal in Hsome. destruct r as [p|]; [|done]. clear Hsome.
    destruct Hr as (q & [Hx Hrest]%excl_inv & Hnx & Hlq & Htq & Hmq & _ & Hroom).
    destruct (alloc_ram_struct _ _ _ _ _ Hal) as (q' & Hq' & Hram). destruct (excl_get _ _ p q Hx) as [Hq _]; [by left|]. rewrite Hq in Hq'. injection Hq' as <-.
    destruct (proj2 (mread_Some (dat s1) (payload q) 10)) as [c Hc]; [by rewrite Hd|]. assert (Hz : zlen c = 10) by (apply mread_length in Hc; unfold zlen; lia).
    unfold rest in Hrest. injection Hrest as Hn Hmu Hid _ _ Hlk.
    assert (Hroute : ip4_route ADDR2 s1 = Ok (Some 1)) by (rewrite (route_same send_host s1) by done; vm_compute; reflexivity).
    destruct (udp_sendto_sends s1 p q [] [] c BLOCK the_block ADDR2 4000) as [_ Hsend].
    + exact Hx.
    + exact Hram.
    + split; done.
    + simpl. lia.
    + cbn [content]. rewrite Hlq. change (Z.to_nat 10) with 10%nat. rewrite Hc. cbn [mbind option_bind]. by rewrite app_nil_r.
    + unfold udp_of. rewrite <-Hn. exact udp3_block.
    + discriminate.
    + reflexivity.
    + reflexivity.
    + reflexivity.
    + specialize (Hsend 1 (host_if 1500) Hroute). rewrite <-Hn in Hsend. specialize (Hsend eq_refl). change (source4 the_block (host_if 1500)) with (Some ADDR1) in Hsend. cbv iota in Hsend.
      destruct Hsend as (e & s' & k & Hrun & _ & _ & _ & Hs).
      * unfold header_fits. destruct Hram as [_ Ht]. rewrite Ht, Htq. change PBUF_TRANSPORT with 74 in Hroom. change SIZEOF_STRUCT_PBUF with 16 in *.
        change (negb (Z.land (u8 PBUF_RAM) PBUF_TYPE_FLAG_STRUCT_DATA_CONTIGUOUS =? 0)) with true. change (UDP_HLEN + IP_HLEN) with 28. cbv iota. change (10 + 28 <=? 65535) with true. cbn [orb andb].
        apply orb_true_iff. right. apply Z.leb_le. lia.
      * apply small_can_cut; [right; vm_compute; split; discriminate|]. rewrite zlen_with_header, zlen_app, Hz. vm_compute. split; discriminate.
      * exists p, s1, e, s', c. split; [exact Hal|]. split; [exact Hrun|]. split; [exact Hz|]. unfold sent_as in Hs. rewrite Hz in Hs.
        replace (too_large _ _) with false in Hs.
        -- rewrite Hs. unfold log. cbn [sent record_laws]. rewrite <-Hlk, <-Hid. reflexivity.
        -- unfold too_large. rewrite zlen_with_header, zlen_app, Hz. vm_compute. reflexivity.
Defined.

(** A datagram from 10.0.0.2, port 4000, to the given port of 10.0.0.1. *)
Definition dgram_hdr : list Z := [69; 0; 0; 32; 0; 1; 0; 0; 64; 17; 0; 0; 10; 0; 0; 2; 10; 0; 0; 1].
Definition dgram_msg (port : Z) : list Z := udp_header 4000 port 12 ++ [1; 2; 3; 4].

Definition udp_host (port : Z) : rstate umem (pools_at reass_pools 0) :=
  RState (host_with (udp3, tt) 1500 (dgram_hdr ++ dgram_msg port)) ∅ None 0 reass_pool.

Lemma udp_host_for_inp : for_inp (udp_host 5000) 400000 (packet_struct 32) [] [] dgram_hdr (dgram_msg 5000) 1 (host_if 1500).
Proof.
  split.
  - split; [exact (host_excl (udp3, tt) 1500 (dgram_hdr ++ dgram_msg 5000))|split; done| |exact (host_content (udp3, tt) 1500 (dgram_hdr ++ dgram_msg 5000))|vm_compute; discriminate|reflexivity].
    apply (host_lens (dgram_hdr ++ dgram_msg 5000)). vm_compute. discriminate.
  - apply host_known.
  - reflexivity.
  - vm_compute. reflexivity.
  - vm_compute. split; discriminate.
  - vm_compute. reflexivity.
  - vm_compute. reflexivity.
  - vm_compute. reflexivity.
  - constructor.
  - vm_compute. reflexivity.
  - vm_compute. reflexivity.
  - vm_compute. reflexivity.
Qed.

Lemma ip4_input_udp_witness :
  ∃ s', ip4_input (H2 := udp_transport (λ _ _ s, Ok s) (λ _ _ _ s, Ok s)) 400000 1 (udp_host 5000) =
      (s ← recv_call 9 3 BLOCK 400000 (v4_addr ADDR2) 4000 s';
       Ok (ERR_OK, set_ps (on_ip (set_ip_data (IpGlobals None None 0 0 IPADDR_ANY IPADDR_ANY)) s) (udp_host 5000))) ∧
    content (dat s') [(400000, grown (-28) (packet_struct 32))] = Some [1; 2; 3; 4].
Proof.
  destruct (ip4_input_udp (λ _ _ s, Ok s) (λ _ _ _ s, Ok s) (udp_host 5000) 400000 (packet_struct 32) [] [] dgram_hdr (dgram_msg 5000) 1 (host_if 1500) BLOCK the_block 9)
    as (s' & Hrun & _ & _ & Hc & _).
  - exact udp_host_for_inp.
  - vm_compute. discriminate.
  - vm_compute. reflexivity.
  - vm_compute. discriminate.
  - exact udp3_ok.
  - vm_compute. reflexivity.
  - exact udp3_block.
  - reflexivity.
  - exists s'. split; [exact Hrun|exact Hc].
Defined.

(** A datagram to the port 5001 as udp_input gets it. *)
Definition closed_state : pstate umem :=
  putp 400000 (grown (- 20) (packet_struct 32))
    (on_ip (set_ip_data (IpGlobals (Some 1) (Some 1) 500000 20 ADDR2 ADDR1)) (host_with (udp3, tt) 1500 (dgram_hdr ++ dgram_msg 5001))).

Lemma closed_dgram : dgram_in closed_state 400000 (grown (- 20) (packet_struct 32)) [] [] dgram_hdr (dgram_msg 5001) 1 (host_if 1500) (host_if 1500) ADDR2 ADDR1.
Proof.
  split; [|vm_compute; discriminate|reflexivity|by exists 1, 500000|vm_compute; split; discriminate].
  assert (Hg : grown 20 (grown (- 20) (packet_struct 32)) = packet_struct (zlen (dgram_hdr ++ dgram_msg 5001))) by reflexivity.
  split; change (zlen dgram_hdr) with 20; rewrite ?Hg.
  - apply lookup_insert_eq.
  - unfold closed_state. rewrite putp_putp. rewrite putp_id by (cbn [on_ip set_al pb host_with]; apply lookup_singleton_eq).
    eapply (excl_same (host_with (udp3, tt) 1500 (dgram_hdr ++ dgram_msg 5001))); [reflexivity..|apply host_excl].
  - split; done.
  - apply host_lens. vm_compute. discriminate.
  - vm_compute. discriminate.
  - constructor.
  - exact (host_content (udp3, tt) 1500 (dgram_hdr ++ dgram_msg 5001)).
Qed.

Lemma closed_fine : net_fine (al closed_state).
Proof.
  split; [split; [by repeat constructor|by intros n [= <-]|done]|]. intros n i Hi. cbn in Hi. apply lookup_singleton_Some in Hi as [<- <-]. right. vm_compute. split; discriminate.
Qed.

Lemma udp_input_unreachable_witness : ∃ s', udp_input4 400000 1 closed_state = Ok s' ∧ pb s' = ∅ ∧ pcbs (udp_of s') = pcbs udp3 ∧ length (log s') = 1%nat.
Proof.
  destruct (udp_input_unreachable closed_state 400000 (grown (- 20) (packet_struct 32)) [] [] dgram_hdr (dgram_msg 5001) 1 (host_if 1500) (host_if 1500) ADDR2 ADDR1)
    as (s' & Hrun & _ & _ & _ & _ & Hp & Hres).
  - exact udp3_ok.
  - exact closed_dgram.
  - exact closed_fine.
  - vm_compute. reflexivity.
  - vm_compute. reflexivity.
  - exists s'. split; [exact Hrun|]. cbv zeta in Hres.
    replace (if _ && _ then _ else _) with (Ok (Some 1) : res (option Z)) in Hres by (vm_compute; reflexivity).
    destruct Hres as (j & e & Hj & Hs & Hacc). replace j with (host_if 1500) in Hs, Hacc by (vm_compute in Hj |- *; congruence).
    split; [eapply (accounted_empty closed_state s' 400000); [vm_compute; reflexivity|]; apply Hacc; vm_compute; reflexivity|]. split; [exact Hp|].
    unfold sent_as in Hs. replace (too_large _ _) with false in Hs by (vm_compute; reflexivity). rewrite Hs. reflexivity.
Defined.

(** ** A new address that is in use

    Two blocks with the same port, bound to 10.0.0.1 and 10.0.0.2; then the interface changes its
    address from the first to the second, and both blocks are bound to the same address. *)
Definition BLOCK2 : Z := 700152.
Definition two_blocks : blocks :=
  then_do (U_bind BLOCK2 (Some (v4_addr ADDR2)) 5000) (then_do (U_new IPADDR_TYPE_V4) (then_do (U_bind BLOCK (Some (v4_addr ADDR1)) 5000) udp1)).
Definition moved : blocks := then_do (U_addr_changed (Some (v4_addr ADDR1)) (Some (v4_addr ADDR2))) two_blocks.

Lemma addr_changed_clash : udp_pcbs moved = [BLOCK2; BLOCK] ∧
  ∃ b b', pcbs moved !! BLOCK = Some b ∧ pcbs moved !! BLOCK2 = Some b' ∧ clash b b' = true.
Proof.
  split; [vm_compute; reflexivity|]. eexists _, _. split; [vm_compute; reflexivity|]. split; [vm_compute; reflexivity|]. vm_compute. reflexivity.
Qed.
